(* ===== verification/_CoqProject ===== *)
-Q . S2P
Prelude.v
GoLib.v
Ordering.v
Pmax.v
SimArray.v
Journal.v
Base64.v
Crd.v
Reconcile.v
Locks.v
Pending.v
PowerMax.v
Metro.v
Replication.v
VolumeID.v
DeletionWorker.v
DeletionSafety.v
ProxyLocks.v
ProxyHealth.v
Capacity.v
Masking.v
PortGroups.v
Trace.v
SimMasking.v
StorageGroups.v
Handler.v
Files.v
Publish.v
Rpc.v
Deletion.v
Sizes.v
Creator.v
Snapshots.v
GroupSnapshots.v
Reclaim.v
ProxyConf.v
ProxyServer.v
ProxyRequests.v
RepRequests.v
Addons.v
MetroLease.v
MetroService.v
NodeMount.v
Frame.v
NodeTargets.v
NodeHosts.v
Bootstrap.v
NodeService.v
Protected.v
Migration.v
Provision.v
MetroCreator.v
LegacyCreator.v
ControllerRequests.v
