(* ===== verification/Prelude.v ===== *)
(** * The CSI driver for PowerMax: a verification development

    The repository holds a Kubernetes storage driver for Dell PowerMax arrays
    and a reverse proxy in front of the arrays' management service (Unisphere).
    This library models the parts that keep state and take decisions, as
    executable definitions translated from the Go sources, and proves what makes
    them correct.

    ** The program's parts

    The controller creates, publishes and deletes volumes through a Unisphere
    client (package gopowermax, not part of the repository). Around it:
    - a request to create a volume picks an array by zone, capacity and load and
      goes on to another when one cannot be reached; the volume gets the least
      number of cylinders that fits, in a storage group chosen by the number of
      its volumes, and a repeated request finds the volume it made;
    - a volume is published to a node by adding it to the node's storage group
      and masking view; requests for the same group are queued and served in
      batches by whoever holds the group's lock, and what the node needs to find
      the device comes back as a map of short strings;
    - file systems on NAS servers are created, exported and expanded likewise;
    - deletions are not executed by the request that asks for them: the volume
      is renamed with a [_DEL] mark and a background worker takes it out of its
      storage groups, cleans up its snapshots and deletes it;
    - snapshots of a device are created, linked to new volumes and terminated
      under a lock of the device, and a worker removes temporary ones; volumes of
      one storage group can be snapshotted together;
    - requests that touch the same object are serialised by a lock manager, a
      goroutine that grants locks in the order of the requests, and a table
      limits the requests in progress per volume;
    - volumes can be replicated between two arrays by SRDF; for the active/active
      mode (Metro) the driver picks the array to talk to, notices site failures,
      and keeps operations it could not finish in a journal that is replayed when
      the failed site is back;
    - a node sets itself up as a host of its arrays, finds their targets and logs
      in, connects the device of a volume from one array or from both of a Metro
      pair, and mounts it for pods through a private mount of its own;
    - volumes can be migrated into replication, and whole arrays to others;
    - when it starts, the driver reads its options and the secret with its arrays,
      keeps those of the node's zone and makes their clients;
    - on every node a schedule trims the file systems and devices of volumes whose
      claims allow it, so that the array gets unused space back;
    - the reverse proxy checks who may use which array, sends requests on to the
      Unisphere of the array with its own credentials, bounds the requests each
      Unisphere gets, watches its health to fail over to a backup, caches
      iterators, and follows changes of its configuration while it runs.

    ** Files

    - [Prelude]: results, machine integers, durations, list lemmas, tactics.
    - [GoLib]: Go's strings and strconv, errors and gRPC statuses, the monad
      [M W A] of code that calls the array (a world [W] is passed along, [None]
      is a panic) and postconditions [post] for it. [Ordering]: package sort and
      float64. [Handler]: notation and rules for code that returns at the first
      error.
    - [Pmax]: the interface of the Unisphere client as a class over the type of
      clients and of worlds; [SimArray]: a simulated array, an instance of it on
      which hypotheses about clients are shown to hold.
    - [Journal] (pkg/symmetrix/volumejournal.go): the journal of deferred
      operations, over an interface [CrdOps] of its backend.
    - [Crd] (pkg/symmetrix/volumejournal_crd.go, deferOperation of
      service/service.go): the backend on Kubernetes resources, an implementation
      of [CrdOps] with its lease, over a class of API calls and their laws;
      [Base64]: the encoding of its request field.
    - [Reconcile] (pkg/symmetrix/reconciliation.go): site states, backoff and the
      replay of the journal.
    - [Locks] (service/locks.go): the lock manager as a step relation.
    - [Pending] (service/pending.go): the table of requests in progress.
    - [PowerMax] (pkg/symmetrix/powermax.go, service/version_cache.go,
      service/backend_selection.go): registry of arrays, timed caches, names and
      versions.
    - [Metro] (pkg/symmetrix/metro.go, GetPowerMaxClient): routing within a Metro
      pair, watchers, the check of the state of a pair, caches of its results.
    - [Replication] (service/replication.go): names of protected storage groups,
      RDF groups, protection, and the SRDF actions.
    - [VolumeID] (service/controller.go): ids of volumes, snapshots, initiators.
    - [DeletionWorker] (service/deletion_worker.go) and [DeletionSafety]: the
      worker, its request handler and loop, and the proofs about them.
    - [Capacity] (service/capacity_selection.go, capacity_poller.go, the topology
      functions and the retry loop of CreateVolume in service/controller.go).
    - [Masking]: hosts, storage groups, views and ports as calls of a client;
      [Trace]: the changes a computation makes, recorded ([logs]);
      [SimMasking]: a simulated array for them. [PortGroups] and [StorageGroups]
      (service/storage_group_svc.go, parts of controller.go and node.go): names,
      port groups, and the service that changes masking in batches.
    - [Files] (pkg/file/file.go): file systems and NFS exports.
    - [Publish] (service/volume_publisher.go, parts of controller.go): both
      publishers, unpublication and the publish context.
    - [Rpc]: the tables of requests in progress around a request.
    - [Deletion] (DeleteVolume of service/controller.go): what is handed to the
      worker.
    - [Sizes] (service/controller.go, service/volume_creator.go): sizes, pools,
      storage groups by count, GetCapacity and ControllerExpandVolume.
    - [Creator] (service/volume_creator.go): creation over the 10.4 interface,
      over the class [ServiceDeps] of what it needs of the service.
    - [Snapshots] (service/snap.go, CreateSnapshot and DeleteSnapshot).
    - [GroupSnapshots] (service/group_controller.go): snapshots of several volumes
      of a storage group.
    - [RepRequests] (the requests of the replication extension in
      service/controller.go): protection of a volume, its remote copy, status,
      actions and deletion of a protected group.
    - [Addons] (service/csiaddons_helpers.go, csiaddons_replication.go,
      csiaddons_volumegroup.go): volume groups and their replication for CSI-Addons.
    - [MetroLease] (triggerReconciliation and its lease in service/service.go): who
      replays the journal of an array, with the programs of several replicas
      interleaved, each with a clock of its own. [MetroService] (the other Metro functions of
      service/service.go): checks of a pair, the operations that are replayed, the
      start of the journal.
    - [Protected] (parts of service/controller.go and replication.go): protected
      storage groups. [Migration] (pkg/migration/migration.go,
      service/migration.go).
    - [Provision], [MetroCreator] (createMetroVolume of service/controller.go) and
      [LegacyCreator] (the older creator of service/volume_creator.go,
      doCreateVolume): creation with replication, of Metro volumes, and over the
      interfaces before 10.4.
    - [ControllerRequests] (service/controller.go, service/identity.go): the handlers
      of publication, validation and the state of a volume; probes and
      capabilities.
    - [NodeMount] (service/mount.go, service/fscheck.go): mounts of a node.
      [Frame]: rules for computations that keep an invariant of the world.
      [NodeTargets] (service/node.go, service/nvmetcp_conn_mode.go): targets and
      logins. [NodeHosts] (service/node.go): hosts of a node and their adoption.
      [NodeService] (service/node.go): staging, publication and their undoing.
    - [Bootstrap] (service/service.go): options, arrays, zones, clients.
    - [Reclaim] (service/space_reclamation.go): eligibility, devices and mounts, the
      work on a volume, and the cycle with its goroutines as a step relation.
    - [ProxyLocks] (csireverseproxy/pkg/utils/locks.go, utils.go and the use in
      pkg/proxy/proxy.go): admission of requests per Unisphere.
    - [ProxyHealth] (csireverseproxy/pkg/common/common.go, pkg/cache/cache.go):
      health monitor and iterator cache.
    - [ProxyConf] (csireverseproxy/pkg/config/config.go, pkg/k8sutils/k8sutils.go):
      the configuration from the config map or the secret, users and servers of
      arrays, changes of secrets; Go's map order is the class [MapOrder].
    - [ProxyServer] (pkg/common/envoy.go, parts of pkg/proxy/proxy.go, main.go of
      csireverseproxy): envoys, their update to a new configuration, envoy by envoy
      with the configuration last, and the handlers of changed files and secrets as
      a step relation.
    - [ProxyRequests] (pkg/proxy/proxy.go): the handlers of requests, over classes
      of what the management servers, the locks and the JSON decoders answer; what
      updates and other requests do to the proxy in between is an argument.

    Records have the fields of the Go structs, functions their names (with the
    receiver in front, or an underscore behind, where a name is taken). Mutable
    state is passed explicitly; a slice of pointers whose elements are changed
    in place is a list that is returned updated; channels are lists; goroutines
    are rules of a step relation. Log output is left out. The clock is an
    argument, or part of the world of a computation.

    ** What the theorems show

    - Choice of an array: the selected one is the best of those available
      ([select_array_best]), whatever order Go's maps are read in (lemma
      [topology_order_independent]); the retry loop of CreateVolume tries each
      array at most once (lemma [failover_terminates]); polling warns exactly when an
      array crosses its threshold.
    - Creation: sizes are least and agree between the interfaces ([sizes_agree]),
      a storage group is always found (lemma [dynamic_sg_spec]), a repeated request
      gives the same volume ([create_retry_same_volume]), whose id leads back to
      it ([created_volume_found]); growing is idempotent and never shrinks. Over the
      older interface a volume that is answered is the one that was asked for, filled
      from its source or replicated ([legacy_create_sound]); a Metro volume has its
      copy or a queued pairing ([metro_pair_or_queued]). Both say which other volume
      may be answered when the array lists several under the identifier.
    - Publication: every waiting request for an array with a client is answered
      once and after finitely many runs ([requests_answered_once], lemma
      [publish_wait_ends]; without a client it is not, [lost_request]), nothing but
      the devices and objects of the requests is touched, boot volumes never
      ([service_protects_others]), the node gets the WWN, address and ports of the
      device ([publish_usable_context]) and reads what the controller wrote
      ([publish_context_roundtrip]), unpublication takes back what publication
      did when the volume is in one group of the node ([unpublish_undoes_publish]);
      exports of file systems have a life cycle ([nfs_export_lifecycle]). A
      request for a volume is refused while another is in progress
      ([volume_requests_exclusive]), and a validation confirms exactly the
      capabilities the driver has ([validation_exact]).
    - Node: only the paths of the request and of the driver are touched
      ([node_paths_confined]), and unpublication takes back what publication mounted
      on a node whose mount table behaves ([node_publish_roundtrip]); staged targets
      are those of the publish context at portals the array gave for the configured
      port groups ([staged_targets_configured]), and none is logged in to when
      the host manages the sessions ([host_managed_no_fabric]); reports of a path do
      not depend on other paths ([path_reports_reference]). A node changes only its
      own hosts ([host_setup_only_own]) and adopts a host only by the rules
      ([adoption_sound]). A Metro volume published on both arrays is staged only
      with the devices of both ([metro_stage_both_legs]), and unstaging removes only its own device
      ([unstage_only_own]).
    - Start: the arrays a node keeps are those of its zone ([zone_filter_exact]), and
      the options are in their ranges ([options_well_formed]).
    - Migration: the groups of the target get the partners of the volumes, when a
      first attempt and the commit succeed without a restart in between
      ([migration_keeps_groups]), and a commit follows the synchronization and adds
      volumes only when every session is committed ([commit_in_order]); a protected group is created only for an RDF
      group that is free ([rdf_group_exclusive]).
    - Deletion: a volume in use is refused, an interrupted deletion is taken up
      again and queued under a handle the worker accepts, unless the handle had to be
      cut ([interrupted_delete_resumes]); in every reachable
      state the range handed to the array holds only devices that carry the mark
      and were checked in the same step ([deletion_only_checked]), queues stay
      well formed (lemma [deletion_queue_invariant]), a deletion that succeeds
      shrinks the queue (lemma [deletion_progress]).
    - Snapshots: the deletion of one ends no other ([delete_snapshot_only_named]),
      nor does that of a group ([delete_group_only_named]); a group's creation can
      be repeated ([group_create_retry]) and its ids lead back to it
      ([created_group_found]).
    - Journal: an invariant of every sequence of calls, refinement of a finite
      map on every branch; replay terminates, reports in order and drains the
      journal. On the cluster: what is deferred is listed by every replica of
      the driver instance, unless this controller remembers it already
      ([deferred_is_persisted]), what is settled or removed
      no longer (lemma [crd_settle_listed]).
    - Locks: mutual exclusion and first-come first-served order in every
      reachable state.
    - Metro: the client handed out is that of an array of the pair and of the
      winner when there is one; what the check of a pair may answer. At most one
      replica replays the operations of an array at a time ([reconcile_exclusive]), as
      long as clocks and late runs stay within what the lease has to spare, a
      recovered site is reconciled unless it is the winner
      ([recovery_reconciled_unless_winner]), and a replayed pairing reports success
      only for a pair that was seen active and touches none in an unsafe state
      ([pairing_outcome_sound]).
    - SRDF: a failover does on every branch what a reference decides
      ([failover_implements_plan]); requests
      change only what they name ([rep_requests_only_named]) and what the protection
      of a volume answers can be used by them ([created_group_usable]).
    - CSI-Addons: promotion, demotion and resynchronization keep the roles of the
      two sides of a link ([addons_roles], over laws of what an SRDF action does);
      requests change only the group they name ([addons_only_named]), whose id reads
      back ([created_volume_group_usable]); its members become exactly those asked
      for ([modify_membership_exact]), and the pages of the list of groups are the
      list ([list_pages_complete]).
    - Space reclamation: in every reachable state no more volumes than allowed are
      worked on, none twice, and only volumes that the cluster listed, that are not
      shared for writing and whose claims allow it ([reclaim_safe]); a cycle ends with everything given back
      ([reclaim_cycle_ends]).
    - Proxy: only requests of callers that may use an array are sent on, to a server
      of that array and, while no update is under way, always with its credentials
      ([proxy_sends_only_authorized]; during one the caller's own header may go out,
      [caller_header_forwarded]), and these are ([authorized_request_is_served]); who may use what is what the
      secrets say ([proxy_authorizes_exactly]); the running proxy follows its
      configuration ([proxy_follows_config]) and an update is as good as a restart
      ([update_config_rebuilds]); the bound on active requests.
    Lemmas and examples on behaviour the code does not intend (a lock manager
    that hangs, a lock that is kept, a failure counted twice, a name that is
    cut and forgotten, a size that overflows) are stated as what the code does.

    ** Bounds and fuel

    Recursion follows the lists the code ranges over. The replay loop of
    [Reconcile] recurses on the retries that remain, which the loop consumes
    ([reconcile_terminates]); the pruning loop on the length of the slice; the
    digits of a number on 64 steps, enough for 64-bit integers in any base
    ([digits_spec]); the wait for the lease on the timer ticks before the
    context ends; the retry loop of CreateVolume on [MaxFailoverRetries], its
    own bound; the wait for the storage group service on the length of the
    queue ([publish_wait_ends]); the search for a free storage group on one more
    than the number of groups ([find_name_total]); retries on the bounds of the
    code (20 queries for hosts and initiators, 3 disconnections, 10 passes over
    the mounts, the attempts to log in to an array). Counters are unbounded integers except where they are
    declared with a width that matters ([wrap32], [wrap64]).

    ** What is not modelled

    Not modelled: metrics and the interceptors that feed them, the topology,
    limits and statistics a node reports, the expansion of a mounted file system,
    the service that tells pods about connectivity, the start of the servers and
    workers, the files (package viper) and the router (package mux) of the proxy,
    requests answered as unimplemented, and the calls of the operating system, of
    Kubernetes and vSphere. Interleavings are at the level of the rules: a
    step of a goroutine that makes several calls is one rule, with arbitrary
    changes of the arrays between rules. The cancellation of a request is left
    out. The JSON text of an operation is a parameter of [Crd], with its round
    trip for ASCII strings as a law. *)

From stdpp Require Import base gmap strings list sorting.
From Stdlib Require Import ZArith Lia.

Open Scope Z_scope.

(** ** Results of fallible Go code

    A Go function that returns [(T, error)] is a function into [result E T];
    a function that returns only [error] is a function into [option E] or, with
    state, into [S * option E]. *)
Inductive result (E A : Type) : Type :=
| Ok (a : A)
| Err (e : E).
Arguments Ok {E A} a.
Arguments Err {E A} e.

Definition is_ok {E A} (r : result E A) : bool :=
  match r with Ok _ => true | Err _ => false end.

(** ** Machine integers and durations

    [time.Duration] and [int] are 64-bit two's complement integers; arithmetic
    on them wraps around. *)
Definition wrap64 (z : Z) : Z := (z + 2 ^ 63) mod 2 ^ 64 - 2 ^ 63.
Definition wrap32 (z : Z) : Z := (z + 2 ^ 31) mod 2 ^ 32 - 2 ^ 31.

Definition in64 (z : Z) : Prop := - 2 ^ 63 <= z < 2 ^ 63.
Definition in32 (z : Z) : Prop := - 2 ^ 31 <= z < 2 ^ 31.

Lemma wrap64_id z : in64 z → wrap64 z = z.
Proof. unfold in64, wrap64. intros H. rewrite Z.mod_small; lia. Qed.

Lemma wrap64_range z : in64 (wrap64 z).
Proof.
  unfold in64, wrap64.
  pose proof (Z.mod_pos_bound (z + 2 ^ 63) (2 ^ 64) ltac:(lia)). lia.
Qed.

Lemma wrap32_id z : in32 z → wrap32 z = z.
Proof. unfold in32, wrap32. intros H. rewrite Z.mod_small; lia. Qed.

Lemma wrap32_range z : in32 (wrap32 z).
Proof.
  unfold in32, wrap32.
  pose proof (Z.mod_pos_bound (z + 2 ^ 31) (2 ^ 32) ltac:(lia)). lia.
Qed.

(** Durations in nanoseconds. *)
Definition Second : Z := 1000000000.
Definition Minute : Z := 60 * Second.

Definition maxDuration : Z := 2 ^ 63 - 1.
Definition minDuration : Z := - 2 ^ 63.

(** [t.Sub(u)] (and [time.Since]) saturates at the extreme durations. Instants
    are unbounded integers, in nanoseconds. *)
Definition timeSub (t u : Z) : Z := Z.max minDuration (Z.min maxDuration (t - u)).

Lemma timeSub_mono t u v : u <= v → timeSub t v <= timeSub t u.
Proof. unfold timeSub. lia. Qed.

(** ** Lists *)
Section lists.
Context {A B : Type}.
Implicit Types (l : list A) (f : A → B).

(** The loop [for i := range xs { if P(xs[i]) { ... xs[i] = y; return } }]
    works on the first index that satisfies [P]. *)
Lemma list_find_split (P : A → Prop) `{∀ x, Decision (P x)} l i x :
  list_find P l = Some (i, x) →
  ∃ l1 l2, l = l1 ++ x :: l2 ∧ length l1 = i ∧ P x ∧ Forall (λ y, ¬ P y) l1.
Proof.
  intros (Hi & Hx & Hbefore)%list_find_Some.
  exists (take i l), (drop (S i) l).
  pose proof (lookup_lt_Some _ _ _ Hi) as Hlt.
  split; [symmetry; by apply take_drop_middle|].
  split; [rewrite length_take; lia|]. split; [done|].
  apply Forall_lookup. intros k y Hk.
  apply lookup_take_Some in Hk as [Hk ?]. by eapply Hbefore.
Qed.

Lemma insert_middle (l1 l2 : list A) x y : <[length l1 := y]> (l1 ++ x :: l2) = l1 ++ y :: l2.
Proof. rewrite insert_app_r_alt by lia. by rewrite Nat.sub_diag. Qed.

Lemma delete_middle' (l1 l2 : list A) x : delete (length l1) (l1 ++ x :: l2) = l1 ++ l2.
Proof. apply delete_middle. Qed.

(** Replacing an element by one with the same image keeps the images. *)
Lemma fmap_middle f (l1 l2 : list A) x y :
  f x = f y → f <$> (l1 ++ x :: l2) = f <$> (l1 ++ y :: l2).
Proof. intros E. rewrite !fmap_app, !fmap_cons. by rewrite E. Qed.

Lemma NoDup_middle_inv (l1 l2 : list A) x :
  NoDup (l1 ++ x :: l2) → NoDup (l1 ++ l2) ∧ x ∉ l1 ++ l2.
Proof.
  intros H. apply NoDup_Permutation_proper with (y := x :: l1 ++ l2) in H.
  - apply NoDup_cons in H as [??]. done.
  - apply Permutation_sym, Permutation_middle.
Qed.
End lists.

Lemma NoDup_fmap_middle_inv {A B} (f : A → B) (l1 l2 : list A) x :
  NoDup (f <$> (l1 ++ x :: l2)) → NoDup (f <$> (l1 ++ l2)) ∧ f x ∉ f <$> (l1 ++ l2).
Proof. rewrite !fmap_app, fmap_cons. apply NoDup_middle_inv. Qed.

(** Elements with the same image under a duplicate-free projection are equal. *)
Lemma NoDup_fmap_elem_eq {A B} (f : A → B) (l : list A) x y :
  NoDup (f <$> l) → x ∈ l → y ∈ l → f x = f y → x = y.
Proof.
  intros Hnd (i & Hi)%list_elem_of_lookup (k & Hk)%list_elem_of_lookup E.
  assert (i = k) as ->; [|congruence].
  eapply (NoDup_lookup _ _ _ (f x)); [exact Hnd| |]; rewrite list_lookup_fmap.
  - by rewrite Hi.
  - rewrite Hk. simpl. congruence.
Qed.

Lemma filter_nil_2 {A} (P : A → Prop) `{∀ x, Decision (P x)} (l : list A) :
  (∀ x, x ∈ l → ¬ P x) → filter P l = [].
Proof.
  intros Hl. destruct (filter P l) as [|x l'] eqn:E; [done|].
  assert (x ∈ filter P l) as [? ?]%list_elem_of_filter by (rewrite E; left). by destruct (Hl x).
Qed.

(** ** Automation *)
Create HintDb driver.
Create Rewrite HintDb driver.

(** Case analysis on the scrutinee of a [match] in the goal or a hypothesis,
    with the equation kept and contradictory cases closed. *)
Ltac case_step :=
  match goal with
  | |- context [match ?x with _ => _ end] => destruct x eqn:?
  | H : context [match ?x with _ => _ end] |- _ => destruct x eqn:?
  end; simplify_eq/=.
Ltac case_all := repeat (case_step; try done).

(** Reflect boolean comparisons of integers into propositions. *)
Ltac bool_to_prop :=
  repeat match goal with
  | H : andb _ _ = true |- _ => apply andb_true_iff in H as [? ?]
  | H : orb _ _ = false |- _ => apply orb_false_iff in H as [? ?]
  | H : negb _ = true |- _ => apply negb_true_iff in H
  | H : negb _ = false |- _ => apply negb_false_iff in H
  | H : Z.leb _ _ = true |- _ => apply Z.leb_le in H
  | H : Z.leb _ _ = false |- _ => apply Z.leb_gt in H
  | H : Z.ltb _ _ = true |- _ => apply Z.ltb_lt in H
  | H : Z.ltb _ _ = false |- _ => apply Z.ltb_ge in H
  | H : Z.eqb _ _ = true |- _ => apply Z.eqb_eq in H
  | H : Z.eqb _ _ = false |- _ => apply Z.eqb_neq in H
  | H : Nat.leb _ _ = true |- _ => apply Nat.leb_le in H
  | H : Nat.leb _ _ = false |- _ => apply Nat.leb_gt in H
  | H : bool_decide _ = true |- _ => apply bool_decide_eq_true in H
  | H : bool_decide _ = false |- _ => apply bool_decide_eq_false in H
  end.
