(* ===== verification/GoLib.v ===== *)
(** * Go's strings, strconv and error values

    The parts of Go's standard library the driver's string handling relies on:
    prefixes, substrings and splitting ([strings]), integer parsing and printing
    ([strconv], [fmt]), errors with and without a gRPC status code, and the
    monad in which code that calls the array runs. *)

From stdpp Require Import base gmap strings list.
From Stdlib Require Import ZArith Lia Ascii.
From S2P Require Import Prelude.

Open Scope string_scope.
Open Scope Z_scope.

(** ** Package strings *)
Definition slen (s : string) : Z := Z.of_nat (String.length s).

Definition HasPrefix (s p : string) : bool := String.prefix p s.

(** [s[n:]] *)
Fixpoint sdrop (n : nat) (s : string) : string :=
  match n, s with
  | S n, String _ s => sdrop n s
  | _, _ => s
  end.

(** [s[:n]] *)
Fixpoint stake (n : nat) (s : string) : string :=
  match n, s with
  | S n, String c s => String c (stake n s)
  | _, _ => ""
  end.

Definition TrimPrefix (s p : string) : string :=
  if HasPrefix s p then sdrop (String.length p) s else s.

(** The offset of the first occurrence of [sub], -1 when there is none. *)
Definition Index (s sub : string) : Z :=
  match String.index 0 sub s with Some n => Z.of_nat n | None => -1 end.

Definition Contains (s sub : string) : bool := 0 <=? Index s sub.

(** [strings.Split] with a separator of one character. *)
Fixpoint Split (c : ascii) (s : string) : list string :=
  match s with
  | "" => [""]
  | String d s' =>
      if (d =? c)%char then "" :: Split c s'
      else match Split c s' with
           | x :: xs => String d x :: xs
           | [] => [String d ""]
           end
  end.

Fixpoint Join (sep : string) (l : list string) : string :=
  match l with
  | [] => ""
  | [x] => x
  | x :: xs => x ++ sep ++ Join sep xs
  end.

(** [strings.TrimLeft], [strings.TrimRight] and [strings.Trim] with a cutset of one character. *)
Fixpoint TrimLeft (c : ascii) (s : string) : string :=
  match s with
  | String d s' => if (d =? c)%char then TrimLeft c s' else s
  | "" => ""
  end.
Fixpoint TrimRight (c : ascii) (s : string) : string :=
  match s with
  | "" => ""
  | String d s' =>
      match TrimRight c s' with
      | "" => if (d =? c)%char then "" else String d ""
      | t => String d t
      end
  end.
Definition Trim (c : ascii) (s : string) : string := TrimRight c (TrimLeft c s).

(** [strings.TrimSpace] on ASCII text. *)
Definition is_space (c : ascii) : bool :=
  let n := nat_of_ascii c in (n =? 32)%nat || ((9 <=? n)%nat && (n <=? 13)%nat).
Fixpoint trim_front (s : string) : string :=
  match s with String c s' => if is_space c then trim_front s' else s | "" => "" end.
Fixpoint trim_back (s : string) : string :=
  match s with
  | "" => ""
  | String c s' => match trim_back s' with "" => if is_space c then "" else String c "" | t => String c t end
  end.
Definition TrimSpace (s : string) : string := trim_back (trim_front s).

(** Whether a character occurs in a string. *)
Fixpoint has_char (c : ascii) (s : string) : bool :=
  match s with "" => false | String d s' => (d =? c)%char || has_char c s' end.

(** ** Package strconv *)

(** The value of a digit of base at most 36, upper or lower case. *)
Definition char_value (c : ascii) : option Z :=
  let n := Z.of_nat (nat_of_ascii c) in
  if (48 <=? n) && (n <=? 57) then Some (n - 48)
  else if (97 <=? n) && (n <=? 122) then Some (n - 87)
  else if (65 <=? n) && (n <=? 90) then Some (n - 55)
  else None.

Fixpoint parse_digits (base acc : Z) (s : string) : option Z :=
  match s with
  | "" => Some acc
  | String c s' =>
      match char_value c with
      | Some d => if d <? base then parse_digits base (acc * base + d) s' else None
      | None => None
      end
  end.

(** [strconv.ParseInt(s, base, 64)]; [None] is any of its errors (no digits, an
    invalid digit, a value out of range). *)
Definition ParseInt (base : Z) (s : string) : option Z :=
  let '(neg, digits) :=
    match s with
    | String "-" s' => (true, s')
    | String "+" s' => (false, s')
    | _ => (false, s)
    end in
  match digits with
  | "" => None
  | _ =>
      match parse_digits base 0 digits with
      | Some n =>
          let v := if neg : bool then - n else n in
          if (- 2 ^ 63 <=? v) && (v <? 2 ^ 63) then Some v else None
      | None => None
      end
  end.

Definition Atoi (s : string) : option Z := ParseInt 10 s.

(** [n, _ := strconv.Atoi(s)]: the value that comes with an error is 0 for a
    malformed text and the nearest integer for one out of range. *)
Definition Atoi_value (s : string) : Z :=
  match Atoi s with
  | Some n => n
  | None =>
      let '(neg, ds) :=
        match s with
        | String "-" s' => (true, s')
        | String "+" s' => (false, s')
        | _ => (false, s)
        end in
      match ds, parse_digits 10 0 ds with
      | String _ _, Some _ => if neg : bool then - 2 ^ 63 else 2 ^ 63 - 1
      | _, _ => 0
      end
  end.

Definition digit_char (d : Z) : ascii :=
  ascii_of_nat (Z.to_nat (if d <? 10 then 48 + d else 87 + d)).

(** The digits of [n], most significant first, before [acc]. *)
Fixpoint to_digits (fuel : nat) (base n : Z) (acc : list Z) : list Z :=
  match fuel with
  | O => acc
  | S fuel => if n <? base then n :: acc else to_digits fuel base (n / base) (n mod base :: acc)
  end.

Fixpoint digits_string (l : list Z) : string :=
  match l with [] => "" | d :: l => String (digit_char d) (digits_string l) end.

(** Sixty-four digits are enough for a 64-bit integer in any base. *)
Definition digits (base n : Z) : list Z := to_digits 64 base n [].

Definition Itoa (n : Z) : string :=
  if n <? 0 then "-" ++ digits_string (digits 10 (- n)) else digits_string (digits 10 n).

(** [fmt.Sprintf("%05x", n)]: at least five characters, sign included. *)
Definition Sprintf_05x (n : Z) : string :=
  let ds := digits 16 (Z.abs n) in
  let width := if n <? 0 then 4%nat else 5%nat in
  let padded := digits_string (replicate (width - length ds) 0 ++ ds)%list in
  if n <? 0 then "-" ++ padded else padded.

(** [strings.ToUpper] on ASCII text. *)
Definition upper (c : ascii) : ascii :=
  let n := nat_of_ascii c in
  if (97 <=? n)%nat && (n <=? 122)%nat then ascii_of_nat (n - 32) else c.
Fixpoint ToUpper (s : string) : string :=
  match s with "" => "" | String c s => String (upper c) (ToUpper s) end.

(** [strings.ToLower] and [strings.EqualFold], on the ASCII letters. *)
Definition lower (c : ascii) : ascii :=
  let n := nat_of_ascii c in if (65 <=? n)%nat && (n <=? 90)%nat then ascii_of_nat (n + 32) else c.
Fixpoint ToLower (s : string) : string :=
  match s with "" => "" | String c s => String (lower c) (ToLower s) end.
Definition EqualFold (s t : string) : bool := bool_decide (ToLower s = ToLower t).

(** [%v] of a slice of strings. *)
Definition Sprint_strings (l : list string) : string := "[" ++ Join " " l ++ "]".

(** ** Errors

    An [error] is an opaque text or a gRPC status; the driver looks at the code
    of the latter and at the text of both. *)
Inductive code :=
| Internal | FailedPrecondition | Aborted | InvalidArgument | NotFound
| Unavailable | AlreadyExists | OutOfRange | ResourceExhausted | Unimplemented | Unknown.
#[global] Instance code_eq_dec : EqDecision code.
Proof. solve_decision. Defined.

Inductive error :=
| errorString (msg : string)
| statusError (c : code) (msg : string).
#[global] Instance error_eq_dec : EqDecision error.
Proof. solve_decision. Defined.

Definition code_string (c : code) : string :=
  match c with
  | Internal => "Internal" | FailedPrecondition => "FailedPrecondition" | Aborted => "Aborted"
  | InvalidArgument => "InvalidArgument" | NotFound => "NotFound" | Unavailable => "Unavailable"
  | AlreadyExists => "AlreadyExists" | OutOfRange => "OutOfRange"
  | ResourceExhausted => "ResourceExhausted" | Unimplemented => "Unimplemented" | Unknown => "Unknown"
  end.

(** [err.Error()] *)
Definition Error (e : error) : string :=
  match e with
  | errorString m => m
  | statusError c m => "rpc error: code = " ++ code_string c ++ " desc = " ++ m
  end.

(** ** Code that calls the array

    A computation reads and changes a world [W] (the arrays, the clock);
    [None] is a run-time panic. *)
Definition M (W A : Type) : Type := W → option (A * W).
Definition ret {W A} (a : A) : M W A := λ w, Some (a, w).
Definition panic {W A} : M W A := λ _, None.
Definition lift {W A} (f : W → A * W) : M W A := λ w, Some (f w).
Definition mbnd {W A B} (m : M W A) (k : A → M W B) : M W B :=
  λ w, match m w with Some (a, w') => k a w' | None => None end.

Declare Scope go_scope.
Delimit Scope go_scope with go.
Notation "'let*' x := m 'in' k" := (mbnd m (λ x, k))
  (at level 10, x binder, m at level 100, k at level 200) : go_scope.
Notation "m ;;* k" := (mbnd m (λ _, k)) (at level 199, right associativity) : go_scope.

(** [xs[i]] panics out of range. *)
Definition index {W A} (l : list A) (i : nat) : M W A :=
  match l !! i with Some a => ret a | None => panic end.

(** A [for] loop over a slice with loop state: [inl] goes on, [inr] returns
    from the enclosing function. *)
Fixpoint forM {W A S R} (body : A → S → M W (S + R)) (l : list A) (s : S) : M W (S + R) :=
  match l with
  | [] => ret (inl s)
  | x :: l =>
      mbnd (body x s) (λ r, match r with inl s' => forM body l s' | inr r => ret (inr r) end)
  end.

(** *** Lemmas *)
Lemma mbnd_Some {W A B} (m : M W A) (k : A → M W B) w b w' :
  mbnd m k w = Some (b, w') → ∃ a w1, m w = Some (a, w1) ∧ k a w1 = Some (b, w').
Proof. unfold mbnd. destruct (m w) as [[a w1]|]; [eauto|done]. Qed.

(** *** Postconditions

    [post m Q]: whatever the world, if [m] does not panic its result satisfies
    [Q]. *)
Definition post {W A} (m : M W A) (Q : A → Prop) : Prop := ∀ w a w', m w = Some (a, w') → Q a.

Section post.
Context {W : Type}.

Lemma post_ret {A} (a : A) (Q : A → Prop) : Q a → post (W:=W) (ret a) Q.
Proof. by intros HQ w ? w' [= <- <-]. Qed.

Lemma post_panic {A} (Q : A → Prop) : post (W:=W) panic Q.
Proof. by intros w a w'. Qed.

Lemma post_bind {A B} (m : M W A) (k : A → M W B) (P : A → Prop) (Q : B → Prop) :
  post m P → (∀ a, P a → post (k a) Q) → post (mbnd m k) Q.
Proof. intros Hm Hk w b w' (a & w1 & Ha & Hb)%mbnd_Some. eapply Hk; [|done]. by eapply Hm. Qed.

Lemma post_true {A} (m : M W A) : post m (λ _, True).
Proof. done. Qed.

Lemma post_weaken {A} (m : M W A) (P Q : A → Prop) : post m P → (∀ a, P a → Q a) → post m Q.
Proof. intros Hm HPQ w a w' E. by eapply HPQ, Hm. Qed.

(** A bind whose first part does not matter. *)
Lemma post_skip {A B} (m : M W A) (k : A → M W B) (Q : B → Prop) : (∀ a, post (k a) Q) → post (mbnd m k) Q.
Proof. intros Hk. by eapply post_bind; [apply post_true|auto]. Qed.
End post.

Lemma app_str_cons c s t : String c s ++ t = String c (s ++ t).
Proof. done. Qed.

Lemma app_str_nil s : s ++ "" = s.
Proof. induction s; [done|]. rewrite app_str_cons. congruence. Qed.

Lemma app_str_assoc a b c : (a ++ b) ++ c = a ++ (b ++ c).
Proof. induction a; [done|]. rewrite !app_str_cons. congruence. Qed.

Lemma sdrop_app p s : sdrop (String.length p) (p ++ s) = s.
Proof. induction p; [done|exact IHp]. Qed.

Lemma HasPrefix_app p s : HasPrefix (p ++ s) p = true.
Proof.
  unfold HasPrefix. induction p as [|c p IH]; [by destruct s|]. simpl. by destruct (ascii_dec c c).
Qed.

Lemma HasPrefix_spec s p : HasPrefix s p = true ↔ ∃ r, s = p ++ r.
Proof.
  split; [|intros [r ->]; apply HasPrefix_app].
  unfold HasPrefix. revert s. induction p as [|c p IH]; intros s H; [by exists s|].
  destruct s as [|d s]; simpl in H; [done|]. destruct (ascii_dec c d) as [->|]; [|done].
  destruct (IH _ H) as [r ->]. by exists r.
Qed.

Lemma TrimPrefix_app p s : TrimPrefix (p ++ s) p = s.
Proof. unfold TrimPrefix. by rewrite HasPrefix_app, sdrop_app. Qed.


Lemma TrimLeft_length c s : (String.length (TrimLeft c s) <= String.length s)%nat.
Proof. induction s as [|d s IH]; simpl; [done|]. destruct (_ =? _)%char; simpl; lia. Qed.
Lemma TrimRight_length c s : (String.length (TrimRight c s) <= String.length s)%nat.
Proof. induction s as [|d s IH]; simpl; [done|]. destruct (TrimRight c s); [destruct (_ =? _)%char|]; simpl in *; lia. Qed.

Lemma Contains_prefix p s : p ≠ "" → Contains (p ++ s) p = true.
Proof.
  intros Hp. unfold Contains, Index. destruct p as [|c p]; [done|].
  pose proof (HasPrefix_app (String c p) s) as E. unfold HasPrefix in E. rewrite app_str_cons in *.
  cbn [String.index]. by rewrite E.
Qed.

Lemma Split_nonempty c s : Split c s ≠ [].
Proof. destruct s; simpl; [done|]. case_match; [done|]. by case_match. Qed.

(** Splitting a text without separators gives the text. *)
Lemma Split_none c s : has_char c s = false → Split c s = [s].
Proof.
  induction s as [|d s IH]; [done|]. simpl. intros [-> H]%orb_false_iff. by rewrite IH.
Qed.

Lemma Split_app c a s :
  has_char c a = false → Split c (a ++ String c "" ++ s) = a :: Split c s.
Proof.
  change (String c "" ++ s) with (String c s).
  induction a as [|d a IH]; simpl; [by rewrite Ascii.eqb_refl|].
  intros [-> H]%orb_false_iff. by rewrite IH.
Qed.

(** [strings.Join] undoes [strings.Split]. *)
Lemma Join_Split c s : Join (String c "") (Split c s) = s.
Proof.
  induction s as [|d s IH]; [done|]. simpl. destruct (Ascii.eqb_spec d c) as [->|].
  - destruct (Split c s) as [|x xs] eqn:E; [by apply Split_nonempty in E|].
    change (String c (Join (String c "") (x :: xs)) = String c s). by rewrite IH.
  - destruct (Split c s) as [|x xs] eqn:E; [by apply Split_nonempty in E|].
    destruct xs; simpl in *; by rewrite <- IH.
Qed.

Lemma Split_app_gen c a s :
  Split c (a ++ String c "" ++ s) = (Split c a ++ Split c s)%list.
Proof.
  change (String c "" ++ s) with (String c s).
  induction a as [|d a IH]; simpl; [by rewrite Ascii.eqb_refl|].
  destruct (d =? c)%char; [by rewrite IH|]. rewrite IH.
  by destruct (Split c a) as [|x xs] eqn:E; [apply Split_nonempty in E|].
Qed.

(** *** Numbers *)
Definition value (base : Z) (acc : Z) (l : list Z) : Z := fold_left (λ a d, a * base + d) l acc.

Lemma char_value_digit d : 0 <= d < 16 → char_value (digit_char d) = Some d ∧ char_value (upper (digit_char d)) = Some d.
Proof.
  intros H. assert (d = 0 ∨ d = 1 ∨ d = 2 ∨ d = 3 ∨ d = 4 ∨ d = 5 ∨ d = 6 ∨ d = 7 ∨ d = 8 ∨ d = 9 ∨ d = 10 ∨ d = 11 ∨ d = 12 ∨ d = 13 ∨ d = 14 ∨ d = 15) as Hd by lia.
  repeat (destruct Hd as [->|Hd]; [split; reflexivity|]). subst. split; reflexivity.
Qed.

Lemma parse_digits_string base l acc :
  base <= 16 → Forall (λ d, 0 <= d < base) l →
  parse_digits base acc (digits_string l) = Some (value base acc l) ∧
  parse_digits base acc (ToUpper (digits_string l)) = Some (value base acc l).
Proof.
  intros Hb. revert acc. induction l as [|d l IH]; intros acc Hl; [done|].
  apply Forall_cons in Hl as [Hd Hl]. simpl.
  destruct (char_value_digit d ltac:(lia)) as [-> ->].
  destruct (Z.ltb_spec d base); [|lia]. destruct (IH (acc * base + d) Hl). auto.
Qed.

Lemma to_digits_spec fuel base n acc :
  2 <= base → 0 <= n < base ^ Z.of_nat fuel → Forall (λ d, 0 <= d < base) acc →
  value base 0 (to_digits fuel base n acc) = value base n acc ∧
  Forall (λ d, 0 <= d < base) (to_digits fuel base n acc) ∧
  (fuel ≠ O → to_digits fuel base n acc ≠ []).
Proof.
  intros Hb. revert n acc. induction fuel as [|fuel IH]; intros n acc Hn Hacc.
  - simpl in *. assert (n = 0) as -> by lia. done.
  - cbn [to_digits]. destruct (Z.ltb_spec n base).
    + split; [|split; [|done]].
      * unfold value. simpl. f_equal.
      * constructor; [lia|done].
    + pose proof (Z.div_mod n base ltac:(lia)). pose proof (Z.mod_pos_bound n base ltac:(lia)).
      destruct (IH (n / base) (n mod base :: acc)) as (Hv & Hf & Hne).
      * split; [apply Z.div_pos; lia|]. apply Z.div_lt_upper_bound; [lia|].
        rewrite Nat2Z.inj_succ, Z.pow_succ_r in Hn by lia. lia.
      * by constructor.
      * split; [|split; [done|]].
        -- rewrite Hv. unfold value. simpl. f_equal. lia.
        -- intros _. destruct fuel; [|by apply Hne]. simpl. done.
Qed.

Lemma digits_spec base n :
  2 <= base → 0 <= n < 2 ^ 64 →
  value base 0 (digits base n) = n ∧ Forall (λ d, 0 <= d < base) (digits base n) ∧ digits base n ≠ [].
Proof.
  intros Hb Hn. unfold digits.
  destruct (to_digits_spec 64 base n []) as (Hv & Hf & Hne); [done| |constructor|].
  - split; [lia|]. apply Z.lt_le_trans with (2 ^ 64); [lia|]. apply Z.pow_le_mono_l. lia.
  - split; [exact Hv|]. split; [done|]. by apply Hne.
Qed.

Lemma value_zeros base k l : value base 0 (replicate k 0 ++ l)%list = value base 0 l.
Proof. induction k; [done|]. simpl. by rewrite <- IHk. Qed.

(** A string of digits is neither empty nor signed. *)
Lemma ParseInt_digits base s n :
  s ≠ "" → parse_digits base 0 s = Some n → 0 <= n < 2 ^ 63 → ParseInt base s = Some n.
Proof.
  intros Hs Hp Hn. unfold ParseInt. destruct s as [|c s]; [done|].
  assert (c ≠ "-"%char ∧ c ≠ "+"%char) as [H1 H2].
  { split; intros ->; done. }
  assert (match String c s with
    | String "-" s' => (true, s') | String "+" s' => (false, s') | _ => (false, String c s) end
    = (false, String c s)) as ->.
  { destruct c as [[] [] [] [] [] [] [] []]; try reflexivity; [by destruct H2|by destruct H1]. }
  rewrite Hp. destruct (Z.leb_spec (- 2 ^ 63) n); [|lia]. destruct (Z.ltb_spec n (2 ^ 63)); [done|lia].
Qed.

Lemma Itoa_Atoi n : 0 <= n < 2 ^ 63 → Atoi (Itoa n) = Some n.
Proof.
  intros Hn. unfold Itoa. destruct (Z.ltb_spec n 0); [lia|].
  destruct (digits_spec 10 n) as (Hv & Hf & Hne); [lia..|].
  apply ParseInt_digits; [|rewrite <- Hv at 2; by apply parse_digits_string|done].
  by destruct (digits 10 n).
Qed.

Lemma parse_hex_padded k n :
  0 <= n < 2 ^ 63 →
  parse_digits 16 0 (ToUpper (digits_string (replicate k 0 ++ digits 16 n)%list)) = Some n.
Proof.
  intros Hn. destruct (digits_spec 16 n) as (Hv & Hf & Hne); [lia..|].
  assert (Forall (λ d, 0 <= d < 16) (replicate k 0 ++ digits 16 n)%list) as Hp.
  { apply Forall_app. split; [|done]. apply Forall_replicate. cbv beta. lia. }
  rewrite (proj2 (parse_digits_string 16 _ 0 ltac:(lia) Hp)). by rewrite value_zeros, Hv.
Qed.

(** Steps through a computation: results of calls are arbitrary, branches are
    split. *)
Ltac wp_step :=
  match goal with
  | |- post (ret _) _ => apply post_ret
  | |- post panic _ => apply post_panic
  | |- post (mbnd (lift _) _) _ => apply post_skip; intros ?
  | |- post (match ?x with _ => _ end) _ => destruct x eqn:?
  | |- post (mbnd (match ?x with _ => _ end) _) _ => destruct x eqn:?
  end; simpl in *.
Ltac wp := repeat wp_step.

(** ** Maps *)
(** [for k, v := range m]: the entries in some order. *)
Class MapOrder := {
  range : ∀ {K} `{Countable K} {V}, gmap K V → list (K * V);
  range_perm : ∀ {K} `{Countable K} {V} (m : gmap K V), range m ≡ₚ map_to_list m;
}.
