(* ===== verification/Ordering.v ===== *)
(** * Comparisons, sorting and floating-point order

    A comparison that behaves ([good]) can be pulled back along a function and
    combined lexicographically. [sort_by] is the insertion sort of package sort;
    for a good comparison every sorted permutation has the same head up to [Eq],
    so that what the driver takes from a sorted slice does not depend on the
    algorithm. float64 is the IEEE-754 format of the Standard Library's
    specification of floats (53 bits of mantissa). *)

From S2P Require Import Prelude.
From stdpp Require Import base strings list sets sorting.
From Stdlib Require Import ZArith Lia SpecFloat.

(** ** Comparisons *)
Record good {A} (cmp : A → A → comparison) : Prop := mkGood {
  good_sym x y : cmp y x = CompOpp (cmp x y);
  good_trans x y z : cmp x y = Lt → cmp y z = Lt → cmp x z = Lt;
  good_eq x y z : cmp x y = Eq → cmp x z = cmp y z;
}.
Arguments good_sym {A cmp}.
Arguments good_trans {A cmp}.
Arguments good_eq {A cmp}.

Definition lex (c d : comparison) : comparison := match c with Eq => d | _ => c end.

Section good.
Context {A B : Type}.

Lemma good_on (f : A → B) cmp : good cmp → good (λ x y, cmp (f x) (f y)).
Proof. intros G. split; intros; [apply G|by eapply (good_trans G)|by apply (good_eq G)]. Qed.

Lemma good_refl (cmp : A → A → comparison) x : good cmp → cmp x x = Eq.
Proof. intros G. pose proof (good_sym G x x) as H. by destruct (cmp x x). Qed.

Lemma good_lex (c d : A → A → comparison) : good c → good d → good (λ x y, lex (c x y) (d x y)).
Proof.
  intros Gc Gd. split.
  - intros x y. rewrite (good_sym Gc x y), (good_sym Gd x y). by destruct (c x y).
  - intros x y z. destruct (c x y) eqn:E1; simpl; [|intros _|done].
    + rewrite (good_eq Gc x y z E1). destruct (c y z); simpl; [|done|done]. apply (good_trans Gd).
    + destruct (c y z) eqn:E2; simpl; [intros _|intros _|done].
      * pose proof (good_eq Gc y z x E2) as H. rewrite (good_sym Gc x y), (good_sym Gc x z), E1 in H.
        by destruct (c x z).
      * by rewrite (good_trans Gc x y z E1 E2).
  - intros x y z. destruct (c x y) eqn:E1; simpl; [|done|done]. intros E2.
    rewrite (good_eq Gc x y z E1). by rewrite (good_eq Gd x y z E2).
Qed.
End good.

Lemma good_Z : good Z.compare.
Proof.
  split.
  - intros x y. apply Z.compare_antisym.
  - intros x y z. rewrite !Z.compare_lt_iff. lia.
  - intros x y z ->%Z.compare_eq_iff. done.
Qed.

Lemma good_ascii : good Ascii.compare.
Proof.
  unfold Ascii.compare. apply (good_on Ascii.N_of_ascii N.compare). split.
  - intros x y. apply N.compare_antisym.
  - intros x y z. rewrite !N.compare_lt_iff. lia.
  - intros x y z ->%N.compare_eq_iff. done.
Qed.

Lemma good_string : good String.compare.
Proof.
  split.
  - intros x y. by rewrite String.compare_antisym.
  - intros x. induction x as [|a x IH]; intros [|b y] [|c z]; simpl; try done.
    pose proof good_ascii as G.
    destruct (Ascii.compare a b) eqn:E1; [|intros _|done].
    + rewrite (good_eq G a b c E1). destruct (Ascii.compare b c); [apply IH|done|done].
    + destruct (Ascii.compare b c) eqn:E2; [intros _|intros _|done].
      * apply Ascii.compare_eq_iff in E2 as ->. by rewrite E1.
      * by rewrite (good_trans G a b c E1 E2).
  - intros x y z ->%String.compare_eq_iff. done.
Qed.

(** ** Sorting *)
Section sorting.
Context {A : Type} (less : A → A → bool).

Fixpoint insert_by (x : A) (l : list A) : list A :=
  match l with
  | [] => [x]
  | y :: l' => if less x y then x :: l else y :: insert_by x l'
  end.
(** The slice is sorted from the left: each element is moved past the greater
    ones before it. *)
Definition sort_by (l : list A) : list A := fold_left (λ acc x, insert_by x acc) l [].

Lemma insert_by_perm x l : insert_by x l ≡ₚ x :: l.
Proof.
  induction l as [|y l IH]; simpl; [done|]. destruct (less x y); [done|]. rewrite IH. apply Permutation_swap.
Qed.

Lemma sort_by_perm l : sort_by l ≡ₚ l.
Proof.
  unfold sort_by. assert (∀ acc, fold_left (λ acc x, insert_by x acc) l acc ≡ₚ acc ++ l) as H; [|apply H].
  induction l as [|x l IH]; intros acc; simpl; [by rewrite app_nil_r|].
  rewrite IH, insert_by_perm. apply Permutation_middle.
Qed.

(** No element is less than an earlier one. *)
Definition sorted_by (l : list A) : Prop := StronglySorted (λ x y, less y x = false) l.

Context (cmp : A → A → comparison) (Hgood : good cmp).

Lemma insert_by_sorted x l :
  (∀ a b, a ∈ x :: l → b ∈ x :: l → less a b = true ↔ cmp a b = Lt) →
  sorted_by l → sorted_by (insert_by x l).
Proof.
  intros Hless. induction l as [|y l IH]; intros Hs; simpl; [repeat constructor|].
  inversion Hs as [|? ? Hl Hy]; subst.
  assert (sorted_by (insert_by x l)) as Hrest.
  { apply IH; [|done]. intros a b Ha Hb. apply Hless; set_solver. }
  destruct (less x y) eqn:E.
  - constructor; [done|]. constructor.
    + destruct (less y x) eqn:E2; [|done]. apply Hless in E, E2; [|set_solver..].
      rewrite (good_sym Hgood x y), E in E2. done.
    + apply Forall_forall. intros z Hz. rewrite Forall_forall in Hy. specialize (Hy z Hz).
      destruct (less z x) eqn:E2; [|done]. apply Hless in E, E2; [|set_solver..].
      pose proof (good_trans Hgood z x y E2 E) as E3. apply Hless in E3; [|set_solver..]. congruence.
  - constructor; [done|]. apply Forall_forall. intros z Hz.
    apply (elem_of_Permutation_proper z _ _ (insert_by_perm x l)) in Hz.
    apply elem_of_cons in Hz as [->|Hz]; [done|]. rewrite Forall_forall in Hy. by apply Hy.
Qed.

Lemma sort_by_sorted l :
  (∀ a b, a ∈ l → b ∈ l → less a b = true ↔ cmp a b = Lt) → sorted_by (sort_by l).
Proof.
  unfold sort_by.
  assert (∀ acc, (∀ a b, a ∈ acc ++ l → b ∈ acc ++ l → less a b = true ↔ cmp a b = Lt) → sorted_by acc →
    sorted_by (fold_left (λ acc x, insert_by x acc) l acc)) as H.
  { induction l as [|x l IH]; intros acc Hless Hs; simpl; [done|]. apply IH.
    - intros a b Ha Hb. apply Hless; [revert Ha|revert Hb]; rewrite !elem_of_app, insert_by_perm; set_solver.
    - apply insert_by_sorted; [|done]. intros a b Ha Hb. apply Hless; set_solver. }
  intros Hless. apply H; [done|constructor].
Qed.

(** The head of a sorted slice is not greater than any element. *)
Lemma sort_by_head l x l' :
  (∀ a b, a ∈ l → b ∈ l → less a b = true ↔ cmp a b = Lt) → sort_by l = x :: l' →
  x ∈ l ∧ ∀ y, y ∈ l → cmp x y ≠ Gt.
Proof.
  intros Hless E. pose proof (sort_by_perm l) as Hp. pose proof (sort_by_sorted l Hless) as Hs.
  rewrite E in Hp, Hs. assert (x ∈ l) as Hx by (rewrite <- Hp; by left). split; [done|].
  intros y Hy Hgt. assert (y ∈ x :: l') as Hy' by (by rewrite Hp).
  apply elem_of_cons in Hy' as [->|Hy']; [by rewrite good_refl in Hgt|].
  inversion Hs as [|? ? _ Hall]; subst. rewrite Forall_forall in Hall. specialize (Hall y Hy').
  assert (cmp y x = Lt) as Hlt by (by rewrite (good_sym Hgood x y), Hgt).
  apply Hless in Hlt; [|done..]. congruence.
Qed.

Lemma sort_by_nonempty l : l ≠ [] → ∃ x l', sort_by l = x :: l'.
Proof.
  intros Hl. destruct (sort_by l) as [|x l'] eqn:E; [|eauto].
  pose proof (sort_by_perm l) as Hp. rewrite E in Hp. by apply Permutation_nil_l in Hp.
Qed.
End sorting.

(** ** float64 *)
Abbreviation float64 := spec_float.
Definition prec : Z := 53.
Definition emax : Z := 1024.
Definition fadd : float64 → float64 → float64 := SFadd prec emax.
Definition fsub : float64 → float64 → float64 := SFsub prec emax.
Definition fmul : float64 → float64 → float64 := SFmul prec emax.
Definition fdiv : float64 → float64 → float64 := SFdiv prec emax.
Definition fzero : float64 := S754_zero false.
(** The float of an integer constant. *)
Definition float_of_Z (z : Z) : float64 := binary_normalize prec emax z 0 false.

#[export] Instance float64_eq_dec : EqDecision float64.
Proof. solve_decision. Defined.

(** The position of a float in the order, without NaN. *)
Definition rank (x : float64) : option (Z * Z * Z) :=
  match x with
  | S754_nan => None
  | S754_infinity s => Some (if s then (-2, 0, 0) else (2, 0, 0))
  | S754_zero _ => Some (0, 0, 0)
  | S754_finite true m e => Some (-1, -e, Z.neg m)
  | S754_finite false m e => Some (1, e, Z.pos m)
  end%Z.

Definition rank_cmp (a b : Z * Z * Z) : comparison :=
  lex (lex (Z.compare a.1.1 b.1.1) (Z.compare a.1.2 b.1.2)) (Z.compare a.2 b.2).

Lemma good_rank : good rank_cmp.
Proof.
  apply (good_lex (λ a b, lex (Z.compare a.1.1 b.1.1) (Z.compare a.1.2 b.1.2)) (λ a b, Z.compare a.2 b.2)).
  - apply (good_lex (λ a b, Z.compare a.1.1 b.1.1) (λ a b, Z.compare a.1.2 b.1.2));
      [apply (good_on (λ a, a.1.1) Z.compare good_Z)|apply (good_on (λ a, a.1.2) Z.compare good_Z)].
  - apply (good_on snd Z.compare good_Z).
Qed.

Lemma SFcompare_rank x y a b : rank x = Some a → rank y = Some b → SFcompare x y = Some (rank_cmp a b).
Proof.
  destruct x as [sx|sx| |sx mx ex], y as [sy|sy| |sy my ey]; try (destruct sx); try (destruct sy); simpl;
    try done; intros [= <-] [= <-]; unfold rank_cmp; simpl; try reflexivity.
  - assert ((- ex ?= - ey) = CompOpp (ex ?= ey))%Z as -> by (rewrite Z.compare_opp; apply Z.compare_antisym).
    destruct (ex ?= ey)%Z; simpl; [|done|done]. reflexivity.
  - by destruct (ex ?= ey)%Z.
Qed.
