(* ===== verification/Pmax.v ===== *)
(** * The PowerMax client the driver calls

    The Unisphere client (package gopowermax) is not part of the driver: its
    calls are the fields of a class over a type [C] of clients and a type [W] of
    worlds, the arrays and everything else the calls read and change. A call is
    a total function of the world: its answer, an error among them, and the
    world it leaves. The records hold the fields of its answers the driver
    reads. *)

From stdpp Require Import base strings list.
From Stdlib Require Import ZArith.
From S2P Require Import Prelude GoLib Ordering.

Open Scope Z_scope.

(** ** Answers *)
Record Volume := mkVolume {
  VolumeID : string;
  VolumeIdentifier : string;
  StorageGroupIDList : list string;
  SnapSource : bool;
  SnapTarget : bool;
  EffectiveWWN : string;
  NumberOfFrontEndPaths : Z;
  CapacityCYL : Z;
  RDFGroupIDList : list Z;
  Volume_CapacityGB : float64;
}.
#[global] Instance Volume_eq_dec : EqDecision Volume.
Proof. solve_decision. Defined.

Record VolumeEnhanced := mkVolumeEnhanced {
  ID : string;
  Identifier : string;
  StorageGroups : list string;
}.

Record VolumeSnapshotLink := mkLink {
  Link_Defined : bool;
  LinkSource : string;
  Link_SnapshotName : string;
}.

Record LinkedVolume := mkLinkedVolume {
  TargetDevice : string;
  Linked_Defined : bool;
}.

Record VolumeSnapshotSource := mkSnapshotSource {
  SnapshotName : string;
  Generation : Z;
  LinkedVolumes : list LinkedVolume;
  Expired : bool;
}.

Record SnapshotVolumeGeneration := mkSnapInfo {
  VolumeSnapshotLinks : list VolumeSnapshotLink;
  VolumeSnapshotSources : list VolumeSnapshotSource;
}.

Record StorageGroup := mkStorageGroup {
  NumOfMaskingViews : Z;
  NumOfVolumes : Z;
  SG_StorageGroupID : string;
  SG_SRP : string;
  SG_MaskingView : list string;
}.

Record StorageGroupRDFG := mkStorageGroupRDFG {
  VolumeRdfTypes : list string;
  States : list string;
}.

Record RDFStorageGroup := mkRDFStorageGroup {
  Rdf : bool;
  NumDevicesNonGk : Z;
  RDFGroups : list Z;
}.

Record RDFGroup := mkRDFGroup {
  RdfgNumber : Z;
  RemoteRdfgNumber : Z;
  RemoteSymmetrix : string;
  NumDevices : Z;
  RDFG_Async : bool;
  DevicePolarity : string;
  WitnessConfigured : bool;
  WitnessEffective : bool;
  BiasConfigured : bool;
  BiasEffective : bool;
}.

Record RDFGroupIDL := mkRDFGroupIDL {
  RDFGNumber : Z;
  Label : string;
  GroupType : string;
}.

Record RDFPortDetails := mkRDFPortDetails {
  SymmID : string;
  DirID : string;
  PortNum : Z;
}.
#[global] Instance RDFPortDetails_eq_dec : EqDecision RDFPortDetails.
Proof. solve_decision. Defined.

Record RDFGroupCreate := mkRDFGroupCreate {
  RDFLabel : string;
  LocalRDFNum : Z;
  RemoteRDFNum : Z;
  LocalPorts : list RDFPortDetails;
  RemotePorts : list RDFPortDetails;
}.

(** ** Calls *)
Class Pmax (W C : Type) := {
  Now : W → Z * W;
  Sleep : Z → W → unit * W;
  WithSymmetrixID : C → string → C;
  (** The address of the client's HTTP client, as [%p] prints it. *)
  GetHTTPClient : C → string;
  GetVersionDetails : C → W → result error string * W;
  GetVolumeByID : C → string → string → W → result error Volume * W;
  GetVolumesByIdentifierMatch : C → string → string → W → result error (list VolumeEnhanced) * W;
  GetVolumeIDList : C → string → string → bool → W → result error (list string) * W;
  DeleteVolume : C → string → string → W → option error * W;
  GetVolumeSnapInfo : C → string → string → W → result error SnapshotVolumeGeneration * W;
  ModifySnapshotS : C → string → list string → list string → string → string → string → Z → bool → W → option error * W;
  DeleteSnapshotS : C → string → string → list string → Z → W → option error * W;
  GetStorageGroup : C → string → string → W → result error StorageGroup * W;
  DeleteStorageGroup : C → string → string → W → option error * W;
  RemoveVolumesFromStorageGroup : C → string → string → bool → list string → W → option error * W;
  RemoveVolumesFromProtectedStorageGroup : C → string → string → string → string → bool → list string → W → option error * W;
  GetStorageGroupRDFInfo : C → string → string → string → W → result error StorageGroupRDFG * W;
  GetProtectedStorageGroup : C → string → string → W → result error RDFStorageGroup * W;
  ExecuteReplicationActionOnSG : C → string → string → string → string → bool → bool → bool → W → option error * W;
  CreateSGReplica : C → string → string → string → string → string → string → string → bool → W → option error * W;
  GetRDFGroupByID : C → string → string → W → result error RDFGroup * W;
  GetRDFGroupList : C → string → option string → W → result error (list RDFGroupIDL) * W;
  GetFreeLocalAndRemoteRDFg : C → string → W → result error (list Z) * W;
  GetLocalOnlineRDFDirs : C → string → W → result error (list string) * W;
  GetLocalOnlineRDFPorts : C → string → string → W → result error (list string) * W;
  GetRemoteRDFPortOnSAN : C → string → string → string → W → result error (list RDFPortDetails) * W;
  GetLocalRDFPortDetails : C → string → string → Z → W → result error RDFPortDetails * W;
  ExecuteCreateRDFGroup : C → string → RDFGroupCreate → W → option error * W;
}.
