(* ===== verification/SimArray.v ===== *)
(** * A simulated array

    A concrete client, on which the theorems about code that calls the array
    are exercised: it answers from a record and logs every call that changes
    something. *)

From stdpp Require Import base gmap strings list.
From Stdlib Require Import ZArith.
From S2P Require Import Prelude GoLib Pmax.

Module SimArray.
Open Scope string_scope.
Open Scope Z_scope.

Record Sim := mkSim {
  sim_time : Z;
  sim_version : string;
  sim_volumes : list Volume;
  sim_snaps : SnapshotVolumeGeneration;
  sim_sg : StorageGroup;
  sim_rdf : StorageGroupRDFG;
  sim_group : RDFGroup;
  sim_dirs : list string;
  sim_log : list string;
  (** What the driver remembers of the licences of arrays. *)
  sim_licenses : gmap string bool;
}.

Definition log (s : string) (w : Sim) : Sim :=
  mkSim (sim_time w) (sim_version w) (sim_volumes w) (sim_snaps w) (sim_sg w) (sim_rdf w) (sim_group w)
    (sim_dirs w) (sim_log w ++ [s])%list (sim_licenses w).

Definition sleep (d : Z) (w : Sim) : Sim :=
  mkSim (sim_time w + d) (sim_version w) (sim_volumes w) (sim_snaps w) (sim_sg w) (sim_rdf w) (sim_group w)
    (sim_dirs w) (sim_log w) (sim_licenses w).

Definition find_volume (id : string) (w : Sim) : result error Volume :=
  match List.find (λ v, bool_decide (VolumeID v = id)) (sim_volumes w) with
  | Some v => Ok v
  | None => Err (errorString "Could not find volume")
  end.

Definition enhanced (v : Volume) : VolumeEnhanced :=
  mkVolumeEnhanced (VolumeID v) (VolumeIdentifier v) (StorageGroupIDList v).

(** What an SRDF action leads to: the state of every device, and its side after a swap. *)
Definition rdf_after (action : string) (rdf : StorageGroupRDFG) : StorageGroupRDFG :=
  let state :=
    if decide (action = "Failover") then "Failed Over"
    else if decide (action = "Suspend" ∨ action = "Swap") then "Suspended" else "SyncInProg" in
  mkStorageGroupRDFG
    (if decide (action = "Swap") then (λ t, if decide (t = "R1") then "R2" else "R1") <$> VolumeRdfTypes rdf else VolumeRdfTypes rdf)
    ((λ _, state) <$> States rdf).
Definition set_rdf (rdf : StorageGroupRDFG) (w : Sim) : Sim :=
  mkSim (sim_time w) (sim_version w) (sim_volumes w) (sim_snaps w) (sim_sg w) rdf (sim_group w)
    (sim_dirs w) (sim_log w) (sim_licenses w).

#[export] Instance sim_pmax : Pmax Sim string := {
  Now w := (sim_time w, w);
  Sleep d w := (tt, sleep d w);
  WithSymmetrixID c _ := c;
  GetHTTPClient c := c;
  GetVersionDetails _ w := (Ok (sim_version w), w);
  GetVolumeByID _ _ id w := (find_volume id w, w);
  GetVolumesByIdentifierMatch _ _ p w :=
    (Ok (enhanced <$> List.filter (λ v, HasPrefix (VolumeIdentifier v) p) (sim_volumes w)), w);
  GetVolumeIDList _ _ p _ w :=
    (Ok (VolumeID <$> List.filter (λ v, HasPrefix (VolumeIdentifier v) p) (sim_volumes w)), w);
  DeleteVolume _ _ r w := (None, log ("delete " ++ r) w);
  GetVolumeSnapInfo _ _ _ w := (Ok (sim_snaps w), w);
  ModifySnapshotS _ _ _ _ n a _ _ _ w := (None, log (a ++ " " ++ n) w);
  DeleteSnapshotS _ _ n _ _ w := (None, log ("terminate " ++ n) w);
  GetStorageGroup _ _ _ w := (Ok (sim_sg w), w);
  DeleteStorageGroup _ _ n w := (None, log ("delete SG " ++ n) w);
  RemoveVolumesFromStorageGroup _ _ n _ _ w := (None, log ("remove from " ++ n) w);
  RemoveVolumesFromProtectedStorageGroup _ _ n _ _ _ _ w := (None, log ("remove from protected " ++ n) w);
  GetStorageGroupRDFInfo _ _ _ _ w := (Ok (sim_rdf w), w);
  GetProtectedStorageGroup _ _ _ w := (Ok (mkRDFStorageGroup false 0 []), w);
  ExecuteReplicationActionOnSG _ _ a _ _ _ _ _ w := (None, log a (set_rdf (rdf_after a (sim_rdf w)) w));
  CreateSGReplica _ _ _ _ _ n _ _ _ w := (None, log ("replica " ++ n) w);
  GetRDFGroupByID _ _ _ w := (Ok (sim_group w), w);
  GetRDFGroupList _ _ _ w := (Ok [], w);
  GetFreeLocalAndRemoteRDFg _ _ w := (Ok [1], w);
  GetLocalOnlineRDFDirs _ _ w := (Ok (sim_dirs w), w);
  GetLocalOnlineRDFPorts _ _ _ w := (Ok ["4"; "5"], w);
  GetRemoteRDFPortOnSAN _ _ d p w := (Ok [mkRDFPortDetails "remote" d 9], w);
  GetLocalRDFPortDetails _ sym d p w := (Ok (mkRDFPortDetails sym d p), w);
  ExecuteCreateRDFGroup _ _ p w := (None, log ("create RDFG " ++ RDFLabel p) w);
}.

Definition rdfGroup0 : RDFGroup := mkRDFGroup 1 2 "remote" 1 false "local" true false false false.

(** An array with the given volumes and replication information, at time 100. *)
Definition sim (volumes : list Volume) (rdf : StorageGroupRDFG) : Sim :=
  mkSim 100 "90" volumes (mkSnapInfo [] []) (mkStorageGroup 0 0 "sg" "" []) rdf rdfGroup0 ["OR-1C"; "OR-2C"] [] ∅.
End SimArray.
