(* ===== verification/Journal.v ===== *)
(** * The journal of deferred Metro operations

    Models pkg/symmetrix/volumejournal.go: the operations that a controller
    defers while one site of an SRDF/Metro pair is unreachable. The journal keeps
    a slice of operations; when a CRD backend is configured ([crd] is not nil)
    every change is also written to the cluster. The backend is the interface
    [CrdOps], over an arbitrary cluster state [K]; the file Crd implements it.

    [time.Now] and [uuid.New] are inputs: the instant and the token of a call. *)

From S2P Require Import Prelude.
From stdpp Require Import base gmap strings list sorting.
From Stdlib Require Import ZArith Lia.

Open Scope Z_scope.

Module Journal.

(** ** Data *)

(** The fields of the Go struct, in its order. [VolumeCapacity] is a float64
    that no code of the journal reads; it is kept as its bit pattern. *)
Record DeferredOperation := mkOp {
  IdempotencyToken : string;
  OperationType : string;
  VolumeID : string;
  ArrayID : string;
  RDFGroupNo : string;
  StorageGroupName : string;
  NodeName : string;
  SubmissionTime : Z;
  RetryCount : Z;
  LastError : string;
  RemoteRDFGroupNo : string;
  RemoteStorageGroupName : string;
  RemoteSRP : string;
  RemoteServiceLevel : string;
  VolumeCapacity : Z;
  RequiredCylinders : Z;
  VolumeName : string;
  Namespace : string;
  ReplicationMode : string;
  LocalSymID : string;
  DriverName : string;
  InstanceUID : string;
  Status : string
}.

#[export] Instance DeferredOperation_eq_dec : EqDecision DeferredOperation.
Proof. solve_decision. Defined.

Definition OpMetroPairing : string := "MetroPairing".
Definition OpDeviceCleanup : string := "DeviceCleanup".

Definition OpStatusPending : string := "pending".
Definition OpStatusFailed : string := "failed".
Definition OpStatusTerminal : string := "terminal".
Definition OpStatusCompleted : string := "completed".

Definition QueueWarningThreshold : Z := 75.
Definition QueueHardLimit : Z := 100.
Definition QueueAgeWarningThreshold : Z := 30 * Minute.
(** reconciliation.go: the default base of the retry backoff. *)
Definition ReconciliationBackoffBase : Z := 5 * Second.

Definition isPendingOperation (status : string) : bool :=
  bool_decide (status ≠ OpStatusTerminal) && bool_decide (status ≠ OpStatusCompleted).

(** The assignments [op.F = v] of the code, by the fields they touch together. *)
Definition set_admission (token : string) (now : Z) (op : DeferredOperation) : DeferredOperation :=
  {| IdempotencyToken := token; OperationType := OperationType op; VolumeID := VolumeID op;
     ArrayID := ArrayID op; RDFGroupNo := RDFGroupNo op; StorageGroupName := StorageGroupName op;
     NodeName := NodeName op; SubmissionTime := now; RetryCount := 0; LastError := LastError op;
     RemoteRDFGroupNo := RemoteRDFGroupNo op; RemoteStorageGroupName := RemoteStorageGroupName op;
     RemoteSRP := RemoteSRP op; RemoteServiceLevel := RemoteServiceLevel op;
     VolumeCapacity := VolumeCapacity op; RequiredCylinders := RequiredCylinders op;
     VolumeName := VolumeName op; Namespace := Namespace op; ReplicationMode := ReplicationMode op;
     LocalSymID := LocalSymID op; DriverName := DriverName op; InstanceUID := InstanceUID op;
     Status := OpStatusPending |}.

Definition set_retry (count : Z) (lastError : string) (op : DeferredOperation) : DeferredOperation :=
  {| IdempotencyToken := IdempotencyToken op; OperationType := OperationType op;
     VolumeID := VolumeID op; ArrayID := ArrayID op; RDFGroupNo := RDFGroupNo op;
     StorageGroupName := StorageGroupName op; NodeName := NodeName op;
     SubmissionTime := SubmissionTime op; RetryCount := count; LastError := lastError;
     RemoteRDFGroupNo := RemoteRDFGroupNo op; RemoteStorageGroupName := RemoteStorageGroupName op;
     RemoteSRP := RemoteSRP op; RemoteServiceLevel := RemoteServiceLevel op;
     VolumeCapacity := VolumeCapacity op; RequiredCylinders := RequiredCylinders op;
     VolumeName := VolumeName op; Namespace := Namespace op; ReplicationMode := ReplicationMode op;
     LocalSymID := LocalSymID op; DriverName := DriverName op; InstanceUID := InstanceUID op;
     Status := Status op |}.

Definition set_status (status : string) (op : DeferredOperation) : DeferredOperation :=
  {| IdempotencyToken := IdempotencyToken op; OperationType := OperationType op;
     VolumeID := VolumeID op; ArrayID := ArrayID op; RDFGroupNo := RDFGroupNo op;
     StorageGroupName := StorageGroupName op; NodeName := NodeName op;
     SubmissionTime := SubmissionTime op; RetryCount := RetryCount op; LastError := LastError op;
     RemoteRDFGroupNo := RemoteRDFGroupNo op; RemoteStorageGroupName := RemoteStorageGroupName op;
     RemoteSRP := RemoteSRP op; RemoteServiceLevel := RemoteServiceLevel op;
     VolumeCapacity := VolumeCapacity op; RequiredCylinders := RequiredCylinders op;
     VolumeName := VolumeName op; Namespace := Namespace op; ReplicationMode := ReplicationMode op;
     LocalSymID := LocalSymID op; DriverName := DriverName op; InstanceUID := InstanceUID op;
     Status := status |}.

(** The update of one entry by [UpdateDeferredOperation]: a settled operation
    keeps its status, any other becomes "failed". *)
Definition retry_entry (count : Z) (lastError : string) (op : DeferredOperation) : DeferredOperation :=
  let op' := set_retry count lastError op in
  if isPendingOperation (Status op) then set_status OpStatusFailed op' else op'.

(** ** The interface of the CRD backend *)

Record CrdOps (K : Type) := mkCrdOps {
  crdList : string → K → result string (list DeferredOperation);
  crdCreate : DeferredOperation → K → K * option string;
  crdUpdate : DeferredOperation → K → K * option string;
  crdDelete : string → K → K * option string;
  acquireLease : K → K * option string;
  releaseLease : K → K
}.
Arguments crdList {K}.
Arguments crdCreate {K}.
Arguments crdUpdate {K}.
Arguments crdDelete {K}.
Arguments acquireLease {K}.
Arguments releaseLease {K}.

Inductive journal_error :=
| ErrQueueFull
| ErrTokenNotFound (token : string)
| ErrPersist (volume : string) (cause : persist_error)
| ErrCrdUpdate (token cause : string)
| ErrCrdDelete (token cause : string)
| ErrSync (cause : string)
with persist_error :=
| PersistQueueFull
| PersistList (cause : string)
| PersistCreate (cause : string)
| PersistLease (cause : string).

Record VolumeJournal (K : Type) := mkJournal {
  operations : list DeferredOperation;
  crd : option (CrdOps K);
  warningThreshold : Z;
  hardLimit : Z;
  reconciliationBackoff : Z
}.
Arguments operations {K}.
Arguments crd {K}.
Arguments warningThreshold {K}.
Arguments hardLimit {K}.
Arguments reconciliationBackoff {K}.
Arguments mkJournal {K}.

Record QueueStatus := mkQueueStatus {
  Count : Z;
  OldestAge : Z;
  AtWarning : bool;
  AtLimit : bool
}.

Definition emptyQueueStatus : QueueStatus := mkQueueStatus 0 0 false false.

Section operations.
Context {K : Type}.
Implicit Types (j : VolumeJournal K) (k : K) (op : DeferredOperation).

Definition set_operations (ops : list DeferredOperation) j : VolumeJournal K :=
  mkJournal ops (crd j) (warningThreshold j) (hardLimit j) (reconciliationBackoff j).

Definition SetReconciliationBackoff (d : Z) j : VolumeJournal K :=
  mkJournal (operations j) (crd j) (warningThreshold j) (hardLimit j) d.

Definition GetReconciliationBackoff j : Z :=
  if 0 <? reconciliationBackoff j then reconciliationBackoff j else ReconciliationBackoffBase.

Definition NewVolumeJournal : VolumeJournal K :=
  mkJournal [] None QueueWarningThreshold QueueHardLimit 0.

(** volumejournal_crd.go: the same, with a backend. *)
Definition NewCRDVolumeJournalForOwner (c : CrdOps K) : VolumeJournal K :=
  mkJournal [] (Some c) QueueWarningThreshold QueueHardLimit 0.

Definition SetThresholds (warning limit : Z) j : VolumeJournal K :=
  mkJournal (operations j) (crd j)
    (if 0 <? warning then warning else warningThreshold j)
    (if 0 <? limit then limit else hardLimit j)
    (reconciliationBackoff j).

(** The limits in force: a non-positive field selects the default. *)
Definition effectiveLimit j : Z := if hardLimit j <=? 0 then QueueHardLimit else hardLimit j.
Definition effectiveWarning j : Z :=
  if warningThreshold j <=? 0 then QueueWarningThreshold else warningThreshold j.

(** The compound key that identifies duplicates. *)
Definition same_key op existing : bool :=
  bool_decide (VolumeID existing = VolumeID op) &&
  bool_decide (OperationType existing = OperationType op) &&
  bool_decide (ArrayID existing = ArrayID op) &&
  bool_decide (RDFGroupNo existing = RDFGroupNo op).

Definition withQueueLease {A} (c : CrdOps K) (fn : K → K * result persist_error A) k
    : K * result persist_error A :=
  match acquireLease c k with
  | (k1, Some e) => (k1, Err (PersistLease e))
  | (k1, None) => let '(k2, r) := fn k1 in (releaseLease c k2, r)
  end.

(** The body run under the lease: the authoritative depth check, the duplicate
    check and the create. [Some t] is the token of a duplicate. *)
Definition admit_shared (c : CrdOps K) (limit : Z) op k : K * result persist_error (option string) :=
  match crdList c "" k with
  | Err e => (k, Err (PersistList e))
  | Ok sharedOps =>
      if limit <=? Z.of_nat (length sharedOps) then (k, Err PersistQueueFull)
      else match list_find (λ e, same_key op e = true) sharedOps with
           | Some (_, existing) => (k, Ok (Some (IdempotencyToken existing)))
           | None => match crdCreate c op k with
                     | (k', Some e) => (k', Err (PersistCreate e))
                     | (k', None) => (k', Ok None)
                     end
           end
  end.

Definition CreateDeferredOperation (uuid : string) (now : Z) op j k
    : VolumeJournal K * K * result journal_error string :=
  let limit := effectiveLimit j in
  if bool_decide (crd j = None) && (limit <=? Z.of_nat (length (operations j)))
  then (j, k, Err ErrQueueFull)
  else match list_find (λ e, isPendingOperation (Status e) && same_key op e = true) (operations j) with
       | Some (_, existing) => (j, k, Ok (IdempotencyToken existing))
       | None =>
           let op' := set_admission uuid now op in
           match crd j with
           | None => (set_operations (operations j ++ [op']) j, k, Ok uuid)
           | Some c =>
               match withQueueLease c (admit_shared c limit op') k with
               | (k', Err e) => (j, k', Err (ErrPersist (VolumeID op) e))
               | (k', Ok (Some t)) =>
                   if bool_decide (t = ""%string)
                   then (set_operations (operations j ++ [op']) j, k', Ok uuid)
                   else (j, k', Ok t)
               | (k', Ok None) => (set_operations (operations j ++ [op']) j, k', Ok uuid)
               end
           end
       end.

Definition getDeferredOperations (arrayID : string) j k : result string (list DeferredOperation) :=
  match crd j with
  | Some c => crdList c arrayID k
  | None => Ok (filter (λ op, ArrayID op = arrayID ∧ isPendingOperation (Status op) = true) (operations j))
  end.

Definition GetDeferredOperations (arrayID : string) j k : list DeferredOperation :=
  match getDeferredOperations arrayID j k with Ok ops => ops | Err _ => [] end.

Definition GetAllOperations j : list DeferredOperation := operations j.

(** The common shape of the two updates: change the first entry with the token,
    then write it through. The memory keeps the change when the write fails. *)
Definition update_entry (f : DeferredOperation → DeferredOperation) (token : string) j k
    : VolumeJournal K * K * option journal_error :=
  match list_find (λ op, IdempotencyToken op = token) (operations j) with
  | None => (j, k, Some (ErrTokenNotFound token))
  | Some (i, op) =>
      let j' := set_operations (<[i := f op]> (operations j)) j in
      match crd j with
      | None => (j', k, None)
      | Some c => match crdUpdate c (f op) k with
                  | (k', Some e) => (j', k', Some (ErrCrdUpdate token e))
                  | (k', None) => (j', k', None)
                  end
      end
  end.

Definition UpdateDeferredOperation (token : string) (retryCount : Z) (lastError : string) j k :=
  update_entry (retry_entry retryCount lastError) token j k.

Definition UpdateDeferredOperationStatus (token status : string) j k :=
  update_entry (set_status status) token j k.

Definition RemoveDeferredOperation (token : string) j k : VolumeJournal K * K * option journal_error :=
  match list_find (λ op, IdempotencyToken op = token) (operations j) with
  | None => (j, k, Some (ErrTokenNotFound token))
  | Some (i, _) =>
      let j' := set_operations (delete i (operations j)) j in
      match crd j with
      | None => (j', k, None)
      | Some c => match crdDelete c token k with
                  | (k', Some e) => (j, k', Some (ErrCrdDelete token e))
                  | (k', None) => (j', k', None)
                  end
      end
  end.

(** The loop that finds the oldest submission time. *)
Fixpoint oldestFrom (oldest : Z) (ops : list DeferredOperation) : Z :=
  match ops with
  | [] => oldest
  | op :: ops => oldestFrom (if SubmissionTime op <? oldest then SubmissionTime op else oldest) ops
  end.

Definition queueStatusForOperations (now : Z) (ops : list DeferredOperation) (arrayID : string)
    (filterByArray : bool) j : QueueStatus :=
  let warn := effectiveWarning j in
  let limit := effectiveLimit j in
  let pending := filter (λ op, isPendingOperation (Status op) = true) ops in
  let selected := filter (λ op, negb filterByArray || bool_decide (ArrayID op = arrayID) = true) pending in
  let count := Z.of_nat (length pending) in
  match selected with
  | [] => mkQueueStatus count 0 false (negb filterByArray && (limit <=? count))
  | op :: rest =>
      let age := timeSub now (oldestFrom (SubmissionTime op) rest) in
      mkQueueStatus count age ((warn <=? count) || (QueueAgeWarningThreshold <=? age)) (limit <=? count)
  end.

Definition GetQueueStatus (now : Z) j k : QueueStatus :=
  match crd j with
  | Some c => match crdList c "" k with
              | Err _ => emptyQueueStatus
              | Ok ops => queueStatusForOperations now ops "" false j
              end
  | None => queueStatusForOperations now (operations j) "" false j
  end.

Definition GetQueueStatusForArray (now : Z) (arrayID : string) j k : QueueStatus :=
  match crd j with
  | Some c => match crdList c arrayID k with
              | Err _ => emptyQueueStatus
              | Ok ops => queueStatusForOperations now ops arrayID true j
              end
  | None => queueStatusForOperations now (operations j) arrayID true j
  end.

Definition SyncFromCRD j k : VolumeJournal K * option journal_error :=
  match crd j with
  | None => (j, None)
  | Some c => match crdList c "" k with
              | Err e => (j, Some (ErrSync e))
              | Ok ops => (set_operations ops j, None)
              end
  end.

End operations.


(** ** Well-formed journals *)

(** The compound key of an operation. *)
Definition op_key (op : DeferredOperation) : string * string * string * string :=
  (VolumeID op, OperationType op, ArrayID op, RDFGroupNo op).

Definition pending (op : DeferredOperation) : Prop := isPendingOperation (Status op) = true.
#[export] Instance pending_dec op : Decision (pending op) := decide (_ = true).

Definition tokens (ops : list DeferredOperation) : list string := IdempotencyToken <$> ops.
Definition pending_keys (ops : list DeferredOperation) := op_key <$> filter pending ops.

(** Tokens are unique, and so are the compound keys of the pending operations. *)
Definition wf_ops (ops : list DeferredOperation) : Prop :=
  NoDup (tokens ops) ∧ NoDup (pending_keys ops).

Lemma same_key_true op e : same_key op e = true ↔ op_key e = op_key op.
Proof.
  unfold same_key, op_key. rewrite !andb_true_iff, !bool_decide_eq_true.
  split; [by intros [[[-> ->] ->] ->]|by intros [= -> -> -> ->]].
Qed.

Lemma pending_true op : isPendingOperation (Status op) = true ↔ pending op.
Proof. done. Qed.

Lemma isPending_spec s :
  isPendingOperation s = true ↔ s ≠ OpStatusTerminal ∧ s ≠ OpStatusCompleted.
Proof. unfold isPendingOperation. by rewrite andb_true_iff, !bool_decide_eq_true. Qed.

Lemma pending_keys_app l1 l2 : pending_keys (l1 ++ l2) = pending_keys l1 ++ pending_keys l2.
Proof. unfold pending_keys. by rewrite filter_app, fmap_app. Qed.

Lemma pending_keys_cons op l :
  pending_keys (op :: l) = if decide (pending op) then op_key op :: pending_keys l else pending_keys l.
Proof. unfold pending_keys. rewrite filter_cons. by case_decide. Qed.

Lemma elem_of_pending_keys x ops :
  x ∈ pending_keys ops ↔ ∃ op, op ∈ ops ∧ pending op ∧ op_key op = x.
Proof.
  unfold pending_keys. rewrite list_elem_of_fmap. setoid_rewrite list_elem_of_filter.
  split; [intros (op & -> & ? & ?)|intros (op & ? & ? & <-)]; by exists op.
Qed.

(** The duplicate check of [CreateDeferredOperation] finds nothing exactly when
    the key is not pending. *)
Lemma find_duplicate_None op ops :
  list_find (λ e, isPendingOperation (Status e) && same_key op e = true) ops = None ↔
  op_key op ∉ pending_keys ops.
Proof.
  rewrite list_find_None, Forall_forall, elem_of_pending_keys.
  split.
  - intros H (e & He & Hp & Hk). apply (H e He). by apply andb_true_iff; rewrite same_key_true.
  - intros H e He [Hp Hk%same_key_true]%andb_true_iff. apply H. by exists e.
Qed.

Lemma wf_ops_snoc ops op :
  wf_ops ops → IdempotencyToken op ∉ tokens ops → op_key op ∉ pending_keys ops → wf_ops (ops ++ [op]).
Proof.
  intros [Ht Hk] Hnt Hnk. split.
  - unfold tokens. rewrite fmap_app. apply NoDup_app. split; [done|]. split; [|apply NoDup_singleton].
    intros x Hx ->%list_elem_of_singleton. done.
  - rewrite pending_keys_app, pending_keys_cons. case_decide; [|by rewrite app_nil_r].
    apply NoDup_app. split; [done|]. split; [|apply NoDup_singleton].
    intros x Hx ->%list_elem_of_singleton. done.
Qed.

(** Changing one entry keeps the journal well formed as long as the token and
    the key stay and a settled entry is not made pending again. *)
Lemma wf_ops_replace l1 l2 op op' :
  IdempotencyToken op' = IdempotencyToken op → op_key op' = op_key op →
  (pending op' → pending op) → wf_ops (l1 ++ op :: l2) → wf_ops (l1 ++ op' :: l2).
Proof.
  intros Et Ek Hp [Ht Hk]. split.
  - unfold tokens in *. by rewrite (fmap_middle _ _ _ op' op).
  - rewrite pending_keys_app, pending_keys_cons in *. rewrite Ek.
    destruct (decide (pending op')) as [H|H], (decide (pending op)) as [H'|H']; try done.
    { destruct (H' (Hp H)). }
    by apply NoDup_middle_inv in Hk as [??].
Qed.

Lemma wf_ops_delete l1 l2 op : wf_ops (l1 ++ op :: l2) → wf_ops (l1 ++ l2).
Proof.
  intros [Ht Hk]. split.
  - by apply NoDup_fmap_middle_inv in Ht as [? _].
  - rewrite pending_keys_app, pending_keys_cons in *. case_decide; [|done].
    by apply NoDup_middle_inv in Hk as [??].
Qed.

Lemma op_key_retry c e op : op_key (retry_entry c e op) = op_key op.
Proof. unfold retry_entry. by destruct (isPendingOperation _). Qed.
Lemma token_retry c e op : IdempotencyToken (retry_entry c e op) = IdempotencyToken op.
Proof. unfold retry_entry. by destruct (isPendingOperation _). Qed.
Lemma pending_retry c e op : pending (retry_entry c e op) ↔ pending op.
Proof.
  unfold retry_entry, pending. destruct (isPendingOperation (Status op)) eqn:E; simpl; [done|].
  by rewrite E.
Qed.
#[export] Hint Rewrite op_key_retry token_retry : driver.

(** ** Reachable journals *)

Section invariant.
Context {K : Type}.
Implicit Types (j : VolumeJournal K) (k : K).

(** What a configured journal goes through: the operations of its users, in any
    order and with any outcome, and changes of the cluster by others. The status
    updates of the driver settle an operation (reconciliation.go passes
    "terminal"); tokens are fresh UUIDs. *)
Inductive jstep : VolumeJournal K * K → VolumeJournal K * K → Prop :=
| step_create uuid now op j k j' k' r :
    uuid ∉ tokens (operations j) →
    CreateDeferredOperation uuid now op j k = (j', k', r) → jstep (j, k) (j', k')
| step_retry token count err j k j' k' r :
    UpdateDeferredOperation token count err j k = (j', k', r) → jstep (j, k) (j', k')
| step_settle token status j k j' k' r :
    isPendingOperation status = false →
    UpdateDeferredOperationStatus token status j k = (j', k', r) → jstep (j, k) (j', k')
| step_remove token j k j' k' r :
    RemoveDeferredOperation token j k = (j', k', r) → jstep (j, k) (j', k')
| step_backoff d j k : jstep (j, k) (SetReconciliationBackoff d j, k)
| step_cluster j k k' : jstep (j, k) (j, k').

(** The invariant: a well-formed journal that, without a backend, never holds
    more operations than its limit. *)
Definition journal_inv (s : VolumeJournal K * K) : Prop :=
  wf_ops (operations s.1) ∧
  (crd s.1 = None → Z.of_nat (length (operations s.1)) <= effectiveLimit s.1).

Lemma update_entry_inv f token j k j' k' r :
  (∀ op, IdempotencyToken (f op) = IdempotencyToken op) → (∀ op, op_key (f op) = op_key op) →
  (∀ op, pending (f op) → pending op) →
  update_entry f token j k = (j', k', r) → journal_inv (j, k) → journal_inv (j', k').
Proof.
  intros Ht Hk Hp E [Hwf Hlen]. unfold update_entry in E.
  destruct (list_find _ _) as [[i op]|] eqn:Hf; [|by simplify_eq].
  assert (j' = set_operations (<[i:=f op]> (operations j)) j) as -> by (by case_all).
  clear E. unfold journal_inv. simpl. split; [|by rewrite length_insert].
  apply list_find_split in Hf as (l1 & l2 & El & <- & _ & _).
  rewrite El, insert_middle. simpl in Hwf. rewrite El in Hwf.
  eapply wf_ops_replace; eauto.
Qed.

Lemma create_inv uuid now op j k j' k' r :
  uuid ∉ tokens (operations j) →
  CreateDeferredOperation uuid now op j k = (j', k', r) → journal_inv (j, k) → journal_inv (j', k').
Proof.
  intros Hfresh E [Hwf Hlen]. unfold CreateDeferredOperation in E.
  destruct (bool_decide (crd j = None) && _) eqn:Hfull; [by simplify_eq|].
  destruct (list_find _ _) as [[? ?]|] eqn:Hf; [by simplify_eq|].
  apply find_duplicate_None in Hf.
  assert (j' = j ∨ j' = set_operations (operations j ++ [set_admission uuid now op]) j) as [->| ->].
  { case_all; simplify_eq; auto. }
  { by split. }
  split; simpl; [by apply wf_ops_snoc|]. intros Hcrd. rewrite Hcrd in Hfull. simpl in Hfull.
  change (effectiveLimit (set_operations _ j)) with (effectiveLimit j).
  rewrite length_app. simpl. bool_to_prop. lia.
Qed.

Lemma remove_inv token j k j' k' r :
  RemoveDeferredOperation token j k = (j', k', r) → journal_inv (j, k) → journal_inv (j', k').
Proof.
  intros E [Hwf Hlen]. simpl in Hwf, Hlen. unfold RemoveDeferredOperation in E.
  destruct (list_find _ _) as [[i op]|] eqn:Hf; [|by simplify_eq].
  assert (j' = j ∨ j' = set_operations (delete i (operations j)) j) as [->| ->].
  { case_all; simplify_eq; auto. }
  { by split. }
  apply list_find_split in Hf as (l1 & l2 & El & <- & _ & _).
  unfold journal_inv. simpl. change (effectiveLimit (set_operations _ j)) with (effectiveLimit j).
  rewrite El in *. rewrite delete_middle'.
  split; [by eapply wf_ops_delete|]. intros Hc. specialize (Hlen Hc).
  rewrite !length_app in *. simpl in *. lia.
Qed.

Lemma jstep_inv s s' : jstep s s' → journal_inv s → journal_inv s'.
Proof.
  intros [] Hinv; eauto using create_inv, remove_inv.
  - eapply update_entry_inv; [apply token_retry|apply op_key_retry|apply pending_retry|done|done].
  - eapply (update_entry_inv (set_status status)); [done|done| |done|done].
    unfold pending. simpl. congruence.
Qed.

(** C2: whatever sequence of operations a configured journal goes through, its
    tokens stay unique, no two pending operations share the compound key
    (VolumeID, OperationType, ArrayID, RDFGroupNo), and without a CRD backend it
    never exceeds its limit. *)
Theorem journal_invariant s s' : rtc jstep s s' → journal_inv s → journal_inv s'.
Proof. induction 1; eauto using jstep_inv. Qed.

End invariant.

(** ** The abstract journal: a finite map from tokens to operations *)

Section refinement.
Context {K : Type}.
Implicit Types (j : VolumeJournal K) (k : K) (m : gmap string DeferredOperation).

Definition abs_ops (ops : list DeferredOperation) : gmap string DeferredOperation :=
  list_to_map ((λ op, (IdempotencyToken op, op)) <$> ops).

(** The calls of the journal and what they return. *)
Inductive jcall :=
| CallCreate (uuid : string) (now : Z) (op : DeferredOperation)
| CallRetry (token : string) (count : Z) (err : string)
| CallStatus (token status : string)
| CallRemove (token : string).

Inductive outcome :=
| RetToken (r : result journal_error string)
| RetErr (r : option journal_error).

Definition run_call (c : jcall) j k : VolumeJournal K * K * outcome :=
  match c with
  | CallCreate uuid now op =>
      let '(j', k', r) := CreateDeferredOperation uuid now op j k in (j', k', RetToken r)
  | CallRetry t n e => let '(j', k', r) := UpdateDeferredOperation t n e j k in (j', k', RetErr r)
  | CallStatus t st => let '(j', k', r) := UpdateDeferredOperationStatus t st j k in (j', k', RetErr r)
  | CallRemove t => let '(j', k', r) := RemoveDeferredOperation t j k in (j', k', RetErr r)
  end.

(** The contract of each call on the map, for a queue of [limit] entries. *)
Inductive spec_call (limit : Z) : jcall → gmap string DeferredOperation →
    gmap string DeferredOperation → outcome → Prop :=
| spec_full uuid now op m :
    limit <= Z.of_nat (size m) →
    spec_call limit (CallCreate uuid now op) m m (RetToken (Err ErrQueueFull))
| spec_duplicate uuid now op m t e :
    Z.of_nat (size m) < limit → m !! t = Some e → pending e → op_key e = op_key op →
    spec_call limit (CallCreate uuid now op) m m (RetToken (Ok t))
| spec_new uuid now op m :
    Z.of_nat (size m) < limit → m !! uuid = None →
    (∀ t e, m !! t = Some e → pending e → op_key e ≠ op_key op) →
    spec_call limit (CallCreate uuid now op) m
      (<[uuid := set_admission uuid now op]> m) (RetToken (Ok uuid))
| spec_retry t n err m e :
    m !! t = Some e →
    spec_call limit (CallRetry t n err) m (<[t := retry_entry n err e]> m) (RetErr None)
| spec_status t st m e :
    m !! t = Some e →
    spec_call limit (CallStatus t st) m (<[t := set_status st e]> m) (RetErr None)
| spec_remove t m e :
    m !! t = Some e → spec_call limit (CallRemove t) m (delete t m) (RetErr None)
| spec_retry_missing t n err m :
    m !! t = None → spec_call limit (CallRetry t n err) m m (RetErr (Some (ErrTokenNotFound t)))
| spec_status_missing t st m :
    m !! t = None → spec_call limit (CallStatus t st) m m (RetErr (Some (ErrTokenNotFound t)))
| spec_remove_missing t m :
    m !! t = None → spec_call limit (CallRemove t) m m (RetErr (Some (ErrTokenNotFound t))).

Lemma abs_ops_Some ops t op :
  NoDup (tokens ops) → abs_ops ops !! t = Some op ↔ op ∈ ops ∧ IdempotencyToken op = t.
Proof.
  intros Hnd. unfold abs_ops. rewrite <- elem_of_list_to_map.
  - rewrite list_elem_of_fmap. split; [by intros (? & [= -> ->] & ?)|]. intros [? <-]. by exists op.
  - by rewrite <- list_fmap_compose.
Qed.

Lemma abs_ops_None ops t : abs_ops ops !! t = None ↔ t ∉ tokens ops.
Proof. unfold abs_ops. rewrite <- not_elem_of_list_to_map. by rewrite <- list_fmap_compose. Qed.

Lemma abs_ops_cons op ops : abs_ops (op :: ops) = <[IdempotencyToken op := op]> (abs_ops ops).
Proof. done. Qed.

Lemma abs_ops_app ops1 ops2 : abs_ops (ops1 ++ ops2) = abs_ops ops1 ∪ abs_ops ops2.
Proof. unfold abs_ops. by rewrite fmap_app, list_to_map_app. Qed.

Lemma abs_ops_size ops : NoDup (tokens ops) → size (abs_ops ops) = length ops.
Proof.
  intros Hnd. unfold abs_ops. rewrite map_size_list_to_map.
  - by rewrite length_fmap.
  - by rewrite <- list_fmap_compose.
Qed.

(** The entry in the middle of the list is the insertion into the rest. *)
Lemma abs_ops_middle l1 l2 op :
  NoDup (tokens (l1 ++ op :: l2)) →
  abs_ops (l1 ++ op :: l2) = <[IdempotencyToken op := op]> (abs_ops (l1 ++ l2)) ∧
  abs_ops (l1 ++ l2) !! IdempotencyToken op = None.
Proof.
  intros [_ Hni]%NoDup_fmap_middle_inv.
  assert (abs_ops (l1 ++ l2) !! IdempotencyToken op = None) as Hn by by apply abs_ops_None.
  split; [|done]. rewrite !abs_ops_app, abs_ops_cons in *.
  apply lookup_union_None in Hn as [Hn _]. by rewrite insert_union_r.
Qed.

(** The scan for a token finds the map's entry. *)
Lemma find_token_abs ops t :
  NoDup (tokens ops) →
  match list_find (λ op, IdempotencyToken op = t) ops with
  | None => abs_ops ops !! t = None
  | Some (i, e) => abs_ops ops !! t = Some e ∧ IdempotencyToken e = t ∧
      abs_ops (delete i ops) = delete t (abs_ops ops) ∧
      ∀ e', IdempotencyToken e' = t → abs_ops (<[i := e']> ops) = <[t := e']> (abs_ops ops)
  end.
Proof.
  intros Hnd. destruct (list_find _ ops) as [[i e]|] eqn:Hf.
  - apply list_find_split in Hf as (l1 & l2 & -> & <- & <- & _).
    rewrite delete_middle'. destruct (abs_ops_middle _ _ _ Hnd) as [-> Hn].
    rewrite lookup_insert_eq, delete_insert_id by done. do 3 (split; [done|]). intros e' He'.
    rewrite insert_middle, insert_insert_eq.
    assert (NoDup (tokens (l1 ++ e' :: l2))) as Hnd'.
    { unfold tokens in *. by rewrite (fmap_middle _ _ _ e' e). }
    destruct (abs_ops_middle _ _ _ Hnd') as [-> _]. by rewrite He'.
  - apply list_find_None in Hf. apply abs_ops_None. intros (op & -> & Hop)%list_elem_of_fmap.
    rewrite Forall_forall in Hf. by apply (Hf op).
Qed.

Lemma update_entry_spec f token j k j' k' r :
  crd j = None → NoDup (tokens (operations j)) →
  (∀ op, IdempotencyToken (f op) = IdempotencyToken op) →
  update_entry f token j k = (j', k', r) →
  (abs_ops (operations j) !! token = None ∧ j' = j ∧ r = Some (ErrTokenNotFound token)) ∨
  (∃ e, abs_ops (operations j) !! token = Some e ∧
        abs_ops (operations j') = <[token := f e]> (abs_ops (operations j)) ∧ r = None).
Proof.
  intros Hc Hnd Hf E. unfold update_entry in E. rewrite Hc in E.
  pose proof (find_token_abs (operations j) token Hnd) as H.
  destruct (list_find _ _) as [[i e]|]; simplify_eq/=; [right|by left].
  destruct H as (? & <- & _ & H). exists e. rewrite H; [done|]. by rewrite Hf.
Qed.

Lemma create_spec uuid now op j k j' k' r :
  crd j = None → wf_ops (operations j) → uuid ∉ tokens (operations j) →
  CreateDeferredOperation uuid now op j k = (j', k', r) →
  spec_call (effectiveLimit j) (CallCreate uuid now op)
    (abs_ops (operations j)) (abs_ops (operations j')) (RetToken r).
Proof.
  intros Hc [Hnd Hk] Hfresh E. unfold CreateDeferredOperation in E. rewrite Hc in E. simpl in E.
  rewrite <- (abs_ops_size _ Hnd) in E.
  destruct (effectiveLimit j <=? _) eqn:Hfull; bool_to_prop; [simplify_eq; by apply spec_full|].
  destruct (list_find _ _) as [[i e]|] eqn:Hf; simplify_eq/=.
  - apply list_find_Some in Hf as (He & [Hp Hkey%same_key_true]%andb_true_iff & _).
    eapply spec_duplicate; [done| |done|done].
    apply abs_ops_Some; [done|]. by split; [eapply list_elem_of_lookup_2|].
  - apply find_duplicate_None in Hf.
    assert (abs_ops (operations j ++ [set_admission uuid now op]) =
            <[uuid := set_admission uuid now op]> (abs_ops (operations j))) as ->.
    { destruct (abs_ops_middle (operations j) [] (set_admission uuid now op)) as [-> _];
        [|by rewrite app_nil_r].
      unfold tokens. rewrite fmap_app. apply NoDup_app.
      split; [done|]. split; [|apply NoDup_singleton]. by intros x Hx ->%list_elem_of_singleton. }
    apply spec_new; [done|by apply abs_ops_None|].
    intros t e [He <-]%abs_ops_Some Hpe Hke; [|done]. apply Hf, elem_of_pending_keys. by exists e.
Qed.

Lemma remove_spec limit t j k j' k' r :
  crd j = None → NoDup (tokens (operations j)) → RemoveDeferredOperation t j k = (j', k', r) →
  spec_call limit (CallRemove t) (abs_ops (operations j)) (abs_ops (operations j')) (RetErr r).
Proof.
  intros Hc Hnd E. unfold RemoveDeferredOperation in E. rewrite Hc in E.
  pose proof (find_token_abs (operations j) t Hnd) as H.
  destruct (list_find _ _) as [[i e]|]; simplify_eq/=.
  - destruct H as (? & _ & -> & _). by eapply spec_remove.
  - by apply spec_remove_missing.
Qed.

(** C3: a journal without a CRD backend implements the map contract: every call
    on a well-formed journal is a call of [spec_call] on the map of its entries,
    with the same answer, whatever the branch (full queue, duplicate, admission,
    missing token). *)
Theorem journal_refines_map c j k j' k' r :
  crd j = None → wf_ops (operations j) →
  (∀ uuid now op, c = CallCreate uuid now op → uuid ∉ tokens (operations j)) →
  run_call c j k = (j', k', r) →
  spec_call (effectiveLimit j) c (abs_ops (operations j)) (abs_ops (operations j')) r.
Proof.
  intros Hc Hwf Hfresh E. pose proof Hwf as [Hnd _]. destruct c; simpl in E;
    match type of E with
    | context [match ?x with pair _ _ => _ end] => destruct x as [[jx kx] rx] eqn:Ec
    end;
    simplify_eq.
  - eapply create_spec; eauto.
  - eapply update_entry_spec in Ec as [(? & -> & ->)|(e & ? & -> & ->)]; eauto using token_retry;
      by constructor.
  - eapply update_entry_spec in Ec as [(? & -> & ->)|(e & ? & -> & ->)]; eauto; by constructor.
  - eapply remove_spec; eauto.
Qed.

End refinement.

(** ** Idempotence and queue status *)

Section status.
Context {K : Type}.
Implicit Types (j : VolumeJournal K) (k : K).

(** Deferring is idempotent: once an operation was accepted under a token,
    deferring it again (at any later instant, with any new UUID) returns the same
    token and changes nothing, as long as the queue is not full. *)
Theorem create_idempotent uuid now uuid' now' op j k j' k' t :
  crd j = None →
  CreateDeferredOperation uuid now op j k = (j', k', Ok t) →
  Z.of_nat (length (operations j')) < effectiveLimit j' →
  wf_ops (operations j) → uuid ∉ tokens (operations j) →
  CreateDeferredOperation uuid' now' op j' k' = (j', k', Ok t).
Proof.
  intros Hc E Hlen Hwf Hfresh.
  assert (crd j' = None ∧ ∃ e, e ∈ operations j' ∧ pending e ∧ op_key e = op_key op ∧
            IdempotencyToken e = t) as (Hc' & e & He & Hp & Hke & Ht).
  { unfold CreateDeferredOperation in E. rewrite Hc in E. simpl in E.
    destruct (effectiveLimit j <=? _); [done|].
    destruct (list_find _ _) as [[i e]|] eqn:Hf; simplify_eq/=.
    - apply list_find_Some in Hf as (He & [Hp Hkey%same_key_true]%andb_true_iff & _).
      split; [done|]. exists e. split; [by eapply list_elem_of_lookup_2|done].
    - split; [done|]. exists (set_admission t now op).
      split; [apply elem_of_app; right; by apply list_elem_of_singleton|done]. }
  assert (journal_inv (j', k')) as [[_ Hnd] _].
  { eapply create_inv; [done|done|]. split; [done|]. intros _. simpl.
    pose proof E as E'. unfold CreateDeferredOperation in E'. rewrite Hc in E'. simpl in E'.
    destruct (effectiveLimit j <=? _) eqn:Hf; [done|]. bool_to_prop. lia. }
  unfold CreateDeferredOperation. rewrite Hc'. simpl. simpl in Hnd.
  destruct (effectiveLimit j' <=? _) eqn:Hf; bool_to_prop; [lia|].
  destruct (list_find _ _) as [[i e']|] eqn:Hfind.
  - apply list_find_Some in Hfind as (He' & [Hp' Hkey'%same_key_true]%andb_true_iff & _).
    apply list_elem_of_lookup_2 in He'.
    assert (e' = e) as ->; [|by rewrite Ht].
    eapply NoDup_fmap_elem_eq; [exact Hnd| | |congruence]; by apply list_elem_of_filter.
  - apply find_duplicate_None in Hfind. destruct Hfind. apply elem_of_pending_keys. by exists e.
Qed.

Lemma oldestFrom_spec ops o :
  oldestFrom o ops <= o ∧ (∀ op, op ∈ ops → oldestFrom o ops <= SubmissionTime op) ∧
  (oldestFrom o ops = o ∨ ∃ op, op ∈ ops ∧ oldestFrom o ops = SubmissionTime op).
Proof.
  revert o. induction ops as [|op ops IH]; intros o; simpl; [set_solver by lia|].
  destruct (IH (if SubmissionTime op <? o then SubmissionTime op else o)) as (H1 & H2 & H3).
  destruct (SubmissionTime op <? o) eqn:E; bool_to_prop.
  - split; [lia|]. split; [|right; set_solver].
    intros op' [->|]%elem_of_cons; auto.
  - split; [lia|]. split; [|set_solver].
    intros op' [->|]%elem_of_cons; [lia|auto].
Qed.

(** The queue status of a journal without a backend: [Count] is the number of
    pending operations, [AtLimit] and [AtWarning] compare it (and the age) with
    the limits in force, and [OldestAge] is the age of the oldest pending
    operation (0 for an empty queue); at the limit, admission is refused. *)
Theorem queue_status_spec now j k (Hcrd : crd j = None) :
  let qs := GetQueueStatus now j k in
  let ps := filter pending (operations j) in
  Count qs = Z.of_nat (length ps) ∧
  (AtLimit qs = true ↔ effectiveLimit j <= Count qs) ∧
  (AtWarning qs = true ↔ ps ≠ [] ∧ (effectiveWarning j <= Count qs ∨ QueueAgeWarningThreshold <= OldestAge qs)) ∧
  (∀ op, op ∈ ps → timeSub now (SubmissionTime op) <= OldestAge qs) ∧
  (ps ≠ [] → ∃ op, op ∈ ps ∧ OldestAge qs = timeSub now (SubmissionTime op)) ∧
  (AtLimit qs = true → ∀ uuid now' op, CreateDeferredOperation uuid now' op j k = (j, k, Err ErrQueueFull)).
Proof.
  simpl. unfold GetQueueStatus, queueStatusForOperations. rewrite Hcrd.
  set (ps := filter _ (operations j)). change (filter pending (operations j)) with ps.
  assert (∀ b, filter (λ op, negb false || b op = true) ps = ps) as Hall.
  { intros b. clear. induction ps as [|x l IH]; [done|]. rewrite filter_cons. by rewrite IH. }
  rewrite Hall.
  assert (effectiveLimit j <= Z.of_nat (length ps) → ∀ uuid now' op,
    CreateDeferredOperation uuid now' op j k = (j, k, Err ErrQueueFull)) as Hrej.
  { intros Hl uuid now' op. unfold CreateDeferredOperation. rewrite Hcrd. simpl.
    assert (length ps ≤ length (operations j))%nat by apply length_filter.
    destruct (effectiveLimit j <=? _) eqn:E; [done|]. bool_to_prop. lia. }
  destruct ps as [|op rest] eqn:Eps; simpl.
  - rewrite Z.leb_le. repeat split; try done; set_solver.
  - destruct (oldestFrom_spec rest (SubmissionTime op)) as (H1 & H2 & H3).
    rewrite orb_true_iff, !Z.leb_le. split; [done|]. split; [done|]. split; [naive_solver|].
    split; [|split; [|done]].
    + intros op' [->|]%elem_of_cons; apply timeSub_mono; auto.
    + intros _. destruct H3 as [->|(op' & ? & ->)]; [exists op|exists op']; set_solver.
Qed.

(** the status "for an array" counts the pending operations of every array:
    without a backend its [Count] does not depend on the array asked for. *)
Theorem queue_status_array_counts_all now a b j k (Hcrd : crd j = None) :
  Count (GetQueueStatusForArray now a j k) = Count (GetQueueStatusForArray now b j k) ∧
  Count (GetQueueStatusForArray now a j k) = Count (GetQueueStatus now j k).
Proof.
  unfold GetQueueStatusForArray, GetQueueStatus, queueStatusForOperations. rewrite Hcrd.
  by repeat case_match.
Qed.

End status.

(** ** Concrete runs *)

Definition sample_op (volume array : string) : DeferredOperation :=
  mkOp "" OpMetroPairing volume array "12" "csi-SG" "" 0 7 "" "13" "csi-SG-r" "SRP_1" "Gold"
    0 547 "pvc-1" "ns" "METRO" "000120000001" "csi-powermax" "uid" "".

(** An empty journal, and the journals after one and after two admissions. *)
Definition journal0 : VolumeJournal unit := NewVolumeJournal.
Definition journal1 : VolumeJournal unit :=
  (CreateDeferredOperation "t1" 1000 (sample_op "v1" "000120000002") journal0 tt).1.1.
Definition journal2 : VolumeJournal unit :=
  (CreateDeferredOperation "t2" 2000 (sample_op "v2" "000120000003") journal1 tt).1.1.

Lemma journal2_wf : wf_ops (operations journal2).
Proof. split; apply (bool_decide_unpack _); vm_compute; reflexivity. Qed.

Lemma journal_invariant_witness : journal_inv (journal2, tt) ∧ length (operations journal2) = 2%nat.
Proof.
  split; [|reflexivity].
  apply (journal_invariant (journal0, tt)).
  - apply (rtc_l _ _ (journal1, tt)); [|apply (rtc_l _ _ (journal2, tt)); [|apply rtc_refl]].
    + eapply (step_create "t1" 1000 (sample_op "v1" "000120000002")); [apply (bool_decide_unpack _)|];
        reflexivity.
    + eapply (step_create "t2" 2000 (sample_op "v2" "000120000003")); [apply (bool_decide_unpack _)|];
        reflexivity.
  - split; [split; apply NoDup_nil_2|]. intros _. vm_compute. discriminate.
Defined.

Lemma journal_refines_map_witness :
  spec_call 100 (CallRemove "t1") (abs_ops (operations journal2))
    (abs_ops (operations (RemoveDeferredOperation "t1" journal2 tt).1.1)) (RetErr None).
Proof.
  apply (journal_refines_map (CallRemove "t1") journal2 tt _ tt);
    [reflexivity|exact journal2_wf|discriminate|reflexivity].
Defined.

Lemma create_idempotent_witness :
  CreateDeferredOperation "t9" 9000 (sample_op "v2" "000120000003") journal2 tt = (journal2, tt, Ok "t2").
Proof.
  apply (create_idempotent "t2" 2000 "t9" 9000 (sample_op "v2" "000120000003") journal1 tt);
    [reflexivity|reflexivity|reflexivity| |apply (bool_decide_unpack _); reflexivity].
  split; apply (bool_decide_unpack _); reflexivity.
Defined.

Lemma queue_status_spec_witness :
  GetQueueStatus 5000 journal2 tt = mkQueueStatus 2 4000 false false ∧
  Count (GetQueueStatus 5000 journal2 tt) = 2.
Proof. split; [reflexivity|]. apply (queue_status_spec 5000 journal2 tt eq_refl). Defined.

Lemma queue_status_array_counts_all_witness :
  Count (GetQueueStatusForArray 5000 "000120000002" journal2 tt) =
  Count (GetQueueStatusForArray 5000 "unknown array" journal2 tt).
Proof. apply (queue_status_array_counts_all 5000 "000120000002" "unknown array" journal2 tt eq_refl). Defined.

End Journal.
