(* ===== verification/Base64.v ===== *)
(** * Base64 as encoding/base64 writes and reads it

    The standard alphabet with padding, as pkg/symmetrix/volumejournal_crd.go uses
    it for the request field of a journal resource: [EncodeToString] and
    [DecodeString], which skips line ends, checks the padding and accepts any
    trailing bits. The offset in the error of DecodeString is left out. *)

From S2P Require Import Prelude GoLib.
From stdpp Require Import base strings list.
From Stdlib Require Import ZArith Lia Ascii.

Module Base64.
Open Scope string_scope.
Open Scope Z_scope.

Definition alphabet : string := "ABCDEFGHIJKLMNOPQRSTUVWXYZabcdefghijklmnopqrstuvwxyz0123456789+/".
Definition pad : ascii := "=".

Definition b64char (n : Z) : ascii := default pad (String.get (Z.to_nat n) alphabet).
Fixpoint position (c : ascii) (s : string) : option Z :=
  match s with
  | "" => None
  | String d s => if decide (c = d) then Some 0 else Z.succ <$> position c s
  end.
Definition b64value (c : ascii) : option Z := position c alphabet.

Definition byte_of (c : ascii) : Z := Z.of_N (N_of_ascii c).
Definition of_byte (z : Z) : ascii := ascii_of_N (Z.to_N z).

(** The four digits of a group of 24 bits. *)
Definition digit1 (n : Z) : ascii := b64char (n / 262144).
Definition digit2 (n : Z) : ascii := b64char (n / 4096 mod 64).
Definition digit3 (n : Z) : ascii := b64char (n / 64 mod 64).
Definition digit4 (n : Z) : ascii := b64char (n mod 64).
Definition group (a b c : Z) : Z := a * 65536 + b * 256 + c.

Fixpoint EncodeToString (s : string) : string :=
  match s with
  | "" => ""
  | String a "" =>
      let n := group (byte_of a) 0 0 in String (digit1 n) (String (digit2 n) (String pad (String pad "")))
  | String a (String b "") =>
      let n := group (byte_of a) (byte_of b) 0 in
      String (digit1 n) (String (digit2 n) (String (digit3 n) (String pad "")))
  | String a (String b (String c s)) =>
      let n := group (byte_of a) (byte_of b) (byte_of c) in
      String (digit1 n) (String (digit2 n) (String (digit3 n) (String (digit4 n) (EncodeToString s))))
  end.

(** The bytes of a group of four digits. *)
Definition group64 (a b c d : Z) : Z := ((a * 64 + b) * 64 + c) * 64 + d.
Definition byte1 (n : Z) : ascii := of_byte (n / 65536).
Definition byte2 (n : Z) : ascii := of_byte (n / 256 mod 256).
Definition byte3 (n : Z) : ascii := of_byte (n mod 256).

Definition is_eol (c : ascii) : bool := bool_decide (c = "010"%char ∨ c = "013"%char).
Fixpoint skip_eol (s : string) : string :=
  match s with
  | "" => ""
  | String c s => if is_eol c then skip_eol s else String c (skip_eol s)
  end.

(** The last group, which may be padded. *)
Definition last_group (a b c d : ascii) : option string :=
  va ← b64value a; vb ← b64value b;
  if decide (d = pad) then
    if decide (c = pad) then Some (String (byte1 (group64 va vb 0 0)) "")
    else vc ← b64value c;
         let n := group64 va vb vc 0 in Some (String (byte1 n) (String (byte2 n) ""))
  else vc ← b64value c; vd ← b64value d;
       let n := group64 va vb vc vd in Some (String (byte1 n) (String (byte2 n) (String (byte3 n) ""))).

Fixpoint decode_groups (s : string) : option string :=
  match s with
  | "" => Some ""
  | String a (String b (String c (String d ""))) => last_group a b c d
  | String a (String b (String c (String d s))) =>
      va ← b64value a; vb ← b64value b; vc ← b64value c; vd ← b64value d;
      let n := group64 va vb vc vd in
      rest ← decode_groups s;
      Some (String (byte1 n) (String (byte2 n) (String (byte3 n) rest)))
  | _ => None
  end.

(** Without padding (RawStdEncoding): the last group may have two or three
    digits. *)
Fixpoint decode_raw_groups (s : string) : option string :=
  match s with
  | "" => Some ""
  | String a (String b "") =>
      va ← b64value a; vb ← b64value b; Some (String (byte1 (group64 va vb 0 0)) "")
  | String a (String b (String c "")) =>
      va ← b64value a; vb ← b64value b; vc ← b64value c;
      let n := group64 va vb vc 0 in Some (String (byte1 n) (String (byte2 n) ""))
  | String a (String b (String c (String d s))) =>
      va ← b64value a; vb ← b64value b; vc ← b64value c; vd ← b64value d;
      let n := group64 va vb vc vd in
      rest ← decode_raw_groups s;
      Some (String (byte1 n) (String (byte2 n) (String (byte3 n) rest)))
  | _ => None
  end.
Definition RawDecodeString (s : string) : option string := decode_raw_groups (skip_eol s).

Definition DecodeString (s : string) : option string := decode_groups (skip_eol s).

(** ** Round trip *)
Definition good_digit (d : Z) : bool :=
  bool_decide (b64value (b64char d) = Some d) && negb (is_eol (b64char d)) && bool_decide (b64char d ≠ pad).

Lemma good_digits d : 0 <= d < 64 → good_digit d = true.
Proof.
  intros Hd. assert (forallb good_digit (Z.of_nat <$> seq 0 64) = true) as H by (vm_compute; reflexivity).
  rewrite forallb_forall in H. apply H. apply list_elem_of_In.
  apply list_elem_of_fmap. exists (Z.to_nat d). split; [lia|]. apply elem_of_seq. lia.
Qed.

Lemma value_char d : 0 <= d < 64 → b64value (b64char d) = Some d.
Proof. intros H%good_digits. unfold good_digit in H. rewrite !andb_true_iff, !bool_decide_eq_true in H. tauto. Qed.
Lemma char_not_pad d : 0 <= d < 64 → b64char d ≠ pad.
Proof. intros H%good_digits. unfold good_digit in H. rewrite !andb_true_iff, !bool_decide_eq_true in H. tauto. Qed.
Lemma char_not_eol d : 0 <= d < 64 → is_eol (b64char d) = false.
Proof. intros H%good_digits. unfold good_digit in H. rewrite !andb_true_iff, negb_true_iff in H. tauto. Qed.

Lemma byte_range c : 0 <= byte_of c < 256.
Proof. unfold byte_of. pose proof (N_ascii_bounded c). lia. Qed.
Lemma of_byte_of c : of_byte (byte_of c) = c.
Proof. unfold of_byte, byte_of. rewrite N2Z.id. apply ascii_N_embedding. Qed.

Definition bits24 (n : Z) : Prop := 0 <= n < 16777216.
Lemma group_range a b c : 0 <= a < 256 → 0 <= b < 256 → 0 <= c < 256 → bits24 (group a b c).
Proof. unfold bits24, group. lia. Qed.

Lemma digits_range n : bits24 n →
  0 <= n / 262144 < 64 ∧ 0 <= n / 4096 mod 64 < 64 ∧ 0 <= n / 64 mod 64 < 64 ∧ 0 <= n mod 64 < 64.
Proof. unfold bits24. intros H. Z.to_euclidean_division_equations. lia. Qed.

Lemma digits_group n : bits24 n → group64 (n / 262144) (n / 4096 mod 64) (n / 64 mod 64) (n mod 64) = n.
Proof. unfold bits24, group64. intros H. Z.to_euclidean_division_equations. lia. Qed.

Lemma digits_values n : bits24 n →
  b64value (digit1 n) = Some (n / 262144) ∧ b64value (digit2 n) = Some (n / 4096 mod 64)
  ∧ b64value (digit3 n) = Some (n / 64 mod 64) ∧ b64value (digit4 n) = Some (n mod 64).
Proof. intros (?&?&?&?)%digits_range. unfold digit1, digit2, digit3, digit4. by rewrite !value_char. Qed.

Lemma group_bytes (a b c : ascii) : let n := group (byte_of a) (byte_of b) (byte_of c) in
  byte1 n = a ∧ byte2 n = b ∧ byte3 n = c.
Proof.
  pose proof (byte_range a). pose proof (byte_range b). pose proof (byte_range c).
  cbv zeta. unfold byte1, byte2, byte3, group.
  set (x := byte_of a) in *. set (y := byte_of b) in *. set (z := byte_of c) in *.
  replace ((x * 65536 + y * 256 + z) / 65536) with x by (Z.to_euclidean_division_equations; lia).
  replace ((x * 65536 + y * 256 + z) / 256 mod 256) with y by (Z.to_euclidean_division_equations; lia).
  replace ((x * 65536 + y * 256 + z) mod 256) with z by (Z.to_euclidean_division_equations; lia).
  unfold x, y, z. by rewrite !of_byte_of.
Qed.

(** Strings are consumed three characters at a time. *)
Lemma string_ind3 (P : string → Prop) :
  P "" → (∀ a, P (String a "")) → (∀ a b, P (String a (String b ""))) →
  (∀ a b c s, P s → P (String a (String b (String c s)))) → ∀ s, P s.
Proof.
  intros H0 H1 H2 H3.
  assert (∀ s, P s ∧ (∀ a, P (String a s)) ∧ (∀ a b, P (String a (String b s)))) as H; [|apply H].
  induction s as [|c s (? & ? & ?)]; split_and!; auto.
Qed.

Lemma byte0 : byte_of "000"%char = 0.
Proof. reflexivity. Qed.

Lemma skip_eol_encode s : skip_eol (EncodeToString s) = EncodeToString s.
Proof.
  pattern s. apply string_ind3; [done| | |]; intros a; intros; cbn [EncodeToString]; cbv zeta;
    match goal with |- context [digit1 ?n] =>
      assert (bits24 n) as Hn by (apply group_range; first [apply byte_range | lia]);
      destruct (digits_range n Hn) as (D1 & D2 & D3 & D4); set (m := n) in * end;
    unfold digit1, digit2, digit3, digit4; cbn [skip_eol];
    rewrite ?char_not_eol by done; try reflexivity.
  by rewrite H.
Qed.

Lemma decode_groups_cons a b c d s : s ≠ "" →
  decode_groups (String a (String b (String c (String d s)))) =
  (va ← b64value a; vb ← b64value b; vc ← b64value c; vd ← b64value d;
   let n := group64 va vb vc vd in
   rest ← decode_groups s;
   Some (String (byte1 n) (String (byte2 n) (String (byte3 n) rest)))).
Proof. destruct s; [done|]. reflexivity. Qed.

Lemma encode_empty s : EncodeToString s = "" → s = "".
Proof. destruct s as [|a [|b [|c s]]]; simpl; done. Qed.

(** Introduces what is known of the group [n] and of its digits. *)
Ltac open_group a b c :=
  let G := fresh "G" in
  pose proof (group_bytes a b c) as G; rewrite ?byte0 in G; cbv zeta in G;
  match type of G with byte1 ?m = _ ∧ _ =>
    assert (bits24 m) as Hn by (apply group_range; first [apply byte_range | lia]);
    set (n := m) in *;
    destruct G as (G1 & G2 & G3); destruct (digits_values n Hn) as (V1 & V2 & V3 & V4);
    pose proof (digits_group n Hn) as E; destruct (digits_range n Hn) as (R1 & R2 & R3 & R4)
  end.
Ltac no_bits n := unfold n, group; Z.to_euclidean_division_equations; lia.

(** DecodeString reads back every string EncodeToString wrote. *)
Lemma base64_roundtrip s : DecodeString (EncodeToString s) = Some s.
Proof.
  unfold DecodeString. rewrite skip_eol_encode.
  pattern s. apply string_ind3; clear s; [done| | |].
  - intros a. open_group a "000"%char "000"%char.
    replace (n / 64 mod 64) with 0 in E by no_bits n. replace (n mod 64) with 0 in E by no_bits n.
    cbn [EncodeToString decode_groups]. fold n. unfold last_group. rewrite V1, V2. simpl. by rewrite E, G1.
  - intros a b. open_group a b "000"%char. replace (n mod 64) with 0 in E by no_bits n.
    cbn [EncodeToString decode_groups]. fold n. unfold last_group. rewrite V1, V2, V3. simpl.
    rewrite decide_False by (by apply char_not_pad). by rewrite E, G1, G2.
  - intros a b c s IH. open_group a b c.
    cbn [EncodeToString]. fold n. cbv zeta. destruct (decide (EncodeToString s = "")) as [He|He].
    + rewrite He. apply encode_empty in He as ->. cbn [decode_groups]. unfold last_group.
      rewrite V1, V2, V3, V4. simpl. rewrite decide_False by (by apply char_not_pad). by rewrite E, G1, G2, G3.
    + rewrite decode_groups_cons by done. rewrite V1, V2, V3, V4. simpl. rewrite IH. simpl. by rewrite E, G1, G2, G3.
Qed.
End Base64.
