(* ===== verification/Crd.v ===== *)
(** * The CRD backend of the journal

    Models pkg/symmetrix/volumejournal_crd.go and deferOperation of
    service/service.go: each deferred operation is a VolumeJournal resource of
    the cluster, labelled with the driver instance that owns it; admission runs
    under a cluster-wide lease. The Kubernetes API is a class of calls over a
    cluster state, with the documented behaviour of the calls as laws. The JSON
    text of an operation is a parameter (class [Json]) with its round trip as a
    law; base64 is that of [Base64]. *)

From S2P Require Import Prelude GoLib Journal Base64.
From stdpp Require Import base gmap strings list.
From Stdlib Require Import ZArith Lia Ascii.

Module Crd.
Import Journal Base64.
Open Scope string_scope.
Open Scope Z_scope.

Definition volumeJournalLeaseDuration : Z := 30 * Second.
Definition labelArrayID := "dr.storage.dell.com/array-id".
Definition labelOperationType := "dr.storage.dell.com/operation-type".
Definition labelDriverType := "dr.storage.dell.com/driver-type".
Definition labelDriverName := "dr.storage.dell.com/driver-name".
Definition labelInstanceUID := "dr.storage.dell.com/instance-uid".

(** ** Resources *)
Record journalEntry := mkJournalEntry {
  entry_array : string;
  entry_host : string;
  entry_operation : string;
  entry_request : string;
  entry_status : string;
  entry_time : Z;          (* RFC 3339: in whole seconds *)
}.

Record journalSpec := mkSpec {
  driverType : string;
  spec_driverName : string;
  spec_instanceUID : string;
  volumeUUID : string;
  volumeHandle : string;
  failoverArray : string;
  originalArray : string;
  sourceCluster : string;
  targetCluster : string;
  journalEntries : list journalEntry;
}.

Record journalStatus := mkJournalStatus {
  phase : string;
  operationCount : Z;
  status_retryCount : Z;
  status_lastError : string;
  conditionStatus : string;
  reason : string;
  message : string;
  lastTransitionTime : Z;  (* in whole seconds *)
}.

Record resource := mkResource {
  name : string;
  labels : gmap string string;
  spec : journalSpec;
  resource_status : option journalStatus;
}.

(** The lease; the time of acquisition is [None] when its text does not parse. *)
Record lease := mkLease {
  holderIdentity : string;
  leaseDurationSeconds : Z;
  acquireTime : option Z;
}.

Inductive api_reason := ReasonNotFound | ReasonConflict | ReasonAlreadyExists | ReasonOther.
#[export] Instance api_reason_eq_dec : EqDecision api_reason.
Proof. solve_decision. Defined.
Record api_error := mkApiError { api_kind : api_reason; api_text : string }.

Definition isNotFound (e : api_error) : bool :=
  bool_decide (api_kind e = ReasonNotFound) || Contains (ToLower (api_text e)) "not found".
Definition isConflict (e : api_error) : bool :=
  bool_decide (api_kind e = ReasonConflict) || Contains (ToLower (api_text e)) "conflict".

(** ** The Kubernetes API *)

(** What the merge patch of the spec replaces. *)
Record specPatch := mkSpecPatch {
  patch_driverType : string;
  patch_driverName : string;
  patch_instanceUID : string;
  patch_entries : list journalEntry;
}.
Definition apply_patch (p : specPatch) (r : resource) : resource :=
  mkResource (name r) (labels r)
    (mkSpec (patch_driverType p) (patch_driverName p) (patch_instanceUID p) (volumeUUID (spec r))
       (volumeHandle (spec r)) (failoverArray (spec r)) (originalArray (spec r)) (sourceCluster (spec r))
       (targetCluster (spec r)) (patch_entries p))
    (resource_status r).
Definition apply_status (s : journalStatus) (r : resource) : resource :=
  mkResource (name r) (labels r) (spec r) (Some s).

Class Dynamic (K : Type) := {
  clock : K → Z;
  vj_get : string → K → result api_error resource;
  vj_create : resource → K → K * option api_error;
  vj_patch : string → specPatch → K → K * option api_error;
  vj_patch_status : string → journalStatus → K → K * option api_error;
  vj_delete : string → K → K * option api_error;
  vj_list : gmap string string → K → result api_error (list resource);
  lease_get : K → result api_error lease;
  lease_create : lease → K → K * option api_error;
  lease_update : lease → K → K * option api_error;
  lease_delete : K → K * option api_error;
}.

(** json.Marshal and json.Unmarshal of an operation. *)
Class Json := {
  Marshal : DeferredOperation → result string string;
  Unmarshal : string → result string DeferredOperation;
}.

Section backend.
Context {K : Type} `{Dynamic K} `{Json}.

Record crdJournal := mkCrdJournal {
  me : string;              (* holderIdentity *)
  driverName : string;
  instanceUID : string;
}.

(** ** Conversion *)
Definition entry_of (status request : string) (op : DeferredOperation) : journalEntry :=
  mkJournalEntry (ArrayID op) (if decide (NodeName op = "") then "unknown" else NodeName op)
    (OperationType op) request status (SubmissionTime op / Second).

Definition labels_of (op : DeferredOperation) : gmap string string :=
  let l := <[labelDriverType := "powermax"]> (<[labelOperationType := OperationType op]> {[labelArrayID := ArrayID op]}) in
  let l := if decide (DriverName op ≠ "") then <[labelDriverName := DriverName op]> l else l in
  if decide (InstanceUID op ≠ "") then <[labelInstanceUID := InstanceUID op]> l else l.

Definition crdOpToUnstructured (op : DeferredOperation) : result string resource :=
  match Marshal op with
  | Err e => Err ("crdJournal: marshal DeferredOperation: " ++ e)
  | Ok opJSON =>
      let status := if decide (Status op = "") then OpStatusPending else Status op in
      Ok (mkResource (IdempotencyToken op) (labels_of op)
            (mkSpec "powermax" (DriverName op) (InstanceUID op) (IdempotencyToken op) (VolumeID op) (ArrayID op)
               "unknown" "unknown" "unknown" [entry_of status (EncodeToString opJSON) op]) None)
  end.

Definition crdUnstructuredToOp (r : resource) : result string DeferredOperation :=
  match journalEntries (spec r) with
  | [] => Err ("crdJournal: journalEntries not found in " ++ name r)
  | entry :: _ =>
      match DecodeString (entry_request entry) with
      | None => Err ("crdJournal: base64 decode request in " ++ name r ++ ": illegal base64 data")
      | Some decoded =>
          match Unmarshal decoded with
          | Err e => Err ("crdJournal: unmarshal request in " ++ name r ++ ": " ++ e)
          | Ok op => Ok op
          end
      end
  end.

(** ** The lease *)
Definition busy : string := "VolumeJournal queue is busy".

Definition new_lease (c : crdJournal) (now : Z) : lease :=
  mkLease (me c) (volumeJournalLeaseDuration / Second) (Some now).

(** The update of the lease, which ends acquireQueueLease. *)
Definition take_lease (c : crdJournal) (now : Z) (k : K) : K * option string :=
  match lease_update (new_lease c now) k with
  | (k', None) => (k', None)
  | (k', Some e) => if isConflict e then (k', Some busy) else (k', Some (api_text e))
  end.

Definition acquireQueueLease (c : crdJournal) (k : K) : K * option string :=
  let now := clock k in
  match lease_get k with
  | Err e =>
      if isNotFound e then
        match lease_create (new_lease c now) k with
        | (k', None) => (k', None)
        | (k', Some e) =>
            if Contains (ToLower (api_text e)) "already exists" then (k', Some busy)
            else (k', Some (api_text e))
        end
      else (k, Some (api_text e))
  | Ok l =>
      let other := bool_decide (holderIdentity l ≠ me c) in
      match acquireTime l with
      | Some t =>
          if other && (now <? t + volumeJournalLeaseDuration) then (k, Some busy) else take_lease c now k
      | None =>
          if other then (k, Some "VolumeJournal queue lease has invalid acquireTime") else take_lease c now k
      end
  end.

Definition releaseQueueLease (k : K) : K * option api_error :=
  match lease_delete k with
  | (k', Some e) => if isNotFound e then (k', None) else (k', Some e)
  | (k', None) => (k', None)
  end.

(** The loop of withQueueLease up to the acquisition: [polls] is the number of
    timer ticks before the context ends, [wait] what the tick does to the
    cluster (time passes, others act). *)
Fixpoint acquire_loop (c : crdJournal) (wait : K → K) (polls : nat) (k : K) : K * option string :=
  match acquireQueueLease c k with
  | (k', None) => (k', None)
  | (k', Some e) =>
      if Contains e busy then
        match polls with
        | O => (k', Some "context deadline exceeded")
        | S polls => acquire_loop c wait polls (wait k')
        end
      else (k', Some e)
  end.

(** ** Operations on resources *)
Definition crdCreate_ (op : DeferredOperation) (k : K) : K * option string :=
  match crdOpToUnstructured op with
  | Err e => (k, Some e)
  | Ok r => match vj_create r k with (k', e) => (k', api_text <$> e) end
  end.

Definition ownsResource (c : crdJournal) (r : resource) : bool :=
  let l key := default "" (labels r !! key) in
  bool_decide (l labelDriverType = "powermax")
  && (bool_decide (driverName c = "") || bool_decide (l labelDriverName = driverName c))
  && (bool_decide (instanceUID c = "") || bool_decide (l labelInstanceUID = instanceUID c)).

(** [Ok None] is the nil resource of another owner. *)
Definition getPowerMaxResource (c : crdJournal) (token : string) (k : K) : result string (option resource) :=
  match vj_get token k with
  | Err e => Err (api_text e)
  | Ok r => if ownsResource c r then Ok (Some r) else Ok None
  end.

Definition status_of (now : Z) (op : DeferredOperation) : journalStatus :=
  let '(condition, why) :=
    if decide (Status op = OpStatusCompleted) then ("True", "Completed")
    else if decide (Status op = OpStatusFailed) then ("False", "Retrying")
    else if decide (Status op = OpStatusTerminal) then ("False", "Terminal")
    else ("Unknown", "Pending") in
  mkJournalStatus (Status op) 1 (RetryCount op) (LastError op) condition why
    (if decide (LastError op = "") then "VolumeJournal operation is " ++ Status op else LastError op)
    (now / Second).

Definition crdUpdate_ (c : crdJournal) (op : DeferredOperation) (k : K) : K * option string :=
  match getPowerMaxResource c (IdempotencyToken op) k with
  | Err e => (k, Some e)
  | Ok None => (k, None)
  | Ok (Some _) =>
      match Marshal op with
      | Err e => (k, Some ("crdJournal: marshal updated op: " ++ e))
      | Ok opJSON =>
          match vj_patch (IdempotencyToken op)
                  (mkSpecPatch "powermax" (DriverName op) (InstanceUID op) [entry_of (Status op) (EncodeToString opJSON) op]) k with
          | (k1, Some e) => (k1, Some (api_text e))
          | (k1, None) =>
              match vj_patch_status (IdempotencyToken op) (status_of (clock k) op) k1 with (k2, e) => (k2, api_text <$> e) end
          end
      end
  end.

Definition crdDelete_ (c : crdJournal) (token : string) (k : K) : K * option string :=
  match getPowerMaxResource c token k with
  | Err e => (k, Some e)
  | Ok None => (k, None)
  | Ok (Some _) => match vj_delete token k with (k', e) => (k', api_text <$> e) end
  end.

Definition selector (c : crdJournal) (arrayID : string) : gmap string string :=
  let s : gmap string string := {[labelDriverType := "powermax"]} in
  let s := if decide (driverName c ≠ "") then <[labelDriverName := driverName c]> s else s in
  let s := if decide (instanceUID c ≠ "") then <[labelInstanceUID := instanceUID c]> s else s in
  if decide (arrayID ≠ "") then <[labelArrayID := arrayID]> s else s.

(** The loop over the listed resources: the first malformed one ends it. *)
Fixpoint pending_ops (rs : list resource) : result string (list DeferredOperation) :=
  match rs with
  | [] => Ok []
  | r :: rs =>
      match crdUnstructuredToOp r with
      | Err e => Err ("crdJournal: malformed resource " ++ name r ++ ": " ++ e)
      | Ok op =>
          match pending_ops rs with
          | Err e => Err e
          | Ok ops => Ok (if isPendingOperation (Status op) then op :: ops else ops)
          end
      end
  end.

Definition crdList_ (c : crdJournal) (arrayID : string) (k : K) : result string (list DeferredOperation) :=
  match vj_list (selector c arrayID) k with
  | Err e => Err ("crdJournal: list: " ++ api_text e)
  | Ok rs => pending_ops rs
  end.

(** The backend as the journal uses it. *)
Definition crd_ops (c : crdJournal) (wait : K → K) (polls : nat) : CrdOps K :=
  mkCrdOps K (crdList_ c) crdCreate_ (crdUpdate_ c) (crdDelete_ c) (acquire_loop c wait polls)
    (λ k, fst (releaseQueueLease k)).

(** ** deferOperation

    The owner is filled in at the one place where operations are queued. *)
Definition with_owner (driver uid : string) (op : DeferredOperation) : DeferredOperation :=
  mkOp (IdempotencyToken op) (OperationType op) (VolumeID op) (ArrayID op) (RDFGroupNo op) (StorageGroupName op)
    (NodeName op) (SubmissionTime op) (RetryCount op) (LastError op) (RemoteRDFGroupNo op)
    (RemoteStorageGroupName op) (RemoteSRP op) (RemoteServiceLevel op) (VolumeCapacity op) (RequiredCylinders op)
    (VolumeName op) (Namespace op) (ReplicationMode op) (LocalSymID op)
    (if decide (DriverName op = "") then driver else DriverName op)
    (if decide (InstanceUID op = "") then uid else InstanceUID op) (Status op).

Inductive defer_error := DeferDisabled | DeferJournal (e : journal_error).

Definition deferOperation (driver uid token : string) (now : Z) (op : DeferredOperation)
    (j : option (VolumeJournal K)) (k : K) : option (VolumeJournal K) * K * result defer_error string :=
  match j with
  | None => (None, k, Err DeferDisabled)
  | Some j =>
      let op := with_owner driver uid op in
      if AtLimit (GetQueueStatus now j k) then (Some j, k, Err (DeferJournal ErrQueueFull))
      else
        match CreateDeferredOperation token now op j k with
        | (j', k', Ok t) => (Some j', k', Ok t)
        | (j', k', Err e) => (Some j', k', Err (DeferJournal e))
        end
  end.
End backend.

(** ** Laws of the API *)
(** A label selector matches a resource that has each of its labels. *)
Definition selected (sel : gmap string string) (r : resource) : Prop :=
  map_Forall (λ key v, labels r !! key = Some v) sel.
#[export] Instance selected_dec sel r : Decision (selected sel r).
Proof. unfold selected. apply _. Defined.

Class DynamicLaws (K : Type) `{Dynamic K} := {
  view : K → gmap string resource;
  get_law n k r : vj_get n k = Ok r → view k !! n = Some r;
  create_law r k k' : vj_create r k = (k', None) → view k !! name r = None ∧ view k' = <[name r := r]> (view k);
  patch_law n p k k' : vj_patch n p k = (k', None) → view k' = alter (apply_patch p) n (view k);
  patch_status_law n st k k' : vj_patch_status n st k = (k', None) → view k' = alter (apply_status st) n (view k);
  delete_law n k k' : vj_delete n k = (k', None) → view k' = delete n (view k);
  lease_delete_law k : view (fst (lease_delete k)) = view k;
  list_law sel k rs : vj_list sel k = Ok rs → rs ≡ₚ snd <$> map_to_list (filter (λ nr, selected sel nr.2) (view k));
}.

(** Strings without bytes that JSON replaces. *)
Fixpoint is_ascii (s : string) : bool :=
  match s with "" => true | String c s => (nat_of_ascii c <? 128)%nat && is_ascii s end.
Definition ascii_op (op : DeferredOperation) : bool :=
  forallb is_ascii
    [IdempotencyToken op; OperationType op; VolumeID op; ArrayID op; RDFGroupNo op; StorageGroupName op; NodeName op;
     LastError op; RemoteRDFGroupNo op; RemoteStorageGroupName op; RemoteSRP op; RemoteServiceLevel op; VolumeName op;
     Namespace op; ReplicationMode op; LocalSymID op; DriverName op; InstanceUID op; Status op].

Class JsonLaws `{Json} := {
  Unmarshal_Marshal op s : ascii_op op = true → Marshal op = Ok s → Unmarshal s = Ok op
}.

Section theorems.
Context {K : Type} `{DynamicLaws K} `{JsonLaws}.

(** What one resource contributes to a list. *)
Definition listed (r : resource) : list DeferredOperation :=
  match crdUnstructuredToOp r with
  | Ok op => if isPendingOperation (Status op) then [op] else []
  | Err _ => []
  end.
Definition readable (r : resource) : Prop := is_ok (crdUnstructuredToOp r) = true.

Lemma pending_ops_spec rs l :
  pending_ops rs = Ok l ↔ Forall readable rs ∧ l = List.flat_map listed rs.
Proof.
  revert l. induction rs as [|r rs IH]; intros l; simpl.
  - split; [intros [= <-]; by split|]. by intros [_ ->].
  - unfold listed at 1. rewrite Forall_cons. unfold readable at 1.
    destruct (crdUnstructuredToOp r) as [op|e]; simpl; [|split; [done|by intros [[? _] _]]].
    destruct (pending_ops rs) as [ops|e].
    + destruct (proj1 (IH ops) eq_refl) as [Hr ->].
      destruct (isPendingOperation (Status op)); simpl; split;
        (by intros [= <-]) || (by intros [_ ->]).
    + split; [done|]. intros [[_ Hr] _]. by pose proof (proj2 (IH _) (conj Hr eq_refl)).
Qed.

Lemma pending_ops_perm rs rs' l :
  rs ≡ₚ rs' → pending_ops rs = Ok l → ∃ l', pending_ops rs' = Ok l' ∧ l' ≡ₚ l.
Proof.
  intros Hp [Hr ->]%pending_ops_spec. exists (List.flat_map listed rs'). split.
  - apply pending_ops_spec. split; [by rewrite <- Hp|done].
  - apply Permutation_flat_map. by symmetry.
Qed.

(** The operation carries the labels by which its owner selects. *)
Definition owned (c : crdJournal) (op : DeferredOperation) : Prop :=
  (driverName c = "" ∨ DriverName op = driverName c) ∧ (instanceUID c = "" ∨ InstanceUID op = instanceUID c).

(** The labels of an operation's resource. *)
Ltac label_lookup :=
  unfold labels_of; cbv zeta; repeat case_decide; try done;
  repeat first [rewrite lookup_insert_eq | rewrite lookup_insert_ne by (vm_compute; discriminate)
               | rewrite lookup_singleton_eq]; done.
Lemma label_type op : labels_of op !! labelDriverType = Some "powermax".
Proof. label_lookup. Qed.
Lemma label_array op : labels_of op !! labelArrayID = Some (ArrayID op).
Proof. label_lookup. Qed.
Lemma label_driver op : DriverName op ≠ "" → labels_of op !! labelDriverName = Some (DriverName op).
Proof. intros ?. label_lookup. Qed.
Lemma label_instance op : InstanceUID op ≠ "" → labels_of op !! labelInstanceUID = Some (InstanceUID op).
Proof. intros ?. label_lookup. Qed.

Lemma labels_selected c op arrayID key v :
  owned c op → arrayID = "" ∨ arrayID = ArrayID op →
  selector c arrayID !! key = Some v → labels_of op !! key = Some v.
Proof.
  intros [Hd Hu] Ha. unfold selector. cbv zeta.
  assert (arrayID ≠ "" → labels_of op !! labelArrayID = Some arrayID) as Ha'
    by (intros ?; rewrite label_array; naive_solver).
  assert (driverName c ≠ "" → labels_of op !! labelDriverName = Some (driverName c)) as Hd'
    by (intros ?; destruct Hd as [?|E]; [done|]; rewrite <- E in *; by apply label_driver).
  assert (instanceUID c ≠ "" → labels_of op !! labelInstanceUID = Some (instanceUID c)) as Hu'
    by (intros ?; destruct Hu as [?|E]; [done|]; rewrite <- E in *; by apply label_instance).
  clear Hd Hu Ha.
  repeat case_decide; intros Hs;
    repeat (apply lookup_insert_Some in Hs as [[<- <-]|[_ Hs]]; [by auto|]);
    apply lookup_singleton_Some in Hs as [<- <-]; apply label_type.
Qed.

(** The resources a controller selects among those of the cluster. *)
Definition selection (c : crdJournal) (arrayID : string) (m : gmap string resource) : list resource :=
  snd <$> map_to_list (filter (λ nr, selected (selector c arrayID) nr.2) m).

Lemma selection_with c arrayID m n r :
  m !! n = Some r → selected (selector c arrayID) r →
  selection c arrayID m ≡ₚ r :: selection c arrayID (delete n m).
Proof.
  intros Hn Hs. unfold selection.
  rewrite <- (insert_delete_id m n r) at 1 by done.
  rewrite map_filter_insert_True by done.
  rewrite map_to_list_insert; [done|]. apply map_lookup_filter_None. left. apply lookup_delete_eq.
Qed.

Lemma selection_list c arrayID k rs :
  vj_list (selector c arrayID) k = Ok rs → rs ≡ₚ selection c arrayID (view k).
Proof. apply list_law. Qed.

(** A list that succeeds, with one resource more, less or changed. *)
Lemma pending_ops_of rs rs' l : rs ≡ₚ rs' → pending_ops rs = Ok l → Forall readable rs' ∧ l ≡ₚ List.flat_map listed rs'.
Proof. intros Hp [Hr ->]%pending_ops_spec. rewrite <- Hp at 1. split; [done|]. by apply Permutation_flat_map. Qed.
Lemma pending_ops_to rs rs' : rs ≡ₚ rs' → Forall readable rs' →
  ∃ l, pending_ops rs = Ok l ∧ l ≡ₚ List.flat_map listed rs'.
Proof.
  intros Hp Hr. exists (List.flat_map listed rs). split; [|by apply Permutation_flat_map].
  apply pending_ops_spec. by rewrite Hp at 1.
Qed.

(** A list is read off the resources of the cluster, up to the order. *)
Lemma crdList_selection c arrayID k l :
  crdList_ c arrayID k = Ok l → ∃ l', pending_ops (selection c arrayID (view k)) = Ok l' ∧ l' ≡ₚ l.
Proof.
  unfold crdList_. destruct (vj_list _ _) as [rs|] eqn:Hl; [|done].
  apply pending_ops_perm, selection_list, Hl.
Qed.
Lemma selection_crdList c arrayID k l rs :
  vj_list (selector c arrayID) k = Ok rs → pending_ops (selection c arrayID (view k)) = Ok l →
  ∃ l', crdList_ c arrayID k = Ok l' ∧ l' ≡ₚ l.
Proof.
  intros Hl. unfold crdList_. rewrite Hl. apply pending_ops_perm. symmetry. by apply selection_list.
Qed.

(** A resource whose first entry was written for [op] reads as [op]. *)
Lemma written_op r op s st : ascii_op op = true → Marshal op = Ok s →
  journalEntries (spec r) = [entry_of st (EncodeToString s) op] → crdUnstructuredToOp r = Ok op.
Proof.
  intros Ha Hm He. unfold crdUnstructuredToOp. rewrite He. simpl.
  by rewrite base64_roundtrip, (Unmarshal_Marshal op s).
Qed.

Lemma written_listed r op : crdUnstructuredToOp r = Ok op →
  readable r ∧ listed r = if isPendingOperation (Status op) then [op] else [].
Proof. intros E. unfold readable, listed. by rewrite E. Qed.

(** An operation written to the cluster is selected from then on by its owner,
    for its array as well as for all arrays, once and unchanged, next to the
    operations selected before. *)
Lemma crd_create_listed c op k k' arrayID before :
  crdCreate_ op k = (k', None) → ascii_op op = true → owned c op → isPendingOperation (Status op) = true →
  arrayID = "" ∨ arrayID = ArrayID op →
  pending_ops (selection c arrayID (view k)) = Ok before →
  ∃ after, pending_ops (selection c arrayID (view k')) = Ok after ∧ after ≡ₚ op :: before.
Proof.
  intros Hc Hascii Ho Hp Ha Hb.
  unfold crdCreate_, crdOpToUnstructured in Hc. destruct (Marshal op) as [s|e] eqn:He; [|done].
  set (r := mkResource _ _ _ _) in Hc. destruct (vj_create r k) as [k1 [e|]] eqn:Hcr; [done|].
  injection Hc as <-. apply create_law in Hcr as [Hnone Hview].
  assert (selected (selector c arrayID) r) as Hsel by (intros key v; by apply labels_selected).
  destruct (written_listed r op) as [Hr Hlr]; [by eapply written_op|]. rewrite Hp in Hlr.
  pose proof (selection_with c arrayID (view k1) (name r) r) as Hperm.
  rewrite Hview in Hperm |- *. rewrite lookup_insert_eq, delete_insert_id in Hperm by done.
  specialize (Hperm eq_refl Hsel).
  apply pending_ops_spec in Hb as [Hro ->].
  destruct (pending_ops_to _ _ Hperm) as (l & Hok & Hafter); [by constructor|].
  exists l. split; [done|]. rewrite Hafter. simpl. by rewrite Hlr.
Qed.

(** What a controller selects it owns. *)
Lemma selected_owned c arrayID r : selected (selector c arrayID) r → ownsResource c r = true.
Proof.
  intros Hs. unfold ownsResource. cbv zeta.
  assert (∀ key v, selector c arrayID !! key = Some v → bool_decide (default "" (labels r !! key) = v) = true) as Hl
    by (intros key v ->%Hs; by apply bool_decide_true).
  assert (labelDriverType ≠ labelDriverName ∧ labelDriverType ≠ labelInstanceUID ∧ labelDriverType ≠ labelArrayID
    ∧ labelDriverName ≠ labelInstanceUID ∧ labelDriverName ≠ labelArrayID ∧ labelInstanceUID ≠ labelArrayID)
    as (? & ? & ? & ? & ? & ?) by (split_and!; vm_compute; discriminate).
  rewrite !andb_true_iff, !orb_true_iff, !bool_decide_eq_true. split_and!.
  - eapply bool_decide_eq_true, Hl. unfold selector. cbv zeta. repeat case_decide; by simplify_map_eq.
  - destruct (decide (driverName c = "")); [by left|right]. eapply bool_decide_eq_true, Hl.
    unfold selector. cbv zeta. repeat case_decide; by simplify_map_eq.
  - destruct (decide (instanceUID c = "")); [by left|right]. eapply bool_decide_eq_true, Hl.
    unfold selector. cbv zeta. repeat case_decide; by simplify_map_eq.
Qed.

Lemma get_owned c arrayID token k r r0 :
  view k !! token = Some r → selected (selector c arrayID) r →
  getPowerMaxResource c token k = Ok r0 → r0 = Some r.
Proof.
  intros Hr Hs. unfold getPowerMaxResource. destruct (vj_get token k) as [r1|] eqn:Hg; [|done].
  apply get_law in Hg. rewrite Hr in Hg. injection Hg as <-.
  rewrite (selected_owned _ _ _ Hs). by intros [= <-].
Qed.

(** The resource an update leaves behind. *)
Lemma crdUpdate_view c arrayID op k k' r :
  view k !! IdempotencyToken op = Some r → selected (selector c arrayID) r → ascii_op op = true →
  crdUpdate_ c op k = (k', None) →
  ∃ r', view k' = <[IdempotencyToken op := r']> (view k) ∧ labels r' = labels r ∧ crdUnstructuredToOp r' = Ok op.
Proof.
  intros Hr Hs Ha. unfold crdUpdate_.
  destruct (getPowerMaxResource c _ k) as [r0|] eqn:Hg; [|done].
  apply (get_owned _ arrayID _ _ r) in Hg as ->; [|done..].
  destruct (Marshal op) as [s|] eqn:Hm; [|done].
  destruct (vj_patch _ _ k) as [k1 [e|]] eqn:Hp; [done|].
  destruct (vj_patch_status _ _ k1) as [k2 [e|]] eqn:Hst; [done|]. intros [= <-].
  apply patch_law in Hp. apply patch_status_law in Hst.
  eexists. split; [|split; [|eapply written_op; [done|done|]]].
  - rewrite Hst, Hp, (alter_alt_Some _ _ _ _ Hr), alter_insert_eq. done.
  - done.
  - done.
Qed.

(** An update of an owner's resource that succeeds replaces the operation in
    the owner's list (and takes it out once it is no longer pending), a deletion
    takes it out; everything else that was listed stays. *)
Theorem crd_settle_listed c op k k' arrayID r rs' before :
  view k !! IdempotencyToken op = Some r → selected (selector c arrayID) r → ascii_op op = true →
  crdList_ c arrayID k = Ok before → vj_list (selector c arrayID) k' = Ok rs' →
  ∃ rest, before ≡ₚ (listed r ++ rest)%list
    ∧ (crdUpdate_ c op k = (k', None) →
       ∃ after, crdList_ c arrayID k' = Ok after
         ∧ after ≡ₚ ((if isPendingOperation (Status op) then [op] else []) ++ rest)%list)
    ∧ (crdDelete_ c (IdempotencyToken op) k = (k', None) → ∃ after, crdList_ c arrayID k' = Ok after ∧ after ≡ₚ rest).
Proof.
  intros Hr Hs Ha (before' & Hb & Hbb)%crdList_selection Hl'. apply selection_list in Hl' as Hp'.
  exists (List.flat_map listed (selection c arrayID (delete (IdempotencyToken op) (view k)))).
  destruct (pending_ops_of _ _ _ (selection_with _ _ _ _ _ Hr Hs) Hb) as [[_ Hro]%Forall_cons Hbefore].
  split; [by rewrite <- Hbb|]. unfold crdList_. rewrite Hl'. split.
  - intros (r' & Hv & Hlab & Hop)%(crdUpdate_view _ arrayID _ _ _ r); [|done..].
    destruct (written_listed r' op Hop) as [Hr' Hlr].
    rewrite Hv, (selection_with _ _ _ (IdempotencyToken op) r'), delete_insert_eq in Hp'
      by (first [apply lookup_insert_eq | unfold selected in *; by rewrite Hlab]).
    destruct (pending_ops_to _ _ Hp') as (l & Hok & Hafter); [by constructor|].
    exists l. split; [done|]. rewrite Hafter. simpl. by rewrite Hlr.
  - unfold crdDelete_. destruct (getPowerMaxResource c _ k) as [r0|] eqn:Hg; [|done].
    apply (get_owned _ arrayID _ _ r) in Hg as ->; [|done..].
    destruct (vj_delete _ k) as [k1 [e|]] eqn:Hd; [done|]. intros [= <-]. apply delete_law in Hd.
    rewrite Hd in Hp'. by apply pending_ops_to.
Qed.

(** What is listed does not change with the lease. *)
Lemma release_view k : view (fst (releaseQueueLease k)) = view k.
Proof.
  rewrite <- (lease_delete_law k). unfold releaseQueueLease.
  destruct (lease_delete k) as [k' [e|]]; simpl; [|done]. by destruct (isNotFound e).
Qed.

Lemma same_key_refl op : same_key op op = true.
Proof. unfold same_key. by rewrite !bool_decide_true. Qed.

(** The body of the lease: when it reports no duplicate, the operation is in the
    cluster; the duplicate it reports is there. *)
Lemma admit_listed c wait polls limit op k k' d :
  admit_shared (crd_ops c wait polls) limit op k = (k', Ok d) →
  ascii_op op = true → owned c op → isPendingOperation (Status op) = true →
  ∃ l e, pending_ops (selection c "" (view k')) = Ok l ∧ e ∈ l ∧ same_key op e = true
    ∧ IdempotencyToken e = default (IdempotencyToken op) d.
Proof.
  intros Ha Hascii Ho Hp. unfold admit_shared in Ha. cbn [crdList crdCreate crd_ops] in Ha.
  destruct (crdList_ c "" k) as [shared|] eqn:Hl; [|done]. case_match; [done|].
  apply crdList_selection in Hl as (l & Hl & Hperm).
  destruct (list_find _ shared) as [[i e]|] eqn:Hf.
  - injection Ha as <- <-. apply list_find_Some in Hf as (Hi & Hk & _).
    exists l, e. split_and!; [done| |done|done]. rewrite Hperm. by eapply list_elem_of_lookup_2.
  - destruct (crdCreate_ op k) as [k1 [e|]] eqn:Hc; [done|]. injection Ha as <- <-.
    eapply crd_create_listed in Hl as (after & Hok & Hafter); [|done..|by left].
    exists after, op. split_and!; [done| |apply same_key_refl|done]. rewrite Hafter. by left.
Qed.

(** The owner's labels, and the text, of an operation that is admitted. *)
Definition admissible (c : crdJournal) (driver uid token : string) (op : DeferredOperation) : bool :=
  let op' := set_admission token 0 (with_owner driver uid op) in
  ascii_op op' && bool_decide (DriverName op' = driverName c) && bool_decide (InstanceUID op' = instanceUID c).

Lemma admissible_spec c driver uid token now op :
  admissible c driver uid token op = true →
  ascii_op (set_admission token now (with_owner driver uid op)) = true
  ∧ owned c (set_admission token now (with_owner driver uid op)).
Proof.
  unfold admissible. cbv zeta. rewrite !andb_true_iff, !bool_decide_eq_true. intros [[Ha Hd] Hu].
  split; [exact Ha|]. split; right; assumption.
Qed.

(** The operation that this controller remembers as pending under the same key. *)
Definition remembered (driver uid : string) (op : DeferredOperation) (j : VolumeJournal K) : option DeferredOperation :=
  snd <$> list_find (λ e, isPendingOperation (Status e) && same_key (with_owner driver uid op) e = true) (operations j).

(** C40: When deferOperation succeeds through a journal on the cluster, then either this controller remembers a
    pending operation with the same key, and its token is returned without a look at the cluster and without any
    change; or the cluster holds one now, listed by every replica of the driver instance, under the token that is
    returned, so that it survives a crash of the controller; only when an operation with the same key and an empty
    token was stored there before, a new token is returned, and this controller alone remembers the operation under it. *)
Theorem deferred_is_persisted c wait polls driver uid token now op j j' k k' t rs' :
  crd j = Some (crd_ops c wait polls) → admissible c driver uid token op = true →
  deferOperation driver uid token now op (Some j) k = (j', k', Ok t) →
  vj_list (selector c "") k' = Ok rs' →
  match remembered driver uid op j with
  | Some e => e ∈ operations j ∧ isPendingOperation (Status e) = true ∧ same_key op e = true ∧ t = IdempotencyToken e ∧ j' = Some j ∧ k' = k
  | None =>
      ∃ l e, crdList_ c "" k' = Ok l ∧ e ∈ l ∧ same_key op e = true
        ∧ (IdempotencyToken e = t
           ∨ IdempotencyToken e = "" ∧ t = token ∧ j' = Some (set_operations (operations j ++ [set_admission token now (with_owner driver uid op)]) j))
  end.
Proof.
  intros Hc (Hascii & Ho)%(admissible_spec _ _ _ _ now) Hd Hl'. unfold deferOperation in Hd. cbv zeta in Hd.
  case_match; [done|]. unfold CreateDeferredOperation in Hd. rewrite Hc in Hd. unfold remembered.
  rewrite bool_decide_false in Hd by done. cbn [andb] in Hd. destruct (list_find _ (operations j)) as [[i e]|] eqn:Hf; simpl in Hd |- *.
  { injection Hd as <- <- <-. apply list_find_Some in Hf as (Hi & [Hp Hk]%andb_prop & _). split_and!; [by eapply list_elem_of_lookup_2|done|done|done|done|done]. }
  unfold withQueueLease in Hd. simpl in Hd. destruct (acquire_loop c wait polls k) as [k1 [e|]]; [done|].
  destruct (admit_shared _ _ _ k1) as [k2 [d|e]] eqn:Had; [|done].
  apply admit_listed in Had as (l & e & Hok & He & Hkey & Htok); [|done..].
  rewrite <- (release_view k2) in Hok.
  assert (k' = fst (releaseQueueLease k2)) as -> by (destruct d as [d|]; [case_bool_decide|]; congruence).
  destruct (selection_crdList _ _ _ _ _ Hl' Hok) as (l' & Hl & Hperm).
  exists l', e. split_and!; [done|by rewrite Hperm|exact Hkey|].
  destruct d as [d|]; simpl in Htok, Hd; [case_bool_decide; subst; [right; split_and!; congruence|]|]; left; congruence.
Qed.

(** A resource of another owner is neither changed nor deleted. *)
Lemma not_owned_untouched c op token k r :
  vj_get token k = Ok r → ownsResource c r = false →
  crdDelete_ c token k = (k, None) ∧ (IdempotencyToken op = token → crdUpdate_ c op k = (k, None)).
Proof.
  intros Hg Ho. unfold crdDelete_, crdUpdate_, getPowerMaxResource. split; [by rewrite Hg, Ho|].
  intros ->. by rewrite Hg, Ho.
Qed.

(** A lease held by another controller excludes, for volumeJournalLeaseDuration
    from its acquisition. *)
Lemma acquire_excluded c k l t :
  lease_get k = Ok l → acquireTime l = Some t → holderIdentity l ≠ me c →
  clock k < t + volumeJournalLeaseDuration → acquireQueueLease c k = (k, Some busy).
Proof.
  intros Hg Ht Hm Hc. unfold acquireQueueLease. rewrite Hg, Ht, bool_decide_true by done.
  by apply Z.ltb_lt in Hc as ->.
Qed.
End theorems.

(** ** A simulated cluster *)
Record cluster := mkCluster {
  cl_time : Z;
  cl_resources : gmap string resource;
  cl_lease : option lease;
}.
Definition missing : api_error := mkApiError ReasonNotFound "not found".
Definition existing : api_error := mkApiError ReasonAlreadyExists "already exists".
Definition set_resources (m : gmap string resource) (k : cluster) : cluster := mkCluster (cl_time k) m (cl_lease k).
Definition set_lease (l : option lease) (k : cluster) : cluster := mkCluster (cl_time k) (cl_resources k) l.
Definition at_time (t : Z) (k : cluster) : cluster := mkCluster t (cl_resources k) (cl_lease k).

#[export] Instance cluster_api : Dynamic cluster := {
  clock := cl_time;
  vj_get n k := match cl_resources k !! n with Some r => Ok r | None => Err missing end;
  vj_create r k :=
    match cl_resources k !! name r with
    | Some _ => (k, Some existing)
    | None => (set_resources (<[name r := r]> (cl_resources k)) k, None)
    end;
  vj_patch n p k := (set_resources (alter (apply_patch p) n (cl_resources k)) k, None);
  vj_patch_status n s k := (set_resources (alter (apply_status s) n (cl_resources k)) k, None);
  vj_delete n k := (set_resources (delete n (cl_resources k)) k, None);
  vj_list sel k := Ok (snd <$> map_to_list (filter (λ nr, selected sel nr.2) (cl_resources k)));
  lease_get k := match cl_lease k with Some l => Ok l | None => Err missing end;
  lease_create l k := match cl_lease k with Some _ => (k, Some existing) | None => (set_lease (Some l) k, None) end;
  lease_update l k := (set_lease (Some l) k, None);
  lease_delete k := match cl_lease k with Some _ => (set_lease None k, None) | None => (k, Some missing) end;
}.

#[export] Program Instance cluster_laws : DynamicLaws cluster := { view := cl_resources }.
Next Obligation. intros n k r. simpl. destruct (cl_resources k !! n); [by intros [= <-]|done]. Qed.
Next Obligation.
  intros r k k'. simpl. destruct (cl_resources k !! name r) eqn:E; [done|]. by intros [= <-].
Qed.
Next Obligation. intros n p k k'. simpl. by intros [= <-]. Qed.
Next Obligation. intros n st k k'. simpl. by intros [= <-]. Qed.
Next Obligation. intros n k k'. simpl. by intros [= <-]. Qed.
Next Obligation. intros [t rs [l|]]; reflexivity. Qed.
Next Obligation. intros sel k rs. simpl. by intros [= <-]. Qed.

Definition controller (id : string) : crdJournal := mkCrdJournal id "csi-powermax" "uid-1".

(** Releasing deletes the lease whoever holds it. A controller whose lease
    has run out while it was working releases the lease of the one that took
    over, and a third is admitted while the second still holds an unexpired
    lease. *)
Theorem lease_release_frees_other (k0 : cluster) :
  cl_lease k0 = None → cl_time k0 = 0 →
  ∃ k1 k2 k3 k4,
    acquireQueueLease (controller "a") k0 = (k1, None)
    ∧ acquireQueueLease (controller "b") (at_time (31 * Second) k1) = (k2, None)
    ∧ lease_get k2 = Ok (mkLease "b" 30 (Some (31 * Second)))
    ∧ releaseQueueLease k2 = (k3, None)
    ∧ acquireQueueLease (controller "c") (at_time (32 * Second) k3) = (k4, None)
    ∧ clock k4 < 31 * Second + volumeJournalLeaseDuration.
Proof.
  intros Hl Ht. destruct k0 as [t rs l]. simpl in *. subst. do 4 eexists.
  repeat (split; [reflexivity|]). reflexivity.
Qed.

(** ** Witnesses *)
Definition cleanup_op : DeferredOperation :=
  mkOp "t1" OpDeviceCleanup "vol1" "000120000548" "" "" "" 5 0 "" "" "" "" "" 0 0 "" "" "" "" "csi-powermax" "uid-1" OpStatusPending.
Definition done_op : DeferredOperation :=
  mkOp "t1" OpDeviceCleanup "vol1" "000120000548" "" "" "" 5 1 "" "" "" "" "" 0 0 "" "" "" "" "csi-powermax" "uid-1" OpStatusCompleted.

(** Texts for two operations. *)
Definition two_json : Json := {|
  Marshal op :=
    if decide (op = cleanup_op) then Ok "{1}" else if decide (op = done_op) then Ok "{2}" else Err "unsupported";
  Unmarshal s :=
    if decide (s = "{1}") then Ok cleanup_op else if decide (s = "{2}") then Ok done_op else Err "unexpected end";
|}.
Lemma two_json_laws : @JsonLaws two_json.
Proof.
  split. intros op s _. simpl. case_decide; [intros [= <-]; by subst|].
  case_decide; [intros [= <-]; by subst|done].
Qed.

Definition empty_cluster : cluster := mkCluster 0 ∅ None.
Definition cluster1 : cluster := fst (crdCreate_ (H0 := two_json) cleanup_op empty_cluster).
Definition cluster2 : cluster := fst (crdUpdate_ (H0 := two_json) (controller "a") done_op cluster1).

Definition fresh_op : DeferredOperation :=
  mkOp "" OpDeviceCleanup "vol1" "000120000548" "" "" "" 0 0 "" "" "" "" "" 0 0 "" "" "" "" "" "" "".
(** cleanup_op is fresh_op admitted at time 5. *)
Definition journal_a : VolumeJournal cluster :=
  NewCRDVolumeJournalForOwner (crd_ops (H0 := two_json) (controller "a") (λ k, k) 3).

Definition deferral : option (VolumeJournal cluster) * cluster * result defer_error string :=
  deferOperation "csi-powermax" "uid-1" "t1" 5 fresh_op (Some journal_a) empty_cluster.

Lemma triple_eq {A B C} (x : A * B * C) b c : snd (fst x) = b → snd x = c → x = (fst (fst x), b, c).
Proof. destruct x as [[??]?]. simpl. by intros -> ->. Qed.

Lemma deferred_is_persisted_witness :
  ∃ l e, crdList_ (H0 := two_json) (controller "a") "" cluster1 = Ok l ∧ e ∈ l ∧ same_key fresh_op e = true ∧ IdempotencyToken e = "t1".
Proof.
  destruct (@deferred_is_persisted cluster _ _ two_json two_json_laws (controller "a") (λ k, k) 3 "csi-powermax" "uid-1"
    "t1" 5 fresh_op journal_a (fst (fst deferral)) empty_cluster cluster1 "t1" (snd <$> map_to_list (cl_resources cluster1)))
    as (l & e & Hl & He & Hk & Ht).
  - reflexivity.
  - vm_compute. reflexivity.
  - apply triple_eq; vm_compute; reflexivity.
  - vm_compute. reflexivity.
  - exists l, e. split_and!; [exact Hl|exact He|exact Hk|]. destruct Ht as [Ht|(Hempty & _)]; [exact Ht|].
    exfalso. assert (Forall (λ e, IdempotencyToken e ≠ "") l) as Hall.
    { vm_compute in Hl. injection Hl as <-. repeat constructor; discriminate. }
    rewrite Forall_forall in Hall. exact (Hall e He Hempty).
Defined.

Lemma crd_settle_listed_witness :
  ∃ rest, [cleanup_op] ≡ₚ cleanup_op :: rest
    ∧ ∃ after, crdList_ (H0 := two_json) (controller "a") "" cluster2 = Ok after ∧ after ≡ₚ rest.
Proof.
  edestruct (@crd_settle_listed cluster _ _ two_json two_json_laws (controller "a") done_op cluster1 cluster2 "")
    as (rest & Hb & Hu & _); [vm_compute; reflexivity| |vm_compute; reflexivity|vm_compute; reflexivity|vm_compute; reflexivity|].
  - apply (bool_decide_unpack _). vm_compute. exact I.
  - exists rest. split; [exact Hb|]. apply Hu. vm_compute. reflexivity.
Defined.

Lemma lease_release_frees_other_witness :
  ∃ k4, clock k4 < 31 * Second + volumeJournalLeaseDuration ∧ cl_lease k4 = Some (mkLease "c" 30 (Some (32 * Second))).
Proof.
  destruct (lease_release_frees_other empty_cluster eq_refl eq_refl) as (k1 & k2 & k3 & k4 & H1 & H2 & _ & H3 & H4 & H5).
  exists k4. split; [exact H5|].
  vm_compute in H1. injection H1 as <-. vm_compute in H2. injection H2 as <-.
  vm_compute in H3. injection H3 as <-. vm_compute in H4. injection H4 as <-. reflexivity.
Defined.
End Crd.
