(* ===== verification/Reconcile.v ===== *)
(** * Reconciliation of deferred Metro operations

    Models pkg/symmetrix/reconciliation.go: the tracker of site connectivity and
    the replay of the journal when a site comes back. The callback, the context
    and the timer are parameters over a world [W]; [sort.Slice] is a parameter
    with its documented contract (a permutation, ordered by the key; it is not
    stable). *)

From S2P Require Import Prelude Journal.
From stdpp Require Import base gmap strings list sorting.
From Stdlib Require Import ZArith Lia.

Open Scope Z_scope.
Import Journal.

Module Reconcile.

(** ** Site states *)

Inductive MetroSiteState := SiteUnknown | SiteReachable | SiteUnreachable.
#[export] Instance MetroSiteState_eq_dec : EqDecision MetroSiteState.
Proof. solve_decision. Defined.

Definition MetroSiteState_String (s : MetroSiteState) : string :=
  match s with
  | SiteReachable => "Reachable"
  | SiteUnreachable => "Unreachable"
  | SiteUnknown => "Unknown"
  end.

(** The map of the tracker; a missing array reads as the zero value. *)
Definition SiteStateTracker := gmap string MetroSiteState.
Definition NewSiteStateTracker : SiteStateTracker := ∅.

Definition GetState (arrayID : string) (t : SiteStateTracker) : MetroSiteState :=
  default SiteUnknown ((t : gmap string MetroSiteState) !! arrayID).

Definition UpdateState (arrayID : string) (newState : MetroSiteState) (t : SiteStateTracker)
    : SiteStateTracker * bool :=
  let prev := GetState arrayID t in
  (<[arrayID := newState]> (t : gmap string MetroSiteState),
   bool_decide (prev = SiteUnreachable) && bool_decide (newState = SiteReachable)).

(** ** Backoff *)

Definition MaxReconciliationRetries : Z := 10.

(** [int64(1) << uint(n)]: the count is converted to an unsigned integer, and a
    shift by 64 or more gives 0. *)
Definition shl1 (n : Z) : Z :=
  let u := n mod 2 ^ 64 in if 64 <=? u then 0 else wrap64 (2 ^ u).

Definition backoffDuration (base retryCount : Z) : Z :=
  let d := wrap64 (base * shl1 retryCount) in
  if 5 * Minute <? d then 5 * Minute else d.

Definition backoffDurationFromBase (retryCount : Z) : Z :=
  backoffDuration ReconciliationBackoffBase retryCount.

(** ** Replay *)

(** An error of the callback: its text, and whether [errors.Is] finds
    [ErrUnsafeRDFState] in its chain. *)
Record callback_error := mkCallbackError { err_text : string; err_unsafe : bool }.
Definition IsUnsafeRDFState (e : callback_error) : bool := err_unsafe e.

Inductive replay_error :=
| ReplayList (cause : string)
| ReplayContext
| ReplayMaxRetries
| ReplayCallback (e : callback_error)
| ReplayRemove (e : journal_error).

Record ReconciliationResult := mkResult {
  Token : string;
  Success : bool;
  ResError : option replay_error;
  UnsafeState : bool;
  MaxRetries : bool
}.

Section replay.
Context {K W : Type}.
Context (sortSlice : list DeferredOperation → list DeferredOperation).
Context (ctxDone : W → bool).
(** [select] on [time.After(d)] and [ctx.Done()]: [true] when the timer fires. *)
Context (timeAfter : Z → W → W * bool).
Context (reconcileFunc : DeferredOperation → W → W * option callback_error).

Record rstate := mkState { st_journal : VolumeJournal K; st_cluster : K; st_world : W }.

(** One operation of a round: the new state, its result, the operation when it
    stays in [nextPending], and whether [retryNeeded] is set. *)
Definition replay_one (op : DeferredOperation) (s : rstate)
    : rstate * ReconciliationResult * option DeferredOperation * bool :=
  let '(mkState j k w) := s in
  let token := IdempotencyToken op in
  if MaxReconciliationRetries <=? RetryCount op then
    let '(j', k', _) := UpdateDeferredOperationStatus token OpStatusTerminal j k in
    (mkState j' k' w, mkResult token false (Some ReplayMaxRetries) false true, None, false)
  else
    let '(w1, fired) :=
      if 0 <? RetryCount op
      then timeAfter (backoffDuration (GetReconciliationBackoff j) (RetryCount op)) w
      else (w, true) in
    if negb fired then
      (mkState j k w1, mkResult token false (Some ReplayContext) false false, Some op, false)
    else
      match reconcileFunc op w1 with
      | (w2, Some err) =>
          if IsUnsafeRDFState err then
            let '(j', k', _) := UpdateDeferredOperationStatus token OpStatusTerminal j k in
            (mkState j' k' w2, mkResult token false (Some (ReplayCallback err)) true false, None, false)
          else
            let '(j', k', _) := UpdateDeferredOperation token (RetryCount op + 1) (err_text err) j k in
            (mkState j' k' w2, mkResult token false (Some (ReplayCallback err)) false false,
             Some (set_retry (RetryCount op + 1) (err_text err) op), true)
      | (w2, None) =>
          match RemoveDeferredOperation token j k with
          | (j', k', Some e) =>
              (mkState j' k' w2, mkResult token false (Some (ReplayRemove e)) false false, Some op, false)
          | (j', k', None) =>
              (mkState j' k' w2, mkResult token true None false false, None, false)
          end
      end.

(** One pass over [pendingOps]: the state, the results, [nextPending] and
    [retryNeeded]. *)
Fixpoint replay_round (ops : list DeferredOperation) (s : rstate)
    : rstate * list ReconciliationResult * list DeferredOperation * bool :=
  match ops with
  | [] => (s, [], [], false)
  | op :: ops =>
      let '(s1, r, keep, retry) := replay_one op s in
      let '(s2, rs, next, retry') := replay_round ops s1 in
      (s2, r :: rs, from_option (λ o, [o]) [] keep ++ next, retry || retry')
  end.

(** The retry loop. [None]: out of fuel. *)
Fixpoint replay_loop (fuel : nat) (pendingOps : list DeferredOperation) (s : rstate)
    : option (rstate * list ReconciliationResult) :=
  match pendingOps with
  | [] => Some (s, [])
  | _ =>
      if ctxDone (st_world s) then
        Some (s, (λ op, mkResult (IdempotencyToken op) false (Some ReplayContext) false false) <$> pendingOps)
      else
        match fuel with
        | O => None
        | S fuel =>
            let '(s1, rs, next, retryNeeded) := replay_round pendingOps s in
            if retryNeeded then
              '(s2, rs') ← replay_loop fuel next s1; Some (s2, rs ++ rs')
            else Some (s1, rs)
        end
  end.

(** The retries still allowed, in total: a round with [retryNeeded] uses one. *)
Definition retries_left (op : DeferredOperation) : nat := Z.to_nat (MaxReconciliationRetries - RetryCount op).
Definition replay_fuel (ops : list DeferredOperation) : nat := S (sum_list_with retries_left ops).

Definition ReconcileDeferredOperations (arrayID : string) (s : rstate)
    : option (rstate * list ReconciliationResult) :=
  match getDeferredOperations arrayID (st_journal s) (st_cluster s) with
  | Err e => Some (s, [mkResult "" false (Some (ReplayList e)) false false])
  | Ok [] => Some (s, [])
  | Ok ops => replay_loop (replay_fuel (sortSlice ops)) (sortSlice ops) s
  end.

End replay.
Arguments rstate : clear implicits.
Arguments mkState {K W}.
Arguments st_journal {K W}.
Arguments st_cluster {K W}.
Arguments st_world {K W}.

(** ** Site tracker *)

(** The last state recorded for an array in a history of updates (oldest first). *)
Definition last_state (h : list (string * MetroSiteState)) (a : string) : MetroSiteState :=
  from_option snd SiteUnknown (last (filter (λ u, u.1 = a) h)).

(** The tracker after a history, and the answers of [UpdateState]. *)
Fixpoint run_updates (h : list (string * MetroSiteState)) (t : SiteStateTracker)
    : SiteStateTracker * list bool :=
  match h with
  | [] => (t, [])
  | (a, st) :: h => let '(t1, b) := UpdateState a st t in
                    let '(t2, bs) := run_updates h t1 in (t2, b :: bs)
  end.

Lemma GetState_update a b st t :
  GetState a (UpdateState b st t).1 = if decide (a = b) then st else GetState a t.
Proof.
  unfold GetState, UpdateState. simpl. case_decide; subst.
  - by rewrite lookup_insert_eq.
  - by rewrite lookup_insert_ne.
Qed.

Lemma run_updates_app h1 h2 t :
  run_updates (h1 ++ h2) t =
  let '(t1, bs1) := run_updates h1 t in let '(t2, bs2) := run_updates h2 t1 in (t2, bs1 ++ bs2).
Proof.
  revert t. induction h1 as [|[a st] h1 IH]; intros t; simpl.
  - by destruct (run_updates h2 t).
  - rewrite IH. destruct (run_updates h1 _) as [t1 bs1]. by destruct (run_updates h2 t1).
Qed.

(** The tracker remembers exactly the last update of each array. *)
Lemma run_updates_state h a : GetState a (run_updates h NewSiteStateTracker).1 = last_state h a.
Proof.
  induction h as [|[b st] h IH] using rev_ind; [done|].
  rewrite run_updates_app. destruct (run_updates h _) as [t bs].
  transitivity (GetState a (UpdateState b st t).1); [reflexivity|]. simpl in IH.
  rewrite GetState_update, IH. unfold last_state in *. rewrite filter_app, filter_cons, filter_nil.
  simpl. destruct (decide (a = b)) as [->|Hne].
  - rewrite decide_True by done. by rewrite last_snoc.
  - rewrite decide_False by congruence. by rewrite app_nil_r.
Qed.

(** After any history of connectivity updates, the next update of an array
    reports a reconnection exactly when the last state recorded for that array
    was Unreachable and the new one is Reachable; updates of other arrays never
    interfere. *)
Theorem update_state_reports_reconnection h a st :
  let t := (run_updates h NewSiteStateTracker).1 in
  (UpdateState a st t).2 = true ↔ last_state h a = SiteUnreachable ∧ st = SiteReachable.
Proof. simpl. rewrite andb_true_iff, !bool_decide_eq_true. by rewrite run_updates_state. Qed.

(** ** Backoff *)

(** For the retry counts that the replay uses and a base that leaves room for
    them, the backoff is exactly base * 2^retryCount capped at five minutes: the
    64-bit arithmetic does not overflow, and the wait is always positive. *)
Theorem backoff_exact base n :
  0 < base <= 2 ^ 53 → 0 <= n < MaxReconciliationRetries →
  backoffDuration base n = Z.min (base * 2 ^ n) (5 * Minute) ∧ 0 < backoffDuration base n.
Proof.
  unfold MaxReconciliationRetries. intros Hb Hn. unfold backoffDuration, shl1.
  rewrite (Z.mod_small n) by lia. rewrite (proj2 (Z.leb_gt 64 n)) by lia.
  assert (1 <= 2 ^ n <= 2 ^ 9).
  { split; [change 1 with (2 ^ 0)|]; apply Z.pow_le_mono_r; lia. }
  assert (base * 2 ^ n <= 2 ^ 53 * 2 ^ 9) by nia.
  rewrite (wrap64_id (2 ^ n)) by (unfold in64; lia).
  rewrite wrap64_id by (unfold in64; nia).
  destruct (5 * Minute <? base * 2 ^ n) eqn:E; bool_to_prop; unfold Minute, Second in *; nia.
Qed.

(** ** Replay *)

Section replay_facts.
Context {K W : Type}.
Context (sortSlice : list DeferredOperation → list DeferredOperation).
Context (ctxDone : W → bool).
Context (timeAfter : Z → W → W * bool).
Context (reconcileFunc : DeferredOperation → W → W * option callback_error).
Implicit Types (s : rstate K W) (op : DeferredOperation) (j : VolumeJournal K) (k : K).

Local Abbreviation one := (replay_one timeAfter reconcileFunc).
Local Abbreviation round := (replay_round timeAfter reconcileFunc).
Local Abbreviation loop := (replay_loop ctxDone timeAfter reconcileFunc).
Local Abbreviation kept keep := (from_option (λ o, [o]) [] keep).

Lemma replay_one_measure op s s' r keep retry :
  one op s = (s', r, keep, retry) →
  (sum_list_with retries_left (kept keep) + (if retry then 1 else 0) ≤ retries_left op)%nat.
Proof.
  unfold replay_one. destruct s as [j k w].
  destruct (_ <=? _) eqn:Hmax; intros E; bool_to_prop; [case_all; lia|].
  assert (retries_left op ≥ 1)%nat by (unfold retries_left; lia).
  case_all; unfold retries_left in *; simpl; lia.
Qed.

Lemma replay_one_token op s s' r keep retry :
  one op s = (s', r, keep, retry) →
  Token r = IdempotencyToken op ∧ ∀ o, keep = Some o → IdempotencyToken o = IdempotencyToken op.
Proof. unfold replay_one. destruct s as [j k w]. intros E. split; case_all; naive_solver. Qed.

Lemma replay_round_measure ops s s' rs next retry :
  round ops s = (s', rs, next, retry) →
  (sum_list_with retries_left next + (if retry then 1 else 0) ≤ sum_list_with retries_left ops)%nat.
Proof.
  revert s s' rs next retry. induction ops as [|op ops IH]; intros s s' rs next retry; simpl.
  { intros E. simplify_eq/=. lia. }
  destruct (one op s) as [[[s1 r] keep] b] eqn:E1.
  destruct (round ops s1) as [[[s2 rs'] next'] b'] eqn:E2. intros E. simplify_eq/=.
  apply replay_one_measure in E1. apply IH in E2. rewrite sum_list_with_app.
  destruct b, b'; simpl; lia.
Qed.

Lemma replay_round_tokens ops s s' rs next retry :
  round ops s = (s', rs, next, retry) → Token <$> rs = tokens ops.
Proof.
  revert s s' rs next retry. induction ops as [|op ops IH]; intros s s' rs next retry; simpl.
  { intros E. by simplify_eq/=. }
  destruct (one op s) as [[[s1 r] keep] b] eqn:E1.
  destruct (round ops s1) as [[[s2 rs'] next'] b'] eqn:E2. intros E. simplify_eq/=.
  apply replay_one_token in E1 as [-> _]. f_equal. by eapply IH.
Qed.

Lemma replay_loop_total fuel ops s :
  (sum_list_with retries_left ops < fuel)%nat → is_Some (loop fuel ops s).
Proof.
  revert ops s. induction fuel as [|fuel IH]; intros ops s Hf; [lia|]. simpl.
  destruct ops as [|op ops]; [by eexists|]. destruct (ctxDone _); [by eexists|].
  destruct (round (op :: ops) s) as [[[s1 rs] next] retry] eqn:E.
  destruct retry; [|by eexists].
  apply replay_round_measure in E. destruct (IH next s1) as [[s2 rs'] ->]; [lia|]. by eexists.
Qed.

Lemma reconcile_returns arrayID s :
  is_Some (ReconcileDeferredOperations sortSlice ctxDone timeAfter reconcileFunc arrayID s).
Proof.
  unfold ReconcileDeferredOperations. destruct (getDeferredOperations _ _ _) as [[|op ops]|e];
    [by eexists| |by eexists].
  apply replay_loop_total. unfold replay_fuel. lia.
Qed.

Lemma replay_round_length ops s s' rs next retry :
  round ops s = (s', rs, next, retry) → length rs = length ops ∧ (length next ≤ length ops)%nat.
Proof.
  revert s s' rs next retry. induction ops as [|op ops IH]; intros s s' rs next retry; simpl.
  { intros E. by simplify_eq/=. }
  destruct (one op s) as [[[s1 r] keep] b] eqn:E1.
  destruct (round ops s1) as [[[s2 rs'] next'] b'] eqn:E2. intros E. simplify_eq/=.
  apply IH in E2 as [-> ?]. rewrite length_app. destruct keep; simpl; lia.
Qed.

Lemma replay_loop_length fuel ops s s' rs :
  loop fuel ops s = Some (s', rs) → (length rs ≤ length ops * S fuel)%nat.
Proof.
  revert ops s s' rs. induction fuel as [|fuel IH]; intros ops s s' rs E;
    (destruct ops as [|op ops]; [simpl in E; simplify_eq/=; lia|]);
    cbn [replay_loop] in E; (destruct (ctxDone _); [injection E as <- <-; simpl; rewrite length_map; lia|]);
    [done|].
  destruct (round (op :: ops) s) as [[[s1 rs1] next] retry] eqn:Er.
  apply replay_round_length in Er as [Hl Hn].
  destruct retry; [|simplify_eq; rewrite Hl; lia].
  destruct (loop fuel next s1) as [[s2 rs2]|] eqn:El; simplify_eq/=.
  apply IH in El. rewrite length_app, Hl. simpl in *. nia.
Qed.

(** The retry loop always ends: for every array, journal, callback, timer and
    context, reconciliation returns, after a number of replays bounded by the
    listed operations and the retries that remain to them. *)
Theorem reconcile_terminates arrayID s :
  ∃ s' rs,
    ReconcileDeferredOperations sortSlice ctxDone timeAfter reconcileFunc arrayID s = Some (s', rs) ∧
    ∀ ops, getDeferredOperations arrayID (st_journal s) (st_cluster s) = Ok ops →
      (length rs ≤ length (sortSlice ops) * S (replay_fuel (sortSlice ops)))%nat.
Proof.
  destruct (reconcile_returns arrayID s) as [[s' rs] E]. exists s', rs. split; [done|].
  unfold ReconcileDeferredOperations in E. intros ops Hops. rewrite Hops in E.
  destruct ops as [|op ops]; [simplify_eq/=; lia|]. by apply replay_loop_length in E.
Qed.

(** [sort.Slice]: a permutation, ordered by submission time. *)
Context (sort_perm : ∀ l, sortSlice l ≡ₚ l).
Context (sort_sorted : ∀ l, Sorted (λ a b, SubmissionTime a <= SubmissionTime b) (sortSlice l)).

Lemma replay_loop_tokens fuel ops s s' rs :
  loop fuel ops s = Some (s', rs) → take (length ops) (Token <$> rs) = tokens ops.
Proof.
  assert (∀ rs' : list ReconciliationResult, Token <$> rs' = tokens ops → length ops = length (Token <$> rs')) as Hl.
  { intros rs' ->. unfold tokens. by rewrite length_fmap. }
  assert (∀ rs' : list ReconciliationResult, Token <$> rs' = tokens ops →
    take (length ops) (Token <$> rs') = tokens ops) as Ht.
  { intros rs' H. rewrite (Hl rs' H), take_ge by lia. done. }
  destruct ops as [|op ops]; [done|].
  assert (ctxDone (st_world s) = true →
    loop fuel (op :: ops) s = Some (s', rs) → Token <$> rs = tokens (op :: ops)) as Hctx.
  { intros Hd. destruct fuel; cbn [replay_loop]; rewrite Hd; intros E; injection E as <- <-;
      unfold tokens; rewrite !fmap_cons; f_equal; by rewrite <- (list_fmap_compose _ Token ops). }
  destruct (ctxDone (st_world s)) eqn:Hd; [by intros; apply Ht, Hctx|clear Hctx].
  destruct fuel as [|fuel]; simpl; rewrite Hd; [done|].
  destruct (replay_one _ _ op s) as [[[s1 r] keep] b] eqn:E1.
  destruct (round ops s1) as [[[s2 rs'] next'] b'] eqn:E2.
  assert (Token <$> (r :: rs') = tokens (op :: ops)) as Hr.
  { rewrite <- (replay_round_tokens (op :: ops) s s2 (r :: rs') (kept keep ++ next') (b || b')); [done|].
    simpl. by rewrite E1, E2. }
  change (S (length ops)) with (length (op :: ops)).
  destruct (b || b').
  - destruct (loop fuel _ s2) as [[s3 rs3]|]; intros [= <- <-].
    rewrite app_comm_cons, fmap_app, (Hl _ Hr), take_app_length. done.
  - intros [= <- <-]. by apply Ht.
Qed.

(** Reconciliation reports, first, one result for every pending operation of
    the array, in the order of their submission times. *)
Theorem reconcile_in_submission_order arrayID s ops s' rs :
  getDeferredOperations arrayID (st_journal s) (st_cluster s) = Ok ops →
  ReconcileDeferredOperations sortSlice ctxDone timeAfter reconcileFunc arrayID s = Some (s', rs) →
  ∃ ops', ops' ≡ₚ ops ∧ Sorted (λ a b, SubmissionTime a <= SubmissionTime b) ops' ∧
    take (length ops) (Token <$> rs) = tokens ops'.
Proof.
  intros Hops E. exists (sortSlice ops). split; [done|]. split; [done|].
  rewrite <- (Permutation_length (sort_perm ops)).
  unfold ReconcileDeferredOperations in E. rewrite Hops in E. destruct ops as [|op ops].
  - assert (sortSlice [] = []) as -> by apply Permutation_nil_r, sort_perm. done.
  - by eapply replay_loop_tokens.
Qed.

(** *** What a run without interruption leaves in the journal *)

(** The token belongs to a pending operation of the array. *)
Definition live (a : string) (j : VolumeJournal K) (t : string) : Prop :=
  ∃ e, abs_ops (operations j) !! t = Some e ∧ pending e ∧ ArrayID e = a.

(** A journal without a backend, in a state of its invariant. *)
Definition mem_ok s : Prop := crd (st_journal s) = None ∧ journal_inv (st_journal s, st_cluster s).

(** One call that rewrites the entry of [t] leaves the journal in its invariant
    and the other entries alone. *)
Definition touches_only (t : string) j k j' k' : Prop :=
  crd j' = None ∧ journal_inv (j', k') ∧
  ∀ t', t' ≠ t → abs_ops (operations j') !! t' = abs_ops (operations j) !! t'.

Lemma update_entry_mem f t j k j' k' r e :
  crd j = None → journal_inv (j, k) →
  (∀ op, IdempotencyToken (f op) = IdempotencyToken op) → (∀ op, op_key (f op) = op_key op) →
  (∀ op, pending (f op) → pending op) →
  update_entry f t j k = (j', k', r) → abs_ops (operations j) !! t = Some e →
  touches_only t j k j' k' ∧ abs_ops (operations j') !! t = Some (f e).
Proof.
  intros Hc Hinv H1 H2 H3 E He. unfold touches_only.
  assert (crd j' = None) by (unfold update_entry in E; rewrite Hc in E; by case_all).
  assert (journal_inv (j', k')) by by eapply update_entry_inv.
  destruct Hinv as [[Hnd _] _].
  apply update_entry_spec in E as [(Hn & _)|(e' & He' & -> & _)]; [congruence| |done..].
  simplify_eq. rewrite lookup_insert_eq.
  split; [|done]. do 2 (split; [done|]). intros. by rewrite lookup_insert_ne.
Qed.

Lemma settle_mem a t j k j' k' r e :
  crd j = None → journal_inv (j, k) → abs_ops (operations j) !! t = Some e →
  UpdateDeferredOperationStatus t OpStatusTerminal j k = (j', k', r) →
  touches_only t j k j' k' ∧ ¬ live a j' t.
Proof.
  intros Hc Hinv He E. eapply update_entry_mem in E as [? Hl]; try done.
  split; [done|]. intros (e' & He' & Hp' & _). by simplify_eq.
Qed.

Lemma retry_mem a t n txt j k j' k' r :
  crd j = None → journal_inv (j, k) → live a j t →
  UpdateDeferredOperation t n txt j k = (j', k', r) →
  touches_only t j k j' k' ∧ live a j' t.
Proof.
  intros Hc Hinv (e & He & Hp & Ha) E.
  eapply update_entry_mem in E as [? Hl];
    [|done|done|apply token_retry|apply op_key_retry|apply pending_retry|done].
  split; [done|]. exists (retry_entry n txt e). rewrite pending_retry. split; [done|]. split; [done|].
  unfold retry_entry. by case_match.
Qed.

Lemma remove_mem a t j k j' k' r e :
  crd j = None → journal_inv (j, k) → abs_ops (operations j) !! t = Some e →
  RemoveDeferredOperation t j k = (j', k', r) →
  touches_only t j k j' k' ∧ ¬ live a j' t ∧ r = None.
Proof.
  intros Hc Hinv He E. unfold touches_only, live.
  assert (crd j' = None) by (unfold RemoveDeferredOperation in E; rewrite Hc in E; by case_all).
  assert (journal_inv (j', k')) by by eapply remove_inv.
  destruct Hinv as [[Hnd _] _]. eapply (remove_spec 0) in E; [|done|done].
  assert (abs_ops (operations j') = delete t (abs_ops (operations j)) ∧ r = None) as [-> ->].
  { by inversion E; simplify_eq. }
  rewrite lookup_delete_eq.
  split; [split; [done|]; split; [done|]; intros; by rewrite lookup_delete_ne|].
  split; [|done]. by intros (? & ? & _).
Qed.

Context (timer_fires : ∀ d w, (timeAfter d w).2 = true).

Lemma replay_one_live a op s s' r keep retry :
  mem_ok s → live a (st_journal s) (IdempotencyToken op) → one op s = (s', r, keep, retry) →
  touches_only (IdempotencyToken op) (st_journal s) (st_cluster s) (st_journal s') (st_cluster s') ∧
  ((keep = None ∧ ¬ live a (st_journal s') (IdempotencyToken op)) ∨
   (keep ≠ None ∧ retry = true ∧ live a (st_journal s') (IdempotencyToken op))).
Proof.
  destruct s as [j k w]. intros [Hc Hinv] Hlive. simpl in *. pose proof Hlive as (e & He & _).
  unfold replay_one. destruct (_ <=? _).
  { destruct (UpdateDeferredOperationStatus _ _ _ _) as [[j' k'] r'] eqn:E; intros; simplify_eq/=.
    eapply settle_mem in E as [??]; eauto. }
  destruct (if 0 <? RetryCount op then _ else _) as [w1 fired] eqn:Ew.
  assert (fired = true) as ->.
  { destruct (0 <? RetryCount op); [|by simplify_eq].
    by rewrite <- (timer_fires (backoffDuration (GetReconciliationBackoff j) (RetryCount op)) w), Ew. }
  simpl. destruct (reconcileFunc op w1) as [w2 [err|]]; [destruct (IsUnsafeRDFState err)|].
  - destruct (UpdateDeferredOperationStatus _ _ _ _) as [[j' k'] r'] eqn:E; intros; simplify_eq/=.
    eapply settle_mem in E as [??]; eauto.
  - destruct (UpdateDeferredOperation _ _ _ _ _) as [[j' k'] r'] eqn:E; intros; simplify_eq/=.
    eapply retry_mem in E as [??]; eauto 6.
  - destruct (RemoveDeferredOperation _ _ _) as [[j' k'] r'] eqn:E.
    eapply remove_mem in E as (?&?&->); eauto. intros; simplify_eq/=; eauto.
Qed.

Lemma live_touches_other a t t' j k j' k' :
  touches_only t j k j' k' → t' ≠ t → live a j' t' ↔ live a j t'.
Proof. intros (_ & _ & H) Hne. unfold live. by rewrite (H t' Hne). Qed.

Lemma replay_round_live a ops s s' rs next retry :
  mem_ok s → NoDup (tokens ops) → (∀ t, t ∈ tokens ops → live a (st_journal s) t) →
  round ops s = (s', rs, next, retry) →
  mem_ok s' ∧ tokens next `sublist_of` tokens ops ∧ (retry = false → next = []) ∧
  (∀ t, t ∈ tokens ops → live a (st_journal s') t ↔ t ∈ tokens next) ∧
  (∀ t, t ∉ tokens ops →
     abs_ops (operations (st_journal s')) !! t = abs_ops (operations (st_journal s)) !! t).
Proof.
  revert s s' rs next retry. induction ops as [|op ops IH]; intros s s' rs next retry Hok Hnd Hlive E.
  { simpl in E. simplify_eq. split; [done|]. split; [done|]. split; [done|].
    split; [by intros t ?%not_elem_of_nil|done]. }
  simpl in E. destruct (one op s) as [[[s1 r] keep] b] eqn:E1.
  destruct (round ops s1) as [[[s2 rs'] next'] b'] eqn:E2. simplify_eq/=.
  apply NoDup_cons in Hnd as [Hni Hnd].
  pose proof (replay_one_token _ _ _ _ _ _ E1) as [_ Hkt].
  eapply (replay_one_live a) in E1 as [Htouch Hkeep]; [|done|apply Hlive; left].
  assert (∀ t, t ∈ tokens ops → t ≠ IdempotencyToken op) as Hne by (intros t Ht ->; done).
  eapply IH in E2 as (Hok' & Hsub & Hr & Hl & Hsame);
    [|split; [apply Htouch|apply Htouch]|done|].
  2:{ intros t Ht. rewrite (live_touches_other a _ _ _ _ _ _ Htouch); [|by apply Hne].
      apply Hlive. by right. }
  assert (tokens (kept keep) = if decide (keep = None) then [] else [IdempotencyToken op]) as Hkept.
  { destruct keep as [o|]; [|done]. simpl. by rewrite (Hkt o). }
  split; [done|]. split; [|split; [|split]].
  - unfold tokens in *. rewrite fmap_app, Hkept. destruct keep; simpl; [by constructor|by apply sublist_cons].
  - intros [-> ->]%orb_false_iff. rewrite Hr by done. destruct Hkeep as [[-> _]|(_ & ? & _)]; done.
  - intros t Ht. unfold tokens in *. rewrite fmap_app, elem_of_app, Hkept.
    destruct (decide (t = IdempotencyToken op)) as [->|Hn].
    + unfold live. rewrite (Hsame _ Hni). fold (live a (st_journal s1) (IdempotencyToken op)).
      assert (IdempotencyToken op ∉ IdempotencyToken <$> next') as Hnx.
      { intros Hin. apply Hni. by eapply elem_of_sublist. }
      destruct Hkeep as [[-> Hd]|(Hk & _ & Ha)].
      * split; [by intros ?%Hd|]. intros [?%not_elem_of_nil|?]; done.
      * rewrite decide_False by done. split; [|done]. intros _. left. by apply list_elem_of_singleton.
    + apply elem_of_cons in Ht as [|Hto]; [done|]. rewrite (Hl t Hto).
      split; [by right|]. intros [Hk|]; [|done]. case_decide; [by apply not_elem_of_nil in Hk|].
      by apply list_elem_of_singleton in Hk.
  - intros t [Hn Ht]%not_elem_of_cons. rewrite (Hsame t Ht). by apply Htouch.
Qed.

Lemma replay_loop_live a fuel ops s s' rs :
  (∀ w, ctxDone w = false) →
  mem_ok s → NoDup (tokens ops) → (∀ t, t ∈ tokens ops → live a (st_journal s) t) →
  loop fuel ops s = Some (s', rs) →
  mem_ok s' ∧ (∀ t, t ∈ tokens ops → ¬ live a (st_journal s') t) ∧
  (∀ t, t ∉ tokens ops →
     abs_ops (operations (st_journal s')) !! t = abs_ops (operations (st_journal s)) !! t).
Proof.
  intros Hctx. revert ops s s' rs. induction fuel as [|fuel IH]; intros ops s s' rs Hok Hnd Hlive E.
  { destruct ops as [|op ops]; simpl in E; rewrite ?Hctx in E; simplify_eq.
    split; [done|]. split; [by intros t ?%not_elem_of_nil|done]. }
  destruct ops as [|op ops].
  { simpl in E. simplify_eq. split; [done|]. split; [by intros t ?%not_elem_of_nil|done]. }
  cbn [replay_loop] in E. rewrite Hctx in E.
  destruct (round (op :: ops) s) as [[[s1 rs1] next] retry] eqn:Er.
  eapply (replay_round_live a) in Er as (Hok' & Hsub & Hr & Hl & Hsame); [|done..].
  destruct retry.
  - destruct (loop fuel next s1) as [[s2 rs2]|] eqn:El; simplify_eq/=.
    eapply IH in El as (Hok2 & Hnl & Hsame2); [|done|by eapply sublist_NoDup| ].
    2:{ intros t Ht. apply Hl; [by eapply elem_of_sublist|done]. }
    split; [done|]. split.
    + intros t Ht. destruct (decide (t ∈ tokens next)) as [|Hn]; [by apply Hnl|].
      unfold live. rewrite (Hsame2 t Hn). fold (live a (st_journal s1) t). by rewrite (Hl t Ht).
    + intros t Ht. rewrite Hsame2; [by apply Hsame|].
      intros Hin. apply Ht. by eapply elem_of_sublist.
  - simplify_eq. split; [done|]. split; [|done]. intros t Ht. rewrite (Hl t Ht), Hr by done.
    apply not_elem_of_nil.
Qed.

(** C5: a reconciliation that the context does not interrupt drains the array:
    it returns, no pending operation of that array is left in a journal without a
    backend, and every entry of another array, or already settled, is kept as it
    was. *)
Theorem reconcile_drains arrayID s :
  (∀ w, ctxDone w = false) → mem_ok s →
  ∃ s' rs,
    ReconcileDeferredOperations sortSlice ctxDone timeAfter reconcileFunc arrayID s = Some (s', rs) ∧
    GetDeferredOperations arrayID (st_journal s') (st_cluster s') = [] ∧
    (∀ t e, abs_ops (operations (st_journal s)) !! t = Some e → ¬ (pending e ∧ ArrayID e = arrayID) →
       abs_ops (operations (st_journal s')) !! t = Some e).
Proof.
  intros Hctx Hok. pose proof Hok as [Hc [[Hnd _] _]]. simpl in Hnd.
  destruct (reconcile_returns arrayID s) as [[s' rs] E].
  exists s', rs. split; [done|].
  unfold ReconcileDeferredOperations, getDeferredOperations in E. rewrite Hc in E.
  set (ops := filter _ (operations (st_journal s))) in E.
  assert (∀ t, t ∈ tokens ops ↔ live arrayID (st_journal s) t) as Hops.
  { intros t. unfold tokens, live. rewrite list_elem_of_fmap. split.
    - intros (e & -> & [[??] ?]%list_elem_of_filter). exists e. by rewrite abs_ops_Some.
    - intros (e & [? <-]%abs_ops_Some & ? & ?); [|done]. exists e.
      split; [done|]. by apply list_elem_of_filter. }
  assert (mem_ok s' ∧ (∀ t, t ∈ tokens ops → ¬ live arrayID (st_journal s') t) ∧
    (∀ t, t ∉ tokens ops → abs_ops (operations (st_journal s')) !! t =
                           abs_ops (operations (st_journal s)) !! t)) as (Hok' & Hnl & Hsame).
  { assert (∀ t, t ∈ tokens (sortSlice ops) ↔ t ∈ tokens ops) as Hs.
    { intros t. unfold tokens. by rewrite (sort_perm ops). }
    setoid_rewrite <- Hs. destruct ops as [|op ops'] eqn:Eo.
    - simplify_eq. split; [done|]. split; [|done]. intros t Ht%Hs. by apply not_elem_of_nil in Ht.
    - eapply replay_loop_live; [done|done| |by intros t ?%Hs%Hops|exact E].
      unfold tokens. rewrite (sort_perm (op :: ops')), <- Eo.
      eapply sublist_NoDup; [exact Hnd|]. apply fmap_sublist, sublist_filter. }
  pose proof Hok' as [Hc' [[Hnd' _] _]]. split.
  - unfold GetDeferredOperations, getDeferredOperations. rewrite Hc'.
    apply filter_nil_2. intros e He [Ha Hp].
    assert (live arrayID (st_journal s') (IdempotencyToken e)) as Hl'.
    { exists e. by rewrite abs_ops_Some. }
    destruct (decide (IdempotencyToken e ∈ tokens ops)) as [Hin|Hin]; [by apply (Hnl _ Hin)|].
    apply Hin, Hops. unfold live in *. by rewrite <- (Hsame _ Hin).
  - intros t e He Hnot. rewrite Hsame; [done|]. intros (e' & He' & Hp & Ha)%Hops.
    apply Hnot. rewrite He in He'. injection He' as ->. done.
Qed.

End replay_facts.

(** An operation that is listed from the cluster but is not in the memory
    of this controller (a peer replica deferred it after this one synchronised) is
    never settled by a replay: whatever the callback answers, neither the cluster
    nor the journal changes, so a completed operation stays pending and its
    retries are not counted. *)
Theorem replay_uncached_unrecorded {K W} timeAfter reconcileFunc op (s s' : rstate K W) r keep retry :
  IdempotencyToken op ∉ tokens (operations (st_journal s)) →
  replay_one timeAfter reconcileFunc op s = (s', r, keep, retry) →
  st_journal s' = st_journal s ∧ st_cluster s' = st_cluster s ∧ Success r = false.
Proof.
  destruct s as [j k w]. simpl. intros Hni.
  assert (list_find (λ o, IdempotencyToken o = IdempotencyToken op) (operations j) = None) as Hf.
  { apply list_find_None, Forall_forall. intros o Ho E. apply Hni. rewrite <- E.
    by apply list_elem_of_fmap_2. }
  unfold replay_one, UpdateDeferredOperationStatus, UpdateDeferredOperation, update_entry,
    RemoveDeferredOperation. rewrite Hf. intros E. case_all.
Qed.

(** ** Concrete runs *)

Definition op_le (a b : DeferredOperation) : Prop := SubmissionTime a <= SubmissionTime b.
#[export] Instance op_le_dec : RelDecision op_le.
Proof. unfold RelDecision, op_le. apply _. Defined.
#[export] Instance op_le_total : Total op_le.
Proof. intros a b. unfold op_le. lia. Qed.

(** A stable sort meets the contract of [sort.Slice]. *)
Definition sort_ops : list DeferredOperation → list DeferredOperation := merge_sort op_le.
Lemma sort_ops_perm l : sort_ops l ≡ₚ l.
Proof. apply merge_sort_Permutation. Qed.
Lemma sort_ops_sorted l : Sorted (λ a b, SubmissionTime a <= SubmissionTime b) (sort_ops l).
Proof. apply (Sorted_merge_sort op_le). Qed.

(** A callback that fails twice, then succeeds; the world counts its calls. *)
Definition flaky (op : DeferredOperation) (w : nat) : nat * option callback_error :=
  (S w, if decide (w < 2)%nat then Some (mkCallbackError "array busy" false) else None).
Definition no_wait (d : Z) (w : nat) : nat * bool := (w, true).
Definition never_done (w : nat) : bool := false.

Definition run_state : rstate unit nat := mkState journal2 tt 0%nat.
Definition peer_state : rstate unit nat := mkState journal0 tt 0%nat.

Lemma backoff_exact_witness :
  backoffDuration ReconciliationBackoffBase 3 = Z.min (40 * Second) (5 * Minute) ∧
  0 < backoffDuration ReconciliationBackoffBase 3.
Proof. apply (backoff_exact ReconciliationBackoffBase 3); vm_compute; split; congruence. Defined.

Lemma run_state_ok : mem_ok run_state.
Proof. split; [reflexivity|]. split; [exact journal2_wf|]. intros _. vm_compute. discriminate. Qed.

Lemma reconcile_in_submission_order_witness :
  ∃ s' rs ops',
    ReconcileDeferredOperations sort_ops never_done no_wait flaky "000120000002" run_state = Some (s', rs) ∧
    ops' ≡ₚ GetDeferredOperations "000120000002" journal2 tt ∧
    Sorted (λ a b, SubmissionTime a <= SubmissionTime b) ops' ∧
    take (length (GetDeferredOperations "000120000002" journal2 tt)) (Token <$> rs) = tokens ops'.
Proof.
  destruct (reconcile_returns sort_ops never_done no_wait flaky "000120000002" run_state)
    as [[s' rs] E].
  destruct (reconcile_in_submission_order sort_ops never_done no_wait flaky sort_ops_perm sort_ops_sorted
    "000120000002" run_state (GetDeferredOperations "000120000002" journal2 tt) s' rs eq_refl E)
    as (ops' & H).
  exists s', rs, ops'. exact (conj E H).
Defined.

(** Three results for the one operation: two failures and a success. *)
Example replay_run :
  option_map (λ x, map (λ r, (Token r, Success r)) x.2)
    (ReconcileDeferredOperations sort_ops never_done no_wait flaky "000120000002" run_state) =
  Some [("t1", false); ("t1", false); ("t1", true)].
Proof. vm_compute. reflexivity. Qed.

Lemma reconcile_drains_witness :
  ∃ s' rs, ReconcileDeferredOperations sort_ops never_done no_wait flaky "000120000002" run_state = Some (s', rs) ∧
    GetDeferredOperations "000120000002" (st_journal s') (st_cluster s') = [].
Proof.
  destruct (reconcile_drains sort_ops never_done no_wait flaky sort_ops_perm (λ d w, eq_refl)
    "000120000002" run_state (λ w, eq_refl) run_state_ok) as (s' & rs & H1 & H2 & _).
  exists s', rs. exact (conj H1 H2).
Defined.

Lemma replay_uncached_unrecorded_witness :
  st_journal (replay_one no_wait flaky (sample_op "v9" "000120000002") peer_state).1.1.1 = journal0.
Proof.
  refine (proj1 (replay_uncached_unrecorded no_wait flaky (sample_op "v9" "000120000002")
    peer_state _ _ _ _ _ eq_refl)).
  apply (bool_decide_unpack _). vm_compute. reflexivity.
Defined.

End Reconcile.
