(* ===== verification/Locks.v ===== *)
(** * The lock manager of the driver

    Models service/locks.go. Clients send lock and unlock requests on one
    channel; a single goroutine serves them in order and keeps, per resource, the
    number of the current holder and a channel of waiting requests. A client is
    granted the lock when the handler sends on its wait channel; a wait channel is
    identified here with the lock number of the request that owns it. *)

From S2P Require Import Prelude.
From stdpp Require Import base gmap strings list.
From Stdlib Require Import ZArith Lia.

Open Scope Z_scope.

Module Locks.

Record LockRequest := mkRequest {
  ResourceID : string;
  LockNumber : Z;
  Unlock : bool
}.

(** [LockRequests] is a channel of capacity 100. *)
Record LockInfo := mkLockInfo {
  LockRequests : list Z;
  CurrentLockNumber : Z;
  Count : Z
}.

Definition lockRequestsCapacity : nat := 100.
Definition lockRequestsQueueCapacity : nat := 1000.

(** What the handler does with one request: the new map and the lock number it
    sends on, if any. [Blocked]: the send on the full [LockRequests] channel
    blocks the goroutine, which is also the only receiver of that channel. *)
Inductive handled :=
| Handled (locks : gmap string LockInfo) (grant : option Z)
| Blocked.

Definition handle (request : LockRequest) (fifolocks : gmap string LockInfo) : handled :=
  let r := ResourceID request in
  let n := LockNumber request in
  match fifolocks !! r with
  | None =>
      if Unlock request then Handled fifolocks None
      else Handled (<[r := mkLockInfo [] n 1]> fifolocks) (Some n)
  | Some lockInfo =>
      if CurrentLockNumber lockInfo =? n then
        if Unlock request then
          match LockRequests lockInfo with
          | next :: rest => Handled (<[r := mkLockInfo rest next 1]> fifolocks) (Some next)
          | [] => Handled (<[r := mkLockInfo [] (-1) 0]> fifolocks) None
          end
        else Handled fifolocks None
      else
        if Unlock request then Handled fifolocks None
        else if bool_decide (LockRequests lockInfo = []) && (CurrentLockNumber lockInfo =? -1) then
          Handled (<[r := mkLockInfo [] n (Count lockInfo)]> fifolocks) (Some n)
        else if decide (length (LockRequests lockInfo) < lockRequestsCapacity)%nat then
          Handled (<[r := mkLockInfo (LockRequests lockInfo ++ [n]) (CurrentLockNumber lockInfo)
                            (Count lockInfo)]> fifolocks) None
        else Blocked
  end.

(** One tick of the cleanup worker: the entries visited before its 20 ms are
    over lose their stale entries. *)
Definition CleanupMapEntries (visited : list string) (fifolocks : gmap string LockInfo)
    : gmap string LockInfo :=
  foldr (λ r m, match m !! r with
                | Some li => if CurrentLockNumber li =? -1 then delete r m else m
                | None => m
                end) fifolocks visited.

(** ** The system of clients, channel and handler *)

(** [requested] and [granted] are histories (oldest first); [holders] are the
    clients that were granted a lock and have not yet called [ReleaseLock]. *)
Record system := mkSystem {
  queue : list LockRequest;
  locks : gmap string LockInfo;
  holders : list (string * Z);
  requested : list (string * Z);
  granted : list (string * Z)
}.

Definition init : system := mkSystem [] ∅ [] [] [].

Inductive step : system → system → Prop :=
(** [RequestLock]: a random number in [0, MaxInt), not used before, is sent. *)
| step_request r n s :
    0 <= n → (r, n) ∉ requested s → (length (queue s) < lockRequestsQueueCapacity)%nat →
    step s (mkSystem (queue s ++ [mkRequest r n false]) (locks s) (holders s)
                     (requested s ++ [(r, n)]) (granted s))
(** [ReleaseLock] by a holder. *)
| step_release r n hs1 hs2 s :
    holders s = hs1 ++ (r, n) :: hs2 → (length (queue s) < lockRequestsQueueCapacity)%nat →
    step s (mkSystem (queue s ++ [mkRequest r n true]) (locks s) (hs1 ++ hs2)
                     (requested s) (granted s))
(** One iteration of [LockRequestHandler]. *)
| step_handle q qs locks' grant s :
    queue s = q :: qs → handle q (locks s) = Handled locks' grant →
    step s (mkSystem qs locks'
              (holders s ++ (pair (ResourceID q) <$> option_list grant)) (requested s)
              (granted s ++ (pair (ResourceID q) <$> option_list grant)))
| step_cleanup visited s :
    step s (mkSystem (queue s) (CleanupMapEntries visited (locks s)) (holders s)
                     (requested s) (granted s)).

(** ** The view of one resource *)

Section resource.
Context (r : string).

(** The numbers of the requests of [r] in a history. *)
Fixpoint nums (l : list (string * Z)) : list Z :=
  match l with
  | [] => []
  | (r', n) :: l => if decide (r' = r) then n :: nums l else nums l
  end.

Fixpoint sent (unlock : bool) (q : list LockRequest) : list Z :=
  match q with
  | [] => []
  | x :: q => if decide (ResourceID x = r ∧ Unlock x = unlock) then LockNumber x :: sent unlock q
              else sent unlock q
  end.

Definition current (m : gmap string LockInfo) : Z := from_option CurrentLockNumber (-1) (m !! r).
Definition waiting (m : gmap string LockInfo) : list Z := from_option LockRequests [] (m !! r).

Lemma nums_app l1 l2 : nums (l1 ++ l2) = nums l1 ++ nums l2.
Proof. induction l1 as [|[r' n] l1 IH]; simpl; [done|]. case_decide; by rewrite IH. Qed.

Lemma sent_app u q1 q2 : sent u (q1 ++ q2) = sent u q1 ++ sent u q2.
Proof. induction q1 as [|x q1 IH]; simpl; [done|]. case_decide; by rewrite IH. Qed.

Lemma nums_elem n l : n ∈ nums l ↔ (r, n) ∈ l.
Proof.
  induction l as [|[r' n'] l IH]; simpl; [by rewrite !elem_of_nil|].
  case_decide; rewrite !elem_of_cons, ?IH; naive_solver.
Qed.

(** The part of the invariant that only depends on the numbers in flight. *)
Definition flight_ok (fl : list Z) (req : list (string * Z)) : Prop :=
  NoDup fl ∧ ∀ n, n ∈ fl → 0 <= n ∧ (r, n) ∈ req.

Lemma flight_ok_perm fl fl' req : fl ≡ₚ fl' → flight_ok fl req → flight_ok fl' req.
Proof. intros Hp [Hn Hf]. unfold flight_ok. by setoid_rewrite <- Hp. Qed.

Lemma flight_ok_cons n fl req : flight_ok (n :: fl) req → flight_ok fl req.
Proof. intros [[_ ?]%NoDup_cons Hf]. split; [done|]. intros m Hm. apply Hf. by right. Qed.

(** The invariant of a resource, over its view. *)
Record view_inv (cur : Z) (wait hold asks rels : list Z) (req gr : list (string * Z)) : Prop := {
  vinv_flight : flight_ok (asks ++ wait ++ hold ++ rels) req;
  vinv_free : cur = -1 → wait = [] ∧ hold ++ rels = [];
  vinv_held : cur ≠ -1 → hold ++ rels = [cur];
  vinv_fifo : nums req = nums gr ++ wait ++ asks
}.

Definition resource_inv (s : system) : Prop :=
  view_inv (current (locks s)) (waiting (locks s)) (nums (holders s))
    (sent false (queue s)) (sent true (queue s)) (requested s) (granted s).

Lemma view_request cur wait hold asks rels req gr n :
  0 <= n → (r, n) ∉ req → view_inv cur wait hold asks rels req gr →
  view_inv cur wait hold (asks ++ [n]) rels (req ++ [(r, n)]) gr.
Proof.
  intros Hn Hf [[Hnd Hall] Hfree Hheld Hfifo]. split; [|done|done|].
  - apply (flight_ok_perm (n :: asks ++ wait ++ hold ++ rels)); [solve_Permutation|]. split.
    + apply NoDup_cons. split; [|done]. intros [_ Hin]%Hall. done.
    + intros m [->|Hm]%elem_of_cons; [split; [done|]; apply elem_of_app; right; by left|].
      destruct (Hall m Hm). split; [done|]. apply elem_of_app. by left.
  - rewrite nums_app, Hfifo. simpl. rewrite decide_True by done. by rewrite <- !app_assoc.
Qed.

Lemma view_release cur wait hold1 hold2 asks rels req gr n :
  view_inv cur wait (hold1 ++ n :: hold2) asks rels req gr →
  view_inv cur wait (hold1 ++ hold2) asks (rels ++ [n]) req gr.
Proof.
  intros [Hfl Hfree Hheld Hfifo]. split; [| | |done].
  - eapply flight_ok_perm; [|exact Hfl]. solve_Permutation.
  - intros Hc. destruct (Hfree Hc) as [_ Hnil]. by destruct hold1.
  - intros Hc. specialize (Hheld Hc). destruct hold1 as [|h hold1]; simplify_eq/=.
    + apply app_eq_nil in H0 as [-> ->]. done.
    + by destruct hold1.
Qed.

Lemma view_grant wait hold asks rels req gr n :
  view_inv (-1) wait hold (n :: asks) rels req gr →
  view_inv n wait (hold ++ [n]) asks rels req (gr ++ [(r, n)]) ∧ wait = [] ∧ 0 <= n.
Proof.
  intros [Hfl Hfree _ Hfifo]. destruct (Hfree eq_refl) as [-> Hnil].
  apply app_eq_nil in Hnil as [-> ->]. simpl in *.
  assert (0 <= n) as Hn by (apply (proj2 Hfl n); by left).
  split; [|done]. split; [|lia|done|].
  - eapply flight_ok_perm; [|exact Hfl]. simpl. solve_Permutation.
  - rewrite Hfifo, nums_app. simpl. rewrite decide_True by done. by rewrite <- app_assoc.
Qed.

Lemma view_wait cur wait hold asks rels req gr n :
  cur ≠ -1 → view_inv cur wait hold (n :: asks) rels req gr →
  view_inv cur (wait ++ [n]) hold asks rels req gr ∧ cur ≠ n.
Proof.
  intros Hc [Hfl _ Hheld Hfifo]. specialize (Hheld Hc). split.
  - split; [|done|done|].
    + eapply flight_ok_perm; [|exact Hfl]. simpl. solve_Permutation.
    + rewrite Hfifo. by rewrite <- !app_assoc.
  - intros ->. destruct Hfl as [Hnd _]. rewrite Hheld in Hnd. simpl in Hnd.
    apply NoDup_cons in Hnd as [Hni _]. apply Hni. rewrite !elem_of_app.
    right. right. by left.
Qed.

Lemma view_unlock cur wait hold asks rels req gr n :
  view_inv cur wait hold asks (n :: rels) req gr →
  cur = n ∧ n ≠ -1 ∧ hold = [] ∧ rels = [] ∧
  match wait with
  | [] => view_inv (-1) [] [] asks [] req gr
  | next :: rest => view_inv next rest [next] asks [] req (gr ++ [(r, next)])
  end.
Proof.
  intros [Hfl Hfree Hheld Hfifo].
  assert (cur ≠ -1) as Hc.
  { intros Hc. destruct (Hfree Hc) as [_ Hnil]. by destruct hold. }
  specialize (Hheld Hc). assert (hold = [] ∧ n = cur ∧ rels = []) as (-> & -> & ->).
  { destruct hold as [|h hold]; simplify_eq/=; [done|]. by destruct hold. }
  do 4 (split; [done|]). simpl in *.
  assert (flight_ok (asks ++ wait) req) as Hfl'.
  { eapply (flight_ok_cons cur), flight_ok_perm; [|exact Hfl]. solve_Permutation. }
  destruct wait as [|next rest]; simpl in *.
  - by split.
  - split; [|intros Hn|done|].
    + eapply flight_ok_perm; [|exact Hfl']. simpl. solve_Permutation.
    + assert (next ∈ asks ++ next :: rest) as Hin by (apply elem_of_app; right; by left).
      apply Hfl' in Hin as [? _]. lia.
    + rewrite Hfifo, nums_app. simpl. rewrite decide_True by done. by rewrite <- !app_assoc.
Qed.

(** *** Effect of the system's steps on the view *)

Lemma handle_other q m m' g :
  ResourceID q ≠ r → handle q m = Handled m' g → m' !! r = m !! r.
Proof. intros Hne E. unfold handle in E. case_all; by rewrite lookup_insert_ne. Qed.

Lemma nums_other r' (l : list Z) : r' ≠ r → nums (pair r' <$> l) = [].
Proof. intros Hne. induction l as [|n l IH]; simpl; [done|]. by rewrite decide_False. Qed.

Lemma cleanup_view visited m :
  (current m = -1 → waiting m = []) →
  current (CleanupMapEntries visited m) = current m ∧ waiting (CleanupMapEntries visited m) = waiting m.
Proof.
  intros Hw. induction visited as [|r' visited [IHc IHw]]; simpl; [done|].
  set (m' := CleanupMapEntries visited m) in *.
  change (foldr _ m visited) with m'. destruct (m' !! r') as [li|] eqn:E; [|done].
  destruct (CurrentLockNumber li =? -1) eqn:Hc; [|done]. bool_to_prop.
  destruct (decide (r' = r)) as [->|Hne].
  - unfold current, waiting in *. rewrite lookup_delete_eq, E in *. simpl in *.
    rewrite Hc in *. rewrite <- IHw, Hw in * by done. done.
  - unfold current, waiting in *. by rewrite lookup_delete_ne.
Qed.

Lemma handle_inv q qs m m' g hs req gr :
  view_inv (current m) (waiting m) (nums hs) (sent false (q :: qs)) (sent true (q :: qs)) req gr →
  handle q m = Handled m' g →
  view_inv (current m') (waiting m') (nums (hs ++ (pair (ResourceID q) <$> option_list g)))
    (sent false qs) (sent true qs) req (gr ++ (pair (ResourceID q) <$> option_list g)).
Proof.
  intros Hv E. destruct (decide (ResourceID q = r)) as [Hr|Hne].
  2:{ assert (m' !! r = m !! r) as Hm by by eapply handle_other.
      rewrite nums_app, nums_other, app_nil_r by done.
      assert (∀ x, view_inv (current m') (waiting m') (nums hs) (sent false qs) (sent true qs) req gr →
        nums x = [] → view_inv (current m') (waiting m') (nums hs) (sent false qs) (sent true qs) req (gr ++ x)) as Hgr.
      { intros x [] Hx. split; [done..|]. by rewrite nums_app, Hx, app_nil_r. }
      apply Hgr; [|by apply nums_other]. unfold current, waiting. rewrite Hm.
      simpl in Hv. by rewrite !decide_False in Hv by naive_solver. }
  destruct q as [r' n u]. simpl in *. subst r'. unfold handle in E. simpl in E.
  destruct u.
  - (* unlock *)
    rewrite decide_False, decide_True in Hv by naive_solver.
    apply view_unlock in Hv as (Hc & Hn & Hh & Hrel & Hv). rewrite nums_app, Hh, Hrel.
    unfold current, waiting in *.
    destruct (m !! r) as [li|] eqn:Em; simpl in *; [|lia].
    rewrite Hc, Z.eqb_refl in E.
    destruct (LockRequests li) as [|next rest]; simplify_eq/=;
      rewrite lookup_insert_eq; [by rewrite app_nil_r|by rewrite decide_True].
  - (* lock *)
    rewrite decide_True, decide_False in Hv by naive_solver.
    unfold current, waiting in *. destruct (m !! r) as [li|] eqn:Em; simpl in *.
    + destruct (decide (CurrentLockNumber li = -1)) as [Hc|Hc].
      * rewrite Hc in *. apply view_grant in Hv as (Hv & Hw & Hn). rewrite Hw in *.
        rewrite (proj2 (Z.eqb_neq (-1) n)) in E by lia. simpl in E.
        simplify_eq/=. rewrite lookup_insert_eq, nums_app. simpl. by rewrite decide_True.
      * apply view_wait in Hv as [Hv Hcn]; [|done].
        rewrite (proj2 (Z.eqb_neq _ n)), (proj2 (Z.eqb_neq _ (-1))), andb_false_r in E by done.
        case_decide; simplify_eq/=. by rewrite lookup_insert_eq, !app_nil_r.
    + apply view_grant in Hv as (Hv & _ & _). simplify_eq/=.
      rewrite lookup_insert_eq, nums_app. simpl. by rewrite decide_True.
Qed.

Lemma step_inv s s' : step s s' → resource_inv s → resource_inv s'.
Proof.
  unfold resource_inv. intros [r' n s0 Hn Hf _|r' n hs1 hs2 s0 Hh _|q qs m' g s0 Hq Hhd|visited s0] Hv; simpl.
  - rewrite !sent_app. simpl. destruct (decide (r' = r)) as [->|Hne].
    + rewrite decide_True, decide_False, app_nil_r by naive_solver. by apply view_request.
    + rewrite !decide_False, !app_nil_r by naive_solver. destruct Hv as [[Hnd Hall] ? ? ?].
      split; [|done|done|rewrite nums_app; simpl; by rewrite decide_False, app_nil_r].
      split; [done|]. intros m [? ?]%Hall. split; [done|]. apply elem_of_app. by left.
  - rewrite !sent_app. rewrite Hh, !nums_app in *. simpl in *. destruct (decide (r' = r)) as [->|Hne].
    + rewrite decide_False, decide_True, app_nil_r by naive_solver. by apply view_release.
    + by rewrite !decide_False, !app_nil_r by naive_solver.
  - rewrite Hq in Hv. by eapply handle_inv.
  - destruct (cleanup_view visited (locks s0)) as [-> ->]; [|done].
    intros Hc. by apply (vinv_free _ _ _ _ _ _ _ Hv).
Qed.

Lemma init_inv : resource_inv init.
Proof. split; [split; [apply NoDup_nil_2|by intros n ?%not_elem_of_nil]|done|done|done]. Qed.

Lemma reachable_inv s : rtc step init s → resource_inv s.
Proof.
  assert (∀ s0, rtc step s0 s → resource_inv s0 → resource_inv s) as H.
  { induction 1; eauto using step_inv. }
  intros Hr. by eapply H, init_inv.
Qed.

End resource.

(** C4: mutual exclusion: in every reachable state of clients, channel, handler
    and cleanup worker, at most one client holds the lock of a resource. *)
Theorem lock_mutual_exclusion s r n1 n2 :
  rtc step init s → (r, n1) ∈ holders s → (r, n2) ∈ holders s → n1 = n2.
Proof.
  intros Hr H1%nums_elem H2%nums_elem. pose proof (reachable_inv r s Hr) as [_ Hfree Hheld _].
  destruct (decide (current r (locks s) = -1)) as [Hc|Hc].
  - destruct (Hfree Hc) as [_ [Hnil _]%app_eq_nil]. rewrite Hnil in H1. by apply not_elem_of_nil in H1.
  - specialize (Hheld Hc).
    assert (∀ n, n ∈ nums r (holders s) → n = current r (locks s)) as Heq.
    { intros n Hn. apply list_elem_of_singleton. rewrite <- Hheld. apply elem_of_app. by left. }
    by rewrite (Heq n1 H1), (Heq n2 H2).
Qed.

(** First come, first served: the clients of a resource are granted the lock
    in the order of their requests; those not granted yet are exactly the ones
    waiting or still in the channel, in that order. *)
Theorem lock_fifo s r :
  rtc step init s →
  nums r (requested s) = nums r (granted s) ++ waiting r (locks s) ++ sent r false (queue s).
Proof. intros Hr. apply (reachable_inv r s Hr). Qed.

(** ** The full wait channel *)

Lemma handle_blocked q m :
  handle q m = Blocked ↔
  Unlock q = false ∧ ∃ li, m !! ResourceID q = Some li ∧ CurrentLockNumber li ≠ LockNumber q ∧
    (lockRequestsCapacity ≤ length (LockRequests li))%nat.
Proof.
  unfold handle. split.
  - intros E. case_all. bool_to_prop. split; [done|]. eexists. split; [done|]. split; [done|]. lia.
  - intros (-> & li & -> & Hc & Hl). rewrite (proj2 (Z.eqb_neq _ _) Hc).
    rewrite bool_decide_eq_false_2; [|by intros Hn; rewrite Hn in Hl; unfold lockRequestsCapacity in Hl; simpl in Hl; lia].
    simpl. rewrite decide_False; [done|lia].
Qed.

Lemma cleanup_lookup visited m r li :
  m !! r = Some li → CurrentLockNumber li ≠ -1 → CleanupMapEntries visited m !! r = Some li.
Proof.
  intros Hr Hc. induction visited as [|r' visited IH]; simpl; [done|].
  change (foldr _ m visited) with (CleanupMapEntries visited m).
  destruct (_ !! r') as [li'|] eqn:E; [|done]. destruct (_ =? -1) eqn:Hc'; [|done]. bool_to_prop.
  destruct (decide (r' = r)) as [->|]; [congruence|]. by rewrite lookup_delete_ne.
Qed.

(** When 100 requests already wait for a resource, the next lock request for
    it blocks the handler for good: from then on no request of any client, for any
    resource, is served (no lock is granted, no release is processed), however the
    clients and the cleanup worker go on. *)
Theorem lock_manager_deadlock s q qs :
  rtc step init s → queue s = q :: qs → handle q (locks s) = Blocked →
  ∀ s', rtc step s s' →
    granted s' = granted s ∧ (∃ more, queue s' = q :: qs ++ more) ∧ handle q (locks s') = Blocked.
Proof.
  intros Hreach Hq Hb s' Hrun. pose proof (reachable_inv (ResourceID q) s Hreach) as [_ Hfree _ _].
  apply handle_blocked in Hb as (Hu & li & Hli & Hcn & Hlen).
  assert (CurrentLockNumber li ≠ -1) as Hc.
  { unfold current, waiting in Hfree. rewrite Hli in Hfree. simpl in Hfree. intros Hc.
    destruct (Hfree Hc) as [Hw _]. rewrite Hw in Hlen. unfold lockRequestsCapacity in Hlen. simpl in Hlen. lia. }
  assert (granted s' = granted s ∧ (∃ more, queue s' = q :: qs ++ more) ∧
          locks s' !! ResourceID q = Some li) as (? & ? & ?).
  2:{ split; [done|]. split; [done|]. apply handle_blocked. eauto. }
  clear Hreach Hfree. induction Hrun as [s|s s1 s' Hstep _ IH] in qs, Hq, Hli |- *.
  { split; [done|]. split; [|done]. exists []. by rewrite app_nil_r. }
  assert (granted s1 = granted s ∧ (∃ more, queue s1 = q :: qs ++ more) ∧
          locks s1 !! ResourceID q = Some li) as (Hg & [more Hmore] & Hl1).
  { destruct Hstep as [r n s ? ? ?|r n ? ? s ? ?|q' qs' m' g s Hq' Hh|visited s]; simpl.
    - split; [done|]. split; [|done]. rewrite Hq. simpl. eauto.
    - split; [done|]. split; [|done]. rewrite Hq. simpl. eauto.
    - exfalso. rewrite Hq in Hq'. injection Hq' as <- <-.
      assert (handle q (locks s) = Blocked) by (apply handle_blocked; eauto). congruence.
    - split; [done|]. split; [exists []; by rewrite app_nil_r|]. by apply cleanup_lookup. }
  destruct (IH (qs ++ more) Hmore Hl1) as (-> & [more' ->] & ?). split; [done|]. split; [|done].
  exists (more ++ more'). by rewrite <- app_assoc.
Qed.

(** ** Concrete runs *)

(** One holder and [k] waiting requests for a resource. *)
Definition crowd (k : nat) : system :=
  mkSystem [] {[ "vol" := mkLockInfo (seqZ 1 (Z.of_nat k)) 0 1 ]} [("vol", 0)]
    (pair "vol" <$> seqZ 0 (Z.of_nat (S k))) [("vol", 0)].

(** The same, with one more request in the channel. *)
Definition crowd_next (k : nat) : system :=
  let s := crowd k in
  mkSystem [mkRequest "vol" (Z.of_nat (S k)) false] (locks s) (holders s)
    (requested s ++ [("vol", Z.of_nat (S k))]) (granted s).

Lemma crowd_request k : step (crowd k) (crowd_next k).
Proof.
  apply (step_request "vol" (Z.of_nat (S k)) (crowd k)); [lia| |].
  - simpl. intros (n & Hn & Hin)%list_elem_of_fmap. apply elem_of_seqZ in Hin.
    injection Hn as Hn. lia.
  - simpl. unfold lockRequestsQueueCapacity. lia.
Qed.

Lemma crowd_handle k : (k < 100)%nat → step (crowd_next k) (crowd (S k)).
Proof.
  intros Hk.
  set (m' := <["vol" := mkLockInfo (seqZ 1 (Z.of_nat k) ++ [Z.of_nat (S k)]) 0 1]> (locks (crowd k))).
  assert (handle (mkRequest "vol" (Z.of_nat (S k)) false) (locks (crowd_next k)) = Handled m' None) as Hh.
  { unfold handle. simpl ResourceID. simpl locks. rewrite lookup_singleton_eq.
    cbn [CurrentLockNumber LockNumber LockRequests Unlock].
    rewrite (proj2 (Z.eqb_neq 0 (Z.of_nat (S k)))), andb_false_r by lia.
    rewrite decide_True; [done|]. rewrite length_seqZ. unfold lockRequestsCapacity. lia. }
  pose proof (step_handle _ [] m' None (crowd_next k) eq_refl Hh) as Hs.
  cbn [option_list] in Hs. rewrite !app_nil_r in Hs. refine (eq_ind _ (step _) Hs _ _).
  unfold crowd, crowd_next. simpl. f_equal.
  - unfold m'. simpl. rewrite insert_singleton_eq. f_equal. f_equal.
    rewrite seqZ_S. f_equal. f_equal. lia.
  - rewrite (seqZ_S 0 (S k)), fmap_app. done.
Qed.

Lemma crowd_start : rtc step init (crowd 0).
Proof.
  eapply rtc_l; [apply (step_request "vol" 0 init); [lia|apply not_elem_of_nil|]|].
  { simpl. unfold lockRequestsQueueCapacity. lia. }
  eapply rtc_l; [eapply (step_handle (mkRequest "vol" 0 false) []); reflexivity|].
  apply rtc_refl.
Qed.

Lemma crowd_reachable k : (k ≤ 100)%nat → rtc step init (crowd k).
Proof.
  induction k as [|k IH]; intros Hk; [apply crowd_start|].
  eapply rtc_r; [|by apply crowd_handle; lia]. eapply rtc_r; [|apply crowd_request]. apply IH. lia.
Qed.

Lemma crowd_full_reachable : rtc step init (crowd_next 100).
Proof. eapply rtc_r; [by apply crowd_reachable|apply crowd_request]. Qed.

Lemma lock_mutual_exclusion_witness :
  ("vol", 0) ∈ holders (crowd_next 100) ∧ length (waiting "vol" (locks (crowd_next 100))) = 100%nat ∧ 0 = 0.
Proof.
  split; [left|]. split; [vm_compute; reflexivity|].
  apply (lock_mutual_exclusion (crowd_next 100) "vol" 0 0); [exact crowd_full_reachable|left|left].
Defined.

Lemma lock_fifo_witness :
  nums "vol" (requested (crowd_next 2)) = [0; 1; 2; 3] ∧
  nums "vol" (requested (crowd_next 2)) =
  nums "vol" (granted (crowd_next 2)) ++ waiting "vol" (locks (crowd_next 2)) ++ sent "vol" false (queue (crowd_next 2)).
Proof.
  split; [reflexivity|]. apply (lock_fifo (crowd_next 2) "vol").
  eapply rtc_r with (y := crowd 2); [apply (crowd_reachable 2); lia|apply (crowd_request 2)].
Defined.

(** The holder releases; its request stays behind the blocked one. *)
Definition crowd_released : system :=
  let s := crowd_next 100 in
  mkSystem (queue s ++ [mkRequest "vol" 0 true]) (locks s) [] (requested s) (granted s).

Lemma lock_manager_deadlock_witness :
  granted crowd_released = [("vol", 0)] ∧
  handle (mkRequest "vol" 101 false) (locks crowd_released) = Blocked.
Proof.
  destruct (lock_manager_deadlock (crowd_next 100) (mkRequest "vol" 101 false) []
    crowd_full_reachable eq_refl ltac:(vm_compute; reflexivity) crowd_released) as (Hg & _ & Hb).
  - apply rtc_once. apply (step_release "vol" 0 [] [] (crowd_next 100)); [reflexivity|].
    simpl. unfold lockRequestsQueueCapacity. lia.
  - exact (conj Hg Hb).
Defined.

End Locks.
