(* ===== verification/Pending.v ===== *)
(** * Limiting the requests in progress

    Models service/pending.go: at most one request per volume and at most
    [maxPending] requests in all. *)

From S2P Require Import Prelude.
From stdpp Require Import base gmap strings list.
From Stdlib Require Import ZArith Lia.

Open Scope Z_scope.

Module Pending.

(** The map holds the start times; the zero time is a missing entry. *)
Record pendingState := mkPending {
  maxPending : Z;
  npending : Z;
  pendingMap : gmap string Z
}.

Inductive pending_error := ErrPending | ErrOverload.

(** The two flags that tests use to induce errors. *)
Record induced := mkInduced { inducePendingError : bool; induceOverloadError : bool }.

Definition checkAndUpdatePendingState (ind : induced) (now : Z) (volID : string) (ps : pendingState)
    : pendingState * option pending_error :=
  if bool_decide (is_Some (pendingMap ps !! volID)) || inducePendingError ind then (ps, Some ErrPending)
  else if ((0 <? maxPending ps) && (maxPending ps <=? npending ps)) || induceOverloadError ind
  then (ps, Some ErrOverload)
  else (mkPending (maxPending ps) (npending ps + 1) (<[volID := now]> (pendingMap ps)), None).

Definition clearPending (volID : string) (ps : pendingState) : pendingState :=
  mkPending (maxPending ps) (npending ps - 1) (delete volID (pendingMap ps)).

(** ** Handlers

    A handler runs [check ...; defer clearPending(...)]: it clears exactly what it
    entered. [active] are the volumes of the handlers between the two. *)
Record system := mkSystem { state : pendingState; active : list string }.

Inductive step : system → system → Prop :=
| step_enter ind now v s ps' :
    checkAndUpdatePendingState ind now v (state s) = (ps', None) → step s (mkSystem ps' (v :: active s))
| step_refused ind now v s ps' e :
    checkAndUpdatePendingState ind now v (state s) = (ps', Some e) → step s (mkSystem ps' (active s))
| step_leave v l1 l2 s :
    active s = l1 ++ v :: l2 → step s (mkSystem (clearPending v (state s)) (l1 ++ l2)).

Definition init (limit : Z) : system := mkSystem (mkPending limit 0 ∅) [].

Definition system_inv (limit : Z) (s : system) : Prop :=
  NoDup (active s) ∧ (∀ v, is_Some (pendingMap (state s) !! v) ↔ v ∈ active s) ∧
  npending (state s) = Z.of_nat (length (active s)) ∧ maxPending (state s) = limit ∧
  (0 < limit → npending (state s) <= limit).

Lemma pending_step_inv limit s s' : step s s' → system_inv limit s → system_inv limit s'.
Proof.
  intros [ind now v s0 ps' E|ind now v s0 ps' e E|v l1 l2 s0 Ha] (Hnd & Hm & Hn & Hlim & Hb);
    unfold checkAndUpdatePendingState in *.
  - destruct (_ || inducePendingError ind) eqn:E1; [done|].
    destruct (_ || induceOverloadError ind) eqn:E2; [done|]. injection E as <-.
    apply orb_false_iff in E1 as [Hnone _], E2 as [Hover _]. bool_to_prop.
    split; [apply NoDup_cons; split; [by rewrite <- Hm|done]|]. simpl. split.
    + intros u. rewrite elem_of_cons, <- Hm. destruct (decide (u = v)) as [->|Hne].
      * rewrite lookup_insert_eq. naive_solver.
      * rewrite lookup_insert_ne by done. naive_solver.
    + split; [lia|]. split; [done|]. intros Hl. apply andb_false_iff in Hover as [H|H]; bool_to_prop; lia.
  - assert (ps' = state s0) as -> by (by case_all). done.
  - rewrite Ha in *. apply NoDup_middle_inv in Hnd as [Hnd Hni].
    split; [done|]. simpl. split.
    + intros u. destruct (decide (u = v)) as [->|Hne].
      * rewrite lookup_delete_eq. split; [by intros [? ?]|done].
      * rewrite lookup_delete_ne, Hm, !elem_of_app, elem_of_cons by done. naive_solver.
    + rewrite length_app in *. simpl in *. split; [lia|]. split; [done|]. intros. specialize (Hb ltac:(done)). lia.
Qed.

(** Handlers that clear what they entered never overlap on a volume, the
    counter is exactly the number of requests in progress, and with a positive
    limit it never exceeds the limit. *)
Theorem pending_invariant limit s : rtc step (init limit) s → system_inv limit s.
Proof.
  assert (∀ s0, rtc step s0 s → system_inv limit s0 → system_inv limit s) as H.
  { induction 1; eauto using pending_step_inv. }
  intros Hr. eapply H; [done|]. split; [apply NoDup_nil_2|]. simpl.
  split; [|by repeat split; lia]. intros v. rewrite lookup_empty, elem_of_nil.
  split; [by intros [? ?]|done].
Qed.

Lemma pending_invariant_witness :
  system_inv 2 (mkSystem (mkPending 2 1 {["vol1" := 5]}) ["vol1"]).
Proof.
  apply (pending_invariant 2). apply rtc_once.
  apply (step_enter (mkInduced false false) 5 "vol1" (init 2)). reflexivity.
Defined.

End Pending.
