(* ===== verification/PowerMax.v ===== *)
(** * Arrays: registry, look-through caches, names and versions

    Models pkg/symmetrix/powermax.go (the registry of arrays, the timed caches
    and the names of volumes and storage groups), service/version_cache.go and
    the version test of service/backend_selection.go. *)

From stdpp Require Import base gmap strings list.
From Stdlib Require Import ZArith Lia Ascii.
From S2P Require Import Prelude GoLib Pmax.

(** ** Timed caches *)
Module CacheTime.
Open Scope Z_scope.

(** [None] is the zero time of a cache that was never set. *)
Record CacheTime := mkCacheTime {
  CreationTime : option Z;
  CacheValidity : Z;
}.

Definition IsValid (now : Z) (c : CacheTime) : bool :=
  match CreationTime c with
  | None => false
  | Some t => timeSub now t <? CacheValidity c
  end.

Definition SetTime (now validity : Z) : CacheTime := mkCacheTime (Some now) validity.

(** [SRPCacheValidity] and [SnapLicenseCacheValidity] *)
Definition SRPCacheValidity : Z := 24 * 60 * Minute.
Definition SnapLicenseCacheValidity : Z := 24 * 60 * Minute.

(** A look-through cache of a value: [SRPCache] holds storage pool ids,
    [ReplicationCapabilitiesCache] the capabilities of the array. *)
Record lookCache (A : Type) := mkLookCache { cached : A; time : CacheTime }.
Arguments mkLookCache {A} cached time.
Arguments cached {A} _.
Arguments time {A} _.

Section look.
Context {W A : Type} (Now : W → Z * W).

(** [SRPCache.Get]: fetch is GetStoragePoolList. *)
Definition SRPCache_Get (fetch : W → result error A * W) (s : lookCache A) : M W (result error A * lookCache A) :=
  mbnd (lift Now) (λ now,
  if IsValid now (time s) then ret (Ok (cached s), s)
  else mbnd (lift fetch) (λ r,
    match r with
    | Err e => ret (Err e, s)
    | Ok list => mbnd (lift Now) (λ t, ret (Ok list, mkLookCache list (SetTime t SRPCacheValidity)))
    end)).
End look.

Record SymmetrixCapability := mkCapability {
  SymmetrixID : string;
  RdfCapable : bool;
  SnapVxCapable : bool;
}.

Section capabilities.
Context {W : Type} (Now : W → Z * W).

(** [ReplicationCapabilitiesCache.Get]: fetch is GetReplicationCapabilities. *)
Definition Capabilities_Get (fetch : W → result error (list SymmetrixCapability) * W) (symID : string)
    (rep : lookCache (option SymmetrixCapability))
    : M W (result error (option SymmetrixCapability) * lookCache (option SymmetrixCapability)) :=
  mbnd (lift Now) (λ now,
  if IsValid now (time rep) then ret (Ok (cached rep), rep)
  else mbnd (lift fetch) (λ r,
    match r with
    | Err e => ret (Err e, rep)
    | Ok l =>
        match List.find (λ c, bool_decide (SymmetrixID c = symID)) l with
        | Some c => mbnd (lift Now) (λ t,
            ret (Ok (Some c), mkLookCache (Some c) (SetTime t SnapLicenseCacheValidity)))
        | None => ret (Err (errorString ("couldn't find sym id: " ++ symID ++ " in response")%string), rep)
        end
    end)).
End capabilities.
End CacheTime.

(** ** Registry and names *)
Module PowerMax.
Import CacheTime.
Open Scope string_scope.
Open Scope Z_scope.

Definition CSIPrefix := "csi".
Definition MaxVolIdentifierLength : Z := 64.

(** Half of the text from each end when it is too long; [None] is the panic of
    a slice out of range. Go's [%] keeps the sign of the dividend and [/]
    truncates. *)
Definition truncateString (str : string) (maxLength : Z) : option string :=
  if maxLength <? slen str then
    let newLength :=
      if negb (Z.rem maxLength 2 =? 0) then slen str - Z.quot maxLength 2 - 1
      else slen str - Z.quot maxLength 2 in
    let half := Z.quot maxLength 2 in
    if (half <? 0) || (slen str <? newLength) || (newLength <? 0) then None
    else Some (stake (Z.to_nat half) str ++ sdrop (Z.to_nat newLength) str)
  else Some str.

Definition GetVolumeIdentifier (clusterPrefix volumeName : string) : option string :=
  let maxLength := MaxVolIdentifierLength - slen clusterPrefix - slen CSIPrefix - 1 in
  shortVolumeName ← truncateString volumeName maxLength;
  Some (CSIPrefix ++ "-" ++ clusterPrefix ++ "-" ++ shortVolumeName).

Definition GetSGName (clusterPrefix applicationPrefix serviceLevel storageResourcePool : string) : string :=
  if decide (applicationPrefix = "") then
    CSIPrefix ++ "-" ++ clusterPrefix ++ "-" ++ serviceLevel ++ "-" ++ storageResourcePool ++ "-SG"
  else
    CSIPrefix ++ "-" ++ clusterPrefix ++ "-" ++ applicationPrefix ++ "-" ++ serviceLevel ++ "-" ++ storageResourcePool ++ "-SG".

Section registry.
Context {W C : Type} `{Pmax W C}.

Record PowerMax := mkPowerMax { SymID : string; client : C }.

(** [StorageArrays] *)
Abbreviation arrays := (gmap string PowerMax).

Definition getClient (p : PowerMax) : C := WithSymmetrixID (client p) (SymID p).

Definition AddPowerMax (symID : string) (cl : C) (a : arrays) : arrays * option error :=
  match a !! symID with
  | Some _ => (a, Some (errorString ("PowerMax: " ++ symID ++ " already added to the configuration")))
  | None => (<[symID := mkPowerMax symID cl]> a, None)
  end.

Definition getPowerMax (a : arrays) (symID : string) : result error PowerMax :=
  match a !! symID with
  | Some p => Ok p
  | None => Err (errorString ("array: " ++ symID ++ " not found"))
  end.

Definition GetArrayClient (a : arrays) (symID : string) : option C :=
  match getPowerMax a symID with Ok p => Some (getClient p) | Err _ => None end.

(** [GetPowerMaxClient] with one array. *)
Definition GetPowerMaxClient1 (a : arrays) (symID : string) : result error C :=
  match getPowerMax a symID with Ok p => Ok (getClient p) | Err e => Err e end.

Definition RemoveClient (symID : string) (a : arrays) : arrays := delete symID a.

Fixpoint Initialize (symIDList : list string) (cl : C) (a : arrays) : arrays * option error :=
  match symIDList with
  | [] => (a, None)
  | symID :: rest =>
      match AddPowerMax symID cl a with
      | (a', Some e) => (a', Some e)
      | (a', None) => Initialize rest cl a'
      end
  end.

(** ** Version cache

    Entries of [versionEntries] by the key of client and array. *)
Abbreviation versionCache := (gmap string string).

Definition symmetrixKey (c : C) (symID : string) : string := GetHTTPClient c ++ ":" ++ symID.

Definition getOrFetchVersionDetails (symID : string) (c : C) (vc : versionCache)
    : M W (result error string * versionCache) :=
  match vc !! symmetrixKey c symID with
  | Some v => ret (Ok v, vc)
  | None =>
      mbnd (lift (GetVersionDetails c)) (λ r,
      match r with
      | Err e => ret (Err e, vc)
      | Ok details => ret (Ok details, <[symmetrixKey c symID := details]> vc)
      end)
  end.
End registry.

(** ** Versions *)
Definition minU4PBackendVersion : list Z := [10; 4; 0; 4].

(** White space at both ends, ASCII. *)
Definition is_space (c : ascii) : bool :=
  let n := nat_of_ascii c in (n =? 32)%nat || ((9 <=? n)%nat && (n <=? 13)%nat).
Fixpoint trim_left (s : string) : string :=
  match s with String c s' => if is_space c then trim_left s' else s | "" => "" end.
Fixpoint trim_right (s : string) : string :=
  match s with
  | "" => ""
  | String c s' =>
      match trim_right s' with
      | "" => if is_space c then "" else String c ""
      | t => String c t
      end
  end.
Definition TrimSpace (s : string) : string := trim_right (trim_left s).

Definition parseUnisphereVersion (version : string) : option (list Z) :=
  let trimmed := TrimSpace version in
  if decide (trimmed = "") then None
  else
    let trimmed := TrimPrefix (TrimPrefix trimmed "V") "v" in
    let parts := Split "." trimmed in
    if (List.length parts <? List.length minU4PBackendVersion)%nat then None
    else mapM Atoi parts.

Fixpoint version_ge (parsed minimum : list Z) : bool :=
  match minimum, parsed with
  | m :: minimum, p :: parsed =>
      if m <? p then true else if p <? m then false else version_ge parsed minimum
  | _, _ => true
  end.

Definition isVersionAtLeast (version : string) (minimum : list Z) : bool :=
  match parseUnisphereVersion version with
  | None => false
  | Some parsed => version_ge parsed minimum
  end.

Inductive backendPath := backendLegacy | backendU4P104.

Record backendSelectionProfile := mkProfile {
  IsFile : bool;
  HasContentSource : bool;
  ReplicationEnabled : bool;
  ReplicationMode : string;
  IsThick : bool;
}.

Definition selectBackendPath (profile : backendSelectionProfile) (version : string) : backendPath :=
  if IsFile profile || ReplicationEnabled profile || IsThick profile then backendLegacy
  else if isVersionAtLeast version minU4PBackendVersion then backendU4P104
  else backendLegacy.

(** ** Lemmas *)
Lemma stake_length n s : String.length (stake n s) = Nat.min n (String.length s).
Proof. revert s. induction n; intros [|c s]; simpl; auto. Qed.

Lemma sdrop_length n s : String.length (sdrop n s) = (String.length s - n)%nat.
Proof. revert s. induction n; intros [|c s]; simpl; auto. Qed.

Lemma app_str_length s t : String.length (s ++ t) = (String.length s + String.length t)%nat.
Proof. induction s; [done|]. rewrite app_str_cons. simpl. by rewrite IHs. Qed.

(** A text too long is cut to exactly the maximal length. *)
Lemma truncateString_length str n :
  0 <= n → ∃ t, truncateString str n = Some t ∧ slen t = Z.min n (slen str).
Proof.
  intros Hn. unfold truncateString. destruct (Z.ltb_spec n (slen str)) as [Hlt|]; [|exists str; split; [done|lia]].
  pose proof (Z.quot_rem n 2 ltac:(lia)) as Hqr. pose proof (Z.rem_bound_pos n 2 Hn ltac:(lia)) as Hr.
  set (q := Z.quot n 2) in *. set (r := Z.rem n 2) in *.
  assert (0 <= q) by (apply Z.quot_pos; lia).
  unfold slen in *.
  destruct (Z.eqb_spec r 0) as [Hr0|Hr0]; cbn [negb].
  all: match goal with |- context [if ?b then None else _] => assert (b = false) as -> end.
  all: try (rewrite !orb_false_iff, !Z.ltb_ge; lia).
  all: eexists; split; [reflexivity|]; rewrite app_str_length, stake_length, sdrop_length; lia.
Qed.

(** The identifier GetVolumeIdentifier builds for a volume name that does
    not fit is one character longer than MaxVolIdentifierLength: only one of the
    two dashes is counted. *)
Theorem volume_identifier_too_long clusterPrefix volumeName :
  slen clusterPrefix <= 60 → 60 - slen clusterPrefix < slen volumeName →
  ∃ id, GetVolumeIdentifier clusterPrefix volumeName = Some id ∧ slen id = MaxVolIdentifierLength + 1.
Proof.
  intros Hp Hv. unfold GetVolumeIdentifier, MaxVolIdentifierLength. change (slen CSIPrefix) with 3.
  destruct (truncateString_length volumeName (64 - slen clusterPrefix - 3 - 1)) as (t & -> & Ht); [lia|].
  eexists; split; [reflexivity|]. unfold slen in *.
  rewrite !app_str_length. cbn [String.length CSIPrefix]. lia.
Qed.

Lemma volume_identifier_too_long_witness :
  ∃ id, GetVolumeIdentifier "ABC" "pmax-0123456789-0123456789-0123456789-0123456789-0123456789" = Some id
        ∧ slen id = MaxVolIdentifierLength + 1.
Proof. apply volume_identifier_too_long; vm_compute; congruence. Defined.
End PowerMax.
