(* ===== verification/Metro.v ===== *)
(** * SRDF/Metro: routing between the two arrays of a pair

    Models pkg/symmetrix/metro.go and GetPowerMaxClient of
    pkg/symmetrix/powermax.go: the client of a Metro pair with its failover by
    weighted failures and by the Witness/Bias winner, the watchers of the HTTP
    clients, the check of the state of a pair and the caches of its results. *)

From stdpp Require Import base gmap strings list.
From Stdlib Require Import ZArith Lia Ascii.
From S2P Require Import Prelude GoLib Pmax PowerMax SimArray.

Module Metro.
Import PowerMax.
Open Scope string_scope.
Open Scope Z_scope.
Open Scope go_scope.

Definition failoverThreshold : Z := 5.
Definition failureTimeThreshold : Z := 2 * Minute.

(** ** The client of a pair *)
Record metroClient := mkMetro {
  primaryArray : string;
  secondaryArray : string;
  activeArray : string;
  failureCount : Z;           (* int32 *)
  lastFailure : option Z;     (* [None] is the zero time *)
  witnessWinner : string;
}.

Definition set_active (m : metroClient) (a : string) : metroClient :=
  mkMetro (primaryArray m) (secondaryArray m) a 0 (lastFailure m) (witnessWinner m).

Definition getActiveArray (m : metroClient) : string * metroClient :=
  if bool_decide (witnessWinner m ≠ "")
     && bool_decide (witnessWinner m = primaryArray m ∨ witnessWinner m = secondaryArray m) then
    if decide (activeArray m ≠ witnessWinner m) then (witnessWinner m, set_active m (witnessWinner m))
    else (activeArray m, m)
  else if failoverThreshold <=? failureCount m then
    let a := if decide (activeArray m = primaryArray m) then secondaryArray m else primaryArray m in
    (a, set_active m a)
  else (activeArray m, m).

Definition healthHandler (now failureWeight : Z) (m : metroClient) : metroClient :=
  let timeSinceLastFailure :=
    match lastFailure m with None => maxDuration | Some t => timeSub now t end in
  let count :=
    if (failureTimeThreshold <? timeSinceLastFailure) && negb (failureCount m =? 0) then 1
    else wrap32 (failureCount m + failureWeight) in
  mkMetro (primaryArray m) (secondaryArray m) (activeArray m) count (Some now) (witnessWinner m).

Definition setWinner (winnerSymID : string) (m : metroClient) : metroClient :=
  mkMetro (primaryArray m) (secondaryArray m) (activeArray m) (failureCount m) (lastFailure m) winnerSymID.

Definition pairID (primary secondary : string) : string := primary ++ "-" ++ secondary.
Definition getIdentifier (m : metroClient) : string := pairID (primaryArray m) (secondaryArray m).

(** The weight a response has for the watchers. *)
Definition roundTripWeight (failed : bool) (statusCode : Z) : option Z :=
  if failed then Some 2
  else if (statusCode =? 401) || (statusCode =? 403) then Some 99
  else if Z.quot statusCode 100 =? 5 then Some 1
  else None.

(** ** All pairs

    [clients] is metroClients by identifier; [handlers] is httpHealthHandlers: by
    HTTP client and by array, the identifier of the pair to be told. *)
Record metros := mkMetros {
  clients : gmap string metroClient;
  handlers : gmap string (gmap string string);
}.

(** installHTTPHealthWatcher, once per HTTP client. *)
Definition installHTTPHealthWatcher (http : string) (ms : metros) : metros :=
  match handlers ms !! http with
  | Some _ => ms
  | None => mkMetros (clients ms) (<[http := ∅]> (handlers ms))
  end.

(** RoundTrip: every handler of the HTTP client gets the weight. *)
Definition roundTrip (now : Z) (http : string) (failed : bool) (statusCode : Z) (ms : metros) : metros :=
  match roundTripWeight failed statusCode, handlers ms !! http with
  | Some weight, Some entry =>
      mkMetros
        (fold_left (λ cs id, alter (healthHandler now weight) id cs) (snd <$> map_to_list entry) (clients ms))
        (handlers ms)
  | _, _ => ms
  end.

Definition SetMetroWinner (localSymID remoteSymID winnerSymID : string) (ms : metros) : metros :=
  match clients ms !! pairID localSymID remoteSymID with
  | Some m => mkMetros (<[pairID localSymID remoteSymID := setWinner winnerSymID m]> (clients ms)) (handlers ms)
  | None => mkMetros (alter (setWinner winnerSymID) (pairID remoteSymID localSymID) (clients ms)) (handlers ms)
  end.

(** The partner of the first pair, in the order of the list, that has the
    array: sync.Map's iteration order is open. *)
Fixpoint GetMetroPartner (pairs : list metroClient) (arrayID : string) : string :=
  match pairs with
  | [] => ""
  | m :: pairs =>
      if decide (primaryArray m = arrayID) then secondaryArray m
      else if decide (secondaryArray m = arrayID) then primaryArray m
      else GetMetroPartner pairs arrayID
  end.

(** ** Caches with an expiry time per entry *)
Record entry (A : Type) := mkEntry { value_of : A; expiresAt : Z }.
Arguments mkEntry {A} value_of expiresAt.
Arguments value_of {A} _.
Arguments expiresAt {A} _.

Section client.
Context {W C : Type} `{Pmax W C}.

(** getPowerMaxClient of the pair registered under [id]. *)
Definition pair_client (arrays : gmap string (PowerMax (C:=C))) (id : string) (m : metroClient) (ms : metros)
    : result error C * metros :=
  let '(active, m) := getActiveArray m in
  let ms := mkMetros (<[id := m]> (clients ms)) (handlers ms) in
  match getPowerMax arrays active with
  | Err e => (Err e, ms)
  | Ok p =>
      let c := getClient p in
      match handlers ms !! GetHTTPClient c with
      | None => (Ok c, ms)
      | Some entry =>
          let '(active', m') := getActiveArray m in
          (Ok c, mkMetros (<[id := m']> (clients ms)) (<[GetHTTPClient c := <[active' := id]> entry]> (handlers ms)))
      end
  end.

Definition GetPowerMaxClient (arrays : gmap string (PowerMax (C:=C))) (primary : string) (others : list string)
    (ms : metros) : result error C * metros :=
  match getPowerMax arrays primary with
  | Err e => (Err e, ms)
  | Ok p =>
      match others with
      | [] => (Ok (getClient p), ms)
      | secondary :: _ =>
          match getPowerMax arrays secondary with
          | Err e => (Err e, ms)
          | Ok _ =>
              let id := pairID primary secondary in
              pair_client arrays id (default (mkMetro primary secondary primary 0 None "") (clients ms !! id)) ms
          end
      end
  end.

(** ** The state of a pair *)
Record MetroState := mkMetroState {
  WinnerSymID : string;
  LoserSymID : string;
  State_WitnessConfigured : bool;
  State_WitnessEffective : bool;
  State_BiasConfigured : bool;
  State_BiasEffective : bool;
  DeviceBiasR1Failure : bool;
  LoserUnreachable : bool;
}.

Inductive metro_error :=
| ErrBothArraysUnreachable (local remote : error)
| ErrNoMetroRDFGroup
| ErrDeviceBiasR1Failure.

(** The group whose flags are reported, the winner and the loser. *)
Definition arbitrate (localSymID remoteSymID : string) (local remote : RDFGroup) : RDFGroup * string * string :=
  let localIsR1 := bool_decide (DevicePolarity local = localSymID) in
  let remoteIsR1 := bool_decide (DevicePolarity remote = remoteSymID) in
  let localWitness := WitnessEffective local || BiasEffective local in
  let remoteWitness := WitnessEffective remote || BiasEffective remote in
  let local_wins := (local, localSymID, remoteSymID) in
  let remote_wins := (remote, remoteSymID, localSymID) in
  if localWitness && negb remoteWitness then local_wins
  else if remoteWitness && negb localWitness then remote_wins
  else if localIsR1 && negb remoteIsR1 then local_wins
  else if remoteIsR1 && negb localIsR1 then remote_wins
  else local_wins.

(** The part after both queries. *)
Definition determine (localSymID remoteSymID : string) (local remote : result error RDFGroup)
    : result metro_error MetroState :=
  let finish (unreachable : bool) (choice : RDFGroup * string * string) : result metro_error MetroState :=
    let '(rdfGroup, winner, loser) := choice in
    if BiasConfigured rdfGroup && negb (BiasEffective rdfGroup) && bool_decide (winner ≠ DevicePolarity rdfGroup)
    then Err ErrDeviceBiasR1Failure
    else Ok (mkMetroState winner loser (WitnessConfigured rdfGroup) (WitnessEffective rdfGroup)
               (BiasConfigured rdfGroup) (BiasEffective rdfGroup) false unreachable) in
  match local, remote with
  | Err le, Err re => Err (ErrBothArraysUnreachable le re)
  | Err _, Ok r => finish true (r, remoteSymID, localSymID)
  | Ok l, Err _ => finish true (l, localSymID, remoteSymID)
  | Ok l, Ok r => finish false (arbitrate localSymID remoteSymID l r)
  end.

Definition rdfGroupCacheTTL : Z := 60 * Second.
Definition rdfGroupCacheKey (localSymID remoteSymID rdfGroupNo : string) : string :=
  localSymID ++ ":" ++ remoteSymID ++ ":" ++ rdfGroupNo.
Definition rdfGroupCache_get (now : Z) (localSymID remoteSymID rdfGroupNo : string) (c : gmap string (entry string))
    : option string :=
  match c !! rdfGroupCacheKey localSymID remoteSymID rdfGroupNo with
  | Some e => if expiresAt e <? now then None else Some (value_of e)
  | None => None
  end.
Definition rdfGroupCache_put (now : Z) (localSymID remoteSymID rdfGroupNo result : string)
    (c : gmap string (entry string)) : gmap string (entry string) :=
  <[rdfGroupCacheKey localSymID remoteSymID rdfGroupNo := mkEntry result (now + rdfGroupCacheTTL)]> c.

(** The first Metro group an array lists. *)
Definition isMetroGroup (g : RDFGroupIDL) : bool := bool_decide (GroupType g = "Metro" ∨ GroupType g = "METRO").
Definition list_metro (client : option C) (symID : string) : M W (option Z) :=
  match client with
  | None => ret None
  | Some c =>
      let* r := lift (GetRDFGroupList c symID None) in
      match r with
      | Err _ => ret None
      | Ok groups => ret (RDFGNumber <$> List.find isMetroGroup groups)
      end
  end.

Definition resolveRDFGroupNo (localClient remoteClient : option C) (localSymID remoteSymID rdfGroupNo : string)
    (cache : gmap string (entry string)) : M W (string * gmap string (entry string)) :=
  if decide (rdfGroupNo ≠ "") then ret (rdfGroupNo, cache)
  else
    let* now := lift Now in
    match rdfGroupCache_get now localSymID remoteSymID "" cache with
    | Some cached => ret (cached, cache)
    | None =>
        let found (n : Z) : M W (string * gmap string (entry string)) :=
          let* now := lift Now in
          ret (Itoa n, rdfGroupCache_put now localSymID remoteSymID "" (Itoa n) cache) in
        let* l := list_metro localClient localSymID in
        match l with
        | Some n => found n
        | None =>
            let* r := list_metro remoteClient remoteSymID in
            match r with Some n => found n | None => ret ("", cache) end
        end
    end.

Definition query (client : option C) (side symID rdfGroupNo : string) : M W (result error RDFGroup) :=
  match client with
  | None => ret (Err (errorString (side ++ " client is nil")))
  | Some c => lift (GetRDFGroupByID c symID rdfGroupNo)
  end.

(** The two queries run concurrently: [localFirst] is the order in which they
    reach the arrays. *)
Definition CheckMetroStateWithRDFGroups (localFirst : bool) (localClient remoteClient : option C)
    (localSymID remoteSymID localRDFGroupNo remoteRDFGroupNo : string) (cache : gmap string (entry string))
    : M W (result metro_error MetroState * gmap string (entry string)) :=
  let* r := resolveRDFGroupNo localClient remoteClient localSymID remoteSymID localRDFGroupNo cache in
  let '(localNo, cache) := r in
  if decide (localNo = "") then ret (Err ErrNoMetroRDFGroup, cache)
  else
    let remoteNo := if decide (remoteRDFGroupNo = "") then localNo else remoteRDFGroupNo in
    let askLocal := query localClient "local" localSymID localNo in
    let askRemote := query remoteClient "remote" remoteSymID remoteNo in
    if localFirst then
      let* l := askLocal in let* r := askRemote in ret (determine localSymID remoteSymID l r, cache)
    else
      let* r := askRemote in let* l := askLocal in ret (determine localSymID remoteSymID l r, cache).

Definition CheckMetroState (localFirst : bool) (localClient remoteClient : option C)
    (localSymID remoteSymID rdfGroupNo : string) (cache : gmap string (entry string)) :=
  CheckMetroStateWithRDFGroups localFirst localClient remoteClient localSymID remoteSymID rdfGroupNo rdfGroupNo cache.
End client.

(** *** The cache of checks *)
Definition MetroStateCacheTTL : Z := 30 * Second.
Definition MetroStateErrorCacheTTL : Z := 5 * Second.

Record MetroStateCache := mkStateCache {
  entries : gmap string (entry (option MetroState * option metro_error));
  ttl : Z;
}.
Definition NewMetroStateCache (t : Z) : MetroStateCache :=
  mkStateCache ∅ (if t <=? 0 then MetroStateCacheTTL else t).
Definition metroStateCacheKey (localSymID remoteSymID : string) : string := localSymID ++ ":" ++ remoteSymID.
Definition Cache_Get (now : Z) (l r : string) (c : MetroStateCache) : option (option MetroState * option metro_error) :=
  match entries c !! metroStateCacheKey l r with
  | Some e => if expiresAt e <? now then None else Some (value_of e)
  | None => None
  end.
Definition Cache_Put (now : Z) (l r : string) (state : option MetroState) (err : option metro_error) (c : MetroStateCache)
    : MetroStateCache :=
  mkStateCache (<[metroStateCacheKey l r := mkEntry (state, err) (now + ttl c)]> (entries c)) (ttl c).
Definition Cache_PutError (now : Z) (l r : string) (err : option metro_error) (c : MetroStateCache) : MetroStateCache :=
  mkStateCache (<[metroStateCacheKey l r := mkEntry (None, err) (now + MetroStateErrorCacheTTL)]> (entries c)) (ttl c).
Definition Invalidate (l r : string) (c : MetroStateCache) : MetroStateCache :=
  mkStateCache (delete (metroStateCacheKey l r) (entries c)) (ttl c).

(** ** Theorems: failover by failures *)
Definition run_failures (fs : list (Z * Z)) (m : metroClient) : metroClient :=
  fold_left (λ m f, healthHandler (fst f) (snd f) m) fs m.

Fixpoint total (fs : list (Z * Z)) : Z := match fs with [] => 0 | f :: fs => snd f + total fs end.

(** Failures that follow each other within the threshold, the first one at most
    that long after [prev]. *)
Fixpoint burst (prev : Z) (fs : list (Z * Z)) : Prop :=
  match fs with [] => True | f :: fs => prev <= fst f <= prev + failureTimeThreshold ∧ 0 <= snd f ∧ burst (fst f) fs end.

Lemma total_nonneg prev fs : burst prev fs → 0 <= total fs.
Proof. revert prev. induction fs as [|f fs IH]; intros prev; simpl; [lia|]. intros (_ & Hw & Hb%IH). lia. Qed.

Lemma healthHandler_count now w m :
  (failureCount m = 0 ∨ ∃ t, lastFailure m = Some t ∧ t <= now <= t + failureTimeThreshold) →
  0 <= failureCount m → 0 <= w → failureCount m + w < 2 ^ 31 →
  failureCount (healthHandler now w m) = failureCount m + w.
Proof.
  intros Hc Hn Hw Hb. unfold healthHandler. simpl.
  assert ((failureTimeThreshold <? match lastFailure m with Some t => timeSub now t | None => maxDuration end)
          && negb (failureCount m =? 0) = false) as ->.
  { destruct Hc as [->|(t & -> & Ht)]; [apply andb_false_r|].
    apply andb_false_iff. left. apply Z.ltb_ge. unfold timeSub, minDuration, maxDuration.
    unfold failureTimeThreshold, Minute, Second in *. lia. }
  apply wrap32_id. unfold in32. lia.
Qed.

Lemma run_failures_count prev fs m :
  (failureCount m = 0 ∨ lastFailure m = Some prev) → 0 <= failureCount m →
  burst prev fs → failureCount m + total fs < 2 ^ 31 →
  failureCount (run_failures fs m) = failureCount m + total fs
  ∧ primaryArray (run_failures fs m) = primaryArray m ∧ secondaryArray (run_failures fs m) = secondaryArray m
  ∧ activeArray (run_failures fs m) = activeArray m ∧ witnessWinner (run_failures fs m) = witnessWinner m.
Proof.
  revert prev m. induction fs as [|f fs IH]; intros prev m Hp Hn Hb Ht; simpl in *.
  - rewrite Z.add_0_r. done.
  - destruct Hb as (Hf & Hw & Hb). pose proof (total_nonneg _ _ Hb).
    assert (failureCount (healthHandler (fst f) (snd f) m) = failureCount m + snd f) as Hc.
    { apply healthHandler_count; [|lia..]. destruct Hp as [?|Hp]; [by left|right; eauto]. }
    destruct (IH (fst f) (healthHandler (fst f) (snd f) m)) as (H1 & H2); [by right|lia|done|lia|].
    rewrite H1, Hc. split; [lia|exact H2].
Qed.

(** With no Witness or Bias winner, a burst of failures moves the pair to its
    other array exactly when their weights add up to failoverThreshold, and the
    count then starts again from zero. *)
Theorem metro_failover_exact prev fs m :
  witnessWinner m = "" → failureCount m = 0 → burst prev fs → total fs < 2 ^ 31 →
  let m' := run_failures fs m in
  getActiveArray m' =
    if failoverThreshold <=? total fs then
      let other := if decide (activeArray m = primaryArray m) then secondaryArray m else primaryArray m in
      (other, set_active m' other)
    else (activeArray m, m').
Proof.
  intros Hw Hc Hb Ht m'.
  destruct (run_failures_count prev fs m) as (H1 & H2 & H3 & H4 & H5); [by left|lia|done|lia|].
  fold m' in H1, H2, H3, H4, H5. unfold getActiveArray. rewrite H5, Hw.
  rewrite (bool_decide_eq_false_2 ("" ≠ "")) by auto. simpl. rewrite H1, Hc, Z.add_0_l, H4.
  rewrite H2, H3. by destruct (failoverThreshold <=? total fs).
Qed.

(** ** Theorems: the winner of a pair *)

(** A successful check names the two arrays of the pair as winner and loser;
    the winner is an array that answered and the flags are those of its group;
    the loser is reported unreachable exactly when it did not answer. When both
    answered and only one side has an effective Witness or Bias, that side wins,
    and a winner under a Bias that is configured but not effective is the R1
    side. *)
Theorem metro_winner_spec L R local remote st :
  L ≠ R → determine L R local remote = Ok st →
  ∃ g other,
    ((WinnerSymID st = L ∧ LoserSymID st = R ∧ local = Ok g ∧ other = remote)
     ∨ (WinnerSymID st = R ∧ LoserSymID st = L ∧ remote = Ok g ∧ other = local))
    ∧ State_WitnessConfigured st = WitnessConfigured g ∧ State_WitnessEffective st = WitnessEffective g
    ∧ State_BiasConfigured st = BiasConfigured g ∧ State_BiasEffective st = BiasEffective g
    ∧ LoserUnreachable st = negb (is_ok other)
    ∧ (BiasConfigured g = true → BiasEffective g = false → WinnerSymID st = DevicePolarity g)
    ∧ (∀ g', other = Ok g' →
         WitnessEffective g' || BiasEffective g' = true → WitnessEffective g || BiasEffective g = true).
Proof.
  intros Hne Hd. unfold determine in Hd.
  destruct local as [l|le], remote as [r|re]; [|..|done].
  1: destruct (arbitrate L R l r) as [[g winner] loser] eqn:Ha.
  1: assert ((g = l ∧ winner = L ∧ loser = R ∧ (WitnessEffective r || BiasEffective r = true → WitnessEffective l || BiasEffective l = true))
      ∨ (g = r ∧ winner = R ∧ loser = L ∧ (WitnessEffective l || BiasEffective l = true → WitnessEffective r || BiasEffective r = true))) as Hcase.
  1: { unfold arbitrate in Ha.
    destruct (WitnessEffective l || BiasEffective l), (WitnessEffective r || BiasEffective r),
      (bool_decide (DevicePolarity l = L)), (bool_decide (DevicePolarity r = R)); simpl in Ha; injection Ha as <- <- <-; auto. }
  all: match type of Hd with (if ?b then _ else _) = _ => destruct b eqn:Hbias; [done|] end.
  all: injection Hd as <-; simpl.
  - apply andb_false_iff in Hbias.
    destruct Hcase as [(-> & -> & -> & Hw)|(-> & -> & -> & Hw)]; [exists l, (Ok r)|exists r, (Ok l)].
    all: split; [auto|]; do 4 (split; [done|]); split; [done|]; split; [|intros g' [= <-]; exact Hw].
    all: intros Hb1 Hb2; destruct Hbias as [Hbias|Hbias]; [rewrite Hb1, Hb2 in Hbias; done|].
    all: by apply bool_decide_eq_false, dec_stable in Hbias.
  - exists l, (Err re). split; [auto|]. do 5 (split; [done|]). split; [|done].
    intros Hb1 Hb2. rewrite Hb1, Hb2 in Hbias. by apply bool_decide_eq_false, dec_stable in Hbias.
  - exists r, (Err le). split; [auto|]. do 5 (split; [done|]). split; [|done].
    intros Hb1 Hb2. rewrite Hb1, Hb2 in Hbias. by apply bool_decide_eq_false, dec_stable in Hbias.
Qed.

(** An effective Witness on the remote side does not outrank an effective
    Bias on the local one: the R1 side wins. *)
Theorem witness_does_not_outrank_bias L R l r :
  WitnessEffective r = true → BiasEffective l = true → DevicePolarity l = L → DevicePolarity r = L → L ≠ R →
  ∃ st, determine L R (Ok l) (Ok r) = Ok st ∧ WinnerSymID st = L.
Proof.
  intros Hw Hb Hl Hr Hne. unfold determine, arbitrate. rewrite Hw, Hb, Hl, Hr, orb_true_r.
  rewrite (bool_decide_eq_true_2 (L = L)), (bool_decide_eq_false_2 (L = R)) by done. simpl.
  rewrite Hb. destruct (BiasConfigured l); simpl; eexists; done.
Qed.

(** ** Theorems: routing *)
Definition dashless (s : string) : Prop := has_char "-" s = false.

Lemma pairID_inj p1 s1 p2 s2 :
  dashless p1 → dashless s1 → dashless p2 → dashless s2 → pairID p1 s1 = pairID p2 s2 → p1 = p2 ∧ s1 = s2.
Proof.
  intros H1 H2 H3 H4 E. apply (f_equal (Split "-")) in E. unfold pairID in E.
  rewrite !Split_app, !Split_none in E by done. by injection E.
Qed.

Section routing.
Context {W C : Type} `{Pmax W C}.
Context (arrays : gmap string (PowerMax (C:=C))).

(** Everything that changes the pairs: handing out a client, a response seen by
    a watcher, a winner set or cleared, a watcher installed. *)
Inductive mstep : metros → metros → Prop :=
| ms_client p s r ms ms' :
    dashless p → dashless s → GetPowerMaxClient arrays p [s] ms = (r, ms') → mstep ms ms'
| ms_response now http failed status ms : mstep ms (roundTrip now http failed status ms)
| ms_winner l r winner ms : mstep ms (SetMetroWinner l r winner ms)
| ms_install http ms : mstep ms (installHTTPHealthWatcher http ms).

Definition no_metros : metros := mkMetros ∅ ∅.

Definition pair_ok (id : string) (m : metroClient) : Prop :=
  id = getIdentifier m ∧ dashless (primaryArray m) ∧ dashless (secondaryArray m)
  ∧ (activeArray m = primaryArray m ∨ activeArray m = secondaryArray m).

Abbreviation pairs_ok ms := (map_Forall pair_ok (clients ms)).

Lemma getActiveArray_ok id m :
  pair_ok id m → pair_ok id (snd (getActiveArray m))
  ∧ primaryArray (snd (getActiveArray m)) = primaryArray m ∧ secondaryArray (snd (getActiveArray m)) = secondaryArray m
  ∧ witnessWinner (snd (getActiveArray m)) = witnessWinner m ∧ fst (getActiveArray m) = activeArray (snd (getActiveArray m))
  ∧ (witnessWinner m ≠ "" → witnessWinner m = primaryArray m ∨ witnessWinner m = secondaryArray m →
     fst (getActiveArray m) = witnessWinner m).
Proof.
  intros (Hid & Hp & Hs & Ha). unfold getActiveArray.
  destruct (bool_decide (witnessWinner m ≠ "") && _) eqn:Hw.
  - apply andb_true_iff in Hw as [Hw1%bool_decide_eq_true Hw2%bool_decide_eq_true].
    case_decide as Hd; simpl; unfold pair_ok, getIdentifier; simpl; naive_solver.
  - assert (witnessWinner m ≠ "" → ¬ (witnessWinner m = primaryArray m ∨ witnessWinner m = secondaryArray m)) as Hno.
    { intros H1 H2. by rewrite !bool_decide_eq_true_2 in Hw. }
    destruct (failoverThreshold <=? failureCount m); [destruct (decide (activeArray m = primaryArray m))|];
      simpl; unfold pair_ok, getIdentifier; simpl; naive_solver.
Qed.

Lemma pairs_ok_alter f id (cs : gmap string metroClient) :
  (∀ m, pair_ok id m → pair_ok id (f m)) → map_Forall pair_ok cs → map_Forall pair_ok (alter f id cs).
Proof.
  intros Hf Hcs k m Hk. apply lookup_alter_Some in Hk as [(<- & m0 & Hm0 & ->)|(Hne & Hk)]; [|by apply Hcs].
  by apply Hf, Hcs.
Qed.

Lemma pair_client_ok id m ms r ms' :
  pair_ok id m → pairs_ok ms → pair_client arrays id m ms = (r, ms') →
  pairs_ok ms' ∧ ∀ c, r = Ok c → ∃ pm, arrays !! fst (getActiveArray m) = Some pm ∧ c = getClient pm.
Proof.
  intros Hm Hms. unfold pair_client. destruct (getActiveArray m) as [active m1] eqn:E1.
  pose proof (getActiveArray_ok id m Hm) as [Hm1 _]. rewrite E1 in Hm1. simpl in Hm1.
  unfold getPowerMax. destruct (arrays !! active) as [pm|] eqn:Hpm.
  - simpl. destruct (handlers ms !! GetHTTPClient (getClient pm)) as [e|].
    + destruct (getActiveArray m1) as [active2 m2] eqn:E2. intros [= <- <-]. simpl. split.
      * pose proof (getActiveArray_ok id m1 Hm1) as [Hm2 _]. rewrite E2 in Hm2.
        apply map_Forall_insert_2; [done|]. by apply map_Forall_insert_2.
      * intros c [= <-]. eauto.
    + intros [= <- <-]. simpl. split; [by apply map_Forall_insert_2|]. intros c [= <-]. eauto.
  - intros [= <- <-]. simpl. split; [by apply map_Forall_insert_2|done].
Qed.

Lemma registered_ok p s ms :
  dashless p → dashless s → pairs_ok ms →
  pair_ok (pairID p s) (default (mkMetro p s p 0 None "") (clients ms !! pairID p s)).
Proof.
  intros Hp Hs Hms. destruct (clients ms !! pairID p s) as [m|] eqn:E; [by apply Hms|].
  split; [done|]. simpl. auto.
Qed.

Lemma mstep_ok ms ms' : mstep ms ms' → pairs_ok ms → pairs_ok ms'.
Proof.
  intros Hstep Hms. destruct Hstep as [p s r ms ms' Hp Hs Hg|now http failed status ms|l r winner ms|http ms].
  - unfold GetPowerMaxClient in Hg. destruct (getPowerMax arrays p); [|by injection Hg as <- <-].
    destruct (getPowerMax arrays s); [|by injection Hg as <- <-].
    by eapply pair_client_ok in Hg as [? _]; [|apply registered_ok|].
  - unfold roundTrip. destruct (roundTripWeight failed status); [|done].
    destruct (handlers ms !! http) as [e|]; [|done]. simpl. revert Hms. generalize (clients ms).
    induction (snd <$> map_to_list e) as [|id ids IH]; intros cs Hcs; simpl; [done|].
    apply IH, pairs_ok_alter; [|done]. by intros m (? & ? & ? & ?).
  - unfold SetMetroWinner. destruct (clients ms !! pairID l r) as [m|] eqn:E; simpl.
    + apply map_Forall_insert_2; [|done]. by destruct (Hms _ _ E) as (? & ? & ? & ?).
    + apply pairs_ok_alter; [|done]. by intros m (? & ? & ? & ?).
  - unfold installHTTPHealthWatcher. by destruct (handlers ms !! http).
Qed.

Lemma mreachable_ok ms : rtc mstep no_metros ms → pairs_ok ms.
Proof.
  intros Hr. remember no_metros as ms0. assert (pairs_ok ms0) as H0 by (subst; apply map_Forall_empty).
  clear Heqms0. induction Hr; eauto using mstep_ok.
Qed.

(** C6: Whatever has happened before, the client handed out for a Metro pair is
    that of one of its two arrays, and that of the Witness/Bias winner whenever
    one of the two is designated. *)
Theorem metro_routes_to_pair ms p s c ms' :
  rtc mstep no_metros ms → dashless p → dashless s →
  GetPowerMaxClient arrays p [s] ms = (Ok c, ms') →
  ∃ a pm, (a = p ∨ a = s) ∧ arrays !! a = Some pm ∧ c = getClient pm
    ∧ ∀ m, clients ms !! pairID p s = Some m → witnessWinner m ≠ "" →
        witnessWinner m = p ∨ witnessWinner m = s → a = witnessWinner m.
Proof.
  intros Hr%mreachable_ok Hp Hs Hg. pose proof (registered_ok p s ms Hp Hs Hr) as Hm.
  unfold GetPowerMaxClient in Hg. destruct (getPowerMax arrays p); [|done]. destruct (getPowerMax arrays s); [|done].
  remember (default _ _) as m eqn:Em in Hg, Hm. destruct (pair_client_ok _ _ _ _ _ Hm Hr Hg) as [_ Hc].
  destruct (Hc c eq_refl) as (pm & Hpm & ->). exists (fst (getActiveArray m)), pm.
  destruct (getActiveArray_ok _ _ Hm) as (Hok & E1 & E2 & E3 & E4 & Hw).
  destruct Hm as (Hid & Hdp & Hds & _). apply pairID_inj in Hid as [Ep Es]; [|done..].
  destruct Hok as (_ & _ & _ & Ha). split; [rewrite E4; destruct Ha; [left|right]; congruence|].
  split; [done|]. split; [done|]. intros m0 Hm0. rewrite Hm0 in Em. simpl in Em. subst m0.
  rewrite Ep, Es. exact Hw.
Qed.
End routing.

Lemma two_handlers (p s id : string) :
  p ≠ s → snd <$> map_to_list ({[p := id; s := id]} : gmap string string) = [id; id].
Proof.
  intros Hne. symmetry. apply (replicate_Permutation 2 id). symmetry.
  rewrite (fmap_Permutation snd (map_to_list _) ((p, id) :: map_to_list {[s := id]})).
  - by rewrite map_to_list_singleton.
  - apply map_to_list_insert. by apply lookup_singleton_ne.
Qed.

(** Once a pair on one Unisphere has been routed to both of its arrays, the
    watcher of each is still registered for the same pair, and a failed request
    counts twice towards the next failover. *)
Theorem watcher_counts_twice now http failed status weight ms p s id m :
  roundTripWeight failed status = Some weight →
  handlers ms !! http = Some {[p := id; s := id]} → p ≠ s →
  clients ms !! id = Some m → failureCount m = 0 →
  ∃ m', clients (roundTrip now http failed status ms) !! id = Some m' ∧ failureCount m' = 2 * weight.
Proof.
  intros Hw Hh Hne Hm Hc. unfold roundTrip. rewrite Hw, Hh, two_handlers by done. simpl.
  assert (0 <= weight <= 99) as Hwb.
  { unfold roundTripWeight in Hw. destruct failed; [injection Hw; lia|].
    destruct (_ || _); [injection Hw; lia|]. destruct (_ =? 5); [injection Hw; lia|done]. }
  rewrite !lookup_alter_eq, Hm. simpl. eexists. split; [done|].
  assert (failureCount (healthHandler now weight m) = weight) as H1.
  { rewrite healthHandler_count; [lia|by left|lia..]. }
  rewrite healthHandler_count; rewrite ?H1; [lia| |lia..].
  right. exists now. simpl. unfold failureTimeThreshold, Minute, Second. split; [done|lia].
Qed.

(** ** Witnesses *)
Import SimArray.
Definition two_arrays : gmap string (PowerMax (C:=string)) :=
  {["A" := mkPowerMax "A" "u4p"; "B" := mkPowerMax "B" "u4p"]}.
Definition pair_at (active : string) (count : Z) (last : option Z) (winner : string) : metroClient :=
  mkMetro "A" "B" active count last winner.
Definition metros_with (m : metroClient) (hs : gmap string string) : metros :=
  mkMetros {["A-B" := m]} {["u4p" := hs]}.

Lemma mstep_to (ms ms' : metros) r :
  GetPowerMaxClient two_arrays "A" ["B"] ms = (r, ms') → mstep (W:=Sim) two_arrays ms ms'.
Proof. by apply ms_client. Qed.

Lemma mstep_failed now ms ms' :
  roundTrip now "u4p" true 0 ms = ms' → mstep (W:=Sim) two_arrays ms ms'.
Proof. intros <-. apply ms_response. Qed.

Definition failed_over : metros := metros_with (pair_at "B" 0 (Some 12) "") {["A" := "A-B"; "B" := "A-B"]}.

Lemma failed_over_reachable : rtc (mstep (W:=Sim) two_arrays) no_metros failed_over.
Proof.
  apply rtc_l with (mkMetros ∅ {["u4p" := ∅]}); [apply (ms_install _ "u4p" no_metros)|].
  apply rtc_l with (metros_with (pair_at "A" 0 None "") {["A" := "A-B"]});
    [apply mstep_to with (Ok "u4p"); vm_compute; reflexivity|].
  apply rtc_l with (metros_with (pair_at "A" 2 (Some 10) "") {["A" := "A-B"]});
    [apply (mstep_failed 10); vm_compute; reflexivity|].
  apply rtc_l with (metros_with (pair_at "A" 4 (Some 11) "") {["A" := "A-B"]});
    [apply (mstep_failed 11); vm_compute; reflexivity|].
  apply rtc_l with (metros_with (pair_at "A" 6 (Some 12) "") {["A" := "A-B"]});
    [apply (mstep_failed 12); vm_compute; reflexivity|].
  apply rtc_once, mstep_to with (Ok "u4p"). vm_compute. reflexivity.
Qed.

Lemma metro_failover_exact_witness :
  fst (getActiveArray (run_failures [(10, 2); (20, 2); (30, 1)] (pair_at "A" 0 None ""))) = "B".
Proof.
  rewrite (metro_failover_exact 0 [(10, 2); (20, 2); (30, 1)] (pair_at "A" 0 None "")).
  - reflexivity.
  - reflexivity.
  - reflexivity.
  - repeat split; vm_compute; congruence.
  - reflexivity.
Defined.

Definition group (polarity : string) (witness biasConf bias : bool) : RDFGroup :=
  mkRDFGroup 1 2 "R" 1 false polarity true witness biasConf bias.

Lemma metro_winner_spec_witness :
  ∃ (g : RDFGroup) (other : result error RDFGroup), other = Err (errorString "timeout") ∧ g = group "R" true false false.
Proof.
  destruct (metro_winner_spec "L" "R" (Err (errorString "timeout")) (Ok (group "R" true false false))
    (mkMetroState "R" "L" true true false false false true) ltac:(done) eq_refl)
    as (g & other & [(H1 & _)|(_ & _ & Hg & Ho)] & _); [done|].
  exists g, other. split; [exact Ho|]. by injection Hg.
Defined.

Lemma witness_does_not_outrank_bias_witness :
  ∃ st, determine "L" "R" (Ok (group "L" false true true)) (Ok (group "L" true false false)) = Ok st ∧ WinnerSymID st = "L".
Proof. by apply witness_does_not_outrank_bias. Defined.

Lemma metro_routes_to_pair_witness :
  ∃ a pm, (a = "A" ∨ a = "B") ∧ two_arrays !! a = Some pm ∧ "u4p" = getClient pm.
Proof.
  destruct (metro_routes_to_pair two_arrays failed_over "A" "B" "u4p" failed_over failed_over_reachable
    eq_refl eq_refl ltac:(vm_compute; reflexivity)) as (a & pm & Ha & Hpm & Hc & _).
  exists a, pm. done.
Defined.

Lemma watcher_counts_twice_witness :
  ∃ m', clients (roundTrip 20 "u4p" true 0 failed_over) !! "A-B" = Some m' ∧ failureCount m' = 4.
Proof.
  apply (watcher_counts_twice 20 "u4p" true 0 2 failed_over "A" "B" "A-B" (pair_at "B" 0 (Some 12) "")).
  - reflexivity.
  - vm_compute. reflexivity.
  - done.
  - vm_compute. reflexivity.
  - reflexivity.
Defined.
End Metro.
