(* ===== verification/Replication.v ===== *)
(** * SRDF replication: groups, protection and actions

    Models service/replication.go: naming of protected storage groups, finding
    or creating an RDF group, protecting a storage group, and the SRDF actions
    (failover, failback, reprotect, swap, suspend, establish, resume) that are
    guarded by the replication state of the storage group. *)

From stdpp Require Import base strings list.
From Stdlib Require Import ZArith Lia Ascii.
From S2P Require Import Prelude GoLib Pmax SimArray.

Module Replication.
Open Scope string_scope.
Open Scope Z_scope.
Open Scope go_scope.

(** ** Constants *)
Definition Establish := "Establish".
Definition Resume := "Resume".
Definition Suspend := "Suspend".
Definition FailOver := "Failover".
Definition Swap := "Swap".
Definition FailBack := "Failback".
Definition DefaultRDF : Z := 1.
Definition CsiRepSGPrefix := "csi-rep-sg-".
Definition csiPrefix := "csi-".
Definition Async := "ASYNC".
Definition Sync := "SYNC".
Definition Metro := "METRO".
Definition ActiveBias := "ActiveBias".
Definition Consistent := "Consistent".
Definition Synchronized := "Synchronized".
Definition FailedOver := "Failed Over".
Definition Suspended := "Suspended".
Definition Invalid := "Invalid".
Definition Split_ := "Split".

Definition getQueryMode (mode : string) : string :=
  if decide (mode = Async) then "Asynchronous"
  else if decide (mode = Sync) then "Synchronous"
  else if decide (mode = Metro) then "Active"
  else "".

(** ** Names *)

(** [None] is the panic of [mode[0]] on an empty mode. *)
Definition buildRdfLabel (mode namespace clusterPrefix : string) : option string :=
  match mode with
  | "" => None
  | String c _ =>
      Some (if decide (mode = Async) then clusterPrefix ++ namespace
            else csiPrefix ++ clusterPrefix ++ "-" ++ String c "")
  end.

Definition buildProtectionGroupID (namespace localRdfGrpNo repMode : string) : string :=
  if decide (repMode = Metro) then CsiRepSGPrefix ++ localRdfGrpNo ++ "-" ++ repMode
  else CsiRepSGPrefix ++ namespace ++ "-" ++ localRdfGrpNo ++ "-" ++ repMode.

(** Namespace, RDF group number and replication mode. *)
Definition GetRDFInfoFromSGID (storageGroupID : string) : result error (string * string * string) :=
  let sgComponents := Split "-" storageGroupID in
  let compLength := List.length sgComponents in
  if (compLength <? 5)%nat || negb (Contains storageGroupID CsiRepSGPrefix) then
    Err (errorString ("The protected SGID " ++ storageGroupID ++ " is not formed correctly"))
  else
    let namespace :=
      if (5 <? compLength)%nat then Join "-" (drop 3 (take (compLength - 2) sgComponents)) else "" in
    let nth i := default "" (sgComponents !! i) in
    Ok (namespace, nth (compLength - 2)%nat, nth (compLength - 1)%nat).

(** ** The state of a protected storage group *)
Definition isValidStateForFailOver (state : string) : bool :=
  bool_decide (state = Consistent ∨ state = Synchronized).

(** The loop over personalities and the one over states: the first non-empty
    text, and whether a later text differs from it. *)
Fixpoint first_and_mixed (seen : string) (l : list string) : string * bool :=
  match l with
  | [] => (seen, false)
  | x :: l =>
      if decide (seen = "") then first_and_mixed x l
      else if decide (seen = x) then first_and_mixed seen l
      else (seen, true)
  end.

(** State, local side is R1, mixed personalities, mixed states. *)
Definition getStateAndSRDFPersonality (psg : StorageGroupRDFG) : string * bool * bool * bool :=
  let '(localPersonality, mixedPersonalities) := first_and_mixed "" (VolumeRdfTypes psg) in
  let '(state, mixedStates) := first_and_mixed "" (States psg) in
  (state, bool_decide (localPersonality = "R1"), mixedPersonalities, mixedStates).

(** Whether a local RDF port has not been added to the request yet: the last
    port of the list decides. *)
Definition LocalRDFPortsNotAdded (payload : RDFGroupCreate) (localSymID dir : string) (port : Z) : bool :=
  match LocalPorts payload with
  | [] => true
  | _ =>
      fold_left (λ _ prt,
        bool_decide (SymmID prt ≠ localSymID) && bool_decide (DirID prt ≠ dir) && bool_decide (PortNum prt ≠ port))
        (LocalPorts payload) false
  end.

Section actions.
Context {W C : Type} `{Pmax W C}.

Definition fetchError (sgName : string) (err : error) : error :=
  statusError Internal ("Failed to fetch replication state for SG (" ++ sgName ++ ") - Error (" ++ Error err ++ ")").
Definition mixedPersonalityError (sgName state : string) : error :=
  statusError FailedPrecondition ("SG Name: " ++ sgName ++ ", state: " ++ state ++ " - mixed SRDF personalities. can't perform SRDF operations at SG level").
Definition mixedStatesError (sgName : string) (psg : StorageGroupRDFG) : error :=
  statusError FailedPrecondition ("SG Name: " ++ sgName ++ ", states: " ++ Sprint_strings (States psg) ++ " - mixed SRDF states. can't perform planned SRDF operations at SG level").
Definition modifyError (c : code) (action sgName : string) (err : error) : error :=
  statusError c (action ++ ": Failed to modify SG (" ++ sgName ++ ") - Error (" ++ Error err ++ ")").
Definition unableError (sgName state : string) : error :=
  statusError Internal ("SG name: " ++ sgName ++ ",state: " ++ state ++ ". driver unable to determine next SRDF action").

(** Whether the group was already in the desired state, its RDF information
    then, and the error. *)
Definition outcome : Type := bool * option StorageGroupRDFG * option error.
Definition failed (e : error) : outcome := (false, None, Some e).
Definition idempotent (psg : StorageGroupRDFG) : outcome := (true, Some psg, None).
Definition done_ : outcome := (false, None, None).

Definition execute (c : C) (symID action sgName rdfGrpNo : string) (force exempt bias : bool) : M W (option error) :=
  lift (ExecuteReplicationActionOnSG c symID action sgName rdfGrpNo force exempt bias).

Definition Failover (c : C) (symID sgName rdfGrpNo : string) (toLocal unplanned withoutSwap : bool) : M W outcome :=
  let* info := lift (GetStorageGroupRDFInfo c symID sgName rdfGrpNo) in
  match info with
  | Err err => ret (failed (fetchError sgName err))
  | Ok psg =>
      let '(state, isR1, mixedPersonalities, mixedStates) := getStateAndSRDFPersonality psg in
      if mixedPersonalities then ret (failed (mixedPersonalityError sgName state))
      else if mixedStates && negb unplanned then ret (failed (mixedStatesError sgName psg))
      else if negb unplanned then
        if withoutSwap then
          if (isR1 && negb toLocal) || (negb isR1 && toLocal) then
            if decide (state = Consistent) then
              let* err := execute c symID FailOver sgName rdfGrpNo false true false in
              match err with
              | Some e => ret (failed (modifyError Internal "Fail over" sgName e))
              | None => ret done_
              end
            else if decide (state = FailedOver) then ret (idempotent psg)
            else
              let* err := execute c symID FailOver sgName rdfGrpNo unplanned true false in
              match err with
              | Some e => ret (failed (statusError FailedPrecondition
                  ("Unable to perform Fail over for SG Name: " ++ sgName ++ ", state: " ++ Error e ++ ". An attempt failed with")))
              | None => ret done_
              end
          else if (isR1 && negb toLocal) || (isR1 && toLocal) then
            ret (failed (statusError FailedPrecondition "Can't perform planned failover without Swap to the target site as it is already R1"))
          else ret done_
        else
          if (toLocal && isR1) || (negb toLocal && negb isR1) then
            if decide (state = Consistent) then ret (idempotent psg)
            else if decide (state = Suspended) then ret (idempotent psg)
            else ret (failed (unableError sgName state))
          else if (toLocal && negb isR1) || (negb toLocal && isR1) then
            let swap :=
              let* err := execute c symID Swap sgName rdfGrpNo unplanned true false in
              match err with
              | Some e => ret (failed (modifyError Internal "Fail over" sgName e))
              | None => ret done_
              end in
            if decide (state = FailedOver) then swap
            else if isValidStateForFailOver state then
              let* err := execute c symID FailOver sgName rdfGrpNo unplanned true false in
              match err with
              | Some e => ret (failed (modifyError Internal "Fail over" sgName e))
              | None => swap
              end
            else
              let msg := "SG name: " ++ sgName ++ ", state: " ++ state ++ ", can't perform planned failover with Swap in this state" in
              if decide (state = Suspended ∨ state = Invalid) then ret (failed (statusError Aborted msg))
              else ret (failed (statusError FailedPrecondition msg))
          else ret done_
      else
        if (isR1 && toLocal) || (negb isR1 && negb toLocal) then ret (idempotent psg)
        else
          let* err := execute c symID FailOver sgName rdfGrpNo true true false in
          match err with
          | Some e => ret (failed (modifyError Internal "Fail over" sgName e))
          | None => ret done_
          end
  end.

Definition Failback (c : C) (symID sgName rdfGrpNo : string) (toLocal : bool) : M W outcome :=
  let* info := lift (GetStorageGroupRDFInfo c symID sgName rdfGrpNo) in
  match info with
  | Err err => ret (failed (fetchError sgName err))
  | Ok psg =>
      let '(state, isR1, mixedPersonalities, mixedStates) := getStateAndSRDFPersonality psg in
      if mixedPersonalities then ret (failed (mixedPersonalityError sgName state))
      else if mixedStates then ret (failed (mixedStatesError sgName psg))
      else if (toLocal && isR1) || (negb toLocal && negb isR1) then
        if decide (state = Consistent ∨ state = Synchronized) then ret (idempotent psg)
        else
          let* err := execute c symID FailBack sgName rdfGrpNo false true false in
          match err with
          | Some e =>
              if decide (state ≠ FailedOver) then
                ret (failed (statusError FailedPrecondition ("Incorrect state to perform failback for SG name: "
                  ++ sgName ++ ", state: " ++ state ++ ". Failed with error: " ++ Error e)))
              else ret (failed (modifyError Internal "Fail back" sgName e))
          | None => ret done_
          end
      else if (negb toLocal && isR1) || (toLocal && negb isR1) then
        ret (true, Some psg, Some (statusError FailedPrecondition "Can't perform planned failback to the target site as it is R2"))
      else ret done_
  end.

Definition Reprotect (c : C) (symID sgName rdfGrpNo : string) (toLocal : bool) : M W outcome :=
  let* info := lift (GetStorageGroupRDFInfo c symID sgName rdfGrpNo) in
  match info with
  | Err err => ret (failed (fetchError sgName err))
  | Ok psg =>
      let '(state, isR1, mixedPersonalities, mixedStates) := getStateAndSRDFPersonality psg in
      if mixedPersonalities then ret (true, Some psg, Some (mixedPersonalityError sgName state))
      else if mixedStates then ret (failed (mixedStatesError sgName psg))
      else if (toLocal && isR1) || (negb toLocal && negb isR1) then
        if decide (state = Consistent ∨ state = Synchronized) then ret (idempotent psg)
        else
          let* err := execute c symID Resume sgName rdfGrpNo true false false in
          match err with
          | Some e =>
              let* err1 := execute c symID Establish sgName rdfGrpNo true false false in
              match err1 with
              | Some e1 =>
                  ret (failed (statusError Internal ("Both Resume & Establish failed for SG " ++ sgName
                    ++ " with errors - " ++ Error e ++ " & " ++ Error e1)))
              | None => ret done_
              end
          | None => ret done_
          end
      else if (toLocal && negb isR1) || (negb toLocal && isR1) then
        ret (true, Some psg, Some (statusError FailedPrecondition
          ("SG Name: " ++ sgName ++ ", state: " ++ state ++ " - Can't reprotect volumes at site which is R2")))
      else ret done_
  end.

Definition Swap_ (c : C) (symID sgName rdfGrpNo : string) (toLocal : bool) : M W outcome :=
  let* info := lift (GetStorageGroupRDFInfo c symID sgName rdfGrpNo) in
  match info with
  | Err err => ret (failed (fetchError sgName err))
  | Ok psg =>
      let '(state, isR1, mixedPersonalities, mixedStates) := getStateAndSRDFPersonality psg in
      if mixedPersonalities then ret (failed (mixedPersonalityError sgName state))
      else if mixedStates then ret (failed (mixedStatesError sgName psg))
      else if decide (state = Consistent ∨ state = Synchronized) then
        ret (failed (statusError FailedPrecondition ("SG Name: " ++ sgName ++ ", states: "
          ++ Sprint_strings (States psg) ++ " - Incorrect SRDF state to perform a Swap")))
      else if (toLocal && negb isR1) || (negb toLocal && isR1) then
        let* err := execute c symID Swap sgName rdfGrpNo false false false in
        match err with
        | Some e => ret (failed (modifyError Internal "Swap" sgName e))
        | None => ret done_
        end
      else if (toLocal && isR1) || (negb toLocal && negb isR1) then
        if decide (state = Suspended) then ret (idempotent psg)
        else ret (failed (unableError sgName state))
      else ret done_
  end.

(** Whether the storage group already is in the state the action leads to; an
    empty list of states panics. *)
Definition validateRDFState (c : C) (symID action sgName rdfGrpNo : string) : M W (result error bool) :=
  let* info := lift (GetStorageGroupRDFInfo c symID sgName rdfGrpNo) in
  match info with
  | Err err => ret (Err (fetchError sgName err))
  | Ok psg =>
      let* state := index (States psg) 0 in
      ret (Ok (
        if decide (action = Resume) then bool_decide (state = Consistent ∨ state = Synchronized ∨ state = ActiveBias)
        else if decide (action = Establish) then bool_decide (state = Consistent ∨ state = Synchronized ∨ state = ActiveBias)
        else if decide (action = Suspend) then bool_decide (state = Suspended)
        else if decide (action = FailOver) then bool_decide (state = FailedOver)
        else if decide (action = FailBack) then bool_decide (state = Consistent)
        else false))
  end.

(** The three actions that only need the current state. *)
Definition guarded (c : C) (symID action sgName rdfGrpNo : string) (exempt bias : bool) : M W (option error) :=
  let* valid := validateRDFState c symID action sgName rdfGrpNo in
  match valid with
  | Err err => ret (Some err)
  | Ok inDesiredState =>
      if inDesiredState then ret None
      else
        let* err := execute c symID action sgName rdfGrpNo false exempt bias in
        match err with
        | Some e => ret (Some (modifyError Internal action sgName e))
        | None => ret None
        end
  end.
Definition suspend (c : C) (symID sgName rdfGrpNo : string) : M W (option error) :=
  guarded c symID Suspend sgName rdfGrpNo false false.
Definition establish (c : C) (symID sgName rdfGrpNo : string) (bias : bool) : M W (option error) :=
  guarded c symID Establish sgName rdfGrpNo false bias.
Definition resume (c : C) (symID sgName rdfGrpNo : string) : M W (option error) :=
  guarded c symID Resume sgName rdfGrpNo true false.

(** ** RDF groups *)
Definition noGroups (err : error) : bool := Contains (Error err) "No SRDF Groups found for Array".

(** The group of the list with the label of the pair and mode. *)
Fixpoint find_label (rdfLabel : string) (l : list RDFGroupIDL) : option RDFGroupIDL :=
  match l with
  | [] => None
  | g :: l => if decide (rdfLabel = Label g) then Some g else find_label rdfLabel l
  end.

(** The next free group number of one array. *)
Definition free_group (c : C) (symID : string) : M W (result error Z) :=
  let* free := lift (GetFreeLocalAndRemoteRDFg c symID) in
  match free with
  | Err err => if noGroups err then ret (Ok DefaultRDF) else ret (Err err)
  | Ok groups => let* g := index groups 0 in ret (Ok g)
  end.

(** The ports of the remote array found from one local port. *)
Definition add_remote (c : C) (localSymID remoteSymID dir port : string) (remArray : RDFPortDetails)
    (payload : RDFGroupCreate) : M W (RDFGroupCreate + error) :=
  if decide (SymmID remArray = remoteSymID) then
    let portNo := Atoi_value port in
    let* details := lift (GetLocalRDFPortDetails c localSymID dir portNo) in
    match details with
    | Err err => ret (inr err)
    | Ok d =>
        let localPorts :=
          if LocalRDFPortsNotAdded payload localSymID dir portNo then (LocalPorts payload ++ [d])%list
          else LocalPorts payload in
        ret (inl (mkRDFGroupCreate (RDFLabel payload) (LocalRDFNum payload) (RemoteRDFNum payload)
          localPorts (RemotePorts payload ++ [remArray])%list))
    end
  else ret (inl payload).

Definition scan_port (c : C) (localSymID remoteSymID dir port : string) (payload : RDFGroupCreate)
    : M W (RDFGroupCreate + error) :=
  let* san := lift (GetRemoteRDFPortOnSAN c localSymID dir port) in
  match san with
  | Err err => ret (inr err)
  | Ok remotePorts => forM (add_remote c localSymID remoteSymID dir port) remotePorts payload
  end.

Definition scan_dir (c : C) (localSymID remoteSymID dir : string) (payload : RDFGroupCreate)
    : M W (RDFGroupCreate + error) :=
  let* online := lift (GetLocalOnlineRDFPorts c dir localSymID) in
  match online with
  | Err err => ret (inr err)
  | Ok ports => forM (scan_port c localSymID remoteSymID dir) ports payload
  end.

Definition emptyPayload : RDFGroupCreate := mkRDFGroupCreate "" 0 0 [] [].

(** Creating a new pair of groups once none was found. *)
Definition create_group (c : C) (rdfLabel localSymID remoteSymID : string) : M W (result error (string * string)) :=
  let* free := free_group c localSymID in
  match free with
  | Err err => ret (Err err)
  | Ok localRDFG =>
  let* free' := free_group c remoteSymID in
  match free' with
  | Err err => ret (Err err)
  | Ok remoteRDFG =>
  let* dirs := lift (GetLocalOnlineRDFDirs c localSymID) in
  match dirs with
  | Err err => ret (Err err)
  | Ok onlineDirList =>
  let* scanned := forM (scan_dir c localSymID remoteSymID) onlineDirList emptyPayload in
  match scanned with
  | inr err => ret (Err err)
  | inl payload =>
      match onlineDirList with
      | [] => ret (Ok ("", ""))
      | _ =>
          let* err := lift (ExecuteCreateRDFGroup c localSymID
            (mkRDFGroupCreate rdfLabel localRDFG remoteRDFG (LocalPorts payload) (RemotePorts payload))) in
          match err with
          | Some e => ret (Err e)
          | None => ret (Ok (Itoa localRDFG, Itoa remoteRDFG))
          end
      end
  end end end end.

Definition GetOrCreateRDFGroup (clusterPrefix : string) (c : C) (localSymID remoteSymID repMode namespace : string)
    : M W (result error (string * string)) :=
  match buildRdfLabel repMode namespace clusterPrefix with
  | None => panic
  | Some rdfLabel =>
      if 10 <? slen rdfLabel then
        ret (Err (errorString ("rdfLabel: " ++ rdfLabel ++ " for mode: " ++ repMode
          ++ " exceeds 10 char limit, rename the namespace within 7 char or use pre-existing RDFG via storage class")))
      else
        let* groups := lift (GetRDFGroupList c localSymID (Some remoteSymID)) in
        match groups with
        | Err err =>
            if noGroups err then create_group c rdfLabel localSymID remoteSymID else ret (Err err)
        | Ok rDFGList =>
            match find_label rdfLabel rDFGList with
            | Some g =>
                let* rdfg := lift (GetRDFGroupByID c localSymID (Itoa (RDFGNumber g))) in
                match rdfg with
                | Err err => ret (Err err)
                | Ok rDFG => ret (Ok (Itoa (RdfgNumber rDFG), Itoa (RemoteRdfgNumber rDFG)))
                end
            | None => create_group c rdfLabel localSymID remoteSymID
            end
        end
  end.

(** ** Protecting a storage group *)
Definition verifyAndDeleteRemoteStorageGroup (c : C) (remoteSymID name : string) : M W (option error) :=
  let* sg := lift (GetStorageGroup c remoteSymID name) in
  match sg with
  | Err _ => ret None
  | Ok sg =>
      if 0 <? NumOfVolumes sg then
        ret (Some (errorString ("Remote Storage Group (" ++ name ++ ") has devices, can not protect SG")))
      else
        let* err := lift (DeleteStorageGroup c remoteSymID name) in
        match err with
        | Some e => ret (Some (errorString ("Delete Remote Storage Group (" ++ name ++ ") failed (" ++ Error e ++ ")")))
        | None => ret None
        end
  end.

(** The body of ProtectStorageGroup, with the lock of the storage group held. *)
Definition ProtectStorageGroup (c : C) (symID remoteSymID storageGroupName remoteStorageGroupName
    remoteServiceLevel rdfGrpNo rdfMode : string) (bias : bool) : M W (option error) :=
  let* psg := lift (GetProtectedStorageGroup c symID storageGroupName) in
  match psg with
  | Err err => ret (Some (statusError Internal ("ProtectStorageGroup: GetProtectedStorageGroup failed for ("
      ++ symID ++ ") SG: (" ++ storageGroupName ++ "). Error (" ++ Error err ++ ")")))
  | Ok sg =>
      if Rdf sg then ret None
      else
      let* group := lift (GetRDFGroupByID c symID rdfGrpNo) in
      match group with
      | Err err => ret (Some (statusError Internal ("Could not get rdf group (" ++ rdfGrpNo
          ++ ") information on symID (" ++ symID ++ "). Error (" ++ Error err ++ ")")))
      | Ok rdfg =>
          if RDFG_Async rdfg && (0 <? NumDevices rdfg) then
            ret (Some (statusError Internal ("RDF group (" ++ rdfGrpNo
              ++ ") cannot be used for ASYNC, as it already has volume pairing")))
          else
            let* err := verifyAndDeleteRemoteStorageGroup c remoteSymID remoteStorageGroupName in
            match err with
            | Some e => ret (Some (statusError Internal ("Could not verify remote storage group ("
                ++ storageGroupName ++ ") - Error (" ++ Error e ++ ")")))
            | None =>
                let* err := lift (CreateSGReplica c symID remoteSymID rdfMode rdfGrpNo storageGroupName
                  remoteStorageGroupName remoteServiceLevel bias) in
                match err with
                | Some e => ret (Some (statusError Internal ("Could not create storage group replica for ("
                    ++ storageGroupName ++ ") - Error (" ++ Error e ++ ")")))
                | None => ret None
                end
            end
      end
  end.

(** ** Reference: what a failover does

    [failover_decision] decides from the observed state: SRDF actions (with their
    force flag), nothing because the group is in the desired state, a refusal, or
    nothing at all although the target cannot take over ([Overlooked], a success
    without an action); [run_plan] issues actions until one fails. *)
Inductive decision := Issue (plan : list (string * bool)) | InPlace | Refused | Overlooked.
Definition failover_decision (psg : StorageGroupRDFG) (toLocal unplanned withoutSwap : bool) : decision :=
  let '(state, isR1, mixedPersonalities, mixedStates) := getStateAndSRDFPersonality psg in
  if mixedPersonalities || (mixedStates && negb unplanned) then Refused
  else if Bool.eqb isR1 toLocal then
    (* the target is R1 already *)
    if unplanned then InPlace
    else if withoutSwap then if toLocal then Refused else Overlooked
    else if decide (state = Consistent ∨ state = Suspended) then InPlace else Refused
  else if unplanned then Issue [(FailOver, true)]
  else if withoutSwap then if decide (state = FailedOver) then InPlace else Issue [(FailOver, false)]
  else if decide (state = FailedOver) then Issue [(Swap, false)]
  else if decide (state = Consistent ∨ state = Synchronized) then Issue [(FailOver, false); (Swap, false)]
  else Refused.

Fixpoint run_plan (c : C) (symID sgName rdfGrpNo : string) (plan : list (string * bool)) (w : W) : bool * W :=
  match plan with
  | [] => (true, w)
  | (action, force) :: plan =>
      match ExecuteReplicationActionOnSG c symID action sgName rdfGrpNo force true false w with
      | (None, w') => run_plan c symID sgName rdfGrpNo plan w'
      | (Some _, w') => (false, w')
      end
  end.

(** What a failover answers and leaves behind, from the world [w1] in which the
    state has been read. *)
Definition decided (c : C) (symID sgName rdfGrpNo : string) (psg : StorageGroupRDFG) (d : decision) (w1 : W)
    (r : option (outcome * W)) : Prop :=
  match d with
  | Issue plan =>
      let '(ok, w2) := run_plan c symID sgName rdfGrpNo plan w1 in
      if ok then r = Some (done_, w2) else ∃ e, r = Some (failed e, w2)
  | InPlace => r = Some (idempotent psg, w1)
  | Refused => ∃ e, r = Some (failed e, w1)
  | Overlooked => r = Some (done_, w1)
  end.

(** ** Theorems *)


(** A planned failover without swap whose target already is R1 is refused
    when the target is the local array, but reported as a success, with nothing
    done, when it is the remote one. *)
Theorem failover_to_remote_r1_silent c symID sgName rdfGrpNo w psg w1 state isR1 :
  GetStorageGroupRDFInfo c symID sgName rdfGrpNo w = (Ok psg, w1) →
  getStateAndSRDFPersonality psg = (state, isR1, false, false) →
  Failover c symID sgName rdfGrpNo isR1 false true w =
    Some (if isR1 then failed (statusError FailedPrecondition "Can't perform planned failover without Swap to the target site as it is already R1")
          else done_, w1).
Proof.
  intros Hinfo Hs. unfold Failover, mbnd, lift, ret. rewrite Hinfo, Hs. by destruct isR1.
Qed.

Lemma not_added_same payload localSymID dir port :
  LocalPorts payload ≠ [] → Forall (λ p, SymmID p = localSymID) (LocalPorts payload) →
  LocalRDFPortsNotAdded payload localSymID dir port = false.
Proof.
  intros Hne Hall. unfold LocalRDFPortsNotAdded.
  destruct (LocalPorts payload) as [|p ps] eqn:E; [done|].
  clear E Hne. generalize false at 1. revert p Hall. induction ps as [|q ps IH]; intros p Hall b; simpl.
  - apply Forall_cons in Hall as [-> _]. by rewrite (bool_decide_eq_false_2 (localSymID ≠ localSymID)) by auto.
  - apply Forall_cons in Hall as [_ Hall]. apply (IH q Hall b).
Qed.

Definition single_local (localSymID : string) (payload : RDFGroupCreate) : Prop :=
  (List.length (LocalPorts payload) <= 1)%nat ∧ Forall (λ p, SymmID p = localSymID) (LocalPorts payload).

Lemma forM_inv {A S R} (P : S → Prop) (body : A → S → M W (S + R)) l s w r w' :
  (∀ x s w s' w', P s → body x s w = Some (inl s', w') → P s') →
  P s → forM body l s w = Some (inl r, w') → P r.
Proof.
  intros Hb. revert s w. induction l as [|x l IH]; intros s w Hs; simpl.
  - by intros [= <- <-].
  - intros (a & w2 & Hx & Hk)%mbnd_Some. destruct a as [s'|e]; [|done].
    eapply IH; [|exact Hk]. by eapply Hb.
Qed.

Section ports.
Context (c : C) (localSymID remoteSymID : string).
Hypothesis details_local : ∀ dir port w d w',
  GetLocalRDFPortDetails c localSymID dir port w = (Ok d, w') → SymmID d = localSymID.

Lemma add_remote_single dir port rem payload w payload' w' :
  single_local localSymID payload →
  add_remote c localSymID remoteSymID dir port rem payload w = Some (inl payload', w') →
  single_local localSymID payload'.
Proof.
  intros [Hlen Hall]. unfold add_remote, lift, ret. case_decide; [|by intros [= <- <-]].
  unfold mbnd. destruct (GetLocalRDFPortDetails _ _ _ _ w) as [[d|e] w1] eqn:Hd; [|done].
  intros [= <- <-]. unfold single_local. cbn [LocalPorts].
  destruct (decide (LocalPorts payload = [])) as [E|E].
  - unfold LocalRDFPortsNotAdded. rewrite E. simpl. split; [lia|].
    constructor; [by eapply details_local|constructor].
  - by rewrite not_added_same.
Qed.

Lemma scan_single dirs w payload w' :
  forM (scan_dir c localSymID remoteSymID) dirs emptyPayload w = Some (inl payload, w') →
  single_local localSymID payload.
Proof.
  apply (forM_inv (single_local localSymID)); [|split; [simpl; lia|constructor]].
  intros dir s w2 s' w2' Hs. unfold scan_dir, lift, ret, mbnd.
  destruct (GetLocalOnlineRDFPorts c dir localSymID w2) as [[ports|e] w3]; [|done].
  apply (forM_inv (single_local localSymID)); [|done].
  intros port s2 w4 s2' w4' Hs2. unfold scan_port, lift, ret, mbnd.
  destruct (GetRemoteRDFPortOnSAN _ _ _ _ w4) as [[rems|e] w5]; [|done].
  apply (forM_inv (single_local localSymID)); [|done].
  intros rem s3 w6 s3' w6'. apply add_remote_single.
Qed.
End ports.

(** The request for a new RDF group names at most one local port, whatever
    the number of online directors and ports zoned to the remote array: with the
    details of a local port naming the local array, LocalRDFPortsNotAdded lets
    only the first one in. *)
Theorem rdf_group_single_local_port c localSymID remoteSymID dirs w payload w' :
  (∀ dir port w d w', GetLocalRDFPortDetails c localSymID dir port w = (Ok d, w') → SymmID d = localSymID) →
  forM (scan_dir c localSymID remoteSymID) dirs emptyPayload w = Some (inl payload, w') →
  (List.length (LocalPorts payload) <= 1)%nat.
Proof. intros Hd Hs. by eapply scan_single in Hs as [? _]. Qed.
End actions.

Lemma components_of (c1 l : list string) rdfNo mode s :
  Split "-" s = (c1 ++ l ++ [rdfNo; mode])%list → List.length c1 = 3%nat →
  Contains s CsiRepSGPrefix = true →
  GetRDFInfoFromSGID s = Ok (if decide (l = []) then "" else Join "-" l, rdfNo, mode).
Proof.
  intros Hs H3 Hc. unfold GetRDFInfoFromSGID. rewrite Hs, Hc, !length_app, H3. simpl List.length.
  set (n := List.length l).
  assert ((3 + (n + 2) <? 5)%nat = false) as -> by (apply Nat.ltb_ge; lia).
  replace (3 + (n + 2) - 2)%nat with (3 + n)%nat by lia.
  replace (3 + (n + 2) - 1)%nat with (3 + (n + 1))%nat by lia.
  cbn [orb negb]. rewrite !lookup_app_r by lia. rewrite H3.
  fold n. replace (3 + n - 3 - n)%nat with 0%nat by lia. replace (3 + (n + 1) - 3 - n)%nat with 1%nat by lia.
  rewrite take_app_ge, H3 by lia. replace (3 + n - 3)%nat with n by lia.
  rewrite take_app_length', drop_app_length' by done.
  case_decide as Hl.
  - subst n. rewrite Hl. done.
  - destruct (Nat.ltb_spec 5 (3 + (n + 2))); [done|]. subst n. destruct l; [done|]. simpl in *. lia.
Qed.

(** The namespace, group number and mode of a protected storage group are
    recovered from the name built for it (the name of a Metro group has no
    namespace). *)
Theorem protection_group_roundtrip namespace rdfNo mode :
  has_char "-" rdfNo = false → has_char "-" mode = false →
  GetRDFInfoFromSGID (buildProtectionGroupID namespace rdfNo mode)
  = Ok (if decide (mode = Metro) then "" else namespace, rdfNo, mode).
Proof.
  intros Hno Hmode. unfold buildProtectionGroupID. case_decide.
  - rewrite (components_of ["csi"; "rep"; "sg"] [] rdfNo mode); [done| |done|by apply Contains_prefix].
    change (Split "-" (CsiRepSGPrefix ++ rdfNo ++ "-" ++ mode))
      with ("csi" :: "rep" :: "sg" :: Split "-" (rdfNo ++ "-" ++ mode)).
    simpl. rewrite Split_app, (Split_none _ mode) by done. done.
  - rewrite (components_of ["csi"; "rep"; "sg"] (Split "-" namespace) rdfNo mode);
      [| |done|by apply Contains_prefix].
    + rewrite decide_False by apply Split_nonempty. by rewrite Join_Split.
    + change (Split "-" (CsiRepSGPrefix ++ namespace ++ "-" ++ rdfNo ++ "-" ++ mode))
        with ("csi" :: "rep" :: "sg" :: Split "-" (namespace ++ "-" ++ rdfNo ++ "-" ++ mode)).
      simpl. do 3 f_equal. rewrite Split_app_gen, Split_app, (Split_none _ mode) by done. done.
Qed.

(** ** Witnesses *)
Import SimArray.
Definition rdf_state (personality state : string) : Sim := sim [] (mkStorageGroupRDFG [personality] [state]).


Lemma failover_to_remote_r1_silent_witness :
  Failover "c" "local" "sg" "1" false false true (rdf_state "R2" Consistent) = Some (done_, rdf_state "R2" Consistent).
Proof.
  apply (failover_to_remote_r1_silent "c" "local" "sg" "1" (rdf_state "R2" Consistent)
    (mkStorageGroupRDFG ["R2"] [Consistent]) (rdf_state "R2" Consistent) Consistent false); reflexivity.
Defined.

Definition two_ports : RDFGroupCreate :=
  mkRDFGroupCreate "" 0 0 [mkRDFPortDetails "local" "OR-1C" 4]
    [mkRDFPortDetails "remote" "OR-1C" 9; mkRDFPortDetails "remote" "OR-1C" 9;
     mkRDFPortDetails "remote" "OR-2C" 9; mkRDFPortDetails "remote" "OR-2C" 9].

Lemma rdf_group_single_local_port_witness :
  (List.length (LocalPorts two_ports) <= 1)%nat ∧ List.length (RemotePorts two_ports) = 4%nat.
Proof.
  split; [|reflexivity].
  apply (rdf_group_single_local_port "c" "local" "remote" ["OR-1C"; "OR-2C"]
    (rdf_state "R1" Consistent) two_ports (rdf_state "R1" Consistent)).
  - intros dir port w d w' H. cbn in H. injection H as <- _. reflexivity.
  - vm_compute. reflexivity.
Defined.

Lemma protection_group_roundtrip_witness :
  GetRDFInfoFromSGID (buildProtectionGroupID "ns-1" "13" Async) = Ok ("ns-1", "13", Async).
Proof. exact (protection_group_roundtrip "ns-1" "13" Async eq_refl eq_refl). Defined.
End Replication.
