(* ===== verification/VolumeID.v ===== *)
(** * Volume and snapshot identifiers

    Models the identifiers of service/controller.go: the CSI volume id built
    from its parts and parsed back, the volume and snapshot names on the array
    and the ids of Fibre Channel initiators. *)

From stdpp Require Import base strings list.
From Stdlib Require Import ZArith Lia Ascii.
From S2P Require Import Prelude GoLib PowerMax.

Module VolumeID.
Import PowerMax.
Open Scope string_scope.
Open Scope Z_scope.

Definition CsiVolumePrefix := "csi-".
Definition MaxSnapIdentifierLength : Z := 32.

Definition createCSIVolumeID (clusterPrefix volumeName symID devID : string) : string :=
  CsiVolumePrefix ++ clusterPrefix ++ "-" ++ volumeName ++ "-" ++ symID ++ "-" ++ devID.

(** The identifier CreateVolume gives a volume of the array; [None] is a panic
    of truncateString. *)
Definition volumeIdentifier (clusterPrefix volumeName namespace : string) : option string :=
  let volumePrefix := clusterPrefix in
  let maxLength := MaxVolIdentifierLength - slen volumePrefix - slen clusterPrefix - slen CsiVolumePrefix - 1 in
  shortVolumeName ← truncateString volumeName maxLength;
  let namespaceSuffix := if decide (namespace ≠ "") then "-" ++ namespace else "" in
  Some (CsiVolumePrefix ++ clusterPrefix ++ "-" ++ shortVolumeName ++ namespaceSuffix).

(** The name CreateSnapshot gives a snapshot of the array. *)
Definition snapshotID (clusterPrefix snapName : string) : option string :=
  let maxLength := MaxSnapIdentifierLength - slen clusterPrefix - slen CsiVolumePrefix - 5 in
  shortSnapName ← truncateString snapName maxLength;
  Some (CsiVolumePrefix ++ clusterPrefix ++ "-" ++ shortSnapName).

Record csiID := mkCsiID {
  volName : string;
  arrayID : string;
  devID : string;
  remoteSymID : string;
  remoteVolID : string;
}.

(** The parts of the array and the device when they name a remote one too;
    [None] is a slice index out of range. *)
Definition with_remote (name array dev : string) : option csiID :=
  if Contains array ":" then
    let arrays := Split ":" array in
    let vols := Split ":" dev in
    match arrays, vols with
    | a :: ra :: _, d :: rd :: _ => Some (mkCsiID name a d ra rd)
    | _, _ => None
    end
  else Some (mkCsiID name array dev "" "").

Definition malformed (id : string) : error := errorString ("The CSI ID " ++ id ++ " is not formed correctly").

Definition parseCsiID (id : string) : option (result error csiID) :=
  if decide (id = "") then Some (Err (errorString "A Volume ID is required for the request"))
  else
    let idComponents := Split "-" id in
    let n := List.length idComponents in
    let nth i := default "" (idComponents !! i) in
    if (n <? 3)%nat then Some (Err (malformed id))
    else
      let lastElem := nth (n - 1)%nat in
      let scndLastElem := nth (n - 2)%nat in
      let isFile := (5 <? slen lastElem) && (slen scndLastElem <? 12) in
      if isFile && (n <? 6)%nat then Some (Err (errorString ("the CSI ID " ++ id ++ " is not formed correctly")))
      else
        let devID := if isFile then Join "-" (drop (n - 5) idComponents) else lastElem in
        let arrayID := if isFile then nth (n - 6)%nat else scndLastElem in
        let lengthOfTrailer := slen devID + slen arrayID + 2 in
        if slen id <=? lengthOfTrailer + 2 then Some (Err (malformed id))
        else
          match with_remote (stake (Z.to_nat (slen id - lengthOfTrailer)) id) arrayID devID with
          | Some parts => Some (Ok parts)
          | None => None
          end.

(** Director, director and port, initiator. *)
Definition splitFibreChannelInitiatorID (initiatorID : string) : result error (string * string * string) :=
  match Split ":" initiatorID with
  | [dir; port; initiator] => Ok (dir, dir ++ ":" ++ port, initiator)
  | _ => Err (errorString ("Failed to parse the initiator ID - " ++ initiatorID))
  end.

(** ** Round trip *)
Lemma stake_app_str s t : stake (String.length s) (s ++ t) = s.
Proof. induction s as [|c s IH]; [by destruct t|]. rewrite app_str_cons. simpl. by rewrite IH. Qed.

Lemma slen_app s t : slen (s ++ t) = slen s + slen t.
Proof. unfold slen. rewrite app_str_length. lia. Qed.

(** The last two components of an id. *)
Lemma parse_last_two pre sym dev :
  has_char "-" sym = false → has_char "-" dev = false → 3 <= slen pre →
  (slen dev <= 5 ∨ 12 <= slen sym) →
  parseCsiID (pre ++ "-" ++ sym ++ "-" ++ dev)
  = match with_remote pre sym dev with Some parts => Some (Ok parts) | None => None end.
Proof.
  intros Hs Hd Hpre Hlen. unfold parseCsiID.
  set (id := pre ++ "-" ++ sym ++ "-" ++ dev).
  assert (slen id = slen pre + slen sym + slen dev + 2) as Hid.
  { unfold id. rewrite !slen_app. change (slen "-") with 1. lia. }
  assert (Split "-" id = (Split "-" pre ++ [sym; dev])%list) as ->.
  { unfold id. by rewrite Split_app_gen, Split_app, (Split_none _ dev). }
  rewrite decide_False by (intros E; rewrite E in Hid; change (slen "") with 0 in Hid; unfold slen in *; lia).
  rewrite length_app. simpl List.length.
  assert (1 <= List.length (Split "-" pre))%nat as Hn by (pose proof (Split_nonempty "-" pre); destruct (Split "-" pre); simpl; [done|lia]).
  set (k := List.length (Split "-" pre)) in *.
  assert ((k + 2 <? 3)%nat = false) as -> by (apply Nat.ltb_ge; lia).
  rewrite !lookup_app_r by (unfold k; lia). fold k.
  replace (k + 2 - 1 - k)%nat with 1%nat by lia. replace (k + 2 - 2 - k)%nat with 0%nat by lia. simpl.
  assert ((5 <? slen dev) && (slen sym <? 12) = false) as ->.
  { apply andb_false_iff. rewrite !Z.ltb_ge. lia. }
  simpl. destruct (Z.leb_spec (slen id) (slen dev + slen sym + 2 + 2)); [lia|].
  replace (Z.to_nat (slen id - (slen dev + slen sym + 2))) with (String.length pre) by (unfold slen in *; lia).
  unfold id. by rewrite stake_app_str.
Qed.

(** Whether a name of one character occurs. *)
Lemma Contains_char c s : Contains s (String c "") = has_char c s.
Proof.
  unfold Contains, Index. induction s as [|d s IH]; [done|]. simpl.
  destruct (Ascii.eqb_spec d c) as [->|Hne].
  - destruct (ascii_dec c c); [|done]. by destruct s.
  - destruct (ascii_dec c d); [congruence|]. simpl. rewrite <- IH.
    destruct (String.index 0 (String c "") s); simpl; [|done]. destruct (Z.leb_spec 0 (Z.of_nat n0)); lia || done.
Qed.

Definition plain (s : string) : Prop := has_char "-" s = false ∧ has_char ":" s = false.

(** An array or device id, with the remote one behind a colon for a Metro volume. *)
Definition paired (local remote : string) : string := if decide (remote = "") then local else local ++ ":" ++ remote.

Lemma has_char_app c s t : has_char c (s ++ t) = has_char c s || has_char c t.
Proof. induction s as [|d s IH]; [done|]. rewrite app_str_cons. simpl. by rewrite IH, orb_assoc. Qed.

Lemma paired_dashless local remote : plain local → plain remote → has_char "-" (paired local remote) = false.
Proof.
  intros [Hl _] [Hr _]. unfold paired. case_decide; [done|]. rewrite !has_char_app, Hl, Hr. done.
Qed.

Lemma createCSIVolumeID_parts prefix name sym dev :
  createCSIVolumeID prefix name sym dev = (CsiVolumePrefix ++ prefix ++ "-" ++ name) ++ "-" ++ sym ++ "-" ++ dev.
Proof. unfold createCSIVolumeID. by rewrite !app_str_assoc. Qed.

Lemma prefix_length prefix name : 3 <= slen (CsiVolumePrefix ++ prefix ++ "-" ++ name).
Proof. rewrite slen_app. change (slen CsiVolumePrefix) with 4. unfold slen. lia. Qed.

(** The CSI id of a volume gives back the name, the array and the device it
    was built from, and the remote array and device of a Metro volume, whatever
    dashes the name has. *)
Theorem csi_id_roundtrip prefix name sym dev rsym rdev :
  plain sym → plain dev → plain rsym → plain rdev → (rsym = "" ↔ rdev = "") →
  (slen (paired dev rdev) <= 5 ∨ 12 <= slen (paired sym rsym)) →
  parseCsiID (createCSIVolumeID prefix name (paired sym rsym) (paired dev rdev))
  = Some (Ok (mkCsiID (CsiVolumePrefix ++ prefix ++ "-" ++ name) sym dev rsym rdev)).
Proof.
  intros Hs Hd Hrs Hrd Hiff Hlen.
  rewrite createCSIVolumeID_parts, parse_last_two by (done || apply prefix_length || by apply paired_dashless).
  destruct Hs as [_ Hs], Hd as [_ Hd], Hrs as [_ Hrs], Hrd as [_ Hrd].
  unfold with_remote. rewrite (Contains_char ":").
  unfold paired. destruct (decide (rsym = "")) as [->|Hr].
  - rewrite Hs. rewrite decide_True by tauto. destruct Hiff as [Hrd0 _]. by rewrite Hrd0.
  - rewrite (decide_False (P := rdev = "")) by tauto. rewrite !has_char_app, orb_true_r.
    rewrite !Split_app, !Split_none by done. done.
Qed.

(** An id whose array part names a remote array while its device part names
    no remote device makes parseCsiID index a slice out of range. *)
Theorem csi_id_panics pre sym dev :
  has_char "-" sym = false → has_char ":" sym = true → plain dev → 3 <= slen pre →
  (slen dev <= 5 ∨ 12 <= slen sym) → parseCsiID (pre ++ "-" ++ sym ++ "-" ++ dev) = None.
Proof.
  intros Hs Hc [Hd Hdc] Hpre Hlen. rewrite parse_last_two by done.
  unfold with_remote. rewrite (Contains_char ":"), Hc, (Split_none _ dev) by done.
  by destruct (Split ":" sym) as [|? [|? ?]].
Qed.

Lemma csi_id_roundtrip_witness :
  parseCsiID "csi-ABC-pmax-260602731A-ns1-000120000548:000120000549-011AB:011AC"
  = Some (Ok (mkCsiID "csi-ABC-pmax-260602731A-ns1" "000120000548" "011AB" "000120000549" "011AC")).
Proof.
  apply (csi_id_roundtrip "ABC" "pmax-260602731A-ns1" "000120000548" "011AB" "000120000549" "011AC");
    try (split; reflexivity); [split; discriminate|right; vm_compute; discriminate].
Defined.

Lemma csi_id_panics_witness : parseCsiID "csi-ABC-vol-000120000548:000120000549-011AB" = None.
Proof.
  apply (csi_id_panics "csi-ABC-vol" "000120000548:000120000549" "011AB"); try reflexivity;
    [by split|vm_compute; discriminate|left; vm_compute; discriminate].
Defined.
End VolumeID.
