(* ===== verification/DeletionWorker.v ===== *)
(** * The deletion worker

    Models service/deletion_worker.go: the queue of devices marked for deletion
    of each array, the steps that take a device out of its storage groups,
    clean up its snapshots and delete it, the admission of requests, and the
    loop that schedules the steps over the arrays. *)

From stdpp Require Import base gmap strings list sorting.
From Stdlib Require Import ZArith Lia Ascii.
From S2P Require Import Prelude GoLib Ordering Pmax PowerMax Replication.

Module DeletionWorker.
Import PowerMax.
Open Scope string_scope.
Open Scope Z_scope.
Open Scope go_scope.

(** ** Constants *)
Definition DeletionQueueLength : Z := 10000.
Definition MaxRequestsPerStep : Z := 1000.
Definition MaxErrorsStored : nat := 5.
Definition MaxErrorCount : Z := 100.
Definition CacheValidTime : Z := 30 * Minute.
Definition waitTillSyncInProgTime : Z := 20 * Second.
Definition APIPropagationDelay : Z := 2 * Second.
Definition deletionStateCleanupSnaps := "cleanupSnaps".
Definition deletionStateDisAssociateSG := "disAssociateSG".
Definition deletionStateDeleteVol := "deleteVolume".
Definition deleted := "deleted".
Definition maxedOutState := "maxedOut".
Definition skipDeleteState := "skipDelete".
Definition FinalError := "Final error: Max error count reached, device will be removed from Deletion Queue".
Definition DeletionPrefix := "_DEL".
Definition MaxClusterPrefixLength : Z := 3.
Definition TempSnap := "CSI_TEMP_SNAP".
Definition APIVersion101 : Z := 101.

(** ** Data *)
Record symDeviceID := mkSymDeviceID { DeviceID : string; IntVal : Z }.
#[export] Instance symDeviceID_eq_dec : EqDecision symDeviceID.
Proof. solve_decision. Defined.

Record deletionRequestStatus := mkStatus {
  AdditionTime : Z;
  LastUpdate : Z;
  nErrors : Z;
  ErrorMsgs : list string;
  State : string;
}.

Record symVolumeCache := mkVolumeCache { volume : option Volume; lastUpdate : Z }.

Record csiDevice := mkDevice {
  SymDeviceID : symDeviceID;
  Device_SymID : string;
  SymVolumeCache : symVolumeCache;
  Device_VolumeIdentifier : string;
  Status : deletionRequestStatus;
}.

(** A request to delete a volume; the answer goes back on its error channel. *)
Record deletionRequest := mkDeletionRequest {
  Request_DeviceID : string;
  VolumeHandle : string;
  Request_SymID : string;
}.

Record deletionQueue := mkQueue {
  DeviceList : list csiDevice;
  Queue_SymID : string;
  Queue_ClusterPrefix : string;
}.

Definition device_id (d : csiDevice) : string := DeviceID (SymDeviceID d).
Definition device_state (d : csiDevice) : string := State (Status d).

Definition with_status (d : csiDevice) (s : deletionRequestStatus) : csiDevice :=
  mkDevice (SymDeviceID d) (Device_SymID d) (SymVolumeCache d) (Device_VolumeIdentifier d) s.
Definition with_cache (d : csiDevice) (vc : symVolumeCache) : csiDevice :=
  mkDevice (SymDeviceID d) (Device_SymID d) vc (Device_VolumeIdentifier d) (Status d).
Definition with_devices (q : deletionQueue) (ds : list csiDevice) : deletionQueue :=
  mkQueue ds (Queue_SymID q) (Queue_ClusterPrefix q).

(** ** Marks *)
Definition isDeletionVolumeForCluster (volumeIdentifier clusterPrefix : string) : bool :=
  if negb (HasPrefix volumeIdentifier DeletionPrefix) then false
  else
    let identifier := TrimPrefix volumeIdentifier DeletionPrefix in
    let canonicalPrefix := CSIPrefix ++ "-" ++ clusterPrefix in
    if HasPrefix identifier canonicalPrefix then true
    else
      let markerIndex := Index identifier ("-" ++ canonicalPrefix) in
      (0 <? markerIndex) && (markerIndex <=? MaxClusterPrefixLength).

(** [%q] of a text without special characters. *)
Definition quoted (s : string) : string := String (ascii_of_nat 34) (s ++ String (ascii_of_nat 34) "").

Definition isValid (req : deletionRequest) : option error :=
  let expectedPrefix := DeletionPrefix ++ CSIPrefix ++ "-" in
  let bad := errorString ("volume handle must begin with CSI deletion prefix " ++ quoted expectedPrefix) in
  if decide (Request_DeviceID req = "") then Some (errorString "device id can't be empty")
  else if decide (Request_SymID req = "") then Some (errorString "sym id can't be empty")
  else if HasPrefix (VolumeHandle req) expectedPrefix then None
  else if negb (HasPrefix (VolumeHandle req) DeletionPrefix) then Some bad
  else
    let rest := TrimPrefix (VolumeHandle req) DeletionPrefix in
    let markerIndex := Index rest ("-" ++ CSIPrefix ++ "-") in
    if (0 <? markerIndex) && (markerIndex <=? 3) then None else Some bad.

(** ** Device identifiers and ranges *)
Definition getDeviceID (deviceID : string) : result error symDeviceID :=
  match ParseInt 16 (TrimPrefix deviceID "0") with
  | None => Err (errorString "strconv.ParseInt: invalid device id")
  | Some n => Ok (mkSymDeviceID deviceID n)
  end.

Record deviceRange := mkRange { Start : symDeviceID; End_ : symDeviceID }.

Definition range_get (r : deviceRange) : string :=
  if IntVal (Start r) =? IntVal (End_ r) then DeviceID (Start r)
  else DeviceID (Start r) ++ "-" ++ DeviceID (End_ r).

Definition isDeviceIDInRange (r : deviceRange) (device : symDeviceID) : bool :=
  (IntVal device =? IntVal (Start r))
  || ((IntVal (Start r) <? IntVal device) && (IntVal device <=? IntVal (End_ r))).

Definition canonicalID (n : Z) : string := ToUpper (Sprintf_05x n).

Definition getDeviceIDs (r : deviceRange) : list string :=
  canonicalID <$> seqZ (IntVal (Start r)) (IntVal (End_ r) - IntVal (Start r) + 1).

(** The loop of getDeviceRanges, with the devices at the indices [start] and
    [end]; both branches of [start != end] append the range between them, and
    [end] is the last device when the loop ends. *)
Fixpoint ranges_loop (start end_ : symDeviceID) (devices : list symDeviceID) : list deviceRange :=
  match devices with
  | [] => [mkRange start end_]
  | d :: devices =>
      if IntVal d - IntVal end_ =? 1 then ranges_loop start d devices
      else mkRange start end_ :: ranges_loop d d devices
  end.
Definition getDeviceRanges (devices : list symDeviceID) : list deviceRange :=
  match devices with
  | [] => []
  | d :: devices => ranges_loop d d devices
  end.

(** By number, with the sort of package sort. *)
Definition sort_ids : list symDeviceID → list symDeviceID := sort_by (λ a b, IntVal a <? IntVal b).

Section worker.
Context {W C : Type} `{Pmax W C}.

(** ** One device *)
Definition getOrUpdateVolume (c : C) (symID volumeID : string) (forceUpdate : bool) (vol : symVolumeCache)
    : M W (result error Volume * symVolumeCache) :=
  let refresh :=
    let* r := lift (GetVolumeByID c symID volumeID) in
    match r with
    | Err e => ret (Err e, mkVolumeCache None (lastUpdate vol))
    | Ok v => let* now := lift Now in ret (Ok v, mkVolumeCache (Some v) now)
    end in
  match volume vol with
  | None => refresh
  | Some v =>
      let* now := lift Now in
      if (CacheValidTime <? timeSub now (lastUpdate vol)) || forceUpdate then refresh
      else ret (Ok v, vol)
  end.

Definition status_at (now : Z) (state errorMsg : string) (s : deletionRequestStatus) : deletionRequestStatus :=
  if decide (errorMsg = "") then mkStatus (AdditionTime s) now (nErrors s) (ErrorMsgs s) state
  else
    let n := nErrors s + 1 in
    let msgs := if (List.length (ErrorMsgs s) =? MaxErrorsStored)%nat then drop 1 (ErrorMsgs s) else ErrorMsgs s in
    if MaxErrorCount <=? n then mkStatus (AdditionTime s) now n (msgs ++ [FinalError])%list maxedOutState
    else mkStatus (AdditionTime s) now n (msgs ++ [errorMsg])%list state.

Definition updateStatus (state errorMsg : string) (d : csiDevice) : M W csiDevice :=
  let* now := lift Now in ret (with_status d (status_at now state errorMsg (Status d))).

Definition errorMsg (err : option error) : string :=
  match err with None => "" | Some e => Error e end.

(** The device's volume, with the device's cache updated. *)
Definition device_volume (c : C) (symID : string) (forceUpdate : bool) (d : csiDevice)
    : M W (result error Volume * csiDevice) :=
  let* r := getOrUpdateVolume c symID (device_id d) forceUpdate (SymVolumeCache d) in
  ret (fst r, with_cache d (snd r)).

Definition print_device (d : csiDevice) : string :=
  "(Device ID: " ++ device_id d ++ ", SymID: " ++ Device_SymID d ++ ")".

Definition mismatch (d : csiDevice) (v sep tail : string) : string :=
  print_device d ++ ": volume identifiers don't match(Orig: " ++ Device_VolumeIdentifier d ++ sep ++ v ++ tail
  ++ String (ascii_of_nat 10) "".

(** ** Queue admission

    The error text ends with the time of addition in the source. *)
Definition Queue_QueueDeviceForDeletion (device : csiDevice) (q : deletionQueue) : deletionQueue * option error :=
  match List.find (λ d, bool_decide (device_id d = device_id device)) (DeviceList q) with
  | Some d => (q, Some (errorString (print_device d ++ ": found existing entry in deletion queue with volume handle: "
                     ++ Device_VolumeIdentifier d)))
  | None => (with_devices q (DeviceList q ++ [device])%list, None)
  end.

(** ** Snapshots *)
Definition unlinkTarget (tgtVol : option Volume) (snapID srcDevID symID : string) (snapGeneration : Z) (c : C)
    : M W (option error) :=
  match tgtVol with
  | None => ret (Some (errorString "target volume details can't be nil"))
  | Some tgt =>
      let unlink (isDefined : bool) (snapID srcDevID : string) : M W (option error) :=
        if negb isDefined then
          ret (Some (errorString "can't unlink as link state is not defined. retry after sometime"))
        else if decide (snapID ≠ "" ∧ srcDevID ≠ "") then
          let* err := lift (ModifySnapshotS c symID [srcDevID] [VolumeID tgt] snapID "Unlink" "" snapGeneration false) in
          match err with
          | Some e => ret (Some (errorString ("failed to unlink snapshot. error: " ++ Error e)))
          | None => ret None
          end
        else ret (Some (errorString "unable to identify snapshot name/src device id")) in
      if decide (snapID = "") then
        let* info := lift (GetVolumeSnapInfo c symID (VolumeID tgt)) in
        match info with
        | Err e => ret (Some (errorString ("failed to find snapshot info for tgt vol. error: " ++ Error e)))
        | Ok snapInfo =>
            match VolumeSnapshotLinks snapInfo with
            | link :: _ =>
                if Link_Defined link then unlink true (Link_SnapshotName link) (LinkSource link)
                else unlink false snapID srcDevID
            | [] => unlink false snapID srcDevID
            end
        end
      else unlink false snapID srcDevID
  end.

(** Snapshots the worker may unlink and terminate. *)
Definition deletable (snapName : string) : bool := Contains snapName TempSnap || HasPrefix snapName "DEL".

(** One source session: [None] goes on with the next one. *)
Definition terminate_session (c : C) (symID volumeID : string) (s : VolumeSnapshotSource) : M W (option error) :=
  if deletable (SnapshotName s) then
    let tgtVolumes := TargetDevice <$> List.filter Linked_Defined (LinkedVolumes s) in
    let allLinksDefined := forallb Linked_Defined (LinkedVolumes s) in
    let terminate :=
      let* err := lift (DeleteSnapshotS c symID (SnapshotName s) [volumeID] (Generation s)) in
      match err with
      | Some e => ret (Some (errorString ("failed to terminate the snapshot. error: " ++ Error e)))
      | None => ret None
      end in
    match tgtVolumes with
    | [] => terminate
    | _ =>
        let* err := lift (ModifySnapshotS c symID [volumeID] tgtVolumes (SnapshotName s) "Unlink" "" (Generation s) false) in
        match err with
        | Some e => ret (Some (errorString ("failed to unlink snapshot. error: " ++ Error e)))
        | None => if allLinksDefined then terminate else ret None
        end
    end
  else ret None.

Fixpoint terminate_sessions (c : C) (symID volumeID : string) (l : list VolumeSnapshotSource) : M W (option error) :=
  match l with
  | [] => ret None
  | s :: l =>
      let* err := terminate_session c symID volumeID s in
      match err with Some e => ret (Some e) | None => terminate_sessions c symID volumeID l end
  end.

(** Sessions with the highest generation first. [sort.Slice] leaves the order
    of equal generations open; here they keep their order. *)
Definition unlinkTargetsAndTerminateSnapshot (srcVol : option Volume) (symID : string) (c : C) : M W (option error) :=
  match srcVol with
  | None => ret None
  | Some v =>
      let* info := lift (GetVolumeSnapInfo c symID (VolumeID v)) in
      match info with
      | Err e => ret (Some e)
      | Ok snapInfo =>
          terminate_sessions c symID (VolumeID v)
            (sort_by (λ a b, Generation b <? Generation a) (VolumeSnapshotSources snapInfo))
      end
  end.

(** One device of cleanupSnapshots: what to add to the count of processed
    devices, or [None] when the step gives up. *)
Definition cleanup_device (c : C) (symID : string) (d : csiDevice) : M W (csiDevice * option Z) :=
  if decide (device_state d = deletionStateCleanupSnaps) then
    let* rd := device_volume c symID false d in
    let '(r, d) := rd in
    match r with
    | Err e => let* d := updateStatus (device_state d) (Error e) d in ret (d, None)
    | Ok symVol =>
        if decide (VolumeIdentifier symVol ≠ Device_VolumeIdentifier d) then
          let* d := updateStatus skipDeleteState (mismatch d (VolumeIdentifier symVol) ", Current: " ") - skipping cleanupSnapshots") d in
          ret (d, Some 0)
        else if SnapTarget symVol then
          let* err := unlinkTarget (Some symVol) "" "" symID 0 c in
          let* d := updateStatus (device_state d) (errorMsg err) d in
          let* rd := device_volume c symID true d in
          ret (snd rd, Some 1)
        else if SnapSource symVol then
          let* err := unlinkTargetsAndTerminateSnapshot (Some symVol) symID c in
          let* d := updateStatus (device_state d) (errorMsg err) d in
          let* rd := device_volume c symID true d in
          ret (snd rd, Some 1)
        else
          let* d := updateStatus
            (match StorageGroupIDList symVol with [] => deletionStateDeleteVol | _ => deletionStateDisAssociateSG end) "" d in
          ret (d, Some 0)
    end
  else ret (d, Some 0).

Fixpoint cleanup_loop (c : C) (symID : string) (count : Z) (ds : list csiDevice) : M W (list csiDevice * option Z) :=
  match ds with
  | [] => ret ([], Some count)
  | d :: rest =>
      if count =? 5 then ret (ds, Some count)
      else
        let* r := cleanup_device c symID d in
        match r with
        | (d', None) => ret (d' :: rest, None)
        | (d', Some k) =>
            let* out := cleanup_loop c symID (count + k) rest in
            ret (d' :: fst out, snd out)
        end
  end.

Definition cleanupSnapshots (c : C) (q : deletionQueue) : M W (bool * deletionQueue) :=
  let* out := cleanup_loop c (Queue_SymID q) 0 (DeviceList q) in
  ret (match snd out with Some count => 0 <? count | None => false end, with_devices q (fst out)).

(** ** Storage groups *)

(** The first storage group of the volume that is not in a masking view, "" when
    there is none. *)
Fixpoint select_sg (c : C) (symID : string) (sgs : list string) (d : csiDevice) : M W (string * csiDevice) :=
  match sgs with
  | [] => ret ("", d)
  | storageGroupID :: sgs =>
      let* r := lift (GetStorageGroup c symID storageGroupID) in
      match r with
      | Err e =>
          let* d := updateStatus (device_state d) (Error e) d in
          select_sg c symID sgs d
      | Ok sg =>
          if 0 <? NumOfMaskingViews sg then
            let* d := updateStatus (device_state d) "device is in masking view, can't delete" d in
            select_sg c symID sgs d
          else ret (storageGroupID, d)
      end
  end.

(** One device of the scan: the storage group chosen so far and whether the
    device is to be removed from it. *)
Definition scan_device (c : C) (symID sgID : string) (d : csiDevice) : M W (string * csiDevice * bool) :=
  if decide (device_state d ≠ deletionStateDisAssociateSG) then ret (sgID, d, false)
  else
    let* rd := device_volume c symID false d in
    let '(r, d) := rd in
    match r with
    | Err e => let* d := updateStatus (device_state d) (Error e) d in ret (sgID, d, false)
    | Ok symVol =>
        if decide (VolumeIdentifier symVol ≠ Device_VolumeIdentifier d) then
          let* d := updateStatus skipDeleteState
            (mismatch d (VolumeIdentifier symVol) ", Current: " ") - skipping disAssociateSG") d in
          ret (sgID, d, false)
        else match StorageGroupIDList symVol with
        | [] =>
            let* d := updateStatus
              (if SnapSource symVol || SnapTarget symVol then deletionStateCleanupSnaps else deletionStateDeleteVol) "" d in
            ret (sgID, d, false)
        | sgs =>
            if decide (sgID = "") then
              let* rs := select_sg c symID sgs d in
              let '(sgID, d) := rs in
              ret (sgID, d, bool_decide (sgID ≠ ""))
            else ret (sgID, d, bool_decide (sgID ∈ sgs))
        end
    end.

Fixpoint scan_loop (c : C) (symID sgID : string) (count : Z) (ds : list csiDevice)
    : M W (string * list csiDevice * list string) :=
  match ds with
  | [] => ret (sgID, [], [])
  | d :: rest =>
      let* r := scan_device c symID sgID d in
      let '(sgID, d, add) := r in
      let count := if add : bool then count + 1 else count in
      let here := if add : bool then [device_id d] else [] in
      if count =? MaxRequestsPerStep then ret (sgID, d :: rest, here)
      else
        let* out := scan_loop c symID sgID count rest in
        let '(sgID, ds, ids) := out in
        ret (sgID, d :: ds, (here ++ ids)%list)
  end.

(** Removing the volumes from a storage group that is not replicated, with one
    retry without the volumes the error names. *)
Definition remove_plain (c : C) (symID sgID : string) (volumeIDs : list string) : M W (option error) :=
  let* err := lift (RemoveVolumesFromStorageGroup c symID sgID true volumeIDs) in
  match err with
  | None => ret None
  | Some e =>
      if Contains (Error e) "does not contain" then
        let retryIDs := List.filter (λ vid, negb (Contains (Error e) vid)) volumeIDs in
        if (0 <? List.length retryIDs)%nat && (List.length retryIDs <? List.length volumeIDs)%nat
        then lift (RemoveVolumesFromStorageGroup c symID sgID true retryIDs)
        else ret (Some e)
      else ret (Some e)
  end.

(** Removing the volumes from a protected storage group: [inl] returns from the
    step with that answer, [inr] goes on with the error of the removal. *)
Definition remove_protected (c : C) (symID sgID ns rdfNo mode : string) (volumeIDs : list string)
    : M W (bool + option error) :=
  let* info := lift (GetStorageGroupRDFInfo c symID sgID rdfNo) in
  match info with
  | Err e => ret (inl (Contains (Error e) "No SRDF records found"))
  | Ok psg =>
      let* personality := index (VolumeRdfTypes psg) 0 in
      if decide (personality ≠ "R1") then ret (inl true)
      else
        let* group := lift (GetRDFGroupByID c symID rdfNo) in
        match group with
        | Err _ => ret (inl false)
        | Ok rdfInfo =>
            let remove : M W (bool + option error) :=
              let remoteSGID := Replication.buildProtectionGroupID ns (Itoa (RemoteRdfgNumber rdfInfo)) mode in
              let* err := lift (RemoveVolumesFromProtectedStorageGroup c symID sgID (RemoteSymmetrix rdfInfo)
                remoteSGID true volumeIDs) in
              ret (inr err) in
            if decide (mode = Replication.Metro) then
              if (NumDevices rdfInfo =? 1) || (NumDevices rdfInfo =? Z.of_nat (List.length volumeIDs)) then
                let* state := index (States psg) 0 in
                if decide (state ≠ Replication.Suspended) then
                  let* err := Replication.suspend c symID sgID rdfNo in
                  match err with
                  | Some _ => ret (inl false)
                  | None => lift (Sleep waitTillSyncInProgTime) ;;* remove
                  end
                else remove
              else remove
            else remove
        end
  end.

(** The first device with the id, changed by [f]. *)
Fixpoint update_device (id : string) (f : csiDevice → M W csiDevice) (ds : list csiDevice) : M W (list csiDevice) :=
  match ds with
  | [] => ret []
  | d :: rest =>
      if decide (device_id d = id) then let* d := f d in ret (d :: rest)
      else let* rest := update_device id f rest in ret (d :: rest)
  end.

Definition after_removal (c : C) (symID : string) (err : option error) (d : csiDevice) : M W csiDevice :=
  let* rd := device_volume c symID true d in
  let '(r, d) := rd in
  match r with
  | Err e => updateStatus (device_state d) (Error e) d
  | Ok symVol =>
      match StorageGroupIDList symVol with
      | [] =>
          updateStatus (if SnapTarget symVol || SnapSource symVol then deletionStateCleanupSnaps else deletionStateDeleteVol)
            (errorMsg err) d
      | _ => updateStatus (device_state d) (errorMsg err) d
      end
  end.

Fixpoint refresh_all (c : C) (symID : string) (err : option error) (ids : list string) (ds : list csiDevice)
    : M W (list csiDevice) :=
  match ids with
  | [] => ret ds
  | id :: ids => let* ds := update_device id (after_removal c symID err) ds in refresh_all c symID err ids ds
  end.

Definition removeVolumesFromStorageGroup (c : C) (q : deletionQueue) : M W (bool * deletionQueue) :=
  let symID := Queue_SymID q in
  let* out := scan_loop c symID "" 0 (DeviceList q) in
  let '(sgID, ds, volumeIDs) := out in
  let q := with_devices q ds in
  match volumeIDs with
  | [] => ret (false, q)
  | _ =>
      let* sg := lift (GetStorageGroup c symID sgID) in
      if match sg with Ok sg => 0 <? NumOfMaskingViews sg | Err _ => false end then ret (false, q)
      else
        let* removed :=
          match Replication.GetRDFInfoFromSGID sgID with
          | Err _ => let* err := remove_plain c symID sgID volumeIDs in ret (inr err)
          | Ok (ns, rdfNo, mode) => remove_protected c symID sgID ns rdfNo mode volumeIDs
          end in
        match removed with
        | inl answer => ret (answer, q)
        | inr err =>
            match err with None => lift (Sleep APIPropagationDelay) | Some _ => ret tt end ;;*
            let* ds := refresh_all c symID err volumeIDs ds in
            ret (true, with_devices q ds)
        end
  end.

(** ** Deletion *)

(** The API version of the array, 0 when it is unknown. [None] for the cache is
    the nil pointer, for which a fresh cache is used and dropped. *)
Definition api_version (c : C) (symID : string) (vc : option (gmap string string))
    : M W (Z * option (gmap string string)) :=
  let* r := getOrFetchVersionDetails symID c (default ∅ vc) in
  let '(details, vc') := r in
  ret (match details with
       | Err _ => 0
       | Ok v => if decide (v = "") then 0 else Atoi_value v
       end, match vc with Some _ => Some vc' | None => None end).

(** The volumes of the array with the deletion mark of the cluster, by id, when
    the API can list them. *)
Definition bulk_volumes (c : C) (q : deletionQueue) (version : Z) : M W (gmap string VolumeEnhanced) :=
  if APIVersion101 <=? version then
    let* r := lift (GetVolumesByIdentifierMatch c (Queue_SymID q)
      (DeletionPrefix ++ CSIPrefix ++ "-" ++ Queue_ClusterPrefix q)) in
    match r with
    | Err _ => ret ∅
    | Ok volumes => ret (fold_left (λ m v, <[ID v := v]> m) volumes ∅)
    end
  else ret ∅.

(** The last checks of a device: in no storage group, and still the volume the
    request was for (so it carries the deletion mark). *)
Definition final_check (sgCount : nat) (volumeIdentifier : string) (d : csiDevice) : M W (csiDevice * bool) :=
  if negb (sgCount =? 0)%nat then
    let* d := updateStatus deletionStateDisAssociateSG "" d in ret (d, false)
  else if decide (volumeIdentifier ≠ Device_VolumeIdentifier d) then
    let* d := updateStatus skipDeleteState (mismatch d volumeIdentifier ", Req: " ")") d in ret (d, false)
  else ret (d, true).

(** One device of the validation: whether it can be deleted. *)
Definition validate_device (c : C) (symID : string) (version : Z) (volumeMap : gmap string VolumeEnhanced)
    (d : csiDevice) : M W (csiDevice * bool) :=
  if decide (device_state d = deletionStateDeleteVol) then
    match volumeMap !! device_id d, APIVersion101 <=? version with
    | Some ev, true => final_check (List.length (StorageGroups ev)) (Identifier ev) d
    | _, _ =>
        let* rd := device_volume c symID true d in
        let '(r, d) := rd in
        match r with
        | Err e => let* d := updateStatus (device_state d) (Error e) d in ret (d, false)
        | Ok vol => final_check (List.length (StorageGroupIDList vol)) (VolumeIdentifier vol) d
        end
    end
  else ret (d, false).

Fixpoint validate_loop (c : C) (symID : string) (version : Z) (volumeMap : gmap string VolumeEnhanced)
    (ds : list csiDevice) : M W (list csiDevice * list symDeviceID) :=
  match ds with
  | [] => ret ([], [])
  | d :: ds =>
      let* r := validate_device c symID version volumeMap d in
      let '(d, ok) := r in
      let* out := validate_loop c symID version volumeMap ds in
      ret (d :: fst out, if ok : bool then SymDeviceID d :: snd out else snd out)
  end.

(** The range of the last of the devices: each device overwrites the choice by
    the first range that holds it. *)
Definition choose_range (devRanges : list deviceRange) (devices : list symDeviceID) : deviceRange :=
  fold_left (λ chosen d, default chosen (List.find (λ r, isDeviceIDInRange r d) devRanges)) devices
    (mkRange (mkSymDeviceID "" 0) (mkSymDeviceID "" 0)).

(** Marking every device whose id is [id]. *)
Fixpoint mark_id (err : option error) (id : string) (ds : list csiDevice) : M W (list csiDevice) :=
  match ds with
  | [] => ret []
  | d :: rest =>
      let* d := if decide (id = device_id d) then
                  match err with
                  | Some e => updateStatus (device_state d) (Error e) d
                  | None => updateStatus deleted "" d
                  end
                else ret d in
      let* rest := mark_id err id rest in
      ret (d :: rest)
  end.
Fixpoint mark_ids (err : option error) (ids : list string) (ds : list csiDevice) : M W (list csiDevice) :=
  match ids with
  | [] => ret ds
  | id :: ids => let* ds := mark_id err id ds in mark_ids err ids ds
  end.

(** Everything before the call that deletes: the devices with their updated
    states and those that passed the checks. *)
Definition validate (c : C) (q : deletionQueue) (vc : option (gmap string string))
    : M W (list csiDevice * list symDeviceID * option (gmap string string)) :=
  let* v := api_version c (Queue_SymID q) vc in
  let '(version, vc) := v in
  let* volumeMap := bulk_volumes c q version in
  let* out := validate_loop c (Queue_SymID q) version volumeMap (DeviceList q) in
  ret (out, vc).

Definition deleteVolumes (c : C) (q : deletionQueue) (vc : option (gmap string string))
    : M W (bool * deletionQueue * option (gmap string string)) :=
  match DeviceList q with
  | [] => ret (false, q, vc)
  | _ =>
      let* out := validate c q vc in
      let '(ds, deviceIDs, vc) := out in
      match deviceIDs with
      | [] => ret (false, with_devices q ds, vc)
      | _ =>
          let r := choose_range (getDeviceRanges (sort_ids deviceIDs)) deviceIDs in
          let* err := lift (DeleteVolume c (Queue_SymID q) (range_get r)) in
          let* ds := mark_ids err (getDeviceIDs r) ds in
          ret (true, with_devices q ds, vc)
      end
  end.

(** ** The worker *)
Inductive worker_step := initialStep | cleanupSnapshotStep | removeVolumesFromSGStep | deleteVolumeStep | pruneDeletionQueuesStep.

Record deletionWorker := mkWorker {
  DeletionQueues : gmap string deletionQueue;
  SymmetrixIDs : list string;
  Worker_ClusterPrefix : string;
  DeletionQueueChan : list csiDevice;
  Worker_State : worker_step;
  Worker_versionCache : option (gmap string string);
}.

Definition nextStep (s : worker_step) : worker_step :=
  match s with
  | initialStep => removeVolumesFromSGStep
  | removeVolumesFromSGStep => cleanupSnapshotStep
  | cleanupSnapshotStep => deleteVolumeStep
  | deleteVolumeStep => pruneDeletionQueuesStep
  | pruneDeletionQueuesStep => removeVolumesFromSGStep
  end.

Definition set_queues (w : deletionWorker) (qs : gmap string deletionQueue) : deletionWorker :=
  mkWorker qs (SymmetrixIDs w) (Worker_ClusterPrefix w) (DeletionQueueChan w) (Worker_State w) (Worker_versionCache w).
Definition set_chan (w : deletionWorker) (ch : list csiDevice) : deletionWorker :=
  mkWorker (DeletionQueues w) (SymmetrixIDs w) (Worker_ClusterPrefix w) ch (Worker_State w) (Worker_versionCache w).
Definition set_state (w : deletionWorker) (s : worker_step) : deletionWorker :=
  mkWorker (DeletionQueues w) (SymmetrixIDs w) (Worker_ClusterPrefix w) (DeletionQueueChan w) s (Worker_versionCache w).
Definition set_versions (w : deletionWorker) (vc : option (gmap string string)) : deletionWorker :=
  mkWorker (DeletionQueues w) (SymmetrixIDs w) (Worker_ClusterPrefix w) (DeletionQueueChan w) (Worker_State w) vc.

(** A device leaves the queue in these states. *)
Definition finished (state : string) : bool :=
  bool_decide (state = deleted ∨ state = maxedOutState ∨ state = skipDeleteState).

(** pruneDeletionQueues on one queue: the slice is compacted in place, [k] is
    the index read and [i] the one written; then it is cut at [i]. *)
Fixpoint prune_loop (fuel k i : nat) (ds : list csiDevice) : list csiDevice :=
  match fuel with
  | O => take i ds
  | S fuel =>
      match ds !! k with
      | None => take i ds
      | Some dev =>
          if finished (device_state dev) then prune_loop fuel (S k) i ds
          else prune_loop fuel (S k) (S i) (<[i := dev]> ds)
      end
  end.
Definition prune_queue (q : deletionQueue) : deletionQueue :=
  with_devices q (prune_loop (List.length (DeviceList q)) 0 0 (DeviceList q)).
Definition pruneDeletionQueues (w : deletionWorker) : deletionWorker :=
  set_queues w (prune_queue <$> DeletionQueues w).

(** One device taken from the channel. *)
Definition receive (device : csiDevice) (qs : gmap string deletionQueue) : gmap string deletionQueue :=
  match qs !! Device_SymID device with
  | Some q => <[Device_SymID device := fst (Queue_QueueDeviceForDeletion device q)]> qs
  | None => qs
  end.

(** updateDeletionQueues until its timer fires, after [n] devices. *)
Definition updateDeletionQueues (n : nat) (w : deletionWorker) : deletionWorker :=
  set_chan (set_queues w (fold_left (λ qs d, receive d qs) (take n (DeletionQueueChan w)) (DeletionQueues w)))
    (drop n (DeletionQueueChan w)).

(** What deletionRequestHandler does with one request: the answer, and the
    device it puts on the channel. *)
Definition handle_request (a : gmap string (PowerMax (C:=C))) (symIDs : list string) (req : deletionRequest)
    : M W (option error * option csiDevice) :=
  let unmanaged := errorString "unable to process device deletion request as sym id is not managed by deletion worker" in
  if negb (bool_decide (Request_SymID req ∈ symIDs)) then ret (Some unmanaged, None)
  else match GetPowerMaxClient1 a (Request_SymID req) with
  | Err _ => ret (Some unmanaged, None)
  | Ok c =>
      let* r := lift (GetVolumeByID c (Request_SymID req) (Request_DeviceID req)) in
      match r with
      | Err e => ret (Some e, None)
      | Ok vol =>
          match isValid req with
          | Some e => ret (Some e, None)
          | None =>
              match getDeviceID (Request_DeviceID req) with
              | Err e => ret (Some e, None)
              | Ok deviceID =>
                  let* currentTime := lift Now in
                  let initialState :=
                    match StorageGroupIDList vol with
                    | [] => if SnapSource vol || SnapTarget vol then deletionStateCleanupSnaps else deletionStateDeleteVol
                    | _ => deletionStateDisAssociateSG
                    end in
                  ret (None, Some (mkDevice deviceID (Request_SymID req) (mkVolumeCache (Some vol) currentTime)
                    (VolumeHandle req) (mkStatus currentTime currentTime 0 [] initialState)))
              end
          end
      end
  end.

(** QueueDeviceForDeletion of the worker, with the requests that wait on its
    channel: a full channel is an error, otherwise the caller waits for the
    handler's answer. *)
Definition Worker_QueueDeviceForDeletion (devID volumeIdentifier symID : string) (chan : list deletionRequest)
    : list deletionRequest * option error :=
  if Z.of_nat (List.length chan) <? DeletionQueueLength
  then ((chan ++ [mkDeletionRequest devID volumeIdentifier symID])%list, None)
  else (chan, Some (errorString "deletion request queue full. retry after sometime")).

(** The requests populateDeletionQueue submits for one array: every volume with
    a deletion mark of this cluster. *)
Definition bulk_requests (symID clusterPrefix : string) (volumes : list VolumeEnhanced) : list deletionRequest :=
  (λ v, mkDeletionRequest (ID v) (Identifier v) symID) <$>
    List.filter (λ v, isDeletionVolumeForCluster (Identifier v) clusterPrefix) volumes.

Fixpoint volume_requests (c : C) (symID clusterPrefix : string) (ids : list string) : M W (list deletionRequest) :=
  match ids with
  | [] => ret []
  | id :: ids =>
      let* r := lift (GetVolumeByID c symID id) in
      let here :=
        match r with
        | Err _ => []
        | Ok v => if isDeletionVolumeForCluster (VolumeIdentifier v) clusterPrefix
                  then [mkDeletionRequest id (VolumeIdentifier v) symID] else []
        end in
      let* rest := volume_requests c symID clusterPrefix ids in
      ret (here ++ rest)%list
  end.

Definition populate_array (a : gmap string (PowerMax (C:=C))) (clusterPrefix symID : string)
    (vc : option (gmap string string)) : M W (list deletionRequest * option (gmap string string)) :=
  match GetPowerMaxClient1 a symID with
  | Err _ => ret ([], vc)
  | Ok c =>
      let* v := api_version c symID vc in
      let '(version, vc) := v in
      let one_by_one :=
        let* r := lift (GetVolumeIDList c symID DeletionPrefix true) in
        match r with
        | Err _ => ret ([], vc)
        | Ok volList => let* reqs := volume_requests c symID clusterPrefix volList in ret (reqs, vc)
        end in
      if APIVersion101 <=? version then
        let* r := lift (GetVolumesByIdentifierMatch c symID DeletionPrefix) in
        match r with
        | Err _ => one_by_one
        | Ok volumes => ret (bulk_requests symID clusterPrefix volumes, vc)
        end
      else one_by_one
  end.

Fixpoint populateDeletionQueue (a : gmap string (PowerMax (C:=C))) (clusterPrefix : string) (symIDs : list string)
    (vc : option (gmap string string)) : M W (list deletionRequest * option (gmap string string)) :=
  match symIDs with
  | [] => ret ([], vc)
  | symID :: symIDs =>
      let* r := populate_array a clusterPrefix symID vc in
      let* rest := populateDeletionQueue a clusterPrefix symIDs (snd r) in
      ret ((fst r ++ fst rest)%list, snd rest)
  end.

(** The worker NewDeletionWorker starts, with the requests it submits. *)
Definition emptyQueue (clusterPrefix symID : string) : deletionQueue := mkQueue [] symID clusterPrefix.
Definition NewDeletionWorker (clusterPrefix : string) (symIDs : list string) (vc : gmap string string) : deletionWorker :=
  mkWorker (list_to_map ((λ s, (s, emptyQueue clusterPrefix s)) <$> symIDs)) symIDs clusterPrefix [] initialStep (Some vc).

(** The queue of an array; a missing one is a nil pointer. *)
Definition queue_of (w : deletionWorker) (symID : string) : M W deletionQueue :=
  match DeletionQueues w !! symID with Some q => ret q | None => panic end.

Definition put_queue (w : deletionWorker) (symID : string) (q : deletionQueue) : deletionWorker :=
  set_queues w (<[symID := q]> (DeletionQueues w)).

Section loop.
Context (a : gmap string (PowerMax (C:=C))).
(** How many devices the i-th updateDeletionQueues of an iteration receives. *)
Context (recv : nat → nat).

(** A step on the queue of the current array, then time for new devices. *)
Definition one_step (step : C → deletionQueue → M W (bool * deletionQueue)) (symIndex : nat) (wk : deletionWorker)
    : M W deletionWorker :=
  let* symID := index (SymmetrixIDs wk) symIndex in
  match GetPowerMaxClient1 a symID with
  | Err _ => ret wk
  | Ok c =>
      let* q := queue_of wk symID in
      let* r := step c q in
      let wk := put_queue wk symID (snd r) in
      ret (if fst r : bool then updateDeletionQueues (recv 0) wk else wk)
  end.

(** At most five deletions in a row; a missing client uses up a turn. *)
Fixpoint delete_turns (turns i symIndex : nat) (wk : deletionWorker) : M W deletionWorker :=
  match turns with
  | O => ret wk
  | S turns =>
      let* symID := index (SymmetrixIDs wk) symIndex in
      match GetPowerMaxClient1 a symID with
      | Err _ => delete_turns turns (S i) symIndex wk
      | Ok c =>
          let* q := queue_of wk symID in
          let* r := deleteVolumes c q (Worker_versionCache wk) in
          let '(updated, q, vc) := r in
          let wk := set_versions (put_queue wk symID q) vc in
          if updated : bool then delete_turns turns (S i) symIndex (updateDeletionQueues (recv i) wk)
          else ret wk
      end
  end.

(** One iteration of the loop of deletionWorker. *)
Definition iteration (symIndex : nat) (wk : deletionWorker) : M W (deletionWorker * nat) :=
  let wk := set_state wk (nextStep (Worker_State wk)) in
  match Worker_State wk with
  | cleanupSnapshotStep => let* wk := one_step cleanupSnapshots symIndex wk in ret (wk, symIndex)
  | removeVolumesFromSGStep => let* wk := one_step removeVolumesFromStorageGroup symIndex wk in ret (wk, symIndex)
  | deleteVolumeStep =>
      let* wk := delete_turns 5 0 symIndex wk in
      ret (updateDeletionQueues (recv 5) wk, symIndex)
  | pruneDeletionQueuesStep =>
      ret (pruneDeletionQueues wk,
           if (Z.of_nat symIndex <? Z.of_nat (List.length (SymmetrixIDs wk)) - 1) then S symIndex else 0%nat)
  | initialStep => ret (wk, symIndex)
  end.
End loop.

(** ** The system

    The worker's loop and the request handler take turns; anything else may
    change the arrays at any time. *)
Record system := mkSystem { world : W; worker : deletionWorker; symIndex : nat }.

Inductive step (a : gmap string (PowerMax (C:=C))) : system → system → Prop :=
| step_request req d w w' wk i :
    handle_request a (SymmetrixIDs wk) req w = Some ((None, Some d), w') →
    Z.of_nat (List.length (DeletionQueueChan wk)) < DeletionQueueLength →
    step a (mkSystem w wk i) (mkSystem w' (set_chan wk (DeletionQueueChan wk ++ [d])%list) i)
| step_refuse req e w w' wk i :
    handle_request a (SymmetrixIDs wk) req w = Some ((Some e, None), w') →
    step a (mkSystem w wk i) (mkSystem w' wk i)
| step_iterate recv w w' wk wk' i i' :
    iteration a recv i wk w = Some ((wk', i'), w') →
    step a (mkSystem w wk i) (mkSystem w' wk' i')
| step_world w w' wk i : step a (mkSystem w wk i) (mkSystem w' wk i).

Definition initial (clusterPrefix : string) (symIDs : list string) (vc : gmap string string) (w : W) : system :=
  mkSystem w (NewDeletionWorker clusterPrefix symIDs vc) 0.
End worker.
End DeletionWorker.
