(* ===== verification/DeletionSafety.v ===== *)
(** * The deletion worker: invariants and safety

    Proofs about the model of the deletion worker: what every step preserves,
    that only checked devices are deleted, the exactness of device ranges and
    of the in-place pruning. *)

From stdpp Require Import base gmap strings list sorting.
From Stdlib Require Import ZArith Lia Ascii.
From S2P Require Import Prelude GoLib Ordering Pmax PowerMax Replication DeletionWorker SimArray.

Module DeletionSafety.
Import PowerMax DeletionWorker.
Open Scope string_scope.
Open Scope Z_scope.

(** ** Device ranges *)
(** Every number of a range belongs to one of the devices. *)
Lemma ranges_loop_sound seen start end_ ds r i :
  (∀ k, IntVal start <= k <= IntVal end_ → ∃ d, d ∈ seen ∧ IntVal d = k) →
  r ∈ ranges_loop start end_ ds → IntVal (Start r) <= i <= IntVal (End_ r) →
  ∃ d, d ∈ (seen ++ ds)%list ∧ IntVal d = i.
Proof.
  revert seen start end_. induction ds as [|d ds IH]; intros seen start end_ Hseen; simpl.
  - intros ->%list_elem_of_singleton Hi. rewrite app_nil_r. by apply Hseen.
  - assert (seen ++ d :: ds = (seen ++ [d]) ++ ds)%list as -> by by rewrite <- app_assoc.
    destruct (Z.eqb_spec (IntVal d - IntVal end_) 1) as [Hd|Hd].
    + apply IH. intros k Hk. destruct (decide (k = IntVal d)) as [->|].
      * exists d. split; [|done]. apply elem_of_app. right. by apply list_elem_of_singleton.
      * destruct (Hseen k) as (d' & ? & ?); [lia|]. exists d'. split; [|done]. apply elem_of_app. by left.
    + intros [->|Hr]%elem_of_cons Hi.
      * destruct (Hseen i Hi) as (d' & ? & ?). exists d'. split; [|done]. rewrite <- app_assoc. apply elem_of_app. by left.
      * eapply IH; [|exact Hr|exact Hi]. intros k Hk. exists d. split; [|lia].
        apply elem_of_app. right. by apply list_elem_of_singleton.
Qed.

Lemma getDeviceRanges_sound ds r i :
  r ∈ getDeviceRanges ds → IntVal (Start r) <= i <= IntVal (End_ r) → ∃ d, d ∈ ds ∧ IntVal d = i.
Proof.
  destruct ds as [|d ds]; simpl; [by intros ?%elem_of_nil|]. apply (ranges_loop_sound [d]).
  intros k Hk. exists d. split; [by apply list_elem_of_singleton|lia].
Qed.

(** Every device is in a range. *)
Lemma ranges_loop_complete start end_ ds x :
  IntVal start <= IntVal end_ → IntVal start <= x <= IntVal end_ ∨ x ∈ IntVal <$> ds →
  ∃ r, r ∈ ranges_loop start end_ ds ∧ IntVal (Start r) <= x <= IntVal (End_ r).
Proof.
  revert start end_. induction ds as [|d ds IH]; intros start end_ Hle Hx; simpl.
  - destruct Hx as [Hx|Hx%elem_of_nil]; [|done]. eexists. split; [by apply list_elem_of_singleton|done].
  - rewrite fmap_cons, elem_of_cons in Hx. destruct (Z.eqb_spec (IntVal d - IntVal end_) 1) as [Hd|Hd].
    + apply IH; [lia|]. destruct Hx as [Hx|[->|Hx]]; [left; lia|left; lia|by right].
    + destruct Hx as [Hx|Hx].
      * exists (mkRange start end_). split; [left|done].
      * destruct (IH d d) as (r & Hr & Hin); [lia|destruct Hx as [->|]; [left; lia|by right]|].
        exists r. split; [by right|done].
Qed.

Lemma ranges_loop_le start end_ ds r :
  IntVal start <= IntVal end_ → r ∈ ranges_loop start end_ ds → IntVal (Start r) <= IntVal (End_ r).
Proof.
  revert start end_. induction ds as [|d ds IH]; intros start end_ Hle; simpl.
  - by intros ->%list_elem_of_singleton.
  - destruct (Z.eqb_spec (IntVal d - IntVal end_) 1); [apply IH; lia|].
    intros [->|Hr]%elem_of_cons; [done|]. by eapply (IH d d); [lia|].
Qed.

Lemma in_range_spec r d :
  IntVal (Start r) <= IntVal d <= IntVal (End_ r) → isDeviceIDInRange r d = true.
Proof.
  intros Hd. unfold isDeviceIDInRange.
  destruct (Z.eqb_spec (IntVal d) (IntVal (Start r))); [done|]. simpl.
  by apply andb_true_iff; rewrite Z.ltb_lt, Z.leb_le; lia.
Qed.

Lemma choose_range_elem ranges ds acc :
  (∀ d, d ∈ ds → ∃ r, r ∈ ranges ∧ isDeviceIDInRange r d = true) →
  ds ≠ [] ∨ acc ∈ ranges →
  fold_left (λ chosen d, default chosen (List.find (λ r, isDeviceIDInRange r d) ranges)) ds acc ∈ ranges.
Proof.
  revert acc. induction ds as [|d ds IH]; intros acc Hall Hne; simpl; [by destruct Hne|].
  apply IH; [intros d' Hd'; apply Hall; by right|]. right.
  destruct (List.find _ ranges) as [r|] eqn:Hf; simpl.
  - apply List.find_some in Hf as [Hf _]. by apply list_elem_of_In.
  - destruct (Hall d) as (r & Hr & Hin); [by left|].
    eapply List.find_none in Hf; [|by apply list_elem_of_In]. congruence.
Qed.

Lemma chosen_range_elem ids :
  ids ≠ [] → choose_range (getDeviceRanges (sort_ids ids)) ids ∈ getDeviceRanges (sort_ids ids).
Proof.
  intros Hne. apply choose_range_elem; [|by left]. intros d Hd.
  assert (d ∈ sort_ids ids) as Hd' by (unfold sort_ids; by rewrite sort_by_perm).
  destruct (sort_ids ids) as [|e es]; [by apply elem_of_nil in Hd'|].
  destruct (ranges_loop_complete e e es (IntVal d)) as (r' & Hr' & Hin); [lia| |].
  - apply elem_of_cons in Hd' as [->|Hd']; [left; lia|right]. apply list_elem_of_fmap. eauto.
  - exists r'. split; [done|]. by apply in_range_spec.
Qed.

(** The range handed to the array holds only devices of the list, and at least
    one. *)
Lemma chosen_range_sound ids i :
  ids ≠ [] →
  let r := choose_range (getDeviceRanges (sort_ids ids)) ids in
  IntVal (Start r) <= i <= IntVal (End_ r) → ∃ d, d ∈ ids ∧ IntVal d = i.
Proof.
  intros Hne r Hi. destruct (getDeviceRanges_sound _ _ _ (chosen_range_elem _ Hne) Hi) as (d & Hd & <-).
  exists d. split; [|done]. unfold sort_ids in Hd. by rewrite sort_by_perm in Hd.
Qed.

Lemma chosen_range_le ids :
  ids ≠ [] →
  let r := choose_range (getDeviceRanges (sort_ids ids)) ids in IntVal (Start r) <= IntVal (End_ r).
Proof.
  intros Hne r. pose proof (chosen_range_elem _ Hne) as Hr.
  destruct (sort_ids ids) as [|e es]; [by apply elem_of_nil in Hr|]. by eapply ranges_loop_le in Hr.
Qed.

Lemma getDeviceIDs_extend start end_ d :
  IntVal start <= IntVal end_ → IntVal d = IntVal end_ + 1 →
  getDeviceIDs (mkRange start d) = (getDeviceIDs (mkRange start end_) ++ [canonicalID (IntVal d)])%list.
Proof.
  intros Hle Hd. unfold getDeviceIDs. simpl.
  replace (IntVal d - IntVal start + 1) with ((IntVal end_ - IntVal start + 1) + 1) by lia.
  rewrite seqZ_app by lia. rewrite fmap_app. f_equal.
  replace (IntVal start + (IntVal end_ - IntVal start + 1)) with (IntVal d) by lia. done.
Qed.

Lemma in_getDeviceIDs r n : IntVal (Start r) <= n <= IntVal (End_ r) → canonicalID n ∈ getDeviceIDs r.
Proof. intros Hn. unfold getDeviceIDs. apply list_elem_of_fmap. exists n. split; [done|]. apply elem_of_seqZ. lia. Qed.

Lemma getDeviceIDs_single d : getDeviceIDs (mkRange d d) = [canonicalID (IntVal d)].
Proof. unfold getDeviceIDs. simpl. by replace (IntVal d - IntVal d + 1) with 1 by lia. Qed.

Lemma ranges_loop_ids start end_ ds :
  IntVal start <= IntVal end_ →
  concat (getDeviceIDs <$> ranges_loop start end_ ds)
  = (getDeviceIDs (mkRange start end_) ++ (canonicalID ∘ IntVal <$> ds))%list.
Proof.
  revert start end_. induction ds as [|d ds IH]; intros start end_ Hle; simpl.
  - done.
  - destruct (Z.eqb_spec (IntVal d - IntVal end_) 1).
    + rewrite IH by lia. rewrite (getDeviceIDs_extend start end_ d) by lia. by rewrite <- app_assoc.
    + simpl. by rewrite IH, getDeviceIDs_single by lia.
Qed.

(** The ids the worker would write for the devices. *)
Definition written_ids (devices : list symDeviceID) : list string := canonicalID ∘ IntVal <$> devices.

(** Grouping devices into ranges loses and invents nothing: the ids of the
    ranges, one after the other, are those of the devices, in order. *)
Theorem device_ranges_exact devices :
  concat (getDeviceIDs <$> getDeviceRanges devices) = written_ids devices.
Proof.
  destruct devices as [|d ds]; [done|]. simpl. by rewrite ranges_loop_ids, getDeviceIDs_single.
Qed.

(** Dropping a leading zero from a longer text of digits keeps its value. *)
Lemma parse_trimmed l n :
  (2 <= List.length l)%nat → Forall (λ d, 0 <= d < 16) l → value 16 0 l = n → 0 <= n < 2 ^ 63 →
  ParseInt 16 (TrimPrefix (ToUpper (digits_string l)) "0") = Some n.
Proof.
  intros Hlen Hall Hv Hn. destruct l as [|d l]; simpl in Hlen; [lia|].
  apply Forall_cons in Hall as [Hd Hall]. cbn [digits_string ToUpper].
  destruct (decide (d = 0)) as [->|Hd0].
  - change (TrimPrefix (String (upper (digit_char 0)) (ToUpper (digits_string l))) "0")
      with (TrimPrefix ("0" ++ ToUpper (digits_string l)) "0").
    rewrite TrimPrefix_app. apply ParseInt_digits; [by destruct l; simpl in *; [lia|]| |done].
    rewrite (proj2 (parse_digits_string 16 l 0 ltac:(lia) Hall)). by rewrite <- Hv.
  - assert (TrimPrefix (String (upper (digit_char d)) (ToUpper (digits_string l))) "0"
      = String (upper (digit_char d)) (ToUpper (digits_string l))) as ->.
    { unfold TrimPrefix, HasPrefix. cbn [String.prefix].
      destruct (ascii_dec "0" (upper (digit_char d))) as [E|]; [|done].
      pose proof (proj2 (char_value_digit d Hd)) as Hc. rewrite <- E in Hc. by injection Hc as <-. }
    apply ParseInt_digits; [done| |done].
    pose proof (proj2 (parse_digits_string 16 (d :: l) 0 ltac:(lia) ltac:(by constructor))) as E.
    cbn [digits_string ToUpper] in E. by rewrite E, Hv.
Qed.

Definition device_number (n : Z) : symDeviceID := mkSymDeviceID (canonicalID n) n.

(** The id the worker writes for a device number is read back as the same
    number. *)
Theorem device_id_roundtrip n :
  0 <= n < 2 ^ 63 → getDeviceID (canonicalID n) = Ok (device_number n).
Proof.
  intros Hn. unfold getDeviceID, device_number, canonicalID, Sprintf_05x.
  destruct (Z.ltb_spec n 0); [lia|]. rewrite Z.abs_eq by lia.
  destruct (digits_spec 16 n) as (Hv & Hf & Hne); [lia..|].
  rewrite (parse_trimmed _ n); [done| | | |done].
  - rewrite length_app, length_replicate. lia.
  - apply Forall_app. split; [|done]. apply Forall_replicate. cbv beta. lia.
  - by rewrite value_zeros.
Qed.

(** ** What the steps leave unchanged *)
Definition errors_bounded (d : csiDevice) : Prop := (List.length (ErrorMsgs (Status d)) <= MaxErrorsStored)%nat.

Record same (d d' : csiDevice) : Prop := {
  same_id : SymDeviceID d' = SymDeviceID d;
  same_sym : Device_SymID d' = Device_SymID d;
  same_identifier : Device_VolumeIdentifier d' = Device_VolumeIdentifier d;
  same_errors : errors_bounded d → errors_bounded d';
}.

#[export] Instance same_preorder : PreOrder same.
Proof.
  split.
  - intros d. by split.
  - intros d1 d2 d3 [H1 H2 H3 H4] [K1 K2 K3 K4]. split; try congruence. auto.
Qed.

Lemma same_cache d vc : same d (with_cache d vc).
Proof. by split. Qed.

Lemma same_status d now state msg : same d (with_status d (status_at now state msg (Status d))).
Proof.
  split; try done. unfold errors_bounded, status_at, MaxErrorsStored. simpl. intros Hb.
  case_decide; [done|].
  destruct (Nat.eqb_spec (List.length (ErrorMsgs (Status d))) 5); case_match; simpl;
    rewrite length_app, ?length_drop; simpl; lia.
Qed.
#[export] Hint Resolve same_cache same_status : driver.

Section steps.
Context {W C : Type} `{Pmax W C}.

Lemma updateStatus_post state msg d : post (W:=W) (updateStatus state msg d) (same d).
Proof. unfold updateStatus. wp. apply same_status. Qed.

Lemma device_volume_post c symID force d : post (W:=W) (device_volume c symID force d) (λ r, same d (snd r)).
Proof. unfold device_volume. apply post_skip. intros r. wp. apply same_cache. Qed.

(** [updateStatus] after a part that kept the device the same. *)
Lemma updateStatus_bind {B} state msg d0 d (k : csiDevice → M W B) Q :
  same d0 d → (∀ d', same d0 d' → post (k d') Q) → post (mbnd (updateStatus state msg d) k) Q.
Proof.
  intros Hd Hk. eapply post_bind; [apply updateStatus_post|]. intros d' Hd'. apply Hk. by transitivity d.
Qed.

Lemma updateStatus_last state msg d0 d : same d0 d → post (W:=W) (updateStatus state msg d) (same d0).
Proof. intros Hd. eapply post_weaken; [apply updateStatus_post|]. intros d' ?. by transitivity d. Qed.

Lemma device_volume_bind {B} c symID force d0 d (k : _ → M W B) Q :
  same d0 d → (∀ r d', same d0 d' → post (k (r, d')) Q) → post (mbnd (device_volume c symID force d) k) Q.
Proof.
  intros Hd Hk. eapply post_bind; [apply device_volume_post|]. intros [r d'] Hd'. apply Hk. by transitivity d.
Qed.

Lemma cleanup_device_post c symID d : post (W:=W) (cleanup_device c symID d) (λ r, same d (fst r)).
Proof.
  unfold cleanup_device. assert (same d d) as Hd by done. case_decide; [|wp; done].
  eapply device_volume_bind; [exact Hd|]. intros r d' Hd'. destruct r as [v|e].
  - case_decide; [eapply updateStatus_bind; [exact Hd'|]; intros; wp; done|].
    destruct (SnapTarget v); [|destruct (SnapSource v)].
    1,2: apply post_skip; intros err; eapply updateStatus_bind; [exact Hd'|]; intros d2 Hd2;
         eapply device_volume_bind; [exact Hd2|]; intros; wp; done.
    eapply updateStatus_bind; [exact Hd'|]. intros; wp; done.
  - eapply updateStatus_bind; [exact Hd'|]. intros; wp; done.
Qed.

Abbreviation same_list := (Forall2 same).

Lemma cleanup_loop_post c symID ds count :
  post (W:=W) (cleanup_loop c symID count ds) (λ r, same_list ds (fst r)).
Proof.
  revert count. induction ds as [|d ds IH]; intros count; simpl; [wp; constructor|].
  destruct (count =? 5); [wp; reflexivity|].
  eapply post_bind; [apply cleanup_device_post|]. intros [d' [k|]] Hd; simpl in *.
  - eapply post_bind; [apply IH|]. intros r Hr. wp. by constructor.
  - wp. constructor; [done|reflexivity].
Qed.

Lemma select_sg_post c symID sgs d0 d :
  same d0 d → post (W:=W) (select_sg c symID sgs d) (λ r, same d0 (snd r)).
Proof.
  revert d. induction sgs as [|sg sgs IH]; intros d Hd; simpl; [by wp|].
  apply post_skip. intros [v|e]; [destruct (0 <? NumOfMaskingViews v); [|by wp]|].
  all: eapply updateStatus_bind; [exact Hd|]; intros d' Hd'; by apply IH.
Qed.

Lemma scan_device_post c symID sgID d :
  post (W:=W) (scan_device c symID sgID d) (λ r, same d (snd (fst r))).
Proof.
  unfold scan_device. case_decide; [by wp|].
  eapply device_volume_bind; [reflexivity|]. intros [v|e] d' Hd'.
  - case_decide; [eapply updateStatus_bind; [exact Hd'|]; intros; by wp|].
    destruct (StorageGroupIDList v) as [|sg sgs].
    + eapply updateStatus_bind; [exact Hd'|]; intros; by wp.
    + case_decide; [|by wp]. eapply post_bind; [apply select_sg_post, Hd'|]. intros [sgID' d2] Hd2. by wp.
  - eapply updateStatus_bind; [exact Hd'|]; intros; by wp.
Qed.

Lemma scan_loop_post c symID ds sgID count :
  post (W:=W) (scan_loop c symID sgID count ds) (λ r, same_list ds (snd (fst r))).
Proof.
  revert sgID count. induction ds as [|d ds IH]; intros sgID count; simpl; [wp; constructor|].
  eapply post_bind; [apply scan_device_post|]. intros [[sgID' d'] add] Hd. simpl in Hd.
  destruct (_ =? MaxRequestsPerStep); [wp; constructor; [done|reflexivity]|].
  eapply post_bind; [apply IH|]. intros [[sgID2 ds'] ids] Hds. wp. by constructor.
Qed.

Lemma update_device_post id (f : csiDevice → M W csiDevice) ds :
  (∀ d, post (f d) (same d)) → post (update_device id f ds) (same_list ds).
Proof.
  intros Hf. induction ds as [|d ds IH]; simpl; [wp; constructor|]. case_decide.
  - eapply post_bind; [apply Hf|]. intros d' Hd. wp. constructor; [done|reflexivity].
  - eapply post_bind; [apply IH|]. intros ds' Hds. wp. by constructor.
Qed.

Lemma after_removal_post c symID err d : post (W:=W) (after_removal c symID err d) (same d).
Proof.
  unfold after_removal. eapply device_volume_bind; [reflexivity|]. intros [v|e] d' Hd'.
  - destruct (StorageGroupIDList v); by apply updateStatus_last.
  - by apply updateStatus_last.
Qed.

Lemma refresh_all_post c symID err ids ds : post (W:=W) (refresh_all c symID err ids ds) (same_list ds).
Proof.
  revert ds. induction ids as [|id ids IH]; intros ds; simpl; [wp; reflexivity|].
  eapply post_bind; [apply update_device_post, after_removal_post|]. intros ds' Hds.
  eapply post_weaken; [apply IH|]. intros ds2 ?. by transitivity ds'.
Qed.

(** What a step may do to a queue. *)
Definition same_queue (q q' : deletionQueue) : Prop :=
  Queue_SymID q' = Queue_SymID q ∧ Queue_ClusterPrefix q' = Queue_ClusterPrefix q
  ∧ same_list (DeviceList q) (DeviceList q').

Lemma same_queue_devices q ds : same_list (DeviceList q) ds → same_queue q (with_devices q ds).
Proof. by split. Qed.

Lemma cleanupSnapshots_post c q : post (W:=W) (cleanupSnapshots c q) (λ r, same_queue q (snd r)).
Proof.
  unfold cleanupSnapshots. eapply post_bind; [apply cleanup_loop_post|]. intros r Hr. wp.
  by apply same_queue_devices.
Qed.

Lemma removeVolumes_post c q : post (W:=W) (removeVolumesFromStorageGroup c q) (λ r, same_queue q (snd r)).
Proof.
  unfold removeVolumesFromStorageGroup. eapply post_bind; [apply scan_loop_post|].
  intros [[sgID ds] ids] Hds. simpl in Hds. destruct ids as [|id ids]; [wp; by apply same_queue_devices|].
  apply post_skip. intros sg. case_match; [wp; by apply same_queue_devices|].
  apply post_skip. intros [answer|err]; [wp; by apply same_queue_devices|].
  apply post_skip. intros _. eapply post_bind; [apply refresh_all_post|]. intros ds' Hds'. wp.
  split; [done|]. split; [done|]. by transitivity ds.
Qed.

Lemma final_check_post n v d0 d : same d0 d → post (W:=W) (final_check n v d) (λ r, same d0 (fst r)).
Proof.
  intros Hd. unfold final_check. destruct (negb _); [|case_decide; [|by wp]];
    (eapply updateStatus_bind; [exact Hd|]; intros; by wp).
Qed.

Lemma validate_device_post c symID version vm d :
  post (W:=W) (validate_device c symID version vm d) (λ r, same d (fst r)).
Proof.
  unfold validate_device. case_decide; [|by wp].
  destruct (vm !! device_id d), (APIVersion101 <=? version); try by apply final_check_post.
  all: eapply device_volume_bind; [reflexivity|]; intros [v'|e] d' Hd'; [by apply final_check_post|].
  all: eapply updateStatus_bind; [exact Hd'|]; intros; by wp.
Qed.

Lemma validate_loop_post c symID version vm ds :
  post (W:=W) (validate_loop c symID version vm ds) (λ r, same_list ds (fst r)).
Proof.
  induction ds as [|d ds IH]; simpl; [wp; constructor|].
  eapply post_bind; [apply validate_device_post|]. intros [d' ok] Hd.
  eapply post_bind; [apply IH|]. intros r Hr. wp. by constructor.
Qed.

Lemma mark_id_post err id ds : post (W:=W) (mark_id err id ds) (same_list ds).
Proof.
  induction ds as [|d ds IH]; simpl; [wp; constructor|].
  eapply (post_bind _ _ (same d)).
  { case_decide; [destruct err; apply updateStatus_post|wp; reflexivity]. }
  intros d' Hd. eapply post_bind; [apply IH|]. intros ds' Hds. wp. by constructor.
Qed.

Lemma mark_ids_post err ids ds : post (W:=W) (mark_ids err ids ds) (same_list ds).
Proof.
  revert ds. induction ids as [|id ids IH]; intros ds; simpl; [wp; reflexivity|].
  eapply post_bind; [apply mark_id_post|]. intros ds' Hds.
  eapply post_weaken; [apply IH|]. intros ds2 ?. by transitivity ds'.
Qed.

Lemma validate_post c q vc : post (W:=W) (validate c q vc) (λ r, same_list (DeviceList q) (fst (fst r))).
Proof.
  unfold validate. apply post_skip. intros [version vc']. apply post_skip. intros vm.
  eapply post_bind; [apply validate_loop_post|]. intros r Hr. by wp.
Qed.

Lemma deleteVolumes_post c q vc : post (W:=W) (deleteVolumes c q vc) (λ r, same_queue q (snd (fst r))).
Proof.
  unfold deleteVolumes. destruct (DeviceList q) eqn:E; [wp; split; [done|split; [done|reflexivity]]|].
  clear E. eapply post_bind; [apply validate_post|]. intros [[ds ids] vc'] Hds. simpl in Hds.
  destruct ids as [|id ids]; [wp; by apply same_queue_devices|].
  apply post_skip. intros err. eapply post_bind; [apply mark_ids_post|]. intros ds' Hds'. wp.
  apply same_queue_devices. by transitivity ds.
Qed.

(** ** Pruning *)
Definition active (d : csiDevice) : Prop := finished (device_state d) = false.
#[export] Instance active_dec d : Decision (active d).
Proof. unfold active. apply _. Defined.

Lemma prune_loop_spec fuel k i ds :
  (i <= k)%nat → (fuel + k)%nat = List.length ds →
  prune_loop fuel k i ds = (take i ds ++ filter active (drop k ds))%list.
Proof.
  revert k i ds. induction fuel as [|fuel IH]; intros k i ds Hik Hlen; cbn [prune_loop].
  - rewrite drop_ge by lia. by rewrite filter_nil, app_nil_r.
  - destruct (lookup_lt_is_Some_2 ds k ltac:(lia)) as [d Hd]. rewrite Hd.
    rewrite (drop_S _ _ _ Hd), filter_cons.
    destruct (decide (active d)) as [Ha|Ha%not_false_is_true].
    2: { unfold active in Ha. rewrite Ha. apply IH; lia. }
    unfold active in Ha. rewrite Ha. rewrite IH by (rewrite ?length_insert; lia).
    rewrite drop_insert_lt by lia. rewrite (take_S_r _ i d) by (apply list_lookup_insert_eq; lia).
    by rewrite take_insert_ge, <- app_assoc by lia.
Qed.

Lemma prune_queue_spec q : prune_queue q = with_devices q (filter active (DeviceList q)).
Proof. unfold prune_queue. rewrite prune_loop_spec by lia. done. Qed.

(** ** The invariant of the worker *)
Definition marked (handle : string) : Prop := HasPrefix handle DeletionPrefix = true.

Record device_ok (symID : string) (d : csiDevice) : Prop := {
  ok_sym : Device_SymID d = symID;
  ok_marked : marked (Device_VolumeIdentifier d);
  ok_id : getDeviceID (device_id d) = Ok (SymDeviceID d);
  ok_errors : errors_bounded d;
}.

Definition queue_ok (symID : string) (q : deletionQueue) : Prop :=
  Queue_SymID q = symID ∧ NoDup (device_id <$> DeviceList q) ∧ Forall (device_ok symID) (DeviceList q).

Definition worker_ok (wk : deletionWorker) : Prop :=
  map_Forall queue_ok (DeletionQueues wk) ∧ Forall (λ d, device_ok (Device_SymID d) d) (DeletionQueueChan wk).

Lemma device_ok_same symID d d' : same d d' → device_ok symID d → device_ok symID d'.
Proof.
  intros [H1 H2 H3 H4] [K1 K2 K3 K4]. unfold device_id in *.
  split; [congruence|by rewrite H3|unfold device_id; by rewrite H1|auto].
Qed.

Lemma same_list_ids ds ds' : same_list ds ds' → device_id <$> ds' = device_id <$> ds.
Proof.
  induction 1 as [|d d' ds ds' Hd Hds IH]; [done|]. rewrite !fmap_cons, IH.
  unfold device_id at 1 3. by rewrite (same_id _ _ Hd).
Qed.

Lemma queue_ok_same symID q q' : same_queue q q' → queue_ok symID q → queue_ok symID q'.
Proof.
  intros (H1 & _ & H3) (K1 & K2 & K3). split; [congruence|]. split.
  - by rewrite (same_list_ids _ _ H3).
  - eapply Forall2_Forall_r; [exact H3|]. eapply Forall_impl; [exact K3|].
    intros d Hd d' Hs. by eapply device_ok_same.
Qed.

Lemma queue_ok_prune symID q : queue_ok symID q → queue_ok symID (prune_queue q).
Proof.
  intros (H1 & H2 & H3). rewrite prune_queue_spec. split; [done|]. split; simpl.
  - eapply sublist_NoDup; [exact H2|]. by apply fmap_sublist, sublist_filter.
  - apply Forall_forall. intros d [_ Hd]%list_elem_of_filter. by eapply Forall_forall in H3.
Qed.

Lemma queue_ok_admit d q :
  device_ok (Device_SymID d) d → queue_ok (Device_SymID d) q →
  queue_ok (Device_SymID d) (fst (Queue_QueueDeviceForDeletion d q)).
Proof.
  intros Hd (H1 & H2 & H3). unfold Queue_QueueDeviceForDeletion.
  destruct (List.find _ _) as [e|] eqn:Hfind; [done|]. split; [done|]. simpl. split.
  - rewrite fmap_app. apply NoDup_app. split; [done|]. split; [|apply NoDup_singleton].
    intros x Hx ->%list_elem_of_singleton. apply list_elem_of_fmap in Hx as (e & He & Hin).
    eapply List.find_none in Hfind; [|by apply list_elem_of_In].
    by rewrite bool_decide_true in Hfind by congruence.
  - apply Forall_app. split; [done|]. by constructor.
Qed.

Lemma receive_ok d qs :
  device_ok (Device_SymID d) d → map_Forall queue_ok qs → map_Forall queue_ok (receive d qs).
Proof.
  intros Hd Hqs. unfold receive. destruct (qs !! Device_SymID d) as [q|] eqn:Hq; [|done].
  apply map_Forall_insert_2; [|done]. apply queue_ok_admit; [done|]. by apply Hqs.
Qed.

Lemma update_ok n wk : worker_ok wk → worker_ok (updateDeletionQueues n wk).
Proof.
  intros [Hq Hc]. split; simpl.
  - assert (Forall (λ d, device_ok (Device_SymID d) d) (take n (DeletionQueueChan wk))) as Ht by by apply Forall_take.
    revert Hq. generalize (DeletionQueues wk).
    induction Ht as [|d ds Hd Hds IH]; intros qs Hqs; simpl; [done|]. by apply IH, receive_ok.
  - by apply Forall_drop.
Qed.

Lemma put_queue_ok wk symID q :
  worker_ok wk → queue_ok symID q → worker_ok (put_queue wk symID q).
Proof. intros [Hq Hc] Hok. split; [|done]. by apply map_Forall_insert_2. Qed.

Lemma queue_of_post wk symID : worker_ok wk → post (W:=W) (queue_of wk symID) (queue_ok symID).
Proof. intros [Hq _]. unfold queue_of. wp. by apply Hq. Qed.

Lemma worker_ok_set_state wk st : worker_ok wk → worker_ok (set_state wk st).
Proof. done. Qed.

Lemma one_step_ok a recv step i wk :
  (∀ c q, post (W:=W) (step c q) (λ r, same_queue q (snd r))) →
  worker_ok wk → post (one_step a recv step i wk) worker_ok.
Proof.
  intros Hstep Hwk. unfold one_step. apply post_skip. intros symID.
  destruct (GetPowerMaxClient1 a symID) as [c|e]; [|by wp].
  eapply post_bind; [by apply queue_of_post|]. intros q Hq.
  eapply post_bind; [apply Hstep|]. intros r Hr. wp.
  assert (worker_ok (put_queue wk symID (snd r))) by (apply put_queue_ok; [done|]; by eapply queue_ok_same).
  destruct (fst r); [by apply update_ok|done].
Qed.

Lemma delete_turns_ok a recv turns i k wk :
  worker_ok wk → post (W:=W) (delete_turns a recv turns i k wk) worker_ok.
Proof.
  revert i wk. induction turns as [|turns IH]; intros i wk Hwk; simpl; [by wp|].
  apply post_skip. intros symID. destruct (GetPowerMaxClient1 a symID) as [c|e]; [|by apply IH].
  eapply post_bind; [by apply queue_of_post|]. intros q Hq.
  eapply post_bind; [apply deleteVolumes_post|]. intros [[updated q'] vc] Hr. simpl in Hr.
  assert (worker_ok (set_versions (put_queue wk symID q') vc)).
  { apply (put_queue_ok wk); [done|]. by eapply queue_ok_same. }
  destruct updated; [by apply IH, update_ok|by wp].
Qed.

Lemma prune_ok wk : worker_ok wk → worker_ok (pruneDeletionQueues wk).
Proof.
  intros [Hq Hc]. split; [|done]. simpl. intros symID q. rewrite lookup_fmap.
  destruct (DeletionQueues wk !! symID) as [q0|] eqn:E; [|done]. intros [= <-]. by apply queue_ok_prune, Hq.
Qed.

Lemma iteration_ok a recv i wk :
  worker_ok wk → post (W:=W) (iteration a recv i wk) (λ r, worker_ok (fst r)).
Proof.
  intros Hwk. unfold iteration. cbn [Worker_State set_state]. destruct (Worker_State wk); cbn [nextStep].
  1,5: eapply post_bind; [apply one_step_ok; [apply removeVolumes_post|done]|]; intros; by wp.
  - eapply post_bind; [by apply delete_turns_ok|]. intros wk' Hwk'. wp. by apply update_ok.
  - eapply post_bind; [apply one_step_ok; [apply cleanupSnapshots_post|done]|]; intros; by wp.
  - wp. by apply prune_ok.
Qed.

Lemma isValid_marked req : isValid req = None → marked (VolumeHandle req).
Proof.
  unfold isValid, marked. case_decide; [done|]. case_decide; [done|].
  destruct (HasPrefix (VolumeHandle req) (DeletionPrefix ++ CSIPrefix ++ "-")) eqn:Hp.
  - intros _. apply HasPrefix_spec in Hp as [r ->]. rewrite app_str_assoc. apply HasPrefix_app.
  - by destruct (HasPrefix (VolumeHandle req) DeletionPrefix).
Qed.

Lemma handle_request_ok a symIDs req :
  post (W:=W) (handle_request a symIDs req)
    (λ r, ∀ d, snd r = Some d → device_ok (Device_SymID d) d).
Proof.
  unfold handle_request. wp; try done.
  match goal with Hg : getDeviceID _ = Ok ?x |- _ => rename Hg into Hid; rename x into did end.
  intros d [= <-]. split; simpl; [done|by apply isValid_marked| |unfold errors_bounded, MaxErrorsStored; simpl; lia].
  unfold device_id. simpl. unfold getDeviceID in Hid. case_match; simplify_eq/=.
  unfold getDeviceID. by match goal with E : ParseInt _ _ = _ |- _ => rewrite E end.
Qed.

Lemma new_worker_ok clusterPrefix symIDs vc : worker_ok (NewDeletionWorker clusterPrefix symIDs vc).
Proof.
  split; [|constructor]. simpl. intros symID q Hq%elem_of_list_to_map_2.
  apply list_elem_of_fmap in Hq as (s' & [= -> ->] & _). split; [done|]. split; constructor.
Qed.

Lemma reachable_ok a clusterPrefix symIDs vc w s :
  rtc (step (W:=W) a) (initial clusterPrefix symIDs vc w) s → worker_ok (worker s).
Proof.
  intros Hr. remember (initial clusterPrefix symIDs vc w) as s0.
  assert (worker_ok (worker s0)) as H0 by (subst; apply new_worker_ok). clear Heqs0.
  induction Hr as [|s1 s2 s3 Hs Hr IH]; [done|]. apply IH. clear IH Hr.
  destruct Hs as [req d w0 w0' wk i Hh Hcap|req e w0 w0' wk i Hh|recv w0 w0' wk wk' i i' Hi|]; simpl in *; [|done| |done].
  - destruct H0 as [Hq Hc]. split; [done|]. simpl. apply Forall_app. split; [done|]. constructor; [|constructor].
    exact (handle_request_ok _ _ _ _ _ _ Hh d eq_refl).
  - by eapply iteration_ok in Hi.
Qed.

(** ** Safety of deletion *)

(** The world in which the array is asked about the device. *)
Definition answer_world (d : csiDevice) (w : W) : W :=
  match volume (SymVolumeCache d) with None => w | Some _ => snd (Now w) end.

(** The device waits for deletion, and the answer the array gave about it during
    this very step says that it is in no storage group and still has the
    identifier of the request. *)
Definition passes (c : C) (symID : string) (version : Z) (vm : gmap string VolumeEnhanced) (w : W) (d : csiDevice) : Prop :=
  device_state d = deletionStateDeleteVol ∧
  match vm !! device_id d, APIVersion101 <=? version with
  | Some ev, true => StorageGroups ev = [] ∧ Identifier ev = Device_VolumeIdentifier d
  | _, _ => ∃ v, fst (GetVolumeByID c symID (device_id d) (answer_world d w)) = Ok v
                 ∧ StorageGroupIDList v = [] ∧ VolumeIdentifier v = Device_VolumeIdentifier d
  end.

Lemma final_check_true n v d w d' w' :
  final_check n v d w = Some ((d', true), w') → n = 0%nat ∧ v = Device_VolumeIdentifier d ∧ d' = d.
Proof.
  unfold final_check, updateStatus, mbnd, lift, ret. destruct (Nat.eqb_spec n 0); simpl.
  - case_decide; [destruct (Now w); done|]. intros [= -> ->]. split; [done|]. split; [|done].
    done.
  - by destruct (Now w).
Qed.

Lemma device_volume_force c symID d w r d' w' :
  device_volume c symID true d w = Some ((r, d'), w') →
  fst (GetVolumeByID c symID (device_id d) (answer_world d w)) = r
  ∧ Device_VolumeIdentifier d' = Device_VolumeIdentifier d ∧ SymDeviceID d' = SymDeviceID d.
Proof.
  unfold device_volume, getOrUpdateVolume, answer_world, mbnd, lift, ret.
  destruct (volume (SymVolumeCache d)) as [v|].
  - destruct (Now w) as [t w1]. rewrite orb_true_r. simpl.
    destruct (GetVolumeByID c symID (device_id d) w1) as [[v'|e] w2]; simpl.
    + destruct (Now w2). by intros [= <- <- <-].
    + by intros [= <- <- <-].
  - destruct (GetVolumeByID c symID (device_id d) w) as [[v'|e] w2]; simpl.
    + destruct (Now w2). by intros [= <- <- <-].
    + by intros [= <- <- <-].
Qed.

Lemma validate_device_true c symID version vm d w d' w' :
  validate_device c symID version vm d w = Some ((d', true), w') →
  passes c symID version vm w d ∧ SymDeviceID d' = SymDeviceID d.
Proof.
  unfold validate_device, passes. case_decide; [|done].
  assert (mbnd (device_volume c symID true d) (λ rd, let '(r, d) := rd in
      match r with
      | Ok vol => final_check (List.length (StorageGroupIDList vol)) (VolumeIdentifier vol) d
      | Err e => mbnd (updateStatus (device_state d) (Error e) d) (λ d, ret (d, false))
      end) w = Some ((d', true), w') →
    (∃ v, fst (GetVolumeByID c symID (device_id d) (answer_world d w)) = Ok v
      ∧ StorageGroupIDList v = [] ∧ VolumeIdentifier v = Device_VolumeIdentifier d) ∧ SymDeviceID d' = SymDeviceID d) as Hone.
  { intros ([r d1] & w1 & Hv & Hk)%mbnd_Some. apply device_volume_force in Hv as (Hr & Hi & Hs).
    destruct r as [v|e].
    - apply final_check_true in Hk as (Hn & Hid & ->). split; [|done]. exists v.
      split; [done|]. split; [by apply length_zero_iff_nil|congruence].
    - apply mbnd_Some in Hk as (d2 & w2 & _ & Hk). done. }
  destruct (vm !! device_id d) as [ev|], (APIVersion101 <=? version); try (intros [? ?]%Hone; by split).
  intros (Hn & Hid & ->)%final_check_true. split; [|done]. split; [done|].
  split; [by apply length_zero_iff_nil|done].
Qed.

Lemma validate_loop_passes c symID version vm ds w ds' ids w' x :
  validate_loop c symID version vm ds w = Some ((ds', ids), w') → x ∈ ids →
  ∃ ds1 d ds2 out1 w1, ds = (ds1 ++ d :: ds2)%list
    ∧ validate_loop c symID version vm ds1 w = Some (out1, w1)
    ∧ passes c symID version vm w1 d ∧ SymDeviceID d = x.
Proof.
  revert w ds' ids. induction ds as [|d ds IH]; intros w ds' ids; cbn [validate_loop].
  - intros [= <- <- <-] ?%elem_of_nil. done.
  - intros ([d' ok] & w1 & Hd & ([ds2 ids2] & w2 & Hl & [= <- <- <-])%mbnd_Some)%mbnd_Some Hx. simpl in *.
    assert (x ∈ ids2 → ∃ ds1 d0 ds3 out1 w3, (d :: ds = ds1 ++ d0 :: ds3)%list
      ∧ validate_loop c symID version vm ds1 w = Some (out1, w3)
      ∧ passes c symID version vm w3 d0 ∧ SymDeviceID d0 = x) as Hrest.
    { intros Hin. destruct (IH _ _ _ Hl Hin) as (ds1 & d0 & ds3 & out1 & w3 & -> & Hl1 & Hp & Hs).
      exists (d :: ds1), d0, ds3, (d' :: fst out1, if ok then SymDeviceID d' :: snd out1 else snd out1), w3.
      split; [done|]. split; [|done]. cbn [validate_loop]. unfold mbnd. by rewrite Hd, Hl1. }
    destruct ok; [|auto]. apply elem_of_cons in Hx as [->|Hx]; [|auto].
    apply validate_device_true in Hd as [Hp Hs].
    exists [], d, ds, ([], []), w. done.
Qed.

(** C1: Whatever has happened before, when the worker deletes, the array is
    asked to delete one range of devices, and every device number of that range
    belongs to a queued device that carries the deletion mark, waits for
    deletion and has just been checked: in no storage group and with an
    unchanged identifier. *)
Theorem deletion_only_checked a clusterPrefix symIDs vc0 w0 s symID q c vc w q' vc' w' :
  rtc (step (W:=W) a) (initial clusterPrefix symIDs vc0 w0) s →
  DeletionQueues (worker s) !! symID = Some q →
  deleteVolumes c q vc w = Some ((true, q', vc'), w') →
  ∃ version vm out r err w1 w2 w3,
    api_version c symID vc w = Some ((version, vc'), w1)
    ∧ validate_loop c symID version vm (DeviceList q) w2 = Some (out, w3)
    ∧ bulk_volumes c q version w1 = Some (vm, w2)
    ∧ err = DeleteVolume c symID (range_get r) w3
    ∧ mark_ids (fst err) (getDeviceIDs r) (fst out) (snd err) = Some (DeviceList q', w')
    ∧ ∀ i, IntVal (Start r) <= i <= IntVal (End_ r) →
        ∃ ds1 d ds2 out1 wd, DeviceList q = (ds1 ++ d :: ds2)%list
          ∧ validate_loop c symID version vm ds1 w2 = Some (out1, wd)
          ∧ passes c symID version vm wd d ∧ IntVal (SymDeviceID d) = i
          ∧ marked (Device_VolumeIdentifier d).
Proof.
  intros Hr%reachable_ok Hq Hdel. destruct Hr as [Hqs _].
  destruct (Hqs _ _ Hq) as (Hsym & _ & Hall). unfold deleteVolumes, validate in Hdel.
  destruct (DeviceList q) as [|d0 ds0] eqn:Eds; [done|]. rewrite <- Eds in *. clear Eds.
  apply mbnd_Some in Hdel as ([[ds ids] vc1] & w3 & Hval & Hdel).
  apply mbnd_Some in Hval as ([version vc2] & w1 & Hver & Hval).
  apply mbnd_Some in Hval as (vm & w2 & Hbulk & Hval).
  apply mbnd_Some in Hval as (out & w3' & Hloop & [= -> <- <-]).
  assert (ids ≠ []) as Hne by (by intros ->).
  destruct ids as [|x ids'] eqn:Eids; [done|]. rewrite <- Eids in *. clear Eids.
  apply mbnd_Some in Hdel as (err & w4 & [= Herr] & Hdel).
  apply mbnd_Some in Hdel as (ds' & w5 & Hmark & [= <- <- <-]).
  rewrite Hsym in *.
  exists version, vm, (ds, ids), (choose_range (getDeviceRanges (sort_ids ids)) ids), (err, w4), w1, w2, w3'.
  split; [done|]. split; [done|]. split; [done|]. split; [done|]. split; [done|].
  intros i Hi. destruct (chosen_range_sound ids i Hne Hi) as (y & Hy & <-).
  destruct (validate_loop_passes _ _ _ _ _ _ _ _ _ y Hloop Hy) as (ds1 & d & ds2 & out1 & wd & E & Hl1 & Hp & <-).
  exists ds1, d, ds2, out1, wd. do 4 (split; [done|]).
  rewrite Forall_forall in Hall. apply (Hall d). rewrite E. apply elem_of_app. right. by left.
Qed.

Definition marks (ids : list string) (d d' : csiDevice) : Prop :=
  same d d' ∧ (device_id d ∈ ids ∨ device_state d = deleted → device_state d' = deleted).

Lemma mark_id_deleted id ds w :
  ∃ ds' w', mark_id None id ds w = Some (ds', w') ∧ Forall2 (marks [id]) ds ds'.
Proof.
  revert w. induction ds as [|d ds IH]; intros w; cbn [mark_id]; [exists [], w; by split; [|constructor]|].
  unfold mbnd. case_decide as Hid.
  - unfold updateStatus, mbnd, lift, ret. destruct (Now w) as [t w1].
    destruct (IH w1) as (ds' & w' & -> & Hds). do 2 eexists. split; [done|]. constructor; [|done].
    split; [apply same_status|done].
  - unfold ret. destruct (IH w) as (ds' & w' & -> & Hds). do 2 eexists. split; [done|]. constructor; [|done].
    split; [done|]. intros [?%list_elem_of_singleton|?]; [congruence|done].
Qed.

Lemma mark_ids_deleted ids ds w :
  ∃ ds' w', mark_ids None ids ds w = Some (ds', w') ∧ Forall2 (marks ids) ds ds'.
Proof.
  revert ds w. induction ids as [|id ids IH]; intros ds w; cbn [mark_ids].
  - exists ds, w. split; [done|]. apply Forall_Forall2_diag, Forall_true. intros d. split; [done|].
    by intros [?%elem_of_nil|?].
  - unfold mbnd. destruct (mark_id_deleted id ds w) as (ds1 & w1 & -> & H1).
    destruct (IH ds1 w1) as (ds2 & w2 & -> & H2). do 2 eexists. split; [done|].
    eapply Forall2_trans; [|exact H1|exact H2].
    intros d d1 d2 [Hs1 Hm1] [Hs2 Hm2]. split; [by transitivity d1|].
    intros [[Hid|Hin]%elem_of_cons|Hd]; apply Hm2; [right|left|right].
    + apply Hm1. left. by apply list_elem_of_singleton.
    + unfold device_id in *. by rewrite (same_id _ _ Hs1).
    + apply Hm1. by right.
Qed.

Lemma validate_ids c q vc w ds ids vc' w' x :
  validate c q vc w = Some ((ds, ids, vc'), w') → x ∈ ids → ∃ d, d ∈ DeviceList q ∧ SymDeviceID d = x.
Proof.
  unfold validate. intros ([version vc2] & w1 & _ & Hv)%mbnd_Some Hx.
  apply mbnd_Some in Hv as (vm & w2 & _ & Hv). apply mbnd_Some in Hv as (out & w3 & Hloop & [= -> _ _]).
  destruct (validate_loop_passes _ _ _ _ _ _ _ _ _ x Hloop Hx) as (ds1 & d & ds2 & _ & _ & E & _ & _ & Hd).
  exists d. split; [|done]. rewrite E. apply elem_of_app. right. by left.
Qed.

(** The id of the device is the one the worker writes for its number. *)
Definition canonical (d : csiDevice) : Prop := device_id d = canonicalID (IntVal (SymDeviceID d)).

(** When some device passes the checks and the array deletes the range it is
    asked to, the step marks every queued device of that range as deleted, one
    at least, so the next pruning removes them. *)
Theorem deletion_progress c q vc w ds ids vc' w1 :
  (∀ d, d ∈ DeviceList q → canonical d) →
  validate c q vc w = Some ((ds, ids, vc'), w1) → ids ≠ [] →
  let r := choose_range (getDeviceRanges (sort_ids ids)) ids in
  fst (DeleteVolume c (Queue_SymID q) (range_get r) w1) = None →
  ∃ q' w', deleteVolumes c q vc w = Some ((true, q', vc'), w')
    ∧ (∀ d, d ∈ DeviceList q' → IntVal (Start r) <= IntVal (SymDeviceID d) <= IntVal (End_ r) → device_state d = deleted)
    ∧ (List.length (DeviceList (prune_queue q')) < List.length (DeviceList q))%nat.
Proof.
  intros Hcanon Hval Hne r Hdel.
  pose proof (validate_post _ _ _ _ _ _ Hval) as Hsame. simpl in Hsame.
  destruct (DeleteVolume c (Queue_SymID q) (range_get r) w1) as [err w2] eqn:Edel. simpl in Hdel. subst err.
  destruct (mark_ids_deleted (getDeviceIDs r) ds w2) as (ds' & w' & Hmark & Hmarks).
  assert (Forall2 (λ d d', same d d' ∧ (device_id d ∈ getDeviceIDs r → device_state d' = deleted)) (DeviceList q) ds') as Hall.
  { eapply Forall2_trans; [|exact Hsame|exact Hmarks]. intros d d1 d2 Hs1 [Hs2 Hm]. split; [by transitivity d1|].
    intros Hin. apply Hm. left. unfold device_id in *. by rewrite (same_id _ _ Hs1). }
  destruct (chosen_range_sound ids (IntVal (Start r)) Hne) as (x & Hx & Hxr).
  { split; [apply Z.le_refl|]. by apply chosen_range_le. }
  destruct (validate_ids _ _ _ _ _ _ _ _ x Hval Hx) as (d0 & Hd0 & Hd0x).
  exists (with_devices q ds'), w'. split; [|split].
  - unfold deleteVolumes. destruct (DeviceList q) eqn:E; [by apply elem_of_nil in Hd0|].
    unfold mbnd. rewrite Hval. destruct ids as [|y ids']; [done|]. unfold lift. fold r. rewrite Edel, Hmark. done.
  - simpl. intros d' [k Hk]%list_elem_of_lookup Hin.
    destruct (Forall2_lookup_r _ _ _ _ _ Hall Hk) as (d & Hd & Hs & Hm). apply Hm.
    rewrite (Hcanon d) by (by eapply list_elem_of_lookup_2). rewrite <- (same_id _ _ Hs). by apply in_getDeviceIDs.
  - rewrite prune_queue_spec. simpl. rewrite (Forall2_length _ _ _ Hall).
    apply list_elem_of_lookup in Hd0 as [k Hk].
    destruct (Forall2_lookup_l _ _ _ _ _ Hall Hk) as (d' & Hd' & Hs & Hm).
    apply length_filter_lt with d'; [by eapply list_elem_of_lookup_2|].
    unfold active. rewrite Hm; [done|].
    rewrite (Hcanon d0) by (by eapply list_elem_of_lookup_2). apply in_getDeviceIDs.
    rewrite Hd0x. pose proof (chosen_range_le ids Hne). simpl in *. unfold r in *. lia.
Qed.

(** At every reachable point the devices of a queue have distinct ids, each
    belongs to the queue's array, was requested with a deletion mark, keeps the
    number its id stands for and at most MaxErrorsStored error messages; the
    same holds of devices on their way to the queues. *)
Theorem deletion_queue_invariant a clusterPrefix symIDs vc w s :
  rtc (step (W:=W) a) (initial clusterPrefix symIDs vc w) s → worker_ok (worker s).
Proof. apply reachable_ok. Qed.

(** Compacting the slice in place removes exactly the devices that are
    deleted, maxed out or skipped, and keeps the others in order. *)
Theorem prune_exact wk symID :
  DeletionQueues (pruneDeletionQueues wk) !! symID
  = (λ q, with_devices q (filter active (DeviceList q))) <$> DeletionQueues wk !! symID.
Proof.
  simpl. rewrite lookup_fmap. destruct (DeletionQueues wk !! symID); [|done]. simpl. by rewrite prune_queue_spec.
Qed.

Definition marked_sessions (l : list VolumeSnapshotSource) : list VolumeSnapshotSource :=
  List.filter (λ s, deletable (SnapshotName s)) l.

(** Cleaning up the snapshots of a volume goes through the same calls, with
    the same outcome, as if the snapshots that are neither temporary nor marked
    for deletion did not exist: they are never unlinked or terminated. *)
Theorem other_snapshots_untouched c symID volumeID l (w : W) :
  terminate_sessions c symID volumeID l w
  = terminate_sessions c symID volumeID (marked_sessions l) w.
Proof.
  revert w. induction l as [|s l IH]; intros w; [done|]. simpl. unfold mbnd.
  destruct (deletable (SnapshotName s)) eqn:Hs.
  - cbn [terminate_sessions]. unfold mbnd. destruct (terminate_session c symID volumeID s w) as [[[e|] w1]|]; [done|apply IH|done].
  - unfold terminate_session. rewrite Hs. apply IH.
Qed.
End steps.

(** ** Witnesses *)
Import SimArray.
Definition vol1 : Volume := mkVolume "00001" "_DELcsi-ABC-vol1" [] false false "" 0 547 [] fzero.
Definition array1 : Sim := sim [vol1] (mkStorageGroupRDFG [] []).
Definition arrays1 : gmap string (PowerMax (C:=string)) := {["sym" := mkPowerMax "sym" "c"]}.
Definition dev1 (state : string) : csiDevice :=
  mkDevice (mkSymDeviceID "00001" 1) "sym" (mkVolumeCache (Some vol1) 100) "_DELcsi-ABC-vol1" (mkStatus 100 100 0 [] state).
Definition queue1 : deletionQueue := mkQueue [dev1 deletionStateDeleteVol] "sym" "ABC".
Definition worker1 (ch : list csiDevice) (q : deletionQueue) (st : worker_step) : deletionWorker :=
  mkWorker {["sym" := q]} ["sym"] "ABC" ch st (Some ∅).

Lemma step_iterate_to a recv (w w' : Sim) wk wk' i i' :
  iteration a recv i wk w = Some ((wk', i'), w') → step (C:=string) a (mkSystem w wk i) (mkSystem w' wk' i').
Proof. apply step_iterate. Qed.

Lemma queue1_reachable :
  rtc (step arrays1) (initial "ABC" ["sym"] ∅ array1) (mkSystem array1 (worker1 [] queue1 deleteVolumeStep) 0).
Proof.
  pose (d := dev1 deletionStateDeleteVol). pose (q0 := emptyQueue "ABC" "sym").
  eapply rtc_l; [eapply (step_request arrays1 (mkDeletionRequest "00001" "_DELcsi-ABC-vol1" "sym") d); vm_compute; reflexivity|].
  apply rtc_l with (mkSystem array1 (worker1 [d] q0 removeVolumesFromSGStep) 0).
  { apply (step_iterate_to arrays1 (λ _, 1%nat)). vm_compute. reflexivity. }
  apply rtc_l with (mkSystem array1 (worker1 [d] q0 cleanupSnapshotStep) 0).
  { apply (step_iterate_to arrays1 (λ _, 1%nat)). vm_compute. reflexivity. }
  apply rtc_once. apply (step_iterate_to arrays1 (λ _, 1%nat)). vm_compute. reflexivity.
Qed.

Definition deleted1 : Sim := log "delete 00001" array1.

Lemma deletion_only_checked_witness :
  ∃ r, ∀ i, IntVal (Start r) <= i <= IntVal (End_ r) →
    ∃ d, d ∈ DeviceList queue1 ∧ IntVal (SymDeviceID d) = i ∧ marked (Device_VolumeIdentifier d).
Proof.
  assert (deleteVolumes "c" queue1 None array1 = Some ((true, mkQueue [dev1 deleted] "sym" "ABC", None), deleted1)) as Hdel
    by (vm_compute; reflexivity).
  destruct (deletion_only_checked arrays1 "ABC" ["sym"] ∅ array1 _ "sym" queue1 "c" None array1 _ None deleted1
    queue1_reachable eq_refl Hdel) as (version & vm & out & r & err & w1 & w2 & w3 & _ & _ & _ & _ & _ & Hr).
  exists r. intros i Hi. destruct (Hr i Hi) as (ds1 & d & ds2 & _ & _ & E & _ & _ & Hd & Hm).
  exists d. split; [|by split]. rewrite E. apply elem_of_app. right. by left.
Defined.

Lemma deletion_queue_invariant_witness : worker_ok (worker1 [] queue1 deleteVolumeStep).
Proof. exact (deletion_queue_invariant arrays1 "ABC" ["sym"] ∅ array1 _ queue1_reachable). Defined.

Lemma device_id_roundtrip_witness : getDeviceID "0012F" = Ok (mkSymDeviceID "0012F" 303).
Proof. apply (device_id_roundtrip 303). lia. Defined.

Lemma deletion_progress_witness :
  ∃ q' w', deleteVolumes "c" queue1 None array1 = Some ((true, q', None), w')
    ∧ (∀ d, d ∈ DeviceList q' → 1 <= IntVal (SymDeviceID d) <= 1 → device_state d = deleted)
    ∧ (List.length (DeviceList (prune_queue q')) < 1)%nat.
Proof.
  apply (deletion_progress "c" queue1 None array1 [dev1 deletionStateDeleteVol] [mkSymDeviceID "00001" 1] None array1).
  - intros d ->%list_elem_of_singleton. vm_compute. reflexivity.
  - vm_compute. reflexivity.
  - discriminate.
  - vm_compute. reflexivity.
Defined.
End DeletionSafety.
