(* ===== verification/ProxyLocks.v ===== *)
(** * Admission control of the reverse proxy

    Models csireverseproxy/pkg/utils/locks.go (and the limits of utils.go): a
    single goroutine admits at most [MaxActive] requests per Unisphere and request
    type, queues up to [MaxOutStanding] more, and refuses the rest. Wait channels
    are identified with the number of the request that owns them. *)

From S2P Require Import Prelude.
From stdpp Require Import base gmap strings list.
From Stdlib Require Import ZArith Lia.

Open Scope Z_scope.

Module ProxyLocks.

(** ** Limits *)

Inductive LockType := ReadRequest | WriteRequest.

Record Limits := mkLimits {
  MaxActiveRead : Z;
  MaxActiveWrite : Z;
  MaxOutStandingRead : Z;
  MaxOutStandingWrite : Z
}.

Definition MaxActiveReadRequests : Z := 5.
Definition MaxOutStandingWriteRequests : Z := 50.
Definition MaxActiveWriteRequests : Z := 4.
Definition MaxOutStandingReadRequests : Z := 50.

Definition GetRequestType (method : string) : LockType :=
  if decide (method = "GET"%string) then ReadRequest else WriteRequest.

Definition GetMaxOutStanding (t : LockType) (l : Limits) : Z :=
  match t with
  | ReadRequest => if MaxOutStandingRead l =? 0 then MaxOutStandingReadRequests else MaxOutStandingRead l
  | WriteRequest => if MaxOutStandingWrite l =? 0 then MaxOutStandingWriteRequests else MaxOutStandingWrite l
  end.

Definition GetMaxActive (t : LockType) (l : Limits) : Z :=
  match t with
  | ReadRequest => if MaxActiveRead l =? 0 then MaxActiveReadRequests else MaxActiveRead l
  | WriteRequest => if MaxActiveWrite l =? 0 then MaxActiveWriteRequests else MaxActiveWrite l
  end.

(** ** The lock request handler *)

Record LockRequest := mkRequest {
  ResourceID : string;
  Unlock : bool;
  WaitChannel : Z;
  ReqMaxOutStanding : Z;
  ReqMaxActive : Z
}.

Record LockProperties := mkProperties {
  MaxActive : Z;
  MaxOutStanding : Z;
  Active : Z;
  Waiting : list Z;
  Modified : bool
}.

Abbreviation lockMap := (gmap string LockProperties).

(** [Queue]: the properties after the request and the reply sent, if any. *)
Definition Queue (request : LockRequest) (p : LockProperties) : LockProperties * option (Z * bool) :=
  let dirty := Modified p || negb (MaxActive p =? ReqMaxActive request)
               || negb (MaxOutStanding p =? ReqMaxOutStanding request) in
  if Active p <? MaxActive p then
    (mkProperties (MaxActive p) (MaxOutStanding p) (Active p + 1) (Waiting p) dirty,
     Some (WaitChannel request, true))
  else if Z.of_nat (length (Waiting p)) <? MaxOutStanding p then
    (mkProperties (MaxActive p) (MaxOutStanding p) (Active p) (Waiting p ++ [WaitChannel request]) dirty, None)
  else
    (mkProperties (MaxActive p) (MaxOutStanding p) (Active p) (Waiting p) dirty,
     Some (WaitChannel request, false)).

(** [Release]: the properties after the release and the waiter it admits. *)
Definition Release (p : LockProperties) : LockProperties * option (Z * bool) :=
  if Active p =? MaxActive p then
    match Waiting p with
    | next :: rest =>
        (mkProperties (MaxActive p) (MaxOutStanding p) (Active p) rest (Modified p), Some (next, true))
    | [] => (mkProperties (MaxActive p) (MaxOutStanding p) (Active p - 1) [] (Modified p), None)
    end
  else (mkProperties (MaxActive p) (MaxOutStanding p) (Active p - 1) (Waiting p) (Modified p), None).

(** [addEntryToMap]: a fresh entry takes its limits from the request. *)
Definition newEntry (request : LockRequest) : LockProperties :=
  mkProperties (ReqMaxActive request) (ReqMaxOutStanding request) 0 [] false.

(** One iteration of [LockRequestHandler]: a drained entry whose limits changed
    is deleted. *)
Definition handle (request : LockRequest) (fifoLocks : lockMap) : lockMap * option (Z * bool) :=
  let r := ResourceID request in
  let p := default (newEntry request) (fifoLocks !! r) in
  if Unlock request then
    let '(p', reply) := Release p in
    (if (Active p' =? 0) && Modified p' then delete r fifoLocks else <[r := p']> fifoLocks, reply)
  else
    let '(p', reply) := Queue request p in (<[r := p']> fifoLocks, reply).

(** [Lock.Lock] and [Lock.Release]: the requests they send. *)
Definition lockRequest (r : string) (n outstanding active : Z) : LockRequest :=
  mkRequest r false n outstanding active.
Definition releaseRequest (r : string) (n : Z) : LockRequest := mkRequest r true n 0 0.

(** ** The system

    [holders]: requests that were admitted and have not released; [refused]:
    requests that got [false]. *)
Record system := mkSystem {
  queue : list LockRequest;
  locks : lockMap;
  holders : list (string * Z);
  refused : list (string * Z)
}.

Definition init : system := mkSystem [] ∅ [] [].

Definition admitted (r : string) (reply : option (Z * bool)) : list (string * Z) :=
  match reply with Some (n, true) => [(r, n)] | _ => [] end.
Definition rejected (r : string) (reply : option (Z * bool)) : list (string * Z) :=
  match reply with Some (n, false) => [(r, n)] | _ => [] end.

(** The clients. [ServeReverseProxy] and [getResponseIfAuthorised] return when
    [Lock] fails; [ServeIterator] goes on and releases in any case. *)
Inductive step (serveIterator : bool) : system → system → Prop :=
| step_lock r n o a s :
    step serveIterator s (mkSystem (queue s ++ [lockRequest r n o a]) (locks s) (holders s) (refused s))
| step_release r n hs1 hs2 s :
    holders s = hs1 ++ (r, n) :: hs2 →
    step serveIterator s (mkSystem (queue s ++ [releaseRequest r n]) (locks s) (hs1 ++ hs2) (refused s))
| step_release_refused r n rs1 rs2 s :
    serveIterator = true → refused s = rs1 ++ (r, n) :: rs2 →
    step serveIterator s (mkSystem (queue s ++ [releaseRequest r n]) (locks s) (holders s) (rs1 ++ rs2))
| step_handle q qs m' reply s :
    queue s = q :: qs → handle q (locks s) = (m', reply) →
    step serveIterator s (mkSystem qs m' (holders s ++ admitted (ResourceID q) reply)
                            (refused s ++ rejected (ResourceID q) reply)).

Section resource.
Context (r : string).

Definition count (l : list (string * Z)) : Z :=
  Z.of_nat (length (filter (λ x, x.1 = r) l)).
Definition unlocks (q : list LockRequest) : Z :=
  Z.of_nat (length (filter (λ x, ResourceID x = r ∧ Unlock x = true) q)).

(** All lock requests of [r] carry limits of at least one active request and at
    most [B]. *)
Definition limits_ok (B : Z) (q : LockRequest) : Prop :=
  ResourceID q = r → Unlock q = false → 1 <= ReqMaxActive q <= B ∧ 0 <= ReqMaxOutStanding q.

Definition entry_ok (B : Z) (p : LockProperties) (out : Z) : Prop :=
  Active p = out ∧ 1 <= MaxActive p <= B ∧ Active p <= MaxActive p ∧
  (Waiting p ≠ [] → Active p = MaxActive p) ∧ Z.of_nat (length (Waiting p)) <= MaxOutStanding p.

(** Requests admitted and not yet fully released. *)
Definition outstanding (s : system) : Z := count (holders s) + unlocks (queue s).

Definition resource_inv (B : Z) (s : system) : Prop :=
  Forall (limits_ok B) (queue s) ∧
  match locks s !! r with
  | None => outstanding s = 0
  | Some p => entry_ok B p (outstanding s)
  end.

Lemma count_app l1 l2 : count (l1 ++ l2) = count l1 + count l2.
Proof. unfold count. rewrite filter_app, length_app. lia. Qed.
Lemma count_nonneg l : 0 <= count l.
Proof. unfold count. lia. Qed.
Lemma unlocks_app q1 q2 : unlocks (q1 ++ q2) = unlocks q1 + unlocks q2.
Proof. unfold unlocks. rewrite filter_app, length_app. lia. Qed.
Lemma unlocks_nonneg q : 0 <= unlocks q.
Proof. unfold unlocks. lia. Qed.
Lemma count_one r' n : count [(r', n)] = if decide (r' = r) then 1 else 0.
Proof. unfold count. rewrite filter_cons. simpl. by case_decide. Qed.
Lemma unlocks_cons q qs :
  unlocks (q :: qs) = (if decide (ResourceID q = r ∧ Unlock q = true) then 1 else 0) + unlocks qs.
Proof. unfold unlocks. rewrite filter_cons. case_decide; simpl length; lia. Qed.

Lemma count_admitted reply :
  count (admitted r reply) = match reply with Some (_, true) => 1 | _ => 0 end.
Proof.
  destruct reply as [[n []]|]; simpl; [|done..]. rewrite count_one. by rewrite decide_True.
Qed.

Lemma count_admitted_other r' reply : r' ≠ r → count (admitted r' reply) = 0.
Proof.
  intros Hne. destruct reply as [[n []]|]; simpl; [|done..]. rewrite count_one. by rewrite decide_False.
Qed.

Lemma Queue_ok B q p p' reply out :
  Queue q p = (p', reply) → entry_ok B p out →
  entry_ok B p' (out + match reply with Some (_, true) => 1 | _ => 0 end).
Proof.
  unfold Queue, entry_ok. intros E (HA & HM & HAM & HW & HL).
  case_all; bool_to_prop; simpl; repeat split; try lia; try (intros; exfalso; by apply HW || lia).
  all: try (intros Hw; specialize (HW Hw); lia).
  all: try (rewrite length_app; simpl; lia).
Qed.

Lemma Release_ok B p p' reply out :
  Release p = (p', reply) → entry_ok B p out → 0 < out →
  entry_ok B p' (out - 1 + match reply with Some (_, true) => 1 | _ => 0 end) ∧
  (Active p' = 0 → Waiting p' = []).
Proof.
  unfold Release, entry_ok. intros E (HA & HM & HAM & HW & HL) Hout.
  destruct (Active p =? MaxActive p) eqn:Ea; bool_to_prop.
  - destruct (Waiting p) as [|next rest] eqn:Ew; simplify_eq/=; repeat split; try lia; try done.
  - assert (Waiting p = []) as Hw.
    { destruct (Waiting p) eqn:Ew; [done|]. destruct Ea. by apply HW. }
    simplify_eq/=. rewrite Hw in *. repeat split; try lia; done.
Qed.

Lemma admission_handle_other q m m' reply :
  ResourceID q ≠ r → handle q m = (m', reply) →
  m' !! r = m !! r.
Proof.
  unfold handle. intros Hne E. case_all; [by rewrite lookup_delete_ne|by rewrite lookup_insert_ne..].
Qed.

(** The handler keeps the invariant: an admitted request becomes a holder, a
    processed release is no longer outstanding. *)
Lemma admission_handle_inv B q qs m m' reply hs ref :
  resource_inv B (mkSystem (q :: qs) m hs ref) → handle q m = (m', reply) →
  resource_inv B (mkSystem qs m' (hs ++ admitted (ResourceID q) reply) (ref ++ rejected (ResourceID q) reply)).
Proof.
  unfold resource_inv, outstanding. simpl. intros [[Hq Hqs]%Forall_cons Hent] E. split; [done|].
  rewrite count_app. rewrite unlocks_cons in Hent.
  destruct (decide (ResourceID q = r)) as [Hr|Hne].
  2:{ rewrite (admission_handle_other q m m' reply) by done. rewrite count_admitted_other by done.
      rewrite decide_False in Hent by naive_solver. rewrite Z.add_0_r. done. }
  rewrite Hr, count_admitted. unfold handle in E. rewrite Hr in E.
  pose proof (count_nonneg hs). pose proof (unlocks_nonneg qs).
  destruct (Unlock q) eqn:Hu.
  - rewrite decide_True in Hent by done.
    destruct (m !! r) as [p|] eqn:Em; [|lia]. simpl in E.
    destruct (Release p) as [p' rep] eqn:Er. simplify_eq.
    apply (Release_ok B) with (out := count hs + (1 + unlocks qs)) in Er as [Hok Hw]; [|done|lia].
    destruct ((Active p' =? 0) && Modified p') eqn:Ed.
    + rewrite lookup_delete_eq. bool_to_prop. destruct Hok as (HA & _). lia.
    + rewrite lookup_insert_eq. replace (_ + _) with
        (count hs + (1 + unlocks qs) - 1 + match reply with Some (_, true) => 1 | _ => 0 end); [done|].
      destruct reply as [[n []]|]; lia.
  - rewrite decide_False in Hent by naive_solver.
    destruct (Queue q _) as [p' rep] eqn:Eq. simplify_eq. rewrite lookup_insert_eq.
    apply (Queue_ok B) with (out := count hs + (0 + unlocks qs)) in Eq.
    + replace (_ + _) with
        (count hs + (0 + unlocks qs) + match reply with Some (_, true) => 1 | _ => 0 end); [done|].
      destruct reply as [[n []]|]; lia.
    + destruct (m !! r) as [p|]; simpl; [done|]. destruct (Hq Hr Hu) as [Hma Hmo].
      unfold entry_ok, newEntry. simpl. repeat split; try lia; done.
Qed.

Lemma admission_step_inv B s s' :
  step false s s' → Forall (limits_ok B) (queue s') → resource_inv B s → resource_inv B s'.
Proof.
  intros Hstep Hq Hinv. destruct Hstep as [r' n o a s|r' n hs1 hs2 s Hh|r' n rs1 rs2 s He|q qs m' reply s Eq Eh];
    [| |done|].
  - destruct Hinv as [_ Hent]. split; [done|]. unfold outstanding in *. simpl in *.
    rewrite unlocks_app, unlocks_cons. change (unlocks []) with 0. simpl.
    rewrite decide_False by naive_solver. rewrite !Z.add_0_r. done.
  - destruct Hinv as [_ Hent]. split; [done|]. unfold outstanding in *. simpl in *.
    rewrite unlocks_app, unlocks_cons. change (unlocks []) with 0. simpl.
    rewrite Hh, (cons_middle (r', n)), !count_app, count_one in Hent.
    rewrite count_app. unfold entry_ok in *.
    case_decide as H1; case_decide as H2; [|naive_solver..|];
      (destruct (locks s !! r) as [p|]; [destruct Hent; split; [lia|done]|lia]).
  - destruct s as [q0 m0 hs0 rs0]. simpl in *. subst q0. by eapply admission_handle_inv.
Qed.

End resource.

(** Runs in which every lock request of [r] carries legal limits, at most [B]. *)
Definition bounded_step (r : string) (B : Z) (s s' : system) : Prop :=
  step false s s' ∧ Forall (limits_ok r B) (queue s').

(** C37: with clients that return when the lock is refused, the proxy never lets
    more than [B] requests of a resource through at a time, where [B] bounds the
    limits that were ever configured for it (also while the limits change). *)
Theorem proxy_admission_bound r B s :
  0 <= B → rtc (bounded_step r B) init s → count r (holders s) <= B.
Proof.
  intros HB Hrun.
  assert (resource_inv r B s) as [_ Hent].
  { assert (∀ s0, rtc (bounded_step r B) s0 s → resource_inv r B s0 → resource_inv r B s) as H.
    { induction 1 as [|? ? ? [??]]; eauto using admission_step_inv. }
    eapply H; [done|]. split; [apply Forall_nil_2|done]. }
  pose proof (unlocks_nonneg r (queue s)). unfold outstanding in Hent.
  destruct (_ !! r) as [p|]; [|lia]. destruct Hent as (HA & HM & HAM & _). unfold outstanding in HA. lia.
Qed.

(** *** Concrete runs *)

(** One iteration of the handler, from explicit states. *)
Lemma step_handle_to b s s' q qs m' reply :
  queue s = q :: qs → handle q (locks s) = (m', reply) →
  s' = mkSystem qs m' (holders s ++ admitted (ResourceID q) reply) (refused s ++ rejected (ResourceID q) reply) →
  step b s s'.
Proof. intros ?? ->. by eapply step_handle. Qed.

(** The entry of one Unisphere with a limit of one active request. *)
Definition one_slot (active : Z) : lockMap := {["u4p" := mkProperties 1 0 active [] false]}.

Definition run1 := mkSystem [lockRequest "u4p" 1 0 1] ∅ [] [].
Definition run2 := mkSystem [lockRequest "u4p" 2 0 1] (one_slot 1) [("u4p"%string, 1)] [].
Definition run3 := mkSystem [] (one_slot 1) [("u4p"%string, 1)] [("u4p"%string, 2)].
Definition run4 := mkSystem [releaseRequest "u4p" 2] (one_slot 1) [("u4p"%string, 1)] [].
Definition run5 := mkSystem [lockRequest "u4p" 3 0 1] (one_slot 0) [("u4p"%string, 1)] [].
Definition run6 := mkSystem [] (one_slot 1) [("u4p"%string, 1); ("u4p"%string, 3)] [].

Ltac handler_step := eapply step_handle_to; [reflexivity|vm_compute; reflexivity|vm_compute; reflexivity].

(** [ServeIterator] breaks that bound: with a limit of one active request,
    a request that was refused goes on and releases the slot of the request that
    holds it, and another one is let through besides. *)
Theorem iterator_release_overcommits :
  rtc (step true) init run6 ∧ locks run6 = one_slot 1 ∧ count "u4p" (holders run6) = 2.
Proof.
  split; [|split; vm_compute; reflexivity].
  eapply (rtc_l _ _ run1); [apply (step_lock true "u4p" 1 0 1 init)|].
  eapply (rtc_l _ _ (mkSystem [] (one_slot 1) [("u4p"%string, 1)] [])); [handler_step|].
  eapply (rtc_l _ _ run2); [apply (step_lock true "u4p" 2 0 1 (mkSystem [] _ _ _))|].
  eapply (rtc_l _ _ run3); [handler_step|].
  eapply (rtc_l _ _ run4); [apply (step_release_refused true "u4p" 2 [] [] run3); reflexivity|].
  eapply (rtc_l _ _ (mkSystem [] (one_slot 0) [("u4p"%string, 1)] [])); [handler_step|].
  eapply (rtc_l _ _ run5); [apply (step_lock true "u4p" 3 0 1 (mkSystem [] _ _ _))|].
  eapply (rtc_l _ _ run6); [handler_step|]. apply rtc_refl.
Qed.

Definition run_read := mkSystem [lockRequest "u4p" 1 50 5] ∅ [] [].
Definition run_read' :=
  mkSystem [] {["u4p" := mkProperties 5 50 1 [] false]} [("u4p"%string, 1)] [].

Lemma proxy_admission_bound_witness :
  GetMaxActive ReadRequest (mkLimits 0 0 0 0) = 5 ∧ count "u4p" (holders run_read') <= 5.
Proof.
  split; [reflexivity|].
  apply (proxy_admission_bound "u4p" 5 run_read'); [lia|].
  eapply (rtc_l _ _ run_read); [split; [apply (step_lock false "u4p" 1 50 5 init)|]|].
  { apply Forall_singleton. intros _ _. simpl. lia. }
  eapply (rtc_l _ _ run_read'); [split; [handler_step|apply Forall_nil_2]|].
  apply rtc_refl.
Defined.

End ProxyLocks.
