(* ===== verification/ProxyHealth.v ===== *)
(** * Health and timed cache of the reverse proxy

    Models csireverseproxy/pkg/common/common.go (the health of a Unisphere, which
    decides the failover to its backup) and csireverseproxy/pkg/cache/cache.go
    (the timed store of iterators). [time.Now] is an input of each call. *)

From S2P Require Import Prelude.
From stdpp Require Import base gmap strings list.
From Stdlib Require Import ZArith Lia.

Open Scope Z_scope.

Module Health.

Definition MinimumFailureCountForFailover : Z := 10.
Definition MaximumFailureDurationForFailover : Z := 1 * Minute.
Definition MinimumSuccessCount : Z := 5.
Definition MaximumConsecutiveFailureCountForFailover : Z := 10.

Record proxyHealth := mkHealth {
  failureCount : Z;
  successCount : Z;
  consecutiveFailureCount : Z;
  firstFailure : Z;
  minimumFailureCount : Z;
  minimumSuccessCount : Z;
  maximumConsFailureCount : Z;
  maximumFailureDuration : Z;
  hasDeteriorated : bool
}.

Definition NewProxyHealth : proxyHealth :=
  mkHealth 0 0 0 0 MinimumFailureCountForFailover MinimumSuccessCount
    MaximumConsecutiveFailureCountForFailover MaximumFailureDurationForFailover false.

(** Assignments to the counters; the thresholds stay. *)
Definition set_counters (fc sc cons first : Z) (bad : bool) (h : proxyHealth) : proxyHealth :=
  mkHealth fc sc cons first (minimumFailureCount h) (minimumSuccessCount h)
    (maximumConsFailureCount h) (maximumFailureDuration h) bad.

Definition reset (h : proxyHealth) : proxyHealth :=
  set_counters 0 0 (consecutiveFailureCount h) (firstFailure h) false h.

Definition ReportSuccess (h : proxyHealth) : proxyHealth :=
  let cons := if 0 <? consecutiveFailureCount h then 0 else consecutiveFailureCount h in
  let h1 := set_counters (failureCount h) (successCount h) cons (firstFailure h) (hasDeteriorated h) h in
  if hasDeteriorated h1 then
    if successCount h1 <? minimumSuccessCount h1
    then set_counters (failureCount h1) (successCount h1 + 1) cons (firstFailure h1) (hasDeteriorated h1) h1
    else reset h1
  else h1.

Definition ReportFailure (now : Z) (h : proxyHealth) : proxyHealth * bool :=
  if failureCount h =? 0 then
    (set_counters 1 (successCount h) (consecutiveFailureCount h + 1) now true h, false)
  else
    let cons := consecutiveFailureCount h + 1 in
    let h1 := set_counters (failureCount h) (successCount h) cons (firstFailure h) (hasDeteriorated h) h in
    if maximumConsFailureCount h1 <? cons then
      (reset (set_counters (failureCount h1) (successCount h1) 0 (firstFailure h1) (hasDeteriorated h1) h1), true)
    else if timeSub now (firstFailure h1) <? maximumFailureDuration h1 then
      (set_counters (failureCount h1 + 1) (successCount h1) cons (firstFailure h1) (hasDeteriorated h1) h1, false)
    else (reset h1, negb (failureCount h1 <? minimumFailureCount h1)).

Definition SetThreshold (fc cfc sc duration : Z) (h : proxyHealth) : proxyHealth :=
  mkHealth (failureCount h) (successCount h) (consecutiveFailureCount h) (firstFailure h)
    fc sc cfc duration (hasDeteriorated h).

Definition HasDeteriorated (h : proxyHealth) : bool := hasDeteriorated h.

(** [Transport.RoundTrip]: what a response reports to the health handler
    ([None]: nothing). [status] is only read when there is no error. *)
Definition roundTripReport (failed : bool) (status : Z) : option bool :=
  if failed then Some false
  else if (status =? 401) || (status =? 403) || (Z.quot status 100 =? 5) then Some false
  else if Z.quot status 100 =? 2 then Some true
  else None.

(** ** Histories *)

Inductive event := EvSuccess | EvFailure (now : Z).

(** The health after an event, and whether it asked for a failover. *)
Definition apply_event (e : event) (h : proxyHealth) : proxyHealth * bool :=
  match e with
  | EvSuccess => (ReportSuccess h, false)
  | EvFailure now => ReportFailure now h
  end.

Definition run_events (es : list event) (h : proxyHealth) : proxyHealth :=
  foldl (λ h e, (apply_event e h).1) h es.

Fixpoint failures (es : list event) : Z :=
  match es with
  | [] => 0
  | EvSuccess :: es => failures es
  | EvFailure _ :: es => 1 + failures es
  end.

(** The counters never exceed the failures seen, the "deteriorated" flag is the
    sign of the failure counter, and the thresholds stay. *)
Record health_inv (h0 : proxyHealth) (n : Z) (h : proxyHealth) : Prop := {
  hinv_failures : 0 <= failureCount h <= n;
  hinv_consecutive : 0 <= consecutiveFailureCount h <= n;
  hinv_flag : hasDeteriorated h = negb (failureCount h =? 0);
  hinv_thresholds : minimumFailureCount h = minimumFailureCount h0 ∧
                    maximumConsFailureCount h = maximumConsFailureCount h0
}.

Lemma apply_event_inv h0 n e h h' b :
  apply_event e h = (h', b) → health_inv h0 n h →
  health_inv h0 (n + failures [e]) h' ∧
  (b = true → Z.min (maximumConsFailureCount h0) (minimumFailureCount h0) + 1 <= n + failures [e]).
Proof.
  intros E [[Hf1 Hf2] [Hc1 Hc2] Hflag [Ht1 Ht2]]. destruct e as [|now]; simpl in *.
  - injection E as <- <-. split; [|done]. unfold ReportSuccess.
    case_all; bool_to_prop; split; simpl; try lia; try done; congruence.
  - unfold ReportFailure in E. case_all; bool_to_prop; simpl in *; split; try (split; simpl); try lia; try done.
    all: try congruence.
    rewrite Hflag. f_equal. symmetry.
    destruct (failureCount h + 1 =? 0) eqn:E1, (failureCount h =? 0) eqn:E2; bool_to_prop; lia || done.
Qed.

Lemma failures_app es1 es2 : failures (es1 ++ es2) = failures es1 + failures es2.
Proof. induction es1 as [|[|now] es1 IH]; simpl; lia. Qed.

Lemma run_events_inv es h0 n h :
  health_inv h0 n h → health_inv h0 (n + failures es) (run_events es h).
Proof.
  revert n h. induction es as [|e es IH]; intros n h Hinv; simpl.
  { by rewrite Z.add_0_r. }
  change (run_events (e :: es) h) with (run_events es (apply_event e h).1).
  destruct (apply_event e h) as [h' b] eqn:E.
  apply (apply_event_inv h0 n) in E as [H _]; [|done].
  replace (n + _) with (n + failures [e] + failures es); [by apply IH|].
  destruct e; simpl; lia.
Qed.

Lemma new_health_inv : health_inv NewProxyHealth 0 NewProxyHealth.
Proof. by split; simpl; try lia. Qed.

(** A Unisphere is failed over only after more failures than the smaller of
    the two thresholds: whatever the history of responses and instants, a failure
    that asks for a failover is at least the 11th one with the default
    thresholds. *)
Theorem failover_needs_failures es now :
  (ReportFailure now (run_events es NewProxyHealth)).2 = true → 11 <= failures es + 1.
Proof.
  intros Hb. destruct (ReportFailure now _) as [h' b] eqn:E. simpl in Hb. subst b.
  eapply (apply_event_inv NewProxyHealth (failures es) (EvFailure now)) in E as [_ H].
  - simpl in H. specialize (H eq_refl).
    change (Z.min _ _) with 10 in H. lia.
  - rewrite <- (Z.add_0_l (failures es)). apply run_events_inv, new_health_inv.
Qed.

(** at any time the proxy is reported as deteriorated exactly when failures
    are being counted, and a success can only clear that, never set it. *)
Lemma deteriorated_iff_counting es :
  let h := run_events es NewProxyHealth in
  (HasDeteriorated h = true ↔ 0 < failureCount h) ∧
  (HasDeteriorated (ReportSuccess h) = true → HasDeteriorated h = true).
Proof.
  simpl. destruct (run_events_inv es _ _ _ new_health_inv) as [[Hf _] _ Hflag _].
  unfold HasDeteriorated. split.
  - rewrite Hflag. destruct (failureCount _ =? 0) eqn:E; bool_to_prop; simpl; split; lia || done.
  - unfold ReportSuccess. case_all.
Qed.

(** Recovery takes one success more than [minimumSuccessCount]: a
    deteriorated proxy stays so through [minimumSuccessCount - successCount]
    successes and is healthy again after the next one. *)
Theorem recovery_after_successes n h :
  hasDeteriorated h = true → Z.of_nat n = minimumSuccessCount h - successCount h →
  HasDeteriorated (run_events (replicate n EvSuccess) h) = true ∧
  HasDeteriorated (run_events (replicate (S n) EvSuccess) h) = false ∧
  failureCount (run_events (replicate (S n) EvSuccess) h) = 0.
Proof.
  revert h. induction n as [|n IH]; intros h Hd Hn.
  - simpl. unfold ReportSuccess. simpl. rewrite Hd, (proj2 (Z.ltb_ge _ _)) by lia. done.
  - assert (hasDeteriorated (ReportSuccess h) = true ∧
      minimumSuccessCount (ReportSuccess h) - successCount (ReportSuccess h) = Z.of_nat n) as [Hd' Hn'].
    { unfold ReportSuccess. simpl. rewrite Hd, (proj2 (Z.ltb_lt _ _)) by lia. simpl. split; [done|lia]. }
    destruct (IH (ReportSuccess h)) as (H1 & H2 & H3); [done|lia|]. done.
Qed.

Lemma failover_needs_failures_witness :
  (ReportFailure 11 (run_events (EvFailure <$> seqZ 1 10) NewProxyHealth)).2 = true ∧
  11 <= failures (EvFailure <$> seqZ 1 10) + 1.
Proof.
  split; [vm_compute; reflexivity|]. apply (failover_needs_failures _ 11). vm_compute. reflexivity.
Defined.

Lemma recovery_after_successes_witness :
  HasDeteriorated (run_events (replicate 6 EvSuccess) (ReportFailure 7 NewProxyHealth).1) = false.
Proof. apply (recovery_after_successes 5 (ReportFailure 7 NewProxyHealth).1); reflexivity. Defined.

End Health.

(** ** The timed store *)

Module Cache.
Section cache.
Context {V : Type}.

(** A timer started by [time.AfterFunc]: when it fires and the key its callback
    deletes. *)
Record timer := mkTimer { fires_at : Z; timer_key : string }.

(** The store maps a key to its value and the identity of its cleanup timer;
    [timers] are the timers started and neither stopped nor fired. *)
Record cache := mkCache {
  ttl : Z;
  store : gmap string (V * nat);
  timers : gmap nat timer;
  next_timer : nat
}.

Definition New (d : Z) : cache := mkCache d ∅ ∅ 0.

Definition Set_ (now : Z) (key : string) (value : V) (c : cache) : cache :=
  mkCache (ttl c) (<[key := (value, next_timer c)]> (store c))
    (<[next_timer c := mkTimer (now + ttl c) key]> (timers c)) (S (next_timer c)).

Definition Get (key : string) (c : cache) : option V := fst <$> store c !! key.

Definition Remove (key : string) (c : cache) : cache :=
  match store c !! key with
  | Some (_, t) => mkCache (ttl c) (delete key (store c)) (delete t (timers c)) (next_timer c)
  | None => c
  end.

(** The timers due at [now] run their callbacks, which delete their keys. *)
Definition due (now : Z) (c : cache) : gmap nat timer := filter (λ x, fires_at x.2 <= now) (timers c).

Definition tick (now : Z) (c : cache) : cache :=
  mkCache (ttl c)
    (filter (λ x, ¬ map_Exists (λ _ t, timer_key t = x.1) (due now c)) (store c))
    (filter (λ x, ¬ fires_at x.2 <= now) (timers c)) (next_timer c).

(** No timer is pending for a key that is not in the store. *)
Definition key_fresh (key : string) (c : cache) : Prop := ∀ i t, timers c !! i = Some t → timer_key t ≠ key.

(** Every entry has a pending timer that will delete it. *)
Definition cache_inv (c : cache) : Prop :=
  (∀ key v i, store c !! key = Some (v, i) → ∃ t, timers c !! i = Some t ∧ timer_key t = key) ∧
  (∀ i, is_Some (timers c !! i) → (i < next_timer c)%nat).

Lemma Get_tick now key c :
  Get key (tick now c) = if decide (map_Exists (λ _ t, timer_key t = key) (due now c)) then None else Get key c.
Proof.
  unfold Get, tick. simpl. case_decide as H.
  - replace (filter _ _ !! key) with (@None (V * nat)); [done|]. symmetry.
    apply map_lookup_filter_None. right. intros x _ Hn. by apply Hn.
  - destruct (store c !! key) as [x|] eqn:E.
    + replace (filter _ _ !! key) with (Some x); [done|]. symmetry. by apply map_lookup_filter_Some.
    + replace (filter _ _ !! key) with (@None (V * nat)); [done|]. symmetry.
      apply map_lookup_filter_None. by left.
Qed.

Lemma due_Some now c i t : due now c !! i = Some t ↔ timers c !! i = Some t ∧ fires_at t <= now.
Proof. unfold due. by rewrite map_lookup_filter_Some. Qed.

(** An entry set under a key that no timer refers to is served until its
    time to live is over, and not after it. *)
Theorem cache_serves_for_ttl t0 now key v c :
  cache_inv c → key_fresh key c →
  Get key (tick now (Set_ t0 key v c)) = if decide (t0 + ttl c <= now) then None else Some v.
Proof.
  intros [_ Hnext] Hf. rewrite Get_tick. unfold Get at 1. simpl. rewrite lookup_insert_eq. simpl.
  destruct (decide (t0 + ttl c <= now)) as [Hd|Hd].
  - rewrite decide_True; [done|]. exists (next_timer c), (mkTimer (t0 + ttl c) key).
    rewrite due_Some. simpl. by rewrite lookup_insert_eq.
  - rewrite decide_False; [done|]. intros (i & t & [Hi Ht]%due_Some & Hk). simpl in Hi.
    destruct (decide (i = next_timer c)) as [->|Hne].
    + rewrite lookup_insert_eq in Hi. injection Hi as <-. done.
    + rewrite lookup_insert_ne in Hi by done. by apply (Hf i t Hi).
Qed.

(** Overwriting an entry does not restart its time to live: the timer of the
    first [Set] deletes the value of the second one, however much later that was
    set. *)
Theorem cache_overwrite_expires_early t1 t2 now key v1 v2 c :
  t1 + ttl c <= now →
  Get key (tick now (Set_ t2 key v2 (Set_ t1 key v1 c))) = None.
Proof.
  intros Hd. rewrite Get_tick. rewrite decide_True; [done|].
  exists (next_timer c), (mkTimer (t1 + ttl c) key). rewrite due_Some. simpl.
  rewrite lookup_insert_ne by lia. by rewrite lookup_insert_eq.
Qed.

(** Entries always have a timer, whatever the calls: nothing leaks. *)
Lemma cache_inv_preserved now key v c :
  cache_inv c → cache_inv (Set_ now key v c) ∧ cache_inv (tick now c).
Proof.
  intros [Hs Hn]. split; split; simpl.
  - intros k v' i. destruct (decide (k = key)) as [->|Hne].
    + rewrite lookup_insert_eq. intros [= <- <-]. exists (mkTimer (now + ttl c) key).
      by rewrite lookup_insert_eq.
    + rewrite lookup_insert_ne by done. intros H. destruct (Hs k v' i H) as (t & Ht & Hk).
      exists t. split; [|done]. rewrite lookup_insert_ne; [done|].
      assert (i < next_timer c)%nat by (apply Hn; eauto). lia.
  - intros i [t Ht]. destruct (decide (i = next_timer c)) as [->|Hne]; [lia|].
    rewrite lookup_insert_ne in Ht by done. assert (i < next_timer c)%nat by (apply Hn; eauto). lia.
  - intros k v' i [H Hnd]%map_lookup_filter_Some. destruct (Hs k v' i H) as (t & Ht & Hk).
    exists t. split; [|done]. apply map_lookup_filter_Some. split; [done|]. simpl. intros Hdue.
    apply Hnd. exists i, t. by rewrite due_Some.
  - intros i [t [Ht _]%map_lookup_filter_Some]. eauto.
Qed.

End cache.
Arguments cache : clear implicits.

Definition cache0 : cache string := New (5 * Minute).

Lemma cache_serves_for_ttl_witness : Get "it1" (tick 100 (Set_ 7 "it1" "u4p"%string cache0)) = Some "u4p"%string.
Proof.
  rewrite (cache_serves_for_ttl 7 100 "it1" "u4p"%string cache0); [vm_compute; reflexivity| |].
  - split; [intros key v i H|intros i [t H]]; simpl in H; by rewrite lookup_empty in H.
  - intros i t H. simpl in H. by rewrite lookup_empty in H.
Defined.

Lemma cache_overwrite_expires_early_witness :
  Get "it1" (tick (5 * Minute) (Set_ (4 * Minute) "it1" "new"%string (Set_ 0 "it1" "old"%string cache0))) = None.
Proof. apply cache_overwrite_expires_early. vm_compute. discriminate. Defined.

End Cache.
