(* ===== verification/Capacity.v ===== *)
(** * Choice of an array by capacity

    Models service/capacity_selection.go, service/capacity_poller.go and, of
    service/controller.go, the topology matching and the failover loop of
    CreateVolume. The cache is a finite map, the clock an argument; the random
    order in which Go ranges over the configured arrays is an argument too.
    Utilizations are float64 values. Environment lookup, ParseFloat and
    ParseDuration, the fetch of a utilization and doCreateVolume are arguments of
    the definitions that call them. Labels of arrays are strings (the type
    assertion of checkTopologyRequirements panics on any other value). *)

From S2P Require Import Prelude GoLib Ordering.
From stdpp Require Import base gmap strings list sorting.
From Stdlib Require Import ZArith Lia SpecFloat.

Module Capacity.
Open Scope string_scope.
Open Scope Z_scope.

(** ** The cache *)
Record arrayCapacityEntry := mkEntry {
  utilizationPercent : float64;
  lastPollTime : option Z;     (* [None]: the zero time *)
  available : bool;
  inFlight : Z;                (* int32 *)
  warnedAtOrAbove : bool;
}.

Abbreviation capacityCache := (gmap string arrayCapacityEntry).
Definition newCapacityCache : capacityCache := ∅.
Definition newEntry : arrayCapacityEntry := mkEntry fzero None true 0 false.

Definition getOrCreate (arrayID : string) (c : capacityCache) : arrayCapacityEntry * capacityCache :=
  match c !! arrayID with
  | Some e => (e, c)
  | None => (newEntry, <[arrayID := newEntry]> c)
  end.

(** Utilization, availability, requests in flight, and whether it is known. *)
Definition snapshot (arrayID : string) (c : capacityCache) : float64 * bool * Z * bool :=
  match c !! arrayID with
  | None => (fzero, true, 0, false)
  | Some e => (utilizationPercent e, available e, inFlight e, true)
  end.

Definition recordPollSuccess (arrayID : string) (utilization : float64) (now : Z) (c : capacityCache) : capacityCache :=
  let '(e, c) := getOrCreate arrayID c in
  <[arrayID := mkEntry utilization (Some now) true (inFlight e) (warnedAtOrAbove e)]> c.

Definition set_available (b : bool) (e : arrayCapacityEntry) : arrayCapacityEntry :=
  mkEntry (utilizationPercent e) (lastPollTime e) b (inFlight e) (warnedAtOrAbove e).

Definition recordPollFailure (arrayID : string) (pollInterval now : Z) (c : capacityCache) : capacityCache :=
  let '(e, c) := getOrCreate arrayID c in
  let stale := match lastPollTime e with None => true | Some t => pollInterval <? timeSub now t end in
  <[arrayID := if stale then set_available false e else e]> c.

Definition invalidate (arrayID : string) (c : capacityCache) : capacityCache :=
  let '(e, c) := getOrCreate arrayID c in <[arrayID := set_available false e]> c.

Definition add_in_flight (delta : Z) (arrayID : string) (c : capacityCache) : capacityCache :=
  let '(e, c) := getOrCreate arrayID c in
  <[arrayID := mkEntry (utilizationPercent e) (lastPollTime e) (available e) (wrap32 (inFlight e + delta))
                 (warnedAtOrAbove e)]> c.
Definition incInFlight : string → capacityCache → capacityCache := add_in_flight 1.
Definition decInFlight : string → capacityCache → capacityCache := add_in_flight (-1).

Definition crossedCapacityWarningThreshold (arrayID : string) (utilization threshold : float64) (c : capacityCache)
    : bool * capacityCache :=
  let '(e, c) := getOrCreate arrayID c in
  let above := SFleb threshold utilization in
  (above && negb (warnedAtOrAbove e),
   <[arrayID := mkEntry (utilizationPercent e) (lastPollTime e) (available e) (inFlight e) above]> c).

(** ** Selection *)
Record service := mkService {
  capCache : option capacityCache;
  capacityThresholdFull : float64;
}.

Record arrayCandidate := mkCandidate {
  id : string;
  candidate_utilization : float64;
  candidate_inFlight : Z;
}.

Definition allArraysUnavailableError (zone : string) (attempted : Z) : error :=
  let zone := if decide (zone = "") then "unknown" else zone in
  statusError ResourceExhausted ("all arrays in zone " ++ zone ++ " are unavailable (" ++ Itoa attempted ++ " arrays attempted)").

(** [utilization >= full], with a positive limit. *)
Definition is_full (s : service) (utilization : float64) : bool :=
  SFltb fzero (capacityThresholdFull s) && SFleb (capacityThresholdFull s) utilization.

(** The loop over the candidates; those it skips only appear in the log. *)
Definition eligible (s : service) (c : capacityCache) (cand : string) : list arrayCandidate :=
  let '(utilization, isAvailable, inFlight, _) := snapshot cand c in
  if negb isAvailable then []
  else if is_full s utilization then []
  else [mkCandidate cand utilization inFlight].

(** The comparison handed to sort.Slice. *)
Definition candidate_less (a b : arrayCandidate) : bool :=
  if negb (SFeqb (candidate_utilization a) (candidate_utilization b))
  then SFltb (candidate_utilization a) (candidate_utilization b)
  else if negb (candidate_inFlight a =? candidate_inFlight b) then candidate_inFlight a <? candidate_inFlight b
  else String.ltb (id a) (id b).

Definition selectArray (s : service) (zone : string) (candidates : list string) : result error string :=
  match candidates with
  | [] => Err (allArraysUnavailableError zone 0)
  | first :: _ =>
      match capCache s with
      | None => match sort_by String.ltb candidates with x :: _ => Ok x | [] => Ok first end
      | Some c =>
          match sort_by candidate_less (List.flat_map (eligible s c) candidates) with
          | [] => Err (allArraysUnavailableError zone (Z.of_nat (List.length candidates)))
          | best :: _ => Ok (id best)
          end
      end
  end.

Definition isArrayUnavailable (s : service) (arrayID : string) : bool * string :=
  match capCache s with
  | None => (false, "")
  | Some c =>
      let '(utilization, available, _, known) := snapshot arrayID c in
      if negb known then (false, "")
      else if negb available then (true, "no successful capacity/health poll within the configured capacity-poll-interval")
      else if is_full s utilization then (true, "array is at or above the configured capacity-threshold-full")
      else (false, "")
  end.

(** ** Errors of provisioning

    What errors.Is and errors.As find in the chain, and the text. *)
Record provision_error := mkProvisionError {
  perr : error;
  is_deadline : bool;
  is_eof : bool;
  is_net_timeout : bool;
}.
Definition plain_error (e : error) : provision_error := mkProvisionError e false false false.

Definition connectivityErrorMarkers : list string :=
  ["connection refused"; "no route to host"; "i/o timeout"; "connection reset"; "no such host"; "network is unreachable"; "dial tcp"].

Definition isConnectivityError (e : option provision_error) : bool :=
  match e with
  | None => false
  | Some e =>
      is_deadline e || is_eof e || is_net_timeout e
      || existsb (Contains (ToLower (Error (perr e)))) connectivityErrorMarkers
  end.

Definition MaxFailoverRetries : Z := 3.

Definition handleConnectivityFailover (s : service) (zone failedArrayID : string) (candidates : list string)
    (attemptCount : Z) : service * result error string :=
  let s := mkService (invalidate failedArrayID <$> capCache s) (capacityThresholdFull s) in
  if MaxFailoverRetries <=? attemptCount then
    (s, Err (statusError ResourceExhausted
               ("failover retry limit reached after " ++ Itoa attemptCount ++ " attempts in zone " ++ zone)))
  else (s, selectArray s zone candidates).

(** ** Topology *)
Abbreviation labels := (gmap string string).

(** [ranges] gives, for each pass over the configured arrays, the order in which
    Go visits them. *)
Definition matches (segments : labels) (array_labels : labels) : bool :=
  let matched := filter (λ kv, match segments !! kv.1 with
                               | Some v => EqualFold v kv.2 | None => false end = true) array_labels in
  negb (bool_decide (array_labels = ∅)) && bool_decide (size matched = size array_labels).

Fixpoint checkTopologyRequirements (ranges : nat → list (string * labels)) (pass : nat) (topologies : list labels)
    : list string :=
  match topologies with
  | [] => []
  | segments :: topologies =>
      ((fst <$> List.filter (λ a, matches segments a.2) (ranges pass))
       ++ checkTopologyRequirements ranges (S pass) topologies)%list
  end.

Record TopologyRequirement := mkRequirement { Requisite : list labels; Preferred : list labels }.

Definition zone_label : string := "topology.kubernetes.io/zone".
Fixpoint first_zone (topologies : list labels) : option string :=
  match topologies with
  | [] => None
  | t :: topologies =>
      match t !! zone_label with
      | Some z => if decide (z = "") then first_zone topologies else Some z
      | None => first_zone topologies
      end
  end.
Definition zoneFromTopologyRequirement (r : option TopologyRequirement) : string :=
  match r with
  | None => ""
  | Some r =>
      match first_zone (Preferred r) with
      | Some z => z
      | None => default "" (first_zone (Requisite r))
      end
  end.

Definition noSuitableArrayErr : error := statusError InvalidArgument "A SYMID parameter is required".

(** Preferred topologies first, then the requisite ones. *)
Definition topology_candidates (ranges : nat → list (string * labels)) (r : TopologyRequirement) : list string :=
  match checkTopologyRequirements ranges 0 (Preferred r) with
  | [] => checkTopologyRequirements ranges (List.length (Preferred r)) (Requisite r)
  | candidates => candidates
  end.

Definition selectArrayFromTopologyRequirement (s : service) (ranges : nat → list (string * labels))
    (r : option TopologyRequirement) : result error string :=
  match r with
  | None => Err noSuitableArrayErr
  | Some r =>
      if bool_decide (Requisite r = [] ∧ Preferred r = []) then Err noSuitableArrayErr
      else if bool_decide (List.length (ranges O) = O) then Err noSuitableArrayErr
      else
        match topology_candidates ranges r with
        | [] => Err noSuitableArrayErr
        | [x] => Ok x
        | candidates => selectArray s (zoneFromTopologyRequirement (Some r)) candidates
        end
  end.

Definition selectArrayFromTopology (s : service) (ranges : nat → list (string * labels)) (topology : option labels)
    : result error string :=
  match topology with
  | None => Err noSuitableArrayErr
  | Some t =>
      if decide (t = ∅) then Err noSuitableArrayErr
      else selectArrayFromTopologyRequirement s ranges (Some (mkRequirement [] [t]))
  end.

(** ** The loop of CreateVolume *)
Section create.
Context {W R : Type}.
Variable doCreateVolume : string → bool → service → W → service * W * result provision_error R.

Definition on_cache (f : capacityCache → capacityCache) (s : service) : service :=
  mkService (f <$> capCache s) (capacityThresholdFull s).

(** Also returns the arrays that were tried, in order. *)
Fixpoint create_loop (fuel : nat) (zone : string) (candidates : list string) (inAZ : bool) (attemptCount : Z)
    (symmetrixID : string) (s : service) (w : W) : option (service * W * list string * result provision_error R) :=
  match fuel with
  | O => None
  | S fuel =>
      let attemptCount := attemptCount + 1 in
      let s := on_cache (incInFlight symmetrixID) s in
      let '(s, w, res) := doCreateVolume symmetrixID inAZ s w in
      let s := on_cache (decInFlight symmetrixID) s in
      match res with
      | Ok resp => Some (s, w, [symmetrixID], Ok resp)
      | Err e =>
          if negb inAZ || negb (isConnectivityError (Some e)) then Some (s, w, [symmetrixID], Err e)
          else
            match handleConnectivityFailover s zone symmetrixID candidates attemptCount with
            | (s, Err e) => Some (s, w, [symmetrixID], Err (plain_error e))
            | (s, Ok next) =>
                match create_loop fuel zone candidates inAZ attemptCount next s w with
                | Some (s, w, tried, res) => Some (s, w, symmetrixID :: tried, res)
                | None => None
                end
            end
      end
  end.

(** [symid] is the array named in the parameters, empty when there is none. *)
Definition CreateVolume (ranges ranges' : nat → list (string * labels)) (accessibility : option TopologyRequirement)
    (symid : string) (s : service) (w : W) : option (service * W * list string * result provision_error R) :=
  if decide (symid = "") then
    match selectArrayFromTopologyRequirement s ranges accessibility with
    | Err e => Some (s, w, [], Err (plain_error e))
    | Ok symmetrixID =>
        let candidates := match accessibility with Some r => topology_candidates ranges' r | None => [] end in
        create_loop (Z.to_nat MaxFailoverRetries) (zoneFromTopologyRequirement accessibility) candidates true 0
          symmetrixID s w
    end
  else
    let '(unavailable, reason) := isArrayUnavailable s symid in
    if unavailable then
      Some (s, w, [], Err (plain_error (statusError FailedPrecondition
        ("targeted array " ++ symid ++ " is unavailable: " ++ reason))))
    else create_loop (Z.to_nat MaxFailoverRetries) "" [] false 0 symid s w.
End create.

(** ** The poller *)
Definition DefaultCapacityPollInterval : Z := 5 * Minute.
Definition DefaultCapacityThresholdFull : float64 := float_of_Z 100.
Definition capacityWarningOffsetPercent : float64 := float_of_Z 10.

Definition resolveCapacityPollInterval (env : option string) (ParseDuration : string → option Z) : Z :=
  match env with
  | None => DefaultCapacityPollInterval
  | Some raw =>
      if decide (raw = "") then DefaultCapacityPollInterval
      else match ParseDuration raw with
           | None => DefaultCapacityPollInterval
           | Some d => if d <=? 0 then DefaultCapacityPollInterval else d
           end
  end.

Definition resolveCapacityThresholdFull (env : option string) (ParseFloat : string → option float64) : float64 :=
  match env with
  | None => DefaultCapacityThresholdFull
  | Some raw =>
      if decide (raw = "") then DefaultCapacityThresholdFull
      else match ParseFloat raw with
           | None => DefaultCapacityThresholdFull
           | Some v => if SFltb v fzero then fzero else if SFltb (float_of_Z 100) v then float_of_Z 100 else v
           end
  end.

(** One pass over the arrays; the events it emits are returned. *)
Section poll.
Context {W : Type} (fetch : string → W → result error float64 * W).

Fixpoint poll_arrays (arrayIDs : list string) (pollInterval now : Z) (warningThreshold thresholdFull : float64)
    (warn : bool) (c : capacityCache) (w : W) : capacityCache * W * list (string * float64 * float64) :=
  match arrayIDs with
  | [] => (c, w, [])
  | arrayID :: arrayIDs =>
      match fetch arrayID w with
      | (Err _, w) =>
          poll_arrays arrayIDs pollInterval now warningThreshold thresholdFull warn
            (recordPollFailure arrayID pollInterval now c) w
      | (Ok utilization, w) =>
          let c := recordPollSuccess arrayID utilization now c in
          let '(crossed, c) :=
            if warn then crossedCapacityWarningThreshold arrayID utilization warningThreshold c else (false, c) in
          let '(c, w, events) :=
            poll_arrays arrayIDs pollInterval now warningThreshold thresholdFull warn c w in
          (c, w, if crossed then (arrayID, utilization, thresholdFull) :: events else events)
      end
  end.

Definition runCapacityPollCycle (arrayIDs : list string) (pollInterval now : Z) (thresholdFull : float64) (warn : bool)
    (c : capacityCache) (w : W) : capacityCache * W * list (string * float64 * float64) :=
  poll_arrays arrayIDs pollInterval now (fsub thresholdFull capacityWarningOffsetPercent) thresholdFull warn c w.
End poll.

(** Pools of an array: capacity in TB, total and used. *)
Record SrpCap := mkSrpCap { UsableTotInTB : float64; UsableUsedInTB : float64 }.

Section aggregate.
Context {W : Type} (GetStoragePoolList : string → W → result error (list string) * W)
  (GetStoragePool : string → string → W → result error (option SrpCap) * W).

Fixpoint sum_pools (arrayID : string) (pools : list string) (total used : float64) (usable : Z) (w : W)
    : float64 * float64 * Z * W :=
  match pools with
  | [] => (total, used, usable, w)
  | poolID :: pools =>
      match GetStoragePool arrayID poolID w with
      | (Err _, w) | (Ok None, w) => sum_pools arrayID pools total used usable w
      | (Ok (Some cap), w) =>
          if SFleb (UsableTotInTB cap) fzero then sum_pools arrayID pools total used usable w
          else sum_pools arrayID pools (fadd total (UsableTotInTB cap)) (fadd used (UsableUsedInTB cap)) (usable + 1) w
      end
  end.

Definition aggregateArrayCapacityUtilization (arrayID : string) (w : W) : result error float64 * W :=
  match GetStoragePoolList arrayID w with
  | (Err e, w) => (Err e, w)
  | (Ok pools, w) =>
      let '(total, used, usable, w) := sum_pools arrayID pools fzero fzero 0 w in
      if (usable =? 0) || SFleb total fzero then (Ok fzero, w)
      else (Ok (fmul (fdiv used total) (float_of_Z 100)), w)
  end.
End aggregate.

(** ** Selection is the minimum of a total order *)

(** Utilization, then requests in flight, then the id. *)
Definition candidate_cmp (a b : arrayCandidate) : comparison :=
  lex (lex (rank_cmp (default (0, 0, 0) (rank (candidate_utilization a))) (default (0, 0, 0) (rank (candidate_utilization b))))
           (candidate_inFlight a ?= candidate_inFlight b))
      (String.compare (id a) (id b)).

Lemma good_candidate : good candidate_cmp.
Proof.
  apply (good_lex (λ a b, lex (rank_cmp (default (0, 0, 0) (rank (candidate_utilization a)))
    (default (0, 0, 0) (rank (candidate_utilization b)))) (candidate_inFlight a ?= candidate_inFlight b))
    (λ a b, String.compare (id a) (id b))).
  - apply (good_lex (λ a b, rank_cmp (default (0, 0, 0) (rank (candidate_utilization a)))
      (default (0, 0, 0) (rank (candidate_utilization b)))) (λ a b, candidate_inFlight a ?= candidate_inFlight b)).
    + apply (good_on (λ a, default (0, 0, 0) (rank (candidate_utilization a))) rank_cmp good_rank).
    + apply (good_on candidate_inFlight Z.compare good_Z).
  - apply (good_on id String.compare good_string).
Qed.

Definition a_number (x : float64) : Prop := x ≠ S754_nan.

Lemma rank_number x : a_number x → is_Some (rank x).
Proof. destruct x as [|[]| |[]]; simpl; eauto. by intros []. Qed.

Lemma candidate_less_cmp a b :
  a_number (candidate_utilization a) → a_number (candidate_utilization b) →
  candidate_less a b = true ↔ candidate_cmp a b = Lt.
Proof.
  intros [ra Ha]%rank_number [rb Hb]%rank_number. unfold candidate_less, candidate_cmp, SFeqb, SFltb.
  rewrite (SFcompare_rank _ _ _ _ Ha Hb), Ha, Hb. simpl.
  destruct (rank_cmp ra rb); simpl; [|done|done].
  destruct (Z.compare_spec (candidate_inFlight a) (candidate_inFlight b)) as [->|H|H]; simpl.
  - rewrite Z.eqb_refl. simpl. unfold String.ltb. by destruct (String.compare _ _).
  - destruct (Z.eqb_spec (candidate_inFlight a) (candidate_inFlight b)); [lia|]. simpl.
    rewrite Z.ltb_lt. naive_solver lia.
  - destruct (Z.eqb_spec (candidate_inFlight a) (candidate_inFlight b)); [lia|]. simpl.
    rewrite Z.ltb_lt. split; [lia|done].
Qed.

(** What the cache says of an array, as a candidate. *)
Definition candidate_of (c : capacityCache) (cand : string) : arrayCandidate :=
  let '(utilization, _, inFlight, _) := snapshot cand c in mkCandidate cand utilization inFlight.
Definition usable (s : service) (c : capacityCache) (cand : string) : Prop :=
  (snapshot cand c).1.1.2 = true ∧ is_full s (snapshot cand c).1.1.1 = false.
(** [a] is at least as good as [b]. *)
Definition no_worse (c : capacityCache) (a b : string) : Prop :=
  candidate_cmp (candidate_of c a) (candidate_of c b) ≠ Gt.

Lemma eligible_spec s c cand x : x ∈ eligible s c cand ↔ usable s c cand ∧ x = candidate_of c cand.
Proof.
  unfold eligible, usable, candidate_of. destruct (snapshot cand c) as [[[u av] fl] kn]. simpl.
  destruct av; simpl; [|set_solver]. destruct (is_full s u); set_solver.
Qed.

Lemma eligible_all s c cands x :
  x ∈ List.flat_map (eligible s c) cands ↔ ∃ cand, cand ∈ cands ∧ usable s c cand ∧ x = candidate_of c cand.
Proof.
  rewrite list_elem_of_In, in_flat_map. setoid_rewrite <- list_elem_of_In. setoid_rewrite eligible_spec. naive_solver.
Qed.

Lemma id_candidate c cand : id (candidate_of c cand) = cand.
Proof. unfold candidate_of. by destruct (snapshot cand c) as [[[? ?] ?] ?]. Qed.

(** No utilization that is compared is NaN. *)
Definition numbers (c : capacityCache) : Prop := ∀ a e, c !! a = Some e → a_number (utilizationPercent e).

Lemma candidate_number c cand : numbers c → a_number (candidate_utilization (candidate_of c cand)).
Proof.
  intros Hn. unfold candidate_of, snapshot. destruct (c !! cand) as [e|] eqn:E; simpl; [by eapply Hn|done].
Qed.

Lemma eligible_less s c cands a b :
  numbers c → a ∈ List.flat_map (eligible s c) cands → b ∈ List.flat_map (eligible s c) cands →
  candidate_less a b = true ↔ candidate_cmp a b = Lt.
Proof.
  intros Hn (x & _ & _ & ->)%eligible_all (y & _ & _ & ->)%eligible_all.
  apply candidate_less_cmp; by apply candidate_number.
Qed.

(** The best of the usable candidates, as a relation. *)
Definition best (s : service) (c : capacityCache) (cands : list string) (x : string) : Prop :=
  x ∈ cands ∧ usable s c x ∧ ∀ y, y ∈ cands → usable s c y → no_worse c x y.

Lemma no_worse_antisym c x y : no_worse c x y → no_worse c y x → x = y.
Proof.
  unfold no_worse. rewrite (good_sym good_candidate (candidate_of c x) (candidate_of c y)).
  destruct (candidate_cmp (candidate_of c x) (candidate_of c y)) eqn:E; [|done|done]. intros _ _.
  unfold candidate_cmp in E. rewrite !id_candidate in E.
  destruct (lex (rank_cmp _ _) _) in E; [|done|done]. by apply String.compare_eq_iff.
Qed.

Lemma best_unique s c cands x y : best s c cands x → best s c cands y → x = y.
Proof. intros (Hx & Hux & Hbx) (Hy & Huy & Hby). eapply no_worse_antisym; eauto. Qed.

Lemma best_perm s c cands cands' x : cands ≡ₚ cands' → best s c cands x → best s c cands' x.
Proof. intros Hp (Hx & Hu & Hb). split_and!; [by rewrite <- Hp|done|]. intros y. rewrite <- Hp. apply Hb. Qed.

Lemma select_spec s c zone cands : capCache s = Some c → numbers c →
  match selectArray s zone cands with
  | Ok x => best s c cands x
  | Err e => e = allArraysUnavailableError zone (Z.of_nat (List.length cands)) ∧ ∀ y, y ∈ cands → ¬ usable s c y
  end.
Proof.
  intros Hc Hn. unfold selectArray. destruct cands as [|first rest]; [by split; [|set_solver]|].
  rewrite Hc. set (cands := first :: rest). set (l := List.flat_map (eligible s c) cands).
  destruct (sort_by candidate_less l) as [|x l'] eqn:E.
  - split; [done|]. intros y Hy Hu. pose proof (sort_by_perm candidate_less l) as Hp. rewrite E in Hp.
    apply Permutation_nil_l in Hp. assert (candidate_of c y ∈ l) as Hin by (apply eligible_all; eauto).
    rewrite <- Hp in Hin. by apply elem_of_nil in Hin.
  - apply (sort_by_head candidate_less candidate_cmp good_candidate) in E as [Hx Hmin];
      [|intros a b Ha Hb; by eapply eligible_less].
    apply eligible_all in Hx as (cand & Hcand & Hu & ->). rewrite id_candidate.
    split_and!; [done|done|]. intros y Hy Huy. apply Hmin, eligible_all. eauto.
Qed.

(** With a capacity cache, selectArray returns the candidate that is available
    and below the full threshold and that no other such candidate beats in
    utilization, then in requests in flight, then in the id; it fails, with the
    number of candidates in the error, exactly when there is no such candidate. *)
Theorem select_array_best s c zone cands : capCache s = Some c → numbers c →
  (∀ x, selectArray s zone cands = Ok x ↔ best s c cands x)
  ∧ (selectArray s zone cands = Err (allArraysUnavailableError zone (Z.of_nat (List.length cands)))
     ↔ ∀ y, y ∈ cands → ¬ usable s c y).
Proof.
  intros Hc Hn. pose proof (select_spec s c zone cands Hc Hn) as H.
  destruct (selectArray s zone cands) as [x|e].
  - split.
    + intros y. split; [by intros [= <-]|]. intros Hy. f_equal. by eapply best_unique.
    + split; [done|]. intros Hnone. destruct H as (Hx & Hu & _). by destruct (Hnone x).
  - destruct H as [-> Hnone]. split; [|done]. intros y. split; [done|]. intros (Hy & Hu & _). by destruct (Hnone y).
Qed.

(** ** The order of the arrays in the configuration does not matter *)
Lemma strings_head l : l ≠ [] → ∃ x, (∃ l', sort_by String.ltb l = x :: l') ∧ x ∈ l ∧ ∀ y, y ∈ l → String.compare x y ≠ Gt.
Proof.
  intros (x & l' & E)%(sort_by_nonempty String.ltb). exists x. split; [eauto|].
  eapply (sort_by_head String.ltb String.compare good_string); [|done].
  intros a b _ _. unfold String.ltb. by destruct (String.compare a b).
Qed.

Lemma select_perm s zone cands cands' :
  (∀ c, capCache s = Some c → numbers c) → cands ≡ₚ cands' → selectArray s zone cands = selectArray s zone cands'.
Proof.
  intros Hn Hp. destruct (capCache s) as [c|] eqn:Hc.
  - specialize (Hn c eq_refl).
    pose proof (select_spec s c zone cands Hc Hn) as H. pose proof (select_spec s c zone cands' Hc Hn) as H'.
    destruct (selectArray s zone cands) as [x|e], (selectArray s zone cands') as [x'|e'].
    + f_equal. apply (best_perm _ _ _ _ _ Hp) in H. by eapply best_unique.
    + destruct H as (Hx & Hu & _). rewrite Hp in Hx. destruct H' as [_ H']. by destruct (H' x Hx).
    + destruct H' as (Hx & Hu & _). rewrite <- Hp in Hx. destruct H as [_ H]. by destruct (H x' Hx).
    + destruct H as [-> _], H' as [-> _]. by rewrite Hp.
  - unfold selectArray. rewrite Hc. destruct cands as [|a l].
    { by apply Permutation_nil_l in Hp as <-. }
    destruct cands' as [|a' l']; [by apply Permutation_nil_r in Hp|].
    destruct (strings_head (a :: l)) as (x & [? ->] & Hx & Hmin); [done|].
    destruct (strings_head (a' :: l')) as (x' & [? ->] & Hx' & Hmin'); [done|].
    f_equal. rewrite Hp in Hx. rewrite <- Hp in Hx'. specialize (Hmin x' Hx'). specialize (Hmin' x Hx).
    rewrite (good_sym good_string x x') in Hmin'.
    destruct (String.compare x x') eqn:E; [by apply String.compare_eq_iff|done|done].
Qed.

Lemma check_perm ranges ranges' arrays pass pass' topologies :
  (∀ i, ranges i ≡ₚ arrays) → (∀ i, ranges' i ≡ₚ arrays) →
  checkTopologyRequirements ranges pass topologies ≡ₚ checkTopologyRequirements ranges' pass' topologies.
Proof.
  intros Hr Hr'. revert pass pass'. induction topologies as [|t ts IH]; intros pass pass'; simpl; [done|].
  apply Permutation_app; [|apply IH]. apply fmap_Permutation.
  assert (∀ l l' : list (string * labels), l ≡ₚ l' →
    List.filter (λ a, matches t a.2) l ≡ₚ List.filter (λ a, matches t a.2) l') as Hf.
  { induction 1 as [|x l l' _ IHp|x y l|l l' l'' _ IH1 _ IH2]; simpl; [done| | |by rewrite IH1].
    - destruct (matches t x.2); [by rewrite IHp|done].
    - destruct (matches t x.2), (matches t y.2); try done. apply Permutation_swap. }
  apply Hf. by rewrite Hr, Hr'.
Qed.

Lemma candidates_perm ranges ranges' arrays r :
  (∀ i, ranges i ≡ₚ arrays) → (∀ i, ranges' i ≡ₚ arrays) →
  topology_candidates ranges r ≡ₚ topology_candidates ranges' r.
Proof.
  intros Hr Hr'. unfold topology_candidates.
  pose proof (check_perm ranges ranges' arrays 0 0 (Preferred r) Hr Hr') as Hp.
  destruct (checkTopologyRequirements ranges 0 (Preferred r)) as [|a l].
  - apply Permutation_nil_l in Hp as <-. by eapply check_perm.
  - destruct (checkTopologyRequirements ranges' 0 (Preferred r)); [by apply Permutation_nil_r in Hp|done].
Qed.

(** The array chosen for a topology requirement does not depend on the
    (random) order in which the configured arrays are visited. *)
Theorem topology_order_independent s ranges ranges' arrays r :
  (∀ i, ranges i ≡ₚ arrays) → (∀ i, ranges' i ≡ₚ arrays) → (∀ c, capCache s = Some c → numbers c) →
  selectArrayFromTopologyRequirement s ranges r = selectArrayFromTopologyRequirement s ranges' r.
Proof.
  intros Hr Hr' Hn. unfold selectArrayFromTopologyRequirement. destruct r as [r|]; [|done].
  rewrite (Permutation_length (Hr O)), (Permutation_length (Hr' O)).
  case_bool_decide; [done|]. case_bool_decide; [done|].
  pose proof (candidates_perm ranges ranges' arrays r Hr Hr') as Hp.
  destruct (topology_candidates ranges r) as [|a [|b l]], (topology_candidates ranges' r) as [|a' [|b' l']];
    try done; try (apply Permutation_length in Hp; simpl in Hp; lia).
  - by apply Permutation_singleton_r in Hp as [= ->].
  - by apply select_perm.
Qed.

(** ** Failover *)
(** The array is marked unavailable; the requests in flight on it. *)
Definition down (s : service) (a : string) : Prop :=
  ∃ c, capCache s = Some c ∧ (snapshot a c).1.1.2 = false.
Definition flight (s : service) (a : string) : Z :=
  match capCache s with Some c => (snapshot a c).1.2 | None => 0 end.

Lemma getOrCreate_snapshot x c e c' a : getOrCreate x c = (e, c') → snapshot a c' = snapshot a c ∨ a = x.
Proof.
  unfold getOrCreate, snapshot. destruct (c !! x) as [e0|]; intros [= <- <-]; [by left|].
  destruct (decide (a = x)) as [->|]; [by right|left]. by rewrite lookup_insert_ne.
Qed.

Lemma getOrCreate_entry x c e c' : getOrCreate x c = (e, c') →
  available e = (snapshot x c).1.1.2 ∧ inFlight e = (snapshot x c).1.2.
Proof. unfold getOrCreate, snapshot. destruct (c !! x) as [e0|]; by intros [= <- <-]. Qed.

Lemma snapshot_insert a x e c : snapshot a (<[x := e]> c) =
  if decide (a = x) then (utilizationPercent e, available e, inFlight e, true) else snapshot a c.
Proof.
  unfold snapshot. case_decide; [subst; by rewrite lookup_insert_eq|]. by rewrite lookup_insert_ne.
Qed.

Lemma add_in_flight_snapshot d x c a :
  (snapshot a (add_in_flight d x c)).1.1.2 = (snapshot a c).1.1.2
  ∧ (snapshot a (add_in_flight d x c)).1.2 = if decide (a = x) then wrap32 ((snapshot a c).1.2 + d) else (snapshot a c).1.2.
Proof.
  unfold add_in_flight. destruct (getOrCreate x c) as [e c'] eqn:E. rewrite !snapshot_insert.
  destruct (getOrCreate_entry _ _ _ _ E) as [Ha Hf].
  case_decide; [subst; simpl; by rewrite Ha, Hf|].
  destruct (getOrCreate_snapshot _ _ _ _ a E) as [->|]; done.
Qed.

Lemma invalidate_snapshot x c a :
  (snapshot a (invalidate x c)).1.1.2 = (if decide (a = x) then false else (snapshot a c).1.1.2)
  ∧ (snapshot a (invalidate x c)).1.2 = (snapshot a c).1.2.
Proof.
  unfold invalidate. destruct (getOrCreate x c) as [e c'] eqn:E. rewrite !snapshot_insert.
  destruct (getOrCreate_entry _ _ _ _ E) as [Ha Hf].
  case_decide; [subst; simpl; by rewrite Hf|]. destruct (getOrCreate_snapshot _ _ _ _ a E) as [->|]; done.
Qed.

Lemma select_usable s zone cands x : selectArray s zone cands = Ok x → x ∈ cands ∧ ¬ down s x.
Proof.
  unfold selectArray, down. destruct cands as [|a l]; [done|]. destruct (capCache s) as [c|].
  - destruct (sort_by candidate_less _) as [|b l'] eqn:E; [done|]. intros [= <-].
    assert (b ∈ List.flat_map (eligible s c) (a :: l)) as Hb.
    { pose proof (sort_by_perm candidate_less (List.flat_map (eligible s c) (a :: l))) as Hp. rewrite E in Hp.
      rewrite <- Hp. by left. }
    apply eligible_all in Hb as (cand & Hin & [Hu _] & ->). rewrite id_candidate. split; [done|].
    intros (c' & [= <-] & Hd). congruence.
  - destruct (strings_head (a :: l)) as (y & [? ->] & Hy & _); [done|]. intros [= <-]. split; [done|].
    by intros (c' & ? & _).
Qed.

Section failover.
Context {W R : Type}.
Variable doCreateVolume : string → bool → service → W → service * W * result provision_error R.

(** While a volume is being created the cache stays configured, no array that is
    marked unavailable recovers, and other requests leave the counters balanced. *)
Definition undisturbed : Prop := ∀ x b s w s' w' r,
  doCreateVolume x b s w = (s', w', r) →
  (is_Some (capCache s) → is_Some (capCache s')) ∧ (∀ a, down s a → down s' a) ∧ ∀ a, flight s' a = flight s a.

Lemma on_cache_down d x s a : down s a ↔ down (on_cache (add_in_flight d x) s) a.
Proof.
  unfold down, on_cache. simpl. destruct (capCache s) as [c|]; simpl; [|naive_solver].
  pose proof (proj1 (add_in_flight_snapshot d x c a)) as E.
  split; intros (c' & [= <-] & H); eexists; (split; [done|]); congruence.
Qed.

Lemma on_cache_flight d x s a :
  flight (on_cache (add_in_flight d x) s) a =
  if decide (a = x ∧ is_Some (capCache s)) then wrap32 (flight s a + d) else flight s a.
Proof.
  unfold flight, on_cache. simpl. destruct (capCache s) as [c|]; simpl.
  - rewrite (proj2 (add_in_flight_snapshot d x c a)). repeat case_decide; naive_solver.
  - rewrite decide_False; [done|]. by intros [_ [? ?]].
Qed.

Lemma failover_spec s zone x cands n s' r : handleConnectivityFailover s zone x cands n = (s', r) →
  (is_Some (capCache s) → is_Some (capCache s') ∧ down s' x) ∧ (∀ a, down s a → down s' a)
  ∧ (∀ a, flight s' a = flight s a) ∧ (∀ y, r = Ok y → y ∈ cands ∧ ¬ down s' y ∧ n < MaxFailoverRetries).
Proof.
  unfold handleConnectivityFailover. set (s1 := mkService _ _).
  assert (∀ a, flight s1 a = flight s a) as Hf.
  { intros a. unfold flight, s1. simpl. destruct (capCache s) as [c|]; simpl; [|done].
    by rewrite (proj2 (invalidate_snapshot x c a)). }
  assert (∀ a, down s a → down s1 a) as Hd.
  { intros a (c & Hc & Ha). exists (invalidate x c). unfold s1. simpl. rewrite Hc. split; [done|].
    rewrite (proj1 (invalidate_snapshot x c a)). by case_decide. }
  assert (is_Some (capCache s) → is_Some (capCache s1) ∧ down s1 x) as Hx.
  { intros [c Hc]. unfold down, s1. simpl. rewrite Hc. simpl. split; [done|]. eexists. split; [done|].
    rewrite (proj1 (invalidate_snapshot x c x)). by rewrite decide_True. }
  destruct (Z.leb_spec MaxFailoverRetries n); intros [= <- <-]; split_and!; try done.
  intros y [Hy Hu]%select_usable. done.
Qed.

Lemma wrap32_balance z : in32 z → wrap32 (wrap32 (z + 1) + -1) = z.
Proof.
  intros Hz. unfold wrap32. unfold in32 in Hz.
  destruct (Z.eq_dec z (2 ^ 31 - 1)) as [->|]; [reflexivity|].
  rewrite (Z.mod_small (z + 1 + 2 ^ 31)) by lia. rewrite Z.mod_small; lia.
Qed.

(** One attempt, between the two changes of the counter. *)
Lemma attempt_spec x s w s1 w1 res :
  undisturbed → is_Some (capCache s) → (∀ a, in32 (flight s a)) →
  doCreateVolume x true (on_cache (incInFlight x) s) w = (s1, w1, res) →
  is_Some (capCache (on_cache (decInFlight x) s1)) ∧ (∀ a, down s a → down (on_cache (decInFlight x) s1) a)
  ∧ ∀ a, flight (on_cache (decInFlight x) s1) a = flight s a.
Proof.
  intros Hu Hc H32 E. destruct (Hu _ _ _ _ _ _ _ E) as (Hc1 & Hd1 & Hf1).
  assert (is_Some (capCache s1)) as Hcs1. { apply Hc1. destruct Hc as [c Hc]. unfold on_cache. simpl. by rewrite Hc. }
  split_and!.
  - destruct Hcs1 as [c' Hc']. unfold on_cache. simpl. by rewrite Hc'.
  - intros a Ha. apply on_cache_down, Hd1, on_cache_down, Ha.
  - intros a. unfold decInFlight. rewrite on_cache_flight, Hf1. unfold incInFlight. rewrite on_cache_flight.
    case_decide as Hax; [|rewrite decide_False by naive_solver; done].
    rewrite decide_True by naive_solver. apply wrap32_balance, H32.
Qed.

Lemma create_loop_spec zone cands fuel n x s w :
  undisturbed → is_Some (capCache s) → (∀ a, in32 (flight s a)) → n + Z.of_nat fuel = MaxFailoverRetries → (0 < fuel)%nat →
  ∃ s' w' tried res, create_loop doCreateVolume fuel zone cands true n x s w = Some (s', w', tried, res)
    ∧ NoDup tried ∧ (List.length tried <= fuel)%nat
    ∧ (∀ a, a ∈ tried → a = x ∨ (a ∈ cands ∧ ¬ down s a)) ∧ ∀ a, flight s' a = flight s a.
Proof.
  intros Hu. revert n x s w. induction fuel as [|fuel IH]; intros n x s w Hc H32 Hn Hpos; [lia|].
  assert (NoDup [x] ∧ (List.length [x] <= S fuel)%nat ∧ (∀ a, a ∈ [x] → a = x ∨ (a ∈ cands ∧ ¬ down s a)))
    as (Ho1 & Ho2 & Ho3).
  { split_and!; [apply NoDup_singleton|simpl; lia|]. intros a Ha%list_elem_of_singleton. by left. }
  cbn [create_loop]. destruct (doCreateVolume x true (on_cache (incInFlight x) s) w) as [[s1 w1] res] eqn:E.
  destruct (attempt_spec _ _ _ _ _ _ Hu Hc H32 E) as (Hc2 & Hd2 & Hf2).
  destruct res as [resp|e]; [do 4 eexists; split; [done|]; split_and!; done|]. cbn [negb orb].
  destruct (isConnectivityError (Some e)); cbn [negb]; [|do 4 eexists; split; [done|]; split_and!; done].
  destruct (handleConnectivityFailover _ zone x cands (n + 1)) as [s3 r] eqn:Eh.
  destruct (failover_spec _ _ _ _ _ _ _ Eh) as (Hdown & Hd3 & Hf3 & Hok).
  destruct (Hdown Hc2) as [Hc3 Hx3].
  destruct r as [next|e']; [|do 4 eexists; split; [done|]; split_and!; try done; intros a; by rewrite Hf3].
  destruct (Hok next eq_refl) as (Hin & Hnd & Hlt). unfold MaxFailoverRetries in *.
  destruct (IH (n + 1) next s3 w1) as (s' & w' & tried & res & -> & Hnodup & Hlen & Htried & Hfl);
    [done|intros a; rewrite Hf3, Hf2; apply H32|lia|lia|].
  do 4 eexists. split; [done|]. split_and!.
  - apply NoDup_cons. split; [|done]. intros [->|[_ Hx]]%Htried; done.
  - simpl. lia.
  - intros a [->|Ha]%elem_of_cons; [by left|right].
    apply Htried in Ha as [->|[Ha Hna]]; split; try done; intros Hda; [by apply Hnd, Hd3, Hd2|by apply Hna, Hd3, Hd2].
  - intros a. by rewrite Hfl, Hf3, Hf2.
Qed.

(** CreateVolume by topology always ends: it tries at most MaxFailoverRetries
    arrays, no array twice, each of them chosen or a candidate that was not marked
    unavailable before, and leaves the counters of requests in flight as they
    were. *)
Theorem failover_terminates ranges ranges' r s w :
  undisturbed → is_Some (capCache s) → (∀ a, in32 (flight s a)) →
  ∃ s' w' tried res, CreateVolume doCreateVolume ranges ranges' (Some r) "" s w = Some (s', w', tried, res)
    ∧ NoDup tried ∧ Z.of_nat (List.length tried) <= MaxFailoverRetries
    ∧ (∀ a, a ∈ tried →
        selectArrayFromTopologyRequirement s ranges (Some r) = Ok a ∨ (a ∈ topology_candidates ranges' r ∧ ¬ down s a))
    ∧ ∀ a, flight s' a = flight s a.
Proof.
  intros Hu Hc H32. unfold CreateVolume. rewrite decide_True by done.
  destruct (selectArrayFromTopologyRequirement s ranges (Some r)) as [x|e].
  - destruct (create_loop_spec (zoneFromTopologyRequirement (Some r)) (topology_candidates ranges' r)
      (Z.to_nat MaxFailoverRetries) 0 x s w Hu Hc H32) as (s' & w' & tried & res & E & Hn & Hl & Ht & Hf);
      [done|vm_compute; lia|].
    exists s', w', tried, res. split_and!; [done|done| | |done].
    + unfold MaxFailoverRetries in *. lia.
    + intros a [->|?]%Ht; [by left|by right].
  - do 4 eexists. split; [done|]. split_and!; [constructor|done|set_solver|done].
Qed.
End failover.

(** ** Polling *)
(** What one poll of an array does to its entry, and whether it warns. *)
Definition poll_entry (interval now : Z) (threshold : float64) (r : result error float64) (e : arrayCapacityEntry)
    : arrayCapacityEntry * bool :=
  match r with
  | Ok u => (mkEntry u (Some now) true (inFlight e) (SFleb threshold u), SFleb threshold u && negb (warnedAtOrAbove e))
  | Err _ =>
      (if match lastPollTime e with None => true | Some t => interval <? timeSub now t end
       then set_available false e else e, false)
  end.

Definition entry_at (c : capacityCache) (a : string) : arrayCapacityEntry := default newEntry (c !! a).

Lemma getOrCreate_spec a c : ∃ c', getOrCreate a c = (entry_at c a, c') ∧ ∀ e, <[a := e]> c' = <[a := e]> c.
Proof.
  unfold getOrCreate, entry_at. destruct (c !! a); eexists; (split; [done|]); intros e; [done|]. apply insert_insert_eq.
Qed.

Lemma entry_at_insert a e c : entry_at (<[a := e]> c) a = e.
Proof. unfold entry_at. by rewrite lookup_insert_eq. Qed.

Definition result_fetch (f : string → result error float64) : string → unit → result error float64 * unit := λ a u, (f a, u).
(** The event of one array. *)
Definition poll_event (interval now : Z) (T full : float64) (f : string → result error float64) (c : capacityCache)
    (a : string) : list (string * float64 * float64) :=
  match f a with
  | Ok u => if (poll_entry interval now T (f a) (entry_at c a)).2 then [(a, u, full)] else []
  | Err _ => []
  end.

Lemma poll_step f a ids interval now T full c :
  poll_arrays (result_fetch f) (a :: ids) interval now T full true c tt =
  let '(c2, w, events) := poll_arrays (result_fetch f) ids interval now T full true
    (<[a := (poll_entry interval now T (f a) (entry_at c a)).1]> c) tt in
  (c2, w, (poll_event interval now T full f c a ++ events)%list).
Proof.
  unfold poll_event. cbn [poll_arrays]. unfold result_fetch at 1. destruct (f a) as [u|e]; simpl.
  - unfold recordPollSuccess, crossedCapacityWarningThreshold.
    destruct (getOrCreate_spec a c) as (c0 & -> & Hins). rewrite Hins. set (e1 := mkEntry u _ _ _ _).
    destruct (getOrCreate_spec a (<[a := e1]> c)) as (c3 & -> & Hins3). rewrite entry_at_insert, Hins3, insert_insert_eq.
    simpl. destruct (poll_arrays _ _ _ _ _ _ _ _ _) as [[c2 w] events].
    by destruct (SFleb T u && negb (warnedAtOrAbove (entry_at c a))).
  - unfold recordPollFailure. destruct (getOrCreate_spec a c) as (c0 & -> & Hins). rewrite Hins.
    by destruct (poll_arrays _ _ _ _ _ _ _ _ _) as [[c2 w] events].
Qed.

Lemma flat_map_ext_in {A B} (f g : A → list B) l : (∀ x, x ∈ l → f x = g x) → List.flat_map f l = List.flat_map g l.
Proof.
  induction l as [|x l IH]; intros H; simpl; [done|]. rewrite H by set_solver. rewrite IH; [done|].
  intros y Hy. apply H. set_solver.
Qed.

Lemma poll_arrays_entry f ids interval now T full c :
  NoDup ids → ∃ c', poll_arrays (result_fetch f) ids interval now T full true c tt =
    (c', tt, List.flat_map (poll_event interval now T full f c) ids)
  ∧ (∀ a, a ∈ ids → c' !! a = Some (poll_entry interval now T (f a) (entry_at c a)).1)
  ∧ (∀ a, a ∉ ids → c' !! a = c !! a).
Proof.
  revert c. induction ids as [|a ids IH]; intros c Hnd; [by exists c; split_and!; try done; set_solver|].
  apply NoDup_cons in Hnd as [Ha Hnd]. rewrite poll_step. set (c1 := <[a := _]> c).
  destruct (IH c1 Hnd) as (c2 & -> & Hin & Hout).
  assert (∀ b, b ∈ ids → entry_at c1 b = entry_at c b) as Hsame.
  { intros b Hb. unfold entry_at, c1. rewrite lookup_insert_ne; [done|]. by intros ->. }
  exists c2. split_and!.
  - cbn [List.flat_map]. do 2 f_equal. apply flat_map_ext_in. intros b Hb. unfold poll_event. by rewrite Hsame.
  - intros b [->|Hb]%elem_of_cons; [by rewrite Hout; unfold c1; rewrite ?lookup_insert_eq|]. by rewrite (Hin b Hb), Hsame.
  - intros b [Hb1 Hb2]%not_elem_of_cons. rewrite Hout by done. unfold c1. by rewrite lookup_insert_ne.
Qed.

(** A sequence of cycles, each with its time and the answers of the arrays. *)
Fixpoint run_cycles (ids : list string) (interval : Z) (full : float64) (cycles : list (Z * (string → result error float64)))
    (c : capacityCache) : capacityCache * list (string * float64 * float64) :=
  match cycles with
  | [] => (c, [])
  | (now, f) :: cycles =>
      let '(c, _, events) := runCapacityPollCycle (result_fetch f) ids interval now full true c tt in
      let '(c, events') := run_cycles ids interval full cycles c in (c, (events ++ events')%list)
  end.

(** The utilizations at which a warning is due: those at or above the threshold
    whose predecessor was not. *)
Fixpoint rising (T : float64) (above : bool) (us : list float64) : list float64 :=
  match us with
  | [] => []
  | u :: us => ((if SFleb T u && negb above then [u] else []) ++ rising T (SFleb T u) us)%list
  end.
Definition successes (a : string) (cycles : list (Z * (string → result error float64))) : list float64 :=
  List.flat_map (λ cy, match cy.2 a with Ok u => [u] | Err _ => [] end) cycles.
(** Whether the array is usable after the cycles, from the time of its last good
    poll. *)
Fixpoint up_after (interval : Z) (a : string) (last : option Z) (up : bool) (cycles : list (Z * (string → result error float64))) : bool :=
  match cycles with
  | [] => up
  | (now, f) :: cycles =>
      match f a with
      | Ok _ => up_after interval a (Some now) true cycles
      | Err _ => up_after interval a last (up && match last with Some t => timeSub now t <=? interval | None => false end) cycles
      end
  end.

Definition events_of (a : string) (events : list (string * float64 * float64)) : list float64 :=
  List.flat_map (λ e, if decide (e.1.1 = a) then [e.1.2] else []) events.

Lemma events_of_app a l l' : events_of a (l ++ l')%list = (events_of a l ++ events_of a l')%list.
Proof. apply List.flat_map_app. Qed.

Lemma events_of_cycle ids a interval now T full f c : NoDup ids → a ∈ ids →
  events_of a (List.flat_map (poll_event interval now T full f c) ids) =
  match f a with Ok u => if (poll_entry interval now T (f a) (entry_at c a)).2 then [u] else [] | Err _ => [] end.
Proof.
  assert (∀ b, events_of a (poll_event interval now T full f c b) =
    if decide (b = a) then match f a with Ok u => if (poll_entry interval now T (f a) (entry_at c a)).2 then [u] else [] | Err _ => [] end else []) as Hone.
  { intros b. unfold poll_event. destruct (decide (b = a)) as [->|Hb].
    - destruct (f a); [|done]. destruct (poll_entry _ _ _ _ _).2; simpl; [by rewrite decide_True|done].
    - destruct (f b); [|done]. destruct (poll_entry _ _ _ _ _).2; simpl; [by rewrite decide_False|done]. }
  assert (∀ ids, a ∉ ids → events_of a (List.flat_map (poll_event interval now T full f c) ids) = []) as Hnone.
  { intros l. induction l as [|b l IH]; [done|]. intros [Hb Hl]%not_elem_of_cons. simpl.
    rewrite events_of_app, Hone, decide_False by done. by apply IH. }
  induction ids as [|b ids IH]; intros Hnd Ha; [set_solver|]. apply NoDup_cons in Hnd as [Hb Hnd]. simpl.
  rewrite events_of_app, Hone. destruct (decide (b = a)) as [->|Hne].
  - rewrite Hnone by done. apply app_nil_r.
  - simpl. apply IH; [done|]. set_solver.
Qed.

(** Over any sequence of poll cycles a warning is emitted for an array exactly
    when its utilization rises to the warning threshold (ten points below full),
    once per stretch above it; and the array is usable afterwards exactly when no
    failed poll came later than the poll interval after its last good poll. *)
Theorem polling_warns_once ids interval full cycles a :
  NoDup ids → a ∈ ids →
  let T := fsub full capacityWarningOffsetPercent in
  let '(c, events) := run_cycles ids interval full cycles newCapacityCache in
  events_of a events = rising T false (successes a cycles)
  ∧ available (entry_at c a) = up_after interval a None true cycles.
Proof.
  intros Hnd Ha. cbv zeta. change false with (warnedAtOrAbove (entry_at newCapacityCache a)) at 1.
  change (@None Z) with (lastPollTime (entry_at newCapacityCache a)).
  change true with (available (entry_at newCapacityCache a)) at 1.
  generalize newCapacityCache as c. induction cycles as [|[now f] cycles IH]; intros c; [done|].
  cbn [run_cycles]. unfold runCapacityPollCycle. set (T := fsub full capacityWarningOffsetPercent).
  destruct (poll_arrays_entry f ids interval now T full c Hnd) as (c1 & -> & Hin & _).
  specialize (IH c1). destruct (run_cycles ids interval full cycles c1) as [c2 events]. destruct IH as [IH1 IH2].
  rewrite events_of_app, (events_of_cycle ids a) by done. rewrite IH1, IH2. clear IH1 IH2.
  assert (entry_at c1 a = (poll_entry interval now T (f a) (entry_at c a)).1) as -> by (unfold entry_at at 1; by rewrite Hin).
  unfold successes. cbn [List.flat_map up_after rising snd]. destruct (f a) as [u|e]; simpl; [done|]. split.
  - by destruct (match lastPollTime (entry_at c a) with Some _ => _ | None => _ end).
  - destruct (lastPollTime (entry_at c a)) as [t|] eqn:Et; simpl.
    + destruct (Z.ltb_spec interval (timeSub now t)), (Z.leb_spec (timeSub now t) interval); try lia; simpl;
        rewrite ?Et; by rewrite ?andb_true_r, ?andb_false_r.
    + by rewrite Et, andb_false_r.
Qed.

(** ** Witnesses *)
Definition entry (u : Z) (up : bool) : arrayCapacityEntry := mkEntry (float_of_Z u) (Some 0) up 0 false.
Definition cache0 : capacityCache := <["A" := entry 40 true]> (<["B" := entry 60 true]> (<["C" := entry 10 false]> ∅)).
Definition svc0 : service := mkService (Some cache0) (float_of_Z 100).
Definition zone1 : labels := {[zone_label := "z1"]}.
Definition arrays0 : list (string * labels) := [("A", zone1); ("B", zone1); ("C", zone1)].
Definition requirement0 : TopologyRequirement := mkRequirement [zone1] [].

Lemma numbers0 : numbers cache0.
Proof.
  intros a e. unfold cache0.
  intros [[_ <-]|[_ [[_ <-]|[_ [[_ <-]|[_ H]]%lookup_insert_Some]]%lookup_insert_Some]]%lookup_insert_Some;
    try (vm_compute; discriminate).
Qed.

Lemma select_array_best_witness : best svc0 cache0 ["C"; "B"; "A"] "A".
Proof. apply (select_array_best svc0 cache0 "z1" ["C"; "B"; "A"] eq_refl numbers0). vm_compute. reflexivity. Defined.

Lemma topology_order_independent_witness :
  selectArrayFromTopologyRequirement svc0 (λ _, reverse arrays0) (Some requirement0) = Ok "A".
Proof.
  rewrite (topology_order_independent svc0 (λ _, reverse arrays0) (λ _, arrays0) arrays0);
    [vm_compute; reflexivity|intros; apply reverse_Permutation|done|intros c [= <-]; apply numbers0].
Defined.

(** The first array cannot be reached. *)
Definition provision (x : string) (inAZ : bool) (s : service) (n : Z) : service * Z * result provision_error string :=
  (s, n + 1, if decide (x = "A") then Err (plain_error (errorString "Dial TCP 10.0.0.1: connection refused")) else Ok x).

Lemma failover_terminates_witness :
  ∃ s', CreateVolume provision (λ _, arrays0) (λ _, arrays0) (Some requirement0) "" svc0 0 = Some (s', 2, ["A"; "B"], Ok "B")
    ∧ ∀ a, flight s' a = flight svc0 a.
Proof.
  destruct (failover_terminates provision (λ _, arrays0) (λ _, arrays0) requirement0 svc0 0)
    as (s' & w' & tried & res & E & _ & _ & _ & Hf).
  - intros x b s w s' w' r [= <- _ _]. split_and!; done.
  - by exists cache0.
  - intros a. unfold flight, svc0, snapshot. simpl. destruct (cache0 !! a) as [e|] eqn:Ea; simpl; [|unfold in32; lia].
    unfold cache0 in Ea.
    apply lookup_insert_Some in Ea as [[_ <-]|[_ [[_ <-]|[_ [[_ <-]|[_ H]]%lookup_insert_Some]]%lookup_insert_Some]];
      [unfold in32; simpl; lia..|]. by rewrite lookup_empty in H.
  - exists s'. split; [|exact Hf]. rewrite E. vm_compute in E. injection E as <- <- <- <-. reflexivity.
Defined.

Lemma polling_warns_once_witness :
  let f u : string → result error float64 := λ _, Ok (float_of_Z u) in
  let down : string → result error float64 := λ _, Err (errorString "timeout") in
  let cycles := [(1, f 80); (2, f 95); (3, f 96); (4, down); (5, f 50); (6, f 90)] in
  events_of "A" (run_cycles ["B"; "A"] Minute (float_of_Z 100) cycles newCapacityCache).2
  = [float_of_Z 95; float_of_Z 90].
Proof.
  intros f down cycles.
  pose proof (polling_warns_once ["B"; "A"] Minute (float_of_Z 100) cycles "A") as H. cbv zeta in H.
  destruct (run_cycles _ _ _ _ _) as [c events]. destruct H as [H _].
  - apply NoDup_cons. split; [set_solver|apply NoDup_singleton].
  - set_solver.
  - simpl. rewrite H. vm_compute. reflexivity.
Defined.
End Capacity.
