(* ===== verification/Masking.v ===== *)
(** * Hosts, port groups and masking

    The calls of the Unisphere client that deal with hosts, port groups and
    masking views, as a class next to [Pmax]; and of the driver the names of a
    node's objects, the protocol of a node, the choice of a port group and the
    protection of boot volumes (service/controller.go, service/node.go,
    service/service.go, service/string_slice.go). What the version cache answers,
    the labels of a node, the lock manager and the random number generator are
    calls of the class too. *)

From stdpp Require Import base gmap strings list.
From Stdlib Require Import ZArith Lia Ascii.
From S2P Require Import Prelude GoLib Ordering Base64 Pmax PowerMax VolumeID.

Module Masking.
Import PowerMax VolumeID Base64.
Open Scope go_scope.
Open Scope string_scope.
Open Scope Z_scope.

(** ** Answers *)
Record MaskingView := mkMaskingView {
  MV_HostID : string;
  MV_HostGroupID : string;
  MV_StorageGroupID : string;
  MV_PortGroupID : string;
}.
Record Host := mkHost {
  Host_ID : string;
  HostType : string;
  Initiators : list string;
  NumberHostGroups : Z;
}.
Record HostGroup := mkHostGroup { HostGroupID : string; HG_Hosts : list string }.
Record PortKey := mkPortKey { DirectorID : string; PortID : string }.
Record PortGroup := mkPortGroup { PortGroupType : string; SymmetrixPortKey : list PortKey }.
Record EnhancedPort := mkEnhancedPort { EP_PortID : string; EP_DirectorID : string }.
Record EnhancedPortGroup := mkEnhancedPortGroup {
  EPG_ID : string;
  EPG_Protocol : string;
  EPG_Ports : list EnhancedPort;
}.
Record InitiatorDetails := mkInitiator { OnFabric : bool; LoggedIn : bool }.
Record MaskingViewConnection := mkConnection {
  Conn_VolumeID : string;
  HostLUNAddress : string;
  DirectorPort : string;
}.
Record VersionDetails := mkVersionDetails { Version : string; APIVersion : string }.

Class MaskingClient (W C : Type) := {
  GetMaskingViewByID : C → string → string → W → result error MaskingView * W;
  CreateMaskingView : C → string → string → string → string → bool → string → W → option error * W;
  DeleteMaskingView : C → string → string → W → option error * W;
  GetMaskingViewConnections : C → string → string → string → W → result error (list MaskingViewConnection) * W;
  CreateStorageGroup : C → string → string → string → string → bool → W → option error * W;
  AddVolumesToStorageGroup : C → string → string → bool → list string → W → option error * W;
  AddVolumesToStorageGroupS : C → string → string → bool → list string → W → option error * W;
  GetHostByID : C → string → string → W → result error Host * W;
  GetHostList : C → string → W → result error (list string) * W;
  GetHostGroupByID : C → string → string → W → result error HostGroup * W;
  GetHostGroupList : C → string → W → result error (option (list string)) * W;
  GetHostMaskingViews : C → string → string → W → result error (list string) * W;
  GetPortListByProtocol : C → string → string → W → result error (list PortKey) * W;
  GetInitiatorList : C → string → string → W → result error (list string) * W;
  GetInitiatorByID : C → string → string → W → result error (option InitiatorDetails) * W;
  GetPortGroupListByType : C → string → string → W → result error (option (list EnhancedPortGroup)) * W;
  GetPortGroupList : C → string → string → W → result error (list string) * W;
  GetPortGroupByID : C → string → string → W → result error PortGroup * W;
  CreatePortGroup : C → string → string → list PortKey → string → W → option error * W;
  GetPort : C → string → string → string → W → result error string * W;
  RefreshSymmetrix : C → string → W → option error * W;
  (** getOrFetchVersionDetails and getOrFetchSymmetrix of the version cache. *)
  CachedVersion : C → string → W → result error VersionDetails * W;
  CachedMicrocode : C → string → W → result error string * W;
  (** The labels of a Kubernetes node, rand.Int, the lock manager. *)
  GetNodeLabels : string → W → result error (gmap string string) * W;
  RandInt : W → Z * W;
  RequestLock : string → string → W → result error Z * W;
  ReleaseLock : string → string → Z → W → unit * W;
}.

(** ** Options of the driver *)
Record bootLUNInfo := mkBootLUN { BL_StorageGroupID : string; NumVolumes : Z; BL_MaskingViewID : string }.
Record adoptedHostInfo := mkAdopted { AH_HostID : string; AH_Protocol : string; BootLUNs : list bootLUNInfo }.

Record service := mkService {
  IsVsphereEnabled : bool;
  VSpherePortGroup : string;
  VSphereHostName : string;
  PortGroups : list string;
  ClusterPrefix : string;
  NodeNameTemplate : string;
  TransportProtocol : string;
  HostManagementMode : string;
  useNVMeTCP : bool;
  driverName : string;
  k8sUtils : bool;
  adoptedHosts : gmap string adoptedHostInfo;
}.

Definition CsiHostPrefix := "csi-node-".
Definition CsiMVPrefix := "csi-mv-".
Definition CsiNoSrpSGPrefix := "csi-no-srp-sg-".
Definition FCSuffix := "-FC".
Definition NVMETCPSuffix := "-NVMETCP".
Definition PGSuffix := "PG".
Definition Vsphere := "VSPHERE".
Definition HostMgmtModeAdopt := "adopt".
Definition MaxPortGroupIdentifierLength : Z := 64.
Definition MaxFCPortsInPortGroup : nat := 32.
Definition APIVersion103 : Z := 103.
Definition v4ModelThreshold : Z := 59.
Definition FcIscsiID := "SCSI_FC".

(** ** Slices of strings *)
Definition appendIfMissing (slice : list string) (str : string) : list string :=
  if existsb (λ e, bool_decide (e = str)) slice then slice else (slice ++ [str])%list.
Definition sortStrings : list string → list string := sort_by String.ltb.
(** The slices are left sorted. *)
Definition stringSlicesEqual (a b : list string) : list string * list string * bool :=
  let a := sortStrings a in
  let b := sortStrings b in
  (a, b, bool_decide (List.length a = List.length b) && bool_decide (a = b)).

(** ** Names of a node's objects *)
Definition alnum (c : ascii) : bool :=
  let n := nat_of_ascii c in
  ((48 <=? n)%nat && (n <=? 57)%nat) || ((65 <=? n)%nat && (n <=? 90)%nat) || ((97 <=? n)%nat && (n <=? 122)%nat).
Fixpoint all_chars (p : ascii → bool) (s : string) : bool :=
  match s with "" => true | String c s => p c && all_chars p s end.
(** The regular expression ^[a-zA-Z0-9]{1}[a-zA-Z0-9_\-]*$ *)
Definition isValidHostID (s : string) : bool :=
  match s with
  | "" => false
  | String c s => alnum c && all_chars (λ c, alnum c || bool_decide (c = "_"%char ∨ c = "-"%char)) s
  end.

Definition buildHostIDFromTemplate (s : service) (nodeID : string) : result error string :=
  match Split "%" (NodeNameTemplate s) with
  | nodePrefix :: _ :: nodeSuffix :: _ =>
      let hostID := nodePrefix ++ nodeID ++ nodeSuffix in
      if isValidHostID hostID then Ok hostID
      else Err (errorString ("Character in hostID (" ++ hostID ++ ") is not acceptable"))
  | _ => Err (errorString ("The node name template " ++ NodeNameTemplate s ++ " is not formed correctly"))
  end.

Definition GetHostIDFromTemplate (s : service) (nodeID : string) : string :=
  let derived := CsiHostPrefix ++ ClusterPrefix s ++ "-" ++ nodeID in
  if decide (NodeNameTemplate s = "") then derived
  else match buildHostIDFromTemplate s nodeID with Ok hostID => hostID | Err _ => derived end.

(** [strings.ReplaceAll(s, ".", "-")] *)
Fixpoint dots_to_dashes (s : string) : string :=
  match s with "" => "" | String c s => String (if decide (c = "."%char) then "-"%char else c) (dots_to_dashes s) end.

Definition names : Type := string * string * string.   (* host, storage group, masking view *)

Definition GetVSphereFCHostSGAndMVIDFromNodeID (s : service) : names :=
  (VSphereHostName s, CsiNoSrpSGPrefix ++ ClusterPrefix s ++ "-" ++ Vsphere, CsiMVPrefix ++ ClusterPrefix s ++ "-" ++ Vsphere).

Definition GetISCSIHostSGAndMVIDFromNodeID (s : service) (nodeID : string) : names :=
  let sanitized := dots_to_dashes nodeID in
  (GetHostIDFromTemplate s sanitized, CsiNoSrpSGPrefix ++ ClusterPrefix s ++ "-" ++ sanitized,
   CsiMVPrefix ++ ClusterPrefix s ++ "-" ++ sanitized).

Definition with_suffix (suffix : string) (n : names) : names :=
  let '(h, sg, mv) := n in (h ++ suffix, sg ++ suffix, mv ++ suffix).
Definition GetFCHostSGAndMVIDFromNodeID (s : service) (nodeID : string) : names :=
  with_suffix FCSuffix (GetISCSIHostSGAndMVIDFromNodeID s nodeID).
Definition GetNVMETCPHostSGAndMVIDFromNodeID (s : service) (nodeID : string) : names :=
  with_suffix NVMETCPSuffix (GetISCSIHostSGAndMVIDFromNodeID s nodeID).

Definition GetHostSGAndMVIDFromNodeID (s : service) (nodeID : string) (isISCSI : bool) : names :=
  if IsVsphereEnabled s then GetVSphereFCHostSGAndMVIDFromNodeID s
  else if isISCSI then GetISCSIHostSGAndMVIDFromNodeID s nodeID
  else GetFCHostSGAndMVIDFromNodeID s nodeID.

(** ** Adopted hosts and boot volumes *)
Definition getAdoptedHostID (s : service) (symID : string) : string :=
  match adoptedHosts s !! symID with Some info => AH_HostID info | None => "" end.

Definition isBootLUNStorageGroup (s : service) (symID storageGroupID : string) : bool :=
  match adoptedHosts s !! symID with
  | None => false
  | Some info => existsb (λ bl, bool_decide (BL_StorageGroupID bl = storageGroupID)) (BootLUNs info)
  end.

Section calls.
Context {W C : Type} `{Pmax W C} `{MaskingClient W C}.
Implicit Types (s : service) (c : C).

Definition getAdoptedHostIDFromNodeLabels s (symID nodeID : string) : M W (result error string) :=
  if decide (HostManagementMode s ≠ HostMgmtModeAdopt) then ret (Ok "")
  else if decide (getAdoptedHostID s symID ≠ "") then ret (Ok (getAdoptedHostID s symID))
  else if negb (k8sUtils s) then ret (Ok "")
  else
    let* r := lift (GetNodeLabels nodeID) in
    match r with
    | Err e => ret (Err (errorString ("failed to resolve adopted host for node " ++ nodeID ++ " on array " ++ symID ++ ": " ++ Error e)))
    | Ok labels => ret (Ok (default "" (labels !! (driverName s ++ "/" ++ symID ++ ".adoptedHost"))))
    end.

Definition adoptedHostIDOrEmpty s (symID nodeID : string) : M W string :=
  let* r := getAdoptedHostIDFromNodeLabels s symID nodeID in
  match r with Ok h => ret h | Err _ => ret "" end.

(** The storage groups of a host's masking views that are not the driver's. *)
Definition detect_one (symID : string) c (mvID : string) (found : list bootLUNInfo) : M W (list bootLUNInfo + unit) :=
  let* r := lift (GetMaskingViewByID c symID mvID) in
  match r with
  | Err _ => ret (inl found)
  | Ok mv =>
      let sgID := MV_StorageGroupID mv in
      if decide (sgID = "") then ret (inl found)
      else if HasPrefix sgID (CSIPrefix ++ "-") then ret (inl found)
      else
        let* r := lift (GetStorageGroup c symID sgID) in
        match r with
        | Err _ => ret (inl found)
        | Ok sg => ret (inl (found ++ [mkBootLUN sgID (NumOfVolumes sg) mvID])%list)
        end
  end.

Definition detectBootLUNs (symID hostID : string) c : M W (result error (list bootLUNInfo)) :=
  let* r := lift (GetHostMaskingViews c symID hostID) in
  match r with
  | Err e => ret (Err (errorString ("detectBootLUNs: failed to get masking views for host " ++ hostID ++ " on array "
                                    ++ symID ++ ": " ++ Error e)))
  | Ok mvIDs =>
      let* r := forM (detect_one symID c) mvIDs [] in
      match r with inl found => ret (Ok found) | inr _ => ret (Ok []) end
  end.

(** ** The protocol of a node *)
Definition getHostForVsphere s (symID : string) c : M W (option error) :=
  let* r := lift (GetHostByID c symID (VSphereHostName s)) in
  match r with
  | Ok _ => ret None
  | Err e =>
      if Contains (Error e) "cannot be found" then
        let* r := lift (GetHostGroupByID c symID (VSphereHostName s)) in
        match r with Ok _ => ret None | Err e => ret (Some e) end
      else ret (Some e)
  end.

Definition no_host (symID nodeID : string) : error :=
  errorString ("Failed to fetch host id from array " ++ symID ++ " for node: " ++ nodeID).
Definition is_ok_call {A} (f : W → result error A * W) : M W bool := let* r := lift f in ret (is_ok r).
Definition host_is c (symID hostID type : string) : M W bool :=
  let* r := lift (GetHostByID c symID hostID) in
  match r with Ok h => ret (bool_decide (HostType h = type)) | Err _ => ret false end.

(** The adopted host: the optional argument of the caller, or looked up. *)
Definition adopted_arg s (symID nodeID : string) (adoptedID : option string) : M W (result error string) :=
  match adoptedID with Some aid => ret (Ok aid) | None => getAdoptedHostIDFromNodeLabels s symID nodeID end.

Definition IsNodeNVMe s (symID nodeID : string) c (adoptedID : option string) : M W (result error bool) :=
  let* r := adopted_arg s symID nodeID adoptedID in
  match r with Err e => ret (Err e) | Ok aid =>
  if decide (aid ≠ "") then ret (Ok false)
  else
    let '(hostID, _, mvID) := GetNVMETCPHostSGAndMVIDFromNodeID s nodeID in
    if bool_decide (TransportProtocol s = "NVMETCP") || useNVMeTCP s then
      let* mv := is_ok_call (GetMaskingViewByID c symID mvID) in
      if (mv : bool) then ret (Ok true)
      else
        let* h := host_is c symID hostID "NVMe/TCP" in
        if (h : bool) then ret (Ok true) else ret (Err (no_host symID nodeID))
    else ret (Ok false)
  end.

Definition IsNodeISCSI s (symID nodeID : string) c (adoptedID : option string) : M W (result error bool) :=
  let* r := adopted_arg s symID nodeID adoptedID in
  match r with Err e => ret (Err e) | Ok aid =>
  if decide (aid ≠ "") then ret (Ok false)
  else if IsVsphereEnabled s then
    let* e := getHostForVsphere s symID c in
    match e with
    | None => ret (Ok false)
    | Some e => ret (Err (errorString ("Failed to fetch host/host group from array for node " ++ nodeID ++ " err: " ++ Error e)))
    end
  else
    let '(fcHostID, _, fcMV) := GetFCHostSGAndMVIDFromNodeID s nodeID in
    let '(iscsiHostID, _, iscsiMV) := GetISCSIHostSGAndMVIDFromNodeID s nodeID in
    if decide (TransportProtocol s = "FC" ∨ TransportProtocol s = "") then
      let* fc := is_ok_call (GetMaskingViewByID c symID fcMV) in
      if (fc : bool) then ret (Ok false)
      else
        let* iscsi := is_ok_call (GetMaskingViewByID c symID iscsiMV) in
        if (iscsi : bool) then ret (Ok true)
        else
          let* fch := host_is c symID fcHostID "Fibre" in
          if (fch : bool) then ret (Ok false)
          else
            let* ih := host_is c symID iscsiHostID "iSCSI" in
            if (ih : bool) then ret (Ok true) else ret (Err (no_host symID nodeID))
    else if decide (TransportProtocol s = "ISCSI") then
      let* iscsi := is_ok_call (GetMaskingViewByID c symID iscsiMV) in
      if (iscsi : bool) then ret (Ok true)
      else
        let* ih := host_is c symID iscsiHostID "iSCSI" in
        if (ih : bool) then ret (Ok true)
        else
          let* fch := host_is c symID fcHostID "Fibre" in
          if (fch : bool) then ret (Ok false) else ret (Err (no_host symID nodeID))
    else ret (Err (no_host symID nodeID))
  end.

Definition nodeHasHostOnArray s c (arrayID nodeID : string) : M W bool :=
  let '(iscsiHostID, _, _) := GetISCSIHostSGAndMVIDFromNodeID s nodeID in
  let '(fcHostID, _, _) := GetFCHostSGAndMVIDFromNodeID s nodeID in
  let '(nvmeHostID, _, _) := GetNVMETCPHostSGAndMVIDFromNodeID s nodeID in
  let* adoptedID := adoptedHostIDOrEmpty s arrayID nodeID in
  let fcHostID := if decide (adoptedID ≠ "") then adoptedID else fcHostID in
  let* r := lift (GetHostList c arrayID) in
  match r with
  | Err _ => ret false
  | Ok hosts => ret (existsb (λ h, bool_decide (h = iscsiHostID ∨ h = fcHostID ∨ h = nvmeHostID)) hosts)
  end.

Definition shouldSkipRemotePublish c (remoteSymID hostID : string) : M W bool :=
  if decide (remoteSymID = "") then ret true
  else let* found := is_ok_call (GetHostByID c remoteSymID hostID) in ret (negb found).

(** ** Masking view targets *)
Definition find_in_group (hostID symID : string) c (groupID : string) (acc : unit) : M W (unit + string) :=
  let* r := lift (GetHostGroupByID c symID groupID) in
  match r with
  | Err _ => ret (inl acc)
  | Ok g => if existsb (λ m, EqualFold m hostID) (HG_Hosts g) then ret (inr (HostGroupID g)) else ret (inl acc)
  end.

Definition findHostGroupForHost (symID hostID : string) c : M W (result error string) :=
  let* r := lift (GetHostGroupList c symID) in
  match r with
  | Err e => ret (Err (errorString ("failed to list host groups on array " ++ symID ++ " while resolving the host group for host "
                                    ++ hostID ++ ": " ++ Error e)))
  | Ok None => ret (Ok "")
  | Ok (Some groups) =>
      let* r := forM (find_in_group hostID symID c) groups tt in
      match r with inl _ => ret (Ok "") | inr g => ret (Ok g) end
  end.

(** The id of the host or of its group, and whether it is a host. *)
Definition resolveMaskingViewTarget (symID : string) (host : Host) c : M W (result error (string * bool)) :=
  if NumberHostGroups host =? 0 then ret (Ok (Host_ID host, true))
  else
    let* r := findHostGroupForHost symID (Host_ID host) c in
    match r with
    | Err e => ret (Err e)
    | Ok g => if decide (g = "") then ret (Ok (Host_ID host, true)) else ret (Ok (g, false))
    end.

(** ** Port groups *)
Definition SelectPortGroup s : M W (result error string) :=
  match PortGroups s with
  | [] => ret (Err (errorString "No port groups have been supplied"))
  | groups =>
      let* n := lift RandInt in
      let* pg := index groups (Z.to_nat (Z.rem n (Z.of_nat (List.length groups)))) in
      ret (Ok pg)
  end.

Definition port_text (p : PortKey) : string := DirectorID p ++ ":" ++ PortID p.

(** One initiator id of the host: its port joins the list when it is a SCSI_FC
    port and the initiator is logged in. *)
Definition usable_port (symID : string) c (scsiPorts : list string) (initiatorID : string) (ports : list string)
    : M W (list string + unit) :=
  match splitFibreChannelInitiatorID initiatorID with
  | Err _ => ret (inl ports)
  | Ok (_, dirPort, _) =>
      if negb (existsb (λ p, bool_decide (p = dirPort)) scsiPorts) then ret (inl ports)
      else
        let* r := lift (GetInitiatorByID c symID initiatorID) in
        match r with
        | Err _ | Ok None => ret (inl ports)
        | Ok (Some d) => if negb (OnFabric d) || negb (LoggedIn d) then ret (inl ports) else ret (inl (appendIfMissing ports dirPort))
        end
  end.

Definition initiator_ports (symID : string) c (scsiPorts : list string) (initiator : string) (ports : list string)
    : M W (list string + unit) :=
  let* r := lift (GetInitiatorList c symID initiator) in
  match r with
  | Err _ => ret (inl ports)
  | Ok ids => forM (usable_port symID c scsiPorts) ids ports
  end.

Definition getUsableFCPortsForHost (symID : string) (host : Host) c : M W (result error (list string)) :=
  if decide (HostType host ≠ "Fibre") then ret (Ok [])
  else
    let* r := lift (GetPortListByProtocol c symID "SCSI_FC") in
    match r with
    | Err e => ret (Err (errorString ("failed to fetch SCSI_FC ports for array " ++ symID ++ ": " ++ Error e)))
    | Ok keys =>
        let* r := forM (initiator_ports symID c (port_text <$> keys)) (Initiators host) [] in
        match r with inl ports => ret (Ok ports) | inr _ => ret (Ok []) end
    end.
End calls.
End Masking.
