(* ===== verification/PortGroups.v ===== *)
(** * The port group of a Fibre Channel host

    Models SelectOrCreateFCPGForHost, SelectOrCreatePortGroup, isV4OrAbove and
    validateAdoptedHostPortGroup (service/controller.go, service/node.go): the
    driver reuses one of its port groups that has exactly the ports the host is
    logged in on, or creates one. *)

From stdpp Require Import base gmap strings list.
From Stdlib Require Import ZArith Lia Ascii.
From S2P Require Import Prelude GoLib Ordering Base64 Pmax PowerMax VolumeID Masking.

Module PortGroups.
Import PowerMax VolumeID Base64 Masking.
Open Scope go_scope.
Open Scope string_scope.
Open Scope Z_scope.

(** ** Comparing a port group with the ports of a host *)
Definition pg_prefix (s : service) : string := "csi-" ++ ClusterPrefix s.

(** The director port of an entry of the enhanced API, if it can be read. *)
Definition enhanced_port (p : EnhancedPort) : list string :=
  if decide (EP_DirectorID p = "") then []
  else match RawDecodeString (EP_PortID p) with
       | None => []
       | Some decoded =>
           match Split "|" decoded with
           | _ :: number :: _ => [EP_DirectorID p ++ ":" ++ number]
           | _ => []
           end
       end.

Definition enhanced_ports (g : EnhancedPortGroup) : list string :=
  if decide (EPG_Protocol g = FcIscsiID) then List.flat_map enhanced_port (EPG_Ports g) else [].

(** The first of the driver's groups with exactly the ports of the host. *)
Fixpoint match_enhanced (s : service) (groups : list EnhancedPortGroup) (portListFromHost : list string) : option string :=
  match groups with
  | [] => None
  | g :: groups =>
      if negb (Contains (EPG_ID g) (pg_prefix s)) then match_enhanced s groups portListFromHost
      else if decide (EPG_Ports g = []) then match_enhanced s groups portListFromHost
      else
        match enhanced_ports g with
        | [] => match_enhanced s groups portListFromHost
        | portList =>
            let '(_, portListFromHost, same) := stringSlicesEqual portList portListFromHost in
            if same then Some (EPG_ID g) else match_enhanced s groups portListFromHost
        end
  end.

(** The name of a new port group; [None] is a panic of truncateString. *)
Definition dir_name (p : PortKey) : string := DirectorID p ++ "-" ++ PortID p ++ "-".
Definition port_group_name (s : service) (keys : list PortKey) : option string :=
  let dirNames := String.concat "" (dir_name <$> keys) in
  let constComponentLength := slen CSIPrefix + slen (ClusterPrefix s) + slen PGSuffix + 2 in
  let MaxDirNameLength := MaxPortGroupIdentifierLength - constComponentLength in
  dirNames ← if MaxDirNameLength <? slen dirNames then truncateString dirNames MaxDirNameLength else Some dirNames;
  Some (CSIPrefix ++ "-" ++ ClusterPrefix s ++ "-" ++ dirNames ++ PGSuffix).

(** [strings.Split(key, ":")] and its first two parts; [None] is an index out of
    range. *)
Definition port_key (dirPortKey : string) : option PortKey :=
  match Split ":" dirPortKey with d :: p :: _ => Some (mkPortKey d p) | _ => None end.

Section calls.
Context {W C : Type} `{Pmax W C} `{MaskingClient W C}.
Implicit Types (s : service) (c : C).

Definition isV4OrAbove (symID : string) c : M W bool :=
  let* r := lift (CachedMicrocode c symID) in
  match r with
  | Err _ => ret false
  | Ok microcode =>
      if slen microcode <? 2 then ret false
      else match Atoi (stake 2 microcode) with
           | None => ret false
           | Some model => ret (v4ModelThreshold <? model)
           end
  end.

Definition match_legacy (symID : string) c (portListFromHost : list string) (portGroupID : string) (acc : unit)
    : M W (unit + string) :=
  let* r := lift (GetPortGroupByID c symID portGroupID) in
  match r with
  | Err _ => ret (inl acc)
  | Ok g =>
      if decide (PortGroupType g = "Fibre" ∨ PortGroupType g = "SCSI_FC") then
        let '(_, _, same) := stringSlicesEqual (port_text <$> SymmetrixPortKey g) portListFromHost in
        if (same : bool) then ret (inr portGroupID) else ret (inl acc)
      else ret (inl acc)
  end.

(** The group to reuse, empty when there is none. *)
Definition existing_group s (symID : string) c (portListFromHost : list string) : M W (result error string) :=
  let* r := lift (CachedVersion c symID) in
  match r with
  | Err _ => ret (Err (errorString ("error in getversion API: " ++ symID)))
  | Ok details =>
      let version := if decide (APIVersion details = "") then Some 0 else Atoi (APIVersion details) in
      match version with
      | None => ret (Err (errorString ("error in parsing Version: " ++ APIVersion details)))
      | Some version =>
          let* isV4 := isV4OrAbove symID c in
          if (APIVersion103 <=? version) && isV4 then
            let* r := lift (GetPortGroupListByType c symID "fibre") in
            match r with
            | Err _ => ret (Err (errorString ("failed to fetch Fibre channel port groups for array(enhanced API): " ++ symID)))
            | Ok None => ret (Ok "")
            | Ok (Some groups) => ret (Ok (default "" (match_enhanced s groups portListFromHost)))
            end
          else
            let* r := lift (GetPortGroupList c symID "fibre") in
            match r with
            | Err _ => ret (Err (errorString ("Failed to fetch Fibre channel port groups for array: " ++ symID)))
            | Ok ids =>
                let* r := forM (match_legacy symID c portListFromHost)
                            (List.filter (λ pg, Contains pg (pg_prefix s)) ids) tt in
                match r with inl _ => ret (Ok "") | inr pg => ret (Ok pg) end
            end
      end
  end.

Definition SelectOrCreateFCPGForHost s (symID : string) (host : Host) c : M W (result error string) :=
  let* r := getUsableFCPortsForHost symID host c in
  match r with
  | Err e => ret (Err e)
  | Ok ports =>
      let portListFromHost := take MaxFCPortsInPortGroup (sortStrings ports) in
      match portListFromHost with
      | [] => ret (Err (errorString ("failed to find a valid initiator for hostID " ++ Host_ID host ++ " from " ++ symID)))
      | _ =>
          let* r := existing_group s symID c portListFromHost in
          match r with
          | Err e => ret (Err e)
          | Ok validPortGroupID =>
              if decide (validPortGroupID ≠ "") then ret (Ok validPortGroupID)
              else
                match mapM port_key portListFromHost with
                | None => panic
                | Some portKeys =>
                    match port_group_name s portKeys with
                    | None => panic
                    | Some portGroupName =>
                        let* e := lift (CreatePortGroup c symID portGroupName portKeys "SCSI_FC") in
                        match e with
                        | Some e => ret (Err (errorString ("Failed to create PortGroup - " ++ portGroupName ++ ". Error - " ++ Error e)))
                        | None => ret (Ok portGroupName)
                        end
                    end
                end
          end
      end
  end.

Definition SelectOrCreatePortGroup s (symID : string) (host : Host) c : M W (result error string) :=
  if IsVsphereEnabled s then ret (Ok (VSpherePortGroup s))
  else if decide (HostType host = "Fibre") then SelectOrCreateFCPGForHost s symID host c
  else SelectPortGroup s.

Definition validateAdoptedHostPortGroup s (symID : string) (host : Host) c : M W (option error) :=
  if IsVsphereEnabled s then ret None
  else if decide (HostType host ≠ "Fibre") then ret None
  else
    let* r := getUsableFCPortsForHost symID host c in
    match r with
    | Err e => ret (Some (errorString ("could not determine usable FC ports for host " ++ Host_ID host ++ " on array "
                                       ++ symID ++ ": " ++ Error e)))
    | Ok [] => ret (Some (errorString ("host " ++ Host_ID host ++ " on array " ++ symID
        ++ " has no initiator logged in on a SCSI_FC director port, so no CSI port group can be built for it; the storage administrator must verify the host's zoning and that its FC initiators are on fabric and logged in")))
    | Ok _ => ret None
    end.
End calls.

(** ** Theorems *)
Lemma sortStrings_perm l : sortStrings l ≡ₚ l.
Proof. apply sort_by_perm. Qed.

Lemma sortStrings_sorted l : sorted_by String.ltb (sortStrings l).
Proof.
  apply (sort_by_sorted String.ltb String.compare good_string).
  intros a b _ _. unfold String.ltb. by destruct (String.compare a b).
Qed.

(** Two sorted lists with the same elements are equal. *)
Lemma sorted_unique l l' : sorted_by String.ltb l → sorted_by String.ltb l' → l ≡ₚ l' → l = l'.
Proof.
  revert l'. induction l as [|x l IH]; intros l' Hs Hs' Hp; [by apply Permutation_nil_l in Hp|].
  destruct l' as [|y l']; [by apply Permutation_nil_r in Hp|].
  inversion Hs as [|? ? Hl Hx]; inversion Hs' as [|? ? Hl' Hy]; subst.
  assert (x = y) as ->; [|f_equal; apply IH; [done..|by apply Permutation_cons_inv in Hp]].
  assert (String.compare x y ≠ Gt) as H1.
  { assert (y ∈ x :: l) as Hin by (rewrite Hp; by left). apply elem_of_cons in Hin as [->|Hin].
    - by rewrite (good_refl String.compare _ good_string).
    - rewrite Forall_forall in Hx. specialize (Hx y Hin). unfold String.ltb in Hx.
      rewrite (good_sym good_string x y) in Hx. by destruct (String.compare x y). }
  assert (String.compare y x ≠ Gt) as H2.
  { assert (x ∈ y :: l') as Hin by (rewrite <- Hp; by left). apply elem_of_cons in Hin as [->|Hin].
    - by rewrite (good_refl String.compare _ good_string).
    - rewrite Forall_forall in Hy. specialize (Hy x Hin). unfold String.ltb in Hy.
      rewrite (good_sym good_string y x) in Hy. by destruct (String.compare y x). }
  rewrite (good_sym good_string x y) in H2. apply String.compare_eq_iff. by destruct (String.compare x y).
Qed.

Lemma sortStrings_eq l l' : sortStrings l = sortStrings l' ↔ l ≡ₚ l'.
Proof.
  split; intros Hp.
  - by rewrite <- (sortStrings_perm l), <- (sortStrings_perm l'), Hp.
  - apply sorted_unique; [apply sortStrings_sorted..|]. by rewrite !sortStrings_perm.
Qed.

(** stringSlicesEqual compares the slices as multisets. *)
Lemma stringSlicesEqual_spec a b : (stringSlicesEqual a b).2 = true ↔ a ≡ₚ b.
Proof.
  unfold stringSlicesEqual. simpl. rewrite andb_true_iff, !bool_decide_eq_true, sortStrings_eq. split; [tauto|].
  intros Hp. split; [|done]. by rewrite (sortStrings_perm a), (sortStrings_perm b), Hp.
Qed.

(** A group that may be reused: one of the driver's, with exactly the ports of the
    host. *)
Definition fits (s : service) (ports : list string) (g : EnhancedPortGroup) : Prop :=
  Contains (EPG_ID g) (pg_prefix s) = true ∧ enhanced_ports g ≠ [] ∧ enhanced_ports g ≡ₚ ports.

Lemma enhanced_ports_nil g : EPG_Ports g = [] → enhanced_ports g = [].
Proof. unfold enhanced_ports. intros ->. by case_decide. Qed.

(** The port group that is reused for a Fibre Channel host is the first of the
    array's groups that is the driver's and has exactly the usable ports of the
    host, in whatever order; a new one is made only when no group has. *)
Theorem port_group_reuse_exact s groups ports :
  match match_enhanced s groups ports with
  | Some pg => ∃ before g after, groups = (before ++ g :: after)%list ∧ EPG_ID g = pg ∧ fits s ports g ∧ Forall (λ g, ¬ fits s ports g) before
  | None => Forall (λ g, ¬ fits s ports g) groups
  end.
Proof.
  revert ports. induction groups as [|g groups IH]; intros ports; [constructor|].
  assert (∀ ports', ports' ≡ₚ ports → ¬ fits s ports g → match_enhanced s (g :: groups) ports = match_enhanced s groups ports' →
    match match_enhanced s (g :: groups) ports with
    | Some pg => ∃ before g' after, g :: groups = (before ++ g' :: after)%list ∧ EPG_ID g' = pg ∧ fits s ports g'
        ∧ Forall (λ g, ¬ fits s ports g) before
    | None => Forall (λ g, ¬ fits s ports g) (g :: groups)
    end) as Hskip.
  { intros ports' Hp Hng ->. specialize (IH ports').
    assert (∀ x, fits s ports' x ↔ fits s ports x) as Hf by (intros x; unfold fits; by rewrite Hp).
    destruct (match_enhanced s groups ports') as [pg|].
    - destruct IH as (before & g' & after & -> & Hid & Hfit & Hall). exists (g :: before), g', after.
      split_and!; [done|done|by apply Hf|]. constructor; [done|]. eapply Forall_impl; [exact Hall|]. intros x Hx Hy. by apply Hx, Hf, Hy.
    - constructor; [done|]. eapply Forall_impl; [exact IH|]. intros x Hx Hy. by apply Hx, Hf, Hy. }
  cbn [match_enhanced] in *.
  destruct (Contains (EPG_ID g) (pg_prefix s)) eqn:Hc; simpl in *;
    [|apply (Hskip ports); [done|unfold fits; intros (? & _); congruence|done]].
  case_decide as Hports;
    [apply (Hskip ports); [done|intros (_ & Hne & _); by apply Hne, enhanced_ports_nil|done]|].
  destruct (enhanced_ports g) as [|p ps] eqn:He; [apply (Hskip ports); [done|unfold fits; rewrite He; by intros (_ & [] & _)|done]|].
  destruct (bool_decide (List.length (sortStrings (p :: ps)) = List.length (sortStrings ports))
    && bool_decide (sortStrings (p :: ps) = sortStrings ports)) eqn:Hsame; simpl in *.
  - exists [], g, groups. split_and!; [done|done| |constructor]. split_and!; [done|by rewrite He|]. rewrite He.
    by apply stringSlicesEqual_spec.
  - apply (Hskip (sortStrings ports)); [apply sortStrings_perm| |done].
    intros (_ & _ & Hp). rewrite He in Hp. apply stringSlicesEqual_spec in Hp. simpl in Hp. congruence.
Qed.

(** A new port group's name never exceeds the array's limit, whatever the ports. *)
Lemma port_group_name_fits s keys :
  slen (ClusterPrefix s) <= 57 → ∃ name, port_group_name s keys = Some name ∧ slen name <= MaxPortGroupIdentifierLength.
Proof.
  intros Hlen. unfold port_group_name, MaxPortGroupIdentifierLength. cbv zeta.
  set (d := String.concat "" _). change (slen CSIPrefix) with 3. change (slen PGSuffix) with 2.
  set (m := 64 - (3 + slen (ClusterPrefix s) + 2 + 2)).
  assert (∃ t, (if m <? slen d then truncateString d m else Some d) = Some t ∧ slen t <= m) as (t & -> & Ht).
  { destruct (Z.ltb_spec m (slen d)); [|eauto with lia].
    destruct (truncateString_length d m) as (t & Ht & Hl); [subst m; lia|]. exists t. split; [done|lia]. }
  eexists. split; [reflexivity|]. rewrite !slen_app. change (slen CSIPrefix) with 3. change (slen PGSuffix) with 2.
  change (slen "-") with 1. subst m. lia.
Qed.
End PortGroups.
