(* ===== verification/Trace.v ===== *)
(** * Traced clients

    A client whose calls that change an array are recorded: any client becomes
    one by wrapping it. [logs P m] says that whatever the arrays answer, the
    computation [m] makes only changes that satisfy [P]. *)

From stdpp Require Import base strings list.
From Stdlib Require Import ZArith.
From S2P Require Import Prelude GoLib Pmax Masking.

Module Trace.
Import Masking.

(** Calls that change an array, with the array and the objects they name. *)
Inductive event :=
| EvDeleteVolume (symID volumes : string)
| EvModifySnapshot (symID name action : string) (sources targets : list string)
| EvTerminate (symID name : string) (sources : list string)
| EvReplication (symID action group : string)
| EvCreateGroup (symID group : string)
| EvDeleteGroup (symID group : string)
| EvAddVolumes (symID group : string) (devices : list string)
| EvRemoveVolumes (symID group : string) (devices : list string)
| EvCreateView (symID view group : string)
| EvDeleteView (symID view : string)
| EvCreatePortGroup (symID group : string)
| EvRename (symID device name : string)
| EvCreateSnapshot (symID name : string) (sources : list string)
| EvSetSRP (symID group srp : string)
| EvExpand (symID device : string) (cylinders : Z).

Definition traced (W : Type) : Type := W * list event.

Section traced.
Context {W C : Type} `{Pmax W C} `{MaskingClient W C}.

Definition quiet {A} (f : W → A * W) (t : traced W) : A * traced W :=
  let '(a, w) := f t.1 in (a, (w, t.2)).
Definition noisy {A} (e : event) (f : W → A * W) (t : traced W) : A * traced W :=
  let '(a, w) := f t.1 in (a, (w, (t.2 ++ [e])%list)).

#[export] Instance traced_pmax : Pmax (traced W) C := {
  Now := quiet (Now);
  Sleep a0 := quiet (Sleep a0);
  WithSymmetrixID := WithSymmetrixID;
  GetHTTPClient := GetHTTPClient;
  GetVersionDetails a0 := quiet (GetVersionDetails a0);
  GetVolumeByID a0 a1 a2 := quiet (GetVolumeByID a0 a1 a2);
  GetVolumesByIdentifierMatch a0 a1 a2 := quiet (GetVolumesByIdentifierMatch a0 a1 a2);
  GetVolumeIDList a0 a1 a2 a3 := quiet (GetVolumeIDList a0 a1 a2 a3);
  DeleteVolume a0 a1 a2 := noisy (EvDeleteVolume a1 a2) (DeleteVolume a0 a1 a2);
  GetVolumeSnapInfo a0 a1 a2 := quiet (GetVolumeSnapInfo a0 a1 a2);
  ModifySnapshotS a0 a1 a2 a3 a4 a5 a6 a7 a8 := noisy (EvModifySnapshot a1 a4 a5 a2 a3) (ModifySnapshotS a0 a1 a2 a3 a4 a5 a6 a7 a8);
  DeleteSnapshotS a0 a1 a2 a3 a4 := noisy (EvTerminate a1 a2 a3) (DeleteSnapshotS a0 a1 a2 a3 a4);
  GetStorageGroup a0 a1 a2 := quiet (GetStorageGroup a0 a1 a2);
  DeleteStorageGroup a0 a1 a2 := noisy (EvDeleteGroup a1 a2) (DeleteStorageGroup a0 a1 a2);
  RemoveVolumesFromStorageGroup a0 a1 a2 a3 a4 := noisy (EvRemoveVolumes a1 a2 a4) (RemoveVolumesFromStorageGroup a0 a1 a2 a3 a4);
  RemoveVolumesFromProtectedStorageGroup a0 a1 a2 a3 a4 a5 a6 := noisy (EvRemoveVolumes a1 a2 a6) (RemoveVolumesFromProtectedStorageGroup a0 a1 a2 a3 a4 a5 a6);
  GetStorageGroupRDFInfo a0 a1 a2 a3 := quiet (GetStorageGroupRDFInfo a0 a1 a2 a3);
  GetProtectedStorageGroup a0 a1 a2 := quiet (GetProtectedStorageGroup a0 a1 a2);
  ExecuteReplicationActionOnSG a0 a1 a2 a3 a4 a5 a6 a7 := noisy (EvReplication a1 a2 a3) (ExecuteReplicationActionOnSG a0 a1 a2 a3 a4 a5 a6 a7);
  CreateSGReplica a0 a1 a2 a3 a4 a5 a6 a7 a8 := noisy (EvReplication a1 "replica" a5) (CreateSGReplica a0 a1 a2 a3 a4 a5 a6 a7 a8);
  GetRDFGroupByID a0 a1 a2 := quiet (GetRDFGroupByID a0 a1 a2);
  GetRDFGroupList a0 a1 a2 := quiet (GetRDFGroupList a0 a1 a2);
  GetFreeLocalAndRemoteRDFg a0 a1 := quiet (GetFreeLocalAndRemoteRDFg a0 a1);
  GetLocalOnlineRDFDirs a0 a1 := quiet (GetLocalOnlineRDFDirs a0 a1);
  GetLocalOnlineRDFPorts a0 a1 a2 := quiet (GetLocalOnlineRDFPorts a0 a1 a2);
  GetRemoteRDFPortOnSAN a0 a1 a2 a3 := quiet (GetRemoteRDFPortOnSAN a0 a1 a2 a3);
  GetLocalRDFPortDetails a0 a1 a2 a3 := quiet (GetLocalRDFPortDetails a0 a1 a2 a3);
  ExecuteCreateRDFGroup a0 a1 a2 := noisy (EvReplication a1 "create RDF group" (RDFLabel a2)) (ExecuteCreateRDFGroup a0 a1 a2);
}.

#[export] Instance traced_masking : MaskingClient (traced W) C := {
  GetMaskingViewByID a0 a1 a2 := quiet (GetMaskingViewByID a0 a1 a2);
  CreateMaskingView a0 a1 a2 a3 a4 a5 a6 := noisy (EvCreateView a1 a2 a3) (CreateMaskingView a0 a1 a2 a3 a4 a5 a6);
  DeleteMaskingView a0 a1 a2 := noisy (EvDeleteView a1 a2) (DeleteMaskingView a0 a1 a2);
  GetMaskingViewConnections a0 a1 a2 a3 := quiet (GetMaskingViewConnections a0 a1 a2 a3);
  CreateStorageGroup a0 a1 a2 a3 a4 a5 := noisy (EvCreateGroup a1 a2) (CreateStorageGroup a0 a1 a2 a3 a4 a5);
  AddVolumesToStorageGroup a0 a1 a2 a3 a4 := noisy (EvAddVolumes a1 a2 a4) (AddVolumesToStorageGroup a0 a1 a2 a3 a4);
  AddVolumesToStorageGroupS a0 a1 a2 a3 a4 := noisy (EvAddVolumes a1 a2 a4) (AddVolumesToStorageGroupS a0 a1 a2 a3 a4);
  GetHostByID a0 a1 a2 := quiet (GetHostByID a0 a1 a2);
  GetHostList a0 a1 := quiet (GetHostList a0 a1);
  GetHostGroupByID a0 a1 a2 := quiet (GetHostGroupByID a0 a1 a2);
  GetHostGroupList a0 a1 := quiet (GetHostGroupList a0 a1);
  GetHostMaskingViews a0 a1 a2 := quiet (GetHostMaskingViews a0 a1 a2);
  GetPortListByProtocol a0 a1 a2 := quiet (GetPortListByProtocol a0 a1 a2);
  GetInitiatorList a0 a1 a2 := quiet (GetInitiatorList a0 a1 a2);
  GetInitiatorByID a0 a1 a2 := quiet (GetInitiatorByID a0 a1 a2);
  GetPortGroupListByType a0 a1 a2 := quiet (GetPortGroupListByType a0 a1 a2);
  GetPortGroupList a0 a1 a2 := quiet (GetPortGroupList a0 a1 a2);
  GetPortGroupByID a0 a1 a2 := quiet (GetPortGroupByID a0 a1 a2);
  CreatePortGroup a0 a1 a2 a3 a4 := noisy (EvCreatePortGroup a1 a2) (CreatePortGroup a0 a1 a2 a3 a4);
  GetPort a0 a1 a2 a3 := quiet (GetPort a0 a1 a2 a3);
  RefreshSymmetrix a0 a1 := quiet (RefreshSymmetrix a0 a1);
  CachedVersion a0 a1 := quiet (CachedVersion a0 a1);
  CachedMicrocode a0 a1 := quiet (CachedMicrocode a0 a1);
  GetNodeLabels a0 := quiet (GetNodeLabels a0);
  RandInt := quiet (RandInt);
  RequestLock a0 a1 := quiet (RequestLock a0 a1);
  ReleaseLock a0 a1 a2 := quiet (ReleaseLock a0 a1 a2);
}.

(** A computation on the arrays as one on traced arrays. *)
Definition quietM {A} (m : M W A) : M (traced W) A :=
  λ t, match m t.1 with Some (a, w) => Some (a, (w, t.2)) | None => None end.
End traced.

Section logs.
Context {W : Type} (P : event → Prop).

Definition logs {A} (m : M (traced W) A) : Prop :=
  ∀ t a t', m t = Some (a, t') → ∃ l, t'.2 = (t.2 ++ l)%list ∧ Forall P l.

Lemma logs_ret {A} (a : A) : logs (ret a).
Proof. intros t x t' [= _ <-]. exists []. by rewrite app_nil_r. Qed.
Lemma logs_panic {A} : logs (panic : M (traced W) A).
Proof. by intros t x t'. Qed.
Lemma logs_bind {A B} (m : M (traced W) A) (k : A → M (traced W) B) : logs m → (∀ a, logs (k a)) → logs (mbnd m k).
Proof.
  intros Hm Hk t b t' (a & t1 & H1 & H2)%mbnd_Some.
  destruct (Hm _ _ _ H1) as (l1 & E1 & HP1), (Hk _ _ _ _ H2) as (l2 & E2 & HP2).
  exists (l1 ++ l2)%list. split; [by rewrite E2, E1, app_assoc|]. by apply Forall_app.
Qed.
Lemma logs_quiet {A} (f : W → A * W) : logs (lift (quiet f)).
Proof.
  intros [w l] a t'. unfold lift, quiet. simpl. destruct (f w) as [x w']. intros [= _ <-]. exists []. simpl. by rewrite app_nil_r.
Qed.
Lemma logs_noisy {A} e (f : W → A * W) : P e → logs (lift (noisy e f)).
Proof.
  intros He [w l] a t'. unfold lift, noisy. simpl. destruct (f w) as [x w']. intros [= _ <-]. exists [e]. simpl.
  split; [done|]. by constructor.
Qed.
Lemma logs_quietM {A} (m : M W A) : logs (quietM m).
Proof.
  intros [w l] a t'. unfold quietM. simpl. destruct (m w) as [[x w']|]; [|done]. intros [= _ <-]. exists [].
  simpl. by rewrite app_nil_r.
Qed.
Lemma logs_forM {A S R} (body : A → S → M (traced W) (S + R)) l s : (∀ x s, logs (body x s)) → logs (forM body l s).
Proof.
  intros Hb. revert s. induction l as [|x l IH]; intros s; simpl; [apply logs_ret|].
  apply logs_bind; [apply Hb|]. intros [s'|r]; [apply IH|apply logs_ret].
Qed.
Lemma logs_index {A} (l : list A) i : logs (index l i).
Proof. unfold index. destruct (l !! i); [apply logs_ret|apply logs_panic]. Qed.
End logs.

(** A bind whose continuation may use what the first part returns. *)
Lemma logs_bind_post {W A B} P (m : M (traced W) A) (k : A → M (traced W) B) (Q : A → Prop) :
  logs P m → post m Q → (∀ a, Q a → logs P (k a)) → logs P (mbnd m k).
Proof.
  intros Hm HQ Hk t b t' (a & t1 & E1 & E2)%mbnd_Some.
  destruct (Hm _ _ _ E1) as (l1 & L1 & HP1), (Hk a (HQ _ _ _ E1) _ _ _ E2) as (l2 & L2 & HP2).
  exists (l1 ++ l2)%list. split; [by rewrite L2, L1, app_assoc|]. by apply Forall_app.
Qed.

Lemma logs_impl {W A} (P Q : event → Prop) (m : M (traced W) A) : (∀ e, P e → Q e) → logs P m → logs Q m.
Proof. intros HPQ Hm t a t' E. destruct (Hm _ _ _ E) as (l & El & Hl). exists l. split; [done|]. by eapply Forall_impl. Qed.

(** Steps through a computation; calls that change something are left. *)
Ltac log_step :=
  match goal with
  | |- logs _ (ret _) => apply logs_ret
  | |- logs _ panic => apply logs_panic
  | |- logs _ (quietM _) => apply logs_quietM
  | |- logs _ (lift _) => first [apply logs_quiet | apply logs_noisy]
  | |- logs _ (index _ _) => apply logs_index
  | |- logs _ (forM _ _ _) => apply logs_forM; intros ? ?
  | |- logs _ (mbnd _ _) => apply logs_bind; [|intros ?]
  | |- logs _ (let '(_, _) := ?x in _) => destruct x
  | |- logs _ (match ?x with _ => _ end) => destruct x
  end.
Ltac logs := repeat (log_step; cbn beta iota zeta).
End Trace.
