(* ===== verification/SimMasking.v ===== *)
(** * Masking on the simulated array

    The calls of [MaskingClient] on the array of [SimArray]: no masking view
    exists yet, every host has one initiator, logged in on one port, and changes
    are logged. *)

From stdpp Require Import base gmap strings list.
From Stdlib Require Import ZArith.
From S2P Require Import Prelude GoLib Pmax PowerMax SimArray Masking.

Module SimMasking.
Import SimArray Masking.
Open Scope string_scope.
Open Scope Z_scope.

#[export] Instance sim_masking : MaskingClient Sim string := {
  GetMaskingViewByID _ _ _ w := (Err (errorString "cannot be found"), w);
  CreateMaskingView _ _ mv sg h _ pg w := (None, log ("create MV " ++ mv ++ " " ++ sg ++ " " ++ h ++ " " ++ pg) w);
  DeleteMaskingView _ _ mv w := (None, log ("delete MV " ++ mv) w);
  GetMaskingViewConnections _ _ _ dev w :=
    (Ok [mkConnection dev "0001" "FA-1D:4"; mkConnection dev "0001" "FA-2D:4"], w);
  CreateStorageGroup _ _ sg _ _ _ w := (None, log ("create SG " ++ sg) w);
  AddVolumesToStorageGroup _ _ sg _ _ w := (None, log ("add to " ++ sg) w);
  AddVolumesToStorageGroupS _ _ sg _ _ w := (None, log ("add to " ++ sg) w);
  GetHostByID _ _ h w := (Ok (mkHost h "Fibre" ["10000000c9959b8e"] 0), w);
  GetHostList _ _ w := (Ok ["csi-node-n1-FC"], w);
  GetHostGroupByID _ _ g w := (Ok (mkHostGroup g []), w);
  GetHostGroupList _ _ w := (Ok (Some []), w);
  GetHostMaskingViews _ _ _ w := (Ok [], w);
  GetPortListByProtocol _ _ _ w := (Ok [mkPortKey "FA-1D" "4"], w);
  GetInitiatorList _ _ i w := (Ok ["FA-1D:4:" ++ (if decide (i = "") then "10000000c9959b8e" else i)], w);
  GetInitiatorByID _ _ _ w := (Ok (Some (mkInitiator true true)), w);
  GetPortGroupListByType _ _ _ w := (Ok (Some []), w);
  GetPortGroupList _ _ _ w := (Ok [], w);
  GetPortGroupByID _ _ _ w := (Ok (mkPortGroup "SCSI_FC" []), w);
  CreatePortGroup _ _ pg _ _ w := (None, log ("create PG " ++ pg) w);
  GetPort _ _ d p w := (Ok ("iqn." ++ d ++ p), w);
  RefreshSymmetrix _ _ w := (None, w);
  CachedVersion _ _ w := (Ok (mkVersionDetails "10.2" "102"), w);
  CachedMicrocode _ _ w := (Ok "5978", w);
  GetNodeLabels _ w := (Ok ∅, w);
  RandInt w := (1, w);
  RequestLock _ _ w := (Ok 1, w);
  ReleaseLock _ _ _ w := (tt, w);
}.

(** The driver without vSphere or adopted hosts. *)
Definition plain : service := mkService false "" "" [] "ABC" "" "FC" "" false "csi-powermax" false ∅.
End SimMasking.
