(* ===== verification/StorageGroups.v ===== *)
(** * The storage group service

    Models service/storage_group_svc.go: requests to put a volume into the
    storage group and masking view of a node, or to take it out, are queued per
    storage group; whoever of the waiting clients gets the group's lock serves a
    batch of the queue. Requests, in batches or alone, check the state of the
    array first; boot volumes and masking views of others are protected. A
    request's response channel is a number; what is sent on the channels is
    returned, in order. A nil client, which runAddVolumesToSGMV can pass on, is
    [None], and calling it is a panic. *)

From stdpp Require Import base gmap strings list.
From Stdlib Require Import ZArith Lia.
From S2P Require Import Prelude GoLib Ordering Pmax PowerMax Masking PortGroups Trace SimArray SimMasking.

Module StorageGroups.
Import PowerMax Masking PortGroups Trace.
Open Scope go_scope.
Open Scope string_scope.
Open Scope Z_scope.

Definition storageGroupSvcQueueDepth : nat := 200.
Definition maxAddGroupSize : nat := 100.
Definition maxRemoveGroupSize : nat := 100.
Definition enableBatchGetMaskingViewConnections : bool := true.

(** csi.VolumeCapability_AccessMode; [OTHER_MODE]: a number the interface has no name for *)
Inductive AccessMode :=
| UNKNOWN | SINGLE_NODE_WRITER | SINGLE_NODE_READER_ONLY | MULTI_NODE_READER_ONLY | MULTI_NODE_SINGLE_WRITER
| MULTI_NODE_MULTI_WRITER | SINGLE_NODE_SINGLE_WRITER | SINGLE_NODE_MULTI_WRITER | OTHER_MODE (n : Z).
#[export] Instance AccessMode_eq_dec : EqDecision AccessMode.
Proof. solve_decision. Defined.

Definition single_node (am : AccessMode) : bool :=
  match am with
  | SINGLE_NODE_WRITER | SINGLE_NODE_SINGLE_WRITER | SINGLE_NODE_MULTI_WRITER | SINGLE_NODE_READER_ONLY => true
  | _ => false
  end.

Record addVolumeToSGMVRequest := mkAdd {
  tgtStorageGroupID : string;
  tgtMaskingViewID : string;
  hostID : string;
  reqID : string;
  symID : string;
  clientSymID : string;
  devID : string;
  accessMode : AccessMode;
  respChan : Z;
}.
Record addVolumeToSGMVResponse := mkAddResponse {
  err : option error;
  connections : list MaskingViewConnection;
}.

Record removeVolumeFromSGMVRequest := mkRemove {
  rm_tgtStorageGroupID : string;
  rm_tgtMaskingViewID : string;
  rm_reqID : string;
  rm_symID : string;
  rm_clientSymID : string;
  rm_devID : string;
  rm_respChan : Z;
}.

Definition getKey (symID tgtStorageGroupID : string) : string := symID ++ ":" ++ tgtStorageGroupID.
Definition getMVLockKey (symID tgtMaskingViewID : string) : string := symID ++ ":" ++ tgtMaskingViewID.

(** ** Lemmas on computations and lists *)
Lemma post_and {W A} (m : M W A) (P Q : A → Prop) : post m P → post m Q → post m (λ a, P a ∧ Q a).
Proof. intros HP HQ w a w' E. split; [by eapply HP|by eapply HQ]. Qed.

Lemma logs_bind_index {W A B} (P : event → Prop) (l : list A) i (k : A → M (traced W) B) :
  (∀ a, l !! i = Some a → logs P (k a)) → logs P (mbnd (index l i) k).
Proof. unfold index. destruct (l !! i) as [a|]; intros Hk; [by apply Hk|done]. Qed.

Lemma elem_of_appendIfMissing_fold x (l acc : list string) : x ∈ fold_left appendIfMissing l acc → x ∈ acc ∨ x ∈ l.
Proof.
  revert acc. induction l as [|y l IH]; intros acc; simpl; [by left|]. intros [Hx|Hx]%IH; [|right; by constructor].
  unfold appendIfMissing in Hx. destruct (existsb _ _); [by left|]. set_solver.
Qed.

Section service.
Context {W C : Type} `{Pmax W C} `{MaskingClient W C}.
(** symmetrix.GetPowerMaxClient with one array. *)
Variable GetPowerMaxClient : string → M W (result error C).
Variable svc : service.

Abbreviation sends := (list (Z * addVolumeToSGMVResponse)).
Abbreviation removes := (list (Z * option error)).

Definition mem (x : string) (l : list string) : bool := existsb (λ y, bool_decide (y = x)) l.

(** ** Storage groups of a volume and their masking views *)
Fixpoint details (c : C) (symID : string) (sgIDs : list string) (maskingViewIDs : list string) (groups : list StorageGroup)
    : M W (result error (list string * list StorageGroup)) :=
  match sgIDs with
  | [] => ret (Ok (maskingViewIDs, groups))
  | sgID :: sgIDs =>
      let* r := lift (GetStorageGroup c symID sgID) in
      match r with
      | Err _ => ret (Err (statusError Internal "Failed to fetch SG details"))
      | Ok sg => details c symID sgIDs (fold_left appendIfMissing (SG_MaskingView sg) maskingViewIDs) (groups ++ [sg])%list
      end
  end.
Definition GetMaskingViewAndSGDetails (symID : string) (sgIDs : list string) (c : C)
    : M W (result error (list string * list StorageGroup)) := details c symID sgIDs [] [].

(** ** Checking a request *)
Definition conflicting_sg (tgt : string) (groups : list StorageGroup) : bool :=
  existsb (λ g, bool_decide (SG_StorageGroupID g = tgt) && negb (bool_decide (SG_SRP g = ""))) groups.

(** Whether the volume is to be added to the storage group, and whether the
    masking view is to be created. *)
Definition addVolumeToSGMVVolumeCheck (req : addVolumeToSGMVRequest) : M W (result error (bool * bool)) :=
  let* rc := GetPowerMaxClient (clientSymID req) in
  match rc with
  | Err e => ret (Err e)
  | Ok c =>
      let* r := lift (GetVolumeByID c (symID req) (devID req)) in
      match r with
      | Err e => ret (Err e)
      | Ok vol =>
          let volumeAlreadyInTargetSG := mem (tgtStorageGroupID req) (StorageGroupIDList vol) in
          let* r := GetMaskingViewAndSGDetails (symID req) (StorageGroupIDList vol) c in
          match r with
          | Err e => ret (Err e)
          | Ok (maskingViewIDs, storageGroups) =>
              if conflicting_sg (tgtStorageGroupID req) storageGroups then
                ret (Err (statusError Internal "Conflicting SG present with SRP"))
              else
                let volumeInTargetMaskingView := mem (tgtMaskingViewID req) maskingViewIDs in
                if single_node (accessMode req) && (0 <? NumberOfFrontEndPaths vol) then
                  match maskingViewIDs with
                  | [] => ret (Err (statusError Internal "No masking views found for volume"))
                  | [mv] =>
                      if decide (mv = tgtMaskingViewID req) then
                        if volumeAlreadyInTargetSG then ret (Ok (false, false))
                        else ret (Err (statusError FailedPrecondition "Volume in conflicting masking view"))
                      else ret (Err (statusError FailedPrecondition "volume already present in a different masking view"))
                  | _ => ret (Err (statusError Internal "Volume already part of multiple Masking views"))
                  end
                else ret (Ok (negb volumeAlreadyInTargetSG, negb volumeInTargetMaskingView))
          end
      end
  end.

(** ** Adding volumes *)
Definition protected (storageGroupID : string) : error :=
  statusError FailedPrecondition
    ("storage group " ++ storageGroupID ++ " is a protected boot LUN group and cannot be modified by CSI").
Definition internal (msg : string) : M W (option error) := ret (Some (statusError Internal msg)).

Definition add_failed (e : error) : error := statusError Internal ("Failed to add volume to storage group: " ++ Error e).

(** The host, or the host group of vSphere, for a new masking view. *)
Definition fetch_host (c : C) (symID hostID : string) : M W (result error Host) :=
  let* r := lift (GetHostByID c symID hostID) in
  match r with
  | Ok host => ret (Ok host)
  | Err e =>
      if Contains (Error e) "cannot be found" && IsVsphereEnabled svc then
        let* r := lift (GetHostGroupByID c symID hostID) in
        match r with
        | Err e => ret (Err (statusError NotFound
            ("ControllerPublishVolume: Failed to fetch host groups details for " ++ hostID ++ " on " ++ symID ++ " with error - " ++ Error e)))
        | Ok g => ret (Ok (mkHost (HostGroupID g) "" [] 0))
        end
      else ret (Err (statusError NotFound
            ("ControllerPublishVolume: Failed to fetch host details for host " ++ hostID ++ " on " ++ symID ++ " with error - " ++ Error e)))
  end.

(** The storage group is created when it does not exist. *)
Definition ensure_group (c : C) (symID tgtStorageGroupID : string) : M W (option error) :=
  let* r := lift (GetStorageGroup c symID tgtStorageGroupID) in
  match r with
  | Ok sg =>
      if decide (SG_SRP sg = "") then ret None
      else internal "Storage group exists with same name but with conflicting params"
  | Err _ =>
      let* e := lift (CreateStorageGroup c symID tgtStorageGroupID "None" "" false) in
      match e with Some _ => internal "Failed to create storage group" | None => ret None end
  end.

Definition add_to_group (c : C) (symID tgtStorageGroupID : string) (devIDs : list string) : M W (option error) :=
  match devIDs with
  | [] => ret None
  | first :: _ =>
      let* r := lift (GetVolumeByID c symID first) in
      match r with
      | Err e => internal ("Failed to get volume from array: " ++ Error e)
      | Ok vol =>
          if mem tgtStorageGroupID (StorageGroupIDList vol) then ret None
          else
            let* e := lift (AddVolumesToStorageGroup c symID tgtStorageGroupID true devIDs) in
            match e with Some e => ret (Some (add_failed e)) | None => ret None end
      end
  end.

(** The branch without a masking view. *)
Definition create_view (c : C) (symID tgtStorageGroupID tgtMaskingViewID hostID : string) (devIDs : list string)
    : M W (option error) :=
  let* r := fetch_host c symID hostID in
  match r with
  | Err e => ret (Some e)
  | Ok host =>
      let* r := SelectOrCreatePortGroup svc symID host c in
      match r with
      | Err e => internal ("ControllerPublishVolume: Failed to select/create PG for host " ++ hostID ++ " on " ++ symID
                           ++ " with error - " ++ Error e)
      | Ok portGroupID =>
          let* e := ensure_group c symID tgtStorageGroupID in
          match e with
          | Some e => ret (Some e)
          | None =>
              let* e := add_to_group c symID tgtStorageGroupID devIDs in
              match e with
              | Some e => ret (Some e)
              | None =>
                  let* r := resolveMaskingViewTarget symID host c in
                  match r with
                  | Err e => internal (Error e)
                  | Ok (target, isHost) =>
                      let* e := lift (CreateMaskingView c symID tgtMaskingViewID tgtStorageGroupID target isHost portGroupID) in
                      match e with
                      | Some e => internal ("Failed to create masking view: " ++ Error e)
                      | None => ret None
                      end
                  end
              end
          end
      end
  end.

Definition addVolumesToSGMV (symID tgtStorageGroupID tgtMaskingViewID hostID : string) (devIDs : list string)
    (pmaxClient : option C) : M W (option error) :=
  if isBootLUNStorageGroup svc symID tgtStorageGroupID then ret (Some (protected tgtStorageGroupID))
  else
    match pmaxClient with
    | None => panic
    | Some c =>
        let* r := lift (GetMaskingViewByID c symID tgtMaskingViewID) in
        match r with
        | Ok mv =>
            if (EqualFold (MV_HostID mv) hostID || EqualFold (MV_HostGroupID mv) hostID)
               && EqualFold (MV_StorageGroupID mv) tgtStorageGroupID then
              match devIDs with
              | [] => ret None
              | _ =>
                  let* e := lift (AddVolumesToStorageGroupS c symID tgtStorageGroupID true devIDs) in
                  match e with Some e => ret (Some (add_failed e)) | None => ret None end
              end
            else internal ("ControllerPublishVolume: Existing masking view " ++ tgtMaskingViewID ++ " with conflicting SG "
                           ++ tgtStorageGroupID ++ " or Host " ++ hostID)
        | Err _ => create_view c symID tgtStorageGroupID tgtMaskingViewID hostID devIDs
        end
    end.

Definition respond (req : addVolumeToSGMVRequest) (e : option error) : Z * addVolumeToSGMVResponse :=
  (respChan req, mkAddResponse e []).

Definition processSingleAddVolumeToSGMV (req : addVolumeToSGMVRequest) : M W sends :=
  let* rc := GetPowerMaxClient (clientSymID req) in
  match rc with
  | Err e => ret [respond req (Some e)]
  | Ok c =>
      let* e := addVolumesToSGMV (symID req) (tgtStorageGroupID req) (tgtMaskingViewID req) (hostID req) [devID req] (Some c) in
      ret [respond req e]
  end.

(** No response when there is no client. *)
Definition handleAddVolumeToSGMVError (req : addVolumeToSGMVRequest) : M W sends :=
  let* rc := GetPowerMaxClient (clientSymID req) in
  match rc with
  | Err _ => ret []
  | Ok c =>
      let* r := lift (GetVolumeByID c (symID req) (devID req)) in
      match r with
      | Err e => ret [respond req (Some e)]
      | Ok vol =>
          let found := mem (tgtStorageGroupID req) (StorageGroupIDList vol) in
          let* mv := is_ok_call (GetMaskingViewByID c (symID req) (tgtMaskingViewID req)) in
          if mv && found then ret [respond req None] else processSingleAddVolumeToSGMV req
      end
  end.

Fixpoint handle_each {R S} (handle : R → M W (list S)) (reqs : list R) : M W (list S) :=
  match reqs with
  | [] => ret []
  | r :: reqs => let* a := handle r in let* b := handle_each handle reqs in ret (a ++ b)%list
  end.

(** Requests of the same batch. *)
Definition same_target (a b : addVolumeToSGMVRequest) : bool :=
  bool_decide (symID a = symID b) && bool_decide (tgtStorageGroupID a = tgtStorageGroupID b)
  && bool_decide (tgtMaskingViewID a = tgtMaskingViewID b).

(** Takes requests off the queue: returns what is left of it, the requests of the
    batch, their devices and the responses sent on the way. [room] is
    [maxAddGroupSize - i]. *)
Fixpoint getRequestsForAddVolumesToSG (queue : list addVolumeToSGMVRequest) (initialReq : option addVolumeToSGMVRequest)
    (room : nat) : M W (list addVolumeToSGMVRequest * list addVolumeToSGMVRequest * list string * sends) :=
  match room, queue with
  | O, _ | _, [] => ret (queue, [], [], [])
  | S room', req :: queue =>
      let initial := default req initialReq in
      if same_target req initial then
        let* r := addVolumeToSGMVVolumeCheck req in
        match r with
        | Err e =>
            let* rest := getRequestsForAddVolumesToSG queue (Some initial) room in
            let '(q, reqs, devs, out) := rest in ret (q, reqs, devs, respond req (Some e) :: out)
        | Ok (addToSG, createMV) =>
            if addToSG || createMV then
              let* rest := getRequestsForAddVolumesToSG queue (Some initial) room' in
              let '(q, reqs, devs, out) := rest in
              ret (q, req :: reqs, if (addToSG : bool) then devID req :: devs else devs, out)
            else
              let* rest := getRequestsForAddVolumesToSG queue (Some initial) room in
              let '(q, reqs, devs, out) := rest in ret (q, reqs, devs, respond req None :: out)
        end
      else let* out := processSingleAddVolumeToSGMV req in ret (queue, [], [], out)
  end.

(** The connections that are fetched do not reach the responses: the inner
    declaration shadows the variable that is sent. *)
Definition batch_connections (c : option C) (req : addVolumeToSGMVRequest) : M W unit :=
  if enableBatchGetMaskingViewConnections then
    let key := getMVLockKey (symID req) (tgtMaskingViewID req) in
    let* l := lift (RequestLock key (reqID req)) in
    match l with
    | Err _ => ret tt
    | Ok lockNum =>
        match c with
        | None => panic
        | Some c =>
            let* _ := lift (GetMaskingViewConnections c (symID req) (tgtMaskingViewID req) "") in
            lift (ReleaseLock key (reqID req) lockNum)
        end
    end
  else ret tt.

(** Returns the rest of the queue and the responses. *)
Definition runAddVolumesToSGMV (queue : list addVolumeToSGMVRequest) : M W (list addVolumeToSGMVRequest * sends) :=
  let* r := getRequestsForAddVolumesToSG queue None maxAddGroupSize in
  let '(queue, requests, deviceIDs, out) := r in
  match requests with
  | [] => ret (queue, out)
  | req :: _ =>
      let* rc := GetPowerMaxClient (clientSymID req) in
      let client := match rc with Ok c => Some c | Err _ => None end in
      let* out1 := match rc with Ok _ => ret [] | Err _ => handle_each handleAddVolumeToSGMVError requests end in
      let* e := addVolumesToSGMV (symID req) (tgtStorageGroupID req) (tgtMaskingViewID req) (hostID req) deviceIDs client in
      match e with
      | Some _ =>
          let* out2 := handle_each handleAddVolumeToSGMVError requests in ret (queue, out ++ out1 ++ out2)%list
      | None =>
          let* _ := batch_connections client req in
          ret (queue, (out ++ out1 ++ ((λ r, respond r None) <$> requests))%list)
      end
  end.

(** ** Removing volumes *)
Definition remove_failed (devIDs : list string) (sg : string) (e : error) : error :=
  statusError Internal ("removeVolumesFromSGMV: Failed to remove volume from SG (Volumes: " ++ Sprint_strings devIDs
    ++ ", SG: " ++ sg ++ ") status " ++ Error e).

Definition removeVolumesFromSGMV (clientSymID tgtStorageGroupID tgtMaskingViewID symID : string) (devIDs : list string)
    : M W (option error) :=
  let* rc := GetPowerMaxClient clientSymID in
  match rc with
  | Err e => ret (Some e)
  | Ok c =>
      if isBootLUNStorageGroup svc symID tgtStorageGroupID then ret (Some (protected tgtStorageGroupID))
      else
        let* r := GetMaskingViewAndSGDetails symID [tgtStorageGroupID] c in
        match r with
        | Err e => ret (Some e)
        | Ok (maskingViewIDs, storageGroups) =>
            if negb (mem tgtMaskingViewID maskingViewIDs) then ret None
            else
              let* sg := index storageGroups 0 in
              let remove := lift (RemoveVolumesFromStorageGroup c symID tgtStorageGroupID true devIDs) in
              if NumOfVolumes sg =? Z.of_nat (List.length devIDs) then
                if negb (HasPrefix tgtMaskingViewID CsiMVPrefix) then
                  let* e := remove in ret (remove_failed devIDs tgtStorageGroupID <$> e)
                else
                  let* e := lift (DeleteMaskingView c symID tgtMaskingViewID) in
                  match e with
                  | Some e => internal ("Failed to delete masking view (Array: " ++ symID ++ ", MaskingView: " ++ tgtMaskingViewID
                                        ++ ") status " ++ Error e)
                  | None =>
                      let* e := remove in
                      match e with
                      | Some e => ret (Some (remove_failed devIDs tgtStorageGroupID e))
                      | None => let* _ := lift (DeleteStorageGroup c symID tgtStorageGroupID) in ret None
                      end
                  end
              else let* e := remove in ret (remove_failed devIDs tgtStorageGroupID <$> e)
        end
  end.

Definition processSingleRemoveVolumeFromSG (req : removeVolumeFromSGMVRequest) : M W removes :=
  let* e := removeVolumesFromSGMV (rm_clientSymID req) (rm_tgtStorageGroupID req) (rm_tgtMaskingViewID req) (rm_symID req)
              [rm_devID req] in
  ret [(rm_respChan req, e)].

Definition handleRemoveVolumeFromSGMVError (req : removeVolumeFromSGMVRequest) : M W removes :=
  let* rc := GetPowerMaxClient (rm_clientSymID req) in
  match rc with
  | Err _ => ret []
  | Ok c =>
      let* r := lift (GetVolumeByID c (rm_symID req) (rm_devID req)) in
      match r with
      | Err e => ret [(rm_respChan req, Some e)]
      | Ok vol =>
          if negb (mem (rm_tgtStorageGroupID req) (StorageGroupIDList vol)) then ret [(rm_respChan req, None)]
          else processSingleRemoveVolumeFromSG req
      end
  end.

Definition same_removal (a b : removeVolumeFromSGMVRequest) : bool :=
  bool_decide (rm_symID a = rm_symID b) && bool_decide (rm_tgtStorageGroupID a = rm_tgtStorageGroupID b)
  && bool_decide (rm_tgtMaskingViewID a = rm_tgtMaskingViewID b).

Fixpoint getRequestsForRemoveVolumesFromSG (queue : list removeVolumeFromSGMVRequest)
    (initialReq : option removeVolumeFromSGMVRequest) (room : nat)
    : M W (list removeVolumeFromSGMVRequest * list removeVolumeFromSGMVRequest * removes) :=
  match room, queue with
  | O, _ | _, [] => ret (queue, [], [])
  | S room, req :: queue =>
      let initial := default req initialReq in
      if same_removal req initial then
        let* rest := getRequestsForRemoveVolumesFromSG queue (Some initial) room in
        let '(q, reqs, out) := rest in ret (q, req :: reqs, out)
      else let* out := processSingleRemoveVolumeFromSG req in ret (queue, [], out)
  end.

Definition runRemoveVolumesFromSGMV (queue : list removeVolumeFromSGMVRequest)
    : M W (list removeVolumeFromSGMVRequest * removes) :=
  let* r := getRequestsForRemoveVolumesFromSG queue None maxRemoveGroupSize in
  let '(queue, requests, out) := r in
  match requests with
  | [] => ret (queue, out)
  | req :: _ =>
      let* e := removeVolumesFromSGMV (rm_clientSymID req) (rm_tgtStorageGroupID req) (rm_tgtMaskingViewID req) (rm_symID req)
                  (rm_devID <$> requests) in
      match e with
      | Some _ => let* out2 := handle_each handleRemoveVolumeFromSGMVError requests in ret (queue, (out ++ out2)%list)
      | None => ret (queue, (out ++ ((λ r, (rm_respChan r, None)) <$> requests))%list)
      end
  end.

(** ** The service as a state machine

    One storage group: its two queues, its lock, the clients that wait on their
    response channel or the lock (publishVolume and unpublishVolume), the one that
    serves, and the responses not yet received. The arrays may change at any
    time. *)
Record sgState := mkSgState {
  addQueue : list addVolumeToSGMVRequest;
  removeQueue : list removeVolumeFromSGMVRequest;
  lock : bool;
  waitingAdd : list Z;
  waitingRemove : list Z;
  serving : option (bool * Z);
  addResponses : sends;
  removeResponses : removes;
  world : W;
}.

(** A client's channel, whichever kind of client it is. *)
Definition channels (st : sgState) : list Z := (waitingAdd st ++ waitingRemove st)%list.

Inductive step : sgState → sgState → Prop :=
| step_request_add req st :
    (List.length (addQueue st) < storageGroupSvcQueueDepth)%nat → respChan req ∉ channels st →
    step st (mkSgState (addQueue st ++ [req])%list (removeQueue st) (lock st) (waitingAdd st ++ [respChan req])%list
               (waitingRemove st) (serving st) (addResponses st) (removeResponses st) (world st))
| step_request_remove req st :
    (List.length (removeQueue st) < storageGroupSvcQueueDepth)%nat → rm_respChan req ∉ channels st →
    step st (mkSgState (addQueue st) (removeQueue st ++ [req])%list (lock st) (waitingAdd st)
               (waitingRemove st ++ [rm_respChan req])%list (serving st) (addResponses st) (removeResponses st) (world st))
| step_lock_add x st :
    lock st = true → x ∈ waitingAdd st →
    step st (mkSgState (addQueue st) (removeQueue st) false (waitingAdd st) (waitingRemove st) (Some (true, x))
               (addResponses st) (removeResponses st) (world st))
| step_lock_remove x st :
    lock st = true → x ∈ waitingRemove st →
    step st (mkSgState (addQueue st) (removeQueue st) false (waitingAdd st) (waitingRemove st) (Some (false, x))
               (addResponses st) (removeResponses st) (world st))
| step_run_add x st queue out w :
    serving st = Some (true, x) → runAddVolumesToSGMV (addQueue st) (world st) = Some ((queue, out), w) →
    step st (mkSgState queue (removeQueue st) true (waitingAdd st) (waitingRemove st) None
               (addResponses st ++ out)%list (removeResponses st) w)
| step_run_remove x st queue out w :
    serving st = Some (false, x) → runRemoveVolumesFromSGMV (removeQueue st) (world st) = Some ((queue, out), w) →
    step st (mkSgState (addQueue st) queue true (waitingAdd st) (waitingRemove st) None
               (addResponses st) (removeResponses st ++ out)%list w)
| step_receive_add x r before after wb wa st :
    addResponses st = (before ++ (x, r) :: after)%list → waitingAdd st = (wb ++ x :: wa)%list → serving st ≠ Some (true, x) →
    step st (mkSgState (addQueue st) (removeQueue st) (lock st) (wb ++ wa)%list (waitingRemove st) (serving st)
               (before ++ after)%list (removeResponses st) (world st))
| step_receive_remove x r before after wb wa st :
    removeResponses st = (before ++ (x, r) :: after)%list → waitingRemove st = (wb ++ x :: wa)%list → serving st ≠ Some (false, x) →
    step st (mkSgState (addQueue st) (removeQueue st) (lock st) (waitingAdd st) (wb ++ wa)%list (serving st)
               (addResponses st) (before ++ after)%list (world st))
| step_world w st :
    step st (mkSgState (addQueue st) (removeQueue st) (lock st) (waitingAdd st) (waitingRemove st) (serving st)
               (addResponses st) (removeResponses st) w).

Definition getUpdateStorageGroupState (w : W) : sgState := mkSgState [] [] true [] [] None [] [] w.
Definition reachable (w : W) (st : sgState) : Prop := rtc step (getUpdateStorageGroupState w) st.

(** ** Every request is answered exactly once *)
Section answers.
(** The driver has a client for the array: AddPowerMax stores it, and only tests remove it. *)
Definition managed (array : string) : Prop := post (GetPowerMaxClient array) (λ r, is_ok r = true).

Lemma with_client {A} x (k : result error C → M W A) (Q : A → Prop) :
  managed x → (∀ c, post (k (Ok c)) Q) → post (mbnd (GetPowerMaxClient x) k) Q.
Proof. intros Hx Hk. eapply post_bind; [apply Hx|]. intros [c|e] Hr; [apply Hk|done]. Qed.

Lemma single_add_answers req : post (processSingleAddVolumeToSGMV req) (λ out, fst <$> out = [respChan req]).
Proof. apply post_skip. intros [c|e]; [|by apply post_ret]. apply post_skip. intros e. by apply post_ret. Qed.

Lemma handle_add_answers req : managed (clientSymID req) → post (handleAddVolumeToSGMVError req) (λ out, fst <$> out = [respChan req]).
Proof.
  intros Hm. apply with_client; [done|]. intros c. apply post_skip. intros [vol|e]; [|by apply post_ret].
  apply post_skip. intros mv. destruct (mv && _); [by apply post_ret|apply single_add_answers].
Qed.

Lemma handle_each_answers {R S} (chan : R → Z) (handle : R → M W (list (Z * S))) reqs :
  (∀ r, r ∈ reqs → post (handle r) (λ out, fst <$> out = [chan r])) →
  post (handle_each handle reqs) (λ out, fst <$> out = chan <$> reqs).
Proof.
  induction reqs as [|r reqs IH]; intros Hh; cbn [handle_each]; [by apply post_ret|].
  eapply post_bind; [apply Hh; by constructor|]. intros a Ha. eapply post_bind; [apply IH; intros x Hx; apply Hh; by constructor|]. intros b Hb.
  apply post_ret. by rewrite fmap_app, Ha, Hb.
Qed.

(** A prefix of the queue is taken; each request of it joins the batch or is
    answered. *)
Definition taken_add (queue : list addVolumeToSGMVRequest) (rest : list addVolumeToSGMVRequest) (answered : list Z) : Prop :=
  ∃ taken, queue = (taken ++ rest)%list ∧ respChan <$> taken ≡ₚ answered ∧ (queue ≠ [] → taken ≠ []).

Lemma take_first req queue rest answered answered' :
  (∃ taken, queue = (taken ++ rest)%list ∧ respChan <$> taken ≡ₚ answered) → answered' ≡ₚ respChan req :: answered →
  taken_add (req :: queue) rest answered'.
Proof.
  intros (taken & -> & Hp) Ha. exists (req :: taken). split_and!; [done| |done]. simpl. by rewrite Ha, Hp.
Qed.

Lemma get_add_takes queue initial room :
  post (getRequestsForAddVolumesToSG queue initial room)
    (λ '(q, reqs, _, out), (∃ taken, queue = (taken ++ q)%list ∧ respChan <$> taken ≡ₚ (respChan <$> reqs) ++ (fst <$> out))
       ∧ (room ≠ O → taken_add queue q ((respChan <$> reqs) ++ (fst <$> out)))).
Proof.
  revert initial room. induction queue as [|req queue IH]; intros initial room; cbn [getRequestsForAddVolumesToSG].
  { destruct room; apply post_ret; (split; [by exists []|]); [done|]. intros _. by exists []. }
  destruct room as [|room]; [apply post_ret; split; [by exists []|done]|].
  assert (∀ q a, taken_add (req :: queue) q a → (∃ taken, req :: queue = (taken ++ q)%list ∧ respChan <$> taken ≡ₚ a)
    ∧ (S room ≠ O → taken_add (req :: queue) q a)) as Hboth by (intros q a (t & ? & ? & ?); split; [by exists t|by exists t]).
  destruct (same_target req _).
  - apply post_skip. intros [[addToSG createMV]|e].
    + destruct (addToSG || createMV); (eapply post_bind; [apply IH|]); intros [[[q reqs] devs] out] [Ht _];
        apply post_ret; apply Hboth; (eapply take_first; [exact Ht|]); [done|]. by rewrite fmap_cons, <- Permutation_middle.
    + eapply post_bind; [apply IH|]. intros [[[q reqs] devs] out] [Ht _]. apply post_ret, Hboth.
      eapply take_first; [exact Ht|]. by rewrite fmap_cons, <- Permutation_middle.
  - eapply post_bind; [apply single_add_answers|]. intros out Hout. apply post_ret, Hboth.
    eapply (take_first _ _ _ []); [by exists []|]. by rewrite Hout.
Qed.

(** The requests of a batch were in the queue and have one target; its devices are theirs. *)
Definition one_batch (queue reqs : list addVolumeToSGMVRequest) (devs : list string) : Prop :=
  reqs ⊆ queue ∧ (∀ r r', r ∈ reqs → r' ∈ reqs → symID r = symID r' ∧ tgtStorageGroupID r = tgtStorageGroupID r') ∧ devs ⊆ devID <$> reqs.

Lemma same_target_fields a b : same_target a b = true → symID a = symID b ∧ tgtStorageGroupID a = tgtStorageGroupID b.
Proof. unfold same_target. intros [[?%bool_decide_eq_true ?%bool_decide_eq_true]%andb_prop _]%andb_prop. done. Qed.

Lemma get_add_batch queue i room :
  post (getRequestsForAddVolumesToSG queue (Some i) room)
    (λ '(_, reqs, devs, _), reqs ⊆ queue ∧ Forall (λ r, same_target r i = true) reqs ∧ devs ⊆ devID <$> reqs).
Proof.
  revert room. induction queue as [|req queue IH]; intros room; cbn [getRequestsForAddVolumesToSG from_option id];
    [destruct room; by apply post_ret|].
  destruct room as [|room]; [apply post_ret; split_and!; [set_solver|constructor|set_solver]|]. destruct (same_target req i) eqn:Hi.
  - apply post_skip. intros [[addToSG createMV]|e]; [destruct (addToSG || createMV)|];
      (eapply post_bind; [apply IH|]); intros [[[q reqs] devs] out] (Hsub & Hall & Hdevs); apply post_ret;
      (split_and!; [set_solver| |]); try done; [by constructor|destruct addToSG; set_solver].
  - apply post_skip. intros out. apply post_ret. split_and!; [set_solver|constructor|set_solver].
Qed.

Lemma get_add_one_batch queue room :
  post (getRequestsForAddVolumesToSG queue None room) (λ '(_, reqs, devs, _), one_batch queue reqs devs).
Proof.
  assert (∀ i reqs, Forall (λ r, same_target r i = true) reqs →
    ∀ r r', r ∈ reqs → r' ∈ reqs → symID r = symID r' ∧ tgtStorageGroupID r = tgtStorageGroupID r') as Hone.
  { intros i reqs Hall r r' Hr Hr'. rewrite Forall_forall in Hall.
    destruct (same_target_fields _ _ (Hall _ Hr)), (same_target_fields _ _ (Hall _ Hr')). by split; congruence. }
  destruct queue as [|req queue]; [destruct room; apply post_ret; split_and!; set_solver|].
  assert (getRequestsForAddVolumesToSG (req :: queue) None room = getRequestsForAddVolumesToSG (req :: queue) (Some req) room) as -> by by destruct room.
  eapply post_weaken; [apply get_add_batch|]. intros [[[q reqs] devs] out] (Hsub & Hall & Hdevs). split_and!; [done|by eapply Hone|done].
Qed.

Lemma run_add_answers queue :
  Forall (λ r, managed (clientSymID r)) queue →
  post (runAddVolumesToSGMV queue) (λ '(q, out), taken_add queue q (fst <$> out)).
Proof.
  intros Hm. rewrite Forall_forall in Hm. unfold runAddVolumesToSGMV. eapply post_bind; [apply post_and; [apply get_add_takes|apply get_add_one_batch]|].
  intros [[[q reqs] devs] out] [[_ Ht] [Hsub _]]. specialize (Ht ltac:(done)).
  destruct reqs as [|req reqs]; [by apply post_ret|]. set (requests := req :: reqs) in *.
  apply with_client; [apply Hm, Hsub; by constructor|]. intros c. eapply post_bind; [apply (post_ret [] (λ o, o = [])); done|]. intros out1 ->.
  apply post_skip. intros e. destruct Ht as (taken & Hq & Hp & Hne). destruct e as [e|].
  - eapply post_bind; [apply (handle_each_answers respChan); intros r Hr; by apply handle_add_answers, Hm, Hsub|]. intros out2 Hout2.
    apply post_ret. exists taken. split_and!; [done| |done]. rewrite Hp, !fmap_app, Hout2.
    apply Permutation_app_comm.
  - apply post_skip. intros _. apply post_ret. exists taken. split_and!; [done| |done].
    rewrite Hp, !fmap_app, <- list_fmap_compose. by rewrite Permutation_app_comm.
Qed.

(** The same for removals. *)
Definition taken_remove (queue rest : list removeVolumeFromSGMVRequest) (answered : list Z) : Prop :=
  ∃ taken, queue = (taken ++ rest)%list ∧ rm_respChan <$> taken ≡ₚ answered ∧ (queue ≠ [] → taken ≠ []).

Lemma single_remove_answers req : post (processSingleRemoveVolumeFromSG req) (λ out, fst <$> out = [rm_respChan req]).
Proof. apply post_skip. intros e. by apply post_ret. Qed.

Lemma handle_remove_answers req : managed (rm_clientSymID req) → post (handleRemoveVolumeFromSGMVError req) (λ out, fst <$> out = [rm_respChan req]).
Proof.
  intros Hm. apply with_client; [done|]. intros c. apply post_skip. intros [vol|e]; [|by apply post_ret].
  destruct (negb _); [by apply post_ret|apply single_remove_answers].
Qed.

Lemma get_remove_takes queue initial room :
  post (getRequestsForRemoveVolumesFromSG queue initial room)
    (λ '(q, reqs, out), (∃ taken, queue = (taken ++ q)%list ∧ rm_respChan <$> taken ≡ₚ (rm_respChan <$> reqs) ++ (fst <$> out))
       ∧ (room ≠ O → taken_remove queue q ((rm_respChan <$> reqs) ++ (fst <$> out)))).
Proof.
  revert initial room. induction queue as [|req queue IH]; intros initial room; cbn [getRequestsForRemoveVolumesFromSG].
  { destruct room; apply post_ret; (split; [by exists []|]); [done|]. intros _. by exists []. }
  destruct room as [|room]; [apply post_ret; split; [by exists []|done]|].
  destruct (same_removal req _).
  - eapply post_bind; [apply IH|]. intros [[q reqs] out] [(taken & -> & Hp) _]. apply post_ret.
    split; [exists (req :: taken); split; [done|]; simpl; by rewrite Hp|].
    intros _. exists (req :: taken). split_and!; [done| |done]. simpl. by rewrite Hp.
  - eapply post_bind; [apply single_remove_answers|]. intros out Hout. apply post_ret.
    split; [exists [req]; split; [done|]; simpl; by rewrite Hout|].
    intros _. exists [req]. split_and!; [done| |done]. simpl. by rewrite Hout.
Qed.

Definition one_removal (queue reqs : list removeVolumeFromSGMVRequest) : Prop :=
  reqs ⊆ queue ∧ ∀ r r', r ∈ reqs → r' ∈ reqs → rm_symID r = rm_symID r' ∧ rm_tgtStorageGroupID r = rm_tgtStorageGroupID r'.

Lemma same_removal_fields a b : same_removal a b = true → rm_symID a = rm_symID b ∧ rm_tgtStorageGroupID a = rm_tgtStorageGroupID b.
Proof. unfold same_removal. intros [[?%bool_decide_eq_true ?%bool_decide_eq_true]%andb_prop _]%andb_prop. done. Qed.

Lemma get_remove_batch queue i room :
  post (getRequestsForRemoveVolumesFromSG queue (Some i) room)
    (λ '(_, reqs, _), reqs ⊆ queue ∧ Forall (λ r, same_removal r i = true) reqs).
Proof.
  revert room. induction queue as [|req queue IH]; intros room; cbn [getRequestsForRemoveVolumesFromSG from_option id];
    [destruct room; by apply post_ret|].
  destruct room as [|room]; [apply post_ret; split; [set_solver|constructor]|]. destruct (same_removal req i) eqn:Hi.
  - eapply post_bind; [apply IH|]. intros [[q reqs] out] [Hsub Hall]. apply post_ret. split; [set_solver|by constructor].
  - apply post_skip. intros out. apply post_ret. split; [set_solver|constructor].
Qed.

Lemma get_one_removal queue room :
  post (getRequestsForRemoveVolumesFromSG queue None room) (λ '(_, reqs, _), one_removal queue reqs).
Proof.
  destruct queue as [|req queue]; [destruct room; apply post_ret; split; set_solver|].
  assert (getRequestsForRemoveVolumesFromSG (req :: queue) None room = getRequestsForRemoveVolumesFromSG (req :: queue) (Some req) room) as ->
    by by destruct room.
  eapply post_weaken; [apply get_remove_batch|]. intros [[q reqs] out] [Hsub Hall]. split; [done|]. intros r r' Hr Hr'.
  rewrite Forall_forall in Hall. destruct (same_removal_fields _ _ (Hall _ Hr)), (same_removal_fields _ _ (Hall _ Hr')). by split; congruence.
Qed.

Lemma run_remove_answers queue :
  Forall (λ r, managed (rm_clientSymID r)) queue →
  post (runRemoveVolumesFromSGMV queue) (λ '(q, out), taken_remove queue q (fst <$> out)).
Proof.
  intros Hm. rewrite Forall_forall in Hm. unfold runRemoveVolumesFromSGMV.
  eapply post_bind; [apply post_and; [apply get_remove_takes|apply get_one_removal]|].
  intros [[q reqs] out] [[_ Ht] [Hsub _]]. specialize (Ht ltac:(done)).
  destruct reqs as [|req reqs]; [by apply post_ret|]. set (requests := req :: reqs) in *.
  apply post_skip. intros e. destruct Ht as (taken & Hq & Hp & Hne). destruct e as [e|].
  - eapply post_bind; [apply (handle_each_answers rm_respChan); intros r Hr; by apply handle_remove_answers, Hm, Hsub|]. intros out2 Hout2.
    apply post_ret. exists taken. split_and!; [done| |done]. rewrite Hp, fmap_app, Hout2. apply Permutation_app_comm.
  - apply post_ret. exists taken. split_and!; [done| |done].
    rewrite Hp, fmap_app, <- list_fmap_compose. by rewrite Permutation_app_comm.
Qed.

Local Open Scope list_scope.

(** Who waits has a request in the queue or a response on its channel, never
    both; the lock is free when nobody serves. *)
Record service_inv (st : sgState) : Prop := {
  inv_add : waitingAdd st ≡ₚ (respChan <$> addQueue st) ++ (addResponses st).*1;
  inv_remove : waitingRemove st ≡ₚ (rm_respChan <$> removeQueue st) ++ (removeResponses st).*1;
  inv_distinct : NoDup (channels st);
  inv_lock : lock st = true ↔ serving st = None;
  inv_serving : ∀ b x, serving st = Some (b, x) → x ∈ if b then waitingAdd st else waitingRemove st;
}.

Lemma receive_perm {A} (chan : A → Z) (queue : list A) {R} (before after : list (Z * R)) x r wb wa :
  (wb ++ x :: wa)%list ≡ₚ (chan <$> queue) ++ (before ++ (x, r) :: after).*1 →
  (wb ++ wa)%list ≡ₚ (chan <$> queue) ++ (before ++ after).*1.
Proof.
  rewrite <- Permutation_middle, !fmap_app, fmap_cons, <- Permutation_middle. simpl.
  rewrite <- (Permutation_middle (chan <$> queue)). apply Permutation_cons_inv.
Qed.

Lemma NoDup_remove_middle (a b c d : list Z) x : NoDup (a ++ (b ++ x :: c) ++ d) → NoDup (a ++ (b ++ c) ++ d).
Proof.
  rewrite <- (Permutation_middle b c x). cbn [app]. rewrite <- (Permutation_middle a). by intros [_ ?]%NoDup_cons.
Qed.

(** All queued requests are for arrays of the driver. *)
Definition all_managed (st : sgState) : Prop :=
  Forall (λ r, managed (clientSymID r)) (addQueue st) ∧ Forall (λ r, managed (rm_clientSymID r)) (removeQueue st).
Definition managed_reachable (w : W) (st : sgState) : Prop :=
  rtc (λ st st', all_managed st ∧ step st st') (getUpdateStorageGroupState w) st.

Lemma service_inv_step st st' : service_inv st → all_managed st → step st st' → service_inv st'.
Proof.
  intros [Ha Hr Hd Hl Hs] [Hma Hmr] Hstep. unfold channels in *.
  destruct Hstep as [req st _ Hfresh|req st _ Hfresh|x st Hlock Hx|x st Hlock Hx|x st queue out w Hserve Hrun
    |x st queue out w Hserve Hrun|x r before after wb wa st E Ew Hns|x r before after wb wa st E Ew Hns|w st]; simpl in *.
  - split; simpl; try done.
    + rewrite Ha, fmap_app. simpl. rewrite <- !app_assoc. f_equiv. apply Permutation_app_comm.
    + unfold channels. simpl. rewrite <- app_assoc. simpl. rewrite <- Permutation_middle.
      apply NoDup_cons. by split.
    + intros b x Hb%Hs. destruct b; set_solver.
  - split; simpl; try done.
    + rewrite Hr, fmap_app. simpl. rewrite <- !app_assoc. f_equiv. apply Permutation_app_comm.
    + unfold channels. simpl. rewrite app_assoc, Permutation_app_comm. simpl. apply NoDup_cons. by split.
    + intros b x Hb%Hs. destruct b; set_solver.
  - split; simpl; try done. intros b y [= <- <-]. done.
  - split; simpl; try done. intros b y [= <- <-]. done.
  - destruct (run_add_answers _ Hma _ _ _ Hrun) as (taken & Eq & Hp & _). split; simpl; try done.
    rewrite Ha, Eq, !fmap_app, Hp. by rewrite <- app_assoc, Permutation_app_comm, <- app_assoc.
  - destruct (run_remove_answers _ Hmr _ _ _ Hrun) as (taken & Eq & Hp & _). split; simpl; try done.
    rewrite Hr, Eq, !fmap_app, Hp. by rewrite <- app_assoc, Permutation_app_comm, <- app_assoc.
  - split; simpl; try done.
    + rewrite Ew, E in Ha. by eapply receive_perm.
    + rewrite Ew in Hd. unfold channels. simpl. by apply (NoDup_remove_middle [] wb wa (waitingRemove st) x) in Hd.
    + intros b y Hb. specialize (Hs b y Hb). destruct b; [|done]. rewrite Ew in Hs.
      apply elem_of_app in Hs as [Hs|[->|Hs]%elem_of_cons]; [set_solver|done|set_solver].
  - split; simpl; try done.
    + rewrite Ew, E in Hr. by eapply receive_perm.
    + rewrite Ew in Hd. unfold channels. simpl. rewrite <- (app_nil_r (wb ++ wa)), <- (app_nil_r (wb ++ x :: wa)) in *.
      by apply (NoDup_remove_middle (waitingAdd st) wb wa [] x) in Hd.
    + intros b y Hb. specialize (Hs b y Hb). destruct b; [done|]. rewrite Ew in Hs.
      apply elem_of_app in Hs as [Hs|[->|Hs]%elem_of_cons]; [set_solver|done|set_solver].
  - by split.
Qed.

Lemma service_inv_reachable w st : managed_reachable w st → service_inv st.
Proof.
  intros Hr. unfold managed_reachable in Hr. remember (getUpdateStorageGroupState w) as st0 eqn:E.
  assert (service_inv st0) as H0' by (subst; split; simpl; try done; constructor).
  clear E. induction Hr as [st|st1 st2 st3 [Hm Hs] _ IH]; [done|]. apply IH. by eapply service_inv_step.
Qed.

(** A run that returns shortens a queue that is not empty and answers somebody. *)
Lemma taken_shortens {A R} (chan : A → Z) queue rest (out : list (Z * R)) :
  (∃ taken, queue = taken ++ rest ∧ chan <$> taken ≡ₚ out.*1 ∧ (queue ≠ [] → taken ≠ [])) → queue ≠ [] →
  (List.length rest < List.length queue)%nat ∧ out ≠ [].
Proof.
  intros (taken & -> & Hp & Hne) Hq. specialize (Hne Hq). rewrite length_app. destruct taken as [|t ts]; [done|]. simpl.
  split; [lia|]. intros ->. simpl in Hp. by apply Permutation_nil_r in Hp.
Qed.

(** C16: As long as every queued request is for an array the driver has a client for, each waiting client has in
    every reachable state its request in its queue or its response on its channel, exactly once, and no channel gets
    a second response. While the lock is free, the client of the first request of either queue can take it, and the
    run it starts, when it returns, shortens that queue and answers somebody. *)
Theorem requests_answered_once w st : managed_reachable w st → all_managed st →
  NoDup (channels st)
  ∧ waitingAdd st ≡ₚ (respChan <$> addQueue st) ++ (addResponses st).*1
  ∧ waitingRemove st ≡ₚ (rm_respChan <$> removeQueue st) ++ (removeResponses st).*1
  ∧ (∀ req q, lock st = true → addQueue st = req :: q →
      ∃ st1, step st st1 ∧ serving st1 = Some (true, respChan req) ∧ addQueue st1 = addQueue st
        ∧ ∀ q' out w', runAddVolumesToSGMV (addQueue st1) (world st1) = Some ((q', out), w') →
            (List.length q' < List.length (addQueue st1))%nat ∧ out ≠ [])
  ∧ (∀ req q, lock st = true → removeQueue st = req :: q →
      ∃ st1, step st st1 ∧ serving st1 = Some (false, rm_respChan req) ∧ removeQueue st1 = removeQueue st
        ∧ ∀ q' out w', runRemoveVolumesFromSGMV (removeQueue st1) (world st1) = Some ((q', out), w') →
            (List.length q' < List.length (removeQueue st1))%nat ∧ out ≠ []).
Proof.
  intros [Ha Hr Hd Hl Hs]%service_inv_reachable [Hma Hmr]. split_and!; [done..| |]; intros req q Hlock Hq; eexists.
  - split; [apply (step_lock_add (respChan req)); [done|]|split_and!; [done..|]]; [rewrite Ha, Hq; set_solver|].
    simpl. intros q' out w' Hrun. apply (taken_shortens respChan); [exact (run_add_answers _ Hma _ _ _ Hrun)|by rewrite Hq].
  - split; [apply (step_lock_remove (rm_respChan req)); [done|]|split_and!; [done..|]]; [rewrite Hr, Hq; set_solver|].
    simpl. intros q' out w' Hrun. apply (taken_shortens rm_respChan); [exact (run_remove_answers _ Hmr _ _ _ Hrun)|by rewrite Hq].
Qed.
End answers.
End service.

(** ** What the service does to the array *)
Section protection.
Context {W C : Type} `{Pmax W C} `{MaskingClient W C}.
Variable GetPowerMaxClient : string → M W (result error C).
Variable svc : service.
Abbreviation clients := (λ x, quietM (GetPowerMaxClient x)).

(** The changes an addition may make: to its own storage group, which is no boot volume group and gets only
    devices that requests of the queue name for it, its own masking view, and a port group with a name of the driver. *)
Definition may_add (queue : list addVolumeToSGMVRequest) (req : addVolumeToSGMVRequest) (e : event) : Prop :=
  isBootLUNStorageGroup svc (symID req) (tgtStorageGroupID req) = false ∧
  match e with
  | EvCreateGroup sym sg => sym = symID req ∧ sg = tgtStorageGroupID req
  | EvAddVolumes sym sg devs =>
      sym = symID req ∧ sg = tgtStorageGroupID req
      ∧ ∀ d, d ∈ devs → ∃ r, r ∈ queue ∧ symID r = sym ∧ tgtStorageGroupID r = sg ∧ devID r = d
  | EvCreateView sym mv sg => sym = symID req ∧ mv = tgtMaskingViewID req ∧ sg = tgtStorageGroupID req
  | EvCreatePortGroup sym pg => sym = symID req ∧ ∃ keys, port_group_name svc keys = Some pg
  | _ => False
  end.

(** Devices that requests of the queue name for the group. *)
Definition to_remove (queue : list removeVolumeFromSGMVRequest) (sym sg d : string) : Prop :=
  ∃ r, r ∈ queue ∧ rm_symID r = sym ∧ rm_tgtStorageGroupID r = sg ∧ rm_devID r = d.
(** The array said that the group has as many volumes as are taken out of it, and has the view. *)
Definition emptied (queue : list removeVolumeFromSGMVRequest) (sym sg mv : string) : Prop :=
  ∃ c w g w' devs, GetStorageGroup (W := W) c sym sg w = (Ok g, w') ∧ mem mv (SG_MaskingView g) = true
    ∧ NumOfVolumes g = Z.of_nat (List.length devs) ∧ (∀ d, d ∈ devs → to_remove queue sym sg d).

(** A removal takes volumes that requests of the queue name out of its storage group, which is no boot volume
    group; it deletes only a masking view of the group with the driver's prefix, and with it the group, when they
    are all of its volumes. *)
Definition may_remove (queue : list removeVolumeFromSGMVRequest) (req : removeVolumeFromSGMVRequest) (e : event) : Prop :=
  isBootLUNStorageGroup svc (rm_symID req) (rm_tgtStorageGroupID req) = false ∧
  match e with
  | EvRemoveVolumes sym sg devs => sym = rm_symID req ∧ sg = rm_tgtStorageGroupID req ∧ ∀ d, d ∈ devs → to_remove queue sym sg d
  | EvDeleteView sym mv =>
      sym = rm_symID req ∧ mv = rm_tgtMaskingViewID req ∧ HasPrefix mv CsiMVPrefix = true ∧ emptied queue sym (rm_tgtStorageGroupID req) mv
  | EvDeleteGroup sym sg =>
      sym = rm_symID req ∧ sg = rm_tgtStorageGroupID req ∧ HasPrefix (rm_tgtMaskingViewID req) CsiMVPrefix = true
      ∧ emptied queue sym sg (rm_tgtMaskingViewID req)
  | _ => False
  end.

Lemma port_group_logs P sym host c :
  (∀ keys pg, port_group_name svc keys = Some pg → P (EvCreatePortGroup sym pg)) → logs P (SelectOrCreatePortGroup (W := traced W) svc sym host c).
Proof.
  intros HP. unfold SelectOrCreatePortGroup, SelectOrCreateFCPGForHost, SelectPortGroup, existing_group, isV4OrAbove,
    getUsableFCPortsForHost, initiator_ports, usable_port, match_legacy.
  repeat (first [match goal with |- logs _ (match port_group_name ?s ?keys with _ => _ end) => destruct (port_group_name s keys) eqn:? end
                |log_step]; cbn beta iota zeta); by eapply HP.
Qed.

Lemma add_volumes_logs queue req devs cl :
  (∀ d, d ∈ devs → ∃ r, r ∈ queue ∧ symID r = symID req ∧ tgtStorageGroupID r = tgtStorageGroupID req ∧ devID r = d) →
  logs (may_add queue req) (addVolumesToSGMV svc (symID req) (tgtStorageGroupID req) (tgtMaskingViewID req) (hostID req) devs cl).
Proof.
  intros Hd. unfold addVolumesToSGMV, create_view, fetch_host, ensure_group, add_to_group, resolveMaskingViewTarget, findHostGroupForHost,
    find_in_group, internal.
  destruct (isBootLUNStorageGroup svc (symID req) (tgtStorageGroupID req)) eqn:Hboot; [apply logs_ret|].
  logs; try (by split). apply port_group_logs. intros keys pg Hpg. split; [done|]. split; [done|]. by exists keys.
Qed.

Lemma single_add_logs queue req : req ∈ queue → logs (may_add queue req) (processSingleAddVolumeToSGMV clients svc req).
Proof.
  intros Hr. unfold processSingleAddVolumeToSGMV. logs. apply add_volumes_logs. intros d ->%list_elem_of_singleton. by exists req.
Qed.

Lemma handle_add_logs queue req : req ∈ queue → logs (may_add queue req) (handleAddVolumeToSGMVError clients svc req).
Proof. intros Hr. unfold handleAddVolumeToSGMVError, is_ok_call. logs. by apply single_add_logs. Qed.

Lemma handle_each_logs {R S} (P : R → event → Prop) (handle : R → M (traced W) (list S)) reqs :
  (∀ r, r ∈ reqs → logs (P r) (handle r)) → logs (λ e, ∃ r, r ∈ reqs ∧ P r e) (handle_each handle reqs).
Proof.
  induction reqs as [|r reqs IH]; intros Hh; cbn [handle_each]; [apply logs_ret|].
  apply logs_bind; [eapply logs_impl; [|apply Hh; by constructor]; intros e He; exists r; set_solver|]. intros a.
  apply logs_bind; [eapply logs_impl; [|apply IH; intros x Hx; apply Hh; by constructor]; intros e (r' & ? & ?); exists r'; set_solver|]. intros b. apply logs_ret.
Qed.

Lemma details_logs P c sym sgs mvs groups : logs P (details (W := traced W) c sym sgs mvs groups).
Proof. revert mvs groups. induction sgs as [|sg sgs IH]; intros mvs groups; cbn [details]; logs. apply IH. Qed.

Lemma check_logs P req : logs P (addVolumeToSGMVVolumeCheck clients req).
Proof. unfold addVolumeToSGMVVolumeCheck, GetMaskingViewAndSGDetails. logs. apply details_logs. Qed.

Lemma get_add_logs all queue initial room : queue ⊆ all →
  logs (λ e, ∃ r, r ∈ all ∧ may_add all r e) (getRequestsForAddVolumesToSG clients svc queue initial room).
Proof.
  revert initial room. induction queue as [|req queue IH]; intros initial room Hall; cbn [getRequestsForAddVolumesToSG];
    [destruct room; apply logs_ret|].
  destruct room as [|room]; [apply logs_ret|]. destruct (same_target req _).
  - apply logs_bind; [apply check_logs|]. intros [[addToSG createMV]|e];
      [destruct (addToSG || createMV)|]; (apply logs_bind; [apply IH; set_solver|]); intros [[[q reqs] devs] out]; apply logs_ret.
  - apply logs_bind; [|intros; apply logs_ret]. eapply logs_impl; [|apply (single_add_logs all); set_solver]. intros e He. exists req. set_solver.
Qed.

Lemma run_add_logs queue : logs (λ e, ∃ r, r ∈ queue ∧ may_add queue r e) (runAddVolumesToSGMV clients svc queue).
Proof.
  unfold runAddVolumesToSGMV. eapply logs_bind_post; [by apply get_add_logs|apply get_add_one_batch|].
  intros [[[q reqs] devs] out] (Hsub & Hone & Hdevs). destruct reqs as [|req reqs]; [apply logs_ret|].
  assert (logs (λ e, ∃ r, r ∈ queue ∧ may_add queue r e) (handle_each (handleAddVolumeToSGMVError clients svc) (req :: reqs))) as Hhandle.
  { eapply logs_impl; [|apply (handle_each_logs (may_add queue))]; [intros e (r & ? & ?); exists r; set_solver|].
    intros r Hr. by apply handle_add_logs, Hsub. }
  apply logs_bind; [apply logs_quietM|]. intros rc. apply logs_bind; [destruct rc; [apply logs_ret|exact Hhandle]|]. intros out1.
  apply logs_bind.
  - eapply logs_impl; [|apply (add_volumes_logs queue)]; [intros e He; exists req; set_solver|].
    intros d (r & -> & Hr)%Hdevs%list_elem_of_fmap. destruct (Hone r req Hr ltac:(by constructor)). exists r. split; [by apply Hsub|done].
  - intros [e|]; [apply logs_bind; [exact Hhandle|intros; apply logs_ret]|]. unfold batch_connections. logs.
Qed.

(** The one group that is looked at, as the array answered it. *)
Lemma one_group_details sym sg (c : C) :
  post (GetMaskingViewAndSGDetails (W := traced W) sym [sg] c) (λ r, match r with
    | Ok (mvs, groups) => ∃ g w w', groups = [g] ∧ GetStorageGroup (W := W) c sym sg w = (Ok g, w') ∧ ∀ mv, mem mv mvs = true → mem mv (SG_MaskingView g) = true
    | Err _ => True end).
Proof.
  intros [w l] r t'. unfold GetMaskingViewAndSGDetails, details, mbnd, lift. simpl. unfold quiet. simpl.
  destruct (GetStorageGroup c sym sg w) as [[g|e] w'] eqn:E; intros [= <- _]; [|done]. exists g, w, w'. split_and!; [done..|].
  intros mv (x & Hx & Hm)%existsb_exists. apply existsb_exists. exists x. split; [|done].
  apply list_elem_of_In. apply list_elem_of_In in Hx. by apply elem_of_appendIfMissing_fold in Hx as [?%elem_of_nil|?].
Qed.

Lemma remove_volumes_logs queue req devs :
  (∀ d, d ∈ devs → to_remove queue (rm_symID req) (rm_tgtStorageGroupID req) d) →
  logs (may_remove queue req)
    (removeVolumesFromSGMV clients svc (rm_clientSymID req) (rm_tgtStorageGroupID req) (rm_tgtMaskingViewID req) (rm_symID req) devs).
Proof.
  intros Hd. unfold removeVolumesFromSGMV, internal. apply logs_bind; [apply logs_quietM|]. intros [c|e]; [|apply logs_ret].
  destruct (isBootLUNStorageGroup svc (rm_symID req) (rm_tgtStorageGroupID req)) eqn:Hboot; [apply logs_ret|].
  eapply logs_bind_post; [apply details_logs|apply one_group_details|]. intros [[mvs groups]|e] Hg; [|apply logs_ret].
  destruct Hg as (g & w & w' & -> & Hg & Hmv).
  destruct (mem (rm_tgtMaskingViewID req) mvs) eqn:Hmem; cbn [negb]; [|apply logs_ret]. apply logs_bind_index. intros sg [= <-].
  destruct (Z.eqb_spec (NumOfVolumes g) (Z.of_nat (List.length devs))) as [Hn|];
    [destruct (HasPrefix (rm_tgtMaskingViewID req) CsiMVPrefix) eqn:Hpre; cbn [negb]|].
  - assert (emptied queue (rm_symID req) (rm_tgtStorageGroupID req) (rm_tgtMaskingViewID req)) as He
      by (exists c, w, g, w', devs; split_and!; auto). logs; by split.
  - logs; by split.
  - logs; by split.
Qed.

Lemma single_remove_logs queue req : req ∈ queue → logs (may_remove queue req) (processSingleRemoveVolumeFromSG clients svc req).
Proof.
  intros Hr. unfold processSingleRemoveVolumeFromSG. logs. apply remove_volumes_logs. intros d ->%list_elem_of_singleton. by exists req.
Qed.

Lemma handle_remove_logs queue req : req ∈ queue → logs (may_remove queue req) (handleRemoveVolumeFromSGMVError clients svc req).
Proof. intros Hr. unfold handleRemoveVolumeFromSGMVError. logs. by apply single_remove_logs. Qed.

Lemma get_remove_logs all queue initial room : queue ⊆ all →
  logs (λ e, ∃ r, r ∈ all ∧ may_remove all r e) (getRequestsForRemoveVolumesFromSG clients svc queue initial room).
Proof.
  revert initial room. induction queue as [|req queue IH]; intros initial room Hall; cbn [getRequestsForRemoveVolumesFromSG];
    [destruct room; apply logs_ret|].
  destruct room as [|room]; [apply logs_ret|]. destruct (same_removal req _).
  - apply logs_bind; [apply IH; set_solver|]. intros [[q reqs] out]. apply logs_ret.
  - apply logs_bind; [|intros; apply logs_ret]. eapply logs_impl; [|apply (single_remove_logs all); set_solver]. intros e He. exists req. set_solver.
Qed.

Lemma run_remove_logs queue : logs (λ e, ∃ r, r ∈ queue ∧ may_remove queue r e) (runRemoveVolumesFromSGMV clients svc queue).
Proof.
  unfold runRemoveVolumesFromSGMV. eapply logs_bind_post; [by apply get_remove_logs|apply get_one_removal|].
  intros [[q reqs] out] [Hsub Hone]. destruct reqs as [|req reqs]; [apply logs_ret|]. apply logs_bind.
  - eapply logs_impl; [|apply (remove_volumes_logs queue)]; [intros e He; exists req; set_solver|].
    intros d (r & -> & Hr)%list_elem_of_fmap. destruct (Hone r req Hr ltac:(by constructor)). exists r. split; [by apply Hsub|done].
  - intros [e|]; [|apply logs_ret]. apply logs_bind; [|intros; apply logs_ret].
    eapply logs_impl; [|apply (handle_each_logs (may_remove queue))]; [intros e' (r & ? & ?); exists r; set_solver|].
    intros r Hr. by apply handle_remove_logs, Hsub.
Qed.

End protection.

(** ** The service on the simulated array *)
Section example.
Import SimArray SimMasking.

Definition clients0 (symID : string) : M Sim (result error string) := ret (Ok "c").
Definition world0 : Sim := sim [mkVolume "00001" "csi-ABC-v1" ["csi-rep-sg"] false false "" 0 547 [] fzero] (mkStorageGroupRDFG [] []).
Definition request0 : addVolumeToSGMVRequest :=
  mkAdd "csi-no-srp-sg-ABC-n1-FC" "csi-mv-ABC-n1-FC" "csi-node-ABC-n1-FC" "req" "s1" "s1" "00001" SINGLE_NODE_WRITER 7.
Definition state0 : sgState (W := Sim) := getUpdateStorageGroupState world0.
Definition state1 : sgState (W := Sim) := mkSgState [request0] [] true [7] [] None [] [] world0.
Definition state2 : sgState (W := Sim) := mkSgState [request0] [] false [7] [] (Some (true, 7)) [] [] world0.
Definition state3 : sgState (W := Sim) :=
  match runAddVolumesToSGMV clients0 plain (addQueue state2) world0 with
  | Some ((q, out), w) => mkSgState q [] true [7] [] None out [] w
  | None => state2
  end.

Lemma clients0_managed x : managed clients0 x.
Proof. by intros w r w' [= <- _]. Qed.

Lemma requests_answered_once_witness :
  managed_reachable clients0 plain world0 state3 ∧ (addQueue state3 = [] ∧ addResponses state3 = [(7, mkAddResponse None [])])
  ∧ sim_log (world state3) = ["create PG csi-ABC-FA-1D-4-PG"; "add to csi-no-srp-sg-ABC-n1-FC";
      "create MV csi-mv-ABC-n1-FC csi-no-srp-sg-ABC-n1-FC csi-node-ABC-n1-FC csi-ABC-FA-1D-4-PG"]
  ∧ waitingAdd state3 ≡ₚ (respChan <$> addQueue state3) ++ (addResponses state3).*1.
Proof.
  assert (∀ st : sgState (W := Sim), all_managed clients0 st) as Hm by (intros st; split; apply Forall_forall; intros r _; apply clients0_managed).
  assert (managed_reachable clients0 plain world0 state3) as Hr.
  { eapply (rtc_l _ _ state1); [split; [apply Hm|]; apply (step_request_add clients0 plain request0 state0); [by vm_compute; lia|set_solver]|].
    eapply (rtc_l _ _ state2); [split; [apply Hm|]; apply (step_lock_add clients0 plain 7 state1); [done|set_solver]|].
    eapply (rtc_l _ _ state3); [split; [apply Hm|]|apply rtc_refl].
    destruct (runAddVolumesToSGMV clients0 plain (addQueue state2) world0) as [[[q out] w]|] eqn:E; [|by vm_compute in E].
    unfold state3. rewrite E. by apply (step_run_add clients0 plain 7 state2). }
  split_and!; [done|by vm_compute|by vm_compute|by vm_compute|].
  apply (requests_answered_once clients0 plain world0 state3 Hr (Hm state3)).
Defined.

(** Without a client a request that failed in its batch gets no response, and its client waits for ever. *)
Example lost_request :
  handleRemoveVolumeFromSGMVError (λ _, ret (Err (errorString "not managed"))) plain
    (mkRemove "csi-no-srp-sg-ABC-n1-FC" "csi-mv-ABC-n1-FC" "req" "s1" "s1" "00001" 7) world0 = Some ([], world0).
Proof. done. Qed.

(** A volume is added to its group; of a group with two volumes both are taken out. *)
Definition removals0 : list removeVolumeFromSGMVRequest :=
  (λ '(dev, chan), mkRemove "csi-no-srp-sg-ABC-n1-FC" "csi-mv-ABC-n1-FC" "req" "s1" "s1" dev chan) <$> [("00001", 1); ("00002", 2)].
Definition world1 : Sim :=
  mkSim (sim_time world0) (sim_version world0) (sim_volumes world0) (sim_snaps world0)
    (mkStorageGroup 1 2 "csi-no-srp-sg-ABC-n1-FC" "" ["csi-mv-ABC-n1-FC"]) (sim_rdf world0) (sim_group world0) (sim_dirs world0) [] (sim_licenses world0).
Definition traced_log {A} (r : option (A * traced Sim)) : option (list event) := match r with Some (_, (_, l)) => Some l | None => None end.

End example.
End StorageGroups.
