(* ===== verification/Handler.v ===== *)
(** * Handlers

    Notation for the code of RPC handlers: calls whose error ends the handler,
    possibly wrapped in a status, and the rules for them. *)

From stdpp Require Import base strings list.
From Stdlib Require Import ZArith.
From S2P Require Import Prelude GoLib Masking Trace.

Definition try {W A B} (m : M W (result error A)) (wrap : error → error) (k : A → M W (result error B)) : M W (result error B) :=
  mbnd m (λ r, match r with Ok a => k a | Err e => ret (Err (wrap e)) end).
(** A call that returns only an error. *)
Definition check {W B} (m : M W (option error)) (wrap : error → error) (k : M W (result error B)) : M W (result error B) :=
  mbnd m (λ r, match r with None => k | Some e => ret (Err (wrap e)) end).

Declare Scope handler_scope.
Delimit Scope handler_scope with handler.
Notation "'let?' x := m 'in' k" := (try m (λ e, e) (λ x, k))
  (at level 10, x binder, m at level 100, k at level 200) : handler_scope.
Notation "'let?' x := m 'orelse' h 'in' k" := (try m h (λ x, k))
  (at level 10, x binder, m at level 100, h at level 100, k at level 200) : handler_scope.
Notation "'do?' m 'orelse' h 'in' k" := (check m h k)
  (at level 10, m at level 100, h at level 100, k at level 200) : handler_scope.
Notation "'do?' m 'in' k" := (check m (λ e, e) k)
  (at level 10, m at level 100, k at level 200) : handler_scope.

(** [return nil, err] *)
Definition fail {W A} (e : error) : M W (result error A) := ret (Err e).
Definition ok {W A} (a : A) : M W (result error A) := ret (Ok a).

Section rules.
Context {W : Type}.

Lemma post_try {A B} (m : M W (result error A)) h (k : A → M W (result error B)) (P : A → Prop) (Q : result error B → Prop) :
  post m (λ r, match r with Ok a => P a | Err _ => True end) → (∀ e, Q (Err (h e))) → (∀ a, P a → post (k a) Q) → post (try m h k) Q.
Proof. intros Hm He Hk. eapply post_bind; [exact Hm|]. intros [a|e] Ha; [by apply Hk|by apply post_ret]. Qed.

Lemma post_try_skip {A B} (m : M W (result error A)) h (k : A → M W (result error B)) (Q : result error B → Prop) :
  (∀ e, Q (Err (h e))) → (∀ a, post (k a) Q) → post (try m h k) Q.
Proof. intros He Hk. apply (post_try m h k (λ _, True)); [by intros ? [?|?] ? ?|done|auto]. Qed.

Lemma post_check {B} (m : M W (option error)) h (k : M W (result error B)) (Q : result error B → Prop) :
  (∀ e, Q (Err (h e))) → post k Q → post (check m h k) Q.
Proof. intros He Hk. apply post_skip. intros [e|]; [by apply post_ret|done]. Qed.

Lemma try_Some {A B} (m : M W (result error A)) h (k : A → M W (result error B)) w b w' :
  try m h k w = Some (Ok b, w') → ∃ a w1, m w = Some (Ok a, w1) ∧ k a w1 = Some (Ok b, w').
Proof. intros ([a|e] & w1 & Hm & Hk)%mbnd_Some; [eauto|done]. Qed.

Lemma check_Some {B} (m : M W (option error)) h (k : M W (result error B)) w b w' :
  check m h k w = Some (Ok b, w') → ∃ w1, m w = Some (None, w1) ∧ k w1 = Some (Ok b, w').
Proof. intros ([e|] & w1 & Hm & Hk)%mbnd_Some; [done|eauto]. Qed.
End rules.

Section traced_rules.
Context {W : Type} (P : Trace.event → Prop).

Lemma logs_try {A B} (m : M (Trace.traced W) (result error A)) h (k : A → M (Trace.traced W) (result error B)) :
  Trace.logs P m → (∀ a, Trace.logs P (k a)) → Trace.logs P (try m h k).
Proof. intros Hm Hk. apply Trace.logs_bind; [done|]. intros [a|e]; [apply Hk|apply Trace.logs_ret]. Qed.

Lemma logs_check {B} (m : M (Trace.traced W) (option error)) h (k : M (Trace.traced W) (result error B)) :
  Trace.logs P m → Trace.logs P k → Trace.logs P (check m h k).
Proof. intros Hm Hk. apply Trace.logs_bind; [done|]. intros [e|]; [apply Trace.logs_ret|done]. Qed.
End traced_rules.

(** Inverts a successful run of a handler, one call after the other. *)
Ltac run_inv H :=
  repeat match type of H with
  | try _ _ _ _ = Some (Ok _, _) =>
      let a := fresh "a" in let w := fresh "w" in let E := fresh "E" in
      apply try_Some in H as (a & w & E & H); cbv beta in H
  | check _ _ _ _ = Some (Ok _, _) =>
      let w := fresh "w" in let E := fresh "E" in apply check_Some in H as (w & E & H)
  | mbnd _ _ _ = Some _ =>
      let a := fresh "a" in let w := fresh "w" in let E := fresh "E" in
      apply mbnd_Some in H as (a & w & E & H); cbv beta in H
  end.
