(* ===== verification/Files.v ===== *)
(** * File systems

    Models pkg/file/file.go: file systems on a NAS server of the array and their
    NFS exports, created, published, expanded and removed, and the mounts of an
    export on a node. The calls of the array for files, and those of the
    operating system, are classes of their own. *)

From stdpp Require Import base gmap strings list.
From Stdlib Require Import ZArith Lia.
From S2P Require Import Prelude GoLib SimArray Masking Trace Handler.

Module Files.
Open Scope go_scope.
Open Scope handler_scope.
Open Scope string_scope.
Open Scope Z_scope.

Record FileSystem := mkFileSystem { FS_ID : string; FS_Name : string; SizeTotal : Z }.
Record NFSExport := mkNFSExport { NFS_ID : string; NFS_Name : string; NFS_Path : string }.
Record CreateNFSExportParam := mkExportParam {
  StorageResource : string;
  Export_Name : string;
  Export_Path : string;
  DefaultAccess : string;
}.

(** Lists come with a count of their own. *)
Class FileClient (W C : Type) := {
  GetNASServerList : C → string → string → W → result error (list string) * W;
  GetNASServerByID : C → string → string → W → result error string * W;
  GetFileInterfaceByID : C → string → string → W → result error string * W;
  GetFileSystemList : C → string → string → string → W → result error (Z * list string) * W;
  GetFileSystemByID : C → string → string → W → result error FileSystem * W;
  client_CreateFileSystem : C → string → string → string → string → Z → W → result error FileSystem * W;
  ModifyFileSystem : C → string → string → Z → W → result error FileSystem * W;
  client_DeleteFileSystem : C → string → string → W → option error * W;
  GetNFSExportList : C → string → string → string → W → result error (Z * list string) * W;
  GetNFSExportByID : C → string → string → W → result error NFSExport * W;
  client_CreateNFSExport : C → string → CreateNFSExportParam → W → result error NFSExport * W;
  client_DeleteNFSExport : C → string → string → W → option error * W;
  FormatNow : W → string * W;
}.

(** gofsutil and os *)
Class Mounter (W : Type) := {
  GetMounts : W → result error (list string) * W;
  Mount : string → string → string → W → option error * W;
  BindMount : string → string → list string → W → option error * W;
  MkdirAll : string → W → option error * W;
}.

Definition MiBSizeInBytes : Z := 1048576.
Definition ServiceLevelParam := "ServiceLevel".
Definition CapacityMiB := "CapacityMiB".
Definition StoragePoolParam := "SRP".
Definition AllowRootParam := "allowRoot".
Definition NASServerIDParam := "NASServerID".
Definition NASServerNameParam := "NASServerName".
Definition NFSExportPathParam := "NFSExportPath".
Definition NFSExportIDParam := "NFSExportID".

Abbreviation context := (gmap string string).
Definition value_of (key : string) (m : context) : string := default "" (m !! key).

(** csi.Volume of a response; topologies are of any type. *)
Record csi_Volume (T : Type) := mkCsiVolume {
  Volume_Id : string;
  CapacityBytes : Z;
  VolumeContext : context;
  AccessibleTopology : list T;
}.
Arguments mkCsiVolume {T} _ _ _ _.
Arguments Volume_Id {T} _.
Arguments CapacityBytes {T} _.
Arguments VolumeContext {T} _.
Arguments AccessibleTopology {T} _.

Section array.
Context {W C T : Type} `{FileClient W C}.
Implicit Types (c : C).

Definition internal_error (msg : string) : error := statusError Internal msg.

Definition checkIfFileSystemExist (symID nasServerID fileSystemName : string) (sizeInMiB : Z) c
    : M W (result error (option FileSystem)) :=
  let? found := lift (GetFileSystemList c symID fileSystemName nasServerID)
    orelse (λ e, internal_error ("can not fetch filesystem list for " ++ fileSystemName ++ " : " ++ Error e)) in
  if fst found =? 0 then ok None
  else
    let* fsID := index (snd found) 0 in
    let? fileSystem := lift (GetFileSystemByID c symID fsID)
      orelse (λ e, internal_error ("can not fetch filesystem for name: " ++ fileSystemName ++ ", ID: " ++ fsID ++ " : " ++ Error e)) in
    if negb (SizeTotal fileSystem =? sizeInMiB) then
      fail (statusError AlreadyExists "A fileSystem with the same name exists but has a different size than required.")
    else ok (Some fileSystem).

(** [preferred]: the preferred topologies, when there are accessibility
    requirements. *)
Definition CreateFileSystem (preferred : option (list T)) (symID storagePoolID serviceLevel nasServerName fileSystemIdentifier allowRoot : string)
    (sizeInMiB : Z) c : M W (result error (csi_Volume T)) :=
  let? nasServers := lift (GetNASServerList c symID nasServerName)
    orelse (λ e, internal_error ("can not fetch NAS server list for " ++ symID ++ " : " ++ Error e)) in
  match nasServers with
  | [] => fail (internal_error ("No NAS server found with name " ++ nasServerName ++ " on " ++ symID))
  | nasServerID :: _ =>
      let? existing := checkIfFileSystemExist symID nasServerID fileSystemIdentifier sizeInMiB c in
      let? fileSystem := match existing with
                         | Some fs => ok fs
                         | None => lift (client_CreateFileSystem c symID fileSystemIdentifier nasServerID serviceLevel sizeInMiB)
                         end
        orelse (λ e, internal_error ("can not create filesystem for " ++ fileSystemIdentifier ++ " : " ++ Error e)) in
      let volID := fileSystemIdentifier ++ "-" ++ symID ++ "-" ++ FS_ID fileSystem in
      let* creation := lift FormatNow in
      let attributes : context :=
        <["CreationTime" := creation]> (<[CapacityMiB := Itoa (SizeTotal fileSystem)]> (<[AllowRootParam := allowRoot]>
          (<[StoragePoolParam := storagePoolID]> (<[ServiceLevelParam := serviceLevel]> (<[NASServerNameParam := nasServerName]>
            {[NASServerIDParam := nasServerID]}))))) in
      ok (mkCsiVolume volID (wrap64 (sizeInMiB * MiBSizeInBytes)) attributes (default [] preferred))
  end.

Definition DeleteFileSystem (symID fileSystemID : string) c : M W (option error) :=
  lift (client_DeleteFileSystem c symID fileSystemID).

Definition checkIfNFSExportExist (symID fsID nfsName : string) c : M W (result error (option NFSExport)) :=
  let? found := lift (GetNFSExportList c symID nfsName fsID)
    orelse (λ e, internal_error ("can not fetch nfsExport list for " ++ nfsName ++ " : " ++ Error e)) in
  if fst found =? 0 then ok None
  else
    let* nfsID := index (snd found) 0 in
    let? nfsExport := lift (GetNFSExportByID c symID nfsID)
      orelse (λ e, internal_error ("can not fetch nfsExport for name: " ++ nfsID ++ ", ID: " ++ nfsID ++ " : " ++ Error e)) in
    if decide (NFS_Name nfsExport ≠ nfsName) then
      fail (statusError AlreadyExists "A NFS export with the different name exists but has a same file system ID than required.")
    else ok (Some nfsExport).

Definition export_param (fs : FileSystem) (fsID allowRoot : string) : CreateNFSExportParam :=
  mkExportParam fsID (FS_Name fs) ("/" ++ FS_Name fs) (if decide (allowRoot = "true") then "Root" else "ReadWrite").

(** The publish context: where the node mounts from. *)
Definition nfs_context (allowRoot nasServerID nasServerName ip : string) (e : NFSExport) : context :=
  <[AllowRootParam := allowRoot]> (<[NFSExportIDParam := NFS_ID e]>
    (<[NFSExportPathParam := ip ++ ":/" ++ NFS_Path e]> (<[NASServerIDParam := nasServerID]>
      {[NASServerNameParam := nasServerName]}))).

Definition CreateNFSExport (symID fsID : string) (volumeContext : context) c : M W (result error context) :=
  let nasServerID := value_of NASServerIDParam volumeContext in
  let nasServerName := value_of NASServerNameParam volumeContext in
  let allowRoot := value_of AllowRootParam volumeContext in
  let? fs := lift (GetFileSystemByID c symID fsID)
    orelse (λ e, internal_error ("fetching fileSystem : " ++ fsID ++ " on symID " ++ symID ++ " failed with error " ++ Error e)) in
  let? existing := checkIfNFSExportExist symID fsID (FS_Name fs) c in
  let? nfsExport := match existing with
                    | Some e => ok e
                    | None => lift (client_CreateNFSExport c symID (export_param fs fsID allowRoot))
                    end
    orelse (λ e, internal_error ("can not create NFS export " ++ FS_Name fs ++ " for " ++ fsID ++ " : " ++ Error e)) in
  let? interface := lift (GetNASServerByID c symID nasServerID)
    orelse (λ e, internal_error ("failure getting NAS server " ++ fsID ++ " for fs " ++ Error e)) in
  let? ip := lift (GetFileInterfaceByID c symID interface)
    orelse (λ e, internal_error ("failure getting file interface " ++ Error e)) in
  ok (nfs_context allowRoot nasServerID nasServerName ip nfsExport).

Definition DeleteNFSExport (symID fsID : string) c : M W (option error) :=
  let* r := lift (GetFileSystemByID c symID fsID) in
  match r with
  | Err e =>
      if Contains (Error e) "not found" then ret None
      else ret (Some (internal_error ("Could not retrieve fileSystem: (" ++ Error e ++ ")")))
  | Ok fs =>
      let* r := checkIfNFSExportExist symID fsID (FS_Name fs) c in
      match r with
      | Err e => ret (Some e)
      | Ok None => ret None
      | Ok (Some nfsExport) =>
          let* e := lift (client_DeleteNFSExport c symID (NFS_ID nfsExport)) in
          match e with
          | Some e => ret (Some (internal_error ("ControllerUnpublish: FileSystem " ++ fsID ++ "- error: " ++ Error e
                                                 ++ " deleting NFS Export " ++ NFS_ID nfsExport)))
          | None => ret None
          end
      end
  end.

(** Returns CapacityBytes and NodeExpansionRequired. *)
Definition ExpandFileSystem (symID fsID : string) (requestedSize : Z) c : M W (result error (Z * bool)) :=
  let? fs := lift (GetFileSystemByID c symID fsID)
    orelse (λ e, internal_error ("fetching fileSystem : " ++ fsID ++ " on symID " ++ symID ++ " failed with error " ++ Error e)) in
  let allocatedSize := SizeTotal fs in
  if requestedSize <? allocatedSize then
    fail (statusError InvalidArgument "Attempting to shrink the volume size - unsupported operation")
  else if requestedSize =? allocatedSize then ok (wrap64 (allocatedSize * MiBSizeInBytes), false)
  else
    let? fs := lift (ModifyFileSystem c symID fsID requestedSize) orelse (λ e, internal_error (Error e)) in
    ok (wrap64 (SizeTotal fs * MiBSizeInBytes), false).
End array.

(** ** On the node *)
Section node.
Context {W : Type} `{Mounter W}.

Definition getTargetMount (target : string) : M W (result error bool) :=
  let? mounts := lift GetMounts orelse (λ _, internal_error "could not reliably determine existing mount status") in
  ok (existsb (λ path, bool_decide (path = target)) mounts).

Definition isReadyToPublishNFS (stagingPath : string) : M W (result error bool) := getTargetMount stagingPath.

Definition isAlreadyPublished (targetPath : string) : M W (result error bool) :=
  let? found := getTargetMount targetPath
    orelse (λ e, internal_error ("can't check mounts for path " ++ targetPath ++ ": " ++ Error e)) in
  ok found.

Definition StageFileSystem (privTgt : string) (publishContext : context) : M W (result error unit) :=
  let nfsExportPath := value_of NFSExportPathParam publishContext in
  let? found := isReadyToPublishNFS privTgt in
  if (found : bool) then ok tt
  else
    do? lift (MkdirAll privTgt) orelse (λ e, internal_error ("can't create target folder " ++ privTgt ++ ": " ++ Error e)) in
    do? lift (Mount nfsExportPath privTgt "nfs")
      orelse (λ e, internal_error ("error mount nfs share " ++ nfsExportPath ++ " to target path: " ++ Error e)) in
    ok tt.

Definition PublishFileSystem (targetPath stagingPath : string) (isRO : bool) (mountFlags : list string) : M W (result error unit) :=
  let? published := isAlreadyPublished targetPath in
  if (published : bool) then ok tt
  else
    do? lift (MkdirAll targetPath) orelse (λ e, internal_error ("can't create target folder " ++ targetPath ++ ": " ++ Error e)) in
    let mntFlags := if isRO then (mountFlags ++ ["ro"])%list else mountFlags in
    do? lift (BindMount stagingPath targetPath mntFlags)
      orelse (λ e, internal_error ("error bind disk " ++ stagingPath ++ " to target path " ++ targetPath ++ ": err " ++ Error e)) in
    ok tt.
End node.

(** ** Exports come and go

    What the array documents about exports: listing and reading follow its table
    of exports, creation adds one with a new id, deletion removes one, and neither
    touches file systems, NAS servers and interfaces. *)
Section lifecycle.
Context {W C : Type} `{FileClient W C}.
Variables (c : C) (symID : string).

Definition is_export (fsID name : string) (x : string * NFSExport) : bool :=
  bool_decide (x.1 = fsID) && bool_decide (NFS_Name x.2 = name).
Definition exports_of (fsID name : string) (l : list (string * NFSExport)) : list (string * NFSExport) :=
  List.filter (is_export fsID name) l.
Definition export_id (x : string * NFSExport) : string := NFS_ID x.2.

Record nas_laws := {
  exports : W → list (string * NFSExport);
  fs_of : W → string → result error FileSystem;
  nas_of : W → string → result error string;
  interface_of : W → string → result error string;
  law_fs w id : GetFileSystemByID c symID id w = (fs_of w id, w);
  law_nas w id : GetNASServerByID c symID id w = (nas_of w id, w);
  law_interface w id : GetFileInterfaceByID c symID id w = (interface_of w id, w);
  law_list w name fsID : GetNFSExportList c symID name fsID w =
    (Ok (Z.of_nat (List.length (exports_of fsID name (exports w))), export_id <$> exports_of fsID name (exports w)), w);
  law_get w x : x ∈ exports w → GetNFSExportByID c symID (export_id x) w = (Ok x.2, w);
  law_create w p e w' : client_CreateNFSExport c symID p w = (Ok e, w') →
    exports w' = (exports w ++ [(StorageResource p, e)])%list ∧ NFS_Name e = Export_Name p
    ∧ (NFS_ID e ∉ (export_id <$> exports w))
    ∧ (∀ id, fs_of w' id = fs_of w id) ∧ (∀ id, nas_of w' id = nas_of w id) ∧ (∀ id, interface_of w' id = interface_of w id);
  law_delete w id w' : client_DeleteNFSExport c symID id w = (None, w') →
    exports w' = List.filter (λ x, negb (bool_decide (export_id x = id))) (exports w);
}.
Variable L : nas_laws.
Local Open Scope list_scope.

Lemma check_export_found w fsID name x l :
  exports_of fsID name (exports L w) = x :: l → checkIfNFSExportExist symID fsID name c w = Some (Ok (Some x.2), w).
Proof.
  intros E. unfold checkIfNFSExportExist, try, mbnd, lift. rewrite (law_list L), E. simpl.
  assert (x ∈ exports_of fsID name (exports L w)) as Hx by (rewrite E; left).
  apply list_elem_of_In, filter_In in Hx as [Hx Hn]. unfold is_export in Hn. bool_to_prop.
  apply list_elem_of_In in Hx. rewrite (law_get L) by done. simpl.
  rewrite decide_False by (intros Hne; by apply Hne). done.
Qed.

Lemma check_export_none w fsID name :
  exports_of fsID name (exports L w) = [] → checkIfNFSExportExist symID fsID name c w = Some (Ok None, w).
Proof. intros E. unfold checkIfNFSExportExist, try, mbnd, lift. by rewrite (law_list L), E. Qed.

Lemma exports_of_app fsID name l l' : exports_of fsID name (l ++ l') = exports_of fsID name l ++ exports_of fsID name l'.
Proof. apply List.filter_app. Qed.

Lemma filter_fresh id l : (id ∉ (export_id <$> l)) → List.filter (λ x, negb (bool_decide (export_id x = id))) l = l.
Proof.
  induction l as [|y l IH]; intros Hfresh; [done|]. rewrite fmap_cons, not_elem_of_cons in Hfresh. destruct Hfresh as [Hne Hrest].
  cbn [List.filter]. rewrite bool_decide_false by congruence. simpl. f_equal. by apply IH.
Qed.

(** The export a publication finds or makes. *)
Lemma publish_export w fsID ctx pc w1 fs :
  fs_of L w fsID = Ok fs → CreateNFSExport symID fsID ctx c w = Some (Ok pc, w1) →
  ∃ x l, exports_of fsID (FS_Name fs) (exports L w1) = x :: l ∧ fs_of L w1 fsID = Ok fs
    ∧ (exports L w1 = exports L w
       ∨ exports_of fsID (FS_Name fs) (exports L w) = [] ∧ exports L w1 = exports L w ++ [x]
         ∧ (export_id x ∉ (export_id <$> exports L w)))
    ∧ ∃ interface ip, nas_of L w1 (value_of NASServerIDParam ctx) = Ok interface ∧ interface_of L w1 interface = Ok ip
        ∧ pc = nfs_context (value_of AllowRootParam ctx) (value_of NASServerIDParam ctx) (value_of NASServerNameParam ctx) ip x.2.
Proof.
  intros Hfs Hrun. unfold CreateNFSExport in Hrun. run_inv Hrun.
  unfold lift in E. rewrite (law_fs L), Hfs in E. injection E as <- <-.
  unfold lift in E2, E3. rewrite (law_nas L) in E2. injection E2 as Hn <-.
  rewrite (law_interface L) in E3. injection E3 as Hi <-. injection Hrun as Hpc <-.
  destruct (exports_of fsID (FS_Name fs) (exports L w)) as [|x l] eqn:Hl.
  - rewrite (check_export_none _ _ _ Hl) in E0. injection E0 as <- <-. unfold lift in E1. injection E1 as E1.
    destruct (law_create L _ _ _ _ E1) as (Hex & Hname & Hfresh & Hf & _ & _).
    exists (fsID, a1), []. split; [|split; [by rewrite Hf|split; [right; done|]]].
    + rewrite Hex, exports_of_app, Hl. unfold exports_of. cbn. unfold is_export. cbn.
      by rewrite Hname, !bool_decide_true by done.
    + exists a2, a3. by rewrite <- Hpc.
  - rewrite (check_export_found _ _ _ _ _ Hl) in E0. injection E0 as <- <-. injection E1 as <- <-.
    exists x, l. split_and!; [done|done|by left|]. exists a2, a3. by rewrite <- Hpc.
Qed.

(** Publishing a file system over NFS is idempotent, and unpublishing undoes it:
    a repeated publication returns the same context and changes nothing; exports of
    other file systems stay; and when the file system had no export before, deleting
    it again leaves the array's exports as they were. *)
Theorem nfs_export_lifecycle w fsID ctx pc w1 fs :
  fs_of L w fsID = Ok fs → CreateNFSExport symID fsID ctx c w = Some (Ok pc, w1) →
  CreateNFSExport symID fsID ctx c w1 = Some (Ok pc, w1)
  ∧ List.filter (λ x, negb (is_export fsID (FS_Name fs) x)) (exports L w1)
    = List.filter (λ x, negb (is_export fsID (FS_Name fs) x)) (exports L w)
  ∧ (exports_of fsID (FS_Name fs) (exports L w) = [] → ∀ w2, DeleteNFSExport symID fsID c w1 = Some (None, w2) →
       exports L w2 = exports L w).
Proof.
  intros Hfs Hrun. destruct (publish_export _ _ _ _ _ _ Hfs Hrun) as (x & l & Hx & Hfs1 & Hex & interface & ip & Hn & Hi & ->).
  split_and!.
  - unfold CreateNFSExport, try at 1, mbnd at 1, lift at 1. rewrite (law_fs L), Hfs1.
    unfold try at 1, mbnd at 1. rewrite (check_export_found _ _ _ _ _ Hx).
    unfold try, mbnd, lift, ok, ret. by rewrite (law_nas L), Hn, (law_interface L), Hi.
  - destruct Hex as [->|(_ & -> & _)]; [done|]. rewrite List.filter_app. cbn [List.filter].
    assert (x ∈ exports_of fsID (FS_Name fs) (exports L w1)) as Hin by (rewrite Hx; left).
    apply list_elem_of_In, filter_In in Hin as [_ ->]. simpl. by rewrite app_nil_r.
  - intros Hnone w2 Hdel. destruct Hex as [Hex|(_ & Hex & Hfresh)]; [rewrite Hex, Hnone in Hx; done|].
    unfold DeleteNFSExport, mbnd at 1, lift at 1 in Hdel. rewrite (law_fs L), Hfs1 in Hdel.
    unfold mbnd at 1 in Hdel. rewrite (check_export_found _ _ _ _ _ Hx) in Hdel. cbv zeta in Hdel.
    apply mbnd_Some in Hdel as ([e|] & w' & E & Hdel); [done|]. injection Hdel as <-. unfold lift in E. injection E as E.
    rewrite (law_delete L _ _ _ E), Hex, List.filter_app. cbn [List.filter].
    rewrite bool_decide_true by done. simpl. rewrite app_nil_r.
    by apply filter_fresh.
Qed.
End lifecycle.

(** ** A NAS server *)
Section example.
Definition new_id (l : list (string * NFSExport)) : string := String.concat "" (export_id <$> l) ++ "x".

Lemma concat_length s (l : list string) : s ∈ l → (String.length s <= String.length (String.concat "" l))%nat.
Proof.
  intros Hs. induction l as [|x l IH]; [by apply elem_of_nil in Hs|].
  assert (String.concat "" (x :: l) = x ++ String.concat "" l) as -> by (destruct l; [by rewrite app_str_nil|done]).
  assert (∀ a b, String.length (a ++ b) = (String.length a + String.length b)%nat) as Hl.
  { intros a b. induction a as [|ch a IHa]; [done|]. rewrite app_str_cons. simpl. by rewrite IHa. }
  rewrite Hl. apply elem_of_cons in Hs as [->|Hs]; [lia|]. specialize (IH Hs). lia.
Qed.

Lemma new_id_fresh l : new_id l ∉ (export_id <$> l).
Proof.
  intros Hin%concat_length. unfold new_id in Hin.
  assert (∀ a, String.length (a ++ "x") = S (String.length a)) as Hl.
  { intros a. induction a as [|ch a IHa]; [done|]. rewrite app_str_cons. simpl. by rewrite IHa. }
  rewrite Hl in Hin. lia.
Qed.

Record nas := mkNas { table : list (string * NFSExport); table_ids : NoDup (export_id <$> table) }.

Lemma add_ids (w : nas) p : NoDup (export_id <$> table w ++ [(StorageResource p, mkNFSExport (new_id (table w)) (Export_Name p) (Export_Path p))])%list.
Proof.
  rewrite fmap_app. apply NoDup_app. split_and!; [apply table_ids| |by apply NoDup_singleton].
  intros x Hx Hy. apply list_elem_of_singleton in Hy as ->. by apply (new_id_fresh (table w)).
Qed.

Definition other_id (id : string) (x : string * NFSExport) : bool := negb (bool_decide (export_id x = id)).

Lemma remove_ids (w : nas) id : NoDup (export_id <$> List.filter (other_id id) (table w)).
Proof.
  pose proof (table_ids w) as Hnd. induction (table w) as [|x l IH]; [constructor|]. simpl in Hnd. apply NoDup_cons in Hnd as [Hx Hl].
  cbn [List.filter]. destruct (other_id id x); [|by apply IH]. rewrite fmap_cons. apply NoDup_cons. split; [|by apply IH].
  intros (y & Hy & Hin)%list_elem_of_fmap. apply list_elem_of_In, filter_In in Hin as [Hin _]. apply Hx, list_elem_of_fmap. exists y.
  by rewrite list_elem_of_In.
Qed.

Instance nas_client : FileClient nas unit := {
  GetNASServerList _ _ _ w := (Ok ["nas"], w);
  GetNASServerByID _ _ _ w := (Ok "if", w);
  GetFileInterfaceByID _ _ _ w := (Ok "10.0.0.1", w);
  GetFileSystemList _ _ _ _ w := (Ok (0, []), w);
  GetFileSystemByID _ _ id w := (Ok (mkFileSystem id ("fs-" ++ id) 100), w);
  client_CreateFileSystem _ _ n _ _ z w := (Ok (mkFileSystem "id" n z), w);
  ModifyFileSystem _ _ id z w := (Ok (mkFileSystem id ("fs-" ++ id) z), w);
  client_DeleteFileSystem _ _ _ w := (None, w);
  GetNFSExportList _ _ n fs w := (Ok (Z.of_nat (List.length (exports_of fs n (table w))), export_id <$> exports_of fs n (table w)), w);
  GetNFSExportByID _ _ id w :=
    (match List.find (λ x, bool_decide (export_id x = id)) (table w) with
     | Some x => Ok x.2
     | None => Err (errorString "not found")
     end, w);
  client_CreateNFSExport _ _ p w :=
    (Ok (mkNFSExport (new_id (table w)) (Export_Name p) (Export_Path p)), mkNas _ (add_ids w p));
  client_DeleteNFSExport _ _ id w := (None, mkNas _ (remove_ids w id));
  FormatNow w := ("", w);
}.

Lemma nas_get w x : x ∈ table w → List.find (λ y, bool_decide (export_id y = export_id x)) (table w) = Some x.
Proof.
  intros Hx. pose proof (table_ids w) as Hnd. destruct (List.find _ (table w)) as [y|] eqn:E.
  - apply find_some in E as [Hy%list_elem_of_In Heq%bool_decide_eq_true]. f_equal. by eapply NoDup_fmap_elem_eq.
  - apply list_elem_of_In in Hx. apply (find_none _ _ E) in Hx. by apply bool_decide_eq_false in Hx.
Qed.

Definition nas_laws0 : nas_laws (W := nas) tt "s1".
Proof.
  refine {| exports := table; fs_of := λ _ id, Ok (mkFileSystem id ("fs-" ++ id) 100); nas_of := λ _ _, Ok "if";
            interface_of := λ _ _, Ok "10.0.0.1" |}; try done.
  - intros w x Hx. simpl. by rewrite (nas_get w x Hx).
  - intros w p e w' [= <- <-]. split_and!; try done. apply new_id_fresh.
  - by intros w id w' [= <-].
Defined.

Definition nas0 : nas := mkNas [] (NoDup_nil_2 (A := string)).
Definition context0 : context := {[NASServerIDParam := "nas"]}.

Lemma nfs_export_lifecycle_witness :
  match CreateNFSExport "s1" "7" context0 tt nas0 with
  | Some (Ok pc, w1) => pc !! NFSExportPathParam = Some "10.0.0.1://fs-7" ∧ List.length (table w1) = 1%nat
      ∧ CreateNFSExport "s1" "7" context0 tt w1 = Some (Ok pc, w1)
      ∧ match DeleteNFSExport "s1" "7" tt w1 with Some (None, w2) => table w2 = [] | _ => False end
  | _ => False
  end.
Proof.
  destruct (CreateNFSExport "s1" "7" context0 tt nas0) as [[[pc|e] w1]|] eqn:E; [|by vm_compute in E..].
  pose proof (nfs_export_lifecycle tt "s1" nas_laws0 nas0 "7" context0 pc w1 (mkFileSystem "7" "fs-7" 100) eq_refl E) as (Hi & _ & Hd).
  split_and!; [by injection E as <- _|by injection E as _ <-|exact Hi|].
  destruct (DeleteNFSExport "s1" "7" tt w1) as [[[e|] w2]|] eqn:E2.
  - injection E as _ <-. by vm_compute in E2.
  - by apply (Hd eq_refl w2).
  - injection E as _ <-. by vm_compute in E2.
Defined.
End example.

(** An array without file services. *)
Definition unavailable {A} (w : SimArray.Sim) : result error A * SimArray.Sim := (Err (errorString "unavailable"), w).
#[export] Instance sim_files : FileClient SimArray.Sim string := {
  GetNASServerList _ _ _ := unavailable;
  GetNASServerByID _ _ _ := unavailable;
  GetFileInterfaceByID _ _ _ := unavailable;
  GetFileSystemList _ _ _ _ := unavailable;
  GetFileSystemByID _ _ _ := unavailable;
  client_CreateFileSystem _ _ _ _ _ _ := unavailable;
  ModifyFileSystem _ _ _ _ := unavailable;
  client_DeleteFileSystem _ _ _ w := (Some (errorString "unavailable"), w);
  GetNFSExportList _ _ _ _ := unavailable;
  GetNFSExportByID _ _ _ := unavailable;
  client_CreateNFSExport _ _ _ := unavailable;
  client_DeleteNFSExport _ _ _ w := (Some (errorString "unavailable"), w);
  FormatNow w := ("now", w);
}.
End Files.
