(* ===== verification/Publish.v ===== *)
(** * Publication of volumes

    Models the controller's side of attaching a volume to a node
    (service/volume_publisher.go; publishVolume, updatePublishContext,
    GetPortIdentifier, GetVolumeByID, unpublishVolume and the body of
    ControllerUnpublishVolume of service/controller.go) and what the node reads
    from the publish context (service/node.go). The caches of the driver, ports by
    array and protocol by node, are part of the world, since requests share them;
    publication goes through the storage group service of [StorageGroups]. *)

From stdpp Require Import base gmap strings list.
From Stdlib Require Import ZArith Lia Ascii.
From S2P Require Import Prelude GoLib Pmax PowerMax VolumeID DeletionWorker Masking PortGroups Trace Handler Files StorageGroups SimArray SimMasking.

Module Publish.
Import PowerMax VolumeID Masking PortGroups Trace Files StorageGroups.
Open Scope go_scope.
Open Scope handler_scope.
Open Scope string_scope.
Open Scope Z_scope.

Definition PublishContextDeviceWWN := "DEVICE_WWN".
Definition PublishContextLUNAddress := "LUN_ADDRESS".
Definition RemotePublishContextLUNAddress := "REMOTE_LUN_ADDRESS".
Definition PortIdentifiers := "PORT_IDENTIFIERS".
Definition RemotePortIdentifiers := "REMOTE_PORT_IDENTIFIERS".
Definition PortIdentifierKeyCount := "PORT_IDENTIFIER_KEYS".
Definition RemotePortIdentifierKeyCount := "REMOTE_PORT_IDENTIFIER_KEYS".
Definition MaxPortIdentifierLength : nat := 128.
Definition MaxClusterPrefixLength : Z := 3.
Definition getMVConnectionsDelay : Z := 30 * Second.
Definition cannotBeFound := "Could not find".
Definition notFound := "not found".
Definition failedToValidateVolumeNameAndID := "Failed to validate combination of Volume Name and Volume ID".
Definition errUnknownAccessMode := "access mode cannot be UNKNOWN".
Definition NFS := "nfs".

(** pmaxCache's port identifiers, per array with the time they were first read,
    and nodeCache. *)
Class Caches (W : Type) := {
  portIdentifiers : string → W → option (gmap string string * Z);
  setPortIdentifiers : string → gmap string string * Z → W → W;
  nodeCache : W → gmap string string;
  setNodeCache : gmap string string → W → W;
}.

(** The 10.4 interface of Unisphere; a response may be missing and counts the
    failures. *)
Record MaskingViewPublishParam := mkPublishParam {
  MVP_ID : string;
  MVP_StorageGroup : string;
  MVP_ExistingVolumes : list string;
  MVP_Host : string;
  MVP_PortGroup : string;
}.
Class Client104 (W C : Type) := {
  PublishMaskingViews : C → string → list MaskingViewPublishParam → W → result error (option Z) * W;
}.

Record VolumeCapability := mkCapability { GetAccessMode : option AccessMode; GetMount : option string; GetBlock : bool }.
Definition GetFsType (vc : VolumeCapability) : string := default "" (GetMount vc).
Definition accTypeIsNFS (vcs : list VolumeCapability) : bool := existsb (λ vc, bool_decide (GetFsType vc = NFS)) vcs.
Definition accTypeIsBlock (vcs : list VolumeCapability) : bool := existsb GetBlock vcs.
Record PublishRequest := mkPublishRequest {
  req_NodeId : string;
  req_Capability : option VolumeCapability;
  req_VolumeContext : context;
}.

(** ** Identifying a volume *)
Definition HasSuffix (s p : string) : bool :=
  (slen p <=? slen s) && bool_decide (sdrop (String.length s - String.length p) s = p).
Definition TrimSuffix (s p : string) : string :=
  if HasSuffix s p then stake (String.length s - String.length p) s else s.

Definition volumeIdentifiersMatch (expected actual : string) : bool :=
  if bool_decide (expected = "" ∨ actual = expected) then negb (bool_decide (expected = ""))
  else
    let suffix := "-" ++ expected in
    if negb (HasSuffix actual suffix) then false
    else slen (TrimSuffix actual suffix) <=? MaxClusterPrefixLength.

Definition deletionMarkedVolumeMatches (expected actual : string) : bool :=
  if negb (HasPrefix actual DeletionWorker.DeletionPrefix) then false
  else volumeIdentifiersMatch expected (TrimPrefix actual DeletionWorker.DeletionPrefix).

Section calls.
Context {W C : Type} `{Pmax W C} `{MaskingClient W C} `{Caches W}.
Variable svc : service.
Variable storagePoolCacheDuration : Z.

Definition get {A} (f : W → A) : M W A := λ w, Some (f w, w).
Definition modify (f : W → W) : M W unit := λ w, Some (tt, f w).

Definition service_GetVolumeByID (volID : string) (c : C) : M W (result error (string * string * Volume)) :=
  match parseCsiID volID with
  | None => panic
  | Some (Err e) => fail (statusError InvalidArgument ("volID: " ++ volID ++ " malformed. Error: " ++ Error e))
  | Some (Ok id) =>
      let symID := arrayID id in
      let devID := VolumeID.devID id in
      let where_ := "(Array: " ++ symID ++ ", Volume: " ++ devID ++ ")status " in
      let? vol := lift (GetVolumeByID c symID devID)
        orelse (λ e, if Contains (Error e) cannotBeFound then statusError NotFound ("Volume not found " ++ where_ ++ Error e)
                     else statusError Internal ("failure checking volume " ++ where_ ++ Error e)) in
      if negb (volumeIdentifiersMatch (volName id) (VolumeIdentifier vol)) then
        fail (statusError FailedPrecondition failedToValidateVolumeNameAndID)
      else ok (symID, devID, vol)
  end.

(** ** Port identifiers *)
(** The port of [dirPortKey], read from the array and put into the cache. *)
Definition fetch_port (symID dirPortKey : string) (cacheExpired : bool) (c : C) : M W (result error string) :=
  let dirPortDetails := Split ":"%char dirPortKey in
  let* dirID := index dirPortDetails 0 in
  let* portNumber := index dirPortDetails 1 in
  let? identifier := lift (GetPort c symID dirID portNumber) in
  let portIdentifier :=
    (if negb (Contains identifier "iqn") && negb (Contains identifier "nqn") then "0x" else "") ++ identifier in
  let* cache := get (portIdentifiers symID) in
  match cache with
  | Some (dirPortKeys, stamp) =>
      if cacheExpired then
        let* now := lift (Now (C := C)) in
        let* _ := modify (setPortIdentifiers symID ({[dirPortKey := portIdentifier]}, now)) in ok portIdentifier
      else let* _ := modify (setPortIdentifiers symID (<[dirPortKey := portIdentifier]> dirPortKeys, stamp)) in ok portIdentifier
  | None =>
      let* now := lift (Now (C := C)) in
      let* _ := modify (setPortIdentifiers symID ({[dirPortKey := portIdentifier]}, now)) in ok portIdentifier
  end.

Definition GetPortIdentifier (symID dirPortKey : string) (c : C) : M W (result error string) :=
  let* cache := get (portIdentifiers symID) in
  match cache with
  | Some (dirPortKeys, portTimeStamp) =>
      let* now := lift (Now (C := C)) in
      if timeSub now portTimeStamp <? storagePoolCacheDuration then
        match dirPortKeys !! dirPortKey with
        | Some portIdentifier => ok portIdentifier
        | None => fetch_port symID dirPortKey false c
        end
      else fetch_port symID dirPortKey true c
  | None => fetch_port symID dirPortKey false c
  end.

(** ** The publish context *)
(** The masking view's connections, read at most [n] times; an inner error is
    the last one, an outer one ends the request. *)
Fixpoint get_connections (n : nat) (retry : bool) (symID tgtMaskingViewID deviceID reqID : string) (c : C) (last : error)
    : M W (result error (result error (list MaskingViewConnection))) :=
  match n with
  | O => ok (Err last)
  | S n =>
      let* _ := if retry then lift (Sleep (C := C) getMVConnectionsDelay) else ret tt in
      let key := getMVLockKey symID tgtMaskingViewID in
      let? lockNum := lift (RequestLock key reqID)
        orelse (λ e, statusError Internal ("failed to acquire lock: " ++ Error e)) in
      let* r := lift (GetMaskingViewConnections c symID tgtMaskingViewID deviceID) in
      let* _ := lift (ReleaseLock key reqID lockNum) in
      match r with
      | Ok connections => ok (Ok connections)
      | Err e => get_connections n true symID tgtMaskingViewID deviceID reqID c e
      end
  end.

Definition of_device (deviceID : string) (conn : MaskingViewConnection) : bool := bool_decide (deviceID = Conn_VolumeID conn).

(** The LUN address and the director ports of a device's connections. *)
Fixpoint scan_connections (deviceID : string) (connections : list MaskingViewConnection) (lunid : string) (dirPorts : list string)
    : result error (string * list string) :=
  match connections with
  | [] => Ok (lunid, dirPorts)
  | conn :: connections =>
      if negb (of_device deviceID conn) then scan_connections deviceID connections lunid dirPorts
      else if decide (lunid = "") then
        scan_connections deviceID connections (HostLUNAddress conn) (appendIfMissing dirPorts (DirectorPort conn))
      else if decide (lunid ≠ HostLUNAddress conn) then
        if IsVsphereEnabled svc then scan_connections deviceID connections lunid (appendIfMissing dirPorts (DirectorPort conn))
        else Err (statusError Internal "PublishContext: MV Connection has multiple HostLUNAddress values")
      else scan_connections deviceID connections lunid (appendIfMissing dirPorts (DirectorPort conn))
  end.

(** vSphere has no connections yet: the ports come from the port group. *)
Definition vsphere_ports (symID tgtMaskingViewID : string) (dirPorts : list string) (c : C) : M W (result error (string * list string)) :=
  let? mv := lift (GetMaskingViewByID c symID tgtMaskingViewID)
    orelse (λ e, statusError Internal ("PublishContext: Failed to get masking view " ++ tgtMaskingViewID ++ ": " ++ Error e)) in
  let? pg := lift (GetPortGroupByID c symID (MV_PortGroupID mv))
    orelse (λ e, statusError Internal ("PublishContext: Failed to get port group " ++ MV_PortGroupID mv ++ ": " ++ Error e)) in
  let dirPorts := fold_left (λ ports k, appendIfMissing ports (port_text k)) (SymmetrixPortKey pg) dirPorts in
  match dirPorts with
  | [] => fail (statusError Internal ("PublishContext: Port group " ++ MV_PortGroupID mv ++ " has no ports configured"))
  | _ => ok ("0000", dirPorts)
  end.

Fixpoint port_identifiers (symID : string) (dirPorts : list string) (acc : string) (c : C) : M W string :=
  match dirPorts with
  | [] => ret acc
  | dirPortKey :: dirPorts =>
      let* r := GetPortIdentifier symID dirPortKey c in
      match r with
      | Ok portIdentifier => port_identifiers symID dirPorts (acc ++ portIdentifier ++ ",") c
      | Err _ => port_identifiers symID dirPorts acc c
      end
  end.
End calls.

(** portIdentifiers[start:end] of the [i]-th key, from 1. *)
Definition chunk (s : string) (i : nat) : string := stake MaxPortIdentifierLength (sdrop ((i - 1) * MaxPortIdentifierLength) s).
Definition keyCount (s : string) : nat := String.length s / MaxPortIdentifierLength + 1.
Definition chunk_key (prefix : string) (i : nat) : string := prefix ++ "_" ++ Itoa (Z.of_nat i).
Definition put_chunks (prefix s : string) (publishContext : context) : context :=
  fold_left (λ ctx i, <[chunk_key prefix i := chunk s i]> ctx) (seq 1 (keyCount s)) publishContext.

Definition put_context (isLocal : bool) (lunid identifiers : string) (publishContext : context) : context :=
  let count := Itoa (Z.of_nat (keyCount identifiers)) in
  if isLocal then
    <[PublishContextLUNAddress := lunid]> (<[PortIdentifierKeyCount := count]> (put_chunks PortIdentifiers identifiers publishContext))
  else
    <[RemotePublishContextLUNAddress := lunid]>
      (<[RemotePortIdentifierKeyCount := count]> (put_chunks RemotePortIdentifiers identifiers publishContext)).

(** The identifiers as NodeStageVolume and NodePublishVolume read them. *)
Definition target_identifiers (countKey prefix : string) (publishContext : context) : string :=
  match publishContext !! countKey with
  | Some count =>
      fold_left (λ acc i, acc ++ value_of (chunk_key prefix i) publishContext) (seq 1 (Z.to_nat (Atoi_value count))) ""
  | None => value_of prefix publishContext
  end.

Section publication.
Context {W C : Type} `{Pmax W C} `{MaskingClient W C} `{Caches W} `{FileClient W C} `{Client104 W C}.
Variable GetPowerMaxClient : string → M W (result error C).
Variable svc : service.
Variable storagePoolCacheDuration : Z.
(** The requests of others in the queues of a storage group, by its key, when this
    request joins them, and the response channel of this request. *)
Variable queuedAdds : string → list addVolumeToSGMVRequest.
Variable queuedRemovals : string → list removeVolumeFromSGMVRequest.
Variable chan : Z.

(** The [PublishContext] of the response. *)
Definition updatePublishContext (publishContext : context) (symID tgtMaskingViewID deviceID reqID : string)
    (connections : list MaskingViewConnection) (c : C) (isLocal : bool) : M W (result error context) :=
  let count := Z.of_nat (List.length (List.filter (of_device deviceID) connections)) in
  let* _ := match connections with
            | [] => ret tt
            | _ => if 2 <=? count then ret tt else lift (Sleep (C := C) getMVConnectionsDelay)
            end in
  let? fetched := if bool_decide (connections ≠ []) && (2 <=? count) then ok (Ok connections)
                  else get_connections 2 false symID tgtMaskingViewID deviceID reqID c (errorString "no connections") in
  match fetched with
  | Err _ => fail (statusError Internal ("PublishContext: Could not get MV Connections: " ++ tgtMaskingViewID))
  | Ok connections =>
      match scan_connections svc deviceID connections "" [] with
      | Err e => fail e
      | Ok (lunid, dirPorts) =>
          let? address := if decide (lunid = "") then
                            if IsVsphereEnabled svc then vsphere_ports symID tgtMaskingViewID dirPorts c
                            else fail (statusError Internal "PublishContext: No matching connections for deviceID")
                          else ok (lunid, dirPorts) in
          let '(lunid, dirPorts) := address in
          let* identifiers := port_identifiers storagePoolCacheDuration symID dirPorts "" c in
          if decide (identifiers = "") then
            fail (statusError Internal
              ("PublishContext: Failed to fetch port details for any director ports which are part of masking view: " ++ tgtMaskingViewID))
          else ok (put_context isLocal lunid identifiers publishContext)
      end
  end.

(** The client serves the queue until its own request is answered; a request that
    never is has no result. *)
Fixpoint wait_for {R S} (run : list R → M W (list R * list (Z * S))) (fuel : nat) (queue : list R) : M W S :=
  match fuel with
  | O => panic
  | S fuel =>
      let* r := run queue in
      let '(rest, out) := r in
      match List.find (λ x, bool_decide (x.1 = chan)) out with
      | Some (_, response) => ret response
      | None => wait_for run fuel rest
      end
  end.
Definition wait_add : nat → list addVolumeToSGMVRequest → M W addVolumeToSGMVResponse :=
  wait_for (runAddVolumesToSGMV GetPowerMaxClient svc).
Definition wait_remove : nat → list removeVolumeFromSGMVRequest → M W (option error) :=
  wait_for (runRemoveVolumesFromSGMV GetPowerMaxClient svc).

Definition publishVolume (publishContext : context) (tgtStorageGroupID hostID clientSymID symID tgtMaskingViewID deviceID reqID : string)
    (am : AccessMode) (c : C) (isLocal : bool) : M W (result error context) :=
  let req := mkAdd tgtStorageGroupID tgtMaskingViewID hostID reqID symID clientSymID deviceID am chan in
  let queue := (queuedAdds (getKey symID tgtStorageGroupID) ++ [req])%list in
  let* response := wait_add (List.length queue) queue in
  match err response with
  | Some e => fail e
  | None => updatePublishContext publishContext symID tgtMaskingViewID deviceID reqID (connections response) c isLocal
  end.

(** ** The host of a node *)
(** The protocol told by the host of the node cache: iSCSI, NVMe over TCP. *)
Definition protocol_of_host (hostID : string) : bool * bool :=
  if Contains hostID "-NVMETCP" then (false, true) else (negb (Contains hostID "-FC"), false).

(** Host, storage group and masking view of a node. *)
Definition target_names (nodeID adoptedID : string) (isISCSI isNVMETCP : bool) : names :=
  let '(hostID, sg, mv) :=
    if isNVMETCP then GetNVMETCPHostSGAndMVIDFromNodeID svc nodeID else GetHostSGAndMVIDFromNodeID svc nodeID isISCSI in
  (if decide (adoptedID ≠ "") then adoptedID else hostID, sg, mv).

(** nodeCache.LoadOrStore *)
Definition remember_host (nodeInCache : bool) (cacheID hostID : string) : M W unit :=
  if nodeInCache then ret tt
  else
    let* cache := get nodeCache in
    match cache !! cacheID with
    | Some _ => ret tt
    | None => modify (setNodeCache (<[cacheID := hostID]> cache))
    end.

(** Whether the cache knew the node, iSCSI, NVMe over TCP. *)
Definition detect_protocol (detect : M W (result error (bool * bool))) (cacheID adoptedID : string)
    : M W (result error (bool * bool * bool)) :=
  if decide (adoptedID ≠ "") then ok (false, false, false)
  else
    let* cache := get nodeCache in
    match cache !! cacheID with
    | Some hostID => let '(isISCSI, isNVMETCP) := protocol_of_host hostID in ok (true, isISCSI, isNVMETCP)
    | None => let? p := detect in ok (false, p.1, p.2)
    end.

(** The protocol as the hosts and masking views on one array tell it. *)
Definition protocol_on_array (symID nodeID adoptedID : string) (c : C) : M W (result error (bool * bool)) :=
  let? isNVMETCP := IsNodeNVMe svc symID nodeID c (Some adoptedID) in
  if (isNVMETCP : bool) then ok (false, true)
  else let? isISCSI := IsNodeISCSI svc symID nodeID c (Some adoptedID) in ok (isISCSI, false).

Definition not_found (e : error) : error := statusError NotFound (Error e).

(** The checks of a request, with the node and the access mode. *)
Definition check_request (req : PublishRequest) : result error (string * VolumeCapability * AccessMode) :=
  if decide (req_NodeId req = "") then Err (statusError InvalidArgument "node ID is required")
  else
    match req_Capability req with
    | None => Err (statusError InvalidArgument "volume capability is required")
    | Some vc =>
        match GetAccessMode vc with
        | None => Err (statusError InvalidArgument "access mode is required")
        | Some am =>
            if decide (am = UNKNOWN) then Err (statusError InvalidArgument errUnknownAccessMode)
            else Ok (req_NodeId req, vc, am)
        end
    end.

Definition no_wwn (volID : string) : error :=
  statusError Internal ("PublishVolume: Volume " ++ volID
    ++ " has no effective WWN, Unisphere may not be synchronized with array or synchronization may be in progress").

(** ** Publication with Unisphere 10.4 *)
Definition buildPublishMaskingViewsParam (tgtMaskingViewID tgtStorageGroupID devID hostID portGroupID : string)
    : list MaskingViewPublishParam := [mkPublishParam tgtMaskingViewID tgtStorageGroupID [devID] hostID portGroupID].

(** The port group of the existing masking view, or one for a new view. *)
Definition port_group_104 (symID hostID tgtStorageGroupID tgtMaskingViewID : string) (c : C) : M W (result error string) :=
  let* existing := lift (GetMaskingViewByID c symID tgtMaskingViewID) in
  match existing with
  | Ok mv =>
      if negb (EqualFold (MV_HostID mv) hostID || EqualFold (MV_HostGroupID mv) hostID)
         || negb (EqualFold (MV_StorageGroupID mv) tgtStorageGroupID) then
        fail (statusError Internal ("10.4 ControllerPublishVolume: Existing masking view " ++ tgtMaskingViewID
          ++ " with conflicting SG " ++ tgtStorageGroupID ++ " or Host " ++ hostID))
      else ok (MV_PortGroupID mv)
  | Err _ =>
      let? host := lift (GetHostByID c symID hostID)
        orelse (λ e, statusError NotFound ("Failed to fetch host details for " ++ hostID ++ " on " ++ symID ++ ": " ++ Error e)) in
      let? portGroupID := SelectOrCreatePortGroup svc symID host c
        orelse (λ e, statusError Internal ("Failed to select/create port group for host " ++ hostID ++ " on " ++ symID ++ ": " ++ Error e)) in
      ok portGroupID
  end.

Definition u4p104_Publish (volID reqID : string) (legacyClient client104 : C) (req : PublishRequest) : M W (result error context) :=
  match check_request req with
  | Err e => fail e
  | Ok (nodeID, _, _) =>
      let? found := service_GetVolumeByID volID legacyClient in
      let '(symID, devID, vol) := found in
      let cacheID := symID ++ ":" ++ nodeID in
      let? adoptedID := getAdoptedHostIDFromNodeLabels svc symID nodeID orelse (λ e, statusError Internal (Error e)) in
      let? protocol := detect_protocol (protocol_on_array symID nodeID adoptedID legacyClient) cacheID adoptedID orelse not_found in
      let '(nodeInCache, isISCSI, isNVMETCP) := protocol in
      let '(hostID, tgtStorageGroupID, tgtMaskingViewID) := target_names nodeID adoptedID isISCSI isNVMETCP in
      let* _ := remember_host nodeInCache cacheID hostID in
      let? portGroupID := port_group_104 symID hostID tgtStorageGroupID tgtMaskingViewID legacyClient in
      if decide (EffectiveWWN vol = "") then fail (no_wwn volID)
      else
        let publishContext : context := {[PublishContextDeviceWWN := EffectiveWWN vol]} in
        let publishParam := buildPublishMaskingViewsParam tgtMaskingViewID tgtStorageGroupID devID hostID portGroupID in
        let? published := lift (PublishMaskingViews client104 symID publishParam)
          orelse (λ e, statusError Internal ("10.4 PublishMaskingViews failed: " ++ Error e)) in
        if 0 <? default 0 published then
          fail (statusError Internal ("10.4 PublishMaskingViews failed for masking view " ++ tgtMaskingViewID))
        else
          let key := getMVLockKey symID tgtMaskingViewID in
          let? lockNum := lift (RequestLock key reqID) orelse (λ e, statusError Internal ("failed to acquire lock: " ++ Error e)) in
          let* r := lift (GetMaskingViewConnections legacyClient symID tgtMaskingViewID devID) in
          let* _ := lift (ReleaseLock key reqID lockNum) in
          let connections := match r with Ok l => l | Err _ => [] end in
          updatePublishContext publishContext symID tgtMaskingViewID devID reqID connections legacyClient true
  end.

(** ** Publication before 10.4 *)
(** The volume, from the remote array when the local one does not have it; whether
    the local one is missing. *)
Definition find_volume (volID symID devID remoteSymID remoteVolumeID : string) (c : C)
    : M W (result error (string * string * Volume * bool)) :=
  let* r := service_GetVolumeByID volID c in
  match r with
  | Ok (symID, devID, vol) => ok (symID, devID, vol, false)
  | Err e =>
      match e with
      | statusError (NotFound | FailedPrecondition) _ =>
          if bool_decide (remoteSymID ≠ "") && bool_decide (remoteVolumeID ≠ "") then
            let? remoteVol := lift (GetVolumeByID c remoteSymID remoteVolumeID) orelse (λ _, e) in
            ok (symID, devID, remoteVol, true)
          else fail e
      | _ => fail e
      end
  end.

(** For a Metro volume the node's host may exist only on the remote array. *)
Definition protocol_on_pair (symID remoteSymID nodeID adoptedID : string) (c : C) : M W (result error (bool * bool)) :=
  let* local := protocol_on_array symID nodeID adoptedID c in
  match local with
  | Ok p => ok p
  | Err e =>
      if decide (remoteSymID ≠ "") then
        let* remoteAdoptedID := adoptedHostIDOrEmpty svc remoteSymID nodeID in
        protocol_on_array remoteSymID nodeID remoteAdoptedID c
      else fail e
  end.

(** The remote half; [publishContext] holds what the local half put into it. *)
Definition publish_remote (publishContext : context) (vol : Volume) (localVolumeMissing skipLocalPublish : bool)
    (nodeID hostID tgtStorageGroupID tgtMaskingViewID symID devID remoteSymID remoteVolumeID reqID : string) (am : AccessMode) (c : C)
    : M W (result error context) :=
  let* skip := shouldSkipRemotePublish c remoteSymID hostID in
  if (skip : bool) then
    if skipLocalPublish then
      fail (statusError NotFound ("node " ++ nodeID ++ " has no host registered on either array " ++ symID ++ " or " ++ remoteSymID
        ++ "; cannot publish volume " ++ devID))
    else ok publishContext
  else
    let? remoteVol := lift (GetVolumeByID c remoteSymID remoteVolumeID)
      orelse (λ e, statusError Internal ("PublishVolume: Could not retrieve remote volume: (" ++ Error e ++ ")")) in
    if negb localVolumeMissing && bool_decide (EffectiveWWN remoteVol ≠ EffectiveWWN vol) then
      let* e := lift (RefreshSymmetrix c symID) in
      match e with
      | Some e =>
          if negb (Contains (Error e) "Too Many Requests") then
            fail (statusError Internal ("PublishVolume: Could not refresh symmetrix: (" ++ Error e ++ ")"))
          else fail (statusError Internal "symmetrix sync in progress, waiting for cache to update")
      | None => fail (statusError Internal
          "PublishVolume: Could not publish remote volume: (remote volume does not have effective wwn, waiting for it to SYNC)")
      end
    else
      publishVolume (<[PublishContextDeviceWWN := EffectiveWWN remoteVol]> publishContext) tgtStorageGroupID hostID symID remoteSymID
        tgtMaskingViewID remoteVolumeID reqID am c skipLocalPublish.

(** The response may be nil without an error: [Ok None]. *)
Definition some_context (m : M W (result error context)) : M W (result error (option context)) := let? ctx := m in ok (Some ctx).

(** The publication on the local array, where the node has a host there, and on the
    remote one. *)
Definition publish_halves (volID nodeID symID devID remoteSymID remoteVolumeID reqID : string) (vol : Volume) (localVolumeMissing : bool)
    (hostID tgtStorageGroupID tgtMaskingViewID : string) (am : AccessMode) (c : C) : M W (result error (option context)) :=
  if decide (EffectiveWWN vol = "") then fail (no_wwn volID)
  else
    let publishContext : context := {[PublishContextDeviceWWN := EffectiveWWN vol]} in
    let* skipLocalPublish :=
      if localVolumeMissing then ret true
      else if decide (remoteSymID ≠ "") then shouldSkipRemotePublish c symID hostID else ret false in
    let? publishContext :=
      if (skipLocalPublish : bool) then ok publishContext
      else publishVolume publishContext tgtStorageGroupID hostID symID symID tgtMaskingViewID devID reqID am c true in
    if bool_decide (remoteSymID ≠ "") && bool_decide (remoteVolumeID ≠ "") then
      some_context (publish_remote publishContext vol localVolumeMissing skipLocalPublish nodeID hostID tgtStorageGroupID
        tgtMaskingViewID symID devID remoteSymID remoteVolumeID reqID am c)
    else ok (if skipLocalPublish then None else Some publishContext).

Definition legacy_Publish (volID symID0 devID0 remoteSymID remoteVolumeID reqID : string) (c : C) (req : PublishRequest)
    : M W (result error (option context)) :=
  match check_request req with
  | Err e => fail e
  | Ok (nodeID, vc, am) =>
      if accTypeIsNFS [vc] then some_context (CreateNFSExport symID0 devID0 (req_VolumeContext req) c)
      else
        let* isFileSystem := if decide (GetFsType vc = "") then is_ok_call (GetFileSystemByID c symID0 devID0) else ret false in
        if (isFileSystem : bool) then fail (statusError Unavailable "static provisioning on a file system is not supported.")
        else
          let? found := find_volume volID symID0 devID0 remoteSymID remoteVolumeID c in
          let '(symID, devID, vol, localVolumeMissing) := found in
          let cacheID := symID ++ ":" ++ nodeID in
          let? adoptedID := getAdoptedHostIDFromNodeLabels svc symID nodeID orelse (λ e, statusError Internal (Error e)) in
          let? protocol := detect_protocol (protocol_on_pair symID remoteSymID nodeID adoptedID c) cacheID adoptedID orelse not_found in
          let '(nodeInCache, isISCSI, isNVMETCP) := protocol in
          let '(hostID, tgtStorageGroupID, tgtMaskingViewID) := target_names nodeID adoptedID isISCSI isNVMETCP in
          let* _ := remember_host nodeInCache cacheID hostID in
          publish_halves volID nodeID symID devID remoteSymID remoteVolumeID reqID vol localVolumeMissing hostID tgtStorageGroupID
            tgtMaskingViewID am c
  end.

(** Which of the two publishes. *)
Definition publishVolumeSelectionProfile (isFile : bool) (remoteSymID : string) : backendSelectionProfile :=
  mkProfile isFile false (negb (bool_decide (remoteSymID = ""))) "" false.
Definition publisherFor (symID devID remoteSymID version : string) (vc : option VolumeCapability) (c : C) : M W backendPath :=
  let isFile := match vc with Some vc => accTypeIsNFS [vc] | None => false end in
  match selectBackendPath (publishVolumeSelectionProfile isFile remoteSymID) version with
  | backendLegacy => ret backendLegacy
  | backendU4P104 =>
      if IsVsphereEnabled svc then ret backendLegacy
      else
        match vc with
        | Some vc =>
            if decide (GetFsType vc = "") then
              let* isFileSystem := is_ok_call (GetFileSystemByID c symID devID) in
              ret (if (isFileSystem : bool) then backendLegacy else backendU4P104)
            else ret backendU4P104
        | None => ret backendU4P104
        end
  end.

(** ** Taking a volume away from a node *)
(** Storage group and masking view of the node that the volume is in. *)
Fixpoint unpublish_target (fc iscsi nvme : names) (sgIDs : list string) : option (string * string) :=
  match sgIDs with
  | [] => None
  | sgID :: sgIDs =>
      if decide (sgID = fc.1.2) then Some (fc.1.2, fc.2)
      else if decide (sgID = iscsi.1.2) then Some (iscsi.1.2, iscsi.2)
      else if decide (sgID = nvme.1.2) then Some (nvme.1.2, nvme.2)
      else unpublish_target fc iscsi nvme sgIDs
  end.

Definition node_target (nodeID : string) (sgIDs : list string) : option (string * string) :=
  let fc := if IsVsphereEnabled svc then GetVSphereFCHostSGAndMVIDFromNodeID svc else GetFCHostSGAndMVIDFromNodeID svc nodeID in
  unpublish_target fc (GetISCSIHostSGAndMVIDFromNodeID svc nodeID) (GetNVMETCPHostSGAndMVIDFromNodeID svc nodeID) sgIDs.

Definition unpublishVolume (reqID : string) (vol : Volume) (nodeID clientSymID symID devID : string) : M W (option error) :=
  match node_target nodeID (StorageGroupIDList vol) with
  | None => ret None
  | Some (tgtStorageGroupID, tgtMaskingViewID) =>
      let req := mkRemove tgtStorageGroupID tgtMaskingViewID reqID symID clientSymID devID chan in
      let queue := (queuedRemovals (getKey symID tgtStorageGroupID) ++ [req])%list in
      wait_remove (List.length queue) queue
  end.

Definition already_gone (e : error) : bool := Contains (Error e) notFound || Contains (Error e) failedToValidateVolumeNameAndID.

(** ControllerUnpublishVolume once the request is checked and the client known. *)
Definition unpublish (volID nodeID reqID symID0 devID0 remoteSymID remoteVolID : string) (c : C) : M W (option error) :=
  let* r := lift (GetVolumeByID c symID0 devID0) in
  match r with
  | Err _ => DeleteNFSExport symID0 devID0 c
  | Ok _ =>
      let* r := service_GetVolumeByID volID c in
      match r with
      | Err e => if already_gone e then ret None else ret (Some e)
      | Ok (symID, devID, vol) =>
          let* hasHost := if decide (remoteSymID ≠ "") then nodeHasHostOnArray svc c symID nodeID else ret true in
          let* e := if (hasHost : bool) then unpublishVolume reqID vol nodeID symID symID devID else ret None in
          match e with
          | Some e => ret (Some e)
          | None =>
              if decide (remoteSymID = "") then ret None
              else
                let* hasHost := nodeHasHostOnArray svc c remoteSymID nodeID in
                if negb hasHost then ret None
                else
                  let* r := lift (GetVolumeByID c remoteSymID remoteVolID) in
                  match r with
                  | Err e => if already_gone e then ret None else ret (Some e)
                  | Ok remVol => unpublishVolume reqID remVol nodeID remoteSymID remoteSymID (Pmax.VolumeID remVol)
                  end
          end
      end
  end.
End publication.

(** ** The context survives the way to the node *)
Lemma stake_add a b s : stake (a + b) s = stake a s ++ stake b (sdrop a s).
Proof. revert s. induction a as [|a IH]; intros s; [done|]. destruct s as [|ch s]; [by destruct b|]. simpl. by rewrite IH. Qed.

Lemma stake_all n s : (String.length s <= n)%nat → stake n s = s.
Proof. revert s. induction n as [|n IH]; intros [|ch s] Hl; simpl in *; try done; [lia|]. rewrite IH by lia. done. Qed.

Lemma chunks_concat s n : fold_left (λ acc i, acc ++ chunk s i) (seq 1 n) "" = stake (n * MaxPortIdentifierLength) s.
Proof.
  induction n as [|n IH]; [by destruct s|]. rewrite seq_S, fold_left_app, IH. cbn [fold_left].
  unfold chunk. replace (1 + n - 1)%nat with n by lia.
  replace (S n * MaxPortIdentifierLength)%nat with (n * MaxPortIdentifierLength + MaxPortIdentifierLength)%nat by lia.
  by rewrite stake_add.
Qed.

Lemma keyCount_covers s : (String.length s <= keyCount s * MaxPortIdentifierLength)%nat.
Proof.
  unfold keyCount, MaxPortIdentifierLength. pose proof (Nat.div_mod_eq (String.length s) 128).
  pose proof (Nat.mod_upper_bound (String.length s) 128 ltac:(lia)). lia.
Qed.

Lemma app_str_cancel p a b : p ++ a = p ++ b → a = b.
Proof. induction p as [|ch p IH]; [done|]. rewrite !app_str_cons. intros [= Heq]. by apply IH. Qed.

Lemma chunk_key_inj prefix i j : Z.of_nat i < 2 ^ 63 → Z.of_nat j < 2 ^ 63 → chunk_key prefix i = chunk_key prefix j → i = j.
Proof.
  intros Hi Hj Heq%app_str_cancel%(app_str_cancel "_").
  pose proof (Itoa_Atoi (Z.of_nat i) ltac:(lia)) as Ei. pose proof (Itoa_Atoi (Z.of_nat j) ltac:(lia)) as Ej.
  rewrite Heq, Ej in Ei. injection Ei as Ei. lia.
Qed.

(** Insertions under the keys [f i]. *)
Lemma insert_all_other {A} (f : A → string) (g : A → string) l (m : context) k :
  (∀ i, i ∈ l → f i ≠ k) → fold_left (λ m i, <[f i := g i]> m) l m !! k = m !! k.
Proof.
  revert m. induction l as [|i l IH]; intros m Hl; [done|]. cbn [fold_left]. rewrite IH by set_solver.
  apply lookup_insert_ne. set_solver.
Qed.

Lemma insert_all_lookup `{EqDecision A} (f : A → string) (g : A → string) l (m : context) i :
  (∀ j, j ∈ l → f j = f i → j = i) → i ∈ l → fold_left (λ m i, <[f i := g i]> m) l m !! f i = Some (g i).
Proof.
  revert m. induction l as [|j l IH]; intros m Hinj Hi; [by apply elem_of_nil in Hi|]. cbn [fold_left].
  destruct (decide (i ∈ l)) as [Hl|Hl]; [apply IH; set_solver|].
  apply elem_of_cons in Hi as [<-|Hi]; [|done]. rewrite insert_all_other; [by apply lookup_insert_eq|].
  intros j Hj Heq. apply Hl. rewrite <- (Hinj j); [done|set_solver|done].
Qed.

Lemma put_chunks_read prefix s ctx i :
  slen s < 2 ^ 63 → (1 <= i <= keyCount s)%nat → value_of (chunk_key prefix i) (put_chunks prefix s ctx) = chunk s i.
Proof.
  intros Hs Hi. unfold value_of, put_chunks.
  assert (Z.of_nat (keyCount s) < 2 ^ 63) as Hk.
  { unfold keyCount, slen, MaxPortIdentifierLength in *. pose proof (Nat.div_mod_eq (String.length s) 128). lia. }
  rewrite insert_all_lookup; [done| |apply elem_of_seq; lia].
  intros j Hj%elem_of_seq Heq. eapply chunk_key_inj; [| |exact Heq]; lia.
Qed.

Lemma fold_left_ext_in {A B} (f g : A → B → A) l a : (∀ x acc, x ∈ l → f acc x = g acc x) → fold_left f l a = fold_left g l a.
Proof.
  revert a. induction l as [|x l IH]; intros a Hl; [done|]. cbn [fold_left]. rewrite Hl by left. apply IH.
  intros y acc Hy. apply Hl. by right.
Qed.

(** Reading the chunks gives back the whole, provided the keys written later are
    others. *)
Lemma target_identifiers_read countKey prefix s (ctx ctx0 : context) :
  slen s < 2 ^ 63 → ctx !! countKey = Some (Itoa (Z.of_nat (keyCount s))) →
  (∀ i, ctx !! chunk_key prefix i = put_chunks prefix s ctx0 !! chunk_key prefix i) →
  target_identifiers countKey prefix ctx = s.
Proof.
  intros Hs Hc Hchunks. unfold target_identifiers. rewrite Hc.
  assert (Z.of_nat (keyCount s) < 2 ^ 63) as Hk.
  { unfold keyCount, slen, MaxPortIdentifierLength in *. pose proof (Nat.div_mod_eq (String.length s) 128). lia. }
  unfold Atoi_value. rewrite Itoa_Atoi by lia. rewrite Nat2Z.id.
  rewrite (fold_left_ext_in _ (λ acc i, acc ++ chunk s i)).
  - rewrite chunks_concat. apply stake_all, keyCount_covers.
  - intros i acc Hi%elem_of_seq. f_equal. rewrite <- (put_chunks_read prefix s ctx0 i) by (try done; lia).
    unfold value_of. by rewrite Hchunks.
Qed.

Lemma chunk_key_ne prefix i k : HasPrefix k (prefix ++ "_") = false → chunk_key prefix i ≠ k.
Proof. intros Hk <-. unfold chunk_key in Hk. by rewrite <- app_str_assoc, HasPrefix_app in Hk. Qed.

Lemma put_chunks_other prefix s ctx k : HasPrefix k (prefix ++ "_") = false → put_chunks prefix s ctx !! k = ctx !! k.
Proof. intros Hk. apply insert_all_other. intros i _. by apply chunk_key_ne. Qed.

Lemma put_context_other (isLocal : bool) lun ids ctx k :
  HasPrefix k ((if isLocal then PortIdentifiers else RemotePortIdentifiers) ++ "_") = false →
  k ≠ (if isLocal then PublishContextLUNAddress else RemotePublishContextLUNAddress) →
  k ≠ (if isLocal then PortIdentifierKeyCount else RemotePortIdentifierKeyCount) →
  put_context isLocal lun ids ctx !! k = ctx !! k.
Proof. intros Hk H1 H2. destruct isLocal; unfold put_context; rewrite !lookup_insert_ne by done; by apply put_chunks_other. Qed.

(** C18: What the controller puts into the publish context reaches the node intact,
    however long the port identifiers are: after the local and the remote half of a
    Metro volume are published the node reads the port identifiers and the LUN address
    of both, and the device's WWN. *)
Theorem publish_context_roundtrip lun ids remoteLun remoteIds (ctx : context) :
  slen ids < 2 ^ 63 → slen remoteIds < 2 ^ 63 →
  let local := put_context true lun ids ctx in
  let both := put_context false remoteLun remoteIds local in
  (∀ m : context, m ∈ [local; both] →
     target_identifiers PortIdentifierKeyCount PortIdentifiers m = ids
     ∧ value_of PublishContextLUNAddress m = lun
     ∧ value_of PublishContextDeviceWWN m = value_of PublishContextDeviceWWN ctx)
  ∧ target_identifiers RemotePortIdentifierKeyCount RemotePortIdentifiers both = remoteIds
  ∧ value_of RemotePublishContextLUNAddress both = remoteLun.
Proof.
  intros Hs Hr local both.
  assert (∀ k, HasPrefix k "REMOTE_" = false → both !! k = local !! k) as Hkeep.
  { intros k Hk. apply put_context_other; [|by intros ->..]. destruct (HasPrefix k (RemotePortIdentifiers ++ "_")) eqn:E; [|done].
    apply HasPrefix_spec in E as [r ->]. done. }
  assert (target_identifiers PortIdentifierKeyCount PortIdentifiers local = ids
     ∧ value_of PublishContextLUNAddress local = lun
     ∧ value_of PublishContextDeviceWWN local = value_of PublishContextDeviceWWN ctx) as Hlocal.
  { split_and!.
    - eapply (target_identifiers_read _ _ _ _ ctx); [done|by subst local; unfold put_context; rewrite lookup_insert_ne, lookup_insert_eq|].
      intros i. subst local. unfold put_context. rewrite !lookup_insert_ne; [done|apply not_eq_sym, chunk_key_ne; done..].
    - subst local. unfold put_context, value_of. by rewrite lookup_insert_eq.
    - unfold value_of. subst local. by rewrite put_context_other. }
  split_and!.
  - intros m [->|[->|[]%elem_of_nil]%elem_of_cons]%elem_of_cons; [done|]. unfold target_identifiers, value_of in *.
    rewrite !(Hkeep PortIdentifierKeyCount), !(Hkeep PublishContextLUNAddress), !(Hkeep PublishContextDeviceWWN) by done.
    destruct Hlocal as (Hl & ? & ?). split_and!; [|done..]. revert Hl. destruct (local !! PortIdentifierKeyCount); [|by rewrite Hkeep].
    intros Hl. etrans; [|exact Hl]. apply fold_left_ext_in. intros i acc _. by rewrite Hkeep.
  - eapply (target_identifiers_read _ _ _ _ local); [done|by subst both; unfold put_context; rewrite lookup_insert_ne, lookup_insert_eq|].
    intros i. subst both. unfold put_context at 1. rewrite !lookup_insert_ne; [done|apply not_eq_sym, chunk_key_ne; done..].
  - subst both. unfold put_context at 1, value_of. by rewrite lookup_insert_eq.
Qed.

(** ** What a successful publication returns *)
Section usable.
Context {W C : Type} `{Pmax W C} `{MaskingClient W C} `{Caches W} `{FileClient W C} `{Client104 W C}.
Variable GetPowerMaxClient : string → M W (result error C).
Variable svc : service.
Variable duration : Z.
Variable queuedAdds : string → list addVolumeToSGMVRequest.
Variable chan : Z.

(** What [GetMaskingViewConnections] answered for the view and the device. *)
Definition view_connections (c : C) (sym mv dev : string) (conns : list MaskingViewConnection) : Prop :=
  ∃ w w', GetMaskingViewConnections (W := W) c sym mv dev w = (Ok conns, w').

(** The LUN address and the ports of the device: those of its connections, and with vSphere, as long as there is no
    address, the ports of the port group. *)
Definition device_address (c : C) (sym mv dev lun : string) (ports : list string) : Prop :=
  (∃ conns, view_connections c sym mv dev conns
     ∧ (∃ conn, conn ∈ conns ∧ Conn_VolumeID conn = dev ∧ HostLUNAddress conn = lun)
     ∧ (∀ p, p ∈ ports ↔ ∃ conn, conn ∈ conns ∧ Conn_VolumeID conn = dev ∧ DirectorPort conn = p)
     ∧ (IsVsphereEnabled svc = false → ∀ conn, conn ∈ conns → Conn_VolumeID conn = dev → HostLUNAddress conn = lun ∨ HostLUNAddress conn = ""))
  ∨ (IsVsphereEnabled svc = true ∧ lun = "0000"
     ∧ ∃ v pg w1 w1' w2 w2', GetMaskingViewByID (W := W) c sym mv w1 = (Ok v, w1')
         ∧ GetPortGroupByID (W := W) c sym (MV_PortGroupID v) w2 = (Ok pg, w2')
         ∧ ∀ k, k ∈ SymmetrixPortKey pg → port_text k ∈ ports).

(** [ctx] is [ctx0] with the address of the device and the identifiers of its ports on one array. *)
Definition addressed (isLocal : bool) (c : C) (sym mv dev : string) (ctx0 ctx : context) : Prop :=
  ∃ lun ports ids, lun ≠ "" ∧ ids ≠ "" ∧ ctx = put_context isLocal lun ids ctx0 ∧ device_address c sym mv dev lun ports
    ∧ ∃ w w', port_identifiers duration sym ports "" c w = Some (ids, w').
Definition ok_post {A} (P : A → Prop) (r : result error A) : Prop := match r with Ok a => P a | Err _ => True end.

(** A result comes from a call, from a run. *)
Lemma post_called {A} (f : W → A * W) : post (lift f) (λ r, ∃ w w', f w = (r, w')).
Proof. intros w r w' [= E]. by exists w, w'. Qed.
Lemma post_ran {A} (m : M W A) : post m (λ r, ∃ w w', m w = Some (r, w')).
Proof. intros w r w' E. by exists w, w'. Qed.

Lemma elem_of_appendIfMissing x l y : x ∈ appendIfMissing l y ↔ x ∈ l ∨ x = y.
Proof.
  unfold appendIfMissing. destruct (existsb _ _) eqn:E; [|set_solver]. split; [by left|]. intros [?| ->]; [done|].
  apply existsb_exists in E as (z & Hz & ->%bool_decide_eq_true). by apply list_elem_of_In.
Qed.

Lemma scan_connections_spec dev conns lun ports lun' ports' :
  scan_connections svc dev conns lun ports = Ok (lun', ports') →
  (lun' = lun ∨ ∃ conn, conn ∈ conns ∧ Conn_VolumeID conn = dev ∧ HostLUNAddress conn = lun')
  ∧ (∀ p, p ∈ ports' ↔ p ∈ ports ∨ ∃ conn, conn ∈ conns ∧ Conn_VolumeID conn = dev ∧ DirectorPort conn = p)
  ∧ (lun ≠ "" → lun' = lun)
  ∧ (IsVsphereEnabled svc = false → ∀ conn, conn ∈ conns → Conn_VolumeID conn = dev → HostLUNAddress conn = lun' ∨ HostLUNAddress conn = "").
Proof.
  revert lun ports. induction conns as [|conn conns IH]; intros lun ports E; cbn [scan_connections] in E; [injection E as <- <-; set_solver|].
  unfold of_device in E. case_bool_decide as Hd; cbn [negb] in E.
  - assert (∀ l, scan_connections svc dev conns l (appendIfMissing ports (DirectorPort conn)) = Ok (lun', ports') →
      ∀ p, p ∈ ports' ↔ p ∈ ports ∨ ∃ c, c ∈ conn :: conns ∧ Conn_VolumeID c = dev ∧ DirectorPort c = p) as Hports.
    { intros l El p. destruct (IH _ _ El) as (_ & Hp & _). rewrite Hp, elem_of_appendIfMissing. set_solver. }
    case_decide as Hl; [|case_decide as Hne; [destruct (IsVsphereEnabled svc) eqn:Hv; [|done]|]];
      destruct (IH _ _ E) as (Hl1 & _ & Hk3 & Hs4); (split_and!; [|by eapply Hports|done|]).
    + destruct Hl1 as [->|(x & ? & ? & ?)]; right; [exists conn|exists x]; set_solver.
    + intros Hv x Hx Hxd. apply elem_of_cons in Hx as [->|Hx]; [|by apply Hs4]. destruct (decide (HostLUNAddress conn = "")) as [?|Hn]; [by right|].
      left. by rewrite (Hk3 Hn).
    + destruct Hl1 as [->|(x & ? & ? & ?)]; [by left|right; exists x; set_solver].
    + done.
    + destruct Hl1 as [->|(x & ? & ? & ?)]; [by left|right; exists x; set_solver].
    + intros Hv x Hx Hxd. apply elem_of_cons in Hx as [->|Hx]; [|by apply Hs4]. left. rewrite (Hk3 Hl). by symmetry.
  - destruct (IH _ _ E) as (Hl1 & Hp2 & Hk3 & Hs4). split_and!; [|intros p; rewrite Hp2; set_solver|done|].
    + destruct Hl1 as [->|(x & ? & ? & ?)]; [by left|right; exists x; set_solver].
    + intros Hv x Hx Hxd. apply elem_of_cons in Hx as [->|Hx]; [by destruct Hd|by apply Hs4].
Qed.

Lemma fold_ports_elem (keys : list PortKey) ports p :
  p ∈ fold_left (λ ports k, appendIfMissing ports (port_text k)) keys ports ↔ p ∈ ports ∨ ∃ k, k ∈ keys ∧ p = port_text k.
Proof.
  revert ports. induction keys as [|k keys IH]; intros ports; cbn [fold_left]; [set_solver|]. rewrite IH, elem_of_appendIfMissing. set_solver.
Qed.

Lemma post_vsphere_ports sym mv dev ports c : IsVsphereEnabled svc = true →
  post (vsphere_ports sym mv ports c) (ok_post (λ '(lun, ports), lun ≠ "" ∧ device_address c sym mv dev lun ports)).
Proof.
  intros Hv. unfold vsphere_ports. eapply (post_try _ _ _ (λ v, ∃ w w', GetMaskingViewByID c sym mv w = (Ok v, w'))); [|done|].
  { intros w [v|e] w' E; [|done]. injection E as E. by exists w, w'. }
  intros v (w1 & w1' & E1). eapply (post_try _ _ _ (λ pg, ∃ w w', GetPortGroupByID c sym (MV_PortGroupID v) w = (Ok pg, w'))); [|done|].
  { intros w [pg|e] w' E; [|done]. injection E as E. by exists w, w'. }
  intros pg (w2 & w2' & E2). cbv zeta. destruct (fold_left _ _ _) as [|p l] eqn:Ef; apply post_ret; [done|]. split; [done|].
  right. split_and!; [done..|]. exists v, pg, w1, w1', w2, w2'. split_and!; [done..|]. intros k Hk. rewrite <- Ef, fold_ports_elem. eauto.
Qed.

Lemma post_get_connections n retry sym mv dev req c last :
  post (get_connections n retry sym mv dev req c last) (ok_post (ok_post (view_connections c sym mv dev))).
Proof.
  revert retry last. induction n as [|n IH]; intros retry last; cbn [get_connections]; [by apply post_ret|].
  apply post_skip. intros _. apply post_try_skip; [done|]. intros lockNum.
  eapply post_bind; [apply post_called|].
  intros [conns|e] (w & w' & E); apply post_skip; intros _; [|apply IH]. apply post_ret. by exists w, w'.
Qed.

Lemma post_update_context ctx sym mv dev req conns c isLocal :
  conns = [] ∨ view_connections c sym mv dev conns →
  post (updatePublishContext svc duration ctx sym mv dev req conns c isLocal) (ok_post (addressed isLocal c sym mv dev ctx)).
Proof.
  intros Hconns. unfold updatePublishContext. apply post_skip. intros _.
  eapply (post_try _ _ _ (ok_post (view_connections c sym mv dev))); [|done|].
  { case_bool_decide as Hne; cbn [andb]; [|apply post_get_connections]. destruct (2 <=? _); [|apply post_get_connections].
    apply post_ret. by destruct Hconns. }
  intros [conns'|e] Hc; [|by apply post_ret].
  destruct (scan_connections _ _ _ _ _) as [[lun ports]|e] eqn:Escan; [|by apply post_ret].
  apply scan_connections_spec in Escan as (Hl1 & Hp2 & _ & Hs4).
  eapply (post_try _ _ _ (λ '(lun, ports), lun ≠ "" ∧ device_address c sym mv dev lun ports)); [|done|].
  - case_decide as Hl; [destruct (IsVsphereEnabled svc) eqn:Hv; [by apply post_vsphere_ports|by apply post_ret]|]. apply post_ret. split; [done|].
    left. exists conns'. destruct Hl1 as [?|Hl1]; [done|]. split_and!; [done..| |done]. intros p. rewrite Hp2. set_solver.
  - intros [lun' ports'] [Hlun Hdev]. eapply post_bind; [apply post_ran|].
    intros ids Hids. case_decide; apply post_ret; [done|]. by exists lun', ports', ids.
Qed.

(** The service sends no connections. *)
Lemma responses_empty queue :
  post (runAddVolumesToSGMV GetPowerMaxClient svc queue) (λ '(_, out), Forall (λ x, connections x.2 = []) out).
Proof.
  assert (∀ req, post (processSingleAddVolumeToSGMV GetPowerMaxClient svc req) (Forall (λ x, connections x.2 = []))) as Hsingle.
  { intros req. apply post_skip. intros [c|e]; [apply post_skip; intros e|]; apply post_ret; by repeat constructor. }
  assert (∀ reqs, post (handle_each (handleAddVolumeToSGMVError GetPowerMaxClient svc) reqs) (Forall (λ x, connections x.2 = []))) as Heach.
  { intros reqs. induction reqs as [|r reqs IH]; cbn [handle_each]; [by apply post_ret|].
    eapply (post_bind _ _ (Forall (λ x, connections x.2 = []))).
    - apply post_skip. intros [c|e]; [|by apply post_ret]. apply post_skip. intros [v|e]; [|apply post_ret; by repeat constructor].
      apply post_skip. intros mv. destruct (mv && _); [apply post_ret; by repeat constructor|apply Hsingle].
    - intros x Hx. eapply post_bind; [exact IH|]. intros y Hy. apply post_ret. by apply Forall_app. }
  assert (∀ q initial room, post (getRequestsForAddVolumesToSG GetPowerMaxClient svc q initial room) (λ '(_, _, _, out), Forall (λ x, connections x.2 = []) out)) as Hget.
  { induction q as [|req q IH]; intros initial room; cbn [getRequestsForAddVolumesToSG]; [destruct room; by apply post_ret|].
    destruct room as [|room]; [by apply post_ret|]. destruct (same_target _ _).
    - apply post_skip. intros [[x y]|e]; [destruct (x || y)|]; (eapply post_bind; [apply IH|]); intros [[[? ?] ?] out] Ho; apply post_ret;
        try done; by constructor.
    - eapply post_bind; [apply Hsingle|]. intros out Ho. by apply post_ret. }
  unfold runAddVolumesToSGMV. eapply post_bind; [apply Hget|]. intros [[[q reqs] devs] out] Ho. destruct reqs as [|req reqs]; [by apply post_ret|].
  apply post_skip. intros rc. eapply (post_bind _ _ (Forall (λ x, connections x.2 = []))); [destruct rc; [by apply post_ret|apply Heach]|].
  intros out1 Ho1. apply post_skip. intros [e|].
  - eapply post_bind; [apply Heach|]. intros out2 Ho2. apply post_ret. by rewrite !Forall_app.
  - apply post_skip. intros _. apply post_ret. rewrite !Forall_app. split_and!; [done..|]. by apply Forall_fmap, Forall_forall.
Qed.

Lemma wait_add_empty n queue : post (wait_add GetPowerMaxClient svc chan n queue) (λ r, connections r = []).
Proof.
  unfold wait_add. revert queue. induction n as [|n IH]; intros queue; cbn [wait_for]; [by apply post_panic|].
  eapply post_bind; [apply responses_empty|]. intros [rest out] Ho. destruct (List.find _ out) as [[x r]|] eqn:Ef; [|apply IH].
  apply post_ret. apply find_some in Ef as [Hin _]. rewrite Forall_forall in Ho. apply (Ho (x, r)). by apply list_elem_of_In.
Qed.

Lemma post_publish_volume ctx sg host csym sym mv dev req am c isLocal :
  post (publishVolume GetPowerMaxClient svc duration queuedAdds chan ctx sg host csym sym mv dev req am c isLocal)
    (ok_post (addressed isLocal c sym mv dev ctx)).
Proof.
  unfold publishVolume. eapply post_bind; [apply wait_add_empty|]. intros response Hr. destruct (err response); [by apply post_ret|].
  apply post_update_context. by left.
Qed.

(** The array has the volume, with this WWN. *)
Definition has_wwn (c : C) (sym dev wwn : string) : Prop :=
  ∃ vol w w', GetVolumeByID (W := W) c sym dev w = (Ok vol, w') ∧ EffectiveWWN vol = wwn.

(** A context for the volume [sym]/[dev], for both volumes of a Metro pair, or for the remote volume alone. *)
Inductive usable (c : C) (mv sym dev rsym rdev : string) : context → Prop :=
| usable_local wwn ctx :
    wwn ≠ "" → has_wwn c sym dev wwn → addressed true c sym mv dev {[PublishContextDeviceWWN := wwn]} ctx → usable c mv sym dev rsym rdev ctx
| usable_both wwn ctx1 ctx :
    wwn ≠ "" → has_wwn c sym dev wwn → has_wwn c rsym rdev wwn →
    addressed true c sym mv dev {[PublishContextDeviceWWN := wwn]} ctx1 → addressed false c rsym mv rdev ctx1 ctx → usable c mv sym dev rsym rdev ctx
| usable_remote wwn ctx :
    rsym ≠ "" → rdev ≠ "" → has_wwn c rsym rdev wwn → addressed true c rsym mv rdev {[PublishContextDeviceWWN := wwn]} ctx →
    usable c mv sym dev rsym rdev ctx.

Lemma addressed_wwn isLocal c sym mv dev ctx0 ctx :
  addressed isLocal c sym mv dev ctx0 ctx → ctx !! PublishContextDeviceWWN = ctx0 !! PublishContextDeviceWWN.
Proof. intros (lun & ports & ids & _ & _ & -> & _). destruct isLocal; by rewrite put_context_other. Qed.

Lemma post_publish_remote ctx vol (missing skip : bool) node host sg mv sym dev rsym rdev req am c :
  (if skip then ctx = {[PublishContextDeviceWWN := EffectiveWWN vol]} else addressed true c sym mv dev {[PublishContextDeviceWWN := EffectiveWWN vol]} ctx) →
  (missing = false → has_wwn c sym dev (EffectiveWWN vol)) → EffectiveWWN vol ≠ "" → (missing = true → skip = true) → rsym ≠ "" → rdev ≠ "" →
  post (publish_remote GetPowerMaxClient svc duration queuedAdds chan ctx vol missing skip node host sg mv sym dev rsym rdev req am c)
    (ok_post (usable c mv sym dev rsym rdev)).
Proof.
  intros Hctx Hvol Hwwn Hmissing Hrs Hrd. unfold publish_remote. apply post_skip. intros [|].
  { destruct skip; apply post_ret; [done|]. destruct missing; [by specialize (Hmissing eq_refl)|]. apply (usable_local c mv sym dev rsym rdev (EffectiveWWN vol)); [done|by apply Hvol|done]. }
  eapply (post_try _ _ _ (λ v, has_wwn c rsym rdev (EffectiveWWN v))); [|done|].
  { intros w [v|e] w' E; [|done]. injection E as E. by exists v, w, w'. }
  intros remoteVol Hremote. destruct (negb missing && _) eqn:Hdiff.
  - apply post_skip. intros [e|]; [|by apply post_ret]. destruct (Contains (Error e) _); by apply post_ret.
  - eapply post_weaken; [apply post_publish_volume|]. intros [ctx'|e] Ha; [|done]. simpl in *. destruct skip.
    + subst ctx. rewrite insert_singleton_eq in Ha. by eapply usable_remote.
    + destruct missing; [by specialize (Hmissing eq_refl)|]. simpl in Hdiff. apply bool_decide_eq_false, dec_stable in Hdiff.
      rewrite Hdiff in Hremote. apply (usable_both c mv sym dev rsym rdev (EffectiveWWN vol) ctx); [done|by apply Hvol|done|done|]. rewrite insert_id in Ha; [done|].
      rewrite (addressed_wwn _ _ _ _ _ _ _ Hctx), Hdiff. by rewrite lookup_singleton_eq.
Qed.

(** The array and the device that the id of the volume names. *)
Definition named_by (volID sym dev : string) : Prop := ∃ id, parseCsiID volID = Some (Ok id) ∧ sym = arrayID id ∧ dev = VolumeID.devID id.

Lemma post_read_volume volID c :
  post (service_GetVolumeByID volID c) (ok_post (λ '(s, d, v), named_by volID s d ∧ has_wwn c s d (EffectiveWWN v))).
Proof.
  unfold service_GetVolumeByID. destruct (parseCsiID volID) as [[id|e]|] eqn:Eid; [|by apply post_ret|by apply post_panic]. cbv zeta.
  eapply (post_try _ _ _ (λ v, has_wwn c (arrayID id) (VolumeID.devID id) (EffectiveWWN v))); [|done|].
  { intros w [v|e] w' E; [|done]. injection E as E. by exists v, w, w'. }
  intros v Hv. destruct (negb _); apply post_ret; [done|]. split; [by exists id|done].
Qed.

(** Only a volume with a remote device can be missing on the local array. *)
Lemma post_find_volume volID sym dev rsym rdev c :
  post (find_volume volID sym dev rsym rdev c) (ok_post (λ '(s, d, v, missing),
    if missing : bool then s = sym ∧ d = dev ∧ rsym ≠ "" else named_by volID s d ∧ has_wwn c s d (EffectiveWWN v))).
Proof.
  unfold find_volume. eapply post_bind; [apply post_read_volume|]. intros [[[s d] v]|[m|[] m]] Hv; try (apply post_ret; done);
    destruct (bool_decide (rsym ≠ "") && _) eqn:Hb; try (apply post_ret; done); bool_to_prop;
    (apply post_try_skip; [done|]; intros rv; apply post_ret; simpl; by split_and!).
Qed.

Definition legacy_response (c : C) (mv sym dev rsym rdev : string) (r : option context) : Prop :=
  match r with
  | Some ctx => usable c mv sym dev rsym rdev ctx
  | None => rsym ≠ "" ∧ rdev = ""
  end.

Lemma post_publish_halves volID node s d rsym rdev reqID vol (missing : bool) host sg mv am c :
  (if missing then rsym ≠ "" else has_wwn c s d (EffectiveWWN vol)) →
  post (publish_halves GetPowerMaxClient svc duration queuedAdds chan volID node s d rsym rdev reqID vol missing host sg mv am c)
    (ok_post (legacy_response c mv s d rsym rdev)).
Proof.
  intros Hmiss. unfold publish_halves. case_decide as Hw; [by apply post_ret|].
  eapply (post_bind _ _ (λ skip : bool, (missing = true → skip = true) ∧ (rsym = "" → skip = false))).
  { destruct missing; [apply post_ret; split; [done|]; intros ?; by destruct (Hmiss)|]. destruct (decide (rsym ≠ "")) as [Hrs|Hrs];
      [|by apply post_ret]. intros w skip w' _. by split. }
  intros skip [Hskip Hlocal]. eapply (post_try _ _ _ (λ ctx, if skip then ctx = {[PublishContextDeviceWWN := EffectiveWWN vol]}
    else addressed true c s mv d {[PublishContextDeviceWWN := EffectiveWWN vol]} ctx)); [|done|].
  { destruct skip; [by apply post_ret|]. apply post_publish_volume. }
  intros ctx Hctx. destruct (bool_decide (rsym ≠ "") && _) eqn:Hb; bool_to_prop.
  + apply (post_try _ _ _ (usable c mv s d rsym rdev)); [|done|intros ctx' Hu; by apply post_ret].
    apply post_publish_remote; [done|by intros ->|done|by destruct missing|done..].
  + apply post_ret. destruct skip; simpl.
    * destruct (decide (rsym = "")) as [E|E]; [by specialize (Hlocal E)|]. split; [done|].
      rewrite bool_decide_true in Hb by done. simpl in Hb. by apply bool_decide_eq_false, dec_stable in Hb.
    * destruct missing; [by specialize (Hskip eq_refl)|]. by eapply usable_local.
Qed.

(** A masking view of the node. *)
Definition view_for (nodeID mv : string) : Prop := ∃ adopted isISCSI isNVMETCP, (target_names svc nodeID adopted isISCSI isNVMETCP).2 = mv.

End usable.

(** ** Publication and its reversal name the same objects *)
Section reversal.
Variable svc : service.

Definition group_of (n : names) : string := n.1.2.
Definition view_of (n : names) : string := n.2.

(** The storage groups of a node, one per protocol. *)
Definition node_groups (nodeID : string) : list string :=
  [group_of (GetHostSGAndMVIDFromNodeID svc nodeID false); group_of (GetISCSIHostSGAndMVIDFromNodeID svc nodeID);
   group_of (GetNVMETCPHostSGAndMVIDFromNodeID svc nodeID)].

(** Equal storage groups have equal masking views. *)
Lemma target_unique nodeID (a b : names) :
  let fc := if IsVsphereEnabled svc then GetVSphereFCHostSGAndMVIDFromNodeID svc else GetFCHostSGAndMVIDFromNodeID svc nodeID in
  a ∈ [fc; GetISCSIHostSGAndMVIDFromNodeID svc nodeID; GetNVMETCPHostSGAndMVIDFromNodeID svc nodeID] →
  b ∈ [fc; GetISCSIHostSGAndMVIDFromNodeID svc nodeID; GetNVMETCPHostSGAndMVIDFromNodeID svc nodeID] →
  group_of a = group_of b → view_of a = view_of b.
Proof.
  set (base := ClusterPrefix svc ++ "-").
  assert (∀ n : names, n ∈ [if IsVsphereEnabled svc then GetVSphereFCHostSGAndMVIDFromNodeID svc else GetFCHostSGAndMVIDFromNodeID svc nodeID;
    GetISCSIHostSGAndMVIDFromNodeID svc nodeID; GetNVMETCPHostSGAndMVIDFromNodeID svc nodeID] →
    ∃ x, group_of n = CsiNoSrpSGPrefix ++ x ∧ view_of n = CsiMVPrefix ++ x) as Hshape.
  { intros n Hn. unfold group_of, view_of. apply elem_of_cons in Hn as [->|Hn].
    - destruct (IsVsphereEnabled svc); [by exists (base ++ Vsphere); unfold base; rewrite app_str_assoc|].
      exists (base ++ dots_to_dashes nodeID ++ FCSuffix). unfold base. cbn. by rewrite !app_str_assoc.
    - apply elem_of_cons in Hn as [->|[->|[]%elem_of_nil]%elem_of_cons].
      + exists (base ++ dots_to_dashes nodeID). unfold base. cbn. by rewrite !app_str_assoc.
      + exists (base ++ dots_to_dashes nodeID ++ NVMETCPSuffix). unfold base. cbn. by rewrite !app_str_assoc. }
  intros fc (x & Hx & ->)%Hshape (y & Hy & ->)%Hshape Heq. rewrite Hx, Hy in Heq. by apply app_str_cancel in Heq as ->.
Qed.

Lemma unpublish_target_found fc iscsi nvme sg L :
  sg ∈ L → sg ∈ (group_of <$> [fc; iscsi; nvme]) → (∀ x, x ∈ L → x ∈ (group_of <$> [fc; iscsi; nvme]) → x = sg) →
  ∃ n, n ∈ [fc; iscsi; nvme] ∧ group_of n = sg ∧ unpublish_target fc iscsi nvme L = Some (group_of n, view_of n).
Proof.
  intros Hsg Hnode Honly. induction L as [|x L IH]; [by apply elem_of_nil in Hsg|]. cbn [unpublish_target].
  change (fc.1.2) with (group_of fc). change (iscsi.1.2) with (group_of iscsi). change (nvme.1.2) with (group_of nvme).
  assert (∀ n, n ∈ [fc; iscsi; nvme] → x = group_of n → ∃ n', n' ∈ [fc; iscsi; nvme] ∧ group_of n' = sg
    ∧ Some (group_of n, view_of n) = Some (group_of n', view_of n')) as Hhit.
  { intros n Hn ->. exists n. split_and!; [done| |done]. apply Honly; [by left|]. apply list_elem_of_fmap. by exists n. }
  case_decide; [apply Hhit; set_solver|]. case_decide; [apply Hhit; set_solver|]. case_decide; [apply Hhit; set_solver|].
  apply elem_of_cons in Hsg as [->|Hsg]; [simpl in Hnode; set_solver|]. apply IH; [done|]. intros y Hy. apply Honly. by right.
Qed.

(** What is named at all is the first group of the node among those of the volume. *)
Lemma unpublish_target_some fc iscsi nvme L sg mv :
  unpublish_target fc iscsi nvme L = Some (sg, mv) →
  ∃ before after n, L = (before ++ sg :: after)%list ∧ n ∈ [fc; iscsi; nvme] ∧ group_of n = sg ∧ view_of n = mv
    ∧ ∀ x, x ∈ before → x ∉ (group_of <$> [fc; iscsi; nvme]).
Proof.
  induction L as [|x L IH]; [done|]. cbn [unpublish_target].
  change (fc.1.2) with (group_of fc). change (iscsi.1.2) with (group_of iscsi). change (nvme.1.2) with (group_of nvme).
  assert (∀ n, n ∈ [fc; iscsi; nvme] → x = group_of n → Some (group_of n, view_of n) = Some (sg, mv) →
    ∃ before after n, x :: L = (before ++ sg :: after)%list ∧ n ∈ [fc; iscsi; nvme] ∧ group_of n = sg ∧ view_of n = mv
      ∧ ∀ x, x ∈ before → x ∉ (group_of <$> [fc; iscsi; nvme])) as Hhit.
  { intros n Hn -> [= <- <-]. exists [], L, n. split_and!; [done..|set_solver]. }
  case_decide; [apply Hhit; set_solver|]. case_decide; [apply Hhit; set_solver|]. case_decide; [apply Hhit; set_solver|].
  intros (before & after & n & -> & Hn & Hg & Hv & Hb)%IH. exists (x :: before), after, n. split_and!; [done..|].
  intros y [->|Hy]%elem_of_cons; [|by apply Hb]. simpl. set_solver.
Qed.

Lemma unpublish_target_none fc iscsi nvme L :
  unpublish_target fc iscsi nvme L = None ↔ ∀ x, x ∈ L → x ∉ (group_of <$> [fc; iscsi; nvme]).
Proof.
  induction L as [|x L IH]; [set_solver|]. cbn [unpublish_target].
  change (fc.1.2) with (group_of fc). change (iscsi.1.2) with (group_of iscsi). change (nvme.1.2) with (group_of nvme).
  assert (∀ n, n ∈ [fc; iscsi; nvme] → x = group_of n → ¬ ∀ y, y ∈ x :: L → y ∉ (group_of <$> [fc; iscsi; nvme])) as Hhit.
  { intros n Hn -> Hall. apply (Hall (group_of n)); [by left|]. apply list_elem_of_fmap. by exists n. }
  case_decide; [split; [done|intros Hall; exfalso; eapply Hhit, Hall; [|done]; set_solver]|].
  case_decide; [split; [done|intros Hall; exfalso; eapply Hhit, Hall; [|done]; set_solver]|].
  case_decide; [split; [done|intros Hall; exfalso; eapply Hhit, Hall; [|done]; set_solver]|].
  rewrite IH. split; intros Hall y; [intros [->|Hy]%elem_of_cons; [simpl; set_solver|by apply Hall]|]. intros Hy. apply Hall. by right.
Qed.

(** Host, storage group and masking view of the node, by protocol. *)
Definition node_names (nodeID : string) : list names :=
  [if IsVsphereEnabled svc then GetVSphereFCHostSGAndMVIDFromNodeID svc else GetFCHostSGAndMVIDFromNodeID svc nodeID;
   GetISCSIHostSGAndMVIDFromNodeID svc nodeID; GetNVMETCPHostSGAndMVIDFromNodeID svc nodeID].

Lemma node_groups_names nodeID : node_groups nodeID = group_of <$> node_names nodeID.
Proof. unfold node_groups, node_names, GetHostSGAndMVIDFromNodeID. by destruct (IsVsphereEnabled svc). Qed.

Lemma published_target nodeID L adoptedID (isISCSI isNVMETCP : bool) host sg mv :
  target_names svc nodeID adoptedID isISCSI isNVMETCP = (host, sg, mv) →
  sg ∈ L → (∀ x, x ∈ L → x ∈ node_groups nodeID → x = sg) → node_target svc nodeID L = Some (sg, mv).
Proof.
  intros Ht Hsg Honly. unfold node_target.
  set (fc := if IsVsphereEnabled svc then GetVSphereFCHostSGAndMVIDFromNodeID svc else GetFCHostSGAndMVIDFromNodeID svc nodeID).
  set (candidates := [fc; GetISCSIHostSGAndMVIDFromNodeID svc nodeID; GetNVMETCPHostSGAndMVIDFromNodeID svc nodeID]).
  assert (∃ n, n ∈ candidates ∧ group_of n = sg ∧ view_of n = mv) as (n & Hn & Hgn & Hvn).
  { unfold target_names, GetHostSGAndMVIDFromNodeID in Ht. unfold candidates, fc.
    destruct isNVMETCP; [|destruct (IsVsphereEnabled svc); [|destruct isISCSI]];
      match type of Ht with context [let '(_, _) := let '(_, _) := ?n in _ in _] => idtac | context [match ?n with _ => _ end] =>
        exists n end; (split; [set_solver|]); injection Ht as _ <- <-; done. }
  destruct (unpublish_target_found fc (GetISCSIHostSGAndMVIDFromNodeID svc nodeID) (GetNVMETCPHostSGAndMVIDFromNodeID svc nodeID) sg L)
    as (n' & Hn' & Hg & ->); [done|apply list_elem_of_fmap; by exists n| |].
  - intros x Hx Hin. apply Honly; [done|]. unfold node_groups, GetHostSGAndMVIDFromNodeID. unfold fc in Hin.
    destruct (IsVsphereEnabled svc); exact Hin.
  - by rewrite Hg, (target_unique nodeID n' n Hn' Hn), Hvn by congruence.
Qed.

(** C20: Taking a volume away from a node undoes its publication when the volume is in the storage group that
    publication used and in no other of the node: whatever protocol publication detected, and with an adopted host
    too, the removal names that storage group and its masking view. In any case what it names is a storage group of
    the node that the volume is in, the first such, with the masking view of that group; it names nothing exactly
    when the volume is in no group of the node. *)
Theorem unpublish_undoes_publish nodeID L :
  (∀ adoptedID (isISCSI isNVMETCP : bool) host sg mv, target_names svc nodeID adoptedID isISCSI isNVMETCP = (host, sg, mv) →
     sg ∈ L → (∀ x, x ∈ L → x ∈ node_groups nodeID → x = sg) → node_target svc nodeID L = Some (sg, mv))
  ∧ (∀ sg mv, node_target svc nodeID L = Some (sg, mv) →
     ∃ before after n, L = (before ++ sg :: after)%list ∧ n ∈ node_names nodeID ∧ group_of n = sg ∧ view_of n = mv
       ∧ ∀ x, x ∈ before → x ∉ node_groups nodeID)
  ∧ (node_target svc nodeID L = None ↔ ∀ x, x ∈ L → x ∉ node_groups nodeID).
Proof.
  split_and!; [apply published_target| |].
  - intros sg mv (before & after & n & ? & ? & ? & ? & Hb)%unpublish_target_some. exists before, after, n. split_and!; [done..|].
    intros x Hx. rewrite node_groups_names. by apply Hb.
  - rewrite node_groups_names. apply unpublish_target_none.
Qed.
End reversal.

(** ** Waiting for the storage group service ends *)
Section waiting.
Context {W : Type} (chan : Z).

(** A run that takes requests off the queue answers each of them. *)
Definition answers {R S} (chanOf : R → Z) (run : list R → M W (list R * list (Z * S))) : Prop :=
  ∀ q, post (run q) (λ '(q', out), ∃ taken, q = (taken ++ q')%list ∧ chanOf <$> taken ≡ₚ out.*1 ∧ (q ≠ [] → taken ≠ [])).

Lemma wait_for_answered {R S} (chanOf : R → Z) (run : list R → M W (list R * list (Z * S))) queue w n :
  answers chanOf run → chan ∈ (chanOf <$> queue) → (List.length queue <= n)%nat →
  (∃ response w', wait_for chan run n queue w = Some (response, w')) ∨ (∃ q w', q `suffix_of` queue ∧ run q w' = None).
Proof.
  intros Hrun. revert queue w. induction n as [|n IH]; intros queue w Hin Hlen.
  { destruct queue; [by apply elem_of_nil in Hin|simpl in Hlen; lia]. }
  cbn [wait_for]. unfold mbnd. destruct (run queue w) as [[[q' out] w']|] eqn:E; [|right; by exists queue, w].
  destruct (Hrun queue w _ _ E) as (taken & Hq & Hp & Hne).
  destruct (List.find _ out) as [[x response]|] eqn:Ef; [left; by exists response, w'|].
  assert (chan ∉ out.*1) as Hnot.
  { intros ([x r] & Hx & Ho)%list_elem_of_fmap. apply list_elem_of_In in Ho. apply (find_none _ _ Ef) in Ho.
    apply bool_decide_eq_false in Ho. by rewrite Hx in Ho. }
  assert (taken ≠ []) as Ht by (apply Hne; intros ->; by apply elem_of_nil in Hin).
  rewrite Hq, fmap_app, Hp, elem_of_app in Hin. destruct Hin as [Hin|Hin]; [done|].
  destruct (IH q' w' Hin) as [Hok|(q & w1 & Hs & Hr)].
  - rewrite Hq, length_app in Hlen. destruct taken; [done|simpl in Hlen; lia].
  - by left.
  - right. exists q, w1. split; [|done]. rewrite Hq. by apply suffix_app_r.
Qed.
End waiting.

Section waiting_for_service.
Context {W C : Type} `{Pmax W C} `{MaskingClient W C}.
Variable GetPowerMaxClient : string → M W (result error C).
Variable svc : service.
Hypothesis client_total : ∀ x, post (GetPowerMaxClient x) (λ r, is_ok r = true).

(** A client that publishes or takes away a volume gets its answer: serving the
    queue as often as it has requests is enough, whatever other requests are ahead and
    whatever the arrays answer, unless a run of the service panics. *)
Theorem publish_wait_ends chan addQ removeQ w :
  (chan ∈ (respChan <$> addQ) →
     (∃ response w', wait_add GetPowerMaxClient svc chan (List.length addQ) addQ w = Some (response, w'))
     ∨ ∃ q w', q `suffix_of` addQ ∧ runAddVolumesToSGMV GetPowerMaxClient svc q w' = None)
  ∧ (chan ∈ (rm_respChan <$> removeQ) →
     (∃ response w', wait_remove GetPowerMaxClient svc chan (List.length removeQ) removeQ w = Some (response, w'))
     ∨ ∃ q w', q `suffix_of` removeQ ∧ runRemoveVolumesFromSGMV GetPowerMaxClient svc q w' = None).
Proof.
  split; intros Hin.
  - apply (wait_for_answered chan respChan); [|done|lia]. intros q. apply (run_add_answers GetPowerMaxClient svc), Forall_forall; intros r _; apply client_total.
  - apply (wait_for_answered chan rm_respChan); [|done|lia]. intros q. apply (run_remove_answers GetPowerMaxClient svc), Forall_forall; intros r _; apply client_total.
Qed.
End waiting_for_service.

(** ** Two defects *)
(** An error while the volume is looked up, whatever it is, makes it a file system;
    when there is none, the volume counts as taken away although nothing was done. *)
Theorem unpublish_hides_error {W C} `{Pmax W C} `{MaskingClient W C} `{FileClient W C} clients svc queued chan
    volID nodeID reqID sym dev rsym rdev (c : C) (w w1 w2 : W) e e' :
  GetVolumeByID c sym dev w = (Err e, w1) → GetFileSystemByID c sym dev w1 = (Err e', w2) → Contains (Error e') notFound = true →
  unpublish clients svc queued chan volID nodeID reqID sym dev rsym rdev c w = Some (None, w2).
Proof.
  intros Hv Hf Hn. unfold unpublish, mbnd at 1, lift at 1. rewrite Hv. unfold DeleteNFSExport, mbnd at 1, lift at 1. rewrite Hf.
  unfold notFound in Hn. by rewrite Hn.
Qed.

(** The node cache tells the protocol from the host's name: an iSCSI node with -FC in
    its name is taken for a Fibre Channel node from the second publication on. *)
Lemma cached_protocol_wrong :
  let svc := SimMasking.plain in
  let '(host, sg, _) := target_names svc "rack-FC2-n1" "" true false in
  let '(isISCSI, isNVMETCP) := protocol_of_host host in
  isISCSI = false ∧ (target_names svc "rack-FC2-n1" "" isISCSI isNVMETCP).1.2 = sg ++ "-FC".
Proof. done. Qed.

(** ** Examples *)
Section example.
Import SimArray SimMasking.
Definition ids200 : string := String.concat "" (replicate 20 "0x50000972").

Lemma publish_context_roundtrip_witness :
  let local := put_context true "0001" ids200 {[PublishContextDeviceWWN := "6000"]} in
  let both := put_context false "0002" "iqn.1," local in
  local !! "PORT_IDENTIFIERS_2" = Some (sdrop 128 ids200)
  ∧ target_identifiers PortIdentifierKeyCount PortIdentifiers both = ids200
  ∧ target_identifiers RemotePortIdentifierKeyCount RemotePortIdentifiers both = "iqn.1,".
Proof.
  pose proof (publish_context_roundtrip "0001" ids200 "0002" "iqn.1," {[PublishContextDeviceWWN := "6000"]} ltac:(done) ltac:(done))
    as (Hl & Hr & _).
  split_and!; [by vm_compute|apply Hl; set_solver|exact Hr].
Defined.

(** A driver whose caches are empty, and an array without the 10.4 interface. *)
#[local] Instance empty_caches : Caches Sim := {
  portIdentifiers _ _ := None; setPortIdentifiers _ _ w := w; nodeCache _ := ∅; setNodeCache _ w := w;
}.
#[local] Instance no_client104 : Client104 Sim string := { PublishMaskingViews _ _ _ w := (Err (errorString "unavailable"), w) }.
#[local] Existing Instance Files.sim_files.

Definition published_world : Sim := sim [mkVolume "00001" "csi-ABC-v1" ["csi-rep-sg"] false false "6000097" 0 547 [] (SpecFloat.S754_zero false)] (mkStorageGroupRDFG [] []).
Definition publish_request : PublishRequest := mkPublishRequest "n1" (Some (mkCapability (Some SINGLE_NODE_WRITER) (Some "ext4") false)) ∅.
Definition publish_run := legacy_Publish clients0 plain 1000 (λ _, []) 7 "csi-ABC-v1-000120000548-00001" "000120000548" "00001" "" "" "1" "c" publish_request published_world.


Lemma unpublish_undoes_publish_witness :
  node_target plain "n1" ["csi-rep-sg"; "csi-no-srp-sg-ABC-n1-NVMETCP"] = Some ("csi-no-srp-sg-ABC-n1-NVMETCP", "csi-mv-ABC-n1-NVMETCP").
Proof.
  apply (proj1 (unpublish_undoes_publish plain "n1" ["csi-rep-sg"; "csi-no-srp-sg-ABC-n1-NVMETCP"]) "" false true "csi-node-ABC-n1-NVMETCP"); [done|set_solver|].
  intros x [->|[->|[]%elem_of_nil]%elem_of_cons]%elem_of_cons Hx; [|done].
  by apply (bool_decide_pack _) in Hx.
Defined.

Lemma publish_wait_ends_witness :
  (∃ response w', wait_add clients0 plain 7 1 [request0] world0 = Some (response, w') ∧ err response = None)
  ∧ ((∃ response w', wait_add clients0 plain 7 1 [request0] world0 = Some (response, w'))
     ∨ ∃ q w', q `suffix_of` [request0] ∧ runAddVolumesToSGMV clients0 plain q w' = None).
Proof.
  split; [eexists _, _; split; [vm_compute; reflexivity|done]|].
  apply (publish_wait_ends clients0 plain (λ x w r w' (E : _ = Some (r, w')), ltac:(by injection E as <- _)) 7 [request0] [] world0).
  by left.
Defined.
End example.
End Publish.
