(* ===== verification/Rpc.v ===== *)
(** * Controller requests

    What the controller's RPCs share: the tables of requests in progress beside the
    arrays (service/pending.go, the globals of service/controller.go), their entry
    and deferred removal, and requireProbe. *)

From stdpp Require Import base gmap strings list.
From Stdlib Require Import ZArith Lia.
From S2P Require Import Prelude GoLib Pending.

Module Rpc.
Import Pending.
Open Scope go_scope.
Open Scope string_scope.
Open Scope Z_scope.

Record tables := mkTables {
  controllerPendingState : pendingState;
  snapshotPendingState : pendingState;
  vgsSnapshotPendingState : pendingState;
}.

Definition pending_status (e : pending_error) : error :=
  statusError Unavailable (match e with ErrPending => "pending" | ErrOverload => "overload" end).

Definition with_max (n : Z) (ps : pendingState) : pendingState := mkPending n (npending ps) (pendingMap ps).
(** The limits requireProbe sets. *)
Definition limited (max : Z) (t : tables) : tables :=
  mkTables (with_max max (controllerPendingState t)) (with_max max (snapshotPendingState t)) (vgsSnapshotPendingState t).

Section rpc.
Context {W : Type}.

(** A request that works on the arrays only. *)
Definition on_arrays {A} (m : M W A) : M (tables * W) A :=
  λ s, match m s.2 with Some (a, w) => Some (a, (s.1, w)) | None => None end.

(** A table of requests in progress. *)
Record table := mkTable { get_table : tables → pendingState; set_table : pendingState → tables → tables }.
Definition controller_table := mkTable controllerPendingState (λ ps t, mkTables ps (snapshotPendingState t) (vgsSnapshotPendingState t)).
Definition snapshot_table := mkTable snapshotPendingState (λ ps t, mkTables (controllerPendingState t) ps (vgsSnapshotPendingState t)).
Definition group_table := mkTable vgsSnapshotPendingState (λ ps t, mkTables (controllerPendingState t) (snapshotPendingState t) ps).

Definition put_pending (T : table) (ps : pendingState) : M (tables * W) unit := λ s, Some (tt, (set_table T ps s.1, s.2)).
Definition get_pending (T : table) : M (tables * W) pendingState := λ s, Some (get_table T s.1, s).

(** [checkAndUpdatePendingState; defer clearPending], around a request at time [now]. *)
Definition while_pending {A} (T : table) (ind : induced) (now : Z) (volumeID : string) (refuse : error → A) (m : M (tables * W) A)
    : M (tables * W) A :=
  let* ps := get_pending T in
  match checkAndUpdatePendingState ind now volumeID ps with
  | (_, Some e) => ret (refuse (pending_status e))
  | (ps, None) =>
      let* _ := put_pending T ps in
      let* r := m in
      let* ps := get_pending T in
      let* _ := put_pending T (clearPending volumeID ps) in ret r
  end.

(** The limits are set by every request; a client that exists is not probed. *)
Definition requireProbe (useProxy autoProbe : bool) (grpcMaxThreads : Z) (controllerProbe : M W (option error)) (has_client : bool)
    : M (tables * W) (option error) := λ s,
  let max := if useProxy then 50 else grpcMaxThreads in
  let s := (limited max s.1, s.2) in
  if has_client then Some (None, s)
  else if negb autoProbe then Some (Some (statusError FailedPrecondition "Controller Service has not been probed"), s)
  else (let* e := on_arrays controllerProbe in
        ret ((λ e, statusError FailedPrecondition ("failed to probe/init plugin: " ++ Error e)) <$> e)) s.

Lemma on_arrays_inv {A} (m : M W A) s a s' : on_arrays m s = Some (a, s') → m s.2 = Some (a, s'.2) ∧ s'.1 = s.1.
Proof. unfold on_arrays. destruct (m s.2) as [[x w]|]; [|done]. by intros [= <- <-]. Qed.

(** A request leaves the table as it found it, whatever limit it sets. *)
Lemma while_pending_restores {A} ind now id (refuse : error → A) m t w r w' max :
  (checkAndUpdatePendingState ind now id (controllerPendingState t)).2 = None →
  (∀ t, m (t, w) = Some (r, (limited max t, w'))) → while_pending controller_table ind now id refuse m (t, w) = Some (r, (limited max t, w')).
Proof.
  destruct t as [ps sp vp]. unfold while_pending, checkAndUpdatePendingState, mbnd, get_pending, put_pending. simpl.
  case_bool_decide as Hp; [done|]. simpl. destruct (inducePendingError ind); [done|]. destruct (_ || _); [done|].
  intros _ Hm. rewrite Hm. simpl. unfold limited, with_max, clearPending. simpl. unfold ret.
  rewrite delete_insert_id by by apply eq_None_not_Some. repeat f_equal. lia.
Qed.
End rpc.
End Rpc.
