(* ===== verification/Deletion.v ===== *)
(** * Deletion of volumes by the controller

    Models DeleteVolume, deleteVolume, deleteFileSystem and MarkVolumeForDeletion
    of service/controller.go: a volume is checked and renamed, and its device is
    queued for the deletion worker of [DeletionWorker]. The queue of the worker
    and the deferral of [Crd] are arguments. *)

From stdpp Require Import base gmap strings list.
From Stdlib Require Import ZArith Lia Ascii.
From S2P Require Import Prelude GoLib Ordering Pmax SimArray PowerMax VolumeID DeletionWorker Capacity Masking Trace Handler Pending Rpc Files Publish.

Module Deletion.
Import PowerMax VolumeID Masking Files Rpc.
Import Publish(volumeIdentifiersMatch, deletionMarkedVolumeMatches, cannotBeFound, HasSuffix, TrimSuffix, MaxClusterPrefixLength).
Open Scope go_scope.
Open Scope handler_scope.
Open Scope string_scope.
Open Scope Z_scope.

Definition delSrcTag := "DS".

(** RenameVolume of the client; the volume may be missing from the answer. *)
Class RenameClient (W C : Type) := {
  RenameVolume : C → string → string → string → W → result error (option Volume) * W;
}.

(** The name a volume gets, cut to the length of an identifier. *)
Definition marked_name (name : string) : string :=
  let newName := DeletionWorker.DeletionPrefix ++ name in
  if MaxVolIdentifierLength <? slen newName then stake (Z.to_nat MaxVolIdentifierLength) newName else newName.

(** The name of a snapshot's source that is to be deleted. *)
Definition source_name (volName : string) : string :=
  let truncLen := slen volName + slen delSrcTag - MaxVolIdentifierLength in
  (if 0 <? truncLen then stake (Z.to_nat (slen volName - truncLen)) volName else volName) ++ "-" ++ delSrcTag.

(** The volume was renamed for deletion but not queued. *)
Definition renamed_before (volName identifier : string) : bool :=
  deletionMarkedVolumeMatches volName identifier || bool_decide (identifier = marked_name volName)
  || HasSuffix identifier ("-" ++ marked_name volName).

(** ** Names *)
Lemma stake_app_ge n p s : (String.length p <= n)%nat → stake n (p ++ s) = p ++ stake (n - String.length p) s.
Proof.
  revert n. induction p as [|a p IH]; intros n Hn; simpl in *; [by rewrite Nat.sub_0_r|].
  destruct n as [|n]; [lia|]. rewrite !app_str_cons. simpl. by rewrite IH by lia.
Qed.
Lemma stake_sdrop n s : stake n s ++ sdrop n s = s.
Proof. revert s. induction n as [|n IH]; intros [|a s]; try done. simpl. rewrite app_str_cons. by rewrite IH. Qed.

Lemma HasSuffix_app r p : HasSuffix (r ++ p) p = true.
Proof.
  unfold HasSuffix. rewrite slen_app. apply andb_true_intro. split; [apply Z.leb_le; unfold slen; lia|].
  apply bool_decide_eq_true. rewrite app_str_length.
  replace (String.length r + String.length p - String.length p)%nat with (String.length r) by lia. apply sdrop_app.
Qed.
Lemma HasSuffix_spec s p : HasSuffix s p = true → ∃ r, s = r ++ p.
Proof.
  unfold HasSuffix. intros [_ <-%bool_decide_eq_true]%andb_prop.
  eexists. symmetry. apply stake_sdrop.
Qed.
Lemma TrimSuffix_app r p : TrimSuffix (r ++ p) p = r.
Proof.
  unfold TrimSuffix. rewrite HasSuffix_app, app_str_length.
  replace (String.length r + String.length p - String.length p)%nat with (String.length r) by lia. apply stake_app_str.
Qed.

Lemma identifiers_match_spec expected actual :
  volumeIdentifiersMatch expected actual = true ↔
  expected ≠ "" ∧ (actual = expected ∨ ∃ tenant, slen tenant <= MaxClusterPrefixLength ∧ actual = tenant ++ "-" ++ expected).
Proof.
  unfold volumeIdentifiersMatch. case_bool_decide as Hq.
  - rewrite negb_true_iff, bool_decide_eq_false. naive_solver.
  - assert (expected ≠ "") as He by tauto. split.
    + destruct (HasSuffix actual _) eqn:Hs; simpl; [|done].
      apply HasSuffix_spec in Hs as [t ->]. rewrite TrimSuffix_app. intros Ht%Z.leb_le. split; [done|]. right. by exists t.
    + intros [_ [?|(t & Ht & ->)]]; [tauto|]. rewrite HasSuffix_app. simpl. rewrite TrimSuffix_app. by apply Z.leb_le.
Qed.

Definition csi_marker := "-csi-".

(** The marker behind a tenant is found at its place, never before the tenant. *)
Lemma marker_prefix_cut tenant r : tenant ≠ "" → slen tenant <= 3 → HasPrefix (tenant ++ csi_marker ++ r) csi_marker = false.
Proof.
  intros Hne Hlen. apply not_true_iff_false. intros [x Hx]%HasPrefix_spec.
  destruct tenant as [|a [|b [|d [|e tenant]]]]; [done|..|unfold slen in Hlen; simpl in Hlen; lia];
    rewrite ?app_str_cons in Hx; discriminate Hx || (unfold csi_marker in Hx; rewrite ?app_str_cons in Hx; naive_solver).
Qed.

Lemma substring_prefix p s : String.substring 0 (String.length p) s = p → HasPrefix s p = true.
Proof.
  unfold HasPrefix. revert s. induction p as [|a p IH]; intros s Hp; [by destruct s|].
  destruct s as [|b s]; [done|]. simpl in Hp. injection Hp as -> Hp. simpl. destruct (ascii_dec a a); [by apply IH|done].
Qed.

Lemma marker_index tenant r :
  tenant ≠ "" → slen tenant <= 3 → 0 < Index (tenant ++ csi_marker ++ r) csi_marker <= 3.
Proof.
  intros Hne Hlen. unfold Index.
  assert (String.substring (String.length tenant) (String.length csi_marker) (tenant ++ csi_marker ++ r) = csi_marker) as Hsub.
  { clear. induction tenant as [|a t IH]; [by destruct r|]. rewrite app_str_cons. simpl. exact IH. }
  destruct (String.index 0 csi_marker _) as [n|] eqn:Hi.
  - assert (n ≠ 0%nat) as Hn.
    { intros ->. pose proof (marker_prefix_cut tenant r Hne Hlen) as Hf. apply String.index_correct1 in Hi.
      by rewrite (substring_prefix _ _ Hi) in Hf. }
    assert (¬ (String.length tenant < n)%nat) as Hm.
    { intros Hlt. eapply String.index_correct2 in Hi; [|apply Nat.le_0_l|exact Hlt]. by apply Hi. }
    unfold slen in Hlen. lia.
  - exfalso. eapply (String.index_correct3 0 (String.length tenant)) in Hi; [|done|lia]. by apply Hi.
Qed.

(** ** What is handed to the worker *)
Definition request (dev handle sym : string) := DeletionWorker.mkDeletionRequest dev handle sym.

(** A name of the driver on the array: its own, or one with a tenant in front. *)
Definition tenanted (tenant volName : string) : string := if decide (tenant = "") then volName else tenant ++ "-" ++ volName.

Lemma mark_cut p s :
  slen DeletionWorker.DeletionPrefix + slen p <= MaxVolIdentifierLength →
  ∃ r, marked_name (p ++ s) = DeletionWorker.DeletionPrefix ++ p ++ r.
Proof.
  intros Hp. unfold marked_name. case_match; [|by exists s].
  exists (stake (Z.to_nat MaxVolIdentifierLength - String.length (DeletionWorker.DeletionPrefix ++ p)) s).
  rewrite <- (app_str_assoc _ p s), stake_app_ge, app_str_assoc; [done|].
  rewrite app_str_length. unfold slen, MaxVolIdentifierLength in *. lia.
Qed.

Lemma handle_valid tenant r dev sym :
  slen tenant <= 3 → dev ≠ "" → sym ≠ "" →
  DeletionWorker.isValid (request dev (DeletionWorker.DeletionPrefix ++ tenanted tenant ("csi-" ++ r)) sym) = None.
Proof.
  intros Ht Hd Hs. unfold DeletionWorker.isValid, tenanted, request.
  cbn [DeletionWorker.Request_DeviceID DeletionWorker.Request_SymID DeletionWorker.VolumeHandle].
  rewrite (decide_False (P := dev = "")), (decide_False (P := sym = "")) by done.
  case_decide as Hn; [by change (DeletionWorker.DeletionPrefix ++ "csi-" ++ r) with ("_DELcsi-" ++ r); rewrite (HasPrefix_app "_DELcsi-")|].
  case_match; [done|]. rewrite HasPrefix_app, TrimPrefix_app. cbn [negb].
  change ("-" ++ CSIPrefix ++ "-") with csi_marker. change ("-" ++ "csi-" ++ r) with (csi_marker ++ r).
  pose proof (marker_index tenant r Hn Ht) as [H1 H2].
  apply Z.ltb_lt in H1 as ->. apply Z.leb_le in H2 as ->. done.
Qed.

(** Marking keeps the name valid, although a long one is cut. *)
Lemma marked_valid tenant r dev sym :
  slen tenant <= 3 → dev ≠ "" → sym ≠ "" →
  DeletionWorker.isValid (request dev (marked_name (tenanted tenant ("csi-" ++ r))) sym) = None.
Proof.
  intros Ht Hd Hs.
  assert (∃ r', marked_name (tenanted tenant ("csi-" ++ r)) = DeletionWorker.DeletionPrefix ++ tenanted tenant ("csi-" ++ r'))
    as [r' ->]; [|by apply handle_valid].
  unfold tenanted. case_decide.
  - by apply (mark_cut "csi-").
  - destruct (mark_cut (tenant ++ csi_marker) r) as [r' Hr'].
    { rewrite slen_app. change (slen csi_marker) with 5. unfold MaxVolIdentifierLength. change (slen _) with 4 at 1. lia. }
    exists r'. revert Hr'. by rewrite !app_str_assoc.
Qed.

(** The renamed volume is told from one that still carries its name. *)
Lemma marked_differs r y : volumeIdentifiersMatch ("csi-" ++ r) (DeletionWorker.DeletionPrefix ++ y) = false.
Proof.
  apply not_true_iff_false. rewrite identifiers_match_spec. unfold DeletionWorker.DeletionPrefix.
  intros [_ [He|(t & Ht & He)]]; [by rewrite !app_str_cons in He|].
  destruct t as [|a [|b [|d [|e t]]]]; rewrite !app_str_cons in He; try done.
  unfold slen, MaxClusterPrefixLength in Ht. simpl in Ht. lia.
Qed.

(** The handle fits, or carries no tenant. *)
Definition fits (tenant volName : string) : Prop :=
  tenant = "" ∨ slen (DeletionWorker.DeletionPrefix ++ tenanted tenant volName) <= MaxVolIdentifierLength.

Lemma tenanted_matches tenant volName :
  volName ≠ "" → slen tenant <= 3 → volumeIdentifiersMatch volName (tenanted tenant volName) = true.
Proof. intros Hv Ht. apply identifiers_match_spec. unfold tenanted. case_decide; eauto. Qed.

Lemma retry_recognised tenant volName :
  volName ≠ "" → slen tenant <= 3 → fits tenant volName → renamed_before volName (marked_name (tenanted tenant volName)) = true.
Proof.
  intros Hv Ht Hf. unfold renamed_before. destruct (decide (tenant = "")) as [->|Hn].
  - unfold tenanted. rewrite decide_True, (bool_decide_eq_true_2 (_ = _)) by done. by rewrite orb_true_r.
  - destruct Hf as [|Hf]; [done|]. unfold marked_name at 1. apply Z.ltb_ge in Hf as ->.
    unfold deletionMarkedVolumeMatches. rewrite HasPrefix_app, TrimPrefix_app. by rewrite tenanted_matches.
Qed.

Section calls.
Context {W C : Type} `{Pmax W C} `{FileClient W C} `{RenameClient W C}.
(** The array clients; the worker's queue: device, identifier and array; deferral of
    the cleanup of a volume on an array; what is known of an error. *)
Variable GetPowerMaxClient : string → string → M W (result error C).
Variable QueueDeviceForDeletion : string → string → string → M W (option error).
Variable deferCleanup : string → string → M W (option error).
Variable errorClass : error → Capacity.provision_error.
Variable isMetroSiteFailureHandlingEnabled : bool.
(** The options of the driver, the flags of tests and the probe. *)
Variables (useProxy autoProbe : bool) (grpcMaxThreads : Z) (ind : Pending.induced).
Variable controllerProbe : M W (option error).

Definition MarkVolumeForDeletion (symID : string) (vol : Volume) (c : C) : M W (option error) :=
  let oldVolName := VolumeIdentifier vol in
  let* r := lift (RenameVolume c symID (Pmax.VolumeID vol) (marked_name oldVolName)) in
  match r with
  | Ok (Some vol) => QueueDeviceForDeletion (Pmax.VolumeID vol) (VolumeIdentifier vol) symID
  | _ => ret (Some (errorString ("MarkVolumeForDeletion: Failed to rename volume " ++ oldVolName)))
  end.

(** No storage group of the volume is in a masking view. *)
Fixpoint check_unused (c : C) (symID : string) (sgIDs : list string) : M W (option error) :=
  match sgIDs with
  | [] => ret None
  | sgid :: sgIDs =>
      let* r := lift (GetStorageGroup c symID sgid) in
      match r with
      | Err _ => ret (Some (statusError Internal ("Unable to find storage group: " ++ sgid ++ " in " ++ symID)))
      | Ok sg =>
          if 0 <? NumOfMaskingViews sg then ret (Some (statusError FailedPrecondition "Volume is in use"))
          else check_unused c symID sgIDs
      end
  end.

Definition mark_failed (e : option error) : option error :=
  (λ e, statusError Internal ("Failed marking volume for deletion with error (" ++ Error e ++ ")")) <$> e.

Definition deleteVolume (symID volName devID : string) (c : C) : M W (option error) :=
  let* r := lift (GetVolumeByID c symID devID) in
  match r with
  | Err e =>
      if Contains (Error e) cannotBeFound then ret None
      else ret (Some (statusError Internal ("Could not retrieve volume: (" ++ Error e ++ ")")))
  | Ok vol =>
      if negb (volumeIdentifiersMatch volName (VolumeIdentifier vol)) then
        if renamed_before volName (VolumeIdentifier vol) then
          let* e := QueueDeviceForDeletion (Pmax.VolumeID vol) (VolumeIdentifier vol) symID in ret (mark_failed e)
        else ret None
      else
        let* e := check_unused c symID (StorageGroupIDList vol) in
        match e with
        | Some e => ret (Some e)
        | None =>
            if SnapSource vol then
              let* r := lift (RenameVolume c symID devID (source_name volName)) in
              match r with
              | Ok (Some _) => ret None
              | _ => ret (Some (statusError Internal "Failed to rename volume"))
              end
            else let* e := MarkVolumeForDeletion symID vol c in ret (mark_failed e)
        end
  end.

(** The list of exports is used although reading it may have failed. *)
Definition deleteFileSystem (symID fsName fsID : string) (c : C) : M W (option error) :=
  let* r := lift (GetFileSystemByID c symID fsID) in
  match r with
  | Err e =>
      if Contains (Error e) cannotBeFound then ret None
      else ret (Some (statusError Internal ("Could not retrieve fileSystem: (" ++ Error e ++ ")")))
  | Ok fileSystem =>
      if decide (FS_Name fileSystem ≠ fsName) then ret None
      else
        let* r := lift (GetNFSExportList c symID "" fsID) in
        match r with
        | Err _ => panic
        | Ok (count, ids) =>
            if 0 <? count then
              let* id := index ids 0 in
              ret (Some (statusError Internal ("file system has NFS export ID:" ++ id ++ "/name:" ++ id ++ " on symID: " ++ symID)))
            else
              let* e := DeleteFileSystem symID fsID c in
              ret ((λ e, statusError Internal ("Failed deletion of File System with error (" ++ Error e ++ ")")) <$> e)
        end
  end.

(** Cleanup on the remote array is deferred while it cannot be reached. *)
Definition defer_or (e : error) (id remoteSymID : string) (otherwise : error) : M W (option error) :=
  if isMetroSiteFailureHandlingEnabled && Capacity.isConnectivityError (Some (errorClass e)) then
    let* d := deferCleanup id remoteSymID in
    ret ((λ e, statusError Internal ("Failed to defer device cleanup: " ++ Error e)) <$> d)
  else ret (Some otherwise).

Definition delete_remote (id volName remoteSymID remDevID : string) (c : C) : M W (option error) :=
  let* r := lift (RenameVolume c remoteSymID remDevID volName) in
  match r with
  | Err e =>
      if Contains (Error e) cannotBeFound then ret None
      else defer_or e id remoteSymID
             (statusError InvalidArgument ("RenameRemoteVolume: Failed to rename volume " ++ remDevID ++ " " ++ Error e))
  | Ok _ =>
      let* e := deleteVolume remoteSymID volName remDevID c in
      match e with Some e => defer_or e id remoteSymID e | None => ret None end
  end.

(** Behind the checks of the request. *)
Definition delete_known (id : string) (csi : csiID) (c : C) : M W (option error) :=
  let* r := lift (GetVolumeByID c (arrayID csi) (VolumeID.devID csi)) in
  match r with
  | Err _ => deleteFileSystem (arrayID csi) (volName csi) (VolumeID.devID csi) c
  | Ok _ =>
      let* e := deleteVolume (arrayID csi) (volName csi) (VolumeID.devID csi) c in
      match e with
      | Some e => ret (Some e)
      | None =>
          if decide (VolumeID.remoteSymID csi = "") then ret None
          else delete_remote id (volName csi) (VolumeID.remoteSymID csi) (remoteVolID csi) c
      end
  end.

Definition service_DeleteVolume (id : string) : M (tables * W) (option error) :=
  match parseCsiID id with
  | None => panic
  | Some (Err _) => ret None
  | Some (Ok csi) =>
      let* rc := on_arrays (GetPowerMaxClient (arrayID csi) (VolumeID.remoteSymID csi)) in
      match rc with
      | Err _ => ret None
      | Ok c =>
          let* now := on_arrays (lift (Now (C := C))) in
          while_pending controller_table ind now id Some
            (let* e := requireProbe useProxy autoProbe grpcMaxThreads controllerProbe true in
             match e with
             | Some e => ret (Some e)
             | None => on_arrays (delete_known id csi c)
             end)
      end
  end.

(** ** Attempts to delete *)
Lemma deleteVolume_marked symID r devID c w w' vol tenant :
  slen tenant <= 3 → fits tenant ("csi-" ++ r) →
  GetVolumeByID c symID devID w = (Ok vol, w') → VolumeIdentifier vol = marked_name (tenanted tenant ("csi-" ++ r)) →
  deleteVolume symID ("csi-" ++ r) devID c w
  = (let* e := QueueDeviceForDeletion (Pmax.VolumeID vol) (VolumeIdentifier vol) symID in ret (mark_failed e)) w'.
Proof.
  intros Ht Hf Hg Hid. unfold deleteVolume, mbnd at 1, lift. rewrite Hg, Hid, retry_recognised by done.
  destruct (mark_cut "" (tenanted tenant ("csi-" ++ r))) as [y Hy]; [done|].
  change ("" ++ ?x) with x in Hy. rewrite Hy, marked_differs. done.
Qed.

Lemma deleteVolume_first symID r devID c w w1 w2 vol tenant :
  slen tenant <= 3 → GetVolumeByID c symID devID w = (Ok vol, w1) →
  VolumeIdentifier vol = tenanted tenant ("csi-" ++ r) → SnapSource vol = false →
  check_unused c symID (StorageGroupIDList vol) w1 = Some (None, w2) →
  deleteVolume symID ("csi-" ++ r) devID c w = (let* e := MarkVolumeForDeletion symID vol c in ret (mark_failed e)) w2.
Proof.
  intros Ht Hg Hid Hs Hc. unfold deleteVolume, mbnd at 1, lift. rewrite Hg, Hid, tenanted_matches by done.
  cbn [negb]. unfold mbnd at 1. by rewrite Hc, Hs.
Qed.

(** C33: a deletion that stopped between the renaming of the volume and the worker's
    queue (the queue refused it, or the driver died) is taken up by the next DeleteVolume:
    the first attempt renames the volume and reports the failure; the second finds the
    volume under its new name, tells it from an unmarked one and hands the same device and
    handle to the queue again, without renaming it twice. The handle is one that the
    worker's own check accepts. This holds for the driver's name, and for one with a
    tenant of at most three characters in front as long as the handle with the tenant
    is within the 64 characters of the array and not cut ([fits]); a handle that was cut
    is not recognised, as [cut_tenant_forgotten] shows. *)
Theorem interrupted_delete_resumes tenant r devID symID c vol vol' e w w1 w2 w3 w4 w5 :
  let volName := "csi-" ++ r in
  let handle := marked_name (tenanted tenant volName) in
  slen tenant <= 3 → fits tenant volName → Pmax.VolumeID vol ≠ "" → symID ≠ "" →
  GetVolumeByID c symID devID w = (Ok vol, w1) → VolumeIdentifier vol = tenanted tenant volName → SnapSource vol = false →
  check_unused c symID (StorageGroupIDList vol) w1 = Some (None, w2) →
  RenameVolume c symID (Pmax.VolumeID vol) handle w2 = (Ok (Some vol'), w3) →
  Pmax.VolumeID vol' = Pmax.VolumeID vol → VolumeIdentifier vol' = handle →
  QueueDeviceForDeletion (Pmax.VolumeID vol) handle symID w3 = Some (Some e, w4) →
  GetVolumeByID c symID devID w4 = (Ok vol', w5) →
  deleteVolume symID volName devID c w = Some (mark_failed (Some e), w4)
  ∧ deleteVolume symID volName devID c w4
    = (let* e := QueueDeviceForDeletion (Pmax.VolumeID vol) handle symID in ret (mark_failed e)) w5
  ∧ DeletionWorker.isValid (request (Pmax.VolumeID vol) handle symID) = None.
Proof.
  intros volName handle Ht Hf Hd Hs Hg Hid Hss Hc Hren Hid' Hh' Hq Hg'. split_and!.
  - unfold volName. erewrite deleteVolume_first by done.
    unfold MarkVolumeForDeletion, mbnd, lift. fold volName in Hid. rewrite Hid. fold handle. by rewrite Hren, Hid', Hh', Hq.
  - unfold volName. erewrite deleteVolume_marked by done. by rewrite Hid', Hh'.
  - by apply marked_valid.
Qed.

(** ** Volumes in use *)
Lemma check_unused_refuses c symID sgIDs w :
  (∀ sg, sg ∈ sgIDs → ∃ g, GetStorageGroup c symID sg w = (Ok g, w)) →
  (∃ sg g, sg ∈ sgIDs ∧ GetStorageGroup c symID sg w = (Ok g, w) ∧ 0 < NumOfMaskingViews g) →
  check_unused c symID sgIDs w = Some (Some (statusError FailedPrecondition "Volume is in use"), w).
Proof.
  induction sgIDs as [|sg sgIDs IH]; intros Hall (x & g & Hx & Hg & Hn); [by apply elem_of_nil in Hx|].
  simpl. unfold mbnd, lift. destruct (Hall sg) as [g' Hg']; [left|]. rewrite Hg'.
  destruct (Z.ltb_spec 0 (NumOfMaskingViews g')); [done|]. apply IH; [intros; apply Hall; by right|].
  apply elem_of_cons in Hx as [->|Hx]; [rewrite Hg in Hg'; simplify_eq; lia|eauto].
Qed.

Lemma delete_known_refuses id csi c vol w :
  GetVolumeByID c (arrayID csi) (VolumeID.devID csi) w = (Ok vol, w) →
  volumeIdentifiersMatch (volName csi) (VolumeIdentifier vol) = true →
  (∀ sg, sg ∈ StorageGroupIDList vol → ∃ g, GetStorageGroup c (arrayID csi) sg w = (Ok g, w)) →
  (∃ sg g, sg ∈ StorageGroupIDList vol ∧ GetStorageGroup c (arrayID csi) sg w = (Ok g, w) ∧ 0 < NumOfMaskingViews g) →
  delete_known id csi c w = Some (Some (statusError FailedPrecondition "Volume is in use"), w).
Proof.
  intros Hg Hm Hall Hex. unfold delete_known. unfold mbnd at 1, lift at 1. rewrite Hg. unfold mbnd at 1, deleteVolume.
  unfold mbnd at 1, lift at 1. rewrite Hg, Hm. cbn [negb]. unfold mbnd at 1. by rewrite check_unused_refuses.
Qed.

(** C34: DeleteVolume never touches a volume that some host uses: when the name in the
    volume's id is the name the volume has on the array, and one of its storage groups is in
    a masking view, the request fails with FailedPrecondition and neither the array nor the
    worker's queue nor the deferred operations change; the request is taken out of the table
    of requests in progress, and only the limit of the tables is set. *)
Theorem delete_in_use_refused id csi c vol now t w :
  parseCsiID id = Some (Ok csi) →
  (Pending.checkAndUpdatePendingState ind now id (controllerPendingState t)).2 = None → Now (C := C) w = (now, w) →
  GetPowerMaxClient (arrayID csi) (VolumeID.remoteSymID csi) w = Some (Ok c, w) →
  GetVolumeByID c (arrayID csi) (VolumeID.devID csi) w = (Ok vol, w) →
  volumeIdentifiersMatch (volName csi) (VolumeIdentifier vol) = true →
  (∀ sg, sg ∈ StorageGroupIDList vol → ∃ g, GetStorageGroup c (arrayID csi) sg w = (Ok g, w)) →
  (∃ sg g, sg ∈ StorageGroupIDList vol ∧ GetStorageGroup c (arrayID csi) sg w = (Ok g, w) ∧ 0 < NumOfMaskingViews g) →
  let max := if useProxy then 50 else grpcMaxThreads in
  service_DeleteVolume id (t, w)
  = Some (Some (statusError FailedPrecondition "Volume is in use"),
          (limited max t, w)).
Proof.
  intros Hp Hpend Hnow Hc Hg Hm Hall Hex max. unfold service_DeleteVolume. rewrite Hp.
  unfold mbnd at 1, on_arrays at 1. simpl. rewrite Hc. unfold mbnd at 1, on_arrays at 1, lift at 1. simpl. rewrite Hnow.
  apply (while_pending_restores ind now id Some _ t w _ w max Hpend). intros t'. unfold mbnd, requireProbe, on_arrays. simpl.
  by erewrite delete_known_refuses by done.
Qed.
End calls.

(** A tenant's name that is cut is not recognised: the second attempt takes the renamed
    volume for a deleted one and reports success. *)
Example cut_tenant_forgotten :
  let volName := "csi-ABC-pmax-0123456789-namespace-of-some-length-xyz-and-m" in
  let handle := marked_name (tenanted "T01" volName) in
  slen handle = MaxVolIdentifierLength
  ∧ (volumeIdentifiersMatch volName handle, renamed_before volName handle) = (false, false).
Proof. by vm_compute. Qed.

(** The tag of a snapshot's source leaves no room for its dash. *)
Example source_name_too_long :
  slen (source_name (String.concat "" (replicate 64 "x"))) = MaxVolIdentifierLength + 1.
Proof. by vm_compute. Qed.

(** ** Examples *)
Import SimArray.
Definition rename_volume (id name : string) (w : Sim) : Sim :=
  mkSim (sim_time w) (sim_version w)
    ((λ v, if bool_decide (Pmax.VolumeID v = id)
           then mkVolume (Pmax.VolumeID v) name (StorageGroupIDList v) (SnapSource v) (SnapTarget v) (EffectiveWWN v)
                  (NumberOfFrontEndPaths v) (CapacityCYL v) (RDFGroupIDList v) (Volume_CapacityGB v) else v) <$> sim_volumes w)
    (sim_snaps w) (sim_sg w) (sim_rdf w) (sim_group w) (sim_dirs w) (sim_log w) (sim_licenses w).

Instance sim_rename : RenameClient Sim string := {
  RenameVolume _ _ id name w :=
    let w' := rename_volume id name w in
    (match find_volume id w' with Ok v => Ok (Some v) | Err e => Err e end, w');
}.
Definition vol1 (sgs : list string) : Volume := mkVolume "011AB" "T01-csi-ABC-pmax-0123456789-ns" sgs false false "" 0 100 [] fzero.
Definition full (_ _ _ : string) : M Sim (option error) := ret (Some (errorString "queue is full")).

Lemma interrupted_delete_resumes_witness :
  let w := sim [vol1 []] (mkStorageGroupRDFG [] []) in
  let vol' := mkVolume "011AB" "_DELT01-csi-ABC-pmax-0123456789-ns" [] false false "" 0 100 [] fzero in
  let w' := rename_volume "011AB" "_DELT01-csi-ABC-pmax-0123456789-ns" w in
  deleteVolume full "000120000548" "csi-ABC-pmax-0123456789-ns" "011AB" "c" w
    = Some (mark_failed (Some (errorString "queue is full")), w')
  ∧ deleteVolume full "000120000548" "csi-ABC-pmax-0123456789-ns" "011AB" "c" w'
    = Some (mark_failed (Some (errorString "queue is full")), w')
  ∧ DeletionWorker.isValid (request "011AB" "_DELT01-csi-ABC-pmax-0123456789-ns" "000120000548") = None.
Proof.
  intros w vol' w'.
  apply (interrupted_delete_resumes full "T01" "ABC-pmax-0123456789-ns" "011AB" "000120000548" "c" (vol1 []) vol'
           (errorString "queue is full") w w w w' w' w'); try reflexivity || discriminate.
  right. by vm_compute.
Defined.

Lemma delete_in_use_refused_witness :
  let w := sim [vol1 ["sg"]] (mkStorageGroupRDFG [] []) in
  let w := mkSim (sim_time w) (sim_version w) (sim_volumes w) (sim_snaps w) (mkStorageGroup 1 1 "sg" "SRP_1" ["mv"]) (sim_rdf w)
             (sim_group w) (sim_dirs w) (sim_log w) (sim_licenses w) in
  let empty max := Pending.mkPending max 0 ∅ in
  service_DeleteVolume (λ _ _, ret (Ok "c")) full (λ _ _, ret None) Capacity.plain_error true true false 4
    (Pending.mkInduced false false) (ret None)
    "csi-ABC-pmax-0123456789-ns-000120000548-011AB" (mkTables (empty 4) (empty 4) (empty 50), w)
  = Some (Some (statusError FailedPrecondition "Volume is in use"), (mkTables (empty 50) (empty 50) (empty 50), w)).
Proof.
  intros w0 w empty.
  apply (delete_in_use_refused (λ _ _, ret (Ok "c")) full (λ _ _, ret None) Capacity.plain_error true true false 4
    (Pending.mkInduced false false) (ret None) "csi-ABC-pmax-0123456789-ns-000120000548-011AB"
    (mkCsiID "csi-ABC-pmax-0123456789-ns" "000120000548" "011AB" "" "") "c" (vol1 ["sg"]) 100); try reflexivity.
  - intros sg _. by eexists.
  - exists "sg". eexists. split; [left|]. split; [reflexivity|done].
Defined.
End Deletion.
