(* ===== verification/Sizes.v ===== *)
(** * Volume sizes, pools and storage groups for new volumes

    Models the parts of service/controller.go that settle what CreateVolume and
    ControllerExpandVolume ask of an array: resolveParameter, the sizes in
    cylinders (validateVolSize, and computeRequiredCylinders of
    service/volume_creator.go), the capacity of a pool, the cache of known pools,
    the choice of a storage group by volume count (getDynamicSG), GetCapacity and
    ControllerExpandVolume.

    Sizes are int64 values; capacities are float64 values. The conversion of a
    float64 outside int64 is the one of amd64. *)

From stdpp Require Import base gmap strings list.
From Stdlib Require Import ZArith Lia Ascii SpecFloat.
From S2P Require Import Prelude GoLib Ordering Pmax SimArray PowerMax VolumeID DeletionWorker Capacity Masking Trace Handler Pending Rpc Files Publish.

Module Sizes.
Import PowerMax VolumeID Masking Files Rpc.
Import Capacity(SrpCap, UsableTotInTB, UsableUsedInTB).
Import Publish(VolumeCapability, accTypeIsNFS, service_GetVolumeByID).
Open Scope go_scope.
Open Scope handler_scope.
Open Scope string_scope.
Open Scope Z_scope.

Definition SymmetrixIDParam := "SYMID".
Definition cylinderSizeInBytes : Z := 1966080.
Definition DefaultVolumeSizeBytes : Z := 1073741824.
Definition MinVolumeSizeBytes : Z := 51118080.
Definition MaxVolumeSizeBytes : Z := 70368745881600.

(** [int64(f)] *)
Definition int64_of_float (f : float64) : Z :=
  match f with
  | S754_zero _ => 0
  | S754_finite s m e =>
      let a := if 0 <=? e then Zpos m * 2 ^ e else Zpos m / 2 ^ (- e) in
      let z := if s then - a else a in
      if (- 2 ^ 63 <=? z) && (z <? 2 ^ 63) then z else - 2 ^ 63
  | _ => - 2 ^ 63
  end.

(** A request without a range asks for no size and no limit. *)
Record CapacityRange := mkRange { RequiredBytes : Z; LimitBytes : Z }.
Definition GetRequiredBytes (cr : option CapacityRange) : Z := default 0 (RequiredBytes <$> cr).
Definition GetLimitBytes (cr : option CapacityRange) : Z := default 0 (LimitBytes <$> cr).

(** A pool reports its capacity as a whole or by the two kinds of emulation. *)
Record StoragePool := mkPool { pool_SrpCap : option SrpCap; FbaCap : option SrpCap; CkdCap : option SrpCap }.

Class PoolClient (W C : Type) := {
  GetStoragePool : C → string → string → W → result error StoragePool * W;
  GetStoragePoolList : C → string → W → result error (list string) * W;
  (** Storage groups whose name starts with the text, with their volume counts. *)
  GetStorageGroupVolumeCounts : C → string → string → W → result error (list (string * Z)) * W;
  (** Array, device, RDF group and size in cylinders. *)
  ExpandVolume : C → string → string → Z → Z → W → result error Volume * W;
}.

(** knownStoragePools of the cache of an array. *)
Class PoolCache (W : Type) := {
  knownStoragePools : string → W → gmap string Z;
  setKnownStoragePools : string → gmap string Z → W → W;
}.

(** ** Parameters *)
Record StorageArrayConfig := mkArrayConfig { Labels : gmap string string; Parameters : list (string * string) }.

(** The parameters of an array come in the order of Go's iteration. *)
Definition resolveParameter (StorageArrays : gmap string StorageArrayConfig) (params : gmap string string)
    (arrayID param defaultValue : string) : string :=
  match params !! param with
  | Some result => result
  | None =>
      if decide (arrayID = "") then defaultValue
      else match StorageArrays !! arrayID with
           | Some array =>
               match List.find (λ kv : string * string, EqualFold param kv.1) (Parameters array) with
               | Some (_, value) => value
               | None => defaultValue
               end
           | None => defaultValue
           end
  end.

(** ** Sizes *)
Definition cylinders (minSizeBytes : Z) : Z :=
  let n := Z.quot minSizeBytes cylinderSizeInBytes in
  if 0 <? Z.rem minSizeBytes cylinderSizeInBytes then n + 1 else n.

Definition out_of_range (msg : string) : error := statusError OutOfRange ("bad capacity: " ++ msg).

Definition computeRequiredCylinders (cr : option CapacityRange) : result error Z :=
  let minSizeBytes := GetRequiredBytes cr in
  let maxSizeBytes := GetLimitBytes cr in
  if (minSizeBytes <? 0) || (maxSizeBytes <? 0) then
    Err (out_of_range ("requested volume size bytes " ++ Itoa minSizeBytes ++ " and limit size bytes " ++ Itoa maxSizeBytes
           ++ " must not be negative"))
  else
    let minSizeBytes := if minSizeBytes =? 0 then DefaultVolumeSizeBytes else minSizeBytes in
    let minSizeBytes := if minSizeBytes <? MinVolumeSizeBytes then MinVolumeSizeBytes else minSizeBytes in
    let numOfCylinders := cylinders minSizeBytes in
    let sizeInBytes := wrap64 (numOfCylinders * cylinderSizeInBytes) in
    if (0 <? maxSizeBytes) && (maxSizeBytes <? sizeInBytes) then
      Err (out_of_range ("size in bytes " ++ Itoa sizeInBytes ++ " exceeds limit size bytes " ++ Itoa maxSizeBytes))
    else Ok numOfCylinders.

(** The checks of validateVolSize that follow the capacity of the pool. *)
Definition size_within (minSizeBytes maxSizeBytes maxAvailBytes : Z) : result error Z :=
  let maxSizeBytes := if maxSizeBytes =? 0 then maxAvailBytes else maxSizeBytes in
  if maxAvailBytes <? maxSizeBytes then
    Err (out_of_range ("requested maximum size " ++ Itoa maxSizeBytes ++ " bytes is greater than the maximum available capacity "
           ++ Itoa maxAvailBytes ++ " bytes"))
  else if maxAvailBytes <? minSizeBytes then
    Err (out_of_range ("requested minimum size " ++ Itoa minSizeBytes ++ " bytes is greater than the maximum available capacity "
           ++ Itoa maxAvailBytes ++ " bytes"))
  else
    let minSizeBytes := if minSizeBytes <? MinVolumeSizeBytes then MinVolumeSizeBytes else minSizeBytes in
    if maxSizeBytes <? minSizeBytes then
      Err (out_of_range ("requested maximum size " ++ Itoa maxSizeBytes ++ " bytes is less than the requested minimum size "
             ++ Itoa minSizeBytes ++ " bytes"))
    else
      let numOfCylinders := cylinders minSizeBytes in
      let sizeInBytes := wrap64 (numOfCylinders * cylinderSizeInBytes) in
      if maxSizeBytes <? sizeInBytes then
        Err (out_of_range ("size " ++ Itoa sizeInBytes ++ " bytes exceeds limit size " ++ Itoa maxSizeBytes ++ " bytes"))
      else Ok numOfCylinders.

Definition GB : Z := 1024 * 1024 * 1024.
Definition in_GB (tb : float64) : float64 := fmul tb (float_of_Z 1024).

(** Total and used capacity of a pool in GB. *)
Definition pool_capacity (srp fba ckd : option SrpCap) : option (float64 * float64) :=
  match srp, fba, ckd with
  | Some srp, _, _ => Some (in_GB (UsableTotInTB srp), in_GB (UsableUsedInTB srp))
  | None, None, None => None
  | None, fba, ckd =>
      let gb f (o : option SrpCap) := match o with Some x => in_GB (f x) | None => fzero end in
      Some (fadd (gb UsableTotInTB fba) (gb UsableTotInTB ckd), fadd (gb UsableUsedInTB fba) (gb UsableUsedInTB ckd))
  end.

(** Bytes left, from whole GB. *)
Definition avail_bytes (srp fba ckd : option SrpCap) : Z :=
  match pool_capacity srp fba ckd with
  | Some (total, used) => wrap64 (int64_of_float (fsub total used) * GB)
  | None => MaxVolumeSizeBytes
  end.

(** *** Rounding *)
Lemma cylinders_bounds m : 0 <= m → m <= cylinders m * cylinderSizeInBytes < m + cylinderSizeInBytes.
Proof.
  intros Hm. unfold cylinders, cylinderSizeInBytes.
  rewrite Z.quot_div_nonneg, Z.rem_mod_nonneg by lia. pose proof (Z.div_mod m 1966080). pose proof (Z.mod_pos_bound m 1966080).
  destruct (Z.ltb_spec 0 (m mod 1966080)); lia.
Qed.

(** The size a request really asks for. *)
Definition wanted (required : Z) : Z := Z.max MinVolumeSizeBytes (if required =? 0 then DefaultVolumeSizeBytes else required).

Lemma wanted_min required :
  let m := if required =? 0 then DefaultVolumeSizeBytes else required in
  (if m <? MinVolumeSizeBytes then MinVolumeSizeBytes else m) = wanted required.
Proof. unfold wanted. simpl. case_match; lia. Qed.

Lemma computeRequired_spec cr n :
  wanted (GetRequiredBytes cr) + cylinderSizeInBytes < 2 ^ 63 →
  computeRequiredCylinders cr = Ok n ↔
  0 <= GetRequiredBytes cr ∧ 0 <= GetLimitBytes cr ∧ n = cylinders (wanted (GetRequiredBytes cr))
  ∧ (GetLimitBytes cr = 0 ∨ n * cylinderSizeInBytes <= GetLimitBytes cr).
Proof.
  intros Hov. unfold computeRequiredCylinders. rewrite wanted_min.
  assert (0 <= wanted (GetRequiredBytes cr)) as Hw by (unfold wanted, MinVolumeSizeBytes; lia).
  pose proof (cylinders_bounds _ Hw) as Hc. set (k := cylinders _) in *. rewrite wrap64_id by (unfold in64, cylinderSizeInBytes in *; lia).
  destruct (Z.ltb_spec (GetRequiredBytes cr) 0); [split; [done|intros; lia]|].
  destruct (Z.ltb_spec (GetLimitBytes cr) 0); [split; [done|intros; lia]|]. cbn [orb].
  destruct (Z.ltb_spec 0 (GetLimitBytes cr)), (Z.ltb_spec (GetLimitBytes cr) (k * cylinderSizeInBytes)); cbn [andb];
    split; intros E; try injection E as <-; try discriminate E; repeat split; try lia; f_equal; lia.
Qed.

Lemma size_within_spec required limit avail n :
  0 <= required → 0 <= limit → avail + cylinderSizeInBytes < 2 ^ 63 →
  size_within (if required =? 0 then DefaultVolumeSizeBytes else required) limit avail = Ok n ↔
  n = cylinders (wanted required) ∧ limit <= avail ∧ n * cylinderSizeInBytes <= avail ∧ (limit = 0 ∨ n * cylinderSizeInBytes <= limit).
Proof.
  intros Hr Hl Hov. unfold size_within. rewrite wanted_min.
  assert (0 <= wanted required) as Hw by (unfold wanted, MinVolumeSizeBytes; lia).
  pose proof (cylinders_bounds _ Hw) as Hc. set (k := cylinders _) in *.
  assert ((if required =? 0 then DefaultVolumeSizeBytes else required) <= wanted required) as Hle by (unfold wanted; lia).
  set (m := if required =? 0 then _ else _) in *. set (lim := if limit =? 0 then avail else limit).
  assert (lim = if limit =? 0 then avail else limit) as Hlim by done. clearbody lim m k.
  destruct (Z.eqb_spec limit 0), (Z.ltb_spec avail lim), (Z.ltb_spec avail m), (Z.ltb_spec lim (wanted required));
    try (split; [done|intros; lia]); try lia;
    rewrite wrap64_id by (unfold in64, cylinderSizeInBytes in *; lia);
    destruct (Z.ltb_spec lim (k * cylinderSizeInBytes)); split; intros E; try injection E as <-; try discriminate E; repeat split; try lia; f_equal; lia.
Qed.

(** ** Storage groups by volume count *)
Definition all_digits (s : string) : bool := negb (bool_decide (s = "")) && bool_decide (is_Some (parse_digits 10 0 s)).

(** The base name, or the base name with a number: the regular expression
    [^base--\d+$]. *)
Definition is_group (base id : string) : bool :=
  bool_decide (id = base)
  || (negb (bool_decide (base = "")) && HasPrefix id (base ++ "--") && all_digits (sdrop (String.length (base ++ "--")) id)).

(** Counts of the groups, the least count below the limit and its group, [""] for none. *)
Fixpoint scan_groups (base : string) (groups : list (string * Z)) (counts : gmap string Z) (minCount : Z) (bestSG : string)
    : gmap string Z * Z * string :=
  match groups with
  | [] => (counts, minCount, bestSG)
  | (id, n) :: groups =>
      if is_group base id then
        let counts := <[id := n]> counts in
        if n <? minCount then scan_groups base groups counts n id else scan_groups base groups counts minCount bestSG
      else scan_groups base groups counts minCount bestSG
  end.

Definition proposed (base : string) (suffixIndex : nat) : string :=
  match suffixIndex with O => base | _ => base ++ "--" ++ Itoa (Z.of_nat suffixIndex) end.

(** The loop over suffixes; it does not run out of fuel, see [find_name_total]. *)
Fixpoint find_name (fuel : nat) (base : string) (counts : gmap string Z) (suffixIndex : nat) : option string :=
  match fuel with
  | O => None
  | S fuel =>
      match counts !! proposed base suffixIndex with
      | None => Some (proposed base suffixIndex)
      | Some _ => find_name fuel base counts (S suffixIndex)
      end
  end.

Definition choose_group (base : string) (limit : Z) (groups : list (string * Z)) : option (string * bool) :=
  let '(counts, _, bestSG) := scan_groups base groups ∅ limit "" in
  if decide (counts = ∅) then Some (base, true)
  else if decide (bestSG ≠ "") then Some (bestSG, false)
  else (λ name, (name, true)) <$> find_name (S (size counts)) base counts 0.

Lemma Itoa_digits n : 0 <= n < 2 ^ 63 → all_digits (Itoa n) = true.
Proof.
  intros Hn. unfold all_digits, Itoa. destruct (Z.ltb_spec n 0); [lia|].
  destruct (digits_spec 10 n) as (Hv & Hf & Hne); [lia..|]. apply andb_true_intro. split.
  - apply negb_true_iff, bool_decide_eq_false. by destruct (digits 10 n).
  - apply bool_decide_eq_true. rewrite (proj1 (parse_digits_string 10 _ 0 ltac:(lia) Hf)). eauto.
Qed.

Lemma app_str_inj p s t : p ++ s = p ++ t → s = t.
Proof. induction p as [|a p IH]; [done|]. rewrite !app_str_cons. intros [= E]. auto. Qed.

Lemma proposed_group base k : base ≠ "" → Z.of_nat k < 2 ^ 63 → is_group base (proposed base k) = true.
Proof.
  intros Hb Hk. unfold is_group, proposed. destruct k as [|k]; [by rewrite bool_decide_eq_true_2|].
  apply orb_true_intro. right. rewrite <- (app_str_assoc base "--"), HasPrefix_app, sdrop_app, Itoa_digits by lia.
  by rewrite bool_decide_eq_false_2.
Qed.

Lemma proposed_inj base j k : Z.of_nat j < 2 ^ 63 → Z.of_nat k < 2 ^ 63 → proposed base j = proposed base k → j = k.
Proof.
  intros Hj Hk. assert (∀ n, base ≠ base ++ "--" ++ n) as Hne.
  { intros n E. apply (f_equal String.length) in E. rewrite !app_str_length in E. simpl in E. lia. }
  unfold proposed. destruct j as [|j], k as [|k]; try done; intros E.
  - by apply Hne in E.
  - symmetry in E. by apply Hne in E.
  - apply app_str_inj, app_str_inj in E. apply (f_equal Atoi) in E. rewrite !Itoa_Atoi in E by lia. injection E as E. lia.
Qed.

Lemma find_name_None fuel base counts i :
  find_name fuel base counts i = None → ∀ j, (j < fuel)%nat → is_Some (counts !! proposed base (i + j)).
Proof.
  revert i. induction fuel as [|fuel IH]; intros i Hf j Hj; [lia|]. simpl in Hf.
  destruct (counts !! proposed base i) eqn:E; [|done]. destruct j as [|j]; [rewrite Nat.add_0_r; eauto|].
  replace (i + S j)%nat with (S i + j)%nat by lia. apply IH; [done|lia].
Qed.

(** More names are tried than there are groups, so one of them is free. *)
Lemma find_name_total base counts :
  Z.of_nat (size counts) < 2 ^ 63 → is_Some (find_name (S (size counts)) base counts 0).
Proof.
  intros Hsz. apply not_eq_None_Some. intros Hn.
  set (names := proposed base <$> seq 0 (S (size counts))).
  assert (NoDup names) as Hnd.
  { apply NoDup_fmap_2_strong; [|apply NoDup_seq]. intros j k Hj%elem_of_seq Hk%elem_of_seq. apply proposed_inj; lia. }
  assert (list_to_set names ⊆ dom counts) as Hsub.
  { intros x Hx%elem_of_list_to_set. apply list_elem_of_fmap in Hx as (j & -> & Hj%elem_of_seq).
    apply elem_of_dom. apply (find_name_None _ _ _ 0 Hn). lia. }
  apply subseteq_size in Hsub. rewrite size_list_to_set, size_dom in Hsub by done.
  unfold names in Hsub. rewrite length_fmap, length_seq in Hsub. lia.
Qed.

Lemma find_name_Some fuel base counts i name :
  find_name fuel base counts i = Some name →
  ∃ k, (i <= k)%nat ∧ (k < i + fuel)%nat ∧ name = proposed base k ∧ counts !! name = None ∧ ∀ j, (i <= j < k)%nat → is_Some (counts !! proposed base j).
Proof.
  revert i. induction fuel as [|fuel IH]; intros i Hf; [done|]. simpl in Hf. destruct (counts !! proposed base i) eqn:E.
  - destruct (IH _ Hf) as (k & Hk & Hk' & -> & Hc & Hj). exists k. split_and!; try done; [lia..|].
    intros j Hij. destruct (decide (j = i)) as [->|]; [eauto|]. apply Hj. lia.
  - injection Hf as <-. exists i. split_and!; try done; [lia..|]. intros j Hj. lia.
Qed.

Lemma scan_groups_spec base groups counts minCount bestSG counts' minCount' bestSG' :
  scan_groups base groups counts minCount bestSG = (counts', minCount', bestSG') →
  (∀ id, is_Some (counts' !! id) ↔ is_Some (counts !! id) ∨ (is_group base id = true ∧ ∃ n, (id, n) ∈ groups))
  ∧ (size counts' <= size counts + length groups)%nat
  ∧ minCount' <= minCount
  ∧ (∀ id n, (id, n) ∈ groups → is_group base id = true → minCount' <= n)
  ∧ ((bestSG' = bestSG ∧ minCount' = minCount) ∨ (is_group base bestSG' = true ∧ (bestSG', minCount') ∈ groups ∧ minCount' < minCount)).
Proof.
  revert counts minCount bestSG. induction groups as [|[id n] groups IH]; intros counts minC best Hs.
  { injection Hs as <- <- <-. split_and!; [|lia..|set_solver|by left]. intros id. set_solver. }
  assert (∀ x, (∃ m, (x, m) ∈ (id, n) :: groups) ↔ x = id ∨ ∃ m, (x, m) ∈ groups) as Hex.
  { intros x. split; [|intros [->|[m Hm]]; [exists n; left|exists m; by right]].
    intros [m [[= -> ->]|Hm]%elem_of_cons]; eauto. }
  assert (∀ x, is_Some (<[id := n]> counts !! x) ↔ x = id ∨ is_Some (counts !! x)) as Hins.
  { intros x. rewrite lookup_insert_is_Some'. naive_solver. }
  assert (size (<[id := n]> counts) <= S (size counts))%nat as Hsz by (rewrite map_size_insert; case_match; simpl; lia).
  simpl in Hs. setoid_rewrite Hex. setoid_rewrite elem_of_cons. destruct (is_group base id) eqn:Hg.
  - destruct (Z.ltb_spec n minC); apply IH in Hs as (Hc & Hs & Hm & Hall & Hb); setoid_rewrite Hins in Hc.
    + split_and!; [intros x; rewrite Hc, ?Hins; destruct (decide (x = id)) as [->|]; rewrite ?Hg; intuition congruence|simpl; lia|lia|intros ?? [[= -> ->]|?] ?; [lia|eauto]|].
      right. destruct Hb as [[-> ->]|(? & ? & ?)]; [auto|]. split_and!; [done|by right|lia].
    + split_and!; [intros x; rewrite Hc, ?Hins; destruct (decide (x = id)) as [->|]; rewrite ?Hg; intuition congruence|simpl; lia|lia|intros ?? [[= -> ->]|?] ?; [lia|eauto]|].
      destruct Hb as [?|(? & ? & ?)]; [by left|]. right. split_and!; [done|by right|lia].
  - apply IH in Hs as (Hc & Hs & Hm & Hall & Hb).
    split_and!; [intros x; rewrite Hc, ?Hins; destruct (decide (x = id)) as [->|]; rewrite ?Hg; intuition congruence|simpl; lia|lia|intros ?? [[= -> ->]|?] ?; [congruence|eauto]|].
    destruct Hb as [?|(? & ? & ?)]; [by left|]. right. split_and!; [done|by right|lia].
Qed.

(** What the driver promises of the group it names. *)
Definition good_group (base : string) (limit : Z) (groups : list (string * Z)) (name : string) (create : bool) : Prop :=
  if create then
    (∀ n, (name, n) ∉ groups) ∧ (∀ id n, (id, n) ∈ groups → is_group base id = true → limit <= n)
    ∧ ∃ k, name = proposed base k ∧ ∀ j, (j < k)%nat → ∃ n, (proposed base j, n) ∈ groups
  else ∃ n, (name, n) ∈ groups ∧ n < limit ∧ ∀ id m, (id, m) ∈ groups → is_group base id = true → n <= m.

Lemma is_group_empty base : base ≠ "" → is_group base "" = false.
Proof. destruct base as [|a base]; [done|]. intros _. unfold is_group. by rewrite app_str_cons. Qed.

Lemma choose_group_good base limit groups :
  base ≠ "" → Z.of_nat (length groups) + 1 < 2 ^ 63 →
  ∃ name create, choose_group base limit groups = Some (name, create) ∧ is_group base name = true ∧ good_group base limit groups name create.
Proof.
  intros Hb Hlen. unfold choose_group. destruct (scan_groups base groups ∅ limit "") as [[counts minC] best] eqn:Hs.
  apply scan_groups_spec in Hs as (Hc & Hsz & Hm & Hall & Hbest). rewrite map_size_empty in Hsz.
  setoid_rewrite lookup_empty in Hc. case_decide as He.
  { subst counts. exists base, true. split; [done|]. split; [by apply (proposed_group base 0)|].
    assert (∀ id n, (id, n) ∈ groups → is_group base id = true → False) as Hno.
    { intros id n Hin Hg. destruct (proj2 (Hc id)) as [? Hx]; [right; eauto|]. by rewrite lookup_empty in Hx. }
    split_and!; [intros n Hin; by apply (Hno _ _ Hin), (proposed_group base 0)|by intros ? ? Hin Hg; destruct (Hno _ _ Hin Hg)|].
    exists 0%nat. split; [done|]. intros j Hj. lia. }
  case_decide as Hbs.
  { exists best, false. destruct Hbest as [[-> _]|(Hg & Hin & Hlt)]; [done|]. split_and!; [done..|]. exists minC. eauto. }
  assert (best = "") as -> by (destruct (decide (best = "")); tauto).
  destruct Hbest as [[_ ->]|(Hg & _)]; [|by rewrite is_group_empty in Hg].
  destruct (find_name_total base counts) as [name Hn]; [lia|]. rewrite Hn. exists name, true.
  apply find_name_Some in Hn as (k & _ & Hk & -> & Hfree & Hj).
  split; [done|]. split; [apply proposed_group; [done|lia]|]. split_and!; [|eauto|exists k; split; [done|]].
  - intros n Hin. assert (is_Some (counts !! proposed base k)) as [? Hx]; [|by rewrite Hfree in Hx].
    apply Hc. right. split; [apply proposed_group; [done|lia]|eauto].
  - intros j Hjk. destruct (proj1 (Hc (proposed base j))) as [[? ?]|[_ ?]]; [apply Hj; lia|done|done].
Qed.

Section calls.
Context {W C : Type} `{Pmax W C} `{PoolClient W C}.

Definition getStoragePoolCapacities (symmetrixID storagePoolID : string) (c : C)
    : M W (result error (option SrpCap * option SrpCap * option SrpCap)) :=
  let? srp := lift (GetStoragePool c symmetrixID storagePoolID)
    orelse (λ e, statusError Internal ("Could not retrieve StoragePool " ++ storagePoolID ++ ". Error(" ++ Error e ++ ")")) in
  match pool_SrpCap srp, FbaCap srp, CkdCap srp with
  | Some cap, _, _ => ok (Some cap, None, None)
  | None, None, None => fail (statusError Internal ("all capacities for StoragePool '" ++ storagePoolID ++ "' are empty"))
  | None, fba, ckd => ok (None, fba, ckd)
  end.

Definition validateVolSize (cr : option CapacityRange) (symmetrixID storagePoolID : string) (c : C) : M W (result error Z) :=
  let minSizeBytes := GetRequiredBytes cr in
  let maxSizeBytes := GetLimitBytes cr in
  if (minSizeBytes <? 0) || (maxSizeBytes <? 0) then
    fail (out_of_range ("requested volume size " ++ Itoa minSizeBytes ++ " bytes and limit size " ++ Itoa maxSizeBytes
            ++ " bytes must not be negative"))
  else
    let minSizeBytes := if minSizeBytes =? 0 then DefaultVolumeSizeBytes else minSizeBytes in
    if decide (symmetrixID ≠ "" ∧ storagePoolID ≠ "") then
      let? caps := getStoragePoolCapacities symmetrixID storagePoolID c in
      let '(srp, fba, ckd) := caps in
      ret (size_within minSizeBytes maxSizeBytes (avail_bytes srp fba ckd))
    else ret (size_within minSizeBytes maxSizeBytes MaxVolumeSizeBytes).

(** ** Pools *)
Context `{PoolCache W}.
Variable storagePoolCacheDuration : Z.

Definition validateStoragePoolID (symmetrixID storagePoolID : string) (c : C) : M W (option error) :=
  if decide (storagePoolID = "") then ret (Some (errorString "A valid SRP parameter is required"))
  else
    let* known := Publish.get (knownStoragePools symmetrixID) in
    let* valid :=
      match known !! storagePoolID with
      | Some stamp => let* now := lift (Now (C := C)) in ret (timeSub now stamp <? storagePoolCacheDuration)
      | None => ret false
      end in
    if valid then ret None
    else
      let* r := lift (GetStoragePoolList c symmetrixID) in
      match r with
      | Err e => ret (Some e)
      | Ok list =>
          if bool_decide (storagePoolID ∈ list) then
            let* now := lift (Now (C := C)) in
            let* known := Publish.get (knownStoragePools symmetrixID) in
            let* _ := Publish.modify (setKnownStoragePools symmetrixID (<[storagePoolID := now]> known)) in ret None
          else ret (Some (statusError InvalidArgument ("Storage Pool " ++ storagePoolID ++ " not found")))
      end.

(** ** Storage groups by volume count *)
Variable GetPowerMaxClient : string → M W (result error C).
Variable sgVolumeLimit : Z.

Definition getDynamicSG (arrayID baseSGName : string) : M W (result error (string * bool)) :=
  let? c := GetPowerMaxClient arrayID
    orelse (λ e, errorString ("failed to get PowerMax client for array " ++ arrayID ++ ": " ++ Error e)) in
  let? groups := lift (GetStorageGroupVolumeCounts c arrayID baseSGName)
    orelse (λ e, errorString ("failed to get storage group volume counts for array " ++ arrayID ++ ": " ++ Error e)) in
  match choose_group baseSGName sgVolumeLimit groups with
  | Some r => ok r
  | None => panic
  end.

(** ** Requests *)
Context `{MaskingClient W C} `{FileClient W C}.
Variable StorageArrays : gmap string StorageArrayConfig.
Variables (useProxy autoProbe : bool) (grpcMaxThreads : Z).
Variable controllerProbe : M W (option error).
(** selectArrayFromTopology, modelled in [Capacity], for the topology of the request. *)
Variable selectArrayFromTopology : M W (result error string).

Definition probe : M (tables * W) (option error) := requireProbe useProxy autoProbe grpcMaxThreads controllerProbe true.

Definition client_of (symmetrixID : string) : M (tables * W) (result error C) :=
  let? c := on_arrays (GetPowerMaxClient symmetrixID) orelse (λ e, statusError NotFound (Error e)) in ok c.

(** Available capacity and maximal size. *)
Definition GetCapacity (params : gmap string string) : M (tables * W) (result error (Z * Z)) :=
  let? symmetrixID :=
    (let p := default "" (params !! SymmetrixIDParam) in
     if decide (p = "") then on_arrays selectArrayFromTopology else ok p) in
  let? c := client_of symmetrixID in
  do? probe in
  let storagePoolID := resolveParameter StorageArrays params symmetrixID StoragePoolParam "" in
  do? on_arrays (validateStoragePoolID symmetrixID storagePoolID c) orelse (λ e, statusError InvalidArgument (Error e)) in
  let? caps := on_arrays (getStoragePoolCapacities symmetrixID storagePoolID c)
    orelse (λ e, statusError Internal ("Could not retrieve StoragePool " ++ storagePoolID ++ ". Error(" ++ Error e ++ ")")) in
  let '(srp, fba, ckd) := caps in
  let '(total, used) := default (fzero, fzero) (pool_capacity srp fba ckd) in
  let remaining := fmul (fmul (fmul (fsub total used) (float_of_Z 1024)) (float_of_Z 1024)) (float_of_Z 1024) in
  ok (int64_of_float remaining, MaxVolumeSizeBytes).

(** On the array, with the range of the request; CapacityBytes and NodeExpansionRequired. *)
Definition expand_volume (id : string) (r : CapacityRange) (c : C) : M W (result error (Z * bool)) :=
  let? found := service_GetVolumeByID id c orelse (λ e, statusError InvalidArgument (Error e)) in
  let '(symID, devID, vol) := found in
  let? requestedSize := validateVolSize (Some r) "" "" c orelse (λ e, statusError Internal (Error e)) in
  let rdfGNo := default 0 (head (RDFGroupIDList vol)) in
  let allocatedSize := CapacityCYL vol in
  if requestedSize <? allocatedSize then
    fail (statusError InvalidArgument "Attempting to shrink the volume size - unsupported operation")
  else if requestedSize =? allocatedSize then ok (wrap64 (allocatedSize * cylinderSizeInBytes), true)
  else
    let? vol := lift (ExpandVolume c symID devID rdfGNo requestedSize) orelse (λ e, statusError Internal (Error e)) in
    ok (wrap64 (CapacityCYL vol * cylinderSizeInBytes), true).

Definition ControllerExpandVolume (id : string) (cr : option CapacityRange) (vc : VolumeCapability)
    : M (tables * W) (result error (Z * bool)) :=
  match parseCsiID id with
  | None => panic
  | Some (Err _) => fail (statusError InvalidArgument ("Invalid volume id: " ++ id))
  | Some (Ok csi) =>
      let? c := client_of (arrayID csi) in
      do? probe in
      match cr with
      | None => fail (statusError InvalidArgument "Invalid argument - CapacityRange not set")
      | Some r =>
          if accTypeIsNFS [vc] then
            on_arrays (ExpandFileSystem (arrayID csi) (VolumeID.devID csi) (Z.quot (RequiredBytes r) MiBSizeInBytes) c)
          else on_arrays (expand_volume id r c)
      end
  end.

(** ** Theorems *)
Lemma avail_bytes_bound srp fba ckd : avail_bytes srp fba ckd + cylinderSizeInBytes < 2 ^ 63.
Proof.
  unfold avail_bytes, cylinderSizeInBytes. destruct (pool_capacity srp fba ckd) as [[total used]|]; [|by unfold MaxVolumeSizeBytes].
  set (x := int64_of_float _). unfold wrap64, GB.
  pose proof (Z.div_mod (x * (1024 * 1024 * 1024) + 2 ^ 63) (2 ^ 64)). pose proof (Z.mod_pos_bound (x * (1024 * 1024 * 1024) + 2 ^ 63) (2 ^ 64)). lia.
Qed.

Lemma computeRequired_cylinders cr n : computeRequiredCylinders cr = Ok n → n = cylinders (wanted (GetRequiredBytes cr)).
Proof. unfold computeRequiredCylinders. rewrite wanted_min. case_match; [done|]. case_match; [done|]. by intros [= <-]. Qed.

Lemma computeRequired_nonneg cr n : computeRequiredCylinders cr = Ok n → 0 <= GetRequiredBytes cr ∧ 0 <= GetLimitBytes cr.
Proof.
  unfold computeRequiredCylinders. destruct (Z.ltb_spec (GetRequiredBytes cr) 0); [done|].
  destruct (Z.ltb_spec (GetLimitBytes cr) 0); [done|]. auto.
Qed.

Lemma size_agrees cr avail n :
  0 <= GetRequiredBytes cr → 0 <= GetLimitBytes cr → avail + cylinderSizeInBytes < 2 ^ 63 →
  size_within (if GetRequiredBytes cr =? 0 then DefaultVolumeSizeBytes else GetRequiredBytes cr) (GetLimitBytes cr) avail = Ok n ↔
  computeRequiredCylinders cr = Ok n ∧ GetLimitBytes cr <= avail ∧ n * cylinderSizeInBytes <= avail.
Proof.
  intros Hr Hl Ha. rewrite size_within_spec by done.
  assert (0 <= wanted (GetRequiredBytes cr)) as Hw by (unfold wanted, MinVolumeSizeBytes; lia).
  pose proof (cylinders_bounds _ Hw) as Hc. split.
  - intros (-> & ? & ? & ?). split; [|done]. apply computeRequired_spec; [lia|auto].
  - intros (Hn & ? & ?). assert (n = cylinders (wanted (GetRequiredBytes cr))) as -> by by apply computeRequired_cylinders.
    apply computeRequired_spec in Hn as (_ & _ & _ & ?); [auto|lia].
Qed.

(** Both ways of creating a volume give it the same size. The size is the least
    number of cylinders that holds what is asked for (the default when nothing is, the
    minimum of the arrays when it is less) and respects the limit of the request; the
    check of the older interface accepts a request exactly when the newer one does and
    the limit and the volume fit into the pool. *)
Theorem sizes_agree cr symmetrixID storagePoolID c w w' srp :
  wanted (GetRequiredBytes cr) + cylinderSizeInBytes < 2 ^ 63 →
  symmetrixID ≠ "" → storagePoolID ≠ "" → GetStoragePool c symmetrixID storagePoolID w = (Ok srp, w') →
  pool_capacity (pool_SrpCap srp) (FbaCap srp) (CkdCap srp) ≠ None →
  let avail := avail_bytes (pool_SrpCap srp) (FbaCap srp) (CkdCap srp) in
  ∀ n,
    (computeRequiredCylinders cr = Ok n →
       wanted (GetRequiredBytes cr) <= n * cylinderSizeInBytes ∧ (n - 1) * cylinderSizeInBytes < wanted (GetRequiredBytes cr)
       ∧ (GetLimitBytes cr = 0 ∨ n * cylinderSizeInBytes <= GetLimitBytes cr))
    ∧ (validateVolSize cr symmetrixID storagePoolID c w = Some (Ok n, w') ↔
       computeRequiredCylinders cr = Ok n ∧ GetLimitBytes cr <= avail ∧ n * cylinderSizeInBytes <= avail).
Proof.
  intros Hov Hs Hp Hpool Hcap avail n. split.
  { intros (? & ? & -> & Hl)%computeRequired_spec; [|done]. split_and!; [..|done];
      pose proof (cylinders_bounds (wanted (GetRequiredBytes cr))); unfold wanted, MinVolumeSizeBytes in *; lia. }
  unfold validateVolSize. destruct (decide (0 <= GetRequiredBytes cr ∧ 0 <= GetLimitBytes cr)) as [[Hr Hl]|Hneg].
  - destruct (Z.ltb_spec (GetRequiredBytes cr) 0); [lia|]. destruct (Z.ltb_spec (GetLimitBytes cr) 0); [lia|]. cbn [orb].
    rewrite decide_True by done. rewrite <- size_agrees by (done || apply avail_bytes_bound).
    unfold try, getStoragePoolCapacities, mbnd, lift, try, mbnd. rewrite Hpool.
    subst avail. destruct (pool_SrpCap srp), (FbaCap srp), (CkdCap srp); try done; simpl; unfold ret; (split; intros E; [injection E as E; exact E|f_equal; f_equal; exact E]).
  - split.
    + destruct (Z.ltb_spec (GetRequiredBytes cr) 0), (Z.ltb_spec (GetLimitBytes cr) 0); cbn [orb]; (done || lia).
    + intros [?%computeRequired_nonneg _]. lia.
Qed.

(** GetDynamicSG always answers, and with a usable group: an existing group of the base
    name has fewer volumes than the limit and no other has less; a new one is proposed only
    when all are full, its name is free, and it is the first of the base name and its
    numbered variants that is. *)
Theorem dynamic_sg_spec arrayID base c w w1 w2 groups :
  base ≠ "" → Z.of_nat (length groups) + 1 < 2 ^ 63 →
  GetPowerMaxClient arrayID w = Some (Ok c, w1) → GetStorageGroupVolumeCounts c arrayID base w1 = (Ok groups, w2) →
  ∃ name create, getDynamicSG arrayID base w = Some (Ok (name, create), w2)
    ∧ is_group base name = true ∧ good_group base sgVolumeLimit groups name create.
Proof.
  intros Hb Hlen Hc Hg. destruct (choose_group_good base sgVolumeLimit groups Hb Hlen) as (name & create & E & Hn & Hgood).
  exists name, create. split; [|done]. unfold getDynamicSG, try, mbnd, lift. by rewrite Hc, Hg, E.
Qed.

Lemma expand_volume_exact id csi r c vol w n :
  parseCsiID id = Some (Ok csi) → GetVolumeByID c (arrayID csi) (VolumeID.devID csi) w = (Ok vol, w) →
  Publish.volumeIdentifiersMatch (volName csi) (VolumeIdentifier vol) = true →
  computeRequiredCylinders (Some r) = Ok n → LimitBytes r <= MaxVolumeSizeBytes → n * cylinderSizeInBytes <= MaxVolumeSizeBytes →
  expand_volume id r c w
  = if n <? CapacityCYL vol then fail (statusError InvalidArgument "Attempting to shrink the volume size - unsupported operation") w
    else if n =? CapacityCYL vol then ok (wrap64 (CapacityCYL vol * cylinderSizeInBytes), true) w
    else try (lift (ExpandVolume c (arrayID csi) (VolumeID.devID csi) (default 0 (head (RDFGroupIDList vol))) n))
           (λ e, statusError Internal (Error e)) (λ vol, ok (wrap64 (CapacityCYL vol * cylinderSizeInBytes), true)) w.
Proof.
  intros Hp Hg Hm Hn Hl Hsz. unfold expand_volume, service_GetVolumeByID. rewrite Hp.
  unfold try at 1, mbnd at 1, try at 1, mbnd at 1, lift at 1. rewrite Hg, Hm. cbn [negb ok].
  unfold try at 1, mbnd at 1, ok at 1, ret at 1, validateVolSize.
  destruct (computeRequired_nonneg _ _ Hn) as [Hr0 Hl0]. change (0 <= RequiredBytes r) in Hr0. change (0 <= LimitBytes r) in Hl0.
  change (GetRequiredBytes (Some r)) with (RequiredBytes r). change (GetLimitBytes (Some r)) with (LimitBytes r).
  destruct (Z.ltb_spec (RequiredBytes r) 0); [lia|]. destruct (Z.ltb_spec (LimitBytes r) 0); [lia|]. cbn [orb].
  rewrite decide_False by naive_solver. unfold ret at 1.
  assert (size_within (if RequiredBytes r =? 0 then DefaultVolumeSizeBytes else RequiredBytes r) (LimitBytes r) MaxVolumeSizeBytes = Ok n) as ->;
    [by apply (size_agrees (Some r))|].
  destruct (n <? CapacityCYL vol); [done|]. by destruct (n =? CapacityCYL vol).
Qed.

(** The request up to the volume's expansion. *)
Lemma expand_request id csi r vc c t w :
  parseCsiID id = Some (Ok csi) → GetPowerMaxClient (arrayID csi) w = Some (Ok c, w) → accTypeIsNFS [vc] = false →
  let max := if useProxy then 50 else grpcMaxThreads in
  ControllerExpandVolume id (Some r) vc (t, w)
  = on_arrays (expand_volume id r c) (limited max t, w).
Proof.
  intros Hp Hc Hv max. unfold ControllerExpandVolume. rewrite Hp.
  unfold try at 1, mbnd at 1, client_of, try at 1, mbnd at 1, on_arrays at 1. cbn [fst snd]. rewrite Hc. unfold ok at 1, ret at 1. rewrite Hv. done.
Qed.

(** Growing a volume is idempotent and never shrinks it. A request for more cylinders
    than the volume has expands it to exactly the least number that holds what is asked for;
    repeated, it gives the same answer without another call that changes the array; a later
    request for less is refused, with nothing changed. *)
Theorem expand_idempotent id csi r vc c vol vol' t w w' n :
  parseCsiID id = Some (Ok csi) → accTypeIsNFS [vc] = false →
  (∀ v, v = w ∨ v = w' → GetPowerMaxClient (arrayID csi) v = Some (Ok c, v)) →
  GetVolumeByID c (arrayID csi) (VolumeID.devID csi) w = (Ok vol, w) →
  GetVolumeByID c (arrayID csi) (VolumeID.devID csi) w' = (Ok vol', w') →
  (∀ v, v = vol ∨ v = vol' → Publish.volumeIdentifiersMatch (volName csi) (VolumeIdentifier v) = true) →
  computeRequiredCylinders (Some r) = Ok n → LimitBytes r <= MaxVolumeSizeBytes → n * cylinderSizeInBytes <= MaxVolumeSizeBytes →
  CapacityCYL vol < n →
  ExpandVolume c (arrayID csi) (VolumeID.devID csi) (default 0 (head (RDFGroupIDList vol))) n w = (Ok vol', w') → CapacityCYL vol' = n →
  let max := if useProxy then 50 else grpcMaxThreads in
  let t' := limited max t in
  let answer := Ok (n * cylinderSizeInBytes, true) in
  ControllerExpandVolume id (Some r) vc (t, w) = Some (answer, (t', w'))
  ∧ ControllerExpandVolume id (Some r) vc (t', w') = Some (answer, (t', w'))
  ∧ ∀ r' n', computeRequiredCylinders (Some r') = Ok n' → n' < n → LimitBytes r' <= MaxVolumeSizeBytes →
      ControllerExpandVolume id (Some r') vc (t', w')
      = Some (Err (statusError InvalidArgument "Attempting to shrink the volume size - unsupported operation"), (t', w')).
Proof.
  intros Hp Hv Hc Hg Hg' Hm Hn Hl Hsz Hlt Hex Hcap max t' answer.
  assert (wrap64 (n * cylinderSizeInBytes) = n * cylinderSizeInBytes) as Hw.
  { apply wrap64_id. unfold in64, MaxVolumeSizeBytes in *. pose proof (computeRequired_cylinders _ _ Hn).
    pose proof (cylinders_bounds (wanted (GetRequiredBytes (Some r)))). unfold wanted, MinVolumeSizeBytes in *. lia. }
  assert (∀ r0, ControllerExpandVolume id (Some r0) vc (t', w') = on_arrays (expand_volume id r0 c) (t', w')) as Hreq.
  { intros r0. by rewrite (expand_request id csi r0 vc c) by auto. }
  split_and!.
  - rewrite (expand_request id csi r vc c) by auto. unfold on_arrays. simpl. rewrite (expand_volume_exact id csi r c vol w n) by auto.
    destruct (Z.ltb_spec n (CapacityCYL vol)); [lia|]. destruct (Z.eqb_spec n (CapacityCYL vol)); [lia|].
    unfold try, mbnd, lift. rewrite Hex, Hcap. by rewrite Hw.
  - rewrite Hreq. unfold on_arrays. simpl. rewrite (expand_volume_exact id csi r c vol' w' n) by auto.
    rewrite Hcap, Z.ltb_irrefl, Z.eqb_refl. by rewrite Hw.
  - intros r' n' Hn' Hlt' Hl'. rewrite Hreq. unfold on_arrays. simpl. rewrite (expand_volume_exact id csi r' c vol' w' n') by (auto; unfold cylinderSizeInBytes in *; lia).
    rewrite Hcap. by destruct (Z.ltb_spec n' n); [|lia].
Qed.
End calls.

(** ** Examples *)
Import SimArray.

(** One pool with 5 TB of which 1 TB is used, and 4000 volumes in the first group. *)
#[export] Instance sim_pools : PoolClient Sim string := {
  GetStoragePool _ _ _ w := (Ok (mkPool (Some (Capacity.mkSrpCap (float_of_Z 5) (float_of_Z 1))) None None), w);
  GetStoragePoolList _ _ w := (Ok ["SRP_1"], w);
  GetStorageGroupVolumeCounts _ _ base w := (Ok [(base, 4000); (base ++ "-x", 3); (base ++ "--1", 4000)], w);
  ExpandVolume _ _ id _ n w :=
    let w' := mkSim (sim_time w) (sim_version w)
      ((λ v, if bool_decide (Pmax.VolumeID v = id)
             then mkVolume (Pmax.VolumeID v) (VolumeIdentifier v) (StorageGroupIDList v) (SnapSource v) (SnapTarget v) (EffectiveWWN v)
                    (NumberOfFrontEndPaths v) n (RDFGroupIDList v) (Volume_CapacityGB v) else v) <$> sim_volumes w)
      (sim_snaps w) (sim_sg w) (sim_rdf w) (sim_group w) (sim_dirs w) (sim_log w) (sim_licenses w) in
    (find_volume id w', w');
}.

Definition vol_of (cyl : Z) : Volume := mkVolume "011AB" "csi-ABC-pmax-0123456789-ns" [] false false "" 0 cyl [] fzero.
Definition world (cyl : Z) : Sim := sim [vol_of cyl] (mkStorageGroupRDFG [] []).

(** Ten GB are 5462 cylinders, and fit into 4 TB. *)
Lemma sizes_agree_witness :
  let cr := Some (mkRange (10 * GB) 0) in
  validateVolSize cr "000120000548" "SRP_1" "c" (world 100) = Some (Ok 5462, world 100)
  ∧ (10 * GB <= 5462 * cylinderSizeInBytes ∧ 5461 * cylinderSizeInBytes < 10 * GB).
Proof.
  intros cr.
  destruct (sizes_agree cr "000120000548" "SRP_1" "c" (world 100) (world 100)
    (mkPool (Some (Capacity.mkSrpCap (float_of_Z 5) (float_of_Z 1))) None None) ltac:(vm_compute; reflexivity) ltac:(done) ltac:(done)
    eq_refl ltac:(done) 5462) as [H1 H2].
  assert (computeRequiredCylinders cr = Ok 5462) as E by by vm_compute.
  split; [apply H2; split_and!; [exact E|by vm_compute..]|]. destruct (H1 E) as (Ha & Hb & _). split; [exact Ha|exact Hb].
Defined.

Lemma dynamic_sg_spec_witness :
  ∃ name create, getDynamicSG (λ _, ret (Ok "c")) 4000 "000120000548" "csi-SG" (world 100) = Some (Ok (name, create), world 100)
    ∧ is_group "csi-SG" name = true
    ∧ good_group "csi-SG" 4000 [("csi-SG", 4000); ("csi-SG-x", 3); ("csi-SG--1", 4000)] name create.
Proof.
  by apply (dynamic_sg_spec (λ _, ret (Ok "c")) 4000 "000120000548" "csi-SG" "c" (world 100) (world 100)).
Defined.
Example dynamic_sg_second : choose_group "csi-SG" 4000 [("csi-SG", 4000); ("csi-SG-x", 3); ("csi-SG--1", 4000)] = Some ("csi-SG--2", true).
Proof. by vm_compute. Qed.

Lemma expand_idempotent_witness :
  let t := mkTables (Pending.mkPending 50 0 ∅) (Pending.mkPending 50 0 ∅) (Pending.mkPending 50 0 ∅) in
  let id := "csi-ABC-pmax-0123456789-ns-000120000548-011AB" in
  let expand r := ControllerExpandVolume (C := string) (λ _, ret (Ok "c")) true false 4 (ret None) id (Some r) (Publish.mkCapability None None false) in
  let answer := Ok (5462 * cylinderSizeInBytes, true) in
  expand (mkRange (10 * GB) 0) (t, world 100) = Some (answer, (t, world 5462))
  ∧ expand (mkRange (10 * GB) 0) (t, world 5462) = Some (answer, (t, world 5462))
  ∧ ∀ r' n', computeRequiredCylinders (Some r') = Ok n' → n' < 5462 → LimitBytes r' <= MaxVolumeSizeBytes →
      expand r' (t, world 5462)
      = Some (Err (statusError InvalidArgument "Attempting to shrink the volume size - unsupported operation"), (t, world 5462)).
Proof.
  intros t id expand answer.
  apply (expand_idempotent (λ _, ret (Ok "c")) true false 4 (ret None) id
    (mkCsiID "csi-ABC-pmax-0123456789-ns" "000120000548" "011AB" "" "") (mkRange (10 * GB) 0)
    (Publish.mkCapability None None false) "c" (vol_of 100) (vol_of 5462) t (world 100) (world 5462) 5462);
    try (intros ? [->| ->]); (reflexivity || by vm_compute).
Defined.

(** A request within a cylinder of the largest int64 passes any limit. *)
Example size_overflow : computeRequiredCylinders (Some (mkRange (2 ^ 63 - 1) (10 * GB))) = Ok 4691249611845.
Proof. by vm_compute. Qed.
End Sizes.
