(* ===== verification/Creator.v ===== *)
(** * Creation of volumes over the 10.4 interface

    Models u4p104VolumeCreator of service/volume_creator.go, the choice between it
    and the older creator (creatorFor of service/backend_selection.go) and
    IsSnapshotLicensed of service/snap.go. One call of the array creates the
    volume, names it and puts it into its storage group; the array recognises a
    repeated request by the volume's identifier. What the creator needs of the
    service is the class [ServiceDeps], the interface U4P104ServiceDeps of the
    source. *)

From stdpp Require Import base gmap strings list.
From Stdlib Require Import ZArith Lia Ascii SpecFloat.
From S2P Require Import Prelude GoLib Ordering Pmax SimArray PowerMax VolumeID DeletionWorker Capacity Masking Trace Handler Pending Rpc Files Publish Sizes.

Module Creator.
Import PowerMax VolumeID Masking Files Rpc Sizes.
Import Publish(VolumeCapability, accTypeIsNFS, accTypeIsBlock).
Open Scope go_scope.
Open Scope handler_scope.
Open Scope string_scope.
Open Scope Z_scope.

(** ** Text *)
(** Components of a path that remain after "", "." and "..". *)
Fixpoint clean_components (rooted : bool) (l out : list string) : list string :=
  match l with
  | [] => rev out
  | x :: l =>
      if decide (x = "" ∨ x = ".") then clean_components rooted l out
      else if decide (x = "..") then
        match out with
        | y :: out' => if decide (y = "..") then clean_components rooted l (x :: out) else clean_components rooted l out'
        | [] => if rooted then clean_components rooted l [] else clean_components rooted l [x]
        end
      else clean_components rooted l (x :: out)
  end.
(** [path.Clean] and [path.Join] *)
Definition path_clean (p : string) : string :=
  let rooted := HasPrefix p "/" in
  let r := (if rooted then "/" else "") ++ Join "/" (clean_components rooted (Split "/"%char p) []) in
  if decide (r = "") then "." else r.
Definition path_join (a b : string) : string :=
  match List.filter (λ s, negb (bool_decide (s = ""))) [a; b] with
  | [] => ""
  | l => path_clean (Join "/" l)
  end.

(** [fmt.Sprintf("%.2f", f)]: the exact value, rounded half to even. *)
Definition hundredths (m : positive) (e : Z) : Z :=
  if 0 <=? e then Zpos m * 2 ^ e * 100
  else
    let d := 2 ^ (- e) in
    let q := (Zpos m * 100) / d in
    let r := (Zpos m * 100) mod d in
    if (d <? 2 * r) || ((2 * r =? d) && Z.odd q) then q + 1 else q.
Definition two_digits (n : Z) : string := (if n <? 10 then "0" else "") ++ Itoa n.
Definition Sprintf_2f (f : float64) : string :=
  let fixed n := Itoa (n / 100) ++ "." ++ two_digits (n mod 100) in
  match f with
  | S754_zero s => (if s then "-" else "") ++ "0.00"
  | S754_infinity s => if s then "-Inf" else "+Inf"
  | S754_nan => "NaN"
  | S754_finite s m e => (if s then "-" else "") ++ fixed (hundredths m e)
  end.

(** ** Data *)
Inductive VolumeContentSource :=
| SourceSnapshot (SnapshotId : string)
| SourceVolume (VolumeId : string)
| SourceNone.

Record CreateVolumeRequest := mkCreateRequest {
  req_Name : string;
  req_Parameters : gmap string string;
  req_Capabilities : option (list VolumeCapability);
  req_Range : option CapacityRange;
  req_Source : option VolumeContentSource;
  (** Preferred topologies, when the request has accessibility requirements. *)
  req_Preferred : option (list (gmap string string));
}.

Record csi_Volume := mkCsiVolume {
  resp_VolumeId : string;
  resp_CapacityBytes : Z;
  resp_Context : context;
  resp_Source : option VolumeContentSource;
  resp_Topology : list (gmap string string);
}.

Record HostIOLimitInfo := mkLimits { limit_MBSec : Z; limit_IOSec : Z; limit_Distribution : string }.

Record VolumeStorageGroupParam := mkGroupParam {
  group_ID : string;
  group_SRP : string;
  group_ServiceLevel : string;
  group_Limits : option HostIOLimitInfo;
}.

(** CreateNew of a volume of some size in cylinders, empty or from a snapshot. *)
Inductive CreateNew :=
| FromAttributes (VolumeSize : float64)
| FromSnapshot (snapshot : string) (VolumeSize : float64).

(** CopyFrom names the source of a clone, copied with establish_terminate. *)
Record CreateVolumesRequest := mkCreateVolumes {
  cv_Identifier : string;
  cv_CreateNew : CreateNew;
  cv_PrecheckSRP : string;
  cv_Group : VolumeStorageGroupParam;
  cv_CopyFrom : option string;
  cv_RequestID : string;
  cv_ResponseSelect : string;
}.

Record Volume104 := mkVolume104 { v_ID : string; v_Identifier : string; v_CapCyl : float64 }.
Record VolumeResult := mkVolumeResult { r_Volume : option Volume104; r_StorageGroup : option string }.

(** A snapshot of a device and the snap ids of its generations, which may be missing. *)
Record VolumeSnapshot := mkVolumeSnapshot { vs_SnapshotName : string; vs_Sources : option (list Z) }.

(** Calls of the array; a response may be missing. *)
Class CreateClient (W C : Type) := {
  client_CreateVolume : C → string → CreateVolumesRequest → gmap string (list string) → W → result error (option (list VolumeResult)) * W;
  GetVolumesByIdentifier : C → string → string → W → result error (list Volume104) * W;
  GetSnapshotInfo : C → string → string → string → W → result error VolumeSnapshot * W;
  IsAllowedArray : C → string → option error;
  (** Array and whether it has SnapVX. *)
  GetReplicationCapabilities : C → W → result error (list (string * bool)) * W;
}.

(** Why a snapshot licence is missing. *)
Inductive license_error := ArrayNotManaged (e : error) | Unlicensed (e : error).
Definition license_cause (e : license_error) : error := match e with ArrayNotManaged e | Unlicensed e => e end.

Class ServiceDeps (W C : Type) := {
  deps_resolveParameter : gmap string string → string → string → string → string;
  isDynamicSGEnabled : bool;
  getReplicationContextPrefix : string;
  getClusterPrefix : string;
  isSnapshotLicensed : string → C → M W (option license_error);
  deps_getDynamicSG : string → string → M W (result error (string * bool));
  getStorageArrayLabels : string → gmap string string;
  isBlockEnabled : bool;
}.

Record u4p104VolumeCreator (C : Type) := mkCreator {
  pmaxClient : C;
  pmaxClient104 : C;
  symmetrixID : string;
  reqID : string;
  symmIDFoundInAZ : bool;
}.
Arguments mkCreator {C}.
Arguments pmaxClient {C}.
Arguments pmaxClient104 {C}.
Arguments symmetrixID {C}.
Arguments reqID {C}.
Arguments symmIDFoundInAZ {C}.

(** ** Names and requests *)
Definition StorageGroupParam := "StorageGroup".
Definition ApplicationPrefixParam := "ApplicationPrefix".
Definition HostLimitNameParam := "HostLimitName".
Definition HostIOLimitMBSecParam := "HostIOLimitMBSec".
Definition HostIOLimitIOSecParam := "HostIOLimitIOSec".
Definition DynamicDistributionParam := "DynamicDistribution".
Definition ThickVolumesParam := "ThickVolumes".
Definition RepEnabledParam := "isReplicationEnabled".
Definition CSIPVCNamespace := "csi.storage.k8s.io/pvc/namespace".
Definition CSIPersistentVolumeName := "csi.storage.k8s.io/pv/name".
Definition CSIPersistentVolumeClaimName := "csi.storage.k8s.io/pvc/name".
Definition HeaderPersistentVolumeName := "x-csi-pv-name".
Definition HeaderPersistentVolumeClaimName := "x-csi-pv-claimname".
Definition HeaderPersistentVolumeClaimNamespace := "x-csi-pv-namespace".
Definition CapacityGB := "CapacityGB".
Definition ContentSource := "VolumeContentSource".
Definition StorageGroup := "StorageGroup".
Definition createVolumesResponseSelect := "id,identifier,cap_cyl,storage_groups".
Definition validSLO : list string := ["Diamond"; "Platinum"; "Gold"; "Silver"; "Bronze"; "Optimized"; "None"].

Definition isValidSLO (slo : string) : bool := bool_decide (slo ∈ validSLO).

(** A limit that is given is a number and not negative. *)
Definition io_limit (param value : string) : result error Z :=
  if decide (value = "") then Ok 0
  else match Atoi value with
       | None => Err (statusError InvalidArgument ("invalid " ++ param ++ " value: " ++ value))
       | Some n => if n <? 0 then Err (statusError InvalidArgument (param ++ " must be non-negative")) else Ok n
       end.

Definition buildHostIOLimitInfo (hostIOLimitMBSec hostIOLimitIOSec dynamicDistribution : string) : result error (option HostIOLimitInfo) :=
  if decide (hostIOLimitMBSec = "" ∧ hostIOLimitIOSec = "" ∧ dynamicDistribution = "") then Ok None
  else
    match io_limit HostIOLimitMBSecParam hostIOLimitMBSec with
    | Err e => Err e
    | Ok mbSec =>
        match io_limit HostIOLimitIOSecParam hostIOLimitIOSec with
        | Err e => Err e
        | Ok ioSec => Ok (Some (mkLimits mbSec ioSec dynamicDistribution))
        end
    end.

(** The panic of truncateString comes with a prefix of the cluster that is too long. *)
Definition buildVolumeIdentifier (clusterPrefix volumeName namespace : string) : option string :=
  let maxLength := MaxVolIdentifierLength - slen clusterPrefix - slen clusterPrefix - slen CsiVolumePrefix - 1 in
  shortVolumeName ← truncateString volumeName maxLength;
  Some (if decide (namespace = "") then CsiVolumePrefix ++ clusterPrefix ++ "-" ++ shortVolumeName
        else CsiVolumePrefix ++ clusterPrefix ++ "-" ++ shortVolumeName ++ "-" ++ namespace).

Definition resolveStorageGroupName (currentSGName clusterPrefix applicationPrefix serviceLevel storagePoolID hostLimitName : string) : string :=
  if decide (currentSGName ≠ "") then currentSGName
  else
    let name :=
      if decide (applicationPrefix = "") then CSIPrefix ++ "-" ++ clusterPrefix ++ "-" ++ serviceLevel ++ "-" ++ storagePoolID ++ "-SG"
      else CSIPrefix ++ "-" ++ clusterPrefix ++ "-" ++ applicationPrefix ++ "-" ++ serviceLevel ++ "-" ++ storagePoolID ++ "-SG" in
    if decide (hostLimitName ≠ "") then name ++ "-" ++ hostLimitName else name.

Definition buildManageVolumeStorageGroupAction (storageGroupName storagePoolID serviceLevel : string) (limits : option HostIOLimitInfo)
    : VolumeStorageGroupParam := mkGroupParam storageGroupName storagePoolID serviceLevel limits.

Definition buildCreateVolumesRequest (requiredCylinders : Z) (storagePoolID serviceLevel storageGroupName volumeIdentifier : string)
    (limits : option HostIOLimitInfo) (reqID : string) : CreateVolumesRequest :=
  mkCreateVolumes volumeIdentifier (FromAttributes (float_of_Z requiredCylinders)) storagePoolID
    (buildManageVolumeStorageGroupAction storageGroupName storagePoolID serviceLevel limits) None reqID createVolumesResponseSelect.

Definition buildCreateVolumeFromSnapshotRequest (requiredCylinders : Z) (snapshotID storagePoolID serviceLevel storageGroupName volumeIdentifier : string)
    (limits : option HostIOLimitInfo) (reqID : string) : CreateVolumesRequest :=
  mkCreateVolumes volumeIdentifier (FromSnapshot snapshotID (float_of_Z requiredCylinders)) storagePoolID
    (buildManageVolumeStorageGroupAction storageGroupName storagePoolID serviceLevel limits) None reqID createVolumesResponseSelect.

Definition buildCloneVolumesRequest (requiredCylinders : Z) (srcDevID storagePoolID serviceLevel storageGroupName volumeIdentifier : string)
    (limits : option HostIOLimitInfo) (reqID : string) : CreateVolumesRequest :=
  mkCreateVolumes volumeIdentifier (FromAttributes (float_of_Z requiredCylinders)) storagePoolID
    (buildManageVolumeStorageGroupAction storageGroupName storagePoolID serviceLevel limits) (Some srcDevID) reqID createVolumesResponseSelect.

Definition classifyCreateVolumeError (err : error) : error :=
  let msg := Error err in
  if Contains msg "does not match existing volume size" then
    statusError AlreadyExists ("A volume with the same name exists but has a different size: " ++ msg)
  else if Contains msg "cannot be smaller than source volume size" then
    statusError InvalidArgument "Requested capacity is smaller than the source"
  else if Contains msg "Source Volume" && Contains msg "does not exist" then
    statusError InvalidArgument ("Volume content source couldn't be found in the array: " ++ msg)
  else if Contains msg "No Snapshot found" then statusError InvalidArgument ("Snapshot not found on the array: " ++ msg)
  else statusError Internal ("Failed to create volume: " ++ msg).

Definition addMetaData (params : gmap string string) : gmap string (list string) :=
  let add key header (m : gmap string (list string)) := match params !! key with Some v => <[header := [v]]> m | None => m end in
  add CSIPVCNamespace HeaderPersistentVolumeClaimNamespace
    (add CSIPersistentVolumeClaimName HeaderPersistentVolumeClaimName
      (add CSIPersistentVolumeName HeaderPersistentVolumeName ∅)).

(** Keys in the order of the source's literal; a later one overwrites an earlier one. *)
Definition buildVolumeContext (replicationContextPrefix symmetrixID serviceLevel storagePoolID storageGroupName : string) (capCyl : float64)
    (contentSource now : string) : context :=
  <["CreationTime" := now]> (<[StorageGroup := storageGroupName]> (<[ContentSource := contentSource]> (<[CapacityGB := Sprintf_2f capCyl]>
    (<[path_join replicationContextPrefix SymmetrixIDParam := symmetrixID]> (<[StoragePoolParam := storagePoolID]>
      (<[ServiceLevelParam := serviceLevel]> ∅)))))).

(** ** The array's side

    The volumes of an array by the identifier they were asked for, with the group of the
    last request, and what a request makes of them: an error, a new volume, or the volume
    that is there, whose object is left out when it is in its group already. *)
Abbreviation volumes104 := (gmap string (Volume104 * string)).
Definition size_of (n : CreateNew) : float64 := match n with FromAttributes s | FromSnapshot _ s => s end.
Definition named (v : Volume104) : Prop := v_ID v ≠ "" ∧ v_Identifier v ≠ "".

Inductive array_step (vols : volumes104) (req : CreateVolumesRequest) : result error (option (list VolumeResult)) → volumes104 → Prop :=
| step_error e : array_step vols req (Err e) vols
| step_new v :
    vols !! cv_Identifier req = None → named v → v_CapCyl v = size_of (cv_CreateNew req) →
    array_step vols req (Ok (Some [mkVolumeResult (Some v) (Some (group_ID (cv_Group req)))]))
      (<[cv_Identifier req := (v, group_ID (cv_Group req))]> vols)
| step_again v :
    vols !! cv_Identifier req = Some (v, group_ID (cv_Group req)) → v_CapCyl v = size_of (cv_CreateNew req) →
    array_step vols req (Ok (Some [mkVolumeResult None (Some (group_ID (cv_Group req)))])) vols
| step_moved v g :
    vols !! cv_Identifier req = Some (v, g) → g ≠ group_ID (cv_Group req) → named v → v_CapCyl v = size_of (cv_CreateNew req) →
    array_step vols req (Ok (Some [mkVolumeResult (Some v) (Some (group_ID (cv_Group req)))]))
      (<[cv_Identifier req := (v, group_ID (cv_Group req))]> vols).

Section creator.
Context {W C : Type} `{CreateClient W C} `{ServiceDeps W C}.
(** The time, formatted as 20060102150405. *)
Variable FormatNow : W → string * W.
Variable c : u4p104VolumeCreator C.

Definition invalid {A} (msg : string) : M W (result error A) := fail (statusError InvalidArgument msg).

(** Snap id, source device and name of the snapshot. *)
Definition handleSnapshotSource (srcSnapID : string) : M W (result error (string * string * string)) :=
  if decide (srcSnapID = "") then invalid "snapshot ID is required in VolumeContentSource"
  else match parseCsiID srcSnapID with
  | None => panic
  | Some (Err _) => invalid "Snapshot identifier not in supported format"
  | Some (Ok id) =>
      let parsedSnapID := volName id in
      let devID := VolumeID.devID id in
      if decide (arrayID id ≠ symmetrixID c) then invalid "The volume content source is in different PowerMax array"
      else
        let? snapInfo := lift (GetSnapshotInfo (pmaxClient c) (symmetrixID c) devID parsedSnapID)
          orelse (λ e, statusError InvalidArgument ("Snapshot " ++ parsedSnapID ++ " not found on source volume " ++ devID ++ ": " ++ Error e)) in
        match vs_Sources snapInfo with
        | None | Some [] => invalid ("Snapshot " ++ parsedSnapID ++ " has no source generations on volume " ++ devID)
        | Some (snapID :: _) =>
            if snapID =? 0 then fail (statusError Internal ("Snapshot " ++ parsedSnapID ++ " has invalid snap_id on volume " ++ devID))
            else ok (Itoa snapID, devID, parsedSnapID)
        end
  end.

(** Source device and the id of the source volume. *)
Definition handleCloneSource (srcVolID : string) : M W (result error (string * string)) :=
  if decide (srcVolID = "") then invalid "Source volume ID is required for cloning"
  else match parseCsiID srcVolID with
  | None => panic
  | Some (Err _) => invalid "Source volume identifier not in supported format"
  | Some (Ok id) =>
      if decide (arrayID id ≠ symmetrixID c) then invalid "Source volume must be on the same PowerMax array for cloning"
      else ok (VolumeID.devID id, srcVolID)
  end.

(** Snap id, source device and content source of a request. *)
Definition content_of (source : option VolumeContentSource) : M W (result error (string * string * string)) :=
  match source with
  | None => ok ("", "", "")
  | Some src =>
      let? r :=
        match src with
        | SourceSnapshot id => handleSnapshotSource id
        | SourceVolume id => let? r := handleCloneSource id in ok ("", r.1, r.2)
        | SourceNone => invalid "VolumeContentSource is missing volume and snapshot source"
        end in
      let* e := isSnapshotLicensed (symmetrixID c) (pmaxClient c) in
      match e with
      | Some (ArrayNotManaged e) => fail (statusError NotFound (Error e))
      | Some (Unlicensed e) => fail (statusError Internal (Error e))
      | None => ok r
      end
  end.

(** The volume of the response, with the labels of the array when it was found by zone. *)
Definition respond (req : CreateVolumeRequest) (identifier devID serviceLevel storagePoolID storageGroupName : string) (capCyl : float64)
    (requiredCylinders : Z) (contentSource : string) : M W (result error csi_Volume) :=
  let* now := lift FormatNow in
  let ctx := buildVolumeContext getReplicationContextPrefix (symmetrixID c) serviceLevel storagePoolID storageGroupName capCyl contentSource now in
  let ctx := if symmIDFoundInAZ c then getStorageArrayLabels (symmetrixID c) ∪ ctx else ctx in
  ok (mkCsiVolume (identifier ++ "-" ++ symmetrixID c ++ "-" ++ devID) (wrap64 (requiredCylinders * cylinderSizeInBytes)) ctx
        (req_Source req) (default [] (req_Preferred req))).

(** Only the first volume of the list is looked at. *)
Definition handleIdempotentVolume (req : CreateVolumeRequest) (volumeIdentifier storageGroupName serviceLevel storagePoolID : string)
    (requiredCylinders : Z) (volContent : string) : M W (result error csi_Volume) :=
  let? volumes := lift (GetVolumesByIdentifier (pmaxClient c) (symmetrixID c) volumeIdentifier)
    orelse (λ e, statusError Internal ("idempotency check failed: " ++ Error e)) in
  match volumes with
  | v :: _ => respond req (v_Identifier v) (v_ID v) serviceLevel storagePoolID storageGroupName (v_CapCyl v) requiredCylinders volContent
  | [] => fail (statusError Internal ("volume with identifier " ++ volumeIdentifier ++ " reported as existing but not found on array " ++ symmetrixID c))
  end.

(** What a request asks of the array, before its content source is looked at. *)
Record plan := mkPlan {
  plan_SRP : string;
  plan_ServiceLevel : string;
  plan_Group : string;
  plan_Identifier : string;
  plan_Cylinders : Z;
  plan_Limits : option HostIOLimitInfo;
}.

Definition plan_of (req : CreateVolumeRequest) : M W (result error plan) :=
  let params := req_Parameters req in
  let param key := deps_resolveParameter params (symmetrixID c) key "" in
  if decide (req_Name req = "") then invalid "volume name is required"
  else if match req_Capabilities req with Some vcs => accTypeIsBlock vcs && negb isBlockEnabled | None => false end then
    invalid "Block Volume Capability is not supported"
  else
    let storagePoolID := param StoragePoolParam in
    if decide (storagePoolID = "") then invalid "A valid SRP parameter is required"
    else
      let serviceLevel := deps_resolveParameter params (symmetrixID c) ServiceLevelParam "Optimized" in
      if negb (isValidSLO serviceLevel) then invalid "An invalid Service Level parameter was specified"
      else
        let namespace := deps_resolveParameter params "" CSIPVCNamespace "" in
        match buildHostIOLimitInfo (param HostIOLimitMBSecParam) (param HostIOLimitIOSecParam) (param DynamicDistributionParam),
              computeRequiredCylinders (req_Range req), buildVolumeIdentifier getClusterPrefix (req_Name req) namespace with
        | Err e, _, _ => fail e
        | Ok _, Err e, _ => fail e
        | Ok limits, Ok n, Some identifier =>
            ok (mkPlan storagePoolID serviceLevel
                  (resolveStorageGroupName (param StorageGroupParam) getClusterPrefix (param ApplicationPrefixParam) serviceLevel storagePoolID
                     (param HostLimitNameParam)) identifier n limits)
        | Ok _, Ok _, None => panic
        end.

(** The one call that creates the volume. *)
Definition array_request (p : plan) (group snapshotID srcDevID : string) : CreateVolumesRequest :=
  if decide (snapshotID ≠ "") then
    buildCreateVolumeFromSnapshotRequest (plan_Cylinders p) snapshotID (plan_SRP p) (plan_ServiceLevel p) group (plan_Identifier p) (plan_Limits p) (reqID c)
  else if decide (srcDevID ≠ "") then
    buildCloneVolumesRequest (plan_Cylinders p) srcDevID (plan_SRP p) (plan_ServiceLevel p) group (plan_Identifier p) (plan_Limits p) (reqID c)
  else buildCreateVolumesRequest (plan_Cylinders p) (plan_SRP p) (plan_ServiceLevel p) group (plan_Identifier p) (plan_Limits p) (reqID c).

(** The group of the response, unless it is missing or empty. *)
Definition group_or (g : option string) (name : string) : string :=
  match g with Some g => if decide (g = "") then name else g | None => name end.

Definition create_on_array (req : CreateVolumeRequest) (p : plan) (group snapshotID srcDevID contentSource : string) : M W (result error csi_Volume) :=
  let? resp := lift (client_CreateVolume (pmaxClient104 c) (symmetrixID c) (array_request p group snapshotID srcDevID) (addMetaData (req_Parameters req)))
    orelse classifyCreateVolumeError in
  match resp with
  | None | Some [] => fail (statusError Internal "create volume response is empty")
  | Some (result :: _) =>
      let group := group_or (r_StorageGroup result) group in
      match r_Volume result with
      | None => handleIdempotentVolume req (plan_Identifier p) group (plan_ServiceLevel p) (plan_SRP p) (plan_Cylinders p) contentSource
      | Some v =>
          if decide (v_ID v = "") then fail (statusError Internal "create volume response contains empty device ID")
          else
            let identifier := if decide (v_Identifier v ≠ "") then v_Identifier v else plan_Identifier p in
            respond req identifier (v_ID v) (plan_ServiceLevel p) (plan_SRP p) group (v_CapCyl v) (plan_Cylinders p) contentSource
      end
  end.

Definition u4p104_Create (req : option CreateVolumeRequest) : M W (result error csi_Volume) :=
  match req with
  | None => invalid "create volume request cannot be nil"
  | Some req =>
      let? p := plan_of req in
      let? content := content_of (req_Source req) in
      let '(snapshotID, srcDevID, contentSource) := content in
      let? group :=
        (if isDynamicSGEnabled then
           let? r := deps_getDynamicSG (symmetrixID c) (plan_Group p)
             orelse (λ e, statusError Internal ("failed to get dynamic storage group: " ++ Error e)) in ok r.1
         else ok (plan_Group p)) in
      create_on_array req p group snapshotID srcDevID contentSource
  end.

Record array104 := mkArray104 {
  volumes : W → volumes104;
  law_create req md w :
    let '(r, w') := client_CreateVolume (pmaxClient104 c) (symmetrixID c) req md w in array_step (volumes w) req r (volumes w');
  (** A volume that is there is reported, not refused. *)
  law_again req md w v :
    volumes w !! cv_Identifier req = Some (v, group_ID (cv_Group req)) → v_CapCyl v = size_of (cv_CreateNew req) →
    ∃ rs, (client_CreateVolume (pmaxClient104 c) (symmetrixID c) req md w).1 = Ok rs;
  law_lookup id w v g :
    volumes w !! id = Some (v, g) →
    ∃ w', GetVolumesByIdentifier (pmaxClient c) (symmetrixID c) id w = (Ok [v], w') ∧ volumes w' = volumes w;
  law_now w : volumes (FormatNow w).2 = volumes w;
}.

(** The response for a volume, at some time. *)
Definition response_of (req : CreateVolumeRequest) (p : plan) (group : string) (v : Volume104) (contentSource now : string) : csi_Volume :=
  let ctx := buildVolumeContext getReplicationContextPrefix (symmetrixID c) (plan_ServiceLevel p) (plan_SRP p) group (v_CapCyl v) contentSource now in
  mkCsiVolume (v_Identifier v ++ "-" ++ symmetrixID c ++ "-" ++ v_ID v) (wrap64 (plan_Cylinders p * cylinderSizeInBytes))
    (if symmIDFoundInAZ c then getStorageArrayLabels (symmetrixID c) ∪ ctx else ctx) (req_Source req) (default [] (req_Preferred req)).

Lemma group_or_same g : group_or (Some g) g = g.
Proof. simpl. by case_decide. Qed.

Lemma respond_eq req p g v source w :
  respond req (v_Identifier v) (v_ID v) (plan_ServiceLevel p) (plan_SRP p) g (v_CapCyl v) (plan_Cylinders p) source w
  = Some (Ok (response_of req p g v source (FormatNow w).1), (FormatNow w).2).
Proof. unfold respond, mbnd, lift. by destruct (FormatNow w). Qed.

Context (L : array104).

Lemma idempotent_eq req p group v g source w :
  volumes L w !! plan_Identifier p = Some (v, g) →
  ∃ now w', handleIdempotentVolume req (plan_Identifier p) group (plan_ServiceLevel p) (plan_SRP p) (plan_Cylinders p) source w
    = Some (Ok (response_of req p group v source now), w') ∧ volumes L w' = volumes L w.
Proof.
  intros Hv. destruct (law_lookup L _ _ _ _ Hv) as (w1 & E & Hw1). unfold handleIdempotentVolume, try, mbnd at 1, lift. rewrite E, respond_eq.
  do 2 eexists. split; [done|]. by rewrite (law_now L).
Qed.

Lemma array_request_fields p g snapshotID srcDevID :
  let rq := array_request p g snapshotID srcDevID in
  cv_Identifier rq = plan_Identifier p ∧ group_ID (cv_Group rq) = g ∧ size_of (cv_CreateNew rq) = float_of_Z (plan_Cylinders p).
Proof. unfold array_request. by repeat case_decide. Qed.

(** After a success the array has answered the request, and the volume is on it, in the
    group and size of the request. *)
Lemma create_on_array_ok req p g snapshotID srcDevID source w resp w' :
  create_on_array req p g snapshotID srcDevID source w = Some (Ok resp, w') →
  (∃ md w1 rs w2, client_CreateVolume (pmaxClient104 c) (symmetrixID c) (array_request p g snapshotID srcDevID) md w1 = (Ok rs, w2))
  ∧ ∃ v now, volumes L w' !! plan_Identifier p = Some (v, g) ∧ v_CapCyl v = float_of_Z (plan_Cylinders p)
    ∧ resp = response_of req p g v source now.
Proof.
  unfold create_on_array, try, mbnd at 1, lift. destruct (array_request_fields p g snapshotID srcDevID) as (Hi & Hg & Hs).
  set (rq := array_request _ _ _ _) in *.
  pose proof (law_create L rq (addMetaData (req_Parameters req)) w) as Hstep.
  destruct (client_CreateVolume _ _ _ _ w) as [r w1] eqn:E. rewrite <- Hi.
  destruct r as [rs|e]; [|done]. intros Hr. split; [by eauto|]. revert Hr.
  inversion Hstep as [e|v Hn [H1 H2] Hz E1 E2|v Hv Hz E1 E2|v g' Hv Hne [H1 H2] Hz E1 E2]; subst rs; cbn [r_StorageGroup r_Volume]; rewrite Hg, group_or_same.
  - rewrite decide_False, decide_True by done. rewrite respond_eq. intros [= <- <-]. exists v, (FormatNow w1).1.
    rewrite (law_now L), <- E2, <- Hg, lookup_insert_eq, Hz. auto.
  - rewrite Hi. destruct (idempotent_eq req p g v g source w1) as (now & w2 & -> & Hw2); [by rewrite <- E2, <- Hi, <- Hg|].
    intros [= <- <-]. exists v, now. rewrite Hw2, <- E2, <- Hi, <- Hg, Hz. auto.
  - rewrite decide_False, decide_True by done. rewrite respond_eq. intros [= <- <-]. exists v, (FormatNow w1).1.
    rewrite (law_now L), <- E2, <- Hg, lookup_insert_eq, Hz. auto.
Qed.

Lemma create_on_array_again req p g snapshotID srcDevID source w v :
  volumes L w !! plan_Identifier p = Some (v, g) → v_CapCyl v = float_of_Z (plan_Cylinders p) →
  ∃ now w', create_on_array req p g snapshotID srcDevID source w = Some (Ok (response_of req p g v source now), w')
    ∧ volumes L w' = volumes L w.
Proof.
  intros Hv Hz. unfold create_on_array, try, mbnd at 1, lift. destruct (array_request_fields p g snapshotID srcDevID) as (Hi & Hg & Hs).
  set (rq := array_request _ _ _ _) in *.
  pose proof (law_create L rq (addMetaData (req_Parameters req)) w) as Hstep.
  destruct (law_again L rq (addMetaData (req_Parameters req)) w v) as [rs Hrs]; [by rewrite Hi, Hg|by rewrite Hs|].
  destruct (client_CreateVolume _ _ _ _ w) as [r w1] eqn:E. simpl in Hrs. subst r. rewrite <- Hi, <- Hg in Hv.
  inversion Hstep as [|v' Hn _ _ E1 E2|v' Hv' _ E1 E2|v' g' Hv' Hne _ _ E1 E2]; subst rs; [congruence| |congruence].
  cbn [r_StorageGroup r_Volume]. rewrite Hg, group_or_same.
  destruct (idempotent_eq req p g v g source w1) as (now & w2 & -> & Hw2); [by rewrite <- E2, <- Hi, <- Hg|].
  exists now, w2. by rewrite Hw2, E2.
Qed.

(** A plan depends on the request alone. *)
Lemma plan_of_pure req w p w' : plan_of req w = Some (Ok p, w') → w' = w ∧ ∀ w0, plan_of req w0 = Some (Ok p, w0).
Proof.
  unfold plan_of. cbv zeta. repeat match goal with |- (if ?b then _ else _) _ = _ → _ => destruct b; [done|] end.
  destruct (buildHostIOLimitInfo _ _ _); [|done]. destruct (computeRequiredCylinders _); [|done].
  destruct (buildVolumeIdentifier _ _ _); [|done]. by intros [= <- <-].
Qed.

Definition namespace_of (req : CreateVolumeRequest) : string := deps_resolveParameter (req_Parameters req) "" CSIPVCNamespace "".
Lemma plan_cylinders req w p : plan_of req w = Some (Ok p, w) →
  computeRequiredCylinders (req_Range req) = Ok (plan_Cylinders p)
  ∧ buildVolumeIdentifier getClusterPrefix (req_Name req) (namespace_of req) = Some (plan_Identifier p).
Proof.
  unfold plan_of. cbv zeta. repeat match goal with |- (if ?b then _ else _) _ = _ → _ => destruct b; [done|] end.
  destruct (buildHostIOLimitInfo _ _ _); [|done]. destruct (computeRequiredCylinders _); [|done].
  fold (namespace_of req). destruct (buildVolumeIdentifier _ _ _); [|done]. by intros [= <-].
Qed.

Lemma create_plain req w resp w' :
  isDynamicSGEnabled = false → req_Source req = None → u4p104_Create (Some req) w = Some (Ok resp, w') →
  ∃ p, (∀ w0, plan_of req w0 = Some (Ok p, w0)) ∧ create_on_array req p (plan_Group p) "" "" "" w = Some (Ok resp, w').
Proof.
  intros Hd Hs Hr. unfold u4p104_Create in Hr. apply try_Some in Hr as (p & w1 & Hp & Hr).
  destruct (plan_of_pure _ _ _ _ Hp) as [-> Hpure]. exists p. split; [done|].
  rewrite Hs, Hd in Hr. exact Hr.
Qed.

(** CreateVolume may be repeated. When the array recognises a volume by the identifier it
    was asked for, as it documents, a request without a content source that succeeded gives
    the same volume again, whatever happened to other volumes: the second call succeeds too,
    leaves the volumes of the array as they are, and its response has the same id, size,
    topology and context, up to the time of creation. *)
Theorem create_retry_same_volume req w resp w1 w2 :
  isDynamicSGEnabled = false → req_Source req = None →
  u4p104_Create (Some req) w = Some (Ok resp, w1) →
  (∀ id, id ∈ dom (volumes L w1) → volumes L w2 !! id = volumes L w1 !! id) →
  ∃ resp' w3, u4p104_Create (Some req) w2 = Some (Ok resp', w3) ∧ volumes L w3 = volumes L w2
    ∧ resp_VolumeId resp' = resp_VolumeId resp ∧ resp_CapacityBytes resp' = resp_CapacityBytes resp
    ∧ resp_Source resp' = resp_Source resp ∧ resp_Topology resp' = resp_Topology resp
    ∧ delete "CreationTime" (resp_Context resp') = delete "CreationTime" (resp_Context resp).
Proof.
  intros Hd Hs Hr Hw2. apply create_plain in Hr as (p & Hp & Hr); [|done..].
  apply create_on_array_ok in Hr as (_ & v & now & Hv & Hz & ->).
  assert (volumes L w2 !! plan_Identifier p = Some (v, plan_Group p)) as Hv2 by (rewrite Hw2; [done|apply elem_of_dom; eauto]).
  destruct (create_on_array_again req p (plan_Group p) "" "" "" w2 v Hv2 Hz) as (now' & w3 & Hc & Hw3).
  exists (response_of req p (plan_Group p) v "" now'), w3. split.
  { unfold u4p104_Create, try at 1, mbnd at 1. rewrite Hp, Hs, Hd. exact Hc. }
  split_and!; try done. simpl. unfold buildVolumeContext.
  destruct (symmIDFoundInAZ c); rewrite ?delete_union, !delete_insert_eq; done.
Qed.

(** The request to the array names the content source: nothing, the device of a volume of
    the same array, or the first generation of a snapshot as the array knows it. *)
Definition source_named (source : option VolumeContentSource) (rq : CreateVolumesRequest) : Prop :=
  match source with
  | None => cv_CopyFrom rq = None ∧ cv_CreateNew rq = FromAttributes (size_of (cv_CreateNew rq))
  | Some (SourceVolume id) =>
      ∃ csi, parseCsiID id = Some (Ok csi) ∧ arrayID csi = symmetrixID c ∧ (VolumeID.devID csi ≠ "" → cv_CopyFrom rq = Some (VolumeID.devID csi))
  | Some (SourceSnapshot id) =>
      ∃ csi info snapID rest w w', parseCsiID id = Some (Ok csi) ∧ arrayID csi = symmetrixID c
        ∧ GetSnapshotInfo (pmaxClient c) (symmetrixID c) (VolumeID.devID csi) (volName csi) w = (Ok info, w')
        ∧ vs_Sources info = Some (snapID :: rest) ∧ cv_CreateNew rq = FromSnapshot (Itoa snapID) (size_of (cv_CreateNew rq))
  | Some SourceNone => False
  end.

Lemma to_digits_nonempty k base n acc : k ≠ 0%nat ∨ acc ≠ [] → to_digits k base n acc ≠ [].
Proof.
  revert n acc. induction k as [|k IH]; intros n acc Ha; simpl; [destruct Ha; done|].
  case_match; [done|]. apply IH. by right.
Qed.
Lemma Itoa_nonempty n : Itoa n ≠ "".
Proof.
  unfold Itoa. destruct (n <? 0); [done|]. pose proof (to_digits_nonempty 64 10 n [] ltac:(by left)) as Hd.
  unfold digits. by destruct (to_digits 64 10 n []).
Qed.

Lemma content_named source w snapshotID srcDevID cs w' p g :
  content_of source w = Some (Ok (snapshotID, srcDevID, cs), w') → source_named source (array_request p g snapshotID srcDevID).
Proof.
  unfold content_of. destruct source as [src|]; [|by intros [= <- <- <- <-]].
  intros ([[snap dev] cs'] & w1 & Hsrc & (lic & w2 & _ & Hl)%mbnd_Some)%try_Some.
  destruct lic as [[]|]; [done..|]. injection Hl as -> -> -> _.
  destruct src as [id|id|]; [| |done]; simpl in *.
  - unfold handleSnapshotSource in Hsrc. case_decide; [done|]. destruct (parseCsiID id) as [[csi|]|]; [|done..]. case_decide; [done|].
    apply try_Some in Hsrc as (info & w3 & Hi & Hk). injection Hi as Hi. destruct (vs_Sources info) as [[|k rest]|] eqn:Es; [done| |done].
    destruct (k =? 0); [done|]. injection Hk as <- <- _ _. exists csi, info, k, rest. do 2 eexists.
    split; [done|]. split; [done|]. split; [exact Hi|]. split; [done|].
    unfold array_request. by rewrite decide_True by apply Itoa_nonempty.
  - apply try_Some in Hsrc as ([dev' v] & w3 & Hc & Hk). injection Hk as <- <- _ _. unfold handleCloneSource in Hc. case_decide; [done|].
    destruct (parseCsiID id) as [[csi|]|]; [|done..]. case_decide; [done|]. injection Hc as <- <- <-. exists csi.
    split_and!; [done|done|]. intros Hd. simpl. unfold array_request. rewrite decide_False by tauto. by rewrite decide_True.
Qed.

Lemma create_parts req w resp w' :
  u4p104_Create (Some req) w = Some (Ok resp, w') →
  ∃ p g snapshotID srcDevID cs w1, (∀ w0, plan_of req w0 = Some (Ok p, w0))
    ∧ source_named (req_Source req) (array_request p g snapshotID srcDevID)
    ∧ (isDynamicSGEnabled = false → g = plan_Group p)
    ∧ create_on_array req p g snapshotID srcDevID cs w1 = Some (Ok resp, w').
Proof.
  intros Hr. apply try_Some in Hr as (p & w1 & Hp & Hr). destruct (plan_of_pure _ _ _ _ Hp) as [-> Hpure].
  apply try_Some in Hr as ([[snap dev] cs] & w2 & Hc & Hr). apply try_Some in Hr as (g & w3 & Hg & Hr).
  exists p, g, snap, dev, cs, w3. split_and!; [done|by eapply content_named| |done].
  intros Hd. rewrite Hd in Hg. by injection Hg as <- _.
Qed.

(** C13: the id of a created volume leads back to it, and its size and content are those that
    were asked for. For every request that succeeds, with a source or without and also with
    dynamic storage groups: the array answered a request for the driver's identifier, which
    names the source of the request and a size of the least number of cylinders that holds
    what was asked for, within the limit; the volume the array has for that identifier has
    this size, and the returned id parses to its name on the array, the array and its device.
    The array's ids and names are long enough and without dashes or colons, and the size
    does not overflow. *)
Theorem created_volume_found req w resp w' :
  u4p104_Create (Some req) w = Some (Ok resp, w') →
  wanted (GetRequiredBytes (req_Range req)) + cylinderSizeInBytes < 2 ^ 63 →
  plain (symmetrixID c) → 12 <= slen (symmetrixID c) →
  (∀ id v g, volumes L w' !! id = Some (v, g) → plain (v_ID v) ∧ 3 <= slen (v_Identifier v)) →
  ∃ v id g rq n, buildVolumeIdentifier getClusterPrefix (req_Name req) (namespace_of req) = Some id
    ∧ (∃ md w1 rs w2, client_CreateVolume (pmaxClient104 c) (symmetrixID c) rq md w1 = (Ok rs, w2))
    ∧ cv_Identifier rq = id ∧ group_ID (cv_Group rq) = g ∧ size_of (cv_CreateNew rq) = float_of_Z n ∧ source_named (req_Source req) rq
    ∧ volumes L w' !! id = Some (v, g) ∧ v_CapCyl v = float_of_Z n
    ∧ parseCsiID (resp_VolumeId resp) = Some (Ok (mkCsiID (v_Identifier v) (symmetrixID c) (v_ID v) "" ""))
    ∧ resp_CapacityBytes resp = n * cylinderSizeInBytes
    ∧ (n - 1) * cylinderSizeInBytes < wanted (GetRequiredBytes (req_Range req)) <= n * cylinderSizeInBytes
    ∧ (GetLimitBytes (req_Range req) = 0 ∨ n * cylinderSizeInBytes <= GetLimitBytes (req_Range req)).
Proof.
  intros Hr Hov Hsym Hlen Hids. apply create_parts in Hr as (p & g & snap & dev & cs & w1 & Hp & Hsrc & _ & Hr).
  destruct (plan_cylinders req w p (Hp w)) as [Hn Hid].
  apply create_on_array_ok in Hr as (Hans & v & now & Hv & Hz & ->). destruct (Hids _ _ _ Hv) as [Hdev Hvid].
  destruct (array_request_fields p g snap dev) as (Hi & Hg & Hs).
  apply computeRequired_spec in Hn as (? & ? & Hc & Hl); [|done].
  assert (0 <= wanted (GetRequiredBytes (req_Range req))) as Hw by (unfold wanted, MinVolumeSizeBytes; lia).
  pose proof (cylinders_bounds _ Hw). rewrite <- Hc in *.
  exists v, (plan_Identifier p), g, (array_request p g snap dev), (plan_Cylinders p). split_and!; try done.
  - simpl. rewrite parse_last_two by (apply Hsym || apply Hdev || lia || (right; done)).
    unfold with_remote. rewrite (Contains_char ":"). destruct Hsym as [_ ->]. done.
  - simpl. apply wrap64_id. unfold in64. lia.
  - lia.
  - lia.
Qed.
End creator.

(** ** The service *)
(** symmRepCapabilities: arrays and whether they have SnapVX. *)
Class LicenseCache (W : Type) := {
  symmRepCapabilities : W → gmap string bool;
  setSymmRepCapabilities : gmap string bool → W → W;
}.

Definition ErrArrayNotManaged := "array is not being managed by Unisphere".

Section service.
Context {W C : Type} `{Pmax W C} `{CreateClient W C} `{PoolClient W C} `{LicenseCache W}.

Definition IsSnapshotLicensed (symID : string) (c : C) : M W (option license_error) :=
  let licensed (capable : bool) :=
    if capable then None else Some (Unlicensed (errorString ("PowerMax array (" ++ symID ++ ") doesn't have Snapshot license"))) in
  match IsAllowedArray c symID with
  | Some e => ret (Some (ArrayNotManaged (errorString (ErrArrayNotManaged ++ ": " ++ Error e))))
  | None =>
      let* known := Publish.get symmRepCapabilities in
      match known !! symID with
      | Some capable => ret (licensed capable)
      | None =>
          let* r := lift (GetReplicationCapabilities c) in
          match r with
          | Err e => ret (Some (Unlicensed e))
          | Ok caps =>
              match List.find (λ x : string * bool, bool_decide (x.1 = symID)) caps with
              | Some (_, capable) =>
                  let* known := Publish.get symmRepCapabilities in
                  let* _ := Publish.modify (setSymmRepCapabilities (<[symID := capable]> known)) in ret (licensed capable)
              | None => ret (Some (ArrayNotManaged (errorString ("PowerMax array (" ++ symID ++ "): " ++ ErrArrayNotManaged))))
              end
          end
      end
  end.

Record Opts := mkOpts {
  StorageArrays : gmap string StorageArrayConfig;
  ReplicationPrefix : string;
  ReplicationContextPrefix : string;
  ClusterPrefix : string;
  dynamicSGEnabled : bool;
  EnableBlock : bool;
}.

Definition service_deps (o : Opts) (GetPowerMaxClient : string → M W (result error C)) (sgVolumeLimit : Z) : ServiceDeps W C := {|
  deps_resolveParameter := resolveParameter (StorageArrays o);
  isDynamicSGEnabled := dynamicSGEnabled o;
  getReplicationContextPrefix := ReplicationContextPrefix o;
  getClusterPrefix := ClusterPrefix o;
  isSnapshotLicensed := IsSnapshotLicensed;
  deps_getDynamicSG := getDynamicSG GetPowerMaxClient sgVolumeLimit;
  getStorageArrayLabels := λ arrayID, default ∅ (Labels <$> StorageArrays o !! arrayID);
  isBlockEnabled := EnableBlock o;
|}.

Definition createVolumeSelectionProfile (isFile : bool) (contentSource : option VolumeContentSource) (replicationEnabled : bool) (repMode : string)
    (isThick : bool) : backendSelectionProfile :=
  mkProfile isFile (bool_decide (is_Some contentSource)) replicationEnabled repMode isThick.

Definition creatorFor (o : Opts) (params : gmap string string) (version : string) (vcs : option (list VolumeCapability))
    (contentSource : option VolumeContentSource) : backendPath :=
  let isFile := match vcs with Some vcs => accTypeIsNFS vcs | None => false end in
  let set key value := bool_decide (params !! key = Some value) in
  selectBackendPath
    (createVolumeSelectionProfile isFile contentSource (set (path_join (ReplicationPrefix o) RepEnabledParam) "true") "" (set ThickVolumesParam "true"))
    version.
End service.

(** ** An array in memory *)
Module Sim104.
Record arr := mkArr { arr_vols : volumes104; arr_clock : Z }.

#[global] Instance named_dec v : Decision (named v).
Proof. unfold named. apply _. Defined.

(** The array puts a tenant in front of the identifier. *)
Definition create (req : CreateVolumesRequest) (w : arr) : result error (option (list VolumeResult)) * arr :=
  let id := cv_Identifier req in
  let g := group_ID (cv_Group req) in
  let size := size_of (cv_CreateNew req) in
  match arr_vols w !! id with
  | None =>
      let v := mkVolume104 "00123" ("T01-" ++ id) size in
      (Ok (Some [mkVolumeResult (Some v) (Some g)]), mkArr (<[id := (v, g)]> (arr_vols w)) (arr_clock w))
  | Some (v, g') =>
      if decide (v_CapCyl v ≠ size) then (Err (errorString "requested size does not match existing volume size"), w)
      else if decide (g' = g) then (Ok (Some [mkVolumeResult None (Some g)]), w)
      else if decide (named v) then (Ok (Some [mkVolumeResult (Some v) (Some g)]), mkArr (<[id := (v, g)]> (arr_vols w)) (arr_clock w))
      else (Err (errorString "unnamed volume"), w)
  end.

#[export] Instance arr_client : CreateClient arr unit := {
  client_CreateVolume _ _ req _ := create req;
  GetVolumesByIdentifier _ _ id w := (Ok (match arr_vols w !! id with Some (v, _) => [v] | None => [] end), w);
  GetSnapshotInfo _ _ _ _ w := (Ok (mkVolumeSnapshot "snap" (Some [7])), w);
  IsAllowedArray _ _ := None;
  GetReplicationCapabilities _ w := (Ok [], w);
}.
#[export] Instance arr_deps : ServiceDeps arr unit := {
  deps_resolveParameter := resolveParameter ∅;
  isDynamicSGEnabled := false;
  getReplicationContextPrefix := "powermax";
  getClusterPrefix := "ABC";
  isSnapshotLicensed _ _ := ret None;
  deps_getDynamicSG _ base := ok (base, true);
  getStorageArrayLabels _ := ∅;
  isBlockEnabled := true;
}.
Definition now (w : arr) : string * arr := (Itoa (arr_clock w), mkArr (arr_vols w) (arr_clock w + 1)).
Definition creator : u4p104VolumeCreator unit := mkCreator tt tt "000120000548" "1" false.

Lemma create_lawful req w : let '(r, w') := create req w in array_step (arr_vols w) req r (arr_vols w').
Proof.
  unfold create. destruct (arr_vols w !! cv_Identifier req) as [[v g]|] eqn:E; [|by constructor].
  case_decide as Hz; [constructor|]. case_decide; [subst g; by eapply step_again|].
  case_decide; [by eapply step_moved|constructor].
Qed.

Definition lawful : array104 now creator.
Proof.
  refine {| volumes := arr_vols |}.
  - intros req md w. apply create_lawful.
  - intros req md w v Hv Hz. simpl. unfold create. rewrite Hv. case_decide; [done|]. case_decide; [eauto|done].
  - intros id w v g Hv. exists w. simpl. by rewrite Hv.
  - done.
Defined.

Definition request0 : CreateVolumeRequest :=
  mkCreateRequest "pmax-0123456789" (<[StoragePoolParam := "SRP_1"]> {[CSIPVCNamespace := "ns"]}) None
    (Some (mkRange (10 * GB) 0)) None None.
Definition w0 : arr := mkArr ∅ 0.
Definition w1 : arr :=
  mkArr {["csi-ABC-pmax-0123456789-ns" := (mkVolume104 "00123" "T01-csi-ABC-pmax-0123456789-ns" (float_of_Z 5462), "csi-ABC-Optimized-SRP_1-SG")]} 1.
End Sim104.

Import Sim104.

Definition answered (r : option (result error csi_Volume * arr)) : option (string * Z * arr) :=
  match r with Some (Ok resp, w) => Some (resp_VolumeId resp, resp_CapacityBytes resp, w) | _ => None end.

(** Ten GB, twice. *)
Lemma create_retry_same_volume_witness :
  match u4p104_Create now creator (Some request0) w0 with
  | Some (Ok resp, w) =>
      resp_VolumeId resp = "T01-csi-ABC-pmax-0123456789-ns-000120000548-00123"
      ∧ ∃ resp' w', u4p104_Create now creator (Some request0) (mkArr (arr_vols w) 77) = Some (Ok resp', w') ∧ arr_vols w' = arr_vols w
          ∧ resp_VolumeId resp' = resp_VolumeId resp
  | _ => False
  end.
Proof.
  assert (answered (u4p104_Create now creator (Some request0) w0)
    = Some ("T01-csi-ABC-pmax-0123456789-ns-000120000548-00123", 5462 * cylinderSizeInBytes, w1)) as Ha by (vm_compute; reflexivity).
  destruct (u4p104_Create now creator (Some request0) w0) as [[[resp|e] w]|] eqn:E; [|done..]. injection Ha as Hid _ _. split; [exact Hid|].
  pose proof (create_retry_same_volume now creator lawful request0 w0 resp w (mkArr (arr_vols w) 77)) as T.
  destruct (T eq_refl eq_refl E) as (resp' & w3 & H1 & H2 & H3 & _); [done|].
  exists resp', w3. split; [exact H1|]. split; [exact H2|exact H3].
Defined.

(** A clone of a volume. *)
Definition clone_request : CreateVolumeRequest :=
  mkCreateRequest "pmax-0123456789" (<[StoragePoolParam := "SRP_1"]> {[CSIPVCNamespace := "ns"]}) None
    (Some (mkRange (10 * GB) 0)) (Some (SourceVolume "csi-ABC-src-000120000548-00007")) None.
Lemma created_volume_found_witness :
  match u4p104_Create now creator (Some clone_request) w0 with
  | Some (Ok resp, w) =>
      resp_CapacityBytes resp = 5462 * cylinderSizeInBytes
      ∧ ∃ v id g rq, arr_vols w !! id = Some (v, g) ∧ source_named creator (req_Source clone_request) rq
          ∧ parseCsiID (resp_VolumeId resp) = Some (Ok (mkCsiID (v_Identifier v) "000120000548" (v_ID v) "" ""))
  | _ => False
  end.
Proof.
  assert (answered (u4p104_Create now creator (Some clone_request) w0)
    = Some ("T01-csi-ABC-pmax-0123456789-ns-000120000548-00123", 5462 * cylinderSizeInBytes, w1)) as Ha by (vm_compute; reflexivity).
  destruct (u4p104_Create now creator (Some clone_request) w0) as [[[resp|e] w]|] eqn:E; [|done..]. injection Ha as _ Hc Hw.
  split; [exact Hc|]. subst w.
  pose proof (created_volume_found now creator lawful clone_request w0 resp w1) as T.
  destruct (T E) as (v & id & g & rq & n & _ & _ & _ & _ & _ & Hs & Hv & _ & Hp & _).
  - by vm_compute.
  - by split.
  - by vm_compute.
  - intros id v g. unfold w1. simpl. intros [-> [= <- <-]]%lookup_singleton_Some. split; [by split|unfold slen; simpl; lia].
  - exists v, id, g, rq. split; [exact Hv|]. split; [exact Hs|exact Hp].
Defined.
End Creator.
