(* ===== verification/Snapshots.v ===== *)
(** * Snapshots

    Models service/snap.go and the requests CreateSnapshot and DeleteSnapshot of
    service/controller.go: the sessions of a device, linking and unlinking of
    targets, creation and termination of snapshots, and the worker that removes
    temporary snapshots. Each source device has a lock of the lock manager. *)

From stdpp Require Import base gmap strings list.
From Stdlib Require Import ZArith Lia Ascii.
From S2P Require Import Prelude GoLib Ordering Pmax SimArray PowerMax VolumeID DeletionWorker Capacity Masking Trace SimMasking Handler Pending Rpc Files Publish Deletion Sizes Creator.

Module Snapshots.
Import PowerMax VolumeID Masking Files Rpc Sizes Creator.
Import Deletion(RenameClient, RenameVolume, MarkVolumeForDeletion, delSrcTag, marked_name).
Open Scope go_scope.
Open Scope handler_scope.
Open Scope string_scope.
Open Scope Z_scope.

Definition Unlink := "Unlink".
Definition Link := "Link".
Definition MaxUnlinkCount : Z := 5.
Definition errDesiredState := "already in the desired state or mode".
Definition SnapDelPrefix := "DEL".
Definition maxSessions := "The maximum number of sessions has been exceeded for the specified Source device".

(** A session of a source and a snapshot with its linked targets. *)
Record SnapTarget := mkTarget { Target : string; Defined : bool }.
Record SnapSession := mkSession {
  Session_Source : string;
  Session_Name : string;
  Session_Generation : Z;
  Session_Expired : bool;
  Session_Targets : list SnapTarget;
}.

(** The private view of a device that is a target. *)
Record TargetSession := mkTargetSession {
  ts_SnapshotName : string;
  ts_Expired : bool;
  ts_Generation : Z;
  ts_SourceDevice : string;
  ts_TargetDevice : string;
}.
Record PrivVolume := mkPrivVolume { SnapVXTgt : bool; SnapVXSession : list (option TargetSession) }.

Class SnapClient (W C : Type) := {
  GetPrivVolumeByID : C → string → string → W → result error PrivVolume * W;
  (** Array, name, sources and time to live in hours. *)
  client_CreateSnapshot : C → string → string → list string → Z → W → option error * W;
  (** Devices with the names and generations of their snapshots. *)
  GetSnapVolumeList : C → string → W → result error (list (string * list (string * Z))) * W;
}.

(** ** Names *)
(** A deleted source that waits for its snapshots: its name ends in the tag. *)
Definition isSourceTaggedToDelete (volName : string) : bool :=
  let volComponents := Split "-"%char volName in
  if (List.length volComponents <? 3)%nat then false
  else bool_decide (last volComponents = Some delSrcTag).

(** The name in [device-src-name-generation]. *)
Definition findSnapIDFromSnapName (snapName : string) : option string :=
  let snapComponents := Split "-"%char snapName in
  let n := List.length snapComponents in
  if (n <? 4)%nat then None else Some (Join "-" (take (n - 1 - 2) (drop 2 snapComponents))).

(** ** The queue of the cleanup worker

    A heap whose order is empty: a push appends, a pop takes the first and moves the
    last in its place. *)
Record snapCleanupRequest := mkCleanup {
  cleanup_symmetrixID : string;
  cleanup_snapshotID : string;
  cleanup_volumeID : string;
  cleanup_requestID : string;
  cleanup_retries : Z;
}.
Record snapCleanupWorker := mkWorker { CleanupQueue : list snapCleanupRequest; MaxRetries : Z }.

Definition queueForRetry (req : snapCleanupRequest) (scw : snapCleanupWorker) : snapCleanupWorker :=
  mkWorker (CleanupQueue scw ++ [req])%list (MaxRetries scw).

Definition requestCleanup (req : snapCleanupRequest) (scw : snapCleanupWorker) : snapCleanupWorker :=
  if existsb (λ r, bool_decide (cleanup_snapshotID r = cleanup_snapshotID req ∧ cleanup_symmetrixID r = cleanup_symmetrixID req)) (CleanupQueue scw)
  then scw else queueForRetry req scw.

Definition removeItem (scw : snapCleanupWorker) : option snapCleanupRequest * snapCleanupWorker :=
  match CleanupQueue scw with
  | [] => (None, scw)
  | req :: rest =>
      let q := match last rest with Some l => l :: removelast rest | None => [] end in
      (Some req, mkWorker q (MaxRetries scw))
  end.

(** The worker of the service. *)
Class SnapCleaner (W : Type) := {
  snapCleaner : W → snapCleanupWorker;
  setSnapCleaner : snapCleanupWorker → W → W;
}.

Section calls.
Context {W C : Type} `{Pmax W C} `{MaskingClient W C} `{FileClient W C} `{CreateClient W C} `{RenameClient W C}.
Context `{SnapClient W C} `{LicenseCache W} `{SnapCleaner W}.
Variable QueueDeviceForDeletion : string → string → string → M W (option error).

(** A lock held while [m] runs; [k] wraps the error of the lock manager. *)
Definition with_lock {A} (lockHandle reqID : string) (k : error → error) (m : M W (result error A)) : M W (result error A) :=
  let? lockNum := lift (RequestLock (C := C) lockHandle reqID) orelse k in
  let* r := m in
  let* _ := lift (ReleaseLock (C := C) lockHandle reqID lockNum) in ret r.

(** ** Sessions *)
Definition source_session (deviceID : string) (s : VolumeSnapshotSource) : SnapSession :=
  mkSession deviceID (SnapshotName s) (Generation s) (Expired s)
    ((λ t, mkTarget (TargetDevice t) (Linked_Defined t)) <$> LinkedVolumes s).

(** The sessions of a device as a source, and as a target. *)
Definition GetSnapSessions (symID deviceID : string) (c : C) : M W (result error (list SnapSession * option SnapSession)) :=
  let? snapInfo := lift (GetVolumeSnapInfo c symID deviceID) in
  let srcSession := source_session deviceID <$> VolumeSnapshotSources snapInfo in
  match VolumeSnapshotLinks snapInfo with
  | [] => ok (srcSession, None)
  | link :: _ =>
      let? pVolInfo := lift (GetPrivVolumeByID c symID deviceID) in
      if SnapVXTgt pVolInfo then
        let* s := index (SnapVXSession pVolInfo) 0 in
        ok (srcSession,
            (λ s, mkSession (ts_SourceDevice s) (ts_SnapshotName s) (ts_Generation s) (ts_Expired s)
                    [mkTarget (ts_TargetDevice s) (Link_Defined link)]) <$> s)
      else ok (srcSession, None)
  end.

(** The targets from the [counter]-th on; a target that is not defined ends it, and so
    does one that is unlinked already. *)
Fixpoint unlink_targets (symID : string) (s : SnapSession) (maxUnlinkCount counter : Z) (targets : list SnapTarget) (c : C) : M W (option error) :=
  match targets with
  | [] => ret None
  | target :: targets =>
      if Defined target then
        let* err := lift (ModifySnapshotS c symID [Session_Source s] [Target target] (Session_Name s) Unlink "" (Session_Generation s) false) in
        match err with
        | Some e => if Contains (Error e) "The Device(s) is (are) already in the desired state or mode" then ret None else ret (Some e)
        | None =>
            if maxUnlinkCount =? 0 then unlink_targets symID s maxUnlinkCount counter targets c
            else if counter + 1 =? maxUnlinkCount then ret None
            else unlink_targets symID s maxUnlinkCount (counter + 1) targets c
        end
      else ret (Some (errorString "Not all the targets are in Defined state"))
  end.
Definition UnlinkSnapshot (symID : string) (snapSession : SnapSession) (maxUnlinkCount : Z) (c : C) : M W (option error) :=
  unlink_targets symID snapSession maxUnlinkCount 0 (Session_Targets snapSession) c.

Definition UnlinkTargets (symID srcDevID : string) (c : C) : M W (option error) :=
  let* r := GetSnapSessions symID srcDevID c in
  match r with
  | Err e => ret (Some e)
  | Ok (s :: _, _) => UnlinkSnapshot symID s MaxUnlinkCount c
  | Ok ([], _) => ret None
  end.

Definition RemoveSnapshot (symID srcDev snapID : string) (generation : Z) (c : C) : M W (option error) :=
  let* err := lift (DeleteSnapshotS c symID snapID [srcDev] generation) in
  ret ((λ e, errorString ("DeleteSnapshot failed with error (" ++ Error e ++ ")")) <$> err).

Definition TerminateSnapshot (symID srcDev snapID : string) (c : C) : M W (option error) :=
  let* snap := lift (GetSnapshotInfo c symID srcDev snapID) in
  match snap with
  | Ok (mkVolumeSnapshot _ (Some _)) => RemoveSnapshot symID srcDev snapID 0 c
  | _ => ret None
  end.

Definition IsVolumeInSnapSession (symID deviceID : string) (c : C) : M W (result error (bool * bool)) :=
  let? vol := lift (GetVolumeByID c symID deviceID) in ok (SnapSource vol, Pmax.SnapTarget vol).

(** The sessions named [snapID], or all of them, unlinked and terminated; the number of
    snapshots left. *)
Fixpoint terminate_named (symID snapID : string) (sessions : list SnapSession) (noOfSnapsOnSrc : Z) (c : C) : M W (result error Z) :=
  match sessions with
  | [] => ok noOfSnapsOnSrc
  | s :: sessions =>
      if bool_decide (Session_Name s = snapID ∨ snapID = "") then
        do? UnlinkSnapshot symID s 0 c in
        if Session_Expired s then terminate_named symID snapID sessions noOfSnapsOnSrc c
        else
          do? TerminateSnapshot symID (Session_Source s) (Session_Name s) c
            orelse (λ e, errorString ("Failed to terminate snapshot - Error(" ++ Error e ++ ")")) in
          terminate_named symID snapID sessions (noOfSnapsOnSrc - 1) c
      else terminate_named symID snapID sessions noOfSnapsOnSrc c
  end.

(** A source that is tagged goes to the deletion worker; a failure is left to the next start. *)
Definition delete_tagged (symID deviceID : string) (c : C) : M W unit :=
  let* r := lift (GetVolumeByID c symID deviceID) in
  match r with
  | Ok vol =>
      if isSourceTaggedToDelete (VolumeIdentifier vol) then
        let* _ := MarkVolumeForDeletion QueueDeviceForDeletion symID vol c in ret tt
      else ret tt
  | Err _ => ret tt
  end.

Definition UnlinkAndTerminate (symID deviceID snapID : string) (c : C) : M W (result error unit) :=
  let? sessions := GetSnapSessions symID deviceID c in
  let '(srcSessions, tgtSession) := sessions in
  match srcSessions, tgtSession with
  | [], None => fail (errorString ("Couldn't find any source or target session for " ++ deviceID))
  | _, _ =>
      do? match tgtSession with Some t => UnlinkSnapshot symID t 0 c | None => ret None end in
      let? left_ := terminate_named symID snapID (sort_by (λ a b, Session_Generation b <? Session_Generation a) srcSessions)
                     (Z.of_nat (List.length srcSessions)) c in
      if left_ =? 0 then let* _ := delete_tagged symID deviceID c in ok tt else ok tt
  end.

(** ** Linking and creation *)
Definition LinkVolumeToSnapshot (symID srcDevID tgtDevID snapID reqID : string) (isCopy : bool) (c : C) : M W (option error) :=
  let* r :=
    with_lock (srcDevID ++ symID) reqID (λ e, e)
      (let? _ := lift (GetSnapshotInfo c symID srcDevID snapID) in
       do? lift (ModifySnapshotS c symID [srcDevID] [tgtDevID] snapID Link "" 0 isCopy)
         orelse (λ e, if Contains (Error e) maxSessions then statusError FailedPrecondition ("Failed to link volumes: " ++ Error e) else e) in
       ok tt) in
  ret (match r with Err e => Some e | Ok _ => None end).

Definition create_new (symID deviceID snapID : string) (TTL : Z) (c : C) : M W (result error VolumeSnapshot) :=
  do? lift (client_CreateSnapshot c symID snapID [deviceID] TTL)
    orelse (λ e, errorString ("CreateSnapshot failed with error (" ++ Error e ++ ")")) in
  lift (GetSnapshotInfo c symID deviceID snapID).

(** A device that is the target of a snapshot is freed from it first, under the lock of that
    snapshot's source, which is kept until the creation has ended. *)
Definition free_and_create (symID : string) (vol : Volume) (snapID : string) (TTL : Z) (tgt : option SnapSession) (reqID : string) (c : C)
    : M W (result error VolumeSnapshot) :=
  let deviceID := Pmax.VolumeID vol in
  match tgt with
  | None => create_new symID deviceID snapID TTL c
  | Some tgt =>
      let body :=
        let? sessions := GetSnapSessions symID deviceID c in
        do? match sessions.2 with
            | Some tgt =>
                let* t := index (Session_Targets tgt) 0 in
                lift (ModifySnapshotS c symID [Session_Source tgt] [Target t] (Session_Name tgt) Unlink "" (Session_Generation tgt) false)
            | None => ret None
            end in
        create_new symID deviceID snapID TTL c in
      let* t := index (Session_Targets tgt) 0 in
      if Defined t then
        if decide (deviceID ≠ Session_Source tgt) then
          with_lock (Session_Source tgt ++ symID) reqID (λ e, statusError Internal ("failed to acquire lock: " ++ Error e)) body
        else body
      else fail (errorString ("The source device (" ++ Session_Source tgt ++ ") is not in Defined state to execute unlink"))
  end.

Definition CreateSnapshotFromVolume (symID : string) (vol : Volume) (snapID : string) (TTL : Z) (reqID : string) (c : C)
    : M W (result error VolumeSnapshot) :=
  let deviceID := Pmax.VolumeID vol in
  with_lock (deviceID ++ symID) reqID (λ e, e)
    (if SnapSource vol || Pmax.SnapTarget vol then
       let? sessions := GetSnapSessions symID deviceID c in
       let '(srcSessions, tgtSession) := sessions in
       if existsb (λ s, bool_decide (Session_Name s = snapID)) srcSessions then lift (GetSnapshotInfo c symID deviceID snapID)
       else free_and_create symID vol snapID TTL tgtSession reqID c
     else create_new symID deviceID snapID TTL c).

Definition request_cleanup (req : snapCleanupRequest) : M W unit :=
  let* scw := Publish.get snapCleaner in Publish.modify (setSnapCleaner (requestCleanup req scw)).

(** A temporary snapshot of one hour, linked to the target and left to the worker. *)
Definition LinkVolumeToVolume (symID : string) (vol : Volume) (tgtDevID snapID reqID : string) (isCopy : bool) (c : C) : M W (option error) :=
  let* r := CreateSnapshotFromVolume symID vol snapID 1 reqID c in
  match r with
  | Err e => ret (Some (if Contains (Error e) maxSessions then statusError FailedPrecondition ("Failed to create snapshot: " ++ Error e) else e))
  | Ok snapInfo =>
      let snapID := vs_SnapshotName snapInfo in
      let* e := LinkVolumeToSnapshot symID (Pmax.VolumeID vol) tgtDevID snapID reqID isCopy c in
      let failed := match e with Some e => negb (Contains (Error e) errDesiredState) | None => false end in
      if failed then ret e
      else let* _ := request_cleanup (mkCleanup symID snapID (Pmax.VolumeID vol) reqID 0) in ret None
  end.

(** ** The cleanup worker *)
Variable GetPowerMaxClient : string → string → M W (result error C).
Variable clusterPrefix : string.

Definition tempSnapTag : string := DeletionWorker.TempSnap ++ clusterPrefix.
Definition delSnapTag : string := SnapDelPrefix ++ "-" ++ CsiVolumePrefix ++ clusterPrefix.

(** The snapshots of a device that the driver left behind: generation 0 and a tag. *)
Fixpoint push_left (symID dev : string) (snaps : list (string * Z)) : M W unit :=
  match snaps with
  | [] => ret tt
  | (name, generation) :: snaps =>
      let* _ :=
        match findSnapIDFromSnapName name with
        | Some snapID =>
            if (generation =? 0) && (HasPrefix snapID tempSnapTag || HasPrefix snapID delSnapTag)
            then request_cleanup (mkCleanup symID snapID dev "" 0) else ret tt
        | None => ret tt
        end in
      push_left symID dev snaps
  end.
Fixpoint scan_devices (symID : string) (devices : list (string * list (string * Z))) : M W unit :=
  match devices with
  | [] => ret tt
  | (dev, snaps) :: devices => let* _ := push_left symID dev snaps in scan_devices symID devices
  end.

(** The start of the worker: what is left on the arrays, those that cannot be read skipped. *)
Fixpoint scan_arrays (ManagedArrays : list string) : M W unit :=
  match ManagedArrays with
  | [] => ret tt
  | symID :: arrays =>
      let* rc := GetPowerMaxClient symID "" in
      let* _ :=
        match rc with
        | Err _ => ret tt
        | Ok c =>
            let* e := IsSnapshotLicensed symID c in
            match e with
            | Some _ => ret tt
            | None =>
                let* r := lift (GetSnapVolumeList c symID) in
                match r with Err _ => ret tt | Ok volList => scan_devices symID volList end
            end
        end in
      scan_arrays arrays
  end.

(** One round of the worker: [nanos] names a request without a name. The lock stays taken
    when the array has no client, and a failure is queued again only at the number of
    retries a request never reaches. *)
Definition cleanup_round (nanos : Z) : M W unit :=
  let* scw := Publish.get snapCleaner in
  let '(item, scw) := removeItem scw in
  let* _ := Publish.modify (setSnapCleaner scw) in
  match item with
  | None => ret tt
  | Some req =>
      let reqID := if decide (cleanup_requestID req = "") then "ReqID" ++ Itoa nanos else cleanup_requestID req in
      let lockHandle := cleanup_volumeID req ++ cleanup_symmetrixID req in
      let* l := lift (RequestLock (C := C) lockHandle reqID) in
      match l with
      | Err _ => ret tt
      | Ok lockNum =>
          let* rc := GetPowerMaxClient (cleanup_symmetrixID req) "" in
          match rc with
          | Err _ => ret tt
          | Ok c =>
              let* r := UnlinkAndTerminate (cleanup_symmetrixID req) (cleanup_volumeID req) (cleanup_snapshotID req) c in
              let* _ :=
                match r with
                | Err e =>
                    if Contains (Error e) "Volume is neither a source nor target" then ret tt
                    else if cleanup_retries req =? MaxRetries scw then
                      let* scw := Publish.get snapCleaner in
                      Publish.modify (setSnapCleaner (queueForRetry
                        (mkCleanup (cleanup_symmetrixID req) (cleanup_snapshotID req) (cleanup_volumeID req) (cleanup_requestID req)
                           (cleanup_retries req + 1)) scw))
                    else ret tt
                | Ok _ => ret tt
                end in
              lift (ReleaseLock (C := C) lockHandle reqID lockNum)
          end
      end
  end.

(** Without a client for the array the round ends with the lock taken: nothing follows the
    request for the client. *)
Lemma cleanup_keeps_lock nanos w req scw lockNum w1 e w2 :
  let reqID := if decide (cleanup_requestID req = "") then "ReqID" ++ Itoa nanos else cleanup_requestID req in
  removeItem (snapCleaner w) = (Some req, scw) →
  RequestLock (C := C) (cleanup_volumeID req ++ cleanup_symmetrixID req) reqID (setSnapCleaner scw w) = (Ok lockNum, w1) →
  GetPowerMaxClient (cleanup_symmetrixID req) "" w1 = Some (Err e, w2) → cleanup_round nanos w = Some (tt, w2).
Proof.
  intros reqID Hr Hl Hc. unfold cleanup_round, mbnd, Publish.get, Publish.modify, lift. rewrite Hr. fold reqID. by rewrite Hl, Hc.
Qed.

(** ** Requests *)
Variables (useProxy autoProbe : bool) (grpcMaxThreads : Z) (ind : Pending.induced).
Variable controllerProbe : M W (option error).

Definition probed : M (tables * W) (option error) := requireProbe useProxy autoProbe grpcMaxThreads controllerProbe true.

Definition check_license (symID : string) (c : C) : M (tables * W) (option error) :=
  let* e := on_arrays (IsSnapshotLicensed symID c) in
  ret (match e with
       | Some (ArrayNotManaged e) => Some (statusError NotFound (Error e))
       | Some (Unlicensed e) => Some (statusError Internal (Error e))
       | None => None
       end).

Record Snapshot := mkSnapshot { SizeBytes : Z; SnapshotId : string; SourceVolumeId : string; CreationTime : Z }.

Definition snap_bytes (vol : Volume) : Z :=
  let k := float_of_Z 1024 in int64_of_float (fmul (fmul (fmul (Volume_CapacityGB vol) k) k) k).

(** The array and device a snapshot is taken on: of the pair, the one the class names. *)
Definition snapshot_side (csi : csiID) (param : option string) : result error (string * string) :=
  match param with
  | Some s =>
      if decide (s = VolumeID.remoteSymID csi) then Ok (VolumeID.remoteSymID csi, remoteVolID csi)
      else if decide (s ≠ arrayID csi) then
        Err (statusError InvalidArgument "Symmetrix ID in snapclass parameters doesn't match the volume's symmetrix id")
      else Ok (arrayID csi, VolumeID.devID csi)
  | None => Ok (arrayID csi, VolumeID.devID csi)
  end.

Definition CreateSnapshot (snapName volID : string) (params : gmap string string) (reqID : string) : M (tables * W) (result error Snapshot) :=
  let bad msg := fail (statusError InvalidArgument msg) in
  if decide (snapName = "") then bad "Snapshot name cannot be empty"
  else match snapshotID clusterPrefix snapName with
  | None => panic
  | Some snapID =>
      if decide (volID = "") then bad "Source volume ID is required for creating snapshot"
      else match parseCsiID volID with
      | None => panic
      | Some (Err _) => bad "Could not parse CSI VolumeId"
      | Some (Ok csi) =>
          let? side := ret (snapshot_side csi (params !! SymmetrixIDParam)) in
          let '(symID, devID) := side in
          let? c := on_arrays (GetPowerMaxClient (arrayID csi) (VolumeID.remoteSymID csi)) orelse (λ e, statusError NotFound (Error e)) in
          let* fs := on_arrays (lift (GetFileSystemByID c symID volID)) in
          match fs with
          | Ok _ => fail (statusError Unavailable "snapshot on a NFS volume is not supported")
          | Err _ =>
              do? probed in
              do? check_license symID c in
              let? vol := on_arrays (lift (GetVolumeByID c symID devID))
                orelse (λ _, statusError InvalidArgument "Could not find source volume on the array") in
              let* snapInfo := on_arrays (lift (GetSnapshotInfo c symID devID snapID)) in
              match snapInfo with
              | Ok (mkVolumeSnapshot _ (Some _)) =>
                  let* now := on_arrays (lift (Now (C := C))) in
                  ok (mkSnapshot (snap_bytes vol) (snapID ++ "-" ++ symID ++ "-" ++ devID) volID now)
              | _ =>
                  let* now := on_arrays (lift (Now (C := C))) in
                  while_pending snapshot_table ind now (symID ++ "-" ++ devID) Err
                    (let? snap := on_arrays (CreateSnapshotFromVolume symID vol snapID 0 reqID c)
                       orelse (λ e, statusError (if Contains (Error e) maxSessions then FailedPrecondition else Internal)
                                      ("Failed to create snapshot: " ++ Error e)) in
                     let* now := on_arrays (lift (Now (C := C))) in
                     ok (mkSnapshot (snap_bytes vol) (vs_SnapshotName snap ++ "-" ++ symID ++ "-" ++ devID) volID now))
              end
          end
      end
  end.

Definition DeleteSnapshot (id reqID : string) : M (tables * W) (result error unit) :=
  if decide (id = "") then fail (statusError InvalidArgument "Snapshot ID to be deleted is required")
  else match parseCsiID id with
  | None => panic
  | Some (Err _) => fail (statusError InvalidArgument "Snapshot name is not in supported format")
  | Some (Ok csi) =>
      let snapID := volName csi in
      let symID := arrayID csi in
      let devID := VolumeID.devID csi in
      let? c := on_arrays (GetPowerMaxClient symID "") orelse (λ e, statusError NotFound (Error e)) in
      do? probed in
      do? check_license symID c in
      let* snapInfo := on_arrays (lift (GetSnapshotInfo c symID devID snapID)) in
      match snapInfo with
      | Err e =>
          if Contains (Error e) "not found" then ok tt
          else fail (statusError Internal ("GetSnapshotInfo() failed with error (" ++ Error e ++ ") for snapshot (" ++ snapID ++ ")"))
      | Ok (mkVolumeSnapshot _ None) => ok tt
      | Ok _ =>
          let* now := on_arrays (lift (Now (C := C))) in
          while_pending snapshot_table ind now (symID ++ "-" ++ devID) Err
            (on_arrays (with_lock (devID ++ symID) reqID (λ e, statusError Internal ("failed to acquire lock: " ++ Error e))
              (let? _ := UnlinkAndTerminate symID devID snapID c orelse (λ e, statusError Internal (Error e)) in ok tt)))
      end
  end.
End calls.

(** ** What the requests change *)
Import Trace.

Section traced.
Context {W C : Type} `{Pmax W C} `{MaskingClient W C} `{FileClient W C} `{CreateClient W C} `{RenameClient W C}.
Context `{SnapClient W C} `{LicenseCache W} `{SnapCleaner W}.

#[export] Instance traced_files : FileClient (traced W) C := {
  GetNASServerList a0 a1 a2 := quiet (GetNASServerList a0 a1 a2);
  GetNASServerByID a0 a1 a2 := quiet (GetNASServerByID a0 a1 a2);
  GetFileInterfaceByID a0 a1 a2 := quiet (GetFileInterfaceByID a0 a1 a2);
  GetFileSystemList a0 a1 a2 a3 := quiet (GetFileSystemList a0 a1 a2 a3);
  GetFileSystemByID a0 a1 a2 := quiet (GetFileSystemByID a0 a1 a2);
  client_CreateFileSystem a0 a1 a2 a3 a4 a5 := quiet (client_CreateFileSystem a0 a1 a2 a3 a4 a5);
  ModifyFileSystem a0 a1 a2 a3 := quiet (ModifyFileSystem a0 a1 a2 a3);
  client_DeleteFileSystem a0 a1 a2 := quiet (client_DeleteFileSystem a0 a1 a2);
  GetNFSExportList a0 a1 a2 a3 := quiet (GetNFSExportList a0 a1 a2 a3);
  GetNFSExportByID a0 a1 a2 := quiet (GetNFSExportByID a0 a1 a2);
  client_CreateNFSExport a0 a1 a2 := quiet (client_CreateNFSExport a0 a1 a2);
  client_DeleteNFSExport a0 a1 a2 := quiet (client_DeleteNFSExport a0 a1 a2);
  FormatNow := quiet (FormatNow (C := C));
}.
#[export] Instance traced_create : CreateClient (traced W) C := {
  client_CreateVolume a0 a1 a2 a3 := quiet (client_CreateVolume a0 a1 a2 a3);
  GetVolumesByIdentifier a0 a1 a2 := quiet (GetVolumesByIdentifier a0 a1 a2);
  GetSnapshotInfo a0 a1 a2 a3 := quiet (GetSnapshotInfo a0 a1 a2 a3);
  IsAllowedArray := IsAllowedArray;
  GetReplicationCapabilities a0 := quiet (GetReplicationCapabilities a0);
}.
#[export] Instance traced_rename : RenameClient (traced W) C := {
  RenameVolume a0 a1 a2 a3 := noisy (EvRename a1 a2 a3) (RenameVolume a0 a1 a2 a3);
}.
#[export] Instance traced_snap : SnapClient (traced W) C := {
  GetPrivVolumeByID a0 a1 a2 := quiet (GetPrivVolumeByID a0 a1 a2);
  client_CreateSnapshot a0 a1 a2 a3 a4 := noisy (EvCreateSnapshot a1 a2 a3) (client_CreateSnapshot a0 a1 a2 a3 a4);
  GetSnapVolumeList a0 a1 := quiet (GetSnapVolumeList a0 a1);
}.
#[export] Instance traced_license : LicenseCache (traced W) := {
  symmRepCapabilities t := symmRepCapabilities t.1;
  setSymmRepCapabilities m t := (setSymmRepCapabilities m t.1, t.2);
}.
#[export] Instance traced_cleaner : SnapCleaner (traced W) := {
  snapCleaner t := snapCleaner t.1;
  setSnapCleaner s t := (setSnapCleaner s t.1, t.2);
}.

Lemma logs_get P {A} (f : traced W → A) : logs P (Publish.get f).
Proof. intros t a t' [= <- <-]. exists []. by rewrite app_nil_r. Qed.
Lemma logs_license P symID (c : C) : logs P (IsSnapshotLicensed (W := traced W) symID c).
Proof.
  unfold IsSnapshotLicensed. logs; try apply logs_get. intros t x t' [= <- <-]. exists []. by rewrite app_nil_r.
Qed.

Lemma sessions_logs P symID dev (c : C) : logs P (GetSnapSessions (W := traced W) symID dev c).
Proof. unfold GetSnapSessions, try, ok, fail. logs. Qed.

(** *** Deletion of a snapshot *)
Definition may_delete (symID dev snapID : string) (e : event) : Prop :=
  match e with
  | EvTerminate sym name sources => sym = symID ∧ name = snapID ∧ sources = [dev]
  | EvModifySnapshot sym name action sources targets => sym = symID ∧ action = Unlink
  | EvRename sym _ name => sym = symID ∧ ∃ old, isSourceTaggedToDelete old = true ∧ name = marked_name old
  | _ => False
  end.

Lemma unlink_logs symID dev snapID s max counter targets (c : C) :
  logs (may_delete symID dev snapID) (unlink_targets (W := traced W) symID s max counter targets c).
Proof.
  revert counter. induction targets as [|t ts IH]; intros counter; simpl; [apply logs_ret|].
  destruct (Defined t); [|apply logs_ret]. apply logs_bind; [by apply logs_noisy|]. intros [e|].
  - case_match; apply logs_ret.
  - repeat case_match; (apply IH || apply logs_ret).
Qed.

Lemma terminate_logs symID dev snapID sessions n (c : C) :
  snapID ≠ "" → (∀ s, s ∈ sessions → Session_Source s = dev) →
  logs (may_delete symID dev snapID) (terminate_named (W := traced W) symID snapID sessions n c).
Proof.
  intros Hne. revert n. induction sessions as [|s ss IH]; intros n Hs; simpl; [apply logs_ret|].
  assert (∀ n, logs (may_delete symID dev snapID) (terminate_named (W := traced W) symID snapID ss n c)) as IH'
    by (intros; apply IH; intros; apply Hs; by right).
  case_bool_decide as Hn; [|done]. apply logs_check; [apply unlink_logs|]. destruct (Session_Expired s); [done|].
  apply logs_check; [|done]. unfold TerminateSnapshot, RemoveSnapshot. apply logs_bind; [apply logs_quiet|].
  intros [[? [l|]]|]; try apply logs_ret. apply logs_bind; [|intros; apply logs_ret]. apply logs_noisy.
  simpl. split_and!; [done|tauto|]. by rewrite (Hs s) by left.
Qed.

Lemma sessions_source symID dev (c : C) :
  post (GetSnapSessions (W := traced W) symID dev c) (λ r, match r with Ok (srcs, _) => ∀ s, s ∈ srcs → Session_Source s = dev | Err _ => True end).
Proof.
  unfold GetSnapSessions. apply post_try_skip; [done|]. intros info.
  assert (∀ s, s ∈ source_session dev <$> VolumeSnapshotSources info → Session_Source s = dev) as Hs
    by (intros s (x & -> & _)%list_elem_of_fmap; done).
  destruct (VolumeSnapshotLinks info); [by apply post_ret|]. apply post_try_skip; [done|]. intros p.
  destruct (SnapVXTgt p); [|by apply post_ret]. apply post_skip. intros s. by apply post_ret.
Qed.

Lemma mark_logs symID dev snapID vol q (c : C) :
  isSourceTaggedToDelete (VolumeIdentifier vol) = true →
  logs (may_delete symID dev snapID) (MarkVolumeForDeletion (W := traced W) (λ a b d, quietM (q a b d)) symID vol c).
Proof.
  intros Ht. unfold MarkVolumeForDeletion. apply logs_bind.
  - apply logs_noisy. simpl. split; [done|]. by exists (VolumeIdentifier vol).
  - intros [[v|]|]; try apply logs_ret. apply logs_quietM.
Qed.

Lemma unlink_and_terminate_logs symID dev snapID q (c : C) :
  snapID ≠ "" →
  logs (may_delete symID dev snapID) (UnlinkAndTerminate (W := traced W) (λ a b d, quietM (q a b d)) symID dev snapID c).
Proof.
  intros Hne. unfold UnlinkAndTerminate. eapply logs_bind_post; [apply sessions_logs|apply sessions_source|].
  intros [[srcs tgt]|e] Hsrc; [|apply logs_ret].
  assert (logs (may_delete symID dev snapID)
    (check (match tgt with Some t => UnlinkSnapshot symID t 0 c | None => ret None end) (λ e, e)
      (try (terminate_named symID snapID (sort_by (λ a b, Session_Generation b <? Session_Generation a) srcs) (Z.of_nat (List.length srcs)) c) (λ e, e)
        (λ n, if n =? 0 then mbnd (delete_tagged (λ a b d, quietM (q a b d)) symID dev c) (λ _, ok tt) else ok tt)))) as Hall.
  { apply logs_check; [destruct tgt; [apply unlink_logs|apply logs_ret]|].
    apply logs_try; [apply terminate_logs; [done|]; intros s Hs; apply Hsrc; by rewrite sort_by_perm in Hs|].
    intros n. case_match; [|apply logs_ret]. apply logs_bind; [|intros; apply logs_ret].
    unfold delete_tagged. apply logs_bind; [apply logs_quiet|]. intros [vol|e]; [|apply logs_ret].
    destruct (isSourceTaggedToDelete _) eqn:Ht; [|apply logs_ret]. apply logs_bind; [by apply mark_logs|]. intros; apply logs_ret. }
  destruct srcs, tgt; first [apply logs_ret|exact Hall].
Qed.

(** *** Requests *)
Definition rpc_logs {A} (P : event → Prop) (m : M (tables * traced W) A) : Prop :=
  ∀ s a s', m s = Some (a, s') → ∃ l, s'.2.2 = (s.2.2 ++ l)%list ∧ Forall P l.

Lemma rpc_ret {A} P (a : A) : rpc_logs P (ret a).
Proof. intros s x s' [= _ <-]. exists []. by rewrite app_nil_r. Qed.
Lemma rpc_bind {A B} P (m : M (tables * traced W) A) (k : A → M (tables * traced W) B) :
  rpc_logs P m → (∀ a, rpc_logs P (k a)) → rpc_logs P (mbnd m k).
Proof.
  intros Hm Hk s b s' (a & s1 & H1' & H2')%mbnd_Some.
  destruct (Hm _ _ _ H1') as (l1 & E1 & HP1), (Hk _ _ _ _ H2') as (l2 & E2 & HP2).
  exists (l1 ++ l2)%list. split; [by rewrite E2, E1, app_assoc|]. by apply Forall_app.
Qed.
Lemma rpc_arrays {A} P (m : M (traced W) A) : logs P m → rpc_logs P (on_arrays m).
Proof. intros Hm s a s'. unfold on_arrays. destruct (m s.2) as [[x t]|] eqn:E; [|done]. intros [= _ <-]. exact (Hm _ _ _ E). Qed.
Lemma rpc_try {A B} P (m : M (tables * traced W) (result error A)) h (k : A → M (tables * traced W) (result error B)) :
  rpc_logs P m → (∀ a, rpc_logs P (k a)) → rpc_logs P (try m h k).
Proof. intros Hm Hk. apply rpc_bind; [done|]. intros [a|e]; [apply Hk|apply rpc_ret]. Qed.
Lemma rpc_check {B} P (m : M (tables * traced W) (option error)) h (k : M (tables * traced W) (result error B)) :
  rpc_logs P m → rpc_logs P k → rpc_logs P (check m h k).
Proof. intros Hm Hk. apply rpc_bind; [done|]. intros [e|]; [apply rpc_ret|done]. Qed.
Lemma rpc_pending {A} P T ind now id (refuse : error → A) (m : M (tables * traced W) A) :
  rpc_logs P m → rpc_logs P (while_pending T ind now id refuse m).
Proof.
  intros Hm. assert (∀ ps, rpc_logs P (put_pending T ps)) as Hp by (intros ps s a s' [= _ <-]; exists []; by rewrite app_nil_r).
  assert (rpc_logs P (get_pending T)) as Hg by (intros s a s' [= _ <-]; exists []; by rewrite app_nil_r).
  unfold while_pending. apply rpc_bind; [done|]. intros ps. destruct (Pending.checkAndUpdatePendingState _ _ _ _) as [ps' [e|]]; [apply rpc_ret|].
  do 3 (apply rpc_bind; [done|]; intros ?). apply rpc_bind; [done|]. intros ?. apply rpc_ret.
Qed.
Lemma rpc_probed P up ap g pr : rpc_logs P (probed (W := traced W) up ap g pr).
Proof. intros s a s' [= _ <-]. exists []. by rewrite app_nil_r. Qed.
Lemma rpc_license P symID (c : C) : rpc_logs P (check_license (W := traced W) symID c).
Proof. apply rpc_bind; [apply rpc_arrays, logs_license|]. intros ?. apply rpc_ret. Qed.
Lemma with_lock_logs {A} P key req k (m : M (traced W) (result error A)) :
  logs P m → logs P (with_lock (W := traced W) (C := C) key req k m).
Proof.
  intros Hm. apply logs_try; [apply logs_quiet|]. intros n. apply logs_bind; [done|]. intros r.
  apply logs_bind; [apply logs_quiet|]. intros ?. apply logs_ret.
Qed.

Lemma parsed_name id csi : parseCsiID id = Some (Ok csi) → volName csi ≠ "".
Proof.
  unfold parseCsiID. case_decide; [done|]. cbv zeta. case_match; [done|]. case_match; [done|].
  match goal with |- context [slen id <=? ?n] => destruct (Z.leb_spec (slen id) n) as [|Hlen]; [done|] end.
  set (k := slen id - _). assert (2 < k) as Hk by (unfold k; lia). assert (k <= slen id) as Hk' by (unfold k, slen; lia). clearbody k.
  assert (stake (Z.to_nat k) id ≠ "") as Hne.
  { destruct (Z.to_nat k) eqn:E; [lia|]. destruct id; [unfold slen in *; simpl in *; lia|done]. }
  assert (∀ name a d x, with_remote name a d = Some x → volName x = name) as Hname.
  { intros name a d x. unfold with_remote. repeat case_match; try done; by intros [= <-]. }
  destruct (with_remote _ _ _) eqn:E; [|done]. intros [= <-]. by rewrite (Hname _ _ _ _ E).
Qed.

Variables (useProxy autoProbe : bool) (grpcMaxThreads : Z) (ind : Pending.induced).
Variable controllerProbe : M W (option error).
Variable GetPowerMaxClient : string → string → M W (result error C).
Variable QueueDeviceForDeletion : string → string → string → M W (option error).

(** Whatever the array answers, DeleteSnapshot terminates no snapshot but the one its id
    names, on the device and array of the id; beyond that it only unlinks targets and renames
    a device that was deleted before and waited for its last snapshot (its name has the tag),
    marking it for deletion. No volume, group or view is changed. *)
Theorem delete_snapshot_only_named id csi reqID s r s' :
  parseCsiID id = Some (Ok csi) →
  DeleteSnapshot (W := traced W) (λ a b d, quietM (QueueDeviceForDeletion a b d)) (λ a b, quietM (GetPowerMaxClient a b))
    useProxy autoProbe grpcMaxThreads ind (quietM controllerProbe) id reqID s = Some (r, s') →
  ∃ l, s'.2.2 = (s.2.2 ++ l)%list ∧ Forall (may_delete (arrayID csi) (VolumeID.devID csi) (volName csi)) l.
Proof.
  intros Hp. revert s r s'. match goal with |- ∀ s r s', ?m s = _ → _ => change (rpc_logs (may_delete (arrayID csi) (VolumeID.devID csi) (volName csi)) m) end.
  unfold DeleteSnapshot. rewrite Hp. case_decide; [apply rpc_ret|].
  apply rpc_try; [apply rpc_arrays, logs_quietM|]. intros c. apply rpc_check; [apply rpc_probed|]. apply rpc_check; [apply rpc_license|].
  apply rpc_bind; [apply rpc_arrays, logs_quiet|]. intros [[name [gens|]]|e]; [|apply rpc_ret|case_match; apply rpc_ret].
  apply rpc_bind; [apply rpc_arrays, logs_quiet|]. intros now. apply rpc_pending, rpc_arrays, with_lock_logs.
  apply logs_try; [|intros; apply logs_ret]. by apply unlink_and_terminate_logs, (parsed_name id).
Qed.
End traced.

(** ** The names of snapshots on a device *)
Lemma snap_name_roundtrip dev kind name gen :
  has_char "-" dev = false → has_char "-" kind = false → has_char "-" gen = false →
  findSnapIDFromSnapName (dev ++ "-" ++ kind ++ "-" ++ name ++ "-" ++ gen) = Some name.
Proof.
  intros Hd Hk Hg. unfold findSnapIDFromSnapName. rewrite !Split_app, Split_app_gen, (Split_none _ gen) by done.
  pose proof (Split_nonempty "-" name) as Hn. set (l := Split "-" name) in *.
  assert (List.length (dev :: kind :: l ++ [gen])%list = (List.length l + 3)%nat) as -> by (simpl; rewrite length_app; simpl; lia).
  destruct (Nat.ltb_spec (List.length l + 3) 4); [destruct l; [done|simpl in *; lia]|]. f_equal.
  change (drop 2 (dev :: kind :: l ++ [gen])%list) with (l ++ [gen])%list.
  replace (List.length l + 3 - 1 - 2)%nat with (List.length l) by lia. rewrite take_app_length. apply Join_Split.
Qed.

(** ** The queue of the worker *)
Definition cleanup_key (r : snapCleanupRequest) : string * string := (cleanup_symmetrixID r, cleanup_snapshotID r).
Definition unique_keys (scw : snapCleanupWorker) : Prop := NoDup (cleanup_key <$> CleanupQueue scw).

Lemma requestCleanup_unique req scw : unique_keys scw → unique_keys (requestCleanup req scw).
Proof.
  unfold unique_keys, requestCleanup, queueForRetry. intros Hu. destruct (existsb _ _) eqn:E; [done|]. simpl.
  rewrite fmap_app. apply NoDup_app. split_and!; [done| |apply NoDup_singleton].
  intros x Hx Hx'%list_elem_of_singleton. subst x. apply list_elem_of_fmap in Hx as (r & Hk & Hr).
  apply not_true_iff_false in E. apply E. apply existsb_exists. exists r. split; [by apply list_elem_of_In|].
  apply bool_decide_eq_true. unfold cleanup_key in Hk. naive_solver.
Qed.

(** Removal takes one request and keeps the others. *)
Lemma removeItem_perm scw req scw' : removeItem scw = (Some req, scw') → CleanupQueue scw ≡ₚ req :: CleanupQueue scw'.
Proof.
  unfold removeItem. destruct (CleanupQueue scw) as [|x rest]; [done|]. intros [= <- <-]. simpl. f_equiv.
  destruct (last rest) eqn:E; [|by apply last_None in E as ->].
  apply last_Some in E as [l' ->]. rewrite removelast_last. symmetry. apply Permutation_cons_append.
Qed.

(** ** Examples *)
Import SimArray SimMasking.

#[local] Instance sim_create : CreateClient Sim string := {
  client_CreateVolume _ _ _ _ w := (Err (errorString "unavailable"), w);
  GetVolumesByIdentifier _ _ _ w := (Ok [], w);
  GetSnapshotInfo _ _ _ name w := (Ok (mkVolumeSnapshot name (Some [7])), w);
  IsAllowedArray _ _ := None;
  GetReplicationCapabilities _ w := (Ok [], w);
}.
#[local] Instance sim_snap : SnapClient Sim string := {
  GetPrivVolumeByID _ _ _ w := (Err (errorString "unavailable"), w);
  client_CreateSnapshot _ _ name _ _ w := (None, log ("create " ++ name) w);
  GetSnapVolumeList _ _ w := (Ok [], w);
}.
#[local] Instance sim_license : LicenseCache Sim := {
  symmRepCapabilities _ := {["000120000548" := true]};
  setSymmRepCapabilities _ w := w;
}.
#[local] Instance sim_cleaner : SnapCleaner Sim := {
  snapCleaner _ := mkWorker [mkCleanup "000120000548" "CSI_TEMP_SNAPABC-1" "00001" "" 0] 10;
  setSnapCleaner _ w := w;
}.
#[local] Existing Instance Deletion.sim_rename.

(** A deleted volume with two snapshots, the second of them linked to a target. *)
Definition snap_sim (names : list string) : Sim :=
  let w := sim [mkVolume "00001" "csi-ABC-vol1-DS" [] true false "" 0 547 [] fzero] (mkStorageGroupRDFG [] []) in
  mkSim (sim_time w) (sim_version w) (sim_volumes w)
    (mkSnapInfo [] ((λ n, mkSnapshotSource n 0 [mkLinkedVolume "00002" true] false) <$> names)) (sim_sg w) (sim_rdf w) (sim_group w) (sim_dirs w) (sim_log w) (sim_licenses w).

Definition tables0 : tables := mkTables (Pending.mkPending 50 0 ∅) (Pending.mkPending 50 0 ∅) (Pending.mkPending 50 0 ∅).
Definition delete0 (names : list string) :=
  DeleteSnapshot (W := traced Sim) (C := string) (λ a b d, quietM (ret None)) (λ a b, quietM (ret (Ok "c"))) true false 4
    (Pending.mkInduced false false) (quietM (ret None)) "csi-ABC-snap1-000120000548-00001" "r" (tables0, (snap_sim names, [])).
Definition logged (r : option (result error unit * (tables * traced Sim))) : option (list event) :=
  match r with Some (Ok _, s) => Some s.2.2 | _ => None end.

(** With another snapshot left the volume stays; without one it is marked. *)
Example delete_one_of_two :
  logged (delete0 ["csi-ABC-snap1"; "csi-ABC-snap2"])
  = Some [EvModifySnapshot "000120000548" "csi-ABC-snap1" Unlink ["00001"] ["00002"]; EvTerminate "000120000548" "csi-ABC-snap1" ["00001"]].
Proof. by vm_compute. Qed.

Lemma delete_snapshot_only_named_witness :
  match delete0 ["csi-ABC-snap1"] with
  | Some (Ok _, s') =>
      Forall (may_delete "000120000548" "00001" "csi-ABC-snap1") s'.2.2
      ∧ s'.2.2 = [EvModifySnapshot "000120000548" "csi-ABC-snap1" Unlink ["00001"] ["00002"];
                  EvTerminate "000120000548" "csi-ABC-snap1" ["00001"]; EvRename "000120000548" "00001" "_DELcsi-ABC-vol1-DS"]
  | _ => False
  end.
Proof.
  assert (logged (delete0 ["csi-ABC-snap1"])
    = Some [EvModifySnapshot "000120000548" "csi-ABC-snap1" Unlink ["00001"] ["00002"];
            EvTerminate "000120000548" "csi-ABC-snap1" ["00001"]; EvRename "000120000548" "00001" "_DELcsi-ABC-vol1-DS"]) as Hl by by vm_compute.
  destruct (delete0 ["csi-ABC-snap1"]) as [[[u|e] s']|] eqn:E; [|done..]. injection Hl as Hl. split; [|exact Hl].
  pose proof (delete_snapshot_only_named true false 4 (Pending.mkInduced false false) (ret None) (λ _ _, ret (Ok "c")) (λ _ _ _, ret None)
    "csi-ABC-snap1-000120000548-00001" (mkCsiID "csi-ABC-snap1" "000120000548" "00001" "" "") "r" _ _ _ eq_refl E) as (l & El & Hf).
  rewrite El. exact Hf.
Defined.

End Snapshots.
