(* ===== verification/GroupSnapshots.v ===== *)
(** * Group snapshots

    Models service/group_controller.go: the requests that create, delete and read a
    snapshot of several volumes of one storage group, the identifiers of groups and of
    their members, and the check that makes the creation repeatable. *)

From stdpp Require Import base gmap strings list.
From Stdlib Require Import ZArith Lia Ascii.
From S2P Require Import Prelude GoLib Ordering Pmax SimArray PowerMax VolumeID Capacity Masking Trace Handler Pending Rpc Files Publish Deletion Sizes Creator Snapshots.

Module GroupSnapshots.
Import PowerMax VolumeID Masking Rpc Sizes Creator.
Import Snapshots(SnapClient, client_CreateSnapshot, Snapshot, mkSnapshot, SnapshotId, SourceVolumeId, SizeBytes, CreationTime).
Open Scope go_scope.
Open Scope handler_scope.
Open Scope string_scope.
Open Scope Z_scope.

(** ** The array's view of a group snapshot *)
Record SourceVolume := mkSource { Source_Name : string; CapacityGb : float64 }.

(** Calls on snapshots of storage groups; a pointer of an answer can be nil. *)
Class GroupSnapClient (W C : Type) := {
  GetVolumeIDListInStorageGroup : C → string → string → W → result error (list string) * W;
  (** Array, group and name: the ids of the snapshots. *)
  GetStorageGroupSnapshotSnapIDs : C → string → string → string → W → result error (option (list Z)) * W;
  (** Array, group, name and id: the volumes of the snapshot. *)
  GetStorageGroupSnapshotSnap : C → string → string → string → string → W → result error (option (list SourceVolume)) * W;
  IsNotFoundError : error → bool;
}.

(** ** Identifiers *)
Definition buildGroupSnapshotID (symID sgName snapName : string) : string := symID ++ "/" ++ sgName ++ "/" ++ snapName.

(** [None] is a panic of truncateString. *)
Definition buildGroupSnapName (clusterPrefix reqName : string) : option string :=
  let prefix := CsiVolumePrefix ++ clusterPrefix ++ "-grp-" in
  let maxTotalLen := MaxSnapIdentifierLength - 1 in
  let maxSuffixLen := maxTotalLen - slen prefix in
  if maxSuffixLen <=? 0 then truncateString prefix maxTotalLen
  else
    let suffix := Trim "-" (TrimPrefix reqName "groupsnapshot-") in
    let suffix := if maxSuffixLen <? slen suffix then TrimRight "-" (stake (Z.to_nat maxSuffixLen) suffix) else suffix in
    Some (prefix ++ suffix).

Definition parseGroupSnapshotID (id : string) : result error (string * string * string) :=
  match Split "/" id with
  | [symID; sgName; snapName] => Ok (symID, sgName, snapName)
  | _ => Err (errorString "expected format symID/sgName/snapName")
  end.

Definition buildMemberSnapshotID (snapName symID devID : string) : string := snapName ++ "-" ++ symID ++ "-" ++ devID.

(** ** Source volumes *)
Record groupVolInfo := mkGroupVol {
  gv_csiVolID : string;
  gv_volName : string;
  gv_symID : string;
  gv_devID : string;
}.

(** The volumes that are left, after [vols]; [None] is a panic of parseCsiID. *)
Fixpoint parse_sources (ids : list string) (vols : list groupVolInfo) (commonSymID : string) : option (result error (list groupVolInfo * string)) :=
  match ids with
  | [] => Some (Ok (vols, commonSymID))
  | srcVolID :: ids =>
      match parseCsiID srcVolID with
      | None => None
      | Some (Err _) => Some (Err (statusError InvalidArgument ("failed to parse volume ID: " ++ srcVolID)))
      | Some (Ok csi) =>
          let symID := arrayID csi in
          if decide (VolumeID.remoteSymID csi ≠ "" ∧ remoteVolID csi ≠ "") then
            Some (Err (statusError InvalidArgument ("group snapshots are not supported on PowerMax metro volumes: " ++ srcVolID)))
          else if decide (commonSymID ≠ "" ∧ commonSymID ≠ symID) then
            Some (Err (statusError InvalidArgument "all source volumes must belong to the same PowerMax array"))
          else
            parse_sources ids (vols ++ [mkGroupVol srcVolID (volName csi) symID (VolumeID.devID csi)])%list
              (if decide (commonSymID = "") then symID else commonSymID)
      end
  end.
Definition parseAndValidateGroupSourceVolumes (sourceVolumeIDs : list string) : option (result error (list groupVolInfo * string)) :=
  parse_sources sourceVolumeIDs [] "".

(** The first group of each volume that has the driver's prefix, common to all. *)
Fixpoint common_group (csiSGPrefix : string) (volumes : list Volume) (commonSG : string) : result error string :=
  match volumes with
  | [] =>
      if decide (commonSG = "") then Err (statusError FailedPrecondition "volumes must belong to a CSI-managed storage group")
      else Ok commonSG
  | vol :: volumes =>
      let candidate := default "" (List.find (λ sg, HasPrefix sg csiSGPrefix) (StorageGroupIDList vol)) in
      if decide (candidate = "") then Err (statusError FailedPrecondition "volume must already belong to a CSI-managed storage group")
      else if decide (commonSG = "") then common_group csiSGPrefix volumes candidate
      else if decide (candidate ≠ commonSG) then
        Err (statusError FailedPrecondition "volumes have inconsistent StorageGroup membership; all must be in the same SG")
      else common_group csiSGPrefix volumes commonSG
  end.
Definition resolveStorageGroup (volumes : list Volume) (clusterPrefix : string) : result error string :=
  common_group (CSIPrefix ++ "-" ++ clusterPrefix ++ "-") volumes "".

Definition isSnapshotReady (states : list string) : bool := existsb (λ state, Contains state "Established") states.

(** ** Answers *)
(** Members are always ready. *)
Record VolumeGroupSnapshot := mkGroupSnapshot {
  GroupSnapshotId : string;
  group_Snapshots : list Snapshot;
  group_CreationTime : Z;
  ReadyToUse : bool;
}.

Definition capacity_bytes (capacityGb : float64) : Z :=
  let k := float_of_Z 1024 in int64_of_float (fmul (fmul (fmul capacityGb k) k) k).

(** The last volume of a name counts. *)
Definition capacityMap (sources : list SourceVolume) : gmap string float64 :=
  fold_left (λ m v, <[Source_Name v := CapacityGb v]> m) sources ∅.

Definition csi_ids (vols : list groupVolInfo) : gmap string string :=
  fold_left (λ m v, <[gv_devID v := gv_csiVolID v]> m) vols ∅.

(** The members of a response, of the devices that are volumes of the snapshot;
    [missing] is the error for one that is not. *)
Fixpoint member_snapshots (missing : string → error) (snapName symID : string) (capacities : gmap string float64) (devIDToCSIVolID : gmap string string)
    (creationTime : Z) (devices : list string) : result error (list Snapshot) :=
  match devices with
  | [] => Ok []
  | dev :: devices =>
      let known := default "" (devIDToCSIVolID !! dev) in
      let srcVolID := if decide (known = "") then dev else known in
      match capacities !! dev with
      | None => Err (missing dev)
      | Some capacityGb =>
          match member_snapshots missing snapName symID capacities devIDToCSIVolID creationTime devices with
          | Err e => Err e
          | Ok members =>
              Ok (mkSnapshot (capacity_bytes capacityGb) (buildMemberSnapshotID snapName symID dev) srcVolID creationTime :: members)
          end
      end
  end.

Section calls.
Context {W C : Type} `{Pmax W C} `{MaskingClient W C} `{CreateClient W C} `{SnapClient W C} `{GroupSnapClient W C} `{LicenseCache W}.
Variable GetPowerMaxClient : string → string → M W (result error C).
Variable clusterPrefix : string.

Definition getPmaxClient (symID : string) : M W (result error C) :=
  let? c := GetPowerMaxClient symID ""
    orelse (λ e, statusError InvalidArgument ("failed to get PowerMax client for array " ++ symID ++ ": " ++ Error e)) in
  ok c.

Definition license_text (e : license_error) : string := match e with ArrayNotManaged e | Unlicensed e => Error e end.
Definition validateSnapshotLicense (symID : string) (c : C) : M W (option error) :=
  let* e := IsSnapshotLicensed symID c in
  ret ((λ e, statusError FailedPrecondition ("Snapshot is not licensed on array " ++ symID ++ ": " ++ license_text e)) <$> e).

Definition getStorageGroupSnapshotDetails (symID sgName snapName : string) (c : C) : M W (result error (list SourceVolume)) :=
  let missing what := statusError NotFound (what ++ snapName ++ " not found on array " ++ symID) in
  let? ids := lift (GetStorageGroupSnapshotSnapIDs c symID sgName snapName)
    orelse (λ e, if IsNotFoundError (GroupSnapClient := _) e then missing "Group snapshot "
                 else statusError Internal ("failed to get storage group snapshot IDs: " ++ Error e)) in
  match ids with
  | None => panic
  | Some [] => fail (missing "group snapshot ")
  | Some (id :: _) =>
      let? snap := lift (GetStorageGroupSnapshotSnap c symID sgName snapName (Itoa id))
        orelse (λ e, if IsNotFoundError (GroupSnapClient := _) e then missing "Group snapshot details "
                     else statusError Internal ("failed to get storage group snapshot details: " ++ Error e)) in
      match snap with None => fail (missing "group snapshot ") | Some sources => ok sources end
  end.

(** The devices, their CSI ids and the storage group, found through the first volume. *)
Definition getGroupVolumeDetails (symID : string) (vols : list groupVolInfo) (c : C) : M W (result error (list string * gmap string string * string)) :=
  match vols with
  | [] => fail (statusError InvalidArgument "no volumes provided")
  | first :: _ =>
      let dev := gv_devID first in
      let? firstVol := lift (GetVolumeByID c symID dev)
        orelse (λ e, if IsNotFoundError (GroupSnapClient := _) e then statusError NotFound ("volume " ++ dev ++ " not found on array " ++ symID)
                     else statusError Internal ("failed to get volume " ++ dev ++ " on array " ++ symID ++ ": " ++ Error e)) in
      let? sgName := ret (resolveStorageGroup [firstVol] clusterPrefix) in
      let? sgVolIDs := lift (GetVolumeIDListInStorageGroup c symID sgName)
        orelse (λ e, if IsNotFoundError (GroupSnapClient := _) e then statusError NotFound ("StorageGroup " ++ sgName ++ " not found on array " ++ symID)
                     else statusError Internal ("failed to get volume list from StorageGroup " ++ sgName ++ " on array " ++ symID ++ ": " ++ Error e)) in
      match List.find (λ v, bool_decide (gv_devID v ∉ sgVolIDs)) vols with
      | Some v => fail (statusError FailedPrecondition ("volume " ++ gv_devID v ++ " is not in storage group " ++ sgName))
      | None => ok (gv_devID <$> vols, csi_ids vols, sgName)
      end
  end.

(** ** Creation *)
(** [None]: the caller goes on to create the snapshot. *)
Definition checkGroupSnapshotIdempotency (symID snapName groupSnapshotID sgName : string) (devices : list string)
    (devIDToCSIVolID : gmap string string) (c : C) : M W (result error (option VolumeGroupSnapshot)) :=
  let unknown e := statusError Internal ("failed to check group snapshot idempotency: " ++ Error e) in
  let* ids := lift (GetStorageGroupSnapshotSnapIDs c symID sgName snapName) in
  match ids with
  | Err e => if IsNotFoundError (GroupSnapClient := _) e then ok None else fail (unknown e)
  | Ok None | Ok (Some []) => ok None
  | Ok (Some (id :: _)) =>
      let* snap := lift (GetStorageGroupSnapshotSnap c symID sgName snapName (Itoa id)) in
      match snap with
      | Err e => if IsNotFoundError (GroupSnapClient := _) e then ok None else fail (unknown e)
      | Ok None | Ok (Some []) => ok None
      | Ok (Some sources) =>
          if (List.length sources <? List.length devices)%nat then
            fail (statusError AlreadyExists ("group snapshot name already exists on " ++ Itoa (Z.of_nat (List.length sources)) ++ " of "
                    ++ Itoa (Z.of_nat (List.length devices)) ++ " volumes in SG " ++ sgName ++ "; cannot create with different source volumes"))
          else
            let* creationTime := lift (Now (C := C)) in
            let? members := ret (member_snapshots (λ dev, statusError Internal ("volume " ++ dev ++ " not found in existing snapshot response"))
                                   snapName symID (capacityMap sources) devIDToCSIVolID creationTime devices) in
            ok (Some (mkGroupSnapshot groupSnapshotID members creationTime true))
      end
  end.

Definition CreateMultiVolumeSnapshot (symID snapName sgName : string) (devices : list string) (devIDToCSIVolID : gmap string string)
    (creationTime : Z) (c : C) : M W (result error (list Snapshot)) :=
  do? lift (client_CreateSnapshot c symID snapName devices 0)
    orelse (λ e, errorString ("CreateGroupSnapshot failed with error: " ++ Error e)) in
  let? sources := getStorageGroupSnapshotDetails symID sgName snapName c in
  ret (member_snapshots (λ dev, errorString ("volume " ++ dev ++ " not found in snapshot response"))
         snapName symID (capacityMap sources) devIDToCSIVolID creationTime devices).

(** What a request asks for, once it is checked. *)
Record group_plan := mkPlan {
  gp_client : C;
  gp_symID : string;
  gp_sgName : string;
  gp_snapName : string;
  gp_devices : list string;
  gp_csiIDs : gmap string string;
}.

Definition plan_group (reqName : string) (sourceVolumeIDs : list string) : M W (result error group_plan) :=
  if decide (reqName = "") then fail (statusError InvalidArgument "required: Name")
  else match buildGroupSnapName clusterPrefix reqName with
  | None => panic
  | Some snapName =>
      if MaxSnapIdentifierLength <=? slen snapName then fail (statusError InvalidArgument "snapshot name is too long")
      else if decide (sourceVolumeIDs = []) then fail (statusError InvalidArgument "required: SourceVolumeIds")
      else match parseAndValidateGroupSourceVolumes sourceVolumeIDs with
      | None => panic
      | Some (Err e) => fail e
      | Some (Ok (vols, symID)) =>
          let? c := getPmaxClient symID in
          do? validateSnapshotLicense symID c in
          let? details := getGroupVolumeDetails symID vols c in
          let '(devices, csiIDs, sgName) := details in
          ok (mkPlan c symID sgName snapName devices csiIDs)
      end
  end.

Variable ind : Pending.induced.

Definition CreateVolumeGroupSnapshot (reqName : string) (sourceVolumeIDs : list string) : M (tables * W) (result error VolumeGroupSnapshot) :=
  let? p := on_arrays (plan_group reqName sourceVolumeIDs) in
  let c := gp_client p in
  let symID := gp_symID p in
  let sgName := gp_sgName p in
  let snapName := gp_snapName p in
  let groupSnapshotID := buildGroupSnapshotID symID sgName snapName in
  let? existing := on_arrays (checkGroupSnapshotIdempotency symID snapName groupSnapshotID sgName (gp_devices p) (gp_csiIDs p) c) in
  match existing with
  | Some existingResp => ok existingResp
  | None =>
      let* now := on_arrays (lift (Now (C := C))) in
      while_pending group_table ind now (symID ++ "-" ++ sgName) Err
        (let* creationTime := on_arrays (lift (Now (C := C))) in
         let? members := on_arrays (CreateMultiVolumeSnapshot symID snapName sgName (gp_devices p) (gp_csiIDs p) creationTime c)
           orelse (λ e, statusError Internal ("failed to create multi-volume snapshot: " ++ Error e)) in
         ok (mkGroupSnapshot groupSnapshotID members creationTime true))
  end.

(** ** Deletion *)
(** The member ids of a request belong to the group, as far as their prefix shows. *)
Definition check_members (snapName symID : string) (snapshotIDs : list string) : option error :=
  if existsb (λ sid, negb (HasPrefix sid (snapName ++ "-" ++ symID ++ "-"))) snapshotIDs
  then Some (statusError InvalidArgument "snapshot ID does not match group snapshot") else None.

(** A group, snapshot or id that is not there has been deleted before. *)
Definition DeleteVolumeGroupSnapshot (groupSnapshotID : string) (snapshotIDs : list string) : M W (result error unit) :=
  if decide (groupSnapshotID = "") then fail (statusError InvalidArgument "required: GroupSnapshotId")
  else match parseGroupSnapshotID groupSnapshotID with
  | Err _ => ok tt
  | Ok (symID, sgName, snapName) =>
      let gone_or {A} (what : string) (m : M W (result error A)) (k : A → M W (result error unit)) :=
        let* r := m in
        match r with
        | Ok a => k a
        | Err e => if IsNotFoundError (GroupSnapClient := _) e then ok tt else fail (statusError Internal (what ++ Error e))
        end in
      let? c := getPmaxClient symID in
      gone_or "failed to get StorageGroup: " (lift (GetStorageGroup c symID sgName)) (λ _,
      gone_or "failed to get storage group snapshot IDs: " (lift (GetStorageGroupSnapshotSnapIDs c symID sgName snapName)) (λ ids,
      match ids with
      | None => panic
      | Some [] => ok tt
      | Some (id :: _) =>
          gone_or "failed to get storage group snapshot details: " (lift (GetStorageGroupSnapshotSnap c symID sgName snapName (Itoa id))) (λ snap,
          let sourceVolumes := Source_Name <$> default [] snap in
          do? ret (check_members snapName symID snapshotIDs) in
          let* err := lift (DeleteSnapshotS c symID snapName sourceVolumes 0) in
          match err with
          | Some e =>
              if IsNotFoundError (GroupSnapClient := _) e then ok tt
              else fail (statusError Internal ("failed to delete multi-volume snapshot: " ++ Error e))
          | None => ok tt
          end)
      end))
  end.

(** ** Reading *)
(** The members among the devices of the storage group; a device without the snapshot
    makes the group not ready. *)
Definition group_members (snapName symID : string) (capacities : gmap string float64) (creationTime : Z) (volIDList : list string)
    : list Snapshot * bool :=
  (omap (λ dev, (λ capacityGb, mkSnapshot (capacity_bytes capacityGb) (buildMemberSnapshotID snapName symID dev) dev creationTime) <$> capacities !! dev) volIDList,
   forallb (λ dev, bool_decide (is_Some (capacities !! dev))) volIDList).

Definition GetVolumeGroupSnapshot (groupSnapshotID : string) : M W (result error VolumeGroupSnapshot) :=
  if decide (groupSnapshotID = "") then fail (statusError InvalidArgument "required: GroupSnapshotId")
  else match parseGroupSnapshotID groupSnapshotID with
  | Err e => fail (statusError NotFound ("group snapshot " ++ groupSnapshotID ++ " not found: " ++ Error e))
  | Ok (symID, sgName, snapName) =>
      let group_error what (e : error) :=
        if IsNotFoundError (GroupSnapClient := _) e then statusError NotFound ("StorageGroup " ++ sgName ++ " not found on array " ++ symID)
        else statusError Internal (what ++ sgName ++ " on array " ++ symID ++ ": " ++ Error e) in
      let? c := getPmaxClient symID in
      let? _ := lift (GetStorageGroup c symID sgName) orelse group_error "failed to get StorageGroup " in
      let? volIDList := lift (GetVolumeIDListInStorageGroup c symID sgName) orelse group_error "failed to get volume list from StorageGroup " in
      let? sources := getStorageGroupSnapshotDetails symID sgName snapName c in
      let* creationTime := lift (Now (C := C)) in
      let '(members, groupReady) := group_members snapName symID (capacityMap sources) creationTime volIDList in
      if decide (members = []) then fail (statusError NotFound ("group snapshot " ++ snapName ++ " not found on array " ++ symID))
      else ok (mkGroupSnapshot groupSnapshotID members creationTime groupReady)
  end.
End calls.

(** ** Identifiers lead back to their parts *)
(** Every name is short enough, so the check of CreateVolumeGroupSnapshot never fails. *)
Lemma group_name_short clusterPrefix reqName :
  ∃ name, buildGroupSnapName clusterPrefix reqName = Some name ∧ 4 <= slen name < MaxSnapIdentifierLength.
Proof.
  unfold buildGroupSnapName. set (prefix := CsiVolumePrefix ++ _).
  assert (4 <= slen prefix) as H4 by (unfold prefix; rewrite slen_app; change (slen CsiVolumePrefix) with 4; unfold slen; lia). destruct (Z.leb_spec (MaxSnapIdentifierLength - 1 - slen prefix) 0) as [|Hp].
  - destruct (truncateString_length prefix (MaxSnapIdentifierLength - 1)) as (t & -> & Ht); [done|]. exists t. split; [done|]. unfold MaxSnapIdentifierLength in *. lia.
  - eexists; split; [done|]. rewrite slen_app. split; [unfold slen in *; lia|]. set (m := MaxSnapIdentifierLength - 1 - slen prefix) in *.
    case_match eqn:Hm; [|apply Z.ltb_ge in Hm; lia].
    pose proof (TrimRight_length "-" (stake (Z.to_nat m) (Trim "-" (TrimPrefix reqName "groupsnapshot-")))) as Ht.
    rewrite stake_length in Ht. apply Z.ltb_lt in Hm. unfold slen at 2. lia.
Qed.

Lemma group_id_roundtrip symID sgName snapName :
  has_char "/" symID = false → has_char "/" sgName = false → has_char "/" snapName = false →
  parseGroupSnapshotID (buildGroupSnapshotID symID sgName snapName) = Ok (symID, sgName, snapName).
Proof. intros. unfold parseGroupSnapshotID, buildGroupSnapshotID. by rewrite !Split_app, Split_none. Qed.

Lemma member_id_roundtrip snapName symID devID :
  plain symID → plain devID → 3 <= slen snapName → (slen devID <= 5 ∨ 12 <= slen symID) →
  parseCsiID (buildMemberSnapshotID snapName symID devID) = Some (Ok (mkCsiID snapName symID devID "" "")).
Proof.
  intros [Hs Hs'] [Hd _] Hn Hl. unfold buildMemberSnapshotID. rewrite parse_last_two by done.
  unfold with_remote. by rewrite (Contains_char ":"), Hs'.
Qed.

(** ** Members of a response *)
Lemma capacityMap_dom sources : dom (capacityMap sources) = (list_to_set (Source_Name <$> sources) : gset string).
Proof.
  assert (∀ m : gmap string float64, dom (fold_left (λ m v, <[Source_Name v := CapacityGb v]> m) sources m)
          = dom m ∪ (list_to_set (Source_Name <$> sources) : gset string)) as Hg.
  { induction sources as [|v l IH]; intros m; simpl; [set_solver|]. rewrite IH, dom_insert_L. set_solver. }
  unfold capacityMap. rewrite Hg, dom_empty_L. set_solver.
Qed.

Definition same_member (a b : Snapshot) : Prop :=
  SnapshotId a = SnapshotId b ∧ SourceVolumeId a = SourceVolumeId b ∧ SizeBytes a = SizeBytes b.

Lemma members_again missing missing' name sym caps ids t t' devices members :
  member_snapshots missing name sym caps ids t devices = Ok members →
  ∃ members', member_snapshots missing' name sym caps ids t' devices = Ok members' ∧ Forall2 same_member members members'.
Proof.
  revert members. induction devices as [|dev l IH]; intros members Hm; simpl in Hm.
  - injection Hm as <-. exists []. by split; [|constructor].
  - simpl. destruct (caps !! dev) as [gb|]; [|done].
    destruct (member_snapshots missing name sym caps ids t l) as [ms|]; [|done].
    destruct (IH _ eq_refl) as (ms' & -> & Hall). injection Hm as <-. eexists. split; [done|]. by constructor.
Qed.

Lemma members_known missing name sym caps ids t devices members :
  member_snapshots missing name sym caps ids t devices = Ok members → ∀ dev, dev ∈ devices → dev ∈ dom caps.
Proof.
  revert members. induction devices as [|d l IH]; intros members Hm dev Hin; [by apply not_elem_of_nil in Hin|].
  simpl in Hm. destruct (caps !! d) eqn:Ed; [|done]. case_match eqn:El; [|done].
  apply elem_of_cons in Hin as [->|Hin]; [by apply elem_of_dom|by eapply IH].
Qed.

(** Different devices that are all volumes of a snapshot are no more than its volumes. *)
Lemma distinct_members_fit missing name sym sources ids t devices members :
  NoDup devices → member_snapshots missing name sym (capacityMap sources) ids t devices = Ok members →
  (List.length devices <= List.length sources)%nat.
Proof.
  intros Hnd Hm. assert (devices ⊆ (Source_Name <$> sources)) as Hsub.
  { intros dev Hdev. pose proof (members_known _ _ _ _ _ _ _ _ Hm dev Hdev) as Hd. rewrite capacityMap_dom in Hd. set_solver. }
  pose proof (submseteq_length _ _ (NoDup_submseteq _ _ Hnd Hsub)) as Hl. by rewrite length_fmap in Hl.
Qed.

(** ** Creation may be repeated *)
Section repeat.
Context {W C : Type} `{Pmax W C} `{MaskingClient W C} `{CreateClient W C} `{SnapClient W C} `{GroupSnapClient W C} `{LicenseCache W}.
Variable GetPowerMaxClient : string → string → M W (result error C).
Variable clusterPrefix : string.
Variable ind : Pending.induced.

(** An array that answers from its volumes and groups [V] and from its snapshots [N]:
    queries change neither, and a new snapshot leaves the volumes and groups. *)
Record group_array (V N : Type) := {
  groups : W → V;
  snaps : W → N;
  clients : string → result error C;
  volume_of : V → string → string → result error Volume;
  members_of : V → string → string → result error (list string);
  ids_of : N → string → string → string → result error (option (list Z));
  sources_of : N → string → string → string → string → result error (option (list SourceVolume));
  keeps (w w' : W) : Prop := groups w' = groups w ∧ snaps w' = snaps w ∧ symmRepCapabilities w' = symmRepCapabilities w;
  keeps_client sym r w : ∃ w', GetPowerMaxClient sym r w = Some (clients sym, w') ∧ keeps w w';
  keeps_now w : keeps w (Now (C := C) w).2;
  keeps_volume c sym dev w : (GetVolumeByID c sym dev w).1 = volume_of (groups w) sym dev ∧ keeps w (GetVolumeByID c sym dev w).2;
  keeps_members c sym sg w :
    (GetVolumeIDListInStorageGroup c sym sg w).1 = members_of (groups w) sym sg ∧ keeps w (GetVolumeIDListInStorageGroup c sym sg w).2;
  keeps_ids c sym sg name w :
    (GetStorageGroupSnapshotSnapIDs c sym sg name w).1 = ids_of (snaps w) sym sg name ∧ keeps w (GetStorageGroupSnapshotSnapIDs c sym sg name w).2;
  keeps_sources c sym sg name id w :
    (GetStorageGroupSnapshotSnap c sym sg name id w).1 = sources_of (snaps w) sym sg name id
    ∧ keeps w (GetStorageGroupSnapshotSnap c sym sg name id w).2;
  keeps_create c sym name l ttl w :
    let w' := (client_CreateSnapshot c sym name l ttl w).2 in
    groups w' = groups w ∧ symmRepCapabilities w' = symmRepCapabilities w;
  keeps_capabilities c w : keeps w (GetReplicationCapabilities c w).2;
  keeps_cache m w :
    groups (setSymmRepCapabilities m w) = groups w ∧ snaps (setSymmRepCapabilities m w) = snaps w
    ∧ symmRepCapabilities (setSymmRepCapabilities m w) = m;
}.
Arguments groups {V N}.
Arguments snaps {V N}.
Arguments keeps {V N}.
Context {V N : Type} (L : group_array V N).

#[local] Instance keeps_preorder : PreOrder (keeps L).
Proof. split; [by intros w|]. intros w1 w2 w3 (? & ? & ?) (? & ? & ?). unfold keeps. by split_and!; etrans. Qed.

(** A computation whose answer depends on the volumes and groups only. *)
Definition steady {A} (m : M W A) : Prop :=
  ∀ w w2 a w1, groups L w2 = groups L w → m w = Some (a, w1) → keeps L w w1 ∧ ∃ w3, m w2 = Some (a, w3) ∧ keeps L w2 w3.

Lemma steady_ret {A} (a : A) : steady (ret a).
Proof. intros w w2 ? w1 _ [= <- <-]. split; [done|]. by exists w2. Qed.
Lemma steady_bind {A B} (m : M W A) (k : A → M W B) : steady m → (∀ a, steady (k a)) → steady (mbnd m k).
Proof.
  intros Hm Hk w w2 b w1 Hg (a & wa & Ea & Eb)%mbnd_Some. destruct (Hm _ w2 _ _ Hg Ea) as (K1 & w3 & E3 & K3).
  destruct (Hk a wa w3 b w1) as (K2 & w4 & E4 & K4); [|done|].
  - destruct K1 as [-> _], K3 as [-> _]. done.
  - split; [by etrans|]. exists w4. split; [|by etrans]. unfold mbnd. by rewrite E3.
Qed.
Lemma steady_lift {A} (f : W → A * W) (g : V → A) : (∀ w, (f w).1 = g (groups L w) ∧ keeps L w (f w).2) → steady (lift f).
Proof.
  intros Hf w w2 a w1 Hg [= E]. destruct (Hf w) as [Ha K], (Hf w2) as [Ha2 K2]. rewrite E in Ha, K. simpl in Ha, K. split; [done|].
  exists (f w2).2. split; [|done]. unfold lift. rewrite Ha, <- Hg, <- Ha2. by destruct (f w2).
Qed.
Lemma steady_try {A B} (m : M W (result error A)) h (k : A → M W (result error B)) : steady m → (∀ a, steady (k a)) → steady (try m h k).
Proof. intros Hm Hk. apply steady_bind; [done|]. intros [a|e]; [apply Hk|apply steady_ret]. Qed.

Lemma client_steady sym : steady (getPmaxClient GetPowerMaxClient sym).
Proof.
  apply steady_try; [|intros; apply steady_ret]. intros w w2 a w1 _ E.
  destruct (keeps_client _ _ L sym "" w) as (w' & E' & K), (keeps_client _ _ L sym "" w2) as (w2' & E2 & K2).
  rewrite E' in E. injection E as <- <-. split; [done|]. eauto.
Qed.

Lemma details_steady sym vols (c : C) : steady (getGroupVolumeDetails clusterPrefix sym vols c).
Proof.
  unfold getGroupVolumeDetails. destruct vols as [|first vols]; [apply steady_ret|].
  apply steady_try; [apply (steady_lift _ (λ v, volume_of _ _ L v sym (gv_devID first))), keeps_volume|]. intros vol.
  apply steady_try; [apply steady_ret|]. intros sg.
  apply steady_try; [apply (steady_lift _ (λ v, members_of _ _ L v sym sg)), keeps_members|]. intros l. case_match; apply steady_ret.
Qed.

(** A licence that was found is remembered. *)
Lemma license_remembered sym (c : C) w w1 :
  IsSnapshotLicensed sym c w = Some (None, w1) →
  groups L w1 = groups L w ∧ snaps L w1 = snaps L w ∧ symmRepCapabilities w1 !! sym = Some true
  ∧ ∀ w2, symmRepCapabilities w2 !! sym = Some true → IsSnapshotLicensed sym c w2 = Some (None, w2).
Proof.
  unfold IsSnapshotLicensed. destruct (IsAllowedArray c sym); [done|]. unfold mbnd, Publish.get, Publish.modify, lift, ret. intros E.
  assert (groups L w1 = groups L w ∧ snaps L w1 = snaps L w ∧ symmRepCapabilities w1 !! sym = Some true) as (? & ? & ?).
  { destruct (symmRepCapabilities w !! sym) as [[]|] eqn:Ek; [injection E as <-; done|done|].
    pose proof (keeps_capabilities _ _ L c w) as (K1 & K2 & K3). destruct (GetReplicationCapabilities c w) as [[caps|e] wc]; [|done]. simpl in *.
    destruct (List.find _ caps) as [[? []]|]; try done. injection E as <-.
    destruct (keeps_cache _ _ L (<[sym := true]> (symmRepCapabilities wc)) wc) as (-> & -> & ->). by rewrite lookup_insert_eq. }
  split_and!; try done. by intros w2 ->.
Qed.

Definition devices_of (ids : list string) : list string :=
  omap (λ id, match parseCsiID id with Some (Ok csi) => Some (VolumeID.devID csi) | _ => None end) ids.

Lemma parse_sources_devices ids vols sym vols' sym' :
  parse_sources ids vols sym = Some (Ok (vols', sym')) → gv_devID <$> vols' = ((gv_devID <$> vols) ++ devices_of ids)%list.
Proof.
  revert vols sym. induction ids as [|id ids IH]; intros vols sym; simpl.
  - intros [= <- _]. by rewrite app_nil_r.
  - destruct (parseCsiID id) as [[csi|]|]; try done. case_decide; [done|]. case_decide; [done|]. intros ->%IH.
    by rewrite fmap_app, <- app_assoc.
Qed.

Lemma plan_devices name ids w p w1 :
  plan_group GetPowerMaxClient clusterPrefix name ids w = Some (Ok p, w1) →
  gp_devices p = devices_of ids ∧ gp_devices p ≠ [] ∧ buildGroupSnapName clusterPrefix name = Some (gp_snapName p)
  ∧ ∃ vols, parseAndValidateGroupSourceVolumes ids = Some (Ok (vols, gp_symID p)) ∧ gp_csiIDs p = csi_ids vols.
Proof.
  unfold plan_group. case_decide; [done|]. destruct (buildGroupSnapName _ _) as [snapName|]; [|done]. case_match; [done|]. case_decide; [done|].
  destruct (parseAndValidateGroupSourceVolumes ids) as [[[vols sym]|]|] eqn:Ep; try done. intros E. run_inv E.
  destruct a0 as [[devices csiIDs] sg]. injection E as <- <-. cbn [gp_devices gp_snapName gp_symID gp_csiIDs].
  match goal with Hd : getGroupVolumeDetails _ _ _ _ _ = _ |- _ => rename Hd into Hd0 end.
  unfold getGroupVolumeDetails in Hd0. destruct vols as [|first vols]; [done|]. run_inv Hd0. case_match; [done|]. injection Hd0 as <- <- _ _.
  pose proof (parse_sources_devices _ _ _ _ _ Ep) as Hd. simpl in Hd. rewrite <- Hd. split_and!; [done..|]. by exists (first :: vols).
Qed.

(** What a request plans is planned again, with the same client, group and devices. *)
Lemma plan_again name ids w p w1 :
  plan_group GetPowerMaxClient clusterPrefix name ids w = Some (Ok p, w1) →
  groups L w1 = groups L w ∧ symmRepCapabilities w1 !! gp_symID p = Some true
  ∧ ∀ w2, groups L w2 = groups L w → symmRepCapabilities w2 !! gp_symID p = Some true →
      ∃ w3, plan_group GetPowerMaxClient clusterPrefix name ids w2 = Some (Ok p, w3) ∧ keeps L w2 w3.
Proof.
  unfold plan_group. case_decide; [done|]. destruct (buildGroupSnapName _ _) as [snapName|]; [|done]. case_match; [done|]. case_decide; [done|].
  destruct (parseAndValidateGroupSourceVolumes ids) as [[[vols sym]|]|] eqn:Ep; try done. intros E. run_inv E.
  destruct a0 as [[devices csiIDs] sg]. injection E as <- <-. simpl in *.
  match goal with Hv : validateSnapshotLicense sym a _ = _ |- _ => rename Hv into Hl0 end.
  apply mbnd_Some in Hl0 as ([le|] & wl & Hv & Hw); [done|]. injection Hw as <-.
  destruct (license_remembered _ _ _ _ Hv) as (Lg & Ls & Lc & Lagain).
  match goal with Hc : getPmaxClient _ _ _ = _, Hd : getGroupVolumeDetails _ _ _ _ _ = _ |- _ =>
    rename Hc into Hc0; rename Hd into Hd0 end.
  pose proof (client_steady sym) as Sc. pose proof (details_steady sym vols a) as Sd.
  destruct (Sc _ w _ _ eq_refl Hc0) as ((K1 & _ & _) & _). destruct (Sd _ wl _ _ eq_refl Hd0) as ((K2 & _ & K2') & _).
  split_and!.
  - by rewrite K2, Lg, K1.
  - by rewrite K2'.
  - intros y2 Hg Hcap. destruct (Sc _ y2 _ _ Hg Hc0) as (_ & y3 & E3 & K3).
    assert (symmRepCapabilities y3 !! sym = Some true) as Hcap3 by by destruct K3 as (_ & _ & ->).
    destruct (Sd _ y3 _ _ ltac:(destruct K3 as [-> _]; by rewrite Hg, Lg, K1) Hd0) as (_ & y4 & E4 & K4).
    exists y4. split; [|by etrans]. unfold try, check, mbnd. rewrite E3. unfold validateSnapshotLicense, mbnd. rewrite Lagain by done. simpl.
    by rewrite E4.
Qed.

(** The snapshot [name] of group [sg] has the volumes [sources]. *)
Definition holds (w : W) (sym sg name : string) (sources : list SourceVolume) : Prop :=
  ∃ id ids, ids_of _ _ L (snaps L w) sym sg name = Ok (Some (id :: ids))
    ∧ sources_of _ _ L (snaps L w) sym sg name (Itoa id) = Ok (Some sources).

Lemma holds_keeps w w' sym sg name sources : keeps L w w' → holds w sym sg name sources → holds w' sym sg name sources.
Proof. intros (_ & Hs & _). unfold holds. by rewrite Hs. Qed.

Lemma details_hold sym sg name (c : C) w sources w1 :
  getStorageGroupSnapshotDetails sym sg name c w = Some (Ok sources, w1) → keeps L w w1 ∧ holds w sym sg name sources.
Proof.
  unfold getStorageGroupSnapshotDetails, try, mbnd, lift.
  destruct (keeps_ids _ _ L c sym sg name w) as [Hi Ki]. destruct (GetStorageGroupSnapshotSnapIDs c sym sg name w) as [[[[|id ids]|]|] wi]; try done.
  destruct (keeps_sources _ _ L c sym sg name (Itoa id) wi) as [Hs Ks].
  destruct (GetStorageGroupSnapshotSnap c sym sg name (Itoa id) wi) as [[[l|]|] ws]; try done. simpl in *. intros [= <- <-].
  split; [by etrans|]. exists id, ids. split; [done|]. rewrite Hs. by destruct Ki as (_ & -> & _).
Qed.

Lemma idempotent_inv sym name gid sg devices ids (c : C) w r w1 :
  checkGroupSnapshotIdempotency sym name gid sg devices ids c w = Some (Ok r, w1) →
  keeps L w w1 ∧ ∀ resp, r = Some resp → ∃ sources t members missing, holds w sym sg name sources
    ∧ (List.length devices <= List.length sources)%nat
    ∧ member_snapshots missing name sym (capacityMap sources) ids t devices = Ok members ∧ resp = mkGroupSnapshot gid members t true.
Proof.
  unfold checkGroupSnapshotIdempotency, try, mbnd, lift.
  destruct (keeps_ids _ _ L c sym sg name w) as [Hi Ki]. destruct (GetStorageGroupSnapshotSnapIDs c sym sg name w) as [[[[|id l]|]|e] wi]; simpl in *.
  1,3: by intros [= <- <-]. 2: by case_match; [intros [= <- <-]|].
  destruct (keeps_sources _ _ L c sym sg name (Itoa id) wi) as [Hs Ks].
  assert (keeps L w (GetStorageGroupSnapshotSnap c sym sg name (Itoa id) wi).2) as K by by etrans.
  destruct (GetStorageGroupSnapshotSnap c sym sg name (Itoa id) wi) as [[[[|v vs]|]|e] ws]; simpl in *.
  1,3: by intros [= <- <-]. 2: by case_match; [intros [= <- <-]|].
  destruct (Nat.ltb_spec (S (List.length vs)) (List.length devices)) as [|Hlen]; [done|].
  pose proof (keeps_now _ _ L ws) as Kn. destruct (Now ws) as [t wn]. simpl in Kn. case_match eqn:Em; [|done]. intros [= <- <-].
  split; [by etrans|]. intros resp [= <-]. exists (v :: vs). do 3 eexists. split_and!; [|done|done|done].
  exists id, l. split; [done|]. rewrite Hs. by destruct Ki as (_ & -> & _).
Qed.

Lemma idempotent_found sym name gid sg devices ids (c : C) w sources missing t members :
  holds w sym sg name sources → devices ≠ [] → (List.length devices <= List.length sources)%nat →
  member_snapshots missing name sym (capacityMap sources) ids t devices = Ok members →
  ∃ members' t' w1, checkGroupSnapshotIdempotency sym name gid sg devices ids c w = Some (Ok (Some (mkGroupSnapshot gid members' t' true)), w1)
    ∧ keeps L w w1 ∧ Forall2 same_member members members'.
Proof.
  intros (id & l & Hi & Hs) Hne Hlen Hm. unfold checkGroupSnapshotIdempotency, try, mbnd, lift.
  destruct (keeps_ids _ _ L c sym sg name w) as [Hi' Ki]. rewrite Hi in Hi'.
  destruct (GetStorageGroupSnapshotSnapIDs c sym sg name w) as [ri wi]. simpl in Hi', Ki. subst ri.
  destruct (keeps_sources _ _ L c sym sg name (Itoa id) wi) as [Hs' Ks].
  assert (snaps L wi = snaps L w) as Esn by by destruct Ki as (_ & ? & _). rewrite Esn, Hs in Hs'.
  destruct (GetStorageGroupSnapshotSnap c sym sg name (Itoa id) wi) as [rs ws]. simpl in Hs', Ks. subst rs.
  destruct sources as [|v vs]; [destruct devices; simpl in *; [done|lia]|].
  destruct (Nat.ltb_spec (List.length (v :: vs)) (List.length devices)); [lia|].
  pose proof (keeps_now _ _ L ws) as Kn. destruct (Now ws) as [t' wn]. simpl in Kn.
  edestruct (members_again missing) as (members' & -> & Hall); [exact Hm|]. simpl.
  exists members', t', wn. split; [done|]. split; [|done]. by etrans; [etrans|].
Qed.

Lemma while_pending_inv {A} T now id (m : M (tables * W) (result error A)) s a s' :
  while_pending T ind now id Err m s = Some (Ok a, s') → ∃ t t', m (t, s.2) = Some (Ok a, (t', s'.2)).
Proof.
  unfold while_pending. intros (ps & s1 & E1 & E)%mbnd_Some. injection E1 as <- <-.
  destruct (Pending.checkAndUpdatePendingState _ _ _ _) as [ps' [e|]]; [done|].
  apply mbnd_Some in E as ([] & s2 & E2 & E). injection E2 as <-. apply mbnd_Some in E as (r & [t' w'] & Em & E).
  apply mbnd_Some in E as (ps2 & s3 & E3 & E). injection E3 as <- <-. apply mbnd_Some in E as ([] & s4 & E4 & E).
  injection E4 as <-. injection E as -> <-. eauto.
Qed.


(** A successful creation leaves the snapshot it answers with on the array. *)
Lemma create_leaves_snapshot name ids s resp s' :
  NoDup (devices_of ids) →
  CreateVolumeGroupSnapshot GetPowerMaxClient clusterPrefix ind name ids s = Some (Ok resp, s') →
  ∃ p w1 sources t members missing, plan_group GetPowerMaxClient clusterPrefix name ids s.2 = Some (Ok p, w1)
    ∧ groups L s'.2 = groups L w1 ∧ symmRepCapabilities s'.2 = symmRepCapabilities w1
    ∧ holds s'.2 (gp_symID p) (gp_sgName p) (gp_snapName p) sources ∧ (List.length (gp_devices p) <= List.length sources)%nat
    ∧ member_snapshots missing (gp_snapName p) (gp_symID p) (capacityMap sources) (gp_csiIDs p) t (gp_devices p) = Ok members
    ∧ resp = mkGroupSnapshot (buildGroupSnapshotID (gp_symID p) (gp_sgName p) (gp_snapName p)) members t true.
Proof.
  intros Hnd E. unfold CreateVolumeGroupSnapshot in E. apply try_Some in E as (p & s1 & E1 & E). apply on_arrays_inv in E1 as [Hp _].
  assert (NoDup (gp_devices p)) as Hdev by by destruct (plan_devices _ _ _ _ _ Hp) as [-> _].
  apply try_Some in E as (r & s2 & E2 & E). apply on_arrays_inv in E2 as [Hc _]. destruct (idempotent_inv _ _ _ _ _ _ _ _ _ _ Hc) as [K Hr].
  exists p, s1.2. destruct r as [resp0|].
  - injection E as -> <-. destruct (Hr _ eq_refl) as (sources & t & members & missing & Hh & Hlen & Hm & ->).
    exists sources, t, members, missing. pose proof K as (? & _ & ?). split_and!; try done. by eapply holds_keeps.
  - apply mbnd_Some in E as (now & s3 & E3 & E). apply on_arrays_inv in E3 as [E3 _].
    apply while_pending_inv in E as (t0 & t1 & E). apply mbnd_Some in E as (t & s4 & E4 & E). apply on_arrays_inv in E4 as [E4 _].
    apply try_Some in E as (members & s5 & E5 & E). injection E as <- E. apply on_arrays_inv in E5 as [E5 _].
    unfold CreateMultiVolumeSnapshot in E5. apply check_Some in E5 as (w6 & E6 & E5). apply try_Some in E5 as (sources & w7 & E7 & E5).
    injection E5 as Hm ->. rewrite E in *. simpl in *. destruct (details_hold _ _ _ _ _ _ _ E7) as [K7 Hh].
    assert (keeps L s1.2 s4.2) as K4.
    { injection E3 as E3. injection E4 as E4. etrans; [exact K|]. pose proof (keeps_now _ _ L s2.2) as Kn. rewrite E3 in Kn.
      etrans; [exact Kn|]. simpl. pose proof (keeps_now _ _ L s3.2) as Kn'. by rewrite E4 in Kn'. }
    pose proof (keeps_create _ _ L (gp_client p) (gp_symID p) (gp_snapName p) (gp_devices p) 0 s4.2) as Kc.
    injection E6 as E6. rewrite E6 in Kc. destruct Kc as [Kg Kc], K4 as (G4 & _ & C4), K7 as [G7 [S7 C7]]. simpl in Kg, Kc.
    eexists sources, t, members, _. split_and!; [done|by rewrite G7, Kg|by rewrite C7, Kc| | |exact Hm|done].
    + unfold holds in *. by rewrite S7.
    + by eapply distinct_members_fit.
Qed.

(** The creation of a group snapshot may be repeated. A request for distinct devices that
    succeeded succeeds again while nothing else changes, whatever requests are in progress: it
    creates nothing, takes no place in the table of requests, and answers with the same id and,
    in the same order, the same members with the same volumes and sizes. *)
Theorem group_create_retry name ids s resp s' s2 :
  NoDup (devices_of ids) →
  CreateVolumeGroupSnapshot GetPowerMaxClient clusterPrefix ind name ids s = Some (Ok resp, s') →
  keeps L s'.2 s2.2 →
  ∃ resp' s3, CreateVolumeGroupSnapshot GetPowerMaxClient clusterPrefix ind name ids s2 = Some (Ok resp', s3)
    ∧ keeps L s2.2 s3.2 ∧ s3.1 = s2.1
    ∧ GroupSnapshotId resp' = GroupSnapshotId resp ∧ ReadyToUse resp' = ReadyToUse resp
    ∧ Forall2 same_member (group_Snapshots resp) (group_Snapshots resp').
Proof.
  intros Hnd E (G2 & S2 & C2). destruct (create_leaves_snapshot _ _ _ _ _ Hnd E) as (p & w1 & sources & t & members & missing & Hp & Hg & Hc & Hh & Hlen & Hm & ->).
  destruct (plan_again _ _ _ _ _ Hp) as (Hg1 & Hc1 & Hagain).
  destruct (Hagain s2.2) as (w3 & Hp3 & K3); [by rewrite G2, Hg, Hg1|by rewrite C2, Hc|].
  assert (gp_devices p ≠ []) as Hne by (by eapply plan_devices).
  edestruct (idempotent_found (gp_symID p) (gp_snapName p) (buildGroupSnapshotID (gp_symID p) (gp_sgName p) (gp_snapName p)) (gp_sgName p)
    (gp_devices p) (gp_csiIDs p) (gp_client p) w3) as (members' & t' & w4 & E4 & K4 & Hall); [|done|done|exact Hm|].
  { eapply holds_keeps; [exact K3|]. unfold holds in *. by rewrite S2. }
  exists (mkGroupSnapshot (buildGroupSnapshotID (gp_symID p) (gp_sgName p) (gp_snapName p)) members' t' true), (s2.1, w4).
  split_and!; [|by etrans|done..]. unfold CreateVolumeGroupSnapshot, try, mbnd, on_arrays. rewrite Hp3. cbv zeta. simpl. by rewrite E4.
Qed.

(** *** The identifiers of a created group *)
Lemma parse_sources_inv ids vols sym vols' sym' :
  parse_sources ids vols sym = Some (Ok (vols', sym')) →
  (sym ≠ "" → sym' = sym) ∧ ∃ l, vols' = (vols ++ l)%list
  ∧ Forall2 (λ id v, gv_csiVolID v = id ∧ ∃ csi, parseCsiID id = Some (Ok csi) ∧ gv_devID v = VolumeID.devID csi
              ∧ (arrayID csi = "" ∨ arrayID csi = sym')) ids l.
Proof.
  revert vols sym. induction ids as [|id ids IH]; intros vols sym; simpl.
  - intros [= <- <-]. split; [done|]. exists []. split; [by rewrite app_nil_r|constructor].
  - destruct (parseCsiID id) as [[csi|]|] eqn:Ei; try done. case_decide; [done|]. case_decide as Hs; [done|]. intros E.
    apply IH in E as (Hsym & l & -> & Hl). case_decide as Hnil.
    + subst sym. split; [done|]. exists (mkGroupVol id (volName csi) (arrayID csi) (VolumeID.devID csi) :: l). split; [by rewrite <- app_assoc|].
      constructor; [|done]. split; [done|]. exists csi. split_and!; [done|done|]. destruct (decide (arrayID csi = "")); [by left|right; symmetry; auto].
    + split; [auto|]. exists (mkGroupVol id (volName csi) (arrayID csi) (VolumeID.devID csi) :: l). split; [by rewrite <- app_assoc|].
      constructor; [|done]. split; [done|]. exists csi. split_and!; [done|done|]. right. rewrite Hsym by done.
      destruct (decide (sym = arrayID csi)); [done|]. by destruct Hs.
Qed.

Lemma csi_ids_lookup vols v : NoDup (gv_devID <$> vols) → v ∈ vols → csi_ids vols !! gv_devID v = Some (gv_csiVolID v).
Proof.
  unfold csi_ids. set (f := λ (m : gmap string string) v, <[gv_devID v := gv_csiVolID v]> m).
  assert (∀ l m k, k ∉ (gv_devID <$> l) → fold_left f l m !! k = m !! k) as Hother.
  { induction l as [|x l IH]; intros m k Hk; simpl; [done|]. rewrite fmap_cons, not_elem_of_cons in Hk. destruct Hk as [Hk1 Hk2].
    rewrite IH by done. by apply lookup_insert_ne. }
  generalize (∅ : gmap string string). induction vols as [|x l IH]; intros m Hnd Hv; [by apply not_elem_of_nil in Hv|].
  rewrite fmap_cons in Hnd. apply NoDup_cons in Hnd as [Hx Hnd]. simpl. apply elem_of_cons in Hv as [->|Hv]; [|by apply IH].
  rewrite Hother by done. apply lookup_insert_eq.
Qed.

Lemma member_snapshots_shape missing name sym caps ids t devices members :
  member_snapshots missing name sym caps ids t devices = Ok members →
  Forall2 (λ dev m, SnapshotId m = buildMemberSnapshotID name sym dev ∧ (∀ id, ids !! dev = Some id → id ≠ "" → SourceVolumeId m = id)) devices members.
Proof.
  revert members. induction devices as [|dev l IH]; intros members Hm; simpl in Hm; [by injection Hm as <-|].
  destruct (caps !! dev); [|done]. case_match; [|done]. injection Hm as <-. constructor; [|by apply IH].
  split; [done|]. intros id Hid Hne. simpl. rewrite Hid. simpl. by rewrite decide_False.
Qed.

(** The identifiers of a created group lead back to it. The group's id parses to the array,
    the storage group and a snapshot name the array accepts, when none of them has a slash; the
    members are those of the requested volumes, in order: each names its volume by the id it was
    requested with, all on that array, and has an id that the requests for single snapshots parse
    to the group's snapshot on the volume's device. *)
Theorem created_group_found name ids s resp s' :
  NoDup (devices_of ids) →
  CreateVolumeGroupSnapshot GetPowerMaxClient clusterPrefix ind name ids s = Some (Ok resp, s') →
  ∃ sym sg snap, slen snap < MaxSnapIdentifierLength
    ∧ (has_char "/" sym = false → has_char "/" sg = false → has_char "/" snap = false →
       parseGroupSnapshotID (GroupSnapshotId resp) = Ok (sym, sg, snap))
    ∧ Forall2 (λ id m, SourceVolumeId m = id ∧ ∃ csi, parseCsiID id = Some (Ok csi) ∧ (arrayID csi = "" ∨ arrayID csi = sym)
        ∧ (plain sym → plain (VolumeID.devID csi) → slen (VolumeID.devID csi) <= 5 ∨ 12 <= slen sym →
           parseCsiID (SnapshotId m) = Some (Ok (mkCsiID snap sym (VolumeID.devID csi) "" "")))) ids (group_Snapshots resp).
Proof.
  intros Hnd E. destruct (create_leaves_snapshot _ _ _ _ _ Hnd E) as (p & w1 & sources & t & members & missing & Hp & _ & _ & _ & _ & Hm & ->).
  destruct (plan_devices _ _ _ _ _ Hp) as (Hdev & _ & Hname & vols & Hparse & Hids).
  destruct (group_name_short clusterPrefix name) as (snap & Hname' & Hlo & Hhi). rewrite Hname in Hname'. injection Hname' as <-.
  exists (gp_symID p), (gp_sgName p), (gp_snapName p). split; [done|]. split; [intros; by apply group_id_roundtrip|].
  apply parse_sources_inv in Hparse as (_ & l & -> & Hl). simpl in Hids. apply member_snapshots_shape in Hm. cbn [group_Snapshots].
  assert (gp_devices p = gv_devID <$> l) as Hdl.
  { rewrite Hdev. clear -Hl. unfold devices_of. induction Hl as [|id v ids l (_ & csi & Hc & Hd & _) _ IH]; [done|]. simpl. rewrite Hc, Hd. by f_equal. }
  rewrite Hdl in Hm. apply Forall2_fmap_l in Hm. rewrite <- Hdev, Hdl in Hnd.
  apply Forall2_same_length_lookup in Hl as [Hlen Hl]. apply Forall2_same_length_lookup in Hm as [Hlen' Hm].
  apply Forall2_same_length_lookup. split; [congruence|]. intros i id m Hi Hmi.
  destruct (lookup_lt_is_Some_2 l i) as [v Hv]; [by rewrite <- Hlen; eapply lookup_lt_Some|].
  destruct (Hl _ _ _ Hi Hv) as (<- & csi & Hcsi & Hd & Ha), (Hm _ _ _ Hv Hmi) as [Hsid Hsrc]. split.
  - apply Hsrc; [rewrite Hids; apply csi_ids_lookup; [done|by eapply list_elem_of_lookup_2]|]. by intros E0; rewrite E0 in Hcsi.
  - exists csi. split_and!; [done..|]. intros Hps Hpd Hlens. rewrite Hsid, Hd. apply member_id_roundtrip; try done. lia.
Qed.
End repeat.

(** ** What a deletion changes *)
Import Trace.

Section traced.
Context {W C : Type} `{Pmax W C} `{MaskingClient W C} `{GroupSnapClient W C}.
Variable GetPowerMaxClient : string → string → M W (result error C).

#[export] Instance traced_group : GroupSnapClient (traced W) C := {
  GetVolumeIDListInStorageGroup a0 a1 a2 := quiet (GetVolumeIDListInStorageGroup a0 a1 a2);
  GetStorageGroupSnapshotSnapIDs a0 a1 a2 a3 := quiet (GetStorageGroupSnapshotSnapIDs a0 a1 a2 a3);
  GetStorageGroupSnapshotSnap a0 a1 a2 a3 a4 := quiet (GetStorageGroupSnapshotSnap a0 a1 a2 a3 a4);
  IsNotFoundError := IsNotFoundError;
}.

Lemma quiet_run {A} (f : W → A * W) t : lift (quiet f) t = Some ((f t.1).1, ((f t.1).2, t.2)).
Proof. unfold lift, quiet. by destruct (f t.1). Qed.

Lemma check_members_spec snap sym ids : check_members snap sym ids = None → Forall (λ sid, ∃ dev, sid = buildMemberSnapshotID snap sym dev) ids.
Proof.
  unfold check_members. destruct (existsb _ ids) eqn:E; [done|]. intros _. apply Forall_forall. intros sid Hin.
  destruct (HasPrefix sid (snap ++ "-" ++ sym ++ "-")) eqn:Hp.
  - apply HasPrefix_spec in Hp as [dev ->]. exists dev. unfold buildMemberSnapshotID. by rewrite !app_str_assoc.
  - apply not_true_iff_false in E. destruct E. apply existsb_exists. exists sid. split; [by apply list_elem_of_In|]. by rewrite Hp.
Qed.

(** Whatever the array answers, DeleteVolumeGroupSnapshot changes it at most once, by
    terminating the snapshot its id names, on the array of the id, for the volumes the array
    lists for that snapshot of that group; and only when every member id of the request is one
    of the group's. *)
Theorem delete_group_only_named gid snapshotIDs t r t' :
  DeleteVolumeGroupSnapshot (W := traced W) (λ a b, quietM (GetPowerMaxClient a b)) gid snapshotIDs t = Some (r, t') →
  t'.2 = t.2 ∨ ∃ sym sg snap (c : C) id (w1 : W) sources, parseGroupSnapshotID gid = Ok (sym, sg, snap)
    ∧ (GetStorageGroupSnapshotSnap c sym sg snap id w1).1 = Ok sources
    ∧ Forall (λ sid, ∃ dev, sid = buildMemberSnapshotID snap sym dev) snapshotIDs
    ∧ t'.2 = (t.2 ++ [EvTerminate sym snap (Source_Name <$> default [] sources)])%list.
Proof.
  unfold DeleteVolumeGroupSnapshot. case_decide; [intros [= _ <-]; by left|].
  destruct (parseGroupSnapshotID gid) as [[[sym sg] snap]|] eqn:Ep; [|intros [= _ <-]; by left].
  intros (rc & t1 & Ec & E)%mbnd_Some. assert (t1.2 = t.2) as <-.
  { apply mbnd_Some in Ec as (rc' & t0 & Ec & Er). unfold quietM in Ec. destruct (GetPowerMaxClient _ _ _) as [[x w]|]; [|done].
    injection Ec as <- <-. by destruct x; injection Er as _ <-. }
  destruct rc as [c|e]; [|injection E as _ <-; by left].
  unfold mbnd in E. cbn [GetStorageGroup GetStorageGroupSnapshotSnapIDs GetStorageGroupSnapshotSnap traced_pmax traced_group] in E.
  rewrite quiet_run in E. destruct (GetStorageGroup c sym sg t1.1) as [[g|e] w2]; cbn [fst snd] in E;
    [|destruct (IsNotFoundError e); injection E as _ <-; by left].
  rewrite quiet_run in E. cbn [fst snd] in E. destruct (GetStorageGroupSnapshotSnapIDs c sym sg snap w2) as [[[[|id l]|]|e] w3]; cbn [fst snd] in E;
    [injection E as _ <-; by left| |done|destruct (IsNotFoundError e); injection E as _ <-; by left].
  rewrite quiet_run in E. cbn [fst snd] in E. destruct (GetStorageGroupSnapshotSnap c sym sg snap (Itoa id) w3) as [[sources|e] w4] eqn:Es; cbn [fst snd] in E;
    [|destruct (IsNotFoundError e); injection E as _ <-; by left].
  unfold check, mbnd in E. cbn [ret] in E. unfold ret at 1 in E. destruct (check_members snap sym snapshotIDs) as [e|] eqn:Em; [injection E as _ <-; by left|].
  right. exists sym, sg, snap, c, (Itoa id), w3, sources. split; [done|]. split; [by rewrite Es|]. split; [by apply check_members_spec|].
  cbn [DeleteSnapshotS traced_pmax] in E. unfold lift, noisy in E. cbn [fst snd] in E.
  destruct (DeleteSnapshotS c sym snap (Source_Name <$> default [] sources) 0 w4) as [[e|] w5]; cbn [fst snd] in E.
  - destruct (IsNotFoundError e); by injection E as _ <-.
  - by injection E as _ <-.
Qed.
End traced.

(** ** Examples *)
Module Sim.
Import SimArray.

(** The log of the array holds the snapshots: [snapshot|name|device|...]. *)
Definition devices_in (name entry : string) : option (list string) :=
  match Split "|" entry with
  | tag :: n :: devices => if decide (tag = "snapshot" ∧ n = name) then Some devices else None
  | _ => None
  end.
Definition snapshot_in (log : list string) (name : string) : option (list string) := head (omap (devices_in name) log).

Definition not_found : error := errorString "cannot be found".
Definition set_licenses (m : gmap string bool) (w : Sim) : Sim :=
  mkSim (sim_time w) (sim_version w) (sim_volumes w) (sim_snaps w) (sim_sg w) (sim_rdf w) (sim_group w) (sim_dirs w) (sim_log w) m.

#[export] Instance sim_create : CreateClient Sim string := {
  client_CreateVolume _ _ _ _ w := (Err (errorString "unavailable"), w);
  GetVolumesByIdentifier _ _ _ w := (Ok [], w);
  GetSnapshotInfo _ _ _ name w := (Err (errorString "unavailable"), w);
  IsAllowedArray _ _ := None;
  GetReplicationCapabilities _ w := (Ok [("000120000548", true)], w);
}.
#[export] Instance sim_snap : SnapClient Sim string := {
  Snapshots.GetPrivVolumeByID _ _ _ w := (Err (errorString "unavailable"), w);
  client_CreateSnapshot _ _ name devices _ w := (None, log (Join "|" ("snapshot" :: name :: devices)) w);
  Snapshots.GetSnapVolumeList _ _ w := (Ok [], w);
}.
#[export] Instance sim_license : LicenseCache Sim := { symmRepCapabilities := sim_licenses; setSymmRepCapabilities := set_licenses }.
#[export] Instance sim_groups : GroupSnapClient Sim string := {
  GetVolumeIDListInStorageGroup _ _ sg w :=
    (Ok (Pmax.VolumeID <$> List.filter (λ v, bool_decide (sg ∈ StorageGroupIDList v)) (sim_volumes w)), w);
  GetStorageGroupSnapshotSnapIDs _ _ _ name w :=
    (match snapshot_in (sim_log w) name with Some _ => Ok (Some [7]) | None => Err not_found end, w);
  GetStorageGroupSnapshotSnap _ _ _ name _ w :=
    (match snapshot_in (sim_log w) name with Some l => Ok (Some ((λ dev, mkSource dev (float_of_Z 10)) <$> l)) | None => Err not_found end, w);
  IsNotFoundError e := bool_decide (e = not_found);
}.

Definition client : string → string → M Sim (result error string) := λ _ _, ret (Ok "c").

Definition lawful : group_array (W := Sim) (C := string) client (list Volume) (list string).
Proof.
  refine {|
    groups := sim_volumes; snaps := sim_log; clients := λ _, Ok "c";
    volume_of := λ vols _ id, match List.find (λ v, bool_decide (Pmax.VolumeID v = id)) vols with Some v => Ok v | None => Err (errorString "Could not find volume") end;
    members_of := λ vols _ sg, Ok (Pmax.VolumeID <$> List.filter (λ v, bool_decide (sg ∈ StorageGroupIDList v)) vols);
    ids_of := λ l _ _ name, match snapshot_in l name with Some _ => Ok (Some [7]) | None => Err not_found end;
    sources_of := λ l _ _ name _, match snapshot_in l name with Some l => Ok (Some ((λ dev, mkSource dev (float_of_Z 10)) <$> l)) | None => Err not_found end;
  |}; try done.
  intros sym r w. by exists w.
Defined.

Definition vol (dev : string) : Volume := mkVolume dev ("csi-ABC-" ++ dev) ["other"; "csi-ABC-Gold-SRP_1-SG"] false false "" 0 547 [] fzero.
Definition array0 : Sim := sim [vol "00001"; vol "00002"; vol "00003"] (mkStorageGroupRDFG [] []).
Definition requested : list string := ["csi-ABC-pvc1-000120000548-00001"; "csi-ABC-pvc2-000120000548-00002"].
Definition create0 (name : string) (ids : list string) (w : Sim) : option (result error VolumeGroupSnapshot * (tables * Sim)) :=
  CreateVolumeGroupSnapshot (W := Sim) (C := string) client "ABC" (Pending.mkInduced false false) name ids (Snapshots.tables0, w).

(** The id, the ids and volumes of the members, and whether the group is ready. *)
Definition summary {S} (r : option (result error VolumeGroupSnapshot * S)) : option (string * list (string * string * Z) * bool) :=
  match r with
  | Some (Ok g, _) => Some (GroupSnapshotId g, (λ m, (SnapshotId m, SourceVolumeId m, SizeBytes m)) <$> group_Snapshots g, ReadyToUse g)
  | _ => None
  end.
Definition refused {S A} (r : option (result error A * S)) : option error := match r with Some (Err e, _) => Some e | _ => None end.
Definition array_of {A} (r : option (A * (tables * Sim))) : Sim := match r with Some (_, s) => s.2 | None => array0 end.
End Sim.
Import SimArray Sim.

(** A group that was created ready is never ready when it is read, because the storage group
    has a third volume; and the volumes of the members have other ids. *)
Example partial_group_not_ready :
  let r := create0 "groupsnapshot-1234" requested array0 in
  summary r = Some ("000120000548/csi-ABC-Gold-SRP_1-SG/csi-ABC-grp-1234",
    [("csi-ABC-grp-1234-000120000548-00001", "csi-ABC-pvc1-000120000548-00001", 10 * GB);
     ("csi-ABC-grp-1234-000120000548-00002", "csi-ABC-pvc2-000120000548-00002", 10 * GB)], true)
  ∧ summary (GetVolumeGroupSnapshot (W := Sim) (C := string) client "000120000548/csi-ABC-Gold-SRP_1-SG/csi-ABC-grp-1234" (array_of r))
    = Some ("000120000548/csi-ABC-Gold-SRP_1-SG/csi-ABC-grp-1234",
    [("csi-ABC-grp-1234-000120000548-00001", "00001", 10 * GB); ("csi-ABC-grp-1234-000120000548-00002", "00002", 10 * GB)], false).
Proof. by vm_compute. Qed.

(** Another set of volumes of the same size under the same name is an internal error, and a
    part of the volumes of an existing group is taken for the group. *)
Example other_volumes_same_name :
  let w := array_of (create0 "g" requested array0) in
  refused (create0 "g" ["csi-ABC-pvc1-000120000548-00001"; "csi-ABC-pvc3-000120000548-00003"] w)
    = Some (statusError Internal "volume 00003 not found in existing snapshot response")
  ∧ summary (create0 "g" ["csi-ABC-pvc1-000120000548-00001"] w)
    = Some ("000120000548/csi-ABC-Gold-SRP_1-SG/csi-ABC-grp-g", [("csi-ABC-grp-g-000120000548-00001", "csi-ABC-pvc1-000120000548-00001", 10 * GB)], true).
Proof. by vm_compute. Qed.

(** A slash in the requested name gives an id that does not parse, and its deletion succeeds
    without a change; dashes in the middle of a name stay. *)
Example slash_never_deleted :
  let r := create0 "a/b--c" requested array0 in
  GroupSnapshotId <$> (match r with Some (Ok g, _) => Some g | _ => None end) = Some "000120000548/csi-ABC-Gold-SRP_1-SG/csi-ABC-grp-a/b--c"
  ∧ DeleteVolumeGroupSnapshot (W := Sim) (C := string) client "000120000548/csi-ABC-Gold-SRP_1-SG/csi-ABC-grp-a/b--c" [] (array_of r)
    = Some (Ok tt, array_of r).
Proof. by vm_compute. Qed.

Definition named0 : string := "000120000548/csi-ABC-Gold-SRP_1-SG/csi-ABC-grp-1234".

Lemma group_create_retry_witness :
  match create0 "groupsnapshot-1234" requested array0 with
  | Some (Ok resp, s') =>
      GroupSnapshotId resp = named0
      ∧ ∃ resp' s3, create0 "groupsnapshot-1234" requested s'.2 = Some (Ok resp', s3) ∧ sim_log s3.2 = sim_log s'.2
          ∧ GroupSnapshotId resp' = GroupSnapshotId resp ∧ Forall2 same_member (group_Snapshots resp) (group_Snapshots resp')
  | _ => False
  end.
Proof.
  assert (fst ∘ fst <$> summary (create0 "groupsnapshot-1234" requested array0) = Some named0) as Hs by by vm_compute.
  destruct (create0 "groupsnapshot-1234" requested array0) as [[[resp|e] s']|] eqn:E; [|done..]. injection Hs as Hid. split; [exact Hid|].
  pose proof (group_create_retry client "ABC" (Pending.mkInduced false false) lawful "groupsnapshot-1234" requested (Snapshots.tables0, array0) resp s'
    (Snapshots.tables0, s'.2)) as T.
  destruct T as (resp' & s3 & H1 & (_ & H2 & _) & _ & H3 & _ & H4); [|exact E|done|].
  - assert (bool_decide (NoDup (devices_of requested)) = true) as Hb by by vm_compute. by apply bool_decide_eq_true in Hb.
  - exists resp', s3. split; [exact H1|]. split; [exact H2|]. split; [exact H3|exact H4].
Defined.

Lemma created_group_found_witness :
  match create0 "groupsnapshot-1234" requested array0 with
  | Some (Ok resp, _) => GroupSnapshotId resp = named0 ∧ ∃ sym sg snap, parseGroupSnapshotID named0 = Ok (sym, sg, snap) ∧ slen snap < 32
  | _ => False
  end.
Proof.
  assert (fst ∘ fst <$> summary (create0 "groupsnapshot-1234" requested array0) = Some named0) as Hs by by vm_compute.
  destruct (create0 "groupsnapshot-1234" requested array0) as [[[resp|e] s']|] eqn:E; [|done..]. injection Hs as Hid. split; [exact Hid|].
  pose proof (created_group_found client "ABC" (Pending.mkInduced false false) lawful "groupsnapshot-1234" requested (Snapshots.tables0, array0) resp s') as T.
  destruct T as (sym & sg & snap & Hlen & Hp & Hall); [|exact E|].
  - assert (bool_decide (NoDup (devices_of requested)) = true) as Hb by by vm_compute. by apply bool_decide_eq_true in Hb.
  - destruct (parseGroupSnapshotID named0) as [[[sym' sg'] snap']|e] eqn:Ep; [|by vm_compute in Ep].
    exists sym', sg', snap'. split; [done|]. vm_compute in Ep. injection Ep as <- <- <-. by vm_compute.
Defined.

Definition delete0 (ids : list string) : option (result error unit * traced Sim) :=
  DeleteVolumeGroupSnapshot (W := traced Sim) (C := string) (λ a b, quietM (client a b)) named0 ids
    (array_of (create0 "groupsnapshot-1234" requested array0), []).

(** A member of another group stops the deletion. *)
Example delete_checks_members :
  refused (delete0 ["csi-ABC-grp-99-000120000548-00001"]) = Some (statusError InvalidArgument "snapshot ID does not match group snapshot").
Proof. by vm_compute. Qed.

Lemma delete_group_only_named_witness :
  match delete0 ["csi-ABC-grp-1234-000120000548-00001"] with
  | Some (Ok _, t') =>
      t'.2 = [EvTerminate "000120000548" "csi-ABC-grp-1234" ["00001"; "00002"]]
      ∧ ∃ sym sg snap, parseGroupSnapshotID named0 = Ok (sym, sg, snap) ∧ ∃ l, t'.2 = [EvTerminate sym snap l]
  | _ => False
  end.
Proof.
  assert (match delete0 ["csi-ABC-grp-1234-000120000548-00001"] with Some (Ok _, t') => Some t'.2 | _ => None end
    = Some [EvTerminate "000120000548" "csi-ABC-grp-1234" ["00001"; "00002"]]) as Hl by by vm_compute.
  destruct (delete0 ["csi-ABC-grp-1234-000120000548-00001"]) as [[[u|e] t']|] eqn:E; [|done..]. injection Hl as Hl. split; [exact Hl|].
  destruct (delete_group_only_named client _ _ _ _ _ E) as [Hn|(sym & sg & snap & c & id & w1 & sources & Hp & _ & _ & Ht)];
    [by rewrite Hl in Hn|].
  exists sym, sg, snap. split; [exact Hp|]. eexists. exact Ht.
Defined.
End GroupSnapshots.
