(* ===== verification/Reclaim.v ===== *)
(** * Space reclamation

    Models service/space_reclamation.go: which persistent volumes a cycle takes, the
    device and mount a volume is found at, the trimming or discarding of it with the
    result on its claim, and the cycle itself: its jobs run as goroutines behind a
    semaphore and a lock per volume. The cron schedule and the text of log messages
    are left out. *)

From stdpp Require Import base gmap strings list.
From Stdlib Require Import ZArith Lia Ascii.
From S2P Require Import Prelude GoLib Pmax SimArray PowerMax VolumeID Masking Trace Handler Publish.

Module Reclaim.
Import VolumeID.
Open Scope go_scope.
Open Scope handler_scope.
Open Scope string_scope.
Open Scope Z_scope.

Definition Name := "csi-powermax.dellemc.com".
Definition LabelEnabled := "space-reclamation.csi.dell.com/enabled".
Definition LabelBlockReclaim := "space-reclamation.csi.dell.com/block-reclaim".
Definition AnnotationLastRunTime := "space-reclamation.csi.dell.com/last-run-time".
Definition AnnotationBytesAvailable := "space-reclamation.csi.dell.com/bytes-available".
Definition AnnotationDuration := "space-reclamation.csi.dell.com/duration-seconds".
Definition AnnotationStatus := "space-reclamation.csi.dell.com/status".
Definition AnnotationErrorMsg := "space-reclamation.csi.dell.com/error-message".
Definition AnnotationNode := "space-reclamation.csi.dell.com/node".
Definition VolumeModeFilesystem := "Filesystem".
Definition VolumeModeBlock := "Block".
Definition podMounts := "/var/lib/kubelet/pods/".
Definition privateMounts := "/var/lib/kubelet/plugins/powermax.emc.dell.com/disks/".

(** ** Configuration *)
Record SpaceReclamationConfig := mkConfig {
  Enabled : bool;
  Schedule : string;
  MaxConcurrentVolumes : Z;
  TimeoutSeconds : Z;
  NodeName : string;
}.

(** The environment; an unset variable is the empty text. *)
Definition getEnvString (env : string → string) (key defaultVal : string) : string := if decide (env key = "") then defaultVal else env key.

Definition ParseBool (s : string) : option bool :=
  if bool_decide (s ∈ ["1"; "t"; "T"; "true"; "TRUE"; "True"]) then Some true
  else if bool_decide (s ∈ ["0"; "f"; "F"; "false"; "FALSE"; "False"]) then Some false
  else None.
Definition getEnvBool (env : string → string) (key : string) (defaultVal : bool) : bool :=
  if decide (env key = "") then defaultVal else default defaultVal (ParseBool (env key)).
Definition getEnvInt (env : string → string) (key : string) (defaultVal : Z) : Z :=
  if decide (env key = "") then defaultVal
  else match Atoi (env key) with
       | None => defaultVal
       | Some i => if i <? 0 then defaultVal else i
       end.

Definition ReadSpaceReclamationConfig (env : string → string) : SpaceReclamationConfig :=
  mkConfig (getEnvBool env "X_CSI_SPACE_RECLAMATION_ENABLED" false) (getEnvString env "X_CSI_SPACE_RECLAMATION_SCHEDULE" "0 2 * * 0")
    (getEnvInt env "X_CSI_SPACE_RECLAMATION_MAX_CONCURRENT" 2) (getEnvInt env "X_CSI_SPACE_RECLAMATION_TIMEOUT" 14400)
    (getEnvString env "X_CSI_POWERMAX_NODENAME" "").

(** The capacity of the semaphore. *)
Definition semSize (config : SpaceReclamationConfig) : nat := Z.to_nat (if MaxConcurrentVolumes config <=? 0 then 1 else MaxConcurrentVolumes config).

(** ** Kubernetes objects *)
Record CSISource := mkCSISource { Driver : string; FSType : string; VolumeHandle : string }.
Record PersistentVolume := mkPV {
  pv_Name : string;
  pv_CSI : option CSISource;
  pv_Phase : string;
  pv_AccessModes : list string;
  (** Namespace and name. *)
  pv_ClaimRef : option (string * string);
}.
(** Labels and annotations that are nil are empty. *)
Record PersistentVolumeClaim := mkPVC {
  pvc_ResourceVersion : string;
  pvc_Labels : gmap string string;
  pvc_VolumeMode : option string;
  pvc_Annotations : gmap string string;
}.

Record VolumeInfo := mkVolumeInfo {
  info_VolumeID : string;
  StagingPath : string;
  DevicePath : string;
  VolumeMode : string;
  PVCName : string;
  PVCNamespace : string;
  PVC : PersistentVolumeClaim;
}.

Record ReclamationResult := mkReclamationResult {
  Status : string;
  BytesAvailable : Z;
  Duration : Z;
  ErrorMessage : string;
  result_NodeName : string;
}.

Record Mount := mkMount { mnt_Device : string; mnt_Path : string }.

Inductive ctxError := Canceled | DeadlineExceeded.

(** The operating system of the node, package gofsutil, and the clock. *)
Class NodeOS (W : Type) := {
  GetMounts : W → result error (list Mount) * W;
  (** Symbolic link and device of a WWN. *)
  WWNToDevicePathX : string → W → result error (string * string) * W;
  GetSysBlockDevicesForVolumeWWN : string → W → result error (list string) * W;
  (** Reading links changes nothing; [None] is an error. *)
  EvalSymlinks : string → W → option string;
  (** Whether discards are supported, and the reason if not. *)
  CheckDiscardSupport : string → W → result error (bool * string) * W;
  (** Bytes, if there is a result. *)
  Fstrim : string → W → result error (option Z) * W;
  Blkdiscard : string → W → result error (option Z) * W;
  time_Now : W → Z * W;
  (** The error of the context of the cycle. *)
  ctx_Err : W → option ctxError * W;
}.

(** The Kubernetes API: namespace first. The format of the time now and of a duration in
    seconds are those of package time and fmt. *)
Class Claims (W : Type) := {
  GetPVC : string → string → W → result error PersistentVolumeClaim * W;
  UpdatePVC : string → string → PersistentVolumeClaim → W → option error * W;
  (** Reason and message on a claim. *)
  Event : PersistentVolumeClaim → string → string → W → unit * W;
  FormatTime : Z → string;
  FormatSeconds : Z → string;
  FormatDuration : Z → string;
}.

(** ** Eligibility *)
Definition IsEligible (globalEnabled : bool) (labels : gmap string string) (volumeMode : string) : bool * string :=
  if decide (volumeMode = VolumeModeBlock) then
    match labels !! LabelBlockReclaim with
    | None => (false, "block mode missing required label")
    | Some val => if EqualFold val "true" then (true, "") else (false, "block mode label is '" ++ val ++ "' (must be 'true')")
    end
  else
    match labels !! LabelEnabled with
    | None => if globalEnabled then (true, "") else (false, "global disabled")
    | Some val => if EqualFold val "true" then (true, "") else (false, "label is '" ++ val ++ "' (must be 'true' to override global)")
    end.

Definition shouldSkipPV (pv : PersistentVolume) : bool * string :=
  match pv_CSI pv with
  | None => (true, "not managed by this driver")
  | Some csi =>
      if decide (Driver csi ≠ Name) then (true, "not managed by this driver")
      else if decide (pv_Phase pv ≠ "Bound") then (true, "not bound")
      else if bool_decide ("ReadWriteMany" ∈ pv_AccessModes pv) then (true, "SpaceReclamation: skipping RWX volume")
      else if decide (FSType csi = "nfs") then (true, "NFS handled at server level")
      else match pv_ClaimRef pv with None => (true, "no claim reference") | Some _ => (false, "") end
  end.

Section calls.
Context {W C : Type} `{Pmax W C} `{NodeOS W} `{Claims W}.
Variable GetPowerMaxClient : string → string → M W (result error C).
Variable config : SpaceReclamationConfig.

(** ** Devices *)
Definition normalizeDevicePath (path : string) : M W string := λ w, Some (default path (EvalSymlinks path w), w).

Definition isPrivateMount (path : string) : bool := Contains path privateMounts.
Definition isCsiMount (path : string) : bool := Contains path podMounts || isPrivateMount path.

(** The first mount of a device, or its first private mount. *)
Definition note_mount (dev path : string) (deviceToMount : gmap string string) : gmap string string :=
  match deviceToMount !! dev with
  | None => <[dev := path]> deviceToMount
  | Some currentPath => if isPrivateMount path && negb (isPrivateMount currentPath) then <[dev := path]> deviceToMount else deviceToMount
  end.
Fixpoint map_mounts (mounts : list Mount) (deviceToMount : gmap string string) : M W (gmap string string) :=
  match mounts with
  | [] => ret deviceToMount
  | mnt :: mounts =>
      if isCsiMount (mnt_Path mnt) then
        let* normalizedDevice := normalizeDevicePath (mnt_Device mnt) in
        map_mounts mounts (note_mount normalizedDevice (mnt_Path mnt) deviceToMount)
      else map_mounts mounts deviceToMount
  end.
Definition buildDeviceToMountMap : M W (result error (gmap string string)) :=
  let? mounts := lift GetMounts orelse (λ e, errorString ("failed to get mounts: " ++ Error e)) in
  let* m := map_mounts mounts ∅ in ok m.

Definition getVolumeWWN (pvName volumeHandle : string) : M W (result error (string * string * string)) :=
  match parseCsiID volumeHandle with
  | None => panic
  | Some (Err e) => fail (errorString ("failed to parse volumeHandle " ++ volumeHandle ++ ": " ++ Error e))
  | Some (Ok csi) =>
      let symID := arrayID csi in
      let devID := VolumeID.devID csi in
      let? c := GetPowerMaxClient symID "" orelse (λ e, errorString ("failed to get PowerMax client for array " ++ symID ++ ": " ++ Error e)) in
      let? vol := lift (GetVolumeByID c symID devID)
        orelse (λ e, errorString ("failed to get volume " ++ symID ++ "/" ++ devID ++ " from array: " ++ Error e)) in
      if decide (EffectiveWWN vol = "") then fail (errorString ("volume " ++ symID ++ "/" ++ devID ++ " has no EffectiveWWN"))
      else ok (symID, devID, EffectiveWWN vol)
  end.

(** The first device that is mounted. *)
Fixpoint find_mounted (devices : list string) (deviceToMount : gmap string string) : M W (option string) :=
  match devices with
  | [] => ret None
  | dev :: devices =>
      let* normalizedCandidate := normalizeDevicePath ("/dev/" ++ dev) in
      if bool_decide (is_Some (deviceToMount !! normalizedCandidate)) then ret (Some ("/dev/" ++ dev)) else find_mounted devices deviceToMount
  end.

(** What the loop over the devices of a block volume has found. *)
Record classified := mkClassified { isNVMe : bool; namespaceDevice : string; multipathDevice : string; firstDevice : string }.
Fixpoint classify (devices : list string) (c : classified) : classified :=
  match devices with
  | [] => c
  | dev :: devices =>
      let first := if decide (firstDevice c = "") then dev else firstDevice c in
      let nvme := isNVMe c || HasPrefix dev "nvme" in
      if HasPrefix dev "nvme" && negb (Contains dev "c") then mkClassified true dev (multipathDevice c) first
      else
        let multipath := if negb nvme && bool_decide (multipathDevice c = "") && HasPrefix dev "dm-" then dev else multipathDevice c in
        classify devices (mkClassified nvme (namespaceDevice c) multipath first)
  end.

Definition best_block (devices : list string) : result error string :=
  let c := classify devices (mkClassified false "" "" "") in
  if isNVMe c then
    if decide (namespaceDevice c ≠ "") then Ok ("/dev/" ++ namespaceDevice c)
    else Err (errorString "NVMe devices found but no namespace device (only controller devices)")
  else if decide (multipathDevice c ≠ "") then Ok ("/dev/" ++ multipathDevice c)
  else Ok ("/dev/" ++ firstDevice c).

Definition selectBestDevice (wwn : string) (devices : list string) (deviceToMount : gmap string string) (volMode : string) : M W (result error string) :=
  let* mounted := find_mounted devices deviceToMount in
  match mounted with
  | Some path => ok path
  | None =>
      if decide (volMode = VolumeModeFilesystem) then fail (errorString ("no device from WWN " ++ wwn ++ " found in mount table"))
      else ret (best_block devices)
  end.

Definition resolveDevicePath (wwn : string) (deviceToMount : gmap string string) (volMode : string) : M W (result error string) :=
  let fallback :=
    let* devices := lift (GetSysBlockDevicesForVolumeWWN wwn) in
    match devices with
    | Err _ | Ok [] => fail (errorString ("PV not on this node (WWN: " ++ wwn ++ ")"))
    | Ok devices => selectBestDevice wwn devices deviceToMount volMode
    end in
  let* r := lift (WWNToDevicePathX wwn) in
  match r with
  | Err _ => fallback
  | Ok (_, devicePath) =>
      if decide (devicePath = "") then fallback
      else
        let* normalizedDevicePath := normalizeDevicePath devicePath in
        if decide (volMode = VolumeModeFilesystem) then
          if bool_decide (is_Some (deviceToMount !! normalizedDevicePath)) then ok devicePath else fallback
        else ok devicePath
  end.

(** [Ok None]: the volume is skipped. *)
Definition processVolume (pv : PersistentVolume) (deviceToMount : gmap string string) : M W (result error (option VolumeInfo)) :=
  if (shouldSkipPV pv).1 then ok None
  else match pv_CSI pv, pv_ClaimRef pv with
  | Some csi, Some (namespace, name) =>
      let? pvc := lift (GetPVC namespace name) orelse (λ e, errorString ("failed to get PVC " ++ namespace ++ "/" ++ name ++ ": " ++ Error e)) in
      let volMode := default VolumeModeFilesystem (pvc_VolumeMode pvc) in
      if (IsEligible (Enabled config) (pvc_Labels pvc) volMode).1 then
        let volumeHandle := VolumeHandle csi in
        if decide (volumeHandle = "") then fail (errorString ("PV " ++ pv_Name pv ++ " missing VolumeHandle"))
        else
          let? ids := getVolumeWWN (pv_Name pv) volumeHandle orelse (λ e, errorString ("failed to get WWN: " ++ Error e)) in
          let '(_, _, wwn) := ids in
          let? devicePath := resolveDevicePath wwn deviceToMount volMode orelse (λ e, errorString ("failed to resolve device path: " ++ Error e)) in
          let info stagingPath := mkVolumeInfo volumeHandle stagingPath devicePath volMode name namespace pvc in
          if decide (volMode = VolumeModeFilesystem) then
            match deviceToMount !! devicePath with
            | Some mountPath => ok (Some (info mountPath))
            | None => fail (errorString ("filesystem mode but no mount found for device " ++ devicePath))
            end
          else ok (Some (info ""))
      else ok None
  | _, _ => panic
  end.

(** ** Results on the claim *)
Definition annotated (now : Z) (result : ReclamationResult) (pvc : PersistentVolumeClaim) : PersistentVolumeClaim :=
  let a := <[AnnotationNode := result_NodeName result]>
          (<[AnnotationDuration := FormatSeconds (Duration result)]>
          (<[AnnotationBytesAvailable := Itoa (BytesAvailable result)]>
          (<[AnnotationLastRunTime := FormatTime now]>
          (<[AnnotationStatus := Status result]> (pvc_Annotations pvc))))) in
  mkPVC (pvc_ResourceVersion pvc) (pvc_Labels pvc) (pvc_VolumeMode pvc)
    (if decide (ErrorMessage result = "") then delete AnnotationErrorMsg a else <[AnnotationErrorMsg := ErrorMessage result]> a).

Definition isConflict (e : error) : bool := Contains (Error e) "the object has been modified" || Contains (Error e) "Conflict".

(** [attempts] are left; [lastErr] is the conflict of the last one. *)
Fixpoint annotate (attempts : nat) (pvcName pvcNamespace : string) (result : ReclamationResult) (lastErr : option error) : M W (option error) :=
  match attempts with
  | O => ret lastErr
  | S attempts =>
      let* r := lift (GetPVC pvcNamespace pvcName) in
      match r with
      | Err e => ret (Some (errorString ("failed to get PVC " ++ pvcNamespace ++ "/" ++ pvcName ++ ": " ++ Error e)))
      | Ok pvc =>
          let* now := lift time_Now in
          let* err := lift (UpdatePVC pvcNamespace pvcName (annotated now result pvc)) in
          match err with
          | None => ret None
          | Some e =>
              if isConflict e then annotate attempts pvcName pvcNamespace result (Some e)
              else ret (Some (errorString ("failed to update PVC " ++ pvcNamespace ++ "/" ++ pvcName ++ ": " ++ Error e)))
          end
      end
  end.
Definition maxRetry : nat := 3.
Definition Annotate (pvcName pvcNamespace : string) (result : ReclamationResult) : M W (option error) :=
  annotate (maxRetry + 1) pvcName pvcNamespace result None.

Definition EmitSuccess (pvc : PersistentVolumeClaim) (bytesAvailable : Z) : M W unit :=
  lift (Event pvc "SpaceReclamationCompleted" ("Space reclamation completed: " ++ Itoa bytesAvailable ++ " bytes available")).
Definition EmitFailure (pvc : PersistentVolumeClaim) (msg : string) : M W unit :=
  lift (Event pvc "SpaceReclamationFailed" ("Space reclamation failed: " ++ msg)).
Definition EmitTimeout (pvc : PersistentVolumeClaim) (timeout : Z) : M W unit :=
  lift (Event pvc "SpaceReclamationTimeout" ("Space reclamation timed out after " ++ FormatDuration timeout)).
Definition EmitUnsupported (pvc : PersistentVolumeClaim) (reason : string) : M W unit :=
  lift (Event pvc "SpaceReclamationUnsupported" ("Device does not support space reclamation: " ++ reason)).

(** ** One volume *)
Definition checkDiscardCapability (devicePath : string) : M W (bool * string) :=
  let* r := lift (CheckDiscardSupport devicePath) in
  match r with
  | Err e => ret (false, "failed to check discard support: " ++ Error e)
  | Ok (supported, reason) => ret (if supported : bool then (true, "") else (false, reason))
  end.

(** Bytes, zero with an error or without a result. *)
Definition trim (vol : VolumeInfo) : M W (Z * option error) :=
  let bytes (r : result error (option Z)) := match r with Ok n => (default 0 n, None) | Err e => (0, Some e) end in
  if decide (VolumeMode vol = VolumeModeFilesystem) then let* r := lift (Fstrim (StagingPath vol)) in ret (bytes r)
  else if decide (VolumeMode vol = VolumeModeBlock) then let* r := lift (Blkdiscard (DevicePath vol)) in ret (bytes r)
  else ret (0, None).

Definition cycle_timeout : Z := TimeoutSeconds config * Second.

Definition write_result (vol : VolumeInfo) (result : ReclamationResult) : M W unit :=
  if decide (PVCName vol = "") then ret tt
  else let* _ := Annotate (PVCName vol) (PVCNamespace vol) result in ret tt.

(** What follows the acquisition of the semaphore and of the lock of the volume. *)
Definition reclaim_body (vol : VolumeInfo) : M W unit :=
  let* capability := checkDiscardCapability (DevicePath vol) in
  let '(supported, reason) := capability in
  if supported : bool then
    let* start := lift time_Now in
    let* r := trim vol in
    let '(bytesAvailable, reclaimErr) := r in
    let* now := lift time_Now in
    let duration := timeSub now start in
    let* result :=
      match reclaimErr with
      | Some e =>
          let* ctxErr := lift ctx_Err in
          match ctxErr with
          | Some DeadlineExceeded =>
              ret (mkReclamationResult "timeout" 0 duration ("operation timed out after " ++ FormatDuration cycle_timeout) (NodeName config))
          | _ => ret (mkReclamationResult "error" 0 duration (Error e) (NodeName config))
          end
      | None => ret (mkReclamationResult "success" bytesAvailable duration "" (NodeName config))
      end in
    let* _ := write_result vol result in
    if decide (Status result = "success") then EmitSuccess (PVC vol) (BytesAvailable result)
    else if decide (Status result = "timeout") then EmitTimeout (PVC vol) cycle_timeout
    else if decide (Status result = "error") then EmitFailure (PVC vol) (ErrorMessage result)
    else ret tt
  else
    let* _ := write_result vol (mkReclamationResult "unsupported" 0 0 reason (NodeName config)) in
    EmitUnsupported (PVC vol) reason.

(** *** The table of mounts *)
Definition normal (w : W) (path : string) : string := default path (EvalSymlinks path w).

(** The first mount of a device among those of the driver that [p] selects. *)
Definition first_mount (w : W) (p : string → bool) (mounts : list Mount) (dev : string) : option string :=
  mnt_Path <$> List.find (λ m, isCsiMount (mnt_Path m) && bool_decide (normal w (mnt_Device m) = dev) && p (mnt_Path m)) mounts.
(** The first private mount, or else the first one. *)
Definition preferred_mount (w : W) (mounts : list Mount) (dev : string) : option string :=
  match first_mount w isPrivateMount mounts dev with Some path => Some path | None => first_mount w (λ _, true) mounts dev end.

Lemma map_mounts_from w mounts m :
  ∃ m', map_mounts mounts m w = Some (m', w) ∧ ∀ dev,
    m' !! dev = match m !! dev with
                | Some cur => if isPrivateMount cur then Some cur else Some (default cur (first_mount w isPrivateMount mounts dev))
                | None => preferred_mount w mounts dev
                end.
Proof.
  revert m. induction mounts as [|mnt mounts IH]; intros m.
  - exists m. split; [done|]. intros dev. unfold preferred_mount, first_mount. simpl. destruct (m !! dev); [by case_match|done].
  - cbn [map_mounts]. destruct (isCsiMount (mnt_Path mnt)) eqn:Ec; cycle 1.
    { destruct (IH m) as (m' & -> & Hm). exists m'. split; [done|]. intros dev. rewrite Hm. unfold preferred_mount, first_mount. simpl. by rewrite Ec. }
    unfold mbnd at 1, normalizeDevicePath. cbv beta iota. fold (normal w (mnt_Device mnt)). set (d := normal w (mnt_Device mnt)).
    destruct (IH (note_mount d (mnt_Path mnt) m)) as (m' & -> & Hm). exists m'. split; [done|]. intros dev. rewrite Hm. clear IH Hm m'.
    unfold preferred_mount, first_mount. simpl. rewrite Ec. fold d. destruct (decide (d = dev)) as [->|Hne]; cycle 1.
    { rewrite bool_decide_eq_false_2 by done. simpl. assert (note_mount d (mnt_Path mnt) m !! dev = m !! dev) as -> by
        (unfold note_mount; repeat case_match; by rewrite ?lookup_insert_ne). done. }
    rewrite bool_decide_eq_true_2 by done. simpl. unfold note_mount. destruct (m !! dev) as [cur|] eqn:Em.
    + destruct (isPrivateMount (mnt_Path mnt)) eqn:Ep, (isPrivateMount cur) eqn:Epc; simpl; rewrite ?lookup_insert_eq, ?Em, ?Ep, ?Epc; done.
    + rewrite lookup_insert_eq. destruct (isPrivateMount (mnt_Path mnt)) eqn:Ep; [done|]. simpl. by case_match.
Qed.

(** The table holds, for a device, its first private mount if it has one, and else its first
    mount below a pod. *)
Lemma mount_table_exact w mounts w1 :
  GetMounts w = (Ok mounts, w1) →
  ∃ m, buildDeviceToMountMap w = Some (Ok m, w1) ∧ ∀ dev, m !! dev = preferred_mount w1 mounts dev.
Proof.
  intros E. unfold buildDeviceToMountMap, try, mbnd, lift. rewrite E.
  destruct (map_mounts_from w1 mounts ∅) as (m & -> & Hm). exists m. split; [done|]. intros dev. by rewrite Hm, lookup_empty.
Qed.

(** *** The device of a volume *)
Lemma classify_devices devices c : let r := classify devices c in
  (namespaceDevice r = namespaceDevice c ∨ namespaceDevice r ∈ devices) ∧ (multipathDevice r = multipathDevice c ∨ multipathDevice r ∈ devices)
  ∧ (firstDevice r = firstDevice c ∨ firstDevice r ∈ devices).
Proof.
  revert c. induction devices as [|dev l IH]; intros c; [naive_solver|]. cbn [classify].
  destruct (_ && negb _).
  - simpl. rewrite !elem_of_cons. split_and!; [tauto|tauto|]. case_decide; auto.
  - match goal with |- context [classify l ?c'] => destruct (IH c') as (H1' & H2' & H3'); simpl in H1', H2', H3' end.
    rewrite !elem_of_cons. split_and!; [tauto| |].
    + destruct H2' as [->|]; [|tauto]. repeat case_match; (by left) || (right; by left).
    + destruct H3' as [->|]; [|tauto]. repeat case_match; (by left) || (right; by left).
Qed.

Lemma best_block_device devices path : devices ≠ [] → best_block devices = Ok path → ∃ dev, dev ∈ devices ∧ path = "/dev/" ++ dev.
Proof.
  intros Hne. unfold best_block. destruct (classify_devices devices (mkClassified false "" "" "")) as (Hn & Hm & Hf). simpl in *.
  set (c := classify devices _) in *. destruct (isNVMe c).
  - case_decide as Hd; [|done]. intros [= <-]. exists (namespaceDevice c). split; [|done]. by destruct Hn.
  - case_decide as Hd; intros [= <-].
    + exists (multipathDevice c). split; [|done]. by destruct Hm.
    + exists (firstDevice c). split; [|done]. destruct Hf as [Hf|]; [|done]. destruct devices as [|dev l]; [done|].
      destruct (decide (dev = "")) as [->|Hdev]; [rewrite Hf; by left|]. exfalso. subst c. clear -Hf Hdev Hm Hn.
      assert (∀ l c, firstDevice c ≠ "" → firstDevice (classify l c) ≠ "") as Hk.
      { induction l0 as [|x l0 IH]; intros c Hc; [done|]. cbn [classify]. rewrite (decide_False (P := firstDevice c = "")) by done.
        case_match; [done|]. by apply IH. }
      cbn [classify] in Hf. cbn [firstDevice] in Hf. rewrite decide_True in Hf by done. case_match; [done|]. by apply Hk in Hf.
Qed.

Lemma find_mounted_device devices m w r w' : find_mounted devices m w = Some (r, w') → ∀ path, r = Some path → ∃ dev, dev ∈ devices ∧ path = "/dev/" ++ dev.
Proof.
  revert w. induction devices as [|dev l IH]; intros w E path Hr; [injection E as <- <-; done|]. cbn [find_mounted] in E.
  apply mbnd_Some in E as (n & w1 & _ & E). case_bool_decide.
  - injection E as <- <-. injection Hr as <-. exists dev. split; [by left|done].
  - destruct (IH _ E _ Hr) as (d & Hd & ->). exists d. split; [by right|done].
Qed.

(** A path the node knows for a WWN. *)
Definition device_of (wwn path : string) : Prop :=
  (∃ w link, (WWNToDevicePathX wwn w).1 = Ok (link, path))
  ∨ ∃ w devices dev, (GetSysBlockDevicesForVolumeWWN wwn w).1 = Ok devices ∧ dev ∈ devices ∧ path = "/dev/" ++ dev.

Lemma resolve_device wwn m volMode w path w' : resolveDevicePath wwn m volMode w = Some (Ok path, w') → device_of wwn path.
Proof.
  assert (∀ w, mbnd (lift (GetSysBlockDevicesForVolumeWWN wwn)) (λ devices, match devices with
      | Err _ | Ok [] => fail (errorString ("PV not on this node (WWN: " ++ wwn ++ ")"))
      | Ok devices => selectBestDevice wwn devices m volMode end) w = Some (Ok path, w') → device_of wwn path) as Hfall.
  { clear w. intros w (ds & w1 & E & Er)%mbnd_Some. injection E as E. destruct ds as [[|d ds]|]; try done.
    right. exists w. exists (d :: ds). apply mbnd_Some in Er as (r & w2 & Ef & Er). destruct r as [p|].
    - injection Er as <- <-. destruct (find_mounted_device _ _ _ _ _ Ef p) as (dev & Hdev & ->); [done|]. exists dev. by rewrite E.
    - case_decide; [done|]. injection Er as Er <-. destruct (best_block_device (d :: ds) path) as (dev & Hdev & ->); [done..|]. exists dev. by rewrite E. }
  unfold resolveDevicePath. intros (r & w1 & E & Er)%mbnd_Some. destruct r as [[link p]|]; [|by eapply Hfall].
  case_decide; [by eapply Hfall|]. apply mbnd_Some in Er as (n & w2 & _ & Er). injection E as E.
  repeat case_match; try (by eapply Hfall); injection Er as <- <-; left; exists w, link; by rewrite E.
Qed.

(** *** What may be reclaimed *)
(** The claim asks for it, or does not forbid what is enabled for all; a block volume needs its own label. *)
Definition eligible (pvc : PersistentVolumeClaim) (mode : string) : Prop :=
  if decide (mode = VolumeModeBlock) then ∃ v, pvc_Labels pvc !! LabelBlockReclaim = Some v ∧ EqualFold v "true" = true
  else (∃ v, pvc_Labels pvc !! LabelEnabled = Some v ∧ EqualFold v "true" = true) ∨ (pvc_Labels pvc !! LabelEnabled = None ∧ Enabled config = true).

Lemma claim_eligible_spec pvc mode : (IsEligible (Enabled config) (pvc_Labels pvc) mode).1 = true ↔ eligible pvc mode.
Proof. unfold IsEligible, eligible. case_decide; repeat case_match; naive_solver. Qed.

(** The persistent volume is one of this driver's, bound to the claim and not shared for writing between nodes, on a
    device of the array that has the WWN of its id; a file system is mounted where it is trimmed. *)
Definition own (pv : PersistentVolume) (m : gmap string string) (info : VolumeInfo) : Prop :=
  ∃ csi,
    pv_CSI pv = Some csi ∧ Driver csi = Name ∧ FSType csi ≠ "nfs" ∧ VolumeHandle csi = info_VolumeID info
    ∧ pv_Phase pv = "Bound" ∧ ("ReadWriteMany" ∉ pv_AccessModes pv) ∧ pv_ClaimRef pv = Some (PVCNamespace info, PVCName info)
    ∧ (∃ w, (GetPVC (PVCNamespace info) (PVCName info) w).1 = Ok (PVC info))
    ∧ VolumeMode info = default VolumeModeFilesystem (pvc_VolumeMode (PVC info)) ∧ eligible (PVC info) (VolumeMode info)
    ∧ (∃ id (c : C) w vol, parseCsiID (info_VolumeID info) = Some (Ok id) ∧ (GetVolumeByID c (arrayID id) (VolumeID.devID id) w).1 = Ok vol
         ∧ EffectiveWWN vol ≠ "" ∧ device_of (EffectiveWWN vol) (DevicePath info))
    ∧ (VolumeMode info = VolumeModeFilesystem → m !! DevicePath info = Some (StagingPath info)).

Lemma not_skipped pv : (shouldSkipPV pv).1 = false →
  ∃ csi ref, pv_CSI pv = Some csi ∧ Driver csi = Name ∧ FSType csi ≠ "nfs" ∧ pv_Phase pv = "Bound" ∧ ("ReadWriteMany" ∉ pv_AccessModes pv)
    ∧ pv_ClaimRef pv = Some ref.
Proof.
  unfold shouldSkipPV. destruct (pv_CSI pv) as [csi|]; [|done]. case_decide as Hd; [done|]. case_decide as Hp; [done|].
  case_bool_decide; [done|]. case_decide; [done|]. destruct (pv_ClaimRef pv) as [ref|]; [|done]. intros _.
  by exists csi, ref.
Qed.

Lemma process_own pv m w info w' : processVolume pv m w = Some (Ok (Some info), w') → own pv m info.
Proof.
  unfold processVolume. destruct (shouldSkipPV pv).1 eqn:Es; [done|].
  destruct (not_skipped _ Es) as (csi & [ns name] & Hc & Hd & Hf & Hp & Ha & Hr). rewrite Hc, Hr. intros E.
  apply try_Some in E as (pvc & w1 & Eg & E). injection Eg as Eg. set (mode := default VolumeModeFilesystem (pvc_VolumeMode pvc)) in *.
  destruct (IsEligible _ _ mode).1 eqn:Ee; [|done]. apply claim_eligible_spec in Ee. case_decide; [done|].
  apply try_Some in E as ([[sym dev] wwn] & w2 & Ew & E). apply try_Some in E as (path & w3 & Ep & E). apply resolve_device in Ep.
  assert (∃ id (c : C) w vol, parseCsiID (VolumeHandle csi) = Some (Ok id) ∧ (GetVolumeByID c (arrayID id) (VolumeID.devID id) w).1 = Ok vol
         ∧ EffectiveWWN vol ≠ "" ∧ wwn = EffectiveWWN vol) as (id & c & wv & vol & Hid & Hv & Hne & ->).
  { unfold getVolumeWWN in Ew. destruct (parseCsiID _) as [[id|]|]; try done. apply try_Some in Ew as (c & wc & _ & Ew).
    apply try_Some in Ew as (vol & wv & Ev & Ew). injection Ev as Ev. destruct (decide (EffectiveWWN vol = "")); [done|]. injection Ew as _ _ <- _.
    exists id, c, wc, vol. by rewrite Ev. }
  assert (∃ staging, info = mkVolumeInfo (VolumeHandle csi) staging path mode name ns pvc ∧ (mode = VolumeModeFilesystem → m !! path = Some staging))
    as (staging & -> & Hst).
  { case_decide as Hm; [destruct (m !! path) as [mp|] eqn:Em; [|done]; injection E as <- _; by exists mp|]. injection E as <- _. by exists "". }
  exists csi. simpl. split_and!; try done; [exists w; by rewrite Eg|]. exists id, c, wv, vol. done.
Qed.

(** *** Results on the claim *)
(** Only the annotations of reclamation change, and a message of an earlier failure goes. *)
Lemma annotated_other now result pvc key :
  key ∉ [AnnotationNode; AnnotationDuration; AnnotationBytesAvailable; AnnotationLastRunTime; AnnotationStatus; AnnotationErrorMsg] →
  pvc_Annotations (annotated now result pvc) !! key = pvc_Annotations pvc !! key.
Proof.
  intros Hk. rewrite !not_elem_of_cons in Hk. destruct Hk as (? & ? & ? & ? & ? & ? & _). unfold annotated. simpl.
  case_decide; rewrite ?lookup_delete_ne, ?lookup_insert_ne by done; done.
Qed.

Lemma annotated_status now result pvc :
  pvc_Annotations (annotated now result pvc) !! AnnotationStatus = Some (Status result)
  ∧ (ErrorMessage result = "" → pvc_Annotations (annotated now result pvc) !! AnnotationErrorMsg = None)
  ∧ pvc_ResourceVersion (annotated now result pvc) = pvc_ResourceVersion pvc.
Proof.
  unfold annotated. simpl. split_and!; [| |done].
  - case_decide; rewrite ?lookup_delete_ne, ?lookup_insert_ne by done; by rewrite lookup_insert_eq.
  - intros ->. rewrite decide_True by done. apply lookup_delete_eq.
Qed.

(** An annotation that reports success was accepted by the cluster, on the claim as it had just been read. *)
Lemma annotate_written n name ns result lastErr w w' :
  (n ≠ 0%nat ∨ lastErr ≠ None) → annotate n name ns result lastErr w = Some (None, w') →
  ∃ pvc now w1 w2, (GetPVC ns name w1).1 = Ok pvc ∧ UpdatePVC ns name (annotated now result pvc) w2 = (None, w').
Proof.
  revert lastErr w. induction n as [|n IH]; intros lastErr w Hl E; [injection E as -> _; by destruct Hl|].
  cbn [annotate] in E. apply mbnd_Some in E as (r & w1 & Eg & E). injection Eg as Eg. destruct r as [pvc|e]; [|done].
  apply mbnd_Some in E as (now & w2 & _ & E). apply mbnd_Some in E as (err & w3 & Eu & E). injection Eu as Eu. destruct err as [e|].
  - destruct (isConflict e); [|done]. eapply IH; [|done]. by right.
  - injection E as <-. exists pvc, now, w, w2. by rewrite Eg.
Qed.

(** Nothing in the work on one volume panics. *)
Definition total {A} (m : M W A) : Prop := ∀ w, is_Some (m w).
Lemma total_bind {A B} (m : M W A) (k : A → M W B) : total m → (∀ a, total (k a)) → total (mbnd m k).
Proof. intros Hm Hk w. unfold mbnd. destruct (Hm w) as [[a w'] ->]. apply Hk. Qed.
Lemma total_ret {A} (a : A) : total (ret a).
Proof. by intros w; eexists. Qed.
Lemma total_lift {A} (f : W → A * W) : total (lift f).
Proof. by intros w; eexists. Qed.
Hint Resolve total_ret total_lift total_bind : core.

Lemma annotate_total n name ns result lastErr : total (annotate n name ns result lastErr).
Proof.
  revert lastErr. induction n as [|n IH]; intros lastErr; [apply total_ret|]. cbn [annotate]. apply total_bind; [apply total_lift|].
  intros [pvc|e]; [|apply total_ret]. apply total_bind; [apply total_lift|]. intros now. apply total_bind; [apply total_lift|].
  intros [e|]; [|apply total_ret]. destruct (isConflict e); [apply IH|apply total_ret].
Qed.
Lemma reclaim_body_total vol : total (reclaim_body vol).
Proof.
  assert (∀ result, total (write_result vol result)) as Hw.
  { intros result. unfold write_result. case_decide; [apply total_ret|]. apply total_bind; [apply annotate_total|]. intros; apply total_ret. }
  unfold reclaim_body. apply total_bind.
  { unfold checkDiscardCapability. apply total_bind; [apply total_lift|]. intros [[]|]; apply total_ret. }
  intros [[] reason]; [|apply total_bind; [apply Hw|]; intros; apply total_lift].
  apply total_bind; [apply total_lift|]. intros start. apply total_bind.
  { unfold trim. repeat case_decide; try (apply total_bind; [apply total_lift|]; intros); apply total_ret. }
  intros [bytes err]. apply total_bind; [apply total_lift|]. intros now. apply total_bind.
  { destruct err; [|apply total_ret]. apply total_bind; [apply total_lift|]. intros [[]|]; apply total_ret. }
  intros result. apply total_bind; [apply Hw|]. intros _. repeat case_decide; (apply total_lift || apply total_ret).
Qed.

(** Only an id that makes parseCsiID panic stops a cycle. *)
Lemma processVolume_total pv m :
  (∀ a b, total (GetPowerMaxClient a b)) → (∀ csi, pv_CSI pv = Some csi → parseCsiID (VolumeHandle csi) ≠ None) → total (processVolume pv m).
Proof.
  intros Hc Hid. unfold processVolume. destruct (shouldSkipPV pv).1 eqn:Es; [apply total_ret|].
  destruct (not_skipped _ Es) as (csi & [ns name] & Hcsi & _ & _ & _ & _ & Hr). rewrite Hcsi, Hr. specialize (Hid csi Hcsi).
  assert (∀ p, total (normalizeDevicePath p)) as Hnorm by (intros p w; by eexists).
  assert (∀ ds, total (find_mounted ds m)) as Hfind.
  { induction ds as [|d ds IH]; [apply total_ret|]. cbn [find_mounted]. apply total_bind; [done|]. intros n. case_bool_decide; [apply total_ret|done]. }
  apply total_bind; [apply total_lift|]. intros [pvc|e]; [|apply total_ret]. cbv zeta. destruct (IsEligible _ _ _).1; [|apply total_ret].
  case_decide; [apply total_ret|]. apply total_bind.
  { unfold getVolumeWWN. destruct (parseCsiID _) as [[id|e]|]; [|apply total_ret|done]. apply total_bind; [apply Hc|]. intros [c|e]; [|apply total_ret].
    apply total_bind; [apply total_lift|]. intros [vol|e]; [|apply total_ret]. case_decide; apply total_ret. }
  intros [[[sym dev] wwn]|e]; [|apply total_ret]. apply total_bind; [|intros [path|e]; [repeat case_match|]; apply total_ret].
  unfold resolveDevicePath. apply total_bind; [apply total_lift|]. intros r.
  assert (total (mbnd (lift (GetSysBlockDevicesForVolumeWWN wwn)) (λ devices, match devices with
      | Err _ | Ok [] => fail (errorString ("PV not on this node (WWN: " ++ wwn ++ ")"))
      | Ok devices => selectBestDevice wwn devices m (default VolumeModeFilesystem (pvc_VolumeMode pvc)) end))) as Hfall.
  { apply total_bind; [apply total_lift|]. intros [[|d ds]|e]; try apply total_ret. apply total_bind; [apply Hfind|]. intros [p|]; [|case_decide]; apply total_ret. }
  destruct r as [[link path]|e]; [|done]. case_decide; [done|]. apply total_bind; [done|]. intros n. repeat case_match; done || apply total_ret.
Qed.

(** ** The cycle

    RunOnce spawns a goroutine per volume. [running] keeps a second cycle from starting; a
    job first waits for the semaphore, then tries the lock of its volume, works, and gives
    back first the lock and then the semaphore. *)
Inductive phase :=
| Waiting    (** at the semaphore *)
| Placed   (** has a place, before TryLock *)
| Working    (** has a place and the lock *)
| Worked     (** the work is done, both are still held *)
| Leaving    (** the lock was given back, or never taken *)
| Finished.
#[global] Instance phase_eq_dec : EqDecision phase.
Proof. solve_decision. Defined.
Record job := mkJob { job_vol : VolumeInfo; job_phase : phase }.

Record cycle := mkCycle {
  running : bool;
  todo : list PersistentVolume;
  deviceToMount : gmap string string;
  jobs : list job;
  semaphore : nat;
  volumeLocks : gset string;
  world : W;
}.

Definition has_place (p : phase) : bool := match p with Waiting | Finished => false | _ => true end.
Definition has_lock (p : phase) : bool := match p with Working | Worked => true | _ => false end.

(** A list of volumes the cluster answers with. *)
Variable ListPersistentVolumes : W → result error (list PersistentVolume) * W.

Definition set_job (c : cycle) (l1 l2 : list job) (j : job) (semaphore : nat) (locks : gset string) (w : W) : cycle :=
  mkCycle (running c) (todo c) (deviceToMount c) (l1 ++ j :: l2)%list semaphore locks w.

Inductive step : cycle → cycle → Prop :=
(** The compare-and-swap succeeds, and the volumes and mounts are listed. *)
| step_start c w1 pvs m w2 :
    running c = false → ListPersistentVolumes (world c) = (Ok pvs, w1) → buildDeviceToMountMap w1 = Some (Ok m, w2) →
    step c (mkCycle true pvs m [] (semaphore c) (volumeLocks c) w2)
| step_process c pv pvs r w' :
    running c = true → todo c = pv :: pvs → processVolume pv (deviceToMount c) (world c) = Some (r, w') →
    step c (mkCycle true pvs (deviceToMount c) (jobs c ++ match r with Ok (Some info) => [mkJob info Waiting] | _ => [] end)%list
              (semaphore c) (volumeLocks c) w')
| step_admit c l1 v l2 :
    jobs c = (l1 ++ mkJob v Waiting :: l2)%list → (semaphore c < semSize config)%nat →
    step c (set_job c l1 l2 (mkJob v Placed) (S (semaphore c)) (volumeLocks c) (world c))
(** The context of the cycle ends while the job waits. *)
| step_expire c l1 v l2 e w' :
    jobs c = (l1 ++ mkJob v Waiting :: l2)%list → ctx_Err (world c) = (Some e, w') →
    step c (set_job c l1 l2 (mkJob v Finished) (semaphore c) (volumeLocks c) w')
| step_lock c l1 v l2 :
    jobs c = (l1 ++ mkJob v Placed :: l2)%list → info_VolumeID v ∉ volumeLocks c →
    step c (set_job c l1 l2 (mkJob v Working) (semaphore c) ({[info_VolumeID v]} ∪ volumeLocks c) (world c))
| step_duplicate c l1 v l2 :
    jobs c = (l1 ++ mkJob v Placed :: l2)%list → info_VolumeID v ∈ volumeLocks c →
    step c (set_job c l1 l2 (mkJob v Leaving) (semaphore c) (volumeLocks c) (world c))
| step_work c l1 v l2 w' :
    jobs c = (l1 ++ mkJob v Working :: l2)%list → reclaim_body v (world c) = Some (tt, w') →
    step c (set_job c l1 l2 (mkJob v Worked) (semaphore c) (volumeLocks c) w')
| step_unlock c l1 v l2 :
    jobs c = (l1 ++ mkJob v Worked :: l2)%list →
    step c (set_job c l1 l2 (mkJob v Leaving) (semaphore c) (volumeLocks c ∖ {[info_VolumeID v]}) (world c))
| step_leave c l1 v l2 :
    jobs c = (l1 ++ mkJob v Leaving :: l2)%list →
    step c (set_job c l1 l2 (mkJob v Finished) (pred (semaphore c)) (volumeLocks c) (world c))
(** The wait group is empty, and the deferred store clears the flag. *)
| step_finish c :
    running c = true → todo c = [] → Forall (λ j, job_phase j = Finished) (jobs c) →
    step c (mkCycle false [] (deviceToMount c) [] (semaphore c) (volumeLocks c) (world c)).

(** Everything else may change the node and the cluster at any time. *)
Inductive disturb : cycle → cycle → Prop :=
| disturb_world c w' : disturb c (mkCycle (running c) (todo c) (deviceToMount c) (jobs c) (semaphore c) (volumeLocks c) w').

Definition start (w : W) : cycle := mkCycle false [] ∅ [] 0 ∅ w.
Definition reachable (c : cycle) : Prop := ∃ w, rtc (λ c c', step c c' ∨ disturb c c') (start w) c.

(** *** The invariant *)
Definition places (l : list job) : nat := List.length (List.filter (λ j, has_place (job_phase j)) l).
Definition locked (l : list job) : list string := (λ j, info_VolumeID (job_vol j)) <$> List.filter (λ j, has_lock (job_phase j)) l.

(** The cluster has listed the persistent volume. *)
Definition was_listed (pv : PersistentVolume) : Prop := ∃ pvs w w', ListPersistentVolumes w = (Ok pvs, w') ∧ pv ∈ pvs.

Record cycle_inv (c : cycle) : Prop := {
  inv_places : semaphore c = places (jobs c) ∧ (semaphore c <= semSize config)%nat;
  inv_locks : NoDup (locked (jobs c)) ∧ volumeLocks c = list_to_set (locked (jobs c));
  inv_idle : running c = false → jobs c = [];
  inv_own : ∀ j, j ∈ jobs c → ∃ pv, was_listed pv ∧ own pv (deviceToMount c) (job_vol j);
  inv_todo : ∀ pv, pv ∈ todo c → was_listed pv;
}.

Lemma places_app l1 l2 : places (l1 ++ l2)%list = (places l1 + places l2)%nat.
Proof. unfold places. by rewrite List.filter_app, length_app. Qed.
Lemma locked_app l1 l2 : locked (l1 ++ l2)%list = (locked l1 ++ locked l2)%list.
Proof. unfold locked. by rewrite List.filter_app, fmap_app. Qed.
Lemma places_cons j l : places (j :: l) = ((if has_place (job_phase j) then 1 else 0) + places l)%nat.
Proof. unfold places. simpl. by destruct (has_place _). Qed.
Lemma locked_cons j l : locked (j :: l) = ((if has_lock (job_phase j) then [info_VolumeID (job_vol j)] else []) ++ locked l)%list.
Proof. unfold locked. simpl. by destruct (has_lock _). Qed.

(** A job goes from one phase to another: what is to be shown of the semaphore and the locks. *)
Lemma set_job_inv c l1 l2 v p q n locks w :
  cycle_inv c → jobs c = (l1 ++ mkJob v p :: l2)%list →
  (n + (if has_place p then 1 else 0) = semaphore c + (if has_place q then 1 else 0))%nat → (n <= semSize config)%nat →
  (NoDup (locked l1 ++ (if has_lock p then [info_VolumeID v] else []) ++ locked l2)%list →
   volumeLocks c = list_to_set (locked l1 ++ (if has_lock p then [info_VolumeID v] else []) ++ locked l2)%list →
   NoDup (locked l1 ++ (if has_lock q then [info_VolumeID v] else []) ++ locked l2)%list
   ∧ locks = list_to_set (locked l1 ++ (if has_lock q then [info_VolumeID v] else []) ++ locked l2)%list) →
  cycle_inv (set_job c l1 l2 (mkJob v q) n locks w).
Proof.
  intros [[Hp Hs] [Hn Hl] Hi Ho Ht] Hj Hcount Hbound Hlocks. rewrite Hj in *.
  rewrite places_app, places_cons in Hp. rewrite locked_app, locked_cons in Hn, Hl. simpl in *.
  split; simpl.
  - rewrite places_app, places_cons. simpl. split; [|done]. destruct (has_place p), (has_place q); lia.
  - rewrite locked_app, locked_cons. simpl. by apply Hlocks.
  - intros Hr. specialize (Hi Hr). by destruct l1.
  - intros j Hin. apply elem_of_app in Hin as [Hin|Hin]; [apply Ho, elem_of_app; by left|].
    apply elem_of_cons in Hin as [->|Hin]; [|apply Ho, elem_of_app; right; by right].
    apply (Ho (mkJob v p)), elem_of_app. right. by left.
  - done.
Qed.

Lemma step_keeps_inv c c' : cycle_inv c → step c c' → cycle_inv c'.
Proof.
  intros Hinv Hstep. pose proof Hinv as [[Hp Hs] [Hn Hl] Hi Ho Ht]. destruct Hstep.
  - rewrite Hi in * by done. split; simpl; [done..|by intros j ?%not_elem_of_nil|]. intros pv Hpv. by exists pvs, (world c), w1.
  - split; simpl.
    + rewrite places_app. split; [|done]. rewrite Hp. destruct r as [[info|]|]; unfold places at 3; simpl; lia.
    + rewrite locked_app. assert (locked (match r with Ok (Some info) => [mkJob info Waiting] | _ => [] end) = []) as -> by by destruct r as [[info|]|].
      by rewrite app_nil_r.
    + done.
    + intros j Hin. apply elem_of_app in Hin as [|Hin]; [by apply Ho|]. destruct r as [[info|]|]; try by apply not_elem_of_nil in Hin.
      apply list_elem_of_singleton in Hin as ->. exists pv. split; [|by eapply process_own]. apply Ht. rewrite H3. by left.
    + intros pv' Hpv. apply Ht. rewrite H3. by right.
  - eapply set_job_inv; [done..|simpl; lia|lia|done].
  - eapply set_job_inv; [done..|simpl; lia|lia|done].
  - eapply set_job_inv; [done..|simpl; lia|lia|]. simpl. intros Hnd Hlocks. split.
    + apply NoDup_app in Hnd as (? & Hd & ?). apply NoDup_app. split_and!; [done| |].
      * intros x Hx [->|Hx']%elem_of_cons; [|by eapply Hd]. apply H3. rewrite Hlocks. set_solver.
      * apply NoDup_cons. split; [|done]. intros Hx. apply H3. rewrite Hlocks. set_solver.
    + rewrite Hlocks. set_solver.
  - eapply set_job_inv; [done..|simpl; lia|lia|done].
  - eapply set_job_inv; [done..|simpl; lia|lia|done].
  - eapply set_job_inv; [done..|simpl; lia|lia|]. simpl. intros Hnd Hlocks. apply NoDup_app in Hnd as (Hn1 & Hd & Hn2).
    apply NoDup_cons in Hn2 as [Hv Hn2]. split.
    + apply NoDup_app. split_and!; [done| |done]. intros x Hx Hx'. eapply Hd; [done|]. by right.
    + rewrite Hlocks. assert (info_VolumeID v ∉ locked l1) as Hv1 by (intros Hx; eapply Hd; [done|]; by left). set_solver.
  - eapply set_job_inv; [done..| |lia|done]. simpl. assert (0 < semaphore c)%nat; [|lia].
    rewrite Hp, H2, places_app, places_cons. simpl. lia.
  - assert (places (jobs c) = 0%nat ∧ locked (jobs c) = []) as [Hp0 Hl0].
    { clear -H4. induction H4 as [|j l Hj _ [IH1 IH2]]; [done|]. rewrite places_cons, locked_cons, Hj. by rewrite IH1, IH2. }
    split; simpl; [split; [by rewrite Hp, Hp0|done]|split; [constructor|by rewrite Hl, Hl0]|done| |]; by intros j ?%not_elem_of_nil.
Qed.

Lemma reachable_cycle_inv c : reachable c → cycle_inv c.
Proof.
  intros [w Hr]. apply (rtc_ind_r cycle_inv (start w)) in Hr; [done| |].
  - split; simpl; [split; [done|lia]|split; [constructor|done]|done| |]; by intros j ?%not_elem_of_nil.
  - intros c1 c2 _ [Hs|Hd] Hi; [by eapply step_keeps_inv|]. destruct Hd. destruct Hi. by split.
Qed.

(** C38: at every reachable point of the cycles of a node no more volumes are worked on than the
    semaphore allows, no volume by two jobs at once, and every job is for a persistent volume that the
    cluster has listed and that may be reclaimed: bound, of this driver, no NFS volume, without the access mode
    ReadWriteMany, with a claim that allows it, on a device that has the WWN of the volume on its array, trimmed where
    it is mounted. Between two cycles no place and no lock is left taken. *)
Theorem reclaim_safe c :
  reachable c →
  (places (jobs c) <= semSize config)%nat ∧ NoDup (locked (jobs c)) ∧ (∀ j, j ∈ jobs c → ∃ pv, was_listed pv ∧ own pv (deviceToMount c) (job_vol j))
  ∧ (running c = false → jobs c = [] ∧ semaphore c = 0%nat ∧ volumeLocks c = ∅).
Proof.
  intros [[Hp Hs] [Hn Hl] Hi Ho Ht]%reachable_cycle_inv. split_and!; [lia|done|done|].
  intros Hr. specialize (Hi Hr). rewrite Hi in *. done.
Qed.

(** *** The end of a cycle *)
Definition weight (p : phase) : nat := match p with Waiting => 5 | Placed => 4 | Working => 3 | Worked => 2 | Leaving => 1 | Finished => 0 end.
Definition weights (l : list job) : nat := sum_list ((λ j, weight (job_phase j)) <$> l).
Definition steps_left (c : cycle) : nat := ((if running c then 1 else 0) + 6 * List.length (todo c) + weights (jobs c))%nat.

Lemma weights_cons j l : weights (j :: l) = (weight (job_phase j) + weights l)%nat.
Proof. done. Qed.
Lemma weights_app l1 l2 : weights (l1 ++ l2)%list = (weights l1 + weights l2)%nat.
Proof. induction l1 as [|j l1 IH]; [done|]. rewrite <- app_comm_cons, !weights_cons, IH. lia. Qed.

Lemma step_decreases c c' : running c = true → step c c' → (steps_left c' < steps_left c)%nat ∧ todo c' ⊆ todo c.
Proof.
  intros Hr Hstep. unfold steps_left. destruct Hstep; simpl;
    repeat match goal with Hj : jobs c = _ |- _ => rewrite Hj; clear Hj end;
    rewrite ?weights_app, ?weights_cons; simpl; try (split; [lia|done]).
  - congruence.
  - rewrite Hr. match goal with Ht : todo c = _ |- _ => rewrite Ht end. simpl. split; [|set_solver].
    destruct r as [[info|]|]; unfold weights at 2; simpl; lia.
  - rewrite Hr. split; [unfold weights at 1; simpl; lia|set_solver].
Qed.

Lemma semSize_pos : (0 < semSize config)%nat.
Proof. unfold semSize. destruct (Z.leb_spec (MaxConcurrentVolumes config) 0); lia. Qed.

(** While a cycle runs, something can be done, unless a volume makes the driver panic. *)
Lemma cycle_progress c :
  cycle_inv c → running c = true → (∀ pv w, pv ∈ todo c → is_Some (processVolume pv (deviceToMount c) w)) → ∃ c', step c c'.
Proof.
  intros [[Hp _] [_ Hl] _ _] Hr Hpanic. destruct (todo c) as [|pv pvs] eqn:Ht; cycle 1.
  { destruct (Hpanic pv (world c)) as [[r w'] E]; [by left|]. eexists. by eapply step_process. }
  destruct (decide (Forall (λ j, job_phase j = Finished) (jobs c))) as [Hf|Hf]; [eexists; by apply step_finish|].
  apply not_Forall_Exists in Hf; [|intros j; apply _]. apply Exists_exists in Hf as ([v0 ph0] & Hin0 & Hph0). cbv beta in Hph0. simpl in Hph0.
  destruct (decide (Forall (λ j, has_place (job_phase j) = false) (jobs c))) as [Hw|Hw].
  - assert (places (jobs c) = 0%nat) as Hp0 by (clear -Hw; induction Hw as [|j l Hj _ IH]; [done|]; by rewrite places_cons, Hj, IH).
    rewrite Forall_forall in Hw. specialize (Hw _ Hin0). apply list_elem_of_split in Hin0 as (l1 & l2 & Hj). simpl in Hw.
    destruct ph0; try done. eexists. eapply step_admit; [done|]. rewrite Hp, Hp0. apply semSize_pos.
  - apply not_Forall_Exists in Hw; [|intros j; apply _]. apply Exists_exists in Hw as ([v ph] & Hin & Hph). cbv beta in Hph. simpl in Hph.
    apply list_elem_of_split in Hin as (l1 & l2 & Hj). destruct ph; try done.
    + destruct (decide (info_VolumeID v ∈ volumeLocks c)); eexists; [by eapply step_duplicate|by eapply step_lock].
    + destruct (reclaim_body_total v (world c)) as [[[] w'] E]. eexists. by eapply step_work.
    + eexists. by eapply step_unlock.
    + eexists. by eapply step_leave.
Qed.

(** C39: a cycle ends. However its jobs and the rest of the system interleave, a running cycle
    takes at most [steps_left] steps; and unless the id of a volume makes the driver panic it
    can always go on to its end, with every place and lock given back and the next cycle
    admitted. *)
Theorem reclaim_cycle_ends c :
  reachable c → running c = true → (∀ a b, total (GetPowerMaxClient a b)) →
  (∀ n c', nsteps (λ a b, ∃ a', rtc disturb a a' ∧ running a = true ∧ step a' b) n c c' → (n <= steps_left c)%nat)
  ∧ ((∀ pv csi, pv ∈ todo c → pv_CSI pv = Some csi → parseCsiID (VolumeHandle csi) ≠ None) →
     ∃ c', rtc step c c' ∧ running c' = false ∧ jobs c' = [] ∧ semaphore c' = 0%nat ∧ volumeLocks c' = ∅).
Proof.
  intros Hreach Hr Hclient. split.
  - intros n c' Hn. clear Hreach. assert (∀ a a', rtc disturb a a' → steps_left a' = steps_left a ∧ running a' = running a) as Hd.
    { intros a a' Hda. induction Hda as [|x y z Hxy _ [-> ->]]; [done|]. by destruct Hxy. }
    clear Hr. induction Hn as [|n a b z (a' & Hda & Hra & Hs) _ IH]; [lia|]. destruct (Hd _ _ Hda) as [<- Hra'].
    destruct (step_decreases a' b) as [? _]; [congruence|done|lia].
  - pose proof (reachable_cycle_inv c Hreach) as Hinv. clear Hreach. revert c Hinv Hr.
    apply (well_founded_induction (wf_projected lt steps_left (λ a b H, H) lt_wf) (λ c, cycle_inv c → running c = true →
      (∀ pv csi, pv ∈ todo c → pv_CSI pv = Some csi → parseCsiID (VolumeHandle csi) ≠ None) → ∃ c', rtc step c c' ∧ running c' = false ∧ jobs c' = [] ∧ semaphore c' = 0%nat ∧ volumeLocks c' = ∅)).
    intros c IH Hinv Hr Hp. destruct (cycle_progress c Hinv Hr) as [c1 Hs]; [intros pv w Hin; apply processVolume_total; eauto|].
    destruct (step_decreases c c1 Hr Hs) as [Hlt Hsub]. pose proof (step_keeps_inv c c1 Hinv Hs) as Hinv1.
    destruct (running c1) eqn:Hr1.
    + destruct (IH c1 Hlt Hinv1 Hr1) as (c' & Hrtc & Hend); [intros pv csi Hin; apply Hp; set_solver|].
      exists c'. split; [by eapply rtc_l|done].
    + exists c1. split; [by apply rtc_once|]. destruct Hinv1 as [[Hpl _] [_ Hlo] Hidle _]. specialize (Hidle Hr1). by rewrite Hidle in *.
Qed.
End calls.

(** ** Examples *)
Module Node.
Import SimArray.

Definition claim (labels : gmap string string) : PersistentVolumeClaim := mkPVC "7" labels None {["other" := "x"]}.

(** The device of the volume is a multipath device under both its names. *)
#[export] Instance node_os : NodeOS Sim := {
  GetMounts w := (Ok [mkMount "/dev/sda" "/"; mkMount "/dev/mapper/mpatha" "/var/lib/kubelet/pods/1/mount";
                      mkMount "/dev/mapper/mpatha" "/var/lib/kubelet/plugins/powermax.emc.dell.com/disks/v1"], w);
  WWNToDevicePathX wwn w := (Ok ("/dev/disk/by-id/" ++ wwn, if decide (wwn = "WWN1") then "/dev/dm-1" else "/dev/mapper/mpatha"), w);
  GetSysBlockDevicesForVolumeWWN _ w := (Ok ["sdb"; "sdc"], w);
  EvalSymlinks p _ := if decide (p = "/dev/mapper/mpatha") then Some "/dev/dm-1" else None;
  CheckDiscardSupport _ w := (Ok (true, ""), w);
  Fstrim path w := (Ok (Some 4096), log ("fstrim " ++ path) w);
  Blkdiscard path w := (Ok (Some 0), log ("blkdiscard " ++ path) w);
  time_Now w := (sim_time w, w);
  ctx_Err w := (None, w);
}.
#[export] Instance node_claims : Claims Sim := {
  GetPVC _ _ w := (Ok (claim {[LabelEnabled := "True"]}), w);
  UpdatePVC _ _ pvc w := (None, log ("status " ++ default "" (pvc_Annotations pvc !! AnnotationStatus)) w);
  Event _ reason _ w := (tt, log reason w);
  FormatTime := Itoa;
  FormatSeconds := Itoa;
  FormatDuration := Itoa;
}.

Definition client : string → string → M Sim (result error string) := λ _ _, ret (Ok "c").
Definition config0 : SpaceReclamationConfig := ReadSpaceReclamationConfig (λ _, "").
Definition pv (dev : string) : PersistentVolume :=
  mkPV "pv" (Some (mkCSISource Name "ext4" ("csi-ABC-pvc1-000120000548-" ++ dev))) "Bound" ["ReadWriteOnce"] (Some ("ns", "pvc")).
Definition vol (dev wwn : string) : Volume := mkVolume dev ("csi-ABC-" ++ dev) [] false false wwn 0 547 [] Ordering.fzero.
Definition node0 : Sim := sim [vol "00001" "WWN1"; vol "00002" "WWN2"] (mkStorageGroupRDFG [] []).
Definition listed : Sim → result error (list PersistentVolume) * Sim := λ w, (Ok [pv "00001"], w).
Definition mounts0 : gmap string string := {["/dev/dm-1" := "/var/lib/kubelet/plugins/powermax.emc.dell.com/disks/v1"]}.
Definition info0 : VolumeInfo :=
  mkVolumeInfo "csi-ABC-pvc1-000120000548-00001" "/var/lib/kubelet/plugins/powermax.emc.dell.com/disks/v1" "/dev/dm-1" "Filesystem" "pvc" "ns"
    (claim {[LabelEnabled := "True"]}).
Definition state (todo : list PersistentVolume) (jobs : list job) (places : nat) (locks : gset string) : cycle :=
  mkCycle true todo mounts0 jobs places locks node0.
End Node.
Import SimArray Node.

(** The same volume through a path that is a link: the mount is found when the device is chosen
    and is not found when the path is looked up again. *)
Example linked_device_not_reclaimed :
  processVolume client config0 (pv "00001") mounts0 node0 = Some (Ok (Some info0), node0)
  ∧ processVolume client config0 (pv "00002") mounts0 node0
    = Some (Err (errorString "filesystem mode but no mount found for device /dev/mapper/mpatha"), node0).
Proof. by vm_compute. Qed.

(** A volume is trimmed at its private mount and its claim says so. *)
Example reclaims_volume :
  (λ r, sim_log r.2) <$> reclaim_body config0 info0 node0
  = Some ["fstrim /var/lib/kubelet/plugins/powermax.emc.dell.com/disks/v1"; "status success"; "SpaceReclamationCompleted"].
Proof. by vm_compute. Qed.

Lemma node_started : reachable (C := string) client config0 listed (state [pv "00001"] [] 0 ∅).
Proof.
  exists node0. apply rtc_once. left. eapply (step_start _ _ _ (start node0)); [done|done|]. by vm_compute.
Defined.

Lemma reclaim_safe_witness :
  let c := state [] [mkJob info0 Working] 1 ({["csi-ABC-pvc1-000120000548-00001"]} ∪ ∅) in
  places (jobs c) = 1%nat ∧ (places (jobs c) <= 2)%nat ∧ ∃ pv, was_listed listed pv ∧ own (C := string) config0 pv mounts0 info0.
Proof.
  intros c. split; [reflexivity|].
  assert (reachable (C := string) client config0 listed c) as Hr.
  { destruct node_started as [w Hw]. exists w. etrans; [exact Hw|].
    apply (rtc_l _ _ (state [] [mkJob info0 Waiting] 0 ∅)).
    { left. apply (step_process client config0 listed (state [pv "00001"] [] 0 ∅) (pv "00001") [] (Ok (Some info0)) node0); [done|done|by vm_compute]. }
    apply (rtc_l _ _ (state [] [mkJob info0 Placed] 1 ∅)).
    { left. apply (step_admit client config0 listed (state [] [mkJob info0 Waiting] 0 ∅) [] info0 []); [done|apply Nat.ltb_lt; by vm_compute]. }
    apply rtc_once. left. apply (step_lock client config0 listed (state [] [mkJob info0 Placed] 1 ∅) [] info0 []); [done|]. simpl. set_solver. }
  destruct (reclaim_safe client config0 listed c Hr) as (H1 & H2 & H3 & H4). split; [exact H1|].
  apply (H3 (mkJob info0 Working)). by left.
Defined.

Lemma reclaim_cycle_ends_witness :
  ∃ c', rtc (step (C := string) client config0 listed) (state [pv "00001"] [] 0 ∅) c' ∧ running c' = false ∧ volumeLocks c' = ∅.
Proof.
  destruct (reclaim_cycle_ends client config0 listed _ node_started eq_refl) as [_ He]; [by intros a b w; eexists|].
  destruct He as (c' & H1 & H2 & H3 & H4 & H5).
  - intros p csi Hin Hc. apply list_elem_of_singleton in Hin as ->. injection Hc as <-. by vm_compute.
  - exists c'. split; [exact H1|]. split; [exact H2|exact H5].
Defined.
End Reclaim.
