(* ===== verification/ProxyConf.v ===== *)
(** * Configuration of the reverse proxy

    Models csireverseproxy/pkg/config/config.go: the configuration built from the
    config map or from the secret, the users it authorizes for arrays, the servers of
    an array, and the changes secrets make to it. Reading and decoding files (package
    viper) is left out. Two texts that parse to the same URL are the same endpoint;
    the order in which Go reads a map is arbitrary. *)

From stdpp Require Import base gmap strings list.
From Stdlib Require Import ZArith Lia Ascii.
From S2P Require Import Prelude GoLib ProxyLocks.

Module Conf.
Import ProxyLocks(Limits).
Open Scope string_scope.
Open Scope Z_scope.

(** Package net/url: parsed URLs are keys of maps. *)
Class NetURL := {
  URL : Type;
  URL_eq_dec :: EqDecision URL;
  URL_countable :: Countable URL;
  noURL : URL;
  Parse : string → result error URL;
  Scheme : URL → string;
  URL_String : URL → string;
}.

Record Credentials := mkCredentials { UserName : string; Password : string }.
#[global] Instance Credentials_eq_dec : EqDecision Credentials.
Proof. solve_decision. Defined.

(** ** Secrets of the cluster (k8sutils.go) *)
Record Secret := mkSecret { secret_Name : string; Data : gmap string string }.

(** The Kubernetes client, the directory of the certificates, the clock at each certificate file
    made, and writing a file. *)
Class K8sClient := {
  GetSecret : string → result error Secret;
  CertDirectory : string;
  TimeNowFunc : nat → Z;
  createFile : string → string → option error;
}.

Section k8s.
Context `{K8sClient}.
Definition getCertFileFromSecret (n : nat) (certSecret : Secret) : result error string :=
  let certFile := CertDirectory ++ "/" ++ secret_Name certSecret ++ "-proxy-" ++ Itoa (TimeNowFunc n) ++ ".pem" in
  match createFile certFile (default "" (Data certSecret !! "cert")) with
  | Some e => Err e
  | None => Ok certFile
  end.
Definition GetCertFileFromSecretName (n : nat) (secretName : string) : result error string :=
  match GetSecret secretName with
  | Err e => Err e
  | Ok certSecret => getCertFileFromSecret n certSecret
  end.
Definition getCredentialFromSecret (secret : Secret) : result error Credentials :=
  match Data secret !! "username" with
  | Some username => Ok (mkCredentials username (default "" (Data secret !! "password")))
  | None => Err (errorString "username not found in secret data")
  end.
Definition GetCredentialsFromSecretName (secretName : string) : result error Credentials :=
  match GetSecret secretName with
  | Err e => Err e
  | Ok secret => getCredentialFromSecret secret
  end.
End k8s.

(** ** Data *)
Record StorageArrayConfig := mkArrayConfig {
  StorageArrayID : string;
  cfg_PrimaryEndpoint : string;
  cfg_BackupEndpoint : string;
  cfg_ProxyCredentialSecrets : list string;
  cfg_Labels : option (gmap string string);
  cfg_Parameters : option (gmap string string);
}.
Record ManagementServerConfig := mkServerConfig {
  cfg_Endpoint : string;
  ArrayCredentialSecret : string;
  cfg_SkipCertificateValidation : bool;
  cfg_CertSecret : string;
  cfg_Limits : Limits;
  cfg_Username : string;
  cfg_Password : string;
}.
Record ProxyConfigMap := mkConfigMap { cm_Port : string; cm_Config : option (list StorageArrayConfig * list ManagementServerConfig) }.
Record ProxySecret := mkProxySecret { ps_Arrays : list StorageArrayConfig; ps_Servers : list ManagementServerConfig }.

Record ProxyCredentialSecret := mkProxyCredentialSecret { pcs_Credentials : Credentials; pcs_CredentialSecret : string }.
#[global] Instance ProxyCredentialSecret_eq_dec : EqDecision ProxyCredentialSecret.
Proof. solve_decision. Defined.
Definition noSecret : ProxyCredentialSecret := mkProxyCredentialSecret (mkCredentials "" "") "".

Record ProxyUser := mkProxyUser { user_Arrays : list string; ProxyCredential : Credentials }.
#[global] Instance ProxyUser_eq_dec : EqDecision ProxyUser.
Proof. solve_decision. Defined.

#[global] Instance Limits_eq_dec : EqDecision Limits.
Proof. solve_decision. Defined.

Section config.
Context `{NetURL}.

(** [None] is a nil map or slice. *)
Record StorageArray := mkStorageArray {
  StorageArrayIdentifier : string;
  PrimaryEndpoint : URL;
  SecondaryEndpoint : URL;
  ProxyCredentialSecrets : option (gmap string ProxyCredentialSecret);
  Labels : option (gmap string string);
  Parameters : option (gmap string string);
}.
#[global] Instance StorageArray_eq_dec : EqDecision StorageArray.
Proof. solve_decision. Defined.

Record ManagementServer := mkServer {
  Endpoint : URL;
  StorageArrayIdentifiers : option (list string);
  server_Credentials : Credentials;
  CredentialSecret : string;
  SkipCertificateValidation : bool;
  CertFile : string;
  CertSecret : string;
  server_Limits : Limits;
  Username : string;
  server_Password : string;
}.
#[global] Instance ManagementServer_eq_dec : EqDecision ManagementServer.
Proof. solve_decision. Defined.

Record ProxyConfig := mkProxyConfig {
  Port : string;
  managedArrays : gmap string StorageArray;
  managementServers : gmap URL ManagementServer;
  proxyCredentials : gmap string ProxyUser;
}.
#[global] Instance ProxyConfig_eq_dec : EqDecision ProxyConfig.
Proof. solve_decision. Defined.

(** Reading a nil map finds nothing. *)
Definition secrets_of (array : StorageArray) : gmap string ProxyCredentialSecret := default ∅ (ProxyCredentialSecrets array).

Definition noServer : ManagementServer := mkServer noURL None (mkCredentials "" "") "" false "" "" (ProxyLocks.mkLimits 0 0 0 0) "" "".

Record StorageArrayServer := mkArrayServer {
  Array : StorageArray;
  PrimaryServer : ManagementServer;
  BackupServer : option ManagementServer;
}.

(** ** Users *)
Definition AppendIfMissingStringSlice (slice : list string) (str : string) : list string :=
  if bool_decide (str ∈ slice) then slice else (slice ++ [str])%list.

(** A user keeps the password it was first seen with; an array that names it with another one is not added. *)
Definition updateProxyCredentials (creds : Credentials) (storageArrayIdentifier : string) (users : gmap string ProxyUser) : gmap string ProxyUser :=
  match users !! UserName creds with
  | Some proxyUser =>
      if bool_decide (Password creds = Password (ProxyCredential proxyUser))
      then <[UserName creds := mkProxyUser (AppendIfMissingStringSlice (user_Arrays proxyUser) storageArrayIdentifier) (ProxyCredential proxyUser)]> users
      else users
  | None => <[UserName creds := mkProxyUser [storageArrayIdentifier] creds]> users
  end.
Definition updateProxyCredentialsFromSecret (username password storageArrayIdentifier : string) (users : gmap string ProxyUser) : gmap string ProxyUser :=
  updateProxyCredentials (mkCredentials username password) storageArrayIdentifier users.

Inductive auth_error := IncorrectPassword | UnauthorizedForArray | UnknownCredentials.
Definition IsUserAuthorized (username password storageArrayID : string) (pc : ProxyConfig) : result auth_error unit :=
  match proxyCredentials pc !! username with
  | Some creds =>
      if bool_decide (storageArrayID ∈ user_Arrays creds) then
        if bool_decide (Password (ProxyCredential creds) = password) then Ok tt else Err IncorrectPassword
      else Err UnauthorizedForArray
  | None => Err UnknownCredentials
  end.

(** Both comparisons of every server are made. *)
Definition IsCredentialValidForAnyServer (username password : string) (pc : ProxyConfig) : bool :=
  if decide (username = "" ∨ password = "") then false
  else existsb (λ kv, let server := kv.2 in negb (bool_decide (Username server = "" ∨ server_Password server = ""))
                 && bool_decide (Username server = username ∧ server_Password server = password)) (map_to_list (managementServers pc)).

Context `{MapOrder}.

Definition GetStorageArray (storageArrayID : string) (pc : ProxyConfig) : list StorageArray :=
  if decide (storageArrayID ≠ "") then option_list (managedArrays pc !! storageArrayID)
  else (range (managedArrays pc)).*2.

(** An array is listed once for every management server it is checked against. *)
Definition GetAuthorizedArrays (useSecret : bool) (username password : string) (pc : ProxyConfig) : list string :=
  '(_, array) ← range (managedArrays pc);
  '(_, server) ← range (managementServers pc);
  let r := if useSecret then IsUserAuthorized (Username server) (server_Password server) (StorageArrayIdentifier array) pc
           else IsUserAuthorized username password (StorageArrayIdentifier array) pc in
  if is_ok r then [StorageArrayIdentifier array] else [].

Definition GetManagementServerCredentials (useSecret : bool) (mgmtEndpoint : URL) (pc : ProxyConfig) : result error Credentials :=
  match managementServers pc !! mgmtEndpoint with
  | Some server => Ok (if useSecret then mkCredentials (Username server) (server_Password server) else server_Credentials server)
  | None => Err (errorString "endpoint not configured")
  end.

(** ** The servers of an array *)
Definition GetManagementServers (pc : ProxyConfig) : list ManagementServer := (range (managementServers pc)).*2.
Definition GetManagementServer (url : URL) (pc : ProxyConfig) : option ManagementServer := managementServers pc !! url.

(** One array of one server; [None] is a nil pointer, of an array that is not managed. *)
Definition place_server (pc : ProxyConfig) (server : ManagementServer) (arrayID : string) (arrayServers : gmap string StorageArrayServer)
    : option (gmap string StorageArrayServer) :=
  arrayServer ← match arrayServers !! arrayID with
                | Some s => Some s
                | None => (λ array, mkArrayServer array noServer None) <$> managedArrays pc !! arrayID
                end;
  let arrayServer :=
    if decide (Endpoint server = PrimaryEndpoint (Array arrayServer)) then mkArrayServer (Array arrayServer) server (BackupServer arrayServer)
    else if decide (Endpoint server = SecondaryEndpoint (Array arrayServer)) then mkArrayServer (Array arrayServer) (PrimaryServer arrayServer) (Some server)
    else arrayServer in
  Some (<[arrayID := arrayServer]> arrayServers).
Fixpoint place_all (pc : ProxyConfig) (work : list (ManagementServer * string)) (arrayServers : gmap string StorageArrayServer)
    : option (gmap string StorageArrayServer) :=
  match work with
  | [] => Some arrayServers
  | (server, arrayID) :: work => place_server pc server arrayID arrayServers ≫= place_all pc work
  end.
Definition server_arrays (pc : ProxyConfig) : list (ManagementServer * string) :=
  '(_, server) ← range (managementServers pc); arrayID ← default [] (StorageArrayIdentifiers server); [(server, arrayID)].
Definition GetManagedArraysAndServers (pc : ProxyConfig) : option (gmap string StorageArrayServer) := place_all pc (server_arrays pc) ∅.

(** ** Building a configuration *)
Context `{K8sClient}.

(** utils.go *)
Definition SanitizeURLPath (path : string) : string := TrimRight "/" (TrimSpace path).

Definition validateStorageArrayConfig (array : StorageArrayConfig) (ipAddresses : list string) : result error StorageArray :=
  let id := StorageArrayID array in
  if decide (cfg_PrimaryEndpoint array = "") then Err (errorString ("primary endpoint not configured for array: " ++ id))
  else if bool_decide (cfg_PrimaryEndpoint array ∈ ipAddresses) then
    match Parse (cfg_PrimaryEndpoint array) with
    | Err e => Err (errorString ("invalid primary endpoint for array " ++ id ++ ": " ++ Error e))
    | Ok primaryURL =>
        match (if decide (cfg_BackupEndpoint array ≠ "") then Parse (cfg_BackupEndpoint array) else Ok noURL) with
        | Err e => Err (errorString ("invalid backup endpoint for array " ++ id ++ ": " ++ Error e))
        | Ok backupURL => Ok (mkStorageArray id primaryURL backupURL None None None)
        end
    end
  else Err (errorString ("primary endpoint: " ++ cfg_PrimaryEndpoint array ++ " for array: " ++ id ++ " not present among management server addresses")).

Fixpoint read_secrets (id : string) (secrets : list string) (m : gmap string ProxyCredentialSecret) : result error (gmap string ProxyCredentialSecret) :=
  match secrets with
  | [] => Ok m
  | secret :: secrets =>
      match GetCredentialsFromSecretName secret with
      | Err e => Err (errorString ("failed to read credential secret " ++ secret ++ " for array " ++ id ++ ": " ++ Error e))
      | Ok creds => read_secrets id secrets (<[secret := mkProxyCredentialSecret creds secret]> m)
      end
  end.
Definition buildStorageArray (array : StorageArrayConfig) (ipAddresses : list string) : result error StorageArray :=
  match validateStorageArrayConfig array ipAddresses with
  | Err e => Err e
  | Ok sa =>
      if decide (cfg_ProxyCredentialSecrets array = []) then Ok sa
      else match read_secrets (StorageArrayID array) (cfg_ProxyCredentialSecrets array) ∅ with
           | Err e => Err e
           | Ok m => Ok (mkStorageArray (StorageArrayIdentifier sa) (PrimaryEndpoint sa) (SecondaryEndpoint sa) (Some m) (Labels sa) (Parameters sa))
           end
  end.

(** What the loop over the arrays has collected. *)
Record collected := mkCollected {
  col_Arrays : gmap string StorageArray;
  col_Identifiers : gmap URL (list string);
  col_Users : gmap string ProxyUser;
}.
Definition identify (sa : StorageArray) (id : string) (ids : gmap URL (list string)) : gmap URL (list string) :=
  let add url m := <[url := (default [] (m !! url) ++ [id])%list]> m in
  add (SecondaryEndpoint sa) (add (PrimaryEndpoint sa) ids).

(** An array that is not valid is skipped. *)
Definition collect (ipAddresses : list string) (c : collected) (array : StorageArrayConfig) : collected :=
  match buildStorageArray array ipAddresses with
  | Err _ => c
  | Ok sa =>
      let id := StorageArrayID array in
      mkCollected (<[id := sa]> (col_Arrays c)) (identify sa id (col_Identifiers c))
        (fold_left (λ users kv, updateProxyCredentials (pcs_Credentials kv.2) id users) (range (secrets_of sa)) (col_Users c))
  end.

Definition cert_file (n : nat) (s : ManagementServerConfig) : result error string :=
  if bool_decide (cfg_CertSecret s ≠ "") && negb (cfg_SkipCertificateValidation s) then GetCertFileFromSecretName n (cfg_CertSecret s) else Ok "".

Definition server_of (useCredentials : bool) (ids : gmap URL (list string)) (n : nat) (s : ManagementServerConfig) : result error ManagementServer :=
  match (if useCredentials && bool_decide (ArrayCredentialSecret s ≠ "") then GetCredentialsFromSecretName (ArrayCredentialSecret s) else Ok (mkCredentials "" "")) with
  | Err e => Err e
  | Ok creds =>
      match Parse (cfg_Endpoint s) with
      | Err e => Err e
      | Ok url =>
          match cert_file n s with
          | Err e => Err e
          | Ok certFile =>
              let own text := if useCredentials then "" else text in
              Ok (mkServer url (ids !! url) creds (ArrayCredentialSecret s) (cfg_SkipCertificateValidation s) certFile
                    (cfg_CertSecret s) (cfg_Limits s) (own (cfg_Username s)) (own (cfg_Password s)))
          end
      end
  end.
Fixpoint add_servers (useCredentials : bool) (ids : gmap URL (list string)) (n : nat) (servers : list ManagementServerConfig) (m : gmap URL ManagementServer)
    : result error (gmap URL ManagementServer) :=
  match servers with
  | [] => Ok m
  | s :: servers =>
      match server_of useCredentials ids n s with
      | Err e => Err e
      | Ok server => add_servers useCredentials ids (S n) servers (<[Endpoint server := server]> m)
      end
  end.

Definition sanitize_array (a : StorageArrayConfig) : StorageArrayConfig :=
  mkArrayConfig (StorageArrayID a) (SanitizeURLPath (cfg_PrimaryEndpoint a)) (SanitizeURLPath (cfg_BackupEndpoint a)) (cfg_ProxyCredentialSecrets a)
    (cfg_Labels a) (cfg_Parameters a).
Definition sanitize_server (s : ManagementServerConfig) : ManagementServerConfig :=
  mkServerConfig (SanitizeURLPath (cfg_Endpoint s)) (ArrayCredentialSecret s) (cfg_SkipCertificateValidation s) (cfg_CertSecret s) (cfg_Limits s)
    (cfg_Username s) (cfg_Password s).

Definition no_valid (arrays : list StorageArrayConfig) : error :=
  errorString ("no valid storage arrays configured: all " ++ Itoa (Z.of_nat (List.length arrays)) ++ " configured array(s) failed validation").

Definition ParseConfig (cm : ProxyConfigMap) : result error ProxyConfig :=
  match cm_Config cm with
  | None => Err (errorString "config is empty")
  | Some (arrays, servers) =>
      let servers := sanitize_server <$> servers in
      let arrays := sanitize_array <$> arrays in
      let c := fold_left (collect (cfg_Endpoint <$> servers)) arrays (mkCollected ∅ ∅ ∅) in
      if bool_decide (col_Arrays c = ∅) && bool_decide (arrays ≠ []) then Err (no_valid arrays)
      else match add_servers true (col_Identifiers c) 0 servers ∅ with
           | Err e => Err e
           | Ok ms => Ok (mkProxyConfig (cm_Port cm) (col_Arrays c) ms (col_Users c))
           end
  end.

(** In secret mode the users of an array are those of its servers; the secrets an array names are not read. *)
Definition collect_secret (servers : list ManagementServerConfig) (c : collected) (array : StorageArrayConfig) : collected :=
  match validateStorageArrayConfig array (cfg_Endpoint <$> servers) with
  | Err _ => c
  | Ok sa =>
      let id := StorageArrayID array in
      let named s := bool_decide (cfg_PrimaryEndpoint array = cfg_Endpoint s ∨ cfg_BackupEndpoint array = cfg_Endpoint s) in
      let users :=
        if decide (cfg_ProxyCredentialSecrets array ≠ [])
        then fold_left (λ users s, if named s then updateProxyCredentialsFromSecret (cfg_Username s) (cfg_Password s) id users else users) servers (col_Users c)
        else col_Users c in
      let sa := mkStorageArray (StorageArrayIdentifier sa) (PrimaryEndpoint sa) (SecondaryEndpoint sa)
                  (if decide (cfg_ProxyCredentialSecrets array ≠ []) then Some ∅ else None) (cfg_Labels array) (cfg_Parameters array) in
      mkCollected (<[id := sa]> (col_Arrays c)) (identify sa id (col_Identifiers c)) users
  end.
Definition server_users (ms : gmap URL ManagementServer) (users : gmap string ProxyUser) (array : StorageArray) : gmap string ProxyUser :=
  let add url users :=
    match ms !! url with
    | Some s => updateProxyCredentialsFromSecret (Username s) (server_Password s) (StorageArrayIdentifier array) users
    | None => users
    end in
  add (SecondaryEndpoint array) (add (PrimaryEndpoint array) users).
(** [port] is the default of the environment. *)
Definition ParseConfigFromSecret (port : string) (ps : ProxySecret) : result error ProxyConfig :=
  let c := fold_left (collect_secret (ps_Servers ps)) (ps_Arrays ps) (mkCollected ∅ ∅ ∅) in
  if bool_decide (col_Arrays c = ∅) && bool_decide (ps_Arrays ps ≠ []) then Err (no_valid (ps_Arrays ps))
  else match add_servers false (col_Identifiers c) 0 (ps_Servers ps) ∅ with
       | Err e => Err e
       | Ok ms =>
           Ok (mkProxyConfig port (col_Arrays c) ms (fold_left (λ users kv, server_users ms users kv.2) (range (col_Arrays c)) (col_Users c)))
       end.

(** ** Changes of secrets *)
Definition server_DeepCopy (ms : ManagementServer) : ManagementServer :=
  mkServer (Endpoint ms) (Some (default [] (StorageArrayIdentifiers ms))) (server_Credentials ms) (CredentialSecret ms) (SkipCertificateValidation ms)
    (CertFile ms) (CertSecret ms) (server_Limits ms) (Username ms) (server_Password ms).
(** The arrays are copied without their maps, which stay shared with the original. *)
Definition DeepCopy (pc : ProxyConfig) : ProxyConfig :=
  mkProxyConfig (Port pc) (managedArrays pc) (server_DeepCopy <$> managementServers pc) (proxyCredentials pc).

Definition IsSecretConfiguredForCerts (secretName : string) (pc : ProxyConfig) : bool :=
  existsb (λ kv, bool_decide (CertSecret kv.2 = secretName)) (map_to_list (managementServers pc)).

Definition secret_in (secretName : string) (array : StorageArray) : ProxyCredentialSecret := default noSecret (secrets_of array !! secretName).

Definition IsSecretConfiguredForArrays (useSecret : bool) (secretName : string) (pc : ProxyConfig) : bool :=
  if useSecret then false
  else existsb (λ kv, bool_decide (pcs_CredentialSecret (secret_in secretName kv.2) = secretName)) (map_to_list (managedArrays pc)).

Definition set_cert (file : string) (s : ManagementServer) : ManagementServer :=
  mkServer (Endpoint s) (StorageArrayIdentifiers s) (server_Credentials s) (CredentialSecret s) (SkipCertificateValidation s) file (CertSecret s)
    (server_Limits s) (Username s) (server_Password s).
Definition UpdateCerts (secretName certFileName : string) (pc : ProxyConfig) : ProxyConfig * bool :=
  (mkProxyConfig (Port pc) (managedArrays pc)
     ((λ s, if bool_decide (CertSecret s = secretName) then set_cert certFileName s else s) <$> managementServers pc) (proxyCredentials pc),
   IsSecretConfiguredForCerts secretName pc).

Definition set_creds (c : Credentials) (s : ManagementServer) : ManagementServer :=
  mkServer (Endpoint s) (StorageArrayIdentifiers s) c (CredentialSecret s) (SkipCertificateValidation s) (CertFile s) (CertSecret s)
    (server_Limits s) (Username s) (server_Password s).
Definition set_user (c : Credentials) (s : ManagementServer) : ManagementServer :=
  mkServer (Endpoint s) (StorageArrayIdentifiers s) (server_Credentials s) (CredentialSecret s) (SkipCertificateValidation s) (CertFile s) (CertSecret s)
    (server_Limits s) (UserName c) (Password c).
Definition set_secret (secretName : string) (c : Credentials) (a : StorageArray) : StorageArray :=
  mkStorageArray (StorageArrayIdentifier a) (PrimaryEndpoint a) (SecondaryEndpoint a)
    (insert secretName (mkProxyCredentialSecret c secretName) <$> ProxyCredentialSecrets a) (Labels a) (Parameters a).

(** The arrays in the order of the range; the user of the old credentials is renamed. [None] is a nil
    pointer: that user is not there, or the array has no map of secrets. *)
Fixpoint rename_users (secretName : string) (credentials : Credentials) (arrays : list (string * StorageArray))
    (st : gmap string StorageArray * gmap string ProxyUser * bool) : option (gmap string StorageArray * gmap string ProxyUser * bool) :=
  match arrays with
  | [] => Some st
  | (id, array) :: arrays =>
      let old := secret_in secretName array in
      if bool_decide (pcs_CredentialSecret old = secretName ∧ pcs_Credentials old ≠ credentials) then
        let '(ma, users, _) := st in
        user ← users !! UserName (pcs_Credentials old);
        _ ← ProxyCredentialSecrets array;
        rename_users secretName credentials arrays
          (<[id := set_secret secretName credentials array]> ma,
           <[UserName credentials := mkProxyUser (user_Arrays user) credentials]> (delete (UserName (pcs_Credentials old)) users), true)
      else rename_users secretName credentials arrays st
  end.
Definition server_creds_change (useSecret : bool) (secretName : string) (c : Credentials) (s : ManagementServer) : bool :=
  useSecret || bool_decide (CredentialSecret s = secretName ∧ server_Credentials s ≠ c).
Definition UpdateCreds (useSecret : bool) (secretName : string) (credentials : Credentials) (pc : ProxyConfig) : option (ProxyConfig * bool) :=
  let servers :=
    (λ s, if useSecret then set_user credentials s
          else if server_creds_change false secretName credentials s then set_creds credentials s else s) <$> managementServers pc in
  let changed := existsb (λ kv, server_creds_change useSecret secretName credentials kv.2) (map_to_list (managementServers pc)) in
  r ← rename_users secretName credentials (range (managedArrays pc)) (managedArrays pc, proxyCredentials pc, changed);
  let '(ma, users, changed) := r in
  Some (mkProxyConfig (Port pc) ma servers users, changed).

(** ** Replacing the servers and arrays of a configuration *)
Definition UpdateManagementServers (config pc : ProxyConfig) : result error (list ManagementServer * list ManagementServer * ProxyConfig) :=
  let new := managementServers config in
  let deleted := (filter (λ kv, new !! kv.1 = None) (range (managementServers pc))).*2 in
  let kept := filter (λ kv, is_Some (new !! kv.1)) (managementServers pc) in
  let updated := (filter (λ kv, kept !! kv.1 ≠ Some kv.2) (range new)).*2 in
  let servers := fold_left (λ m kv, if decide (m !! kv.1 = Some kv.2) then m else <[kv.1 := kv.2]> m) (range new) kept in
  if decide (servers = new) then Ok (deleted, updated, mkProxyConfig (Port pc) (managedArrays pc) servers (proxyCredentials pc))
  else Err (errorString "something wrong in adding/removing servers").

Definition UpdateManagedArrays (config pc : ProxyConfig) : ProxyConfig :=
  if decide (managedArrays pc = managedArrays config) then pc
  else mkProxyConfig (Port pc) (managedArrays config) (managementServers pc) (proxyCredentials config).

(** ** Who is authorized *)
Definition grant (users : gmap string ProxyUser) (g : Credentials * string) : gmap string ProxyUser := updateProxyCredentials g.1 g.2 users.

(** The users a sequence of grants leaves: each with the credentials it was first granted with, and the
    arrays granted with these. *)
Definition users_of (gs : list (Credentials * string)) (users : gmap string ProxyUser) : Prop :=
  ∀ u, match users !! u with
       | None => ∀ g, g ∈ gs → UserName g.1 ≠ u
       | Some pu => UserName (ProxyCredential pu) = u ∧ (∃ a, (ProxyCredential pu, a) ∈ gs) ∧ (∀ a, a ∈ user_Arrays pu ↔ (ProxyCredential pu, a) ∈ gs)
       end.

Lemma grant_users gs users g : users_of gs users → users_of (gs ++ [g])%list (grant users g).
Proof.
  intros Hu u. specialize (Hu u) as Hu0. destruct g as [[gu gp] a]. unfold grant, updateProxyCredentials. simpl.
  destruct (decide (gu = u)) as [->|Hne]; cycle 1.
  { assert ((match users !! gu with
      | Some pu => if bool_decide (gp = Password (ProxyCredential pu)) then <[gu := mkProxyUser (AppendIfMissingStringSlice (user_Arrays pu) a) (ProxyCredential pu)]> users else users
      | None => <[gu := mkProxyUser [a] (mkCredentials gu gp)]> users end) !! u = users !! u) as -> by (repeat case_match; by rewrite ?lookup_insert_ne).
    destruct (users !! u) as [pu|].
    - destruct Hu0 as (Hname & (a0 & Ha0) & Hall). split_and!; [done|exists a0; set_solver|].
      intros b. rewrite elem_of_app, Hall, list_elem_of_singleton. split; [tauto|]. intros [?|E]; [done|]. rewrite (f_equal (λ x, UserName x.1) E : UserName (ProxyCredential pu) = gu) in Hname. done.
    - intros g [Hg|Hg%list_elem_of_singleton]%elem_of_app; [by apply Hu0|]. by subst. }
  destruct (users !! u) as [[ids [pu pp]]|] eqn:Eu; cycle 1.
  { rewrite lookup_insert_eq. simpl. split_and!; [done|exists a; set_solver|]. intros b. rewrite list_elem_of_singleton, elem_of_app, list_elem_of_singleton.
    split; [naive_solver|]. intros [Hb|]; [|congruence]. by apply Hu0 in Hb. }
  simpl in Hu0. destruct Hu0 as (-> & (a0 & Ha0) & Hall). simpl. case_bool_decide as Hp.
  - subst pp. rewrite lookup_insert_eq. simpl. split_and!; [done|exists a0; set_solver|]. intros b. unfold AppendIfMissingStringSlice.
    rewrite elem_of_app, list_elem_of_singleton, <- Hall. case_bool_decide as Hin; [|rewrite elem_of_app, list_elem_of_singleton; naive_solver].
    split; [auto|]. intros [|E]; [done|]. by injection E as ->.
  - rewrite Eu. simpl. split_and!; [done|exists a0; set_solver|]. intros b. rewrite elem_of_app, list_elem_of_singleton, <- Hall.
    split; [auto|]. intros [|E]; [done|]. injection E as -> ->. done.
Qed.

Lemma grants_users gs gs0 users : users_of gs0 users → users_of (gs0 ++ gs)%list (fold_left grant gs users).
Proof.
  revert gs0 users. induction gs as [|g gs IH]; intros gs0 users Hu; [by rewrite app_nil_r|].
  simpl. replace (gs0 ++ g :: gs)%list with ((gs0 ++ [g]) ++ gs)%list by by rewrite <- app_assoc. by apply IH, grant_users.
Qed.

(** What an array grants, in the order its secrets are read. *)
Definition grants_of (ips : list string) (array : StorageArrayConfig) : list (Credentials * string) :=
  match buildStorageArray array ips with
  | Ok sa => (λ kv, (pcs_Credentials kv.2, StorageArrayID array)) <$> range (secrets_of sa)
  | Err _ => []
  end.

Lemma collect_users ips arrays c : col_Users (fold_left (collect ips) arrays c) = fold_left grant (arrays ≫= grants_of ips) (col_Users c).
Proof.
  revert c. induction arrays as [|array arrays IH]; intros c; [done|]. cbn [fold_left mbind list_bind]. rewrite fold_left_app, IH. f_equal.
  unfold collect, grants_of. destruct (buildStorageArray array ips) as [sa|]; [|done]. simpl. generalize (col_Users c).
  induction (range (secrets_of sa)) as [|kv l IHl]; intros users; [done|]. simpl. by rewrite IHl.
Qed.

Lemma read_secrets_spec id secrets m0 m :
  read_secrets id secrets m0 = Ok m →
  ∀ creds, (∃ k v, m !! k = Some v ∧ pcs_Credentials v = creds) ↔
    (∃ k v, m0 !! k = Some v ∧ (k ∉ secrets) ∧ pcs_Credentials v = creds) ∨ ∃ secret, secret ∈ secrets ∧ GetCredentialsFromSecretName secret = Ok creds.
Proof.
  revert m0. induction secrets as [|secret secrets IH]; intros m0 E creds; simpl in E.
  - injection E as <-. set_solver.
  - destruct (GetCredentialsFromSecretName secret) as [c|] eqn:Ec; [|done]. rewrite (IH _ E). split.
    + intros [(k & v & Hk & Hn & Hv)|(x & Hx & Hc)]; [|right; exists x; set_solver].
      apply lookup_insert_Some in Hk as [[<- <-]|[Hne Hk]]; [right; exists secret; simpl in Hv; subst; set_solver|]. left. exists k, v. set_solver.
    + intros [(k & v & Hk & Hn & Hv)|(x & Hx & Hc)].
      * left. exists k, v. rewrite lookup_insert_ne by set_solver. set_solver.
      * destruct (decide (x ∈ secrets)); [right; by exists x|]. apply elem_of_cons in Hx as [->|]; [|done]. rewrite Ec in Hc. injection Hc as ->.
        left. exists secret, (mkProxyCredentialSecret creds secret). by rewrite lookup_insert_eq.
Qed.

Lemma validate_ok array ips sa :
  validateStorageArrayConfig array ips = Ok sa →
  StorageArrayIdentifier sa = StorageArrayID array ∧ ProxyCredentialSecrets sa = None
  ∧ cfg_PrimaryEndpoint array ∈ ips ∧ Parse (cfg_PrimaryEndpoint array) = Ok (PrimaryEndpoint sa).
Proof. unfold validateStorageArrayConfig. intros E. repeat case_match; try discriminate; injection E as <-; by case_bool_decide. Qed.

Lemma build_ok array ips sa :
  buildStorageArray array ips = Ok sa →
  StorageArrayIdentifier sa = StorageArrayID array ∧ cfg_PrimaryEndpoint array ∈ ips ∧ Parse (cfg_PrimaryEndpoint array) = Ok (PrimaryEndpoint sa).
Proof.
  unfold buildStorageArray. destruct (validateStorageArrayConfig array ips) as [sa'|] eqn:Ev; [|done]. apply validate_ok in Ev as (? & _ & ? & ?).
  case_decide; [by intros [= <-]|]. destruct (read_secrets _ _ _); [|done]. by intros [= <-].
Qed.

Lemma build_secrets array ips sa :
  buildStorageArray array ips = Ok sa → read_secrets (StorageArrayID array) (cfg_ProxyCredentialSecrets array) ∅ = Ok (secrets_of sa).
Proof.
  unfold buildStorageArray, secrets_of. destruct (validateStorageArrayConfig array ips) as [sa'|] eqn:Ev; [|done]. apply validate_ok in Ev as (_ & Hnone & _).
  case_decide as Hnil; [intros [= <-]; by rewrite Hnil, Hnone|]. destruct (read_secrets _ _ _); [|done]. by intros [= <-].
Qed.

(** A configured array that is valid names a secret with these credentials. *)
Definition granted (cm : ProxyConfigMap) (creds : Credentials) (id : string) : Prop :=
  ∃ arrays servers array, cm_Config cm = Some (arrays, servers) ∧ array ∈ sanitize_array <$> arrays ∧ StorageArrayID array = id
    ∧ is_ok (buildStorageArray array (cfg_Endpoint <$> (sanitize_server <$> servers))) = true
    ∧ ∃ secret, secret ∈ cfg_ProxyCredentialSecrets array ∧ GetCredentialsFromSecretName secret = Ok creds.

Lemma grants_granted cm arrays servers creds id :
  cm_Config cm = Some (arrays, servers) →
  (creds, id) ∈ ((sanitize_array <$> arrays) ≫= grants_of (cfg_Endpoint <$> (sanitize_server <$> servers))) ↔ granted cm creds id.
Proof.
  intros Hcm. set (ips := cfg_Endpoint <$> _). rewrite list_elem_of_bind.
  assert (∀ array, (creds, id) ∈ grants_of ips array ↔ StorageArrayID array = id ∧ is_ok (buildStorageArray array ips) = true
    ∧ ∃ secret, secret ∈ cfg_ProxyCredentialSecrets array ∧ GetCredentialsFromSecretName secret = Ok creds) as Hone.
  { intros array. unfold grants_of. destruct (buildStorageArray array ips) as [sa|] eqn:Eb; simpl; [|split; [by intros ?%not_elem_of_nil|naive_solver]].
    apply build_secrets in Eb. pose proof (read_secrets_spec _ _ _ _ Eb creds) as Hs. rewrite list_elem_of_fmap. split.
    - intros ([k v] & E & Hin). injection E as -> ->. split; [done|]. split; [done|]. rewrite range_perm in Hin. apply elem_of_map_to_list in Hin.
      destruct Hs as [Hs _]. destruct Hs as [(? & ? & Hbad & _)|Hs]; [by exists k, v|by rewrite lookup_empty in Hbad|done].
    - intros (<- & _ & Hsec). destruct Hs as [_ Hs]. destruct Hs as (k & v & Hk & Hv); [by right|]. exists (k, v). simpl. subst.
      split; [done|]. rewrite range_perm. by apply elem_of_map_to_list. }
  unfold granted. split.
  - intros (array & Hg & Hin). apply Hone in Hg as (? & ? & ?). exists arrays, servers, array. done.
  - intros (arrays' & servers' & array & E & Hin & Hrest). rewrite Hcm in E. injection E as <- <-. exists array. by rewrite Hone.
Qed.

(** C36: in config-map mode the proxy lets a user on an array exactly when it was configured to. A user
    that is let on gave a password that a secret of that array holds for it; and, as long as no two
    secrets hold one name with different passwords, every user of a secret of a valid array is let on
    with its password, in whatever order Go reads the maps. *)
Theorem proxy_authorizes_exactly cm pc username password id :
  ParseConfig cm = Ok pc →
  (IsUserAuthorized username password id pc = Ok tt → granted cm (mkCredentials username password) id)
  ∧ ((∀ c1 c2 a1 a2, granted cm c1 a1 → granted cm c2 a2 → UserName c1 = UserName c2 → c1 = c2) →
     granted cm (mkCredentials username password) id → IsUserAuthorized username password id pc = Ok tt).
Proof.
  unfold ParseConfig. destruct (cm_Config cm) as [[arrays servers]|] eqn:Hcm; [|done]. destruct (_ && _); [done|].
  destruct (add_servers _ _ _ _) as [ms|]; [|done]. intros [= <-].
  pose proof (grants_users ((sanitize_array <$> arrays) ≫= grants_of (cfg_Endpoint <$> (sanitize_server <$> servers))) [] ∅) as Hu.
  rewrite app_nil_l in Hu. specialize (Hu ltac:(intros u; rewrite lookup_empty; by intros g ?%not_elem_of_nil)).
  change ∅ with (col_Users (mkCollected ∅ ∅ ∅)) in Hu at 1. rewrite <- collect_users in Hu. specialize (Hu username).
  unfold IsUserAuthorized. cbn [proxyCredentials]. destruct (_ !! username) as [[ids [pu pp]]|].
  - simpl in Hu. destruct Hu as (-> & (a0 & Ha0) & Hall). setoid_rewrite (grants_granted cm arrays servers _ _ Hcm) in Hall.
    rewrite (grants_granted cm arrays servers _ _ Hcm) in Ha0. simpl. split.
    + case_bool_decide as Hin; [|done]. case_bool_decide; [subst|done]. intros _. by apply Hall.
    + intros Hcons Hg. pose proof (Hcons _ _ _ _ Hg Ha0 eq_refl) as E. injection E as ->. apply Hall in Hg. by rewrite !bool_decide_eq_true_2.
  - split; [done|]. intros _ Hg. apply (grants_granted cm arrays servers _ _ Hcm) in Hg. by apply Hu in Hg.
Qed.

(** ** Every array has its servers *)
Record wf_config (pc : ProxyConfig) : Prop := {
  wf_endpoint : ∀ url s, managementServers pc !! url = Some s → Endpoint s = url;
  wf_managed : ∀ url s id, managementServers pc !! url = Some s → id ∈ default [] (StorageArrayIdentifiers s) → is_Some (managedArrays pc !! id);
  wf_listed : ∀ id a url s, managedArrays pc !! id = Some a → managementServers pc !! url = Some s → url = PrimaryEndpoint a ∨ url = SecondaryEndpoint a →
    id ∈ default [] (StorageArrayIdentifiers s);
  wf_primary : ∀ id a, managedArrays pc !! id = Some a → StorageArrayIdentifier a = id ∧ is_Some (managementServers pc !! PrimaryEndpoint a);
}.

Lemma identify_spec sa id ids url :
  identify sa id ids !! url = (if decide (url = PrimaryEndpoint sa ∨ url = SecondaryEndpoint sa)
    then Some (default [] (ids !! url) ++ (if decide (url = PrimaryEndpoint sa) then [id] else []) ++ (if decide (url = SecondaryEndpoint sa) then [id] else []))%list
    else ids !! url).
Proof.
  unfold identify. destruct (decide (url = SecondaryEndpoint sa)) as [->|Hs].
  - rewrite lookup_insert_eq. destruct (decide (SecondaryEndpoint sa = PrimaryEndpoint sa)) as [E|E].
    + rewrite E, lookup_insert_eq, decide_True by auto. simpl. by rewrite <- app_assoc.
    + rewrite lookup_insert_ne by done. by rewrite decide_True by auto.
  - rewrite lookup_insert_ne by done. destruct (decide (url = PrimaryEndpoint sa)) as [->|Hp].
    + rewrite lookup_insert_eq, decide_True by auto. simpl. done.
    + rewrite lookup_insert_ne by done. by rewrite decide_False by tauto.
Qed.

(** What the loop over the arrays keeps. *)
Record collected_ok (ips : list string) (c : collected) : Prop := {
  co_managed : ∀ url id, id ∈ default [] (col_Identifiers c !! url) → is_Some (col_Arrays c !! id);
  co_listed : ∀ id a url, col_Arrays c !! id = Some a → url = PrimaryEndpoint a ∨ url = SecondaryEndpoint a → id ∈ default [] (col_Identifiers c !! url);
  co_primary : ∀ id a, col_Arrays c !! id = Some a → StorageArrayIdentifier a = id ∧ ∃ text, text ∈ ips ∧ Parse text = Ok (PrimaryEndpoint a);
}.

Lemma collected_ok_add ips c id sa users text :
  collected_ok ips c → StorageArrayIdentifier sa = id → text ∈ ips → Parse text = Ok (PrimaryEndpoint sa) →
  collected_ok ips (mkCollected (<[id := sa]> (col_Arrays c)) (identify sa id (col_Identifiers c)) users).
Proof.
  intros [Hm Hl Hp] Hid Htext Hparse. split; simpl.
  - intros url i. rewrite identify_spec, lookup_insert_is_Some. intros Hin. destruct (decide (id = i)) as [|Hne]; [by left|right; split; [done|]].
    apply (Hm url). destruct (decide _) in Hin; [|done]. simpl in Hin. rewrite !elem_of_app in Hin. repeat case_decide; set_solver.
  - intros i a url Hi Hurl. rewrite identify_spec. apply lookup_insert_Some in Hi as [[-> ->]|[Hne Hi]].
    + rewrite decide_True by done. simpl. rewrite !elem_of_app. destruct Hurl as [->| ->]; [rewrite (decide_True (P := PrimaryEndpoint a = _)) by done|rewrite (decide_True (P := SecondaryEndpoint a = SecondaryEndpoint a)) by done]; set_solver.
    + specialize (Hl i a url Hi Hurl). destruct (decide _); [|done]. simpl. rewrite elem_of_app. by left.
  - intros i a Hi. apply lookup_insert_Some in Hi as [[<- <-]|[Hne Hi]]; [|by apply Hp]. eauto.
Qed.

Lemma collect_ok ips arrays c : collected_ok ips c → collected_ok ips (fold_left (collect ips) arrays c).
Proof.
  revert c. induction arrays as [|array arrays IH]; intros c Hc; [done|]. simpl. apply IH. unfold collect.
  destruct (buildStorageArray array ips) as [sa|] eqn:Eb; [|done]. apply build_ok in Eb as (? & ? & ?). by eapply collected_ok_add.
Qed.

Lemma collect_secret_ok servers arrays c :
  collected_ok (cfg_Endpoint <$> servers) c → collected_ok (cfg_Endpoint <$> servers) (fold_left (collect_secret servers) arrays c).
Proof.
  revert c. induction arrays as [|array arrays IH]; intros c Hc; [done|]. simpl. apply IH. unfold collect_secret.
  destruct (validateStorageArrayConfig _ _) as [sa|] eqn:Eb; [|done]. apply validate_ok in Eb as (? & _ & ? & ?). by eapply collected_ok_add.
Qed.

Lemma add_servers_spec uc ids n servers m ms :
  add_servers uc ids n servers m = Ok ms →
  (∀ url s, ms !! url = Some s → m !! url = Some s ∨ Endpoint s = url ∧ StorageArrayIdentifiers s = ids !! url)
  ∧ (∀ url, is_Some (m !! url) ∨ (∃ text, text ∈ cfg_Endpoint <$> servers ∧ Parse text = Ok url) → is_Some (ms !! url)).
Proof.
  revert n m. induction servers as [|s servers IH]; intros n m E; simpl in E.
  - injection E as <-. split; [auto|]. intros url [|(text & Hin & _)]; [done|]. by apply not_elem_of_nil in Hin.
  - destruct (server_of uc ids n s) as [server|] eqn:Es; [|done]. apply IH in E as [Hback Hfwd].
    assert (Parse (cfg_Endpoint s) = Ok (Endpoint server) ∧ StorageArrayIdentifiers server = ids !! Endpoint server) as [Hparse Hids].
    { unfold server_of in Es. repeat (case_match; try discriminate); by injection Es as <-. }
    split.
    + intros url s' Hs'. destruct (Hback _ _ Hs') as [Hm|]; [|by right]. apply lookup_insert_Some in Hm as [[<- <-]|[_ Hm]]; [by right|by left].
    + intros url Hurl. apply Hfwd. rewrite lookup_insert_is_Some'. destruct Hurl as [|(text & Hin & Hp)]; [by left; right|].
      simpl in Hin. apply elem_of_cons in Hin as [->|Hin]; [|right; by exists text]. rewrite Hparse in Hp. injection Hp as <-. by left; left.
Qed.

Lemma collected_wf uc port users ips c n servers ms :
  collected_ok ips c → ips = cfg_Endpoint <$> servers → add_servers uc (col_Identifiers c) n servers ∅ = Ok ms →
  wf_config (mkProxyConfig port (col_Arrays c) ms users).
Proof.
  intros [Hm Hl Hp] -> Hadd. destruct (add_servers_spec _ _ _ _ _ _ Hadd) as [Hback Hfwd].
  assert (∀ url s, ms !! url = Some s → Endpoint s = url ∧ StorageArrayIdentifiers s = col_Identifiers c !! url) as Hs.
  { intros url s Hurl. destruct (Hback url s Hurl) as [Hbad|]; [by rewrite lookup_empty in Hbad|done]. }
  split; simpl.
  - intros url s Hurl. by apply Hs.
  - intros url s id Hurl Hid. apply Hs in Hurl as [_ E]. rewrite E in Hid. by eapply Hm.
  - intros id a url s Ha Hurl Hor. apply Hs in Hurl as [_ E]. rewrite E. by eapply Hl.
  - intros id a Ha. destruct (Hp _ _ Ha) as [? Htext]. split; [done|]. apply Hfwd. by right.
Qed.

Lemma empty_collected_ok ips : collected_ok ips (mkCollected ∅ ∅ ∅).
Proof. split; simpl; intros *; rewrite lookup_empty; [by intros ?%not_elem_of_nil|done|done]. Qed.

Lemma ParseConfig_wf cm pc : ParseConfig cm = Ok pc → wf_config pc.
Proof.
  unfold ParseConfig. destruct (cm_Config cm) as [[arrays servers]|]; [|done]. destruct (_ && _); [done|].
  destruct (add_servers _ _ _ _ _) as [ms|] eqn:E; [|done]. intros [= <-]. eapply collected_wf; [|done|exact E]. apply collect_ok, empty_collected_ok.
Qed.
Lemma ParseConfigFromSecret_wf port ps pc : ParseConfigFromSecret port ps = Ok pc → wf_config pc.
Proof.
  unfold ParseConfigFromSecret. destruct (_ && _); [done|].
  destruct (add_servers _ _ _ _ _) as [ms|] eqn:E; [|done]. intros [= <-]. eapply collected_wf; [|done|exact E]. apply collect_secret_ok, empty_collected_ok.
Qed.

(** *** The servers an array is given *)
Section servers.
Context (pc : ProxyConfig) (Hwf : wf_config pc).

Definition seen (l : list (ManagementServer * string)) (id : string) (url : URL) : bool := existsb (λ w, bool_decide (Endpoint w.1 = url ∧ w.2 = id)) l.
Definition at_url (l : list (ManagementServer * string)) (id : string) (url : URL) : option ManagementServer :=
  if seen l id url then managementServers pc !! url else None.
Definition pick (l : list (ManagementServer * string)) (id : string) (a : StorageArray) : StorageArrayServer :=
  mkArrayServer a (default noServer (at_url l id (PrimaryEndpoint a)))
    (if decide (SecondaryEndpoint a = PrimaryEndpoint a) then None else at_url l id (SecondaryEndpoint a)).
Definition placed (l : list (ManagementServer * string)) (m : gmap string StorageArrayServer) : Prop :=
  ∀ id, m !! id = if bool_decide (id ∈ l.*2) then pick l id <$> managedArrays pc !! id else None.

Lemma at_url_snoc l s i id url : at_url (l ++ [(s, i)]) id url =
  if decide (Endpoint s = url ∧ i = id) then managementServers pc !! url else at_url l id url.
Proof.
  unfold at_url, seen. rewrite existsb_app. simpl. rewrite orb_false_r. destruct (decide _) as [Hd|Hd].
  - rewrite (bool_decide_eq_true_2 _ Hd), orb_true_r. done.
  - by rewrite (bool_decide_eq_false_2 _ Hd), orb_false_r.
Qed.

Lemma place_server_placed l m s i :
  placed l m → managementServers pc !! Endpoint s = Some s → is_Some (managedArrays pc !! i) →
  ∃ m', place_server pc s i m = Some m' ∧ placed (l ++ [(s, i)])%list m'.
Proof.
  intros Hm Hs [a Ha]. unfold place_server. pose proof (Hm i) as Hi.
  assert (match m !! i with Some r => Some r | None => (λ a, mkArrayServer a noServer None) <$> managedArrays pc !! i end = Some (pick l i a)) as ->.
  { rewrite Hi, Ha. case_bool_decide as Hin; [done|]. simpl. unfold pick, at_url.
    assert (∀ url, seen l i url = false) as Hno.
    { intros url. apply not_true_is_false. intros Hseen. apply existsb_exists in Hseen as (w & Hw & Hb). apply bool_decide_eq_true in Hb as [_ <-].
      apply Hin, list_elem_of_fmap. exists w. split; [done|]. by apply list_elem_of_In. }
    rewrite !Hno. by destruct (decide _). }
  simpl. eexists. split; [done|]. intros id. rewrite fmap_app, (bool_decide_ext (id ∈ _) (id ∈ l.*2 ∨ id = i)) by (rewrite elem_of_app; simpl; rewrite list_elem_of_singleton; done).
  destruct (decide (i = id)) as [<-|Hne].
  - rewrite lookup_insert_eq, bool_decide_eq_true_2 by by right. rewrite Ha. cbn [fmap option_fmap option_map Array PrimaryServer BackupServer pick]. f_equal. unfold pick. rewrite !at_url_snoc. cbn [Array PrimaryServer BackupServer].
    destruct (decide (Endpoint s = PrimaryEndpoint a)) as [Ep|Ep].
    + rewrite (decide_True (P := Endpoint s = PrimaryEndpoint a ∧ i = i)) by done. rewrite <- Ep, Hs. simpl. f_equal.
      destruct (decide (SecondaryEndpoint a = Endpoint s)); [done|]. by rewrite decide_False by naive_solver.
    + rewrite (decide_False (P := Endpoint s = PrimaryEndpoint a ∧ i = i)) by tauto. destruct (decide (Endpoint s = SecondaryEndpoint a)) as [Es|Es].
      * rewrite (decide_True (P := Endpoint s = SecondaryEndpoint a ∧ i = i)) by done. f_equal.
        rewrite decide_False by congruence. by rewrite <- Es, Hs.
      * rewrite (decide_False (P := Endpoint s = SecondaryEndpoint a ∧ i = i)) by tauto. done.
  - rewrite lookup_insert_ne by done. rewrite Hm, (bool_decide_ext (id ∈ l.*2 ∨ id = i) (id ∈ l.*2)) by naive_solver.
    destruct (bool_decide (id ∈ l.*2)); [|done]. destruct (managedArrays pc !! id); [|done]. simpl. f_equal. unfold pick. by rewrite !at_url_snoc, !(decide_False (P := _ ∧ i = id)) by tauto.
Qed.

Lemma place_all_placed work l m :
  placed l m → (∀ w, w ∈ work → managementServers pc !! Endpoint w.1 = Some w.1 ∧ is_Some (managedArrays pc !! w.2)) →
  ∃ m', place_all pc work m = Some m' ∧ placed (l ++ work)%list m'.
Proof.
  revert l m. induction work as [|[s i] work IH]; intros l m Hm Hw; simpl; [exists m; by rewrite app_nil_r|].
  destruct (Hw (s, i)) as [Hs Hi]; [by left|]. destruct (place_server_placed l m s i Hm Hs Hi) as (m1 & -> & Hm1). simpl.
  destruct (IH _ _ Hm1) as (m2 & E & Hm2); [intros w ?; apply Hw; by right|]. exists m2. split; [done|]. by rewrite <- app_assoc in Hm2.
Qed.

Lemma elem_of_server_arrays s i : (s, i) ∈ server_arrays pc ↔ managementServers pc !! Endpoint s = Some s ∧ i ∈ default [] (StorageArrayIdentifiers s).
Proof.
  unfold server_arrays. rewrite list_elem_of_bind. split.
  - intros ([url server] & Hin & Hr). rewrite range_perm in Hr. apply elem_of_map_to_list in Hr. apply list_elem_of_bind in Hin as (j & Hj & Hi).
    apply list_elem_of_singleton in Hj. injection Hj as -> ->. by rewrite (wf_endpoint _ Hwf _ _ Hr).
  - intros [Hs Hi]. exists (Endpoint s, s). split; [|rewrite range_perm; by apply elem_of_map_to_list]. apply list_elem_of_bind. exists i. split; [by apply list_elem_of_singleton|done].
Qed.

(** The primary and the backup of an array are the servers at its two endpoints. *)
Definition configured_servers (a : StorageArray) : StorageArrayServer :=
  mkArrayServer a (default noServer (managementServers pc !! PrimaryEndpoint a))
    (if decide (SecondaryEndpoint a = PrimaryEndpoint a) then None else managementServers pc !! SecondaryEndpoint a).

Lemma managed_servers : GetManagedArraysAndServers pc = Some (configured_servers <$> managedArrays pc).
Proof.
  unfold GetManagedArraysAndServers. destruct (place_all_placed (server_arrays pc) [] ∅) as (m & -> & Hm).
  { intros id. by rewrite lookup_empty. }
  { intros [s i] [Hs Hi]%elem_of_server_arrays. split; [done|]. by eapply wf_managed. }
  f_equal. apply map_eq. intros id. rewrite Hm, lookup_fmap. rewrite app_nil_l.
  destruct (managedArrays pc !! id) as [a|] eqn:Ha; [|by case_bool_decide].
  assert (∀ url s, url = PrimaryEndpoint a ∨ url = SecondaryEndpoint a → managementServers pc !! url = Some s → (s, id) ∈ server_arrays pc) as Hin.
  { intros url s Hurl Hs. apply elem_of_server_arrays. rewrite (wf_endpoint _ Hwf _ _ Hs). split; [done|]. by eapply wf_listed. }
  assert (∀ url, url = PrimaryEndpoint a ∨ url = SecondaryEndpoint a → at_url (server_arrays pc) id url = managementServers pc !! url) as Hat.
  { intros url Hurl. unfold at_url. destruct (managementServers pc !! url) as [s|] eqn:Hs; [|by case_match]. replace (seen _ _ _) with true; [done|]. symmetry.
    apply existsb_exists. exists (s, id). split; [apply list_elem_of_In; by eapply Hin|]. apply bool_decide_eq_true. simpl. by rewrite (wf_endpoint _ Hwf _ _ Hs). }
  destruct (wf_primary _ Hwf _ _ Ha) as [_ [s Hs]]. rewrite bool_decide_eq_true_2; cycle 1.
  { apply list_elem_of_fmap. exists (s, id). split; [done|]. by eapply Hin; [left|]. }
  simpl. f_equal. unfold pick, configured_servers. by rewrite !Hat by auto.
Qed.
End servers.

(** *** Changes of secrets keep the arrays on their servers *)
Definition array_shape (a : StorageArray) : string * URL * URL := (StorageArrayIdentifier a, PrimaryEndpoint a, SecondaryEndpoint a).

Lemma wf_config_same f port ma users pc :
  wf_config pc → (∀ s, Endpoint (f s) = Endpoint s ∧ default [] (StorageArrayIdentifiers (f s)) = default [] (StorageArrayIdentifiers s)) →
  (∀ id, array_shape <$> ma !! id = array_shape <$> managedArrays pc !! id) →
  wf_config (mkProxyConfig port ma (f <$> managementServers pc) users).
Proof.
  intros [He Hm Hl Hp] Hf Hma.
  assert (∀ id a, ma !! id = Some a → ∃ a', managedArrays pc !! id = Some a' ∧ array_shape a = array_shape a') as Ha.
  { intros id a E. specialize (Hma id). rewrite E in Hma. destruct (managedArrays pc !! id) as [a'|]; [|done]. injection Hma as E1 E2 E3. exists a'. split; [done|].
    unfold array_shape. congruence. }
  assert (∀ url s, (f <$> managementServers pc) !! url = Some s → ∃ s', managementServers pc !! url = Some s' ∧ s = f s') as Hs.
  { intros url s. rewrite lookup_fmap. destruct (managementServers pc !! url) as [s'|]; [|done]. intros [= <-]. by exists s'. }
  split; simpl.
  - intros url s (s' & E & ->)%Hs. destruct (Hf s') as [-> _]. by apply He.
  - intros url s id (s' & E & ->)%Hs. destruct (Hf s') as [_ ->]. intros Hin. specialize (Hma id).
    destruct (Hm _ _ _ E Hin) as [a Ea]. rewrite Ea in Hma. by destruct (ma !! id).
  - intros id a url s (a' & Ea & Hsh)%Ha (s' & E & ->)%Hs Hurl. destruct (Hf s') as [_ ->]. injection Hsh as _ Hp1 Hp2. rewrite Hp1, Hp2 in Hurl. by eapply Hl.
  - intros id a (a' & Ea & Hsh)%Ha. injection Hsh as Hp0 Hp1 _. destruct (Hp _ _ Ea) as [? ?]. split; [congruence|]. by rewrite Hp1, lookup_fmap, fmap_is_Some.
Qed.

Lemma rename_users_shape secretName c arrays st st' :
  rename_users secretName c arrays st = Some st' →
  (∀ id a, (id, a) ∈ arrays → array_shape <$> st.1.1 !! id = Some (array_shape a)) →
  ∀ id, array_shape <$> st'.1.1 !! id = array_shape <$> st.1.1 !! id.
Proof.
  revert st. induction arrays as [|[i a] arrays IH]; intros [[ma users] b] E Harr; simpl in E; [by injection E as <-|].
  destruct (bool_decide _); [|apply IH; [done|intros; apply Harr; by right]].
  destruct (users !! _) as [user|]; [|done]. simpl in E. destruct (ProxyCredentialSecrets a); [|done]. simpl in E. intros id.
  assert (∀ j, array_shape <$> <[i := set_secret secretName c a]> ma !! j = array_shape <$> ma !! j) as Hins.
  { intros j. destruct (decide (i = j)) as [<-|]; [|by rewrite lookup_insert_ne]. rewrite lookup_insert_eq. simpl. symmetry. apply (Harr i a). by left. }
  rewrite (IH _ E); [apply Hins|]. intros j a' Hin. simpl. rewrite Hins. apply Harr. by right.
Qed.

Lemma UpdateCreds_wf useSecret name c pc pc' b : UpdateCreds useSecret name c pc = Some (pc', b) → wf_config pc → wf_config pc'.
Proof.
  unfold UpdateCreds. intros E Hwf. destruct (rename_users _ _ _ _) as [[[ma users] b']|] eqn:Er; [|done]. injection E as <- <-.
  apply wf_config_same; [done|intros s; by repeat case_match|]. intros id. apply (rename_users_shape _ _ _ _ _ Er). intros i a Hin. simpl.
  rewrite range_perm in Hin. apply elem_of_map_to_list in Hin. by rewrite Hin.
Qed.

Lemma UpdateCerts_wf name file pc : wf_config pc → wf_config (UpdateCerts name file pc).1.
Proof. intros Hwf. simpl. apply wf_config_same; [done|intros s; by case_match|done]. Qed.

Lemma DeepCopy_wf pc : wf_config pc → wf_config (DeepCopy pc).
Proof. intros Hwf. by apply wf_config_same. Qed.
End config.

(** ** A cluster *)
Module Demo.
#[export] Instance demo_url : NetURL := {|
  URL := string; noURL := ""; Parse := λ s, if bool_decide (s = "bad") then Err (errorString "bad URL") else Ok s;
  Scheme := λ s, if String.prefix "https://" s then "https" else ""; URL_String := λ s, s
|}.
#[export] Instance demo_order : MapOrder.
Proof. refine {| range := λ K _ _ V m, map_to_list m |}. done. Defined.
Definition creds_secret (name user password : string) : Secret := mkSecret name (<["username" := user]> {["password" := password]}).
#[export] Instance demo_k8s : K8sClient := {|
  GetSecret := λ name, if bool_decide (name = "sec") then Ok (creds_secret "sec" "csi" "pw")
                       else if bool_decide (name = "other") then Ok (creds_secret "other" "csi" "pw2") else Err (errorString "not found");
  CertDirectory := "/certs"; TimeNowFunc := λ n, Z.of_nat n; createFile := λ _ _, None
|}.

Definition demo_array (id primary backup : string) (secrets : list string) : StorageArrayConfig := mkArrayConfig id primary backup secrets None None.
Definition demo_server (endpoint : string) : ManagementServerConfig := mkServerConfig endpoint "sec" true "" (ProxyLocks.mkLimits 0 0 0 0) "" "".
(** Two arrays that share a secret; the addresses of the first end in a slash. *)
Definition demo_map : ProxyConfigMap :=
  mkConfigMap "2222" (Some ([demo_array "0001" "https://u1/" "https://u2" ["sec"]; demo_array "0002" "https://u2" "" ["sec"]], [demo_server "https://u1"; demo_server "https://u2"])).
Definition demo_config : ProxyConfig := match ParseConfig demo_map with Ok pc => pc | Err _ => mkProxyConfig "" ∅ ∅ ∅ end.

Example demo_parses : ParseConfig demo_map = Ok demo_config.
Proof. unfold demo_config. destruct (ParseConfig demo_map) eqn:E; [done|]. by vm_compute in E. Qed.

Lemma proxy_authorizes_exactly_witness :
  IsUserAuthorized "csi" "pw" "0001" demo_config = Ok tt ∧ granted demo_map (mkCredentials "csi" "pw") "0001".
Proof.
  assert (IsUserAuthorized "csi" "pw" "0001" demo_config = Ok tt) as E by (vm_compute; reflexivity).
  split; [exact E|]. exact (proj1 (proxy_authorizes_exactly demo_map demo_config "csi" "pw" "0001" demo_parses) E).
Defined.

(** An array is listed once for each management server. *)
Example authorized_arrays_repeated : List.length (GetAuthorizedArrays false "csi" "pw" demo_config) = 4%nat ∧ size (managedArrays demo_config) = 2%nat.
Proof. split; vm_compute; reflexivity. Qed.

(** A user of a secret that two arrays share cannot be renamed: the second array's user is gone. *)
Example rename_shared_user_panics : UpdateCreds false "sec" (mkCredentials "csi2" "pw") demo_config = None.
Proof. vm_compute. reflexivity. Qed.
Example change_shared_password :
  (λ r, IsUserAuthorized "csi" "new" "0002" r.1) <$> UpdateCreds false "sec" (mkCredentials "csi" "new") demo_config = Some (Ok tt).
Proof. vm_compute. reflexivity. Qed.

(** Of two secrets with one user name and two passwords only the first counts. *)
Example second_password_dropped :
  match ParseConfig (mkConfigMap "" (Some ([demo_array "0001" "https://u1" "" ["sec"]; demo_array "0002" "https://u1" "" ["other"]], [demo_server "https://u1"]))) with
  | Ok pc => IsUserAuthorized "csi" "pw2" "0002" pc = Err UnauthorizedForArray
  | Err _ => False
  end.
Proof. vm_compute. reflexivity. Qed.

(** In secret mode the addresses are not trimmed. *)
Example secret_mode_keeps_slash :
  is_ok (ParseConfigFromSecret "2222" (mkProxySecret [demo_array "0001" "https://u1/" "" []] [demo_server "https://u1"])) = false.
Proof. vm_compute. reflexivity. Qed.
End Demo.
End Conf.
