(* ===== verification/ProxyServer.v ===== *)
(** * The reverse proxy: envoys and changes of configuration

    Models csireverseproxy/pkg/common/envoy.go, the part of pkg/proxy/proxy.go that
    keeps one envoy per array in step with the configuration, and the handlers of
    csireverseproxy/main.go that change the configuration while the proxy runs. A
    process that ends ([Fatalf]) or a nil pointer is [None]. *)

From stdpp Require Import base gmap strings list relations.
From Stdlib Require Import ZArith Lia.
From S2P Require Import Prelude GoLib ProxyLocks ProxyHealth ProxyConf.

Module RevProxy.
Import ProxyLocks(Limits) Health Conf.
Open Scope string_scope.
Open Scope Z_scope.

(** A certificate file is written once: its name holds the time. *)
Class FileSystem := { ReadFile : string → result error string }.

(** ** Loops that may end the process *)
Fixpoint fold_opt {A B} (f : B → A → option A) (l : list B) (a : A) : option A :=
  match l with
  | [] => Some a
  | b :: l => f b a ≫= fold_opt f l
  end.

Lemma fold_opt_app {A B} (f : B → A → option A) l1 l2 a : fold_opt f (l1 ++ l2) a = fold_opt f l1 a ≫= fold_opt f l2.
Proof. revert a. induction l1 as [|b l1 IH]; intros a; [done|]. simpl. destruct (f b a); [apply IH|done]. Qed.
Lemma fold_opt_one {A B} (f : B → A → option A) b a : fold_opt f [b] a = f b a.
Proof. simpl. by destruct (f b a). Qed.
Lemma bind_some {A} (x : option A) : x ≫= (λ a, Some a) = x.
Proof. by destruct x. Qed.
Lemma fold_opt_flat {A B D} (f : B → A → option A) (g : D → list B) l a :
  fold_opt f (List.flat_map g l) a = fold_opt (λ d, fold_opt f (g d)) l a.
Proof. revert a. induction l as [|d l IH]; intros a; [done|]. simpl. rewrite fold_opt_app. by destruct (fold_opt f (g d) a); simpl. Qed.

(** A loop over the entries of a map, each of which only sets its own key. *)
Lemma fold_opt_own {V W} (f : string * V → gmap string W → option (gmap string W)) (R : string → V → option W → option W → Prop) (l : list (string * V)) m m' :
  NoDup l.*1 →
  (∀ k v m m', f (k, v) m = Some m' → R k v (m !! k) (m' !! k) ∧ ∀ j, j ≠ k → m' !! j = m !! j) →
  fold_opt f l m = Some m' →
  ∀ j, (∀ v, (j, v) ∈ l → R j v (m !! j) (m' !! j)) ∧ ((j ∉ l.*1) → m' !! j = m !! j).
Proof.
  intros Hnd Hf. revert m. induction l as [|[k v] l IH]; intros m E j; simpl in *.
  - injection E as <-. split; [|done]. by intros v ?%not_elem_of_nil.
  - apply NoDup_cons in Hnd as [Hk Hnd]. destruct (f (k, v) m) as [m1|] eqn:Ef; [|done]. simpl in E. destruct (IH Hnd m1 E j) as [IH1 IH2].
    apply Hf in Ef as [Hown Hother]. split.
    + intros v' Hin. apply elem_of_cons in Hin as [[= -> ->]|Hin]; [by rewrite IH2|].
      rewrite <- (Hother j); [by apply IH1|]. intros ->. destruct Hk. apply list_elem_of_fmap. by exists (k, v').
    + intros Hj. apply not_elem_of_cons in Hj as [Hne Hj]. rewrite (IH2 Hj). by apply Hother.
Qed.

Section proxy.
Context `{NetURL} `{MapOrder} `{FileSystem}.

(** ** Envoys (envoy.go) *)
Record TLSConfig := mkTLSConfig { InsecureSkipVerify : bool; RootCAs : option string }.
Record Proxy := mkProxy { proxy_TLS : TLSConfig; proxy_URL : URL; proxy_Limits : Limits }.
Record envoy := mkEnvoy {
  primary : Proxy;
  backup : option Proxy;
  primaryHTTP : option TLSConfig;
  backupHTTP : option TLSConfig;
  healthMonitor : proxyHealth;
  active : Z;
}.

Definition NewEnvoy (proxy : Proxy) : envoy := mkEnvoy proxy None None None NewProxyHealth 0.
Definition SetPrimary (p : Proxy) (e : envoy) : envoy := mkEnvoy p (backup e) (primaryHTTP e) (backupHTTP e) (healthMonitor e) (active e).
Definition SetBackup (p : Proxy) (e : envoy) : envoy := mkEnvoy (primary e) (Some p) (primaryHTTP e) (backupHTTP e) (healthMonitor e) (active e).
Definition SetPrimaryHTTPClient (c : TLSConfig) (e : envoy) : envoy := mkEnvoy (primary e) (backup e) (Some c) (backupHTTP e) (healthMonitor e) (active e).
Definition SetBackupHTTPClient (c : TLSConfig) (e : envoy) : envoy := mkEnvoy (primary e) (backup e) (primaryHTTP e) (Some c) (healthMonitor e) (active e).
Definition RemoveBackupProxy (e : envoy) : envoy := mkEnvoy (primary e) None (primaryHTTP e) (backupHTTP e) (healthMonitor e) (active e).
Definition RemoveBackupHTTPClient (e : envoy) : envoy := mkEnvoy (primary e) (backup e) (primaryHTTP e) None (healthMonitor e) (active e).

Definition set_health (h : proxyHealth) (a : Z) (e : envoy) : envoy := mkEnvoy (primary e) (backup e) (primaryHTTP e) (backupHTTP e) h a.
Definition ConfigureHealthParams (failureCount consecutiveFC successCount failureDuration : Z) (e : envoy) : envoy :=
  set_health (SetThreshold failureCount consecutiveFC successCount failureDuration (healthMonitor e)) (active e) e.
Definition HasHealthDeteriorated (e : envoy) : bool := HasDeteriorated (healthMonitor e).

Definition healthHandler (now : Z) (isSuccess : bool) (e : envoy) : envoy :=
  if isSuccess then set_health (ReportSuccess (healthMonitor e)) (active e) e
  else let '(h, failover) := ReportFailure now (healthMonitor e) in
       if failover then set_health h (if active e =? 0 then active e + 1 else active e - 1) e
       else set_health h (active e) e.

Definition GetActiveProxy (e : envoy) : Proxy :=
  match backup e with
  | Some b => if active e =? 0 then primary e else b
  | None => primary e
  end.
Definition GetActiveHTTPClient (e : envoy) : option TLSConfig :=
  if (active e =? 0) || bool_decide (backup e = None) then primaryHTTP e else backupHTTP e.

(** ** Clients of a management server (proxy.go) *)
Definition newTLSConfig (mgmtServer : ManagementServer) : option TLSConfig :=
  if SkipCertificateValidation mgmtServer then Some (mkTLSConfig true None)
  else match ReadFile (CertFile mgmtServer) with
       | Err _ => None
       | Ok caCert => Some (mkTLSConfig false (Some caCert))
       end.
Definition newHTTPClient (mgmtServer : ManagementServer) : option TLSConfig := newTLSConfig mgmtServer.
Definition newReverseProxy (mgmtServer : ManagementServer) : option Proxy :=
  tlsConfig ← newTLSConfig mgmtServer; Some (mkProxy tlsConfig (Endpoint mgmtServer) (server_Limits mgmtServer)).
Definition newEnvoyClient (serverArray : StorageArrayServer) : option envoy :=
  primaryProxy ← newReverseProxy (PrimaryServer serverArray);
  client ← newHTTPClient (PrimaryServer serverArray);
  let envoy := SetPrimaryHTTPClient client (NewEnvoy primaryProxy) in
  match BackupServer serverArray with
  | Some server =>
      backupProxy ← newReverseProxy server;
      backupHTTPClient ← newHTTPClient server;
      Some (SetBackupHTTPClient backupHTTPClient (SetBackup backupProxy envoy))
  | None => Some envoy
  end.

(** ** The proxy *)
Abbreviation SymmURL := (string * URL)%type.
Record revProxy := mkRevProxy {
  config : ProxyConfig;
  requestID : Z;
  envoyMap : gmap string envoy;
  iteratorCache : Cache.cache SymmURL;
  authToken : string;
}.
Definition set_envoys (m : gmap string envoy) (rp : revProxy) : revProxy := mkRevProxy (config rp) (requestID rp) m (iteratorCache rp) (authToken rp).
Definition updateConfig (proxyConfig : ProxyConfig) (rp : revProxy) : revProxy :=
  mkRevProxy proxyConfig (requestID rp) (envoyMap rp) (iteratorCache rp) (authToken rp).
Definition SetAuthToken (token : string) (rp : revProxy) : revProxy := mkRevProxy (config rp) (requestID rp) (envoyMap rp) (iteratorCache rp) token.

Definition new_client (kv : string * StorageArrayServer) (m : gmap string envoy) : option (gmap string envoy) :=
  envoy ← newEnvoyClient kv.2; Some (<[kv.1 := envoy]> m).
Definition NewProxy (proxyConfig : ProxyConfig) : option revProxy :=
  arrayServers ← GetManagedArraysAndServers proxyConfig;
  envoyMap ← fold_opt new_client (range arrayServers) ∅;
  Some (mkRevProxy proxyConfig 0 envoyMap (Cache.New (5 * Minute)) "").

Inductive proxyType := PRIMARY | BACKUP.
Definition updateEnvoy (arrayID : string) (type : proxyType) (server : ManagementServer) (m : gmap string envoy) : option (gmap string envoy) :=
  match m !! arrayID with
  | None => Some m
  | Some envoy =>
      proxy ← newReverseProxy server;
      client ← newHTTPClient server;
      Some (<[arrayID := match type with
                         | PRIMARY => SetPrimaryHTTPClient client (SetPrimary proxy envoy)
                         | BACKUP => SetBackupHTTPClient client (SetBackup proxy envoy)
                         end]> m)
  end.
Definition setBackupEnvoy (arrayID : string) (server : ManagementServer) (m : gmap string envoy) : option (gmap string envoy) :=
  updateEnvoy arrayID BACKUP server m.
Definition removeBackupEnvoy (arrayID : string) (m : gmap string envoy) : gmap string envoy :=
  match m !! arrayID with
  | None => m
  | Some envoy => <[arrayID := RemoveBackupHTTPClient (RemoveBackupProxy envoy)]> m
  end.

Definition hasServerChanged (oldServer newServer : ManagementServer) : bool :=
  negb (bool_decide (Endpoint oldServer = Endpoint newServer)) || negb (bool_decide (CertFile oldServer = CertFile newServer))
  || negb (bool_decide (CredentialSecret oldServer = CredentialSecret newServer)) || negb (bool_decide (server_Limits oldServer = server_Limits newServer))
  || negb (bool_decide (SkipCertificateValidation oldServer = SkipCertificateValidation newServer))
  || negb (bool_decide (Username oldServer = Username newServer)) || negb (bool_decide (server_Password oldServer = server_Password newServer)).

(** What an update does to the envoys, each time under the mutex, which it gives back in between. *)
Inductive envoy_change :=
| UpdateEnvoy (arrayID : string) (type : proxyType) (server : ManagementServer)
| SetBackupEnvoy (arrayID : string) (server : ManagementServer)
| RemoveBackupEnvoy (arrayID : string)
| SetEnvoy (arrayID : string) (serverArray : StorageArrayServer)
| RemoveEnvoy (arrayID : string).
Definition change_envoys (c : envoy_change) (m : gmap string envoy) : option (gmap string envoy) :=
  match c with
  | UpdateEnvoy arrayID type server => updateEnvoy arrayID type server m
  | SetBackupEnvoy arrayID server => setBackupEnvoy arrayID server m
  | RemoveBackupEnvoy arrayID => Some (removeBackupEnvoy arrayID m)
  | SetEnvoy arrayID serverArray => new_client (arrayID, serverArray) m
  | RemoveEnvoy arrayID => Some (delete arrayID m)
  end.

(** One array of the new configuration, and one of the old. *)
Definition array_changes (oldServerArrayMap : gmap string StorageArrayServer) (kv : string * StorageArrayServer) : list envoy_change :=
  let '(arrayID, serverArray) := kv in
  match oldServerArrayMap !! arrayID with
  | Some oldServerArray =>
      (if hasServerChanged (PrimaryServer oldServerArray) (PrimaryServer serverArray)
       then [UpdateEnvoy arrayID PRIMARY (PrimaryServer serverArray)] else [])
      ++ match BackupServer serverArray, BackupServer oldServerArray with
         | None, Some _ => [RemoveBackupEnvoy arrayID]
         | Some server, None => [SetBackupEnvoy arrayID server]
         | Some server, Some oldServer => if hasServerChanged oldServer server then [UpdateEnvoy arrayID BACKUP server] else []
         | None, None => []
         end
  | None => [SetEnvoy arrayID serverArray]
  end.
Definition removed_array (serverArrayMap : gmap string StorageArrayServer) (kv : string * StorageArrayServer) : list envoy_change :=
  if decide (serverArrayMap !! kv.1 = None) then [RemoveEnvoy kv.1] else [].
Definition update_changes (oldServerArrayMap serverArrayMap : gmap string StorageArrayServer) : list envoy_change :=
  List.flat_map (array_changes oldServerArrayMap) (range serverArrayMap) ++ List.flat_map (removed_array serverArrayMap) (range oldServerArrayMap).

(** The changes in order, and the configuration last. Requests are served in between: [update_step] below. *)
Definition UpdateConfig (proxyConfig : ProxyConfig) (rp : revProxy) : option revProxy :=
  if decide (config rp = proxyConfig) then Some rp
  else
    oldServerArrayMap ← GetManagedArraysAndServers (config rp);
    serverArrayMap ← GetManagedArraysAndServers proxyConfig;
    m ← fold_opt change_envoys (update_changes oldServerArrayMap serverArrayMap) (envoyMap rp);
    Some (updateConfig proxyConfig (set_envoys m rp)).

(** All changes of one array; all removals. *)
Definition update_array (oldServerArrayMap : gmap string StorageArrayServer) (kv : string * StorageArrayServer) (m : gmap string envoy) : option (gmap string envoy) :=
  fold_opt change_envoys (array_changes oldServerArrayMap kv) m.
Definition delete_envoys (serverArrayMap oldServerArrayMap : gmap string StorageArrayServer) (m : gmap string envoy) : gmap string envoy :=
  fold_left (λ m kv, if decide (serverArrayMap !! kv.1 = None) then delete kv.1 m else m) (range oldServerArrayMap) m.

Lemma delete_changes new l (m : gmap string envoy) :
  fold_opt change_envoys (List.flat_map (removed_array new) l) m
  = Some (fold_left (λ m kv, if decide (new !! kv.1 = None) then delete kv.1 m else m) l m).
Proof.
  revert m. induction l as [|[k v] l IH]; intros m; [done|]. cbn [List.flat_map fold_left fst]. rewrite fold_opt_app.
  assert (removed_array new (k, v) = if decide (new !! k = None) then [RemoveEnvoy k] else []) as -> by done.
  destruct (decide (new !! k = None)); simpl; apply IH.
Qed.
Lemma update_by_array old new (m : gmap string envoy) :
  fold_opt change_envoys (update_changes old new) m = m' ← fold_opt (update_array old) (range new) m; Some (delete_envoys new old m').
Proof.
  unfold update_changes. rewrite fold_opt_app, fold_opt_flat. change (λ d, fold_opt change_envoys (array_changes old d)) with (update_array old).
  destruct (fold_opt (update_array old) (range new) m); [|done]. simpl. apply delete_changes.
Qed.

(** ** The envoys are those of the configuration *)
Definition serves (e : envoy) (sa : StorageArrayServer) : Prop :=
  newReverseProxy (PrimaryServer sa) = Some (primary e) ∧ newHTTPClient (PrimaryServer sa) = primaryHTTP e
  ∧ match BackupServer sa with
    | Some b => is_Some (backup e) ∧ newReverseProxy b = backup e ∧ newHTTPClient b = backupHTTP e
    | None => backup e = None ∧ backupHTTP e = None
    end.

(** The configuration gives every array its servers, and there is exactly one envoy per array, built
    from these. *)
Definition proxy_ok (rp : revProxy) : Prop :=
  wf_config (config rp)
  ∧ ∀ id, match managedArrays (config rp) !! id with
          | Some a => ∃ e, envoyMap rp !! id = Some e ∧ serves e (configured_servers (config rp) a)
          | None => envoyMap rp !! id = None
          end.

Lemma newEnvoyClient_serves sa e : newEnvoyClient sa = Some e → serves e sa.
Proof.
  unfold newEnvoyClient, serves. destruct (newReverseProxy (PrimaryServer sa)) as [p|]; [|done]. destruct (newHTTPClient (PrimaryServer sa)) as [c|]; [|done]. simpl.
  destruct (BackupServer sa) as [b|]; [|by intros [= <-]]. destruct (newReverseProxy b); [|done]. destruct (newHTTPClient b); [|done]. by intros [= <-].
Qed.

Lemma unchanged_server o s : hasServerChanged o s = false → newReverseProxy s = newReverseProxy o ∧ newHTTPClient s = newHTTPClient o.
Proof.
  unfold hasServerChanged, newReverseProxy, newHTTPClient, newTLSConfig. rewrite !orb_false_iff, !negb_false_iff, !bool_decide_eq_true.
  by intros ((((((-> & ->) & _) & ->) & ->) & _) & _).
Qed.

Lemma new_client_own k v (m m' : gmap string envoy) :
  new_client (k, v) m = Some m' → (∃ e, m' !! k = Some e ∧ serves e v) ∧ ∀ j, j ≠ k → m' !! j = m !! j.
Proof.
  unfold new_client. simpl. destruct (newEnvoyClient v) as [e|] eqn:E; [|done]. intros [= <-]. rewrite lookup_insert_eq. split; [|intros j Hne; by rewrite lookup_insert_ne].
  exists e. split; [done|]. by apply newEnvoyClient_serves.
Qed.

Lemma updateEnvoy_own k ty s (m m' : gmap string envoy) :
  updateEnvoy k ty s m = Some m' →
  (∀ j, j ≠ k → m' !! j = m !! j)
  ∧ ∀ e, m !! k = Some e → ∃ p c, newReverseProxy s = Some p ∧ newHTTPClient s = Some c
     ∧ m' !! k = Some match ty with PRIMARY => SetPrimaryHTTPClient c (SetPrimary p e) | BACKUP => SetBackupHTTPClient c (SetBackup p e) end.
Proof.
  unfold updateEnvoy. destruct (m !! k) as [e|] eqn:Ek; [|by intros [= <-]]. destruct (newReverseProxy s) as [p|]; [|done]. destruct (newHTTPClient s) as [c|]; [|done].
  simpl. intros [= <-]. split; [intros j Hne; by rewrite lookup_insert_ne|]. intros e' [= <-]. exists p, c. by rewrite lookup_insert_eq.
Qed.

Lemma update_primary_own osa sa k (m m' : gmap string envoy) :
  (if hasServerChanged (PrimaryServer osa) (PrimaryServer sa) then updateEnvoy k PRIMARY (PrimaryServer sa) m else Some m) = Some m' →
  (∀ j, j ≠ k → m' !! j = m !! j)
  ∧ ∀ e, m !! k = Some e → serves e osa → ∃ e', m' !! k = Some e' ∧ serves e' (mkArrayServer (Array sa) (PrimaryServer sa) (BackupServer osa)).
Proof.
  destruct (hasServerChanged _ _) eqn:Ec.
  - intros [Ho Hk]%updateEnvoy_own. split; [done|]. intros e He (_ & _ & Hb). destruct (Hk e He) as (p & c & Hp & Hc & E). eexists. split; [exact E|]. by split_and!.
  - intros [= <-]. split; [done|]. intros e He (Hp & Hc & Hb). apply unchanged_server in Ec as [E1 E2]. exists e. split; [done|]. unfold serves. simpl. by rewrite E1, E2.
Qed.

Definition own_update (old : gmap string StorageArrayServer) (k : string) (v : StorageArrayServer) (o o' : option envoy) : Prop :=
  match old !! k with
  | Some osa => ∀ e, o = Some e → serves e osa → ∃ e', o' = Some e' ∧ serves e' v
  | None => ∃ e', o' = Some e' ∧ serves e' v
  end.

Lemma update_array_own old k v (m m' : gmap string envoy) :
  update_array old (k, v) m = Some m' → own_update old k v (m !! k) (m' !! k) ∧ ∀ j, j ≠ k → m' !! j = m !! j.
Proof.
  unfold update_array, array_changes, own_update. destruct (old !! k) as [osa|]; [|rewrite fold_opt_one; apply new_client_own]. rewrite fold_opt_app.
  match goal with |- fold_opt change_envoys ?l m ≫= _ = _ → _ => destruct (fold_opt change_envoys l m) as [m1|] eqn:E1; [|done] end.
  simpl. assert ((if hasServerChanged (PrimaryServer osa) (PrimaryServer v) then updateEnvoy k PRIMARY (PrimaryServer v) m else Some m) = Some m1) as Eupd
    by (destruct (hasServerChanged _ _); [by rewrite fold_opt_one in E1|done]). clear E1. apply update_primary_own in Eupd as [Ho1 Hk1]. destruct v as [a sp sb]. simpl in *. destruct sb as [b|], (BackupServer osa) as [ob|] eqn:Eob; simpl.
  - destruct (hasServerChanged ob b) eqn:Ec.
    + rewrite fold_opt_one. intros [Ho2 Hk2]%updateEnvoy_own. split; [|intros j Hj; by rewrite Ho2, Ho1]. intros e He Hs. destruct (Hk1 e He Hs) as (e1 & He1 & Hp & Hc & Hb).
      destruct (Hk2 e1 He1) as (p & c & Ep & Ecl & E). eexists. split; [exact E|]. by split_and!.
    + intros [= <-]. split; [|done]. intros e He Hs. destruct (Hk1 e He Hs) as (e1 & He1 & Hp & Hc & Hb1 & Hb2 & Hb3). apply unchanged_server in Ec as [E1 E2].
      exists e1. split; [done|]. unfold serves. simpl. by rewrite E1, E2.
  - rewrite bind_some. intros [Ho2 Hk2]%updateEnvoy_own. split; [|intros j Hj; by rewrite Ho2, Ho1]. intros e He Hs. destruct (Hk1 e He Hs) as (e1 & He1 & Hp & Hc & Hb).
    destruct (Hk2 e1 He1) as (p & c & Ep & Ecl & E). eexists. split; [exact E|]. by split_and!.
  - intros [= <-]. unfold removeBackupEnvoy. split.
    + intros e He Hs. destruct (Hk1 e He Hs) as (e1 & He1 & Hp & Hc & Hb). rewrite He1, lookup_insert_eq. eexists. split; [done|]. by split_and!.
    + intros j Hj. rewrite <- (Ho1 j Hj). destruct (m1 !! k); [|done]. by rewrite lookup_insert_ne.
  - intros [= <-]. split; [|done]. intros e He Hs. destruct (Hk1 e He Hs) as (e1 & He1 & Hp & Hc & Hb). by exists e1.
Qed.

Lemma range_keys_NoDup {V} (m : gmap string V) : NoDup (range m).*1.
Proof. rewrite range_perm. apply NoDup_fst_map_to_list. Qed.
Lemma elem_of_range {V} (m : gmap string V) k v : (k, v) ∈ range m ↔ m !! k = Some v.
Proof. rewrite range_perm. apply elem_of_map_to_list. Qed.
Lemma elem_of_range_keys {V} (m : gmap string V) k : k ∈ (range m).*1 ↔ is_Some (m !! k).
Proof. rewrite list_elem_of_fmap. split; [intros ([k' v] & E & Hin); simpl in E; subst k'; apply elem_of_range in Hin; by exists v|]. intros [v Hv]. exists (k, v). by rewrite elem_of_range. Qed.

Lemma NewProxy_ok pc rp : wf_config pc → NewProxy pc = Some rp → proxy_ok rp.
Proof.
  intros Hwf. unfold NewProxy. rewrite (managed_servers _ Hwf). simpl. destruct (fold_opt _ _ _) as [m|] eqn:E; [|done]. intros [= <-]. split; [done|]. simpl. intros id.
  destruct (fold_opt_own _ (λ _ v _ o', ∃ e, o' = Some e ∧ serves e v) _ _ _ (range_keys_NoDup _) new_client_own E id) as [Hin Hout].
  destruct (managedArrays pc !! id) as [a|] eqn:Ea.
  - apply Hin, elem_of_range. by rewrite lookup_fmap, Ea.
  - rewrite Hout; [apply lookup_empty|]. rewrite elem_of_range_keys, lookup_fmap, Ea. apply is_Some_None.
Qed.

Lemma delete_envoys_lookup new old m j :
  delete_envoys new old m !! j = if decide (new !! j = None ∧ is_Some (old !! j)) then None else m !! j.
Proof.
  unfold delete_envoys. transitivity (if decide (new !! j = None ∧ j ∈ (range old).*1) then None else m !! j); cycle 1.
  { apply decide_ext. by rewrite elem_of_range_keys. }
  revert m. induction (range old) as [|[k v] l IH]; intros m; simpl; [rewrite decide_False; [done|]; by intros [_ ?%not_elem_of_nil]|]. rewrite IH.
  destruct (decide (new !! j = None ∧ j ∈ l.*1)) as [Hd|Hd]; [by rewrite decide_True by set_solver|]. destruct (decide (new !! k = None)) as [Hk|Hk].
  - destruct (decide (k = j)) as [->|Hne]; [by rewrite lookup_delete_eq, decide_True by set_solver|]. rewrite lookup_delete_ne by done. by rewrite decide_False by set_solver.
  - rewrite decide_False; [done|]. intros [Hj [->|?]%elem_of_cons]; [done|]. by apply Hd.
Qed.

(** Whatever changes, the envoys are updated to those of the new configuration. *)
Lemma UpdateConfig_ok pc rp rp' : wf_config pc → proxy_ok rp → UpdateConfig pc rp = Some rp' → proxy_ok rp' ∧ config rp' = pc.
Proof.
  intros Hwf [Hwf0 Henv]. unfold UpdateConfig. destruct (decide (config rp = pc)) as [E|_]; [intros [= <-]; split; [by split|done]|].
  rewrite (managed_servers _ Hwf0), (managed_servers _ Hwf). simpl. rewrite update_by_array. destruct (fold_opt _ _ _) as [m|] eqn:E; [|done]. simpl. intros [= <-]. split; [|done]. split; [done|].
  cbn [config envoyMap updateConfig set_envoys]. intros id. specialize (Henv id).
  rewrite delete_envoys_lookup.
  destruct (fold_opt_own _ (own_update _) _ _ _ (range_keys_NoDup _) (update_array_own _) E id) as [Hin Hout].
  unfold own_update in Hin. rewrite elem_of_range_keys in Hout. setoid_rewrite elem_of_range in Hin. rewrite !lookup_fmap in *.
  destruct (managedArrays pc !! id) as [a|] eqn:Ea.
  - rewrite decide_False by (intros [? _]; done). specialize (Hin _ eq_refl). destruct (managedArrays (config rp) !! id) as [a0|]; simpl in Hin; [|done].
    destruct Henv as (e & He & Hs). by apply (Hin e).
  - destruct (managedArrays (config rp) !! id) as [a0|] eqn:Ea0; [by rewrite decide_True by (split; [done|by eexists])|].
    rewrite decide_False by (intros [_ ?%is_Some_None]; done). rewrite Hout; [done|]. apply is_Some_None.
Qed.

(** *** An update and the requests meanwhile *)
(** What happens to the proxy while it is updated from [old] to [new]: the changes of the update, in any order, its last
    step, and what requests do (the health of an envoy, the iterators, the number of requests) and the token. *)
Inductive update_step (old new : ProxyConfig) (rp : revProxy) : revProxy → Prop :=
| step_change oldServers newServers c m :
    GetManagedArraysAndServers old = Some oldServers → GetManagedArraysAndServers new = Some newServers →
    c ∈ update_changes oldServers newServers → change_envoys c (envoyMap rp) = Some m → update_step old new rp (set_envoys m rp)
| step_config : update_step old new rp (updateConfig new rp)
| step_report id now isSuccess : update_step old new rp (set_envoys (alter (healthHandler now isSuccess) id (envoyMap rp)) rp)
| step_other n iterators token : update_step old new rp (mkRevProxy (config rp) n (envoyMap rp) iterators token).

(** The update is a run of such steps. *)
Lemma UpdateConfig_steps pc rp rp' : UpdateConfig pc rp = Some rp' → rtc (update_step (config rp) pc) rp rp'.
Proof.
  unfold UpdateConfig. case_decide; [intros [= <-]; apply rtc_refl|]. destruct (GetManagedArraysAndServers (config rp)) as [olds|] eqn:Eo; [|done]. simpl.
  destruct (GetManagedArraysAndServers pc) as [news|] eqn:En; [|done]. simpl. destruct (fold_opt _ _ _) as [m|] eqn:E; [|done]. intros [= <-].
  assert (∀ l (m0 : gmap string envoy), l ⊆ update_changes olds news → fold_opt change_envoys l m0 = Some m → rtc (update_step (config rp) pc) (set_envoys m0 rp) (set_envoys m rp)) as Hrun.
  { induction l as [|c l IH]; intros m0 Hl; simpl; [intros [= <-]; apply rtc_refl|]. destruct (change_envoys c m0) as [m1|] eqn:Ec; [|done]. simpl. intros Hf.
    eapply rtc_l; [|apply IH; [set_solver|exact Hf]]. apply (step_change _ _ (set_envoys m0 rp) olds news c m1); [done..|set_solver|done]. }
  assert (set_envoys (envoyMap rp) rp = rp) as Hid by by destruct rp. pose proof (Hrun _ (envoyMap rp) ltac:(reflexivity) E) as Hr. rewrite Hid in Hr.
  eapply rtc_r; [exact Hr|]. apply step_config.
Qed.

(** The server is one of the array in the old or the new configuration. *)
Definition either (old new pc : ProxyConfig) : Prop := pc = old ∨ pc = new.
Definition server_of (old new : ProxyConfig) (id : string) (server : ManagementServer) : Prop :=
  ∃ pc a, either old new pc ∧ managedArrays pc !! id = Some a
    ∧ (managementServers pc !! PrimaryEndpoint a = Some server ∨ managementServers pc !! SecondaryEndpoint a = Some server).
Record built (old new : ProxyConfig) (id : string) (e : envoy) : Prop := mkBuilt {
  b_primary : ∃ s, server_of old new id s ∧ newReverseProxy s = Some (primary e);
  b_backup b : backup e = Some b → ∃ s, server_of old new id s ∧ newReverseProxy s = Some b;
  b_primaryHTTP c : primaryHTTP e = Some c → ∃ s, server_of old new id s ∧ newHTTPClient s = Some c;
  b_backupHTTP c : backupHTTP e = Some c → ∃ s, server_of old new id s ∧ newHTTPClient s = Some c;
}.
(** Old or new, the proxy and its envoys come from one of the two configurations. *)
Definition halfway (old new : ProxyConfig) (rp : revProxy) : Prop :=
  either old new (config rp) ∧ ∀ id e, envoyMap rp !! id = Some e → built old new id e.

Lemma configured_server_of old new pc id a s :
  wf_config pc → either old new pc → managedArrays pc !! id = Some a →
  s = PrimaryServer (configured_servers pc a) ∨ BackupServer (configured_servers pc a) = Some s → server_of old new id s.
Proof.
  intros Hwf He Ha Hs. exists pc, a. split_and!; [done..|]. destruct (wf_primary _ Hwf _ _ Ha) as [_ [p Ep]]. simpl in Hs. rewrite Ep in Hs. simpl in Hs.
  destruct Hs as [->|Hs]; [by left|]. case_decide; [done|]. by right.
Qed.
Lemma serves_built old new pc id a e :
  wf_config pc → either old new pc → managedArrays pc !! id = Some a → serves e (configured_servers pc a) → built old new id e.
Proof.
  intros Hwf He Ha (Hp & Hc & Hb). pose proof (λ s, configured_server_of old new pc id a s Hwf He Ha) as Hof. split.
  - eexists. split; [apply Hof; by left|done].
  - intros b Eb. destruct (BackupServer _) as [s|] eqn:Es; [|destruct Hb as [Hb _]; congruence]. exists s. split; [apply Hof; by right|]. destruct_and!; congruence.
  - intros c Ec. eexists. split; [apply Hof; by left|congruence].
  - intros c Ec. destruct (BackupServer _) as [s|] eqn:Es; [|destruct Hb as [_ Hb]; congruence]. exists s. split; [apply Hof; by right|]. destruct_and!; congruence.
Qed.
Lemma proxy_ok_halfway rp new : proxy_ok rp → halfway (config rp) new rp.
Proof.
  intros [Hwf Henv]. split; [by left|]. intros id e He. specialize (Henv id). destruct (managedArrays (config rp) !! id) as [a|] eqn:Ea; [|congruence].
  destruct Henv as (e' & He' & Hs). rewrite He in He'. injection He' as <-. by eapply serves_built; [|left| |].
Qed.

Abbreviation all_built old new m := (∀ id e, m !! id = Some e → built old new id e).

Lemma updateEnvoy_built old new k ty s (m m' : gmap string envoy) :
  server_of old new k s → all_built old new m → updateEnvoy k ty s m = Some m' → all_built old new m'.
Proof.
  intros Hs Hm E id e He. unfold updateEnvoy in E. destruct (m !! k) as [e0|] eqn:E0; [|injection E as <-; by apply Hm].
  destruct (newReverseProxy s) as [p|] eqn:Ep; [|done]. destruct (newHTTPClient s) as [c|] eqn:Ec; [|done]. simpl in E. injection E as <-.
  apply lookup_insert_Some in He as [[<- <-]|[_ He]]; [|by apply Hm]. destruct (Hm _ _ E0).
  destruct ty; split; simpl; try done; first [by exists s|by intros ? [= <-]; exists s].
Qed.
Lemma newEnvoyClient_built old new k sa e :
  (∀ s, s = PrimaryServer sa ∨ BackupServer sa = Some s → server_of old new k s) → newEnvoyClient sa = Some e → built old new k e.
Proof.
  intros Hof (Hp & Hc & Hb)%newEnvoyClient_serves. pose proof (Hof _ (or_introl eq_refl)) as Hpr. split.
  - by eexists.
  - intros b Eb. destruct (BackupServer sa) as [s|]; [|destruct Hb as [Hb _]; congruence]. exists s. split; [by apply Hof; right|]. destruct_and!; congruence.
  - intros c Ec. eexists. split; [done|congruence].
  - intros c Ec. destruct (BackupServer sa) as [s|]; [|destruct Hb as [_ Hb]; congruence]. exists s. split; [by apply Hof; right|]. destruct_and!; congruence.
Qed.

(** The servers of a change are those of the new configuration. *)
Definition change_of (old new : ProxyConfig) (c : envoy_change) : Prop :=
  match c with
  | UpdateEnvoy id _ s | SetBackupEnvoy id s => server_of old new id s
  | SetEnvoy id sa => ∀ s, s = PrimaryServer sa ∨ BackupServer sa = Some s → server_of old new id s
  | RemoveBackupEnvoy _ | RemoveEnvoy _ => True
  end.
Lemma update_changes_of old new olds c :
  wf_config new → c ∈ update_changes olds (configured_servers new <$> managedArrays new) → change_of old new c.
Proof.
  intros Hwf Hc. unfold update_changes in Hc. apply elem_of_app in Hc as [Hc|Hc]; apply list_elem_of_In, in_flat_map in Hc as ([k sa] & Hin & Hc);
    apply list_elem_of_In in Hin, Hc.
  - apply elem_of_range in Hin. rewrite lookup_fmap in Hin. destruct (managedArrays new !! k) as [a|] eqn:Ea; [|done]. injection Hin as <-.
    pose proof (λ s, configured_server_of old new new k a s Hwf (or_intror eq_refl) Ea) as Hof. unfold array_changes in Hc.
    destruct (olds !! k) as [osa|]; [|by apply list_elem_of_singleton in Hc as ->]. apply elem_of_app in Hc as [Hc|Hc].
    + destruct (hasServerChanged _ _); [|by apply not_elem_of_nil in Hc]. apply list_elem_of_singleton in Hc as ->. apply Hof. by left.
    + destruct (BackupServer (configured_servers new a)) as [b|] eqn:Eb, (BackupServer osa) as [ob|]; [destruct (hasServerChanged ob b)| | |];
        first [by apply not_elem_of_nil in Hc|apply list_elem_of_singleton in Hc as ->]; first [done|apply Hof; by right].
  - unfold removed_array in Hc. case_decide; [by apply list_elem_of_singleton in Hc as ->|by apply not_elem_of_nil in Hc].
Qed.
Lemma change_built old new c (m m' : gmap string envoy) : change_of old new c → all_built old new m → change_envoys c m = Some m' → all_built old new m'.
Proof.
  intros Hc Hm. destruct c as [k ty s|k s|k|k sa|k]; simpl in *; [by apply updateEnvoy_built|by apply updateEnvoy_built|..].
  - intros [= <-] id e. unfold removeBackupEnvoy. destruct (m !! k) as [e0|] eqn:E0; [|apply Hm].
    intros [[<- <-]|[_ He]]%lookup_insert_Some; [|by apply Hm]. destruct (Hm _ _ E0). by split.
  - unfold new_client. simpl. destruct (newEnvoyClient sa) as [e0|] eqn:E0; [|done]. intros [= <-] id e.
    intros [[<- <-]|[_ He]]%lookup_insert_Some; [|by apply Hm]. by eapply newEnvoyClient_built.
  - intros [= <-] id e [_ He]%lookup_delete_Some. by apply Hm.
Qed.
Lemma healthHandler_built old new id now b e : built old new id e → built old new id (healthHandler now b e).
Proof. unfold healthHandler. intros []. destruct b; [by split|]. destruct (ReportFailure now (healthMonitor e)) as [h []]; by split. Qed.

Lemma halfway_step old new rp rp' : wf_config new → update_step old new rp rp' → halfway old new rp → halfway old new rp'.
Proof.
  intros Hwf [olds news c m Ho Hn Hc Em| |id now b|n it tok] [Hcfg Hm].
  - split; [done|]. simpl. rewrite (managed_servers _ Hwf) in Hn. injection Hn as <-. eapply change_built; [|exact Hm|exact Em]. by eapply update_changes_of.
  - split; [by right|done].
  - split; [done|]. simpl. intros i e. destruct (decide (i = id)) as [->|Hne]; [|rewrite lookup_alter_ne by done; apply Hm].
    rewrite lookup_alter_eq. destruct (envoyMap rp !! id) as [e0|] eqn:E0; [|done]. intros [= <-]. by apply healthHandler_built, Hm.
  - by split.
Qed.
Lemma halfway_run old new rp rp' : wf_config new → rtc (update_step old new) rp rp' → halfway old new rp → halfway old new rp'.
Proof. intros Hwf Hrun. induction Hrun as [|? ? ? Hs _ IH]; [done|]. intros Hh. by eapply IH, halfway_step. Qed.

(** ** Updating is rebuilding *)
(** The certificates of the servers can be read. *)
Definition readable (pc : ProxyConfig) : Prop := ∀ url s, managementServers pc !! url = Some s → is_Some (newTLSConfig s).

Lemma fold_opt_total {A B} (f : B → A → option A) l a : (∀ b a, b ∈ l → is_Some (f b a)) → is_Some (fold_opt f l a).
Proof.
  revert a. induction l as [|b l IH]; intros a Hf; simpl; [done|]. destruct (Hf b a) as [a' ->]; [by left|]. simpl. apply IH. intros b' a0 ?. apply Hf. by right.
Qed.

(** The servers of an array can be reached, with the certificates they have. *)
Definition reachable (sa : StorageArrayServer) : Prop := ∀ s, s = PrimaryServer sa ∨ BackupServer sa = Some s → is_Some (newTLSConfig s).

Lemma configured_reachable pc id a : wf_config pc → readable pc → managedArrays pc !! id = Some a → reachable (configured_servers pc a).
Proof.
  intros Hwf Hr Ha s [->|Hs]; simpl in *.
  - destruct (wf_primary _ Hwf _ _ Ha) as [_ [s Hs]]. rewrite Hs. simpl. by eapply Hr.
  - case_decide; [done|]. by eapply Hr.
Qed.

Lemma newReverseProxy_total s : is_Some (newTLSConfig s) → is_Some (newReverseProxy s).
Proof. unfold newReverseProxy. intros [c ->]. done. Qed.
Lemma newEnvoyClient_total sa : reachable sa → is_Some (newEnvoyClient sa).
Proof.
  intros Hr. unfold newEnvoyClient, newHTTPClient. destruct (Hr _ (or_introl eq_refl)) as [c Hc]. destruct (newReverseProxy_total _ (ex_intro _ c Hc)) as [p ->]. rewrite Hc. simpl.
  destruct (BackupServer sa) as [b|] eqn:Eb; [|done]. destruct (Hr b (or_intror Eb)) as [c' Hc']. destruct (newReverseProxy_total _ (ex_intro _ c' Hc')) as [p' ->]. by rewrite Hc'.
Qed.
Lemma updateEnvoy_total k ty s (m : gmap string envoy) : is_Some (newTLSConfig s) → is_Some (updateEnvoy k ty s m).
Proof. intros Hs. unfold updateEnvoy, newHTTPClient. destruct (m !! k); [|done]. destruct (newReverseProxy_total _ Hs) as [p ->]. by destruct Hs as [c ->]. Qed.
Lemma new_client_total kv m : reachable kv.2 → is_Some (new_client kv m).
Proof. unfold new_client. by intros [e ->]%newEnvoyClient_total. Qed.

Lemma update_array_total old kv m : reachable kv.2 → is_Some (update_array old kv m).
Proof.
  destruct kv as [k sa]. simpl. intros Hr. unfold update_array. apply fold_opt_total. intros c m1 Hc. unfold array_changes in Hc.
  destruct (old !! k) as [osa|]; [|apply list_elem_of_singleton in Hc as ->; by apply new_client_total].
  apply elem_of_app in Hc as [Hc|Hc].
  - destruct (hasServerChanged _ _); [|by apply not_elem_of_nil in Hc]. apply list_elem_of_singleton in Hc as ->. apply updateEnvoy_total, Hr. by left.
  - destruct (BackupServer sa) as [b|] eqn:Eb, (BackupServer osa) as [ob|]; [destruct (hasServerChanged ob b)| | |];
      first [by apply not_elem_of_nil in Hc|apply list_elem_of_singleton in Hc as ->]; first [by eexists|apply updateEnvoy_total, Hr; by right].
Qed.

Lemma update_total pc rp : proxy_ok rp → wf_config pc → readable pc → is_Some (UpdateConfig pc rp).
Proof.
  intros [Hwf0 _] Hwf Hr. unfold UpdateConfig. case_decide; [done|]. rewrite (managed_servers _ Hwf0), (managed_servers _ Hwf). simpl. rewrite update_by_array.
  destruct (fold_opt_total (update_array (configured_servers (config rp) <$> managedArrays (config rp))) (range (configured_servers pc <$> managedArrays pc)) (envoyMap rp)) as [m ->]; [|done].
  intros [id sa] m Hin. apply update_array_total. simpl. apply elem_of_range in Hin. rewrite lookup_fmap in Hin. destruct (managedArrays pc !! id) eqn:Ea; [|done].
  injection Hin as <-. by eapply configured_reachable.
Qed.
Lemma NewProxy_config pc rp : NewProxy pc = Some rp → config rp = pc.
Proof. unfold NewProxy. destruct (GetManagedArraysAndServers pc); [|done]. simpl. destruct (fold_opt _ _ _); [|done]. by intros [= <-]. Qed.
Lemma new_total pc : wf_config pc → readable pc → is_Some (NewProxy pc).
Proof.
  intros Hwf Hr. unfold NewProxy. rewrite (managed_servers _ Hwf). simpl.
  destruct (fold_opt_total new_client (range (configured_servers pc <$> managedArrays pc)) ∅) as [m ->]; [|done].
  intros [id sa] m Hin. apply new_client_total. simpl. apply elem_of_range in Hin. rewrite lookup_fmap in Hin. destruct (managedArrays pc !! id) eqn:Ea; [|done].
  injection Hin as <-. by eapply configured_reachable.
Qed.

(** Where an envoy sends requests, whatever its health. *)
Definition targets (e : envoy) : Proxy * option Proxy * option TLSConfig * option TLSConfig := (primary e, backup e, primaryHTTP e, backupHTTP e).

Lemma serves_targets e1 e2 sa : serves e1 sa → serves e2 sa → targets e1 = targets e2.
Proof.
  unfold targets. intros (Hp1 & Hc1 & Hb1) (Hp2 & Hc2 & Hb2). rewrite Hp1 in Hp2. injection Hp2 as ->. rewrite <- Hc1, <- Hc2.
  destruct (BackupServer sa); destruct_and!; congruence.
Qed.

(** Updating the proxy to a new configuration leaves it with the envoys that a proxy
    built afresh from that configuration would have: the same arrays, and for each array the same primary
    and backup servers, limits and certificates. It succeeds whenever the certificates can be read. *)
Theorem update_config_rebuilds pc rp :
  proxy_ok rp → wf_config pc → readable pc →
  ∃ rp' rp0, UpdateConfig pc rp = Some rp' ∧ NewProxy pc = Some rp0 ∧ config rp' = config rp0
    ∧ ∀ id, targets <$> envoyMap rp' !! id = targets <$> envoyMap rp0 !! id.
Proof.
  intros Hok Hwf Hr. destruct (update_total _ _ Hok Hwf Hr) as [rp' E]. destruct (new_total _ Hwf Hr) as [rp0 E0]. exists rp', rp0. split; [done|]. split; [done|].
  destruct (UpdateConfig_ok _ _ _ Hwf Hok E) as [[_ Henv] Hc]. destruct (NewProxy_ok _ _ Hwf E0) as [_ Henv0].
  rewrite (NewProxy_config _ _ E0), Hc. split; [done|]. intros id.
  specialize (Henv id). specialize (Henv0 id). rewrite Hc in Henv. rewrite (NewProxy_config _ _ E0) in Henv0. destruct (managedArrays pc !! id).
  - destruct Henv as (e & -> & He), Henv0 as (e0 & -> & He0). simpl. f_equal. by eapply serves_targets.
  - by rewrite Henv, Henv0.
Qed.

(** ** The server (main.go) *)
Record Server := mkRevServer { server_config : ProxyConfig; server_Proxy : revProxy }.

(** Environment variables; a variable that is not set reads as the default. *)
Definition getEnv (env : gmap string string) (envName defaultValue : string) : string := default defaultValue (env !! envName).

Definition isSidecarMode (env : gmap string string) : bool :=
  let deployAsSidecar := getEnv env "DeployAsSidecar" "" in
  let csiDriverEnvVars := ["X_CSI_POWERMAX_ENDPOINT"; "X_CSI_POWERMAX_USER"; "X_CSI_POWERMAX_PASSWORD"; "X_CSI_POWERMAX_NODENAME"; "X_CSI_POWERMAX_PORTGROUPS"] in
  let hasCSIEnvVars := existsb (λ envVar, negb (bool_decide (getEnv env envVar "" = ""))) csiDriverEnvVars in
  let podName := getEnv env "POD_NAME" "" in
  let isCSIDriverPod := Contains podName "controller" || Contains podName "node" || Contains podName "csi-" in
  if bool_decide (deployAsSidecar ≠ "")
  then bool_decide (ToLower (TrimSpace deployAsSidecar) ∈ ["true"; "1"; "yes"])
  else hasCSIEnvVars && isCSIDriverPod.

Definition set_port (port : string) (pc : ProxyConfig) : ProxyConfig := mkProxyConfig port (managedArrays pc) (managementServers pc) (proxyCredentials pc).

(** [tokenFile] is what the file of the authorization token holds, when one is named and can be read. *)
Definition load_token (isSidecar : bool) (tokenFile : option string) (rp : revProxy) : revProxy :=
  match tokenFile with
  | Some bytes => if isSidecar || bool_decide (TrimSpace bytes = "") then rp else SetAuthToken (TrimSpace bytes) rp
  | None => rp
  end.

(** What is mounted: the secret with the port of the parameters, or the config map. *)
Inductive source := FromSecret (port : string) (ps : ProxySecret) (paramsPort : string) | FromConfigMap (cm : ProxyConfigMap).
Definition uses_secret (src : source) : bool := match src with FromSecret _ _ _ => true | FromConfigMap _ => false end.

(** The proxy is made before the port of the parameters is set. *)
Definition Setup `{K8sClient} (src : source) (isSidecar : bool) (tokenFile : option string) : option (result error Server) :=
  match src with
  | FromSecret port ps paramsPort =>
      match ParseConfigFromSecret port ps with
      | Err e => Some (Err e)
      | Ok pc =>
          proxy ← NewProxy pc;
          Some (Ok (mkRevServer (if decide (paramsPort ≠ "") then set_port paramsPort pc else pc) (load_token isSidecar tokenFile proxy)))
      end
  | FromConfigMap cm =>
      match ParseConfig cm with
      | Err e => Some (Err e)
      | Ok pc => proxy ← NewProxy pc; Some (Ok (mkRevServer pc (load_token isSidecar tokenFile proxy)))
      end
  end.

Definition replace_config (parsed : result error ProxyConfig) (s : Server) : option Server :=
  match parsed with
  | Err _ => Some s
  | Ok pc => proxy ← UpdateConfig pc (server_Proxy s); Some (mkRevServer pc proxy)
  end.
Definition configChangeConfigMap `{K8sClient} (cm : ProxyConfigMap) (s : Server) : option Server := replace_config (ParseConfig cm) s.
Definition configChangeSecret `{K8sClient} (port : string) (ps : ProxySecret) (s : Server) : option Server := replace_config (ParseConfigFromSecret port ps) s.
Definition configChangeParamsConfigMap (port : string) (s : Server) : option Server :=
  let config := set_port port (server_config s) in
  proxy ← UpdateConfig config (server_Proxy s); Some (mkRevServer config proxy).

Definition EventHandler `{K8sClient} (useSecret : bool) (secret : Secret) (s : Server) : option Server :=
  if useSecret then Some s
  else
    let conf := DeepCopy (server_config s) in
    let finish (conf : ProxyConfig) (hasChanged : bool) : option Server :=
      if hasChanged then proxy ← UpdateConfig conf (server_Proxy s); Some (mkRevServer conf proxy) else Some s in
    let certs :=
      if IsSecretConfiguredForCerts (secret_Name secret) conf then
        match getCertFileFromSecret 0 secret with
        | Err e => Err e
        | Ok certFileName => Ok (UpdateCerts (secret_Name secret) certFileName conf)
        end
      else Ok (conf, false) in
    match certs with
    | Err _ => Some s
    | Ok (conf, hasChanged) =>
        if IsSecretConfiguredForArrays useSecret (secret_Name secret) conf then
          match getCredentialFromSecret secret with
          | Err _ => Some s
          | Ok creds => '(conf, isUpdated) ← UpdateCreds useSecret (secret_Name secret) creds conf; finish conf (hasChanged || isUpdated)
          end
        else finish conf hasChanged
    end.

Definition report (id : string) (now : Z) (isSuccess : bool) (rp : revProxy) : revProxy :=
  set_envoys (alter (healthHandler now isSuccess) id (envoyMap rp)) rp.

(** A run of the server: files and secrets of the cluster change, and the answers of the management servers
    are reported to the health of the envoys. The cluster may be a different one at each step. *)
Inductive server_step (useSecret : bool) (s : Server) : Server → Prop :=
| step_config_map (k : K8sClient) cm s' : useSecret = false → configChangeConfigMap cm s = Some s' → server_step useSecret s s'
| step_secret (k : K8sClient) port ps s' : useSecret = true → configChangeSecret port ps s = Some s' → server_step useSecret s s'
| step_params port s' : useSecret = true → configChangeParamsConfigMap port s = Some s' → server_step useSecret s s'
| step_event (k : K8sClient) secret s' : EventHandler useSecret secret s = Some s' → server_step useSecret s s'
| step_health id now isSuccess : server_step useSecret s (mkRevServer (server_config s) (report id now isSuccess (server_Proxy s))).

(** *** The proxy follows the configuration *)
Definition server_ok (s : Server) : Prop := proxy_ok (server_Proxy s) ∧ set_port "" (config (server_Proxy s)) = set_port "" (server_config s).

Lemma set_port_wf port pc : wf_config pc → wf_config (set_port port pc).
Proof. intros [? ? ? ?]. by split. Qed.
Lemma same_but_port_wf pc pc' : set_port "" pc = set_port "" pc' → wf_config pc → wf_config pc'.
Proof. intros E Hwf. apply (set_port_wf "") in Hwf. rewrite E in Hwf. by apply (set_port_wf (Port pc')) in Hwf; destruct pc'. Qed.
Lemma server_ok_wf s : server_ok s → wf_config (server_config s).
Proof. intros [[Hwf _] E]. by apply (same_but_port_wf _ _ E). Qed.

Lemma update_server_ok pc s rp : wf_config pc → server_ok s → UpdateConfig pc (server_Proxy s) = Some rp → server_ok (mkRevServer pc rp).
Proof. intros Hwf [Hok _] E. destruct (UpdateConfig_ok _ _ _ Hwf Hok E) as [? Hc]. split; [done|]. simpl. by rewrite Hc. Qed.
Lemma replace_config_ok parsed s s' : (∀ pc, parsed = Ok pc → wf_config pc) → server_ok s → replace_config parsed s = Some s' → server_ok s'.
Proof.
  intros Hwf Hok. unfold replace_config. destruct parsed as [pc|]; [|by intros [= <-]]. destruct (UpdateConfig _ _) as [rp|] eqn:E; [|done]. intros [= <-].
  eapply update_server_ok; eauto.
Qed.

Lemma EventHandler_ok `{K8sClient} useSecret secret s s' : server_ok s → EventHandler useSecret secret s = Some s' → server_ok s'.
Proof.
  intros Hok. unfold EventHandler. destruct useSecret; [by intros [= <-]|].
  assert (∀ conf b s', wf_config conf → (if (b : bool) then proxy ← UpdateConfig conf (server_Proxy s); Some (mkRevServer conf proxy) else Some s) = Some s' → server_ok s') as Hfin.
  { intros conf b s1 Hwf. destruct b; [|by intros [= <-]]. destruct (UpdateConfig _ _) as [rp|] eqn:E; [|done]. intros [= <-]. eapply update_server_ok; eauto. }
  destruct (if IsSecretConfiguredForCerts _ _ then _ else _) as [[conf b]|] eqn:Ec; [|by intros [= <-]].
  assert (wf_config conf) as Hwf.
  { pose proof (DeepCopy_wf _ (server_ok_wf _ Hok)) as Hcopy. destruct (IsSecretConfiguredForCerts _ _); [|by injection Ec as <-].
    destruct (getCertFileFromSecret _ _) as [f|]; [|done]. injection Ec as <- _. by apply (UpdateCerts_wf (secret_Name secret) f) in Hcopy. }
  destruct (IsSecretConfiguredForArrays _ _ _); [|by apply Hfin]. destruct (getCredentialFromSecret secret) as [creds|]; [|by intros [= <-]].
  destruct (UpdateCreds _ _ _ _) as [[conf' b']|] eqn:Eu; [|done]. simpl. apply Hfin. by eapply UpdateCreds_wf.
Qed.

Lemma healthHandler_serves now b e sa : serves e sa → serves (healthHandler now b e) sa.
Proof. unfold healthHandler. destruct b; [done|]. destruct (ReportFailure now (healthMonitor e)) as [h []]; done. Qed.
Lemma report_ok id now b rp : proxy_ok rp → proxy_ok (report id now b rp).
Proof.
  intros [Hwf Henv]. split; [done|]. intros i. simpl. specialize (Henv i). destruct (decide (i = id)) as [->|Hne]; [|by rewrite lookup_alter_ne].
  rewrite lookup_alter_eq. destruct (managedArrays _ !! id); [|by rewrite Henv]. destruct Henv as (e & -> & He). eexists. split; [done|]. by apply healthHandler_serves.
Qed.

Lemma server_step_ok useSecret s s' : server_step useSecret s s' → server_ok s → server_ok s'.
Proof.
  intros [] Hok.
  - eapply replace_config_ok; [|done|done]. apply ParseConfig_wf.
  - eapply replace_config_ok; [|done|done]. apply ParseConfigFromSecret_wf.
  - unfold configChangeParamsConfigMap in *. destruct (UpdateConfig _ _) as [rp|] eqn:E; [|done]. simplify_eq/=. eapply update_server_ok; [|done|done].
    apply set_port_wf. by apply server_ok_wf.
  - by eapply EventHandler_ok.
  - destruct Hok as [Hok E]. split; [by apply report_ok|done].
Qed.

Lemma Setup_ok `{K8sClient} src isSidecar tokenFile s : Setup src isSidecar tokenFile = Some (Ok s) → server_ok s.
Proof.
  assert (∀ rp, proxy_ok rp → proxy_ok (load_token isSidecar tokenFile rp) ∧ config (load_token isSidecar tokenFile rp) = config rp) as Htoken.
  { intros rp [Hwf Henv]. unfold load_token. destruct tokenFile; [|by split]. case_match; by split. }
  unfold Setup. destruct src as [port ps paramsPort|cm].
  - destruct (ParseConfigFromSecret port ps) as [pc|] eqn:E; [|done]. destruct (NewProxy pc) as [rp|] eqn:En; [|done]. intros [= <-].
    apply ParseConfigFromSecret_wf in E. destruct (Htoken rp (NewProxy_ok _ _ E En)) as [Hok Hc]. split; [done|]. simpl. rewrite Hc, (NewProxy_config _ _ En). by case_decide.
  - destruct (ParseConfig cm) as [pc|] eqn:E; [|done]. destruct (NewProxy pc) as [rp|] eqn:En; [|done]. intros [= <-].
    apply ParseConfig_wf in E. destruct (Htoken rp (NewProxy_ok _ _ E En)) as [Hok Hc]. split; [done|]. simpl. by rewrite Hc, (NewProxy_config _ _ En).
Qed.

Lemma server_run_ok `{K8sClient} src isSidecar tokenFile s0 s :
  Setup src isSidecar tokenFile = Some (Ok s0) → rtc (server_step (uses_secret src)) s0 s → server_ok s.
Proof. intros Hs Hrun. apply Setup_ok in Hs. induction Hrun as [|? ? ? Hstep _ IH]; [done|]. apply IH. by eapply server_step_ok. Qed.

Lemma serves_active e sa : serves e sa → newReverseProxy (PrimaryServer sa) = Some (GetActiveProxy e) ∨ ∃ b, BackupServer sa = Some b ∧ newReverseProxy b = Some (GetActiveProxy e).
Proof.
  intros (Hp & _ & Hb). unfold GetActiveProxy. destruct (BackupServer sa) as [b|]; [|by destruct Hb as [-> _]; left].
  destruct Hb as ([p Ep] & Hb & _). rewrite Ep in *. destruct (active e =? 0); [by left|right]. by exists b.
Qed.

(** While the proxy runs, whatever files, secrets and health reports come in, in any order, the proxy
    uses the servers, users and arrays of the server's current configuration; it has an envoy for exactly the
    arrays of that configuration; and the envoy's active proxy goes to the primary or the backup server
    configured for the array, with that server's certificates and limits. *)
Theorem proxy_follows_config `{K8sClient} src isSidecar tokenFile s0 s id :
  Setup src isSidecar tokenFile = Some (Ok s0) → rtc (server_step (uses_secret src)) s0 s →
  set_port "" (config (server_Proxy s)) = set_port "" (server_config s)
  ∧ match managedArrays (server_config s) !! id with
    | Some a => ∃ e server, envoyMap (server_Proxy s) !! id = Some e ∧ newReverseProxy server = Some (GetActiveProxy e)
                 ∧ (managementServers (server_config s) !! PrimaryEndpoint a = Some server ∨ managementServers (server_config s) !! SecondaryEndpoint a = Some server)
    | None => envoyMap (server_Proxy s) !! id = None
    end.
Proof.
  intros Hs Hrun. destruct (server_run_ok _ _ _ _ _ Hs Hrun) as [[Hwf Henv] Hc]. split; [done|]. specialize (Henv id).
  destruct (server_Proxy s) as [pc n m cache token]. destruct pc as [port ma ms pcs], (server_config s) as [port' ma' ms' pcs']. simpl in *. injection Hc as <- <- <-.
  destruct (ma !! id) as [a|] eqn:Ea; [|done]. destruct Henv as (e & He & Hserv). destruct (wf_primary _ Hwf _ _ Ea) as [_ [p Hp]]. simpl in Hp.
  destruct (serves_active _ _ Hserv) as [Hact|(b & Hb & Hact)]; simpl in *.
  - rewrite Hp in Hact. exists e, p. auto.
  - case_decide; [done|]. exists e, b. auto.
Qed.
End proxy.

Module ServerDemo.
Import Conf.Demo.
#[export] Instance demo_files : FileSystem := {| ReadFile := λ name, Ok ("certificate of " ++ name) |}.

Definition demo_proxy : revProxy := default (mkRevProxy (mkProxyConfig "" ∅ ∅ ∅) 0 ∅ (Cache.New 0) "") (NewProxy demo_config).
Lemma demo_wf : wf_config demo_config.
Proof. eapply ParseConfig_wf. apply demo_parses. Qed.
Lemma demo_readable : readable demo_config.
Proof. intros url s _. unfold newTLSConfig. by destruct (SkipCertificateValidation s). Qed.
Lemma demo_new : NewProxy demo_config = Some demo_proxy.
Proof. unfold demo_proxy. by destruct (new_total _ demo_wf demo_readable) as [rp ->]. Qed.
Lemma demo_ok : proxy_ok demo_proxy.
Proof. exact (NewProxy_ok _ _ demo_wf demo_new). Qed.
Lemma demo_proxy_config : config demo_proxy = demo_config.
Proof. exact (NewProxy_config _ _ demo_new). Qed.

(** The second array loses its server, and the first its backup. *)
Definition demo_map' : ProxyConfigMap := mkConfigMap "2222" (Some ([demo_array "0001" "https://u1" "" ["sec"]], [demo_server "https://u1"])).
Definition demo_config' : ProxyConfig := match ParseConfig demo_map' with Ok pc => pc | Err _ => mkProxyConfig "" ∅ ∅ ∅ end.
Lemma demo_parses' : ParseConfig demo_map' = Ok demo_config'.
Proof. unfold demo_config'. destruct (ParseConfig demo_map') eqn:E; [done|]. by vm_compute in E. Qed.

Lemma update_config_rebuilds_witness :
  ∃ rp' rp0, UpdateConfig demo_config' demo_proxy = Some rp' ∧ NewProxy demo_config' = Some rp0 ∧ config rp' = config rp0
    ∧ ∀ id, targets <$> envoyMap rp' !! id = targets <$> envoyMap rp0 !! id.
Proof.
  apply (update_config_rebuilds demo_config' demo_proxy demo_ok).
  - eapply ParseConfig_wf. apply demo_parses'.
  - intros url s _. unfold newTLSConfig. by destruct (SkipCertificateValidation s).
Defined.

Definition demo_start : Server := mkRevServer demo_config demo_proxy.
Lemma demo_setup : Setup (FromConfigMap demo_map) false None = Some (Ok demo_start).
Proof. unfold Setup. rewrite demo_parses. by rewrite demo_new. Qed.

(** A failing server, then a change of the config map. *)
Lemma proxy_follows_config_witness :
  ∃ s, rtc (server_step false) demo_start s ∧ managedArrays (server_config s) !! "0002" = None ∧ envoyMap (server_Proxy s) !! "0002" = None.
Proof.
  pose (s1 := mkRevServer demo_config (report "0001" 5 false demo_proxy)).
  destruct (update_total demo_config' (server_Proxy s1)) as [rp E].
  { apply report_ok, demo_ok. }
  { eapply ParseConfig_wf. apply demo_parses'. }
  { intros url s _. unfold newTLSConfig. by destruct (SkipCertificateValidation s). }
  assert (rtc (server_step false) demo_start (mkRevServer demo_config' rp)) as Hrun.
  { eapply rtc_l; [apply (step_health false demo_start "0001" 5 false)|]. eapply rtc_once. eapply (step_config_map false s1 demo_k8s demo_map'); [done|].
    unfold configChangeConfigMap, replace_config. rewrite demo_parses'. by rewrite E. }
  exists (mkRevServer demo_config' rp). split; [done|].
  pose proof (proxy_follows_config (FromConfigMap demo_map) false None demo_start (mkRevServer demo_config' rp) "0002" demo_setup Hrun) as [_ Hid].
  assert (managedArrays (server_config (mkRevServer demo_config' rp)) !! "0002" = None) as Hnone by (vm_compute; reflexivity).
  rewrite Hnone in Hid. split; [exact Hnone|exact Hid].
Defined.

(** A backup that was not there when the primary failed is used as soon as it is configured. *)
Definition no_backup : envoy := NewEnvoy (mkProxy (mkTLSConfig true None) "https://u1" (ProxyLocks.mkLimits 0 0 0 0)).
Definition failed : envoy := Nat.iter 11 (healthHandler 5 false) no_backup.
Example backup_used_at_once :
  active failed = 1 ∧ proxy_URL (GetActiveProxy failed) = "https://u1"
  ∧ proxy_URL (GetActiveProxy (SetBackup (mkProxy (mkTLSConfig true None) "https://u2" (ProxyLocks.mkLimits 0 0 0 0)) failed)) = "https://u2".
Proof. split_and!; vm_compute; reflexivity. Qed.

(** A new secret of a management server that is no array's proxy secret is not noticed. *)
Definition server_only : ProxyConfigMap :=
  mkConfigMap "2222" (Some ([demo_array "0001" "https://u1" "" ["other"]], [demo_server "https://u1"])).
Example server_secret_ignored :
  match ParseConfig server_only with
  | Ok pc => CredentialSecret <$> managementServers pc !! "https://u1" = Some "sec"
             ∧ IsSecretConfiguredForArrays false "sec" (DeepCopy pc) = false ∧ IsSecretConfiguredForCerts "sec" (DeepCopy pc) = false
  | Err _ => False
  end.
Proof. vm_compute. done. Qed.
End ServerDemo.
End RevProxy.
