(* ===== verification/ProxyRequests.v ===== *)
(** * The reverse proxy: requests

    Models the handlers of csireverseproxy/pkg/proxy/proxy.go: who may use which array,
    the request made to a management server in the caller's place, and the handlers
    that fan out over the arrays of a caller. The router (package mux), the codecs of
    package encoding/json, the admission locks (file ProxyLocks) and the management
    servers are outside. A handler writes to the caller and sends requests; it may
    stop early. *)

From stdpp Require Import base gmap strings list.
From Stdlib Require Import ZArith Lia Ascii.
From S2P Require Import Prelude GoLib Base64 ProxyLocks ProxyHealth ProxyConf ProxyServer.

Module Requests.
Import ProxyLocks(GetRequestType, GetMaxOutStanding, GetMaxActive) Health(roundTripReport) Conf RevProxy.
Open Scope string_scope.
Open Scope Z_scope.

(** ** Basic authorization *)
Fixpoint Cut (c : ascii) (s : string) : option (string * string) :=
  match s with
  | "" => None
  | String d s => if decide (c = d) then Some ("", s) else '(before, after) ← Cut c s; Some (String d before, after)
  end.
(** utils.go *)
Definition BasicAuth (credentials : Credentials) : string := "Basic " ++ Base64.EncodeToString (UserName credentials ++ ":" ++ Password credentials).
(** Package net/http. *)
Definition parseBasicAuth (auth : string) : option (string * string) :=
  if EqualFold (stake 6 auth) "Basic " then Base64.DecodeString (sdrop 6 auth) ≫= Cut ":" else None.

(** ** Requests, responses and what a handler does *)
Record Request := mkRequest {
  Method : string;
  Path : string;
  RawQuery : string;
  Authorization : string;
  Vars : gmap string string;
  header_symid : string;
  header_token : string;
  Body : string;
}.
Definition RequestAuth (req : Request) : option (string * string) := parseBasicAuth (Authorization req).
Record Response := mkResponse { StatusCode : Z; resp_Body : string }.

Section handlers.
Context `{NetURL} `{MapOrder} `{FileSystem}.

(** A request to the management server at [fwd_Server]. *)
Record forward := mkForward {
  fwd_Server : URL;
  fwd_TLS : TLSConfig;
  fwd_Method : string;
  fwd_Path : string;
  fwd_Query : string;
  fwd_Authorization : string;
  fwd_Body : string;
}.

Inductive effect := Wrote (status : Z) (msg : string) | Answered (body : string) | Sent (f : forward) | Panicked.

(** The n-th call to the outside: the answer of a management server, of the admission lock of a server
    (with its limits), and the clock. [others] is what the other goroutines, an update of the configuration
    among them, have made of the proxy by the n-th time that a handler looks at it. *)
Class Outside := {
  others : nat → revProxy → revProxy;
  Do : nat → forward → result error Response;
  admits : nat → string → Z → Z → bool;
  clock : nat → Z;
}.
(** What a decoder leaves in a fresh value, and its error; [decode_SystemID] also leaves the rest of the body. *)
Class Json := {
  decode_VolumeIterator : string → (string * string) * option error;
  decode_Volumev1 : string → (list string * string) * option error;
  decode_PortGroupListResult : string → string * option error;
  decode_VersionDetails : string → string * option error;
  decode_MetricsIterator : string → string * option error;
  decode_SymmetrixIDList : string → list string * option error;
  decode_Capabilities : string → list string * option error;
  decode_SystemID : string → result error (string * string);
  Marshal : list string → string;
}.
Context `{Outside} `{Json}.

Record world := mkWorld { proxy : revProxy; calls : nat; looks : nat }.
Definition Handler (A : Type) : Type := world → world * list effect * option A.
Definition done {A} (a : A) : Handler A := λ w, (w, [], Some a).
Definition stop {A} : Handler A := λ w, (w, [], None).
Definition panicked {A} : Handler A := λ w, (w, [Panicked], None).
Definition emit (e : effect) : Handler unit := λ w, (w, [e], Some tt).
Definition gets {A} (f : revProxy → A) : Handler A :=
  λ w, let rp := others (looks w) (proxy w) in (mkWorld rp (calls w) (S (looks w)), [], Some (f rp)).
Definition bind {A B} (m : Handler A) (k : A → Handler B) : Handler B :=
  λ w, let '(w1, e1, r1) := m w in
       match r1 with
       | None => (w1, e1, None)
       | Some a => let '(w2, e2, r2) := k a w1 in (w2, (e1 ++ e2)%list, r2)
       end.
Notation "x <-- m ; k" := (bind m (λ x, k)) (at level 60, m at level 55, right associativity).
Notation "m >>> k" := (bind m (λ _, k)) (at level 60, right associativity).

Definition WriteHTTPError (msg : string) (status : Z) : Handler unit := emit (Wrote status (msg ++ String "010" "")).
Definition http_Error (msg : string) (status : Z) : Handler unit := emit (Wrote status (msg ++ String "010" "")).
Definition WriteHTTPResponse (text : string) : Handler unit := emit (Answered text).

Definition IsValidResponse (resp : Response) : option error :=
  if StatusCode resp =? 401 then Some (errorString "Not Authorised")
  else if StatusCode resp =? 500 then Some (errorString "Internal Server Error")
  else if negb ((200 <=? StatusCode resp) && (StatusCode resp <=? 299)) then Some (errorString "Invalid Response from API")
  else None.

(** Sending a request also reports to the health of the array's envoy. *)
Definition send (symID : string) (f : forward) : Handler (result error Response) :=
  λ w, let r := Do (calls w) f in
       let healthy := match r with Ok resp => roundTripReport false (StatusCode resp) | Err _ => roundTripReport true 0 end in
       let rp := match healthy with Some b => report symID (clock (calls w)) b (proxy w) | None => proxy w end in
       (mkWorld rp (S (calls w)) (looks w), [Sent f], Some r).
Definition lock (url : URL) (method : string) (limits : ProxyLocks.Limits) : Handler bool :=
  λ w, let lockType := GetRequestType method in
       (mkWorld (proxy w) (S (calls w)) (looks w), [], Some (admits (calls w) (URL_String url) (GetMaxOutStanding lockType limits) (GetMaxActive lockType limits))).
Definition cache_Set (key : string) (value : string * URL) : Handler unit :=
  λ w, let rp := proxy w in
       (mkWorld (mkRevProxy (config rp) (requestID rp) (envoyMap rp) (Cache.Set_ (clock (calls w)) key value (iteratorCache rp)) (authToken rp)) (S (calls w)) (looks w), [], Some tt).

(** ** Finding the proxy of an array *)
Definition getHTTPClient (symID : string) (rp : revProxy) : result error (option TLSConfig) :=
  match envoyMap rp !! symID with
  | Some envoy => Ok (GetActiveHTTPClient envoy)
  | None => Err (errorString "no http client found for the given symid")
  end.
(** A backup that is missing is a nil pointer. *)
Definition getProxyByURL (symmURL : string * URL) : Handler (result error Proxy) :=
  envoys <-- gets envoyMap;
  match envoys !! symmURL.1 with
  | Some envoy =>
      if decide (proxy_URL (primary envoy) = symmURL.2) then done (Ok (primary envoy))
      else match backup envoy with
           | Some b => done (if decide (proxy_URL b = symmURL.2) then Ok b else Err (errorString "no proxy found for this URL"))
           | None => panicked
           end
  | None => done (Err (errorString "no proxy found for this URL"))
  end.
Definition getProxyBySymmID (storageArrayID : string) (rp : revProxy) : result error Proxy :=
  if decide (GetStorageArray storageArrayID (config rp) = []) then Err (errorString "failed to find array id in the configuration")
  else match envoyMap rp !! storageArrayID with
       | Some envoy => Ok (GetActiveProxy envoy)
       | None => Err (errorString "failed to find reverseproxy for the array id")
       end.
Definition getIteratorByID (iterID : string) (rp : revProxy) : result error (string * URL) :=
  match Cache.Get iterID (iteratorCache rp) with
  | Some u4p => Ok u4p
  | None => Err (errorString "no symm info found for this iterator")
  end.

(** ** Who may use what *)
Definition authenticateSecretMode (req : Request) : Handler unit :=
  match RequestAuth req with
  | None => WriteHTTPError "no authorization provided" 401 >>> stop
  | Some (username, password) =>
      pc <-- gets config;
      if IsCredentialValidForAnyServer username password pc then done tt
      else WriteHTTPError "invalid credentials" 401 >>> stop
  end.

Definition auth_message (e : auth_error) : string :=
  match e with
  | IncorrectPassword => "incorrect password"
  | UnauthorizedForArray => "unauthorized for this array"
  | UnknownCredentials => "unknown credentials"
  end.
(** In config-map mode a request without credentials is answered and then checked with empty ones. *)
Definition isAuthorized (useSecret : bool) (req : Request) (storageArrayID : string) : Handler unit :=
  if useSecret then
    authenticateSecretMode req >>>
    (pc <-- gets config;
     if decide (GetStorageArray storageArrayID pc = []) then WriteHTTPError "unknown storage array" 401 >>> stop else done tt)
  else
    (if decide (RequestAuth req = None) then WriteHTTPError "no authorization provided" 401 else done tt) >>>
    (pc <-- gets config;
     let '(username, password) := default ("", "") (RequestAuth req) in
     match IsUserAuthorized username password storageArrayID pc with
     | Ok _ => done tt
     | Err e => WriteHTTPError (auth_message e) 401 >>> stop
     end).

Definition getAuthorisedArrays (useSecret : bool) (req : Request) : Handler (list string) :=
  if useSecret then
    authenticateSecretMode req >>>
    (pc <-- gets config;
     let ids := StorageArrayIdentifier <$> GetStorageArray "" pc in
     if decide (ids = []) then WriteHTTPError "no managed arrays configured" 401 >>> stop else done ids)
  else
    match RequestAuth req with
    | None => WriteHTTPError "no authorization provided" 401 >>> stop
    | Some (username, password) =>
        pc <-- gets config;
        let symIDs := GetAuthorizedArrays useSecret username password pc in
        if decide (symIDs = []) then WriteHTTPError "No managed arrays under this user" 401 >>> stop else done symIDs
    end.

(** ** The request made in the caller's place *)
(** The header [Authorization] it carries. *)
Definition modifyRequest (useSecret : bool) (req : Request) (targetURL : URL) : Handler string :=
  pc <-- gets config;
  match GetManagementServerCredentials useSecret targetURL pc with
  | Err e => WriteHTTPError (Error e) 401 >>> done (Authorization req)
  | Ok creds => done (BasicAuth creds)
  end.
Definition modifyHTTPRequest (useSecret : bool) (targetURL : URL) : Handler string :=
  pc <-- gets config;
  match GetManagementServerCredentials useSecret targetURL pc with
  | Err e => WriteHTTPError (Error e) 401 >>> done (BasicAuth (mkCredentials "" ""))
  | Ok creds => done (BasicAuth creds)
  end.

Definition web (scheme : string) : bool := bool_decide (scheme = "http" ∨ scheme = "https").
Definition unsupported (scheme : string) : Handler unit := WriteHTTPError ("unsupported URL scheme: " ++ scheme) 500.

(** [body] is what is left of the caller's. An answer of [None] was already written. *)
Definition getResponseIfAuthorised (useSecret : bool) (req : Request) (body symID : string) : Handler (option Response) :=
  found <-- gets (getProxyBySymmID symID);
  match found with
  | Err e => http_Error (Error e) 500 >>> done None
  | Ok p =>
      client <-- gets (getHTTPClient symID);
      match client with
      | Err e => http_Error (Error e) 500 >>> done None
      | Ok client =>
          let path := URL_String (proxy_URL p) ++ Path req ++ (if decide (RawQuery req ≠ "") then "?" ++ RawQuery req else "") in
          if negb (web (Scheme (proxy_URL p))) then unsupported (Scheme (proxy_URL p)) >>> done None
          else match Parse path with
               | Err e => http_Error (Error e) 500 >>> done None
               | Ok target =>
                   auth <-- modifyHTTPRequest useSecret (proxy_URL p);
                   admitted <-- lock (proxy_URL p) (Method req) (proxy_Limits p);
                   if negb admitted then WriteHTTPError "server busy" 504 >>> done None
                   else if negb (web (Scheme target)) then unsupported (Scheme target) >>> done None
                   else match client with
                        | None => panicked
                        | Some tls =>
                            r <-- send symID (mkForward (proxy_URL p) tls (Method req) (Path req) (RawQuery req) auth body);
                            done match r with Ok resp => Some resp | Err _ => None end
                        end
               end
      end
  end.

(** Package httputil sends the request on and copies the answer. *)
Definition ReverseProxy_ServeHTTP (req : Request) (symID : string) (p : Proxy) (auth : string) : Handler unit :=
  r <-- send symID (mkForward (proxy_URL p) (proxy_TLS p) (Method req) (Path req) (RawQuery req) auth (Body req));
  match r with
  | Ok resp => emit (Wrote (StatusCode resp) (resp_Body resp))
  | Err _ => emit (Wrote 502 "")
  end.

(** ** Handlers *)
Definition clientSymID : string := "proxyClientSymID".
Definition getSymID (req : Request) : option string :=
  match Vars req !! clientSymID with
  | Some symID => Some symID
  | None => Vars req !! "symid"
  end.

Definition ServeReverseProxy (useSecret : bool) (req : Request) : Handler unit :=
  match getSymID req with
  | None => http_Error "symmetrix id missing" 400
  | Some symID =>
      isAuthorized useSecret req symID >>>
      (found <-- gets (getProxyBySymmID symID);
       match found with
       | Err e => http_Error (Error e) 500
       | Ok p =>
           auth <-- modifyRequest useSecret req (proxy_URL p);
           admitted <-- lock (proxy_URL p) (Method req) (proxy_Limits p);
           if negb admitted then WriteHTTPError "server busy" 504
           else if negb (web (Scheme (proxy_URL p))) then unsupported (Scheme (proxy_URL p))
           else ReverseProxy_ServeHTTP req symID p auth
       end)
  end.

(** The lock that was refused does not stop the request. *)
Definition ServeIterator (useSecret : bool) (req : Request) : Handler unit :=
  found <-- gets (getIteratorByID (default "" (Vars req !! "iterId")));
  match found with
  | Err _ => WriteHTTPError "Missing Iterator info" 500
  | Ok u4p =>
      isAuthorized useSecret req u4p.1 >>>
      (found <-- getProxyByURL u4p;
       match found with
       | Err _ => WriteHTTPError "No Proxy found" 500
       | Ok p =>
           auth <-- modifyRequest useSecret req u4p.2;
           admitted <-- lock u4p.2 (Method req) (proxy_Limits p);
           (if negb admitted then WriteHTTPError "failed to obtain lock" 500 else done tt) >>>
           if negb (web (Scheme u4p.2)) then unsupported (Scheme u4p.2) else ReverseProxy_ServeHTTP req u4p.1 p auth
       end)
  end.

(** The first array that answers. *)
Fixpoint first_version (useSecret : bool) (req : Request) (symIDs : list string) : Handler unit :=
  match symIDs with
  | [] => done tt
  | symID :: symIDs =>
      r <-- getResponseIfAuthorised useSecret req (Body req) symID;
      match r with
      | None => first_version useSecret req symIDs
      | Some resp =>
          match IsValidResponse resp with
          | Some e => WriteHTTPError (Error e) (StatusCode resp)
          | None => match decode_VersionDetails (resp_Body resp) with
                    | (_, Some e) => WriteHTTPError ("decoding error: " ++ Error e) 400
                    | (text, None) => WriteHTTPResponse text
                    end
          end
      end
  end.
Definition ServeVersions (useSecret : bool) (req : Request) : Handler unit :=
  symIDs <-- getAuthorisedArrays useSecret req; first_version useSecret req symIDs.

(** The answers are dropped. *)
Fixpoint ask_all (useSecret : bool) (req : Request) (symIDs : list string) : Handler unit :=
  match symIDs with
  | [] => done tt
  | symID :: symIDs => getResponseIfAuthorised useSecret req (Body req) symID >>> ask_all useSecret req symIDs
  end.
Definition ServePerformance (useSecret : bool) (req : Request) : Handler unit :=
  symIDs <-- getAuthorisedArrays useSecret req; ask_all useSecret req symIDs.

(** [ServeVolumePerformance] and [ServeFSPerformance]: the array is read from the body, and what is left
    of the body is sent. *)
Definition ServeMetrics (useSecret : bool) (req : Request) : Handler unit :=
  match decode_SystemID (Body req) with
  | Err _ => WriteHTTPError "failed to decode request" 500
  | Ok (systemID, rest) =>
      isAuthorized useSecret req systemID >>>
      (r <-- getResponseIfAuthorised useSecret req rest systemID;
       match r with
       | None => stop
       | Some resp =>
           match IsValidResponse resp with
           | Some e => WriteHTTPError (Error e) (StatusCode resp)
           | None => let '(text, err) := decode_MetricsIterator (resp_Body resp) in
                     (match err with Some e => WriteHTTPError ("decoding error: " ++ Error e) 400 | None => done tt end) >>> WriteHTTPResponse text
           end
       end)
  end.

(** The entries of every array that answers. *)
Fixpoint gather (useSecret : bool) (req : Request) (decode : string → list string * option error) (symIDs : list string) : Handler (list string) :=
  match symIDs with
  | [] => done []
  | symID :: symIDs =>
      r <-- getResponseIfAuthorised useSecret req (Body req) symID;
      found <-- match r with
                | None => done []
                | Some resp =>
                    match IsValidResponse resp with
                    | Some _ => done []
                    | None => let '(l, err) := decode (resp_Body resp) in
                              (match err with Some e => WriteHTTPError ("decoding error: " ++ Error e) 400 | None => done tt end) >>> done l
                    end
                end;
      more <-- gather useSecret req decode symIDs;
      done (found ++ more)%list
  end.
Definition serve_list (decode : string → list string * option error) (useSecret : bool) (req : Request) : Handler unit :=
  symIDs <-- getAuthorisedArrays useSecret req;
  all <-- gather useSecret req decode symIDs;
  if decide (all = []) then WriteHTTPError "No valid response from the unisphere" 404 else WriteHTTPResponse (Marshal all).
Definition ServeSymmetrix : bool → Request → Handler unit := serve_list decode_SymmetrixIDList.
Definition ServeReplicationCapabilities : bool → Request → Handler unit := serve_list decode_Capabilities.

Definition null : string := "null".
Definition setIteratorID (resp : Response) (url : URL) (symID : string) : Handler (result error string) :=
  match decode_VolumeIterator (resp_Body resp) with
  | (_, Some e) => done (Err e)
  | ((id, text), None) => cache_Set id (symID, url) >>> done (Ok text)
  end.
Fixpoint set_all (ids : list string) (value : string * URL) : Handler unit :=
  match ids with
  | [] => done tt
  | id :: ids => cache_Set id value >>> set_all ids value
  end.
Definition setVolumeListID (resp : Response) (url : URL) (symID : string) : Handler (result error string) :=
  match decode_Volumev1 (resp_Body resp) with
  | (_, Some e) => done (Err e)
  | ((ids, text), None) => set_all ids (symID, url) >>> done (Ok text)
  end.
Definition setPortGroups (resp : Response) (url : URL) (symID : string) : Handler (result error string) :=
  done match decode_PortGroupListResult (resp_Body resp) with
       | (_, Some e) => Err e
       | (text, None) => Ok text
       end.

(** A response of one array, read by [set]; after an error the nil value is written too. *)
Definition serve_one (set : Response → URL → string → Handler (result error string)) (useSecret : bool) (req : Request) : Handler unit :=
  let symID := default "" (getSymID req) in
  isAuthorized useSecret req symID >>>
  (r <-- getResponseIfAuthorised useSecret req (Body req) symID;
   match r with
   | None => stop
   | Some resp =>
       match IsValidResponse resp with
       | Some e => WriteHTTPError (Error e) (StatusCode resp)
       | None =>
           found <-- gets (getProxyBySymmID symID);
           match found with
           | Err e => WriteHTTPError (Error e) 404
           | Ok p =>
               value <-- set resp (proxy_URL p) symID;
               match value with
               | Err e => WriteHTTPError (Error e) 500 >>> WriteHTTPResponse null
               | Ok text => WriteHTTPResponse text
               end
           end
       end
   end).
Definition ServeVolume : bool → Request → Handler unit := serve_one setIteratorID.
Definition GetVolumes : bool → Request → Handler unit := serve_one setVolumeListID.
Definition GetPortGroups : bool → Request → Handler unit := serve_one setPortGroups.

(** ** Routes *)
Inductive endpoint := EReverseProxy | EVolumes | EPortGroups | EVolume | EIterator | ESymmetrix | EVersions | EPerformance | EMetrics | ECapabilities.
Definition ifNoSymIDInvoke (customHandler : bool → Request → Handler unit) (useSecret : bool) (req : Request) : Handler unit :=
  match getSymID req with
  | Some _ => ServeReverseProxy useSecret req
  | None => customHandler useSecret req
  end.
(** The routes in the order they are registered: a path, a path with a query, or the start of a path. *)
Inductive pattern := PathIs (template : string) | PathQuery (template query : string) | PathPrefix (template : string).
Definition Prefix : string := "/univmax/restapi".
Definition PrefixV1 : string := "/univmax/rest/v1".
Definition PrivatePrefix : string := "/univmax/restapi/private".
Definition PrivateV1Prefix : string := "/univmax/rest/private/v1".
Definition InternalPrefix : string := Prefix ++ "/internal".
Definition routes : list (pattern * endpoint) := [
  (PathQuery (PrefixV1 ++ "/systems/{symid}/volumes") "limit", EReverseProxy);
  (PathIs (PrefixV1 ++ "/systems/{symid}/volumes"), EVolumes);
  (PathIs (PrefixV1 ++ "/systems/{symid}/port-groups"), EPortGroups);
  (PathIs (PrefixV1 ++ "/systems/{symid}/storage-groups"), EReverseProxy);
  (PathIs (Prefix ++ "/{version}/sloprovisioning/symmetrix/{symid}/volume"), EVolume);
  (PathPrefix (Prefix ++ "/{version}/sloprovisioning/symmetrix/{symid}"), EReverseProxy);
  (PathPrefix (Prefix ++ "/{version}/system/symmetrix/{symid}"), EReverseProxy);
  (PathPrefix (Prefix ++ "/{version}/sloprovisioning/symmetrix/{symid}"), EReverseProxy);
  (PathPrefix (PrivatePrefix ++ "/{version}/replication/symmetrix/{symid}"), EReverseProxy);
  (PathPrefix (PrivatePrefix ++ "/{version}/sloprovisioning/symmetrix/{symid}"), EReverseProxy);
  (PathPrefix (PrivateV1Prefix ++ "/systems/{symid}"), EReverseProxy);
  (PathPrefix (Prefix ++ "/{version}/replication/symmetrix/{symid}"), EReverseProxy);
  (PathIs (Prefix ++ "/{version}/sloprovisioning/symmetrix"), ESymmetrix);
  (PathIs (Prefix ++ "/common/Iterator/{iterId}/page"), EIterator);
  (PathIs (Prefix ++ "/{version}/system/symmetrix"), ESymmetrix);
  (PathIs (Prefix ++ "/{version}/system/version"), EVersions);
  (PathIs (Prefix ++ "/version"), EVersions);
  (PathIs (Prefix ++ "/performance/Array/keys"), EPerformance);
  (PathIs (Prefix ++ "/performance/Volume/metrics"), EMetrics);
  (PathIs (Prefix ++ "/performance/file/filesystem/metrics"), EMetrics);
  (PathIs (Prefix ++ "/{version}/replication/capabilities/symmetrix"), ECapabilities);
  (PathPrefix (InternalPrefix ++ "/{version}/file/symmetrix/{symid}"), EReverseProxy);
  (PathPrefix (Prefix ++ "/{version}/file/symmetrix/{symid}"), EReverseProxy);
  (PathPrefix (Prefix ++ "/{version}/migration/symmetrix/{symid}"), EReverseProxy)
].
(** The handler of an endpoint. *)
Definition route (e : endpoint) : bool → Request → Handler unit :=
  match e with
  | EReverseProxy => ServeReverseProxy
  | EVolumes => GetVolumes
  | EPortGroups => GetPortGroups
  | EVolume => ServeVolume
  | EIterator => ServeIterator
  | ESymmetrix => ifNoSymIDInvoke ServeSymmetrix
  | EVersions => ifNoSymIDInvoke ServeVersions
  | EPerformance => ifNoSymIDInvoke ServePerformance
  | EMetrics => ifNoSymIDInvoke ServeMetrics
  | ECapabilities => ifNoSymIDInvoke ServeReplicationCapabilities
  end.

Definition set_path_vars (path : string) (vars : gmap string string) (req : Request) : Request :=
  mkRequest (Method req) path (RawQuery req) (Authorization req) vars (header_symid req) (header_token req) (Body req).
Definition symIDMiddleware (next : Request → Handler unit) (req : Request) : Handler unit :=
  if decide (header_symid req ≠ "") then next (set_path_vars (Path req) (<[clientSymID := header_symid req]> (Vars req)) req) else next req.

(** [strings.TrimSuffix(s, "/")] *)
Fixpoint trim_slash (s : string) : string :=
  match s with
  | "" => ""
  | "/" => ""
  | String c s => String c (trim_slash s)
  end.
Definition getRequestID : Handler unit :=
  λ w, let rp := proxy w in
       (mkWorld (mkRevProxy (config rp) ((requestID rp + 1) mod 2 ^ 64) (envoyMap rp) (iteratorCache rp) (authToken rp)) (calls w) (looks w), [], Some tt).
Definition loggingMiddleware (next : Request → Handler unit) (req : Request) : Handler unit :=
  getRequestID >>> next (set_path_vars (trim_slash (Path req)) (Vars req) req).
Definition tokenAuthMiddleware (next : Request → Handler unit) (req : Request) : Handler unit :=
  token <-- gets authToken;
  if decide (token = "") then next req
  else if decide (header_token req = "") then WriteHTTPError "missing proxy auth token" 401
  else if decide (header_token req ≠ token) then WriteHTTPError "invalid proxy auth token" 401
  else next req.

(** The router (package mux) finds the endpoint and the variables of a request among the routes. *)
Definition serve (router : list (pattern * endpoint) → Request → option (endpoint * gmap string string)) (useSecret : bool) (req : Request) : Handler unit :=
  tokenAuthMiddleware (loggingMiddleware (λ req,
    match router routes req with
    | None => http_Error "404 page not found" 404
    | Some (e, vars) => symIDMiddleware (route e useSecret) (set_path_vars (Path req) vars req)
    end)) req.

(** ** What the proxy sends *)
Section sending.
Context (useSecret : bool) (pc : ProxyConfig) (auth : string).

(** The credentials of the request let its caller use an array: in secret mode those of any management server do. *)
Definition may_use (id : string) : Prop :=
  if useSecret then ∃ username password, parseBasicAuth auth = Some (username, password) ∧ IsCredentialValidForAnyServer username password pc = true
  else let '(username, password) := default ("", "") (parseBasicAuth auth) in IsUserAuthorized username password id pc = Ok tt.
Definition array_server (a : StorageArray) (server : ManagementServer) : Prop :=
  managementServers pc !! PrimaryEndpoint a = Some server ∨ managementServers pc !! SecondaryEndpoint a = Some server.
Definition sent_for (f : forward) : Prop :=
  ∃ id a server certified creds,
    may_use id ∧ managedArrays pc !! id = Some a ∧ array_server a server ∧ fwd_Server f = Endpoint server
    ∧ array_server a certified ∧ newTLSConfig certified = Some (fwd_TLS f)
    ∧ GetManagementServerCredentials useSecret (Endpoint server) pc = Ok creds ∧ fwd_Authorization f = BasicAuth creds.

End sending.

Section safety.
Context (useSecret : bool) (old new : ProxyConfig) (auth : string).

(** *** While the configuration is updated *)
(** Allowed by one of the two configurations. *)
Definition allowed (id : string) : Prop := ∃ pc, either old new pc ∧ may_use useSecret pc auth id.
(** The credentials that one of the two configurations has for the server; when it has none, the caller's own
    header or an empty user go out. *)
Definition header_for (url : URL) (header : string) : Prop :=
  ∃ pc, either old new pc ∧
    match GetManagementServerCredentials useSecret url pc with
    | Ok creds => header = BasicAuth creds
    | Err _ => header = auth ∨ header = BasicAuth (mkCredentials "" "")
    end.
Definition sent_during (f : forward) : Prop :=
  ∃ id server certified,
    allowed id ∧ server_of old new id server ∧ fwd_Server f = Endpoint server
    ∧ server_of old new id certified ∧ newTLSConfig certified = Some (fwd_TLS f)
    ∧ header_for (Endpoint server) (fwd_Authorization f).

Definition inv (w : world) : Prop := halfway old new (proxy w).
Context (Hothers : ∀ n rp, halfway old new rp → halfway old new (others n rp)).
Definition safe {A} (m : Handler A) (Q : A → Prop) : Prop :=
  ∀ w, inv w → inv (m w).1.1 ∧ (∀ f, Sent f ∈ (m w).1.2 → sent_during f) ∧ (∀ a, (m w).2 = Some a → Q a).

Lemma nothing_sent f : Sent f ∈ ([] : list effect) → sent_during f.
Proof. by intros ?%not_elem_of_nil. Qed.
Local Hint Resolve nothing_sent : core.

Lemma safe_done {A} (a : A) (Q : A → Prop) : Q a → safe (done a) Q.
Proof. intros Ha w Hw. split_and!; [done|auto|by intros a' [= <-]]. Qed.
Lemma safe_stop {A} (Q : A → Prop) : safe stop Q.
Proof. intros w Hw. split_and!; [done|auto|done]. Qed.
Lemma safe_panicked {A} (Q : A → Prop) : safe panicked Q.
Proof. intros w Hw. split_and!; [done|by intros f ?%list_elem_of_singleton|done]. Qed.
Lemma safe_emit e (Q : unit → Prop) : (∀ f, Sent f ≠ e) → Q tt → safe (emit e) Q.
Proof. intros He HQ w Hw. split_and!; [done|by intros f ?%list_elem_of_singleton; destruct (He f)|by intros [] _]. Qed.
Lemma safe_gets {A} (f : revProxy → A) (Q : A → Prop) : (∀ rp, halfway old new rp → Q (f rp)) → safe (gets f) Q.
Proof. intros HQ w Hw. split_and!; [by apply Hothers|auto|]. intros a [= <-]. by apply HQ, Hothers. Qed.
Lemma safe_bind {A B} (m : Handler A) (k : A → Handler B) (R : A → Prop) (Q : B → Prop) : safe m R → (∀ a, R a → safe (k a) Q) → safe (bind m k) Q.
Proof.
  intros Hm Hk w Hw. specialize (Hm w Hw). unfold bind. destruct (m w) as [[w1 e1] [a|]]; simpl in *; destruct Hm as (Hw1 & Hf1 & Ha); [|by split_and!].
  specialize (Hk a (Ha a eq_refl) w1 Hw1). destruct (k a w1) as [[w2 e2] r]. simpl in *. destruct Hk as (? & ? & ?). split_and!; [done| |done].
  intros f [?|?]%elem_of_app; auto.
Qed.
Lemma safe_then {A B} (m : Handler A) (k : Handler B) (Q : B → Prop) : safe m (λ _, True) → safe k Q → safe (bind m (λ _, k)) Q.
Proof. intros Hm Hk. by apply (safe_bind _ _ _ _ Hm). Qed.
Lemma safe_send id f (Q : result error Response → Prop) : sent_during f → (∀ r, Q r) → safe (send id f) Q.
Proof.
  intros Hf HQ w [Hc Hm]. simpl. split_and!; [|by intros f' [= ->]%list_elem_of_singleton|auto]. unfold inv. cbn [proxy].
  destruct (match Do _ _ with Ok _ => _ | Err _ => _ end) as [b|]; [|by split]. split; [done|]. simpl. intros i e.
  destruct (decide (i = id)) as [->|Hne]; [|rewrite lookup_alter_ne by done; apply Hm].
  rewrite lookup_alter_eq. destruct (envoyMap (proxy w) !! id) as [e0|] eqn:E0; [|done]. intros [= <-]. by apply healthHandler_built, Hm.
Qed.
Lemma safe_lock url method limits (Q : bool → Prop) : (∀ b, Q b) → safe (lock url method limits) Q.
Proof. intros HQ w Hw. by split_and!; [|auto|]. Qed.
Lemma safe_cache_Set key v : safe (cache_Set key v) (λ _, True).
Proof. intros w [Hc Hm]. split_and!; [by split|auto|done]. Qed.
Lemma safe_getRequestID : safe getRequestID (λ _, True).
Proof. intros w [Hc Hm]. split_and!; [by split|auto|done]. Qed.

Lemma safe_write msg status (Q : unit → Prop) : Q tt → safe (WriteHTTPError msg status) Q.
Proof. by apply safe_emit. Qed.
Lemma safe_error msg status (Q : unit → Prop) : Q tt → safe (http_Error msg status) Q.
Proof. by apply safe_emit. Qed.
Lemma safe_answer text (Q : unit → Prop) : Q tt → safe (WriteHTTPResponse text) Q.
Proof. by apply safe_emit. Qed.
Lemma safe_unsupported scheme (Q : unit → Prop) : Q tt → safe (unsupported scheme) Q.
Proof. by apply safe_emit. Qed.

(** *** Servers of an array *)
Definition of_proxy (id : string) (p : Proxy) : Prop := ∃ server, server_of old new id server ∧ newReverseProxy server = Some p.
Definition of_client (id : string) (tls : TLSConfig) : Prop := ∃ server, server_of old new id server ∧ newTLSConfig server = Some tls.

Lemma newReverseProxy_fields server p : newReverseProxy server = Some p → proxy_URL p = Endpoint server ∧ newTLSConfig server = Some (proxy_TLS p).
Proof. unfold newReverseProxy. destruct (newTLSConfig server); [|done]. by intros [= <-]. Qed.
Lemma of_proxy_client id p : of_proxy id p → of_client id (proxy_TLS p).
Proof. intros (server & ? & [_ ?]%newReverseProxy_fields). by exists server. Qed.

Lemma getProxyBySymmID_of rp id p : halfway old new rp → getProxyBySymmID id rp = Ok p → of_proxy id p.
Proof.
  intros [_ Hm]. unfold getProxyBySymmID. destruct (decide _); [done|]. destruct (envoyMap rp !! id) as [e|] eqn:He; [|done]. intros [= <-].
  destruct (Hm _ _ He) as [Hp Hb _ _]. unfold GetActiveProxy. destruct (backup e) as [b|]; [|done]. destruct (active e =? 0); [done|by apply Hb].
Qed.
Lemma getHTTPClient_of rp id tls : halfway old new rp → getHTTPClient id rp = Ok (Some tls) → of_client id tls.
Proof.
  intros [_ Hm]. unfold getHTTPClient. destruct (envoyMap rp !! id) as [e|] eqn:He; [|done]. intros [= E].
  destruct (Hm _ _ He) as [_ _ Hp Hb]. unfold GetActiveHTTPClient in E. destruct (_ || _); [by apply Hp|by apply Hb].
Qed.

Lemma safe_getProxyByURL u : safe (getProxyByURL u) (λ r, ∀ p, r = Ok p → of_proxy u.1 p ∧ proxy_URL p = u.2).
Proof.
  unfold getProxyByURL. eapply safe_bind.
  { apply (safe_gets _ (λ m, ∀ e, m !! u.1 = Some e → of_proxy u.1 (primary e) ∧ ∀ b, backup e = Some b → of_proxy u.1 b)). intros rp [_ Hm] e He.
    destruct (Hm _ _ He) as [Hp Hb _ _]. by split. }
  simpl. intros m Hm. destruct (m !! u.1) as [e|]; [|by apply safe_done]. destruct (Hm e eq_refl) as [Hp Hb]. destruct (decide _); [by apply safe_done; intros p [= <-]|].
  destruct (backup e) as [b|]; [|apply safe_panicked]. apply safe_done. intros p. destruct (decide _); [|done]. intros [= <-]. auto.
Qed.

Lemma sent_during_intro id p tls method path query header body :
  allowed id → of_proxy id p → of_client id tls → header_for (proxy_URL p) header → sent_during (mkForward (proxy_URL p) tls method path query header body).
Proof.
  intros Hu (server & Hs & [Hurl _]%newReverseProxy_fields) (certified & Hc & Htls) Hh. rewrite Hurl in Hh. by exists id, server, certified.
Qed.

(** *** Handlers *)
(** Writing to the caller, stopping, and the cases of what was found. *)
Ltac walk :=
  repeat match goal with
  | |- safe (done _) _ => apply safe_done
  | |- safe stop _ => apply safe_stop
  | |- safe panicked _ => apply safe_panicked
  | |- safe (WriteHTTPError _ _) _ => apply safe_write
  | |- safe (http_Error _ _) _ => apply safe_error
  | |- safe (WriteHTTPResponse _) _ => apply safe_answer
  | |- safe (unsupported _) _ => apply safe_unsupported
  | |- safe (bind (WriteHTTPError _ _) _) _ => apply safe_then; [by apply safe_write|]
  | |- safe (bind (http_Error _ _) _) _ => apply safe_then; [by apply safe_error|]
  | |- safe (bind (unsupported _) _) _ => apply safe_then; [by apply safe_unsupported|]
  | |- safe (if ?b then _ else _) _ => destruct b
  | |- safe (match ?x with Some _ => _ | None => _ end) _ => destruct x
  | |- safe (match ?x with (_, _) => _ end) _ => destruct x
  end; try done.

Lemma safe_config : safe (gets config) (either old new).
Proof. apply safe_gets. by intros rp [Hc _]. Qed.

Lemma safe_authenticate req : Authorization req = auth →
  safe (authenticateSecretMode req) (λ _, ∃ pc username password, either old new pc ∧ parseBasicAuth auth = Some (username, password)
    ∧ IsCredentialValidForAnyServer username password pc = true).
Proof.
  unfold authenticateSecretMode, RequestAuth. intros ->. destruct (parseBasicAuth auth) as [[u p]|]; [|walk].
  eapply safe_bind; [apply safe_config|]. intros pc Hpc. destruct (IsCredentialValidForAnyServer u p pc) eqn:E; walk. by exists pc, u, p.
Qed.
Lemma secret_allowed id pc username password :
  useSecret = true → either old new pc → parseBasicAuth auth = Some (username, password) → IsCredentialValidForAnyServer username password pc = true → allowed id.
Proof. intros Hs Hpc Hp Hv. exists pc. split; [done|]. unfold may_use. rewrite Hs. by exists username, password. Qed.

Lemma safe_isAuthorized req id : Authorization req = auth → safe (isAuthorized useSecret req id) (λ _, allowed id).
Proof.
  intros Ha. unfold isAuthorized. destruct useSecret eqn:Hsec.
  - eapply safe_bind; [by apply safe_authenticate|]. intros ? (pc & u & p & Hpc & Hp & Hv). apply (safe_bind _ _ _ _ safe_config). intros pc' _.
    pose proof (secret_allowed id pc u p Hsec Hpc Hp Hv). walk.
  - apply safe_then; [walk|]. apply (safe_bind _ _ _ _ safe_config). intros pc Hpc. unfold RequestAuth. rewrite Ha.
    destruct (default _ _) as [u p] eqn:Ed. destruct (IsUserAuthorized u p id pc) as [[]|] eqn:E; walk. exists pc. split; [done|]. unfold may_use. rewrite Hsec, Ed. done.
Qed.

Lemma safe_getAuthorisedArrays req : Authorization req = auth → safe (getAuthorisedArrays useSecret req) (λ ids, ∀ id, id ∈ ids → allowed id).
Proof.
  intros Ha. unfold getAuthorisedArrays. destruct useSecret eqn:Hsec.
  - eapply safe_bind; [by apply safe_authenticate|]. intros ? (pc & u & p & Hpc & Hp & Hv). apply (safe_bind _ _ _ _ safe_config). intros pc' _. walk.
    intros id _. by apply (secret_allowed id pc u p).
  - unfold RequestAuth. rewrite Ha. destruct (parseBasicAuth auth) as [[u p]|] eqn:Ep; [|walk]. apply (safe_bind _ _ _ _ safe_config). intros pc Hpc. walk. simpl.
    intros id Hid. unfold GetAuthorizedArrays in Hid. apply list_elem_of_bind in Hid as ([k a] & Hid & _). apply list_elem_of_bind in Hid as ([url server] & Hid & _).
    destruct (IsUserAuthorized _ _ _ _) as [[]|] eqn:E; simpl in Hid; [|by apply not_elem_of_nil in Hid]. apply list_elem_of_singleton in Hid as ->.
    exists pc. split; [done|]. unfold may_use. by rewrite Hsec, Ep.
Qed.

Lemma safe_modify req url : Authorization req = auth → safe (modifyRequest useSecret req url) (header_for url).
Proof.
  intros Ha. unfold modifyRequest. apply (safe_bind _ _ _ _ safe_config). intros pc Hpc.
  destruct (GetManagementServerCredentials useSecret url pc) eqn:E; walk; exists pc; rewrite E; auto.
Qed.
Lemma safe_modifyHTTP url : safe (modifyHTTPRequest useSecret url) (header_for url).
Proof.
  unfold modifyHTTPRequest. apply (safe_bind _ _ _ _ safe_config). intros pc Hpc.
  destruct (GetManagementServerCredentials useSecret url pc) eqn:E; walk; exists pc; rewrite E; auto.
Qed.

Lemma safe_found id : safe (gets (getProxyBySymmID id)) (λ r, ∀ p, r = Ok p → of_proxy id p).
Proof. apply safe_gets. intros rp Hh p. by apply getProxyBySymmID_of. Qed.

Lemma safe_getResponse req body id : allowed id → safe (getResponseIfAuthorised useSecret req body id) (λ _, True).
Proof.
  intros Huse. unfold getResponseIfAuthorised. eapply safe_bind; [apply safe_found|]. intros [p|e] Hp; [|walk]. specialize (Hp p eq_refl).
  eapply safe_bind; [apply (safe_gets _ (λ r, ∀ tls, r = Ok (Some tls) → of_client id tls)); intros rp Hh tls; by apply getHTTPClient_of|].
  intros [client|e] Hcl; [|walk]. destruct (negb _); [walk|]. destruct (Parse _) as [target|e]; [|walk].
  eapply safe_bind; [apply safe_modifyHTTP|]. intros header Hh. eapply safe_bind; [by apply (safe_lock _ _ _ (λ _, True))|]. intros admitted _.
  destruct (negb admitted); [walk|]. destruct (negb _); [walk|]. destruct client as [tls|]; [|walk].
  eapply safe_bind; [apply (safe_send _ _ (λ _, True)); [|done]; apply (sent_during_intro id); auto|]. intros r _. walk.
Qed.

Lemma safe_ServeHTTP req id p header : allowed id → of_proxy id p → header_for (proxy_URL p) header → safe (ReverseProxy_ServeHTTP req id p header) (λ _, True).
Proof.
  intros Hu Hp Hh. unfold ReverseProxy_ServeHTTP. eapply safe_bind; [apply (safe_send _ _ (λ _, True)); [|done]; apply (sent_during_intro id); auto; by apply of_proxy_client|].
  intros [r|e] _; by apply safe_emit.
Qed.

Lemma safe_ServeReverseProxy req : Authorization req = auth → safe (ServeReverseProxy useSecret req) (λ _, True).
Proof.
  intros Ha. unfold ServeReverseProxy. destruct (getSymID req) as [id|]; [|walk]. eapply safe_bind; [by apply safe_isAuthorized|]. intros ? Hu; simpl in Hu.
  eapply safe_bind; [apply safe_found|]. intros [p|e] Hp; [|walk]. specialize (Hp p eq_refl).
  eapply safe_bind; [by apply safe_modify|]. intros header Hh. eapply safe_bind; [by apply (safe_lock _ _ _ (λ _, True))|]. intros admitted _.
  destruct (negb admitted); [walk|]. destruct (negb _); [walk|]. by apply safe_ServeHTTP.
Qed.

Lemma safe_ServeIterator req : Authorization req = auth → safe (ServeIterator useSecret req) (λ _, True).
Proof.
  intros Ha. unfold ServeIterator. eapply safe_bind; [by apply (safe_gets _ (λ _, True))|]. intros [u|e] _; [|walk]. eapply safe_bind; [by apply safe_isAuthorized|]. intros ? Hu; simpl in Hu.
  eapply safe_bind; [apply safe_getProxyByURL|]. intros [p|e] Hp; [|walk]. destruct (Hp p eq_refl) as [Hof Hurl]. rewrite <- Hurl.
  eapply safe_bind; [by apply safe_modify|]. intros header Hh. eapply safe_bind; [by apply (safe_lock _ _ _ (λ _, True))|]. intros admitted _.
  apply safe_then; [walk|]. destruct (negb _); [walk|]. by apply safe_ServeHTTP.
Qed.

Lemma safe_first_version req ids : (∀ id, id ∈ ids → allowed id) → safe (first_version useSecret req ids) (λ _, True).
Proof.
  induction ids as [|id ids IH]; intros Hu; simpl; [walk|]. eapply safe_bind; [apply safe_getResponse, Hu; by left|]. intros r _.
  assert (safe (first_version useSecret req ids) (λ _, True)) by (apply IH; intros; apply Hu; by right). walk.
Qed.
Lemma safe_ask_all req ids : (∀ id, id ∈ ids → allowed id) → safe (ask_all useSecret req ids) (λ _, True).
Proof.
  induction ids as [|id ids IH]; intros Hu; simpl; [walk|]. apply safe_then; [apply safe_getResponse, Hu; by left|]. apply IH. intros. apply Hu. by right.
Qed.
Lemma safe_gather req decode ids : (∀ id, id ∈ ids → allowed id) → safe (gather useSecret req decode ids) (λ _, True).
Proof.
  induction ids as [|id ids IH]; intros Hu; simpl; [walk|]. eapply safe_bind; [apply safe_getResponse, Hu; by left|]. intros r _.
  apply (safe_bind _ _ (λ _, True)); [walk; apply safe_then; walk|]. intros found _. eapply safe_bind; [apply IH; intros; apply Hu; by right|]. intros more _. walk.
Qed.

Lemma safe_serve_list decode req : Authorization req = auth → safe (serve_list decode useSecret req) (λ _, True).
Proof.
  intros Ha. unfold serve_list. eapply safe_bind; [by apply safe_getAuthorisedArrays|]. intros ids Hids. eapply safe_bind; [by apply safe_gather|]. intros all _. walk.
Qed.
Lemma safe_ServeMetrics req : Authorization req = auth → safe (ServeMetrics useSecret req) (λ _, True).
Proof.
  intros Ha. unfold ServeMetrics. destruct (decode_SystemID _) as [[id rest]|]; [|walk]. eapply safe_bind; [by apply safe_isAuthorized|]. intros ? Hu. simpl in Hu.
  eapply safe_bind; [by apply safe_getResponse|]. intros r _. walk. apply safe_then; walk.
Qed.

Lemma safe_set_all ids v : safe (set_all ids v) (λ _, True).
Proof. induction ids; simpl; [walk|]. apply safe_then; [apply safe_cache_Set|done]. Qed.
Lemma safe_setIteratorID resp url id : safe (setIteratorID resp url id) (λ _, True).
Proof. unfold setIteratorID. walk. apply safe_then; [apply safe_cache_Set|walk]. Qed.
Lemma safe_setVolumeListID resp url id : safe (setVolumeListID resp url id) (λ _, True).
Proof. unfold setVolumeListID. walk. apply safe_then; [apply safe_set_all|walk]. Qed.
Lemma safe_serve_one set req : Authorization req = auth → (∀ resp url id, safe (set resp url id) (λ _, True)) → safe (serve_one set useSecret req) (λ _, True).
Proof.
  intros Ha Hset. unfold serve_one. eapply safe_bind; [by apply safe_isAuthorized|]. intros ? Hu. simpl in Hu. eapply safe_bind; [by apply safe_getResponse|]. intros r _. walk.
  eapply safe_bind; [apply safe_found|]. intros [p|e] _; [|walk]. eapply safe_bind; [apply Hset|]. intros [text|e] _; walk.
Qed.

Lemma safe_ifNoSymID custom req : Authorization req = auth → safe (custom useSecret req) (λ _, True) → safe (ifNoSymIDInvoke custom useSecret req) (λ _, True).
Proof. intros Ha Hc. unfold ifNoSymIDInvoke. destruct (getSymID req); [by apply safe_ServeReverseProxy|done]. Qed.

Lemma safe_route e req : Authorization req = auth → safe (route e useSecret req) (λ _, True).
Proof.
  intros Ha. destruct e; simpl.
  - by apply safe_ServeReverseProxy.
  - apply safe_serve_one; [done|]. apply safe_setVolumeListID.
  - apply safe_serve_one; [done|]. intros. by apply safe_done.
  - apply safe_serve_one; [done|]. apply safe_setIteratorID.
  - by apply safe_ServeIterator.
  - apply safe_ifNoSymID; [done|]. by apply safe_serve_list.
  - apply safe_ifNoSymID; [done|]. eapply safe_bind; [by apply safe_getAuthorisedArrays|]. intros ids Hids. by apply safe_first_version.
  - apply safe_ifNoSymID; [done|]. eapply safe_bind; [by apply safe_getAuthorisedArrays|]. intros ids Hids. by apply safe_ask_all.
  - apply safe_ifNoSymID; [done|]. by apply safe_ServeMetrics.
  - apply safe_ifNoSymID; [done|]. by apply safe_serve_list.
Qed.

Lemma safe_serve router req : Authorization req = auth → safe (serve router useSecret req) (λ _, True).
Proof.
  intros Ha. unfold serve, tokenAuthMiddleware. eapply safe_bind; [by apply (safe_gets _ (λ _, True))|]. intros token _.
  assert (∀ next, (∀ r, Authorization r = auth → safe (next r) (λ _, True)) → safe (loggingMiddleware next req) (λ _, True)) as Hlog.
  { intros next Hnext. unfold loggingMiddleware. apply safe_then; [apply safe_getRequestID|by apply Hnext]. }
  assert (∀ r, Authorization r = auth → safe (match router routes r with
    | None => http_Error "404 page not found" 404
    | Some (e, vars) => symIDMiddleware (route e useSecret) (set_path_vars (Path r) vars r) end) (λ _, True)) as Hnext.
  { intros r Hr. destruct (router routes r) as [[e vars]|]; [|walk]. unfold symIDMiddleware. destruct (decide _); by apply safe_route. }
  walk; by apply Hlog.
Qed.
End safety.

(** With one configuration the server always has credentials. *)
Lemma settled_sent_for useSecret pc auth f : wf_config pc → sent_during useSecret pc pc auth f → sent_for useSecret pc auth f.
Proof.
  intros Hwf (id & server & certified & (pc1 & E1 & Hu) & (pc2 & a & E2 & Ha & Hs) & Hurl & (pc3 & a' & E3 & Ha' & Hc) & Htls & (pc4 & E4 & Hh)).
  assert (pc1 = pc ∧ pc2 = pc ∧ pc3 = pc ∧ pc4 = pc) as (-> & -> & -> & ->) by (unfold either in *; naive_solver). rewrite Ha in Ha'. injection Ha' as <-.
  assert (managementServers pc !! Endpoint server = Some server) as Hlook by (destruct Hs as [Hs|Hs]; by rewrite (wf_endpoint _ Hwf _ _ Hs)).
  destruct (GetManagementServerCredentials useSecret (Endpoint server) pc) as [creds|] eqn:Ec; cycle 1.
  { unfold GetManagementServerCredentials in Ec. by rewrite Hlook in Ec. }
  by exists id, a, server, certified, creds.
Qed.

(** C35: whatever the router, the management servers and the locks answer, and whatever happens to the proxy while the
    request is served, the steps of an update of the configuration, in any order, and other requests, the proxy makes a
    request to a management server only for a caller that the old or the new configuration lets use an array, only to a
    server that one of them gives that array, over the certificates of such a server, and with the credentials that one of
    them has for the server it goes to; only when that configuration does not have the server, the caller's own header
    or an empty user go out instead. When no update is under way, there is one configuration, and the request carries
    the server's credentials, never the caller's own header. *)
Theorem proxy_sends_only_authorized router useSecret req rp new w f :
  proxy_ok rp → wf_config new → rtc (update_step (config rp) new) rp (proxy w) → (∀ n rp', rtc (update_step (config rp) new) rp' (others n rp')) →
  Sent f ∈ (serve router useSecret req w).1.2 →
  sent_during useSecret (config rp) new (Authorization req) f
  ∧ (new = config rp → sent_for useSecret (config rp) (Authorization req) f).
Proof.
  intros Hok Hwf Hrun Hothers Hin. pose proof (halfway_run _ _ _ _ Hwf Hrun (proxy_ok_halfway _ new Hok)) as Hh.
  destruct (safe_serve useSecret (config rp) new (Authorization req)) with (router := router) (req := req) (w := w) as (_ & Hsent & _); [|done..|].
  { intros n rp'. by apply halfway_run. }
  split; [by apply Hsent|]. intros ->. apply settled_sent_for; [done|]. by apply Hsent.
Qed.

(** ** A caller that may use an array is served *)
Definition answer_of (r : result error Response) : effect :=
  match r with Ok resp => Wrote (StatusCode resp) (resp_Body resp) | Err _ => Wrote 502 "" end.

Lemma managed_listed pc id a : managedArrays pc !! id = Some a → GetStorageArray id pc ≠ [].
Proof.
  intros Ha. unfold GetStorageArray. destruct (decide (id ≠ "")); [by rewrite Ha|]. intros E. apply fmap_nil_inv in E. apply (proj2 (elem_of_range (managedArrays pc) id a)) in Ha.
  rewrite E in Ha. by apply not_elem_of_nil in Ha.
Qed.

(** No other goroutine changes the proxy meanwhile. *)
Definition undisturbed (rp : revProxy) : Prop := ∀ n, others n rp = rp.

Lemma gets_undisturbed {A} (f : revProxy → A) w : undisturbed (proxy w) → gets f w = (mkWorld (proxy w) (calls w) (S (looks w)), [], Some (f (proxy w))).
Proof. intros Hu. unfold gets. by rewrite Hu. Qed.

Lemma isAuthorized_passes useSecret req id a w : undisturbed (proxy w) →
  may_use useSecret (config (proxy w)) (Authorization req) id → is_Some (RequestAuth req) → managedArrays (config (proxy w)) !! id = Some a →
  ∃ n, isAuthorized useSecret req id w = (mkWorld (proxy w) (calls w) n, [], Some tt).
Proof.
  unfold may_use, isAuthorized, RequestAuth. intros Hun Hu [[u p] Hp] Ha. rewrite Hp in *. destruct useSecret.
  - destruct Hu as (u' & p' & [= <- <-] & Hvalid). eexists. unfold bind, authenticateSecretMode, RequestAuth. rewrite Hp. unfold bind. rewrite gets_undisturbed by done. cbv beta iota.
    rewrite Hvalid. unfold done at 1. cbv beta iota. rewrite gets_undisturbed by done. cbn [proxy]. rewrite decide_False by by eapply managed_listed. done.
  - simpl in Hu. eexists. unfold bind. rewrite decide_False by done. unfold done at 1. cbv beta iota. rewrite gets_undisturbed by done. cbv beta iota. simpl. by rewrite Hu.
Qed.

(** A caller that may use an array of the configuration is served by the active server of that
    array: when the server's admission lock accepts the request, exactly one request goes out, with the caller's
    method, path, query and body and the server's own credentials, and the server's answer comes back; when
    the lock refuses it, nothing is sent and the caller is told the server is busy. The proxy follows its
    configuration, and no update goes on meanwhile. *)
Theorem authorized_request_is_served useSecret req w id a :
  proxy_ok (proxy w) → undisturbed (proxy w) → getSymID req = Some id → managedArrays (config (proxy w)) !! id = Some a →
  may_use useSecret (config (proxy w)) (Authorization req) id → is_Some (RequestAuth req) →
  ∃ server p creds, array_server (config (proxy w)) a server ∧ newReverseProxy server = Some p
    ∧ GetManagementServerCredentials useSecret (Endpoint server) (config (proxy w)) = Ok creds
    ∧ let f := mkForward (Endpoint server) (proxy_TLS p) (Method req) (Path req) (RawQuery req) (BasicAuth creds) (Body req) in
      let t := GetRequestType (Method req) in
      let admitted := admits (calls w) (URL_String (Endpoint server)) (GetMaxOutStanding t (server_Limits server)) (GetMaxActive t (server_Limits server)) in
      (ServeReverseProxy useSecret req w).1.2 =
        if negb admitted then [Wrote 504 ("server busy" ++ String "010" "")]
        else if web (Scheme (Endpoint server)) then [Sent f; answer_of (Do (S (calls w)) f)]
        else [Wrote 500 (("unsupported URL scheme: " ++ Scheme (Endpoint server)) ++ String "010" "")].
Proof.
  intros Hok Hun Hid Ha Hu Hauth. pose proof (proj2 Hok id) as Henv. rewrite Ha in Henv. destruct Henv as (e & He & Hserv).
  assert (getProxyBySymmID id (proxy w) = Ok (GetActiveProxy e)) as Hfound.
  { unfold getProxyBySymmID. rewrite decide_False by by eapply managed_listed. by rewrite He. }
  destruct (getProxyBySymmID_of (config (proxy w)) (config (proxy w)) _ _ _ (proxy_ok_halfway _ _ Hok) Hfound) as (server & (pc & a' & Epc & Ha' & Hs) & Hnew).
  assert (pc = config (proxy w)) as -> by by destruct Epc. rewrite Ha in Ha'. injection Ha' as <-.
  assert (managementServers (config (proxy w)) !! Endpoint server = Some server) as Hlook.
  { destruct Hs as [Hs|Hs]; by rewrite (wf_endpoint _ (proj1 Hok) _ _ Hs). }
  exists server, (GetActiveProxy e). unfold GetManagementServerCredentials. rewrite Hlook. eexists. split_and!; [done|done|done|]. cbv zeta.
  unfold ServeReverseProxy. rewrite Hid. unfold bind at 1. destruct (isAuthorized_passes _ _ _ _ _ Hun Hu Hauth Ha) as [n ->]. unfold bind at 1. rewrite gets_undisturbed by done. cbn [proxy]. rewrite Hfound.
  pose proof (newReverseProxy_fields _ _ Hnew) as [Hurl _]. assert (proxy_Limits (GetActiveProxy e) = server_Limits server) as ->.
  { unfold newReverseProxy in Hnew. destruct (newTLSConfig server); [|done]. by injection Hnew as <-. }
  rewrite Hurl. unfold modifyRequest, GetManagementServerCredentials. unfold bind at 1 2. rewrite gets_undisturbed by done. cbv beta iota. cbn [proxy]. rewrite Hlook. unfold bind, done, lock. simpl.
  destruct (admits _ _ _ _); [|done]. simpl. destruct (web _) eqn:Ew; [|done]. unfold ReverseProxy_ServeHTTP, bind, send. simpl. rewrite Hurl. by destruct (Do _ _).
Qed.
End handlers.

Module RequestDemo.
Import Conf.Demo RevProxy.ServerDemo.
#[export] Instance demo_outside : Outside := {| others := λ _ rp, rp; Do := λ _ f, Ok (mkResponse 200 (fwd_Path f)); admits := λ _ _ _ _, true; clock := Z.of_nat |}.
#[export] Instance demo_json : Json := {|
  decode_VolumeIterator := λ s, ((s, s), None); decode_Volumev1 := λ s, (([s], s), None); decode_PortGroupListResult := λ s, (s, None);
  decode_VersionDetails := λ s, (s, None); decode_MetricsIterator := λ s, (s, None); decode_SymmetrixIDList := λ s, ([s], None);
  decode_Capabilities := λ s, ([s], None); decode_SystemID := λ s, Ok (s, ""); Marshal := Join ","
|}.
Definition demo_request (vars : gmap string string) (body : string) : Request :=
  mkRequest "GET" "/univmax" "" (BasicAuth (mkCredentials "csi" "pw")) vars "" "" body.
Definition demo_world : world := mkWorld demo_proxy 0 0.
Lemma demo_world_ok : proxy_ok (proxy demo_world).
Proof. unfold demo_world. cbn [proxy]. exact demo_ok. Qed.
Lemma demo_managed : is_Some (managedArrays (config (proxy demo_world)) !! "0001").
Proof.
  unfold demo_world. cbn [proxy]. rewrite demo_proxy_config. apply (bool_decide_eq_true_1 (is_Some (managedArrays demo_config !! "0001"))). vm_compute. reflexivity.
Qed.
Definition demo_router (routes : list (pattern * endpoint)) (req : Request) : option (endpoint * gmap string string) := Some (EReverseProxy, {["symid" := "0001"]}).
Definition demo_forward : forward := mkForward "https://u1" (mkTLSConfig true None) "GET" "/univmax" "" (BasicAuth (mkCredentials "csi" "pw")) "".

Lemma proxy_sends_only_authorized_witness :
  sent_during false (config demo_proxy) demo_config' (Authorization (demo_request ∅ "")) demo_forward
  ∧ sent_for false (config demo_proxy) (Authorization (demo_request ∅ "")) demo_forward.
Proof.
  assert (Sent demo_forward ∈ (serve demo_router false (demo_request ∅ "") demo_world).1.2) as Hin.
  { assert ((serve demo_router false (demo_request ∅ "") demo_world).1.2 = [Sent demo_forward; Wrote 200 "/univmax"]) as -> by (vm_compute; reflexivity). by left. }
  split.
  - refine (proj1 (proxy_sends_only_authorized demo_router false (demo_request ∅ "") demo_proxy demo_config' demo_world demo_forward demo_ok _ (rtc_refl _ _) (λ _ _, rtc_refl _ _) Hin)).
    eapply ParseConfig_wf. apply demo_parses'.
  - exact (proj2 (proxy_sends_only_authorized demo_router false (demo_request ∅ "") demo_proxy (config demo_proxy) demo_world demo_forward demo_ok (proj1 demo_ok)
      (rtc_refl _ _) (λ _ _, rtc_refl _ _) Hin) eq_refl).
Defined.

(** An update that moves the first array to another server: its envoys are changed, the configuration is not yet. *)
Definition moved_map : ProxyConfigMap := mkConfigMap "2222" (Some ([demo_array "0001" "https://u9" "" ["sec"]], [demo_server "https://u9"])).
Definition moved_config : ProxyConfig := match ParseConfig moved_map with Ok pc => pc | Err _ => mkProxyConfig "" ∅ ∅ ∅ end.
Definition moved_world : world :=
  match UpdateConfig moved_config demo_proxy with Some rp => mkWorld (set_envoys (envoyMap rp) demo_proxy) 0 0 | None => demo_world end.
(** The caller is told that there are no credentials, and its own header goes to the new server. *)
Example caller_header_forwarded :
  let req := demo_request {["symid" := "0001"]} "" in
  match (ServeReverseProxy false req moved_world).1.2 with
  | [Wrote 401 _; Sent f; Wrote 200 _] => fwd_Server f = "https://u9" ∧ fwd_Authorization f = Authorization req
  | _ => False
  end.
Proof. vm_compute. by split. Qed.

Lemma authorized_request_is_served_witness : (ServeReverseProxy false (demo_request {["symid" := "0001"]} "") demo_world).1.2 ≠ [].
Proof.
  destruct demo_managed as [a Ea].
  destruct (authorized_request_is_served false (demo_request {["symid" := "0001"]} "") demo_world "0001" a demo_world_ok) as (server & p & creds & _ & _ & _ & E).
  - by intros n.
  - vm_compute. reflexivity.
  - exact Ea.
  - vm_compute. reflexivity.
  - vm_compute. by eexists.
  - rewrite E. simpl. by destruct (web _).
Defined.

(** The metrics of an array are asked for without the body of the request. *)
Example metrics_body_lost :
  omap (λ e, match e with Sent f => Some (fwd_Body f) | _ => None end) (ServeMetrics false (demo_request ∅ "0001") demo_world).1.2 = [""].
Proof. vm_compute. reflexivity. Qed.

(** For the list of arrays every array is asked once per management server. *)
Example arrays_asked_twice :
  List.length (omap (λ e, match e with Sent f => Some f | _ => None end) (ServeSymmetrix false (demo_request ∅ "") demo_world).1.2) = 4%nat.
Proof. vm_compute. reflexivity. Qed.

(** A page of an iterator whose server is gone and whose array has no backup ends in a nil pointer. *)
Example iterator_without_backup :
  let w := (cache_Set "it" ("0002", "https://gone") demo_world).1.1 in
  (ServeIterator false (demo_request {["iterId" := "it"]} "") w).1.2 = [Panicked].
Proof. vm_compute. reflexivity. Qed.

(** Without a password the answer is written twice. *)
Example no_authorization_written_twice :
  (ServeReverseProxy false (mkRequest "GET" "/univmax" "" "" {["symid" := "0001"]} "" "" "") demo_world).1.2
  = [Wrote 401 ("no authorization provided" ++ String "010" ""); Wrote 401 ("unknown credentials" ++ String "010" "")].
Proof. vm_compute. reflexivity. Qed.
End RequestDemo.
End Requests.
