(* ===== verification/RepRequests.v ===== *)
(** * Replication requests

    Models the requests of the replication extension in service/controller.go: finding the
    protected storage groups of a volume, making its remote copy known, running an SRDF
    action of [Replication] on a protected group, the status of a group, and deletion. *)

From stdpp Require Import base gmap strings list.
From Stdlib Require Import ZArith Lia Ascii SpecFloat.
From S2P Require Import Prelude GoLib Ordering Pmax SimArray PowerMax Replication VolumeID Capacity Masking SimMasking Trace Handler Pending Rpc Files Publish Deletion Sizes Creator Snapshots.

Module RepRequests.
Import PowerMax VolumeID Masking Rpc Sizes Creator.
Import Replication(Async, Sync, csiPrefix, FailOver, FailBack, Swap, Consistent, Synchronized, Suspended, FailedOver, GetRDFInfoFromSGID, getStateAndSRDFPersonality).
Import Publish(cannotBeFound, service_GetVolumeByID, volumeIdentifiersMatch).
Import Deletion(RenameClient, RenameVolume).
Open Scope go_scope.
Open Scope handler_scope.
Open Scope string_scope.
Open Scope Z_scope.

Definition Reprotect := "Reprotect".
Definition SyncInProgress := "SyncInProg".
Definition FiveMinutes : Z := 300000.
Definition errorNotFound := "cannot be found".
Definition LocalRDFGroupParam := "RdfGroup".
Definition RemoteRDFGroupParam := "RemoteRDFGroup".
Definition RemoteSymIDParam := "RemoteSYMID".
Definition ReplicationModeParam := "RdfMode".
Definition RemoteServiceLevelParam := "RemoteServiceLevel".
Definition RemoteSRPParam := "RemoteSRP".

(** ** The array's view of a replicated volume *)
Record RDFDevicePair := mkPair { RemoteVolumeName : string; RemoteRdfGroupNumber : Z; RemoteSymmID : string }.
Record RDFMetrics := mkMetrics { AvgCycleTime : float64; WriteMBs : float64; ReadMBs : float64 }.
Record HostIOLimits := mkHostIOLimits { HostIOLimitMBSec : string; HostIOLimitIOSec : string; DynamicDistribution : string }.
#[global] Instance HostIOLimits_eq_dec : EqDecision HostIOLimits.
Proof. solve_decision. Defined.

Class RdfClient (W C : Type) := {
  (** Array, RDF group and device. *)
  GetRDFDevicePairInfo : C → string → string → string → W → result error RDFDevicePair * W;
  (** Array, RDF group, start and end in milliseconds: the samples, when there are any. *)
  GetRDFGroupMetrics : C → string → Z → Z → Z → W → result error (option (list RDFMetrics)) * W;
  (** CreateStorageGroup with the limits of its hosts. *)
  CreateStorageGroupLimits : C → string → string → string → string → bool → option HostIOLimits → W → option error * W;
  (** UpdateStorageGroupS with a new SRP. *)
  UpdateStorageGroupSRP : C → string → string → string → W → option error * W;
}.

(** ** Status of a protected group *)
Inductive GroupState := UNKNOWN | SYNCHRONIZED | SYNC_IN_PROGRESS | SUSPENDED | FAILEDOVER.
Record GroupStatus := mkStatus { State : GroupState; IsSource : bool; LagSeconds : Z; BandwidthBytesPerSec : Z }.

Definition state_of (rdfState : string) : GroupState :=
  if decide (rdfState = Consistent ∨ rdfState = Synchronized) then SYNCHRONIZED
  else if decide (rdfState = SyncInProgress) then SYNC_IN_PROGRESS
  else if decide (rdfState = Suspended) then SUSPENDED
  else if decide (rdfState = FailedOver) then FAILEDOVER
  else UNKNOWN.
Definition getPGStatusFromSGRDFInfo (psg : StorageGroupRDFG) : GroupStatus :=
  let '(rdfState, isR1, mixedPersonalities, mixedStates) := getStateAndSRDFPersonality psg in
  if mixedPersonalities || mixedStates then mkStatus UNKNOWN false 0 0 else mkStatus (state_of rdfState) isR1 0 0.

Definition positive (x : float64) : bool := SFltb fzero x.
(** The last sample gives lag and bandwidth. *)
Definition with_metrics (latest : RDFMetrics) (st : GroupStatus) : GroupStatus :=
  let totalMBs := fadd (WriteMBs latest) (ReadMBs latest) in
  let k := float_of_Z 1024 in
  mkStatus (State st) (IsSource st)
    (if positive (AvgCycleTime latest) then int64_of_float (fdiv (AvgCycleTime latest) (float_of_Z 1000)) else LagSeconds st)
    (if positive totalMBs then int64_of_float (fmul (fmul totalMBs k) k) else BandwidthBytesPerSec st).

(** ** Actions *)
Definition getActionString (actionType : string) : string * bool :=
  ((if Contains actionType "FAILOVER" then FailOver
    else if Contains actionType "FAILBACK" then FailBack
    else if Contains actionType "SWAP" then Swap
    else if Contains actionType "REPROTECT" then Reprotect
    else actionType), Contains actionType "LOCAL").

Fixpoint GetProtectedStorageGroupID (storageGroupIDList : list string) (filter : string) : string :=
  match storageGroupIDList with
  | [] => ""
  | sg :: l => if Contains sg csiPrefix && Contains sg filter then sg else GetProtectedStorageGroupID l filter
  end.

Section requests.
Context {W C : Type} `{Pmax W C} `{MaskingClient W C} `{RenameClient W C} `{RdfClient W C} `{PoolClient W C} `{PoolCache W}.
Variable GetPowerMaxClient : string → M W (result error C).
Variables (useProxy autoProbe : bool) (grpcMaxThreads storagePoolCacheDuration : Z) (ind : Pending.induced).
Variable controllerProbe : M W (option error).
Variables (ReplicationPrefix ReplicationContextPrefix clusterPrefix : string).
Variable QueueDeviceForDeletion : string → string → string → M W (option error).

Definition param (params : gmap string string) (key : string) : string := default "" (params !! key).
Definition rep_param (params : gmap string string) (key : string) : string := param params (path_join ReplicationPrefix key).
Definition context_key (key : string) : string := path_join ReplicationContextPrefix key.

(** A request on the arrays through the client of one, once the driver is probed. *)
Definition with_array {A} (symID : string) (k : C → M W (result error A)) : M (tables * W) (result error A) :=
  let? c := on_arrays (GetPowerMaxClient symID) orelse (λ e, statusError NotFound (Error e)) in
  do? requireProbe useProxy autoProbe grpcMaxThreads controllerProbe true in
  on_arrays (k c).

Definition getStorageProtectionGroupStatus (protectionGroupID : string) (params : gmap string string) : M W (result error GroupStatus) :=
  let symID := param params (context_key SymmetrixIDParam) in
  let? c := GetPowerMaxClient symID orelse (λ e, statusError NotFound (Error e)) in
  match GetRDFInfoFromSGID protectionGroupID with
  | Err e => fail (statusError InvalidArgument (Error e))
  | Ok (_, rDFGno, repMode) =>
      if decide (repMode = Async ∨ repMode = Sync) then
        let? psg := lift (GetStorageGroupRDFInfo c symID protectionGroupID rDFGno)
          orelse (λ e, statusError Internal ("Failed to Get RDF Info for protected SG (" ++ Error e ++ ")")) in
        let pgStatus := getPGStatusFromSGRDFInfo psg in
        match Atoi rDFGno with
        | None => ok pgStatus
        | Some rdfGroupID =>
            let* now := lift (Now (C := C)) in
            let endTime := now / 1000000 in
            let* metrics := lift (GetRDFGroupMetrics c symID rdfGroupID (endTime - FiveMinutes) endTime) in
            ok match metrics with
               | Ok (Some samples) => match last samples with Some latest => with_metrics latest pgStatus | None => pgStatus end
               | _ => pgStatus
               end
        end
      else fail (statusError Internal "expected error - invalid Replication mode")
  end.
Definition GetStorageProtectionGroupStatus (protectionGroupID : string) (params : gmap string string) : M W (result error GroupStatus) :=
  getStorageProtectionGroupStatus protectionGroupID params.

(** replication.go *)
Definition GetRemoteVolumeID (symID rdfGrpNo localVolID : string) (c : C) : M W (result error (string * string)) :=
  let? rdfPair := lift (GetRDFDevicePairInfo c symID rdfGrpNo localVolID) in
  ok (RemoteVolumeName rdfPair, Itoa (RemoteRdfGroupNumber rdfPair)).

Definition remote_failed (remoteSymID remoteVolumeID : string) (e : error) : error :=
  let where_ := "(Array: " ++ remoteSymID ++ ", Volume: " ++ remoteVolumeID ++ ")status " ++ Error e in
  if Contains (Error e) cannotBeFound then statusError NotFound ("Volume not found " ++ where_)
  else statusError Internal ("failure checking volume " ++ where_).

(** The RDF group of the parameters, or the first one of the volume; an index panics. *)
Definition local_group (localRDFGroup : string) (vol : Volume) : M W string :=
  if decide (localRDFGroup = "") then let* g := index (RDFGroupIDList vol) 0 in ret (Itoa g) else ret localRDFGroup.

Definition attributes (symID localRDFGroup remoteSymID remoteRDFGroup repMode : string) : gmap string string :=
  <[context_key SymmetrixIDParam := symID]> (<[context_key LocalRDFGroupParam := localRDFGroup]>
    (<[context_key RemoteSymIDParam := remoteSymID]> (<[context_key RemoteRDFGroupParam := remoteRDFGroup]>
      {[context_key ReplicationModeParam := repMode]}))).

Record ProtectionGroup := mkProtectionGroup {
  LocalProtectionGroupId : string;
  RemoteProtectionGroupId : string;
  LocalProtectionGroupAttributes : gmap string string;
  RemoteProtectionGroupAttributes : gmap string string;
  Group_Status : option GroupStatus;
}.

Definition no_group (request which devID : string) : error :=
  statusError InvalidArgument (request ++ " failed with (Failed to find protected " ++ which ++ " storage group) for devID (" ++ devID ++ ")").

Definition protect_volume (id : string) (params : gmap string string) (c : C) : M W (result error ProtectionGroup) :=
  let? known := service_GetVolumeByID id c in
  let '(symID, devID, vol) := known in
  let remoteSymID := rep_param params RemoteSymIDParam in
  let repMode := rep_param params ReplicationModeParam in
  let* localRDFGroup := local_group (rep_param params LocalRDFGroupParam) vol in
  let? remote := GetRemoteVolumeID symID localRDFGroup devID c in
  let '(remoteVolumeID, rmRDFG) := remote in
  let remoteRDFGroup := if decide (rep_param params RemoteRDFGroupParam = "") then rmRDFG else rep_param params RemoteRDFGroupParam in
  let localProtectionGroupID := GetProtectedStorageGroupID (StorageGroupIDList vol) (localRDFGroup ++ "-" ++ repMode) in
  if decide (localProtectionGroupID = "") then fail (no_group "CreateStorageProtectionGroup" "local" devID)
  else
    let? remoteVol := lift (GetVolumeByID c remoteSymID remoteVolumeID) orelse (remote_failed remoteSymID remoteVolumeID) in
    let remoteProtectionGroupID := GetProtectedStorageGroupID (StorageGroupIDList remoteVol) (remoteRDFGroup ++ "-" ++ repMode) in
    if decide (remoteProtectionGroupID = "") then fail (no_group "CreateStorageProtectionGroup" "remote" remoteVolumeID)
    else
      let localParams := attributes symID localRDFGroup remoteSymID remoteRDFGroup repMode in
      let remoteParams := attributes remoteSymID remoteRDFGroup symID localRDFGroup repMode in
      let* pgStatus := getStorageProtectionGroupStatus localProtectionGroupID localParams in
      ok (mkProtectionGroup localProtectionGroupID remoteProtectionGroupID localParams remoteParams
            match pgStatus with Ok st => Some st | Err _ => None end).
Definition CreateStorageProtectionGroup (id : string) (params : gmap string string) : M (tables * W) (result error ProtectionGroup) :=
  match parseCsiID id with
  | None => panic
  | Some (Err _) => fail (statusError InvalidArgument ("Invalid volume id: " ++ id))
  | Some (Ok csi) => with_array (arrayID csi) (protect_volume id params)
  end.

(** ** The remote copy of a volume *)
Definition remote_group_name (params : gmap string string) : string :=
  let applicationPrefix := param params ApplicationPrefixParam in
  let name := CSIPrefix ++ "-" ++ clusterPrefix ++ "-" ++ (if decide (applicationPrefix = "") then "" else applicationPrefix ++ "-")
              ++ rep_param params RemoteServiceLevelParam ++ "-" ++ rep_param params RemoteSRPParam ++ "-SG" in
  if decide (param params HostLimitNameParam = "") then name else name ++ "-" ++ param params HostLimitNameParam.

(** The storage group of the remote copy is made when it is missing. *)
Definition ensure_remote_group (params : gmap string string) (remoteSymID name : string) (c : C) : M W (option error) :=
  let* sg := lift (GetStorageGroup c remoteSymID name) in
  match sg with
  | Ok _ => ret None
  | Err _ =>
      let limits := mkHostIOLimits (param params HostIOLimitMBSecParam) (param params HostIOLimitIOSecParam) (param params DynamicDistributionParam) in
      let* e := lift (CreateStorageGroupLimits c remoteSymID name (rep_param params RemoteSRPParam) (rep_param params RemoteServiceLevelParam)
                  (bool_decide (param params ThickVolumesParam = "true")) (if decide (limits = mkHostIOLimits "" "" "") then None else Some limits)) in
      ret ((λ e, statusError Internal ("Error creating storage group: " ++ Error e)) <$> e)
  end.

(** The protected group does not take space of a pool itself. *)
Definition reset_srp (remoteSymID group : string) (c : C) : M W (option error) :=
  let* r := lift (GetStorageGroup c remoteSymID group) in
  match r with
  | Err e => ret (Some (statusError Internal ("Failed to fetch remote PSG details " ++ Error e)))
  | Ok r2PSG =>
      if decide (SG_SRP r2PSG ≠ "" ∧ SG_SRP r2PSG ≠ "NONE") then
        let* e := lift (UpdateStorageGroupSRP c remoteSymID group "NONE") in
        ret ((λ e, statusError Internal ("Failed to Update Remote SG SRP to NONE: " ++ Error e)) <$> e)
      else ret None
  end.

Definition add_to_default (remoteSymID name remoteVolumeID : string) (remoteVol : Volume) (c : C) : M W (option error) :=
  if (List.length (StorageGroupIDList remoteVol) <? 2)%nat then
    let* e := lift (AddVolumesToStorageGroupS c remoteSymID name true [remoteVolumeID]) in
    ret ((λ e, statusError Internal ("Could not add volume in SG on R2: " ++ remoteVolumeID ++ ": " ++ Error e)) <$> e)
  else ret None.

(** The remote copy gets the name of the volume; an answer without a volume is a nil pointer later. *)
Definition name_remote (remoteSymID remoteVolumeID : string) (remoteVol vol : Volume) (c : C) : M W (result error Volume) :=
  if decide (VolumeIdentifier remoteVol = "") then
    let? renamed := lift (RenameVolume c remoteSymID (Pmax.VolumeID remoteVol) (VolumeIdentifier vol))
      orelse (λ e, statusError InvalidArgument ("RenameRemoteVolume: Failed to rename volume " ++ remoteVolumeID ++ " " ++ Error e)) in
    match renamed with
    | Some v => ok v
    | None => panic
    end
  else ok remoteVol.

Record RemoteVolume := mkRemoteVolume { CapacityBytes : Z; VolumeId : string; VolumeContext : gmap string string }.

Definition create_remote (id : string) (params : gmap string string) (c : C) : M W (result error RemoteVolume) :=
  let? known := service_GetVolumeByID id c orelse (λ e, statusError InvalidArgument (Error e)) in
  let '(symID, devID, vol) := known in
  let remoteSymID := rep_param params RemoteSymIDParam in
  let repMode := rep_param params ReplicationModeParam in
  do? validateStoragePoolID storagePoolCacheDuration remoteSymID (rep_param params RemoteSRPParam) c orelse (λ e, statusError InvalidArgument (Error e)) in
  if negb (isValidSLO (rep_param params RemoteServiceLevelParam)) then
    fail (statusError InvalidArgument "An invalid Remote Service Level parameter was specified")
  else
    let* localRDFGroup := local_group (rep_param params LocalRDFGroupParam) vol in
    let? remote := GetRemoteVolumeID symID localRDFGroup devID c in
    let '(remoteVolumeID, rmRDFG) := remote in
    let remoteRDFGroup := if decide (rep_param params RemoteRDFGroupParam = "") then rmRDFG else rep_param params RemoteRDFGroupParam in
    let name := remote_group_name params in
    do? ensure_remote_group params remoteSymID name c in
    let? remoteVol := lift (GetVolumeByID c remoteSymID remoteVolumeID) orelse (remote_failed remoteSymID remoteVolumeID) in
    let group := GetProtectedStorageGroupID (StorageGroupIDList remoteVol) (remoteRDFGroup ++ "-" ++ repMode) in
    if decide (group = "") then fail (no_group "CreateRemoteVolume" "remote" remoteVolumeID)
    else
      do? reset_srp remoteSymID group c in
      do? add_to_default remoteSymID name remoteVolumeID remoteVol c in
      let? remoteVol := name_remote remoteSymID remoteVolumeID remoteVol vol c in
      let volContext : gmap string string :=
        <[CapacityGB := Sprintf_2f (Volume_CapacityGB vol)]> (<[StorageGroup := name]> (<[context_key "LocalProtectionGroupID" := group]>
          (<[context_key SymmetrixIDParam := remoteSymID]> (<[Files.ServiceLevelParam := rep_param params RemoteServiceLevelParam]>
            (<[LocalRDFGroupParam := remoteRDFGroup]> (<[context_key RemoteSymIDParam := symID]> (<[RemoteRDFGroupParam := localRDFGroup]>
              {[context_key ReplicationModeParam := repMode]}))))))) in
      ok (mkRemoteVolume (wrap64 (CapacityCYL remoteVol * cylinderSizeInBytes))
            (VolumeIdentifier remoteVol ++ "-" ++ remoteSymID ++ "-" ++ Pmax.VolumeID remoteVol) volContext).
Definition CreateRemoteVolume (id : string) (params : gmap string string) : M (tables * W) (result error RemoteVolume) :=
  match parseCsiID id with
  | None => panic
  | Some (Err _) => fail (statusError InvalidArgument ("Invalid volume id: " ++ id))
  | Some (Ok csi) => with_array (arrayID csi) (create_remote id params)
  end.

(** ** Deletion *)
Definition delete_group (symID protectionGroupID : string) (c : C) : M W (result error unit) :=
  let* r := lift (GetProtectedStorageGroup c symID protectionGroupID) in
  match r with
  | Err e =>
      if Contains (Error e) cannotBeFound || Contains (Error e) errorNotFound then ok tt
      else fail (statusError Internal ("GetProtectedStorageGroup failed for (" ++ protectionGroupID ++ "):(" ++ Error e ++ ")"))
  | Ok sg =>
      if 0 <? NumDevicesNonGk sg then fail (statusError FailedPrecondition ("Can't delete protection group: (" ++ protectionGroupID ++ ") as it is not empty"))
      else
        do? lift (DeleteStorageGroup c symID protectionGroupID)
          orelse (λ e, statusError Internal (" DeleteStorageGroup failed for (" ++ protectionGroupID ++ ") with (" ++ Error e ++ ")")) in ok tt
  end.
Definition DeleteStorageProtectionGroup (protectionGroupID : string) (localParams : gmap string string) : M (tables * W) (result error unit) :=
  let symID := param localParams (context_key SymmetrixIDParam) in
  with_array symID (delete_group symID protectionGroupID).

Definition DeleteLocalVolume (id : string) : M (tables * W) (result error unit) :=
  match parseCsiID id with
  | None => panic
  | Some (Err _) => fail (statusError InvalidArgument "Could not parse CSI VolumeId")
  | Some (Ok csi) =>
      let? c := on_arrays (GetPowerMaxClient (arrayID csi)) orelse (λ e, statusError NotFound (Error e)) in
      let* now := on_arrays (lift (Now (C := C))) in
      while_pending controller_table ind now id Err
        (do? requireProbe useProxy autoProbe grpcMaxThreads controllerProbe true in
         do? on_arrays (Deletion.deleteVolume QueueDeviceForDeletion (arrayID csi) (volName csi) (VolumeID.devID csi) c) in
         ok tt)
  end.

(** ** Actions on a protected group *)
Definition outcome_of (o : Replication.outcome) : result error (bool * option StorageGroupRDFG) :=
  let '(idempotent, psg, err) := o in match err with Some e => Err e | None => Ok (idempotent, psg) end.
Definition simple (e : option error) : result error (bool * option StorageGroupRDFG) :=
  match e with Some e => Err e | None => Ok (false, None) end.
Definition run_action (action symID protectionGroupID rDFGroup : string) (c : C) : M W (result error (bool * option StorageGroupRDFG)) :=
  let '(actionType, toLocal) := getActionString action in
  if decide (actionType = FailOver) then
    let* o := Replication.Failover c symID protectionGroupID rDFGroup toLocal (Contains action "UNPLANNED") (Contains action "WITHOUT_SWAP") in ret (outcome_of o)
  else if decide (actionType = FailBack) then let* o := Replication.Failback c symID protectionGroupID rDFGroup toLocal in ret (outcome_of o)
  else if decide (actionType = Swap) then let* o := Replication.Swap_ c symID protectionGroupID rDFGroup toLocal in ret (outcome_of o)
  else if decide (actionType = Reprotect) then let* o := Replication.Reprotect c symID protectionGroupID rDFGroup toLocal in ret (outcome_of o)
  else if decide (actionType = "SUSPEND") then let* e := Replication.suspend c symID protectionGroupID rDFGroup in ret (simple e)
  else if decide (actionType = "RESUME") then let* e := Replication.resume c symID protectionGroupID rDFGroup in ret (simple e)
  else if decide (actionType = "ESTABLISH") then let* e := Replication.establish c symID protectionGroupID rDFGroup false in ret (simple e)
  else fail (statusError Unknown "The requested action does not match with supported actions").

Record ActionResponse := mkActionResponse { Action : string; Action_Status : option GroupStatus }.
Definition execute_action (protectionGroupID action : string) (localParams : gmap string string) (c : C) : M W (result error ActionResponse) :=
  let symID := param localParams (context_key SymmetrixIDParam) in
  let rDFGroup := param localParams (context_key LocalRDFGroupParam) in
  let repMode := param localParams (context_key ReplicationModeParam) in
  if decide (repMode = Async ∨ repMode = Sync) then
    let? r := run_action action symID protectionGroupID rDFGroup c in
    match r with
    | (true, Some psg) => ok (mkActionResponse action (Some (getPGStatusFromSGRDFInfo psg)))
    | _ =>
        let* pgStatus := getStorageProtectionGroupStatus protectionGroupID localParams in
        ok (mkActionResponse action match pgStatus with Ok st => Some st | Err _ => None end)
    end
  else fail (errorString (repMode ++ " is not a valid srdf mode for action execution")).
Definition ExecuteAction (protectionGroupID action : string) (localParams : gmap string string) : M (tables * W) (result error ActionResponse) :=
  with_array (param localParams (context_key SymmetrixIDParam)) (execute_action protectionGroupID action localParams).
End requests.

(** ** What a protected volume says of its groups *)
Section protect.
Context {W C : Type} `{Pmax W C} `{RdfClient W C}.
Variable GetPowerMaxClient : string → M W (result error C).
Variables (useProxy autoProbe : bool) (grpcMaxThreads : Z).
Variable controllerProbe : M W (option error).
Variables (ReplicationPrefix ReplicationContextPrefix : string).
Abbreviation key := (context_key ReplicationContextPrefix).

Definition distinct_keys : Prop :=
  NoDup (key <$> [SymmetrixIDParam; LocalRDFGroupParam; RemoteSymIDParam; RemoteRDFGroupParam; ReplicationModeParam]).

(** One side of a group: its array and RDF group, and those of the other side. *)
Definition side (attrs : gmap string string) (symID rdfg remoteSymID remoteRdfg repMode : string) : Prop :=
  param attrs (key SymmetrixIDParam) = symID ∧ param attrs (key LocalRDFGroupParam) = rdfg ∧
  param attrs (key RemoteSymIDParam) = remoteSymID ∧ param attrs (key RemoteRDFGroupParam) = remoteRdfg ∧
  param attrs (key ReplicationModeParam) = repMode.

Lemma attributes_side a b c d e : distinct_keys → side (attributes ReplicationContextPrefix a b c d e) a b c d e.
Proof.
  unfold distinct_keys, side, attributes, param. cbn [fmap list_fmap]. rewrite !NoDup_cons, !not_elem_of_cons. intros Hd.
  split_and!; repeat first [rewrite lookup_insert_eq | rewrite lookup_singleton_eq | rewrite lookup_insert_ne by naive_solver]; done.
Qed.

Lemma protected_member l f : GetProtectedStorageGroupID l f ≠ "" →
  GetProtectedStorageGroupID l f ∈ l ∧ Contains (GetProtectedStorageGroupID l f) csiPrefix = true ∧ Contains (GetProtectedStorageGroupID l f) f = true.
Proof.
  induction l as [|sg l IH]; simpl; [done|]. destruct (Contains sg csiPrefix && Contains sg f) eqn:E.
  - apply andb_true_iff in E as [? ?]. intros _. split; [left|done].
  - intros Hne. destruct (IH Hne) as [? ?]. split; [by right|done].
Qed.
(** The device as an array answered for it at some time of the request. *)
Definition seen (symID devID : string) (vol : Volume) : Prop :=
  ∃ (c : C) (w w' : W), GetVolumeByID c symID devID w = (Ok vol, w').

(** A group that protects a device: one of the storage groups of the device, named by the driver. *)
Definition protects (symID devID rdfg repMode group : string) : Prop :=
  ∃ vol, seen symID devID vol ∧ group ∈ StorageGroupIDList vol ∧ Contains group csiPrefix = true ∧ Contains group (rdfg ++ "-" ++ repMode) = true.

Lemma volume_seen id csi (c : C) w sym dev vol w' :
  parseCsiID id = Some (Ok csi) → service_GetVolumeByID id c w = Some (Ok (sym, dev, vol), w') →
  sym = arrayID csi ∧ dev = VolumeID.devID csi ∧ seen sym dev vol ∧ volumeIdentifiersMatch (volName csi) (VolumeIdentifier vol) = true.
Proof.
  intros Hp. unfold service_GetVolumeByID. rewrite Hp. cbv zeta. intros E. run_inv E. unfold lift in *.
  destruct (GetVolumeByID c _ _ w) as [v w2] eqn:Ev. simplify_eq. destruct (volumeIdentifiersMatch _ _) eqn:Em; [|done].
  injection E as <- <- <- <-. unfold seen. eauto 10.
Qed.

Lemma remote_seen (c : C) sym dev w vol w' : lift (GetVolumeByID c sym dev) w = Some (Ok vol, w') → seen sym dev vol.
Proof. unfold lift, seen. destruct (GetVolumeByID c sym dev w) as [v w2] eqn:E. intros [= -> ->]. eauto. Qed.

(** What CreateStorageProtectionGroup answers, as a relation between the request and its group. *)
Definition protected_group (csi : csiID) (params : gmap string string) (pg : ProtectionGroup) : Prop :=
  ∃ rdfg remoteRdfg remoteDevID,
    let remoteSymID := rep_param ReplicationPrefix params RemoteSymIDParam in
    let repMode := rep_param ReplicationPrefix params ReplicationModeParam in
    (rep_param ReplicationPrefix params LocalRDFGroupParam ≠ "" → rdfg = rep_param ReplicationPrefix params LocalRDFGroupParam)
    ∧ protects (arrayID csi) (VolumeID.devID csi) rdfg repMode (LocalProtectionGroupId pg)
    ∧ protects remoteSymID remoteDevID remoteRdfg repMode (RemoteProtectionGroupId pg)
    ∧ side (LocalProtectionGroupAttributes pg) (arrayID csi) rdfg remoteSymID remoteRdfg repMode
    ∧ side (RemoteProtectionGroupAttributes pg) remoteSymID remoteRdfg (arrayID csi) rdfg repMode.

Lemma protected_protects sym dev vol rdfg mode :
  seen sym dev vol → GetProtectedStorageGroupID (StorageGroupIDList vol) (rdfg ++ "-" ++ mode) ≠ "" →
  protects sym dev rdfg mode (GetProtectedStorageGroupID (StorageGroupIDList vol) (rdfg ++ "-" ++ mode)).
Proof. intros Hs Hne. exists vol. split; [done|]. by apply protected_member. Qed.

(** The group CreateStorageProtectionGroup answers can be used for the later requests: both its
    sides are storage groups the arrays themselves list for the device and for its pair, and the
    attributes it returns read back as the array, the RDF group and the mode of the local side and,
    with the two sides exchanged, of the remote one. *)
Theorem created_group_usable id csi params s pg s' :
  distinct_keys → parseCsiID id = Some (Ok csi) →
  CreateStorageProtectionGroup GetPowerMaxClient useProxy autoProbe grpcMaxThreads controllerProbe
    ReplicationPrefix ReplicationContextPrefix id params s = Some (Ok pg, s') →
  protected_group csi params pg.
Proof.
  intros Hd Hp. unfold CreateStorageProtectionGroup. rewrite Hp. unfold with_array. intros E. run_inv E.
  apply on_arrays_inv in E as [E _]. unfold protect_volume in E. run_inv E. destruct a0 as [[sym dev] vol].
  destruct (volume_seen _ _ _ _ _ _ _ _ Hp E2) as (-> & -> & Hs & _). run_inv E. destruct a1 as [rdev rg].
  case_decide as Hl; [done|]. run_inv E. case_decide as Hr; [done|]. run_inv E. apply remote_seen in E5. injection E as <- _.
  eexists _, _, _. cbn. split; [|split; [by eapply protected_protects|split; [by eapply protected_protects|split; by apply attributes_side]]].
  intros Hne. unfold local_group in E3. rewrite decide_False in E3 by done. by injection E3.
Qed.
End protect.

(** ** What the requests change *)
Import Trace Snapshots.

Inductive rep_request :=
| ReqExecuteAction (protectionGroupID action : string) (attributes : gmap string string)
| ReqGetStatus (protectionGroupID : string) (attributes : gmap string string)
| ReqCreateGroup (id : string) (params : gmap string string)
| ReqCreateRemote (id : string) (params : gmap string string)
| ReqDeleteGroup (protectionGroupID : string) (attributes : gmap string string).

Definition failure {A} (r : result error A) : option error := match r with Ok _ => None | Err e => Some e end.

Section serve.
Context {W C : Type} `{Pmax W C} `{MaskingClient W C} `{RenameClient W C} `{RdfClient W C} `{PoolClient W C} `{PoolCache W}.
Variable GetPowerMaxClient : string → M W (result error C).
Variables (useProxy autoProbe : bool) (grpcMaxThreads storagePoolCacheDuration : Z).
Variable controllerProbe : M W (option error).
Variables (ReplicationPrefix ReplicationContextPrefix clusterPrefix : string).

(** A request and the error it answers, if any. *)
Definition serve (rq : rep_request) : M (tables * W) (option error) :=
  match rq with
  | ReqExecuteAction g a attrs =>
      let* r := ExecuteAction GetPowerMaxClient useProxy autoProbe grpcMaxThreads controllerProbe ReplicationContextPrefix g a attrs in ret (failure r)
  | ReqGetStatus g attrs =>
      let* r := on_arrays (GetStorageProtectionGroupStatus GetPowerMaxClient ReplicationContextPrefix g attrs) in ret (failure r)
  | ReqCreateGroup id params =>
      let* r := CreateStorageProtectionGroup GetPowerMaxClient useProxy autoProbe grpcMaxThreads controllerProbe ReplicationPrefix ReplicationContextPrefix id params in
      ret (failure r)
  | ReqCreateRemote id params =>
      let* r := CreateRemoteVolume GetPowerMaxClient useProxy autoProbe grpcMaxThreads storagePoolCacheDuration controllerProbe
                  ReplicationPrefix ReplicationContextPrefix clusterPrefix id params in
      ret (failure r)
  | ReqDeleteGroup g attrs =>
      let* r := DeleteStorageProtectionGroup GetPowerMaxClient useProxy autoProbe grpcMaxThreads controllerProbe ReplicationContextPrefix g attrs in ret (failure r)
  end.

(** The changes a request may make, by what it names. *)
Definition may_change (rq : rep_request) (e : event) : Prop :=
  match rq with
  | ReqExecuteAction g _ attrs =>
      match e with EvReplication sym _ group => sym = param attrs (context_key ReplicationContextPrefix SymmetrixIDParam) ∧ group = g | _ => False end
  | ReqGetStatus _ _ | ReqCreateGroup _ _ => False
  | ReqCreateRemote id params =>
      let remoteSymID := rep_param ReplicationPrefix params RemoteSymIDParam in
      let name := remote_group_name ReplicationPrefix clusterPrefix params in
      match e with
      | EvCreateGroup sym group => sym = remoteSymID ∧ group = name
      | EvAddVolumes sym group devices => sym = remoteSymID ∧ group = name ∧ ∃ dev, devices = [dev]
      | EvSetSRP sym group srp => sym = remoteSymID ∧ srp = "NONE" ∧ Contains group csiPrefix = true
      | EvRename sym _ _ => sym = remoteSymID
      | _ => False
      end
  | ReqDeleteGroup g attrs => e = EvDeleteGroup (param attrs (context_key ReplicationContextPrefix SymmetrixIDParam)) g
  end.
End serve.

Section traced.
Context {W C : Type} `{Pmax W C} `{MaskingClient W C} `{RenameClient W C} `{RdfClient W C} `{PoolClient W C} `{PoolCache W}.

#[export] Instance traced_rdf : RdfClient (traced W) C := {
  GetRDFDevicePairInfo a0 a1 a2 a3 := quiet (GetRDFDevicePairInfo a0 a1 a2 a3);
  GetRDFGroupMetrics a0 a1 a2 a3 a4 := quiet (GetRDFGroupMetrics a0 a1 a2 a3 a4);
  CreateStorageGroupLimits a0 a1 a2 a3 a4 a5 a6 := noisy (EvCreateGroup a1 a2) (CreateStorageGroupLimits a0 a1 a2 a3 a4 a5 a6);
  UpdateStorageGroupSRP a0 a1 a2 a3 := noisy (EvSetSRP a1 a2 a3) (UpdateStorageGroupSRP a0 a1 a2 a3);
}.
#[export] Instance traced_pool : PoolClient (traced W) C := {
  GetStoragePool a0 a1 a2 := quiet (GetStoragePool a0 a1 a2);
  GetStoragePoolList a0 a1 := quiet (GetStoragePoolList a0 a1);
  GetStorageGroupVolumeCounts a0 a1 a2 := quiet (GetStorageGroupVolumeCounts a0 a1 a2);
  ExpandVolume a0 a1 a2 a3 a4 := noisy (EvExpand a1 a2 a4) (ExpandVolume a0 a1 a2 a3 a4);
}.
#[export] Instance traced_pool_cache : PoolCache (traced W) := {
  knownStoragePools a t := knownStoragePools a t.1;
  setKnownStoragePools a m t := (setKnownStoragePools a m t.1, t.2);
}.

Variables (useProxy autoProbe : bool) (grpcMaxThreads storagePoolCacheDuration : Z).
Variable controllerProbe : M W (option error).
Variable GetPowerMaxClient : string → M W (result error C).
Variables (ReplicationPrefix ReplicationContextPrefix clusterPrefix : string).
Abbreviation clients := (λ a, quietM (GetPowerMaxClient a)).

Lemma status_logs P g attrs : logs P (getStorageProtectionGroupStatus (W := traced W) clients ReplicationContextPrefix g attrs).
Proof. unfold getStorageProtectionGroupStatus, try, ok, fail. logs. Qed.

Lemma volume_logs P id (c : C) : logs P (service_GetVolumeByID (W := traced W) id c).
Proof. unfold service_GetVolumeByID, try, ok, fail. logs. Qed.

Lemma local_group_logs P g vol : logs P (local_group (W := traced W) g vol).
Proof. unfold local_group. logs. Qed.

Lemma remote_id_logs P sym g dev (c : C) : logs P (GetRemoteVolumeID (W := traced W) sym g dev c).
Proof. unfold GetRemoteVolumeID, try, ok. logs. Qed.

Lemma pool_logs P sym pool (c : C) : logs P (validateStoragePoolID (W := traced W) storagePoolCacheDuration sym pool c).
Proof.
  unfold validateStoragePoolID. logs; try apply logs_get.
  intros t x t' [= <- <-]. exists []. by rewrite app_nil_r.
Qed.

Lemma run_action_logs P action sym g rdf (c : C) :
  (∀ a, P (EvReplication sym a g)) → logs P (run_action (W := traced W) action sym g rdf c).
Proof.
  intros HP. unfold run_action, Replication.Failover, Replication.Failback, Replication.Swap_, Replication.Reprotect,
    Replication.suspend, Replication.resume, Replication.establish, Replication.guarded, Replication.validateRDFState, Replication.execute, fail.
  logs; apply HP.
Qed.

Lemma with_array_logs {A} P sym (k : C → M (traced W) (result error A)) :
  (∀ c, logs P (k c)) → rpc_logs P (with_array clients useProxy autoProbe grpcMaxThreads (quietM controllerProbe) sym k).
Proof.
  intros Hk. apply rpc_try; [apply rpc_arrays, logs_quietM|]. intros c.
  apply rpc_check; [exact (rpc_probed P useProxy autoProbe grpcMaxThreads (quietM controllerProbe))|]. by apply rpc_arrays.
Qed.

Lemma execute_logs P g action attrs (c : C) :
  (∀ a, P (EvReplication (param attrs (context_key ReplicationContextPrefix SymmetrixIDParam)) a g)) →
  logs P (execute_action (W := traced W) clients ReplicationContextPrefix g action attrs c).
Proof.
  intros HP. unfold execute_action. case_decide; [|apply logs_ret]. apply logs_try; [by apply run_action_logs|]. intros [[] [psg|]];
    [apply logs_ret|..]; (apply logs_bind; [apply status_logs|intros; apply logs_ret]).
Qed.

Lemma protect_volume_logs P id params (c : C) :
  logs P (protect_volume (W := traced W) clients ReplicationPrefix ReplicationContextPrefix id params c).
Proof.
  unfold protect_volume. apply logs_try; [apply volume_logs|]. intros [[sym dev] vol].
  apply logs_bind; [apply local_group_logs|]. intros g. apply logs_try; [apply remote_id_logs|]. intros [rv rg].
  case_decide; [apply logs_ret|]. apply logs_try; [apply logs_quiet|]. intros rvol. case_decide; [apply logs_ret|].
  apply logs_bind; [apply status_logs|]. intros st. apply logs_ret.
Qed.

Lemma create_remote_logs id params (c : C) :
  logs (may_change ReplicationPrefix ReplicationContextPrefix clusterPrefix (ReqCreateRemote id params))
    (create_remote (W := traced W) storagePoolCacheDuration ReplicationPrefix ReplicationContextPrefix clusterPrefix id params c).
Proof.
  unfold create_remote. apply logs_try; [apply volume_logs|]. intros [[sym dev] vol]. apply logs_check; [apply pool_logs|].
  case_match; [apply logs_ret|]. apply logs_bind; [apply local_group_logs|]. intros g. apply logs_try; [apply remote_id_logs|]. intros [rv rg].
  apply logs_check; [unfold ensure_remote_group; logs; done|]. apply logs_try; [apply logs_quiet|]. intros rvol. case_decide as Hg; [apply logs_ret|].
  apply logs_check; [unfold reset_srp; logs; simpl; split_and!; [done..|]; by apply protected_member|].
  apply logs_check; [unfold add_to_default; logs; simpl; eauto|].
  apply logs_try; [unfold name_remote, try, ok, fail; logs; done|]. intros v. apply logs_ret.
Qed.

Lemma delete_group_logs sym g (c : C) : logs (eq (EvDeleteGroup sym g)) (delete_group (W := traced W) sym g c).
Proof. unfold delete_group, check, ok, fail. logs; done. Qed.

(** C11: whatever the arrays answer, a request of the replication extension changes nothing but what
    it names. An action runs on the group of the request, on the array of its attributes, and on
    nothing else; asking for the status of a group and protecting a volume only read; the remote copy
    of a volume is made known by changes of the remote array alone (its storage group, that group's
    new member, the SRP of a protected group of the driver, a name), never of the local one; deletion
    deletes only the group it is given. *)
Theorem rep_requests_only_named rq s r s' :
  serve (W := traced W) clients useProxy autoProbe grpcMaxThreads storagePoolCacheDuration (quietM controllerProbe)
    ReplicationPrefix ReplicationContextPrefix clusterPrefix rq s = Some (r, s') →
  ∃ l, s'.2.2 = (s.2.2 ++ l)%list ∧ Forall (may_change ReplicationPrefix ReplicationContextPrefix clusterPrefix rq) l.
Proof.
  revert s r s'. match goal with |- ∀ s r s', ?m s = _ → _ => change (rpc_logs (may_change ReplicationPrefix ReplicationContextPrefix clusterPrefix rq) m) end.
  destruct rq as [g a attrs|g attrs|id params|id params|g attrs]; simpl; (apply rpc_bind; [|intros; apply rpc_ret]).
  - apply with_array_logs. intros c. by apply execute_logs.
  - apply rpc_arrays, status_logs.
  - unfold CreateStorageProtectionGroup. repeat case_match; try apply rpc_ret; [|by intros ?]. apply with_array_logs, protect_volume_logs.
  - unfold CreateRemoteVolume. repeat case_match; try apply rpc_ret; [|by intros ?]. apply with_array_logs, create_remote_logs.
  - apply with_array_logs. intros c. eapply logs_impl; [|apply delete_group_logs]. by intros e <-.
Qed.
End traced.

(** ** Examples *)
Import SimArray SimMasking.
#[local] Existing Instance Deletion.sim_rename.

#[local] Instance sim_rdf_client : RdfClient Sim string := {
  GetRDFDevicePairInfo _ _ _ _ w := (Ok (mkPair "00002" 2 "000120000549"), w);
  GetRDFGroupMetrics _ _ _ _ _ w := (Ok (Some [mkMetrics (float_of_Z 15000) (float_of_Z 3) (float_of_Z 1)]), w);
  CreateStorageGroupLimits _ _ name _ _ _ _ w := (None, log ("create SG " ++ name) w);
  UpdateStorageGroupSRP _ _ name srp w := (None, log ("set SRP " ++ srp ++ " of " ++ name) w);
}.
#[local] Instance sim_pool_cache : PoolCache Sim := {
  knownStoragePools _ _ := {["SRP_1" := 100]};
  setKnownStoragePools _ _ w := w;
}.

Definition local_id := "csi-ABC-vol1-000120000548-00001".
Definition local_vol (groups : list string) : Volume := mkVolume "00001" "csi-ABC-vol1" groups false false "" 0 547 [1] fzero.
Definition remote_vol (groups : list string) : Volume := mkVolume "00002" "" groups false false "" 0 547 [2] fzero.
(** A device and its pair, replicated by groups 1 and 2. *)
Definition pair_sim (groups : list string) : Sim :=
  let w := sim [local_vol groups; remote_vol ["csi-rep-sg-ns-2-ASYNC"]] (mkStorageGroupRDFG ["R1"] [Consistent]) in
  mkSim (sim_time w) (sim_version w) (sim_volumes w) (sim_snaps w) (mkStorageGroup 0 1 "csi-rep-sg-ns-2-ASYNC" "SRP_1" [])
    (sim_rdf w) (sim_group w) (sim_dirs w) (sim_log w) (sim_licenses w).
Definition rep_params : gmap string string :=
  <["replication.storage.dell.com/RemoteSYMID" := "000120000549"]> (<["replication.storage.dell.com/RdfMode" := Async]>
    (<["replication.storage.dell.com/RemoteServiceLevel" := "Diamond"]> (<["replication.storage.dell.com/RemoteSRP" := "SRP_1"]>
      {["replication.storage.dell.com/RdfGroup" := "1"]}))).
Definition start (groups : list string) : tables * Sim := (tables0, pair_sim groups).

Definition protect0 (groups : list string) : option (result error ProtectionGroup * (tables * Sim)) :=
  CreateStorageProtectionGroup (λ _, ret (Ok "c")) true false 4 (ret None) "replication.storage.dell.com" "powermax" local_id rep_params (start groups).

(** The status has the lag of the last sample in seconds and its bandwidth in bytes. *)
Example protect_pair :
  match protect0 ["csi-ABC-Diamond-SRP_1-SG"; "csi-rep-sg-ns-1-ASYNC"] with
  | Some (Ok pg, _) =>
      LocalProtectionGroupId pg = "csi-rep-sg-ns-1-ASYNC" ∧ RemoteProtectionGroupId pg = "csi-rep-sg-ns-2-ASYNC"
      ∧ Group_Status pg = Some (mkStatus SYNCHRONIZED true 15 4194304)
  | _ => False
  end.
Proof. by vm_compute. Qed.

(** A device replicated by group 11 as well: the first name that contains the group is taken, so
    that group 1 finds the protected group of group 11. *)
Example protect_other_group :
  match protect0 ["csi-rep-sg-ns-11-ASYNC"; "csi-rep-sg-ns-1-ASYNC"] with
  | Some (Ok pg, _) =>
      LocalProtectionGroupId pg = "csi-rep-sg-ns-11-ASYNC"
      ∧ param (LocalProtectionGroupAttributes pg) (context_key "powermax" LocalRDFGroupParam) = "1"
      ∧ GetRDFInfoFromSGID (LocalProtectionGroupId pg) = Ok ("ns", "11", Async)
  | _ => False
  end.
Proof. vm_compute. done. Qed.

Lemma created_group_usable_witness :
  match protect0 ["csi-ABC-Diamond-SRP_1-SG"; "csi-rep-sg-ns-1-ASYNC"] with
  | Some (Ok pg, s') => protected_group (W := Sim) (C := string) "replication.storage.dell.com" "powermax" (mkCsiID "csi-ABC-vol1" "000120000548" "00001" "" "") rep_params pg
  | _ => False
  end.
Proof.
  destruct (protect0 _) as [[[pg|e] s']|] eqn:E; [|by vm_compute in E..].
  refine (created_group_usable (λ _, ret (Ok "c")) true false 4 (ret None) "replication.storage.dell.com" "powermax" local_id _ rep_params
    (start ["csi-ABC-Diamond-SRP_1-SG"; "csi-rep-sg-ns-1-ASYNC"]) pg s' _ _ E); [|by vm_compute].
  unfold distinct_keys. apply (bool_decide_unpack _). by vm_compute.
Defined.

Definition serve0 (rq : rep_request) : option (option error * (tables * traced Sim)) :=
  serve (W := traced Sim) (C := string) (λ _, quietM (ret (Ok "c"))) true false 4 1000 (quietM (ret None))
    "replication.storage.dell.com" "powermax" "ABC" rq (tables0, (pair_sim ["csi-rep-sg-ns-1-ASYNC"], [])).
Definition changes (r : option (option error * (tables * traced Sim))) : option (list event) :=
  match r with Some (None, s) => Some s.2.2 | _ => None end.
Definition group_attributes : gmap string string := attributes "powermax" "000120000548" "1" "000120000549" "2" Async.

(** A planned failover with its swap; the other array is not named. *)
Example failover_pair :
  changes (serve0 (ReqExecuteAction "csi-rep-sg-ns-1-ASYNC" "FAILOVER_REMOTE" group_attributes))
  = Some [EvReplication "000120000548" FailOver "csi-rep-sg-ns-1-ASYNC"; EvReplication "000120000548" Swap "csi-rep-sg-ns-1-ASYNC"].
Proof. by vm_compute. Qed.

Lemma rep_requests_only_named_witness :
  match serve0 (ReqCreateRemote local_id rep_params) with
  | Some (None, s') =>
      Forall (may_change "replication.storage.dell.com" "powermax" "ABC" (ReqCreateRemote local_id rep_params)) s'.2.2
      ∧ s'.2.2 = [EvSetSRP "000120000549" "csi-rep-sg-ns-2-ASYNC" "NONE"; EvAddVolumes "000120000549" "csi-ABC-Diamond-SRP_1-SG" ["00002"];
                  EvRename "000120000549" "00002" "csi-ABC-vol1"]
  | _ => False
  end.
Proof.
  destruct (serve0 (ReqCreateRemote local_id rep_params)) as [[[e|] s']|] eqn:E; [by vm_compute in E| |by vm_compute in E].
  destruct (rep_requests_only_named true false 4 1000 (ret None) (λ _, ret (Ok "c")) "replication.storage.dell.com" "powermax" "ABC"
    (ReqCreateRemote local_id rep_params) (tables0, (pair_sim ["csi-rep-sg-ns-1-ASYNC"], [])) None s' E) as (l & El & Hl). simpl in El. rewrite El. split; [done|].
  rewrite <- El. apply (f_equal changes) in E. vm_compute in E. by injection E.
Defined.
End RepRequests.
