(* ===== verification/Addons.v ===== *)
(** * CSI-Addons: replication and volume groups

    Models service/csiaddons_helpers.go, csiaddons_replication.go and
    csiaddons_volumegroup.go: a volume group is a storage group whose name and RDF
    group its id encodes; the requests protect it, change the side of an SRDF link that
    is active, bring the link back into sync, and keep the members of the group. *)

From stdpp Require Import base gmap strings list.
From Stdlib Require Import ZArith Lia Ascii.
From S2P Require Import Prelude GoLib Ordering Pmax SimArray PowerMax Replication VolumeID Masking SimMasking Trace Handler Publish Deletion DeletionWorker Rpc Snapshots GroupSnapshots RepRequests.

Module Addons.
Import PowerMax VolumeID Masking Handler.
Import Replication(Async, Sync, Metro, CsiRepSGPrefix, Suspend, Resume, Establish, FailOver, FailBack, Swap,
  Consistent, Synchronized, Suspended, FailedOver, ActiveBias, Invalid, Split_, GetOrCreateRDFGroup, verifyAndDeleteRemoteStorageGroup).
Import Deletion(RenameClient, RenameVolume).
Import DeletionWorker(quoted, APIVersion101).
Import Publish(HasSuffix).
Import Snapshots(with_lock, with_lock_logs).
Import GroupSnapshots(GroupSnapClient, GetVolumeIDListInStorageGroup).
Import RepRequests(RdfClient, GetRDFDevicePairInfo, RDFDevicePair, RemoteVolumeName, RemoteRdfGroupNumber, RemoteSymmID, SyncInProgress).
Open Scope go_scope.
Open Scope handler_scope.
Open Scope string_scope.
Open Scope Z_scope.

Definition Partitioned := "Partitioned".
Definition MaxStorageGroupNameLength : Z := 64.
Definition CSIAddonsParamRemoteSystem := "replication.storage.dell.com/remoteSystem".
Definition CSIAddonsParamReplicationMode := "replication.storage.dell.com/replicationMode".
Definition CSIAddonsParamVolumeGroupPrefix := "replication.storage.dell.com/volumeGroupPrefix".
Definition CSIAddonsParamRdfGroupNumber := "replication.storage.dell.com/rdfGroupNumber".
Definition CSIAddonsParamTargetArrayID := "replication.storage.dell.com/targetArray".
Definition CSIAddonsParamNamespace := "replication.storage.dell.com/namespace".
Definition CSIAddonsManagedByLabel := "replication.storage.dell.com/managed-by".
Definition CSIAddonsManagedByValue := "csi-addons".
Definition defaultVolumeGroupPrefix := "csi-addons-vg".
Definition metroErrorMessage := "SRDF Metro is not supported by CSI-Addons".
Definition csiAddonsActionSuspend := "Suspend".
Definition csiAddonsActionResume := "Resume".
Definition csiAddonsActionEstablish := "Establish".
Definition csiAddonsActionFailover := "Failover".
Definition csiAddonsActionFailback := "Failback".
Definition csiAddonsActionSwap := "Swap".

(** ** Parameters, names and ids *)
Record csiAddonsReplicationParams := mkAddonsParams {
  remoteSymID : string;
  replicationMode : string;
  rdfGroupNumber : string;
  volumeGroupPrefix : string;
  namespace : string;
}.

Definition missing (key : string) : error := statusError InvalidArgument ("missing required parameter " ++ quoted key).

(** A nil map is [None]. *)
Definition parseCSIAddonsReplicationParams (params : option (gmap string string)) : result error csiAddonsReplicationParams :=
  match params with
  | None => Err (statusError InvalidArgument "request parameters are required")
  | Some params =>
      let get k := default "" (params !! k) in
      let remote := if decide (get CSIAddonsParamRemoteSystem = "") then get CSIAddonsParamTargetArrayID else get CSIAddonsParamRemoteSystem in
      if decide (remote = "") then Err (missing CSIAddonsParamRemoteSystem)
      else
        let mode := ToUpper (TrimSpace (get CSIAddonsParamReplicationMode)) in
        if decide (mode = Sync ∨ mode = Async) then
          let prefix := TrimSpace (get CSIAddonsParamVolumeGroupPrefix) in
          Ok (mkAddonsParams remote mode (TrimSpace (get CSIAddonsParamRdfGroupNumber))
                (if decide (prefix = "") then defaultVolumeGroupPrefix else prefix) (TrimSpace (get CSIAddonsParamNamespace)))
        else if decide (mode = Metro) then Err (statusError InvalidArgument metroErrorMessage)
        else if decide (mode = "") then Err (missing CSIAddonsParamReplicationMode)
        else Err (statusError InvalidArgument ("unsupported replication mode " ++ quoted mode ++ "; supported values: SYNC, ASYNC"))
  end.

Definition csiAddonsManagedSGPrefix := CsiRepSGPrefix ++ "addons-".

(** [None] is the panic of truncateString. *)
Definition buildCSIAddonsSGName (vgPrefix namespace rdfGrpNo mode : string) : option string :=
  let cleanPrefix := if decide (TrimSpace vgPrefix = "") then defaultVolumeGroupPrefix else TrimSpace vgPrefix in
  let cleanNS := if decide (TrimSpace namespace = "") then "default" else TrimSpace namespace in
  let fixedLen := slen csiAddonsManagedSGPrefix + slen rdfGrpNo + slen mode + 3 in
  let maxVariableLen := MaxStorageGroupNameLength - fixedLen in
  let variablePart := cleanPrefix ++ "-" ++ cleanNS in
  variablePart ← (if maxVariableLen <? slen variablePart then truncateString variablePart maxVariableLen else Some variablePart);
  Some (csiAddonsManagedSGPrefix ++ variablePart ++ "-" ++ rdfGrpNo ++ "-" ++ mode).

Definition parseCSIAddonsSGName (sgName : string) : option (string * string) :=
  if negb (HasPrefix sgName csiAddonsManagedSGPrefix) then None
  else match reverse (Split "-" sgName) with
       | mode :: rdfGrpNo :: _ => if decide (rdfGrpNo = "" ∨ mode = "") then None else Some (rdfGrpNo, mode)
       | _ => None
       end.

Definition encodeVolumeGroupID (symID sgName rdfGrpNo : string) : string := symID ++ ":" ++ sgName ++ ":" ++ rdfGrpNo.
Definition decodeVolumeGroupID (vgID : string) : result error (string * string * string) :=
  if decide (vgID = "") then Err (statusError InvalidArgument "volume_group_id is required")
  else
    let malformed := Err (statusError InvalidArgument ("invalid volume_group_id " ++ quoted vgID ++ "; expected <symID>:<sgName>:<rdfGroupNo>")) in
    match Split ":" vgID with
    | [symID; sgName; rdfGrpNo] => if decide (symID = "" ∨ sgName = "") then malformed else Ok (symID, sgName, rdfGrpNo)
    | _ => malformed
    end.

Definition isCSIAddonsManagedSG (sgName : string) : bool := HasPrefix sgName csiAddonsManagedSGPrefix.
Definition csiAddonsSGLockHandle (sgName symID : string) : string := sgName ++ symID.

(** A panic of parseCsiID is [None]. *)
Definition extract (part : csiID → string) (volumeID : string) : option (result error string) :=
  if decide (volumeID = "") then Some (Err (statusError InvalidArgument "volume ID is required"))
  else match parseCsiID volumeID with
       | None => None
       | Some (Ok csi) => Some (Ok (part csi))
       | Some (Err e) => Some (Err (statusError InvalidArgument ("failed to parse volume id " ++ quoted volumeID ++ ": " ++ Error e)))
       end.
Definition extractSymIDFromVolumeID : string → option (result error string) := extract arrayID.
Definition extractDevIDFromVolumeID : string → option (result error string) := extract VolumeID.devID.

(** ** The state of a link *)
Definition named (l : list string) : list string := filter (λ s, s ≠ "") l.
Definition distinct (l : list string) : gset string := list_to_set (named l).

(** State, whether the local side is R1, mixed personalities, mixed states. *)
Definition csiAddonsSRDFPersonality (psg : StorageGroupRDFG) : string * bool * bool * bool :=
  let personalities := distinct (VolumeRdfTypes psg) in
  let mixedPersonalities := (1 <? size personalities)%nat in
  (default "" (head (named (States psg))),
   negb mixedPersonalities && bool_decide ("R1" ∈ personalities),
   mixedPersonalities,
   (1 <? size (distinct (States psg)))%nat).

Definition resolveEffectiveRDFGroup (rdfGrpNo : string) (psg : RDFStorageGroup) : result error string :=
  if decide (rdfGrpNo ≠ "") then Ok rdfGrpNo
  else match RDFGroups psg with
       | [] => Err (statusError FailedPrecondition "cannot determine RDF group: none encoded in the volume_group_id and none reported by the storage group")
       | [g] => Ok (Itoa g)
       | l => Err (statusError FailedPrecondition ("storage group spans multiple RDF groups (" ++ Sprint_strings (Itoa <$> l)
                ++ "); the rdfGroupNumber must be encoded in the volume_group_id"))
       end.

Definition summarizeSRDFState (psg : StorageGroupRDFG) : string :=
  let '(state, isR1, mixedPersonalities, mixedStates) := csiAddonsSRDFPersonality psg in
  let personality := if mixedPersonalities then "mixed" else if isR1 : bool then "R1" else "R2" in
  if mixedStates : bool then "personality=" ++ personality ++ " state=mixed states=" ++ Sprint_strings (States psg)
  else "personality=" ++ personality ++ " state=" ++ (if decide (state = "") then "unknown" else state).

(** The call a request carries names a volume group, a volume, or nothing. *)
Inductive ReplicationSource := Volumegroup (VolumeGroupId : string) | Volume_ (VolumeId : string) | NoSource.
Definition resolveVGFromSource (src : option ReplicationSource) : result error string :=
  let required := Err (statusError InvalidArgument "replication_source.volumegroup is required") in
  match src with
  | None => Err (statusError InvalidArgument "replication_source is required")
  | Some (Volumegroup id) => if decide (id ≠ "") then Ok id else required
  | Some (Volume_ id) =>
      if decide (id ≠ "") then Err (statusError InvalidArgument "volume-level replication is not supported; use volume group replication") else required
  | Some NoSource => required
  end.

Class AddonsClient (W C : Type) := {
  (** Array and storage group: ids and identifiers of its volumes. *)
  GetVolumesIdentifiersInStorageGroup : C → string → string → W → result error (list (string * string)) * W;
  (** Array, group, remote array, remote group, force, devices. *)
  AddVolumesToProtectedStorageGroup : C → string → string → string → string → bool → list string → W → option error * W;
  (** Array, text, whether names that contain it are meant. *)
  GetStorageGroupIDList : C → string → string → bool → W → result error (list string) * W;
}.

Definition lock_failed (e : error) : error := statusError Internal ("failed to acquire lock: " ++ Error e).
Definition internal (what : string) (e : error) : error := statusError Internal (what ++ ": " ++ Error e).
Definition or_panic {W A} (o : option A) : M W A := match o with Some a => ret a | None => panic end.

(** ** Identifiers of remote volumes *)
Record pendingRename := mkRename { remoteDevID : string; identifier : string }.
Definition remoteIdentifierRetryDelays : list Z := (λ n, n * 1000000000) <$> [1; 2; 4; 8].

Definition validateRemoteVolumeIdentifier (localIdentifier : string) : option error :=
  if decide (localIdentifier = "") then Some (statusError InvalidArgument "local volume identifier cannot be empty") else None.
Definition StatusCode (e : error) : code := match e with errorString _ => Unknown | statusError c _ => c end.

Section identifiers.
Context {W C : Type} `{Pmax W C} `{MaskingClient W C} `{RenameClient W C} `{GroupSnapClient W C} `{RdfClient W C} `{AddonsClient W C}.
(** The HTTP status of an error of the client library. *)
Variable remoteIdentifierHTTPStatus : error → Z.

Definition gateway_status (n : Z) : bool := bool_decide (n ∈ [502; 503; 504]).
Definition remoteIdentifierErrorCode (e : error) : code :=
  if decide (StatusCode e ≠ Unknown) then StatusCode e
  else if gateway_status (remoteIdentifierHTTPStatus e) then Unavailable else Internal.
Definition wrapRemoteIdentifierError (message : string) (e : error) : error :=
  statusError (remoteIdentifierErrorCode e) (message ++ ": " ++ Error e).
Definition isTransientRemoteIdentifierError (e : error) : bool :=
  if decide (StatusCode e = Unavailable) then true
  else if gateway_status (remoteIdentifierHTTPStatus e) then true
  else
    let message := ToLower (Error e) in
    HasSuffix message "csm-authorization: no storage pool found" || HasSuffix message "csm-authorization: getting volume by id"
    || Contains message "connection refused" || Contains message "temporarily unavailable".

Definition syncRemoteVolumeIdentifierValue (remoteSymID remoteVolumeID localIdentifier : string) (remoteVolume : Volume) (c : C) : M W (option error) :=
  match validateRemoteVolumeIdentifier localIdentifier with
  | Some e => ret (Some e)
  | None =>
      if decide (VolumeIdentifier remoteVolume = localIdentifier) then ret None
      else
        let* r := lift (RenameVolume c remoteSymID remoteVolumeID localIdentifier) in
        ret match r with
            | Err e => Some (wrapRemoteIdentifierError ("failed to rename remote volume " ++ remoteVolumeID ++ " on " ++ remoteSymID) e)
            | Ok _ => None
            end
  end.
Definition syncRemoteVolumeIdentifier (remoteSymID remoteVolumeID localIdentifier : string) (c : C) : M W (option error) :=
  match validateRemoteVolumeIdentifier localIdentifier with
  | Some e => ret (Some e)
  | None =>
      let* r := lift (GetVolumeByID c remoteSymID remoteVolumeID) in
      match r with
      | Err e => ret (Some (wrapRemoteIdentifierError ("failed to get remote volume " ++ remoteVolumeID ++ " on " ++ remoteSymID) e))
      | Ok remoteVolume => syncRemoteVolumeIdentifierValue remoteSymID remoteVolumeID localIdentifier remoteVolume c
      end
  end.
(** The loop of syncRemoteVolumeIdentifierWithRetry, over the delays that are left. *)
Fixpoint retry_identifier (delays : list Z) (remoteSymID remoteVolumeID localIdentifier : string) (c : C) : M W (option error) :=
  let* err := syncRemoteVolumeIdentifier remoteSymID remoteVolumeID localIdentifier c in
  match err, delays with
  | None, _ | Some _, [] => ret err
  | Some e, d :: delays =>
      if isTransientRemoteIdentifierError e then
        let* _ := lift (Sleep (C := C) d) in retry_identifier delays remoteSymID remoteVolumeID localIdentifier c
      else ret err
  end.
Definition syncRemoteVolumeIdentifierWithRetry : string → string → string → C → M W (option error) :=
  retry_identifier remoteIdentifierRetryDelays.
Definition syncRemoteVolumeIdentifierWithRetryFromVolume (remoteSymID remoteVolumeID localIdentifier : string) (remoteVolume : Volume) (c : C) : M W (option error) :=
  match validateRemoteVolumeIdentifier localIdentifier with
  | Some e => ret (Some e)
  | None =>
      let* err := syncRemoteVolumeIdentifierValue remoteSymID remoteVolumeID localIdentifier remoteVolume c in
      match err with
      | Some e => if isTransientRemoteIdentifierError e then syncRemoteVolumeIdentifierWithRetry remoteSymID remoteVolumeID localIdentifier c else ret err
      | None => ret None
      end
  end.

(** Whether the array has the call that lists the identifiers of a group. *)
Definition use_bulk (symID : string) (c : C) : M W bool :=
  let* details := lift (CachedVersion c symID) in
  ret match details with
      | Ok d => match Atoi (APIVersion d) with Some v => APIVersion101 <=? v | None => false end
      | Err _ => false
      end.
Definition by_id (volumes : list (string * string)) : gmap string string := fold_left (λ m v, <[v.1 := v.2]> m) volumes ∅.

(** The devices of the local group, their known identifiers, and whether they were listed at once. *)
Definition local_devices (localSymID sgName : string) (c : C) : M W (result error (bool * list string * gmap string string)) :=
  let* bulk := use_bulk localSymID c in
  let* page := if bulk : bool then lift (GetVolumesIdentifiersInStorageGroup c localSymID sgName) else ret (Err (errorString "")) in
  match page with
  | Ok volumes => ok (true, volumes.*1, by_id volumes)
  | Err _ =>
      let? devIDs := lift (GetVolumeIDListInStorageGroup c localSymID sgName)
        orelse internal ("syncRemoteVolumeIdentifiers: failed to list volumes in SG " ++ quoted sgName ++ " on " ++ quoted localSymID) in
      ok (false, devIDs, ∅)
  end.

(** The known identifier, or that of the volume the array answers. *)
Definition identifier_of (known : gmap string string) (symID devID : string) (c : C) : M W (result error string) :=
  match known !! devID with
  | Some i => ok i
  | None => let? vol := lift (GetVolumeByID c symID devID) in ok (VolumeIdentifier vol)
  end.

(** One turn of the loop that gathers: a rename that is needed, nothing, or an error. *)
Definition gather_one (locals remotes : gmap string string) (localSymID remoteSymID rdfGrpNo localDevID : string) (c : C)
    : M W (result error (option pendingRename)) :=
  let? localIdentifier := identifier_of locals localSymID localDevID c in
  if decide (localIdentifier = "") then ok None
  else
    let? rdfPair := lift (GetRDFDevicePairInfo c localSymID rdfGrpNo localDevID) in
    let? remoteIdentifier := identifier_of remotes remoteSymID (RemoteVolumeName rdfPair) c in
    ok (if decide (remoteIdentifier = localIdentifier) then None else Some (mkRename (RemoteVolumeName rdfPair) localIdentifier)).
Fixpoint gather (one : string → M W (result error (option pendingRename))) (devIDs : list string)
    (pending : list pendingRename) (gatherErr : option error) : M W (list pendingRename * option error) :=
  match devIDs with
  | [] => ret (pending, gatherErr)
  | d :: devIDs =>
      let* r := one d in
      match r with
      | Err e => gather one devIDs pending (Some e)
      | Ok None => gather one devIDs pending gatherErr
      | Ok (Some p) => gather one devIDs (pending ++ [p])%list gatherErr
      end
  end.

(** The errors of the renames that failed. *)
Fixpoint perVolumeRename_loop (symID : string) (renames : list pendingRename) (errs : list error) (c : C) : M W (list error) :=
  match renames with
  | [] => ret errs
  | r :: renames =>
      let* res := lift (RenameVolume c symID (remoteDevID r) (identifier r)) in
      perVolumeRename_loop symID renames (match res with Err e => errs ++ [e] | Ok _ => errs end)%list c
  end.
Definition perVolumeRename (symID : string) (renames : list pendingRename) (c : C) : M W (option error) :=
  let* errs := perVolumeRename_loop symID renames [] c in
  ret match errs with [] => None | _ => Some (errorString (Join (String (ascii_of_nat 10) "") (Error <$> errs))) end.

Definition syncRemoteVolumeIdentifiers (localSymID remoteSymID sgName rdfGrpNo : string) (c : C) : M W (option error) :=
  let* locals := local_devices localSymID sgName c in
  match locals with
  | Err e => ret (Some e)
  | Ok (bulk, localDevIDs, localIdentifiersByDevID) =>
      if decide (localDevIDs = []) then ret None
      else
        let* page := if bulk : bool then lift (GetVolumesIdentifiersInStorageGroup c remoteSymID sgName) else ret (Ok []) in
        let remoteIdentifiersByDevID := match page with Ok volumes => by_id volumes | Err _ => ∅ end in
        let* g := gather (λ d, gather_one localIdentifiersByDevID remoteIdentifiersByDevID localSymID remoteSymID rdfGrpNo d c) localDevIDs [] None in
        let '(pending, gatherErr) := g in
        if decide (pending = []) then
          ret (internal "syncRemoteVolumeIdentifiers: errors during gather phase" <$> gatherErr)
        else
          let* renameErr := perVolumeRename remoteSymID pending c in
          ret (internal "syncRemoteVolumeIdentifiers: one or more remote volumes could not be renamed"
                 <$> match renameErr with Some e => Some e | None => gatherErr end)
  end.

Definition protectStorageGroupCSIAddons (localSymID remoteSymID sgName rdfGrpNo rdfMode : string) (c : C) : M W (option error) :=
  let* sg := lift (GetProtectedStorageGroup c localSymID sgName) in
  if match sg with Ok sg => Rdf sg | Err _ => false end then ret None
  else
    let* r := lift (GetRDFGroupByID c localSymID rdfGrpNo) in
    match r with
    | Err e => ret (Some (statusError Internal ("could not get RDF group (" ++ rdfGrpNo ++ ") information on symID (" ++ localSymID ++ "): " ++ Error e)))
    | Ok rdfg =>
        if RDFG_Async rdfg && (0 <? NumDevices rdfg) then
          ret (Some (statusError FailedPrecondition ("RDF group (" ++ rdfGrpNo ++ ") cannot be used for ASYNC, as it already has volume pairing")))
        else
          let* e := verifyAndDeleteRemoteStorageGroup c remoteSymID sgName in
          match e with
          | Some e => ret (Some (statusError Internal ("could not verify remote storage group (" ++ sgName ++ "): " ++ Error e)))
          | None =>
              let* e := lift (CreateSGReplica c localSymID remoteSymID rdfMode rdfGrpNo sgName sgName "" false) in
              ret ((λ e, statusError Internal ("could not create storage group replica for (" ++ sgName ++ "): " ++ Error e)) <$> e)
          end
    end.
End identifiers.

(** ** Requests on the replication of a group *)
Inductive Health := HEALTH_UNKNOWN | HEALTHY | DEGRADED | HEALTH_ERROR.
Record ReplicationInfo := mkInfo { Info_Status : Health; StatusMessage : string; LastSyncTime : option Z }.
Record ReplicationDestination := mkDestination { Dest_VolumeGroupId : string; Dest_VolumeIds : gmap string string }.

Section replication.
Context {W C : Type} `{Pmax W C} `{MaskingClient W C} `{RenameClient W C} `{GroupSnapClient W C} `{RdfClient W C} `{AddonsClient W C}.
Variable GetPowerMaxClient : string → list string → M W (result error C).

Definition locked {A} (symID sgName reqID : string) (m : M W (result error A)) : M W (result error A) :=
  with_lock (C := C) (csiAddonsSGLockHandle sgName symID) reqID lock_failed m.
Definition on_group (c : C) (symID action sgName rdfGrpNo : string) (force exempt : bool) : M W (option error) :=
  lift (ExecuteReplicationActionOnSG c symID action sgName rdfGrpNo force exempt false).

Definition EnableVolumeReplication (src : option ReplicationSource) (params : option (gmap string string)) (reqID : string) : M W (result error unit) :=
  let? vgID := ret (resolveVGFromSource src) in
  let? p := ret (parseCSIAddonsReplicationParams params) in
  let? id := ret (decodeVolumeGroupID vgID) in
  let '(symID, sgName, rdfGrpNo) := id in
  if decide (rdfGrpNo = "") then
    fail (statusError InvalidArgument "EnableVolumeReplication: rdfGroupNumber must be encoded in the volume_group_id (set by CreateVolumeGroup)")
  else
    let? c := GetPowerMaxClient symID [remoteSymID p] orelse internal "EnableVolumeReplication: failed to get PowerMax client" in
    locked symID sgName reqID
      (do? protectStorageGroupCSIAddons symID (remoteSymID p) sgName rdfGrpNo (replicationMode p) c in
       do? syncRemoteVolumeIdentifiers symID (remoteSymID p) sgName rdfGrpNo c in ok tt).

(** The group as it is, or already at rest. *)
Definition suspend_group (symID sgName rdfGrpNo : string) (c : C) : M W (result error unit) :=
  let* psg := lift (GetProtectedStorageGroup c symID sgName) in
  match psg with
  | Err _ => ok tt
  | Ok psg =>
      if negb (Rdf psg) then ok tt
      else
        let? effectiveRdfGrp := ret (resolveEffectiveRDFGroup rdfGrpNo psg) in
        let* sgRDF := lift (GetStorageGroupRDFInfo c symID sgName effectiveRdfGrp) in
        if match sgRDF with Ok r => bool_decide ((csiAddonsSRDFPersonality r).1.1.1 = Suspended) | Err _ => false end then ok tt
        else
          do? on_group c symID csiAddonsActionSuspend sgName effectiveRdfGrp true false
            orelse internal ("DisableVolumeReplication: failed to suspend SG " ++ quoted sgName) in ok tt
  end.
Definition DisableVolumeReplication (src : option ReplicationSource) (reqID : string) : M W (result error unit) :=
  let? vgID := ret (resolveVGFromSource src) in
  let? id := ret (decodeVolumeGroupID vgID) in
  let '(symID, sgName, rdfGrpNo) := id in
  if negb (isCSIAddonsManagedSG sgName) then
    fail (statusError InvalidArgument ("DisableVolumeReplication: storage group " ++ quoted sgName ++ " is not managed by CSI-Addons; refusing to operate on it"))
  else
    let? c := GetPowerMaxClient symID [] orelse internal "DisableVolumeReplication: failed to get PowerMax client" in
    locked symID sgName reqID (suspend_group symID sgName rdfGrpNo c).

(** The client, array, group, RDF group and link of a request. *)
Record srdfContext := mkContext { ctx_client : C; ctx_symID : string; ctx_sgName : string; ctx_rdfGrpNo : string; ctx_sgRDF : StorageGroupRDFG }.
Definition loadSRDFContext (src : option ReplicationSource) : M W (result error srdfContext) :=
  let? vgID := ret (resolveVGFromSource src) in
  let? id := ret (decodeVolumeGroupID vgID) in
  let '(symID, sgName, rdfGrpNo) := id in
  if decide (rdfGrpNo = "") then fail (statusError InvalidArgument "rdfGroupNumber must be encoded in the volume_group_id")
  else
    let? c := GetPowerMaxClient symID [] orelse internal "failed to get PowerMax client" in
    let? sgRDF := lift (GetStorageGroupRDFInfo c symID sgName rdfGrpNo)
      orelse (λ e, statusError NotFound ("SG " ++ quoted sgName ++ " on " ++ quoted symID ++ " (rdfg=" ++ rdfGrpNo ++ "): " ++ Error e)) in
    ok (mkContext c symID sgName rdfGrpNo sgRDF).

Definition mixed_personalities (request sgName : string) (psg : StorageGroupRDFG) : error :=
  statusError FailedPrecondition (request ++ ": SG " ++ quoted sgName ++ " has mixed SRDF personalities ("
    ++ Sprint_strings (VolumeRdfTypes psg) ++ "); cannot operate at SG level").
Definition mixed_states (request sgName advice : string) (psg : StorageGroupRDFG) : error :=
  statusError FailedPrecondition (request ++ ": SG " ++ quoted sgName ++ " has mixed SRDF states (" ++ Sprint_strings (States psg) ++ "); " ++ advice).

(** What PromoteVolume does once it has the lock. *)
Definition promote (x : srdfContext) (force : bool) : M W (result error unit) :=
  let act := λ action force exempt, on_group (ctx_client x) (ctx_symID x) action (ctx_sgName x) (ctx_rdfGrpNo x) force exempt in
  let on := " on SG " ++ quoted (ctx_sgName x) ++ " failed" in
  let '(state, isR1, mixedPersonalities, mixedStates) := csiAddonsSRDFPersonality (ctx_sgRDF x) in
  if mixedPersonalities : bool then fail (mixed_personalities "PromoteVolume" (ctx_sgName x) (ctx_sgRDF x))
  else if mixedStates && negb force then
    fail (mixed_states "PromoteVolume" (ctx_sgName x) "use force=true for unplanned failover" (ctx_sgRDF x))
  else if isR1 && negb (bool_decide (state = FailedOver)) then ok tt
  else if negb isR1 && bool_decide (state = FailedOver) then ok tt
  else if isR1 && bool_decide (state = FailedOver) then
    do? act csiAddonsActionFailback force true orelse internal ("PromoteVolume: failback" ++ on) in ok tt
  else
    do? act csiAddonsActionFailover force true orelse internal ("PromoteVolume: failover" ++ on) in
    if negb force then let* _ := act csiAddonsActionSwap false false in ok tt else ok tt.
Definition PromoteVolume (src : option ReplicationSource) (force : bool) (reqID : string) : M W (result error unit) :=
  let? x := loadSRDFContext src in locked (ctx_symID x) (ctx_sgName x) reqID (promote x force).

Definition demote (x : srdfContext) (force : bool) : M W (result error unit) :=
  let '(state, isR1, mixedPersonalities, mixedStates) := csiAddonsSRDFPersonality (ctx_sgRDF x) in
  if mixedPersonalities : bool then fail (mixed_personalities "DemoteVolume" (ctx_sgName x) (ctx_sgRDF x))
  else if mixedStates : bool then
    fail (mixed_states "DemoteVolume" (ctx_sgName x) "cannot perform a planned failover at SG level" (ctx_sgRDF x))
  else if negb isR1 || bool_decide (state = FailedOver) then ok tt
  else
    do? on_group (ctx_client x) (ctx_symID x) csiAddonsActionFailover (ctx_sgName x) (ctx_rdfGrpNo x) force true
      orelse internal ("DemoteVolume: failover on SG " ++ quoted (ctx_sgName x) ++ " failed") in ok tt.
Definition DemoteVolume (src : option ReplicationSource) (force : bool) (reqID : string) : M W (result error unit) :=
  let? x := loadSRDFContext src in locked (ctx_symID x) (ctx_sgName x) reqID (demote x force).

Definition in_sync (state : string) : bool := bool_decide (state = Consistent ∨ state = Synchronized ∨ state = ActiveBias).
(** The action that brings a link back, when its state has one. *)
Definition recovery (state : string) : option string :=
  if decide (state = Suspended ∨ state = Partitioned) then Some csiAddonsActionResume
  else if decide (state = Split_) then Some csiAddonsActionEstablish
  else if decide (state = FailedOver) then Some csiAddonsActionSwap
  else None.
(** The answer is whether the group is ready. *)
Definition resync (x : srdfContext) (force : bool) : M W (result error bool) :=
  let '(state, _, mixedPersonalities, _) := csiAddonsSRDFPersonality (ctx_sgRDF x) in
  if mixedPersonalities : bool then fail (mixed_personalities "ResyncVolume" (ctx_sgName x) (ctx_sgRDF x))
  else if in_sync state then ok true
  else if decide (state = SyncInProgress) then ok false
  else match recovery state with
       | None => ok false
       | Some action =>
           do? on_group (ctx_client x) (ctx_symID x) action (ctx_sgName x) (ctx_rdfGrpNo x) force (bool_decide (action = csiAddonsActionResume))
             orelse internal ("ResyncVolume: " ++ action ++ " on SG " ++ quoted (ctx_sgName x) ++ " failed") in ok false
       end.
Definition ResyncVolume (src : option ReplicationSource) (force : bool) (reqID : string) : M W (result error bool) :=
  let? x := loadSRDFContext src in locked (ctx_symID x) (ctx_sgName x) reqID (resync x force).

(** Health and message of a link. *)
Definition health (sgName : string) (sgRDF : StorageGroupRDFG) : Health * string :=
  let '(state, _, mixedPersonalities, mixedStates) := csiAddonsSRDFPersonality sgRDF in
  let summary := "SG=" ++ sgName ++ " " ++ summarizeSRDFState sgRDF in
  if mixedPersonalities : bool then
    (DEGRADED, "SG=" ++ sgName ++ " has mixed SRDF personalities (" ++ Sprint_strings (VolumeRdfTypes sgRDF)
       ++ "); manual intervention required to align all devices to a single R1/R2 role (e.g. re-pair the divergent device) before replication operations can proceed")
  else if in_sync state then (HEALTHY, summary)
  else if mixedStates : bool then
    (DEGRADED, "SG=" ++ sgName ++ " has mixed SRDF states (" ++ Sprint_strings (States sgRDF)
       ++ "); wait for the link to settle, or suspend then resume the group to realign all devices")
  else if decide (state = SyncInProgress ∨ state = Suspended ∨ state = Split_ ∨ state = Partitioned ∨ state = FailedOver) then (DEGRADED, summary)
  else if decide (state = Invalid) then (HEALTH_ERROR, summary)
  else (HEALTH_UNKNOWN, summary).
Definition GetVolumeReplicationInfo (src : option ReplicationSource) : M W (result error ReplicationInfo) :=
  let? x := loadSRDFContext src in
  let '(status, message) := health (ctx_sgName x) (ctx_sgRDF x) in
  let state := (csiAddonsSRDFPersonality (ctx_sgRDF x)).1.1.1 in
  if in_sync state || bool_decide (state = FailedOver) then
    let* now := lift (Now (C := C)) in ok (mkInfo status message (Some now))
  else ok (mkInfo status message None).

(** The loop over the devices of a group. *)
Fixpoint map_volumes (known : gmap string string) (symID sgName rdfGrpNo : string) (devIDs : list string) (c : C)
    (mappings : gmap string string) (remoteSym remoteRdf : string) : M W (result error (gmap string string * string * string)) :=
  match devIDs with
  | [] => ok (mappings, remoteSym, remoteRdf)
  | devID :: devIDs =>
      let? ident := identifier_of known symID devID c
        orelse internal ("GetReplicationDestinationInfo: failed to get volume info for " ++ quoted devID ++ " on " ++ quoted symID) in
      let? rdfPair := lift (GetRDFDevicePairInfo c symID rdfGrpNo devID)
        orelse (λ e, statusError FailedPrecondition ("GetReplicationDestinationInfo: no RDF pair for device " ++ quoted devID ++ " in SG " ++ quoted sgName ++ ": " ++ Error e)) in
      map_volumes known symID sgName rdfGrpNo devIDs c
        (<[ident ++ "-" ++ symID ++ "-" ++ devID := ident ++ "-" ++ RemoteSymmID rdfPair ++ "-" ++ RemoteVolumeName rdfPair]> mappings)
        (if decide (remoteSym = "") then RemoteSymmID rdfPair else remoteSym)
        (if decide (remoteSym = "") then Itoa (RemoteRdfGroupNumber rdfPair) else remoteRdf)
  end.
Definition destination (symID sgName rdfGrpNo : string) (c : C) : M W (result error ReplicationDestination) :=
  let? devIDs := lift (GetVolumeIDListInStorageGroup c symID sgName)
    orelse (λ e, statusError NotFound ("GetReplicationDestinationInfo: failed to list volumes in SG " ++ quoted sgName ++ " on " ++ quoted symID ++ ": " ++ Error e)) in
  if decide (devIDs = []) then
    fail (statusError FailedPrecondition ("GetReplicationDestinationInfo: SG " ++ quoted sgName ++ " on " ++ quoted symID ++ " has no volumes"))
  else
    let* bulk := use_bulk symID c in
    let* page := if bulk : bool then lift (GetVolumesIdentifiersInStorageGroup c symID sgName) else ret (Ok []) in
    let known := match page with Ok volumes => by_id volumes | Err _ => ∅ end in
    let? r := map_volumes known symID sgName rdfGrpNo devIDs c ∅ "" "" in
    let '(mappings, remoteSym, remoteRdf) := r in
    ok (mkDestination (encodeVolumeGroupID remoteSym sgName remoteRdf) mappings).
Definition GetReplicationDestinationInfo (src : option ReplicationSource) : M W (result error ReplicationDestination) :=
  let? vgID := ret (resolveVGFromSource src) in
  let? id := ret (decodeVolumeGroupID vgID) in
  let '(symID, sgName, rdfGrpNo) := id in
  if decide (rdfGrpNo = "") then
    fail (statusError InvalidArgument "GetReplicationDestinationInfo: rdfGroupNumber must be encoded in the volume_group_id")
  else
    let? c := GetPowerMaxClient symID [] orelse internal "GetReplicationDestinationInfo: failed to get PowerMax client" in
    destination symID sgName rdfGrpNo c.
End replication.

(** ** Volume groups *)
Record VolumeGroup := mkVolumeGroup { VolumeGroupId_ : string; VolumeGroupContext : gmap string string; Volumes : list string }.

Section groups.
Context {W C : Type} `{Pmax W C} `{MaskingClient W C} `{GroupSnapClient W C} `{AddonsClient W C} `{MapOrder}.
Variable GetPowerMaxClient : string → list string → M W (result error C).
Variable clusterPrefix : string.

Definition group_context (sgName symID rdfGrpNo : string) : gmap string string :=
  <["storageGroup" := sgName]> (<["sourceArrayID" := symID]> (<["rdfGroupNumber" := rdfGrpNo]> {[CSIAddonsManagedByLabel := CSIAddonsManagedByValue]})).

Definition members (symID sgName : string) (otherwise : list string) (c : C) : M W (list string) :=
  let* r := lift (GetVolumeIDListInStorageGroup c symID sgName) in
  ret match r with Ok devIDs => (λ d, symID ++ "-" ++ d) <$> devIDs | Err _ => otherwise end.

Definition buildVolumeGroupResponse (symID sgName rdfGrpNo : string) (params : csiAddonsReplicationParams) (preferredVolumeIDs : list string) (c : C) : M W VolumeGroup :=
  let '(rdfGrpNo, mode) :=
    match parseCSIAddonsSGName sgName with
    | Some (parsedRdf, parsedMode) =>
        (if decide (rdfGrpNo = "") then parsedRdf else rdfGrpNo, if decide (replicationMode params = "") then parsedMode else replicationMode params)
    | None => (rdfGrpNo, replicationMode params)
    end in
  let vgCtx := group_context sgName symID rdfGrpNo in
  let vgCtx := if decide (mode = "") then vgCtx else <[CSIAddonsParamReplicationMode := mode]> vgCtx in
  let vgCtx := if decide (remoteSymID params = "") then vgCtx else <[CSIAddonsParamRemoteSystem := remoteSymID params]> vgCtx in
  let* volumes := members symID sgName preferredVolumeIDs c in
  ret (mkVolumeGroup (encodeVolumeGroupID symID sgName rdfGrpNo) vgCtx volumes).

(** The devices of the volumes, which are on one of two arrays. *)
Fixpoint collect_devices (localSymID remote : string) (ids : list string) (devIDs : list string) : M W (result error (list string)) :=
  match ids with
  | [] => ok devIDs
  | vid :: ids =>
      let? sym := or_panic (extractSymIDFromVolumeID vid) in
      if decide (sym ≠ localSymID ∧ sym ≠ remote) then
        fail (statusError InvalidArgument ("CreateVolumeGroup: volume " ++ quoted vid ++ " is on array " ++ quoted sym ++ ", expected "
                ++ quoted localSymID ++ " or remote " ++ quoted remote))
      else
        let? dev := or_panic (extractDevIDFromVolumeID vid) in
        collect_devices localSymID remote ids (devIDs ++ [dev])%list
  end.

Definition getExistingVolumeGroupResponse (symID : string) (params : csiAddonsReplicationParams) : M W (result error VolumeGroup) :=
  let? c := GetPowerMaxClient symID [] orelse internal "failed to get PowerMax client" in
  if decide (rdfGroupNumber params = "") then
    fail (statusError InvalidArgument "CreateVolumeGroup: rdfGroupNumber is required for secondary-side reconcile")
  else
    let* sgName := or_panic (buildCSIAddonsSGName (volumeGroupPrefix params) (namespace params) (rdfGroupNumber params) (replicationMode params)) in
    let* vg := buildVolumeGroupResponse symID sgName (rdfGroupNumber params) params [] c in ok vg.

Definition rdf_group (localSymID : string) (params : csiAddonsReplicationParams) (c : C) : M W (result error string) :=
  if decide (rdfGroupNumber params ≠ "") then ok (rdfGroupNumber params)
  else
    let? r := GetOrCreateRDFGroup clusterPrefix c localSymID (remoteSymID params) (replicationMode params) (namespace params)
      orelse internal "CreateVolumeGroup: failed to get/create RDF group" in
    if decide (r.1 = "") then
      fail (statusError Unavailable "CreateVolumeGroup: could not determine RDF group number for the given array pair and replication mode")
    else ok r.1.

Definition ensure_addons_group (localSymID sgName : string) (c : C) : M W (option error) :=
  let* r := lift (GetStorageGroup c localSymID sgName) in
  match r with
  | Ok _ => ret None
  | Err _ =>
      let* e := lift (CreateStorageGroup c localSymID sgName "None" "" false) in
      ret (internal ("CreateVolumeGroup: failed to create storage group " ++ quoted sgName) <$> e)
  end.
Definition add_missing (localSymID sgName : string) (devIDs : list string) (c : C) : M W (option error) :=
  let* r := lift (GetVolumeIDListInStorageGroup c localSymID sgName) in
  let existing := match r with Ok l => l | Err _ => [] end in
  let toAdd := filter (λ id, id ∉ existing) devIDs in
  if decide (toAdd = []) then ret None
  else
    let* e := lift (AddVolumesToStorageGroup c localSymID sgName true toAdd) in
    ret (internal ("CreateVolumeGroup: failed to add volumes to storage group " ++ quoted sgName) <$> e).

Definition CreateVolumeGroup (name : string) (volumeIDs : list string) (parameters : option (gmap string string)) (reqID : string) : M W (result error VolumeGroup) :=
  if decide (name = "") then fail (statusError InvalidArgument "CreateVolumeGroup: volume group name is required")
  else match volumeIDs with
  | [] => fail (statusError InvalidArgument "CreateVolumeGroup: at least one volume id is required")
  | first :: _ =>
      let? params := ret (parseCSIAddonsReplicationParams parameters) in
      let? localSymID := or_panic (extractSymIDFromVolumeID first) in
      let? devIDs := collect_devices localSymID (remoteSymID params) volumeIDs [] in
      if decide (localSymID = remoteSymID params) then getExistingVolumeGroupResponse localSymID params
      else
        let? c := GetPowerMaxClient localSymID [remoteSymID params] orelse internal "CreateVolumeGroup: failed to get PowerMax client" in
        let? rdfGrpNo := rdf_group localSymID params c in
        let* sgName := or_panic (buildCSIAddonsSGName (volumeGroupPrefix params) (namespace params) rdfGrpNo (replicationMode params)) in
        locked (C := C) localSymID sgName reqID
          (do? ensure_addons_group localSymID sgName c in
           do? add_missing localSymID sgName devIDs c in
           let* vg := buildVolumeGroupResponse localSymID sgName rdfGrpNo params volumeIDs c in ok vg)
  end.

(** *** Deletion *)
Definition deleteUnprotectedSG (symID sgName : string) (c : C) : M W (result error unit) :=
  let* r := lift (GetVolumeIDListInStorageGroup c symID sgName) in
  let devIDs := match r with Ok l => l | Err _ => [] end in
  do? (if decide (devIDs = []) then ret None else
       let* e := lift (RemoveVolumesFromStorageGroup c symID sgName true devIDs) in ret e)
    orelse internal ("DeleteVolumeGroup: failed to remove volumes from " ++ quoted sgName) in
  do? lift (DeleteStorageGroup c symID sgName) orelse internal ("DeleteVolumeGroup: failed to delete SG " ++ quoted sgName) in ok tt.

Definition deleteProtectedVolumeGroup (symID sgName rdfGrpNo : string) (psg : RDFStorageGroup) (c : C) : M W (result error unit) :=
  let? effectiveRdfGrp := ret (resolveEffectiveRDFGroup rdfGrpNo psg) in
  let* sgRDF := lift (GetStorageGroupRDFInfo c symID sgName effectiveRdfGrp) in
  let '(state, isR1) := match sgRDF with Ok r => let '(st, r1, _, _) := csiAddonsSRDFPersonality r in (st, r1) | Err _ => ("", true) end in
  if negb isR1 then ok tt
  else
    let? rdfInfo := lift (GetRDFGroupByID c symID effectiveRdfGrp)
      orelse internal ("DeleteVolumeGroup: failed to get RDF group " ++ effectiveRdfGrp ++ " info") in
    let remote := RemoteSymmetrix rdfInfo in
    let? c := GetPowerMaxClient symID [remote] orelse internal "DeleteVolumeGroup: failed to get PowerMax client for both arrays" in
    do? (if decide (state = Suspended ∨ state = Split_) then ret None else on_group c symID csiAddonsActionSuspend sgName effectiveRdfGrp true false)
      orelse internal ("DeleteVolumeGroup: failed to suspend SRDF on SG " ++ quoted sgName) in
    let* r := lift (GetVolumeIDListInStorageGroup c symID sgName) in
    let devIDs := match r with Ok l => l | Err _ => [] end in
    do? (if decide (devIDs = []) then ret None else
         let* e := lift (RemoveVolumesFromProtectedStorageGroup c symID sgName remote sgName true devIDs) in ret e)
      orelse internal ("DeleteVolumeGroup: failed to remove protected volumes from " ++ quoted sgName) in
    do? lift (DeleteStorageGroup c symID sgName) orelse internal ("DeleteVolumeGroup: failed to delete local SG " ++ quoted sgName) in
    let* _ := lift (DeleteStorageGroup c remote sgName) in ok tt.

Definition delete_volume_group (symID sgName rdfGrpNo : string) (c : C) : M W (result error unit) :=
  let* sg := lift (GetStorageGroup c symID sgName) in
  match sg with
  | Err _ => ok tt
  | Ok _ =>
      let* psg := lift (GetProtectedStorageGroup c symID sgName) in
      match psg with
      | Ok psg => if Rdf psg then deleteProtectedVolumeGroup symID sgName rdfGrpNo psg c else deleteUnprotectedSG symID sgName c
      | Err _ => deleteUnprotectedSG symID sgName c
      end
  end.
Definition DeleteVolumeGroup (vgID reqID : string) : M W (result error unit) :=
  let? id := ret (decodeVolumeGroupID vgID) in
  let '(symID, sgName, rdfGrpNo) := id in
  let? c := GetPowerMaxClient symID [] orelse internal "DeleteVolumeGroup: failed to get PowerMax client" in
  locked (C := C) symID sgName reqID (delete_volume_group symID sgName rdfGrpNo c).

(** *** Members *)
Fixpoint desired_devices (ids : list string) (desired : gmap string unit) : M W (result error (gmap string unit)) :=
  match ids with
  | [] => ok desired
  | vid :: ids => let? dev := or_panic (extractDevIDFromVolumeID vid) in desired_devices ids (<[dev := tt]> desired)
  end.

(** The remote array of a protected group with the client for both; an R2 group is refused. *)
Definition modify_side (symID sgName rdfGrpNo : string) (c : C) : M W (result error (option string * C)) :=
  let* psg := lift (GetProtectedStorageGroup c symID sgName) in
  if match psg with Ok psg => Rdf psg && negb (bool_decide (rdfGrpNo = "")) | Err _ => false end then
    let* sgRDF := lift (GetStorageGroupRDFInfo c symID sgName rdfGrpNo) in
    if match sgRDF with Ok r => negb (csiAddonsSRDFPersonality r).1.1.2 | Err _ => false end then
      fail (statusError FailedPrecondition "ModifyVolumeGroupMembership: cannot modify membership on R2 side; perform changes on R1 (source) cluster")
    else
      let* rdfInfo := lift (GetRDFGroupByID c symID rdfGrpNo) in
      match rdfInfo with
      | Err _ => ok (None, c)
      | Ok g =>
          let* both := GetPowerMaxClient symID [RemoteSymmetrix g] in
          ok (Some (RemoteSymmetrix g), match both with Ok c2 => c2 | Err _ => c end)
      end
  else ok (None, c).

Definition missing_from (a b : gmap string unit) : list string := filter (λ d, b !! d = None) (range a).*1.
Definition as_set (l : list string) : gmap string unit := fold_left (λ m d, <[d := tt]> m) l ∅.

Definition change_members (symID sgName : string) (remote : option string) (toAdd toRemove : list string) (c : C) : M W (option error) :=
  let what verb l := "ModifyVolumeGroupMembership: failed to " ++ verb ++ (match remote with Some _ => " protected volumes " | None => " " end) ++ Sprint_strings l in
  let* e := if decide (toAdd = []) then ret None
    else match remote with
         | Some r => lift (AddVolumesToProtectedStorageGroup c symID sgName r sgName true toAdd)
         | None => lift (AddVolumesToStorageGroup c symID sgName true toAdd)
         end in
  match e with
  | Some e => ret (Some (internal (what "add" toAdd ++ " to " ++ quoted sgName) e))
  | None =>
      let* e := if decide (toRemove = []) then ret None
        else match remote with
             | Some r => lift (RemoveVolumesFromProtectedStorageGroup c symID sgName r sgName true toRemove)
             | None => lift (RemoveVolumesFromStorageGroup c symID sgName true toRemove)
             end in
      ret (internal (what "remove" toRemove ++ " from " ++ quoted sgName) <$> e)
  end.

Definition empty_params : csiAddonsReplicationParams := mkAddonsParams "" "" "" defaultVolumeGroupPrefix "".
Definition modify_members (symID sgName rdfGrpNo : string) (volumeIDs : list string) (c : C) : M W (result error VolumeGroup) :=
  let? side := modify_side symID sgName rdfGrpNo c in
  let '(remote, c) := side in
  let? desired := desired_devices volumeIDs ∅ in
  let? current := lift (GetVolumeIDListInStorageGroup c symID sgName)
    orelse internal ("ModifyVolumeGroupMembership: failed to list current members of " ++ quoted sgName) in
  let currentSet := as_set current in
  do? change_members symID sgName remote (missing_from desired currentSet) (missing_from currentSet desired) c in
  let* vg := buildVolumeGroupResponse symID sgName rdfGrpNo empty_params volumeIDs c in ok vg.
Definition ModifyVolumeGroupMembership (vgID : string) (volumeIDs : list string) (reqID : string) : M W (result error VolumeGroup) :=
  let? id := ret (decodeVolumeGroupID vgID) in
  let '(symID, sgName, rdfGrpNo) := id in
  let? c := GetPowerMaxClient symID [] orelse internal "ModifyVolumeGroupMembership: failed to get PowerMax client" in
  locked (C := C) symID sgName reqID (modify_members symID sgName rdfGrpNo volumeIDs c).

Definition ControllerGetVolumeGroup (vgID : string) : M W (result error VolumeGroup) :=
  let? id := ret (decodeVolumeGroupID vgID) in
  let '(symID, sgName, rdfGrpNo) := id in
  let? c := GetPowerMaxClient symID [] orelse internal "ControllerGetVolumeGroup: failed to get PowerMax client" in
  let? _ := lift (GetStorageGroup c symID sgName)
    orelse (λ _, statusError NotFound ("ControllerGetVolumeGroup: storage group " ++ quoted sgName ++ " not found on " ++ quoted symID)) in
  let* psg := lift (GetProtectedStorageGroup c symID sgName) in
  let rdfGrpNo :=
    match psg with
    | Ok psg => if Rdf psg && bool_decide (rdfGrpNo = "") then match resolveEffectiveRDFGroup rdfGrpNo psg with Ok eff => eff | Err _ => rdfGrpNo end else rdfGrpNo
    | Err _ => rdfGrpNo
    end in
  let* vg := buildVolumeGroupResponse symID sgName rdfGrpNo empty_params [] c in ok vg.

(** *** Listing *)
Fixpoint list_groups (symID : string) (sgNames : list string) (entries : list VolumeGroup) (c : C) : M W (list VolumeGroup) :=
  match sgNames with
  | [] => ret entries
  | sgName :: sgNames =>
      match parseCSIAddonsSGName sgName with
      | None => list_groups symID sgNames entries c
      | Some (rdfGrpNo, mode) =>
          let* volumes := members symID sgName [] c in
          list_groups symID sgNames
            (entries ++ [mkVolumeGroup (encodeVolumeGroupID symID sgName rdfGrpNo)
               (<[CSIAddonsParamReplicationMode := mode]> (group_context sgName symID rdfGrpNo)) volumes])%list c
      end
  end.
Fixpoint list_arrays (managedArrays : list string) (entries : list VolumeGroup) : M W (list VolumeGroup) :=
  match managedArrays with
  | [] => ret entries
  | symID :: managedArrays =>
      let* r := GetPowerMaxClient symID [] in
      match r with
      | Err _ => list_arrays managedArrays entries
      | Ok c =>
          let* sgList := lift (GetStorageGroupIDList c symID csiAddonsManagedSGPrefix true) in
          match sgList with
          | Err _ => list_arrays managedArrays entries
          | Ok ids => let* entries := list_groups symID (sort_by String.ltb ids) entries c in list_arrays managedArrays entries
          end
      end
  end.
(** The page of a list that starts at a token. *)
Definition page {A} (entries : list A) (maxEntries : Z) (token : string) : result error (list A * string) :=
  let len := Z.of_nat (List.length entries) in
  let start := if decide (token = "") then Some 0
    else match Atoi token with Some i => if (i <? 0) || (len <? i) then None else Some i | None => None end in
  match start with
  | None => Err (statusError Aborted ("ListVolumeGroups: invalid starting_token " ++ quoted token))
  | Some start =>
      let '(end_, nextToken) := if (0 <? maxEntries) && (start + maxEntries <? len) then (start + maxEntries, Itoa (start + maxEntries)) else (len, "") in
      Ok (take (Z.to_nat (end_ - start)) (drop (Z.to_nat start) entries), nextToken)
  end.
Definition ListVolumeGroups (managedArrays : list string) (maxEntries : Z) (token : string) : M W (result error (list VolumeGroup * string)) :=
  if maxEntries <? 0 then fail (statusError InvalidArgument "ListVolumeGroups: max_entries cannot be negative")
  else let* entries := list_arrays managedArrays [] in ret (page entries maxEntries token).
End groups.

(** ** Names and ids *)
Lemma sg_name_length prefix ns rdf mode sg :
  slen rdf + slen mode <= 43 → buildCSIAddonsSGName prefix ns rdf mode = Some sg → slen sg <= MaxStorageGroupNameLength.
Proof.
  intros Hl. unfold buildCSIAddonsSGName. cbv zeta.
  match goal with |- context [truncateString ?x ?y] => set (v := x); set (m := y) end.
  assert (m = 43 - slen rdf - slen mode) as Hm by (unfold m, MaxStorageGroupNameLength; change (slen csiAddonsManagedSGPrefix) with 18; lia).
  assert (∃ t, (if m <? slen v then truncateString v m else Some v) = Some t ∧ slen t <= m) as (t & -> & Ht).
  { destruct (Z.ltb_spec m (slen v)); [|eexists; split; [done|lia]].
    destruct (truncateString_length v m ltac:(lia)) as (t & -> & ?). exists t. split; [done|lia]. }
  intros [= <-]. rewrite !slen_app. change (slen csiAddonsManagedSGPrefix) with 18. change (slen "-") with 1. unfold MaxStorageGroupNameLength. lia.
Qed.

Lemma sg_name_managed prefix ns rdf mode sg : buildCSIAddonsSGName prefix ns rdf mode = Some sg → isCSIAddonsManagedSG sg = true.
Proof. unfold buildCSIAddonsSGName, isCSIAddonsManagedSG. intros (v & _ & [= <-])%bind_Some. cbv beta. apply HasPrefix_app. Qed.

Definition plain (s : string) : Prop := s ≠ "" ∧ has_char "-" s = false.
Lemma sg_name_roundtrip prefix ns rdf mode sg :
  plain rdf → plain mode → buildCSIAddonsSGName prefix ns rdf mode = Some sg → parseCSIAddonsSGName sg = Some (rdf, mode).
Proof.
  intros [Hr0 Hr] [Hm0 Hm] Hb. unfold parseCSIAddonsSGName. change (HasPrefix sg _) with (isCSIAddonsManagedSG sg).
  rewrite (sg_name_managed _ _ _ _ _ Hb).
  unfold buildCSIAddonsSGName in Hb. apply bind_Some in Hb as (v & _ & [= <-]). cbn [negb].
  assert (reverse (Split "-" (csiAddonsManagedSGPrefix ++ v ++ "-" ++ rdf ++ "-" ++ mode)) = mode :: rdf :: reverse (Split "-" (csiAddonsManagedSGPrefix ++ v))) as ->.
  { rewrite <- (app_str_assoc csiAddonsManagedSGPrefix v), Split_app_gen, Split_app, (Split_none _ mode) by done.
    rewrite reverse_app. done. }
  rewrite decide_False by tauto. done.
Qed.

Lemma addons_id_roundtrip sym sg rdf :
  sym ≠ "" → sg ≠ "" → has_char ":" sym = false → has_char ":" sg = false → has_char ":" rdf = false →
  decodeVolumeGroupID (encodeVolumeGroupID sym sg rdf) = Ok (sym, sg, rdf).
Proof.
  intros Hs0 Hg0 Hs Hg Hr. unfold decodeVolumeGroupID, encodeVolumeGroupID.
  rewrite decide_False by (by destruct sym). rewrite !Split_app, (Split_none _ rdf) by done. by rewrite decide_False by tauto.
Qed.

(** ** Pages *)
Section pages.
Context {A : Type}.
(** The pages a client gets by following the tokens. *)
Fixpoint follow (fuel : nat) (entries : list A) (maxEntries : Z) (token : string) : option (list (list A)) :=
  match fuel with
  | O => None
  | S fuel =>
      match page entries maxEntries token with
      | Err _ => None
      | Ok (l, "") => Some [l]
      | Ok (l, next) => (l ::.) <$> follow fuel entries maxEntries next
      end
  end.

Lemma page_at (entries : list A) maxEntries i token :
  0 <= i <= Z.of_nat (List.length entries) → 0 < maxEntries → (token = "" ∧ i = 0 ∨ token ≠ "" ∧ Atoi token = Some i) →
  page entries maxEntries token =
    Ok (if i + maxEntries <? Z.of_nat (List.length entries)
        then (take (Z.to_nat maxEntries) (drop (Z.to_nat i) entries), Itoa (i + maxEntries)) else (drop (Z.to_nat i) entries, "")).
Proof.
  intros Hi Hm Ht. unfold page.
  assert ((if decide (token = "") then Some 0
    else match Atoi token with Some i => if (i <? 0) || (Z.of_nat (List.length entries) <? i) then None else Some i | None => None end) = Some i) as ->.
  { destruct Ht as [[-> ->]|[Hne ->]]; [done|]. rewrite decide_False by done.
    destruct (Z.ltb_spec i 0), (Z.ltb_spec (Z.of_nat (List.length entries)) i); try lia. done. }
  rewrite (proj2 (Z.ltb_lt 0 maxEntries) Hm). cbn [andb]. destruct (Z.ltb_spec (i + maxEntries) (Z.of_nat (List.length entries))).
  - do 4 f_equal. lia.
  - rewrite take_ge; [done|]. rewrite length_drop. lia.
Qed.

Lemma follow_from fuel (entries : list A) maxEntries i token :
  0 < maxEntries → 0 <= i <= Z.of_nat (List.length entries) → Z.of_nat (List.length entries) < 2 ^ 63 →
  (token = "" ∧ i = 0 ∨ token ≠ "" ∧ Atoi token = Some i) → (List.length entries - Z.to_nat i < fuel)%nat →
  ∃ pages, follow fuel entries maxEntries token = Some pages ∧ concat pages = drop (Z.to_nat i) entries
    ∧ Forall (λ l, Z.of_nat (List.length l) <= maxEntries) pages.
Proof.
  intros Hm. revert i token. induction fuel as [|fuel IH]; intros i token Hi Hlen Ht Hf; [lia|]. simpl.
  rewrite (page_at _ _ i) by done. destruct (Z.ltb_spec (i + maxEntries) (Z.of_nat (List.length entries))) as [Hlt|Hge].
  - destruct (IH (i + maxEntries) (Itoa (i + maxEntries))) as (pages & Hp & Hc & Hs); [lia|done| |lia|].
    { right. assert (Atoi (Itoa (i + maxEntries)) = Some (i + maxEntries)) as Ha by (apply Itoa_Atoi; lia). split; [|done]. by intros E; rewrite E in Ha. }
    exists (take (Z.to_nat maxEntries) (drop (Z.to_nat i) entries) :: pages).
    assert (Itoa (i + maxEntries) ≠ "") as Hne.
    { assert (Atoi (Itoa (i + maxEntries)) = Some (i + maxEntries)) as Ha by (apply Itoa_Atoi; lia). by intros E; rewrite E in Ha. }
    split; [|split].
    + destruct (Itoa (i + maxEntries)) eqn:E; [done|]. by rewrite Hp.
    + simpl. rewrite Hc. replace (Z.to_nat (i + maxEntries)) with (Z.to_nat i + Z.to_nat maxEntries)%nat by lia.
      rewrite <- drop_drop. apply take_drop.
    + constructor; [|done]. rewrite length_take. lia.
  - exists [drop (Z.to_nat i) entries]. split_and!; [done|simpl; by rewrite app_nil_r|]. constructor; [|done]. rewrite length_drop. lia.
Qed.

(** Following the tokens of ListVolumeGroups from the start with pages of any size ends after
    at most one request more than there are groups, and the pages, none larger than asked for,
    together are the list: no group is left out or listed twice. *)
Theorem list_pages_complete (entries : list A) maxEntries :
  0 < maxEntries → Z.of_nat (List.length entries) < 2 ^ 63 →
  ∃ pages, follow (S (List.length entries)) entries maxEntries "" = Some pages ∧ concat pages = entries
    ∧ Forall (λ l, Z.of_nat (List.length l) <= maxEntries) pages.
Proof. intros Hm Hlen. by apply (follow_from _ entries maxEntries 0); [done|lia|lia|left|lia]. Qed.
End pages.

(** ** The group that CreateVolumeGroup answers *)
Section created.
Context {W C : Type} `{Pmax W C} `{MaskingClient W C} `{GroupSnapClient W C}.
Variable GetPowerMaxClient : string → list string → M W (result error C).
Variable clusterPrefix : string.

Lemma locked_Ok {A} sym sg req (m : M W (result error A)) w a w' :
  locked (C := C) sym sg req m w = Some (Ok a, w') →
  ∃ n w1 w2, RequestLock (C := C) (csiAddonsSGLockHandle sg sym) req w = (Ok n, w1) ∧ m w1 = Some (Ok a, w2)
    ∧ w' = (ReleaseLock (C := C) (csiAddonsSGLockHandle sg sym) req n w2).2.
Proof.
  unfold locked, with_lock. intros E. run_inv E. unfold lift in *.
  destruct (RequestLock _ _ w) as [r v1] eqn:El. destruct (ReleaseLock _ _ _ _) as [u v3] eqn:Er. unfold ret in E. simplify_eq.
  eexists _, _, _. split_and!; [done..|]. by rewrite Er.
Qed.

Lemma response_id sym sg rdf p ids (c : C) w vg w' :
  rdf ≠ "" → buildVolumeGroupResponse sym sg rdf p ids c w = Some (vg, w') → VolumeGroupId_ vg = encodeVolumeGroupID sym sg rdf.
Proof.
  intros Hr. unfold buildVolumeGroupResponse. destruct (parseCSIAddonsSGName sg) as [[r m]|]; cbv beta iota zeta; intros E; run_inv E; injection E as <- _; simpl; [|done].
  by rewrite decide_False.
Qed.

Lemma params_mode params p : parseCSIAddonsReplicationParams params = Ok p → replicationMode p = Sync ∨ replicationMode p = Async.
Proof.
  unfold parseCSIAddonsReplicationParams. destruct params as [m|]; [|done]. cbv zeta. case_decide; [done|].
  destruct (decide (ToUpper _ = Sync ∨ _)) as [Hm|]; [|by repeat case_decide]. by intros [= <-].
Qed.

(** What can be read back from the id of a group and the name in it. *)
Definition group_named (sym : string) (p : csiAddonsReplicationParams) (id : string) : Prop :=
  ∃ sg rdf, id = encodeVolumeGroupID sym sg rdf
    ∧ buildCSIAddonsSGName (volumeGroupPrefix p) (namespace p) rdf (replicationMode p) = Some sg
    ∧ isCSIAddonsManagedSG sg = true
    ∧ (slen rdf <= 38 → slen sg <= MaxStorageGroupNameLength)
    ∧ (has_char "-" rdf = false → parseCSIAddonsSGName sg = Some (rdf, replicationMode p))
    ∧ (has_char ":" sym = false → has_char ":" sg = false → has_char ":" rdf = false → sym ≠ "" → decodeVolumeGroupID id = Ok (sym, sg, rdf)).

Lemma built_group_named sym p sg rdf :
  replicationMode p = Sync ∨ replicationMode p = Async → rdf ≠ "" →
  buildCSIAddonsSGName (volumeGroupPrefix p) (namespace p) rdf (replicationMode p) = Some sg → group_named sym p (encodeVolumeGroupID sym sg rdf).
Proof.
  intros Hm Hr Hb. exists sg, rdf. pose proof (sg_name_managed _ _ _ _ _ Hb) as Hmg. split_and!; try done.
  - intros Hl. eapply sg_name_length; [|done]. destruct Hm as [->| ->]; [change (slen Sync) with 4|change (slen Async) with 5]; lia.
  - intros Hd. eapply sg_name_roundtrip; [done| |done]. by destruct Hm as [->| ->].
  - intros. apply addons_id_roundtrip; try done. by intros ->.
Qed.

(** The id of a group that CreateVolumeGroup answers names, on the array of the first volume,
    a storage group that carries the mark of CSI-Addons and, for any RDF group number of at most
    38 characters, a name the array accepts; the later requests read the array, the group and
    the RDF group back from the id, and RDF group and mode from the name of the group. *)
Theorem created_volume_group_usable name first ids params reqID w vg w' :
  CreateVolumeGroup GetPowerMaxClient clusterPrefix name (first :: ids) params reqID w = Some (Ok vg, w') →
  ∃ p sym, parseCSIAddonsReplicationParams params = Ok p ∧ extractSymIDFromVolumeID first = Some (Ok sym) ∧ group_named sym p (VolumeGroupId_ vg).
Proof.
  unfold CreateVolumeGroup. case_decide; [done|]. intros E. run_inv E. injection E0 as Hp _.
  destruct (extractSymIDFromVolumeID first) as [r|] eqn:Es; [|done]. injection E1 as -> _. exists a, a0. split_and!; [done..|].
  apply params_mode in Hp. case_decide.
  - unfold getExistingVolumeGroupResponse in E. run_inv E. case_decide; [done|]. run_inv E.
    destruct (buildCSIAddonsSGName _ _ _ _) eqn:Eb; [|done]. injection E1 as -> _. injection E as <- _. erewrite response_id by done. by apply built_group_named.
  - run_inv E. destruct (buildCSIAddonsSGName _ _ _ _) eqn:Eb; [|done]. injection E3 as -> _.
    apply locked_Ok in E as (n & v1 & v2 & _ & E & _). run_inv E. injection E as <- _.
    assert (a3 ≠ "") as Hne. { unfold rdf_group in E1. case_decide; [by injection E1 as <- _|]. run_inv E1. case_decide; [done|]. by injection E1 as <- _. }
    erewrite response_id by done. by apply built_group_named.
Qed.
End created.

(** ** The active side of a link *)
Record RdfLink := mkRdfLink { link_R1 : bool; link_state : string }.

(** The side that serves its hosts: R1, or R2 after a failover. *)
Definition active (l : RdfLink) : bool := xorb (link_R1 l) (bool_decide (link_state l = FailedOver)).
Definition syncing (state : string) : Prop := state = SyncInProgress ∨ state = Consistent ∨ state = Synchronized.

(** The states of a link in which the array accepts an action, and what it then does. *)
Definition applies (action : string) (l : RdfLink) : Prop :=
  action = csiAddonsActionFailover
  ∨ (action = csiAddonsActionFailback ∨ action = csiAddonsActionSwap) ∧ link_state l = FailedOver
  ∨ action = csiAddonsActionResume ∧ (link_state l = Suspended ∨ link_state l = Partitioned)
  ∨ action = csiAddonsActionEstablish ∧ link_state l = Split_.
Definition effect (action : string) (l l' : RdfLink) : Prop :=
  if decide (action = csiAddonsActionFailover) then l' = mkRdfLink (link_R1 l) FailedOver
  else if decide (action = csiAddonsActionSwap) then l' = mkRdfLink (negb (link_R1 l)) Suspended
  else link_R1 l' = link_R1 l ∧ syncing (link_state l').

(** How many actions a link is away from being in sync. *)
Definition rank (l : RdfLink) : nat := if decide (link_state l = FailedOver) then 2 else match recovery (link_state l) with Some _ => 1 | None => 0 end.

(** What a group on an array does: it answers with its link, and an action has its effect or none. *)
Class LinkLaws {W C : Type} `{Pmax W C} `{MaskingClient W C} (GetPowerMaxClient : string → list string → M W (result error C))
    (symID sgName rdfGrpNo : string) (shows : W → RdfLink → Prop) : Prop := {
  law_info : ∀ (c : C) w l psg w', shows w l → GetStorageGroupRDFInfo c symID sgName rdfGrpNo w = (Ok psg, w') →
    shows w' l ∧ csiAddonsSRDFPersonality psg = (link_state l, link_R1 l, false, false);
  law_acts : ∀ (c : C) w l action force exempt bias w', shows w l → applies action l →
    ExecuteReplicationActionOnSG c symID action sgName rdfGrpNo force exempt bias w = (None, w') → ∃ l', effect action l l' ∧ shows w' l';
  law_fails : ∀ (c : C) w l action force exempt bias e w', shows w l →
    ExecuteReplicationActionOnSG c symID action sgName rdfGrpNo force exempt bias w = (Some e, w') → shows w' l;
  law_lock : ∀ handle reqID w l, shows w l → shows (RequestLock (C := C) handle reqID w).2 l;
  law_unlock : ∀ handle reqID n w l, shows w l → shows (ReleaseLock (C := C) handle reqID n w).2 l;
  law_client : ∀ a b w l r w', shows w l → GetPowerMaxClient a b w = Some (r, w') → shows w' l;
}.

Section roles.
Context {W C : Type} `{Pmax W C} `{MaskingClient W C}.
Variable GetPowerMaxClient : string → list string → M W (result error C).
Variables (symID sgName rdfGrpNo : string) (shows : W → RdfLink → Prop).
Context `{!LinkLaws GetPowerMaxClient symID sgName rdfGrpNo shows}.
Variable vgID : string.
Hypothesis Hid : decodeVolumeGroupID vgID = Ok (symID, sgName, rdfGrpNo).
Abbreviation src := (Some (Volumegroup vgID)).

Lemma group_id_nonempty : vgID ≠ "".
Proof. intros ->. by vm_compute in Hid. Qed.

Lemma load_shows w l x w' : shows w l → loadSRDFContext GetPowerMaxClient src w = Some (Ok x, w') →
  shows w' l ∧ ctx_symID x = symID ∧ ctx_sgName x = sgName ∧ ctx_rdfGrpNo x = rdfGrpNo
  ∧ csiAddonsSRDFPersonality (ctx_sgRDF x) = (link_state l, link_R1 l, false, false).
Proof.
  intros Hs E. unfold loadSRDFContext, resolveVGFromSource in E. rewrite decide_True in E by apply group_id_nonempty. run_inv E.
  injection E0 as <- <-. injection E1 as E1 <-. rewrite Hid in E1. injection E1 as <-. case_decide; [done|]. run_inv E.
  injection E as <- <-. unfold lift in *. destruct (GetStorageGroupRDFInfo _ _ _ _ _) as [r v] eqn:Ei. injection E1 as -> ->.
  apply (law_client _ _ _ _ _ _ Hs) in E0. destruct (law_info _ _ _ _ _ E0 Ei). by split_and!.
Qed.

(** A request that reads the link and then works under the lock of the group. *)
Lemma locked_shows {A} reqID (m : srdfContext → M W (result error A)) w l a w' (Q : RdfLink → Prop) :
  shows w l →
  (∀ x w1 w2, shows w1 l → ctx_symID x = symID → ctx_sgName x = sgName → ctx_rdfGrpNo x = rdfGrpNo →
     csiAddonsSRDFPersonality (ctx_sgRDF x) = (link_state l, link_R1 l, false, false) → m x w1 = Some (Ok a, w2) → ∃ l', Q l' ∧ shows w2 l') →
  try (loadSRDFContext GetPowerMaxClient src) (λ e, e) (λ x, locked (C := C) (ctx_symID x) (ctx_sgName x) reqID (m x)) w = Some (Ok a, w') →
  ∃ l', Q l' ∧ shows w' l'.
Proof.
  intros Hs Hm E. run_inv E. apply (load_shows _ _ _ _ Hs) in E0 as (Hs1 & Hx1 & Hx2 & Hx3 & Hp).
  apply locked_Ok in E as (n & w1 & w2 & El & E & ->). pose proof (law_lock (csiAddonsSGLockHandle (ctx_sgName a0) (ctx_symID a0)) reqID _ _ Hs1) as Hl.
  rewrite El in Hl. destruct (Hm _ _ _ Hl Hx1 Hx2 Hx3 Hp E) as (l' & HQ & Hl'). exists l'. split; [done|]. by apply law_unlock.
Qed.

Lemma group_acts (c : C) action force exempt w l w' :
  shows w l → applies action l → on_group c symID action sgName rdfGrpNo force exempt w = Some (None, w') → ∃ l', effect action l l' ∧ shows w' l'.
Proof. intros Hs Ha. unfold on_group, lift. destruct (ExecuteReplicationActionOnSG _ _ _ _ _ _ _ _ _) as [e v] eqn:E. intros [= -> ->]. by eapply law_acts. Qed.

Lemma promote_shows x force w l w' :
  shows w l → ctx_symID x = symID → ctx_sgName x = sgName → ctx_rdfGrpNo x = rdfGrpNo →
  csiAddonsSRDFPersonality (ctx_sgRDF x) = (link_state l, link_R1 l, false, false) →
  promote x force w = Some (Ok tt, w') → ∃ l', active l' = true ∧ shows w' l'.
Proof.
  intros Hs Hx1 Hx2 Hx3 Hp. unfold promote. rewrite Hp, Hx1, Hx2, Hx3. cbn [andb negb]. unfold active.
  destruct l as [[] st]; cbn [link_R1 link_state andb negb]; destruct (decide (st = FailedOver)) as [Hf|Hf];
    rewrite ?(bool_decide_eq_true_2 _ Hf), ?(bool_decide_eq_false_2 _ Hf); cbn [andb negb]; intros E.
  - run_inv E. injection E as <-. eapply group_acts in E0 as (l' & [Hr Hst] & Hl'); [|done|right; left; naive_solver].
    exists l'. split; [|done]. rewrite Hr, bool_decide_eq_false_2; [done|]. intros E. rewrite E in Hst. by destruct Hst as [|[|]].
  - injection E as <-. exists (mkRdfLink true st). split; [|done]. simpl. by rewrite bool_decide_eq_false_2.
  - injection E as <-. exists (mkRdfLink false st). split; [|done]. simpl. by rewrite bool_decide_eq_true_2.
  - run_inv E. eapply group_acts in E0 as (l' & Hl' & Hs'); [|done|by left]. simpl in Hl'. destruct force; cbn [negb] in E.
    + injection E as <-. exists l'. split; [|done]. unfold effect in Hl'. simpl in Hl'. by rewrite Hl'.
    + run_inv E. injection E as <-. unfold effect in Hl'. simpl in Hl'. subst l'. destruct a as [e|].
      * exists (mkRdfLink false FailedOver). split; [done|]. unfold on_group, lift in E0.
        destruct (ExecuteReplicationActionOnSG _ _ _ _ _ _ _ _ _) as [e' v] eqn:Ex. injection E0 as -> ->. by eapply law_fails.
      * eapply group_acts in E0 as (l2 & Hl2 & Hs2); [|done|right; left; naive_solver]. exists l2. split; [|done].
        unfold effect in Hl2. simpl in Hl2. by rewrite Hl2.
Qed.

Lemma demote_shows x force w l w' :
  shows w l → ctx_symID x = symID → ctx_sgName x = sgName → ctx_rdfGrpNo x = rdfGrpNo →
  csiAddonsSRDFPersonality (ctx_sgRDF x) = (link_state l, link_R1 l, false, false) →
  demote x force w = Some (Ok tt, w') → ∃ l', (active l' = false ∨ l' = l ∧ l = mkRdfLink false FailedOver) ∧ shows w' l'.
Proof.
  intros Hs Hx1 Hx2 Hx3 Hp. unfold demote. rewrite Hp, Hx1, Hx2, Hx3. unfold active.
  destruct l as [[] st]; cbn [link_R1 link_state orb negb].
  - case_bool_decide as Hf; intros E.
    + injection E as <-. exists (mkRdfLink true st). split; [|done]. left. simpl. by rewrite bool_decide_eq_true_2.
    + run_inv E. injection E as <-. eapply group_acts in E0 as (l' & Hl' & Hs'); [|done|by left]. exists l'. split; [|done]. left.
      unfold effect in Hl'. simpl in Hl'. by rewrite Hl'.
  - intros E. injection E as <-. exists (mkRdfLink false st). split; [|done]. simpl. case_bool_decide; [right; by subst|by left].
Qed.

Lemma recovery_sync st : in_sync st = true ∨ st = SyncInProgress → recovery st = None ∧ st ≠ FailedOver.
Proof.
  unfold in_sync, recovery. intros [Hs%bool_decide_eq_true| ->]; [|by vm_compute]. destruct Hs as [->|[->| ->]]; by vm_compute.
Qed.

Lemma recovery_applies st action r : recovery st = Some action → applies action (mkRdfLink r st).
Proof. unfold recovery, applies. intros E. repeat case_decide; simplify_eq; simpl; naive_solver. Qed.

(** A step of the recovery leaves the active side and comes nearer to being in sync. *)
Lemma recovery_effect st action r l' :
  recovery st = Some action → effect action (mkRdfLink r st) l' →
  active l' = active (mkRdfLink r st) ∧ (rank l' < rank (mkRdfLink r st))%nat.
Proof.
  unfold recovery. intros Ha He.
  assert (∀ st', syncing st' → rank (mkRdfLink r st') = 0%nat ∧ active (mkRdfLink r st') = r) as Hsync
    by (intros st' [->|[->| ->]]; unfold active; simpl; by destruct r).
  destruct l' as [r' st']. repeat case_decide; simplify_eq; unfold effect in He; simpl in He.
  - destruct He as [-> Hst]. destruct (Hsync _ Hst) as [-> ->].
    match goal with Hs : _ ∨ _ |- _ => destruct Hs as [->| ->] end; (split; [by destruct r|by apply Nat.ltb_lt]).
  - destruct He as [-> Hst]. destruct (Hsync _ Hst) as [-> ->]. split; [by destruct r|by apply Nat.ltb_lt].
  - injection He as -> ->. split; [by destruct r|by apply Nat.ltb_lt].
Qed.

Definition resynced (l : RdfLink) (ready : bool) (l' : RdfLink) : Prop :=
  active l' = active l ∧ (ready = in_sync (link_state l)) ∧ (l' = l ∧ rank l = 0%nat ∨ (rank l' < rank l)%nat).

Lemma resync_shows x force w l ready w' :
  shows w l → ctx_symID x = symID → ctx_sgName x = sgName → ctx_rdfGrpNo x = rdfGrpNo →
  csiAddonsSRDFPersonality (ctx_sgRDF x) = (link_state l, link_R1 l, false, false) →
  resync x force w = Some (Ok ready, w') → ∃ l', resynced l ready l' ∧ shows w' l'.
Proof.
  intros Hs Hx1 Hx2 Hx3 Hp. unfold resync, resynced. rewrite Hp, Hx1, Hx2, Hx3. destruct l as [r st]. cbn [link_state link_R1].
  assert (in_sync st = true ∨ st = SyncInProgress → rank (mkRdfLink r st) = 0%nat) as Hr0.
  { intros [Hn Hf]%recovery_sync. unfold rank. simpl. by rewrite decide_False, Hn. }
  destruct (in_sync st) eqn:Es; [intros [= <- <-]; exists (mkRdfLink r st); naive_solver|].
  case_decide as Hi; [intros [= <- <-]; exists (mkRdfLink r st); naive_solver|].
  destruct (recovery st) as [action|] eqn:Er; intros E.
  - run_inv E. injection E as <- <-. eapply group_acts in E0 as (l' & Hl' & Hs'); [|done|by apply recovery_applies].
    exists l'. destruct (recovery_effect _ _ _ _ Er Hl') as [-> Hlt]. split; [|done]. split_and!; [done..|]. by right.
  - injection E as <- <-. exists (mkRdfLink r st). split; [|done]. split_and!; [done..|]. left. split; [done|]. unfold rank. simpl.
    rewrite decide_False, Er; [done|]. intros ->. by vm_compute in Er.
Qed.

(** On an array where an SRDF action does what it is for, a request that runs alone keeps the
    roles of the two sides: after PromoteVolume succeeds the local side is the active one, also when
    the swap that follows a planned failover fails; after DemoteVolume it is not, unless it was R2
    and failed over before; ResyncVolume never changes which side is active, is ready exactly when the
    link was in sync, and otherwise brings it nearer: two calls leave no action to run. *)
Theorem addons_roles force reqID w l :
  shows w l →
  (∀ w', PromoteVolume GetPowerMaxClient src force reqID w = Some (Ok tt, w') → ∃ l', active l' = true ∧ shows w' l')
  ∧ (∀ w', DemoteVolume GetPowerMaxClient src force reqID w = Some (Ok tt, w') →
       ∃ l', (active l' = false ∨ l' = l ∧ l = mkRdfLink false FailedOver) ∧ shows w' l')
  ∧ (∀ ready w', ResyncVolume GetPowerMaxClient src force reqID w = Some (Ok ready, w') → ∃ l', resynced l ready l' ∧ shows w' l')
  ∧ (rank l <= 2)%nat.
Proof.
  intros Hs. split; [|split; [|split]].
  - intros w' E. refine (locked_shows reqID (λ x, promote x force) _ _ _ _ (λ l', active l' = true) Hs _ E). intros. by eapply promote_shows.
  - intros w' E. refine (locked_shows reqID (λ x, demote x force) _ _ _ _ (λ l', active l' = false ∨ l' = l ∧ l = mkRdfLink false FailedOver) Hs _ E). intros. by eapply demote_shows.
  - intros ready w' E. refine (locked_shows reqID (λ x, resync x force) _ _ _ _ (resynced l ready) Hs _ E). intros. by eapply resync_shows.
  - unfold rank. case_decide; [lia|]. case_match; lia.
Qed.
End roles.

(** ** The members of a group *)
Definition is_device (ids : list string) (dev : string) : Prop := ∃ vid, vid ∈ ids ∧ extractDevIDFromVolumeID vid = Some (Ok dev).

Section desired.
Context {W : Type} `{MapOrder}.
(** The devices that are added are devices of the request, those removed are not. *)
Lemma desired_spec all ids m :
  (∀ v, v ∈ ids → v ∈ all) → (∀ d, is_Some (m !! d) → is_device all d) →
  post (desired_devices (W := W) ids m) (λ r, match r with
    | Ok m' => (∀ d, is_Some (m' !! d) → is_device all d) ∧ (∀ d, is_Some (m !! d) ∨ is_device ids d → is_Some (m' !! d)) | Err _ => True end).
Proof.
  revert m. induction ids as [|v ids IH]; intros m Hall Hm.
  { apply post_ret. split; [done|]. intros d [Hd|(v & Hv & _)]; [done|]. by apply not_elem_of_nil in Hv. }
  intros t [m'|] t' E; [|done]. cbn [desired_devices] in E. run_inv E. destruct (extractDevIDFromVolumeID v) as [[d|]|] eqn:Ev; try done. injection E0 as -> ->.
  destruct (IH (<[a := tt]> m) ltac:(by intros; apply Hall; right)) with (w := w) (a := Ok m' : result error (gmap string unit)) (w' := t') as [H1' H2']; [|done|].
  { intros d [->|Hd]%lookup_insert_is_Some'; [exists v; split; [apply Hall; by left|done]|by apply Hm]. }
  split; [done|]. intros d [Hd|(v' & [->|Hv']%elem_of_cons & Hd)].
  - apply H2'. left. apply lookup_insert_is_Some'. by right.
  - apply H2'. left. apply lookup_insert_is_Some'. left. congruence.
  - apply H2'. right. by exists v'.
Qed.

Lemma missing_from_spec a b d : d ∈ missing_from a b ↔ is_Some (a !! d) ∧ b !! d = None.
Proof.
  unfold missing_from. rewrite list_elem_of_filter, range_perm. rewrite list_elem_of_fmap. split.
  - intros [Hb ([k []] & -> & Hk%elem_of_map_to_list)]. simpl in *. rewrite Hk. by eauto.
  - intros [[[] Ha] Hb]. split; [done|]. exists (d, tt). split; [done|]. by apply elem_of_map_to_list.
Qed.

End desired.

(** What a group on an array does: it answers with its members, and takes and gives devices as told. *)
Class MemberLaws {W C : Type} `{Pmax W C} `{MaskingClient W C} `{GroupSnapClient W C} `{AddonsClient W C}
    (GetPowerMaxClient : string → list string → M W (result error C)) (symID sgName : string) (holds : W → gset string → Prop) : Prop := {
  law_list : ∀ (c : C) w G r w', holds w G → GetVolumeIDListInStorageGroup c symID sgName w = (r, w') →
    holds w' G ∧ ∀ l, r = Ok l → list_to_set l = G;
  law_add : ∀ (c : C) w G l w', holds w G → AddVolumesToStorageGroup c symID sgName true l w = (None, w') → holds w' (G ∪ list_to_set l);
  law_add_protected : ∀ (c : C) w G rs rg l w', holds w G →
    AddVolumesToProtectedStorageGroup c symID sgName rs rg true l w = (None, w') → holds w' (G ∪ list_to_set l);
  law_remove : ∀ (c : C) w G l w', holds w G → RemoveVolumesFromStorageGroup c symID sgName true l w = (None, w') → holds w' (G ∖ list_to_set l);
  law_remove_protected : ∀ (c : C) w G rs rg l w', holds w G →
    RemoveVolumesFromProtectedStorageGroup c symID sgName rs rg true l w = (None, w') → holds w' (G ∖ list_to_set l);
  law_protected : ∀ (c : C) w G, holds w G → holds (GetProtectedStorageGroup c symID sgName w).2 G;
  law_rdf_info : ∀ (c : C) w G rdf, holds w G → holds (GetStorageGroupRDFInfo c symID sgName rdf w).2 G;
  law_rdf_group : ∀ (c : C) w G rdf, holds w G → holds (GetRDFGroupByID c symID rdf w).2 G;
  law_members_lock : ∀ handle reqID w G, holds w G → holds (RequestLock (C := C) handle reqID w).2 G;
  law_members_unlock : ∀ handle reqID n w G, holds w G → holds (ReleaseLock (C := C) handle reqID n w).2 G;
  law_members_client : ∀ a b w G r w', holds w G → GetPowerMaxClient a b w = Some (r, w') → holds w' G;
}.

Section exact.
Context {W C : Type} `{Pmax W C} `{MaskingClient W C} `{GroupSnapClient W C} `{AddonsClient W C} `{MapOrder}.
Variable GetPowerMaxClient : string → list string → M W (result error C).
Variables (symID sgName : string) (holds : W → gset string → Prop).
Context `{!MemberLaws GetPowerMaxClient symID sgName holds}.

Lemma lift_run {A} (f : W → A * W) w a w' : lift f w = Some (a, w') → f w = (a, w').
Proof. unfold lift. destruct (f w). by intros [= -> ->]. Qed.

Lemma side_holds rdf (c : C) w G r w' : holds w G → modify_side GetPowerMaxClient symID sgName rdf c w = Some (r, w') → holds w' G.
Proof.
  intros Hw E. unfold modify_side in E. run_inv E. apply lift_run in E0. pose proof (law_protected c w G Hw) as H1'. rewrite E0 in H1'. cbn [snd] in H1'.
  case_match; [|by injection E as <- <-]. run_inv E. apply lift_run in E1. pose proof (law_rdf_info c _ G rdf H1') as H2'. rewrite E1 in H2'. cbn [snd] in H2'.
  case_match; [by injection E as <- <-|]. run_inv E. apply lift_run in E2. pose proof (law_rdf_group c _ G rdf H2') as H3'. rewrite E2 in H3'. cbn [snd] in H3'.
  case_match; [|by injection E as <- <-]. run_inv E. injection E as <- <-. by eapply law_members_client.
Qed.

Lemma desired_keeps ids m w r w' : desired_devices (W := W) ids m w = Some (r, w') → w' = w.
Proof.
  revert m. induction ids as [|v ids IH]; intros m E; [by injection E as _ <-|]. cbn [desired_devices] in E. unfold try in E. run_inv E.
  destruct (extractDevIDFromVolumeID v) as [o|]; [|done]. injection E0 as -> <-. destruct a; [by eapply IH|by injection E as _ <-].
Qed.

Lemma change_holds remote toAdd toRemove (c : C) w G w' :
  holds w G → change_members symID sgName remote toAdd toRemove c w = Some (None, w') → holds w' ((G ∪ list_to_set toAdd) ∖ list_to_set toRemove).
Proof.
  intros Hw E. unfold change_members in E. run_inv E. destruct a as [e|]; [done|].
  assert (holds w0 (G ∪ list_to_set toAdd)) as H1'.
  { destruct (decide (toAdd = [])) as [Ha|Ha]; [|destruct remote; apply lift_run in E0; [by eapply law_add_protected|by eapply law_add]].
    injection E0 as <-. subst toAdd. by rewrite list_to_set_nil, union_empty_r_L. }
  run_inv E. injection E as E <-. destruct a as [e|]; [done|].
  destruct (decide (toRemove = [])) as [Hr|Hr]; [|destruct remote; apply lift_run in E1; [by eapply law_remove_protected|by eapply law_remove]].
  injection E1 as <-. subst toRemove. by rewrite list_to_set_nil, difference_empty_L.
Qed.

Lemma response_holds rdf p l (c : C) w G vg w' : holds w G → buildVolumeGroupResponse symID sgName rdf p l c w = Some (vg, w') → holds w' G.
Proof.
  intros Hw. unfold buildVolumeGroupResponse. destruct (match _ with Some _ => _ | None => _ end). intros E. run_inv E. injection E as _ <-.
  unfold members in E0. run_inv E0. injection E0 as _ <-. apply lift_run in E. by destruct (law_list _ _ _ _ _ Hw E).
Qed.

Lemma as_set_lookup l d : is_Some (as_set l !! d) ↔ d ∈ l.
Proof.
  unfold as_set. assert (∀ m, is_Some (fold_left (λ m d, <[d := tt]> m) l m !! d) ↔ d ∈ l ∨ is_Some ((m : gmap string unit) !! d)) as Hg.
  { induction l as [|x l IH]; intros m; simpl; [set_solver|]. rewrite IH, lookup_insert_is_Some', elem_of_cons. naive_solver. }
  rewrite Hg, lookup_empty. split; [intros [?|[? ?]]; done|by left].
Qed.

Lemma modify_holds rdf ids (c : C) w G vg w' :
  holds w G → modify_members GetPowerMaxClient symID sgName rdf ids c w = Some (Ok vg, w') →
  ∃ D, holds w' D ∧ ∀ d, d ∈ D ↔ is_device ids d.
Proof.
  intros Hw E. unfold modify_members in E. run_inv E. apply (side_holds _ _ _ _ _ _ Hw) in E0. destruct a as [remote c2]. run_inv E. injection E as <- <-.
  pose proof (desired_keeps _ _ _ _ _ E1) as ->. apply (desired_spec ids ids ∅) in E1 as [Hd1 Hd2]; [|done|intros d []; by simplify_map_eq].
  apply lift_run in E2. destruct (law_list _ _ _ _ _ E0 E2) as [H2' Hl]. specialize (Hl _ eq_refl).
  apply (change_holds _ _ _ _ _ _ _ H2') in E3. eapply response_holds in E3; [|done]. eexists. split; [exact E3|]. intros d.
  rewrite elem_of_difference, elem_of_union, !elem_of_list_to_set, !missing_from_spec, <- Hl, elem_of_list_to_set, as_set_lookup.
  rewrite eq_None_not_Some, as_set_lookup. split.
  - intros [[Hc|[Ha _]] Hn]; [|by apply Hd1]. apply Hd1. destruct (a !! d) eqn:Ea; [by eauto|]. by destruct Hn.
  - intros Hdev. pose proof (Hd2 d (or_intror Hdev)) as [u Hu]. rewrite Hu. split; [|naive_solver].
    destruct (decide (d ∈ a0)) as [?|Hn]; [by left|]. right. split; [by eauto|]. done.
Qed.

(** C12: on an array that keeps the members of a group, ModifyVolumeGroupMembership is exact: after it
    succeeds the group holds the devices of the volumes of the request and no others, whether the group
    is protected or not and in whatever order Go walks its sets. *)
Theorem modify_membership_exact vgID rdf ids reqID w G vg w' :
  decodeVolumeGroupID vgID = Ok (symID, sgName, rdf) → holds w G →
  ModifyVolumeGroupMembership GetPowerMaxClient vgID ids reqID w = Some (Ok vg, w') →
  ∃ D, holds w' D ∧ ∀ d, d ∈ D ↔ is_device ids d.
Proof.
  intros Hd Hw E. unfold ModifyVolumeGroupMembership in E. run_inv E. injection E0 as E0 <-. rewrite Hd in E0. injection E0 as <-. run_inv E.
  apply (law_members_client _ _ _ _ _ _ Hw) in E0. apply locked_Ok in E as (n & w1 & w2 & El & E & ->).
  pose proof (law_members_lock (csiAddonsSGLockHandle sgName symID) reqID _ _ E0) as H1'. rewrite El in H1'. cbn [snd] in H1'.
  destruct (modify_holds _ _ _ _ _ _ _ H1' E) as (D & HD & Hdev). exists D. split; [|done]. by apply law_members_unlock.
Qed.
End exact.

(** ** What the requests change *)
Import Trace.
#[local] Existing Instance Snapshots.traced_rename.
#[local] Existing Instance RepRequests.traced_rdf.
#[local] Existing Instance GroupSnapshots.traced_group.

Inductive addons_request :=
| ReqEnable (src : option ReplicationSource) (params : option (gmap string string))
| ReqDisable (src : option ReplicationSource)
| ReqPromote (src : option ReplicationSource) (force : bool)
| ReqDemote (src : option ReplicationSource) (force : bool)
| ReqResync (src : option ReplicationSource) (force : bool)
| ReqInfo (src : option ReplicationSource)
| ReqDestination (src : option ReplicationSource)
| ReqCreate (name : string) (volumeIDs : list string) (params : option (gmap string string))
| ReqDelete (vgID : string)
| ReqModify (vgID : string) (volumeIDs : list string)
| ReqGet (vgID : string)
| ReqList (managedArrays : list string) (maxEntries : Z) (token : string).

Section serve.
Context {W C : Type} `{Pmax W C} `{MaskingClient W C} `{RenameClient W C} `{GroupSnapClient W C} `{RdfClient W C} `{AddonsClient W C} `{MapOrder}.
Variable GetPowerMaxClient : string → list string → M W (result error C).
Variable clusterPrefix : string.

Definition finish {A} (m : M W (result error A)) : M W (option error) := let* r := m in ret (RepRequests.failure r).
Definition serve (rq : addons_request) (reqID : string) : M W (option error) :=
  match rq with
  | ReqEnable src params => finish (EnableVolumeReplication GetPowerMaxClient src params reqID)
  | ReqDisable src => finish (DisableVolumeReplication GetPowerMaxClient src reqID)
  | ReqPromote src force => finish (PromoteVolume GetPowerMaxClient src force reqID)
  | ReqDemote src force => finish (DemoteVolume GetPowerMaxClient src force reqID)
  | ReqResync src force => finish (ResyncVolume GetPowerMaxClient src force reqID)
  | ReqInfo src => finish (GetVolumeReplicationInfo GetPowerMaxClient src)
  | ReqDestination src => finish (GetReplicationDestinationInfo GetPowerMaxClient src)
  | ReqCreate name ids params => finish (CreateVolumeGroup GetPowerMaxClient clusterPrefix name ids params reqID)
  | ReqDelete vgID => finish (DeleteVolumeGroup GetPowerMaxClient vgID reqID)
  | ReqModify vgID ids => finish (ModifyVolumeGroupMembership GetPowerMaxClient vgID ids reqID)
  | ReqGet vgID => finish (ControllerGetVolumeGroup GetPowerMaxClient vgID)
  | ReqList arrays max token => finish (ListVolumeGroups GetPowerMaxClient arrays max token)
  end.
End serve.

(** The group a source names. *)
Definition source_group (src : option ReplicationSource) (sym sg : string) : Prop :=
  ∃ vgID rdf, src = Some (Volumegroup vgID) ∧ decodeVolumeGroupID vgID = Ok (sym, sg, rdf).
Definition id_group (vgID sym sg : string) : Prop := ∃ rdf, decodeVolumeGroupID vgID = Ok (sym, sg, rdf).

(** The changes a request may make, by what it names. *)
Definition may_change (rq : addons_request) (e : event) : Prop :=
  match rq, e with
  | ReqEnable src params, EvReplication sym action sg => source_group src sym sg ∧ action = "replica"
  | ReqEnable src params, EvDeleteGroup remote sg => ∃ sym p, source_group src sym sg ∧ parseCSIAddonsReplicationParams params = Ok p ∧ remote = remoteSymID p
  | ReqEnable src params, EvRename remote _ _ => ∃ p, parseCSIAddonsReplicationParams params = Ok p ∧ remote = remoteSymID p
  | ReqDisable src, EvReplication sym action sg => source_group src sym sg ∧ action = Suspend ∧ isCSIAddonsManagedSG sg = true
  | ReqPromote src _, EvReplication sym action sg => source_group src sym sg ∧ action ∈ [FailBack; FailOver; Swap]
  | ReqDemote src _, EvReplication sym action sg => source_group src sym sg ∧ action = FailOver
  | ReqResync src _, EvReplication sym action sg => source_group src sym sg ∧ action ∈ [Resume; Establish; Swap]
  | ReqCreate name ids params, EvReplication sym action _ => (∃ vid, vid ∈ ids ∧ extractSymIDFromVolumeID vid = Some (Ok sym)) ∧ action = "create RDF group"
  | ReqCreate name ids params, EvCreateGroup sym sg => (∃ vid, vid ∈ ids ∧ extractSymIDFromVolumeID vid = Some (Ok sym)) ∧ isCSIAddonsManagedSG sg = true
  | ReqCreate name ids params, EvAddVolumes sym sg devs =>
      (∃ vid, vid ∈ ids ∧ extractSymIDFromVolumeID vid = Some (Ok sym)) ∧ isCSIAddonsManagedSG sg = true ∧ Forall (is_device ids) devs
  | ReqDelete vgID, EvReplication sym action sg => id_group vgID sym sg ∧ action = Suspend
  | ReqDelete vgID, EvRemoveVolumes sym sg _ => id_group vgID sym sg
  | ReqDelete vgID, EvDeleteGroup _ sg => ∃ sym, id_group vgID sym sg
  | ReqModify vgID ids, EvAddVolumes sym sg devs => id_group vgID sym sg ∧ Forall (is_device ids) devs
  | ReqModify vgID ids, EvRemoveVolumes sym sg devs => id_group vgID sym sg ∧ Forall (λ d, ~ is_device ids d) devs
  | _, _ => False
  end.

Section traced.
Context {W C : Type} `{Pmax W C} `{MaskingClient W C} `{RenameClient W C} `{GroupSnapClient W C} `{RdfClient W C} `{AddonsClient W C} `{MapOrder}.

#[export] Instance traced_addons : AddonsClient (traced W) C := {
  GetVolumesIdentifiersInStorageGroup a0 a1 a2 := quiet (GetVolumesIdentifiersInStorageGroup a0 a1 a2);
  AddVolumesToProtectedStorageGroup a0 a1 a2 a3 a4 a5 a6 := noisy (EvAddVolumes a1 a2 a6) (AddVolumesToProtectedStorageGroup a0 a1 a2 a3 a4 a5 a6);
  GetStorageGroupIDList a0 a1 a2 a3 := quiet (GetStorageGroupIDList a0 a1 a2 a3);
}.

Variable GetPowerMaxClient : string → list string → M W (result error C).
Variable clusterPrefix : string.
Abbreviation clients := (λ a b, quietM (GetPowerMaxClient a b)).

Lemma locked_logs {A} P sym sg req (m : M (traced W) (result error A)) : logs P m → logs P (locked (W := traced W) (C := C) sym sg req m).
Proof. apply with_lock_logs. Qed.

(** *** Reading *)
Lemma members_logs P sym sg l (c : C) : logs P (members (W := traced W) sym sg l c).
Proof. unfold members. logs. Qed.
Lemma response_logs P sym sg rdf p l (c : C) : logs P (buildVolumeGroupResponse (W := traced W) sym sg rdf p l c).
Proof. unfold buildVolumeGroupResponse. destruct (match _ with Some _ => _ | None => _ end). apply logs_bind; [apply members_logs|]. intros ?. apply logs_ret. Qed.
Lemma or_panic_logs {A} P (o : option A) : logs (W := W) P (or_panic o).
Proof. unfold or_panic. logs. Qed.
Lemma use_bulk_logs P sym (c : C) : logs P (use_bulk (W := traced W) sym c).
Proof. unfold use_bulk. logs. Qed.
Lemma identifier_logs P known sym dev (c : C) : logs P (identifier_of (W := traced W) known sym dev c).
Proof. unfold identifier_of, try, ok. logs. Qed.
Lemma load_logs P src : logs P (loadSRDFContext (W := traced W) clients src).
Proof. unfold loadSRDFContext, try, ok, fail. logs. Qed.

(** The context of a request is that of the group its source names. *)
Lemma load_source src : post (loadSRDFContext (W := traced W) clients src)
  (λ r, match r with Ok x => source_group src (ctx_symID x) (ctx_sgName x) | Err _ => True end).
Proof.
  intros t [x|e] t' E; [|done]. unfold loadSRDFContext in E. run_inv E. injection E0 as E0 _. injection E1 as E1 _.
  destruct a0 as [[sym sg] rdf]. case_decide; [done|]. run_inv E. injection E as <- _. cbn [ctx_symID ctx_sgName].
  exists a, rdf. split; [|done]. unfold resolveVGFromSource in E0. repeat case_match; try done. by injection E0 as ->.
Qed.

Lemma logs_try_ret {A B} P (r : result error A) h (k : A → M (traced W) (result error B)) :
  (∀ a, r = Ok a → logs P (k a)) → logs P (try (ret r) h k).
Proof. intros Hk t b t' E. destruct r as [a|e]; [by apply (Hk a eq_refl t b t')|]. by apply (logs_ret P (Err (h e)) t b t'). Qed.
Lemma logs_or_panic {A B} P (o : option A) (k : A → M (traced W) B) : (∀ a, o = Some a → logs P (k a)) → logs P (mbnd (or_panic o) k).
Proof. intros Hk t b t' E. destruct o as [a|]; [|done]. by apply (Hk a eq_refl t b t'). Qed.
Lemma logs_try_panic {A B} P (o : option (result error A)) h (k : A → M (traced W) (result error B)) :
  (∀ a, o = Some (Ok a) → logs P (k a)) → logs P (try (or_panic o) h k).
Proof. intros Hk. apply logs_or_panic. intros [a|e] ->; [by apply Hk|apply logs_ret]. Qed.

(** *** Protection and identifiers *)
Lemma protect_logs P sym remote sg rdf mode (c : C) :
  P (EvReplication sym "replica" sg) → P (EvDeleteGroup remote sg) → logs P (protectStorageGroupCSIAddons (W := traced W) sym remote sg rdf mode c).
Proof. intros H1' H2'. unfold protectStorageGroupCSIAddons, verifyAndDeleteRemoteStorageGroup. logs; done. Qed.
Lemma gather_one_logs P ls rs sym remote rdf d (c : C) : logs P (gather_one (W := traced W) ls rs sym remote rdf d c).
Proof.
  unfold gather_one. apply logs_try; [apply identifier_logs|]. intros i. case_decide; [apply logs_ret|].
  apply logs_try; [apply logs_quiet|]. intros rp. apply logs_try; [apply identifier_logs|]. intros ri. apply logs_ret.
Qed.
Lemma gather_logs P one devs pending e : (∀ d, logs P (one d)) → logs P (gather (W := traced W) one devs pending e).
Proof.
  intros Ho. revert pending e. induction devs as [|d devs IH]; intros pending e; [apply logs_ret|]. apply logs_bind; [apply Ho|].
  intros [[r|]|e']; apply IH.
Qed.
Lemma rename_logs P sym renames errs (c : C) : (∀ d n, P (EvRename sym d n)) → logs P (perVolumeRename_loop (W := traced W) sym renames errs c).
Proof. intros HP. revert errs. induction renames as [|r l IH]; intros errs; [apply logs_ret|]. apply logs_bind; [by apply logs_noisy|]. intros ?. apply IH. Qed.
Lemma sync_logs P sym remote sg rdf (c : C) :
  (∀ d n, P (EvRename remote d n)) → logs P (syncRemoteVolumeIdentifiers (W := traced W) sym remote sg rdf c).
Proof.
  intros HP. unfold syncRemoteVolumeIdentifiers. apply logs_bind.
  { unfold local_devices. apply logs_bind; [apply use_bulk_logs|]. intros b. unfold try, ok. logs. }
  intros [[[b devs] ids]|e]; [|apply logs_ret]. case_decide; [apply logs_ret|]. apply logs_bind; [logs|]. intros pg. apply logs_bind.
  { apply gather_logs. intros d. apply gather_one_logs. }
  intros [pending e]. case_decide; [apply logs_ret|]. apply logs_bind; [|intros; apply logs_ret].
  unfold perVolumeRename. apply logs_bind; [by apply rename_logs|]. intros ?. apply logs_ret.
Qed.

(** *** Links *)
Lemma source_id src vgID : resolveVGFromSource src = Ok vgID → src = Some (Volumegroup vgID).
Proof. unfold resolveVGFromSource. repeat case_match; try done. by intros [= ->]. Qed.
Lemma on_group_logs P (c : C) sym a sg rdf f e : P (EvReplication sym a sg) → logs P (on_group (W := traced W) c sym a sg rdf f e).
Proof. apply logs_noisy. Qed.

Lemma enable_logs src params req :
  logs (may_change (ReqEnable src params)) (EnableVolumeReplication (W := traced W) clients src params req).
Proof.
  unfold EnableVolumeReplication. apply logs_try_ret. intros vgID ->%source_id. apply logs_try_ret. intros p Hp. apply logs_try_ret. intros [[sym sg] rdf] Hd.
  case_decide; [apply logs_ret|]. apply logs_try; [apply logs_quietM|]. intros c. apply locked_logs. assert (source_group (Some (Volumegroup vgID)) sym sg) by (by eexists _, _).
  apply logs_check; [apply protect_logs; simpl; eauto|]. apply logs_check; [apply sync_logs; simpl; eauto|]. apply logs_ret.
Qed.
Lemma disable_logs src req : logs (may_change (ReqDisable src)) (DisableVolumeReplication (W := traced W) clients src req).
Proof.
  unfold DisableVolumeReplication. apply logs_try_ret. intros vgID ->%source_id. apply logs_try_ret. intros [[sym sg] rdf] Hd.
  destruct (isCSIAddonsManagedSG sg) eqn:Hm; [|apply logs_ret]. apply logs_try; [apply logs_quietM|]. intros c. apply locked_logs. unfold suspend_group.
  apply logs_bind; [apply logs_quiet|]. intros [psg|]; [|apply logs_ret]. case_match; [apply logs_ret|]. apply logs_try_ret. intros g _.
  apply logs_bind; [apply logs_quiet|]. intros r. case_match; [apply logs_ret|]. apply logs_check; [|apply logs_ret]. apply on_group_logs.
  simpl. split_and!; [by eexists _, _|done..].
Qed.

(** A request that reads its link and changes it under the lock. *)
Lemma link_logs {A} P src req (m : srdfContext → M (traced W) (result error A)) :
  (∀ x, source_group src (ctx_symID x) (ctx_sgName x) → logs P (m x)) →
  logs P (try (loadSRDFContext (W := traced W) clients src) (λ e, e) (λ x, locked (C := C) (ctx_symID x) (ctx_sgName x) req (m x))).
Proof.
  intros Hm. eapply logs_bind_post; [apply load_logs|apply load_source|]. intros [x|e] Hx; [|apply logs_ret]. by apply locked_logs, Hm.
Qed.
Lemma promote_logs src f req : logs (may_change (ReqPromote src f)) (PromoteVolume (W := traced W) clients src f req).
Proof.
  apply link_logs. intros x Hx. unfold promote. destruct (csiAddonsSRDFPersonality _) as [[[st r1] mp] ms].
  assert (∀ a, a ∈ [FailBack; FailOver; Swap] → may_change (ReqPromote src f) (EvReplication (ctx_symID x) a (ctx_sgName x))) as Ha by done.
  repeat (case_match; try apply logs_ret).
  - apply logs_check; [apply on_group_logs, Ha; set_solver|apply logs_ret].
  - apply logs_check; [apply on_group_logs, Ha; set_solver|]. apply logs_bind; [apply on_group_logs, Ha; set_solver|intros; apply logs_ret].
  - apply logs_check; [apply on_group_logs, Ha; set_solver|apply logs_ret].
Qed.
Lemma demote_logs src f req : logs (may_change (ReqDemote src f)) (DemoteVolume (W := traced W) clients src f req).
Proof.
  apply link_logs. intros x Hx. unfold demote. destruct (csiAddonsSRDFPersonality _) as [[[st r1] mp] ms]. repeat (case_match; try apply logs_ret).
  apply logs_check; [by apply on_group_logs|apply logs_ret].
Qed.
Lemma recovery_action st a : recovery st = Some a → a ∈ [Resume; Establish; Swap].
Proof. unfold recovery. intros E. repeat case_decide; simplify_eq; set_solver. Qed.
Lemma resync_logs src f req : logs (may_change (ReqResync src f)) (ResyncVolume (W := traced W) clients src f req).
Proof.
  apply link_logs. intros x Hx. unfold resync. destruct (csiAddonsSRDFPersonality _) as [[[st r1] mp] ms]. case_match; [apply logs_ret|].
  case_match; [apply logs_ret|]. case_decide; [apply logs_ret|]. destruct (recovery st) as [a|] eqn:Er; [|apply logs_ret].
  apply logs_check; [|apply logs_ret]. apply on_group_logs. split; [done|]. by eapply recovery_action.
Qed.

Lemma map_volumes_logs P known sym sg rdf devs (c : C) m rs rr : logs P (map_volumes (W := traced W) known sym sg rdf devs c m rs rr).
Proof.
  revert m rs rr. induction devs as [|d devs IH]; intros m rs rr; [apply logs_ret|]. apply logs_try; [apply identifier_logs|]. intros i.
  apply logs_try; [apply logs_quiet|]. intros pr. apply IH.
Qed.
Lemma destination_logs P src : logs P (GetReplicationDestinationInfo (W := traced W) clients src).
Proof.
  unfold GetReplicationDestinationInfo. apply logs_try_ret. intros vgID _. apply logs_try_ret. intros [[sym sg] rdf] _. case_decide; [apply logs_ret|].
  apply logs_try; [apply logs_quietM|]. intros c. unfold destination. apply logs_try; [apply logs_quiet|]. intros devs. case_decide; [apply logs_ret|].
  apply logs_bind; [apply use_bulk_logs|]. intros b. apply logs_bind; [logs|]. intros pg. apply logs_try; [apply map_volumes_logs|]. intros [[m rs] rr]. apply logs_ret.
Qed.

(** *** Groups *)
Lemma collect_logs P local remote ids devs : logs P (collect_devices (W := traced W) local remote ids devs).
Proof.
  revert devs. induction ids as [|v ids IH]; intros devs; [apply logs_ret|]. apply logs_try_panic. intros sym _. case_decide; [apply logs_ret|].
  apply logs_try_panic. intros d _. apply IH.
Qed.
Lemma collect_devices_of all local remote ids devs :
  (∀ v, v ∈ ids → v ∈ all) → Forall (is_device all) devs →
  post (collect_devices (W := traced W) local remote ids devs) (λ r, match r with Ok l => Forall (is_device all) l | Err _ => True end).
Proof.
  revert devs. induction ids as [|v ids IH]; intros devs Hall Hd; [by apply post_ret|]. intros t r t' E.
  destruct r as [l|]; [|done]. cbn [collect_devices] in E. run_inv E. case_decide; [done|]. run_inv E.
  destruct (extractDevIDFromVolumeID v) as [[d|]|] eqn:Ev; try done. injection E1 as -> ->.
  refine (IH _ _ _ _ _ _ E); [by intros; apply Hall; right|]. apply Forall_app. split; [done|]. constructor; [|done]. exists v. split; [apply Hall; by left|done].
Qed.

Lemma rdf_create_logs P (c : C) label sym remote :
  (∀ l, P (EvReplication sym "create RDF group" l)) → logs P (Replication.create_group (W := traced W) c label sym remote).
Proof.
  intros HP. unfold Replication.create_group, Replication.free_group, Replication.scan_dir, Replication.scan_port, Replication.add_remote.
  logs; done.
Qed.
Lemma rdf_group_logs P (c : C) sym p :
  (∀ l, P (EvReplication sym "create RDF group" l)) → logs P (rdf_group (W := traced W) clusterPrefix sym p c).
Proof.
  intros HP. unfold rdf_group. case_decide; [apply logs_ret|]. apply logs_try; [|intros r; case_decide; apply logs_ret].
  unfold GetOrCreateRDFGroup. case_match; [|apply logs_panic]. case_match; [apply logs_ret|]. apply logs_bind; [apply logs_quiet|].
  intros [l|e]; [|case_match; [by apply rdf_create_logs|apply logs_ret]]. case_match; [|by apply rdf_create_logs]. logs.
Qed.

Lemma create_logs name ids params req :
  logs (may_change (ReqCreate name ids params)) (CreateVolumeGroup (W := traced W) clients clusterPrefix name ids params req).
Proof.
  unfold CreateVolumeGroup. case_decide; [apply logs_ret|]. destruct ids as [|first ids]; [apply logs_ret|]. set (all := first :: ids).
  apply logs_try_ret. intros p _. apply logs_try_panic. intros sym Hsym. assert (∃ v, v ∈ all ∧ extractSymIDFromVolumeID v = Some (Ok sym)) as Hv by (exists first; split; [by left|done]).
  eapply logs_bind_post; [apply collect_logs|by apply (collect_devices_of all)|]. intros [devs|e] Hd; [|apply logs_ret]. case_decide.
  - unfold getExistingVolumeGroupResponse. apply logs_try; [apply logs_quietM|]. intros c. case_decide; [apply logs_ret|].
    apply logs_or_panic. intros sg _. apply logs_bind; [apply response_logs|]. intros vg. apply logs_ret.
  - apply logs_try; [apply logs_quietM|]. intros c. apply logs_try; [by apply rdf_group_logs|]. intros rdf.
    apply logs_or_panic. intros sg Hsg%sg_name_managed. apply locked_logs.
    apply logs_check; [unfold ensure_addons_group; logs; done|]. apply logs_check.
    + unfold add_missing. apply logs_bind; [apply logs_quiet|]. intros r. case_decide; [apply logs_ret|]. apply logs_bind; [|intros; apply logs_ret].
      apply logs_noisy. simpl. split_and!; [done..|]. apply Forall_forall. intros d [_ Hd']%list_elem_of_filter. by apply (proj1 (Forall_forall _ _) Hd).
    + apply logs_bind; [apply response_logs|]. intros vg. apply logs_ret.
Qed.

Lemma delete_unprotected_logs P sym sg (c : C) :
  (∀ l, P (EvRemoveVolumes sym sg l)) → P (EvDeleteGroup sym sg) → logs P (deleteUnprotectedSG (W := traced W) sym sg c).
Proof. intros Hr Hd. unfold deleteUnprotectedSG, check, ok. logs; done. Qed.
Lemma delete_protected_logs P sym sg rdf psg (c : C) :
  P (EvReplication sym Suspend sg) → (∀ l, P (EvRemoveVolumes sym sg l)) → (∀ s, P (EvDeleteGroup s sg)) →
  logs P (deleteProtectedVolumeGroup (W := traced W) clients sym sg rdf psg c).
Proof.
  intros Hs Hr Hd. unfold deleteProtectedVolumeGroup. apply logs_try_ret. intros g _. apply logs_bind; [apply logs_quiet|]. intros r.
  destruct (match r with Ok _ => _ | Err _ => _ end) as [st r1]. case_match; [apply logs_ret|]. apply logs_try; [apply logs_quiet|]. intros info.
  apply logs_try; [apply logs_quietM|]. intros c2. apply logs_check; [case_decide; [apply logs_ret|by apply on_group_logs]|].
  apply logs_bind; [apply logs_quiet|]. intros l. apply logs_check; [logs; done|]. apply logs_check; [by apply logs_noisy|].
  apply logs_bind; [by apply logs_noisy|]. intros ?. apply logs_ret.
Qed.
Lemma delete_logs vgID req : logs (may_change (ReqDelete vgID)) (DeleteVolumeGroup (W := traced W) clients vgID req).
Proof.
  unfold DeleteVolumeGroup. apply logs_try_ret. intros [[sym sg] rdf] Hd. assert (id_group vgID sym sg) as Hg by (by exists rdf).
  apply logs_try; [apply logs_quietM|]. intros c. apply locked_logs. unfold delete_volume_group. apply logs_bind; [apply logs_quiet|].
  intros [|]; [|apply logs_ret]. assert (∀ s, may_change (ReqDelete vgID) (EvDeleteGroup s sg)) by (intros s; by exists sym).
  apply logs_bind; [apply logs_quiet|]. intros [psg|]; [|by apply delete_unprotected_logs]. case_match; [by apply delete_protected_logs|by apply delete_unprotected_logs].
Qed.

Lemma desired_logs P ids m : logs P (desired_devices (W := traced W) ids m).
Proof. revert m. induction ids as [|v ids IH]; intros m; [apply logs_ret|]. apply logs_try_panic. intros d _. apply IH. Qed.
Lemma modify_side_logs P sym sg rdf (c : C) : logs P (modify_side (W := traced W) clients sym sg rdf c).
Proof. unfold modify_side, ok, fail. logs. Qed.
Lemma change_logs P sym sg remote toAdd toRemove (c : C) :
  P (EvAddVolumes sym sg toAdd) → P (EvRemoveVolumes sym sg toRemove) → logs P (change_members (W := traced W) sym sg remote toAdd toRemove c).
Proof. intros Ha Hr. unfold change_members. logs; done. Qed.
Lemma list_groups_logs P sym sgs entries (c : C) : logs P (list_groups (W := traced W) sym sgs entries c).
Proof.
  revert entries. induction sgs as [|sg sgs IH]; intros entries; [apply logs_ret|]. simpl. destruct (parseCSIAddonsSGName sg) as [[r m]|]; [|apply IH].
  apply logs_bind; [apply members_logs|]. intros l. apply IH.
Qed.
Lemma list_arrays_logs P arrays entries : logs P (list_arrays (W := traced W) clients arrays entries).
Proof.
  revert entries. induction arrays as [|a l IH]; intros entries; [apply logs_ret|]. apply logs_bind; [apply logs_quietM|]. intros [c|]; [|apply IH].
  apply logs_bind; [apply logs_quiet|]. intros [ids|]; [|apply IH]. apply logs_bind; [apply list_groups_logs|]. intros e. apply IH.
Qed.

Lemma modify_logs vgID ids req : logs (may_change (ReqModify vgID ids)) (ModifyVolumeGroupMembership (W := traced W) clients vgID ids req).
Proof.
  unfold ModifyVolumeGroupMembership. apply logs_try_ret. intros [[sym sg] rdf] Hd. assert (id_group vgID sym sg) as Hg by (by exists rdf).
  apply logs_try; [apply logs_quietM|]. intros c. apply locked_logs. unfold modify_members. apply logs_try; [apply modify_side_logs|]. intros [remote c2].
  eapply logs_bind_post; [apply desired_logs|apply (desired_spec ids ids ∅); [done|intros d []; by simplify_map_eq]|].
  intros [m|e] Hm; [|apply logs_ret]. destruct Hm as [Hm1 Hm2]. apply logs_try; [apply logs_quiet|]. intros current.
  apply logs_check; [|apply logs_bind; [apply response_logs|]; intros; apply logs_ret].
  apply change_logs; (split; [done|]; apply Forall_forall; intros d [Hd1 Hd2]%missing_from_spec).
  - by apply Hm1.
  - intros Hdev. destruct (Hm2 d (or_intror Hdev)) as [? E]. by rewrite E in Hd2.
Qed.

(** Whatever the arrays answer, a request of CSI-Addons changes nothing but what it names.
    Actions on a link run on the group of the request's id and are of the kind of the request; a
    group is created, and gets members, only under the mark of CSI-Addons, on the array of a volume
    of the request, and only devices of the request are added; members are removed only when the
    request does not list them; protection touches the remote array only by removing the empty group
    of the same name and by renaming devices; deletion deletes that group, on both arrays, and no
    volume is ever deleted; the other requests only read. *)
Theorem addons_only_named rq reqID t r t' :
  serve (W := traced W) clients clusterPrefix rq reqID t = Some (r, t') →
  ∃ l, t'.2 = (t.2 ++ l)%list ∧ Forall (may_change rq) l.
Proof.
  revert t r t'. change (logs (may_change rq) (serve (W := traced W) clients clusterPrefix rq reqID)).
  destruct rq; (apply logs_bind; [|intros; apply logs_ret]).
  - apply enable_logs.
  - apply disable_logs.
  - apply promote_logs.
  - apply demote_logs.
  - apply resync_logs.
  - apply logs_try; [apply load_logs|]. intros x. destruct (health _ _). unfold ok. logs.
  - apply destination_logs.
  - apply create_logs.
  - apply delete_logs.
  - apply modify_logs.
  - unfold ControllerGetVolumeGroup. apply logs_try_ret. intros [[sym sg] rdf] _. apply logs_try; [apply logs_quietM|]. intros c.
    apply logs_try; [apply logs_quiet|]. intros _. apply logs_bind; [apply logs_quiet|]. intros psg.
    apply logs_bind; [apply response_logs|]. intros vg. apply logs_ret.
  - unfold ListVolumeGroups. case_match; [apply logs_ret|]. apply logs_bind; [apply list_arrays_logs|]. intros e. apply logs_ret.
Qed.
End traced.

(** ** Examples *)
Import SimArray SimMasking.
#[local] Existing Instance Deletion.sim_rename.

#[local] Instance demo_order : MapOrder.
Proof. refine {| range := λ K _ _ V m, map_to_list m |}. done. Defined.
#[local] Instance sim_addons : AddonsClient Sim string := {
  GetVolumesIdentifiersInStorageGroup _ _ _ w := (Ok [], w);
  AddVolumesToProtectedStorageGroup _ _ _ _ _ _ _ w := (None, w);
  GetStorageGroupIDList _ _ _ _ w := (Ok ["csi-rep-sg-addons-csi-addons-vg-ns-7-ASYNC"], w);
}.
Definition any_client (_ : string) (_ : list string) : M Sim (result error string) := ret (Ok "c").
Definition demo_sg := "csi-rep-sg-addons-csi-addons-vg-ns-7-ASYNC".
Definition demo_id := "000120000548:csi-rep-sg-addons-csi-addons-vg-ns-7-ASYNC:7".

(** *** Links *)
Definition sim_link (w : Sim) (l : RdfLink) : Prop :=
  sim_rdf w = mkStorageGroupRDFG [if link_R1 l then "R1" else "R2"] [link_state l].
Definition link_sim (r : bool) (state : string) : Sim := sim [] (mkStorageGroupRDFG [if r then "R1" else "R2"] [state]).

Lemma one_personality r state :
  csiAddonsSRDFPersonality (mkStorageGroupRDFG [if r : bool then "R1" else "R2"] [state]) = (state, r, false, false).
Proof.
  assert ((1 <? size (distinct [state]))%nat = false) as Hs.
  { unfold distinct, named. destruct (decide (state = "")) as [->|]; [done|]. rewrite filter_cons_True by done. cbn [filter list_filter].
    rewrite list_to_set_singleton. by rewrite size_singleton. }
  unfold csiAddonsSRDFPersonality. cbn [VolumeRdfTypes States]. rewrite Hs.
  assert (default "" (head (named [state])) = state) as ->
    by (unfold named; destruct (decide (state = "")) as [->|]; [done|by rewrite filter_cons_True]).
  by destruct r.
Qed.

#[local] Instance sim_link_laws : LinkLaws any_client "000120000548" demo_sg "7" sim_link.
Proof.
  split.
  - intros c w l psg w' Hs [= <- <-]. split; [done|]. rewrite Hs. apply one_personality.
  - intros c w l action force exempt bias w' Hs Ha [= <-]. unfold sim_link in *. cbn. rewrite Hs.
    exists (mkRdfLink (if decide (action = csiAddonsActionSwap) then negb (link_R1 l) else link_R1 l)
              (if decide (action = csiAddonsActionFailover) then FailedOver else if decide (action = csiAddonsActionSwap) then Suspended else SyncInProgress)).
    unfold applies in Ha. destruct Ha as [->|[[[->| ->] _]|[[-> _]|[-> _]]]]; unfold effect; cbn; destruct (link_R1 l);
      try done; (split; [split; [done|by left]|done]).
  - by intros.
  - by intros.
  - by intros.
  - intros a b w l r w' Hs [= _ <-]. done.
Qed.

Definition group_source : option ReplicationSource := Some (Volumegroup demo_id).
Definition after {A} (r : option (result error A * Sim)) : option (StorageGroupRDFG * list string) :=
  match r with Some (Ok _, w) => Some (sim_rdf w, sim_log w) | _ => None end.

Lemma addons_roles_witness :
  ∃ w', PromoteVolume (C := string) any_client group_source false "r" (link_sim false Consistent) = Some (Ok tt, w')
    ∧ sim_log w' = [FailOver; Swap] ∧ ∃ l', active l' = true ∧ sim_link w' l'.
Proof.
  destruct (addons_roles any_client "000120000548" demo_sg "7" sim_link demo_id eq_refl false "r" (link_sim false Consistent) (mkRdfLink false Consistent) eq_refl) as [Hp _].
  eexists. split; [reflexivity|]. split; [done|]. by apply Hp.
Defined.

(** After a forced promotion the R2 side is active, and stays so when it is demoted: the request
    succeeds without an action. *)
Example demote_after_forced_promotion :
  after (PromoteVolume (C := string) any_client group_source true "r" (link_sim false Consistent))
    = Some (mkStorageGroupRDFG ["R2"] [FailedOver], [FailOver])
  ∧ after (DemoteVolume (C := string) any_client group_source false "r" (link_sim false FailedOver))
    = Some (mkStorageGroupRDFG ["R2"] [FailedOver], [])
  ∧ active (mkRdfLink false FailedOver) = true.
Proof. by vm_compute. Qed.

(** The link is read before the lock is taken. A second promotion that read the link before the
    first one changed it fails over once more: the side both promoted ends as the passive one. *)
Example second_promotion_demotes :
  let stale := mkContext (C := string) "c" "000120000548" demo_sg "7" (mkStorageGroupRDFG ["R2"] [Consistent]) in
  after (promote stale false (link_sim true Suspended)) = Some (mkStorageGroupRDFG ["R2"] [Suspended], [FailOver; Swap])
  ∧ active (mkRdfLink true Suspended) = true ∧ active (mkRdfLink false Suspended) = false.
Proof. by vm_compute. Qed.

(** From a failed over link, three calls: the swap, the resumption, and waiting. *)
Example resync_steps :
  after (ResyncVolume (C := string) any_client group_source false "r" (link_sim true FailedOver)) = Some (mkStorageGroupRDFG ["R2"] [Suspended], [Swap])
  ∧ after (ResyncVolume (C := string) any_client group_source false "r" (link_sim false Suspended)) = Some (mkStorageGroupRDFG ["R2"] [SyncInProgress], [Resume])
  ∧ after (ResyncVolume (C := string) any_client group_source false "r" (link_sim false SyncInProgress)) = Some (mkStorageGroupRDFG ["R2"] [SyncInProgress], []).
Proof. by vm_compute. Qed.

Section only_named.
#[local] Existing Instance GroupSnapshots.Sim.sim_groups.
#[local] Existing Instance RepRequests.sim_rdf_client.
Definition serve_sim (rq : addons_request) (w : Sim) : option (option error * traced Sim) :=
  serve (W := traced Sim) (C := string) (H2 := GroupSnapshots.traced_group) (λ a b, quietM (any_client a b)) "ABC" rq "r" (w, []).

Lemma addons_only_named_witness :
  match serve_sim (ReqPromote group_source false) (link_sim false Consistent) with
  | Some (None, t') =>
      Forall (may_change (ReqPromote group_source false)) t'.2
      ∧ t'.2 = [EvReplication "000120000548" FailOver demo_sg; EvReplication "000120000548" Swap demo_sg]
  | _ => False
  end.
Proof.
  destruct (serve_sim _ _) as [[[e|] t']|] eqn:E; [by vm_compute in E| |by vm_compute in E].
  destruct (addons_only_named any_client "ABC" (ReqPromote group_source false) "r" (link_sim false Consistent, []) None t' E) as (l & El & Hl).
  simpl in El. rewrite El. split; [done|]. rewrite <- El.
  apply (f_equal (λ r, match r with Some (_, t) => Some t.2 | None => None end)) in E. vm_compute in E. by injection E.
Defined.
End only_named.

(** *** Groups

    An array that records its changes, and whose group has the members its changes left. *)
Definition step_members (G : gset string) (e : event) : gset string :=
  match e with
  | EvAddVolumes _ _ devs => G ∪ list_to_set devs
  | EvRemoveVolumes _ _ devs => G ∖ list_to_set devs
  | _ => G
  end.
Definition members_after (t : traced Sim) : gset string := fold_left step_members t.2 {["00001"; "00002"]}.
#[local] Instance member_groups : GroupSnapClient (traced Sim) string := {
  GetVolumeIDListInStorageGroup _ _ _ t := (Ok (elements (members_after t)), t);
  GroupSnapshots.GetStorageGroupSnapshotSnapIDs _ _ _ _ t := (Ok None, t);
  GroupSnapshots.GetStorageGroupSnapshotSnap _ _ _ _ _ t := (Ok None, t);
  GroupSnapshots.IsNotFoundError _ := false;
}.
#[local] Existing Instance RepRequests.sim_rdf_client.
Definition any_traced (a : string) (b : list string) : M (traced Sim) (result error string) := quietM (any_client a b).

#[local] Instance member_laws : MemberLaws any_traced "000120000548" demo_sg (λ t G, members_after t = G).
Proof.
  split; try by intros.
  - intros c t G r t' <- [= <- <-]. split; [done|]. intros l [= <-]. apply list_to_set_elements_L.
  - intros c t G l t' <- [= <-]. unfold members_after. cbn [snd]. by rewrite fold_left_app.
  - intros c t G rs rg l t' <- [= <-]. unfold members_after. cbn [snd]. by rewrite fold_left_app.
  - intros c t G l t' <- [= <-]. unfold members_after. cbn [snd]. by rewrite fold_left_app.
  - intros c t G rs rg l t' <- [= <-]. unfold members_after. cbn [snd]. by rewrite fold_left_app.
  - intros a b t G r t' <- [= _ <-]. done.
Qed.

Definition demo_volumes : list string := ["csi-ABC-vol2-000120000548-00002"; "csi-ABC-vol3-000120000548-00003"].
Definition start : traced Sim := (link_sim true Consistent, []).
Definition events {A} (r : option (result error A * traced Sim)) : option (list event) := match r with Some (Ok _, t) => Some t.2 | _ => None end.

Example modify_demo :
  events (ModifyVolumeGroupMembership (C := string) any_traced demo_id demo_volumes "r" start)
  = Some [EvAddVolumes "000120000548" demo_sg ["00003"]; EvRemoveVolumes "000120000548" demo_sg ["00001"]].
Proof. by vm_compute. Qed.

Lemma modify_membership_exact_witness :
  match ModifyVolumeGroupMembership (C := string) any_traced demo_id demo_volumes "r" start with
  | Some (Ok _, t') => ∃ D, members_after t' = D ∧ ∀ d, d ∈ D ↔ is_device demo_volumes d
  | _ => False
  end.
Proof.
  destruct (ModifyVolumeGroupMembership _ _ _ _ _) as [[[vg|e] t']|] eqn:E; [|by vm_compute in E..].
  refine (modify_membership_exact any_traced "000120000548" demo_sg (λ t G, members_after t = G) demo_id "7" demo_volumes "r" start _ vg t' _ eq_refl E).
  by vm_compute.
Defined.

Definition demo_params : option (gmap string string) :=
  Some (<[CSIAddonsParamRemoteSystem := "000120000549"]> (<[CSIAddonsParamReplicationMode := "async"]>
    (<[CSIAddonsParamRdfGroupNumber := "7"]> {[CSIAddonsParamNamespace := "ns"]}))).
Definition create_demo (ids : list string) := CreateVolumeGroup (C := string) any_traced "ABC" "vg" ids demo_params "r" start.

Lemma created_volume_group_usable_witness :
  match create_demo demo_volumes with
  | Some (Ok vg, _) => VolumeGroupId_ vg = demo_id
      ∧ ∃ p sym, parseCSIAddonsReplicationParams demo_params = Ok p ∧ extractSymIDFromVolumeID "csi-ABC-vol2-000120000548-00002" = Some (Ok sym)
        ∧ group_named sym p (VolumeGroupId_ vg)
  | _ => False
  end.
Proof.
  destruct (create_demo demo_volumes) as [[[vg|e] t']|] eqn:E; [|by vm_compute in E..]. split.
  - apply (f_equal (λ r, match r with Some (Ok v, _) => VolumeGroupId_ v | _ => "" end)) in E. rewrite <- E. by vm_compute.
  - exact (created_volume_group_usable any_traced "ABC" "vg" "csi-ABC-vol2-000120000548-00002" ["csi-ABC-vol3-000120000548-00003"] demo_params "r" start vg t' E).
Defined.

(** A volume of the remote array is not refused: its device number is added to the local group, where
    it is another device. *)
Example remote_device_added_locally :
  events (create_demo ["csi-ABC-vol2-000120000548-00002"; "csi-ABC-vol9-000120000549-00009"])
  = Some [EvAddVolumes "000120000548" demo_sg ["00009"]].
Proof. by vm_compute. Qed.

(** The ids of the volumes in an answer are no volume ids of the driver. *)
Example answered_ids_unknown :
  match create_demo demo_volumes with
  | Some (Ok vg, _) => Forall (λ id, match extractDevIDFromVolumeID id with Some (Ok _) => False | _ => True end) (Volumes vg) ∧ Volumes vg ≠ []
  | _ => False
  end.
Proof. vm_compute. split; [repeat constructor|done]. Qed.

(** A group CSI-Addons did not make is emptied and deleted. *)
Definition serve0 (rq : addons_request) : option (option error * traced Sim) :=
  serve (W := traced Sim) (C := string) any_traced "ABC" rq "r" start.
Definition changes (r : option (option error * traced Sim)) : option (list event) := match r with Some (None, t) => Some t.2 | _ => None end.
Example delete_other_group :
  changes (serve0 (ReqDelete "000120000548:production:"))
  = Some [EvRemoveVolumes "000120000548" "production" ["00001"; "00002"]; EvDeleteGroup "000120000548" "production"]
  ∧ isCSIAddonsManagedSG "production" = false.
Proof. by vm_compute. Qed.

Lemma list_pages_complete_witness :
  ∃ pages, follow 6 ["a"; "b"; "c"; "d"; "e"] 2 "" = Some pages ∧ concat pages = ["a"; "b"; "c"; "d"; "e"]
    ∧ Forall (λ l, Z.of_nat (List.length l) <= 2) pages.
Proof. apply (list_pages_complete ["a"; "b"; "c"; "d"; "e"] 2); [done|by vm_compute]. Defined.

(** An array that stays away is asked five times within fifteen seconds. *)
Example retry_gives_up :
  let away := λ e, if decide (e = errorString "Could not find volume") then 503 else 0 in
  match syncRemoteVolumeIdentifierWithRetry (W := Sim) away "000120000549" "00002" "csi-ABC-vol1" "c" (sim [] (mkStorageGroupRDFG [] [])) with
  | Some (Some e, w) => StatusCode e = Unavailable ∧ sim_time w = 100 + 15 * 1000000000
  | _ => False
  end.
Proof. by vm_compute. Qed.
End Addons.
