(* ===== verification/MetroLease.v ===== *)
(** * The reconciliation of an array, among replicas

    Models the part of service/service.go that starts a reconciliation:
    metroLeaseNameForArray, tryAcquireMetroReconcileLease, triggerReconciliation
    and updateMetroQueueMetrics. A reconciliation is guarded twice: by a map of
    the pod (metroReconcileInFlight) and, among the replicas of the controller,
    by a Kubernetes Lease.

    The code is a program ([prog]): a tree whose nodes are its calls of the
    cluster, the clock and the shared map. The calls of several replicas
    interleave ([step]); an undisturbed run evaluates ([run]). The replay itself
    is the call [Reconcile_], which [Reconcile.ReconcileDeferredOperations]
    answers. *)

From stdpp Require Import base gmap strings list relations.
From Stdlib Require Import ZArith Lia Ascii.
From S2P Require Import Prelude GoLib Journal Crd Reconcile PowerMax Metro.

Module MetroLease.
Import Journal(DeferredOperation, VolumeJournal, GetAllOperations, ArrayID, OperationType, OpMetroPairing).
Import Crd(api_error, api_kind, api_reason, ReasonAlreadyExists, ReasonNotFound, ReasonConflict, ReasonOther, mkApiError).
Import Reconcile(ReconciliationResult, Success, UnsafeState, MaxRetries).
#[local] Existing Instance Crd.api_reason_eq_dec.
Open Scope string_scope.
Open Scope Z_scope.

Definition metroReconcileLeaseDuration : Z := 12 * Minute.

(** ** Names *)
Definition lease_char (c : ascii) : ascii :=
  let n := nat_of_ascii c in
  if ((97 <=? n)%nat && (n <=? 122)%nat) || ((48 <=? n)%nat && (n <=? 57)%nat) || (n =? 45)%nat then c else "-"%char.
Fixpoint smap (f : ascii → ascii) (s : string) : string :=
  match s with "" => "" | String c s => String (f c) (smap f s) end.
Definition metroLeaseNameForArray (arrayID : string) : string :=
  let safe := smap lease_char ("csi-pmax-metro-reconcile-" ++ ToLower arrayID) in
  if 253 <? slen safe then stake 253 safe else safe.

(** ** Leases and events *)

(** The spec of a Lease and its resource version. Its times are MicroTime values:
    what the API server keeps of an instant are its microseconds. *)
Record Lease := mkLease {
  HolderIdentity : option string;
  LeaseDurationSeconds : option Z;
  AcquireTime : option Z;
  RenewTime : option Z;
  ResourceVersion : Z;
}.
Definition MicroTime (t : Z) : Z := t / 1000 * 1000.

(** When the lease expires, if it says so. *)
Definition expires (l : Lease) : option Z :=
  match RenewTime l, LeaseDurationSeconds l with
  | Some t, Some d => Some (t + d * Second)
  | _, _ => None
  end.

Definition IsAlreadyExists (e : api_error) : bool := bool_decide (api_kind e = ReasonAlreadyExists).

(** An event: whether it is a warning, its reason and the numbers of its text. *)
Record event := mkEvent { ev_warning : bool; ev_reason : string; ev_numbers : list Z }.

(** ** Programs *)
Inductive prog (A : Type) : Type :=
| Ret (a : A)
| LoadOrStore (k : bool → prog A)
| InFlightDelete (k : prog A)
| Now_ (k : Z → prog A)
| Create (l : Lease) (k : option api_error → prog A)
| Get (k : result api_error Lease → prog A)
| Update (l : Lease) (k : option api_error → prog A)
| Delete (k : option api_error → prog A)
| Emit (e : event) (k : prog A)
| Reconcile_ (k : list ReconciliationResult → prog A)
| UpdateMetrics (k : prog A)
| QueueCount (k : Z → prog A)
| Panic.
Arguments Ret {A} a.
Arguments LoadOrStore {A} k.
Arguments InFlightDelete {A} k.
Arguments Now_ {A} k.
Arguments Create {A} l k.
Arguments Get {A} k.
Arguments Update {A} l k.
Arguments Delete {A} k.
Arguments Emit {A} e k.
Arguments Reconcile_ {A} k.
Arguments UpdateMetrics {A} k.
Arguments QueueCount {A} k.
Arguments Panic {A}.

Fixpoint bind {A B} (p : prog A) (f : A → prog B) : prog B :=
  match p with
  | Ret a => f a
  | LoadOrStore k => LoadOrStore (λ r, bind (k r) f)
  | InFlightDelete k => InFlightDelete (bind k f)
  | Now_ k => Now_ (λ r, bind (k r) f)
  | Create l k => Create l (λ r, bind (k r) f)
  | Get k => Get (λ r, bind (k r) f)
  | Update l k => Update l (λ r, bind (k r) f)
  | Delete k => Delete (λ r, bind (k r) f)
  | Emit e k => Emit e (bind k f)
  | Reconcile_ k => Reconcile_ (λ r, bind (k r) f)
  | UpdateMetrics k => UpdateMetrics (bind k f)
  | QueueCount k => QueueCount (λ r, bind (k r) f)
  | Panic => Panic
  end.

(** ** The lease *)

(** The release functions delete the lease, whoever holds it by then. *)
Definition releaseLease : prog unit := Delete (λ _, Ret tt).

Definition held_by (podName : string) (now version : Z) : Lease :=
  mkLease (Some podName) (Some (metroReconcileLeaseDuration / Second)) (Some (MicroTime now)) (Some (MicroTime now)) version.

Definition lease_error : event := mkEvent true "MetroLeaseError" [].

(** The release function when the lease is acquired. [hasClient]: the driver has
    a Kubernetes client. *)
Definition tryAcquireMetroReconcileLease (hasClient : bool) (podName : string) : prog (option (prog unit)) :=
  if negb hasClient then Ret (Some (Ret tt))
  else Now_ (λ now,
    Create (held_by podName now 0) (λ createErr,
      match createErr with
      | None => Ret (Some releaseLease)
      | Some e =>
          if negb (IsAlreadyExists e) then Emit lease_error (Ret None)
          else Get (λ r,
            match r with
            | Err _ => Emit lease_error (Ret None)
            | Ok existing =>
                if decide (HolderIdentity existing = Some podName) then Ret (Some releaseLease)
                else
                  let takeover :=
                    Update (held_by podName now (ResourceVersion existing)) (λ updateErr,
                      match updateErr with Some _ => Ret None | None => Ret (Some releaseLease) end) in
                  match expires existing with
                  | Some expiresAt => Now_ (λ now', if now' <? expiresAt then Ret None else takeover)
                  | None => takeover
                  end
            end)
      end)).

(** ** The run *)
Inductive verdict := Succeeded | Unsafe | Exhausted | Failed.
#[export] Instance verdict_eq_dec : EqDecision verdict.
Proof. solve_decision. Defined.
Definition verdict_of (r : ReconciliationResult) : verdict :=
  if Success r then Succeeded else if UnsafeState r then Unsafe else if MaxRetries r then Exhausted else Failed.
Definition count (v : verdict) (results : list ReconciliationResult) : Z :=
  Z.of_nat (List.length (List.filter (λ r, bool_decide (verdict_of r = v)) results)).

(** The events of the loop over the results. *)
Definition result_events (r : ReconciliationResult) : list event :=
  match verdict_of r with
  | Unsafe => [mkEvent true "MetroUnsafeRDFState" []]
  | Exhausted => [mkEvent true "MetroReconciliationMaxRetries" [Reconcile.MaxReconciliationRetries]]
  | Succeeded | Failed => []
  end.

Fixpoint emit_all {A} (es : list event) (k : prog A) : prog A :=
  match es with [] => k | e :: es => Emit e (emit_all es k) end.

Definition report (results : list ReconciliationResult) : prog unit :=
  let n v := count v results in
  emit_all (List.flat_map result_events results) (UpdateMetrics (
    if 0 <? n Failed + n Unsafe + n Exhausted then
      Emit (mkEvent true "MetroReconciliationFailed"
        [n Succeeded; n Failed; n Unsafe; n Exhausted; Z.of_nat (List.length results)]) (Ret tt)
    else if 0 <? n Succeeded then
      QueueCount (λ queued, Emit (mkEvent false "MetroReconciliationCompleted" [n Succeeded; queued]) (Ret tt))
    else Ret tt)).

(** The deferred calls run in the reverse order, also when the replay panics: the
    journal is a nil pointer when its initialisation failed. *)
Definition triggerReconciliation (hasClient hasJournal : bool) (podName : string) : prog unit :=
  LoadOrStore (λ loaded,
    if loaded then Ret tt
    else bind (tryAcquireMetroReconcileLease hasClient podName) (λ acquired,
      match acquired with
      | None => InFlightDelete (Ret tt)
      | Some releaseLease =>
          Emit (mkEvent false "MetroReconciliationStarted" []) (
            if hasJournal then
              Reconcile_ (λ results, bind (report results) (λ _, bind releaseLease (λ _, InFlightDelete (Ret tt))))
            else bind releaseLease (λ _, InFlightDelete Panic))
      end)).

(** ** Gauges *)

(** The number of operations and of pairings per array: [byArray]. *)
Fixpoint pairCounts (all : list DeferredOperation) (byArray : gmap string (Z * Z)) : gmap string (Z * Z) :=
  match all with
  | [] => byArray
  | op :: all =>
      let '(total, degraded) := default (0, 0) (byArray !! ArrayID op) in
      let degraded := if decide (OperationType op = OpMetroPairing) then degraded + 1 else degraded in
      pairCounts all (<[ArrayID op := (total + 1, degraded)]> byArray)
  end.

(** The two gauges, by array and partner: the depth of the queue and the number
    of degraded volumes. *)
Definition gauges : Type := gmap (string * string) (Z * Z).
Definition updateMetroQueueMetrics {K} (pairs : list Metro.metroClient) (j : VolumeJournal K) (g : gauges) : gauges :=
  map_fold (λ arrayID pc (g : gauges), <[(arrayID, Metro.GetMetroPartner pairs arrayID) := pc]> g) g (pairCounts (GetAllOperations j) ∅).

(** ** Replicas *)

(** What the replicas share: the lease of the array, the next resource version,
    and the maps of the pods (the pods with the array in theirs); [clock] is the
    true time, which no replica knows. *)
Record shared := mkShared {
  clock : Z;
  store : option Lease;
  next_version : Z;
  inflight : gset string;
}.
Definition set_inflight (f : gset string) (s : shared) : shared := mkShared (clock s) (store s) (next_version s) f.
Definition with_version (l : Lease) (v : Z) : Lease :=
  mkLease (HolderIdentity l) (LeaseDurationSeconds l) (AcquireTime l) (RenewTime l) v.
Definition put (l : Lease) (s : shared) : shared :=
  mkShared (clock s) (Some (with_version l (next_version s))) (next_version s + 1) (inflight s).
Definition drop (s : shared) : shared := mkShared (clock s) None (next_version s) (inflight s).

(** The clocks of the replicas run on their own, but none is ever more than [skew]
    off; a goroutine may go on for [overrun] after its context has ended, until it
    notices. *)
Section replicas.
Variables skew overrun : Z.

(** One call of a goroutine of [pod]. It reads the clock of its replica. An update
    fails unless it carries the version of the lease (a conflict); every call of the
    API server may also fail, with or without its effect. *)
Inductive exec (pod : string) : shared → prog unit → shared → prog unit → Prop :=
| x_guard s k : exec pod s (LoadOrStore k) (set_inflight ({[pod]} ∪ inflight s) s) (k (bool_decide (pod ∈ inflight s)))
| x_unguard s k : exec pod s (InFlightDelete k) (set_inflight (inflight s ∖ {[pod]}) s) k
| x_now s k now : clock s - skew <= now <= clock s + skew → exec pod s (Now_ k) s (k now)
| x_create s l k : store s = None → exec pod s (Create l k) (put l s) (k None)
| x_create_exists s l o e k : store s = Some o → IsAlreadyExists e = true → exec pod s (Create l k) s (k (Some e))
| x_create_err s l e k : IsAlreadyExists e = false → exec pod s (Create l k) s (k (Some e))
| x_create_lost s l e k : store s = None → IsAlreadyExists e = false → exec pod s (Create l k) (put l s) (k (Some e))
| x_get s o k : store s = Some o → exec pod s (Get k) s (k (Ok o))
| x_get_err s e k : exec pod s (Get k) s (k (Err e))
| x_update s l o k : store s = Some o → ResourceVersion o = ResourceVersion l → exec pod s (Update l k) (put l s) (k None)
| x_update_err s l e k : exec pod s (Update l k) s (k (Some e))
| x_update_lost s l o e k : store s = Some o → ResourceVersion o = ResourceVersion l →
    exec pod s (Update l k) (put l s) (k (Some e))
| x_delete s o k : store s = Some o → exec pod s (Delete k) (drop s) (k None)
| x_delete_err s e k : exec pod s (Delete k) s (k (Some e))
| x_delete_lost s e k : exec pod s (Delete k) (drop s) (k (Some e))
| x_emit s e k : exec pod s (Emit e k) s k
| x_reconcile s rs k : exec pod s (Reconcile_ k) s (k rs)
| x_metrics s k : exec pod s (UpdateMetrics k) s k
| x_queue s n k : exec pod s (QueueCount k) s (k n).

(** A goroutine: its pod, the rest of its program, and when its context began. *)
Record thread := mkThread { t_pod : string; t_code : prog unit; t_started : Z }.
Record state := mkState { sh : shared; threads : gmap nat thread }.

(** The context of a run ends after ten minutes, that of the deletion of the
    lease after ten seconds. *)
Definition reconcileTimeout : Z := 10 * Minute.
Definition releaseTimeout : Z := 10 * Second.
Definition deadline (t : thread) : Z := t_started t + reconcileTimeout + releaseTimeout + overrun.
Definition at_clock (c : Z) (s : shared) : shared := mkShared c (store s) (next_version s) (inflight s).

Inductive step : state → state → Prop :=
| s_start s i pod hasJournal :
    threads s !! i = None →
    step s (mkState (sh s) (<[i := mkThread pod (triggerReconciliation true hasJournal pod) (clock (sh s))]> (threads s)))
| s_exec s i t sh' code' :
    threads s !! i = Some t → exec (t_pod t) (sh s) (t_code t) sh' code' →
    step s (mkState sh' (<[i := mkThread (t_pod t) code' (t_started t)]> (threads s)))
| s_end s i t :
    threads s !! i = Some t → t_code t = Ret tt → step s (mkState (sh s) (delete i (threads s)))
(** The pod dies: its goroutines and its map are gone, its lease stays. *)
| s_crash s pod :
    step s (mkState (set_inflight (inflight (sh s) ∖ {[pod]}) (sh s)) (filter (λ it, t_pod it.2 ≠ pod) (threads s)))
(** Time passes; a goroutine is gone by its deadline. *)
| s_tick s c :
    clock (sh s) <= c → (∀ i t, threads s !! i = Some t → c <= deadline t) →
    step s (mkState (at_clock c (sh s)) (threads s)).

Definition running (t : thread) : Prop := ∃ k, t_code t = Reconcile_ k.

(** No pod is about to find a lease of its own that ends, on some replica's clock,
    before its run may. *)
Definition fresh_reuse (s : state) : Prop :=
  ∀ i t k o x, threads s !! i = Some t → t_code t = Get k → store (sh s) = Some o →
    HolderIdentity o = Some (t_pod t) → expires o = Some x → deadline t + skew < x.

(** Before the first trigger: any lease, an old one included. *)
Definition initial (s : state) : Prop :=
  threads s = ∅ ∧ ∀ o, store (sh s) = Some o → ResourceVersion o < next_version (sh s) ∧ expires o ≠ None.

(** ** Theorems: one run at a time *)

(** Where a goroutine is: outside the guard of its pod, on its way to the lease
    (with the instant [n] it writes into it and the lease [o] it has read), the
    owner of the lease, or on its way out. *)
Inductive phase := Outside | Starting | Creating (n : Z) | Reading (n : Z) | Checking (n : Z) (o : Lease)
  | Updating (n : Z) (o : Lease) | Owning | Leaving.

(** The time by which a lease outlives the contexts of the run that wrote it: 110
    seconds, less the microsecond that the API server does not keep. *)
Definition spare : Z := metroReconcileLeaseDuration - reconcileTimeout - releaseTimeout - 1000.
Definition bounded : Prop := 0 <= skew ∧ 0 <= overrun ∧ 2 * skew + overrun <= spare.
Hypothesis in_bounds : bounded.

(** The lease [l] says that [pod] holds it for a run that began by [n] on the clock
    of the pod, until the run is over on every clock. *)
Definition covers (pod : string) (n : Z) (l : Lease) : Prop :=
  HolderIdentity l = Some pod ∧ ∃ x, expires l = Some x ∧ n + reconcileTimeout + releaseTimeout + overrun + 2 * skew < x.

(** The calls a program may make in each phase. *)
Inductive follows (pod : string) : phase → prog unit → Prop :=
| f_ret : follows pod Outside (Ret tt)
| f_panic : follows pod Outside Panic
| f_guard k : follows pod Outside (k true) → follows pod Starting (k false) → follows pod Outside (LoadOrStore k)
| f_now k : (∀ n, follows pod (Creating n) (k n)) → follows pod Starting (Now_ k)
| f_create n l k :
    covers pod n l → follows pod Owning (k None) →
    (∀ e, IsAlreadyExists e = true → follows pod (Reading n) (k (Some e))) →
    (∀ e, IsAlreadyExists e = false → follows pod Leaving (k (Some e))) →
    follows pod (Creating n) (Create l k)
| f_get n k :
    (∀ e, follows pod Leaving (k (Err e))) →
    (∀ o, HolderIdentity o = Some pod → follows pod Owning (k (Ok o))) →
    (∀ o, HolderIdentity o ≠ Some pod → expires o ≠ None → follows pod (Checking n o) (k (Ok o))) →
    follows pod (Reading n) (Get k)
| f_check n o x k :
    expires o = Some x → (∀ c, c < x → follows pod Leaving (k c)) → (∀ c, x <= c → follows pod (Updating n o) (k c)) →
    follows pod (Checking n o) (Now_ k)
| f_update n o l k :
    covers pod n l → ResourceVersion l = ResourceVersion o → follows pod Owning (k None) →
    (∀ e, follows pod Leaving (k (Some e))) → follows pod (Updating n o) (Update l k)
| f_own_emit e k : follows pod Owning k → follows pod Owning (Emit e k)
| f_own_reconcile k : (∀ rs, follows pod Owning (k rs)) → follows pod Owning (Reconcile_ k)
| f_own_metrics k : follows pod Owning k → follows pod Owning (UpdateMetrics k)
| f_own_queue k : (∀ n, follows pod Owning (k n)) → follows pod Owning (QueueCount k)
| f_own_delete k : (∀ r, follows pod Leaving (k r)) → follows pod Owning (Delete k)
| f_leave_emit e k : follows pod Leaving k → follows pod Leaving (Emit e k)
| f_leave k : follows pod Outside k → follows pod Leaving (InFlightDelete k).
Create HintDb lease.
#[local] Hint Constructors follows : lease.

Lemma emit_all_follows pod es (k : prog unit) : follows pod Owning k → follows pod Owning (emit_all es k).
Proof. intros Hk. induction es; simpl; eauto with lease. Qed.
Lemma emit_all_bind {A B} es (p : prog A) (f : A → prog B) : bind (emit_all es p) f = emit_all es (bind p f).
Proof. induction es as [|e es IH]; simpl; congruence. Qed.

Lemma held_covers pod n v : covers pod n (held_by pod n v).
Proof.
  destruct in_bounds as (_ & _ & Hb). split; [done|]. eexists. split; [reflexivity|].
  unfold spare, metroReconcileLeaseDuration, MicroTime, reconcileTimeout, releaseTimeout in *.
  change (12 * Minute / Second) with 720. unfold Minute, Second in *.
  pose proof (Z.div_mod n 1000). pose proof (Z.mod_pos_bound n 1000). lia.
Qed.
#[local] Hint Resolve held_covers : lease.

Lemma trigger_follows pod hasJournal : follows pod Outside (triggerReconciliation true hasJournal pod).
Proof.
  unfold triggerReconciliation, tryAcquireMetroReconcileLease. cbn [negb].
  assert (∀ k, k = Ret tt ∨ k = Panic → follows pod Owning (Delete (λ _, InFlightDelete k))) as Hrelease.
  { intros k [-> | ->]; repeat constructor. }
  assert (follows pod Owning (Emit (mkEvent false "MetroReconciliationStarted" [])
    (if hasJournal then Reconcile_ (λ results, bind (report results)
        (λ _, bind releaseLease (λ _, InFlightDelete (Ret tt))))
     else bind releaseLease (λ _, InFlightDelete Panic)))) as Hrun.
  { constructor. destruct hasJournal; [|apply Hrelease; auto]. constructor. intros rs. unfold report.
    rewrite emit_all_bind. apply emit_all_follows. cbn [bind]. constructor.
    case_match; [|case_match]; cbn [bind]; repeat constructor. }
  constructor; [constructor|]. cbn [bind].
  constructor. intros n. cbn [bind]. constructor; [apply held_covers|apply Hrun| |].
  - intros e ->. cbn [negb bind]. constructor.
    + intros e'. cbn [bind]. repeat constructor.
    + intros o Ho. rewrite decide_True by done. apply Hrun.
    + intros o Ho Hx. rewrite decide_False by done. destruct (expires o) as [x|] eqn:Ex; [|done].
      cbn [bind]. apply (f_check _ _ _ x); [done|intros c Hc|intros c Hc].
      * apply Z.ltb_lt in Hc. rewrite Hc. cbn [bind]. repeat constructor.
      * apply Z.ltb_ge in Hc. rewrite Hc. cbn [bind]. constructor; [apply held_covers|done|apply Hrun|].
        intros e'. cbn [bind]. repeat constructor.
  - intros e ->. cbn [negb bind]. repeat constructor.
Qed.

(** What holds of a goroutine in each phase. *)
Definition phase_ok (s : shared) (t : thread) (ph : phase) : Prop :=
  match ph with
  | Outside | Starting | Leaving => True
  | Creating n | Reading n => t_started t - skew <= n
  | Checking n o =>
      t_started t - skew <= n ∧ ResourceVersion o < next_version s ∧
      ∀ o', store s = Some o' → ResourceVersion o' = ResourceVersion o → o' = o
  | Updating n o =>
      t_started t - skew <= n ∧ ResourceVersion o < next_version s ∧
      ∀ o' x, store s = Some o' → ResourceVersion o' = ResourceVersion o → expires o' = Some x → x <= clock s + skew
  | Owning => ∃ o, store s = Some o ∧ covers (t_pod t) (t_started t - skew) o
  end.
Definition thread_ok (s : shared) (t : thread) (ph : phase) : Prop :=
  follows (t_pod t) ph (t_code t) ∧ t_started t <= clock s <= deadline t ∧ (ph ≠ Outside → t_pod t ∈ inflight s) ∧ phase_ok s t ph.

Definition inside (p : prog unit) : bool :=
  match p with Ret _ | Panic | LoadOrStore _ => false | _ => true end.

Record lease_inv (s : state) : Prop := mkInv {
  inv_store : ∀ o, store (sh s) = Some o → ResourceVersion o < next_version (sh s) ∧ expires o ≠ None;
  inv_threads : ∀ i t, threads s !! i = Some t → ∃ ph, thread_ok (sh s) t ph;
  inv_guard : ∀ i j ti tj, threads s !! i = Some ti → threads s !! j = Some tj →
    inside (t_code ti) = true → inside (t_code tj) = true → t_pod ti = t_pod tj → i = j;
}.

Lemma follows_inside pod ph p : follows pod ph p → inside p = true ↔ ph ≠ Outside.
Proof. by destruct 1. Qed.

(** The owner keeps the lease from everybody else. *)
Lemma owner_blocks s i t o x :
  lease_inv s → threads s !! i = Some t → thread_ok (sh s) t Owning → store (sh s) = Some o → expires o = Some x →
  clock (sh s) + skew < x.
Proof.
  intros _ _ (_ & Hc & _ & o' & Ho' & _ & x' & Hx' & Hlt) Ho Hx. unfold deadline in Hc.
  rewrite Ho in Ho'. injection Ho' as <-. rewrite Hx in Hx'. injection Hx' as <-. lia.
Qed.
Lemma owner_unique s i j ti tj :
  lease_inv s → threads s !! i = Some ti → threads s !! j = Some tj →
  thread_ok (sh s) ti Owning → thread_ok (sh s) tj Owning → i = j.
Proof.
  intros Hinv Hi Hj (Fi & _ & _ & o & Ho & Hpi & _) (Fj & _ & _ & o' & Ho' & Hpj & _).
  rewrite Ho in Ho'. injection Ho' as <-. apply (inv_guard s Hinv i j ti tj); try done.
  - by apply (follows_inside _ _ _ Fi).
  - by apply (follows_inside _ _ _ Fj).
  - congruence.
Qed.

(** A write and a deletion of the lease only end the phase of an owner. *)
Lemma phase_ok_put l s t ph : ph ≠ Owning → phase_ok s t ph → phase_ok (put l s) t ph.
Proof.
  intros Hph. destruct ph; simpl; try done.
  - intros (? & ? & ?). split_and!; [done|lia|]. intros o' [= <-]. simpl. lia.
  - intros (? & ? & ?). split_and!; [done|lia|]. intros o' x [= <-]. simpl. lia.
Qed.
Lemma phase_ok_drop s t ph : ph ≠ Owning → phase_ok s t ph → phase_ok (drop s) t ph.
Proof. intros Hph. destruct ph; simpl; naive_solver. Qed.

Lemma thread_ok_put l s t ph : ph ≠ Owning → thread_ok s t ph → thread_ok (put l s) t ph.
Proof.
  intros Hph (Hf & Hc & Hg & Hp). split; [done|]. split; [exact Hc|]. split; [exact Hg|]. by apply phase_ok_put.
Qed.
Lemma thread_ok_drop s t ph : ph ≠ Owning → thread_ok s t ph → thread_ok (drop s) t ph.
Proof.
  intros Hph (Hf & Hc & Hg & Hp). split; [done|]. split; [exact Hc|]. split; [exact Hg|]. by apply phase_ok_drop.
Qed.
Lemma owning_or ph : ph = Owning ∨ ph ≠ Owning.
Proof. destruct ph; auto. Qed.

(** The lease that is stored is one that expires. *)
Lemma exec_store pod s p s' p' ph :
  exec pod s p s' p' → follows pod ph p →
  (∀ o, store s = Some o → ResourceVersion o < next_version s ∧ expires o ≠ None) →
  ∀ o, store s' = Some o → ResourceVersion o < next_version s' ∧ expires o ≠ None.
Proof.
  intros Hx Hf Hs. destruct Hx; simpl; try done.
  all: intros o' [= <-]; inversion Hf as [| | | |? ? ? [_ (x & Hl & _)]| | |? ? ? ? [_ (x & Hl & _)]| | | | | | |]; subst.
  all: split; [simpl; lia|]; change (expires l ≠ None); by rewrite Hl.
Qed.

(** The goroutine itself moves on. *)
Lemma exec_self s i t s' p' :
  lease_inv s → fresh_reuse s → threads s !! i = Some t → exec (t_pod t) (sh s) (t_code t) s' p' →
  ∃ ph, thread_ok s' (mkThread (t_pod t) p' (t_started t)) ph.
Proof.
  intros Hinv Hfresh Hi Hx. destruct (inv_threads s Hinv i t Hi) as (ph & Hf & Hc & Hg & Hp).
  destruct t as [pod code started]; cbn [t_pod t_code t_started] in *.
  assert (∀ ph' s' p', follows pod ph' p' → clock s' = clock (sh s) → (ph' ≠ Outside → pod ∈ inflight s') →
    phase_ok s' (mkThread pod p' started) ph' → ∃ ph, thread_ok s' (mkThread pod p' started) ph) as Hgo.
  { intros ph' s'' p'' Hf' Hc' Hg' Hp'. exists ph'. unfold thread_ok, deadline in *. cbn [t_pod t_code t_started] in *.
    by rewrite Hc'. }
  assert (∀ l n o, covers pod n l → started - skew <= n → o = with_version l (next_version (sh s)) → covers pod (started - skew) o) as Hcov.
  { intros l n o [? (x & Hx' & ?)] ? ->. split; [done|]. exists x. split; [exact Hx'|]. lia. }
  pose proof (inv_store s Hinv) as Hstore. remember (sh s) as s0 eqn:Es.
  destruct Hx; inversion Hf; subst; simpl in Hp;
    try (first [eapply Hgo | eapply (Hgo _ _ (k _))]; [solve [eauto]|done|simpl; by auto|simpl; by eauto]).
  - destruct (bool_decide _); [by eapply Hgo|]. eapply Hgo; [eassumption|done|set_solver|done].
  - eapply Hgo; [eauto|done|auto|]. simpl in *. lia.
  - destruct (decide (now < x)); [eapply Hgo; [eauto|done|auto|done]|].
    eapply Hgo; [match goal with H : _ |- _ => eapply H; lia end|done|auto|]. simpl. destruct Hp as (? & ? & Hsame).
    split_and!; [done..|]. intros o' x' Ho' Hv Hx'. rewrite (Hsame o' Ho' Hv) in Hx'. simplify_eq. lia.
  - destruct (Hstore o ltac:(done)) as [Hv Hx]. destruct (decide (HolderIdentity o = Some pod)) as [Hh|Hh].
    + eapply Hgo; [eauto|done|auto|]. exists o. split; [done|]. split; [done|].
      destruct (expires o) as [x|] eqn:Ex; [|done]. exists x. split; [done|].
      specialize (Hfresh i _ k o x Hi eq_refl ltac:(done) ltac:(done) Ex). unfold deadline in Hfresh. cbn [t_started] in Hfresh. cbn [t_started t_pod] in *. lia.
    + eapply Hgo; [eauto|done|auto|]. simpl. split_and!; [done..|]. intros o' Ho' _. congruence.
  - destruct Hp as (? & _). eapply Hgo; [eauto|done|auto|]. simpl. eauto.
Qed.

(** The others stay where they are: a write finds the lease free or expired, and
    only its owner deletes it. *)
Lemma write_others s i j t tj l ph :
  lease_inv s → threads s !! i = Some t → threads s !! j = Some tj → thread_ok (sh s) tj ph →
  store (sh s) = None
    ∨ (∃ k o, t_code t = Update l k ∧ store (sh s) = Some o ∧ ResourceVersion o = ResourceVersion l) →
  thread_ok (put l (sh s)) tj ph.
Proof.
  intros Hinv Hi Hj Hok Hfree. destruct (owning_or ph) as [->|Hph]; [|by apply thread_ok_put].
  pose proof Hok as (_ & _ & _ & o & Ho & _ & x & Hx & _). destruct Hfree as [?|(k & o' & Hcode & Ho' & Hv)]; [congruence|].
  destruct (inv_threads s Hinv i t Hi) as (pi & Hf & _ & _ & Hp). rewrite Hcode in Hf. inversion Hf; subst.
  destruct Hp as (_ & _ & Hp). specialize (Hp o x Ho ltac:(congruence) Hx).
  pose proof (owner_blocks s j tj o x Hinv Hj Hok Ho Hx). lia.
Qed.
Lemma delete_others s i j t tj k ph :
  lease_inv s → threads s !! i = Some t → threads s !! j = Some tj → i ≠ j → thread_ok (sh s) tj ph →
  t_code t = Delete k → thread_ok (drop (sh s)) tj ph.
Proof.
  intros Hinv Hi Hj Hij Hok Hcode. destruct (owning_or ph) as [->|Hph]; [|by apply thread_ok_drop].
  destruct Hij. apply (owner_unique s i j t tj Hinv Hi Hj); [|done].
  destruct (inv_threads s Hinv i t Hi) as (pi & Hf & ?). pose proof Hf as Hf'. rewrite Hcode in Hf'.
  inversion Hf'; subst. by split.
Qed.
Lemma exec_others s i j t tj s' p' ph :
  lease_inv s → threads s !! i = Some t → threads s !! j = Some tj → i ≠ j →
  exec (t_pod t) (sh s) (t_code t) s' p' → thread_ok (sh s) tj ph → thread_ok s' tj ph.
Proof.
  intros Hinv Hi Hj Hij Hx Hok.
  pose proof (λ l, write_others s i j t tj l ph Hinv Hi Hj Hok) as Hput.
  pose proof (λ k, delete_others s i j t tj k ph Hinv Hi Hj Hij Hok) as Hdel.
  pose proof (λ k, inv_guard s Hinv i j t tj Hi Hj k) as Hguard.
  remember (sh s) as s0. remember (t_code t) as code eqn:Ecode.
  destruct Hx; try done; try (by eauto); try (apply Hput; by eauto 10).
  - destruct Hok as (? & ? & ? & ?). split; [done|]. split; [done|]. split; [set_solver|]. by destruct ph.
  - pose proof Hok as (Hf & Hc & Hg & Hp). split; [done|]. split; [done|]. split; [|by destruct ph].
    intros Hph. simpl. apply elem_of_difference. split; [by apply Hg|]. intros Hpod%elem_of_singleton.
    apply Hij, Hguard; [done| |done]. by apply (follows_inside _ _ _ Hf).
Qed.

(** A goroutine enters only where no other goroutine of its pod is inside. *)
Lemma exec_enters pod s p s' p' ph :
  exec pod s p s' p' → follows pod ph p → inside p' = true → inside p = true ∨ pod ∉ inflight s.
Proof.
  intros Hx Hf Hin. destruct Hx; auto. right. inversion Hf; subst.
  destruct (bool_decide_reflect (pod ∈ inflight s)); [|done]. by apply (follows_inside _ _ _ H0) in Hin.
Qed.

Lemma step_exec_inv s i t s' p' :
  lease_inv s → fresh_reuse s → threads s !! i = Some t → exec (t_pod t) (sh s) (t_code t) s' p' →
  lease_inv (mkState s' (<[i := mkThread (t_pod t) p' (t_started t)]> (threads s))).
Proof.
  intros Hinv Hfresh Hi Hx. destruct (inv_threads s Hinv i t Hi) as (ph & Hok).
  assert (∀ j tj, threads s !! j = Some tj → j ≠ i → inside p' = true → inside (t_code tj) = true →
    t_pod t = t_pod tj → False) as Halone.
  { intros j tj Hj Hji Hin Hinj Hpod. pose proof (exec_enters _ _ _ _ _ _ Hx (proj1 Hok) Hin) as [Hold|Hfree].
    - by apply Hji, (inv_guard s Hinv j i tj t).
    - destruct (inv_threads s Hinv j tj Hj) as (phj & Hf & _ & Hg & _). apply Hfree. rewrite Hpod. apply Hg.
      by apply (follows_inside _ _ _ Hf). }
  constructor; simpl.
  - apply (exec_store _ _ _ _ _ _ Hx (proj1 Hok)). apply (inv_store s Hinv).
  - intros j tj [[<- <-]|[Hij Hj]]%lookup_insert_Some; [by apply (exec_self s i t)|].
    destruct (inv_threads s Hinv j tj Hj) as (phj & Hj'). exists phj. by apply (exec_others s i j t tj s' p').
  - intros j k tj tk [[<- <-]|[Hj Ej]]%lookup_insert_Some [[<- <-]|[Hk Ek]]%lookup_insert_Some Hinj Hink Hpod;
      simpl in *; try done.
    + destruct (Halone k tk); auto.
    + destruct (Halone j tj); auto.
    + by apply (inv_guard s Hinv j k tj tk).
Qed.

Lemma lease_step_inv s s' : step s s' → fresh_reuse s → lease_inv s → lease_inv s'.
Proof.
  intros Hstep Hfresh Hinv. destruct Hstep as [s i pod hj Hi|s i t sh' code' Hi Hx|s i t Hi Ht|s pod|s c Hc Hall].
  - constructor; simpl; [apply (inv_store s Hinv)| |].
    + intros j t [[<- <-]|[_ Hj]]%lookup_insert_Some; [|by apply (inv_threads s Hinv j)].
      exists Outside. split; [apply trigger_follows|]. destruct in_bounds as (_ & ? & _).
      unfold deadline, reconcileTimeout, releaseTimeout, Minute, Second. simpl. split; [lia|done].
    + intros j k tj tk [[<- <-]|[Hj Ej]]%lookup_insert_Some [[<- <-]|[Hk Ek]]%lookup_insert_Some; try done.
      by apply (inv_guard s Hinv j k tj tk).
  - by apply step_exec_inv.
  - constructor; simpl; [apply (inv_store s Hinv)| |].
    + intros j tj [_ Hj]%lookup_delete_Some. by apply (inv_threads s Hinv j).
    + intros j k tj tk [_ Hj]%lookup_delete_Some [_ Hk]%lookup_delete_Some. by apply (inv_guard s Hinv j k tj tk).
  - constructor; simpl; [apply (inv_store s Hinv)| |].
    + intros j tj [Hj Hpod]%map_lookup_filter_Some. destruct (inv_threads s Hinv j tj Hj) as (ph & Hf & Hc & Hg & Hp).
      exists ph. split; [done|]. split; [done|]. split; [set_solver|]. by destruct ph.
    + intros j k tj tk [Hj _]%map_lookup_filter_Some [Hk _]%map_lookup_filter_Some.
      by apply (inv_guard s Hinv j k tj tk).
  - constructor; simpl; [apply (inv_store s Hinv)| |apply (inv_guard s Hinv)].
    intros i t Hi. destruct (inv_threads s Hinv i t Hi) as (ph & Hf & Hc' & Hg & Hp). exists ph.
    split; [done|]. specialize (Hall i t Hi). split; [simpl; lia|]. split; [done|].
    destruct ph; simpl in *; try done. destruct Hp as (? & ? & Hp). split_and!; [done..|].
    intros o' x Ho Hv Hx. specialize (Hp o' x Ho Hv Hx). lia.
Qed.

Lemma initial_inv s : initial s → lease_inv s.
Proof. intros [Ht Hs]. constructor; [done|..]; rewrite Ht; set_solver. Qed.

(** Executions in which no pod reuses a lease of its own that is about to expire. *)
Definition careful (s s' : state) : Prop := step s s' ∧ fresh_reuse s.

Lemma careful_inv s s' : initial s → rtc careful s s' → lease_inv s'.
Proof.
  intros Hs Hrun. apply initial_inv in Hs. induction Hrun as [|s s1 s2 [Hstep Hfresh] _ IH]; [done|].
  by apply IH, (lease_step_inv s).
Qed.

(** C7: Whatever the replicas do and however their calls interleave, fail or get
    lost, at most one goroutine of one replica replays the deferred operations of
    an array at any time: an expired lease is taken over by one replica only, within
    a replica the guard admits one run, and the lease outlives the run of its holder
    as long as two clocks may differ and a run may go on after its context has ended,
    together, by no more than the 110 seconds (less a microsecond) that the lease is
    longer than both contexts. A replica must not resume a lease of its own that
    expires before the run may end. *)
Theorem reconcile_exclusive s0 s i j ti tj :
  initial s0 → rtc careful s0 s →
  threads s !! i = Some ti → threads s !! j = Some tj → running ti → running tj → i = j.
Proof.
  intros Hs Hrun Hi Hj [ki Ri] [kj Rj]. pose proof (careful_inv s0 s Hs Hrun) as Hinv.
  destruct (inv_threads s Hinv i ti Hi) as (phi & Hoki), (inv_threads s Hinv j tj Hj) as (phj & Hokj).
  assert (phi = Owning) as ->. { destruct Hoki as [Hf _]. rewrite Ri in Hf. by inversion Hf. }
  assert (phj = Owning) as ->. { destruct Hokj as [Hf _]. rewrite Rj in Hf. by inversion Hf. }
  by apply (owner_unique s i j ti tj).
Qed.
End replicas.

(** ** Theorems: names and gauges *)
Definition lease_charset (c : ascii) : Prop := lease_char c = c.
Fixpoint all_chars (P : ascii → Prop) (s : string) : Prop :=
  match s with "" => True | String c s => P c ∧ all_chars P s end.

Lemma lease_char_idemp c : lease_char (lease_char c) = lease_char c.
Proof. by destruct c as [[] [] [] [] [] [] [] []]. Qed.
Lemma smap_chars s : all_chars lease_charset (smap lease_char s).
Proof. induction s as [|c s IH]; simpl; [done|]. split; [apply lease_char_idemp|done]. Qed.
Lemma stake_chars P n s : all_chars P s → all_chars P (stake n s).
Proof. revert s. induction n as [|n IH]; intros [|c s]; simpl; try done. intros [? ?]. auto. Qed.
Lemma lease_stake_length n s : slen (stake n s) <= Z.of_nat n.
Proof.
  unfold slen. revert s. induction n as [|n IH]; intros [|c s]; simpl; try lia. specialize (IH s). lia.
Qed.
Lemma smap_fixed s : all_chars lease_charset s → smap lease_char s = s.
Proof. induction s as [|c s IH]; simpl; [done|]. intros [-> ?]. by rewrite IH. Qed.
Lemma smap_app f s t : smap f (s ++ t) = smap f s ++ smap f t.
Proof. induction s as [|c s IH]; [done|]. rewrite app_str_cons. simpl. by rewrite IH, app_str_cons. Qed.

(** The name of a lease is a valid label of the cluster, and serial numbers in
    lower-case letters and digits have leases of their own. *)
Lemma lease_name_valid a : all_chars lease_charset (metroLeaseNameForArray a) ∧ slen (metroLeaseNameForArray a) <= 253.
Proof.
  unfold metroLeaseNameForArray. destruct (253 <? _) eqn:E.
  - split; [apply stake_chars, smap_chars|apply lease_stake_length].
  - split; [apply smap_chars|]. by apply Z.ltb_ge in E.
Qed.
Lemma lease_name_own a b :
  all_chars lease_charset (ToLower a) → all_chars lease_charset (ToLower b) → slen a <= 228 → slen b <= 228 →
  metroLeaseNameForArray a = metroLeaseNameForArray b → ToLower a = ToLower b.
Proof.
  assert (∀ s, slen (smap lease_char s) = slen s) as Hlen.
  { intros s. unfold slen. induction s as [|c s IH]; [done|]. simpl. lia. }
  assert (∀ s, slen (ToLower s) = slen s) as Hlow.
  { intros s. unfold slen. induction s as [|c s IH]; [done|]. simpl. lia. }
  assert (∀ s, slen s <= 228 → metroLeaseNameForArray s = smap lease_char ("csi-pmax-metro-reconcile-" ++ ToLower s)) as Hname.
  { intros s Hs. unfold metroLeaseNameForArray. rewrite Hlen. unfold slen at 1. rewrite PowerMax.app_str_length, Nat2Z.inj_add. fold (slen (ToLower s)). rewrite Hlow.
    destruct (253 <? _) eqn:E; [|done]. apply Z.ltb_lt in E. change (Z.of_nat (String.length "csi-pmax-metro-reconcile-")) with 25 in E. lia. }
  intros Ha Hb La Lb. rewrite !Hname by done. rewrite !smap_app, !(smap_fixed (ToLower _)) by done.
  intros Heq. by apply (inj (String.append _)) in Heq.
Qed.

Definition ops_of (a : string) (l : list DeferredOperation) : list DeferredOperation := filter (λ op, ArrayID op = a) l.
Definition tally (a : string) (l : list DeferredOperation) : Z * Z :=
  (Z.of_nat (List.length (ops_of a l)), Z.of_nat (List.length (filter (λ op, OperationType op = OpMetroPairing) (ops_of a l)))).
Definition plus2 (x y : Z * Z) : Z * Z := (fst x + fst y, snd x + snd y).

Lemma pairCounts_lookup all m a :
  pairCounts all m !! a = if decide (ops_of a all = []) then m !! a else Some (plus2 (default (0, 0) (m !! a)) (tally a all)).
Proof.
  revert m. induction all as [|op all IH]; intros m; [done|]. simpl pairCounts. unfold ops_of. rewrite filter_cons.
  destruct (default (0, 0) (m !! ArrayID op)) as [total degraded] eqn:Ed. rewrite IH.
  unfold tally, ops_of. rewrite filter_cons.
  destruct (decide (ArrayID op = a)) as [<-|Hne].
  - rewrite (decide_False (P := op :: _ = [])) by done. rewrite lookup_insert_eq, Ed. rewrite filter_cons.
    destruct (decide (OperationType op = _)); destruct (decide (filter _ all = [])) as [->|];
      unfold plus2; simpl; f_equal; f_equal; lia.
  - by rewrite lookup_insert_ne.
Qed.

(** After an update the gauges of an array with deferred operations are exact;
    those of an array without any keep what they showed before. *)
Lemma gauges_exact {K} pairs (j : VolumeJournal K) g a :
  updateMetroQueueMetrics pairs j g !! (a, Metro.GetMetroPartner pairs a)
    = if decide (ops_of a (GetAllOperations j) = []) then g !! (a, Metro.GetMetroPartner pairs a)
      else Some (tally a (GetAllOperations j)).
Proof.
  unfold updateMetroQueueMetrics.
  assert (∀ m : gmap string (Z * Z), map_fold (λ arrayID pc (g : gauges), <[(arrayID, Metro.GetMetroPartner pairs arrayID) := pc]> g) g m
      !! (a, Metro.GetMetroPartner pairs a) = match m !! a with Some pc => Some pc | None => g !! (a, Metro.GetMetroPartner pairs a) end) as Hfold.
  { intros m. apply (map_fold_weak_ind (λ (r : gauges) m, r !! (a, Metro.GetMetroPartner pairs a)
      = match m !! a with Some pc => Some pc | None => g !! (a, Metro.GetMetroPartner pairs a) end)); [done|].
    intros i x m' r Hi IH. destruct (decide (i = a)) as [->|Hne].
    - rewrite lookup_insert_eq. apply (lookup_insert_eq (M := gmap (string * string))).

    - rewrite lookup_insert_ne by congruence.
      rewrite <- IH. apply (lookup_insert_ne (M := gmap (string * string))). congruence. }
  rewrite Hfold, pairCounts_lookup, lookup_empty. destruct (decide _); [done|]. unfold plus2, tally. simpl.
  do 2 f_equal; lia.
Qed.

(** ** Undisturbed runs *)

(** The answers of an API server that does not fail. *)
Definition existing_error : api_error := mkApiError ReasonAlreadyExists "already exists".
Definition create_answer (l : Lease) (s : shared) : shared * option api_error :=
  match store s with Some _ => (s, Some existing_error) | None => (put l s, None) end.
Definition get_answer (s : shared) : result api_error Lease :=
  match store s with Some o => Ok o | None => Err (mkApiError ReasonNotFound "not found") end.
Definition update_answer (l : Lease) (s : shared) : shared * option api_error :=
  match store s with
  | Some o => if decide (ResourceVersion o = ResourceVersion l) then (put l s, None)
              else (s, Some (mkApiError ReasonConflict "conflict"))
  | None => (s, Some (mkApiError ReasonNotFound "not found"))
  end.
Definition delete_answer (s : shared) : shared * option api_error :=
  match store s with Some _ => (drop s, None) | None => (s, Some (mkApiError ReasonNotFound "not found")) end.

(** One call; the replay answers [rs], the journal counts [queued]. *)
Definition exec1 (pod : string) (rs : list ReconciliationResult) (queued : Z) (s : shared) (p : prog unit)
    : option (shared * prog unit) :=
  match p with
  | Ret _ | Panic => None
  | LoadOrStore k => Some (set_inflight ({[pod]} ∪ inflight s) s, k (bool_decide (pod ∈ inflight s)))
  | InFlightDelete k => Some (set_inflight (inflight s ∖ {[pod]}) s, k)
  | Now_ k => Some (s, k (clock s))
  | Create l k => let '(s', e) := create_answer l s in Some (s', k e)
  | Get k => Some (s, k (get_answer s))
  | Update l k => let '(s', e) := update_answer l s in Some (s', k e)
  | Delete k => let '(s', e) := delete_answer s in Some (s', k e)
  | Emit _ k | UpdateMetrics k => Some (s, k)
  | Reconcile_ k => Some (s, k rs)
  | QueueCount k => Some (s, k queued)
  end.
Lemma exec1_exec skew pod rs queued s p s' p' : 0 <= skew → exec1 pod rs queued s p = Some (s', p') → exec skew pod s p s' p'.
Proof.
  intros Hs. destruct p; simpl; unfold create_answer, get_answer, update_answer, delete_answer; intros Heq;
    repeat case_match; simplify_eq; first [by econstructor|constructor; lia].
Qed.

(** The whole program: what is shared, the events, and whether it panicked. *)
Fixpoint run (pod : string) (rs : list ReconciliationResult) (queued : Z) (p : prog unit) (s : shared)
    : shared * list event * bool :=
  let log e (r : shared * list event * bool) := (fst (fst r), e :: snd (fst r), snd r) in
  match p with
  | Ret _ => (s, [], false)
  | Panic => (s, [], true)
  | LoadOrStore k => run pod rs queued (k (bool_decide (pod ∈ inflight s))) (set_inflight ({[pod]} ∪ inflight s) s)
  | InFlightDelete k => run pod rs queued k (set_inflight (inflight s ∖ {[pod]}) s)
  | Now_ k => run pod rs queued (k (clock s)) s
  | Create l k => let '(s', e) := create_answer l s in run pod rs queued (k e) s'
  | Get k => run pod rs queued (k (get_answer s)) s
  | Update l k => let '(s', e) := update_answer l s in run pod rs queued (k e) s'
  | Delete k => let '(s', e) := delete_answer s in run pod rs queued (k e) s'
  | Emit e k => log e (run pod rs queued k s)
  | UpdateMetrics k => run pod rs queued k s
  | Reconcile_ k => run pod rs queued (k rs) s
  | QueueCount k => run pod rs queued (k queued) s
  end.

(** The summary of a run. *)
Definition summary (rs : list ReconciliationResult) (queued : Z) : list event :=
  if List.forallb Success rs then
    match rs with
    | [] => []
    | _ => [mkEvent false "MetroReconciliationCompleted" [Z.of_nat (List.length rs); queued]]
    end
  else [mkEvent true "MetroReconciliationFailed"
          [count Succeeded rs; count Failed rs; count Unsafe rs; count Exhausted rs; Z.of_nat (List.length rs)]].

Lemma count_cons v r rs : count v (r :: rs) = (if decide (verdict_of r = v) then 1 else 0) + count v rs.
Proof.
  unfold count. simpl. destruct (bool_decide_reflect (verdict_of r = v)); [rewrite decide_True by done|rewrite decide_False by done];
    simpl List.length; lia.
Qed.
Lemma verdict_success r : verdict_of r = Succeeded ↔ Success r = true.
Proof. unfold verdict_of. by repeat case_match. Qed.
Lemma count_total rs : count Succeeded rs + count Failed rs + count Unsafe rs + count Exhausted rs = Z.of_nat (List.length rs).
Proof.
  induction rs as [|r rs IH]; [done|]. rewrite !count_cons. simpl List.length.
  destruct (verdict_of r); simpl; lia.
Qed.
Lemma lease_count_nonneg v rs : 0 <= count v rs.
Proof. unfold count. lia. Qed.
Lemma count_success rs : count Succeeded rs = Z.of_nat (List.length rs) ↔ List.forallb Success rs = true.
Proof.
  induction rs as [|r rs IH]; [done|]. rewrite count_cons. simpl List.length. simpl List.forallb.
  pose proof (count_total rs). pose proof (lease_count_nonneg Failed rs). pose proof (lease_count_nonneg Unsafe rs).
  pose proof (lease_count_nonneg Exhausted rs). rewrite andb_true_iff, <- IH, <- verdict_success.
  destruct (decide (verdict_of r = Succeeded)); split; try lia; intuition lia.
Qed.

Lemma run_emit_all pod rs queued es p s :
  run pod rs queued (emit_all es p) s = (let '(s', es', b) := run pod rs queued p s in (s', (es ++ es')%list, b)).
Proof. induction es as [|e es IH]; simpl; [by destruct (run _ _ _ _ _) as [[]]|]. rewrite IH. by destruct (run _ _ _ p s) as [[]]. Qed.

(** The report, then the release of the lease and of the guard. *)
Lemma run_report pod rs queued s :
  run pod rs queued (bind (report rs) (λ _, bind releaseLease (λ _, InFlightDelete (Ret tt)))) s =
    (set_inflight (inflight s ∖ {[pod]}) (fst (delete_answer s)), (List.flat_map result_events rs ++ summary rs queued)%list, false).
Proof.
  assert (∀ s, run pod rs queued (bind releaseLease (λ _, InFlightDelete (Ret tt))) s
    = (set_inflight (inflight s ∖ {[pod]}) (fst (delete_answer s)), [], false)) as Hrel.
  { clear. intros s. unfold releaseLease, delete_answer. simpl. unfold delete_answer. by destruct (store s). }
  unfold report. rewrite emit_all_bind, run_emit_all. unfold summary.
  pose proof (count_total rs). pose proof (lease_count_nonneg Failed rs). pose proof (lease_count_nonneg Unsafe rs).
  pose proof (lease_count_nonneg Exhausted rs). pose proof (count_success rs) as Hs.
  destruct (List.forallb Success rs).
  - destruct Hs as [_ Hs]. specialize (Hs eq_refl). destruct (0 <? _) eqn:E; [bool_to_prop; lia|].
    destruct rs as [|r rs]; [cbn [bind run]; by rewrite Hrel|]. rewrite Hs. simpl List.length. 
    destruct (0 <? Z.of_nat (S _)) eqn:E2; [|bool_to_prop; lia]. cbn [bind run]. by rewrite Hrel.
  - destruct (0 <? _) eqn:E; [cbn [bind run]; by rewrite Hrel|].
    bool_to_prop. enough (false = true) by done. apply Hs. lia.
Qed.

(** Whether the lease is free for [pod]. *)
Definition available (pod : string) (s : shared) : bool :=
  match store s with
  | None => true
  | Some o => bool_decide (HolderIdentity o = Some pod)
      || match expires o with Some x => negb (clock s <? x) | None => true end
  end.

(** A trigger that nothing disturbs: when the lease is free, the replay runs, its
    results are reported one by one and in a summary, and the lease and the guard
    are given back; otherwise nothing happens. *)
Lemma trigger_reports pod rs queued s :
  pod ∉ inflight s →
  ∃ s', run pod rs queued (triggerReconciliation true true pod) s
    = (s', (if available pod s
            then mkEvent false "MetroReconciliationStarted" [] :: List.flat_map result_events rs ++ summary rs queued
            else [])%list, false)
    ∧ inflight s' = inflight s ∧ store s' = (if available pod s then None else store s).
Proof.
  intros Hpod. assert (({[pod]} ∪ inflight s) ∖ {[pod]} = inflight s) as Hback by set_solver.
  unfold triggerReconciliation, tryAcquireMetroReconcileLease, available. cbn [negb bind run].
  rewrite bool_decide_false by done. cbn [bind run clock set_inflight]. unfold create_answer. cbn [store set_inflight].
  destruct (store s) as [o|] eqn:Es.
  2:{ cbn [bind run]. rewrite run_report. cbn [fst snd]. eexists. split; [reflexivity|]. by split. }
  change (IsAlreadyExists existing_error) with true. cbn [bind run negb]. unfold get_answer. cbn [store set_inflight].
  rewrite Es. destruct (decide (HolderIdentity o = Some pod)) as [Hh|Hh].
  { rewrite bool_decide_true by done. cbn [bind run orb]. rewrite run_report. unfold delete_answer. cbn [fst snd store set_inflight].
    rewrite Es. eexists. split; [reflexivity|]. by split. }
  rewrite bool_decide_false by done. cbn [orb].
  assert (∀ f, run pod rs queued (bind (Update (held_by pod (clock s) (ResourceVersion o)) (λ updateErr,
      match updateErr with Some _ => Ret None | None => Ret (Some releaseLease) end)) f) (set_inflight ({[pod]} ∪ inflight s) s)
    = run pod rs queued (f (Some releaseLease)) (put (held_by pod (clock s) (ResourceVersion o)) (set_inflight ({[pod]} ∪ inflight s) s)))
    as Hupd.
  { intros f. cbn [bind run]. unfold update_answer. cbn [store set_inflight]. rewrite Es. cbn [ResourceVersion held_by].
    rewrite decide_True by done. by cbn [bind]. }
  destruct (expires o) as [x|] eqn:Ex; [cbn [bind run clock set_inflight]; destruct (clock s <? x); cbn [negb]|].
  - cbn [bind run]. eexists. split; [reflexivity|]. by split.
  - rewrite Hupd. cbn [run]. rewrite run_report. cbn [fst snd]. eexists. split; [reflexivity|]. by split.
  - rewrite Hupd. cbn [run]. rewrite run_report. cbn [fst snd]. eexists. split; [reflexivity|]. by split.
Qed.

(** ** Concrete executions *)

(** A scheduler: start, let go on, let it read a clock that is off, let a deletion
    fail, end, crash, pass time. *)
Section play.
Variables skew overrun : Z.
Hypothesis skew_nonneg : 0 <= skew.
Inductive action := AStart (i : nat) (pod : string) | AGo (i : nat) | ARead (i : nat) (off : Z) | ALoseDelete (i : nat) | AEnd (i : nat)
  | ACrash (pod : string) | ATick (c : Z).
Definition act (a : action) (s : state) : option state :=
  match a with
  | AStart i pod =>
      match threads s !! i with
      | None => Some (mkState (sh s) (<[i := mkThread pod (triggerReconciliation true true pod) (clock (sh s))]> (threads s)))
      | Some _ => None
      end
  | AGo i =>
      t ← threads s !! i;
      '(s', p') ← exec1 (t_pod t) [] 0 (sh s) (t_code t);
      Some (mkState s' (<[i := mkThread (t_pod t) p' (t_started t)]> (threads s)))
  | ARead i off =>
      t ← threads s !! i;
      match t_code t with
      | Now_ k =>
          if (- skew <=? off) && (off <=? skew)
          then Some (mkState (sh s) (<[i := mkThread (t_pod t) (k (clock (sh s) + off)) (t_started t)]> (threads s))) else None
      | _ => None
      end
  | ALoseDelete i =>
      t ← threads s !! i;
      match t_code t with
      | Delete k => Some (mkState (sh s)
          (<[i := mkThread (t_pod t) (k (Some (mkApiError ReasonOther "timeout"))) (t_started t)]> (threads s)))
      | _ => None
      end
  | AEnd i =>
      t ← threads s !! i;
      match t_code t with Ret _ => Some (mkState (sh s) (delete i (threads s))) | _ => None end
  | ACrash pod =>
      Some (mkState (set_inflight (inflight (sh s) ∖ {[pod]}) (sh s)) (filter (λ it, t_pod it.2 ≠ pod) (threads s)))
  | ATick c =>
      if (clock (sh s) <=? c) && bool_decide (map_Forall (λ _ t, c <= deadline overrun t) (threads s))
      then Some (mkState (at_clock c (sh s)) (threads s)) else None
  end.
Lemma act_step a s s' : act a s = Some s' → step skew overrun s s'.
Proof.
  destruct a as [i pod|i|i off|i|i|pod|c]; simpl; intros Heq.
  - destruct (threads s !! i) eqn:E; simplify_eq. by apply s_start.
  - destruct (threads s !! i) as [t|] eqn:E; simplify_eq/=. destruct (exec1 _ _ _ _ _) as [[s1 p1]|] eqn:E1; simplify_eq/=.
    eapply s_exec; [done|]. by eapply exec1_exec.
  - destruct (threads s !! i) as [t|] eqn:E; simplify_eq/=. destruct (t_code t) eqn:E1; simplify_eq.
    destruct ((- skew <=? off) && _) eqn:E2; simplify_eq. eapply s_exec; [done|]. rewrite E1. constructor. bool_to_prop. lia.
  - destruct (threads s !! i) as [t|] eqn:E; simplify_eq/=. destruct (t_code t) eqn:E1; simplify_eq.
    eapply s_exec; [done|]. rewrite E1. constructor.
  - destruct (threads s !! i) as [t|] eqn:E; simplify_eq/=. destruct (t_code t) as [[]| | | | | | | | | | | |] eqn:E1; simplify_eq.
    by eapply s_end.
  - simplify_eq. apply s_crash.
  - destruct ((clock (sh s) <=? c) && _) eqn:E; simplify_eq.
    apply andb_prop in E as [E1%Z.leb_le E2%bool_decide_eq_true]. by apply s_tick.
Qed.

Fixpoint play (l : list action) (s : state) : option state :=
  match l with [] => Some s | a :: l => s' ← act a s; play l s' end.
Lemma play_steps l s s' : play l s = Some s' → rtc (step skew overrun) s s'.
Proof.
  revert s. induction l as [|a l IH]; simpl; intros s Heq; [by simplify_eq; apply rtc_refl|].
  destruct (act a s) as [s1|] eqn:E; simplify_eq/=. eapply rtc_l; [by eapply act_step|]. by apply IH.
Qed.

(** The condition on a reused lease, decided. *)
Definition fresh_thread (s : shared) (t : thread) : bool :=
  match t_code t, store s with
  | Get _, Some o =>
      negb (bool_decide (HolderIdentity o = Some (t_pod t)))
      || match expires o with Some x => deadline overrun t + skew <? x | None => true end
  | _, _ => true
  end.
Definition fresh_reuseb (s : state) : bool := bool_decide (map_Forall (λ _ t, fresh_thread (sh s) t = true) (threads s)).
Lemma fresh_reuseb_spec s : fresh_reuseb s = true → fresh_reuse skew overrun s.
Proof.
  intros Hall%bool_decide_eq_true i t k o x Hi Hk Ho Hh Hx. specialize (Hall i t Hi). unfold fresh_thread in Hall.
  rewrite Hk, Ho, bool_decide_true, Hx in Hall by done. by apply Z.ltb_lt in Hall.
Qed.
Fixpoint play_fresh (l : list action) (s : state) : option state :=
  match l with [] => Some s | a :: l => if fresh_reuseb s then s' ← act a s; play_fresh l s' else None end.
Lemma play_careful l s s' : play_fresh l s = Some s' → rtc (careful skew overrun) s s'.
Proof.
  revert s. induction l as [|a l IH]; simpl; intros s Heq; [by simplify_eq; apply rtc_refl|].
  destruct (fresh_reuseb s) eqn:Ef; [|done]. destruct (act a s) as [s1|] eqn:E; simplify_eq/=.
  eapply rtc_l; [split; [by eapply act_step|by apply fresh_reuseb_spec]|]. by apply IH.
Qed.
End play.

Definition idle : state := mkState (mkShared 0 None 1 ∅) ∅.
Lemma idle_initial : initial idle.
Proof. done. Qed.

Definition is_running (t : thread) : bool := match t_code t with Reconcile_ _ => true | _ => false end.
Lemma is_running_spec t : is_running t = true → running t.
Proof. unfold is_running, running. destruct (t_code t); naive_solver. Qed.

(** The way of a goroutine into its run: the guard, the clock, the lease, the event. *)
Definition goes (i n : nat) : list action := List.repeat (AGo i) n.

(** Two goroutines replay the operations of the array at once, after the actions. *)
Definition overlap (skew overrun : Z) : Prop :=
  ∃ s i j ti tj, rtc (step skew overrun) idle s ∧ i ≠ j ∧ threads s !! i = Some ti ∧ threads s !! j = Some tj
    ∧ running ti ∧ running tj.
Definition both_running (i j : nat) (s : option state) : bool :=
  match s with
  | Some s => match threads s !! i, threads s !! j with Some ti, Some tj => is_running ti && is_running tj | _, _ => false end
  | None => false
  end.
Lemma play_overlap skew overrun l i j :
  0 <= skew → i ≠ j → both_running i j (play skew overrun l idle) = true → overlap skew overrun.
Proof.
  intros Hs Hij H. destruct (play skew overrun l idle) as [s|] eqn:E; [|done]. simpl in H.
  destruct (threads s !! i) as [ti|] eqn:Ei; [|done]. destruct (threads s !! j) as [tj|] eqn:Ej; [|done].
  apply andb_prop in H as [H1 H2]. exists s, i, j, ti, tj. split; [by eapply play_steps|].
  split_and!; [done|done|done|by apply is_running_spec..].
Qed.

(** The run of replica "a" ends and its deletion of the lease fails; eleven
    minutes later "a" finds its own lease and resumes it without renewing it; a
    minute later the lease expires, and "b" takes it over while "a" still runs. *)
Definition stale_lease : list action :=
  (AStart 0 "a" :: goes 0 6 ++ [ALoseDelete 0; AGo 0; AEnd 0; ATick (11 * Minute); AStart 1 "a"] ++ goes 1 5
   ++ [ATick (12 * Minute); AStart 2 "b"] ++ goes 2 7)%list.
Lemma stale_reuse_overlaps : overlap 0 0.
Proof. apply (play_overlap _ _ stale_lease 1 2); [by vm_compute|done|vm_compute; reflexivity]. Qed.

(** The bound is needed: a run that goes on for the 110 seconds, and a clock that is
    early when the lease is written and late when it is read. *)
Definition late_run : list action := (AStart 0 "a" :: goes 0 4 ++ [ATick (12 * Minute); AStart 1 "b"] ++ goes 1 7)%list.
Lemma late_run_overlaps : overlap 0 (110 * Second).
Proof. apply (play_overlap _ _ late_run 0 1); [by vm_compute|done|vm_compute; reflexivity]. Qed.
Definition wrong_clocks : list action :=
  (AStart 0 "a" :: goes 0 1 ++ [ARead 0 (-55 * Second)] ++ goes 0 2 ++ [ATick (610 * Second); AStart 1 "b"]
   ++ goes 1 4 ++ [ARead 1 (55 * Second)] ++ goes 1 2)%list.
Lemma wrong_clocks_overlap : overlap (55 * Second) 0.
Proof. apply (play_overlap _ _ wrong_clocks 0 1); [by vm_compute|done|vm_compute; reflexivity]. Qed.

(** Replica "a", whose clock is late by 40 seconds, dies while it runs; thirteen
    minutes later "b", whose clock is early by 40 seconds, takes over its lease and
    "c", a moment after, does not. *)
Definition takeover : list action :=
  (AStart 0 "a" :: goes 0 1 ++ [ARead 0 (40 * Second)] ++ goes 0 2
   ++ [ACrash "a"; ATick (14 * Minute); AStart 1 "b"; AStart 2 "c"] ++ goes 1 1 ++ [ARead 1 (-40 * Second)] ++ goes 1 2
   ++ goes 2 4 ++ [ARead 1 (-40 * Second)] ++ goes 1 2 ++ goes 2 3)%list.
Definition demo_careful := play_fresh (40 * Second) (20 * Second).
Definition taken_over : state := default idle (demo_careful takeover idle).
Definition runner : thread := default (mkThread "" (Ret tt) 0) (threads taken_over !! 1%nat).
Lemma reconcile_exclusive_witness :
  bounded (40 * Second) (20 * Second) ∧ rtc (careful (40 * Second) (20 * Second)) idle taken_over ∧ running runner ∧
  ∀ j tj, threads taken_over !! j = Some tj → running tj → 1%nat = j.
Proof.
  assert (bounded (40 * Second) (20 * Second)) as Hb by (split_and!; vm_compute; discriminate).
  assert (rtc (careful (40 * Second) (20 * Second)) idle taken_over) as Hrun.
  { apply (play_careful (40 * Second) (20 * Second) ltac:(by vm_compute) takeover). unfold taken_over.
    assert (is_Some (demo_careful takeover idle)) as [s' Es]; [|unfold demo_careful in Es |- *; by rewrite Es].
    rewrite <- not_eq_None_Some. vm_compute. discriminate. }
  assert (running runner) as Hr by (apply is_running_spec; vm_compute; reflexivity).
  split; [exact Hb|]. split; [exact Hrun|]. split; [exact Hr|]. intros j tj Hj.
  refine (reconcile_exclusive (40 * Second) (20 * Second) Hb idle taken_over 1%nat j runner tj idle_initial Hrun _ Hj Hr).
  unfold runner. destruct (threads taken_over !! 1%nat) eqn:E; [done|].
  exfalso. revert E. vm_compute. discriminate.
Defined.

(** *** The summary of a run that needed retries

    The results of every attempt are counted, so a run that replayed everything
    reports a failure when one operation needed a second attempt. *)
Example retried_run_reports_failure :
  ∃ s' rs, Reconcile.ReconcileDeferredOperations Reconcile.sort_ops Reconcile.never_done Reconcile.no_wait Reconcile.flaky
      "000120000002" Reconcile.run_state = Some (s', rs)
    ∧ Journal.GetDeferredOperations "000120000002" (Reconcile.st_journal s') (Reconcile.st_cluster s') = []
    ∧ List.map ev_reason (snd (fst (run "a" rs 0 (triggerReconciliation true true "a") (sh idle))))
      = ["MetroReconciliationStarted"; "MetroReconciliationFailed"].
Proof. do 2 eexists. split; [vm_compute; reflexivity|]. split; vm_compute; reflexivity. Qed.

(** Without a journal a trigger panics, after it gave back the lease. *)
Example trigger_without_journal_panics :
  run "a" [] 0 (triggerReconciliation true false "a") (sh idle)
    = (drop (put (held_by "a" 0 0) (sh idle)), [mkEvent false "MetroReconciliationStarted" []], true).
Proof. vm_compute. reflexivity. Qed.
End MetroLease.
