(* ===== verification/MetroService.v ===== *)
(** * Metro site failures in the service

    Models the rest of what service/service.go does about the failure of a site of
    an SRDF/Metro pair: the check of the state of a pair that requests make first
    (logMetroStateCheck, doMetroStateCheck), the two operations that are replayed
    on a recovered array (reconcileMetroPairing with setupDegradedVolumeAsMetro,
    and reconcileDeviceCleanup), and the journal of a controller that starts
    (initMetroJournal). *)

From stdpp Require Import base gmap strings list.
From Stdlib Require Import ZArith Lia Ascii.
From S2P Require Import Prelude GoLib Ordering Pmax SimArray Journal Reconcile PowerMax Metro Replication VolumeID Capacity Masking Trace SimMasking Deletion MetroLease.

Module MetroService.
Import PowerMax VolumeID Metro.
Import Journal(VolumeJournal, CrdOps, DeferredOperation, OpMetroPairing, OpDeviceCleanup).
Import Reconcile(callback_error, mkCallbackError, err_text, err_unsafe, SiteStateTracker, MetroSiteState, SiteReachable, SiteUnreachable, SiteUnknown, UpdateState, GetState).
Import MetroLease(event, mkEvent, ev_reason, ev_warning, ev_numbers).
#[local] Existing Instance Reconcile.MetroSiteState_eq_dec.
Open Scope go_scope.
Open Scope string_scope.
Open Scope Z_scope.

Definition notFound := "not found".
Definition errorNotFound := "cannot be found".
Definition ActiveActive := "ActiveActive".
Definition SyncInProgress := "SyncInProg".

(** ** The check of a pair *)

(** What a check reads and changes in the service: the caches, the tracker, the
    clients of the pairs, the events posted and the reconciliations started. *)
Record metroService := mkMetroService {
  metroStateCache : option MetroStateCache;
  siteStateTracker : SiteStateTracker;
  metroClients : metros;
  rdfGroupCache : gmap string (entry string);
  posted : list event;
  triggered : list string;
}.
Definition with_cache (c : MetroStateCache) (s : metroService) : metroService :=
  mkMetroService (Some c) (siteStateTracker s) (metroClients s) (rdfGroupCache s) (posted s) (triggered s).
Definition with_tracker (t : SiteStateTracker) (s : metroService) : metroService :=
  mkMetroService (metroStateCache s) t (metroClients s) (rdfGroupCache s) (posted s) (triggered s).
Definition with_clients (m : metros) (s : metroService) : metroService :=
  mkMetroService (metroStateCache s) (siteStateTracker s) m (rdfGroupCache s) (posted s) (triggered s).
Definition with_rdf (c : gmap string (entry string)) (s : metroService) : metroService :=
  mkMetroService (metroStateCache s) (siteStateTracker s) (metroClients s) c (posted s) (triggered s).
Definition post (e : event) (s : metroService) : metroService :=
  mkMetroService (metroStateCache s) (siteStateTracker s) (metroClients s) (rdfGroupCache s) (posted s ++ [e])%list (triggered s).
Definition trigger (a : string) (s : metroService) : metroService :=
  mkMetroService (metroStateCache s) (siteStateTracker s) (metroClients s) (rdfGroupCache s) (posted s) (triggered s ++ [a])%list.
Definition update_site (a : string) (st : MetroSiteState) (s : metroService) : metroService :=
  with_tracker (fst (UpdateState a st (siteStateTracker s))) s.
Definition set_winner (l r winner : string) (s : metroService) : metroService :=
  if decide (winner = "") then s else with_clients (SetMetroWinner l r winner (metroClients s)) s.

(** The status a failed check has for the request; other errors have none. *)
Definition check_status (err : metro_error) : option error :=
  match err with
  | ErrBothArraysUnreachable _ _ => Some (statusError Unavailable "both local and remote arrays are unreachable")
  | ErrDeviceBiasR1Failure => Some (statusError FailedPrecondition "Device Bias R1-side failure: manual R1 restoration required")
  | ErrNoMetroRDFGroup => None
  end.

(** What a failed check does, beside its status. *)
Definition check_failed (now : Z) (l r : string) (err : metro_error) (c : MetroStateCache) (s : metroService) : metroService :=
  let s := with_cache (Cache_PutError now l r (Some err) c) s in
  let s := update_site r SiteUnreachable (update_site l SiteUnreachable s) in
  match err with
  | ErrBothArraysUnreachable _ _ => post (mkEvent true "MetroBothArraysUnreachable" []) s
  | ErrDeviceBiasR1Failure => post (mkEvent true "MetroDeviceBiasR1Failure" []) s
  | ErrNoMetroRDFGroup => s
  end.

(** What a successful check does: the reconciliation it starts is a goroutine. *)
Definition check_succeeded (now : Z) (l r : string) (state : MetroState) (c : MetroStateCache) (s : metroService) : metroService :=
  let s := set_winner l r (WinnerSymID state) (with_cache (Cache_Put now l r (Some state) None c) s) in
  let s := if DeviceBiasR1Failure state then post (mkEvent true "MetroDeviceBiasR1Failure" []) s else s in
  let s := if LoserUnreachable state then post (mkEvent true "MetroSiteFailure" []) s else s in
  let s := update_site (WinnerSymID state) SiteReachable s in
  if LoserUnreachable state then update_site (LoserSymID state) SiteUnreachable s
  else
    let loserRecovered := snd (UpdateState (LoserSymID state) SiteReachable (siteStateTracker s)) in
    let s := update_site (LoserSymID state) SiteReachable s in
    if loserRecovered then trigger (LoserSymID state) s else s.

Section check.
Context {W C : Type} `{Pmax W C}.
(** The clients of single arrays, and the order in which the two queries arrive. *)
Variable GetArrayClient : string → option C.
Variable localFirst : bool.

Definition doMetroStateCheck (localSymID remoteSymID localRDFGroupNo remoteRDFGroupNo : string) (c : MetroStateCache)
    (s : metroService) : M W (option error * metroService) :=
  let remoteRDFGroupNo := if decide (remoteRDFGroupNo = "") then localRDFGroupNo else remoteRDFGroupNo in
  let* r := CheckMetroStateWithRDFGroups localFirst (GetArrayClient localSymID) (GetArrayClient remoteSymID)
    localSymID remoteSymID localRDFGroupNo remoteRDFGroupNo (rdfGroupCache s) in
  let '(checked, rdf) := r in
  let s := with_rdf rdf s in
  let* now := lift Now in
  match checked with
  | Err err => ret (check_status err, check_failed now localSymID remoteSymID err c s)
  | Ok state => ret (None, check_succeeded now localSymID remoteSymID state c s)
  end.

(** [leader]: among concurrent checks of a pair, the singleflight group runs the
    function of one caller; the others wait and keep their own [checkErr], nil. *)
Definition logMetroStateCheck (leader : bool) (localSymID remoteSymID localRDFGroupNo remoteRDFGroupNo : string)
    (s : metroService) : M W (option error * metroService) :=
  match metroStateCache s with
  | None => ret (None, s)
  | Some c =>
      if decide (localRDFGroupNo = "") then ret (None, s)
      else
        let remoteRDFGroupNo := if decide (remoteRDFGroupNo = "") then localRDFGroupNo else remoteRDFGroupNo in
        let* now := lift Now in
        match Cache_Get now localSymID remoteSymID c with
        | Some (_, Some cachedErr) => ret (check_status cachedErr, s)
        | Some (Some cachedState, None) => ret (None, set_winner localSymID remoteSymID (WinnerSymID cachedState) s)
        | Some (None, None) => ret (None, s)
        | None =>
            if leader then doMetroStateCheck localSymID remoteSymID localRDFGroupNo remoteRDFGroupNo c s
            else ret (None, s)
        end
  end.
End check.

(** ** The operations that are replayed *)

(** CreateVolumeInStorageGroupS of the client; the driver reads its error only. *)
Class DegradedClient (W C : Type) := {
  CreateVolumeInStorageGroupS : C → string → string → string → Z → W → option error * W;
}.

(** The text of an [UnsafeRDFStateError]; printable states need no escapes. *)
Definition quote : string := String (ascii_of_nat 34) "".
Definition UnsafeRDFStateError (state : string) : callback_error :=
  mkCallbackError ("SRDF pair is in an unsafe state: " ++ quote ++ state ++ quote) true.
Definition retriable (text : string) : option callback_error := Some (mkCallbackError text false).

(** [States[0]], or nothing. *)
Definition rdf_state (psg : StorageGroupRDFG) : string := match States psg with [] => "" | st :: _ => st end.
Definition healthy (st : string) : bool := bool_decide (st = ActiveActive ∨ st = Replication.ActiveBias).

Section replay.
Context {W C : Type} `{Pmax W C} `{Masking.MaskingClient W C} `{DegradedClient W C} `{Deletion.RenameClient W C}.
Variable GetPowerMaxClient : string → string → M W (result error C).
Variable QueueDeviceForDeletion : string → string → string → M W (option error).
Variable errorClass : error → Capacity.provision_error.

(** The last step of both: the state the pair has reached. *)
Definition verify_pair (c : C) (localSymID sgName rdfGroupNo unread done rest : string) : M W (option callback_error) :=
  let* verifyRDF := lift (GetStorageGroupRDFInfo c localSymID sgName rdfGroupNo) in
  match verifyRDF with
  | Err e => ret (retriable (unread ++ ": " ++ Error e))
  | Ok psg =>
      if healthy (rdf_state psg) then ret None
      else ret (retriable (done ++ " completed but SG " ++ sgName ++ " is in state " ++ quote ++ rdf_state psg ++ quote
             ++ " (expected ActiveActive/ActiveBias)" ++ rest))
  end.

(** Undo what was created; the errors are only logged. *)
Definition rollback (c : C) (remoteSymID remoteSGName devID : string) (createdRemoteSG createdRemoteVolume : bool)
    (e : option callback_error) : M W (option callback_error) :=
  let* _ := if createdRemoteVolume then lift (DeleteVolume c remoteSymID devID) else ret None in
  let* _ := if createdRemoteSG then lift (DeleteStorageGroup c remoteSymID remoteSGName) else ret None in
  ret e.

(** Steps 3 to 6: the error before the rollback. *)
Definition setup_pairing (op : DeferredOperation) (c : C) (localSymID remoteSymID sgName remoteSGName : string)
    : M W (option callback_error) :=
  let* e := Replication.establish c localSymID sgName (Journal.RDFGroupNo op) false in
  match e with
  | Some e => ret (retriable ("setupDegradedVolumeAsMetro: failed to establish RDF pair: " ++ Error e))
  | None =>
  let* e := Replication.ProtectStorageGroup c localSymID remoteSymID sgName remoteSGName "" (Journal.RDFGroupNo op)
    (Journal.ReplicationMode op) false in
  match e with
  | Some e => ret (retriable ("setupDegradedVolumeAsMetro: failed to protect local storage group: " ++ Error e))
  | None =>
  let* e := Replication.establish c localSymID sgName (Journal.RDFGroupNo op) false in
  match e with
  | Some e => ret (retriable ("setupDegradedVolumeAsMetro: failed to establish Metro relationship: " ++ Error e))
  | None => verify_pair c localSymID sgName (Journal.RDFGroupNo op)
      "setupDegradedVolumeAsMetro: post-setup GetStorageGroupRDFInfo failed" "setupDegradedVolumeAsMetro: setup" ""
  end end end.

(** Step 2: whether the remote volume was created. *)
Definition setup_volume (op : DeferredOperation) (c : C) (remoteSymID remoteSGName devID : string)
    : M W (result callback_error bool) :=
  if Journal.RequiredCylinders op <=? 0 then
    ret (Err (mkCallbackError ("setupDegradedVolumeAsMetro: missing required cylinder count for volume " ++ Journal.VolumeID op) false))
  else
    let* r := lift (GetVolumeByID c remoteSymID devID) in
    match r with
    | Ok _ => ret (Ok false)
    | Err e =>
        if negb (Contains (ToLower (Error e)) notFound) then
          ret (Err (mkCallbackError ("setupDegradedVolumeAsMetro: failed to check remote volume " ++ remoteSymID ++ "/" ++ devID
            ++ ": " ++ Error e) false))
        else
          let* e := lift (CreateVolumeInStorageGroupS c remoteSymID remoteSGName devID (Journal.RequiredCylinders op)) in
          match e with
          | Some e => ret (Err (mkCallbackError ("setupDegradedVolumeAsMetro: failed to create remote volume " ++ devID ++ " in SG "
              ++ remoteSGName ++ ": " ++ Error e) false))
          | None => ret (Ok true)
          end
    end.

(** Only a failure is undone. *)
Definition undo (c : C) (remoteSymID remoteSGName devID : string) (createdRemoteSG createdRemoteVolume : bool)
    (e : option callback_error) : M W (option callback_error) :=
  match e with
  | None => ret None
  | Some e => rollback c remoteSymID remoteSGName devID createdRemoteSG createdRemoteVolume (Some e)
  end.

Definition setupDegradedVolumeAsMetro (op : DeferredOperation) (localSymID localDevID remoteSymID sgName : string) (c : C)
    : M W (option callback_error) :=
  let remoteSGName :=
    if decide (Journal.RemoteStorageGroupName op = "")
    then Replication.CsiRepSGPrefix ++ Journal.RemoteRDFGroupNo op ++ "-" ++ Replication.Metro
    else Journal.RemoteStorageGroupName op in
  let* sg := lift (GetStorageGroup c remoteSymID remoteSGName) in
  let* created := match sg with
    | Ok _ => ret (Ok false)
    | Err _ =>
        let* e := lift (Masking.CreateStorageGroup c remoteSymID remoteSGName (Journal.RemoteSRP op) (Journal.RemoteServiceLevel op) false) in
        match e with Some e => ret (Err e) | None => ret (Ok true) end
    end in
  match created with
  | Err e => ret (retriable ("setupDegradedVolumeAsMetro: failed to create remote storage group " ++ remoteSGName ++ ": " ++ Error e))
  | Ok createdRemoteSG =>
      let undo := undo c remoteSymID remoteSGName localDevID createdRemoteSG in
      let* v := setup_volume op c remoteSymID remoteSGName localDevID in
      match v with
      | Err e => undo false (Some e)
      | Ok createdRemoteVolume =>
          let* e := setup_pairing op c localSymID remoteSymID sgName remoteSGName in
          undo createdRemoteVolume e
      end
  end.

(** What the state of the group asks for: nothing, another attempt, a hard error,
    or the establishing of the pair. *)
Inductive pairing := Paired | Transition | UnsafeState | Broken.
Definition pairing_of (st : string) : pairing :=
  if healthy st then Paired
  else if decide (st = SyncInProgress) then Transition
  else if decide (st ∈ [Replication.Split_; Replication.Invalid; "Mixed"; "Unknown"; ""]) then UnsafeState
  else Broken.

Definition reconcileMetroPairing (op : DeferredOperation) : M W (option callback_error) :=
  match parseCsiID (Journal.VolumeID op) with
  | None => panic
  | Some (Err e) => ret (retriable ("reconcileMetroPairing: parseCsiID(" ++ Journal.VolumeID op ++ "): " ++ Error e))
  | Some (Ok csi) =>
      let localSymID := arrayID csi in
      let* rc := GetPowerMaxClient localSymID (remoteSymID csi) in
      match rc with
      | Err e => ret (retriable ("reconcileMetroPairing: GetPowerMaxClient(" ++ localSymID ++ "): " ++ Error e))
      | Ok c =>
          if decide (Journal.StorageGroupName op = "" ∧ Journal.RDFGroupNo op = "") then
            ret (retriable ("reconcileMetroPairing: both StorageGroupName and RDFGroupNo are empty for volume " ++ Journal.VolumeID op))
          else
            let sgName :=
              if decide (Journal.StorageGroupName op = "")
              then Replication.CsiRepSGPrefix ++ Journal.RDFGroupNo op ++ "-" ++ Replication.Metro
              else Journal.StorageGroupName op in
            let* sgRDF := lift (GetStorageGroupRDFInfo c localSymID sgName (Journal.RDFGroupNo op)) in
            match sgRDF with
            | Err stateErr =>
                if Capacity.isConnectivityError (Some (errorClass stateErr)) then
                  ret (retriable ("reconcileMetroPairing: array unreachable, will retry: " ++ Error stateErr))
                else setupDegradedVolumeAsMetro op localSymID (devID csi) (remoteSymID csi) sgName c
            | Ok psg =>
                match pairing_of (rdf_state psg) with
                | Paired => ret None
                | Transition => ret (retriable ("reconcileMetroPairing: SRDF SG " ++ sgName ++ " is in transitional state "
                    ++ quote ++ rdf_state psg ++ quote ++ " — will retry"))
                | UnsafeState => ret (Some (UnsafeRDFStateError (rdf_state psg)))
                | Broken =>
                    let* e := Replication.establish c localSymID sgName (Journal.RDFGroupNo op) false in
                    match e with
                    | Some e => ret (retriable ("reconcileMetroPairing: Establish(" ++ sgName ++ "): " ++ Error e))
                    | None => verify_pair c localSymID sgName (Journal.RDFGroupNo op)
                        ("reconcileMetroPairing: post-Establish GetStorageGroupRDFInfo(" ++ sgName ++ ")")
                        "reconcileMetroPairing: Establish" " — will retry"
                    end
                end
            end
      end
  end.

Definition reconcileDeviceCleanup (op : DeferredOperation) : M W (option callback_error) :=
  match parseCsiID (Journal.VolumeID op) with
  | None => panic
  | Some (Err e) => ret (retriable ("reconcileDeviceCleanup: parseCsiID(" ++ Journal.VolumeID op ++ "): " ++ Error e))
  | Some (Ok csi) =>
      let '(targetSymID, targetDevID) :=
        if decide (Journal.ArrayID op = remoteSymID csi ∧ remoteVolID csi ≠ "") then (remoteSymID csi, remoteVolID csi)
        else (arrayID csi, devID csi) in
      let* rc := GetPowerMaxClient targetSymID "" in
      match rc with
      | Err e => ret (retriable ("reconcileDeviceCleanup: GetPowerMaxClient(" ++ targetSymID ++ "): " ++ Error e))
      | Ok c =>
          let* e := Deletion.deleteVolume QueueDeviceForDeletion targetSymID (volName csi) targetDevID c in
          match e with
          | None => ret None
          | Some e => if Contains (Error e) notFound || Contains (Error e) errorNotFound then ret None else ret (retriable (Error e))
          end
      end
  end.

(** The callback of triggerReconciliation. *)
Definition replay_operation (op : DeferredOperation) : M W (option callback_error) :=
  if decide (Journal.OperationType op = OpMetroPairing) then reconcileMetroPairing op
  else if decide (Journal.OperationType op = OpDeviceCleanup) then reconcileDeviceCleanup op
  else ret (retriable ("unknown deferred operation type: " ++ Journal.OperationType op)).
End replay.

(** ** The journal of a controller that starts *)
Section journal.
Context {K : Type}.
(** The backend when a client of the cluster can be made; the wait between two
    attempts, [None] when the context ends first. *)
Variable dynClient : option (CrdOps K).
Variable timeAfter : Z → K → option K.

Definition maxRetries : nat := 3.
Definition baseBackoff : Z := 2 * Second.

(** The loop of the attempts, [i] of them made: the journal, or nil and whether
    all attempts failed. *)
Fixpoint sync_loop (tries i : nat) (j : VolumeJournal K) (k : K) : option (VolumeJournal K) * K * bool :=
  match tries with
  | O => (None, k, true)
  | S tries =>
      match Journal.SyncFromCRD j k with
      | (j', None) => (Some j', k, false)
      | (_, Some _) =>
          match tries with
          | O => (None, k, true)
          | S _ =>
              match timeAfter (baseBackoff * 2 ^ Z.of_nat i) k with
              | None => (None, k, false)
              | Some k' => sync_loop tries (S i) j k'
              end
          end
      end
  end.

Definition initMetroJournal (warning limit backoff : Z) (driverName instanceUID : string) (k : K)
    : option (VolumeJournal K) * K * list event :=
  if decide (driverName = "" ∨ instanceUID = "") then (None, k, [mkEvent true "MetroOwnershipFailure" []])
  else
    match dynClient with
    | None => (None, k, [mkEvent true "MetroDurabilityFailure" []])
    | Some crd =>
        let j := Journal.SetThresholds warning limit (Journal.NewCRDVolumeJournalForOwner crd) in
        let j := if 0 <? backoff then Journal.SetReconciliationBackoff backoff j else j in
        let '(r, k, exhausted) := sync_loop maxRetries 0 j k in
        (r, k, if exhausted then [mkEvent true "MetroDurabilityFailure" [Z.of_nat maxRetries]] else [])
    end.
End journal.

(** ** Theorems: replayed pairings *)
Section pairing_facts.
Context {W C : Type} `{Pmax W C} `{Masking.MaskingClient W C} `{DegradedClient W C}.
Variable GetPowerMaxClient : string → string → M W (result error C).
Variable errorClass : error → Capacity.provision_error.

(** The group of a pairing. *)
Definition group_of (op : DeferredOperation) : string :=
  if decide (Journal.StorageGroupName op = "")
  then Replication.CsiRepSGPrefix ++ Journal.RDFGroupNo op ++ "-" ++ Replication.Metro
  else Journal.StorageGroupName op.

(** States of a pair in which nothing may be done, and in which there is nothing left to do. *)
Definition forbidden_states : list string := ["Split"; "Invalid"; "Mixed"; "Unknown"; ""].
Definition settled_states : list string := ["ActiveActive"; "ActiveBias"].

(** The last call of the run was a look at the pair that found it active. *)
Definition seen_healthy (symID sgName rdfGroupNo : string) (w' : W) : Prop :=
  ∃ (c : C) w psg, GetStorageGroupRDFInfo c symID sgName rdfGroupNo w = (Ok psg, w') ∧ rdf_state psg ∈ settled_states.
Lemma healthy_settled st : healthy st = true → st ∈ settled_states.
Proof. intros [-> | ->]%bool_decide_eq_true; set_solver. Qed.

Lemma verify_pair_healthy c symID sg no a b d w r w' :
  verify_pair c symID sg no a b d w = Some (r, w') →
  (r = None → seen_healthy symID sg no w') ∧ ∀ e, r = Some e → err_unsafe e = false.
Proof.
  intros ([psg|e] & w1 & [= E] & Hk)%mbnd_Some; [|injection Hk as <- <-; by (split; [done|intros ? [= <-]])].
  destruct (healthy (rdf_state psg)) eqn:Eh; injection Hk as <- <-; (split; [intros|by intros ? [= <-]]); [exists c, w, psg; eauto using healthy_settled|done].
Qed.

Lemma rollback_answer c sym sg dev a b e w r w' : rollback c sym sg dev a b e w = Some (r, w') → r = e.
Proof. intros (x & w1 & _ & (y & w2 & _ & Hr)%mbnd_Some)%mbnd_Some. by injection Hr as <- <-. Qed.

Lemma setup_pairing_healthy op c l rem sg rsg w r w' :
  setup_pairing op c l rem sg rsg w = Some (r, w') →
  (r = None → seen_healthy l sg (Journal.RDFGroupNo op) w') ∧ ∀ e, r = Some e → err_unsafe e = false.
Proof.
  intros ([e|] & w1 & _ & Hk)%mbnd_Some; [injection Hk as <- <-; by (split; [done|intros ? [= <-]])|].
  apply mbnd_Some in Hk as ([e|] & w2 & _ & Hk); [injection Hk as <- <-; by (split; [done|intros ? [= <-]])|].
  apply mbnd_Some in Hk as ([e|] & w3 & _ & Hk); [injection Hk as <- <-; by (split; [done|intros ? [= <-]])|].
  by apply verify_pair_healthy in Hk.
Qed.

Lemma setup_degraded_healthy op l dev rem sg c w r w' :
  setupDegradedVolumeAsMetro op l dev rem sg c w = Some (r, w') →
  (r = None → seen_healthy l sg (Journal.RDFGroupNo op) w') ∧ ∀ e, r = Some e → err_unsafe e = false.
Proof.
  intros (g & w1 & _ & ([created|e] & w2 & _ & Hk)%mbnd_Some)%mbnd_Some; [|injection Hk as <- <-; by (split; [done|intros ? [= <-]])].
  apply mbnd_Some in Hk as ([v|e] & w3 & Hv & Hk).
  - apply mbnd_Some in Hk as (e & w4 & He & Hk). apply setup_pairing_healthy in He as [H1' H2']. unfold undo in Hk.
    destruct e as [e|]; [apply rollback_answer in Hk as ->; by (split; [done|intros ? [= <-]; apply H2'])|]. injection Hk as <- <-. by split; [auto|].
  - unfold undo in Hk. apply rollback_answer in Hk as ->. split; [done|]. intros ? [= <-]. revert Hv. unfold setup_volume, mbnd, lift, ret.
    repeat case_match; intros; by simplify_eq.
Qed.

(** What a look at the pair that finds one of these states, or a pair that is being synchronized, leads to. *)
Lemma pairing_look op csi w r w' c w1 psg w2 :
  parseCsiID (Journal.VolumeID op) = Some (Ok csi) → ¬ (Journal.StorageGroupName op = "" ∧ Journal.RDFGroupNo op = "") →
  GetPowerMaxClient (arrayID csi) (remoteSymID csi) w = Some (Ok c, w1) →
  GetStorageGroupRDFInfo c (arrayID csi) (group_of op) (Journal.RDFGroupNo op) w1 = (Ok psg, w2) →
  reconcileMetroPairing GetPowerMaxClient errorClass op w = Some (r, w') →
  (rdf_state psg ∈ forbidden_states → r = Some (UnsafeRDFStateError (rdf_state psg)) ∧ w' = w2)
  ∧ (rdf_state psg ∈ settled_states → r = None ∧ w' = w2)
  ∧ (rdf_state psg = "SyncInProg" → (∃ e, r = Some e ∧ err_unsafe e = false) ∧ w' = w2).
Proof.
  intros Hcsi Hn Hc Hi. unfold reconcileMetroPairing. rewrite Hcsi. unfold mbnd at 1. rewrite Hc, decide_False by done.
  fold (group_of op). unfold mbnd at 1, lift at 1. rewrite Hi. intros Hk. split_and!.
  - unfold forbidden_states. rewrite !elem_of_cons, elem_of_nil.
    intros [E|[E|[E|[E|[E|[]]]]]]; rewrite E in Hk |- *; change (pairing_of _) with UnsafeState in Hk; by injection Hk as <- <-.
  - unfold settled_states. rewrite !elem_of_cons, elem_of_nil.
    intros [E|[E|[]]]; rewrite E in Hk; change (pairing_of _) with Paired in Hk; by injection Hk as <- <-.
  - intros E. rewrite E in Hk. change (pairing_of _) with Transition in Hk. injection Hk as <- <-. split; [by eexists|done].
Qed.

(** C9: A replayed pairing succeeds only when the last thing it did was to look at
    the pair on the local array and find it ActiveActive or ActiveBias, whether it
    re-established the pair or completed a volume that has no copy yet; and it is
    given up for good (an unsafe state) only when its single look at the pair found
    a state in which nothing may be done. When its first look finds the pair split,
    invalid, mixed, unknown or without a state, it is given up and nothing else is
    called; when it finds the pair active it is done, and when the pair is being
    synchronized it is left for another attempt, again without another call. *)
Theorem pairing_outcome_sound op csi w r w' :
  parseCsiID (Journal.VolumeID op) = Some (Ok csi) →
  reconcileMetroPairing GetPowerMaxClient errorClass op w = Some (r, w') →
  (r = None → seen_healthy (arrayID csi) (group_of op) (Journal.RDFGroupNo op) w') ∧
  (∀ e, r = Some e → err_unsafe e = true →
    ∃ c w1 psg, GetPowerMaxClient (arrayID csi) (remoteSymID csi) w = Some (Ok c, w1) ∧
      GetStorageGroupRDFInfo c (arrayID csi) (group_of op) (Journal.RDFGroupNo op) w1 = (Ok psg, w') ∧
      rdf_state psg ∈ forbidden_states ∧ err_text e = err_text (UnsafeRDFStateError (rdf_state psg))) ∧
  (∀ c w1 psg w2, ¬ (Journal.StorageGroupName op = "" ∧ Journal.RDFGroupNo op = "") →
    GetPowerMaxClient (arrayID csi) (remoteSymID csi) w = Some (Ok c, w1) →
    GetStorageGroupRDFInfo c (arrayID csi) (group_of op) (Journal.RDFGroupNo op) w1 = (Ok psg, w2) →
    (rdf_state psg ∈ forbidden_states → r = Some (UnsafeRDFStateError (rdf_state psg)) ∧ w' = w2)
    ∧ (rdf_state psg ∈ settled_states → r = None ∧ w' = w2)
    ∧ (rdf_state psg = "SyncInProg" → (∃ e, r = Some e ∧ err_unsafe e = false) ∧ w' = w2)).
Proof.
  intros Hcsi Hrun. match goal with |- ?A ∧ ?B ∧ _ => cut (A ∧ B) end.
  { intros [? ?]. split_and!; [done..|]. intros. by eapply pairing_look. }
  revert Hrun. unfold reconcileMetroPairing. rewrite Hcsi.
  intros ([c|e] & w1 & Hc & Hk)%mbnd_Some; [|injection Hk as <- <-; by (split; [done|intros ? [= <-]])].
  case_decide; [injection Hk as <- <-; by (split; [done|intros ? [= <-]])|]. fold (group_of op) in Hk.
  apply mbnd_Some in Hk as (info & w2 & Hi & Hk). injection Hi as Hi. destruct info as [psg|e].
  - unfold pairing_of in Hk. destruct (healthy (rdf_state psg)) eqn:Eh.
    { injection Hk as <- <-. split; [intros _; exists c, w1, psg; eauto using healthy_settled|done]. }
    case_decide; [injection Hk as <- <-; by (split; [done|intros ? [= <-]])|].
    case_decide as Hu.
    + injection Hk as <- <-. split; [done|]. intros ? [= <-] _. by exists c, w1, psg.
    + apply mbnd_Some in Hk as ([e|] & w3 & _ & Hk); [injection Hk as <- <-; by (split; [done|intros ? [= <-]])|].
      apply verify_pair_healthy in Hk as [H1' H2']. split; [done|]. intros e -> He. by rewrite (H2' e) in He.
  - case_match; [injection Hk as <- <-; by (split; [done|intros ? [= <-]])|].
    apply setup_degraded_healthy in Hk as [H1' H2']. split; [done|]. intros ? -> He. by rewrite (H2' _ eq_refl) in He.
Qed.
End pairing_facts.

(** ** Theorems: the check *)

(** The winner and the loser of a check are the two arrays. *)
Lemma determine_pair L R local remote st :
  determine L R local remote = Ok st →
  (WinnerSymID st = L ∧ LoserSymID st = R) ∨ (WinnerSymID st = R ∧ LoserSymID st = L).
Proof.
  unfold determine. destruct local as [a|], remote as [b|]; try done.
  - unfold arbitrate. repeat case_match; naive_solver.
  - case_match; naive_solver.
  - case_match; naive_solver.
Qed.

Section check_facts.
Context {W C : Type} `{Pmax W C}.
Variable GetArrayClient : string → option C.
Variable localFirst : bool.

Lemma checked_pair L R lno rno rdf w checked rdf' w' :
  CheckMetroStateWithRDFGroups localFirst (GetArrayClient L) (GetArrayClient R) L R lno rno rdf w = Some ((checked, rdf'), w') →
  ∀ st, checked = Ok st →
  (WinnerSymID st = L ∧ LoserSymID st = R) ∨ (WinnerSymID st = R ∧ LoserSymID st = L).
Proof.
  intros ([no cache] & w1 & _ & Hk)%mbnd_Some st ->. case_decide; [done|].
  destruct localFirst; apply mbnd_Some in Hk as (a & w2 & _ & Hk); apply mbnd_Some in Hk as (b & w3 & _ & Hk);
    injection Hk as Hd _ _; by eapply determine_pair.
Qed.

(** The state recorded by the last successful check. *)
Definition last_check (L R : string) (s : metroService) : option MetroState :=
  c ← metroStateCache s; e ← entries c !! metroStateCacheKey L R; (value_of e).1.

Lemma GetState_site a b st s :
  GetState a (siteStateTracker (update_site b st s)) = if decide (a = b) then st else GetState a (siteStateTracker s).
Proof. apply Reconcile.GetState_update. Qed.

Lemma succeeded_sites now L R st c s a :
  WinnerSymID st ≠ LoserSymID st →
  GetState a (siteStateTracker (check_succeeded now L R st c s)) =
    if decide (a = LoserSymID st) then (if LoserUnreachable st then SiteUnreachable else SiteReachable)
    else if decide (a = WinnerSymID st) then SiteReachable else GetState a (siteStateTracker s).
Proof.
  intros Hne. unfold check_succeeded. cbv zeta.
  assert (∀ e s, siteStateTracker (post e s) = siteStateTracker s) as Hpost by done.
  assert (∀ l r win s, siteStateTracker (set_winner l r win s) = siteStateTracker s) as Hwin.
  { intros. unfold set_winner. by case_decide. }
  destruct (LoserUnreachable st); [|match goal with |- context [if snd ?x then trigger _ _ else _] => destruct (snd x) end];
    unfold trigger; cbn [siteStateTracker]; rewrite GetState_site; case_decide; try done; rewrite GetState_site; case_decide; try done;
    destruct (DeviceBiasR1Failure st); rewrite ?Hpost, Hwin; done.
Qed.

Lemma succeeded_trigger now L R st c s :
  WinnerSymID st ≠ LoserSymID st →
  triggered (check_succeeded now L R st c s) =
    (triggered s ++ if negb (LoserUnreachable st) && bool_decide (GetState (LoserSymID st) (siteStateTracker s) = SiteUnreachable)
                    then [LoserSymID st] else [])%list.
Proof.
  intros Hne. unfold check_succeeded. cbv zeta.
  assert (∀ l r win s, siteStateTracker (set_winner l r win s) = siteStateTracker s ∧ triggered (set_winner l r win s) = triggered s) as Hwin.
  { intros. unfold set_winner. by case_decide. }
  set (s1 := set_winner _ _ _ _). destruct (Hwin L R (WinnerSymID st) (with_cache (Cache_Put now L R (Some st) None c) s)) as [Ht Hg].
  fold s1 in Ht, Hg. cbn [siteStateTracker triggered with_cache] in Ht, Hg.
  destruct (LoserUnreachable st); cbn [negb andb].
  - rewrite app_nil_r. destruct (DeviceBiasR1Failure st); exact Hg.
  - match goal with |- context [if snd (UpdateState _ _ (siteStateTracker (update_site _ _ ?s2))) then _ else _] => set (s2' := s2) end.
    assert (siteStateTracker s2' = siteStateTracker s ∧ triggered s2' = triggered s) as [Ht2 Hg2].
    { subst s2'. by destruct (DeviceBiasR1Failure st). }
    assert (snd (UpdateState (LoserSymID st) SiteReachable (siteStateTracker (update_site (WinnerSymID st) SiteReachable s2')))
      = bool_decide (GetState (LoserSymID st) (siteStateTracker s) = SiteUnreachable)) as ->.
    { unfold UpdateState. cbn [snd]. rewrite GetState_site, decide_False, Ht2 by congruence. by destruct (GetState _ _). }
    case_bool_decide; unfold trigger, update_site, with_tracker; cbn [triggered]; rewrite ?Hg2, ?app_nil_r; done.
Qed.

Definition site_unreachable (a : string) (s : metroService) : Prop := GetState a (siteStateTracker s) = SiteUnreachable.
Definition site_reachable (a : string) (s : metroService) : Prop := GetState a (siteStateTracker s) = SiteReachable.

Lemma succeeded_cached now L R st c s : last_check L R (check_succeeded now L R st c s) = Some st.
Proof.
  unfold last_check, check_succeeded. cbv zeta.
  assert (∀ l r win s, metroStateCache (set_winner l r win s) = metroStateCache s) as Hwin by (intros; unfold set_winner; by case_decide).
  assert (∀ s0, metroStateCache s0 = Some (Cache_Put now L R (Some st) None c) →
    (c ← metroStateCache s0; e ← entries c !! metroStateCacheKey L R; (value_of e).1) = Some st) as Hget.
  { intros s0 ->. cbn [mbind option_bind]. unfold Cache_Put. cbn [entries].
    by rewrite (lookup_insert_eq (M := gmap string)). }
  apply Hget. destruct (LoserUnreachable st), (DeviceBiasR1Failure st); try match goal with |- context [if snd ?x then trigger _ _ else _] => destruct (snd x) end;
    unfold trigger, update_site, with_tracker, post; cbn [metroStateCache]; rewrite Hwin; done.
Qed.

(** C8: When a check of a pair finds an array reachable that was unreachable, it
    starts the reconciliation of the operations deferred for that array if the array
    is the loser of the check, and does not if it is the winner. *)
Theorem recovery_reconciled_unless_winner L R lno rno c s w r s' w' a :
  L ≠ R → doMetroStateCheck GetArrayClient localFirst L R lno rno c s w = Some ((r, s'), w') →
  site_unreachable a s → site_reachable a s' →
  ∃ st started, last_check L R s' = Some st ∧ triggered s' = (triggered s ++ started)%list ∧
    ((a = LoserSymID st ∧ started = [a]) ∨ (a = WinnerSymID st ∧ a ∉ started)).
Proof.
  intros HLR ([checked rdf] & w1 & Hc & Hk)%mbnd_Some Hun Hre. apply mbnd_Some in Hk as (now & w2 & _ & Hk).
  pose proof (checked_pair _ _ _ _ _ _ _ _ _ Hc) as Hpair. destruct checked as [st|err].
  - injection Hk as <- <- <-. assert (WinnerSymID st ≠ LoserSymID st) as Hne by (destruct (Hpair st eq_refl); naive_solver).
    unfold site_unreachable, site_reachable in *.
    rewrite succeeded_sites in Hre by done. exists st. eexists. split; [apply succeeded_cached|].
    rewrite succeeded_trigger by done. split; [reflexivity|].
    change (siteStateTracker (with_rdf rdf s)) with (siteStateTracker s) in *.
    destruct (decide (a = LoserSymID st)) as [->|Hl].
    + left. split; [done|]. destruct (LoserUnreachable st); [done|]. by rewrite bool_decide_true.
    + destruct (decide (a = WinnerSymID st)) as [->|Hw]; [|congruence]. right. split; [done|].
      destruct (_ && _); [by intros ?%list_elem_of_singleton|apply not_elem_of_nil].
  - injection Hk as <- <- <-. exfalso. unfold site_unreachable, site_reachable, check_failed in *.
    destruct err; unfold post in Hre; cbn [siteStateTracker] in Hre; rewrite !GetState_site in Hre;
      repeat case_decide; try done; change (siteStateTracker (with_cache _ _)) with (siteStateTracker s) in Hre; congruence.
Qed.
End check_facts.

(** ** Theorems: degraded volumes and the journal *)
Section degraded.
Context {W C : Type} `{Pmax W C} `{Masking.MaskingClient W C} `{DegradedClient W C}.
Variables (c : C) (localSymID remoteSymID sgName rdfGroupNo : string).
(** The local group is in no pair: its RDF information cannot be read, and no call
    on the remote array changes that. *)
Variable unpaired : W → Prop.
Hypothesis unpaired_read : ∀ w, unpaired w → ∃ e w', GetStorageGroupRDFInfo c localSymID sgName rdfGroupNo w = (Err e, w').
Hypothesis unpaired_group : ∀ w sg, unpaired w → unpaired (GetStorageGroup c remoteSymID sg w).2.
Hypothesis unpaired_create : ∀ w sg srp sl t, unpaired w → unpaired (Masking.CreateStorageGroup c remoteSymID sg srp sl t w).2.
Hypothesis unpaired_volume : ∀ w dev, unpaired w → unpaired (GetVolumeByID c remoteSymID dev w).2.
Hypothesis unpaired_device : ∀ w sg dev n, unpaired w → unpaired (CreateVolumeInStorageGroupS c remoteSymID sg dev n w).2.

Lemma rollback_total sym sg dev a b e w : ∃ w', rollback c sym sg dev a b e w = Some (e, w').
Proof. unfold rollback, mbnd, lift, ret. repeat case_match; simplify_eq; eauto. Qed.

Lemma setup_pairing_fails op rsg w :
  Journal.RDFGroupNo op = rdfGroupNo → unpaired w →
  ∃ e w', setup_pairing op c localSymID remoteSymID sgName rsg w = Some (Some e, w').
Proof.
  intros <- Hw. destruct (unpaired_read w Hw) as (e & w' & E).
  unfold setup_pairing, Replication.establish, Replication.guarded, Replication.validateRDFState, mbnd, lift. rewrite E.
  cbv beta iota. unfold ret. eauto.
Qed.
Lemma setup_volume_unpaired op rsg dev w :
  unpaired w → ∃ v w', setup_volume op c remoteSymID rsg dev w = Some (v, w') ∧ unpaired w'.
Proof.
  intros Hw. unfold setup_volume, mbnd, lift, ret. case_match; [eauto|].
  destruct (GetVolumeByID c remoteSymID dev w) as [[v|e] w1] eqn:E; pose proof (unpaired_volume w dev Hw) as Hw1; rewrite E in Hw1; [eauto|].
  destruct (negb _); [eauto|].
  destruct (CreateVolumeInStorageGroupS c remoteSymID rsg dev (Journal.RequiredCylinders op) w1) as [[e'|] w2] eqn:E2;
    pose proof (unpaired_device w1 rsg dev (Journal.RequiredCylinders op) Hw1) as Hw2; rewrite E2 in Hw2; eauto.
Qed.

(** The third step of the setup of a degraded volume establishes the pair, which
    reads the RDF information that the missing of started the setup; the fourth step
    would create it. So the setup fails every time, and undoes what it created. *)
Lemma degraded_setup_never_succeeds op dev w :
  Journal.RDFGroupNo op = rdfGroupNo → unpaired w →
  ∃ e w', setupDegradedVolumeAsMetro op localSymID dev remoteSymID sgName c w = Some (Some e, w').
Proof.
  intros Hno Hw. unfold setupDegradedVolumeAsMetro. set (rsg := if decide _ then _ else _).
  unfold mbnd at 1, lift at 1. destruct (GetStorageGroup c remoteSymID rsg w) as [sg w1] eqn:E1.
  pose proof (unpaired_group w rsg Hw) as Hw1. rewrite E1 in Hw1. cbn [snd] in Hw1.
  assert (∃ r w2, (match sg with
    | Ok _ => ret (Ok false)
    | Err _ => let* e := lift (Masking.CreateStorageGroup c remoteSymID rsg (Journal.RemoteSRP op) (Journal.RemoteServiceLevel op) false) in
        match e with Some e => ret (Err e) | None => ret (Ok true) end
    end : M W (result error bool)) w1 = Some (r, w2) ∧ unpaired w2) as (r & w2 & E2 & Hw2).
  { destruct sg; [by eexists _, _|]. unfold mbnd, lift, ret.
    destruct (Masking.CreateStorageGroup c remoteSymID rsg _ _ _ w1) as [[e'|] w2] eqn:E2;
      pose proof (unpaired_create w1 rsg (Journal.RemoteSRP op) (Journal.RemoteServiceLevel op) false Hw1) as Hw2; rewrite E2 in Hw2; eauto. }
  unfold mbnd at 1. rewrite E2. destruct r as [created|e]; [|by do 2 eexists].
  destruct (setup_volume_unpaired op rsg dev w2 Hw2) as (v & w3 & E3 & Hw3). unfold mbnd at 1. rewrite E3. destruct v as [v|e].
  - destruct (setup_pairing_fails op rsg w3 Hno Hw3) as (e & w4 & E4). unfold mbnd at 1. rewrite E4. unfold undo.
    destruct (rollback_total remoteSymID rsg dev created v (Some e) w4) as [w5 ->]. eauto.
  - unfold undo. destruct (rollback_total remoteSymID rsg dev created false (Some e) w3) as [w5 ->]. eauto.
Qed.
End degraded.

(** A journal that comes out of the initialisation holds what the cluster lists at
    that moment; without one an event is posted unless the start was cancelled. *)
Lemma sync_loop_spec {K} (timeAfter : Z → K → option K) crd tries i (j : VolumeJournal K) k r k' b :
  Journal.crd j = Some crd → sync_loop timeAfter tries i j k = (r, k', b) →
  match r with
  | Some j' => Journal.crdList crd "" k' = Ok (Journal.operations j') ∧ b = false
  | None => b = true ∨ ∃ d k1, timeAfter d k1 = None
  end.
Proof.
  intros Hcrd. revert i k. induction tries as [|tries IH]; intros i k; simpl; [intros [= <- <- <-]; by left|].
  unfold Journal.SyncFromCRD. rewrite Hcrd. destruct (Journal.crdList crd "" k) as [ops|e] eqn:E.
  - by intros [= <- <- <-].
  - destruct tries as [|tries']; [intros [= <- <- <-]; by left|].
    destruct (timeAfter _ k) as [k1|] eqn:Et; [apply IH|]. intros [= <- <- <-]. right. eauto.
Qed.
Lemma journal_started_synced {K} dynClient timeAfter warning limit backoff driver uid (k : K) r k' es :
  initMetroJournal dynClient timeAfter warning limit backoff driver uid k = (r, k', es) →
  match r with
  | Some j => ∃ crd, dynClient = Some crd ∧ Journal.crdList crd "" k' = Ok (Journal.operations j) ∧ driver ≠ "" ∧ uid ≠ "" ∧ es = []
  | None => es ≠ [] ∨ ∃ d k1, timeAfter d k1 = None
  end.
Proof.
  unfold initMetroJournal. case_decide as Ho; [intros [= <- <- <-]; by left|]. destruct dynClient as [crd|]; [|intros [= <- <- <-]; by left].
  set (j := if 0 <? backoff then _ else _). destruct (sync_loop timeAfter maxRetries 0 j k) as [[r0 k0] b] eqn:E.
  intros [= <- <- <-]. apply (sync_loop_spec timeAfter crd) in E.
  - destruct r0 as [j'|]; [|destruct E as [->|?]; auto]. destruct E as [E ->]. exists crd. split_and!; naive_solver.
  - unfold j. by case_match.
Qed.

(** ** Concrete runs *)
#[local] Existing Instance SimArray.sim_pmax.
Definition sim_array : SimArray.Sim := SimArray.sim [] (mkStorageGroupRDFG ["R1"] ["ActiveActive"]).
Definition both_clients (a : string) : option string := Some a.
Definition pair_group (polarity : string) : RDFGroup := mkRDFGroup 1 2 "remote" 1 false polarity true true false false.

(** A service that has seen the site [a] fail. *)
Definition after_failure (a : string) : metroService :=
  mkMetroService (Some (NewMetroStateCache 0)) {[a := SiteUnreachable]} no_metros ∅ [] [].
Definition check_again (a : string) : option (option error * metroService * SimArray.Sim) :=
  doMetroStateCheck both_clients true "local" "remote" "1" "2" (NewMetroStateCache 0) (after_failure a) sim_array.

Definition checked_service (a : string) : metroService :=
  match check_again a with Some (_, s, _) => s | None => after_failure a end.

Lemma recovery_reconciled_unless_winner_witness :
  site_reachable "remote" (checked_service "remote") ∧
  ∃ st started, last_check "local" "remote" (checked_service "remote") = Some st
    ∧ triggered (checked_service "remote") = ([] ++ started)%list
    ∧ (("remote" = LoserSymID st ∧ started = ["remote"]) ∨ ("remote" = WinnerSymID st ∧ "remote" ∉ started)).
Proof.
  split; [vm_compute; reflexivity|].
  refine (recovery_reconciled_unless_winner (W := SimArray.Sim) both_clients true "local" "remote" "1" "2" (NewMetroStateCache 0)
    (after_failure "remote") sim_array None (checked_service "remote") sim_array "remote" _ _ _ _).
  - discriminate.
  - vm_compute. reflexivity.
  - vm_compute. reflexivity.
  - vm_compute. reflexivity.
Defined.

(** The array that recovers first in every check, the local one, is the winner when
    both answer: what was deferred for it is not replayed. *)
Example local_recovery_not_reconciled :
  GetState "local" (siteStateTracker (checked_service "local")) = SiteReachable ∧ triggered (checked_service "local") = [].
Proof. vm_compute. done. Qed.

(** Both arrays fail: the caller that runs the check is refused, the callers that
    wait for it are let through. *)
Example waiting_caller_let_through :
  let s := mkMetroService (Some (NewMetroStateCache 0)) ∅ no_metros ∅ [] [] in
  let check leader := logMetroStateCheck (W := SimArray.Sim) (C := string) (λ _, None) true leader "local" "remote" "1" "" s sim_array in
  option_map (λ x, x.1.1) (check true) = Some (Some (statusError Unavailable "both local and remote arrays are unreachable"))
  ∧ option_map (λ x, x.1.1) (check false) = Some None.
Proof. split; vm_compute; reflexivity. Qed.

#[local] Existing Instance SimMasking.sim_masking.
#[local] Instance sim_degraded : DegradedClient SimArray.Sim string := {
  CreateVolumeInStorageGroupS _ _ sg _ _ w := (None, SimArray.log ("create volume in " ++ sg) w);
}.
Definition metro_id := "csi-ABC-pmax-0123456789-ns-000120000548:000120000549-011AB:022AB".
Definition pairing_op : DeferredOperation :=
  Journal.mkOp "t1" OpMetroPairing metro_id "000120000549" "1" "csi-rep-sg-ns-1-METRO" "" 0 0 "" "2" "" "SRP_1" "Gold" 0 547 "pvc-1" "ns" "METRO"
    "000120000548" "csi-powermax" "uid" "".
Definition one_client (_ _ : string) : M SimArray.Sim (result error string) := ret (Ok "c").
Lemma pairing_outcome_sound_witness :
  seen_healthy (C := string) "000120000548" "csi-rep-sg-ns-1-METRO" "1" sim_array.
Proof.
  refine (proj1 (pairing_outcome_sound (W := SimArray.Sim) one_client Capacity.plain_error pairing_op
    (mkCsiID "csi-ABC-pmax-0123456789-ns" "000120000548" "011AB" "000120000549" "022AB") sim_array None sim_array _ _) eq_refl).
  - vm_compute. reflexivity.
  - vm_compute. reflexivity.
Defined.
(** A suspended pair is established; its state is still in transition, so the
    operation stays in the journal. *)
Example suspended_pair_retried :
  option_map (λ x, (err_unsafe <$> x.1, SimArray.sim_log x.2))
    (reconcileMetroPairing one_client Capacity.plain_error pairing_op (SimArray.sim [] (mkStorageGroupRDFG ["R1"] ["Suspended"])))
  = Some (Some false, ["Establish"]).
Proof. vm_compute. reflexivity. Qed.
Example split_pair_given_up :
  option_map (λ x, (err_unsafe <$> x.1, SimArray.sim_log x.2))
    (reconcileMetroPairing one_client Capacity.plain_error pairing_op (SimArray.sim [] (mkStorageGroupRDFG ["R1"] ["Split"])))
  = Some (Some true, []).
Proof. vm_compute. reflexivity. Qed.
End MetroService.
