(* ===== verification/NodeMount.v ===== *)
(** * Mounts of a node

    Models service/mount.go and service/fscheck.go: publishing a device at a target
    path through a private mount, taking it away again, and the check of a file
    system before it is mounted. The operating system (package os, path/filepath and
    the mounts of gofsutil) is the class [NodeOS] over a world; [filepath.Clean] and
    the paths of pods are functions. *)

From stdpp Require Import base gmap strings list.
From Stdlib Require Import ZArith Lia Ascii.
From S2P Require Import Prelude GoLib Ordering Pmax PowerMax Masking Trace StorageGroups Handler Files.

Module NodeMount.
Import StorageGroups(AccessMode, UNKNOWN, SINGLE_NODE_WRITER, SINGLE_NODE_READER_ONLY, MULTI_NODE_READER_ONLY, MULTI_NODE_SINGLE_WRITER, MULTI_NODE_MULTI_WRITER, SINGLE_NODE_SINGLE_WRITER, SINGLE_NODE_MULTI_WRITER, OTHER_MODE).
#[local] Existing Instance StorageGroups.AccessMode_eq_dec.
Open Scope go_scope.
Open Scope handler_scope.
Open Scope string_scope.
Open Scope Z_scope.

(** ** The operating system *)

(** gofsutil.Info *)
Record Info := mkInfo {
  Info_Device : string;
  Info_Path : string;
  Info_Source : string;
  Info_Opts : list string;
}.
#[export] Instance Info_eq_dec : EqDecision Info.
Proof. solve_decision. Defined.

(** An error of package os: what [os.IsNotExist] says of it. *)
Record os_error := mkOsError { os_text : string; IsNotExist : bool }.
Record file_mode := mkMode { IsDir : bool; IsDevice : bool }.

(** A checker of gofsutil: none for the device, or what its run finds; a failed run
    may have sent an event of a timeout to the observer. *)
Inductive fs_check := NoChecker (e : error) | Checked | CheckFailed (sawTimeout : bool) (e : error).

Record PVC := mkPVC { PVC_Name : string; PVC_Namespace : string; PVC_Labels : gmap string string }.

Class NodeOS (W : Type) := {
  (** The name of the file. *)
  Lstat : string → W → result os_error string * W;
  EvalSymlinks : string → W → result error string * W;
  Stat : string → W → result os_error file_mode * W;
  Mkdir : string → W → option error * W;
  CreateFile : string → W → option error * W;
  Remove : string → W → option os_error * W;
  os_MkdirAll : string → W → option error * W;
  SleepFor : Z → W → unit * W;
  GetMounts : W → result error (list Info) * W;
  (** Source, target, file system and flags. *)
  Mount : string → string → string → list string → W → option error * W;
  FormatAndMount : string → string → string → list string → W → option error * W;
  BindMount : string → string → list string → W → option error * W;
  Unmount : string → W → option error * W;
  GetDiskFormat : string → W → result error string * W;
  (** Device, file system, and whether to repair. *)
  FSCheck : string → string → bool → W → fs_check * W;
  GetPVCForVolume : string → string → W → result error (option PVC) * W;
}.

(** ** Paths *)

(** One component of a path onto the components before it, the last first. *)
Definition clean_step (rooted : bool) (acc : list string) (comp : string) : list string :=
  if decide (comp = "" ∨ comp = ".") then acc
  else if decide (comp = "..") then
    match acc with
    | [] => if rooted then [] else [".."]
    | top :: rest => if decide (top = "..") then ".." :: acc else rest
    end
  else comp :: acc.
(** [filepath.Clean] on Unix; [filepath.ToSlash] changes nothing there. *)
Definition Clean (path : string) : string :=
  let rooted := HasPrefix path "/" in
  let body := Join "/" (rev (fold_left (clean_step rooted) (Split "/" path) [])) in
  let p := (if rooted then "/" else "") ++ body in
  if decide (p = "") then "." else p.

Definition getPrivateMountPoint (privDir name : string) : string := privDir ++ "/" ++ name.

(** The part of a path from a directory on, or nothing. *)
Definition path_suffix (marker path : string) : string :=
  let cleanPath := Clean path in
  let idx := Index cleanPath marker in
  if 0 <=? idx then sdrop (Z.to_nat idx) cleanPath else "".
Definition podMountPathSuffix : string → string := path_suffix "/pods/".
Definition privateMountPathSuffix : string → string := path_suffix "/plugins/".

(** The same place, directly, below /noderoot, or below another kubelet root. *)
Definition mount_variant (suffix : string → string) (path tgt : string) : bool :=
  let cleanPath := Clean path in
  let cleanTgt := Clean tgt in
  if decide (cleanPath = cleanTgt ∨ cleanPath = Clean ("/noderoot" ++ cleanTgt)) then true
  else
    let tgtSuffix := suffix cleanTgt in
    if decide (tgtSuffix = "") then false
    else let pathSuffix := suffix cleanPath in bool_decide (pathSuffix ≠ "") && bool_decide (pathSuffix = tgtSuffix).
Definition isPrivateMountVariant (path privTgt : string) : bool := mount_variant privateMountPathSuffix path privTgt.
Definition isRequestedTargetMountVariant (path target : string) : bool := mount_variant podMountPathSuffix path target.

Definition contains (l : list string) (item : string) : bool := existsb (λ x, bool_decide (x = item)) l.

(** ** Capabilities *)
Inductive access_type := BlockVolume | MountVolume (FsType : string) (MountFlags : list string) | NoAccessType.
Record VolumeCapability := mkCapability { GetAccessMode : option AccessMode; access : access_type }.

Definition FsType (t : access_type) : string := match t with MountVolume fs _ => fs | _ => "" end.
Definition MountFlags (t : access_type) : list string := match t with MountVolume _ flags => flags | _ => [] end.

(** isBlock, the access mode and multiAccessFlag. *)
Definition validateVolumeCapability (volCap : VolumeCapability) : result error (bool * AccessMode * string) :=
  match GetAccessMode volCap with
  | None => Err (statusError InvalidArgument "Volume Access Mode is required")
  | Some accMode =>
      match access volCap with
      | BlockVolume =>
          match accMode with
          | UNKNOWN => Err (statusError InvalidArgument "Unknown Access Mode")
          | MULTI_NODE_READER_ONLY => Ok (true, accMode, "ro")
          | MULTI_NODE_MULTI_WRITER => Ok (true, accMode, "rw")
          | _ => Ok (true, accMode, "")
          end
      | MountVolume _ _ =>
          match accMode with
          | UNKNOWN => Err (statusError InvalidArgument "Unknown Access Mode")
          | MULTI_NODE_READER_ONLY => Ok (false, accMode, "ro")
          | MULTI_NODE_MULTI_WRITER =>
              Err (statusError AlreadyExists "Mount volumes do not support AccessMode MULTI_NODE_MULTI_WRITER")
          | _ => Ok (false, accMode, "")
          end
      | NoAccessType => Err (statusError InvalidArgument "Volume Access Type is required")
      end
  end.

Definition singleAccessMode (accMode : AccessMode) : bool :=
  match accMode with
  | SINGLE_NODE_WRITER | SINGLE_NODE_SINGLE_WRITER | SINGLE_NODE_MULTI_WRITER | SINGLE_NODE_READER_ONLY => true
  | _ => false
  end.

(** ** Devices and files *)
Record Device := mkDevice { FullPath : string; Name : string; RealDev : string }.

Section node.
Context {W : Type} `{NodeOS W}.

(** The mode of a device that cannot be read is that of a nil pointer: a panic. *)
Definition GetDevice (path : string) : M W (result error Device) :=
  let* fi := lift (Lstat path) in
  match fi with
  | Err e => ret (Err (errorString (os_text e)))
  | Ok name =>
      let* d := lift (EvalSymlinks path) in
      match d with
      | Err e => ret (Err e)
      | Ok d =>
          let* ds := lift (Stat d) in
          match ds with
          | Err _ => panic
          | Ok dm =>
              if negb (IsDevice dm) then ret (Err (errorString (path ++ " is not a block device")))
              else ret (Ok (mkDevice path name d))
          end
      end
  end.

(** Whether the file was created. *)
Definition mkfile (path : string) : M W (result error bool) :=
  let* st := lift (Stat path) in
  match st with
  | Err e =>
      if IsNotExist e then
        let* c := lift (CreateFile path) in
        match c with Some _ => ret (Err (errorString (os_text e))) | None => ret (Ok true) end
      else ret (Err (errorString (os_text e)))
  | Ok st => if IsDir st then ret (Err (errorString "existing path is a directory")) else ret (Ok false)
  end.

Definition mkdir (path : string) : M W (result error bool) :=
  let* st := lift (Stat path) in
  match st with
  | Err e =>
      if IsNotExist e then
        let* c := lift (Mkdir path) in
        match c with Some _ => ret (Err (errorString (os_text e))) | None => ret (Ok true) end
      else ret (Err (errorString (os_text e)))
  | Ok st => if negb (IsDir st) then ret (Err (errorString "existing path is not a directory")) else ret (Ok false)
  end.

Definition removeWithRetrySleepTime : Z := 2 * Second.

(** The error of the last of [n] attempts. *)
Fixpoint remove_loop (n : nat) (target : string) (last : option error) : M W (option error) :=
  match n with
  | O => ret last
  | S n =>
      let* e := lift (Remove target) in
      match e with
      | Some e =>
          if IsNotExist e then ret None
          else let* _ := lift (SleepFor removeWithRetrySleepTime) in remove_loop n target (Some (errorString (os_text e)))
      | None => ret None
      end
  end.
Definition removeWithRetry (target : string) : M W (option error) := remove_loop 3 target None.

Definition evalSymlinks (path : string) : M W string :=
  let* d := lift (EvalSymlinks path) in ret (match d with Ok d => d | Err _ => path end).

Definition createTarget (target : string) (isBlock : bool) : M W (option error) :=
  let* r := if isBlock then mkfile target else mkdir target in
  match r with
  | Err e => ret (Some (statusError FailedPrecondition ("Could not create " ++ target ++ ": " ++ Error e)))
  | Ok _ => ret None
  end.

(** ** Mounts *)
Definition on_device (sysDevice : Device) (m : Info) : bool :=
  bool_decide (Info_Device m = RealDev sysDevice) || bool_decide (Info_Device m = FullPath sysDevice)
  || (bool_decide (Info_Device m = "devtmpfs") && bool_decide (Info_Source m = RealDev sysDevice)).
Definition getDevMounts (sysDevice : Device) : M W (result error (list Info)) :=
  let? mnts := lift GetMounts in ok (List.filter (on_device sysDevice) mnts).
Definition getPathMounts (path : string) : M W (result error (list Info)) :=
  let? mnts := lift GetMounts in ok (List.filter (λ m, bool_decide (Info_Path m = path)) mnts).

Definition cleanupPrivateTarget (privTgt : string) : M W unit :=
  let* _ := lift (Unmount privTgt) in let* _ := removeWithRetry privTgt in ret tt.

(** The loop over the mounts of the device: an answer, or none. *)
Fixpoint block_mounted (target : string) (singleAccess : bool) (mnts : list Info) : option (option error) :=
  match mnts with
  | [] => None
  | mnt :: mnts =>
      if decide (Info_Path mnt = target) then Some None
      else if singleAccess then Some (Some (statusError InvalidArgument "Access mode conflicts with existing mounts"))
      else block_mounted target singleAccess mnts
  end.

Definition mountBlock (device : Device) (target : string) (mntFlags : list string) (singleAccess : bool) : M W (option error) :=
  let* mnts := getDevMounts device in
  match mnts with
  | Err _ => ret (Some (statusError Internal ("Could not getDevMounts for: " ++ RealDev device)))
  | Ok mnts =>
      match block_mounted target singleAccess mnts with
      | Some answer => ret answer
      | None =>
          let* e := createTarget target true in
          match e with
          | Some e => ret (Some (statusError FailedPrecondition ("Could not create " ++ target ++ ": " ++ Error e)))
          | None =>
              let* e := lift (BindMount (RealDev device) target mntFlags) in
              ret ((λ _, statusError Internal ("error bind mounting to target path: " ++ target)) <$> e)
          end
      end
  end.

Definition private_mount_error (e : error) : error := statusError Internal ("error performing private mount: " ++ Error e).
Definition handlePrivFSMount (accMode : AccessMode) (sysDevice : Device) (mntFlags : list string) (fs privTgt : string)
    : M W (option error) :=
  match accMode with
  | SINGLE_NODE_READER_ONLY =>
      let* e := lift (Mount (FullPath sysDevice) privTgt fs (mntFlags ++ ["ro"])%list) in ret (private_mount_error <$> e)
  | SINGLE_NODE_WRITER | SINGLE_NODE_SINGLE_WRITER | SINGLE_NODE_MULTI_WRITER =>
      let* e := lift (FormatAndMount (FullPath sysDevice) privTgt fs mntFlags) in ret (private_mount_error <$> e)
  | _ => ret (Some (statusError Internal "Invalid access mode"))
  end.

(** ** The check of a file system *)

(** [None]: fsCfg is nil. [hasK8s]: there are helpers for Kubernetes. *)
Record fsCheckConfig := mkFsCheckConfig { enabled : bool; mode : string; hasK8s : bool }.
Definition PVCLabelFSCheckEnabled := "csi.dell.com/fs_check_enabled".
Definition PVCLabelFSCheckMode := "csi.dell.com/fs_check_mode".

Definition isAccessModeReadOnlyOrMulti (accMode : AccessMode) : bool :=
  match accMode with
  | SINGLE_NODE_READER_ONLY | MULTI_NODE_READER_ONLY | MULTI_NODE_SINGLE_WRITER | MULTI_NODE_MULTI_WRITER => true
  | _ => false
  end.
Definition isSupportedFSType (fsType : string) : bool := bool_decide (fsType ∈ ["ext4"; "ext3"; "ext2"; "xfs"]).

(** The last place among the components of a path, after the second, where the
    expression matches; [.*] is greedy. *)
Definition pv_here (comps : list string) : option string :=
  match comps with
  | "pods" :: uid :: "volumes" :: "kubernetes.io~csi" :: pv :: mount :: _ =>
      if bool_decide (uid ≠ "") && bool_decide (pv ≠ "") && HasPrefix mount "mount" then Some pv else None
  | _ => None
  end.
Fixpoint last_pv (comps : list string) : option string :=
  match comps with
  | [] => None
  | _ :: rest => match last_pv rest with Some pv => Some pv | None => pv_here comps end
  end.
(** On paths without line ends. *)
Definition parsePVNameFromTargetPath (targetPath : string) : string :=
  default "" (last_pv (drop 2 (Split "/" targetPath))).

(** What the labels of the claim make of the settings. *)
Definition apply_labels (labels : gmap string string) (enabled : bool) (mode : string) : bool * string :=
  let enabled := match ToLower <$> labels !! PVCLabelFSCheckEnabled with
    | Some "true" => true | Some "false" => false | _ => enabled end in
  let mode := if enabled then match ToLower <$> labels !! PVCLabelFSCheckMode with
    | Some "checkonly" => "checkOnly" | Some "checkandrepair" => "checkAndRepair" | _ => mode end else mode in
  (enabled, mode).
Definition resolvePVCOverrides (fsCfg : fsCheckConfig) (volumeID targetPath : string) : M W (bool * string) :=
  let pvName := parsePVNameFromTargetPath targetPath in
  if decide (pvName = "") then ret (enabled fsCfg, mode fsCfg)
  else if negb (hasK8s fsCfg) then ret (enabled fsCfg, mode fsCfg)
  else
    let* pvc := lift (GetPVCForVolume pvName volumeID) in
    match pvc with
    | Ok (Some pvc) => ret (apply_labels (PVC_Labels pvc) (enabled fsCfg) (mode fsCfg))
    | _ => ret (enabled fsCfg, mode fsCfg)
    end.

Definition performFSCheck (sysDevice : Device) (fsCfg : option fsCheckConfig) (accMode : AccessMode) (volumeID targetPath : string)
    : M W (option error) :=
  match fsCfg with
  | None => ret None
  | Some fsCfg =>
      if isAccessModeReadOnlyOrMulti accMode then ret None
      else
        let* existingFs := lift (GetDiskFormat (FullPath sysDevice)) in
        match existingFs with
        | Err _ => ret None
        | Ok existingFs =>
            if decide (existingFs = "") then ret None
            else if negb (isSupportedFSType existingFs) then ret None
            else
              let* devMnts := getDevMounts sysDevice in
              match devMnts with
              | Err _ | Ok (_ :: _) => ret None
              | Ok [] =>
                  let* settings := resolvePVCOverrides fsCfg volumeID targetPath in
                  let '(enabled, mode) := settings in
                  if negb enabled then ret None
                  else
                    let* r := lift (FSCheck (FullPath sysDevice) existingFs (bool_decide (mode = "checkAndRepair"))) in
                    match r with
                    | NoChecker e => ret (Some (errorString ("failed to create FS checker for " ++ FullPath sysDevice
                        ++ " (" ++ existingFs ++ "): " ++ Error e)))
                    | Checked => ret None
                    | CheckFailed true _ => ret (Some (statusError Aborted ("File system check timed out on device "
                        ++ FullPath sysDevice ++ " (" ++ existingFs ++ "). The operation will be retried.")))
                    | CheckFailed false e => ret (Some (statusError Internal ("File system check failed on device "
                        ++ FullPath sysDevice ++ " (volume ID: " ++ volumeID ++ ", fs: " ++ existingFs ++ "): " ++ Error e
                        ++ ". Manual intervention required. Do not attempt to mount this volume until the file system has been repaired.")))
                    end
              end
        end
  end.

(** ** Publishing *)
Record NodePublishRequest := mkNodePublish {
  pub_VolumeId : string;
  pub_TargetPath : string;
  pub_Readonly : bool;
  pub_Capability : option VolumeCapability;
}.

Definition mount_status_error (e : error) : error :=
  statusError Internal ("could not reliably determine existing mount status: " ++ Error e).

(** The mounts over an existing private target: whether the device is mounted there. *)
Fixpoint scan_private (sysDevice : Device) (privTgt : string) (mnts : list Info) (alreadyMounted : bool)
    : M W (result error bool) :=
  match mnts with
  | [] => ok alreadyMounted
  | m :: mnts =>
      if decide (Info_Path m = privTgt) then
        let* resolvedMountDevice := evalSymlinks (Info_Device m) in
        if decide (resolvedMountDevice ≠ RealDev sysDevice) then
          let* st := lift (Stat resolvedMountDevice) in
          match st with
          | Err e =>
              if IsNotExist e then
                let* _ := lift (Unmount privTgt) in scan_private sysDevice privTgt mnts alreadyMounted
              else fail (statusError FailedPrecondition ("Private mount point: " ++ privTgt ++ " mounted by different device: " ++ resolvedMountDevice))
          | Ok _ => fail (statusError FailedPrecondition ("Private mount point: " ++ privTgt ++ " mounted by different device: " ++ resolvedMountDevice))
          end
        else scan_private sysDevice privTgt mnts true
      else scan_private sysDevice privTgt mnts alreadyMounted
  end.

Definition fs_flags (t : access_type) : list string :=
  if decide (FsType t = "xfs") then (MountFlags t ++ ["nouuid"])%list else MountFlags t.

(** The private mount of a device that is not mounted. *)
Definition mount_private (id target privTgt : string) (sysDevice : Device) (fsCfg : option fsCheckConfig) (accMode : AccessMode)
    (t : access_type) : M W (result error unit) :=
  let? created := mkdir privTgt orelse (λ e, statusError Internal ("Unable to create private mount point: " ++ Error e)) in
  let? alreadyMounted :=
    if (created : bool) then ok false
    else
      let? mnts := lift GetMounts orelse mount_status_error in
      match mnts with
      | [] => fail (statusError Unavailable ("volume " ++ id ++ " not published to node"))
      | _ => scan_private sysDevice privTgt mnts false
      end in
  if (alreadyMounted : bool) then ok tt
  else
    let* e := performFSCheck sysDevice fsCfg accMode id target in
    match e with
    | Some e => let* _ := cleanupPrivateTarget privTgt in fail e
    | None =>
        let* e := handlePrivFSMount accMode sysDevice (fs_flags t) (FsType t) privTgt in
        match e with
        | Some e => let* _ := cleanupPrivateTarget privTgt in fail e
        | None => ok tt
        end
    end.

(** The options a mount must have: read-only, or what the access mode asks. *)
Definition wanted_option (ro : bool) (multiAccessFlag : string) : string := if ro then "ro" else multiAccessFlag.

(** The mounts of a device that is mounted: whether they serve the request. *)
Fixpoint check_private (target privTgt rwo : string) (mnts : list Info) (mounted : bool) : result error bool :=
  match mnts with
  | [] => Ok mounted
  | m :: mnts =>
      let mounted := if decide (Info_Path m = target) then true else mounted in
      if decide (Info_Path m = privTgt) then
        if bool_decide (rwo = "") || contains (Info_Opts m) rwo then Ok true
        else Err (statusError InvalidArgument "access mode conflicts with existing mounts")
      else check_private target privTgt rwo mnts mounted
  end.

(** The first mount over the target decides. *)
Definition check_target (sysDevice : Device) (privTgt rwo : string) (m : Info) : option error :=
  if decide (Info_Device m = RealDev sysDevice ∨ Info_Device m = FullPath sysDevice ∨ Info_Source m = privTgt) then
    if bool_decide (rwo ≠ "") && negb (contains (Info_Opts m) rwo)
    then Some (statusError Internal "volume previously published with different mount options")
    else None
  else Some (statusError AlreadyExists "target already has a conflicting mount").

(** The bind mount of the private mount at the target. *)
Definition bind_target (target privTgt : string) (isBlock ro : bool) (accMode : AccessMode) (t : access_type) : M W (result error unit) :=
  let* e := createTarget target isBlock in
  match e with
  | Some e =>
      let* _ := cleanupPrivateTarget privTgt in
      fail (statusError FailedPrecondition ("Could not create " ++ target ++ ": " ++ Error e))
  | None =>
      let mntFlags := if ro || bool_decide (accMode = SINGLE_NODE_READER_ONLY) then (fs_flags t ++ ["ro"])%list else fs_flags t in
      let* e := lift (BindMount privTgt target mntFlags) in
      match e with
      | Some e =>
          let* _ := cleanupPrivateTarget privTgt in
          fail (statusError Internal ("error publish volume to target path: " ++ Error e))
      | None => ok tt
      end
  end.

(** Publishing a file system, once its target and the private directory exist. *)
Definition publish_mount (id target privTgt : string) (ro : bool) (sysDevice : Device) (fsCfg : option fsCheckConfig)
    (accMode : AccessMode) (multiAccessFlag : string) (t : access_type) : M W (result error unit) :=
  let rwo := wanted_option ro multiAccessFlag in
  let? devMnts := getDevMounts sysDevice orelse mount_status_error in
  let? _ := match devMnts with
    | [] => mount_private id target privTgt sysDevice fsCfg accMode t
    | _ =>
        match check_private target privTgt rwo devMnts false with
        | Err e => fail e
        | Ok mounted => if (mounted : bool) then ok tt else fail (statusError Internal "device already in use and mounted elsewhere")
        end
    end in
  let? targetMnts := getPathMounts target orelse mount_status_error in
  match targetMnts with
  | m :: _ => match check_target sysDevice privTgt rwo m with Some e => fail e | None => ok tt end
  | [] => bind_target target privTgt false ro accMode t
  end.

Definition publishVolume (req : NodePublishRequest) (privDir device : string) (fsCfg : option fsCheckConfig) : M W (result error unit) :=
  let id := pub_VolumeId req in
  let target := pub_TargetPath req in
  if decide (target = "") then fail (statusError InvalidArgument "Target Path is required")
  else
    match pub_Capability req with
    | None => fail (statusError InvalidArgument "Volume Capability is required")
    | Some volCap =>
        let? sysDevice := GetDevice device
          orelse (λ e, statusError Internal ("error getting block device for volume: " ++ id ++ ", err: " ++ Error e)) in
        match validateVolumeCapability volCap with
        | Err e => fail e
        | Ok (isBlock, accMode, multiAccessFlag) =>
            let privTgt := getPrivateMountPoint privDir id in
            let* e := createTarget target isBlock in
            match e with
            | Some e =>
                let* _ := cleanupPrivateTarget privTgt in
                fail (statusError FailedPrecondition ("Could not create " ++ target ++ ": " ++ Error e))
            | None =>
                let? _ := mkdir privDir in
                if (isBlock : bool) then
                  let* e := mountBlock sysDevice target (MountFlags (access volCap)) (singleAccessMode accMode) in
                  match e with Some e => fail e | None => ok tt end
                else publish_mount id target privTgt (pub_Readonly req) sysDevice fsCfg accMode multiAccessFlag (access volCap)
            end
        end
    end.

(** ** Unpublishing *)

(** A mount of another place than the private target. *)
Definition is_other (target : string) (m : Info) : bool :=
  bool_decide (Info_Path m ≠ "") && negb (isPrivateMountVariant (Info_Path m) target).
Definition set_path (p : string) (m : Info) : Info := mkInfo (Info_Device m) p (Info_Source m) (Info_Opts m).

(** One pass over the variants of the private mount: the mounts, with the paths of
    the unmounted ones emptied, and whether the two paths that matter are gone; or
    the error of the last pass. *)
Fixpoint unmount_pass (lastRetry : bool) (target : string) (mnts : list Info) : M W (result error (list Info * bool)) :=
  match mnts with
  | [] => ok ([], true)
  | m :: mnts =>
      if bool_decide (Info_Path m ≠ "") && isPrivateMountVariant (Info_Path m) target then
        let* e := lift (Unmount (Info_Path m)) in
        match e with
        | None => let? r := unmount_pass lastRetry target mnts in ok (set_path "" m :: r.1, r.2)
        | Some e =>
            if decide (Info_Path m = target ∨ Info_Path m = Clean ("/noderoot/" ++ target)) then
              if lastRetry then fail e
              else let? r := unmount_pass lastRetry target mnts in ok (m :: r.1, false)
            else let? r := unmount_pass lastRetry target mnts in ok (m :: r.1, r.2)
        end
      else let? r := unmount_pass lastRetry target mnts in ok (m :: r.1, r.2)
  end.

Definition backoff0 : Z := 50 * 1000000.
(** The passes; a mount table that cannot be read again counts as empty. *)
Fixpoint unmount_loop (retries : nat) (backoff : Z) (dev : Device) (target : string) (mnts : list Info) : M W (result error (list Info)) :=
  match retries with
  | O => ok mnts
  | S retries =>
      if existsb (is_other target) mnts then ok mnts
      else
        let lastRetry := match retries with O => true | _ => false end in
        let? r := unmount_pass lastRetry target mnts in
        let '(mnts, allUnmounted) := r in
        if (allUnmounted || lastRetry) then ok mnts
        else
          let* _ := lift (SleepFor backoff) in
          let* fresh := getDevMounts dev in
          let mnts := match fresh with Ok mnts => mnts | Err _ => [] end in
          unmount_loop retries (if backoff <? 800 * 1000000 then backoff * 2 else backoff) dev target mnts
  end.

Definition unmountPrivMount (dev : Device) (target : string) : M W (result error bool) :=
  let? mnts := getDevMounts dev in
  match mnts with
  | [] => let* _ := removeWithRetry target in ok true
  | _ =>
      let? mnts :=
        if existsb (is_other target) mnts then ok mnts
        else
          let? mnts := unmount_loop 10 backoff0 dev target mnts in
          let* _ := removeWithRetry target in ok mnts in
      ok (forallb (λ m, bool_decide (Info_Path m = "")) mnts)
  end.

Record NodeUnpublishRequest := mkNodeUnpublish { unpub_VolumeId : string; unpub_TargetPath : string }.

Definition of_device (sysDevice : Device) (m : Info) : bool :=
  bool_decide (Info_Source m = RealDev sysDevice) || bool_decide (Info_Device m = RealDev sysDevice)
  || bool_decide (Info_Device m = FullPath sysDevice).
(** The targets to unmount and whether there is a private mount. *)
Definition target_mounts (sysDevice : Device) (privTgt target : string) (mnts : list Info) : list string :=
  Info_Path <$> List.filter (λ m, of_device sysDevice m && negb (isPrivateMountVariant (Info_Path m) privTgt)
    && isRequestedTargetMountVariant (Info_Path m) target) mnts.
Definition has_private (sysDevice : Device) (privTgt : string) (mnts : list Info) : bool :=
  existsb (λ m, of_device sysDevice m && isPrivateMountVariant (Info_Path m) privTgt) mnts.

Fixpoint unmount_all (paths : list string) : M W (result error unit) :=
  match paths with
  | [] => ok tt
  | t :: paths =>
      let* e := lift (Unmount t) in
      match e with
      | Some e => fail (statusError Internal ("Error unmounting target: " ++ Error e))
      | None => unmount_all paths
      end
  end.

(** lastUnmounted. *)
Definition unpublishVolume (req : NodeUnpublishRequest) (privDir device : string) : M W (result error bool) :=
  let target := unpub_TargetPath req in
  if decide (target = "") then fail (statusError InvalidArgument "target path required")
  else
    let* d := GetDevice device in
    match d with
    | Err _ => ok true
    | Ok sysDevice =>
        let privTgt := getPrivateMountPoint privDir (unpub_VolumeId req) in
        let? mnts := lift GetMounts orelse mount_status_error in
        let? _ := unmount_all (target_mounts sysDevice privTgt target mnts) in
        if has_private sysDevice privTgt mnts then
          let? last := unmountPrivMount sysDevice privTgt
            orelse (λ e, statusError Internal ("Error unmounting private mount: " ++ Error e)) in
          ok last
        else
          let* mnts := getDevMounts sysDevice in
          match mnts with Ok [] => ok true | _ => ok false end
    end.
End node.

(** ** Theorems: what a request may touch *)

(** The calls that change something. *)
Inductive change :=
| ChMkdir (path : string) | ChFile (path : string) | ChRemove (path : string) | ChMkdirAll (path : string)
| ChMount (source target fs : string) (flags : list string)
| ChFormat (source target fs : string) (flags : list string)
| ChBind (source target : string) (flags : list string)
| ChUnmount (path : string)
| ChCheck (device fs : string) (repair : bool).

Section frame.
Context {W : Type} `{NodeOS W}.

Definition after (c : change) (w : W) : W :=
  match c with
  | ChMkdir p => (Mkdir p w).2
  | ChFile p => (CreateFile p w).2
  | ChRemove p => (Remove p w).2
  | ChMkdirAll p => (os_MkdirAll p w).2
  | ChMount a b f l => (Mount a b f l w).2
  | ChFormat a b f l => (FormatAndMount a b f l w).2
  | ChBind a b l => (BindMount a b l w).2
  | ChUnmount p => (Unmount p w).2
  | ChCheck d f r => (FSCheck d f r w).2
  end.

(** A property of the node that reading does not change, and the allowed changes
    do not either. *)
Record framed (I : W → Prop) (allowed : change → Prop) : Prop := mkFramed {
  fr_lstat p w : I w → I (Lstat p w).2;
  fr_eval p w : I w → I (EvalSymlinks p w).2;
  fr_stat p w : I w → I (Stat p w).2;
  fr_sleep d w : I w → I (SleepFor d w).2;
  fr_mounts w : I w → I (GetMounts w).2;
  fr_format d w : I w → I (GetDiskFormat d w).2;
  fr_pvc a b w : I w → I (GetPVCForVolume a b w).2;
  fr_change c w : allowed c → I w → I (after c w);
}.

Definition keeps {A} (I : W → Prop) (m : M W A) : Prop := ∀ w a w', m w = Some (a, w') → I w → I w'.
Lemma keeps_ret {A} I (a : A) : keeps I (ret a).
Proof. by intros w x w' [= _ <-]. Qed.
Lemma keeps_panic {A} I : keeps I (panic : M W A).
Proof. by intros w x w'. Qed.
Lemma keeps_bind {A B} I (m : M W A) (k : A → M W B) : keeps I m → (∀ a, keeps I (k a)) → keeps I (mbnd m k).
Proof. intros Hm Hk w b w' (a & w1 & H1 & H2)%mbnd_Some HI. eapply Hk; [exact H2|]. by eapply Hm. Qed.
Lemma keeps_try {A B} I (m : M W (result error A)) h (k : A → M W (result error B)) :
  keeps I m → (∀ a, keeps I (k a)) → keeps I (try m h k).
Proof. intros Hm Hk. apply keeps_bind; [done|]. intros [a|e]; [apply Hk|apply keeps_ret]. Qed.
Lemma keeps_try_post {A B} I (m : M W (result error A)) h (k : A → M W (result error B)) (Q : A → Prop) :
  keeps I m → (∀ w a w', m w = Some (Ok a, w') → Q a) → (∀ a, Q a → keeps I (k a)) → keeps I (try m h k).
Proof.
  intros Hm HQ Hk w b w' ([a|e] & w1 & H1 & H2)%mbnd_Some HI; [|by injection H2 as _ <-; eapply Hm].
  eapply Hk; [by eapply HQ|exact H2|]. by eapply Hm.
Qed.
Lemma keeps_lift {A} I (f : W → A * W) : (∀ w, I w → I (f w).2) → keeps I (lift f).
Proof. intros Hf w a w' [= E] HI. specialize (Hf w HI). by rewrite E in Hf. Qed.
End frame.

(** Steps through a computation; the changes are left. *)
Ltac keep_step :=
  match goal with
  | |- keeps _ (ret _) => apply keeps_ret
  | |- keeps _ (ok _) => apply keeps_ret
  | |- keeps _ (fail _) => apply keeps_ret
  | |- keeps _ panic => apply keeps_panic
  | |- keeps _ (try _ _ _) => apply keeps_try; [|intros ?]
  | |- keeps _ (mbnd _ _) => apply keeps_bind; [|intros ?]
  | Hf : framed ?I _ |- keeps ?I (lift _) => apply keeps_lift; intros ?;
      first [apply (fr_lstat _ _ Hf) | apply (fr_eval _ _ Hf) | apply (fr_stat _ _ Hf) | apply (fr_sleep _ _ Hf)
            | apply (fr_mounts _ _ Hf) | apply (fr_format _ _ Hf) | apply (fr_pvc _ _ Hf)]
  | |- keeps _ (let '(_, _) := ?x in _) => destruct x eqn:?
  | |- keeps _ (match ?x with _ => _ end) => destruct x eqn:?
  end.
Ltac keep := repeat (keep_step; cbn beta iota zeta).
Ltac change_step Hf c := apply keeps_lift; intros ?; apply (fr_change _ _ Hf c).

Section confined.
Context {W : Type} `{NodeOS W}.

Lemma mkdir_keeps I P p : framed I P → P (ChMkdir p) → keeps I (mkdir p).
Proof. intros Hf Hp. unfold mkdir. keep. by change_step Hf (ChMkdir p). Qed.
Lemma mkfile_keeps I P p : framed I P → P (ChFile p) → keeps I (mkfile p).
Proof. intros Hf Hp. unfold mkfile. keep. by change_step Hf (ChFile p). Qed.
Lemma createTarget_keeps I P p b : framed I P → P (ChMkdir p) → P (ChFile p) → keeps I (createTarget p b).
Proof. intros Hf H1 H2. unfold createTarget. keep; [by eapply mkfile_keeps|by eapply mkdir_keeps]. Qed.
Lemma remove_keeps I P p : framed I P → P (ChRemove p) → keeps I (removeWithRetry p).
Proof.
  intros Hf Hp. unfold removeWithRetry. generalize (@None error). generalize 3%nat as n.
  induction n as [|n IH]; intros last; simpl; [apply keeps_ret|]. keep; [by change_step Hf (ChRemove p)|apply IH].
Qed.
Lemma cleanup_keeps I P p : framed I P → P (ChUnmount p) → P (ChRemove p) → keeps I (cleanupPrivateTarget p).
Proof.
  intros Hf H1 H2. unfold cleanupPrivateTarget. keep; [by change_step Hf (ChUnmount p)|]. by eapply remove_keeps.
Qed.
Lemma GetDevice_keeps I P p : framed I P → keeps I (GetDevice p).
Proof. intros Hf. unfold GetDevice. keep. Qed.
Lemma devMounts_keeps I P d : framed I P → keeps I (getDevMounts d).
Proof. intros Hf. unfold getDevMounts. keep. Qed.
Lemma pathMounts_keeps I P d : framed I P → keeps I (getPathMounts d).
Proof. intros Hf. unfold getPathMounts. keep. Qed.

(** The writers of a single node. *)
Definition writer (am : AccessMode) : bool :=
  match am with SINGLE_NODE_WRITER | SINGLE_NODE_SINGLE_WRITER | SINGLE_NODE_MULTI_WRITER => true | _ => false end.
(** A mode without a name in the interface: its file system is checked, then it is refused. *)
Definition unnamed (am : AccessMode) : Prop := match am with OTHER_MODE _ => True | _ => False end.

(** What the publication of [device] as the volume [id] at [target] may change. *)
Definition publishing (id target privDir device : string) (volCap : VolumeCapability) (c : change) : Prop :=
  let privTgt := getPrivateMountPoint privDir id in
  match c with
  | ChMkdir p => p = target ∨ p = privDir ∨ p = privTgt
  | ChFile p => p = target
  | ChRemove p | ChUnmount p => p = privTgt
  | ChMount src tgt _ flags => src = device ∧ tgt = privTgt ∧ "ro" ∈ flags
  | ChFormat src tgt fs _ => src = device ∧ tgt = privTgt ∧ fs = FsType (access volCap)
      ∧ ∃ am, GetAccessMode volCap = Some am ∧ writer am = true
  | ChBind src tgt _ => tgt = target ∧ (src = privTgt ∨ access volCap = BlockVolume)
  | ChCheck d _ _ => d = device ∧ ∃ am, GetAccessMode volCap = Some am ∧ (writer am = true ∨ unnamed am)
  | ChMkdirAll _ => False
  end.

Lemma validate_spec volCap isBlock am flag :
  validateVolumeCapability volCap = Ok (isBlock, am, flag) →
  GetAccessMode volCap = Some am ∧ am ≠ UNKNOWN ∧ (isBlock = true → access volCap = BlockVolume).
Proof.
  unfold validateVolumeCapability. destruct (GetAccessMode volCap) as [m|]; [|done].
  destruct (access volCap); [destruct m|destruct m|]; naive_solver.
Qed.
Lemma GetDevice_path p w d w' : GetDevice p w = Some (Ok d, w') → FullPath d = p.
Proof.
  unfold GetDevice, mbnd, lift, ret, panic. intros Heq. repeat case_match; simplify_eq; done.
Qed.

Lemma fscheck_keeps I P d cfg am vid tgt :
  framed I P → (writer am = true ∨ unnamed am → ∀ f r, P (ChCheck (FullPath d) f r)) → am ≠ UNKNOWN → keeps I (performFSCheck d cfg am vid tgt).
Proof.
  intros Hf HP Hun. unfold performFSCheck. destruct cfg as [cfg|]; [|apply keeps_ret].
  destruct (isAccessModeReadOnlyOrMulti am) eqn:Er; [apply keeps_ret|].
  assert (writer am = true ∨ unnamed am) as Hw by (destruct am; first [done|by left|by right]).
  keep; [by eapply devMounts_keeps|unfold resolvePVCOverrides; keep|].
  match goal with |- keeps _ (lift (FSCheck ?a ?b ?r)) => change_step Hf (ChCheck a b r) end. auto.
Qed.

Section publishing.
Variables (I : W → Prop) (id target privDir device : string) (volCap : VolumeCapability).
Hypothesis Hf : framed I (publishing id target privDir device volCap).
Let privTgt := getPrivateMountPoint privDir id.

Lemma scan_private_keeps d mnts b : keeps I (scan_private d privTgt mnts b).
Proof.
  revert b. induction mnts as [|m mnts IH]; intros b; simpl; [apply keeps_ret|]. unfold evalSymlinks.
  keep; try apply IH. by change_step Hf (ChUnmount privTgt).
Qed.

Lemma mount_private_keeps d cfg am :
  FullPath d = device → GetAccessMode volCap = Some am → am ≠ UNKNOWN →
  keeps I (mount_private id target privTgt d cfg am (access volCap)).
Proof.
  intros Hd Ham Hun. unfold mount_private. keep.
  - eapply mkdir_keeps; [exact Hf|]. simpl. auto.
  - apply scan_private_keeps.
  - eapply fscheck_keeps; [exact Hf| |done]. simpl. rewrite Hd. eauto.
  - eapply cleanup_keeps; [exact Hf|done..].
  - unfold handlePrivFSMount. keep; try (change_step Hf (ChFormat (FullPath d) privTgt (FsType (access volCap)) (fs_flags (access volCap))); simpl; rewrite Hd; by eauto 10).
    change_step Hf (ChMount (FullPath d) privTgt (FsType (access volCap)) (fs_flags (access volCap) ++ ["ro"])%list).
    simpl. rewrite Hd. split_and!; [done..|]. set_solver.
  - eapply cleanup_keeps; [exact Hf|done..].
Qed.

Lemma publish_mount_keeps ro d cfg am flag :
  FullPath d = device → GetAccessMode volCap = Some am → am ≠ UNKNOWN →
  keeps I (publish_mount id target privTgt ro d cfg am flag (access volCap)).
Proof.
  intros Hd Ham Hun. unfold publish_mount, bind_target. keep.
  - by eapply devMounts_keeps.
  - by apply mount_private_keeps.
  - by eapply pathMounts_keeps.
  - eapply createTarget_keeps; [exact Hf|simpl; auto..].
  - eapply cleanup_keeps; [exact Hf|done..].
  - match goal with |- keeps _ (lift (BindMount _ _ ?fl)) => change_step Hf (ChBind privTgt target fl) end. simpl. auto.
  - eapply cleanup_keeps; [exact Hf|done..].
Qed.

Lemma mountBlock_keeps d flags single : access volCap = BlockVolume → keeps I (mountBlock d target flags single).
Proof.
  intros Hb. unfold mountBlock. keep.
  - by eapply devMounts_keeps.
  - eapply createTarget_keeps; [exact Hf|simpl; auto..].
  - change_step Hf (ChBind (RealDev d) target flags). simpl. auto.
Qed.
End publishing.

Lemma publishVolume_keeps I req privDir device cfg volCap :
  pub_Capability req = Some volCap → framed I (publishing (pub_VolumeId req) (pub_TargetPath req) privDir device volCap) →
  keeps I (publishVolume req privDir device cfg).
Proof.
  intros Hcap Hf. unfold publishVolume. rewrite Hcap. case_decide; [apply keeps_ret|].
  apply (keeps_try_post _ _ _ _ (λ d, FullPath d = device)); [by eapply GetDevice_keeps|apply GetDevice_path|].
  intros d Hd. destruct (validateVolumeCapability volCap) as [[[isBlock am] flag]|] eqn:Ev; [|apply keeps_ret].
  apply validate_spec in Ev as (Ham & Hun & Hb). keep.
  - eapply createTarget_keeps; [exact Hf|simpl; auto..].
  - eapply cleanup_keeps; [exact Hf|done..].
  - eapply mkdir_keeps; [exact Hf|simpl; auto].
  - eapply mountBlock_keeps; [exact Hf|auto].
  - by apply publish_mount_keeps with device.
Qed.

(** What taking the volume [id] away from [target] may change. *)
Definition unpublishing (id target privDir : string) (c : change) : Prop :=
  let privTgt := getPrivateMountPoint privDir id in
  match c with
  | ChUnmount p => isPrivateMountVariant p privTgt = true ∨ isRequestedTargetMountVariant p target = true
  | ChRemove p => p = privTgt
  | _ => False
  end.

Section unpublishing.
Variables (I : W → Prop) (id target privDir : string).
Hypothesis Hf : framed I (unpublishing id target privDir).
Let privTgt := getPrivateMountPoint privDir id.

Lemma unmount_pass_keeps b mnts : keeps I (unmount_pass b privTgt mnts).
Proof.
  induction mnts as [|m mnts IH]; simpl; [apply keeps_ret|].
  destruct (bool_decide (Info_Path m ≠ "") && isPrivateMountVariant (Info_Path m) privTgt) eqn:Ev; keep; try apply IH.
  apply andb_prop in Ev as [_ Ev]. change_step Hf (ChUnmount (Info_Path m)). simpl. auto.
Qed.
Lemma unmount_loop_keeps n b d mnts : keeps I (unmount_loop n b d privTgt mnts).
Proof.
  revert b mnts. induction n as [|n IH]; intros b mnts; simpl; [apply keeps_ret|].
  destruct (existsb _ mnts); [apply keeps_ret|]. apply keeps_try; [apply unmount_pass_keeps|]. intros [mnts' all].
  destruct (all || _); [apply keeps_ret|]. keep; [by eapply devMounts_keeps|apply IH].
Qed.
Lemma unmountPrivMount_keeps d : keeps I (unmountPrivMount d privTgt).
Proof.
  unfold unmountPrivMount. keep; try (by eapply devMounts_keeps); try (by eapply remove_keeps).
  apply unmount_loop_keeps.
Qed.
Lemma unmount_all_keeps paths :
  Forall (λ p, isRequestedTargetMountVariant p target = true) paths → keeps I (unmount_all paths).
Proof.
  induction 1 as [|p paths Hp _ IH]; simpl; [apply keeps_ret|]. keep; [|apply IH].
  change_step Hf (ChUnmount p). simpl. auto.
Qed.
End unpublishing.

Lemma target_mounts_variants d privTgt target mnts :
  Forall (λ p, isRequestedTargetMountVariant p target = true) (target_mounts d privTgt target mnts).
Proof.
  unfold target_mounts. apply Forall_fmap, List.Forall_forall. intros m [_ [_ Hm]%andb_prop]%filter_In. exact Hm.
Qed.

Lemma unpublishVolume_keeps I req privDir device :
  framed I (unpublishing (unpub_VolumeId req) (unpub_TargetPath req) privDir) → keeps I (unpublishVolume req privDir device).
Proof.
  intros Hf. unfold unpublishVolume. keep; try (by eapply GetDevice_keeps); try (by eapply devMounts_keeps).
  - eapply unmount_all_keeps; [exact Hf|apply target_mounts_variants].
  - by apply (unmountPrivMount_keeps _ _ _ _ Hf).
Qed.


(** While another pod uses the device, its private mount stays: nothing is changed. *)
Lemma private_mount_kept dev privTgt mnts w w' :
  GetMounts w = (Ok mnts, w') → existsb (is_other privTgt) (List.filter (on_device dev) mnts) = true →
  ∃ last, unmountPrivMount dev privTgt w = Some (Ok last, w').
Proof.
  intros E Hother. unfold unmountPrivMount, getDevMounts, try, mbnd, lift, ok, ret. rewrite E.
  destruct (List.filter (on_device dev) mnts) as [|m l]; [done|]. rewrite Hother. eauto.
Qed.
End confined.

(** ** Theorems: publishing twice, and there and back *)
Definition at_path (p : string) (m : Info) : bool := bool_decide (Info_Path m = p).
(** The table without the uppermost mount at [p]. *)
Fixpoint remove_last (p : string) (l : list Info) : list Info :=
  match l with
  | [] => []
  | m :: l => if existsb (at_path p) l then m :: remove_last p l else if at_path p m then l else m :: l
  end.

Section table_laws.
Context {W : Type} `{NodeOS W}.
Variables (dev : Device) (device : string).

(** A node whose mount table and files behave: looking changes nothing, a new
    directory or file is there, and a mount is added at the end of the table. The
    table knows the device [dev] by one of its two paths; a bind mount of a
    directory shows the device that is mounted there, one of a device file shows
    devtmpfs. *)
Record node_laws := {
  files : W → string → result os_error file_mode;
  table : W → list Info;
  law_device w : GetDevice device w = Some (Ok dev, w);
  law_stat w p : Stat p w = (files w p, w);
  law_table w : GetMounts w = (Ok (table w), w);
  law_quiet w w' : (∃ p, w' = (EvalSymlinks p w).2) ∨ (∃ d, w' = (GetDiskFormat d w).2) ∨ (∃ a b, w' = (GetPVCForVolume a b w).2)
    ∨ (∃ d f r, w' = (FSCheck d f r w).2) ∨ (∃ d, w' = (SleepFor d w).2) ∨ (∃ p, w' = (Lstat p w).2) → files w' = files w ∧ table w' = table w;
  law_names w m w' : m ∈ table w → (EvalSymlinks (Info_Device m) w').1 = Ok (RealDev dev) → on_device dev m = true;
  law_mkdir w p w' : Mkdir p w = (None, w') →
    table w' = table w ∧ files w' p = Ok (mkMode true false) ∧ ∀ q, q ≠ p → files w' q = files w q;
  law_create w p w' : CreateFile p w = (None, w') →
    table w' = table w ∧ files w' p = Ok (mkMode false false) ∧ ∀ q, q ≠ p → files w' q = files w q;
  law_remove w p : table (Remove p w).2 = table w;
  law_mount w src tgt fs flags w' : Mount src tgt fs flags w = (None, w') ∨ FormatAndMount src tgt fs flags w = (None, w') →
    files w' = files w ∧ ∃ m, table w' = (table w ++ [m])%list ∧ Info_Path m = tgt
      ∧ (src = FullPath dev → Info_Device m = FullPath dev ∨ Info_Device m = RealDev dev);
  law_bind w src tgt flags w' : BindMount src tgt flags w = (None, w') →
    files w' = files w ∧ ∃ m, table w' = (table w ++ [m])%list ∧ Info_Path m = tgt ∧ Info_Source m = src
      ∧ (src ≠ RealDev dev → ∀ l m0, List.filter (at_path src) (table w) = (l ++ [m0])%list → Info_Device m = Info_Device m0)
      ∧ (src = RealDev dev → Info_Device m = "devtmpfs");
  law_unmount w p e w' : Unmount p w = (e, w') →
    files w' = files w ∧ table w' = match e with None => remove_last p (table w) | Some _ => table w end;
}.
Variable L : node_laws.

Lemma quiet_eval p w : files L (EvalSymlinks p w).2 = files L w ∧ table L (EvalSymlinks p w).2 = table L w.
Proof. apply (law_quiet L). eauto. Qed.

Lemma filter_dev_mounts w : getDevMounts dev w = Some (Ok (List.filter (on_device dev) (table L w)), w).
Proof. unfold getDevMounts, try, mbnd, lift. by rewrite (law_table L). Qed.
Lemma filter_path_mounts p w : getPathMounts p w = Some (Ok (List.filter (at_path p) (table L w)), w).
Proof. unfold getPathMounts, try, mbnd, lift. by rewrite (law_table L). Qed.

(** A file or directory that is there is not made again. *)
Definition is_there (isBlock : bool) (p : string) (w : W) : Prop := ∃ md, files L w p = Ok md ∧ IsDir md = negb isBlock.
Lemma createTarget_there b p w : is_there b p w → createTarget p b w = Some (None, w).
Proof.
  intros (md & Hf & Hd). unfold createTarget, mkfile, mkdir, mbnd, lift, ret.
  destruct b; rewrite (law_stat L), Hf; simpl in Hd; by rewrite Hd.
Qed.
Lemma createTarget_makes b p w w' :
  createTarget p b w = Some (None, w') → table L w' = table L w ∧ is_there b p w' ∧ ∀ q, q ≠ p → files L w' q = files L w q.
Proof.
  intros (r & w1 & Hr & Hk)%mbnd_Some. assert (is_ok r = true ∧ w' = w1) as [Hok ->] by (destruct r; [by injection Hk as <-|done]).
  clear Hk. destruct b; [unfold mkfile in Hr|unfold mkdir in Hr]; apply mbnd_Some in Hr as (st & w2 & Hst & Hr);
    injection Hst as Hst; rewrite (law_stat L) in Hst; injection Hst as <- <-;
    destruct (files L w p) as [md|e] eqn:Hf.
  - destruct (IsDir md) eqn:Hd; injection Hr as <- <-; [done|]. split_and!; try done. by exists md.
  - destruct (IsNotExist e); [|by injection Hr as <- <-]. apply mbnd_Some in Hr as (c & w3 & Hc & Hr). injection Hc as Hc.
    destruct c; injection Hr as <- <-; [done|]. destruct (law_create L _ _ _ Hc) as (Ht & Hn & Ho). split_and!; try done. by eexists.
  - destruct (IsDir md) eqn:Hd; injection Hr as <- <-; [|done]. split_and!; try done. by exists md.
  - destruct (IsNotExist e); [|by injection Hr as <- <-]. apply mbnd_Some in Hr as (c & w3 & Hc & Hr). injection Hc as Hc.
    destruct c; injection Hr as <- <-; [done|]. destruct (law_mkdir L _ _ _ Hc) as (Ht & Hn & Ho). split_and!; try done. by eexists.
Qed.
Lemma mkdir_target p w b w' : mkdir p w = Some (Ok b, w') → createTarget p false w = Some (None, w').
Proof. intros E. unfold createTarget, mbnd. by rewrite E. Qed.
Lemma mkdir_there p w : is_there false p w → mkdir p w = Some (Ok false, w).
Proof. intros (md & Hf & Hd). unfold mkdir, mbnd, lift, ret. rewrite (law_stat L), Hf. simpl in Hd. by rewrite Hd. Qed.

(** The calls that look, and the check of a file system, change neither table nor files. *)
Lemma quiet_framed f t :
  framed (λ w, files L w = f ∧ table L w = t) (λ c, match c with ChCheck _ _ _ => True | _ => False end).
Proof.
  assert (∀ w w', (files L w' = files L w ∧ table L w' = table L w) → files L w = f ∧ table L w = t → files L w' = f ∧ table L w' = t)
    as Hgo by (intros w w' [-> ->]; done).
  constructor; intros; try (eapply Hgo; [|eassumption]; apply (law_quiet L); by eauto 10).
  - by rewrite (law_stat L).
  - by rewrite (law_table L).
  - destruct c; try done. eapply Hgo; [|eassumption]. apply (law_quiet L). eauto 10.
Qed.

Lemma check_private_any target privTgt l b :
  check_private target privTgt "" l b = Ok (b || existsb (λ m, at_path target m || at_path privTgt m) l).
Proof.
  revert b. induction l as [|m l IH]; intros b; simpl; [by rewrite orb_false_r|]. unfold at_path in *.
  destruct (decide (Info_Path m = privTgt)) as [Hp|Hp].
  - rewrite (bool_decide_true (Info_Path m = privTgt)) by done. by rewrite orb_true_r, orb_true_r.
  - rewrite (bool_decide_false (Info_Path m = privTgt)), orb_false_r by done. rewrite IH.
    destruct (decide (Info_Path m = target)); [by rewrite bool_decide_true, orb_true_r|by rewrite bool_decide_false].
Qed.

Lemma remove_last_filter f p l : List.filter f l = [] → List.filter f (remove_last p l) = [].
Proof.
  induction l as [|m l IH]; simpl; [done|]. destruct (f m) eqn:Ef; [done|]. intros Hl.
  destruct (existsb (at_path p) l); [simpl; rewrite Ef; auto|]. destruct (at_path p m); [done|]. simpl. by rewrite Ef.
Qed.
Lemma remove_last_none p l : existsb (at_path p) l = false → remove_last p l = l.
Proof. destruct l as [|m l]; [done|]. simpl. intros [-> ->]%orb_false_elim. done. Qed.
Lemma remove_last_end p l m x : at_path p m = true → existsb (at_path p) x = false → remove_last p (l ++ m :: x)%list = (l ++ x)%list.
Proof.
  intros Hm Hx. induction l as [|y l IH]; simpl; [by rewrite Hx, Hm|].
  assert (existsb (at_path p) (l ++ m :: x) = true) as ->; [|by rewrite IH].
  rewrite existsb_app. simpl. rewrite Hm. by rewrite orb_true_r.
Qed.

Lemma eval_device m w0 w : m ∈ table L w0 →
  ∃ r w', evalSymlinks (Info_Device m) w = Some (r, w') ∧ files L w' = files L w ∧ table L w' = table L w
    ∧ (r = RealDev dev → on_device dev m = true).
Proof.
  intros Hm. unfold evalSymlinks, mbnd, lift, ret. destruct (quiet_eval (Info_Device m) w) as [Hf Ht].
  destruct (EvalSymlinks (Info_Device m) w) as [[r|e] w'] eqn:E; cbn [snd] in *; do 2 eexists; (split; [reflexivity|]); split_and!; try done.
  - intros ->. apply (law_names L w0 m w Hm). by rewrite E.
  - intros Hr. unfold on_device. by rewrite Hr, bool_decide_true.
Qed.

(** A device that is not mounted is not found at the private mount point either;
    other mounts there may be taken away. *)
Lemma scan_private_unmounted privTgt w0 mnts w r w' :
  (∀ m, m ∈ mnts → m ∈ table L w0 ∧ on_device dev m = false) →
  scan_private dev privTgt mnts false w = Some (Ok r, w') →
  r = false ∧ files L w' = files L w
  ∧ (List.filter (on_device dev) (table L w) = [] → List.filter (on_device dev) (table L w') = [])
  ∧ (existsb (at_path privTgt) mnts = false → table L w' = table L w).
Proof.
  revert w. induction mnts as [|m mnts IH]; intros w Hin Hrun; simpl in Hrun; [by injection Hrun as <- <-|].
  assert (∀ m, m ∈ mnts → m ∈ table L w0 ∧ on_device dev m = false) as Hin' by (intros; apply Hin; by right).
  destruct (Hin m (list_elem_of_here _ _)) as [Hm Hoff]. case_decide as Hpath.
  - apply mbnd_Some in Hrun as (d & w1 & Hd & Hrun). destruct (eval_device m w0 w Hm) as (r0 & w1' & He & Hf & Ht & Hon).
    rewrite He in Hd. injection Hd as <- <-. case_decide as Hne; [|by rewrite Hon in Hoff by (by destruct (decide (r0 = RealDev dev)))].
    apply mbnd_Some in Hrun as (st & w2 & Hst & Hrun). injection Hst as Hst. rewrite (law_stat L) in Hst. injection Hst as <- <-.
    destruct (files L w1' r0) as [?|e]; [done|]. destruct (IsNotExist e); [|done].
    apply mbnd_Some in Hrun as (u & w3 & Hu & Hrun). injection Hu as Hu. destruct (law_unmount L _ _ _ _ Hu) as [Hf3 Ht3].
    destruct (IH w3 Hin' Hrun) as (-> & Hf' & Hd' & _). split; [done|]. split; [congruence|]. split.
    + intros Hnil. apply Hd'. rewrite Ht3. destruct u; rewrite Ht; [done|by apply remove_last_filter].
    + simpl. unfold at_path at 1. by rewrite bool_decide_true.
  - destruct (IH w Hin' Hrun) as (-> & Hf' & Hd' & Hp'). split_and!; try done. simpl. unfold at_path at 1.
    by rewrite bool_decide_false.
Qed.

Lemma mkdir_makes p w b w' : mkdir p w = Some (Ok b, w') →
  table L w' = table L w ∧ is_there false p w' ∧ ∀ q, q ≠ p → files L w' q = files L w q.
Proof. intros E. by apply createTarget_makes, (mkdir_target p w b). Qed.

(** The private mount of a device that is not mounted. *)
Lemma mount_private_adds id target privTgt cfg am t w w' :
  am ≠ UNKNOWN → List.filter (on_device dev) (table L w) = [] →
  mount_private id target privTgt dev cfg am t w = Some (Ok tt, w') →
  ∃ l m, table L w' = (l ++ [m])%list ∧ List.filter (on_device dev) l = [] ∧ Info_Path m = privTgt
    ∧ (Info_Device m = FullPath dev ∨ Info_Device m = RealDev dev)
    ∧ (∀ q, q ≠ privTgt → files L w' q = files L w q)
    ∧ (existsb (at_path privTgt) (table L w) = false → l = table L w).
Proof.
  intros Hun Hnone Hrun. apply try_Some in Hrun as (created & w1 & Hmk & Hrun).
  apply mkdir_makes in Hmk as (Ht1 & _ & Hf1). cbv beta in Hrun.
  apply try_Some in Hrun as (already & w2 & Hal & Hrun). cbv beta in Hrun.
  assert (already = false ∧ files L w2 = files L w1 ∧ List.filter (on_device dev) (table L w2) = []
    ∧ (existsb (at_path privTgt) (table L w1) = false → table L w2 = table L w1)) as (-> & Hf2 & Hn2 & Hp2).
  { rewrite <- Ht1 in Hnone. destruct created; [injection Hal as <- <-; done|].
    apply try_Some in Hal as (mnts & w3 & Hm & Hal). injection Hm as Hm. rewrite (law_table L) in Hm. injection Hm as <- <-.
    cbv beta in Hal. destruct (table L w1) as [|m0 mnts0] eqn:Et; [done|]. rewrite <- Et in *.
    apply (scan_private_unmounted privTgt w1) in Hal as (? & ? & ? & ?); [by auto|].
    intros m Hm. split; [done|]. apply not_true_iff_false. intros Hon.
    assert (m ∈ List.filter (on_device dev) (table L w1)) as Hbad by (apply list_elem_of_In, filter_In; by rewrite <- list_elem_of_In).
    rewrite Hnone in Hbad. by apply not_elem_of_nil in Hbad. }
  apply mbnd_Some in Hrun as (chk & w3 & Hc & Hrun).
  destruct (fscheck_keeps _ _ dev cfg am id target (quiet_framed (files L w2) (table L w2)) (λ _ _ _, Logic.I) Hun _ _ _ Hc (conj eq_refl eq_refl)) as [Hf3 Ht3].
  destruct chk as [e|]; [by apply mbnd_Some in Hrun as (? & ? & ? & ?)|].
  apply mbnd_Some in Hrun as (e & w4 & He & Hrun). destruct e as [e|]; [by apply mbnd_Some in Hrun as (? & ? & ? & ?)|].
  injection Hrun as <-.
  assert (∃ src fs flags, (Mount src privTgt fs flags w3 = (None, w4) ∨ FormatAndMount src privTgt fs flags w3 = (None, w4)) ∧ src = FullPath dev)
    as (src & fs & flags & Hmnt & Hsrc).
  { unfold handlePrivFSMount in He. destruct am; try done; apply mbnd_Some in He as (e & w5 & [= Hm] & Hr);
      destruct e; try done; injection Hr as <-; do 3 eexists; (split; [|reflexivity]); eauto. }
  destruct (law_mount L _ _ _ _ _ _ Hmnt) as (Hf4 & m & Ht4 & Hpath & Hdev). exists (table L w2), m.
  split_and!; try done.
  - by rewrite Ht4, Ht3.
  - by apply Hdev.
  - intros q Hq. by rewrite Hf4, Hf3, Hf2, Hf1.
  - intros Hfree. rewrite Hp2, Ht1 by (by rewrite Ht1). done.
Qed.

Lemma bind_target_adds target privTgt ro am t w w' :
  bind_target target privTgt false ro am t w = Some (Ok tt, w') →
  ∃ m, table L w' = (table L w ++ [m])%list ∧ Info_Path m = target ∧ Info_Source m = privTgt
    ∧ (privTgt ≠ RealDev dev → ∀ l m0, List.filter (at_path privTgt) (table L w) = (l ++ [m0])%list → Info_Device m = Info_Device m0)
    ∧ is_there false target w' ∧ ∀ q, q ≠ target → files L w' q = files L w q.
Proof.
  intros ([e|] & w1 & Hc & Hrun)%mbnd_Some; [by apply mbnd_Some in Hrun as (? & ? & ? & ?)|].
  destruct (createTarget_makes _ _ _ _ Hc) as (Ht1 & (md & Hmd & Hd) & Hf1).
  apply mbnd_Some in Hrun as (e & w2 & Hb & Hrun). injection Hb as Hb.
  destruct e as [e|]; [by apply mbnd_Some in Hrun as (? & ? & ? & ?)|]. injection Hrun as <-.
  destruct (law_bind L _ _ _ _ _ Hb) as (Hf2 & m & Ht2 & Hp & Hs & Hdev & _). exists m. rewrite Ht1 in *.
  split_and!; try done.
  - exists md. by rewrite Hf2.
  - intros q Hq. by rewrite Hf2, Hf1.
Qed.

(** The device is mounted for the target, and the target shows it. *)
Definition mounted_at (target privTgt : string) (w : W) : Prop :=
  existsb (λ m, at_path target m || at_path privTgt m) (List.filter (on_device dev) (table L w)) = true
  ∧ ∃ m l, List.filter (at_path target) (table L w) = m :: l ∧ check_target dev privTgt "" m = None.

Lemma publish_mount_again id target privTgt ro cfg am flag t w :
  wanted_option ro flag = "" → mounted_at target privTgt w →
  publish_mount id target privTgt ro dev cfg am flag t w = Some (Ok tt, w).
Proof.
  intros Hro (Hex & m & l & Hm & Hc). unfold publish_mount. rewrite Hro. unfold try at 1, mbnd at 1. rewrite filter_dev_mounts.
  destruct (List.filter (on_device dev) (table L w)) as [|m0 l0] eqn:Ed; [done|]. rewrite <- Ed in *.
  rewrite check_private_any. cbn [orb]. rewrite Hex. unfold try, mbnd, ok, ret.
  rewrite filter_path_mounts, Hm, Hc. done.
Qed.

Lemma on_device_names m : Info_Device m = FullPath dev ∨ Info_Device m = RealDev dev → on_device dev m = true ∧ of_device dev m = true.
Proof. intros Hd. unfold on_device, of_device. rewrite !orb_true_iff, !bool_decide_eq_true. tauto. Qed.

Lemma publish_mount_done id target privTgt ro cfg am flag t w w' :
  wanted_option ro flag = "" → am ≠ UNKNOWN → target ≠ privTgt → is_there false target w →
  publish_mount id target privTgt ro dev cfg am flag t w = Some (Ok tt, w') →
  mounted_at target privTgt w' ∧ is_there false target w' ∧ (∀ q, q ≠ privTgt → q ≠ target → files L w' q = files L w q).
Proof.
  intros Hro Hun Hne (md & Hmd & Hdir) Hrun. unfold publish_mount in Hrun. rewrite Hro in Hrun.
  apply try_Some in Hrun as (devMnts & w1 & Hd & Hrun). rewrite filter_dev_mounts in Hd. injection Hd as <- <-. cbv beta in Hrun.
  apply try_Some in Hrun as ([] & w2 & Hpriv & Hrun). cbv beta in Hrun.
  assert (existsb (λ m, at_path target m || at_path privTgt m) (List.filter (on_device dev) (table L w2)) = true
    ∧ ∀ q, q ≠ privTgt → files L w2 q = files L w q) as [Hex Hf2].
  { destruct (List.filter (on_device dev) (table L w)) as [|m0 l0] eqn:Ed.
    - destruct (mount_private_adds _ _ _ _ _ _ _ _ Hun Ed Hpriv) as (l & m & Ht & Hl & Hp & Hdv & Hf & _). split; [|done].
      rewrite Ht, List.filter_app, Hl. simpl. rewrite (proj1 (on_device_names m Hdv)). simpl. unfold at_path.
      rewrite (bool_decide_true (Info_Path m = privTgt)) by done. by rewrite orb_true_r.
    - rewrite <- Ed in Hpriv. rewrite check_private_any in Hpriv. cbn [orb] in Hpriv.
      destruct (existsb _ (List.filter (on_device dev) (table L w))) eqn:Ex; [|done]. injection Hpriv as <-. done. }
  apply try_Some in Hrun as (tm & w3 & Htm & Hrun). rewrite filter_path_mounts in Htm. injection Htm as <- <-. cbv beta in Hrun.
  destruct (List.filter (at_path target) (table L w2)) as [|m l] eqn:Et.
  - destruct (bind_target_adds _ _ _ _ _ _ _ Hrun) as (m & Ht & Hp & Hs & _ & Hth & Hf3). split; [|split; [done|]].
    + split.
      * rewrite Ht, List.filter_app, existsb_app, Hex. done.
      * exists m, []. rewrite Ht, List.filter_app, Et. simpl. unfold at_path at 1. rewrite bool_decide_true by done.
        split; [done|]. unfold check_target. rewrite decide_True by auto. done.
    + intros q H1 H2. by rewrite Hf3, Hf2.
  - destruct (check_target dev privTgt "" m) eqn:Ec; [done|]. injection Hrun as <-. split; [|split; [|intros; by apply Hf2]].
    + split; [done|]. by exists m, l.
    + exists md. by rewrite Hf2.
Qed.

Lemma block_mounted_app target single l m :
  block_mounted target single l = None → at_path target m = true → block_mounted target single (l ++ [m])%list = Some None.
Proof.
  intros Hl [=Hm]%bool_decide_eq_true. induction l as [|x l IH]; simpl in *; [by rewrite decide_True|].
  case_decide; [done|]. destruct single; [done|]. auto.
Qed.

Lemma privTgt_longer privDir id : privDir ≠ getPrivateMountPoint privDir id.
Proof.
  unfold getPrivateMountPoint. intros Heq. apply (f_equal String.length) in Heq.
  rewrite !PowerMax.PowerMax.app_str_length in Heq. simpl in Heq. lia.
Qed.

(** A block volume is bound at the target. *)
Lemma mountBlock_done target flags single w w' :
  is_there true target w → mountBlock dev target flags single w = Some (None, w') →
  block_mounted target single (List.filter (on_device dev) (table L w')) = Some None
  ∧ is_there true target w' ∧ (∀ q, q ≠ target → files L w' q = files L w q)
  ∧ (block_mounted target single (List.filter (on_device dev) (table L w)) = None →
      ∃ m, table L w' = (table L w ++ [m])%list ∧ Info_Path m = target ∧ Info_Device m = "devtmpfs" ∧ Info_Source m = RealDev dev).
Proof.
  intros Hth Hrun. apply mbnd_Some in Hrun as (mnts & w1 & Hd & Hrun). rewrite filter_dev_mounts in Hd. injection Hd as <- <-.
  destruct (block_mounted _ _ _) as [answer|] eqn:Eb; [by injection Hrun as -> <-|].
  apply mbnd_Some in Hrun as (e & w1 & Hc & Hrun). rewrite (createTarget_there true target w Hth) in Hc. injection Hc as <- <-.
  apply mbnd_Some in Hrun as (e & w1 & Hb & Hrun). injection Hb as Hb. destruct e; [done|]. injection Hrun as <-.
  destruct (law_bind L _ _ _ _ _ Hb) as (Hf & m & Ht & Hp & Hs & _ & Hdv). specialize (Hdv eq_refl).
  assert (on_device dev m = true) as Hon.
  { unfold on_device. rewrite !orb_true_iff, andb_true_iff, !bool_decide_eq_true. auto. }
  split_and!; [| |by intros; rewrite Hf|intros _; by exists m].
  - rewrite Ht, List.filter_app. simpl. rewrite Hon. apply block_mounted_app; [done|]. unfold at_path. by rewrite bool_decide_true.
  - destruct Hth as (md & ? & ?). exists md. by rewrite Hf.
Qed.

(** A publication that succeeded, step by step. *)
Lemma publish_steps req privDir cfg volCap isBlock am flag w w' :
  pub_Capability req = Some volCap → validateVolumeCapability volCap = Ok (isBlock, am, flag) →
  publishVolume req privDir device cfg w = Some (Ok tt, w') ↔
  pub_TargetPath req ≠ "" ∧ ∃ w1 w2 b, createTarget (pub_TargetPath req) isBlock w = Some (None, w1) ∧ mkdir privDir w1 = Some (Ok b, w2)
    ∧ if isBlock then mountBlock dev (pub_TargetPath req) (MountFlags (access volCap)) (singleAccessMode am) w2 = Some (None, w')
      else publish_mount (pub_VolumeId req) (pub_TargetPath req) (getPrivateMountPoint privDir (pub_VolumeId req)) (pub_Readonly req)
             dev cfg am flag (access volCap) w2 = Some (Ok tt, w').
Proof.
  intros Hcap Hv. unfold publishVolume. rewrite Hcap, Hv.
  destruct (decide (pub_TargetPath req = "")) as [He|He]; [naive_solver|].
  unfold try at 1, mbnd at 1. rewrite (law_device L). split.
  - intros Hrun. split; [done|]. apply mbnd_Some in Hrun as ([e|] & w1 & Hc & Hrun); [by apply mbnd_Some in Hrun as (? & ? & ? & ?)|].
    apply try_Some in Hrun as (b & w2 & Hm & Hrun). exists w1, w2, b. split; [done|]. split; [done|]. cbv beta in Hrun.
    destruct isBlock; [|done]. apply mbnd_Some in Hrun as ([e|] & w3 & Hb & Hrun); [done|]. by injection Hrun as <-.
  - intros (_ & w1 & w2 & b & Hc & Hm & Hrun). unfold mbnd at 1. rewrite Hc. unfold try at 1, mbnd at 1. rewrite Hm.
    destruct isBlock; [|done]. unfold mbnd. by rewrite Hrun.
Qed.

(** On a node whose mount table behaves, publishing a volume again changes
    nothing and succeeds: for a block volume in every access mode, and for a file
    system unless the mount has to be read-only. *)
Theorem node_publish_idempotent req privDir cfg volCap isBlock am flag w w1 :
  pub_Capability req = Some volCap → validateVolumeCapability volCap = Ok (isBlock, am, flag) →
  (isBlock = false → wanted_option (pub_Readonly req) flag = "") →
  pub_TargetPath req ≠ privDir → pub_TargetPath req ≠ getPrivateMountPoint privDir (pub_VolumeId req) →
  publishVolume req privDir device cfg w = Some (Ok tt, w1) →
  publishVolume req privDir device cfg w1 = Some (Ok tt, w1).
Proof.
  intros Hcap Hv Hro Hne1 Hne2. rewrite !(publish_steps _ _ _ _ _ _ _ _ _ Hcap Hv).
  intros (Ht & w2 & w3 & b & Hc & Hm & Hrun). split; [done|].
  pose proof (validate_spec _ _ _ _ Hv) as (_ & Hun & _).
  apply createTarget_makes in Hc as (_ & (md & Hmd & Hd) & _). apply mkdir_makes in Hm as (_ & (md' & Hmd' & Hd') & Hf3).
  assert (is_there isBlock (pub_TargetPath req) w3) as Hth by (exists md; by rewrite Hf3).
  pose proof (privTgt_longer privDir (pub_VolumeId req)) as Hlong. destruct isBlock.
  - destruct (mountBlock_done _ _ _ _ _ Hth Hrun) as (Hb & Hth' & Hf & _). exists w1, w1, false.
    split; [by apply createTarget_there|]. split; [apply mkdir_there; exists md'; by rewrite Hf|].
    unfold mountBlock, mbnd. by rewrite filter_dev_mounts, Hb.
  - destruct (publish_mount_done _ _ _ _ _ _ _ _ _ _ (Hro eq_refl) Hun Hne2 Hth Hrun) as (Hat & Hth' & Hf). exists w1, w1, false.
    split; [by apply createTarget_there|]. split; [apply mkdir_there; exists md'; by rewrite Hf|].
    apply publish_mount_again; [by apply Hro|done].
Qed.

Lemma mount_variant_refl suffix p : mount_variant suffix p p = true.
Proof. unfold mount_variant. by rewrite decide_True by auto. Qed.

Lemma remove_total p w : ∃ r w', removeWithRetry p w = Some (r, w') ∧ table L w' = table L w.
Proof.
  unfold removeWithRetry. generalize (@None error). revert w. generalize 3%nat as n. induction n as [|n IH]; intros w last; simpl; [by eexists _, _|].
  unfold mbnd, lift. pose proof (law_remove L w p) as Hr. destruct (Remove p w) as [[e|] w1]; cbn [snd] in Hr; [|by eexists _, _].
  destruct (IsNotExist e); [by eexists _, _|].
  assert (table L (SleepFor removeWithRetrySleepTime w1).2 = table L w1) as Hs by (apply (law_quiet L); eauto 10).
  destruct (SleepFor _ w1) as [[] w2]. cbn [snd] in Hs.
  destruct (IH w2 (Some (errorString (os_text e)))) as (r & w' & Hrun & Ht). exists r, w'. split; [exact Hrun|]. congruence.
Qed.

(** Nothing of the device is mounted, and nothing at the two places. *)
Definition unused (target privTgt : string) (l : list Info) : Prop :=
  ∀ m, m ∈ l → on_device dev m = false ∧ of_device dev m = false ∧ at_path target m = false ∧ at_path privTgt m = false.
Lemma unused_filter target privTgt l f :
  unused target privTgt l → (∀ m, f m = true → on_device dev m = true ∨ of_device dev m = true ∨ at_path target m = true ∨ at_path privTgt m = true) →
  List.filter f l = [].
Proof.
  intros Hu Hf. destruct (List.filter f l) as [|m x] eqn:E; [done|].
  assert (m ∈ List.filter f l) as [Hin Hm]%list_elem_of_In%filter_In by (rewrite E; left). apply list_elem_of_In in Hin.
  destruct (Hu m Hin) as (H1 & H2 & H3 & H4), (Hf m Hm) as [?|[?|[?|?]]]; congruence.
Qed.
Lemma unused_exists target privTgt l f :
  unused target privTgt l → (∀ m, f m = true → on_device dev m = true ∨ of_device dev m = true ∨ at_path target m = true ∨ at_path privTgt m = true) →
  existsb f l = false.
Proof.
  intros Hu Hf. apply not_true_iff_false. intros (m & Hin & Hm)%existsb_exists. apply list_elem_of_In in Hin.
  destruct (Hu m Hin) as (H1 & H2 & H3 & H4), (Hf m Hm) as [?|[?|[?|?]]]; congruence.
Qed.

(** The mounts a publication adds: the device file at the target, or the private
    mount and its bind mount at the target. *)
Definition added (isBlock : bool) (target privTgt : string) (x : list Info) : Prop :=
  if isBlock then ∃ m, x = [m] ∧ Info_Path m = target ∧ Info_Device m = "devtmpfs" ∧ Info_Source m = RealDev dev
  else ∃ mp mt, x = [mp; mt] ∧ Info_Path mp = privTgt ∧ Info_Path mt = target ∧ Info_Device mt = Info_Device mp
    ∧ (Info_Device mp = FullPath dev ∨ Info_Device mp = RealDev dev).

Lemma publish_adds req privDir cfg volCap isBlock am flag w w1 :
  pub_Capability req = Some volCap → validateVolumeCapability volCap = Ok (isBlock, am, flag) →
  unused (pub_TargetPath req) (getPrivateMountPoint privDir (pub_VolumeId req)) (table L w) →
  pub_TargetPath req ≠ privDir → pub_TargetPath req ≠ getPrivateMountPoint privDir (pub_VolumeId req) →
  getPrivateMountPoint privDir (pub_VolumeId req) ≠ RealDev dev →
  publishVolume req privDir device cfg w = Some (Ok tt, w1) →
  ∃ x, table L w1 = (table L w ++ x)%list ∧ added isBlock (pub_TargetPath req) (getPrivateMountPoint privDir (pub_VolumeId req)) x.
Proof.
  intros Hcap Hv. set (target := pub_TargetPath req). set (privTgt := getPrivateMountPoint _ _). intros Hu Hne1 Hne2 Hreal.
  rewrite (publish_steps _ _ _ _ _ _ _ _ _ Hcap Hv). intros (_ & w2 & w3 & b & Hc & Hm & Hrun).
  pose proof (validate_spec _ _ _ _ Hv) as (_ & Hun & _).
  apply createTarget_makes in Hc as (Ht2 & (md & Hmd & Hd) & _). apply mkdir_makes in Hm as (Ht3 & _ & Hf3).
  rewrite <- Ht2, <- Ht3 in *. destruct isBlock.
  - destruct (mountBlock_done _ _ _ _ _ (ex_intro _ md (conj (eq_trans (Hf3 _ Hne1) Hmd) Hd)) Hrun) as (_ & _ & _ & Hadd).
    destruct Hadd as (m & Ht & Hp & Hdv & Hs); [|exists [m]; split; [done|by exists m]].
    rewrite (unused_filter target privTgt); [done|done|auto].
  - unfold publish_mount in Hrun. apply try_Some in Hrun as (devMnts & w4 & Hdm & Hrun). rewrite filter_dev_mounts in Hdm.
    injection Hdm as <- <-. cbv beta in Hrun. assert (List.filter (on_device dev) (table L w3) = []) as Hnil by (apply (unused_filter target privTgt); auto).
    rewrite Hnil in Hrun. apply try_Some in Hrun as ([] & w5 & Hp & Hrun). cbv beta in Hrun.
    destruct (mount_private_adds _ _ _ _ _ _ _ _ Hun Hnil Hp) as (l & mp & Ht5 & _ & Hpp & Hpd & _ & Hl).
    rewrite Hl in Ht5 by (apply (unused_exists target privTgt); auto).
    apply try_Some in Hrun as (tm & w6 & Htm & Hrun). rewrite filter_path_mounts in Htm. injection Htm as <- <-. cbv beta in Hrun.
    rewrite Ht5, List.filter_app, (unused_filter target privTgt) in Hrun by auto. simpl in Hrun.
    unfold at_path in Hrun.
    rewrite bool_decide_false in Hrun by (rewrite Hpp; apply not_eq_sym, Hne2).
    destruct (bind_target_adds _ _ _ _ _ _ _ Hrun) as (mt & Ht & Hpt & _ & Hdt & _). exists [mp; mt].
    split; [by rewrite Ht, Ht5, <- app_assoc|]. exists mp, mt. split_and!; try done. apply (Hdt Hreal []). rewrite Ht5, List.filter_app.
    rewrite (unused_filter target privTgt) by auto. simpl. unfold at_path. by rewrite bool_decide_true.
Qed.

(** Taking away what a publication has added. *)
Lemma unpublish_removes isBlock id target privDir w l x :
  target ≠ "" → isPrivateMountVariant target (getPrivateMountPoint privDir id) = false →
  (∀ w p, existsb (at_path p) (table L w) = true → (Unmount p w).1 = None) →
  unused target (getPrivateMountPoint privDir id) l → table L w = (l ++ x)%list → added isBlock target (getPrivateMountPoint privDir id) x →
  ∃ w', unpublishVolume (mkNodeUnpublish id target) privDir device w = Some (Ok true, w') ∧ table L w' = l.
Proof.
  set (privTgt := getPrivateMountPoint privDir id). intros Htgt Hvar Hum Hu Ht Hadd.
  assert (∀ w l m, table L w = (l ++ [m])%list → ∃ w', Unmount (Info_Path m) w = (None, w') ∧ table L w' = l) as Hunmount.
  { intros w0 l0 m Ht0. assert (at_path (Info_Path m) m = true) as Hat by (unfold at_path; by rewrite bool_decide_true).
    destruct (Unmount (Info_Path m) w0) as [e w'] eqn:E. exists w'. pose proof (Hum w0 (Info_Path m)) as He. rewrite E in He. simpl in He.
    rewrite He in E by (rewrite Ht0, existsb_app; simpl; rewrite Hat; by rewrite orb_true_r).
    rewrite He by (rewrite Ht0, existsb_app; simpl; rewrite Hat; by rewrite orb_true_r).
    split; [done|]. destruct (law_unmount L _ _ _ _ E) as [_ ->]. rewrite Ht0, remove_last_end by done. by rewrite app_nil_r. }
  unfold unpublishVolume. cbn [unpub_TargetPath unpub_VolumeId]. rewrite decide_False by done. fold privTgt.
  unfold mbnd at 1. rewrite (law_device L). unfold try at 1, mbnd at 1, lift at 1. rewrite (law_table L), Ht.
  assert (∀ y, target_mounts dev privTgt target (l ++ y) = target_mounts dev privTgt target y) as Htm.
  { intros y. unfold target_mounts. rewrite List.filter_app, (unused_filter target privTgt); [done|done|].
    intros m [[? _]%andb_prop _]%andb_prop. auto. }
  assert (∀ y, has_private dev privTgt (l ++ y) = has_private dev privTgt y) as Hhp.
  { intros y. unfold has_private. rewrite existsb_app, (unused_exists target privTgt); [done|done|]. intros m [? _]%andb_prop. auto. }
  rewrite Htm, Hhp. assert (isRequestedTargetMountVariant target target = true) as Hself by apply mount_variant_refl.
  assert (isPrivateMountVariant privTgt privTgt = true) as Hpself by apply mount_variant_refl.
  destruct isBlock.
  - destruct Hadd as (m & -> & Hp & Hdv & Hs). destruct (Hunmount w l m Ht) as (w1 & E1 & T1).
    assert (of_device dev m = true) as Hof by (unfold of_device; rewrite !orb_true_iff, !bool_decide_eq_true; auto).
    unfold target_mounts, has_private. simpl. rewrite Hof, Hp, Hvar, Hself. simpl. unfold try at 1, mbnd at 1 2, lift at 1. rewrite Hp in *. rewrite E1.
    unfold ok at 1, ret at 1. exists w1. split; [|done]. unfold mbnd. rewrite filter_dev_mounts, T1, (unused_filter target privTgt); [done|done|auto].
  - destruct Hadd as (mp & mt & -> & Hpp & Hpt & Hdt & Hdp).
    assert (of_device dev mp = true ∧ on_device dev mp = true) as [Hofp Honp] by (destruct (on_device_names mp Hdp); done).
    assert (of_device dev mt = true ∧ on_device dev mt = true) as [Hoft Hont] by (destruct (on_device_names mt); [by rewrite Hdt|done]).
    destruct (Hunmount w (l ++ [mp])%list mt) as (w1 & E1 & T1); [by rewrite Ht, <- app_assoc|].
    destruct (Hunmount w1 l mp T1) as (w2 & E2 & T2). destruct (remove_total privTgt w2) as (r & w3 & E3 & T3).
    unfold target_mounts, has_private. simpl. rewrite Hofp, Hoft, Hpp, Hpt, Hvar, Hself, Hpself. simpl.
    rewrite Hpt in *. unfold try at 1, mbnd at 1 2, lift at 1. rewrite E1. unfold ok at 1, ret at 1.
    exists w3. split; [|congruence]. unfold unmountPrivMount. unfold try at 1 2, mbnd at 1 2. rewrite filter_dev_mounts, T1.
    rewrite List.filter_app, (unused_filter target privTgt) by auto. simpl. rewrite Honp. cbn [existsb]. unfold is_other. rewrite Hpp, Hpself.
    cbn [negb]. rewrite andb_false_r. cbn [orb].
    assert (privTgt ≠ "") as Hpe by (unfold privTgt, getPrivateMountPoint; by destruct privDir).
    unfold try at 1 2, mbnd at 1 2. cbn [unmount_loop existsb].
    unfold try at 1, mbnd at 1. cbn [unmount_pass]. rewrite Hpp, Hpself, bool_decide_true by done. cbn [andb].
    rewrite Hpp in E2. unfold mbnd at 1, lift at 1. rewrite E2. unfold try, mbnd, ok, ret. cbn [fst snd orb forallb]. cbv beta iota. rewrite E3. cbn. done.
Qed.

(** C23: A volume that is published where its device was not mounted and the target was
    free adds the mounts of the volume to the mount table; taking it away from the
    target then leaves the table as it was before the publication, and tells that no
    mount of the device is left. This is for one pod on a node whose table shows each
    mount once, at its end and at once, and drops it with its unmount ([node_laws]; it
    is not so where bind mounts show under several roots), where the unmount of a path
    that is mounted does not fail, and for a target that is neither the private
    directory nor a variant of the private mount point. *)
Theorem node_publish_roundtrip req privDir cfg volCap isBlock am flag w w1 :
  let target := pub_TargetPath req in
  let privTgt := getPrivateMountPoint privDir (pub_VolumeId req) in
  pub_Capability req = Some volCap → validateVolumeCapability volCap = Ok (isBlock, am, flag) →
  unused target privTgt (table L w) → target ≠ privDir → isPrivateMountVariant target privTgt = false → privTgt ≠ RealDev dev →
  (∀ w p, existsb (at_path p) (table L w) = true → (Unmount p w).1 = None) →
  publishVolume req privDir device cfg w = Some (Ok tt, w1) →
  existsb (λ m, at_path target m && on_device dev m) (table L w1) = true
  ∧ ∃ w2, unpublishVolume (mkNodeUnpublish (pub_VolumeId req) target) privDir device w1 = Some (Ok true, w2)
    ∧ table L w2 = table L w.
Proof.
  intros target privTgt Hcap Hv Hu Hne Hvar Hreal Hum Hrun.
  assert (target ≠ privTgt) as Hne2 by (intros Heq; rewrite Heq in Hvar; unfold isPrivateMountVariant in Hvar; by rewrite mount_variant_refl in Hvar).
  destruct (publish_adds _ _ _ _ _ _ _ _ _ Hcap Hv Hu Hne Hne2 Hreal Hrun) as (x & Ht & Hadd). split.
  - rewrite Ht, existsb_app. apply orb_true_intro. right. fold target in Hadd. destruct isBlock.
    + destruct Hadd as (m & -> & Hp & Hdv & Hs). simpl. unfold at_path, on_device.
      rewrite orb_true_iff, andb_true_iff, !orb_true_iff, andb_true_iff, !bool_decide_eq_true. tauto.
    + destruct Hadd as (mp & mt & -> & _ & Hpt & Hdt & Hdp). simpl. unfold at_path at 2.
      rewrite (bool_decide_true (Info_Path mt = target)) by done. rewrite (proj1 (on_device_names mt ltac:(by rewrite Hdt))). by rewrite orb_true_r.
  - apply (unpublish_removes isBlock _ _ _ _ (table L w) x); try done.
    apply (publish_steps _ _ _ _ _ _ _ _ _ Hcap Hv) in Hrun as [? _]. done.
Qed.
End table_laws.

(** ** A simulated node *)
Record simnode := mkSimnode { sn_files : gmap string file_mode; sn_table : list Info }.
Definition sim_link := "/dev/disk/by-id/wwn-1".
Definition sim_real := "/dev/dm-1".
Definition sim_stat (w : simnode) (p : string) : result os_error file_mode :=
  if decide (p = sim_real) then Ok (mkMode false true)
  else match sn_files w !! p with Some md => Ok md | None => Err (mkOsError "no such file" true) end.
Definition sim_new (p : string) (md : file_mode) (w : simnode) : option error * simnode :=
  match sim_stat w p with
  | Ok _ => (Some (errorString "file exists"), w)
  | Err _ => (None, mkSimnode (<[p := md]> (sn_files w)) (sn_table w))
  end.
Definition sim_add (m : Info) (w : simnode) : option error * simnode := (None, mkSimnode (sn_files w) (sn_table w ++ [m])%list).
Definition sim_bound (src : string) (w : simnode) : string :=
  match last (List.filter (at_path src) (sn_table w)) with Some m => Info_Device m | None => "devtmpfs" end.

#[export] Instance sim_node : NodeOS simnode := {
  Lstat p w := (Ok p, w);
  EvalSymlinks p w := (Ok (if decide (p = sim_link) then sim_real else p), w);
  Stat p w := (sim_stat w p, w);
  Mkdir p w := sim_new p (mkMode true false) w;
  CreateFile p w := sim_new p (mkMode false false) w;
  Remove p w := (None, mkSimnode (delete p (sn_files w)) (sn_table w));
  os_MkdirAll p w := sim_new p (mkMode true false) w;
  SleepFor _ w := (tt, w);
  GetMounts w := (Ok (sn_table w), w);
  Mount src tgt _ flags w := sim_add (mkInfo src tgt src flags) w;
  FormatAndMount src tgt _ flags w := sim_add (mkInfo src tgt src flags) w;
  BindMount src tgt flags w := sim_add (mkInfo (if decide (src = sim_real) then "devtmpfs" else sim_bound src w) tgt src flags) w;
  Unmount p w :=
    if existsb (at_path p) (sn_table w) then (None, mkSimnode (sn_files w) (remove_last p (sn_table w)))
    else (Some (errorString "not mounted"), w);
  GetDiskFormat _ w := (Ok "ext4", w);
  FSCheck _ _ _ w := (Checked, w);
  GetPVCForVolume _ _ w := (Ok None, w);
}.
Definition sim_device : Device := mkDevice sim_link sim_link sim_real.

(** No directory is a mount of the file [sim_real]. *)
Definition sim_node_laws : node_laws sim_device sim_link.
Proof.
  refine (Build_node_laws _ _ sim_stat sn_table _ _ _ _ _ _ _ _ _ _ _).
  - done.
  - done.
  - done.
  - intros w w' Hq. assert (w' = w) as -> by naive_solver. done.
  - intros w m w' _ [= Hr]. unfold on_device. rewrite !orb_true_iff, !bool_decide_eq_true. simpl. case_decide; auto.
  - intros w p w' Hm. unfold Mkdir, sim_node, sim_new in Hm. destruct (sim_stat w p) eqn:E; [done|]. injection Hm as <-.
    unfold sim_stat in *. simpl. split; [done|]. case_decide; [done|]. split; [by rewrite lookup_insert_eq|].
    intros q Hq. case_decide; [done|]. by rewrite lookup_insert_ne.
  - intros w p w' Hm. unfold CreateFile, sim_node, sim_new in Hm. destruct (sim_stat w p) eqn:E; [done|]. injection Hm as <-.
    unfold sim_stat in *. simpl. split; [done|]. case_decide; [done|]. split; [by rewrite lookup_insert_eq|].
    intros q Hq. case_decide; [done|]. by rewrite lookup_insert_ne.
  - done.
  - intros w src tgt fs flags w' [[= <-]|[= <-]]; (split; [done|]); eexists; (split; [reflexivity|]); simpl; auto.
  - intros w src tgt flags w' [= <-]. split; [done|]. eexists. split; [reflexivity|]. simpl. split; [done|]. split; [done|].
    split; [|intros ->; by rewrite decide_True].
    intros Hne l m0 Hl. rewrite decide_False by done. unfold sim_bound. by rewrite Hl, last_snoc.
  - intros w p e w' Hu. unfold Unmount, sim_node in Hu. by destruct (existsb _ _); injection Hu as <- <-.
Defined.

Lemma remove_last_keeps f p l : (∀ m, at_path p m = true → f m = false) → List.filter f (remove_last p l) = List.filter f l.
Proof.
  intros Hf. induction l as [|m l IH]; simpl; [done|].
  destruct (existsb (at_path p) l); [simpl; by rewrite IH|]. destruct (at_path p m) eqn:Em; [|done]. by rewrite Hf.
Qed.

(** The mounts of others: neither at the target nor at the private mount point. *)
Definition foreign (target privTgt : string) (m : Info) : bool :=
  negb (isPrivateMountVariant (Info_Path m) privTgt || isRequestedTargetMountVariant (Info_Path m) target).
Definition foreign_stay (target privTgt : string) (t : list Info) (w : simnode) : Prop := List.filter (foreign target privTgt) (sn_table w) = t.

Lemma sim_framed target privTgt t (P : change → Prop) :
  (∀ c, P c → match c with
    | ChMount _ p _ _ | ChFormat _ p _ _ | ChBind _ p _ | ChUnmount p => ∀ m, Info_Path m = p → foreign target privTgt m = false
    | _ => True end) → framed (foreign_stay target privTgt t) P.
Proof.
  intros HP. unfold foreign_stay. constructor; try done. intros c w Hc Hw. specialize (HP c Hc).
  assert (∀ p md, sn_table (sim_new p md w).2 = sn_table w) as Hnew by (intros p md; unfold sim_new; by destruct (sim_stat w p)).
  assert (∀ m, foreign target privTgt m = false → List.filter (foreign target privTgt) (sn_table w ++ [m])%list = t) as Hadd.
  { intros m Hm. rewrite List.filter_app. simpl. by rewrite Hm, app_nil_r. }
  destruct c as [p|p|p|p|a p fs fl|a p fs fl|a p fl|p|d f r]; simpl; rewrite ?Hnew; try done; try (apply Hadd, HP; done).
  destruct (existsb (at_path p) (sn_table w)); [|exact Hw]. simpl. rewrite remove_last_keeps; [exact Hw|].
  intros m [=Hm]%bool_decide_eq_true. by apply HP.
Qed.

Definition sim_target := "/var/lib/kubelet/pods/u1/volumes/kubernetes.io~csi/pv1/mount".
Definition sim_privDir := "/var/lib/kubelet/plugins/powermax/disks".
Definition sim_private := getPrivateMountPoint sim_privDir "vol1".
Definition sim_capability (am : AccessMode) : VolumeCapability := mkCapability (Some am) (MountVolume "xfs" ["noatime"]).
Definition sim_request (ro : bool) : NodePublishRequest := mkNodePublish "vol1" sim_target ro (Some (sim_capability SINGLE_NODE_WRITER)).
Definition other_mount : Info := mkInfo "/dev/dm-7" "/var/lib/kubelet/pods/u2/volumes/kubernetes.io~csi/pv2/mount" "/dev/dm-7" [].
Definition sim_before : simnode := mkSimnode ∅ [other_mount].
Definition sim_after (ro : bool) : simnode :=
  match publishVolume (sim_request ro) sim_privDir sim_link None sim_before with Some (_, w) => w | None => sim_before end.


Lemma node_publish_idempotent_witness :
  publishVolume (sim_request false) sim_privDir sim_link None (sim_after false) = Some (Ok tt, sim_after false).
Proof.
  refine (node_publish_idempotent sim_device sim_link sim_node_laws (sim_request false) sim_privDir None (sim_capability SINGLE_NODE_WRITER)
    false SINGLE_NODE_WRITER "" sim_before (sim_after false) eq_refl eq_refl (λ _, eq_refl) _ _ _).
  - discriminate.
  - discriminate.
  - vm_compute. reflexivity.
Defined.

Lemma node_publish_roundtrip_witness :
  ∃ w2, unpublishVolume (mkNodeUnpublish "vol1" sim_target) sim_privDir sim_link (sim_after false) = Some (Ok true, w2)
    ∧ sn_table w2 = [other_mount].
Proof.
  refine (proj2 (node_publish_roundtrip sim_device sim_link sim_node_laws (sim_request false) sim_privDir None
    (sim_capability SINGLE_NODE_WRITER) false SINGLE_NODE_WRITER "" sim_before (sim_after false) eq_refl eq_refl _ _ _ _ _ _)).
  - intros m Hm. apply list_elem_of_singleton in Hm as ->. vm_compute. done.
  - discriminate.
  - vm_compute. reflexivity.
  - discriminate.
  - intros w p Hp. simpl in Hp |- *. by rewrite Hp.
  - vm_compute. reflexivity.
Defined.

(** A read-only publication of a volume with a writer's access mode mounts the device
    for writing at its private mount point, so that the repeated request is refused. *)
Example readonly_retry_refused :
  option_map fst (publishVolume (sim_request true) sim_privDir sim_link None sim_before) = Some (Ok tt)
  ∧ option_map fst (publishVolume (sim_request true) sim_privDir sim_link None (sim_after true))
    = Some (Err (statusError InvalidArgument "access mode conflicts with existing mounts")).
Proof. split; vm_compute; reflexivity. Qed.
End NodeMount.
