(* ===== verification/Frame.v ===== *)
(** * Invariants of computations

    Parts of the world, which are groups of variables of a process, and the rules for
    a computation that keeps an invariant of the world and answers what it should. *)

From stdpp Require Import base strings list.
From S2P Require Import Prelude GoLib Handler.
Open Scope go_scope.

Class Part (S W : Type) := {
  part : W → S;
  set_part : S → W → W;
  part_set : ∀ s w, part (set_part s w) = s;
}.
Definition read {S W} `{Part S W} : M W S := λ w, Some (part w, w).
Definition update {S W} `{Part S W} (f : S → S) : M W unit := λ w, Some (tt, set_part (f (part w)) w).

(** [holds I m Q]: from a world with [I], if [m] does not panic, it ends in a world
    with [I] and its answer satisfies [Q]. *)
Definition holds {W A} (I : W → Prop) (m : M W A) (Q : A → Prop) : Prop := ∀ w a w', m w = Some (a, w') → I w → I w' ∧ Q a.

Definition ok_with {E A} (P : A → Prop) (r : result E A) : Prop := match r with Ok a => P a | Err _ => True end.

Section rules.
Context {W : Type} (I : W → Prop).

Lemma holds_ret {A} (a : A) (Q : A → Prop) : Q a → holds I (ret a) Q.
Proof. by intros HQ w ? w' [= <- <-]. Qed.
Lemma holds_panic {A} (Q : A → Prop) : holds I panic Q.
Proof. by intros w a w'. Qed.
Lemma holds_bind {A B} (m : M W A) (k : A → M W B) (P : A → Prop) (Q : B → Prop) :
  holds I m P → (∀ a, P a → holds I (k a) Q) → holds I (mbnd m k) Q.
Proof. intros Hm Hk w b w' (a & w1 & H1 & H2)%mbnd_Some HI. destruct (Hm _ _ _ H1 HI). by eapply Hk. Qed.
Lemma holds_seq {A B} (m : M W A) (k : A → M W B) (Q : B → Prop) :
  holds I m (λ _, True) → (∀ a, holds I (k a) Q) → holds I (mbnd m k) Q.
Proof. intros Hm Hk. eapply holds_bind; [exact Hm|auto]. Qed.
Lemma holds_weaken {A} (m : M W A) (P Q : A → Prop) : holds I m P → (∀ a, P a → Q a) → holds I m Q.
Proof. intros Hm HPQ w a w' E HI. destruct (Hm _ _ _ E HI). auto. Qed.
Lemma holds_try {A B} (m : M W (result error A)) h (k : A → M W (result error B)) (P : A → Prop) (Q : result error B → Prop) :
  holds I m (ok_with P) → (∀ e, Q (Err (h e))) → (∀ a, P a → holds I (k a) Q) → holds I (try m h k) Q.
Proof. intros Hm He Hk. eapply holds_bind; [exact Hm|]. intros [a|e] Ha; [by apply Hk|by apply holds_ret]. Qed.
Lemma holds_try_seq {A B} (m : M W (result error A)) h (k : A → M W (result error B)) (Q : result error B → Prop) :
  holds I m (λ _, True) → (∀ e, Q (Err (h e))) → (∀ a, holds I (k a) Q) → holds I (try m h k) Q.
Proof. intros Hm He Hk. eapply holds_bind; [exact Hm|]. intros [a|e] _; [apply Hk|by apply holds_ret]. Qed.
Lemma holds_lift {A} (f : W → A * W) (Q : A → Prop) : (∀ w, I w → I (f w).2 ∧ Q (f w).1) → holds I (lift f) Q.
Proof. intros Hf w a w' [= E] HI. specialize (Hf w HI). by rewrite E in Hf. Qed.
Lemma holds_index {A} (l : list A) (i : nat) : holds I (index l i) (λ a, a ∈ l).
Proof. unfold index. destruct (l !! i) eqn:E; [apply holds_ret; by eapply list_elem_of_lookup_2|apply holds_panic]. Qed.
Lemma holds_read {S} `{Part S W} (Q : S → Prop) : (∀ w, I w → Q (part w)) → holds I read Q.
Proof. intros HQ w a w' [= <- <-] HI. auto. Qed.
Lemma holds_update {S} `{Part S W} (f : S → S) (Q : unit → Prop) :
  (∀ w, I w → I (set_part (f (part w)) w)) → Q tt → holds I (update f) Q.
Proof. intros Hf HQ w a w' [= <- <-] HI. auto. Qed.

Definition ends {S R} (J : S → Prop) (E : R → Prop) (r : S + R) : Prop := match r with inl s => J s | inr e => E e end.
Lemma holds_forM {A S R} (body : A → S → M W (S + R)) (l : list A) (s : S) (J : S → Prop) (E : R → Prop) :
  (∀ x s, x ∈ l → J s → holds I (body x s) (ends J E)) → J s → holds I (forM body l s) (ends J E).
Proof.
  revert s. induction l as [|x l IH]; intros s Hb Hs; [by apply holds_ret|]. simpl.
  eapply holds_bind; [apply Hb; [by left|done]|]. intros [s'|r] Hr; [|by apply holds_ret].
  apply IH; [|done]. intros y t Hy. apply Hb. by right.
Qed.
End rules.

(** Steps through a computation without looking at its answers. *)
Ltac hold_step :=
  match goal with
  | |- holds _ (ret _) _ => apply holds_ret; try done
  | |- holds _ (ok _) _ => apply holds_ret; try done
  | |- holds _ (fail _) _ => apply holds_ret; try done
  | |- holds _ panic _ => apply holds_panic
  | |- holds _ (try _ _ _) _ => apply holds_try_seq; [|try done|intros ?]
  | |- holds _ (mbnd _ _) _ => apply holds_seq; [|intros ?]
  | |- holds _ (index _ _) (λ _, True) => eapply holds_weaken; [apply holds_index|done]
  | |- holds _ read (λ _, True) => by apply holds_read
  | |- holds _ (let '(_, _) := ?x in _) _ => destruct x eqn:?
  | |- holds _ (match ?x with _ => _ end) _ => destruct x eqn:?
  end.
Ltac hold_with tac := repeat (first [hold_step | tac]; cbn beta iota zeta).
