(* ===== verification/NodeTargets.v ===== *)
(** * Targets of a node

    Models how a node finds the targets of an array and logs in to them: the target
    functions of service/node.go (caches of targets, the portals of port groups, the
    targets of a masking view, CHAP, logins) and service/nvmetcp_conn_mode.go (the
    sessions of NVMe/TCP that the host manages, and the reports of degraded paths).
    The variables of the service are parts of the world; the initiators of the node
    (goiscsi, gonvme) are the class [NodeNet]. *)

From stdpp Require Import base gmap strings list.
From Stdlib Require Import ZArith Lia Ascii.
From S2P Require Import Prelude GoLib Pmax SimArray PowerMax Metro Masking SimMasking Handler Frame.

Module NodeTargets.
Import PowerMax Metro Masking.
Import SimArray(Sim).
#[local] Existing Instance SimArray.sim_pmax.
#[local] Existing Instance SimMasking.sim_masking.
Open Scope go_scope.
Open Scope handler_scope.
Open Scope string_scope.
Open Scope Z_scope.

(** ** Data *)

(** A target at one of its portals: ISCSITargetInfo, NVMeTCPTargetInfo, and the
    targets of goiscsi and gonvme. *)
Record TargetInfo := mkTarget { Target : string; Portal : string }.
#[export] Instance TargetInfo_eq_dec : EqDecision TargetInfo.
Proof. solve_decision. Defined.
Definition ISCSITargetInfo := TargetInfo.
Definition NVMeTCPTargetInfo := TargetInfo.
Record FCTargetInfo := mkFCTarget { WWPN : string }.
Record maskingViewTargetInfo := mkMVTarget { mv_target : TargetInfo; IsCHAPConfigured : bool }.
Definition maskingViewNVMeTargetInfo := TargetInfo.

(** A value of symToMaskingViewTargets, of one of two types. *)
Inductive mv_targets := IscsiTargets (l : list maskingViewTargetInfo) | NVMeTargets (l : list maskingViewNVMeTargetInfo).

(** A session of gonvme: whether it is live and over TCP. *)
Record NVMESession := mkSession { ses_Target : string; ses_Portal : string; ses_live : bool; ses_tcp : bool }.

Record nvmeTCPConnectivityTracker := mkTracker { lastWarned : gmap string Z; degraded : gset string }.
Definition newNVMeTCPConnectivityTracker : nvmeTCPConnectivityTracker := mkTracker ∅ ∅.

(** What is told of the path to a target. *)
Inductive report := Degraded (array target : string) | Restored (array target portal : string).

(** The caches of targets and logins, and the reports of paths. *)
Record caches := mkCaches {
  symToAllNVMeTCPTargets : gmap string (list NVMeTCPTargetInfo);
  symToAllISCSITargets : gmap string (list ISCSITargetInfo);
  symToMaskingViewTargets : gmap string mv_targets;
  isSymConnFC : gset string;
  loggedInArrays : gmap string bool;
  loggedInNVMeArrays : gmap string bool;
  iscsiTargets : gmap string (list string);
  nvmeTargets : gmap string (list string);
  nvmeTCPConnectivity : nvmeTCPConnectivityTracker;
  reports : list report;
}.
Definition set_allNVMe f c := mkCaches (f (symToAllNVMeTCPTargets c)) (symToAllISCSITargets c) (symToMaskingViewTargets c) (isSymConnFC c)
  (loggedInArrays c) (loggedInNVMeArrays c) (iscsiTargets c) (nvmeTargets c) (nvmeTCPConnectivity c) (reports c).
Definition set_allISCSI f c := mkCaches (symToAllNVMeTCPTargets c) (f (symToAllISCSITargets c)) (symToMaskingViewTargets c) (isSymConnFC c)
  (loggedInArrays c) (loggedInNVMeArrays c) (iscsiTargets c) (nvmeTargets c) (nvmeTCPConnectivity c) (reports c).
Definition set_views f c := mkCaches (symToAllNVMeTCPTargets c) (symToAllISCSITargets c) (f (symToMaskingViewTargets c)) (isSymConnFC c)
  (loggedInArrays c) (loggedInNVMeArrays c) (iscsiTargets c) (nvmeTargets c) (nvmeTCPConnectivity c) (reports c).
Definition set_connFC f c := mkCaches (symToAllNVMeTCPTargets c) (symToAllISCSITargets c) (symToMaskingViewTargets c) (f (isSymConnFC c))
  (loggedInArrays c) (loggedInNVMeArrays c) (iscsiTargets c) (nvmeTargets c) (nvmeTCPConnectivity c) (reports c).
Definition UpdateLoggedInArrays (array : string) (value : bool) c := mkCaches (symToAllNVMeTCPTargets c) (symToAllISCSITargets c) (symToMaskingViewTargets c) (isSymConnFC c)
  (<[array := value]> (loggedInArrays c)) (loggedInNVMeArrays c) (iscsiTargets c) (nvmeTargets c) (nvmeTCPConnectivity c) (reports c).
Definition UpdateLoggedInNVMeArrays (array : string) (value : bool) c := mkCaches (symToAllNVMeTCPTargets c) (symToAllISCSITargets c) (symToMaskingViewTargets c) (isSymConnFC c)
  (loggedInArrays c) (<[array := value]> (loggedInNVMeArrays c)) (iscsiTargets c) (nvmeTargets c) (nvmeTCPConnectivity c) (reports c).
Definition set_iscsi f c := mkCaches (symToAllNVMeTCPTargets c) (symToAllISCSITargets c) (symToMaskingViewTargets c) (isSymConnFC c)
  (loggedInArrays c) (loggedInNVMeArrays c) (f (iscsiTargets c)) (nvmeTargets c) (nvmeTCPConnectivity c) (reports c).
Definition set_nvme f c := mkCaches (symToAllNVMeTCPTargets c) (symToAllISCSITargets c) (symToMaskingViewTargets c) (isSymConnFC c)
  (loggedInArrays c) (loggedInNVMeArrays c) (iscsiTargets c) (f (nvmeTargets c)) (nvmeTCPConnectivity c) (reports c).
Definition set_tracker t rs c := mkCaches (symToAllNVMeTCPTargets c) (symToAllISCSITargets c) (symToMaskingViewTargets c) (isSymConnFC c)
  (loggedInArrays c) (loggedInNVMeArrays c) (iscsiTargets c) (nvmeTargets c) t (reports c ++ rs)%list.
(** [append] to the entry of a map of slices. *)
Definition append_at (k v : string) (m : gmap string (list string)) : gmap string (list string) :=
  <[k := (default [] (m !! k) ++ [v])%list]> m.
Definition GetLoggedInArrays (array : string) c : bool := default false (loggedInArrays c !! array).
Definition GetLoggedInNVMeArrays (array : string) c : bool := default false (loggedInNVMeArrays c !! array).

(** The options of the node. *)
Record nodeOpts := mkNodeOpts {
  opts : service;
  ManagedArrays : list string;
  NodeName : string;
  NodeFullName : string;
  NVMeTCPConnMode : string;
  EnableCHAP : bool;
  CHAPUserName : string;
  CHAPPassword : string;
}.
Definition csiNodeID (o : nodeOpts) : string :=
  if bool_decide (HostManagementMode (opts o) = HostMgmtModeAdopt) && bool_decide (NodeFullName o ≠ "") then NodeFullName o
  else NodeName o.

(** A target of the array with its addresses, and the part of a port that is read. *)
Record array_target := mkArrayTarget { at_ID : string; PortalIPs : list string }.
Record port_details := mkPort { port_Identifier : string; IPAddresses : list string; TCPPort : Z }.

Class NodeNet (W C : Type) := {
  GetNVMeTCPTargets : C → string → W → result error (list array_target) * W;
  GetISCSITargets : C → string → W → result error (list array_target) * W;
  GetPortDetails : C → string → string → string → W → result error port_details * W;
  (** goiscsi *)
  GetInitiators : W → result error (list string) * W;
  PerformLogin : TargetInfo → W → option error * W;
  DiscoverAndLogin : string → W → option error * W;
  SetCHAPCredentials : TargetInfo → string → string → W → option error * W;
  (** gonvme *)
  DiscoverNVMeTCPTargets : string → W → result error (list TargetInfo) * W;
  NVMeTCPConnect : TargetInfo → W → option error * W;
  GetSessions : W → result error (list NVMESession) * W;
}.

(** ** Keys *)
Definition nul : string := String (ascii_of_nat 0) "".
Definition nvmeTCPConnectivityKey (array targetNQN : string) : string := array ++ nul ++ targetNQN.
Definition target_key (t : TargetInfo) : string := Target t ++ nul ++ Portal t.
(** Appends a target that is not there yet. *)
Definition append_new (acc : list TargetInfo) (t : TargetInfo) : list TargetInfo :=
  if existsb (λ x, bool_decide (target_key x = target_key t)) acc then acc else (acc ++ [t])%list.

Definition nvmeTargetMatchesPublishIdentifier (publishIdentifier targetNQN : string) : bool :=
  bool_decide (publishIdentifier = targetNQN) || HasPrefix publishIdentifier (targetNQN ++ ":").

(** ** Who manages the sessions *)
Definition NVMeTCPConnModeDriver := "driver".
Definition NVMeTCPConnModeHost := "host".
Definition NVMeTCPConnModeDefault := NVMeTCPConnModeDriver.
Definition nvmeTCPDefaultPortSuffix := ":4420".
Definition nvmeTCPDegradedWarningInterval : Z := 15 * Minute.

Definition EnvNVMeTCPConnMode := "X_CSI_POWERMAX_NVMETCP_CONN_MODE".
(** [%q] of a string without special characters. *)
Definition quoted (s : string) : string := String (ascii_of_nat 34) s ++ String (ascii_of_nat 34) "".
Definition resolveNVMeTCPConnMode (value : string) : result error string :=
  let trimmed := TrimSpace value in
  if decide (trimmed = "") then Ok NVMeTCPConnModeDefault
  else
    let mode := ToLower trimmed in
    if decide (mode = NVMeTCPConnModeDriver ∨ mode = NVMeTCPConnModeHost) then Ok mode
    else Err (errorString ("invalid nvmeTcpConnMode " ++ quoted value ++ " for " ++ EnvNVMeTCPConnMode ++ "; valid values are "
      ++ quoted NVMeTCPConnModeDriver ++ " and " ++ quoted NVMeTCPConnModeHost)).
Definition isNVMeTCPHostManaged (o : nodeOpts) : bool := bool_decide (NVMeTCPConnMode o = NVMeTCPConnModeHost).

Definition normalizeNVMeTCPPortal (portal : string) : string :=
  if bool_decide (portal = "") || Contains portal ":" then portal else portal ++ nvmeTCPDefaultPortSuffix.
Definition nvmeTCPSessionMatchesTarget (session : NVMESession) (target : NVMeTCPTargetInfo) : bool :=
  ses_live session && ses_tcp session && nvmeTargetMatchesPublishIdentifier (Target target) (ses_Target session)
  && bool_decide (normalizeNVMeTCPPortal (ses_Portal session) = normalizeNVMeTCPPortal (Portal target)).

(** The different names, in order. *)
Fixpoint distinct (l seen : list string) : list string :=
  match l with
  | [] => []
  | x :: l => if decide (x ∈ seen) then distinct l seen else x :: distinct l (x :: seen)
  end.
Definition hostManagedMissingSessionError (array : string) (targets : list NVMeTCPTargetInfo) : error :=
  statusError FailedPrecondition ("host-managed NVMe/TCP: no eligible session to array " ++ array
    ++ "; the host has established no live NVMe/TCP session to any expected target (" ++ Join ", " (distinct (Target <$> targets) [])
    ++ "). Verify the host connectivity automation ran on this node").
Definition hostManagedDeviceNotVisibleError (array wwn : string) (cause : error) : error :=
  statusError FailedPrecondition ("host-managed NVMe/TCP: device for volume " ++ wwn ++ " is not visible on array " ++ array
    ++ " over the existing host session; the session is live but the device did not appear: " ++ Error cause).

(** ** Reports of paths *)
Definition shouldWarnDegraded (key : string) (now : Z) (t : nvmeTCPConnectivityTracker) : bool * nvmeTCPConnectivityTracker :=
  let degraded := {[key]} ∪ degraded t in
  match lastWarned t !! key with
  | Some last =>
      if now - last <? nvmeTCPDegradedWarningInterval then (false, mkTracker (lastWarned t) degraded)
      else (true, mkTracker (<[key := now]> (lastWarned t)) degraded)
  | None => (true, mkTracker (<[key := now]> (lastWarned t)) degraded)
  end.
Definition markRestored (key : string) (t : nvmeTCPConnectivityTracker) : bool * nvmeTCPConnectivityTracker :=
  if decide (key ∈ degraded t) then (true, mkTracker (delete key (lastWarned t)) (degraded t ∖ {[key]})) else (false, t).

Section targets.
Context {W C : Type} `{Pmax W C} `{MaskingClient W C} `{NodeNet W C} `{MapOrder}.
Context `{PC : Part caches W}.
Implicit Types (o : nodeOpts) (c : C).

(** ** Portals of port groups *)
Definition port_ips c (symID : string) (pk : PortKey) (m : gmap string Z) : M W (gmap string Z + error) :=
  let* p := lift (GetPortDetails c symID (DirectorID pk) (PortID pk)) in
  match p with
  | Err e => ret (inr e)
  | Ok p => ret (inl (fold_left (λ m ip, <[ip := TCPPort p]> m) (IPAddresses p) m))
  end.
Definition group_ips c (symID pg : string) (m : gmap string Z) : M W (gmap string Z + error) :=
  let* g := lift (GetPortGroupByID c symID pg) in
  match g with Err e => ret (inr e) | Ok g => forM (port_ips c symID) (SymmetrixPortKey g) m end.
Definition getIPInterfacesImpl (symID : string) (portGroups : list string) c : M W (result error (gmap string Z)) :=
  let* r := forM (group_ips c symID) portGroups ∅ in
  ret (match r with inl m => Ok m | inr e => Err e end).

(** ** All targets of an array *)
Definition expand (l : list array_target) : list TargetInfo := t ← l; mkTarget (at_ID t) <$> PortalIPs t.
Definition getISCSITargets (symID : string) c : M W (result error (list ISCSITargetInfo)) :=
  let* ch := read in
  match symToAllISCSITargets ch !! symID with
  | Some targets => ok targets
  | None =>
      let? pmaxTargets := lift (GetISCSITargets c symID)
        orelse (λ e, statusError Internal ("Could not get iscsi target information: " ++ Error e)) in
      let* _ := update (set_allISCSI <[symID := expand pmaxTargets]>) in ok (expand pmaxTargets)
  end.
Definition getNVMeTCPTargets (symID : string) c : M W (result error (list NVMeTCPTargetInfo)) :=
  let* ch := read in
  match symToAllNVMeTCPTargets ch !! symID with
  | Some targets => ok targets
  | None =>
      let? pmaxTargets := lift (GetNVMeTCPTargets c symID)
        orelse (λ e, statusError Internal ("Could not get invme target information: " ++ Error e)) in
      let* _ := update (set_allNVMe <[symID := expand pmaxTargets]>) in ok (expand pmaxTargets)
  end.

(** ** Sessions the host manages *)
Definition eligible_for (targets : list NVMeTCPTargetInfo) (session : NVMESession) : bool :=
  existsb (nvmeTCPSessionMatchesTarget session) targets.
Definition getEligibleNVMeTCPSessions (targets : list NVMeTCPTargetInfo) : M W (result error (list NVMESession)) :=
  let? sessions := lift GetSessions in ok (List.filter (eligible_for targets) sessions).

Definition no_targets_on_portals (array : string) : error :=
  errorString ("no NVMe targets for symid " ++ array ++ " on the configured portals").
Definition expectedNVMeTCPTargets (array : string) c : M W (result error (list NVMeTCPTargetInfo)) := getNVMeTCPTargets array c.
Definition expectedHostManagedNVMeTCPTargets o (array : string) c : M W (result error (list NVMeTCPTargetInfo)) :=
  let? expected := expectedNVMeTCPTargets array c in
  if decide (PortGroups (opts o) = []) then ok expected
  else
    let? portals := getIPInterfacesImpl array (PortGroups (opts o)) c in
    match List.filter (λ t, bool_decide (is_Some (portals !! Portal t))) expected with
    | [] => fail (no_targets_on_portals array)
    | scoped => ok scoped
    end.

Definition on_portals (portals : gmap string Z) (acc : list TargetInfo) (t : TargetInfo) : list TargetInfo :=
  if decide (is_Some (portals !! Portal t)) then append_new acc t else acc.
Definition hostManagedNVMeTCPTargetsForPortals o (symID : string) (portals : gmap string Z) c : M W (result error (list TargetInfo)) :=
  let? expected := expectedHostManagedNVMeTCPTargets o symID c in
  match fold_left (on_portals portals) expected [] with
  | [] => fail (no_targets_on_portals symID)
  | targets => ok targets
  end.

(** The report of one target, for the first of its portals. *)
Definition report_target (array : string) (eligible : list NVMESession) (target : NVMeTCPTargetInfo) : M W unit :=
  let key := nvmeTCPConnectivityKey array (Target target) in
  match List.find (λ s, nvmeTCPSessionMatchesTarget s target) eligible with
  | None =>
      let* now := lift Now in
      update (λ ch, let '(due, t) := shouldWarnDegraded key now (nvmeTCPConnectivity ch) in
                    set_tracker t (if (due : bool) then [Degraded array (Target target)] else []) ch)
  | Some session =>
      update (λ ch, let '(back, t) := markRestored key (nvmeTCPConnectivity ch) in
                    set_tracker t (if (back : bool) then [Restored array (Target target) (ses_Portal session)] else []) ch)
  end.
Fixpoint report_targets (array : string) (eligible : list NVMESession) (targets : list NVMeTCPTargetInfo) (reported : list string)
    : M W unit :=
  match targets with
  | [] => ret tt
  | t :: targets =>
      if decide (Target t ∈ reported) then report_targets array eligible targets reported
      else let* _ := report_target array eligible t in report_targets array eligible targets (Target t :: reported)
  end.
Definition evaluateHostManagedNVMeTCPTargets (array : string) (targets : list NVMeTCPTargetInfo)
    : M W (result error (list NVMESession)) :=
  let? eligible := getEligibleNVMeTCPSessions targets in
  let* _ := report_targets array eligible targets [] in ok eligible.

Definition adoptHostManagedNVMeTCPSessions (array : string) (targets : list NVMeTCPTargetInfo) : M W (option error) :=
  let* r := evaluateHostManagedNVMeTCPTargets array targets in
  match r with
  | Err e => ret (Some e)
  | Ok [] => ret (Some (errorString ("no eligible host-managed NVMe/TCP session for array " ++ array
      ++ "; the host has not established a live session to any expected target")))
  | Ok eligible =>
      let* _ := update (set_nvme (λ m, fold_left (λ m s, append_at array (ses_Target s) m) eligible m)) in
      let* _ := update (UpdateLoggedInNVMeArrays array true) in ret None
  end.

Definition verify_array o c (array : string) (u : unit) : M W (unit + error) :=
  if decide (array = "") then ret (inl tt)
  else
    let* t := expectedHostManagedNVMeTCPTargets o array c in
    match t with
    | Err e => ret (inr e)
    | Ok targets =>
        let* r := evaluateHostManagedNVMeTCPTargets array targets in
        match r with
        | Err e => ret (inr e)
        | Ok [] => ret (inr (hostManagedMissingSessionError array targets))
        | Ok _ => ret (inl tt)
        end
    end.
Definition verifyHostManagedNVMeTCPMetro o (localArray remoteArray : string) c : M W (option error) :=
  let* r := forM (verify_array o c) [localArray; remoteArray] tt in
  ret (match r with inl _ => None | inr e => Some e end).

Definition hostManagedNVMeTCPArrayReachable o (array : string) c : M W bool :=
  let* t := expectedHostManagedNVMeTCPTargets o array c in
  match t with
  | Err _ => ret false
  | Ok targets =>
      let* r := getEligibleNVMeTCPSessions targets in
      match r with Err _ => ret false | Ok eligible => ret (0 <? Z.of_nat (List.length eligible)) end
  end.

(** ** Targets on portals *)
Definition discover_one (portals : gmap string Z) (portal : string) (acc : list TargetInfo) : M W (list TargetInfo + unit) :=
  let* r := lift (DiscoverNVMeTCPTargets portal) in
  match r with
  | Err _ => ret (inl acc)
  | Ok targets => ret (inl (fold_left (on_portals portals) targets acc))
  end.
Definition getNVMeTCPTargetsFromPortals o (symID : string) (portals : gmap string Z) c : M W (result error (list TargetInfo)) :=
  if isNVMeTCPHostManaged o then hostManagedNVMeTCPTargetsForPortals o symID portals c
  else
    let* r := forM (discover_one portals) (range portals).*1 [] in
    match r with
    | inl [] | inr _ => fail (errorString ("no NVMe targets for symid " ++ symID))
    | inl targets => ok targets
    end.
Definition getNVMeTCPTargetsFromPortGroupsImpl o (symID : string) (portGroups : list string) c : M W (result error (list TargetInfo)) :=
  let? ipInterfaces := getIPInterfacesImpl symID portGroups c in getNVMeTCPTargetsFromPortals o symID ipInterfaces c.

(** ** The targets of a masking view *)
Definition mv_port c (array : string) (pk : PortKey) (acc : list maskingViewTargetInfo) : M W (list maskingViewTargetInfo + unit) :=
  let* p := lift (GetPortDetails c array (DirectorID pk) (PortID pk)) in
  match p with
  | Err _ => ret (inl acc)
  | Ok p => ret (inl (acc ++ ((λ ip, mkMVTarget (mkTarget (port_Identifier p) ip) false) <$> IPAddresses p))%list)
  end.
Definition getIscsiTargetsForMaskingView (array : string) (view : MaskingView) c : M W (result error (list maskingViewTargetInfo)) :=
  if decide (array = "") then fail (errorString "No array specified")
  else if decide (MV_PortGroupID view = "") then fail (errorString "Masking view contains no PortGroupID")
  else
    let? portGroup := lift (GetPortGroupByID c array (MV_PortGroupID view)) in
    let* r := forM (mv_port c array) (SymmetrixPortKey portGroup) [] in
    let targets := match r with inl l => l | inr _ => [] end in
    let* _ := update (set_views <[array := IscsiTargets targets]>) in ok targets.

Definition getNVMeTCPTargetsForMaskingView o (array : string) (view : MaskingView) c : M W (result error (list maskingViewNVMeTargetInfo)) :=
  if decide (array = "") then fail (errorString "No array specified")
  else if decide (MV_PortGroupID view = "") then fail (errorString "Masking view contains no PortGroupID")
  else
    let? configuredPortals := getIPInterfacesImpl array (PortGroups (opts o)) c in
    let? viewPortals := getIPInterfacesImpl array [MV_PortGroupID view] c in
    let allowedPortals := filter (λ kv, is_Some (configuredPortals !! kv.1)) viewPortals in
    if decide (allowedPortals = ∅) then
      fail (errorString ("masking view port group " ++ MV_PortGroupID view ++ " has no portals in the configured port groups"))
    else
      let? targets := getNVMeTCPTargetsFromPortals o array allowedPortals c in
      let* _ := update (set_views <[array := NVMeTargets targets]>) in ok targets.

(** ** CHAP and logins *)

(** The targets are the slice in the cache, so every change of a target is one of
    the cache; the last argument are the targets before, already done. *)
Fixpoint chap_loop (chapUserName password : string) (IQNs : list string) (done targets : list maskingViewTargetInfo)
    : M W (option error * list maskingViewTargetInfo) :=
  match targets with
  | [] => ret (None, done)
  | t :: targets =>
      let* user := if decide (chapUserName = "") then index IQNs 0 else ret chapUserName in
      if IsCHAPConfigured t then chap_loop user password IQNs (done ++ [t])%list targets
      else
        let* e := lift (SetCHAPCredentials (mv_target t) user password) in
        match e with
        | Some e => ret (Some e, (done ++ t :: targets)%list)
        | None => chap_loop user password IQNs (done ++ [mkMVTarget (mv_target t) true])%list targets
        end
  end.
Definition setCHAPCredentials o (array : string) (targets : list maskingViewTargetInfo) (IQNs : list string)
    : M W (option error * list maskingViewTargetInfo) :=
  if EnableCHAP o then
    if (0 <? Z.of_nat (List.length IQNs)) && bool_decide (CHAPUserName o ≠ "") then
      ret (Some (errorString "multiple IQNs found on host and CHAP username is not set. invalid configuration"), targets)
    else
      let* r := chap_loop (CHAPUserName o) (CHAPPassword o) IQNs [] targets in
      let* _ := update (set_views <[array := IscsiTargets r.2]>) in ret r
  else ret (None, targets).

(** Logs in to every target; what to do for one of them, and with its success. *)
Fixpoint login_all (one : TargetInfo → M W (option error)) (logged : TargetInfo → caches → caches) (describe : TargetInfo → error → string)
    (targets : list TargetInfo) (atLeastOne : bool) (errors : list string) : M W (bool * list string) :=
  match targets with
  | [] => ret (atLeastOne, errors)
  | t :: targets =>
      let* e := one t in
      match e with
      | Some e => login_all one logged describe targets atLeastOne (errors ++ [describe t e])%list
      | None => let* _ := update (logged t) in login_all one logged describe targets true errors
      end
  end.
Definition loginIntoISCSITargets o (array : string) (targets : list maskingViewTargetInfo) : M W (option error) :=
  let* r := login_all (λ t, if EnableCHAP o then lift (PerformLogin t) else lift (DiscoverAndLogin (Portal t)))
    (λ t, set_iscsi (append_at array (Target t))) (λ t e, "target: " ++ Target t ++ ", Error: " ++ Error e) (mv_target <$> targets) false [] in
  if (r.1 : bool) then let* _ := update (UpdateLoggedInArrays array true) in ret None
  else ret (Some (errorString ("failed to login to ISCSI targets on any of the portals. Errors: " ++ Join "; " r.2))).

Definition describe_portal (t : TargetInfo) (e : error) : string :=
  "target: " ++ Target t ++ ", portal: " ++ Portal t ++ ", Error: " ++ Error e.
Definition loginIntoNVMeTCPTargets o (array : string) (targets : list maskingViewNVMeTargetInfo) : M W (option error) :=
  if isNVMeTCPHostManaged o then adoptHostManagedNVMeTCPSessions array targets
  else
    let* r := login_all (λ t, lift (NVMeTCPConnect t)) (λ t, set_nvme (append_at array (Target t))) describe_portal targets false [] in
    if (r.1 : bool) then let* _ := update (UpdateLoggedInNVMeArrays array true) in ret None
    else ret (Some (errorString ("failed to connect to NVMe targets on any of the portals. Errors: " ++ Join "; " r.2))).

(** The targets found, and the error: both are used. *)
Definition getAndConfigureMaskingViewTargets o (array mvName : string) (IQNs : list string) c : M W (list TargetInfo * option error) :=
  let* view := lift (GetMaskingViewByID c array mvName) in
  match view with
  | Err e => ret ([], Some e)
  | Ok view =>
      let* r := getIscsiTargetsForMaskingView array view c in
      match r with
      | Err e => ret ([], Some e)
      | Ok [] => ret ([], None)
      | Ok targets =>
          let found := mv_target <$> targets in
          let* chap := setCHAPCredentials o array targets IQNs in
          match chap with
          | (Some e, _) => ret (found, Some e)
          | (None, targets) => let* e := loginIntoISCSITargets o array targets in ret (found, e)
          end
      end
  end.
Definition getAndConfigureMaskingViewTargetsNVMeTCP o (array mvName : string) c : M W (list TargetInfo * option error) :=
  let* view := lift (GetMaskingViewByID c array mvName) in
  match view with
  | Err e => ret ([], Some e)
  | Ok view =>
      let* r := getNVMeTCPTargetsForMaskingView o array view c in
      match r with
      | Err e => ret ([], Some e)
      | Ok [] => ret ([], None)
      | Ok targets => let* e := loginIntoNVMeTCPTargets o array targets in ret (targets, e)
      end
  end.

Definition setupNVMeTCPTargetDiscovery o (array : string) c : M W (option error) :=
  if isNVMeTCPHostManaged o then
    let* expected := expectedHostManagedNVMeTCPTargets o array c in
    match expected with Err e => ret (Some e) | Ok expected => adoptHostManagedNVMeTCPSessions array expected end
  else
    let groups := Sprint_strings (PortGroups (opts o)) in
    let* r := getNVMeTCPTargetsFromPortGroupsImpl o array (PortGroups (opts o)) c in
    match r with
    | Err e => ret (Some e)
    | Ok [] => ret (Some (errorString ("couldn't find any NVMeTCP targets on any of the port-groups " ++ groups)))
    | Ok targets =>
        let* r := login_all (λ t, lift (NVMeTCPConnect t)) (λ _ ch, ch) describe_portal targets false [] in
        if (r.1 : bool) then ret None
        else ret (Some (errorString ("failed to connect to NVMe targets on any of the port-groups " ++ groups ++ ". Errors: " ++ Join "; " r.2)))
    end.

Definition login_failed (array kind : string) (e : error) : error :=
  errorString ("failed to login in array: " ++ array ++ " " ++ kind ++ " targets. Error: " ++ Error e).
(** The error of a login to cached targets is not returned. *)
Definition performNVMETCPLoginOnSymID o (array mvName : string) c : M W (option error) :=
  let* ch := read in
  match symToMaskingViewTargets ch !! array with
  | Some (NVMeTargets targets) => let* _ := loginIntoNVMeTCPTargets o array targets in ret None
  | Some (IscsiTargets _) => panic
  | None =>
      let* r := getAndConfigureMaskingViewTargetsNVMeTCP o array mvName c in
      match r.2 with
      | Some e => if Contains (Error e) "does not exist" then ret None else ret (Some (login_failed array "NVME" e))
      | None => ret None
      end
  end.
Definition performIscsiLoginOnSymID o (array : string) (IQNs : list string) (mvName : string) c : M W (option error) :=
  let* ch := read in
  match symToMaskingViewTargets ch !! array with
  | Some (IscsiTargets targets) =>
      let* chap := setCHAPCredentials o array targets IQNs in
      let* e := loginIntoISCSITargets o array chap.2 in
      ret (login_failed array "ISCSI" <$> e)
  | Some (NVMeTargets _) => panic
  | None =>
      let* r := getAndConfigureMaskingViewTargets o array mvName IQNs c in
      match r.2 with
      | Some e => if Contains (Error e) "does not exist" then ret None else ret (Some (login_failed array "ISCSI" e))
      | None => ret None
      end
  end.

(** The client of an array, and the protocols in use. *)
Variable client : string → M W (result error C).
Variable useIscsi useNVMeTCP : bool.

Definition some_targets_failed (array : string) (e : error) : error :=
  errorString ("failed to login to (some) " ++ array ++ " ISCSI targets. Error: " ++ Error e).
(** [inr]: the loop ends, with an error or without. *)
Definition ensure_one o (array : string) (u : unit) : M W (unit + option error) :=
  let* cl := client array in
  match cl with
  | Err _ => ret (inl tt)
  | Ok c =>
      let* ch := read in
      if decide (array ∈ isSymConnFC ch) then ret (inl tt)
      else if GetLoggedInArrays array ch then ret (inr None)
      else if GetLoggedInNVMeArrays array ch then ret (inr None)
      else if useIscsi then
        let '(_, _, mvName) := GetISCSIHostSGAndMVIDFromNodeID (opts o) (csiNodeID o) in
        let* IQNs := lift GetInitiators in
        match IQNs with
        | Err e => ret (inr (Some e))
        | Ok IQNs =>
            let* e := performIscsiLoginOnSymID o array IQNs mvName c in
            match e with Some e => ret (inr (Some (some_targets_failed array e))) | None => ret (inl tt) end
        end
      else if useNVMeTCP then
        let '(_, _, mvName) := GetNVMETCPHostSGAndMVIDFromNodeID (opts o) (csiNodeID o) in
        let* e := performNVMETCPLoginOnSymID o array mvName c in
        match e with Some e => ret (inr (Some (some_targets_failed array e))) | None => ret (inl tt) end
      else ret (inl tt)
  end.
Definition ensureLoggedIntoEveryArray o : M W (option error) :=
  let* r := forM (ensure_one o) (ManagedArrays o) tt in
  ret (match r with inl _ => None | inr e => e end).

(** ** The targets of a published volume *)

(** The targets found so far, and the scoped targets once they were asked for. *)
Record search := mkSearch { found_targets : list TargetInfo; scoped : option (list TargetInfo) }.
Definition matching (arrayTarget : string) (l : list TargetInfo) : list TargetInfo :=
  List.filter (λ t, nvmeTargetMatchesPublishIdentifier arrayTarget (Target t)) l.
Definition loadScopedTargets o (symID : string) c (s : search) : M W (list TargetInfo) :=
  match scoped s with
  | Some l => ret l
  | None =>
      let* r := getNVMeTCPTargetsFromPortGroupsImpl o symID (PortGroups (opts o)) c in
      ret (match r with Ok l => l | Err _ => [] end)
  end.
(** [inr]: the loop ends with what was found. *)
Definition cached_nvme o (symID : string) c (cached : list TargetInfo) (arrayTarget : string) (s : search) : M W (search + list TargetInfo) :=
  match matching arrayTarget cached with
  | [] =>
      let* _ := update (set_views (delete symID)) in
      let* all := loadScopedTargets o symID c s in
      match matching arrayTarget all with
      | [] => let* _ := update (set_allNVMe (delete symID)) in ret (inr (found_targets s))
      | l => ret (inl (mkSearch (fold_left append_new l (found_targets s)) (Some all)))
      end
  | l => ret (inl (mkSearch (fold_left append_new l (found_targets s)) (scoped s)))
  end.
Definition getAndConfigureArrayNVMeTCPTargets o (arrayTargets : list string) (symID : string) c : M W (list NVMeTCPTargetInfo) :=
  let* ch := read in
  match symToMaskingViewTargets ch !! symID with
  | Some (NVMeTargets cached) =>
      let* r := forM (cached_nvme o symID c cached) arrayTargets (mkSearch [] None) in
      ret (match r with inl s => found_targets s | inr l => l end)
  | other =>
      let* _ := match other with Some _ => update (set_allNVMe (delete symID)) | None => ret tt end in
      let '(_, _, mvName) := GetNVMETCPHostSGAndMVIDFromNodeID (opts o) (csiNodeID o) in
      let* r := getAndConfigureMaskingViewTargetsNVMeTCP o symID mvName c in
      ret (fold_left (λ acc arrayTarget, fold_left append_new (matching arrayTarget r.1) acc) arrayTargets [])
  end.

Definition named (arrayTarget : string) (l : list TargetInfo) : list TargetInfo :=
  List.filter (λ t, bool_decide (arrayTarget = Target t)) l.
(** The targets found, and whether one of any name was: it is not reset for the
    next name. *)
Definition cached_iscsi (symID : string) (targets all : list TargetInfo) (arrayTarget : string) (s : list TargetInfo * bool)
    : M W (list TargetInfo * bool + list TargetInfo) :=
  let '(acc, found) := s in
  let here := named arrayTarget targets in
  let found := found || bool_decide (here ≠ []) in
  let acc := (acc ++ here)%list in
  if found then ret (inl (acc, found))
  else
    let* _ := update (set_views (delete symID)) in
    match named arrayTarget all with
    | [] => let* _ := update (set_allISCSI (delete symID)) in ret (inr acc)
    | l => ret (inl ((acc ++ l)%list, found))
    end.
Definition getAndConfigureArrayISCSITargets o (arrayTargets : list string) (symID : string) c : M W (list ISCSITargetInfo) :=
  let* all := getISCSITargets symID c in
  let allTargets := match all with Ok l => l | Err _ => [] end in
  let* IQNs := lift GetInitiators in
  match IQNs with
  | Err _ => ret []
  | Ok IQNs =>
      let* ch := read in
      match symToMaskingViewTargets ch !! symID with
      | Some (IscsiTargets targets) =>
          let* chap := setCHAPCredentials o symID targets IQNs in
          let* _ := match chap.1 with
            | Some _ => ret tt
            | None => update (set_views <[symID := IscsiTargets ((λ t, mkMVTarget (mv_target t) true) <$> chap.2)]>)
            end in
          let* r := forM (cached_iscsi symID (mv_target <$> chap.2) allTargets) arrayTargets ([], false) in
          ret (match r with inl s => s.1 | inr l => l end)
      | other =>
          let* _ := match other with Some _ => update (set_allISCSI (delete symID)) | None => ret tt end in
          let '(_, _, mvName) := GetISCSIHostSGAndMVIDFromNodeID (opts o) (csiNodeID o) in
          let* r := getAndConfigureMaskingViewTargets o symID mvName IQNs c in
          ret (arrayTarget ← arrayTargets; named arrayTarget r.1)
      end
  end.

(** [strings.Replace(s, "0x", "", 1)] of a string with this prefix. *)
Definition fc_target (t : string) : option FCTargetInfo := if HasPrefix t "0x" then Some (mkFCTarget (sdrop 2 t)) else None.
Record array_targets := mkArrayTargets {
  tg_iscsi : list ISCSITargetInfo;
  tg_fc : list FCTargetInfo;
  tg_nvme : list NVMeTCPTargetInfo;
  isFC : bool;
  isNVMeTCP : bool;
}.
Definition getArrayTargets o (targetIdentifiers symID : string) c : M W array_targets :=
  match Split "," targetIdentifiers with
  | [] | [_] => ret (mkArrayTargets [] [] [] false false)
  | parts =>
      let arrayTargets := removelast parts in
      let fcTargets := omap fc_target arrayTargets in
      let isFC := bool_decide (fcTargets ≠ []) in
      if existsb (λ t, HasPrefix t "nqn") arrayTargets then
        let* nvmeTargets := getAndConfigureArrayNVMeTCPTargets o arrayTargets symID c in
        ret (mkArrayTargets [] fcTargets nvmeTargets isFC true)
      else if isFC then ret (mkArrayTargets [] fcTargets [] true false)
      else
        let* iscsiTargets := getAndConfigureArrayISCSITargets o arrayTargets symID c in
        ret (mkArrayTargets iscsiTargets [] [] false false)
  end.
End targets.

(** ** Theorems: the sessions of a host *)
Section frames.
Context {W C : Type} `{Pmax W C} `{MaskingClient W C} `{NodeNet W C} `{MapOrder} `{PC : Part caches W}.

(** A property of the world that no call changes but the two that discover NVMe
    targets and connect to them. *)
Record net_frame (I : W → Prop) : Prop := mkNetFrame {
  nf_now w : I w → I (Now (C := C) w).2;
  nf_group (c : C) a b w : I w → I (GetPortGroupByID c a b w).2;
  nf_port (c : C) a d p w : I w → I (GetPortDetails c a d p w).2;
  nf_view (c : C) a b w : I w → I (GetMaskingViewByID c a b w).2;
  nf_nvme (c : C) a w : I w → I (GetNVMeTCPTargets c a w).2;
  nf_iscsi (c : C) a w : I w → I (GetISCSITargets c a w).2;
  nf_initiators w : I w → I (GetInitiators (C := C) w).2;
  nf_login t w : I w → I (PerformLogin (C := C) t w).2;
  nf_discover p w : I w → I (DiscoverAndLogin (C := C) p w).2;
  nf_chap t u p w : I w → I (SetCHAPCredentials (C := C) t u p w).2;
  nf_sessions w : I w → I (GetSessions (C := C) w).2;
}.

End frames.

(** Changes of the caches that add no NVMe targets to those of masking views. *)
Definition harmless (ch' ch : caches) : Prop :=
  ∀ a ts, symToMaskingViewTargets ch' !! a = Some (NVMeTargets ts) → symToMaskingViewTargets ch !! a = Some (NVMeTargets ts).
Lemma harmless_same ch' ch : symToMaskingViewTargets ch' = symToMaskingViewTargets ch → harmless ch' ch.
Proof. by intros E a ts; rewrite E. Qed.
Lemma harmless_delete ch k : harmless (set_views (delete k) ch) ch.
Proof. intros a ts. simpl. by intros [_ ?]%lookup_delete_Some. Qed.
Lemma harmless_iscsi ch k l : harmless (set_views <[k := IscsiTargets l]> ch) ch.
Proof. intros a ts. simpl. by intros [[_ ?]|[_ ?]]%lookup_insert_Some. Qed.
Ltac is_harmless :=
  first [apply harmless_delete | apply harmless_iscsi | apply harmless_same; repeat case_match; reflexivity].

Ltac net_call := idtac;
  match goal with
  | Hf : net_frame ?I |- holds ?I (lift _) _ => apply holds_lift; intros ? ?; split; [|done];
      first [by apply (nf_now _ Hf) | by apply (nf_group _ Hf) | by apply (nf_port _ Hf) | by apply (nf_view _ Hf)
            | by apply (nf_nvme _ Hf) | by apply (nf_iscsi _ Hf) | by apply (nf_initiators _ Hf) | by apply (nf_login _ Hf)
            | by apply (nf_discover _ Hf) | by apply (nf_chap _ Hf) | by apply (nf_sessions _ Hf)]
  | Hp : (∀ ch w, harmless ch (part w) → ?I w → ?I (set_part ch w)) |- holds ?I (update _) _ =>
      apply holds_update; [intros ? ?; apply Hp; [is_harmless|done]|done]
  | |- holds _ (forM _ _ _) _ => eapply holds_weaken; [apply (holds_forM _ _ _ _ (λ _, True) (λ _, True)); [intros|done]|done]
  end.
Ltac net := hold_with net_call.

Section calls_frame.
Context {W C : Type} `{Pmax W C} `{MaskingClient W C} `{NodeNet W C} `{MapOrder} `{PC : Part caches W}.
Context (I : W → Prop) (Hf : net_frame (C := C) I) (Hput : ∀ ch w, harmless ch (part w) → I w → I (set_part ch w)).

Lemma ips_frame symID pgs (c : C) : holds I (getIPInterfacesImpl symID pgs c) (λ _, True).
Proof. unfold getIPInterfacesImpl, group_ips, port_ips. net. Qed.
Lemma expected_frame o array (c : C) : holds I (expectedHostManagedNVMeTCPTargets o array c) (λ _, True).
Proof. unfold expectedHostManagedNVMeTCPTargets, expectedNVMeTCPTargets, getNVMeTCPTargets. net. apply ips_frame. Qed.
Lemma report_frame array eligible ts rep : holds I (report_targets (C := C) array eligible ts rep) (λ _, True).
Proof. revert rep. induction ts as [|t ts IH]; intros rep; simpl; unfold report_target; net; apply IH. Qed.
Lemma evaluate_frame array ts : holds I (evaluateHostManagedNVMeTCPTargets (C := C) array ts) (λ _, True).
Proof. unfold evaluateHostManagedNVMeTCPTargets, getEligibleNVMeTCPSessions. net. apply report_frame. Qed.
Lemma adopt_frame array ts : holds I (adoptHostManagedNVMeTCPSessions (C := C) array ts) (λ _, True).
Proof. unfold adoptHostManagedNVMeTCPSessions. net. apply evaluate_frame. Qed.
Lemma login_all_frame one logged describe ts b es :
  (∀ t, holds I (one t) (λ _, True)) → (∀ t ch, harmless (logged t ch) ch) → holds I (login_all one logged describe ts b es) (λ _, True).
Proof.
  intros Ho Hl. revert b es. induction ts as [|t ts IH]; intros b es; simpl; net; auto.
  apply holds_update; [|done]. intros w Hw. by apply Hput.
Qed.
Lemma chap_loop_frame u p iqns l ts : holds I (chap_loop (C := C) u p iqns l ts) (λ _, True).
Proof. revert u l. induction ts as [|t ts IH]; intros u l; simpl; net; apply IH. Qed.
Lemma iscsi_login_frame o array ts : holds I (loginIntoISCSITargets (C := C) o array ts) (λ _, True).
Proof. unfold loginIntoISCSITargets. net. apply login_all_frame; [intros t; net|by intros; apply harmless_same]. Qed.
Lemma chap_frame o array ts iqns : holds I (setCHAPCredentials (C := C) o array ts iqns) (λ _, True).
Proof. unfold setCHAPCredentials. net. apply chap_loop_frame. Qed.
Lemma iscsi_view_frame o array mv iqns (c : C) : holds I (getAndConfigureMaskingViewTargets o array mv iqns c) (λ _, True).
Proof.
  unfold getAndConfigureMaskingViewTargets, getIscsiTargetsForMaskingView, mv_port. net; first [apply chap_frame|apply iscsi_login_frame].
Qed.
Lemma iscsi_targets_frame o ids sym (c : C) : holds I (getAndConfigureArrayISCSITargets o ids sym c) (λ _, True).
Proof.
  unfold getAndConfigureArrayISCSITargets, getISCSITargets, cached_iscsi. net; first [apply chap_frame|apply iscsi_view_frame].
Qed.

End calls_frame.

Section host_managed.
Context {W C : Type} `{Pmax W C} `{MaskingClient W C} `{NodeNet W C} `{MapOrder} `{PC : Part caches W}.
Context (I : W → Prop) (Hf : net_frame (C := C) I) (Hput : ∀ ch w, I w → I (set_part (ch : caches) w)).
Context (o : nodeOpts) (Ho : isNVMeTCPHostManaged o = true).
Local Lemma Hput' ch w : harmless ch (part w) → I w → I (set_part ch w).
Proof. auto. Qed.
Lemma portals_frame sym ps (c : C) : holds I (getNVMeTCPTargetsFromPortals o sym ps c) (λ _, True).
Proof.
  pose proof Hput' as Hput'. unfold getNVMeTCPTargetsFromPortals, hostManagedNVMeTCPTargetsForPortals. rewrite Ho. net. apply (expected_frame I Hf Hput').
Qed.
Lemma nvme_login_frame array ts : holds I (loginIntoNVMeTCPTargets (C := C) o array ts) (λ _, True).
Proof. unfold loginIntoNVMeTCPTargets. rewrite Ho. apply (adopt_frame I Hf Hput'). Qed.
Lemma nvme_view_frame array mv (c : C) : holds I (getAndConfigureMaskingViewTargetsNVMeTCP o array mv c) (λ _, True).
Proof.
  pose proof Hput' as Hput'. unfold getAndConfigureMaskingViewTargetsNVMeTCP, getNVMeTCPTargetsForMaskingView.
  net; first [apply (ips_frame I Hf)|apply portals_frame|apply nvme_login_frame|by apply holds_update; [intros; apply Hput|]].
Qed.
Lemma nvme_targets_frame ids sym (c : C) : holds I (getAndConfigureArrayNVMeTCPTargets o ids sym c) (λ _, True).
Proof.
  pose proof Hput' as Hput'. unfold getAndConfigureArrayNVMeTCPTargets, cached_nvme, loadScopedTargets, getNVMeTCPTargetsFromPortGroupsImpl.
  net; first [apply (ips_frame I Hf)|apply portals_frame|apply nvme_view_frame].
Qed.
Lemma ensure_frame client b1 b2 : (∀ a, holds I (client a) (λ _, True)) →
  holds I (ensureLoggedIntoEveryArray (C := C) client b1 b2 o) (λ _, True).
Proof.
  intros Hc. pose proof Hput' as Hput'. unfold ensureLoggedIntoEveryArray, ensure_one, performIscsiLoginOnSymID, performNVMETCPLoginOnSymID.
  net; first [apply Hc|apply (chap_frame I Hf Hput')|apply (iscsi_login_frame I Hf Hput')|apply (iscsi_view_frame I Hf Hput')|apply nvme_login_frame|apply nvme_view_frame].
Qed.

(** With the sessions of NVMe/TCP left to the host, finding the targets of a volume, logging in to
    the arrays, setting up an array and checking the arrays of a Metro volume never discover targets
    over the fabric nor connect to one: whatever only these two calls change stays as it is. *)
Theorem host_managed_no_fabric client b1 b2 ids sym l r (c : C) :
  (∀ a, holds I (client a) (λ _, True)) →
  holds I (getArrayTargets o ids sym c) (λ _, True)
  ∧ holds I (ensureLoggedIntoEveryArray client b1 b2 o) (λ _, True)
  ∧ holds I (setupNVMeTCPTargetDiscovery o sym c) (λ _, True)
  ∧ holds I (verifyHostManagedNVMeTCPMetro o l r c) (λ _, True)
  ∧ holds I (hostManagedNVMeTCPArrayReachable o sym c) (λ _, True).
Proof.
  intros Hc. pose proof Hput' as Hput'. split_and!; [..|by apply ensure_frame| | |].
  - unfold getArrayTargets. net; first [apply nvme_targets_frame|apply (iscsi_targets_frame I Hf Hput')].
  - unfold setupNVMeTCPTargetDiscovery. rewrite Ho. net; first [apply (expected_frame I Hf Hput')|apply (adopt_frame I Hf Hput')].
  - unfold verifyHostManagedNVMeTCPMetro, verify_array. net; first [apply (expected_frame I Hf Hput')|apply (evaluate_frame I Hf Hput')].
  - unfold hostManagedNVMeTCPArrayReachable, getEligibleNVMeTCPSessions. net. apply (expected_frame I Hf Hput').
Qed.
End host_managed.

(** ** Theorems: reports of paths *)

(** What is seen of a path at a time, and what is said then. *)
Inductive saying := SayDegraded | SayRestored.
Record observation := mkObs { ob_key : string; ob_time : Z; ob_live : bool }.
Definition observe (ob : observation) (t : nvmeTCPConnectivityTracker) : option saying * nvmeTCPConnectivityTracker :=
  if ob_live ob then let '(back, t) := markRestored (ob_key ob) t in (if back then Some SayRestored else None, t)
  else let '(due, t) := shouldWarnDegraded (ob_key ob) (ob_time ob) t in (if due then Some SayDegraded else None, t).
Fixpoint sayings (obs : list observation) (t : nvmeTCPConnectivityTracker) : list (observation * saying) :=
  match obs with
  | [] => []
  | ob :: obs => let '(s, t) := observe ob t in
      match s with Some s => (ob, s) :: sayings obs t | None => sayings obs t end
  end.

(** The reference: a single path remembers only when it was last reported as
    degraded, if it is. *)
Definition path_step (last : option Z) (ob : observation) : option saying * option Z :=
  match ob_live ob, last with
  | true, Some _ => (Some SayRestored, None)
  | true, None => (None, None)
  | false, None => (Some SayDegraded, Some (ob_time ob))
  | false, Some l => if ob_time ob - l <? nvmeTCPDegradedWarningInterval then (None, Some l) else (Some SayDegraded, Some (ob_time ob))
  end.
Fixpoint path_sayings (obs : list observation) (last : option Z) : list (observation * saying) :=
  match obs with
  | [] => []
  | ob :: obs => let '(s, last) := path_step last ob in
      match s with Some s => (ob, s) :: path_sayings obs last | None => path_sayings obs last end
  end.
Definition of_path (key : string) (obs : list observation) : list observation := List.filter (λ ob, bool_decide (ob_key ob = key)) obs.
Definition said_of (key : string) (l : list (observation * saying)) : list (observation * saying) :=
  List.filter (λ x, bool_decide (ob_key x.1 = key)) l.

(** A path is degraded exactly while it has a time. *)
Definition tracker_ok (t : nvmeTCPConnectivityTracker) : Prop := ∀ k, k ∈ degraded t ↔ is_Some (lastWarned t !! k).

Lemma observe_same ob t : tracker_ok t →
  let '(s, t') := observe ob t in path_step (lastWarned t !! ob_key ob) ob = (s, lastWarned t' !! ob_key ob) ∧ tracker_ok t'.
Proof.
  intros Ht. unfold observe, path_step, markRestored, shouldWarnDegraded, tracker_ok in *.
  destruct (ob_live ob), (lastWarned t !! ob_key ob) as [l|] eqn:E; simpl.
  - rewrite decide_True by (by apply Ht; rewrite E). simpl. split; [by rewrite lookup_delete_eq|].
    intros k. destruct (decide (k = ob_key ob)) as [->|Hk].
    + rewrite lookup_delete_eq. split; [set_solver|by intros [??]].
    + rewrite lookup_delete_ne by done. rewrite <-Ht. set_solver.
  - rewrite decide_False; [by rewrite E|]. rewrite Ht, E. by intros [??].
  - destruct (_ <? _); simpl; (split; [by rewrite ?E, ?lookup_insert_eq|]); intros k.
    + rewrite elem_of_union, elem_of_singleton, Ht. split; [intros [->|?]; [by rewrite E|done]|auto].
    + rewrite elem_of_union, elem_of_singleton, Ht. destruct (decide (k = ob_key ob)) as [->|Hk].
      * rewrite lookup_insert_eq. split; eauto.
      * rewrite lookup_insert_ne by done. split; [intros [?|?]; done|auto].
  - split; [by rewrite lookup_insert_eq|]. intros k. rewrite elem_of_union, elem_of_singleton, Ht.
    destruct (decide (k = ob_key ob)) as [->|Hk].
    + rewrite lookup_insert_eq. split; eauto.
    + rewrite lookup_insert_ne by done. split; [intros [?|?]; done|auto].
Qed.

Lemma observe_other ob t k : k ≠ ob_key ob → lastWarned (observe ob t).2 !! k = lastWarned t !! k.
Proof.
  intros Hk. unfold observe, markRestored, shouldWarnDegraded.
  destruct (ob_live ob); [case_decide; simpl; [by rewrite lookup_delete_ne|done]|].
  destruct (lastWarned t !! ob_key ob); [destruct (_ <? _)|]; simpl; by rewrite ?lookup_insert_ne.
Qed.

(** Reports of a degraded path are an interval apart, and its return is only told
    after one of them. *)
Fixpoint spaced (last : option Z) (l : list (observation * saying)) : Prop :=
  match l with
  | [] => True
  | (ob, SayDegraded) :: l => (∀ t, last = Some t → nvmeTCPDegradedWarningInterval ≤ ob_time ob - t) ∧ spaced (Some (ob_time ob)) l
  | (_, SayRestored) :: l => is_Some last ∧ spaced None l
  end.
Lemma path_spaced obs last : spaced last (path_sayings obs last).
Proof.
  revert last. induction obs as [|ob obs IH]; intros last; [done|]. cbn [path_sayings]. unfold path_step.
  destruct (ob_live ob), last as [l|]; simpl; [split; [done|apply IH]|apply IH| |split; [done|apply IH]].
  destruct (Z.ltb_spec (ob_time ob - l) nvmeTCPDegradedWarningInterval); simpl; [apply IH|].
  split; [by intros t [= <-]|apply IH].
Qed.

(** C24: what is said of a path, among any others and whatever is seen of them, is what a tracker of that
    path alone says, and as it should be: a path without a live session is reported at once, again only when the warning
    interval has passed, and its return exactly once. *)
Theorem path_reports_reference key obs t :
  tracker_ok t →
  said_of key (sayings obs t) = path_sayings (of_path key obs) (lastWarned t !! key)
  ∧ spaced (lastWarned t !! key) (said_of key (sayings obs t)).
Proof.
  intros Ht. assert (E : said_of key (sayings obs t) = path_sayings (of_path key obs) (lastWarned t !! key));
    [|split; [done|rewrite E; apply path_spaced]].
  revert t Ht. induction obs as [|ob obs IH]; intros t Ht; [done|]. cbn [sayings of_path List.filter].
  pose proof (observe_same ob t Ht) as Hs. pose proof (observe_other ob t key) as Ho.
  destruct (observe ob t) as [s t']. destruct Hs as [Hs Ht']. cbn [snd] in Ho. specialize (IH t' Ht').
  destruct (decide (ob_key ob = key)) as [Hk|Hk].
  - rewrite (bool_decide_eq_true_2 _ Hk). cbn [path_sayings]. rewrite <-Hk, Hs in *. rewrite Hk in *.
    destruct s; [|done]. cbn [said_of List.filter fst]. rewrite (bool_decide_eq_true_2 _ Hk). f_equal. exact IH.
  - rewrite (bool_decide_eq_false_2 _ Hk). rewrite <-Ho by congruence.
    destruct s; [|done]. cbn [said_of List.filter fst]. by rewrite (bool_decide_eq_false_2 _ Hk).
Qed.


(** ** Theorems: targets outside the port groups *)
Section scoped_targets.
Context {W C : Type} `{Pmax W C} `{MaskingClient W C} `{NodeNet W C} `{MapOrder} `{PC : Part caches W}.
Context (o : nodeOpts).

(** The calls are not the driver's own code, so they do not change its variables; whatever they answer, an
    error too, and whether it is the same the next time, is left open. *)
Record separate : Prop := mkSeparate {
  st_calls ch : net_frame (C := C) (λ w, part w = ch);
  st_discover p w : part (DiscoverNVMeTCPTargets (C := C) p w).2 = part w;
  st_connect t w : part (NVMeTCPConnect (C := C) t w).2 = part w;
}.

(** At some time the array answered the group with this port, and at some time the port with this portal. *)
Definition group_answered (array group : string) (pg : PortGroup) : Prop := ∃ (c : C) (w w' : W), GetPortGroupByID c array group w = (Ok pg, w').
Definition port_answered (array : string) (pk : PortKey) (p : port_details) : Prop :=
  ∃ (c : C) (w w' : W), GetPortDetails c array (DirectorID pk) (PortID pk) w = (Ok p, w').
Definition portal_in (array group ip : string) : Prop :=
  ∃ pg pk p, group_answered array group pg ∧ pk ∈ SymmetrixPortKey pg ∧ port_answered array pk p ∧ ip ∈ IPAddresses p.
(** A portal of the port groups the driver is configured with. *)
Definition configured (array ip : string) : Prop := ∃ g, g ∈ PortGroups (opts o) ∧ portal_in array g ip.
Definition views_scoped (ch : caches) : Prop :=
  ∀ a ts t, symToMaskingViewTargets ch !! a = Some (NVMeTargets ts) → t ∈ ts → configured a (Portal t).

Context (Hst : separate).
Definition kept (w : W) : Prop := views_scoped (part w).

Lemma kept_call {A} (f : W → A * W) Q : (∀ w, part (f w).2 = part w) → (∀ w, Q (f w).1) → holds kept (lift f) Q.
Proof. intros Hf HQ. apply holds_lift. unfold kept. intros w Hw. by rewrite Hf. Qed.
Lemma kept_answer {A} (f : W → A * W) : (∀ w, part (f w).2 = part w) → holds kept (lift f) (λ r, ∃ w w', f w = (r, w')).
Proof. intros Hf w r w' E Hw. injection E as E. split; [|by exists w, w']. specialize (Hf w). rewrite E in Hf. simpl in Hf. unfold kept. by rewrite Hf. Qed.
Lemma kept_frame : net_frame (C := C) kept.
Proof.
  assert (Hc := λ ch, st_calls Hst ch). constructor; unfold kept; intros; revert select (views_scoped _); intros Hv;
    match goal with |- views_scoped (part (_ ?w).2) => destruct (Hc (part w)) end; by repeat match goal with
    | Hx : ∀ _, _ |- _ => rewrite Hx by done; clear Hx end.
Qed.
Lemma kept_put ch w : harmless ch (part w) → kept w → kept (set_part ch w).
Proof. intros Hh Hk a ts t Ha. rewrite part_set in Ha. by apply (Hk a ts t), Hh. Qed.

Definition from_groups (a : string) (gs : list string) (m : gmap string Z) : Prop :=
  ∀ ip, is_Some (m !! ip) → ∃ g, g ∈ gs ∧ portal_in a g ip.
Lemma insert_ips a gs g pg pk p m :
  from_groups a gs m → g ∈ gs → group_answered a g pg → pk ∈ SymmetrixPortKey pg → port_answered a pk p →
  from_groups a gs (fold_left (λ m ip, <[ip := TCPPort p]> m) (IPAddresses p) m).
Proof.
  intros Hm Hg Eg Hpk Ep. assert (Hall : ∀ ip, ip ∈ IPAddresses p → portal_in a g ip) by (intros ip ?; by exists pg, pk, p).
  revert m Hm Hall. generalize (IPAddresses p) as ips. induction ips as [|ip ips IH]; intros m Hm Hall; [done|]. simpl.
  apply IH; [|intros; apply Hall; by right]. intros ip' Hs. destruct (decide (ip' = ip)) as [->|Hne].
  - exists g. split; [done|]. apply Hall. by left.
  - rewrite lookup_insert_ne in Hs by done. by apply Hm.
Qed.
Lemma ips_spec a gs (c : C) : holds kept (getIPInterfacesImpl a gs c) (ok_with (from_groups a gs)).
Proof.
  unfold getIPInterfacesImpl. eapply (holds_bind _ _ _ (ends (from_groups a gs) (λ _, True))); [|by intros [?|?] ?; apply holds_ret].
  apply holds_forM; [|intros ip [? E]; by rewrite lookup_empty in E]. intros g m Hg Hm. unfold group_ips.
  eapply holds_bind; [apply kept_answer; intros; by apply (nf_group _ (st_calls Hst _))|].
  intros [pg|e] (w1 & w1' & Eg); [|by apply holds_ret].
  apply holds_forM; [|done]. intros pk m' Hpk Hm'. unfold port_ips.
  eapply holds_bind; [apply kept_answer; intros; by apply (nf_port _ (st_calls Hst _))|].
  intros [p|e] (w2 & w2' & Ep); apply holds_ret; [|done]. eapply insert_ips; [done|done|by exists c, w1, w1'|done|by exists c, w2, w2'].
Qed.

Lemma append_new_in acc t x : x ∈ append_new acc t → x ∈ acc ∨ x = t.
Proof. unfold append_new. destruct (existsb _ _); [auto|]. rewrite elem_of_app, list_elem_of_singleton. tauto. Qed.
Lemma append_all_in l acc x : x ∈ fold_left append_new l acc → x ∈ acc ∨ x ∈ l.
Proof.
  revert acc. induction l as [|t l IH]; intros acc; simpl; [auto|]. intros [[?| ->]%append_new_in|?]%IH; set_solver.
Qed.
Definition all_on (ps : gmap string Z) (l : list TargetInfo) : Prop := ∀ t, t ∈ l → is_Some (ps !! Portal t).
Lemma on_portals_all ps l acc : all_on ps acc → all_on ps (fold_left (on_portals ps) l acc).
Proof.
  revert acc. induction l as [|t l IH]; intros acc Ha; [done|]. simpl. apply IH. unfold on_portals. case_decide; [|done].
  intros x [?| ->]%append_new_in; auto.
Qed.

Lemma portals_spec a ps (c : C) : holds kept (getNVMeTCPTargetsFromPortals o a ps c) (ok_with (all_on ps)).
Proof.
  assert (Hnil : all_on ps []) by (by intros t ?%elem_of_nil).
  unfold getNVMeTCPTargetsFromPortals, hostManagedNVMeTCPTargetsForPortals. destruct (isNVMeTCPHostManaged o).
  - apply holds_try_seq; [apply (expected_frame kept kept_frame kept_put)|done|]. intros expected.
    pose proof (on_portals_all ps expected [] Hnil). destruct (fold_left _ _ _); by apply holds_ret.
  - eapply (holds_bind _ _ _ (ends (all_on ps) (λ _, True))).
    + apply holds_forM; [|done]. intros p acc _ Hacc. unfold discover_one. apply holds_seq; [by apply kept_call; [apply (st_discover Hst)|]|].
      intros [ts|e]; apply holds_ret; [by apply on_portals_all|done].
    + intros [[|t l]|?] Hl; by apply holds_ret.
Qed.
Definition all_configured (a : string) (l : list TargetInfo) : Prop := ∀ t, t ∈ l → configured a (Portal t).
Lemma groups_spec a (c : C) :
  holds kept (getNVMeTCPTargetsFromPortGroupsImpl o a (PortGroups (opts o)) c) (ok_with (all_configured a)).
Proof.
  unfold getNVMeTCPTargetsFromPortGroupsImpl. eapply holds_try; [apply ips_spec|done|]. intros ps Hps.
  eapply holds_weaken; [apply portals_spec|]. intros [ts|e] Hts; [|done]. intros t Ht. by apply Hps, Hts.
Qed.

Lemma view_spec a view (c : C) : holds kept (getNVMeTCPTargetsForMaskingView o a view c) (ok_with (all_configured a)).
Proof.
  unfold getNVMeTCPTargetsForMaskingView. case_decide; [by apply holds_ret|]. case_decide; [by apply holds_ret|].
  eapply holds_try; [apply ips_spec|done|]. intros configuredPortals Hc.
  eapply holds_try; [apply ips_spec|done|]. intros viewPortals _. case_decide; [by apply holds_ret|].
  eapply holds_try; [apply portals_spec|done|]. intros ts Hts.
  assert (Hall : all_configured a ts).
  { intros t [p Hp]%Hts. apply map_lookup_filter_Some in Hp as [_ Hp]. by apply Hc. }
  apply holds_seq; [|by intros _; apply holds_ret]. apply holds_update; [|done].
  intros w Hw a' ts' t E Ht. rewrite part_set in E. simpl in E.
  apply lookup_insert_Some in E as [[<- [= <-]]|[_ E]]; [by apply Hall|by eapply Hw].
Qed.

Lemma connect_frame a ts : holds kept (loginIntoNVMeTCPTargets (C := C) o a ts) (λ _, True).
Proof.
  unfold loginIntoNVMeTCPTargets. destruct (isNVMeTCPHostManaged o); [apply (adopt_frame kept kept_frame kept_put)|].
  pose proof kept_frame as Hf. pose proof kept_put as Hput. net. apply (login_all_frame kept Hput); [|by intros; apply harmless_same].
  intros t. apply kept_call; [apply (st_connect Hst)|done].
Qed.

Lemma configure_spec a mv (c : C) :
  holds kept (getAndConfigureMaskingViewTargetsNVMeTCP o a mv c) (λ r, all_configured a r.1).
Proof.
  assert (Hnil : all_configured a []) by (by intros t ?%elem_of_nil).
  unfold getAndConfigureMaskingViewTargetsNVMeTCP. apply holds_seq; [by apply kept_call; [intros; apply (nf_view _ (st_calls Hst _))|]|].
  intros [view|e]; [|by apply holds_ret]. eapply holds_bind; [apply view_spec|].
  intros [[|t l]|e] Hl; [by apply holds_ret| |by apply holds_ret].
  apply holds_seq; [apply connect_frame|]. intros e. by apply holds_ret.
Qed.

(** Found for one of the identifiers of the volume, at a configured portal. *)
Definition proper (a : string) (ids : list string) (t : TargetInfo) : Prop :=
  configured a (Portal t) ∧ ∃ id, id ∈ ids ∧ nvmeTargetMatchesPublishIdentifier id (Target t) = true.
Definition all_proper (a : string) (ids : list string) (l : list TargetInfo) : Prop := ∀ t, t ∈ l → proper a ids t.
Lemma matching_proper a ids id l acc :
  id ∈ ids → all_configured a l → all_proper a ids acc → all_proper a ids (fold_left append_new (matching id l) acc).
Proof.
  intros Hid Hl Hacc t [?|Ht]%append_all_in; [auto|]. unfold matching in Ht. apply list_elem_of_In, filter_In in Ht as [Ht Hm].
  split; [by apply Hl, list_elem_of_In|eauto].
Qed.
Lemma all_matching_proper a ids l ts acc :
  (∀ id, id ∈ l → id ∈ ids) → all_configured a ts → all_proper a ids acc →
  all_proper a ids (fold_left (λ acc id, fold_left append_new (matching id ts) acc) l acc).
Proof.
  revert acc. induction l as [|id l IH]; intros acc Hin Hts Hacc; [done|]. simpl.
  apply IH; [intros; apply Hin; by right|done|]. apply matching_proper; [apply Hin; by left|done|done].
Qed.
Definition search_ok (a : string) (ids : list string) (s : search) : Prop :=
  all_proper a ids (found_targets s) ∧ (∀ l, scoped s = Some l → all_configured a l).

Lemma cached_spec a ids (c : C) cached id s :
  all_configured a cached → id ∈ ids → search_ok a ids s →
  holds kept (cached_nvme o a c cached id s) (ends (search_ok a ids) (all_proper a ids)).
Proof.
  intros Hc Hid [Hf Hs]. unfold cached_nvme. pose proof (matching_proper a ids id cached (found_targets s) Hid Hc Hf) as Hm.
  destruct (matching id cached) as [|t l]; [|by apply holds_ret; split].
  apply holds_seq; [by apply holds_update; [intros; apply kept_put; [is_harmless|]|]|]. intros _.
  eapply (holds_bind _ _ _ (all_configured a)).
  - unfold loadScopedTargets. destruct (scoped s) as [l|] eqn:E; [by apply holds_ret, Hs|].
    eapply holds_bind; [apply groups_spec|]. intros [l|e] Hl; apply holds_ret; [done|by intros t ?%elem_of_nil].
  - intros all Hall. pose proof (matching_proper a ids id all (found_targets s) Hid Hall Hf) as Hm'.
    destruct (matching id all) as [|t l]; [|by apply holds_ret; split; [|intros ? [= <-]]].
    apply holds_seq; [by apply holds_update; [intros; apply kept_put; [is_harmless|]|]|]. intros _. by apply holds_ret.
Qed.

Lemma nvme_targets_spec ids a (c : C) : holds kept (getAndConfigureArrayNVMeTCPTargets o ids a c) (all_proper a ids).
Proof.
  assert (Hnil : all_proper a ids []) by (by intros t ?%elem_of_nil).
  unfold getAndConfigureArrayNVMeTCPTargets.
  eapply (holds_bind _ _ _ views_scoped); [by apply holds_read|]. intros ch Hch.
  assert (Hrest : ∀ other : option mv_targets, holds kept
    (let* _ := match other with Some _ => update (set_allNVMe (delete a)) | None => ret tt end in
     let '(_, _, mvName) := GetNVMETCPHostSGAndMVIDFromNodeID (opts o) (csiNodeID o) in
     let* r := getAndConfigureMaskingViewTargetsNVMeTCP o a mvName c in
     ret (fold_left (λ acc id, fold_left append_new (matching id r.1) acc) ids [])) (all_proper a ids)).
  { intros other. apply holds_seq.
    { destruct other; [|by apply holds_ret]. by apply holds_update; [intros; apply kept_put; [is_harmless|]|]. }
    intros _. destruct (GetNVMETCPHostSGAndMVIDFromNodeID _ _) as [[? ?] mv].
    eapply holds_bind; [apply configure_spec|]. intros r Hr. apply holds_ret.
    by apply all_matching_proper. }
  destruct (symToMaskingViewTargets ch !! a) as [[l|cached]|] eqn:E; [apply (Hrest (Some (IscsiTargets l)))| |apply (Hrest None)].
  assert (Hc : all_configured a cached) by (intros t; by apply Hch).
  eapply (holds_bind _ _ _ (ends (search_ok a ids) (all_proper a ids))); [|by intros [s|l] Hs; apply holds_ret; [apply Hs|]].
  apply holds_forM; [|by split]. intros id s Hid Hs. by apply cached_spec.
Qed.

(** C25: the NVMe/TCP targets a volume is connected to are named by its publish context and sit at portals
    of the port groups the driver is configured with, as the array answered them at some time, and so are
    those the driver keeps for later requests, also when the host manages the sessions, when the masking view
    has changed since and when the array answers otherwise or not at all later. *)
Theorem staged_targets_configured ids a (c : C) :
  holds (λ w, views_scoped (part w)) (getArrayTargets o ids a c) (λ r, all_proper a (Split "," ids) (tg_nvme r)).
Proof.
  change (λ w, views_scoped (part w)) with kept. unfold getArrayTargets.
  assert (Hnil : ∀ ids, all_proper a ids []) by (by intros ? t ?%elem_of_nil).
  destruct (Split "," ids) as [|x [|y l]] eqn:E; [by apply holds_ret..|].
  destruct (existsb _ _).
  - eapply holds_bind; [apply nvme_targets_spec|]. intros ts Hts. apply holds_ret. intros t Ht.
    destruct (Hts t Ht) as [? (id & Hid & ?)]. split; [done|]. exists id. split; [|done].
    apply list_elem_of_In. apply list_elem_of_In in Hid. revert Hid. generalize (x :: y :: l). clear.
    intros l. induction l as [|z [|z' l] IH]; simpl; [done..|]. tauto.
  - destruct (bool_decide _); [by apply holds_ret|].
    apply holds_seq; [apply (iscsi_targets_frame kept kept_frame kept_put)|]. intros ?. by apply holds_ret.
Qed.
End scoped_targets.

(** ** A simulated node *)

(** A client of arrays that are a part of the world. *)
Section embedded.
Context {V W C : Type} `{Pmax V C} `{MaskingClient V C} `{Part V W}.
Definition inside {A} (f : V → A * V) (w : W) : A * W := let '(a, v) := f (part w) in (a, set_part v w).
Definition part_pmax : Pmax W C := {|
  Now := inside (Now (C := C)); Sleep d := inside (Sleep (C := C) d); WithSymmetrixID := WithSymmetrixID; GetHTTPClient := GetHTTPClient (W := V);
  GetVersionDetails c := inside (GetVersionDetails c); GetVolumeByID c x y := inside (GetVolumeByID c x y);
  GetVolumesByIdentifierMatch c x y := inside (GetVolumesByIdentifierMatch c x y); GetVolumeIDList c x y z := inside (GetVolumeIDList c x y z);
  DeleteVolume c x y := inside (DeleteVolume c x y); GetVolumeSnapInfo c x y := inside (GetVolumeSnapInfo c x y);
  ModifySnapshotS c x1 x2 x3 x4 x5 x6 x7 x8 := inside (ModifySnapshotS c x1 x2 x3 x4 x5 x6 x7 x8);
  DeleteSnapshotS c x1 x2 x3 x4 := inside (DeleteSnapshotS c x1 x2 x3 x4); GetStorageGroup c x y := inside (GetStorageGroup c x y);
  DeleteStorageGroup c x y := inside (DeleteStorageGroup c x y);
  RemoveVolumesFromStorageGroup c x1 x2 x3 x4 := inside (RemoveVolumesFromStorageGroup c x1 x2 x3 x4);
  RemoveVolumesFromProtectedStorageGroup c x1 x2 x3 x4 x5 x6 := inside (RemoveVolumesFromProtectedStorageGroup c x1 x2 x3 x4 x5 x6);
  GetStorageGroupRDFInfo c x y z := inside (GetStorageGroupRDFInfo c x y z); GetProtectedStorageGroup c x y := inside (GetProtectedStorageGroup c x y);
  ExecuteReplicationActionOnSG c x1 x2 x3 x4 x5 x6 x7 := inside (ExecuteReplicationActionOnSG c x1 x2 x3 x4 x5 x6 x7);
  CreateSGReplica c x1 x2 x3 x4 x5 x6 x7 x8 := inside (CreateSGReplica c x1 x2 x3 x4 x5 x6 x7 x8);
  GetRDFGroupByID c x y := inside (GetRDFGroupByID c x y); GetRDFGroupList c x y := inside (GetRDFGroupList c x y);
  GetFreeLocalAndRemoteRDFg c x := inside (GetFreeLocalAndRemoteRDFg c x); GetLocalOnlineRDFDirs c x := inside (GetLocalOnlineRDFDirs c x);
  GetLocalOnlineRDFPorts c x y := inside (GetLocalOnlineRDFPorts c x y); GetRemoteRDFPortOnSAN c x y z := inside (GetRemoteRDFPortOnSAN c x y z);
  GetLocalRDFPortDetails c x y z := inside (GetLocalRDFPortDetails c x y z); ExecuteCreateRDFGroup c x y := inside (ExecuteCreateRDFGroup c x y);
|}.
(** With masking views and port groups of its own. *)
Context (view : string → string → result error MaskingView) (group : string → string → result error PortGroup).
Definition part_masking : MaskingClient W C := {|
  GetMaskingViewByID c x y w := (view x y, w);
  CreateMaskingView c x1 x2 x3 x4 x5 x6 := inside (CreateMaskingView c x1 x2 x3 x4 x5 x6); DeleteMaskingView c x y := inside (DeleteMaskingView c x y);
  GetMaskingViewConnections c x y z := inside (GetMaskingViewConnections c x y z);
  CreateStorageGroup c x1 x2 x3 x4 x5 := inside (CreateStorageGroup c x1 x2 x3 x4 x5);
  AddVolumesToStorageGroup c x1 x2 x3 x4 := inside (AddVolumesToStorageGroup c x1 x2 x3 x4);
  AddVolumesToStorageGroupS c x1 x2 x3 x4 := inside (AddVolumesToStorageGroupS c x1 x2 x3 x4);
  GetHostByID c x y := inside (GetHostByID c x y); GetHostList c x := inside (GetHostList c x);
  GetHostGroupByID c x y := inside (GetHostGroupByID c x y); GetHostGroupList c x := inside (GetHostGroupList c x);
  GetHostMaskingViews c x y := inside (GetHostMaskingViews c x y); GetPortListByProtocol c x y := inside (GetPortListByProtocol c x y);
  GetInitiatorList c x y := inside (GetInitiatorList c x y); GetInitiatorByID c x y := inside (GetInitiatorByID c x y);
  GetPortGroupListByType c x y := inside (GetPortGroupListByType c x y); GetPortGroupList c x y := inside (GetPortGroupList c x y);
  GetPortGroupByID c x y w := (group x y, w);
  CreatePortGroup c x1 x2 x3 x4 := inside (CreatePortGroup c x1 x2 x3 x4); GetPort c x y z := inside (GetPort c x y z);
  RefreshSymmetrix c x := inside (RefreshSymmetrix c x); CachedVersion c x := inside (CachedVersion c x);
  CachedMicrocode c x := inside (CachedMicrocode c x); GetNodeLabels x := inside (GetNodeLabels (C := C) x);
  RandInt := inside (RandInt (C := C)); RequestLock x y := inside (RequestLock (C := C) x y);
  ReleaseLock x y z := inside (ReleaseLock (C := C) x y z);
|}.
End embedded.

(** A node with its sessions; what it does over the fabric is logged. *)
Record nodeworld := mkNodeworld { nw_array : Sim; nw_caches : caches; nw_sessions : list NVMESession; nw_log : list string }.
#[local] Instance nw_sim : Part Sim nodeworld.
Proof. by refine {| part := nw_array; set_part a w := mkNodeworld a (nw_caches w) (nw_sessions w) (nw_log w) |}. Defined.
#[local] Instance nw_part : Part caches nodeworld.
Proof. by refine {| part := nw_caches; set_part c w := mkNodeworld (nw_array w) c (nw_sessions w) (nw_log w) |}. Defined.
Definition fabric (s : string) (w : nodeworld) : nodeworld := mkNodeworld (nw_array w) (nw_caches w) (nw_sessions w) (nw_log w ++ [s])%list.

Definition demo_view (a mv : string) : result error MaskingView := Ok (mkMaskingView "host" "" "sg" "pg-view").
Definition demo_group (a g : string) : result error PortGroup :=
  if decide (g = "pg") then Ok (mkPortGroup "" [mkPortKey "OR-1C" "1"])
  else if decide (g = "pg-view") then Ok (mkPortGroup "" [mkPortKey "OR-1C" "1"; mkPortKey "OR-2C" "1"])
  else Err (errorString "no such port group").
Definition demo_port (a d p : string) : result error port_details :=
  if decide (d = "OR-1C") then Ok (mkPort "iqn.a" ["10.0.0.1"] 4420) else Ok (mkPort "iqn.b" ["10.0.0.2"] 4420).
#[local] Instance nw_pmax : Pmax nodeworld string := part_pmax (V := Sim).
#[local] Instance nw_masking : MaskingClient nodeworld string := part_masking (V := Sim) demo_view demo_group.
#[local] Instance nw_net : NodeNet nodeworld string := {|
  GetNVMeTCPTargets _ _ w := (Ok [mkArrayTarget "nqn.a" ["10.0.0.1"; "10.0.0.2"]], w);
  GetISCSITargets _ _ w := (Ok [mkArrayTarget "iqn.a" ["10.0.0.1"]; mkArrayTarget "iqn.c" ["10.0.0.3"]], w);
  GetPortDetails _ a d p w := (demo_port a d p, w);
  GetInitiators w := (Ok ["iqn.node"], w);
  PerformLogin t w := (None, w);
  DiscoverAndLogin p w := (if decide (p = "10.0.0.9") then Some (errorString "no route") else None, w);
  SetCHAPCredentials t u p w := (None, w);
  DiscoverNVMeTCPTargets p w := (Ok [mkTarget "nqn.a" "10.0.0.1"; mkTarget "nqn.a" "10.0.0.2"], fabric ("discover " ++ p) w);
  NVMeTCPConnect t w := (if decide (Portal t = "10.0.0.9") then Some (errorString "no route") else None, fabric ("connect " ++ Portal t) w);
  GetSessions w := (Ok (nw_sessions w), w);
|}.
#[local] Instance nw_order : MapOrder.
Proof. by refine {| range K _ _ V m := map_to_list m |}. Defined.

Definition no_caches : caches := mkCaches ∅ ∅ ∅ ∅ ∅ ∅ ∅ ∅ newNVMeTCPConnectivityTracker [].
Definition demo_opts (mode user : string) (chap : bool) : nodeOpts :=
  mkNodeOpts (mkService false "" "" ["pg"] "ABC" "" "" "" false "csi-powermax" false ∅) ["000A"; "000B"] "n1" "" mode chap user "secret".
Definition session (ip : string) : NVMESession := mkSession "nqn.a" ip true true.
Definition demo_node (ch : caches) (l : list NVMESession) : nodeworld := mkNodeworld (SimArray.sim [] (mkStorageGroupRDFG [] [])) ch l [].
Definition demo_client (a : string) : M nodeworld (result error string) := ret (Ok a).

Lemma demo_frame : net_frame (C := string) (λ w : nodeworld, nw_log w = []).
Proof. by constructor. Qed.

Lemma host_managed_no_fabric_witness :
  let o := demo_opts "host" "" false in
  let run := getArrayTargets o "nqn.a:OR1C1," "000A" "c" (demo_node no_caches [session "10.0.0.1:4420"]) in
  tg_nvme <$> (fst <$> run) = Some [mkTarget "nqn.a" "10.0.0.1"] ∧ ∀ r w, run = Some (r, w) → nw_log w = [].
Proof.
  intros o run. split; [vm_compute; reflexivity|]. intros r w E.
  refine (proj1 ((proj1 (host_managed_no_fabric (W := nodeworld) (C := string) (λ w, nw_log w = []) demo_frame _ o _ demo_client true true
    "nqn.a:OR1C1," "000A" "000A" "000B" "c" _)) _ _ _ E _)); [done|by vm_compute|by intros a; apply holds_ret|done].
Defined.

Lemma path_reports_reference_witness :
  let obs := [mkObs "k" 0 false; mkObs "j" 5 true; mkObs "k" 10 false; mkObs "k" 20 true; mkObs "k" 30 false; mkObs "k" (16 * Minute + 30) false] in
  snd <$> said_of "k" (sayings obs newNVMeTCPConnectivityTracker) = [SayDegraded; SayRestored; SayDegraded; SayDegraded].
Proof.
  intros obs. assert (Ht : tracker_ok newNVMeTCPConnectivityTracker).
  { intros k. cbn. rewrite lookup_empty. split; [set_solver|by intros [??]]. }
  rewrite (proj1 (path_reports_reference "k" obs newNVMeTCPConnectivityTracker Ht)). vm_compute. reflexivity.
Defined.

Lemma demo_separate : separate (W := nodeworld) (C := string).
Proof. by constructor; [constructor| |]; intros; subst. Qed.

Lemma staged_targets_configured_witness :
  let o := demo_opts "driver" "" false in
  let run := getArrayTargets o "nqn.a:OR1C1," "000A" "c" (demo_node no_caches []) in
  tg_nvme <$> (fst <$> run) = Some [mkTarget "nqn.a" "10.0.0.1"] ∧
  ∀ r w, run = Some (r, w) → all_proper (W := nodeworld) (C := string) o "000A" (Split "," "nqn.a:OR1C1,") (tg_nvme r).
Proof.
  intros o run. split; [vm_compute; reflexivity|]. intros r w E.
  refine (proj2 (staged_targets_configured (W := nodeworld) o demo_separate "nqn.a:OR1C1," "000A" "c" _ _ _ E _)).
  intros a ts t Ha. cbn in Ha. by rewrite lookup_empty in Ha.
Defined.

(** Once the node is logged in to one array, it does not log in to those after it. *)
Example later_arrays_not_logged_in :
  let w := demo_node (UpdateLoggedInArrays "000A" true no_caches) [] in
  let run := ensureLoggedIntoEveryArray demo_client true false (demo_opts "driver" "" false) w in
  fst <$> run = Some None ∧ (λ r, GetLoggedInArrays "000B" (nw_caches r.2)) <$> run = Some false.
Proof. by split; vm_compute. Qed.

(** CHAP is refused when its user name is set, with the error that it is not. *)
Example chap_user_refused :
  fst <$> (fst <$> setCHAPCredentials (C := string) (demo_opts "driver" "user" true) "000A" [mkMVTarget (mkTarget "iqn.a" "10.0.0.1") false]
    ["iqn.node"] (demo_node no_caches []))
  = Some (Some (errorString "multiple IQNs found on host and CHAP username is not set. invalid configuration")).
Proof. by vm_compute. Qed.

(** The second target of a volume is not looked up once the first was in the cache. *)
Example second_target_dropped :
  let w := demo_node (set_views <["000A" := IscsiTargets [mkMVTarget (mkTarget "iqn.a" "10.0.0.1") false]]> no_caches) [] in
  let o := demo_opts "driver" "" false in
  tg_iscsi <$> (fst <$> getArrayTargets o "iqn.a,iqn.c," "000A" "c" w) = Some [mkTarget "iqn.a" "10.0.0.1"]
  ∧ tg_iscsi <$> (fst <$> getArrayTargets o "iqn.c," "000A" "c" w) = Some [mkTarget "iqn.c" "10.0.0.3"].
Proof. by split; vm_compute. Qed.

(** A failed login to cached NVMe targets counts as done. *)
Example nvme_login_error_lost :
  let w := demo_node (set_views <["000A" := NVMeTargets [mkTarget "nqn.a" "10.0.0.9"]]> no_caches) [] in
  fst <$> performNVMETCPLoginOnSymID (demo_opts "driver" "" false) "000A" "mv" "c" w = Some None.
Proof. by vm_compute. Qed.

(** Only the first portal of a target is looked at: a target with a session at the
    other one is reported as degraded. *)
Example second_portal_not_seen :
  (λ r, reports (nw_caches r.2)) <$> evaluateHostManagedNVMeTCPTargets (C := string) "000A"
    [mkTarget "nqn.a" "10.0.0.1"; mkTarget "nqn.a" "10.0.0.2"] (demo_node no_caches [session "10.0.0.2"])
  = Some [Degraded "000A" "nqn.a"].
Proof. by vm_compute. Qed.
End NodeTargets.
