(* ===== verification/NodeHosts.v ===== *)
(** * Hosts of a node

    Models how a node sets itself up on the arrays (service/node.go): the initiators
    that belong to another host, the hosts it creates or updates for Fibre Channel,
    iSCSI and NVMe/TCP, the adoption of a host that exists already, the protocol of
    every array, and nodeStartup. The calls for hosts and what the node knows of
    itself are the class [HostClient]; the slices of strings are those of
    service/string_slice.go. *)

From stdpp Require Import base gmap strings list.
From Stdlib Require Import ZArith Lia Ascii.
From S2P Require Import Prelude GoLib Ordering Pmax SimArray PowerMax Metro Masking SimMasking PortGroups Handler Frame NodeTargets.

Module NodeHosts.
Import PowerMax Masking PortGroups NodeTargets.
Import SimArray(Sim).
Open Scope go_scope.
Open Scope handler_scope.
Open Scope string_scope.
Open Scope Z_scope.

Definition IscsiTransportProtocol := "ISCSI".
Definition FcTransportProtocol := "FC".
Definition NvmeTCPTransportProtocol := "NVMETCP".
Definition pmaxQueryAttempts : nat := 20.
Definition maximumStartupDelay : Z := 30.

(** The protocols in use and what was set up. *)
Record modes := mkModes {
  useFC : bool;
  useIscsi : bool;
  useNVMeTCP : bool;
  useNFS : bool;
  arrayTransportProtocolMap : gmap string string;
  adopted : gmap string adoptedHostInfo;
  nodeIsInitialized : bool;
}.
Definition set_FC b m := mkModes b (useIscsi m) (useNVMeTCP m) (useNFS m) (arrayTransportProtocolMap m) (adopted m) (nodeIsInitialized m).
Definition set_Iscsi b m := mkModes (useFC m) b (useNVMeTCP m) (useNFS m) (arrayTransportProtocolMap m) (adopted m) (nodeIsInitialized m).
Definition set_NVMeTCP b m := mkModes (useFC m) (useIscsi m) b (useNFS m) (arrayTransportProtocolMap m) (adopted m) (nodeIsInitialized m).
Definition set_NFS b m := mkModes (useFC m) (useIscsi m) (useNVMeTCP m) b (arrayTransportProtocolMap m) (adopted m) (nodeIsInitialized m).
Definition set_protocol a p m := mkModes (useFC m) (useIscsi m) (useNVMeTCP m) (useNFS m) (<[a := p]> (arrayTransportProtocolMap m)) (adopted m) (nodeIsInitialized m).
Definition set_adopted f m := mkModes (useFC m) (useIscsi m) (useNVMeTCP m) (useNFS m) (arrayTransportProtocolMap m) (f (adopted m)) (nodeIsInitialized m).
Definition set_initialized m := mkModes (useFC m) (useIscsi m) (useNVMeTCP m) (useNFS m) (arrayTransportProtocolMap m) (adopted m) true.

Definition setAdoptedHost (symID : string) (info : adoptedHostInfo) : modes → modes := set_adopted <[symID := info]>.
Definition setAdoptedHostBootLUNs (symID : string) (luns : list bootLUNInfo) : modes → modes :=
  set_adopted (alter (λ info, mkAdopted (AH_HostID info) (AH_Protocol info) luns) symID).
Definition removeAdoptedHost (symID : string) : modes → modes := set_adopted (delete symID).

(** The options of host setup, beside those of the node. *)
Record hostOpts := mkHostOpts {
  node : nodeOpts;
  ModifyHostName : bool;
  HostAdoptionMinOverlapRatio : float64;
}.

(** An error of the lookup by initiators: what its type says of a conflict, if it
    has the method. *)
Record lookup_error := mkLookupError { le_error : error; IsHostConflict : option bool }.

Class HostClient (W C : Type) := {
  (** The host of an initiator. *)
  GetInitiatorHost : C → string → string → W → result error string * W;
  GetHostByInitiators : C → string → list string → W → result lookup_error (option Host) * W;
  UpdateHostName : C → string → string → string → W → option error * W;
  CreateHost : C → string → string → list string → W → result error Host * W;
  UpdateHostInitiators : C → string → Host → list string → W → option error * W;
  GetNVMeHostID : W → result error string * W;
  GetNVMeInitiators : W → result error (list string) * W;
  GetFCHostPortWWNs : W → result error (list string) * W;
  (** Whether the context ends before the time has passed. *)
  WaitOrDone : Z → W → bool * W;
  DbusConnect : W → option error * W;
  DbusClose : W → unit * W;
  (** The units with their states; the job of a start. *)
  ListUnits : W → result error (list (string * string)) * W;
  StartUnit : string → W → result error string * W;
  setVMHost : W → option error * W;
}.

(** ** Slices *)
Definition hex_char (c : ascii) : bool :=
  let n := nat_of_ascii c in
  ((48 <=? n)%nat && (n <=? 57)%nat) || ((65 <=? n)%nat && (n <=? 70)%nat) || ((97 <=? n)%nat && (n <=? 102)%nat).
Fixpoint any_char (p : ascii → bool) (s : string) : bool :=
  match s with "" => false | String c s => p c || any_char p s end.
(** stringSliceRegexMatcher with (0x)*[0-9a-fA-F], which any string with a hex digit
    matches, and with a prefix. *)
Definition match_hex (l : list string) : list string := List.filter (any_char hex_char) l.
Definition match_prefix (p : string) (l : list string) : list string := List.filter (λ s, HasPrefix s p) l.
(** stringSliceRegexReplace of ^0x, and of ^.*:.*: by nothing. *)
Definition strip_0x (s : string) : string := TrimPrefix s "0x".
Definition last_field (s : string) : string :=
  let fields := Split ":" s in if (3 <=? List.length fields)%nat then default "" (last fields) else s.

(** [strings.ReplaceAll(s, "-", "")] *)
Fixpoint drop_dashes (s : string) : string :=
  match s with "" => "" | String c s => if decide (c = "-"%char) then drop_dashes s else String c (drop_dashes s) end.
Definition HasSuffix (s suffix : string) : bool :=
  let n := String.length s in let k := String.length suffix in
  (k <=? n)%nat && bool_decide (sdrop (n - k) s = suffix).
Definition makeNVMeInitiatorIDs (NQNs : list string) (nvmeHostID : string) : list string :=
  let nvmeHostID := ToUpper (drop_dashes nvmeHostID) in
  (λ nqn, if HasSuffix nqn (":" ++ nvmeHostID) then nqn else nqn ++ ":" ++ nvmeHostID) <$> NQNs.

(** ** Coverage of the initiators of a node *)

(** int(math.Ceil(x)); what is not a number or too large is the least integer, as on
    amd64. *)
Definition int_ceil (x : float64) : Z :=
  match x with
  | SpecFloat.S754_zero _ => 0
  | SpecFloat.S754_finite s m e =>
      let v := if s then Z.neg m else Z.pos m in
      let z := if 0 <=? e then v * 2 ^ e else - ((- v) / 2 ^ (- e)) in
      if (- 2 ^ 63 <=? z) && (z <? 2 ^ 63) then z else - 2 ^ 63
  | _ => - 2 ^ 63
  end.
Definition positive (x : float64) : bool :=
  match x with SpecFloat.S754_infinity false | SpecFloat.S754_finite false _ _ => true | _ => false end.
Definition matches (expected hostWWPNs : list string) : Z :=
  Z.of_nat (List.length (List.filter (λ w, bool_decide (w ∈ hostWWPNs)) expected)).
Definition requiredMatches (n : Z) (ratio : float64) : Z :=
  let r := int_ceil (fmul (float_of_Z n) ratio) in
  if (r =? 0) && positive ratio then 1 else r.
Definition validateFCHostForAdoption (host : Host) (expectedWWPNs : list string) (ratio : float64) : option error :=
  let n := Z.of_nat (List.length expectedWWPNs) in
  let m := matches expectedWWPNs (Initiators host) in
  let rejected why := Some (errorString ("validateFCHostForAdoption: host " ++ Host_ID host ++ why)) in
  if n =? 0 then Some (errorString "validateFCHostForAdoption: empty expected WWPN list")
  else if m =? 0 then rejected (" has zero matching WWPNs out of " ++ Itoa n ++ " expected")
  else if n =? 2 then
    if m =? n then None else rejected " has insufficient WWPN overlap for a 2-WWPN system"
  else if m <? requiredMatches n ratio then rejected " has insufficient WWPN overlap" else None.

Definition isHostConflictError (e : lookup_error) : bool :=
  match IsHostConflict e with
  | Some b => b
  | None => Contains (Error (le_error e)) "GetHostByInitiators: conflict"
  end.

Section hosts.
Context {W C : Type} `{Pmax W C} `{MaskingClient W C} `{NodeNet W C} `{HostClient W C} `{MapOrder}.
Context `{PC : Part caches W} `{PM : Part modes W}.
Implicit Types (o : hostOpts) (c : C).

(** ** Initiators of another host *)
Record verifying := mkVerifying { v_valid : list string; v_error : string; v_updated : bool }.
Definition verify_initiator o (symID hostID : string) c (nodeInitiator initiatorID : string) (st : verifying) : M W (verifying + unit) :=
  if bool_decide (initiatorID = nodeInitiator) || Contains initiatorID nodeInitiator then
    let* r := lift (GetInitiatorHost c symID initiatorID) in
    match r with
    | Err _ => ret (inl st)
    | Ok host =>
        let valid updated := mkVerifying (appendIfMissing (v_valid st) nodeInitiator) "" updated in
        let refused msg := mkVerifying (v_valid st) msg (v_updated st) in
        if bool_decide (host = "") || EqualFold host hostID then ret (inl (valid (v_updated st)))
        else if ModifyHostName o then
          if v_updated st then
            ret (inl (refused ("Skipping Updating Host " ++ host ++ " for initiator: " ++ initiatorID ++ " as updated host already present on: " ++ symID)))
          else
            let* e := lift (UpdateHostName c symID host hostID) in
            match e with
            | Some e => ret (inl (refused ("Failed to change host name from " ++ host ++ " to " ++ hostID ++ ": " ++ Error e)))
            | None => ret (inl (valid true))
            end
        else ret (inl (refused ("initiator: " ++ initiatorID ++ " is already a part of a different host: " ++ host ++ " on: " ++ symID)))
    end
  else ret (inl st).
Definition verify_node o (symID hostID : string) c (initList : list string) (nodeInitiator : string) (st : verifying) : M W (verifying + unit) :=
  let nodeInitiator := if HasPrefix nodeInitiator "0x" then sdrop 2 nodeInitiator else nodeInitiator in
  forM (verify_initiator o symID hostID c nodeInitiator) initList st.
(** The initiators and the error: both are used. *)
Definition verifyAndUpdateInitiatorsInADiffHost o (symID : string) (nodeInitiators : list string) (hostID : string) c
    : M W (list string * option error) :=
  let* r := lift (GetInitiatorList c symID "") in
  match r with
  | Err e => ret ([], Some e)
  | Ok initList =>
      let* r := forM (verify_node o symID hostID c initList) nodeInitiators (mkVerifying [] "" false) in
      match r with
      | inl st =>
          if decide (v_error st ≠ "") then ret (v_valid st, Some (errorString (v_error st)))
          else if bool_decide (v_valid st = []) && Contains hostID NvmeTCPTransportProtocol then ret (nodeInitiators, None)
          else ret (v_valid st, None)
      | inr _ => ret ([], None)
      end
  end.

(** ** Hosts *)

(** Up to [n] attempts, five seconds apart. *)
Fixpoint retry {A} (attempt : M W (result error A)) (what : string) (n : nat) (first : bool) : M W (result error A) :=
  match n with
  | O => fail (errorString ("failed to " ++ what ++ " on array after 20 attempts"))
  | S n =>
      let* timeout := if first then ret false else lift (WaitOrDone (5 * Second)) in
      if (timeout : bool) then fail (errorString ("failed to " ++ what ++ " on array: context timeout"))
      else
        let* r := attempt in
        match r with Ok a => ok a | Err _ => retry attempt what n false end
  end.
Definition retryableCreateHost (array nodeName : string) (hostInitiators : list string) c : M W (result error Host) :=
  retry (lift (CreateHost c array nodeName hostInitiators)) "create host" pmaxQueryAttempts true.
Definition retryableUpdateHostInitiators (array : string) (host : Host) (initiators : list string) c : M W (result error unit) :=
  retry (let* e := lift (UpdateHostInitiators c array host initiators) in match e with Some e => fail e | None => ok tt end)
    "update host initiators" pmaxQueryAttempts true.

(** The host, or the one created, and the wanted initiators, which the comparison
    with those of an existing host sorts; [give] is what a host gets that differs. *)
Definition create_or_update (array nodeName : string) (initiators : list string) (created : error → error)
    (present : Host → list string) (give : list string → list string) c : M W (result error Host * list string) :=
  let* h := lift (GetHostByID c array nodeName) in
  match h with
  | Err _ =>
      let* r := retryableCreateHost array nodeName initiators c in
      ret (match r with Ok host => Ok host | Err e => Err (created e) end, initiators)
  | Ok host =>
      match present host with
      | [] => ret (Ok host, initiators)
      | l =>
          let '(_, initiators, same) := stringSlicesEqual l initiators in
          if (same : bool) then ret (Ok host, initiators)
          else
            let* r := retryableUpdateHostInitiators array host (give initiators) c in
            ret (match r with Ok _ => Ok host | Err e => Err e end, initiators)
      end
  end.

Definition no_input (what : string) : error := errorString ("createOrUpdateHost: No " ++ what ++ " specified").
Definition logged_in (initList portWWNs : list string) : list string :=
  fold_left (λ acc wwn, fold_left (λ acc i, if HasSuffix i wwn then appendIfMissing acc wwn else acc) initList acc) portWWNs [].
(** A host that differs gets the initiators of the node, also those the array does
    not know. *)
Definition createOrUpdateFCHost (array nodeName : string) (portWWNs : list string) c : M W (result error Host) :=
  if decide (array = "") then fail (no_input "array")
  else if decide (nodeName = "") then fail (no_input "nodeName")
  else if decide (portWWNs = []) then fail (no_input "port WWNs")
  else
    let? initList := lift (GetInitiatorList c array "") in
    let portWWNs := strip_0x <$> portWWNs in
    let hostInitiators := logged_in initList portWWNs in
    let* r := create_or_update array nodeName hostInitiators (λ e, e) (λ host, last_field <$> match_hex (Initiators host))
      (λ _, portWWNs) c in ret r.1.
Definition createOrUpdateIscsiHost (array nodeName : string) (IQNs : list string) c : M W (result error Host * list string) :=
  if decide (array = "") then ret (Err (no_input "array"), IQNs)
  else if decide (nodeName = "") then ret (Err (no_input "nodeName"), IQNs)
  else if decide (IQNs = []) then ret (Err (no_input "IQNs"), IQNs)
  else create_or_update array nodeName IQNs (λ e, errorString ("Unable to create Host: " ++ Error e))
    (λ host, match_prefix "iqn." (Initiators host)) (λ l, l) c.
Definition createOrUpdateNVMeTCPHost (array nodeName : string) (NQNs : list string) c : M W (result error Host) :=
  if decide (array = "") then fail (no_input "array")
  else if decide (nodeName = "") then fail (no_input "nodeName")
  else if decide (NQNs = []) then fail (no_input "NQNs")
  else
    let* r := create_or_update array nodeName NQNs (λ e, errorString ("unable to create host: " ++ Error e))
      (λ host, match_prefix "nqn." (Initiators host)) (λ l, l) c in ret r.1.

(** ** The setup of an array for a protocol *)
Definition setupArrayForFC o (array : string) (portWWNs : list string) c : M W (option error) :=
  let '(hostName, _, _) := GetFCHostSGAndMVIDFromNodeID (opts (node o)) (csiNodeID (node o)) in
  let* r := createOrUpdateFCHost array hostName portWWNs c in
  ret (match r with Ok _ => None | Err e => Some e end).

(** With the IQNs, whose order the setup may have changed. *)
Definition setupArrayForIscsi o (array : string) (IQNs : list string) c : M W (option error * list string) :=
  let '(hostName, _, mvName) := GetISCSIHostSGAndMVIDFromNodeID (opts (node o)) (csiNodeID (node o)) in
  let* r := createOrUpdateIscsiHost array hostName IQNs c in
  let '(host, IQNs) := r in
  match host with
  | Err e => ret (Some e, IQNs)
  | Ok _ =>
      let* r := getAndConfigureMaskingViewTargets (node o) array mvName IQNs c in
      match r.2 with
      | Some e => ret (if Contains (Error e) "Masking View" && Contains (Error e) "cannot be found" then None else Some e, IQNs)
      | None => ret (None, IQNs)
      end
  end.

Definition validateNVMeInitiators (symID : string) (initiatorIDs : list string) c : M W (option error) :=
  let* r := lift (GetInitiatorList c symID "") in
  match r with
  | Err e => ret (Some (errorString ("failed to get all initiators: " ++ Error e)))
  | Ok all =>
      ret ((λ id, errorString ("Initiator " ++ id ++ " not found"))
           <$> List.find (λ id, negb (existsb (λ i, HasSuffix i id) all)) initiatorIDs)
  end.
(** Initiators that are never seen on the array are no error. *)
Fixpoint await_initiators (symID : string) (initiatorIDs : list string) c (n : nat) (first : bool) : M W (option error) :=
  match n with
  | O => ret None
  | S n =>
      let* timeout := if first then ret false else lift (WaitOrDone (10 * Second)) in
      if (timeout : bool) then ret (Some (errorString "failed to validate NVMe initiators on array: context timeout"))
      else
        let* e := validateNVMeInitiators symID initiatorIDs c in
        match e with None => ret None | Some _ => await_initiators symID initiatorIDs c n false end
  end.
Definition setupArrayForNVMeTCP o (array : string) (NQNs : list string) c : M W (option error) :=
  let '(hostName, _, _) := GetNVMETCPHostSGAndMVIDFromNodeID (opts (node o)) (csiNodeID (node o)) in
  let* id := lift GetNVMeHostID in
  match id with
  | Err e => ret (Some (errorString ("failed to get local NVMe host ID: " ++ Error e)))
  | Ok nvmeHostID =>
      let initiatorIDs := makeNVMeInitiatorIDs NQNs nvmeHostID in
      let* r := createOrUpdateNVMeTCPHost array hostName initiatorIDs c in
      match r with
      | Err e => ret (Some e)
      | Ok _ =>
          let* e := setupNVMeTCPTargetDiscovery (node o) array c in
          match e with
          | Some e => ret (Some e)
          | None => await_initiators array initiatorIDs c pmaxQueryAttempts true
          end
      end
  end.

Definition iscsid := "iscsid.service".
Definition start_daemon : M W (option error) :=
  let* units := lift ListUnits in
  match units with
  | Err e => ret (Some e)
  | Ok units =>
      match List.find (λ u, bool_decide (u.1 = iscsid)) units with
      | None => panic
      | Some (_, state) =>
          if decide (state = "active") then ret None
          else
            let* job := lift (StartUnit iscsid) in
            match job with
            | Err e => if Contains (Error e) "is masked" then panic else ret (Some e)
            | Ok job =>
                if decide (job ≠ "done") then ret (Some (errorString "Failed to get a successful response from the job to start ISCSI daemon"))
                else ret None
            end
      end
  end.
Definition ensureISCSIDaemonStarted : M W (option error) :=
  let* e := lift DbusConnect in
  match e with
  | Some e => ret (Some e)
  | None => let* e := start_daemon in let* _ := lift DbusClose in ret e
  end.

(** ** Adoption *)
Definition adoption_error (symID why : string) (e : error) : error :=
  errorString ("discoverAndAdoptHost: " ++ why ++ " on array " ++ symID ++ ": " ++ Error e).
Fixpoint discover_host (symID : string) (bareWWPNs : list string) c (n : nat) (first : bool) (last : error) : M W (result error (option Host)) :=
  match n with
  | O => fail (adoption_error symID "failed to discover host" last)
  | S n =>
      let* timeout := if first then ret false else lift (WaitOrDone (5 * Second)) in
      if (timeout : bool) then fail (errorString ("discoverAndAdoptHost: adoption budget exceeded or context cancelled for array " ++ symID))
      else
        let* r := lift (GetHostByInitiators c symID bareWWPNs) in
        match r with
        | Ok host => ok host
        | Err e =>
            if isHostConflictError e then fail (adoption_error symID "host conflict" (le_error e))
            else discover_host symID bareWWPNs c n false (le_error e)
        end
  end.
(** The name of the adopted host, or nothing when there is none to adopt. *)
Definition discoverAndAdoptHost o (symID : string) (wwpns : list string) c : M W (result error string) :=
  if decide (wwpns = []) then fail (errorString ("discoverAndAdoptHost: no FC WWPNs provided for array " ++ symID))
  else
    let bareWWPNs := strip_0x <$> wwpns in
    let? found := discover_host symID bareWWPNs c pmaxQueryAttempts true (errorString "") in
    match found with
    | None => ok ""
    | Some host =>
        if HasPrefix (Host_ID host) "csi-" then let* _ := update (removeAdoptedHost symID) in ok ""
        else
          match validateFCHostForAdoption host bareWWPNs (HostAdoptionMinOverlapRatio o) with
          | Some e => fail (adoption_error symID ("host " ++ Host_ID host ++ " failed validation") e)
          | None =>
              let* e := validateAdoptedHostPortGroup (opts (node o)) symID host c in
              match e with
              | Some e => fail (adoption_error symID ("host " ++ Host_ID host ++ " failed port group validation") e)
              | None =>
                  let* _ := update (setAdoptedHost symID (mkAdopted (Host_ID host) FcTransportProtocol [])) in ok (Host_ID host)
              end
          end
    end.

(** ** The setup of a node *)
Variable client : string → M W (result error C).

(** An adopted host settles the protocol of the array. *)
Definition use_adopted (symID name : string) c : M W unit :=
  let* _ := update (λ m, set_Iscsi false (set_NVMeTCP false (set_protocol symID FcTransportProtocol (set_FC true m)))) in
  let* _ := update (set_connFC ({[symID]} ∪.)) in
  let* r := detectBootLUNs symID name c in
  match r with
  | Ok ((_ :: _) as luns) => update (setAdoptedHostBootLUNs symID luns)
  | _ => ret tt
  end.

Definition protocol_allowed o (p : string) : bool :=
  bool_decide (TransportProtocol (opts (node o)) = "") || bool_decide (TransportProtocol (opts (node o)) = p).
(** What can be used of the array: the initiators per protocol, and the last error.
    Without iSCSI initiators on the array all those of the node are used. *)
Definition find_initiators o (symID : string) (portWWNs IQNs NQNs : list string) c
    : M W (list string * list string * list string * option error) :=
  let name f := let '(h, _, _) := f (opts (node o)) (csiNodeID (node o)) in h in
  let* fc := verifyAndUpdateInitiatorsInADiffHost o symID portWWNs (name GetFCHostSGAndMVIDFromNodeID) c in
  let* _ := if bool_decide (fc.1 ≠ []) && protocol_allowed o FcTransportProtocol then update (set_FC true) else ret tt in
  let* nvme := verifyAndUpdateInitiatorsInADiffHost o symID NQNs (name GetNVMETCPHostSGAndMVIDFromNodeID) c in
  let nvmeUsable := bool_decide (nvme.1 ≠ []) && bool_decide (TransportProtocol (opts (node o)) = "")
    || bool_decide (TransportProtocol (opts (node o)) = NvmeTCPTransportProtocol) in
  let* _ := match nvme.2 with None => if nvmeUsable then update (set_NVMeTCP true) else ret tt | Some _ => ret tt end in
  let* iscsi := verifyAndUpdateInitiatorsInADiffHost o symID IQNs (name GetISCSIHostSGAndMVIDFromNodeID) c in
  let* _ := match iscsi.2 with
    | None => if protocol_allowed o IscsiTransportProtocol then update (set_Iscsi true) else ret tt
    | Some _ => ret tt
    end in
  ret (fc.1, nvme.1, iscsi.1, iscsi.2).

Definition try_nvme o (symID : string) (ids : list string) c : M W unit :=
  let* m := read in
  if useNVMeTCP m then
    let* e := setupArrayForNVMeTCP o symID ids c in
    match e with
    | Some _ => ret tt
    | None => update (λ m, set_Iscsi false (set_FC false (set_protocol symID NvmeTCPTransportProtocol m)))
    end
  else ret tt.
Definition fc_id (initiatorID : string) : string := "0x" ++ default "" (last (Split ":" initiatorID)).
Definition try_fc o (symID : string) (ids : list string) c : M W unit :=
  let* m := read in
  if useFC m then
    let* e := setupArrayForFC o symID (fold_left appendIfMissing (fc_id <$> ids) []) c in
    match e with
    | Some _ => ret tt
    | None =>
        let* _ := update (λ m, set_Iscsi false (set_NVMeTCP false (set_protocol symID FcTransportProtocol m))) in
        update (set_connFC ({[symID]} ∪.))
    end
  else ret tt.
Definition try_iscsi o (symID : string) (ids : list string) c : M W (list string) :=
  let* m := read in
  if useIscsi m then
    let* _ := ensureISCSIDaemonStarted in
    let* r := setupArrayForIscsi o symID ids c in
    let '(e, ids) := r in
    match e with
    | Some _ => ret ids
    | None => let* _ := update (λ m, set_NFS false (set_NVMeTCP false (set_protocol symID IscsiTransportProtocol m))) in ret ids
    end
  else ret ids.

(** Between arrays: those whose adoption has failed, and the IQNs of the node. *)
Definition setup_state : Type := list string * list string.
(** The standard setup, without an adopted host. [inr]: the function returns. *)
Definition setup_standard o (symID : string) (portWWNs NQNs : list string) c (st : setup_state) : M W (setup_state + option error) :=
  let '(failed, IQNs) := st in
  let* r := find_initiators o symID portWWNs IQNs NQNs c in
  let '(validFCs, validNVMeTCPs, validIscsis, err) := r in
  let* m := read in
  if negb (useFC m) && negb (useIscsi m) && negb (useNVMeTCP m) then ret (inr err)
  else
    let* _ := try_nvme o symID validNVMeTCPs c in
    let* _ := try_fc o symID validFCs c in
    match validIscsis with
    | [] => let* IQNs := try_iscsi o symID IQNs c in ret (inl (failed, IQNs))
    | _ => let* _ := try_iscsi o symID validIscsis c in ret (inl (failed, IQNs))
    end.

(** One array. After an adoption FC is in use, and the other setups are skipped. *)
Definition setup_array o (portWWNs NQNs : list string) (symID : string) (st : setup_state) : M W (setup_state + option error) :=
  let* cl := client symID in
  match cl with
  | Err _ => ret (inl st)
  | Ok c =>
      if IsVsphereEnabled (opts (node o)) then
        let* e := getHostForVsphere (opts (node o)) symID c in
        let* _ := match e with Some _ => ret tt | None => update (set_protocol symID Vsphere) end in ret (inl st)
      else if bool_decide (HostManagementMode (opts (node o)) = HostMgmtModeAdopt) && bool_decide (portWWNs ≠ []) then
        let* r := discoverAndAdoptHost o symID portWWNs c in
        match r with
        | Err _ => ret (inl ((st.1 ++ [symID])%list, st.2))
        | Ok name =>
            if decide (name ≠ "") then let* _ := use_adopted symID name c in ret (inl st)
            else setup_standard o symID portWWNs NQNs c st
        end
      else setup_standard o symID portWWNs NQNs c st
  end.

Definition k8sNodeName o : string := if decide (NodeFullName (node o) ≠ "") then NodeFullName (node o) else NodeName (node o).
Definition nodeHostSetup o (portWWNs IQNs NQNs symmetrixIDs : list string) : M W (option error) :=
  let* r := lift RandInt in
  let* _ := lift (Sleep ((r mod maximumStartupDelay) * Second)) in
  let* r := forM (setup_array o portWWNs NQNs) symmetrixIDs ([], IQNs) in
  match r with
  | inr err => ret err
  | inl ([], _) => let* _ := update set_initialized in ret None
  | inl (failed, _) => ret (Some (errorString ("Host adoption failed on array(s) " ++ Sprint_strings failed ++ " for node " ++ k8sNodeName o)))
  end.

(** The limit of pending requests and the API service of the node are left out. *)
Definition nodeStartup o (connected : bool) : M W (option error) :=
  let* m := read in
  if nodeIsInitialized m then ret None
  else if negb connected then ret (Some (errorString "There is no Unisphere connection"))
  else if negb (IsVsphereEnabled (opts (node o))) then
    let found r := match r with Ok l => l | Err _ => [] end in
    let* wwns := lift GetFCHostPortWWNs in
    let* iqns := lift GetInitiators in
    let* nqns := lift GetNVMeInitiators in
    match found wwns, found iqns, found nqns with
    | [], [], [] => let* _ := update (set_NFS true) in ret None
    | portWWNs, IQNs, hostNQN => nodeHostSetup o portWWNs IQNs hostNQN (ManagedArrays (node o))
    end
  else
    let* e := lift setVMHost in
    match e with
    | Some e => ret (Some e)
    | None => let* _ := update (λ m, set_initialized (set_FC true m)) in ret None
    end.
End hosts.

(** ** Theorems: the hosts that are changed *)
Inductive host_change := HCreate (array name : string) | HInitiators (array name : string) | HRename (array old new : string).

Section host_frame.
Context {W C : Type} `{Pmax W C} `{MaskingClient W C} `{NodeNet W C} `{HostClient W C} `{MapOrder}.
Context `{PC : Part caches W} `{PM : Part modes W}.

(** A property of the world that the driver's variables, reading and logging in do
    not change, nor do the allowed changes of hosts. *)
Record host_frame (I : W → Prop) (allowed : host_change → Prop) : Prop := mkHostFrame {
  hf_net : net_frame (C := C) I;
  hf_discover p w : I w → I (DiscoverNVMeTCPTargets (C := C) p w).2;
  hf_connect t w : I w → I (NVMeTCPConnect (C := C) t w).2;
  hf_caches ch w : I w → I (set_part (ch : caches) w);
  hf_modes m w : I w → I (set_part (m : modes) w);
  hf_sleep d w : I w → I (Sleep (C := C) d w).2;
  hf_rand w : I w → I (RandInt (C := C) w).2;
  hf_host (c : C) a n w : I w → I (GetHostByID c a n w).2;
  hf_host_name (c : C) a n w h : (GetHostByID c a n w).1 = Ok h → Host_ID h = n;
  hf_group (c : C) a n w : I w → I (GetHostGroupByID c a n w).2;
  hf_views (c : C) a n w : I w → I (GetHostMaskingViews c a n w).2;
  hf_storage (c : C) a n w : I w → I (GetStorageGroup c a n w).2;
  hf_ports (c : C) a n w : I w → I (GetPortListByProtocol c a n w).2;
  hf_inits (c : C) a n w : I w → I (GetInitiatorList c a n w).2;
  hf_init (c : C) a n w : I w → I (GetInitiatorByID c a n w).2;
  hf_inithost (c : C) a n w : I w → I (GetInitiatorHost c a n w).2;
  hf_lookup (c : C) a l w : I w → I (GetHostByInitiators c a l w).2;
  hf_nvmeid w : I w → I (GetNVMeHostID (C := C) w).2;
  hf_wait d w : I w → I (WaitOrDone (C := C) d w).2;
  hf_dbus w : I w → I (DbusConnect (C := C) w).2;
  hf_close w : I w → I (DbusClose (C := C) w).2;
  hf_units w : I w → I (ListUnits (C := C) w).2;
  hf_start u w : I w → I (StartUnit (C := C) u w).2;
  hf_create (c : C) a n l w : allowed (HCreate a n) → I w → I (CreateHost c a n l w).2;
  hf_update (c : C) a h l w : allowed (HInitiators a (Host_ID h)) → I w → I (UpdateHostInitiators c a h l w).2;
  hf_rename (c : C) a old new w : allowed (HRename a old new) → I w → I (UpdateHostName c a old new w).2;
}.
End host_frame.

Ltac host_call := idtac;
  match goal with
  | Hf : host_frame ?I _ |- holds ?I (lift _) (λ _, True) => apply holds_lift; intros ? ?; split; [|done];
      first [by apply (hf_sleep _ _ Hf) | by apply (hf_rand _ _ Hf) | by apply (hf_host _ _ Hf) | by apply (hf_group _ _ Hf)
            | by apply (hf_views _ _ Hf) | by apply (hf_storage _ _ Hf) | by apply (hf_ports _ _ Hf) | by apply (hf_inits _ _ Hf)
            | by apply (hf_init _ _ Hf) | by apply (hf_inithost _ _ Hf) | by apply (hf_lookup _ _ Hf) | by apply (hf_nvmeid _ _ Hf)
            | by apply (hf_wait _ _ Hf) | by apply (hf_dbus _ _ Hf) | by apply (hf_close _ _ Hf) | by apply (hf_units _ _ Hf)
            | by apply (hf_start _ _ Hf) | by apply (nf_view _ (hf_net _ _ Hf)) | by apply (hf_discover _ _ Hf) | by apply (hf_connect _ _ Hf)]
  | Hf : host_frame ?I _ |- holds ?I (update _) (λ _, True) =>
      apply holds_update; [intros ? ?; first [by apply (hf_modes _ _ Hf) | by apply (hf_caches _ _ Hf)]|done]
  | |- holds _ (forM _ _ _) _ => eapply holds_weaken; [apply (holds_forM _ _ _ _ (λ _, True) (λ _, True)); [intros|done]|done]
  end.
Ltac hosts := hold_with host_call.

Section frames.
Context {W C : Type} `{Pmax W C} `{MaskingClient W C} `{NodeNet W C} `{HostClient W C} `{MapOrder}.
Context `{PC : Part caches W} `{PM : Part modes W}.
Context (I : W → Prop) (allowed : host_change → Prop) (Hf : host_frame (C := C) I allowed).

Local Lemma harmless_put ch w : harmless ch (part w) → I w → I (set_part (ch : caches) w).
Proof. intros _. apply (hf_caches _ _ Hf). Qed.

Lemma retry_frame {A} (m : M W (result error A)) what n b : holds I m (λ _, True) → holds I (retry (C := C) m what n b) (λ _, True).
Proof. intros Hm. revert b. induction n as [|n IH]; intros b; simpl; hosts; first [exact Hm|apply IH]. Qed.
Lemma create_frame a n l (c : C) : allowed (HCreate a n) → holds I (retryableCreateHost a n l c) (λ _, True).
Proof. intros Ha. apply retry_frame, holds_lift. intros w Hw. split; [by apply (hf_create _ _ Hf)|done]. Qed.
Lemma update_frame a h l (c : C) : allowed (HInitiators a (Host_ID h)) → holds I (retryableUpdateHostInitiators a h l c) (λ _, True).
Proof. intros Ha. apply retry_frame. hosts. apply holds_lift. intros w Hw. split; [by apply (hf_update _ _ Hf)|done]. Qed.
Lemma create_or_update_frame a n l e p g (c : C) :
  allowed (HCreate a n) → allowed (HInitiators a n) → holds I (create_or_update a n l e p g c) (λ _, True).
Proof.
  intros Hc Hu. unfold create_or_update. eapply (holds_bind _ _ _ (ok_with (λ h, Host_ID h = n))).
  - apply holds_lift. intros w Hw. split; [by apply (hf_host _ _ Hf)|].
    destruct ((GetHostByID c a n w).1) eqn:E; [by eapply (hf_host_name _ _ Hf)|done].
  - intros [h|e'] Hn; cbn in Hn; hosts; [apply update_frame; by rewrite Hn|by apply create_frame].
Qed.
Lemma fc_host_frame a n l (c : C) : allowed (HCreate a n) → allowed (HInitiators a n) → holds I (createOrUpdateFCHost a n l c) (λ _, True).
Proof. intros. unfold createOrUpdateFCHost. hosts. by apply create_or_update_frame. Qed.
Lemma iscsi_host_frame a n l (c : C) : allowed (HCreate a n) → allowed (HInitiators a n) → holds I (createOrUpdateIscsiHost a n l c) (λ _, True).
Proof. intros. unfold createOrUpdateIscsiHost. hosts. by apply create_or_update_frame. Qed.
Lemma nvme_host_frame a n l (c : C) : allowed (HCreate a n) → allowed (HInitiators a n) → holds I (createOrUpdateNVMeTCPHost a n l c) (λ _, True).
Proof. intros. unfold createOrUpdateNVMeTCPHost. hosts. by apply create_or_update_frame. Qed.

Lemma discovery_frame no a (c : C) : holds I (setupNVMeTCPTargetDiscovery no a c) (λ _, True).
Proof.
  pose proof (hf_net _ _ Hf) as Hn. pose proof harmless_put as Hp.
  unfold setupNVMeTCPTargetDiscovery, getNVMeTCPTargetsFromPortGroupsImpl, getNVMeTCPTargetsFromPortals,
    hostManagedNVMeTCPTargetsForPortals, discover_one.
  hosts; first [apply (expected_frame I Hn Hp) | apply (adopt_frame I Hn Hp) | apply (ips_frame I Hn)
    | apply (login_all_frame I Hp); [intros ?; cbn beta; hosts|by intros; apply harmless_same]].
Qed.
Lemma await_frame a l (c : C) n b : holds I (await_initiators a l c n b) (λ _, True).
Proof. revert b. induction n as [|n IH]; intros b; simpl; unfold validateNVMeInitiators; hosts. apply IH. Qed.

Definition host_names (o : hostOpts) : list string :=
  let id := csiNodeID (NodeHosts.node o) in let s := opts (NodeHosts.node o) in
  [(GetFCHostSGAndMVIDFromNodeID s id).1.1; (GetISCSIHostSGAndMVIDFromNodeID s id).1.1; (GetNVMETCPHostSGAndMVIDFromNodeID s id).1.1].
Context (o : hostOpts).
Context (Hown : ∀ a n, n ∈ host_names o → allowed (HCreate a n) ∧ allowed (HInitiators a n)).
Context (Hname : ∀ a old n, n ∈ host_names o → ModifyHostName o = true → allowed (HRename a old n)).

Lemma setup_fc_frame a l (c : C) : holds I (setupArrayForFC o a l c) (λ _, True).
Proof.
  unfold setupArrayForFC. destruct (GetFCHostSGAndMVIDFromNodeID _ _) as [[h ?] ?] eqn:E. hosts.
  apply fc_host_frame; apply Hown; unfold host_names; rewrite E; set_solver.
Qed.
Lemma setup_iscsi_frame a l (c : C) : holds I (setupArrayForIscsi o a l c) (λ _, True).
Proof.
  unfold setupArrayForIscsi. destruct (GetISCSIHostSGAndMVIDFromNodeID _ _) as [[h ?] ?] eqn:E. hosts.
  - apply iscsi_host_frame; apply Hown; unfold host_names; rewrite E; set_solver.
  - apply (iscsi_view_frame I (hf_net _ _ Hf) harmless_put).
Qed.
Lemma setup_nvme_frame a l (c : C) : holds I (setupArrayForNVMeTCP o a l c) (λ _, True).
Proof.
  unfold setupArrayForNVMeTCP. destruct (GetNVMETCPHostSGAndMVIDFromNodeID _ _) as [[h ?] ?] eqn:E. hosts.
  - apply nvme_host_frame; apply Hown; unfold host_names; rewrite E; set_solver.
  - apply discovery_frame.
  - apply await_frame.
Qed.
Lemma verify_frame a l n (c : C) : n ∈ host_names o → holds I (verifyAndUpdateInitiatorsInADiffHost o a l n c) (λ _, True).
Proof.
  intros Hn. unfold verifyAndUpdateInitiatorsInADiffHost, verify_node, verify_initiator. hosts.
  apply holds_lift. intros w Hw. split; [apply (hf_rename _ _ Hf); [by apply Hname|done]|done].
Qed.
Lemma find_frame a l1 l2 l3 (c : C) : holds I (find_initiators o a l1 l2 l3 c) (λ _, True).
Proof.
  unfold find_initiators. hosts; apply verify_frame; unfold host_names;
    repeat match goal with |- context [let '(_, _) := ?p in _] => destruct p as [[??]?] eqn:? end; set_solver.
Qed.
Lemma standard_frame a l1 l2 (c : C) st : holds I (setup_standard o a l1 l2 c st) (λ _, True).
Proof.
  unfold setup_standard, try_nvme, try_fc, try_iscsi, ensureISCSIDaemonStarted, start_daemon.
  hosts; first [apply find_frame | apply setup_fc_frame | apply setup_iscsi_frame | apply setup_nvme_frame].
Qed.
End frames.

Section host_theorems.
Context {W C : Type} `{Pmax W C} `{MaskingClient W C} `{NodeNet W C} `{HostClient W C} `{MapOrder}.
Context `{PC : Part caches W} `{PM : Part modes W}.

Section kept.
Context (I : W → Prop) (allowed : host_change → Prop) (Hf : host_frame (C := C) I allowed).
Lemma discover_host_frame a l (c : C) n b e : holds I (discover_host a l c n b e) (λ _, True).
Proof. revert b e. induction n as [|n IH]; intros b e; simpl; hosts. apply IH. Qed.
Lemma adopt_host_frame o a l (c : C) : holds I (discoverAndAdoptHost o a l c) (λ _, True).
Proof.
  unfold discoverAndAdoptHost, validateAdoptedHostPortGroup, getUsableFCPortsForHost, initiator_ports, usable_port.
  hosts. apply discover_host_frame.
Qed.
Lemma use_adopted_frame a n (c : C) : holds I (use_adopted a n c) (λ _, True).
Proof. unfold use_adopted, detectBootLUNs, detect_one. hosts. Qed.
Lemma vsphere_frame s a (c : C) : holds I (getHostForVsphere s a c) (λ _, True).
Proof. unfold getHostForVsphere. hosts. Qed.
End kept.

(** The changes of hosts that belong to the node: its own hosts, and giving one of
    their names to a host with its initiators, if that is wanted. *)
Definition own (o : hostOpts) (ch : host_change) : Prop :=
  match ch with
  | HCreate _ n | HInitiators _ n => n ∈ host_names o
  | HRename _ _ n => n ∈ host_names o ∧ ModifyHostName o = true
  end.

(** C26: setting up a node changes no host on any array but those named after the node: hosts it
    creates or gives initiators to have one of the node's three names, and another host is renamed
    to one of them only when the driver may modify host names. *)
Theorem host_setup_only_own I o client portWWNs IQNs NQNs arrays :
  host_frame (C := C) I (own o) → (∀ a, holds I (client a) (λ _, True)) →
  holds I (nodeHostSetup client o portWWNs IQNs NQNs arrays) (λ _, True).
Proof.
  intros Hf Hc. unfold nodeHostSetup, setup_array. hosts;
    first [apply Hc | by eapply vsphere_frame | by eapply adopt_host_frame | by eapply use_adopted_frame
      | eapply holds_weaken; [by eapply standard_frame; [exact Hf|..]|by intros [?|?]]].
Qed.

Lemma matches_pos expected l : matches expected l ≠ 0 → ∃ x, x ∈ expected ∧ x ∈ l.
Proof.
  unfold matches. intros Hm. destruct (List.filter _ expected) as [|x rest] eqn:E; [done|].
  assert (In x (List.filter (λ w, bool_decide (w ∈ l)) expected)) as [Hx Hl]%filter_In by (rewrite E; by left).
  exists x. split; [by apply list_elem_of_In|by apply bool_decide_eq_true in Hl].
Qed.
Lemma matches_all expected l : matches expected l = Z.of_nat (List.length expected) → ∀ x, x ∈ expected → x ∈ l.
Proof.
  unfold matches. intros Hm x Hx. apply Nat2Z.inj in Hm.
  apply filter_length_forallb, forallb_forall with (x := x) in Hm; [by apply bool_decide_eq_true in Hm|by apply list_elem_of_In].
Qed.

(** What a host must have to be adopted for a node with these initiators. *)
Record adoptable (host : Host) (wwpns : list string) (ratio : float64) : Prop := mkAdoptable {
  ad_foreign : HasPrefix (Host_ID host) "csi-" = false;
  ad_some : ∃ x, x ∈ wwpns ∧ x ∈ Initiators host;
  ad_pair : List.length wwpns = 2%nat → ∀ x, x ∈ wwpns → x ∈ Initiators host;
  ad_enough : List.length wwpns ≠ 2%nat → requiredMatches (Z.of_nat (List.length wwpns)) ratio ≤ matches wwpns (Initiators host);
}.
Lemma validated host wwpns ratio :
  HasPrefix (Host_ID host) "csi-" = false → validateFCHostForAdoption host wwpns ratio = None → adoptable host wwpns ratio.
Proof.
  intros Hp. unfold validateFCHostForAdoption. repeat (case_match; try done); bool_to_prop; constructor; try done;
    try (by apply matches_pos); try lia.
  intros _. by apply matches_all.
Qed.

Lemma discover_host_answer a l (c : C) n b e w h w' :
  discover_host a l c n b e w = Some (Ok (Some h), w') → ∃ w0, (GetHostByInitiators c a l w0).1 = Ok (Some h).
Proof.
  revert b e w. induction n as [|n IH]; intros b e w; simpl; [done|].
  intros ([] & w1 & _ & E)%mbnd_Some; [done|]. apply mbnd_Some in E as (r & w2 & [= E] & E2).
  destruct r as [host|le]; [|destruct (isHostConflictError le); [done|by eapply IH]].
  injection E2 as -> <-. exists w1. by rewrite E.
Qed.

(** C27: a host is adopted only when the array found it for the node's initiators, its name is not one of
    the driver's, and it covers them: some of them, both of two, or as many as the ratio asks; it is
    then recorded. And an array where a host was adopted, or where that failed, gets no host of the
    driver's own, nor is one changed there. *)
Theorem adoption_sound o (c : C) sym portWWNs NQNs :
  (∀ w name w', discoverAndAdoptHost o sym portWWNs c w = Some (Ok name, w') → name ≠ "" →
     ∃ w0 host, (GetHostByInitiators c sym (strip_0x <$> portWWNs) w0).1 = Ok (Some host) ∧ Host_ID host = name
       ∧ adoptable host (strip_0x <$> portWWNs) (HostAdoptionMinOverlapRatio o)
       ∧ adopted (part w') !! sym = Some (mkAdopted name FcTransportProtocol []))
  ∧ (∀ I client st w r w', host_frame (C := C) I (λ _, False) → (∀ a, holds I (client a) (λ _, True)) →
     HostManagementMode (opts (node o)) = HostMgmtModeAdopt → portWWNs ≠ [] → I w →
     setup_array client o portWWNs NQNs sym st w = Some (r, w') →
     I w' ∨ ∃ c w0 w1, discoverAndAdoptHost o sym portWWNs c w0 = Some (Ok "", w1)).
Proof.
  split.
  - intros w name w' Hrun Hne. unfold discoverAndAdoptHost in Hrun. case_decide; [done|]. run_inv Hrun.
    destruct a as [host|]; [|by injection Hrun as <- _]. destruct (HasPrefix (Host_ID host) "csi-") eqn:Hp; [run_inv Hrun; by injection Hrun as <- _|].
    destruct (validateFCHostForAdoption _ _ _) eqn:Hv; [done|]. run_inv Hrun. destruct a; [done|]. run_inv Hrun.
    injection Hrun as <- <-. injection E1 as _ <-. destruct (discover_host_answer _ _ _ _ _ _ _ _ _ E) as [w0' Hw0].
    exists w0', host. split_and!; [done|done|by apply validated|]. rewrite part_set. cbn. by rewrite lookup_insert_eq.
  - intros I client st w r w' Hf Hc Hm Hw HI Hrun. unfold setup_array in Hrun.
    apply mbnd_Some in Hrun as (cl & w1 & E1 & Hrun). destruct (Hc _ _ _ _ E1 HI) as [HI1 _].
    destruct cl as [c'|]; [|left; by injection Hrun as _ <-].
    destruct (IsVsphereEnabled _).
    { left. refine (proj1 ((_ : holds I _ (λ _, True)) _ _ _ Hrun HI1)). hosts. by eapply vsphere_frame. }
    rewrite (bool_decide_eq_true_2 _ Hm), (bool_decide_eq_true_2 _ Hw) in Hrun. cbn [andb] in Hrun.
    apply mbnd_Some in Hrun as (a & w2 & E2 & Hrun). destruct (adopt_host_frame I _ Hf _ _ _ _ _ _ _ E2 HI1) as [HI2 _].
    destruct a as [name|e]; [|left; by injection Hrun as _ <-].
    destruct (decide (name ≠ "")) as [?|Hn]; [left|right; exists c', w1, w2; by rewrite E2, (dec_stable Hn)].
    refine (proj1 ((_ : holds I _ (λ _, True)) _ _ _ Hrun HI2)). hosts. by eapply use_adopted_frame.
Qed.
End host_theorems.

(** ** A simulated node *)
#[local] Existing Instance NodeTargets.nw_pmax.
#[local] Existing Instance NodeTargets.nw_masking.
#[local] Existing Instance NodeTargets.nw_net.
#[local] Existing Instance NodeTargets.nw_part.
#[local] Existing Instance NodeTargets.nw_order.

(** The node with its protocols; the changes of hosts are logged. *)
Record hostworld := mkHostworld { hw_node : nodeworld; hw_modes : modes; hw_changes : list host_change }.
#[local] Instance hw_inner : Part nodeworld hostworld.
Proof. by refine {| part := hw_node; set_part n w := mkHostworld n (hw_modes w) (hw_changes w) |}. Defined.
#[local] Instance hw_caches : Part caches hostworld.
Proof. by refine {| part w := nw_caches (hw_node w); set_part c w := mkHostworld (set_part c (hw_node w)) (hw_modes w) (hw_changes w) |}. Defined.
#[local] Instance hw_part : Part modes hostworld.
Proof. by refine {| part := hw_modes; set_part m w := mkHostworld (hw_node w) m (hw_changes w) |}. Defined.
#[local] Instance hw_pmax : Pmax hostworld string := part_pmax (V := nodeworld).
#[local] Instance hw_masking : MaskingClient hostworld string := part_masking (V := nodeworld) demo_view demo_group.
#[local] Instance hw_net : NodeNet hostworld string := {|
  GetNVMeTCPTargets c a := inside (V := nodeworld) (GetNVMeTCPTargets c a); GetISCSITargets c a := inside (V := nodeworld) (GetISCSITargets c a);
  GetPortDetails c a d p := inside (V := nodeworld) (GetPortDetails c a d p); GetInitiators := inside (V := nodeworld) (GetInitiators (C := string));
  PerformLogin t := inside (V := nodeworld) (PerformLogin (C := string) t); DiscoverAndLogin p := inside (V := nodeworld) (DiscoverAndLogin (C := string) p);
  SetCHAPCredentials t u p := inside (V := nodeworld) (SetCHAPCredentials (C := string) t u p);
  DiscoverNVMeTCPTargets p := inside (V := nodeworld) (DiscoverNVMeTCPTargets (C := string) p);
  NVMeTCPConnect t := inside (V := nodeworld) (NVMeTCPConnect (C := string) t); GetSessions := inside (V := nodeworld) (GetSessions (C := string));
|}.
Definition change_host (ch : host_change) (w : hostworld) : hostworld := mkHostworld (hw_node w) (hw_modes w) (hw_changes w ++ [ch])%list.
Definition bfs_host : Host := mkHost "bfs-n1" "Fibre" ["10000000c9959b8e"; "10000000c9959b8f"] 0.
#[local] Instance hw_client : HostClient hostworld string := {|
  GetInitiatorHost _ _ i w := (Ok (if Contains i "8e" then "other" else ""), w);
  GetHostByInitiators _ _ _ w := (Ok (Some bfs_host), w);
  UpdateHostName _ a old new w := (None, change_host (HRename a old new) w);
  CreateHost _ a n l w := (Ok (mkHost n "Fibre" l 0), change_host (HCreate a n) w);
  UpdateHostInitiators _ a h _ w := (None, change_host (HInitiators a (Host_ID h)) w);
  GetNVMeHostID w := (Ok "a-b", w); GetNVMeInitiators w := (Ok [], w); GetFCHostPortWWNs w := (Ok ["0x10000000c9959b8e"], w);
  WaitOrDone _ w := (false, w); DbusConnect w := (None, w); DbusClose w := (tt, w);
  ListUnits w := (Ok [("iscsid.service", "active")], w); StartUnit _ w := (Ok "done", w); setVMHost w := (None, w);
|}.

Definition half : float64 := fdiv (float_of_Z 1) (float_of_Z 2).
Definition host_options (mode : string) (modify : bool) (ratio : float64) : hostOpts :=
  mkHostOpts (mkNodeOpts (mkService false "" "" ["pg"] "ABC" "" "" mode false "csi-powermax" false ∅) ["000A"] "n1" "" "driver" false "" "") modify ratio.
Definition no_modes : modes := mkModes false false false false ∅ ∅ false.
Definition host_node (m : modes) : hostworld := mkHostworld (demo_node no_caches []) m [].
Definition host_of (a : string) : M hostworld (result error string) := ret (Ok a).

Lemma own_frame o : host_frame (C := string) (λ w : hostworld, Forall (own o) (hw_changes w)) (own o).
Proof. constructor; [by constructor|..]; try done; try (by intros c a n w h [= <-]); intros; cbn; by apply Forall_app_2; [|constructor]. Qed.

Lemma host_setup_only_own_witness :
  let o := host_options "" true half in
  let run := nodeHostSetup host_of o ["0x10000000c9959b8e"] ["iqn.node"] [] ["000A"] (host_node no_modes) in
  (λ r, hw_changes r.2) <$> run = Some [HRename "000A" "other" "csi-node-ABC-n1-FC"] ∧
  ∀ r w, run = Some (r, w) → Forall (own o) (hw_changes w).
Proof.
  intros o run. split; [vm_compute; reflexivity|]. intros r w E.
  refine (proj1 (host_setup_only_own (W := hostworld) (C := string) (λ w, Forall (own o) (hw_changes w)) o host_of
    ["0x10000000c9959b8e"] ["iqn.node"] [] ["000A"] (own_frame o) _ _ _ _ E _)); [by intros a; apply holds_ret|by constructor].
Defined.

Lemma adoption_sound_witness :
  let o := host_options "adopt" false half in
  let wwns := ["0x10000000c9959b8e"; "0x10000000c9959b8f"] in
  let run := discoverAndAdoptHost o "000A" wwns "000A" (host_node no_modes) in
  (λ r, (r.1, hw_changes r.2)) <$> run = Some (Ok "bfs-n1", []) ∧
  ∀ w, run = Some (Ok "bfs-n1", w) → adopted (part w) !! "000A" = Some (mkAdopted "bfs-n1" "FC" []).
Proof.
  intros o wwns run. split; [vm_compute; reflexivity|]. intros w E.
  destruct (proj1 (adoption_sound (W := hostworld) (C := string) o "000A" "000A" wwns []) _ _ _ E) as (w0 & h & _ & _ & _ & Ha); [done|exact Ha].
Defined.

(** A ratio that is not a number, which the configuration accepts, asks for nothing:
    one initiator of four is enough. *)
Example nan_ratio_adopts :
  validateFCHostForAdoption bfs_host ["10000000c9959b8e"; "a"; "b"; "c"] SpecFloat.S754_nan = None
  ∧ is_Some (validateFCHostForAdoption bfs_host ["10000000c9959b8e"; "a"; "b"; "c"] half).
Proof. split; vm_compute; eauto. Qed.

(** The initiators of an iSCSI host count as those of a Fibre Channel host. *)
Example iqn_is_hex : match_hex ["iqn.1993-08.org.debian:01:cafe"] = ["iqn.1993-08.org.debian:01:cafe"].
Proof. by vm_compute. Qed.

(** Fibre Channel stays in use for the node when an array is set up for iSCSI. *)
Example fc_left_in_use :
  let m := mkModes true false false false {["000B" := "FC"]} ∅ false in
  let run := nodeHostSetup host_of (host_options "" false half) [] ["iqn.node"] [] ["000A"] (host_node m) in
  (λ r, (arrayTransportProtocolMap (hw_modes r.2) !! "000A", useFC (hw_modes r.2), useIscsi (hw_modes r.2))) <$> run
  = Some (Some "ISCSI", true, true).
Proof. by vm_compute. Qed.
End NodeHosts.
