(* ===== verification/Bootstrap.v ===== *)
(** * Start of the driver

    Models what service/service.go reads when the driver starts and how it gets its
    clients: the environment with what setArrayConfigEnvs adds to it, the secret with
    its storage arrays, the options of BeforeServe, the modes resolved after them, the
    arrays a node keeps by its zone, and createPowerMaxClients. Files are read with
    viper, whose contents are arguments ([value]); csictx.LookupEnv is the lookup of a
    map. Logs, metrics and the goroutines BeforeServe starts at its end are left out. *)

From stdpp Require Import base gmap strings list.
From Stdlib Require Import ZArith Lia Ascii SpecFloat.
From S2P Require Import Prelude GoLib Ordering Pmax SimArray PowerMax VolumeID Metro Masking Handler Frame Reclaim NodeTargets.

Module Bootstrap.
Import PowerMax(PowerMax, mkPowerMax, AddPowerMax, getPowerMax, Initialize, getClient).
Import Reclaim(ParseBool).
Import NodeTargets(resolveNVMeTCPConnMode, quoted).
Import SimArray(Sim).
#[local] Existing Instance SimArray.sim_pmax.
Open Scope go_scope.
Open Scope handler_scope.
Open Scope string_scope.
Open Scope Z_scope.

(** ** The environment *)
Abbreviation environment := (gmap string string).

(** csictx.LookupEnv into a string that keeps its value when there is none. *)
Definition env_or (env : environment) (key dflt : string) : string := default dflt (env !! key).

Definition MaxClusterPrefixLength : Z := 3.
Definition MaxPowerMaxObjectNameLength : Z := 64.
Definition HostMgmtModeCreate := "create".
Definition HostMgmtModeDefault := HostMgmtModeCreate.
Definition DefaultHostAdoptionMinOverlapRatio : float64 := fdiv (float_of_Z 1) (float_of_Z 2).
Definition defaultPrivDir := "/dev/disk/csi-powermax".
Definition ReplicationContextPrefix := "powermax".
Definition ReplicationPrefix := "replication.storage.dell.com".
Definition maxAuthenticateRetryCount : nat := 4.
Definition driver_Name := "csi-powermax.dellemc.com".

Definition parseCommaSeperatedList (values : string) : list string :=
  List.filter (λ t, negb (bool_decide (t = ""))) (TrimSpace <$> Split "," values).

(** [strings.Replace(s, "-", "_", -1)] *)
Fixpoint dashes_to_underscores (s : string) : string :=
  match s with "" => "" | String c s => String (if decide (c = "-"%char) then "_"%char else c) (dashes_to_underscores s) end.

(** Host, port, and whether there is a proxy. *)
Definition getProxySettingsFromEnv (env : environment) : string * string * bool :=
  match env !! "X_CSI_POWERMAX_SIDECAR_PROXY_PORT" with
  | Some port => ("0.0.0.0", port, true)
  | None =>
      match env !! "X_CSI_POWERMAX_PROXY_SERVICE_NAME" with
      | Some name =>
          if decide (name = "none") then ("", "", false)
          else
            match env !! (dashes_to_underscores (ToUpper name) ++ "_SERVICE_PORT") with
            | Some port => if decide (name = "" ∨ port = "") then ("", "", false) else (name, port, true)
            | None => ("", "", false)
            end
      | None => ("", "", false)
      end
  end.

Definition getTransportProtocolFromEnv (env : environment) : string :=
  match env !! "X_CSI_TRANSPORT_PROTOCOL" with
  | None => ""
  | Some tp =>
      let tp := ToUpper tp in
      if decide (tp = "FIBRE") then "FC"
      else if decide (tp ∈ ["FC"; "ISCSI"; "NVMETCP"; ""]) then tp
      else ""
  end.

(** The values of the config map of the arrays, empty for a missing key. *)
Definition set_nonempty (key v : string) (env : environment) : environment := if decide (v = "") then env else <[key := v]> env.
Definition clean_endpoint (endpoint : string) : string := TrimRight "/" (TrimSpace endpoint).

(** ** Values of a configuration file

    As viper gives them, with keys in lower case; null is a missing entry. *)
Inductive value := VString (s : string) | VMap (m : list (string * value)) | VList (l : list value) | VOther.
Definition Get (key : string) (m : list (string * value)) : option value :=
  snd <$> List.find (λ kv, bool_decide (kv.1 = key)) m.

(** A type assertion to a string, which panics. *)
Definition as_string (v : option value) : option string := match v with Some (VString s) => Some s | _ => None end.
(** The first of the management servers of the secret, if there is one; panics when
    the secret has no list of them. *)
Definition first_server (secret : list (string * value)) : option (option (list (string * value))) :=
  match Get "managementservers" secret with
  | Some (VList []) => Some None
  | Some (VList (VMap m :: _)) => Some (Some m)
  | _ => None
  end.

(** The environment with what the config map of the arrays sets; the secret is only
    looked at, and the endpoint found there is not used. [None] is a panic. *)
Definition setArrayConfigEnvs (config : string → string) (secret : list (string * value)) (env : environment)
    : option (environment * option error) :=
  match env !! "X_CSI_POWERMAX_ARRAY_CONFIG_PATH" with
  | None => Some (env, Some (errorString "unable to read X_CSI_POWERMAX_ARRAY_CONFIG_PATH from env"))
  | Some _ =>
      let env := set_nonempty "X_CSI_POWERMAX_PORTGROUPS" (config "X_CSI_POWERMAX_PORTGROUPS") env in
      let env := set_nonempty "X_CSI_TRANSPORT_PROTOCOL" (config "X_CSI_TRANSPORT_PROTOCOL") env in
      let endpoint := config "X_CSI_POWERMAX_ENDPOINT" in
      let env := if decide (endpoint = "") then env else <["X_CSI_POWERMAX_ENDPOINT" := clean_endpoint endpoint]> env in
      let env := set_nonempty "X_CSI_MANAGED_ARRAYS" (config "X_CSI_MANAGED_ARRAYS") env in
      if decide (env !! "X_CSI_REVPROXY_USE_SECRET" = Some "true") then
        server ← first_server secret;
        match server with
        | None => Some (env, None)
        | Some m => _ ← as_string (Get "endpoint" m); Some (env, None)
        end
      else Some (env, None)
  end.

(** ** Storage arrays of the secret *)
Record StorageArrayConfig := mkStorageArray { Labels : gmap string value; Parameters : gmap string value }.

(** A field that is a map, if it is there. *)
Definition map_field (key : string) (m : list (string * value)) : option (gmap string value) :=
  match Get key m with
  | None => Some ∅
  | Some (VMap l) => Some (list_to_map l)
  | Some _ => None
  end.
Definition array_entry (storageArray : value) : option (string * StorageArrayConfig) :=
  match storageArray with
  | VMap m =>
      id ← as_string (Get "storagearrayid" m);
      if decide (id = "") then None
      else
        labels ← map_field "labels" m;
        parameters ← map_field "parameters" m;
        Some (id, mkStorageArray labels parameters)
  | _ => None
  end.
Definition add_array (acc : gmap string StorageArrayConfig) (storageArray : value) : gmap string StorageArrayConfig :=
  match array_entry storageArray with Some (id, config) => <[id := config]> acc | None => acc end.
Definition GetStorageArrays (secret : list (string * value)) (arrays : gmap string StorageArrayConfig) : gmap string StorageArrayConfig :=
  match Get "storagearrays" secret with Some (VList l) => fold_left add_array l arrays | _ => arrays end.

Definition hasMetroSiteLabels (StorageArrays : gmap string StorageArrayConfig) (localSymID remoteSymID : string) : bool :=
  match StorageArrays !! localSymID, StorageArrays !! remoteSymID with
  | Some l, Some r => negb (bool_decide (Labels l = ∅)) && negb (bool_decide (Labels r = ∅))
  | _, _ => false
  end.

(** ** The options

    The options of a component of its own, the management of hosts, the sessions of NVMe and the check of
    file systems, are resolved separately, in [resolve_modes] below and in those components. *)
Record Opts := mkOpts {
  Endpoint : string;
  UseProxy : bool;
  ProxyServiceHost : string;
  ProxyServicePort : string;
  User : string;
  Password : string;
  NodeName : string;
  NodeFullName : string;
  TransportProtocol : string;
  DriverName : string;
  CHAPUserName : string;
  CHAPPassword : string;
  Insecure : bool;
  Thick : bool;
  AutoProbe : bool;
  EnableBlock : bool;
  EnableCHAP : bool;
  PortGroups : list string;
  ClusterPrefix : string;
  ManagedArrays : list string;
  GrpcMaxThreads : Z;
  NodeNameTemplate : string;
  ModifyHostName : bool;
  opt_ReplicationContextPrefix : string;
  opt_ReplicationPrefix : string;
  IsHealthMonitorEnabled : bool;
  IsCSIAddonsReplicationEnabled : bool;
  IsTopologyControlEnabled : bool;
  IsVsphereEnabled : bool;
  VSpherePortGroup : string;
  VSphereHostName : string;
  VCenterHostURL : string;
  VCenterHostUserName : string;
  VCenterHostPassword : string;
  MaxVolumesPerNode : Z;
  KubeConfigPath : string;
  IsPodmonEnabled : bool;
  PodmonPort : string;
  PodmonPollingFreq : string;
  PodmonAPIToken : string;
  TLSCertDir : string;
  StorageArrays : gmap string StorageArrayConfig;
  IsMetroSiteFailureHandlingEnabled : bool;
  MetroStateCheckTimeout : Z;
  MetroQueueWarningThreshold : Z;
  MetroQueueHardLimit : Z;
  MetroReconciliationBackoff : Z;
}.

(** [pb] and [isBoolEnvVar] of BeforeServe. *)
Definition pb (env : environment) (n : string) : bool :=
  match env !! n with Some v => default false (ParseBool v) | None => false end.
Definition isBoolEnvVar (env : environment) (n : string) : bool :=
  match env !! n with Some v => bool_decide (ToLower v ∈ ["true"; "false"]) | None => false end.

(** The value of a variable that is a number accepted by [p], or a default. *)
Definition number_or (env : environment) (key : string) (p : Z → bool) (dflt : Z) : Z :=
  match env !! key with
  | Some s => match Atoi s with Some v => if p v then v else dflt | None => dflt end
  | None => dflt
  end.

(** User and password: of the environment, or of the secret; [None] is a panic. *)
Definition credentials (env : environment) (secret : list (string * value)) : option (string * string) :=
  let user := env_or env "X_CSI_POWERMAX_USER" "" in
  let user := if decide (user = "") then "admin" else user in
  let password := env_or env "X_CSI_POWERMAX_PASSWORD" "" in
  if decide (env !! "X_CSI_REVPROXY_USE_SECRET" = Some "true") then
    server ← first_server secret;
    match server with
    | None => Some (user, password)
    | Some m => u ← as_string (Get "username" m); p ← as_string (Get "password" m); Some (u, p)
    end
  else Some (user, password).

(** [time.Duration(secs) * time.Second], which wraps. *)
Definition seconds (secs : Z) : Z := wrap64 (secs * Second).
Definition state_check_timeout (env : environment) : Z :=
  match env !! "X_CSI_POWERMAX_METRO_STATE_CHECK_TIMEOUT" with
  | Some s =>
      match Atoi s with Some secs => if (5 <=? secs) && (secs <=? 120) then seconds secs else 15 * Second | None => 15 * Second end
  | None => 15 * Second
  end.
Definition reconciliation_backoff (env : environment) : Z :=
  match env !! "X_CSI_POWERMAX_METRO_RECONCILIATION_BACKOFF" with
  | Some s =>
      if decide (s = "") then 5 * Second
      else match Atoi s with Some secs => if 0 <? secs then seconds secs else 0 | None => 0 end
  | None => 5 * Second
  end.

(** The options BeforeServe reads: [None] when the process ends, by os.Exit for want
    of managed arrays or by a panic over the secret. *)
Definition read_options (env : environment) (secret : list (string * value)) : option (result error Opts) :=
  creds ← credentials env secret;
  let useSecret := bool_decide (env !! "X_CSI_REVPROXY_USE_SECRET" = Some "true") in
  arrays ← env !! "X_CSI_MANAGED_ARRAYS";
  let '(host, port, useProxy) := getProxySettingsFromEnv env in
  if negb useProxy then
    Some (Err (errorString "CSI reverseproxy service host or port not found, CSI reverseproxy not installed properly"))
  else
    match env !! "X_CSI_K8S_CLUSTER_PREFIX" with
    | None => Some (Err (errorString "No Cluster Prefix was specified"))
    | Some prefix =>
        if MaxClusterPrefixLength <? slen prefix then
          Some (Err (errorString ("Invalid Cluster Prefix specified, exceeds maximum length of " ++ Itoa MaxClusterPrefixLength ++ " characters")))
        else
          let name := env_or env "X_CSI_POWERMAX_NODENAME" "" in
          let vsphere := pb env "X_CSI_VSPHERE_ENABLED" in
          let of_vsphere key := if vsphere then env_or env key "" else "" in
          Some (Ok {|
            Endpoint := "";
            UseProxy := useProxy;
            ProxyServiceHost := host;
            ProxyServicePort := port;
            User := creds.1;
            Password := creds.2;
            NodeName := default "" (head (Split "." name));
            NodeFullName := name;
            TransportProtocol := getTransportProtocolFromEnv env;
            DriverName := env_or env "X_CSI_POWERMAX_DRIVER_NAME" "";
            CHAPUserName := env_or env "X_CSI_POWERMAX_ISCSI_CHAP_USERNAME" "";
            CHAPPassword := env_or env "X_CSI_POWERMAX_ISCSI_CHAP_PASSWORD" "";
            Insecure := pb env "X_CSI_POWERMAX_SKIP_CERTIFICATE_VALIDATION";
            Thick := pb env "X_CSI_POWERMAX_THICKPROVISIONING";
            AutoProbe := pb env "X_CSI_POWERMAX_AUTOPROBE";
            EnableBlock := if isBoolEnvVar env "X_CSI_ENABLE_BLOCK" then pb env "X_CSI_ENABLE_BLOCK" else true;
            EnableCHAP := pb env "X_CSI_POWERMAX_ISCSI_ENABLE_CHAP";
            PortGroups := match env !! "X_CSI_POWERMAX_PORTGROUPS" with Some l => parseCommaSeperatedList l | None => [] end;
            ClusterPrefix := prefix;
            ManagedArrays := parseCommaSeperatedList arrays;
            GrpcMaxThreads := number_or env "X_CSI_GRPC_MAX_THREADS" (λ _, true) 4;
            NodeNameTemplate := env_or env "X_CSI_IG_NODENAME_TEMPLATE" "";
            ModifyHostName := pb env "X_CSI_IG_MODIFY_HOSTNAME";
            opt_ReplicationContextPrefix := env_or env "X_CSI_REPLICATION_CONTEXT_PREFIX" ReplicationContextPrefix;
            opt_ReplicationPrefix := env_or env "X_CSI_REPLICATION_PREFIX" ReplicationPrefix;
            IsHealthMonitorEnabled := pb env "X_CSI_HEALTH_MONITOR_ENABLED";
            IsCSIAddonsReplicationEnabled := pb env "X_CSI_CSIADDONS_REPLICATION_ENABLED";
            IsTopologyControlEnabled := pb env "X_CSI_TOPOLOGY_CONTROL_ENABLED";
            IsVsphereEnabled := vsphere;
            VSpherePortGroup := of_vsphere "X_CSI_VSPHERE_PORTGROUP";
            VSphereHostName := of_vsphere "X_CSI_VSPHERE_HOSTNAME";
            VCenterHostURL := of_vsphere "X_CSI_VCENTER_HOST";
            VCenterHostUserName := of_vsphere "X_CSI_VCENTER_USERNAME";
            VCenterHostPassword := of_vsphere "X_CSI_VCENTER_PWD";
            MaxVolumesPerNode := number_or env "X_CSI_MAX_VOLUMES_PER_NODE" (λ _, true) 0;
            KubeConfigPath := env_or env "KUBECONFIG" "";
            IsPodmonEnabled := pb env "X_CSI_PODMON_ENABLED";
            PodmonPort := match env !! "X_CSI_PODMON_API_PORT" with Some p => ":" ++ p | None => "" end;
            PodmonPollingFreq := env_or env "X_CSI_PODMON_ARRAY_CONNECTIVITY_POLL_RATE" "";
            PodmonAPIToken := TrimSpace (env_or env "X_CSI_PODMON_API_TOKEN" "");
            TLSCertDir := env_or env "X_CSI_REVPROXY_TLS_CERT_DIR" "";
            StorageArrays := if useSecret then GetStorageArrays secret ∅ else ∅;
            IsMetroSiteFailureHandlingEnabled := pb env "X_CSI_POWERMAX_METRO_SITE_FAILURE_HANDLING_ENABLED";
            MetroStateCheckTimeout := state_check_timeout env;
            MetroQueueWarningThreshold := number_or env "X_CSI_POWERMAX_METRO_QUEUE_WARNING_THRESHOLD" (λ v, 0 <? v) 0;
            MetroQueueHardLimit := number_or env "X_CSI_POWERMAX_METRO_QUEUE_HARD_LIMIT" (λ v, 0 <? v) 0;
            MetroReconciliationBackoff := reconciliation_backoff env;
          |})
    end.

(** What BeforeServe keeps outside of the options. *)
Definition privDir (env : environment) : string :=
  let d := env_or env "X_CSI_PRIVATE_MOUNT_DIR" "" in if decide (d = "") then defaultPrivDir else d.
Definition isNode (mode : string) : bool := EqualFold mode "node".
Definition isController (mode : string) : bool := EqualFold mode "controller".

(** ** Modes of hosts *)
Definition HostMgmtModeAdopt := Masking.HostMgmtModeAdopt.
Definition resolveHostManagementMode (v : string) : result error string :=
  if decide (v = "") then Ok HostMgmtModeDefault
  else
    let mode := ToLower v in
    if decide (mode ∈ [HostMgmtModeCreate; HostMgmtModeAdopt]) then Ok mode
    else Err (errorString ("invalid hostManagementMode " ++ quoted v ++ " for X_CSI_POWERMAX_HOST_MGMT_MODE; valid values are "
      ++ quoted HostMgmtModeCreate ++ " and " ++ quoted HostMgmtModeAdopt)).

(** [ratio < 0.0 || ratio > 1.0], false of what is not a number. *)
Definition resolveHostAdoptionMinOverlapRatio (ParseFloat : string → option float64) (v : string) : result error float64 :=
  if decide (v = "") then Ok DefaultHostAdoptionMinOverlapRatio
  else
    let invalid := errorString ("invalid value " ++ quoted v ++ " for X_CSI_POWERMAX_HOST_ADOPTION_MIN_OVERLAP_RATIO: must be between 0.0 and 1.0") in
    match ParseFloat v with
    | None => Err invalid
    | Some ratio => if SFltb ratio fzero || SFltb (float_of_Z 1) ratio then Err invalid else Ok ratio
    end.

(** csiNodeID, by the options and the mode. *)
Definition node_id (o : Opts) (mode : string) : string :=
  if bool_decide (mode = HostMgmtModeAdopt) && bool_decide (NodeFullName o ≠ "") then NodeFullName o else NodeName o.
Definition longest_name (o : Opts) (mode : string) : Z :=
  slen Masking.CsiNoSrpSGPrefix + slen (ClusterPrefix o) + 1 + slen (Masking.dots_to_dashes (node_id o mode)) + slen Masking.NVMETCPSuffix.
Definition validateDerivedObjectNameLength (o : Opts) (mode : string) : option error :=
  if MaxPowerMaxObjectNameLength <? longest_name o mode then
    Some (errorString ("node name " ++ quoted (node_id o mode) ++ " produces PowerMax object names of " ++ Itoa (longest_name o mode)
      ++ " characters, exceeding the " ++ Itoa MaxPowerMaxObjectNameLength
      ++ " character limit; shorten the node name or set X_CSI_POWERMAX_NODENAME to a shorter value"))
  else None.

(** What BeforeServe resolves after the probes: the mode of hosts, of NVMe/TCP
    connections, and the ratio of adoption. *)
Definition resolve_modes (ParseFloat : string → option float64) (env : environment) (o : Opts) : result error (string * string * float64) :=
  match resolveHostManagementMode (env_or env "X_CSI_POWERMAX_HOST_MGMT_MODE" "") with
  | Err e => Err e
  | Ok mode =>
      match resolveNVMeTCPConnMode (env_or env "X_CSI_POWERMAX_NVMETCP_CONN_MODE" "") with
      | Err e => Err e
      | Ok conn =>
          match resolveHostAdoptionMinOverlapRatio ParseFloat (env_or env "X_CSI_POWERMAX_HOST_ADOPTION_MIN_OVERLAP_RATIO" "") with
          | Err e => Err e
          | Ok ratio =>
              match (if bool_decide (mode = HostMgmtModeAdopt) && bool_decide (NodeName o ≠ "") then validateDerivedObjectNameLength o mode
                     else None) with
              | Some e => Err e
              | None => Ok (mode, conn, ratio)
              end
          end
      end
  end.

(** ** The arrays of a node's zone *)

(** Whether the labels of an array agree with those of the node: the loop ends at the
    first that does not; a label that is not a string and that the node has panics. *)
Fixpoint labels_agree (nodeLabels : gmap string string) (l : list (string * value)) : option bool :=
  match l with
  | [] => Some true
  | (key, v) :: l =>
      match nodeLabels !! key with
      | None => Some false
      | Some nodeLabelVal =>
          arrayLabelVal ← as_string (Some v);
          if decide (nodeLabelVal = arrayLabelVal) then labels_agree nodeLabels l else Some false
      end
  end.

Section zones.
Context `{MapOrder}.

(** The arrays with labels that agree, and those without labels. *)
Fixpoint zone_loop (nodeLabels : gmap string string) (l : list (string * StorageArrayConfig)) (zoned unzoned : list string)
    : option (list string * list string) :=
  match l with
  | [] => Some (zoned, unzoned)
  | (arrayID, config) :: l =>
      if decide (Labels config = ∅) then zone_loop nodeLabels l zoned (unzoned ++ [arrayID])%list
      else
        keepArray ← labels_agree nodeLabels (range (Labels config));
        zone_loop nodeLabels l (if (keepArray : bool) then zoned ++ [arrayID] else zoned)%list unzoned
  end.
Definition filterArraysByZoneInfo (labels : result error (gmap string string)) (storageArrays : gmap string StorageArrayConfig)
    : option (list string) :=
  let nodeLabels := match labels with Ok m => m | Err _ => ∅ end in
  r ← zone_loop nodeLabels (range storageArrays) [] [];
  Some (match r.1 with [] => r.2 | zoned => zoned end).

(** What BeforeServe makes of the managed arrays. *)
Definition managed_arrays (mode : string) (labels : result error (gmap string string)) (o : Opts) : option (list string) :=
  if isNode mode && negb (bool_decide (StorageArrays o = ∅)) then filterArraysByZoneInfo labels (StorageArrays o)
  else Some (ManagedArrays o).
End zones.

(** ** Clients *)
Class Unisphere (W C : Type) := {
  NewClientWithArgs : W → result error C * W;
  (** With version 104, or none. *)
  Authenticate : C → bool → W → option error * W;
  (** Whether the array is local to this Unisphere. *)
  GetSymmetrixLocal : C → string → W → result error bool * W;
}.

Record clientState (C : Type) := mkClients {
  adminClient : option C;
  adminClient104 : option C;
  managed : list string;
  registry : gmap string (PowerMax (C := C));
  watched : list string;
}.
Arguments mkClients {C}.
Arguments adminClient {C}.
Arguments adminClient104 {C}.
Arguments managed {C}.
Arguments registry {C}.
Arguments watched {C}.

Section clients.
Context {W C : Type} `{Pmax W C} `{Unisphere W C} `{P : Part (clientState C) W}.

(** At most [n] attempts, with a pause after each that fails. *)
Fixpoint authenticate (n : nat) (c : C) (v104 : bool) (last : option error) : M W (option error) :=
  match n with
  | O => ret last
  | S n =>
      let* e := lift (Authenticate c v104) in
      match e with
      | None => ret None
      | Some e => let* _ := lift (Sleep (10 * Second)) in authenticate n c v104 (Some e)
      end
  end.

(** The client for version 10.4, or the other one. *)
Definition client_104 (c : C) : M W C :=
  let* r := lift NewClientWithArgs in
  match r with
  | Err _ => ret c
  | Ok c104 =>
      let* e := authenticate maxAuthenticateRetryCount c104 true None in
      ret (match e with Some _ => c | None => c104 end)
  end.

(** The arrays that are local to the Unisphere of the client. *)
Fixpoint local_arrays (c : C) (arrays : list string) : M W (list string) :=
  match arrays with
  | [] => ret []
  | array :: arrays =>
      let* r := lift (GetSymmetrixLocal c array) in
      let* rest := local_arrays c arrays in
      ret (match r with Ok true => array :: rest | _ => rest end)
  end.

(** [os.Exit] for want of a local array ends the process, as a panic does. *)
Definition createPowerMaxClients (isMetroSiteFailureHandlingEnabled : bool) : M W (option error) :=
  let* s := read in
  match adminClient s with
  | Some _ => ret None
  | None =>
      let* r := lift NewClientWithArgs in
      match r with
      | Err e => ret (Some (statusError FailedPrecondition ("unable to create PowerMax client: " ++ Error e)))
      | Ok c =>
          let* e := authenticate maxAuthenticateRetryCount c false None in
          match e with
          | Some e => ret (Some (statusError FailedPrecondition ("unable to login to Unisphere: " ++ Error e)))
          | None =>
              let* c104 := client_104 c in
              let* arrays := local_arrays c (managed s) in
              match arrays with
              | [] => panic
              | _ =>
                  let '(reg, e) := Initialize arrays c (registry s) in
                  let watch := match e with Some _ => [] | None => if isMetroSiteFailureHandlingEnabled then arrays else [] end in
                  let* _ := update (λ s, mkClients (Some c) (Some c104) arrays reg (watched s ++ watch)%list) in
                  ret e
              end
          end
      end
  end.

Definition controllerProbe (o : Opts) : M W (option error) :=
  if negb (UseProxy o) && bool_decide (Endpoint o = "") then ret (Some (statusError FailedPrecondition "missing Unisphere endpoint"))
  else if decide (User o = "") then ret (Some (statusError FailedPrecondition "missing Unisphere user"))
  else if decide (Password o = "") then ret (Some (statusError FailedPrecondition "missing Unisphere password"))
  else createPowerMaxClients (IsMetroSiteFailureHandlingEnabled o).
End clients.

(** ** Theorems: options *)
Lemma head_Split_no_sep c s : has_char c (default "" (head (Split c s))) = false.
Proof.
  induction s as [|d s IH]; [done|]. simpl. destruct (d =? c)%char eqn:E; [done|].
  destruct (Split c s) as [|x xs]; simpl in *; by rewrite E.
Qed.

Lemma trim_front_idem s : trim_front (trim_front s) = trim_front s.
Proof. induction s as [|c s IH]; [done|]. simpl. destruct (is_space c) eqn:E; [exact IH|]. simpl. by rewrite E. Qed.
Lemma trim_back_idem s : trim_back (trim_back s) = trim_back s.
Proof.
  induction s as [|c s IH]; [done|]. simpl. destruct (trim_back s) as [|d t] eqn:E; [by destruct (is_space c) eqn:F; simpl; rewrite ?F|].
  simpl in *. by rewrite IH.
Qed.
Lemma trim_front_back s : trim_front s = s → trim_front (trim_back s) = trim_back s.
Proof.
  destruct s as [|c s]; [done|]. simpl. destruct (is_space c) eqn:E.
  - intros F. exfalso. assert (slen (trim_front s) <= slen s) as Hl.
    { clear. induction s as [|c s IH]; [done|]. simpl. destruct (is_space c); unfold slen in *; simpl in *; lia. }
    rewrite F in Hl. unfold slen in Hl. simpl in Hl. lia.
  - intros _. destruct (trim_back s); simpl; by rewrite ?E.
Qed.
Lemma TrimSpace_idem s : TrimSpace (TrimSpace s) = TrimSpace s.
Proof. unfold TrimSpace. rewrite (trim_front_back (trim_front s)) by apply trim_front_idem. apply trim_back_idem. Qed.

(** A name of a list: not empty, and without space around it. *)
Definition trimmed (s : string) : Prop := s ≠ "" ∧ TrimSpace s = s.
Lemma comma_list_trimmed l : Forall trimmed (parseCommaSeperatedList l).
Proof.
  apply Forall_forall. intros x [Hin Hx]%list_elem_of_In%filter_In. apply in_map_iff in Hin as (y & <- & _).
  split; [by bool_to_prop|apply TrimSpace_idem].
Qed.

Lemma timeout_range env : 5 * Second <= state_check_timeout env <= 120 * Second.
Proof.
  unfold state_check_timeout, Second. destruct (env !! _); [|lia]. destruct (Atoi _) as [secs|]; [|lia].
  destruct (_ && _) eqn:E; [|lia]. bool_to_prop. unfold seconds, Second. rewrite wrap64_id; unfold in64; lia.
Qed.
Lemma number_or_pos env key : 0 <= number_or env key (λ v, 0 <? v) 0.
Proof. unfold number_or. destruct (env !! key); [|lia]. destruct (Atoi _); [|lia]. destruct (0 <? z) eqn:E; bool_to_prop; lia. Qed.

(** Options the rest of the driver can rely on. *)
Record well_formed (o : Opts) : Prop := mkWellFormed {
  wf_proxy : UseProxy o = true;
  wf_prefix : slen (ClusterPrefix o) <= MaxClusterPrefixLength;
  wf_node : has_char "." (NodeName o) = false ∧ NodeName o = default "" (head (Split "." (NodeFullName o)));
  wf_protocol : TransportProtocol o ∈ [""; "FC"; "ISCSI"; "NVMETCP"];
  wf_groups : Forall trimmed (PortGroups o);
  wf_arrays : Forall trimmed (ManagedArrays o);
  wf_timeout : 5 * Second <= MetroStateCheckTimeout o <= 120 * Second;
  wf_queue : 0 <= MetroQueueWarningThreshold o ∧ 0 <= MetroQueueHardLimit o;
  wf_storage : StorageArrays o !! "" = None;
}.

Lemma array_entry_id v id config : array_entry v = Some (id, config) → id ≠ "".
Proof.
  unfold array_entry. destruct v; try done. intros (i & _ & E)%bind_Some. case_decide; [done|].
  apply bind_Some in E as (? & _ & E). apply bind_Some in E as (? & _ & [= -> _]). done.
Qed.
Lemma storage_arrays_named secret : GetStorageArrays secret ∅ !! "" = None.
Proof.
  unfold GetStorageArrays. destruct (Get _ _) as [[]|]; try done. generalize (∅ : gmap string StorageArrayConfig) (lookup_empty (M := gmap string) (A := StorageArrayConfig) "").
  induction l as [|v l IH]; intros m Hm; [done|]. simpl. apply IH. unfold add_array.
  destruct (array_entry v) as [[id c]|] eqn:E; [|done]. apply array_entry_id in E. by rewrite lookup_insert_ne.
Qed.

(** Whatever the environment and the secret hold, the options the driver starts with are well
    formed: it has a proxy, a cluster prefix of at most three characters, the short name of the node,
    a known protocol or none, lists of names without empty or padded ones, the timeout of the Metro
    check between 5 and 120 seconds, limits that are not negative, and storage arrays with ids. *)
Theorem options_well_formed env secret o : read_options env secret = Some (Ok o) → well_formed o.
Proof.
  unfold read_options. intros (creds & _ & E)%bind_Some. apply bind_Some in E as (arrays & _ & E).
  destruct (getProxySettingsFromEnv env) as [[host port] [|]]; [cbn [negb] in E|by injection E].
  destruct (env !! "X_CSI_K8S_CLUSTER_PREFIX"); [|done]. destruct (_ <? _) eqn:Hl; [done|]. injection E as <-.
  constructor; cbn -[parseCommaSeperatedList Split]; try done.
  - bool_to_prop. lia.
  - split; [apply head_Split_no_sep|done].
  - unfold getTransportProtocolFromEnv. destruct (env !! _); [|set_solver]. repeat case_decide; set_solver.
  - destruct (env !! _); [apply comma_list_trimmed|constructor].
  - apply comma_list_trimmed.
  - apply timeout_range.
  - split; apply number_or_pos.
  - case_bool_decide; [apply storage_arrays_named|done].
Qed.

Definition demo_env : environment := list_to_map
  [("X_CSI_MANAGED_ARRAYS", "000120000001, ,000120000002 "); ("X_CSI_POWERMAX_SIDECAR_PROXY_PORT", "2222");
   ("X_CSI_K8S_CLUSTER_PREFIX", "ABC"); ("X_CSI_POWERMAX_NODENAME", "worker1.lab.local"); ("X_CSI_TRANSPORT_PROTOCOL", "fibre");
   ("X_CSI_POWERMAX_METRO_STATE_CHECK_TIMEOUT", "600")].
Lemma options_well_formed_witness :
  match read_options demo_env [] with
  | Some (Ok o) =>
      (ManagedArrays o, NodeName o, TransportProtocol o, MetroStateCheckTimeout o)
        = (["000120000001"; "000120000002"], "worker1", "FC", 15 * Second) ∧ well_formed o
  | _ => False
  end.
Proof.
  destruct (read_options demo_env []) as [[o|e]|] eqn:E; [|vm_compute in E; discriminate E|vm_compute in E; discriminate E].
  split; [vm_compute in E; injection E as <-; reflexivity|exact (options_well_formed demo_env [] o E)].
Defined.

(** A backoff of many seconds wraps to a negative time. *)
Example backoff_wraps :
  reconciliation_backoff {["X_CSI_POWERMAX_METRO_RECONCILIATION_BACKOFF" := "10000000000"]} < 0.
Proof. by vm_compute. Qed.
(** The endpoint of the config map gets into the environment, but not into the options. *)
Example endpoint_not_read :
  let config (key : string) := if decide (key = "X_CSI_POWERMAX_ENDPOINT") then "https://unisphere:8443/" else "" in
  match setArrayConfigEnvs config [] (<["X_CSI_POWERMAX_ARRAY_CONFIG_PATH" := "/config"]> demo_env) with
  | Some (env, None) =>
      env !! "X_CSI_POWERMAX_ENDPOINT" = Some "https://unisphere:8443"
      ∧ match read_options env [] with Some (Ok o) => Endpoint o = "" | _ => False end
  | _ => False
  end.
Proof. by vm_compute. Qed.

(** ** Theorems: names *)
Lemma slen_dots s : slen (Masking.dots_to_dashes s) = slen s.
Proof. unfold slen. induction s as [|c s IH]; [done|]. simpl in *. lia. Qed.

(** A driver that starts in adopt mode derives no name of a host, a storage group or a masking view
    for its node that is longer than the array accepts, with any protocol, as long as no template
    names the hosts. *)
Theorem derived_names_fit ParseFloat env o mode conn ratio s proto :
  resolve_modes ParseFloat env o = Ok (mode, conn, ratio) → mode = HostMgmtModeAdopt → NodeName o ≠ "" →
  Masking.ClusterPrefix s = ClusterPrefix o → Masking.NodeNameTemplate s = "" →
  let id := node_id o mode in
  let '(h, sg, mv) := match (proto : option bool) with
    | None => Masking.GetISCSIHostSGAndMVIDFromNodeID s id
    | Some false => Masking.GetFCHostSGAndMVIDFromNodeID s id
    | Some true => Masking.GetNVMETCPHostSGAndMVIDFromNodeID s id
    end in
  Forall (λ n, slen n <= MaxPowerMaxObjectNameLength) [h; sg; mv].
Proof.
  intros Hr -> Hn Hp Ht id. unfold resolve_modes in Hr. destruct (resolveHostManagementMode _); [|done].
  destruct (resolveNVMeTCPConnMode _); [|done]. destruct (resolveHostAdoptionMinOverlapRatio _ _); [|done].
  match type of Hr with match ?x with _ => _ end = _ => destruct x eqn:E; [done|] end. injection Hr as -> _ _.
  rewrite !bool_decide_eq_true_2 in E by done. cbn [andb] in E. unfold validateDerivedObjectNameLength in E.
  destruct (_ <? _) eqn:Hl; [done|]. apply Z.ltb_ge in Hl. unfold longest_name in Hl. rewrite slen_dots in Hl.
  fold id in Hl. change (slen Masking.CsiNoSrpSGPrefix) with 14 in Hl. change (slen Masking.NVMETCPSuffix) with 8 in Hl.
  unfold Masking.GetFCHostSGAndMVIDFromNodeID, Masking.GetNVMETCPHostSGAndMVIDFromNodeID, Masking.GetISCSIHostSGAndMVIDFromNodeID,
    Masking.GetHostIDFromTemplate. rewrite decide_True by done. rewrite Hp.
  destruct proto as [[|]|]; cbn [Masking.with_suffix]; repeat constructor; rewrite !VolumeID.slen_app, slen_dots;
    change (slen "-") with 1; change (slen Masking.CsiNoSrpSGPrefix) with 14; change (slen Masking.CsiHostPrefix) with 9;
    change (slen Masking.CsiMVPrefix) with 7; change (slen Masking.NVMETCPSuffix) with 8; change (slen Masking.FCSuffix) with 3;
    unfold MaxPowerMaxObjectNameLength in *; lia.
Qed.
Lemma derived_names_fit_witness :
  let parse := λ _ : string, None in
  let env : environment := {["X_CSI_POWERMAX_HOST_MGMT_MODE" := "Adopt"]} in
  match read_options demo_env [] with
  | Some (Ok o) =>
      resolve_modes parse env o = Ok (HostMgmtModeAdopt, "driver", DefaultHostAdoptionMinOverlapRatio)
      ∧ let s := Masking.mkService false "" "" [] (ClusterPrefix o) "" "" "adopt" false "" false ∅ in
        let '(h, sg, mv) := Masking.GetNVMETCPHostSGAndMVIDFromNodeID s (node_id o HostMgmtModeAdopt) in
        sg = "csi-no-srp-sg-ABC-worker1-lab-local-NVMETCP" ∧ Forall (λ n, slen n <= MaxPowerMaxObjectNameLength) [h; sg; mv]
  | _ => False
  end.
Proof.
  destruct (read_options demo_env []) as [[o|e]|] eqn:E; [|vm_compute in E; discriminate E|vm_compute in E; discriminate E].
  assert (resolve_modes (λ _, None) {["X_CSI_POWERMAX_HOST_MGMT_MODE" := "Adopt"]} o
    = Ok (HostMgmtModeAdopt, "driver", DefaultHostAdoptionMinOverlapRatio)) as Hr by (vm_compute in E; injection E as <-; vm_compute; reflexivity).
  assert (NodeName o ≠ "") as Hn by (vm_compute in E; injection E as <-; done).
  split; [exact Hr|].
  pose proof (derived_names_fit _ _ o _ _ _ (Masking.mkService false "" "" [] (ClusterPrefix o) "" "" "adopt" false "" false ∅) (Some true)
    Hr eq_refl Hn eq_refl eq_refl) as HF. cbv zeta beta iota in HF |- *.
  destruct (Masking.GetNVMETCPHostSGAndMVIDFromNodeID _ _) as [[h sg] mv] eqn:EN. split; [|exact HF].
  clear HF Hn Hr. vm_compute in E. injection E as <-. vm_compute in EN. injection EN as <- <- <-. reflexivity.
Defined.

(** With a template, the name of the host is not looked at. *)
Example template_name_too_long :
  let template := "a-long-prefix-for-all-the-hosts-of-this-cluster-%foo%-and-a-suffix" in
  let s := Masking.mkService false "" "" [] "ABC" template "" "adopt" false "" false ∅ in
  MaxPowerMaxObjectNameLength < slen (fst (fst (Masking.GetFCHostSGAndMVIDFromNodeID s "worker1.lab.local"))).
Proof. by vm_compute. Qed.

(** ** Theorems: zones *)
Section zone_theorems.
Context `{MapOrder}.

(** All labels are strings. *)
Definition string_labels (m : gmap string value) : Prop := ∀ k v, m !! k = Some v → ∃ s, v = VString s.
(** The node has every label of the array, with its value. *)
Definition in_zone (nodeLabels : gmap string string) (m : gmap string value) : Prop :=
  ∀ k v, m !! k = Some v → ∃ s, v = VString s ∧ nodeLabels !! k = Some s.

Lemma labels_agree_spec nodeLabels l :
  (∀ k v, (k, v) ∈ l → ∃ s, v = VString s) →
  ∃ b, labels_agree nodeLabels l = Some b ∧ (b = true ↔ ∀ k v, (k, v) ∈ l → ∃ s, v = VString s ∧ nodeLabels !! k = Some s).
Proof.
  induction l as [|[k v] l IH]; intros Hs; [exists true; split; [done|]; split; [|done]; intros _ k v Hin; by apply elem_of_nil in Hin|].
  destruct IH as (b & Hb & Hiff); [intros; apply (Hs k0 v0); by right|]. simpl.
  destruct (Hs k v) as [s ->]; [by left|]. destruct (nodeLabels !! k) as [nv|] eqn:Hk.
  2: { exists false. split; [done|]. split; [done|]. intros Hall. destruct (Hall k (VString s)) as (t & _ & E); [by left|]. by rewrite Hk in E. }
  simpl. case_decide as Heq.
  - subst nv. exists b. split; [done|]. rewrite Hiff. split.
    + intros Hall k' v' [[= -> ->]|Hin]%elem_of_cons; [eauto|by apply Hall].
    + intros Hall k' v' Hin. apply Hall. by right.
  - exists false. split; [done|]. split; [done|]. intros Hall. destruct (Hall k (VString s)) as (t & [= <-] & E); [by left|]. rewrite Hk in E. by injection E.
Qed.

Lemma range_lookup {V} (m : gmap string V) k v : (k, v) ∈ range m ↔ m !! k = Some v.
Proof. by rewrite range_perm, elem_of_map_to_list. Qed.

Lemma zone_loop_spec nodeLabels l zoned unzoned :
  (∀ a c, (a, c) ∈ l → string_labels (Labels c)) →
  ∃ z u, zone_loop nodeLabels l zoned unzoned = Some (zoned ++ z, unzoned ++ u)%list
    ∧ (∀ a, a ∈ z ↔ ∃ c, (a, c) ∈ l ∧ Labels c ≠ ∅ ∧ in_zone nodeLabels (Labels c))
    ∧ (∀ a, a ∈ u ↔ ∃ c, (a, c) ∈ l ∧ Labels c = ∅)
    ∧ (z ++ u)%list ⊆+ l.*1.
Proof.
  revert zoned unzoned. induction l as [|[a c] l IH]; intros zoned unzoned Hs.
  { exists [], []. rewrite !app_nil_r. split; [done|]. split_and!; [|intros|]; [| |done]; [intros|]; split; try (by intros ?%elem_of_nil); intros (? & E & _); by apply elem_of_nil in E. }
  assert (∀ a' c', (a', c') ∈ l → string_labels (Labels c')) as Hs' by (intros; apply (Hs a' c'); by right).
  simpl. case_decide as He.
  - destruct (IH zoned (unzoned ++ [a])%list Hs') as (z & u & -> & Hz & Hu & Hsub). exists z, (a :: u). rewrite <- app_assoc. split; [done|].
    split_and!.
    + intros x. rewrite Hz. split; [intros (d & ? & ?); exists d; split; [by right|done]|].
      intros (d & [[= -> ->]|?]%elem_of_cons & ?); [naive_solver|eauto].
    + intros x. rewrite elem_of_cons, Hu. split; [intros [->|(d & ? & ?)]; [exists c; split; [by left|done]|exists d; split; [by right|done]]|].
      intros (d & [[= -> ->]|?]%elem_of_cons & ?); [by left|right; eauto].
    + rewrite <- Permutation_middle. simpl. by constructor.
  - destruct (labels_agree_spec nodeLabels (range (Labels c))) as (b & -> & Hb).
    { intros k v Hin%range_lookup. by apply (Hs a c) with k; [left|]. }
    assert (b = true ↔ in_zone nodeLabels (Labels c)) as Hb'.
    { rewrite Hb. unfold in_zone. by setoid_rewrite range_lookup. }
    simpl. destruct b.
    + destruct (IH (zoned ++ [a])%list unzoned Hs') as (z & u & -> & Hz & Hu & Hsub). exists (a :: z), u. rewrite <- app_assoc. split; [done|].
      split_and!.
      * intros x. rewrite elem_of_cons, Hz. split; [intros [->|(d & ? & ?)]; [exists c; split; [by left|split; [done|by apply Hb']]|exists d; split; [by right|done]]|].
        intros (d & [[= -> ->]|?]%elem_of_cons & ?); [by left|right; eauto].
      * intros x. rewrite Hu. split; [intros (d & ? & ?); exists d; split; [by right|done]|].
        intros (d & [[= -> ->]|?]%elem_of_cons & ?); [done|eauto].
      * simpl. by constructor.
    + destruct (IH zoned unzoned Hs') as (z & u & -> & Hz & Hu & Hsub). exists z, u. split; [done|]. split_and!.
      * intros x. rewrite Hz. split; [intros (d & ? & ?); exists d; split; [by right|done]|].
        intros (d & [[= -> ->]|?]%elem_of_cons & Hd & Hin); [|eauto]. apply Hb' in Hin. done.
      * intros x. rewrite Hu. split; [intros (d & ? & ?); exists d; split; [by right|done]|].
        intros (d & [[= -> ->]|?]%elem_of_cons & ?); [done|eauto].
      * simpl. by apply submseteq_cons.
Qed.

(** C30: a node keeps exactly the arrays of its zone: those with labels the node all has, with their
    values, or, when there is none, the arrays without labels; each once, in whatever order Go walks
    the maps, and also when the labels of the node cannot be read. *)
Theorem zone_filter_exact labels arrays :
  (∀ a c, arrays !! a = Some c → string_labels (Labels c)) →
  let nodeLabels := match labels with Ok m => m | Err _ => ∅ end in
  let zoned a := ∃ c, arrays !! a = Some c ∧ Labels c ≠ ∅ ∧ in_zone nodeLabels (Labels c) in
  ∃ l, filterArraysByZoneInfo labels arrays = Some l ∧ NoDup l
    ∧ ((∀ a, a ∈ l ↔ zoned a) ∧ (∃ a, zoned a) ∨ (∀ a, a ∈ l ↔ ∃ c, arrays !! a = Some c ∧ Labels c = ∅) ∧ ∀ a, ¬ zoned a).
Proof.
  intros Hs nodeLabels zoned. unfold filterArraysByZoneInfo. fold nodeLabels.
  destruct (zone_loop_spec nodeLabels (range arrays) [] []) as (z & u & -> & Hz & Hu & Hsub).
  { intros a c Hin%range_lookup. by apply (Hs a). }
  assert (NoDup (z ++ u)%list) as Hnd.
  { apply submseteq_Permutation in Hsub as [k Hk]. assert (NoDup (range arrays).*1) as Hr by (rewrite range_perm; apply NoDup_fst_map_to_list).
    rewrite Hk in Hr. by apply NoDup_app in Hr as [? _]. }
  apply NoDup_app in Hnd as (Hndz & _ & Hndu).
  assert (∀ a, a ∈ z ↔ zoned a) as Hz' by (intros a; rewrite Hz; unfold zoned; by setoid_rewrite range_lookup).
  setoid_rewrite range_lookup in Hu. simpl. destruct z as [|x z].
  - exists u. split; [done|]. split; [done|]. right. split; [done|]. intros a Ha%Hz'. by apply elem_of_nil in Ha.
  - exists (x :: z). split; [done|]. split; [done|]. left. split; [done|]. exists x. apply Hz'. by left.
Qed.
End zone_theorems.

(** ** Theorems: clients *)
Section client_theorems.
Context {W C : Type} `{Pmax W C} `{Unisphere W C} `{P : Part (clientState C) W}.

(** The calls leave the variables of the driver alone. *)
Record calls_apart : Prop := mkApart {
  ap_new w : part (NewClientWithArgs (C := C) w).2 = part w;
  ap_auth (c : C) v w : part (Authenticate c v w).2 = part w;
  ap_local (c : C) a w : part (GetSymmetrixLocal c a w).2 = part w;
  ap_sleep d w : part (Sleep (C := C) d w).2 = part w;
}.
Context (Hap : calls_apart).

Lemma authenticate_apart n (c : C) v e w r w' : authenticate n c v e w = Some (r, w') → part w' = part w.
Proof.
  revert e w. induction n as [|n IH]; intros e w; simpl; [by intros [= _ <-]|].
  intros (e1 & w1 & [= E1] & E2)%mbnd_Some. pose proof (ap_auth Hap c v w) as Ha. rewrite E1 in Ha. simpl in Ha.
  destruct e1 as [e1|]; [|by injection E2 as _ <-].
  apply mbnd_Some in E2 as ([] & w2 & [= E2] & E3). pose proof (ap_sleep Hap (10 * Second) w1) as Hs. rewrite E2 in Hs. simpl in Hs.
  rewrite (IH _ _ E3). congruence.
Qed.
Lemma client_104_apart (c : C) w r w' : client_104 c w = Some (r, w') → part w' = part w.
Proof.
  unfold client_104. intros (r1 & w1 & [= E1] & E2)%mbnd_Some. pose proof (ap_new Hap w) as Ha. rewrite E1 in Ha. simpl in Ha.
  destruct r1 as [c1|e]; [|by injection E2 as _ <-]. apply mbnd_Some in E2 as (e & w2 & E2 & [= _ <-]).
  rewrite (authenticate_apart _ _ _ _ _ _ _ E2). done.
Qed.

(** The answers of the array decide which arrays are kept. *)
Definition answered (c : C) (a : string) (b : bool) : Prop :=
  ∃ w, match (GetSymmetrixLocal c a w).1 with Ok true => b = true | _ => b = false end.
Lemma local_arrays_spec (c : C) arrays w l w' :
  local_arrays c arrays w = Some (l, w') →
  part w' = part w ∧ l `sublist_of` arrays ∧ (∀ a, a ∈ l → answered c a true) ∧ (∀ a, a ∈ arrays → a ∉ l → answered c a false).
Proof.
  revert w l. induction arrays as [|a arrays IH]; intros w l; simpl.
  { intros [= <- <-]. split_and!; [done|done|by intros ? ?%elem_of_nil|by intros ? ?%elem_of_nil]. }
  intros (r & w1 & [= E1] & E2)%mbnd_Some. pose proof (ap_local Hap c a w) as Ha. rewrite E1 in Ha. simpl in Ha.
  apply mbnd_Some in E2 as (rest & w2 & E2 & [= <- <-]). destruct (IH _ _ E2) as (Hp & Hs & Hin & Hout).
  split; [congruence|].
  assert (answered c a (match r with Ok true => true | _ => false end)) as Hans.
  { exists w. rewrite E1. simpl. by destruct r as [[]|]. }
  destruct r as [[|]|e]; (split; [by constructor|split]).
  - intros x [->|Hx]%elem_of_cons; [done|by apply Hin].
  - intros x [->|Hx]%elem_of_cons Hn; [destruct Hn; by left|]. apply Hout; [done|]. intros Hl. apply Hn. by right.
  - done.
  - intros x [->|Hx]%elem_of_cons Hn; [done|by apply Hout].
  - done.
  - intros x [->|Hx]%elem_of_cons Hn; [done|by apply Hout].
Qed.

Lemma initialize_fresh (c : C) l (reg : gmap string (PowerMax (C := C))) :
  NoDup l → (∀ a, a ∈ l → reg !! a = None) →
  ∃ reg', Initialize l c reg = (reg', None) ∧ ∀ a, reg' !! a = if decide (a ∈ l) then Some (mkPowerMax a c) else reg !! a.
Proof.
  revert reg. induction l as [|x l IH]; intros reg Hnd Hf; [by exists reg|].
  apply NoDup_cons in Hnd as [Hx Hnd]. simpl. unfold AddPowerMax. rewrite (Hf x) by by left.
  destruct (IH (<[x := mkPowerMax x c]> reg)) as (reg' & -> & Hr); [done| |].
  { intros a Ha. rewrite lookup_insert_ne; [apply Hf; by right|by intros ->]. }
  exists reg'. split; [done|]. intros a. rewrite Hr. destruct (decide (a = x)) as [->|Hne].
  - rewrite lookup_insert_eq, decide_False by done. by rewrite decide_True by by left.
  - rewrite lookup_insert_ne by done. rewrite (decide_ext (a ∈ x :: l) (a ∈ l)) by set_solver. done.
Qed.

(** The first probe that succeeds leaves a client that has logged in and exactly those of the
    managed arrays registered with it that Unisphere called local; a probe that fails leaves the
    driver as it was, so that the next one tries again; and later probes do nothing. This needs
    managed arrays that are all different. *)
Theorem clients_ready b w r w' :
  adminClient (part w) = None → registry (part w) = ∅ → NoDup (managed (part w)) → createPowerMaxClients b w = Some (r, w') →
  match r with
  | Some _ => part w' = part w
  | None =>
      ∃ c, adminClient (part w') = Some c ∧ managed (part w') ≠ [] ∧ managed (part w') `sublist_of` managed (part w)
        ∧ (∀ a, a ∈ managed (part w') → answered c a true)
        ∧ (∀ a, a ∈ managed (part w) → a ∉ managed (part w') → answered c a false)
        ∧ (∀ a, registry (part w') !! a = if decide (a ∈ managed (part w')) then Some (mkPowerMax a c) else None)
        ∧ createPowerMaxClients b w' = Some (None, w')
  end.
Proof.
  intros Ha Hr Hnd. unfold createPowerMaxClients at 1. intros (s & w0 & [= <- <-] & E)%mbnd_Some. rewrite Ha in E.
  apply mbnd_Some in E as (r1 & w1 & [= E1] & E). pose proof (ap_new Hap w) as H1. rewrite E1 in H1. simpl in H1.
  destruct r1 as [c|e]; [|by injection E as <- <-].
  apply mbnd_Some in E as (e2 & w2 & E2 & E). apply authenticate_apart in E2 as H2.
  destruct e2 as [e2|]; [injection E as <- <-; congruence|].
  apply mbnd_Some in E as (c104 & w3 & E3 & E). apply client_104_apart in E3 as H3.
  apply mbnd_Some in E as (l & w4 & E4 & E). apply local_arrays_spec in E4 as (H4 & Hs & Hin & Hout).
  destruct l as [|x l]; [done|].
  destruct (initialize_fresh c (x :: l) (registry (part w))) as (reg & EI & Hreg); [by eapply sublist_NoDup|by rewrite Hr|].
  rewrite EI in E. cbv beta iota in E. apply mbnd_Some in E as ([] & w5 & [= <-] & [= <- <-]).
  exists c. rewrite part_set. cbn [adminClient managed registry]. split_and!; try done.
  - intros a. rewrite Hreg, Hr. done.
  - unfold createPowerMaxClients, read, mbnd. by rewrite part_set.
Qed.
End client_theorems.

(** ** Witnesses *)
#[local] Instance boot_order : MapOrder.
Proof. by refine {| range K _ _ V m := map_to_list m |}. Defined.

Definition demo_arrays : gmap string StorageArrayConfig := list_to_map
  [("A", mkStorageArray {["zone" := VString "east"]} ∅); ("B", mkStorageArray {["zone" := VString "west"]} ∅); ("C", mkStorageArray ∅ ∅)].
Lemma zone_filter_exact_witness :
  filterArraysByZoneInfo (Ok {["zone" := "east"]}) demo_arrays = Some ["A"]
  ∧ filterArraysByZoneInfo (Err (errorString "no API server")) demo_arrays = Some ["C"]
  ∧ ∃ l, filterArraysByZoneInfo (Ok {["zone" := "east"]}) demo_arrays = Some l ∧ NoDup l.
Proof.
  split; [vm_compute; reflexivity|]. split; [vm_compute; reflexivity|].
  assert (map_Forall (λ _ c, map_Forall (λ _ v, ∃ s, v = VString s) (Labels c)) demo_arrays) as Hs.
  { unfold demo_arrays. cbn [list_to_map foldr]. repeat apply map_Forall_insert_2; cbn [uncurry Labels]; try apply map_Forall_empty; eauto. }
  destruct (zone_filter_exact (Ok {["zone" := "east"]}) demo_arrays (λ a c Ha k v Hk, Hs a c Ha k v Hk)) as (l & Hl & Hnd & _). eauto.
Defined.
(** A label that is a number ends the driver. *)
Example number_label_panics :
  filterArraysByZoneInfo (Ok {["zone" := "1"]}) {["A" := mkStorageArray {["zone" := VOther]} ∅]} = None.
Proof. by vm_compute. Qed.

(** Clients of a Unisphere that fails to answer [bw_down] logins. *)
Record bootworld := mkBoot { bw_clients : clientState string; bw_down : nat; bw_sim : Sim }.
#[local] Instance boot_sim : Part Sim bootworld.
Proof. by refine {| part := bw_sim; set_part s w := mkBoot (bw_clients w) (bw_down w) s |}. Defined.
#[local] Instance boot_part : Part (clientState string) bootworld.
Proof. by refine {| part := bw_clients; set_part s w := mkBoot s (bw_down w) (bw_sim w) |}. Defined.
#[local] Instance boot_pmax : Pmax bootworld string := NodeTargets.part_pmax (V := Sim).
#[local] Instance boot_unisphere : Unisphere bootworld string := {|
  NewClientWithArgs w := (Ok "client", w);
  Authenticate _ _ w := match bw_down w with O => (None, w) | S n => (Some (errorString "connection refused"), mkBoot (bw_clients w) n (bw_sim w)) end;
  GetSymmetrixLocal _ a w := (Ok (bool_decide (a ≠ "remote")), w);
|}.
Lemma boot_apart : calls_apart (W := bootworld) (C := string).
Proof. constructor; try done. intros c v w. simpl. by destruct (bw_down w). Qed.
Definition boot (down : nat) (arrays : list string) : bootworld :=
  mkBoot (mkClients None None arrays ∅ []) down (SimArray.sim [] (mkStorageGroupRDFG [] [])).

Lemma clients_ready_witness :
  let w := boot 2 ["A"; "remote"; "B"] in
  match createPowerMaxClients true w with
  | Some (None, w') => managed (part w') = ["A"; "B"] ∧ dom (registry (part w')) = {["A"; "B"]}
      ∧ ∃ c, adminClient (part w') = Some c ∧ ∀ a, a ∈ managed (part w') → answered c a true
  | _ => False
  end.
Proof.
  intros w. destruct (createPowerMaxClients true w) as [[[e|] w']|] eqn:E; [vm_compute in E; discriminate E| |vm_compute in E; discriminate E].
  split; [vm_compute in E; injection E as <-; vm_compute; reflexivity|]. split; [vm_compute in E; injection E as <-; vm_compute; reflexivity|].
  assert (NoDup (managed (part w))) as Hnd by (vm_compute; by repeat constructor; set_solver).
  destruct (clients_ready boot_apart true w None w' eq_refl eq_refl Hnd E) as (c & Hc & _ & _ & Hin & _).
  exists c. split; [exact Hc|exact Hin].
Defined.

(** An array listed twice: the probe fails, the next one does not try again, and the
    arrays after it are never registered. *)
Example duplicate_array_half_registered :
  match createPowerMaxClients false (boot 0 ["A"; "A"; "B"]) with
  | Some (Some _, w') =>
      match createPowerMaxClients false w' with
      | Some (None, w'') => registry (part w'') !! "B" = None ∧ "B" ∈ managed (part w'')
      | _ => False
      end
  | _ => False
  end.
Proof. vm_compute. split; [done|]. right. right. left. Qed.
End Bootstrap.
