(* ===== verification/NodeService.v ===== *)
(** * Requests on a node

    Models the requests of service/node.go that stage, unstage, publish and unpublish
    a volume: the choice of the array, the check of a Metro pair, the connection of
    the devices of one or two arrays, the file with the WWN of a volume, and the
    disconnection with its retries. The parts they call are those of the other files
    on the node; the connectors of gobrick, the device paths of gofsutil and vCenter
    are the class [NodeDevices]. The variables of the service are parts of the world. *)

From stdpp Require Import base gmap strings list.
From Stdlib Require Import ZArith Lia Ascii.
From S2P Require Import Prelude GoLib Ordering Pmax SimArray Pending PowerMax VolumeID Metro Masking SimMasking Handler Rpc Files Publish Creator RepRequests MetroService NodeMount Frame NodeTargets NodeHosts Bootstrap.

Module NodeService.
Import Pending(pendingState, induced, checkAndUpdatePendingState, clearPending).
Import VolumeID(csiID, parseCsiID, arrayID, remoteSymID, remoteVolID).
Import Masking(MaskingClient).
Import Files(value_of).
Import Publish(PublishContextDeviceWWN, PublishContextLUNAddress, RemotePublishContextLUNAddress, PortIdentifiers, RemotePortIdentifiers, PortIdentifierKeyCount, RemotePortIdentifierKeyCount, target_identifiers, service_GetVolumeByID, cannotBeFound, failedToValidateVolumeNameAndID).
Import RepRequests(RdfClient, GetRDFDevicePairInfo, RDFDevicePair, RemoteRdfGroupNumber, LocalRDFGroupParam, RemoteRDFGroupParam).
Import MetroService(metroService, metroClients, with_clients).
Import NodeMount(NodeOS, Info, Info_Device, Info_Path, Info_Source, Remove, Unmount, SleepFor, Mount, BindMount, os_MkdirAll, VolumeCapability, access, MountVolume, MountFlags, removeWithRetry, getPrivateMountPoint, GetDevice, getDevMounts, publishVolume, unpublishVolume, fsCheckConfig, NodePublishRequest, pub_VolumeId, pub_TargetPath, pub_Readonly, pub_Capability, NodeUnpublishRequest, unpub_VolumeId, unpub_TargetPath).
Import NodeTargets.
Import NodeHosts(modes, useFC, useIscsi, useNVMeTCP, arrayTransportProtocolMap, nodeIsInitialized, FcTransportProtocol, IscsiTransportProtocol, NvmeTCPTransportProtocol, HostClient, setVMHost).
Import Bootstrap(Unisphere, clientState, registry, managed, createPowerMaxClients).
Open Scope go_scope.
Open Scope handler_scope.
Open Scope string_scope.
Open Scope Z_scope.

Definition notFound := "not found".
Definition maxDisconnectRetries : nat := 3.
Definition disconnectVolumeRetryTime : Z := 1 * Second.
Definition targetMountRecheckSleepTime : Z := 3 * Second.
Definition sysBlock := "/sys/block".

(** ** Devices *)
Class NodeDevices (W : Type) := {
  WriteFile : string → string → W → option error * W;
  ReadFile : string → W → result error string * W;
  ReadDir : string → W → option error * W;
  (** gofsutil: the link and the device of a WWN; and the device alone, empty with an error. *)
  WWNToDevicePathX : string → W → string * string * option error * W;
  WWNToDevicePath : string → W → string * W;
  (** gobrick: targets and LUN or WWN, to the name of the device. *)
  ConnectISCSI : list ISCSITargetInfo → Z → W → result error string * W;
  ConnectFC : list FCTargetInfo → Z → W → result error string * W;
  ConnectRDM : list FCTargetInfo → Z → string → W → result error string * W;
  ConnectNVMe : list NVMeTCPTargetInfo → string → W → result error string * W;
  DisconnectVolumeByWWN : string → W → option error * W;
  DisconnectFC : string → W → option error * W;
  DisconnectISCSI : string → W → option error * W;
  DisconnectNVMe : string → W → option error * W;
  (** vCenter: the virtual machine as it is printed, and the calls on its host. *)
  VM : string;
  HostSystem : W → option error * W;
  RescanAllHba : W → option error * W;
  AttachRDM : string → W → option error * W;
  DetachRDM : string → W → option error * W;
}.

Record publishContextData := mkPublishData {
  deviceWWN : string;
  volumeLUNAddress : string;
  pc_array : string;
  pc_iscsiTargets : list ISCSITargetInfo;
  pc_fcTargets : list FCTargetInfo;
  pc_nvmetcpTargets : list NVMeTCPTargetInfo;
}.

(** The options of the node's requests. *)
Record requestOpts := mkRequestOpts {
  target_opts : nodeOpts;
  privDir : string;
  isMetroSiteFailureHandlingEnabled : bool;
  contextPrefix : string;
  fsCheck : fsCheckConfig;
}.
Definition with_managed (l : list string) (o : nodeOpts) : nodeOpts :=
  mkNodeOpts (opts o) l (NodeName o) (NodeFullName o) (NVMeTCPConnMode o) (EnableCHAP o) (CHAPUserName o) (CHAPPassword o).

Record NodeStageRequest := mkStage {
  stage_VolumeId : string;
  stage_StagingTargetPath : string;
  stage_PublishContext : gmap string string;
  stage_VolumeContext : gmap string string;
  stage_Capability : option VolumeCapability;
}.
Record NodeUnstageRequest := mkUnstage { unstage_VolumeId : string; unstage_StagingTargetPath : string }.

(** accTypeIsNFS of the one capability of a request. *)
Definition is_nfs (vc : option VolumeCapability) : bool :=
  match vc with Some vc => match access vc with MountVolume fs _ => bool_decide (fs = "nfs") | _ => false end | None => false end.
Definition invalid_id (id : string) : error := statusError InvalidArgument ("Invalid volume id: " ++ id).

(** The error of [strconv.ParseInt]. *)
Definition ParseInt_error (base : Z) (s : string) : error :=
  let digits := match s with String ("-" | "+")%char s' => s' | _ => s end in
  errorString ("strconv.ParseInt: parsing " ++ quoted s ++ ": "
    ++ match digits, parse_digits base 0 digits with String _ _, Some _ => "value out of range" | _, _ => "invalid syntax" end).

Section requests.
Context {W C : Type} `{Pmax W C} `{MaskingClient W C} `{RdfClient W C} `{NodeNet W C} `{HostClient W C} `{Unisphere W C} `{MapOrder}.
Context `{NodeOS W} `{NodeDevices W}.
Context `{PC : Part caches W} `{PM : Part modes W} `{PS : Part metroService W} `{PP : Part pendingState W} `{PL : Part (clientState C) W}.
(** The flags of tests; among concurrent checks of a pair, whether this one runs, and
    in which order its answers arrive; and a field of a volume that only nodes read. *)
Variable ind : induced.
Variable leader localFirst : bool.
Variable NGUID : Volume → string.
Variable o : requestOpts.

(** Both packages mount with gofsutil. *)
#[local] Instance os_mounter : Files.Mounter W := {|
  Files.GetMounts w := let '(r, w) := NodeMount.GetMounts w in (match r with Ok l => Ok (Info_Path <$> l) | Err e => Err e end, w);
  Files.Mount src tgt fs := Mount src tgt fs [];
  Files.BindMount := BindMount;
  Files.MkdirAll := os_MkdirAll;
|}.

(** ** Clients and checks *)
Definition GetPowerMaxClient (primary other : string) : M W (result error C) :=
  let* cs := read in
  let* ms := read in
  let '(r, m) := Metro.GetPowerMaxClient (registry cs) primary (if decide (other = "") then [] else [other]) (metroClients ms) in
  let* _ := update (with_clients m) in ret r.

Definition logMetroStateCheck (l r lg rg : string) : M W (option error) :=
  let* cs := read in
  let* s := read in
  let* res := MetroService.logMetroStateCheck (PowerMax.GetArrayClient (registry cs)) localFirst leader l r lg rg s in
  let* _ := update (λ _, res.2) in ret res.1.

(** The options with the arrays the node manages by now. *)
Definition current : M W nodeOpts := let* cs := read in ret (with_managed (managed (cs : clientState C)) (target_opts o)).

Definition nodeProbe : M W (option error) :=
  if decide (NodeName (target_opts o) = "") then ret (Some (statusError FailedPrecondition "Error getting NodeName from the environment"))
  else
    let* e := createPowerMaxClients (C := C) (isMetroSiteFailureHandlingEnabled o) in
    match e with
    | Some e => ret (Some e)
    | None =>
        let* m := read in
        let svc := opts (target_opts o) in
        if nodeIsInitialized m && negb (bool_decide (Masking.TransportProtocol svc = FcTransportProtocol)) && negb (Masking.IsVsphereEnabled svc) then
          let* no := current in
          let* _ := ensureLoggedIntoEveryArray (λ a, GetPowerMaxClient a "") (useIscsi m) (useNVMeTCP m) no in ret None
        else ret None
    end.

(** Whether the node manages the two arrays of a volume, and the client for them. *)
Definition managed_sides (id : csiID) : M W (bool * bool) :=
  let* cs := read in
  let l := managed (cs : clientState C) in
  ret (bool_decide (arrayID id ∈ l), bool_decide (remoteSymID id ≠ "") && bool_decide (remoteSymID id ∈ l)).
Definition side_client (id : csiID) (localManaged remoteManaged : bool) : M W (result error C) :=
  let remote := bool_decide (remoteSymID id ≠ "") in
  if remote && negb localManaged && remoteManaged then GetPowerMaxClient (remoteSymID id) ""
  else if remote && localManaged && negb remoteManaged then GetPowerMaxClient (arrayID id) ""
  else GetPowerMaxClient (arrayID id) (remoteSymID id).

(** [checkAndUpdatePendingState; defer clearPending] of the table of the node. *)
Definition while_node_pending {A} (volID : string) (m : M W (result error A)) : M W (result error A) :=
  let* now := lift (Now (C := C)) in
  let* ps := read in
  match checkAndUpdatePendingState ind now volID ps with
  | (_, Some e) => fail (Rpc.pending_status e)
  | (ps, None) =>
      let* _ := update (λ _, ps) in
      let* r := m in
      let* _ := update (clearPending volID) in ret r
  end.

(** ** Files with WWNs *)
Definition wwn_file (id : string) : string := privDir o ++ "/" ++ id ++ ".wwn".
Definition writeWWNFile (id volumeWWN : string) : M W (option error) :=
  let* e := lift (WriteFile (wwn_file id) volumeWWN) in
  ret ((λ e, statusError Internal ("Could not write WWN file " ++ wwn_file id ++ ": " ++ Error e)) <$> e).
Definition readWWNFile (id : string) : M W (result error string) :=
  let? volumeWWN := lift (ReadFile (wwn_file id))
    orelse (λ e, statusError Internal ("Could not read WWN file " ++ wwn_file id ++ ": " ++ Error e)) in ok volumeWWN.
Definition removeWWNFile (id : string) : M W unit := let* _ := lift (Remove (wwn_file id)) in ret tt.

(** ** vCenter *)
Definition getVMHostSystem : M W (option error) :=
  let* e := lift HostSystem in
  match e with
  | Some e' =>
      if Contains (Error e') "NotAuthenticated" then
        let* e := lift (setVMHost (C := C)) in
        match e with Some e => ret (Some e) | None => lift HostSystem end
      else ret (Some e')
  | None => ret None
  end.
Definition rdm_error (what volID volumeWWN : string) (e : error) : error :=
  errorString (what ++ "(" ++ volumeWWN ++ ") vol: " ++ volID ++ ", on host " ++ VM ++ " with error: " ++ Error e).
Definition attachRDM (volID volumeWWN : string) : M W (result error unit) :=
  do? getVMHostSystem orelse rdm_error "Could not find host system " volID volumeWWN in
  do? lift RescanAllHba orelse rdm_error "rescan all HBA failed" volID volumeWWN in
  do? lift (AttachRDM volumeWWN) orelse rdm_error "could not attach RDM " volID volumeWWN in ok tt.
Definition detachRDM (volID volumeWWN : string) : M W (result error unit) :=
  do? getVMHostSystem orelse rdm_error "Could not find host system " volID volumeWWN in
  do? lift (DetachRDM volumeWWN) orelse rdm_error "could not detach RDM " volID volumeWWN in
  do? lift RescanAllHba orelse rdm_error "rescan all HBA failed" volID volumeWWN in ok tt.

(** ** Connecting devices *)
Definition connectNVMeTCPDevice (data : publishContextData) : M W (result error string) :=
  let host := isNVMeTCPHostManaged (target_opts o) in
  let* eligible := if host then evaluateHostManagedNVMeTCPTargets (pc_array data) (pc_nvmetcpTargets data) else ok [] in
  match eligible with
  | Err e => fail e
  | Ok eligible =>
      if host && bool_decide (eligible = []) then fail (hostManagedMissingSessionError (pc_array data) (pc_nvmetcpTargets data))
      else
        let* r := lift (ConnectNVMe (pc_nvmetcpTargets data) (deviceWWN data)) in
        match r with
        | Err e => fail (if host then hostManagedDeviceNotVisibleError (pc_array data) (deviceWWN data) e else e)
        | Ok name => ok name
        end
  end.

(** [strings.Replace(s, "0x", "", 1)] of a WWN the driver has given this prefix. *)
Definition bare_wwn (s : string) : string := if HasPrefix s "0x" then sdrop 2 s else s.
Definition connect_protocol (m : modes) (lun : Z) (data : publishContextData) : M W (result error string) :=
  if useFC m then
    if Masking.IsVsphereEnabled (opts (target_opts o)) then lift (ConnectRDM (pc_fcTargets data) lun (bare_wwn (deviceWWN data)))
    else lift (ConnectFC (pc_fcTargets data) lun)
  else if useNVMeTCP m then connectNVMeTCPDevice data
  else lift (ConnectISCSI (pc_iscsiTargets data) lun).

Definition connectDevice (data : publishContextData) : M W (result error string) :=
  match ParseInt 16 (volumeLUNAddress data) with
  | None => fail (ParseInt_error 16 (volumeLUNAddress data))
  | Some lun =>
      let* m := read in
      let? name := connect_protocol m lun data
        orelse (λ e, statusError Internal ("Unable to find device after multiple discovery attempts: " ++ Error e)) in
      ok (Creator.path_join "/dev/" name)
  end.

(** What is connected for an array, by the protocol its targets are of. *)
Definition leg (wwn volumeWWN lun array : string) (t : array_targets) : publishContextData :=
  if isFC t then mkPublishData ("0x" ++ wwn) lun array [] (tg_fc t) []
  else if isNVMeTCP t then mkPublishData volumeWWN lun array [] [] (tg_nvme t)
  else mkPublishData ("0x" ++ wwn) lun array (tg_iscsi t) [] [].

(** ** Staging *)
Definition connect_local (ctx : gmap string string) (volumeWWN symID remote : string) c : M W (result error unit) :=
  let* no := current in
  let* t := getArrayTargets no (target_identifiers PortIdentifierKeyCount PortIdentifiers ctx) symID c in
  let* e := if isNVMeTCP t && bool_decide (remote ≠ "") && isNVMeTCPHostManaged no
            then verifyHostManagedNVMeTCPMetro no symID remote c else ret None in
  match e with
  | Some e => fail e
  | None => let? _ := connectDevice (leg volumeWWN volumeWWN (value_of PublishContextLUNAddress ctx) symID t) in ok tt
  end.

(** The device of the remote array: by the keys of the remote side, or, when there
    are none, by those of the array the volume was published on. *)
Definition connect_remote (ctx : gmap string string) (volumeWWN remote : string) c : M W (result error unit) :=
  let remDeviceWWN := value_of PublishContextDeviceWWN ctx in
  let remLUN := value_of RemotePublishContextLUNAddress ctx in
  let uniform := bool_decide (remLUN ≠ "") in
  let lun := if uniform then remLUN else value_of PublishContextLUNAddress ctx in
  if decide (remDeviceWWN = "" ∨ lun = "") then ok tt
  else
    let ids := if uniform then target_identifiers RemotePortIdentifierKeyCount RemotePortIdentifiers ctx
               else target_identifiers PortIdentifierKeyCount PortIdentifiers ctx in
    let* no := current in
    let* t := getArrayTargets no ids remote c in
    let? _ := connectDevice (leg remDeviceWWN volumeWWN lun remote t) in ok tt.

(** From the volume on the array on; [remote] is empty when its array is not to be connected. *)
Definition stage_volume (req : NodeStageRequest) (localManaged : bool) (remote : string) c : M W (result error unit) :=
  let id := stage_VolumeId req in
  let ctx := stage_PublishContext req in
  let? found := service_GetVolumeByID id c in
  let '(symID, devID, vol) := found in
  let volumeWWN := EffectiveWWN vol in
  let* _ := writeWWNFile id volumeWWN in
  let? _ := if Masking.IsVsphereEnabled (opts (target_opts o)) then attachRDM devID volumeWWN else ok tt
    orelse (λ e, statusError Internal (Error e)) in
  let? _ := if bool_decide (value_of PublishContextLUNAddress ctx = "") && negb localManaged then ok tt
            else connect_local ctx volumeWWN symID remote c in
  if decide (remote = "") then ok tt else connect_remote ctx volumeWWN remote c.

(** The check of the pair of a Metro volume, by the RDF groups of its context. *)
Definition stage_check (req : NodeStageRequest) (csi : csiID) : M W (option error) :=
  let rdf key := value_of (Creator.path_join (contextPrefix o) key) (stage_VolumeContext req) in
  if bool_decide (remoteSymID csi ≠ "") && isMetroSiteFailureHandlingEnabled o
  then logMetroStateCheck (arrayID csi) (remoteSymID csi) (rdf LocalRDFGroupParam) (rdf RemoteRDFGroupParam) else ret None.

Definition NodeStageVolume (req : NodeStageRequest) : M W (result error unit) :=
  let id := stage_VolumeId req in
  let privTgt := stage_StagingTargetPath req in
  if decide (privTgt = "") then fail (statusError InvalidArgument "Target Path is required")
  else
    match parseCsiID id with
    | None => panic
    | Some (Err _) => fail (invalid_id id)
    | Some (Ok csi) =>
        do? stage_check req csi in
        let* sides := managed_sides csi in
        let '(localManaged, remoteManaged) := sides in
        let remote := if (localManaged && negb remoteManaged : bool) then "" else remoteSymID csi in
        let? c := side_client csi localManaged remoteManaged orelse (λ e, statusError InvalidArgument (Error e)) in
        while_node_pending id
          (do? nodeProbe in
           if is_nfs (stage_Capability req) then Files.StageFileSystem privTgt (stage_PublishContext req)
           else stage_volume req localManaged remote c)
    end.

(** ** Disconnecting *)
Definition exceeded (volumeWWN more : string) : error :=
  statusError Internal ("disconnectVolume exceeded retry limit WWN " ++ volumeWWN ++ more).
Fixpoint disconnect_fc (n : nat) (volumeWWN symlinkPath : string) : M W (result error unit) :=
  match n with
  | O => fail (exceeded volumeWWN "")
  | S n =>
      let* e := lift (DisconnectVolumeByWWN volumeWWN) in
      match e with
      | None => let* _ := lift (Remove symlinkPath) in ok tt
      | Some _ => let* _ := lift (SleepFor disconnectVolumeRetryTime) in disconnect_fc n volumeWWN symlinkPath
      end
  end.

(** The device of its last component. *)
Definition device_name (devicePath : string) : string := default "" (last (Split "/" devicePath)).
Definition disconnect_rest (symlinkPath deviceName : string) : M W unit :=
  let* _ := lift (SleepFor disconnectVolumeRetryTime) in
  let* e := lift (ReadDir (sysBlock ++ deviceName)) in
  match e with Some _ => let* _ := lift (Remove symlinkPath) in ret tt | None => ret tt end.
(** [Some]: the volume is gone. *)
Fixpoint disconnect_loop (n : nat) (protocol volumeWWN : string) : M W bool :=
  match n with
  | O => ret false
  | S n =>
      let* p := lift (WWNToDevicePathX volumeWWN) in
      let '(symlinkPath, devicePath, _) := p in
      if decide (devicePath = "") then ret true
      else
        let deviceName := device_name devicePath in
        if decide (protocol = NvmeTCPTransportProtocol) then
          let* e := lift (DisconnectNVMe deviceName) in
          match e with Some _ => disconnect_loop n protocol volumeWWN | None => ret true end
        else
          let* _ := if decide (protocol = Masking.Vsphere) then lift (DisconnectFC deviceName)
                    else if decide (protocol = IscsiTransportProtocol) then lift (DisconnectISCSI deviceName)
                    else ret None in
          let* _ := disconnect_rest symlinkPath deviceName in disconnect_loop n protocol volumeWWN
  end.
Definition disconnectVolume (symID volumeWWN : string) : M W (result error unit) :=
  let* m := read in
  let protocol := default "" (arrayTransportProtocolMap m !! symID) in
  if decide (protocol = FcTransportProtocol) then
    let* p := lift (WWNToDevicePathX volumeWWN) in
    let '(symlinkPath, _, _) := p in disconnect_fc maxDisconnectRetries volumeWWN symlinkPath
  else
    let* gone := disconnect_loop maxDisconnectRetries protocol volumeWWN in
    if (gone : bool) then ok tt
    else
      let* devPath := lift (WWNToDevicePath volumeWWN) in
      if decide (devPath = "") then ok tt else fail (exceeded volumeWWN (" devPath " ++ devPath)).

(** ** Unstaging *)

(** The RDF groups of a Metro volume, looked up on the side the node manages. *)
Definition lookup_rdf_groups (csi : csiID) (fromRemote : bool) c : M W (string * string) :=
  let sym := if fromRemote then remoteSymID csi else arrayID csi in
  let dev := if fromRemote then remoteVolID csi else VolumeID.devID csi in
  let* r := lift (GetVolumeByID c sym dev) in
  match r with
  | Err _ => ret ("", "")
  | Ok vol =>
      match RDFGroupIDList vol with
      | [] => ret ("", "")
      | g :: _ =>
          let* p := lift (GetRDFDevicePairInfo c sym (Itoa g) dev) in
          let other := match p with Ok rdfPair => Itoa (RemoteRdfGroupNumber rdfPair) | Err _ => "" end in
          ret (if fromRemote then (other, Itoa g) else (Itoa g, other))
      end
  end.

(** The WWN of a volume to unstage, from the array; an answer ends the request. *)
Definition wwn_from_array (id : string) c : M W (result error unit + string) :=
  let* e := nodeProbe in
  match e with
  | Some e => ret (inl (Err e))
  | None =>
      let* m := read in
      let* r := service_GetVolumeByID id c in
      match r with
      | Err e => ret (inl (if Contains (Error e) notFound || Contains (Error e) failedToValidateVolumeNameAndID then Ok tt else Err e))
      | Ok (_, _, vol) => ret (inr (if useNVMeTCP m then NGUID vol else EffectiveWWN vol))
      end
  end.
Definition unstage_wwn (id : string) c : M W (result error unit + string) :=
  let* file := readWWNFile id in
  let* m := read in
  match file with
  | Ok wwn => if useNVMeTCP m then wwn_from_array id c else ret (inr wwn)
  | Err _ => wwn_from_array id c
  end.

Definition unstage_volume (req : NodeUnstageRequest) (csi : csiID) c : M W (result error unit) :=
  let id := unstage_VolumeId req in
  let stageTgt := unstage_StagingTargetPath req in
  if decide (stageTgt = "") then fail (statusError InvalidArgument "A Staging Target argument is required")
  else
    let* _ := lift (Unmount stageTgt) in
    let* _ := removeWithRetry stageTgt in
    if 5 <? slen (VolumeID.devID csi) then ok tt
    else
      let* wwn := unstage_wwn id c in
      match wwn with
      | inl answer => ret answer
      | inr volumeWWN =>
          let privTgt := getPrivateMountPoint (privDir o) id in
          let* _ := lift (Unmount privTgt) in
          let* _ := lift (Unmount ("/noderoot" ++ privTgt)) in
          do? removeWithRetry privTgt orelse (λ e, statusError Internal (Error e)) in
          let? _ := disconnectVolume (arrayID csi) volumeWWN in
          let* _ := removeWWNFile id in
          if Masking.IsVsphereEnabled (opts (target_opts o)) then
            let? _ := detachRDM (VolumeID.devID csi) volumeWWN orelse (λ e, statusError Internal (Error e)) in ok tt
          else ok tt
      end.

Definition NodeUnstageVolume (req : NodeUnstageRequest) : M W (result error unit) :=
  let id := unstage_VolumeId req in
  match parseCsiID id with
  | None => panic
  | Some (Err _) => fail (invalid_id id)
  | Some (Ok csi) =>
      let* sides := managed_sides csi in
      let '(localManaged, remoteManaged) := sides in
      let? c := side_client csi localManaged remoteManaged orelse (λ e, statusError InvalidArgument (Error e)) in
      do? (if bool_decide (remoteSymID csi ≠ "") && isMetroSiteFailureHandlingEnabled o then
             let* groups := lookup_rdf_groups csi (negb localManaged && remoteManaged) c in
             logMetroStateCheck (arrayID csi) (remoteSymID csi) groups.1 groups.2
           else ret None) in
      while_node_pending id (unstage_volume req csi c)
  end.

(** ** Publishing *)
Definition device_link (wwn deviceWWN : string) : M W (result error string) :=
  let* p := lift (WWNToDevicePathX wwn) in
  let '(symlinkPath, _, err) := p in
  if bool_decide (err ≠ None) || bool_decide (symlinkPath = "") then
    fail (statusError NotFound ("Device path not found for WWN " ++ deviceWWN ++ ": " ++ match err with Some e => Error e | None => "%!s(<nil>)" end))
  else ok symlinkPath.

Definition NodePublishVolume (req : NodePublishRequest) (stagingPath : string) (publishContext : gmap string string) : M W (result error unit) :=
  let id := pub_VolumeId req in
  match parseCsiID id with
  | None => panic
  | Some (Err _) => fail (invalid_id id)
  | Some (Ok csi) =>
      let* sides := managed_sides csi in
      let '(localManaged, remoteManaged) := sides in
      let fromRemote := bool_decide (remoteSymID csi ≠ "") && negb localManaged && remoteManaged in
      let sym := if fromRemote then remoteSymID csi else arrayID csi in
      let dev := if fromRemote then remoteVolID csi else VolumeID.devID csi in
      let? c := side_client csi localManaged remoteManaged orelse (λ e, statusError InvalidArgument (Error e)) in
      do? nodeProbe in
      if is_nfs (pub_Capability req) then
        Files.PublishFileSystem (pub_TargetPath req) stagingPath (pub_Readonly req)
          (match pub_Capability req with Some vc => MountFlags (access vc) | None => [] end)
      else
        let where_ := "(Array: " ++ sym ++ ", Volume: " ++ dev ++ ") status " in
        let? vol := lift (GetVolumeByID c sym dev)
          orelse (λ e, if Contains (Error e) cannotBeFound then statusError NotFound ("Volume not found " ++ where_ ++ Error e)
                       else statusError Internal ("failure checking volume " ++ where_ ++ Error e)) in
        let deviceWWN := value_of PublishContextDeviceWWN publishContext in
        if decide (deviceWWN = "") then fail (statusError InvalidArgument "Device WWN required to be in PublishContext")
        else
          let* m := read in
          let? symlinkPath := device_link (if useNVMeTCP m then NGUID vol else deviceWWN) deviceWWN in
          publishVolume req (privDir o) symlinkPath (Some (fsCheck o))
  end.

(** ** Unpublishing *)

(** The last mount at the target; the empty one when there is none. *)
Definition no_mount : Info := NodeMount.mkInfo "" "" "" [].
Definition getTargetMount (target : string) : M W (result error Info) :=
  let* r := lift NodeMount.GetMounts in
  match r with
  | Err _ => fail (statusError Internal "could not reliably determine existing mount status")
  | Ok mounts => ok (default no_mount (last (List.filter (λ m, bool_decide (Info_Path m = target)) mounts)))
  end.

(** The mount at the target, looked for twice; [None] ends the request with success. *)
Definition target_mount (target : string) : M W (result error (option Info)) :=
  let? m := getTargetMount target in
  if decide (Info_Device m = "") then
    let* _ := lift (SleepFor targetMountRecheckSleepTime) in
    let* again := getTargetMount target in
    ok (match again with Ok m => Some m | Err _ => None end)
  else ok (Some m).

Definition NodeUnpublishVolume (req : NodeUnpublishRequest) : M W (result error unit) :=
  let target := unpub_TargetPath req in
  if decide (target = "") then fail (statusError InvalidArgument "target path required")
  else
    let? m := target_mount target in
    match m with
    | None => ok tt
    | Some m =>
        let devicePath := if decide (Info_Device m = "devtmpfs" ∨ Info_Device m = "") then Info_Source m else Info_Device m in
        let* _ := lift (Unmount target) in
        let? lastUnmounted := unpublishVolume req (privDir o) devicePath in
        if (lastUnmounted : bool) then let* _ := removeWithRetry target in ok tt
        else
          let? m := getTargetMount target in
          if decide (Info_Device m ≠ "") then fail (statusError Internal "Target Mount still present")
          else
            let? dev := GetDevice devicePath orelse (λ e, statusError Internal (Error e)) in
            let? _ := getDevMounts dev orelse (λ e, statusError Internal (Error e)) in
            let* _ := removeWithRetry target in ok tt
    end.
End requests.

(** ** Theorems: staging *)
Section stage_theorems.
Context {W C : Type} `{Pmax W C} `{MaskingClient W C} `{RdfClient W C} `{NodeNet W C} `{HostClient W C} `{Unisphere W C} `{MapOrder}.
Context `{NodeOS W} `{NodeDevices W}.
Context `{PC : Part caches W} `{PM : Part modes W} `{PS : Part metroService W} `{PP : Part pendingState W} `{PL : Part (clientState C) W}.
Context (ind : induced) (leader localFirst : bool) (o : requestOpts).

(** A device was connected for an array, with the targets found there for some identifiers. *)
Definition connected (ids wwn volumeWWN lun array : string) : Prop :=
  ∃ no c t wt wt' wc device wc',
    getArrayTargets (C := C) no ids array c wt = Some (t, wt') ∧ opts no = opts (target_opts o)
    ∧ connectDevice (C := C) o (leg wwn volumeWWN lun array t) wc = Some (Ok device, wc').

Lemma current_opts (w : W) no w' : current (C := C) o w = Some (no, w') → opts no = opts (target_opts o).
Proof. by intros (cs & w1 & _ & [= <- _])%mbnd_Some. Qed.

Lemma connect_local_ok ctx wwn sym remote (c : C) w w' :
  connect_local o ctx wwn sym remote c w = Some (Ok tt, w') →
  connected (target_identifiers PortIdentifierKeyCount PortIdentifiers ctx) wwn wwn (value_of PublishContextLUNAddress ctx) sym.
Proof.
  unfold connect_local. intros E. run_inv E. destruct a1; [done|]. run_inv E.
  by eexists a, c, a0, _, _, _, a1, _; split_and!; [eassumption|eapply current_opts; eassumption|eassumption].
Qed.
Lemma connect_remote_ok ctx wwn remote (c : C) w w' :
  value_of PublishContextDeviceWWN ctx ≠ "" → value_of RemotePublishContextLUNAddress ctx ≠ "" →
  connect_remote o ctx wwn remote c w = Some (Ok tt, w') →
  connected (target_identifiers RemotePortIdentifierKeyCount RemotePortIdentifiers ctx) (value_of PublishContextDeviceWWN ctx) wwn
    (value_of RemotePublishContextLUNAddress ctx) remote.
Proof.
  unfold connect_remote. intros Hw Hl. rewrite !bool_decide_eq_true_2 by done. rewrite decide_False by naive_solver.
  intros E. run_inv E. by eexists a, c, a0, _, _, _, a1, _; split_and!; [eassumption|eapply current_opts; eassumption|eassumption].
Qed.

Lemma while_node_pending_ok {A} id (m : M W (result error A)) w a w' :
  while_node_pending (C := C) ind id m w = Some (Ok a, w') → ∃ w1 w2, m w1 = Some (Ok a, w2).
Proof.
  unfold while_node_pending. intros E. run_inv E. destruct (checkAndUpdatePendingState _ _ _ _) as [ps [e|]]; [done|].
  run_inv E. injection E as -> _. eauto.
Qed.

(** C28: a Metro volume published on both arrays, on a node that manages both, is staged only when the
    devices of both arrays have been connected: of the volume's array with its LUN and targets, and of
    the remote array with those of the remote keys. *)
Theorem metro_stage_both_legs req csi w w0 w' :
  parseCsiID (stage_VolumeId req) = Some (Ok csi) → is_nfs (stage_Capability req) = false →
  stage_check (C := C) leader localFirst o req csi w = Some (None, w0) →
  remoteSymID csi ≠ "" → arrayID csi ∈ managed (C := C) (part w0) → remoteSymID csi ∈ managed (C := C) (part w0) →
  let ctx := stage_PublishContext req in
  value_of PublishContextDeviceWWN ctx ≠ "" → value_of RemotePublishContextLUNAddress ctx ≠ "" →
  NodeStageVolume (C := C) ind leader localFirst o req w = Some (Ok tt, w') →
  ∃ wwn, connected (target_identifiers PortIdentifierKeyCount PortIdentifiers ctx) wwn wwn (value_of PublishContextLUNAddress ctx) (arrayID csi)
    ∧ connected (target_identifiers RemotePortIdentifierKeyCount RemotePortIdentifiers ctx) (value_of PublishContextDeviceWWN ctx) wwn
        (value_of RemotePublishContextLUNAddress ctx) (remoteSymID csi).
Proof.
  intros Hid Hfs Hc Hr Hl Hm ctx Hw Hlun. unfold NodeStageVolume. case_decide; [done|]. rewrite Hid. intros E. run_inv E.
  rewrite Hc in E0. injection E0 as <-. unfold managed_sides in E1. run_inv E1. injection E0 as <- <-. injection E1 as <- <-.
  rewrite !bool_decide_eq_true_2 in E by done. cbn [andb negb] in E. run_inv E.
  apply while_node_pending_ok in E as (w5 & w6 & E). run_inv E. rewrite Hfs in E. unfold stage_volume in E. run_inv E.
  destruct a0 as [[sym dev] vol]. run_inv E. rewrite decide_False in E by done.
  match goal with Hx : (if _ && negb true then _ else _) _ = _ |- _ => cbn [negb] in Hx; rewrite andb_false_r in Hx; rename Hx into Hloc end.
  assert (sym = arrayID csi) as ->.
  { unfold service_GetVolumeByID in E2. rewrite Hid in E2. run_inv E2. match type of E2 with (if ?b then _ else _) _ = _ => destruct b; [done|] end. by injection E2. }
  exists (EffectiveWWN vol). split; [|by eapply connect_remote_ok]. match type of Hloc with _ = Some (Ok ?u, _) => destruct u end. by eapply connect_local_ok.
Qed.
End stage_theorems.

(** ** Theorems: unstaging *)
Section unstage_frame.
Context {W C : Type} `{Pmax W C} `{MaskingClient W C} `{RdfClient W C} `{NodeNet W C} `{HostClient W C} `{Unisphere W C}.
Context `{NodeOS W} `{NodeDevices W}.
Context `{PC : Part caches W} `{PS : Part metroService W} `{PP : Part pendingState W} `{PL : Part (clientState C) W}.

(** A property of the world that no call changes but the mounts, files, devices and
    disks of others: unmounting and removing keep it for the paths of [path],
    disconnecting for the WWNs of [wwn] and the devices of [dev]. [wwn] holds what the
    file of the volume or the array says of it, and the other two what the node finds
    for such a WWN. *)
Record unstage_frame (NGUID : Volume → string) (file : string) (csi : csiID) (I : W → Prop) (path wwn dev : string → Prop) : Prop := mkUnstageFrame {
  uf_net : net_frame (C := C) I;
  uf_discover p w : I w → I (DiscoverNVMeTCPTargets (C := C) p w).2;
  uf_connect t w : I w → I (NVMeTCPConnect (C := C) t w).2;
  uf_caches (s : caches) w : I w → I (set_part s w);
  uf_metro (s : metroService) w : I w → I (set_part s w);
  uf_pending (s : pendingState) w : I w → I (set_part s w);
  uf_clients (s : clientState C) w : I w → I (set_part s w);
  uf_vol (c : C) a d w : I w → I (GetVolumeByID c a d w).2;
  uf_pair (c : C) a g d w : I w → I (GetRDFDevicePairInfo c a g d w).2;
  uf_list (c : C) a t w : I w → I (GetRDFGroupList c a t w).2;
  uf_group (c : C) a g w : I w → I (GetRDFGroupByID c a g w).2;
  uf_new w : I w → I (Bootstrap.NewClientWithArgs (C := C) w).2;
  uf_auth (c : C) v w : I w → I (Bootstrap.Authenticate c v w).2;
  uf_local (c : C) a w : I w → I (Bootstrap.GetSymmetrixLocal c a w).2;
  uf_pause d w : I w → I (Sleep (C := C) d w).2;
  uf_sleep d w : I w → I (SleepFor d w).2;
  uf_read f w : I w → I (ReadFile f w).2;
  uf_dir f w : I w → I (ReadDir f w).2;
  uf_link v w : I w → I (WWNToDevicePathX v w).2;
  uf_device v w : I w → I (WWNToDevicePath v w).2;
  uf_vm w : I w → I (setVMHost (C := C) w).2;
  uf_host w : I w → I (HostSystem w).2;
  uf_rescan w : I w → I (RescanAllHba w).2;
  uf_file_wwn v w : I w → (ReadFile file w).1 = Ok v → wwn v;
  uf_array_wwn (c : C) vol w : I w → (GetVolumeByID c (arrayID csi) (VolumeID.devID csi) w).1 = Ok vol → wwn (EffectiveWWN vol) ∧ wwn (NGUID vol);
  uf_links v w : I w → wwn v → path (WWNToDevicePathX v w).1.1.1 ∧ dev (device_name (WWNToDevicePathX v w).1.1.2);
  uf_unmount p w : path p → I w → I (Unmount p w).2;
  uf_remove p w : path p → I w → I (Remove p w).2;
  uf_wwn v w : wwn v → I w → I (DisconnectVolumeByWWN v w).2;
  uf_fc d w : dev d → I w → I (DisconnectFC d w).2;
  uf_iscsi d w : dev d → I w → I (DisconnectISCSI d w).2;
  uf_nvme d w : dev d → I w → I (DisconnectNVMe d w).2;
  uf_detach v w : wwn v → I w → I (DetachRDM v w).2;
}.
End unstage_frame.

Ltac unstage_call := idtac;
  match goal with
  | Hf : unstage_frame _ _ _ ?I _ _ _ |- holds ?I (lift _) (λ _, True) => apply holds_lift; intros ? ?; split; [|done];
      first [by apply (nf_now _ (uf_net _ _ _ _ _ _ _ Hf)) | by apply (uf_discover _ _ _ _ _ _ _ Hf) | by apply (uf_connect _ _ _ _ _ _ _ Hf)
            | by apply (uf_vol _ _ _ _ _ _ _ Hf) | by apply (uf_pair _ _ _ _ _ _ _ Hf) | by apply (uf_list _ _ _ _ _ _ _ Hf)
            | by apply (uf_group _ _ _ _ _ _ _ Hf) | by apply (uf_new _ _ _ _ _ _ _ Hf) | by apply (uf_auth _ _ _ _ _ _ _ Hf)
            | by apply (uf_local _ _ _ _ _ _ _ Hf) | by apply (uf_pause _ _ _ _ _ _ _ Hf) | by apply (uf_sleep _ _ _ _ _ _ _ Hf)
            | by apply (uf_read _ _ _ _ _ _ _ Hf) | by apply (uf_dir _ _ _ _ _ _ _ Hf) | by apply (uf_link _ _ _ _ _ _ _ Hf)
            | by apply (uf_device _ _ _ _ _ _ _ Hf) | by apply (uf_vm _ _ _ _ _ _ _ Hf) | by apply (uf_host _ _ _ _ _ _ _ Hf)
            | by apply (uf_rescan _ _ _ _ _ _ _ Hf) | by apply (uf_unmount _ _ _ _ _ _ _ Hf) | by apply (uf_remove _ _ _ _ _ _ _ Hf)
            | by apply (uf_wwn _ _ _ _ _ _ _ Hf) | by apply (uf_fc _ _ _ _ _ _ _ Hf) | by apply (uf_iscsi _ _ _ _ _ _ _ Hf)
            | by apply (uf_nvme _ _ _ _ _ _ _ Hf) | by apply (uf_detach _ _ _ _ _ _ _ Hf)]
  | Hf : unstage_frame _ _ _ ?I _ _ _ |- holds ?I (update _) (λ _, True) => apply holds_update; [intros ? ?|done];
      first [by apply (uf_caches _ _ _ _ _ _ _ Hf) | by apply (uf_metro _ _ _ _ _ _ _ Hf)
            | by apply (uf_pending _ _ _ _ _ _ _ Hf) | by apply (uf_clients _ _ _ _ _ _ _ Hf)]
  | |- holds _ (check _ _ _) _ => unfold check
  | |- holds _ (forM _ _ _) _ => eapply holds_weaken; [apply (holds_forM _ _ _ _ (λ _, True) (λ _, True)); [intros|done]|done]
  end.
Ltac unstages := hold_with unstage_call.

Section unstage_theorems.
Context {W C : Type} `{Pmax W C} `{MaskingClient W C} `{RdfClient W C} `{NodeNet W C} `{HostClient W C} `{Unisphere W C} `{MapOrder}.
Context `{NodeOS W} `{NodeDevices W}.
Context `{PC : Part caches W} `{PM : Part modes W} `{PS : Part metroService W} `{PP : Part pendingState W} `{PL : Part (clientState C) W}.
Context (ind : induced) (leader localFirst : bool) (NGUID : Volume → string) (o : requestOpts) (id : string) (csi : csiID).
Context (I : W → Prop) (path wwn dev : string → Prop) (Hf : unstage_frame (C := C) NGUID (wwn_file o id) csi I path wwn dev).
Context (Hid : parseCsiID id = Some (Ok csi)).

Lemma client_frame a b : holds I (GetPowerMaxClient (C := C) a b) (λ _, True).
Proof. unfold GetPowerMaxClient. unstages. Qed.
Lemma metro_check_frame l r lg rg : holds I (logMetroStateCheck (C := C) leader localFirst l r lg rg) (λ _, True).
Proof.
  unfold logMetroStateCheck, MetroService.logMetroStateCheck, MetroService.doMetroStateCheck, Metro.CheckMetroStateWithRDFGroups,
    Metro.resolveRDFGroupNo, Metro.list_metro, Metro.query. unstages.
Qed.
Lemma authenticate_frame n (c : C) v e : holds I (Bootstrap.authenticate n c v e) (λ _, True).
Proof. revert e. induction n as [|n IH]; intros e; simpl; unstages; apply IH. Qed.
Lemma local_arrays_frame (c : C) l : holds I (Bootstrap.local_arrays c l) (λ _, True).
Proof. induction l as [|a l IH]; simpl; unstages; apply IH. Qed.
Lemma create_clients_frame b : holds I (createPowerMaxClients (C := C) b) (λ _, True).
Proof.
  unfold createPowerMaxClients, Bootstrap.client_104. unstages; first [apply authenticate_frame | apply local_arrays_frame].
Qed.
Local Lemma put_caches ch w : harmless ch (part w) → I w → I (set_part (ch : caches) w).
Proof. intros _. apply (uf_caches _ _ _ _ _ _ _ Hf). Qed.
Lemma driver_login_frame no a ts : holds I (loginIntoNVMeTCPTargets (C := C) no a ts) (λ _, True).
Proof.
  pose proof (uf_net _ _ _ _ _ _ _ Hf) as Hn. unfold loginIntoNVMeTCPTargets. unstages; [apply (adopt_frame I Hn put_caches)|].
  apply (login_all_frame I put_caches); [intros ?; cbn beta; unstages|by intros; apply harmless_same].
Qed.
Lemma driver_view_frame no a mv (c : C) : holds I (getAndConfigureMaskingViewTargetsNVMeTCP no a mv c) (λ _, True).
Proof.
  pose proof (uf_net _ _ _ _ _ _ _ Hf) as Hn. unfold getAndConfigureMaskingViewTargetsNVMeTCP, getNVMeTCPTargetsForMaskingView,
    getNVMeTCPTargetsFromPortals, hostManagedNVMeTCPTargetsForPortals, discover_one.
  unstages; first [apply (ips_frame I Hn) | apply (expected_frame I Hn put_caches) | apply driver_login_frame
    | apply holds_lift; intros ? ?; split; [by apply (nf_view _ Hn)|done]].
Qed.
Lemma logins_frame b1 b2 no : holds I (ensureLoggedIntoEveryArray (C := C) (λ a, GetPowerMaxClient a "") b1 b2 no) (λ _, True).
Proof.
  pose proof (uf_net _ _ _ _ _ _ _ Hf) as Hn.
  unfold ensureLoggedIntoEveryArray, ensure_one, performIscsiLoginOnSymID, performNVMETCPLoginOnSymID.
  unstages; first [apply client_frame | apply (chap_frame I Hn put_caches) | apply (iscsi_login_frame I Hn put_caches)
    | apply (iscsi_view_frame I Hn put_caches) | apply driver_login_frame | apply driver_view_frame
    | apply holds_lift; intros ? ?; split; [by apply (nf_initiators _ Hn)|done]].
Qed.
Lemma probe_frame : holds I (nodeProbe (C := C) o) (λ _, True).
Proof. unfold nodeProbe, current. unstages; first [apply create_clients_frame | apply logins_frame]. Qed.

Lemma remove_frame p : path p → holds I (removeWithRetry p) (λ _, True).
Proof. intros Hp. unfold removeWithRetry. generalize (None : option error). generalize 3%nat. intros n. induction n as [|n IH]; intros e; simpl; unstages; apply IH. Qed.

Lemma link_holds v : wwn v → holds I (lift (WWNToDevicePathX v)) (λ p, path p.1.1 ∧ dev (device_name p.1.2)).
Proof. intros Hv. apply holds_lift. intros w Hw. split; [by apply (uf_link _ _ _ _ _ _ _ Hf)|by apply (uf_links _ _ _ _ _ _ _ Hf)]. Qed.
Lemma disconnect_fc_frame n v p : wwn v → path p → holds I (disconnect_fc n v p) (λ _, True).
Proof. intros Hv Hp. induction n as [|n IH]; simpl; unstages; apply IH. Qed.
Lemma disconnect_loop_frame n protocol v : wwn v → holds I (disconnect_loop n protocol v) (λ _, True).
Proof.
  intros Hv. induction n as [|n IH]; simpl; [unstages|]. eapply holds_bind; [by apply link_holds|].
  intros [[p d] ?] [Hp Hd]. cbn [fst snd] in *. unfold disconnect_rest. unstages; apply IH.
Qed.
Lemma disconnect_frame sym v : wwn v → holds I (disconnectVolume sym v) (λ _, True).
Proof.
  intros Hv. unfold disconnectVolume. apply holds_seq; [by apply holds_read|]. intros m. destruct (decide _).
  - eapply holds_bind; [by apply link_holds|]. intros [[p d] ?] [Hp _]. by apply disconnect_fc_frame.
  - unstages. by apply disconnect_loop_frame.
Qed.

Definition wwn_answer (r : result error unit + string) : Prop := match r with inl _ => True | inr v => wwn v end.
Lemma array_wwn_holds (c : C) : holds I (wwn_from_array NGUID o id c) wwn_answer.
Proof.
  unfold wwn_from_array. apply holds_seq; [apply probe_frame|]. intros [e|]; [by apply holds_ret|].
  apply holds_seq; [by apply holds_read|]. intros m.
  eapply (holds_bind _ _ _ (ok_with (λ r, wwn (EffectiveWWN r.2) ∧ wwn (NGUID r.2)))).
  - unfold service_GetVolumeByID. rewrite Hid.
    eapply (holds_try _ _ _ _ (λ vol, wwn (EffectiveWWN vol) ∧ wwn (NGUID vol))); [|done|].
    + apply holds_lift. intros w Hw. split; [by apply (uf_vol _ _ _ _ _ _ _ Hf)|].
      destruct ((GetVolumeByID c _ _ w).1) eqn:E; [by eapply (uf_array_wwn _ _ _ _ _ _ _ Hf)|done].
    + intros vol Hvol. destruct (negb _); by apply holds_ret.
  - intros [[[sym d] vol]|e] Hr; apply holds_ret; [|done]. cbn in *. destruct (useNVMeTCP m); naive_solver.
Qed.
Lemma wwn_holds (c : C) : holds I (unstage_wwn NGUID o id c) wwn_answer.
Proof.
  unfold unstage_wwn. eapply (holds_bind _ _ _ (ok_with wwn)).
  - unfold readWWNFile. eapply (holds_try _ _ _ _ wwn); [|done|intros v Hv; by apply holds_ret].
    apply holds_lift. intros w Hw. split; [by apply (uf_read _ _ _ _ _ _ _ Hf)|].
    destruct ((ReadFile _ w).1) eqn:E; [by eapply (uf_file_wwn _ _ _ _ _ _ _ Hf)|done].
  - intros r Hr. apply holds_seq; [by apply holds_read|]. intros m. destruct r as [v|e]; [|apply array_wwn_holds].
    destruct (useNVMeTCP m); [apply array_wwn_holds|by apply holds_ret].
Qed.

(** C29: unstaging a volume unmounts and removes nothing but its staging path, its private mount point, the
    file with its WWN and the links of its devices, and disconnects nothing but devices found for the
    WWN that its file or the array gives; whatever the arrays, the sessions and the caches, and
    whether it succeeds or not. *)
Theorem unstage_only_own stageTgt :
  path stageTgt → path (getPrivateMountPoint (privDir o) id) → path ("/noderoot" ++ getPrivateMountPoint (privDir o) id) → path (wwn_file o id) →
  holds I (NodeUnstageVolume (C := C) ind leader localFirst NGUID o (mkUnstage id stageTgt)) (λ _, True).
Proof.
  intros Hs Hp Hr Hw. unfold NodeUnstageVolume. cbn [unstage_VolumeId]. rewrite Hid.
  unfold managed_sides, side_client, lookup_rdf_groups, while_node_pending.
  unstages; first [apply client_frame | apply metro_check_frame | idtac].
  unfold unstage_volume. cbn [unstage_VolumeId unstage_StagingTargetPath]. destruct (decide (stageTgt = "")); [by apply holds_ret|].
  apply holds_seq; [unstages|]. intros ?. apply holds_seq; [by apply remove_frame|]. intros ?.
  destruct (5 <? _); [by apply holds_ret|]. eapply holds_bind; [apply wwn_holds|]. intros [answer|v] Hv; [by apply holds_ret|]. cbn in Hv.
  unfold removeWWNFile, detachRDM, getVMHostSystem.
  unstages; first [by apply remove_frame | by apply disconnect_frame].
Qed.
End unstage_theorems.

(** ** A simulated node *)
#[local] Existing Instance NodeHosts.hw_pmax.
#[local] Existing Instance NodeHosts.hw_masking.
#[local] Existing Instance NodeHosts.hw_net.
#[local] Existing Instance NodeHosts.hw_client.
#[local] Existing Instance NodeHosts.hw_caches.
#[local] Existing Instance NodeHosts.hw_part.
#[local] Existing Instance NodeTargets.nw_order.

(** The node with its tables and the answers for its mount table; what it does to its
    paths and devices is logged. *)
Inductive node_change := NUnmount (p : string) | NRemove (p : string) | NWrite (p : string) | NConnect (lun : Z) | NDisconnect (v : string) | NDisk (v : string).
Record rqworld := mkRq {
  rq_host : NodeHosts.hostworld;
  rq_metro : metroService;
  rq_pending : pendingState;
  rq_clients : clientState string;
  rq_tables : list (result error (list Info));
  rq_changes : list node_change;
}.
#[local] Instance rq_inner : Part NodeHosts.hostworld rqworld.
Proof. by refine {| part := rq_host; set_part n w := mkRq n (rq_metro w) (rq_pending w) (rq_clients w) (rq_tables w) (rq_changes w) |}. Defined.
#[local] Instance rq_caches : Part caches rqworld.
Proof. refine {| part w := part (rq_host w); set_part (s : caches) w := set_part (set_part s (rq_host w)) w |}. intros s w. apply (part_set (W := NodeHosts.hostworld)). Defined.
#[local] Instance rq_modes : Part modes rqworld.
Proof. refine {| part w := part (rq_host w); set_part (s : modes) w := set_part (set_part s (rq_host w)) w |}. intros s w. apply (part_set (W := NodeHosts.hostworld)). Defined.
#[local] Instance rq_metro_part : Part metroService rqworld.
Proof. by refine {| part := rq_metro; set_part n w := mkRq (rq_host w) n (rq_pending w) (rq_clients w) (rq_tables w) (rq_changes w) |}. Defined.
#[local] Instance rq_pending_part : Part pendingState rqworld.
Proof. by refine {| part := rq_pending; set_part n w := mkRq (rq_host w) (rq_metro w) n (rq_clients w) (rq_tables w) (rq_changes w) |}. Defined.
#[local] Instance rq_clients_part : Part (clientState string) rqworld.
Proof. by refine {| part := rq_clients; set_part n w := mkRq (rq_host w) (rq_metro w) (rq_pending w) n (rq_tables w) (rq_changes w) |}. Defined.
Definition changed (ch : node_change) (w : rqworld) : rqworld :=
  mkRq (rq_host w) (rq_metro w) (rq_pending w) (rq_clients w) (rq_tables w) (rq_changes w ++ [ch])%list.

#[local] Instance rq_pmax : Pmax rqworld string := part_pmax (V := NodeHosts.hostworld).
#[local] Instance rq_masking : MaskingClient rqworld string := part_masking (V := NodeHosts.hostworld) demo_view demo_group.
Definition within {A} (f : NodeHosts.hostworld → A * NodeHosts.hostworld) : rqworld → A * rqworld := inside f.
#[local] Instance rq_net : NodeNet rqworld string := {|
  GetNVMeTCPTargets c a := within (GetNVMeTCPTargets c a); GetISCSITargets c a := within (GetISCSITargets c a);
  GetPortDetails c a d p := within (GetPortDetails c a d p); GetInitiators := within (GetInitiators (C := string));
  PerformLogin t := within (PerformLogin (C := string) t); DiscoverAndLogin p := within (DiscoverAndLogin (C := string) p);
  SetCHAPCredentials t u p := within (SetCHAPCredentials (C := string) t u p);
  DiscoverNVMeTCPTargets p := within (DiscoverNVMeTCPTargets (C := string) p);
  NVMeTCPConnect t := within (NVMeTCPConnect (C := string) t); GetSessions := within (GetSessions (C := string));
|}.
#[local] Instance rq_client : HostClient rqworld string := {|
  NodeHosts.GetInitiatorHost c a i := within (NodeHosts.GetInitiatorHost c a i);
  NodeHosts.GetHostByInitiators c a l := within (NodeHosts.GetHostByInitiators c a l);
  NodeHosts.UpdateHostName c a x y := within (NodeHosts.UpdateHostName c a x y);
  NodeHosts.CreateHost c a n l := within (NodeHosts.CreateHost c a n l);
  NodeHosts.UpdateHostInitiators c a h l := within (NodeHosts.UpdateHostInitiators c a h l);
  NodeHosts.GetNVMeHostID := within (NodeHosts.GetNVMeHostID (C := string)); NodeHosts.GetNVMeInitiators := within (NodeHosts.GetNVMeInitiators (C := string));
  NodeHosts.GetFCHostPortWWNs := within (NodeHosts.GetFCHostPortWWNs (C := string)); NodeHosts.WaitOrDone d := within (NodeHosts.WaitOrDone (C := string) d);
  NodeHosts.DbusConnect := within (NodeHosts.DbusConnect (C := string)); NodeHosts.DbusClose := within (NodeHosts.DbusClose (C := string));
  NodeHosts.ListUnits := within (NodeHosts.ListUnits (C := string)); NodeHosts.StartUnit u := within (NodeHosts.StartUnit (C := string) u);
  setVMHost := within (setVMHost (C := string));
|}.
#[local] Instance rq_unisphere : Unisphere rqworld string := {|
  Bootstrap.NewClientWithArgs w := (Ok "client", w); Bootstrap.Authenticate _ _ w := (None, w); Bootstrap.GetSymmetrixLocal _ _ w := (Ok true, w);
|}.
#[local] Instance rq_rdf : RdfClient rqworld string := {|
  GetRDFDevicePairInfo _ _ _ _ w := (Ok (RepRequests.mkPair "00002" 2 "000120000549"), w);
  RepRequests.GetRDFGroupMetrics _ _ _ _ _ w := (Ok None, w);
  RepRequests.CreateStorageGroupLimits _ _ _ _ _ _ _ w := (None, w);
  RepRequests.UpdateStorageGroupSRP _ _ _ _ w := (None, w);
|}.
(** Each read of the mount table takes the next answer. *)
#[local] Instance rq_os : NodeOS rqworld := {|
  NodeMount.Lstat p w := (Ok p, w); NodeMount.EvalSymlinks p w := (Ok p, w); NodeMount.Stat p w := (Err (NodeMount.mkOsError "no such file" true), w);
  NodeMount.Mkdir p w := (None, w); NodeMount.CreateFile p w := (None, w); Remove p w := (None, changed (NRemove p) w);
  os_MkdirAll p w := (None, w); SleepFor _ w := (tt, w);
  NodeMount.GetMounts w :=
    match rq_tables w with
    | [] => (Ok [], w)
    | t :: ts => (t, mkRq (rq_host w) (rq_metro w) (rq_pending w) (rq_clients w) ts (rq_changes w))
    end;
  Mount _ _ _ _ w := (None, w); NodeMount.FormatAndMount _ _ _ _ w := (None, w); BindMount _ _ _ w := (None, w);
  Unmount p w := (None, changed (NUnmount p) w); NodeMount.GetDiskFormat _ w := (Ok "ext4", w);
  NodeMount.FSCheck _ _ _ w := (NodeMount.Checked, w); NodeMount.GetPVCForVolume _ _ w := (Ok None, w);
|}.
Definition demo_wwn := "60000970".
Definition demo_link := "/dev/disk/by-id/wwn-0x60000970".
(** The link of the device is there until it is removed. *)
Definition linked (w : rqworld) : bool := forallb (λ ch, match ch with NRemove p => bool_decide (p ≠ demo_link) | _ => true end) (rq_changes w).
#[local] Instance rq_devices : NodeDevices rqworld := {|
  WriteFile p _ w := (None, changed (NWrite p) w); ReadFile p w := (Ok demo_wwn, w); ReadDir p w := (Some (errorString "no such directory"), w);
  WWNToDevicePathX v w := (if linked w then (demo_link, "/dev/sda", None) else ("", "", Some (errorString "no such link")), w);
  WWNToDevicePath v w := (if linked w then "/dev/sda" else "", w);
  ConnectISCSI _ lun w := (Ok "sda", changed (NConnect lun) w); ConnectFC _ lun w := (Ok "sda", changed (NConnect lun) w);
  ConnectRDM _ lun _ w := (Ok "sda", changed (NConnect lun) w); ConnectNVMe _ _ w := (Ok "nvme0n1", w);
  DisconnectVolumeByWWN v w := (None, changed (NDisconnect v) w);
  DisconnectFC d w := (None, changed (NDisk d) w); DisconnectISCSI d w := (None, changed (NDisk d) w); DisconnectNVMe d w := (None, changed (NDisk d) w);
  VM := "vm-1"; HostSystem w := (None, w); RescanAllHba w := (None, w);
  AttachRDM _ w := (None, w); DetachRDM v w := (None, changed (NDisconnect v) w);
|}.

(** ** Witnesses *)
Definition metro_volume := "csi-ABC-vol1-000120000548:000120000549-00001:00002".
Definition metro_csi : csiID := VolumeID.mkCsiID "csi-ABC-vol1" "000120000548" "00001" "000120000549" "00002".
Definition demo_volume : Volume := mkVolume "00001" "csi-ABC-vol1" ["sg"] false false demo_wwn 0 547 [1] fzero.
Definition demo_ngu (v : Volume) : string := demo_wwn.
Definition rq_options (mode : string) : requestOpts := mkRequestOpts (demo_opts mode "" false) "/priv" false "powermax" (NodeMount.mkFsCheckConfig false "" false).
Definition rq_node (m : modes) (arrays : list string) (tables : list (result error (list Info))) : rqworld :=
  mkRq (NodeHosts.mkHostworld (mkNodeworld (SimArray.sim [demo_volume] (mkStorageGroupRDFG ["R1"] ["ActiveActive"])) no_caches [] []) m [])
    (MetroService.mkMetroService None ∅ Metro.no_metros ∅ [] []) (Pending.mkPending 0 0 ∅) (Bootstrap.mkClients None None arrays ∅ []) tables [].
(** The node after its clients exist. *)
Definition probed_node (m : modes) (arrays : list string) tables : rqworld :=
  match createPowerMaxClients (C := string) false (rq_node m arrays tables) with Some (_, w) => w | None => rq_node m arrays tables end.
Definition fc_modes (arrays : list string) : modes :=
  NodeHosts.mkModes true false false false (list_to_map ((λ a, (a, FcTransportProtocol)) <$> arrays)) ∅ true.
Definition both_arrays := ["000120000548"; "000120000549"].
Definition quiet : induced := Pending.mkInduced false false.
Definition uniform_context : gmap string string := list_to_map
  [("DEVICE_WWN", demo_wwn); ("LUN_ADDRESS", "a"); ("PORT_IDENTIFIERS", "0x5001,"); ("REMOTE_LUN_ADDRESS", "b"); ("REMOTE_PORT_IDENTIFIERS", "0x5002,")].

Definition stage_request : NodeStageRequest := mkStage metro_volume "/stage" uniform_context ∅ None.
Lemma metro_stage_both_legs_witness :
  let w := probed_node (fc_modes both_arrays) both_arrays [] in
  match NodeStageVolume (C := string) quiet true true (rq_options "driver") stage_request w with
  | Some (r, w') => r = Ok tt ∧ rq_changes w' = [NWrite "/priv/csi-ABC-vol1-000120000548:000120000549-00001:00002.wwn"; NConnect 10; NConnect 11]
      ∧ ∃ wwn, connected (W := rqworld) (C := string) (rq_options "driver") "0x5001," wwn wwn "a" "000120000548"
  | None => False
  end.
Proof.
  intros w. destruct (NodeStageVolume (C := string) quiet true true (rq_options "driver") stage_request w) as [[[[]|e] w']|] eqn:E;
    [|vm_compute in E; discriminate E..].
  split; [reflexivity|]. split; [vm_compute in E; injection E as <-; vm_compute; reflexivity|].
  destruct (metro_stage_both_legs (W := rqworld) (C := string) quiet true true (rq_options "driver") stage_request metro_csi w w w')
    as (wwn & Hl & _); [vm_compute; reflexivity|reflexivity|vm_compute; reflexivity|by vm_compute|by vm_compute; repeat constructor
    |by vm_compute; repeat constructor|by vm_compute|by vm_compute|exact E|].
  exists wwn. exact Hl.
Defined.

(** What unstaging the volume may touch. *)
Definition demo_path (p : string) : Prop :=
  p = "/stage" ∨ p = "/priv/csi-ABC-vol1-000120000548:000120000549-00001:00002"
  ∨ p = "/noderoot/priv/csi-ABC-vol1-000120000548:000120000549-00001:00002"
  ∨ p = "/priv/csi-ABC-vol1-000120000548:000120000549-00001:00002.wwn" ∨ p = demo_link ∨ p = "".
Definition demo_change (ch : node_change) : Prop :=
  match ch with
  | NUnmount p | NRemove p => demo_path p
  | NDisconnect v => v = demo_wwn
  | NDisk d => d = "sda" ∨ d = ""
  | NWrite _ | NConnect _ => False
  end.
Definition demo_kept (w : rqworld) : Prop :=
  SimArray.sim_volumes (nw_array (NodeHosts.hw_node (rq_host w))) = [demo_volume] ∧ Forall demo_change (rq_changes w).
Lemma demo_unstage_frame file : unstage_frame (W := rqworld) (C := string) demo_ngu file metro_csi demo_kept demo_path (λ v, v = demo_wwn) (λ d, d = "sda" ∨ d = "").
Proof.
  assert (∀ ch w, demo_change ch → demo_kept w → demo_kept (changed ch w)) as Hc.
  { intros ch w Hch [Hv Hl]. split; [done|]. by apply Forall_app_2; [|constructor]. }
  constructor; try done; try (by intros; apply Hc; [subst|]).
  - by intros v w _ [= <-].
  - intros c vol w [Hv _]. cbn. unfold SimArray.find_volume. rewrite Hv. vm_compute. by intros [= <-].
  - intros v w _ _. unfold demo_path. cbn. destruct (linked w); cbn; tauto.
Qed.

Definition unstage_request : NodeUnstageRequest := mkUnstage metro_volume "/stage".
Lemma unstage_only_own_witness :
  let w := probed_node (fc_modes both_arrays) both_arrays [] in
  match NodeUnstageVolume (C := string) quiet true true demo_ngu (rq_options "driver") unstage_request w with
  | Some (r, w') => r = Ok tt ∧ NDisconnect demo_wwn ∈ rq_changes w' ∧ Forall demo_change (rq_changes w')
  | None => False
  end.
Proof.
  intros w. destruct (NodeUnstageVolume (C := string) quiet true true demo_ngu (rq_options "driver") unstage_request w) as [[r w']|] eqn:E;
    [|vm_compute in E; discriminate E].
  split; [vm_compute in E; injection E as <- _; reflexivity|].
  split; [vm_compute in E; injection E as _ <-; vm_compute; repeat constructor|].
  refine (proj2 (proj1 (unstage_only_own (W := rqworld) (C := string) quiet true true demo_ngu (rq_options "driver") metro_volume metro_csi demo_kept demo_path
    (λ v, v = demo_wwn) (λ d, d = "sda" ∨ d = "") (demo_unstage_frame _) eq_refl "/stage" _ _ _ _ _ _ _ E _))).
  - by left.
  - by vm_compute; right; left.
  - by vm_compute; right; right; left.
  - by vm_compute; right; right; right; left.
  - by split; [vm_compute|constructor].
Defined.

(** ** Concrete runs *)

(** Without a session to the targets of the volume, the error that the request is
    not to be retried as it is becomes an internal one. *)
Example missing_session_internal :
  match connectDevice (C := string) (rq_options "host")
      (mkPublishData demo_wwn "1" "000120000548" [] [] [mkTarget "nqn.z" "10.0.0.1"]) (probed_node (NodeHosts.mkModes false false true false ∅ ∅ true) both_arrays []) with
  | Some (Err e, _) => ∃ m, e = statusError Internal m
  | _ => False
  end.
Proof. vm_compute. eauto. Qed.

(** A node of the second site of a Metro pair, which manages the remote array alone:
    the volume is unstaged without its device being disconnected, since the protocol
    of an array the node does not manage is not known. *)
Example site2_unstage_leaves_device :
  let w := probed_node (fc_modes ["000120000549"]) ["000120000549"] [] in
  match NodeUnstageVolume (C := string) quiet true true demo_ngu (rq_options "driver") unstage_request w with
  | Some (r, w') => r = Ok tt ∧ List.filter (λ ch, match ch with NDisconnect _ | NDisk _ => true | _ => false end) (rq_changes w') = []
  | None => False
  end.
Proof. by vm_compute. Qed.

(** The mount table cannot be read the second time: the volume counts as
    unpublished, and its target stays. *)
Example unpublish_unreadable_mounts :
  let w := probed_node (fc_modes both_arrays) both_arrays [Ok []; Err (errorString "/proc/mounts is busy")] in
  match NodeUnpublishVolume (rq_options "driver") (NodeMount.mkNodeUnpublish metro_volume "/target") w with
  | Some (r, w') => r = Ok tt ∧ rq_changes w' = []
  | None => False
  end.
Proof. by vm_compute. Qed.
End NodeService.
