(* ===== verification/Protected.v ===== *)
(** * Protected storage groups

    Models how service/controller.go and service/replication.go find or create the
    storage group that is replicated by an RDF group: the group is created once, under
    its lock, and only when no group of another mode uses the RDF group already. *)

From stdpp Require Import base gmap strings list.
From Stdlib Require Import ZArith Ascii.
From S2P Require Import Prelude GoLib Pmax SimArray Replication Masking SimMasking Trace Handler Publish RepRequests Snapshots Addons.

Module Protected.
Import Masking(MaskingClient, CreateStorageGroup, RequestLock, ReleaseLock).
Import Replication(Async, Sync, Metro).
Import Publish(cannotBeFound).
Import RepRequests(errorNotFound).
Import Trace.
Import Snapshots(with_lock, with_lock_logs).
#[local] Existing Instance Addons.traced_addons.
Import Addons(AddonsClient, GetStorageGroupIDList, AddVolumesToProtectedStorageGroup, lock_failed).
Open Scope go_scope.
Open Scope handler_scope.
Open Scope string_scope.

(** Whether the name of a group says that it is replicated by an RDF group in a mode. *)
Definition named_for (value rdfGrpNo mode : string) : bool := Contains value ("-" ++ rdfGrpNo ++ "-" ++ mode).
(** The modes an RDF group may not be in use for, and what they are called. *)
Definition excluded (repMode : string) : list string :=
  if decide (repMode = Async) then [Async; Sync; Metro]
  else if decide (repMode = Sync) then [Async; Metro]
  else if decide (repMode = Metro) then [Async; Sync]
  else [].
Definition in_use (localRdfGrpNo repMode value : string) : error :=
  errorString
    (if decide (repMode = Async) then
       "RDF group (" ++ localRdfGrpNo ++ ") is already a part of ReplicationGroup (" ++ value ++ ") in Sync/Async/Metro mode"
     else
       "RDF group (" ++ localRdfGrpNo ++ ") is already part of another " ++ (if decide (repMode = Sync) then "Async/Metro" else "Async/Sync")
         ++ " mode ReplicationGroup (" ++ value ++ ")").

Section protected.
Context {W C : Type} `{Pmax W C} `{MaskingClient W C} `{AddonsClient W C}.

Definition verifyProtectionGroupID (symID localRdfGrpNo repMode : string) (c : C) : M W (option error) :=
  let* sgList := lift (GetStorageGroupIDList c symID "" false) in
  ret match sgList with
      | Err e => Some e
      | Ok l => in_use localRdfGrpNo repMode <$> List.find (λ value, existsb (named_for value localRdfGrpNo) (excluded repMode)) l
      end.

(** The group when it exists; a group that was created is not read back. *)
Definition getOrCreateProtectedStorageGroup (symID localProtectionGroupID localRDFGrpNo repMode reqID : string) (c : C)
    : M W (result error (option RDFStorageGroup)) :=
  with_lock (C := C) (localProtectionGroupID ++ symID) reqID (λ e, e)
    (let* r := lift (GetProtectedStorageGroup c symID localProtectionGroupID) in
     match r with
     | Ok sg => ok (Some sg)
     | Err e =>
         if negb (Contains (Error e) cannotBeFound || Contains (Error e) errorNotFound) then
           fail (statusError Internal ("GetProtectedStorageGroup failed for (" ++ localProtectionGroupID ++ "): (" ++ Error e ++ ")"))
         else
           do? verifyProtectionGroupID symID localRDFGrpNo repMode c
             orelse (λ e, statusError Internal ("VerifyProtectionGroupID failed:(" ++ Error e ++ ")")) in
           do? lift (CreateStorageGroup c symID localProtectionGroupID "None" "" false)
             orelse (λ e, statusError Internal ("Error creating protected storage group (" ++ localProtectionGroupID ++ "): (" ++ Error e ++ ")")) in
           ok None
     end).

(** replication.go: the first type of the group's volumes; there is always one. *)
Definition VerifyProtectedGroupDirection (symID localProtectionGroupID localRdfGrpNo : string) (c : C) : M W (option error) :=
  let* r := lift (GetStorageGroupRDFInfo c symID localProtectionGroupID localRdfGrpNo) in
  match r with
  | Err e => ret (Some (statusError Internal ("GetStorageGroupRDFInfo failed:(" ++ Error e ++ ")")))
  | Ok sgRDFInfo =>
      let* t := index (VolumeRdfTypes sgRDFInfo) 0 in
      ret (if decide (t = "R1") then None
           else Some (statusError Internal ("VerifyProtectedGroupDirection failed:(" ++ localProtectionGroupID ++ ") does not contains R1 volumes")))
  end.

Definition addVolumesToProtectedStorageGroup (reqID symID localProtectionGroupID remoteSymID remoteProtectionGroupID : string) (force : bool)
    (volID : string) (c : C) : M W (result error unit) :=
  with_lock (C := C) (localProtectionGroupID ++ symID) reqID lock_failed
    (do? lift (AddVolumesToProtectedStorageGroup c symID localProtectionGroupID remoteSymID remoteProtectionGroupID force [volID])
       orelse (λ e, statusError Internal ("Could not add volume in protected SG: " ++ volID ++ ": " ++ Error e)) in ok tt).
End protected.

(** ** Theorems *)
Section theorems.
Context {W C : Type} `{Pmax W C} `{MaskingClient W C} `{AddonsClient W C}.

(** The groups of the array as they were listed. *)
Definition listed (symID : string) (c : C) (l : list string) : Prop :=
  ∃ w w', GetStorageGroupIDList (W := W) c symID "" false w = (Ok l, w').

Lemma verify_None sym g mode (c : C) (w : W) w' :
  verifyProtectionGroupID sym g mode c w = Some (None, w') →
  ∃ l, listed sym c l ∧ ∀ value m, value ∈ l → m ∈ excluded mode → named_for value g m = false.
Proof.
  intros (r & w1 & E & [= Hr _])%mbnd_Some. destruct r as [l|e]; [|done]. exists l. split; [by eexists _, _; injection E as ->|].
  destruct (List.find _ l) as [v|] eqn:Ef; [done|]. intros value m Hv Hm. apply list_elem_of_In in Hv.
  pose proof (List.find_none _ _ Ef _ Hv) as Hx. simpl in Hx. apply not_true_iff_false. intros Ht. apply not_true_iff_false in Hx. apply Hx.
  apply existsb_exists. exists m. by rewrite <- list_elem_of_In.
Qed.

(** The changes a lookup may make: the group itself, and for an RDF group that no group
    of another mode, or for asynchronous replication no group at all, was listed for. *)
Definition creates_free (symID group rdfGrpNo repMode : string) (c : C) (e : event) : Prop :=
  e = EvCreateGroup symID group ∧
  ∃ l, listed symID c l ∧ ∀ value m, value ∈ l → m ∈ excluded repMode → named_for value rdfGrpNo m = false.

End theorems.

Section traced_theorems.
Context {W C : Type} `{Pmax W C} `{MaskingClient W C} `{AddonsClient W C}.

(** A protected storage group is created only under its own name, and only when the RDF group it is for is
    not in use: for asynchronous replication by no replicated group at all, otherwise by none of another
    mode, among the groups the array listed. *)
Theorem rdf_group_exclusive symID group rdfGrpNo repMode reqID (c : C) :
  logs (creates_free (W := traced W) symID group rdfGrpNo repMode c)
    (getOrCreateProtectedStorageGroup (W := traced W) symID group rdfGrpNo repMode reqID c).
Proof.
  apply with_lock_logs. apply logs_bind; [apply logs_quiet|]. intros [sg|e]; [apply logs_ret|].
  destruct (negb _); [apply logs_ret|]. unfold check.
  eapply (logs_bind_post _ _ _ (λ e, e = None → creates_free (W := traced W) symID group rdfGrpNo repMode c (EvCreateGroup symID group))).
  - unfold verifyProtectionGroupID. logs.
  - intros t a t' E ->. split; [done|]. by eapply verify_None.
  - intros [e'|] Hfree; [apply logs_ret|]. apply logs_bind; [apply logs_noisy; auto|]. intros [e'|]; apply logs_ret.
Qed.
End traced_theorems.

(** ** Concrete runs *)
#[local] Existing Instance SimArray.sim_pmax.
#[local] Existing Instance SimMasking.sim_masking.
#[local] Existing Instance Addons.sim_addons.
Definition no_pairs : SimArray.Sim := SimArray.sim [] (mkStorageGroupRDFG [] []).

(** RDF group 7 replicates a group of namespace ns asynchronously: no other mode, and
    no other namespace, may use it. *)
Example used_group_refused :
  option_map fst (verifyProtectionGroupID (W := SimArray.Sim) "000A" "7" Sync "c" no_pairs)
    = Some (Some (in_use "7" Sync "csi-rep-sg-addons-csi-addons-vg-ns-7-ASYNC"))
  ∧ option_map fst (verifyProtectionGroupID (W := SimArray.Sim) "000A" "7" Async "c" no_pairs)
    = Some (Some (in_use "7" Async "csi-rep-sg-addons-csi-addons-vg-ns-7-ASYNC"))
  ∧ option_map fst (verifyProtectionGroupID (W := SimArray.Sim) "000A" "8" Async "c" no_pairs) = Some None.
Proof. by vm_compute. Qed.
End Protected.
