(* ===== verification/Migration.v ===== *)
(** * Migration

    Models pkg/migration/migration.go and service/migration.go: the migration of an
    array in two requests, which take the volumes out of their storage groups, pair
    them with volumes of the target and, after the commit, put the partners into the
    groups of the same names; and the migration of a volume into replication or out of
    it. The variables of the package are a part of the world. *)

From stdpp Require Import base gmap strings list.
From Stdlib Require Import ZArith Lia Ascii SpecFloat.
From S2P Require Import Prelude GoLib Pmax SimArray Replication VolumeID Masking SimMasking Trace Handler Rpc Sizes Creator Files Publish PowerMax RepRequests Snapshots Addons Frame NodeTargets Protected.

Module Migration.
Import VolumeID(parseCsiID, arrayID).
Import Masking(MaskingClient, CreateStorageGroup, AddVolumesToStorageGroupS).
Import Sizes(PoolClient, PoolCache, cylinderSizeInBytes, SymmetrixIDParam, validateStoragePoolID).
Import RepRequests(RdfClient, HostIOLimits, mkHostIOLimits, CreateStorageGroupLimits, GetProtectedStorageGroupID, LocalRDFGroupParam, RemoteRDFGroupParam, RemoteSymIDParam, ReplicationModeParam).
Import Addons(AddonsClient, GetStorageGroupIDList, AddVolumesToProtectedStorageGroup).
Import Rpc Trace.
#[local] Existing Instance Addons.traced_addons.
#[local] Existing Instance RepRequests.traced_rdf.
Open Scope go_scope.
Open Scope handler_scope.
Open Scope string_scope.
Open Scope Z_scope.

Definition CsiNoSrpSGPrefix := "csi-no-srp-sg-".
Definition CsiVolumePrefix := "csi-".
Definition Synchronized := "Synchronized".
Definition MigrationActionCommit := "Commit".

(** ** Variables of the package *)
Record migrationCache := mkCache {
  NodePairs : gmap string string;
  SGToRemoteVols : gmap string (list string);
  localSGVolumeList : gmap string (list string);
  CacheReset : bool;
}.
Definition ResetCache (s : migrationCache) : migrationCache := if CacheReset s then s else mkCache ∅ ∅ ∅ true.
Definition set_pairs f (s : migrationCache) := mkCache (f (NodePairs s)) (SGToRemoteVols s) (localSGVolumeList s) (CacheReset s).
Definition set_remote f (s : migrationCache) := mkCache (NodePairs s) (f (SGToRemoteVols s)) (localSGVolumeList s) (CacheReset s).
Definition set_local f (s : migrationCache) := mkCache (NodePairs s) (SGToRemoteVols s) (f (localSGVolumeList s)) (CacheReset s).

(** ** The array *)
Record MigrationSession := mkSession { Session_State : string; Session_StorageGroup : string; DevicePairs : list (string * string) }.
Class MigrationClient (W C : Type) := {
  (** Array and group: a pointer to the session, and an error. *)
  GetStorageGroupMigrationByID : C → string → string → W → option MigrationSession * option error * W;
  (** Array, target array and group. *)
  CreateSGMigration : C → string → string → string → W → result error MigrationSession * W;
  (** The groups in a migration. *)
  GetStorageGroupMigration : C → string → W → result error (list string) * W;
  (** Array, action and group. *)
  ModifyMigrationSession : C → string → string → string → W → option error * W;
  (** Whether there is an environment of the two arrays. *)
  GetMigrationEnvironment : C → string → string → W → result error bool * W;
  CreateMigrationEnvironment : C → string → string → W → option error * W;
  DeleteMigrationEnvironment : C → string → string → W → option error * W;
  (** Number of the volumes of a group, and the first page of them. *)
  GetVolumesInStorageGroupIterator : C → string → string → W → result error (Z * list string) * W;
}.

(** A loop that ends at the first error. *)
Fixpoint all_of {W A} (f : A → M W (option error)) (l : list A) : M W (option error) :=
  match l with
  | [] => ret None
  | x :: l => let* e := f x in match e with Some e => ret (Some e) | None => all_of f l end
  end.

Section package.
Context {W C : Type} `{Pmax W C} `{MaskingClient W C} `{RdfClient W C} `{AddonsClient W C} `{MigrationClient W C} `{MapOrder}.
Context `{PM : Part migrationCache W}.
(** Fields of a storage group that only the migration reads. *)
Variable SLO : StorageGroup → string.
Variable HostIOLimit : StorageGroup → HostIOLimits.

Definition getOrCreateSGMigration (symID remoteSymID storageGroupID : string) (c : C) : M W (result error (option MigrationSession)) :=
  let* r := lift (GetStorageGroupMigrationByID c symID storageGroupID) in
  match r with
  | (migrationSG, Some e) =>
      if Contains (Error e) "is not in a migration" || bool_decide (migrationSG = None) then
        let? s := lift (CreateSGMigration c symID remoteSymID storageGroupID) in ok (Some s)
      else fail e
  | (migrationSG, None) => ok migrationSG
  end.

(** The volumes of a group are remembered and taken out of it; a failure to take one
    out is only logged. *)
Fixpoint remove_volumes (symID localSGID : string) (c : C) (vols : list string) : M W unit :=
  match vols with
  | [] => ret tt
  | v :: vols => let* _ := lift (RemoveVolumesFromStorageGroup c symID localSGID true [v]) in remove_volumes symID localSGID c vols
  end.
Definition empty_group (symID : string) (c : C) (localSGID : string) : M W (option error) :=
  let* r := lift (GetVolumesInStorageGroupIterator c symID localSGID) in
  match r with
  | Err e => ret (Some (statusError Internal ("Error getting storage group volume list: " ++ Error e)))
  | Ok (Count, vols) =>
      if 0 <? Count then
        let* _ := update (set_local <[localSGID := vols]>) in
        let* _ := remove_volumes symID localSGID c vols in ret None
      else ret None
  end.

(** The session of a group of a masking view, and its pairs; no session is a nil pointer. *)
Definition start_session (symID remoteSymID : string) (c : C) (storageGroupID : string) : M W (option error) :=
  let* r := lift (GetStorageGroup c symID storageGroupID) in
  match r with
  | Err e => ret (Some (statusError Internal ("Failed to fetch details of SG(" ++ storageGroupID ++ ") - Error (" ++ Error e ++ ")")))
  | Ok sg =>
      if 0 <? NumOfVolumes sg then
        let* r := getOrCreateSGMigration symID remoteSymID storageGroupID c in
        match r with
        | Err e => ret (Some (statusError Internal ("Failed to create array migration session for target array(" ++ remoteSymID ++ ") - Error (" ++ Error e ++ ")")))
        | Ok None => panic
        | Ok (Some migrationSG) => let* _ := update (set_pairs (λ m, fold_left (λ m p, <[p.1 := p.2]> m) (DevicePairs migrationSG) m)) in ret None
        end
      else ret None
  end.

(** The group on the target, with the limits of the source; the error of reading the
    source is not looked at, and its group then a nil pointer. *)
Definition create_target (symID remoteSymID localSGID : string) (c : C) : M W (option error) :=
  let* r := lift (GetStorageGroup c symID localSGID) in
  match r with
  | Err _ => panic
  | Ok sg =>
      let limits := HostIOLimit sg in
      let* e := lift (CreateStorageGroupLimits c remoteSymID localSGID (SG_SRP sg) (SLO sg) true
                  (if decide (limits = mkHostIOLimits "" "" "") then None else Some limits)) in
      ret ((λ e, statusError Internal ("Error creating storage group on remote array: " ++ Error e)) <$> e)
  end.
Definition record_remote (localSGID : string) (s : migrationCache) : migrationCache :=
  match localSGVolumeList s !! localSGID with
  | Some vols => set_remote <[localSGID := omap (λ v, NodePairs s !! v) vols]> s
  | None => s
  end.
Definition mirror_group (symID remoteSymID : string) (c : C) (remoteSGs : list string) (localSGID : string) : M W (option error) :=
  let* e := if bool_decide (localSGID ∈ remoteSGs) then ret None else create_target symID remoteSymID localSGID c in
  match e with
  | Some e => ret (Some e)
  | None => let* _ := update (record_remote localSGID) in ret None
  end.

Definition StorageGroupMigration (symID remoteSymID clusterPrefix : string) (c : C) : M W (result error bool) :=
  let? localSgList := lift (GetStorageGroupIDList c symID (CsiVolumePrefix ++ clusterPrefix) true) in
  do? all_of (empty_group symID c) localSgList in
  let? localSgNoSrpList := lift (GetStorageGroupIDList c symID (CsiNoSrpSGPrefix ++ clusterPrefix) true) in
  do? all_of (start_session symID remoteSymID c) localSgNoSrpList in
  let? remoteSgList := lift (GetStorageGroupIDList c remoteSymID (CsiVolumePrefix ++ clusterPrefix) true) in
  do? all_of (mirror_group symID remoteSymID c remoteSgList) localSgList in
  ok true.

(** ** Commit *)
Definition commit_session (symID action : string) (c : C) (id : string) : M W (option error) :=
  let* r := lift (GetStorageGroupMigrationByID c symID id) in
  let at_ := id ++ " on sym " ++ symID ++ ": " in
  match r with
  | (_, Some e) => ret (Some (statusError Internal ("error getting Migration session for SG " ++ at_ ++ Error e)))
  | (None, None) => panic
  | (Some mgSG, None) =>
      if decide (Session_State mgSG = Synchronized) then
        let* e := lift (ModifyMigrationSession c symID action (Session_StorageGroup mgSG)) in
        ret ((λ e, statusError Internal ("error modifying Migration session for SG " ++ at_ ++ Error e)) <$> e)
      else ret (Some (statusError Internal ("Waiting for SG to be in SYNC state, current state of SG " ++ id ++ " is " ++ Session_State mgSG)))
  end.
Definition StorageGroupCommit (symID action : string) (c : C) : M W (result error bool) :=
  let? MigratingNameList := lift (GetStorageGroupMigration c symID) in
  do? all_of (commit_session symID action c) MigratingNameList in ok true.

Definition add_remote (remoteSymID : string) (c : C) (entry : string * list string) : M W (option error) :=
  if decide (entry.2 = []) then ret None
  else
    let* e := lift (AddVolumesToStorageGroupS c remoteSymID entry.1 true entry.2) in
    ret ((λ e, statusError Internal ("Could not add volume in SG on R2: " ++ remoteSymID ++ ": " ++ Error e)) <$> e).
Definition AddVolumesToRemoteSG (remoteSymID : string) (c : C) : M W (result error bool) :=
  let* s := read in
  if decide (SGToRemoteVols s = ∅) then ok false
  else do? all_of (add_remote remoteSymID c) (range (SGToRemoteVols s)) in ok true.

Definition GetOrCreateMigrationEnvironment (localSymID remoteSymID : string) (c : C) : M W (option error) :=
  let* r := lift (GetMigrationEnvironment c localSymID remoteSymID) in
  match r with
  | Ok true => ret None
  | _ => lift (CreateMigrationEnvironment c localSymID remoteSymID)
  end.

(** ** The request *)
Inductive ActionTypes := MG_MIGRATE | MG_COMMIT | MG_OTHER.
Variable GetPowerMaxClient : string → M W (result error C).
Variable clusterPrefix : string.

Definition migrate (localSymID remoteSymID : string) (c : C) : M W (result error bool) :=
  let* _ := update ResetCache in
  do? GetOrCreateMigrationEnvironment localSymID remoteSymID c
    orelse (λ e, statusError Internal ("failed to create array migration environment for target array (" ++ remoteSymID ++ ") - Error (" ++ Error e ++ ")")) in
  StorageGroupMigration localSymID remoteSymID clusterPrefix c.
Definition commit (localSymID remoteSymID : string) (c : C) : M W (result error bool) :=
  let? _ := StorageGroupCommit localSymID MigrationActionCommit c in
  let? _ := AddVolumesToRemoteSG remoteSymID c in
  do? lift (DeleteMigrationEnvironment c localSymID remoteSymID)
    orelse (λ e, statusError Internal ("to remove array migration environment for target array(" ++ remoteSymID ++ ") - Error (" ++ Error e ++ ")")) in
  let* _ := update (λ s, mkCache (NodePairs s) (SGToRemoteVols s) (localSGVolumeList s) false) in
  ok true.
Definition ArrayMigrate (params : gmap string string) (action : ActionTypes) : M W (result error bool) :=
  if decide (params = ∅) then fail (statusError InvalidArgument "Invalid argument")
  else
    let localSymID := default "" (params !! SymmetrixIDParam) in
    let remoteSymID := default "" (params !! RemoteSymIDParam) in
    if decide (localSymID = "" ∨ remoteSymID = "") then fail (statusError InvalidArgument "A SYMID parameter is required")
    else
      let? c := GetPowerMaxClient localSymID orelse (λ e, statusError InvalidArgument (Error e)) in
      match action with
      | MG_MIGRATE => migrate localSymID remoteSymID c
      | MG_COMMIT => commit localSymID remoteSymID c
      | MG_OTHER => fail (statusError InvalidArgument "Invalid action")
      end.
End package.

(** ** Migration of a volume *)
Definition FsTypeParam := "csi.storage.k8s.io/fstype".
Inductive MigrateTypes := UNKNOWN_MIGRATE | NON_REPL_TO_REPL | REPL_TO_NON_REPL | VERSION_UPGRADE | OTHER_MIGRATE.
Record MigratedVolume := mkMigrated { MV_VolumeId : string; MV_FsType : string; MV_CapacityBytes : Z; MV_VolumeContext : gmap string string }.

Section volume.
Context {W C : Type} `{Pmax W C} `{MaskingClient W C} `{AddonsClient W C} `{PoolClient W C} `{PoolCache W}.
Variable GetPowerMaxClient : string → M W (result error C).
Variables (useProxy autoProbe : bool) (grpcMaxThreads storagePoolCacheDuration : Z).
Variable controllerProbe : M W (option error).
Variables (ReplicationPrefix ReplicationContextPrefix clusterPrefix reqID : string).
(** [time.Format("20060102150405")] *)
Variable formatTime : Z → string.

Definition param (params : gmap string string) (key : string) : string := default "" (params !! key).
Definition rep_param (params : gmap string string) (key : string) : string := param params (Creator.path_join ReplicationPrefix key).
Definition invalid (e : error) : error := statusError InvalidArgument (Error e).

(** ProtectStorageGroup, which takes the lock of the group. *)
Definition protect (symID remoteSymID localGroup remoteGroup rdfGrpNo repMode : string) (c : C) : M W (result error unit) :=
  Snapshots.with_lock (C := C) (localGroup ++ symID) reqID Addons.lock_failed
    (do? Replication.ProtectStorageGroup c symID remoteSymID localGroup remoteGroup "" rdfGrpNo repMode false in ok tt).

(** The RDF groups of the storage class, or ones that fit the two arrays. *)
Definition rdf_groups (params : gmap string string) (symID remoteSymID repMode namespace : string) (c : C) : M W (result error (string * string)) :=
  let localRDFGrpNo := rep_param params LocalRDFGroupParam in
  let remoteRDFGrpNo := rep_param params RemoteRDFGroupParam in
  if decide (localRDFGrpNo = "" ∧ remoteRDFGrpNo = "") then
    let? groups := Replication.GetOrCreateRDFGroup clusterPrefix c symID remoteSymID repMode namespace
      orelse (λ e, statusError NotFound ("Received error get/create RDFG, err: " ++ Error e)) in ok groups
  else ok (localRDFGrpNo, remoteRDFGrpNo).
Definition default_group (storageGroupName applicationPrefix serviceLevel storagePoolID : string) : string :=
  if decide (storageGroupName ≠ "") then storageGroupName
  else PowerMax.CSIPrefix ++ "-" ++ clusterPrefix ++ "-" ++ (if decide (applicationPrefix = "") then "" else applicationPrefix ++ "-")
         ++ serviceLevel ++ "-" ++ storagePoolID ++ "-SG".
(** The default storage group is made when it is missing. *)
Definition ensure_group (symID name storagePoolID serviceLevel : string) (thick : bool) (c : C) : M W (option error) :=
  let* sg := lift (GetStorageGroup c symID name) in
  match sg with
  | Ok _ => ret None
  | Err _ =>
      let* e := lift (CreateStorageGroup c symID name storagePoolID serviceLevel thick) in
      ret ((λ e, statusError Internal ("Error creating storage group: " ++ Error e)) <$> e)
  end.

Definition replicate (params : gmap string string) (name serviceLevel storagePoolID symID : string) (vol : Volume) (c : C) : M W (result error unit) :=
  let remoteSymID := rep_param params RemoteSymIDParam in
  let repMode := rep_param params ReplicationModeParam in
  let namespace := param params Creator.CSIPVCNamespace in
  let? groups := rdf_groups params symID remoteSymID repMode namespace c in
  let '(localRDFGrpNo, remoteRDFGrpNo) := groups in
  if decide (repMode ≠ Replication.Async ∧ repMode ≠ Replication.Sync) then
    fail (statusError InvalidArgument ("Unsupported Replication Mode: (" ++ repMode ++ ")"))
  else
    let localGroup := Replication.buildProtectionGroupID namespace localRDFGrpNo repMode in
    let remoteGroup := Replication.buildProtectionGroupID namespace remoteRDFGrpNo repMode in
    let? sg := Protected.getOrCreateProtectedStorageGroup symID localGroup localRDFGrpNo repMode reqID c
      orelse (λ e, statusError Internal ("Error in getOrCreateProtectedStorageGroup: (" ++ Error e ++ ")")) in
    let isSGProtected := match sg with Some sg => Rdf sg | None => false end in
    do? (if isSGProtected then Protected.VerifyProtectedGroupDirection symID localGroup localRDFGrpNo c else ret None) in
    do? ensure_group symID name storagePoolID serviceLevel (bool_decide (param params Creator.ThickVolumesParam = "true")) c in
    do? (if decide (GetProtectedStorageGroupID (StorageGroupIDList vol) (localRDFGrpNo ++ "-" ++ repMode) = "") then
           lift (AddVolumesToProtectedStorageGroup c symID localGroup remoteSymID remoteGroup true [Pmax.VolumeID vol])
         else ret None)
      orelse (λ e, statusError Internal ("Could not add volume to protected SG: " ++ localGroup ++ ": " ++ Error e)) in
    if isSGProtected then ok tt else protect symID remoteSymID localGroup remoteGroup localRDFGrpNo repMode c.

Definition nonReplToRepl (params : gmap string string) (storageGroupName applicationPrefix serviceLevel storagePoolID symID : string) (vol : Volume)
    : M W (result error unit) :=
  let? c := GetPowerMaxClient symID orelse invalid in
  if decide (rep_param params Creator.RepEnabledParam = "true") then
    replicate params (default_group storageGroupName applicationPrefix serviceLevel storagePoolID) serviceLevel storagePoolID symID vol c
  else ok tt.

Definition replToNonRepl (params sourceScParams : gmap string string) (symID : string) (vol : Volume) : M W (result error unit) :=
  let? c := GetPowerMaxClient symID orelse invalid in
  let repMode := rep_param sourceScParams ReplicationModeParam in
  let localRDFGrpNo := rep_param sourceScParams LocalRDFGroupParam in
  let? groups :=
    if decide (localRDFGrpNo = "") then
      let* g := index (RDFGroupIDList vol) 0 in
      let? rdfInfo := lift (GetRDFGroupByID c symID (Itoa g))
        orelse (λ e, statusError Internal ("Could not get local rdfG for " ++ Itoa g ++ ": " ++ Error e ++ ":")) in
      ok (Itoa g, Itoa (RemoteRdfgNumber rdfInfo))
    else ok (localRDFGrpNo, rep_param sourceScParams RemoteRDFGroupParam) in
  let namespace := param params Creator.CSIPVCNamespace in
  let sgID := Replication.buildProtectionGroupID namespace groups.1 repMode in
  let remoteSGID := Replication.buildProtectionGroupID namespace groups.2 repMode in
  do? lift (RemoveVolumesFromProtectedStorageGroup c symID sgID (rep_param sourceScParams RemoteSymIDParam) remoteSGID true [Pmax.VolumeID vol])
    orelse (λ e, statusError Internal ("Could not remove volume from protected SG: " ++ sgID ++ ": " ++ Error e)) in ok tt.

(** A type without a case leaves a nil function. *)
Definition migrate_volume (migrateType : MigrateTypes) (params sourceScParams : gmap string string)
    (storageGroupName serviceLevel storagePoolID symID : string) (vol : Volume) : M W (result error unit) :=
  match migrateType with
  | UNKNOWN_MIGRATE => fail (statusError Unknown "Unknown Migration Type")
  | NON_REPL_TO_REPL => nonReplToRepl params storageGroupName (param params Creator.ApplicationPrefixParam) serviceLevel storagePoolID symID vol
  | REPL_TO_NON_REPL => replToNonRepl params sourceScParams symID vol
  | VERSION_UPGRADE => fail (statusError Unimplemented "Unimplemented")
  | OTHER_MIGRATE => panic
  end.
Definition volume_migrate (migrateType : MigrateTypes) (volID : string) (params sourceScParams : gmap string string) (c : C)
    : M W (result error MigratedVolume) :=
  if decide (param sourceScParams FsTypeParam = "nfs") then fail (statusError Unavailable "volume migration is not supported on NFS volumes")
  else
    let? known := Publish.service_GetVolumeByID volID c in
    let '(symID, _, vol) := known in
    let storagePoolID := param params Files.StoragePoolParam in
    do? validateStoragePoolID storagePoolCacheDuration symID storagePoolID c orelse invalid in
    let serviceLevel := if decide (param params Files.ServiceLevelParam = "") then "Optimized" else param params Files.ServiceLevelParam in
    if negb (Creator.isValidSLO serviceLevel) then fail (statusError InvalidArgument "An invalid Service Level parameter was specified")
    else
      let storageGroupName := param params Creator.StorageGroupParam in
      let? _ := migrate_volume migrateType params sourceScParams storageGroupName serviceLevel storagePoolID symID vol in
      let* now := lift (Now (C := C)) in
      let attributes : gmap string string :=
        <["MigrationTime" := formatTime now]> (<[Creator.StorageGroup := storageGroupName]> (<[Creator.CapacityGB := Creator.Sprintf_2f (Volume_CapacityGB vol)]>
          (<[Creator.path_join ReplicationContextPrefix SymmetrixIDParam := symID]>
            (<[Files.StoragePoolParam := storagePoolID]> {[Files.ServiceLevelParam := serviceLevel]})))) in
      ok (mkMigrated volID (param params FsTypeParam) (wrap64 (CapacityCYL vol * cylinderSizeInBytes)) attributes).
Definition VolumeMigrate (migrateType : MigrateTypes) (volID : string) (params sourceScParams : gmap string string)
    : M (tables * W) (result error MigratedVolume) :=
  match parseCsiID volID with
  | None => panic
  | Some (Err _) => fail (statusError InvalidArgument ("Invalid volume id: " ++ volID))
  | Some (Ok csi) =>
      let? c := on_arrays (GetPowerMaxClient (arrayID csi)) orelse invalid in
      do? requireProbe useProxy autoProbe grpcMaxThreads controllerProbe true in
      on_arrays (volume_migrate migrateType volID params sourceScParams c)
  end.
End volume.

(** ** Traced arrays *)
Section traced.
Context {W C : Type} `{MigrationClient W C}.
#[export] Instance traced_migration : MigrationClient (traced W) C := {
  GetStorageGroupMigrationByID a0 a1 a2 := quiet (GetStorageGroupMigrationByID a0 a1 a2);
  CreateSGMigration a0 a1 a2 a3 := noisy (EvReplication a1 "migrate" a3) (CreateSGMigration a0 a1 a2 a3);
  GetStorageGroupMigration a0 a1 := quiet (GetStorageGroupMigration a0 a1);
  ModifyMigrationSession a0 a1 a2 a3 := noisy (EvReplication a1 a2 a3) (ModifyMigrationSession a0 a1 a2 a3);
  GetMigrationEnvironment a0 a1 a2 := quiet (GetMigrationEnvironment a0 a1 a2);
  CreateMigrationEnvironment a0 a1 a2 := noisy (EvReplication a1 "create environment" a2) (CreateMigrationEnvironment a0 a1 a2);
  DeleteMigrationEnvironment a0 a1 a2 := noisy (EvReplication a1 "delete environment" a2) (DeleteMigrationEnvironment a0 a1 a2);
  GetVolumesInStorageGroupIterator a0 a1 a2 := quiet (GetVolumesInStorageGroupIterator a0 a1 a2);
}.
End traced.
#[export] Instance traced_part {S W} `{P : Part S W} : Part S (traced W).
Proof. refine {| part t := part t.1; set_part s t := (set_part s t.1, t.2) |}. intros s t. apply part_set. Defined.

Section array_theorems.
Context {W C : Type} `{Pmax W C} `{MaskingClient W C} `{RdfClient W C} `{AddonsClient W C} `{MigrationClient W C} `{MapOrder}.
Context `{PM : Part migrationCache W}.
Context (SLO : StorageGroup → string) (HostIOLimit : StorageGroup → HostIOLimits).

(** No call of an array changes the variables of the package. *)
Record calls_apart : Prop := mkCallsApart {
  ca_list (c : C) a b l w : part (GetStorageGroupIDList c a b l w).2 = part (W := W) w;
  ca_volumes (c : C) a g w : part (GetVolumesInStorageGroupIterator c a g w).2 = part w;
  ca_remove (c : C) a g f l w : part (RemoveVolumesFromStorageGroup c a g f l w).2 = part w;
  ca_group (c : C) a g w : part (GetStorageGroup c a g w).2 = part w;
  ca_limits (c : C) a g x y z l w : part (CreateStorageGroupLimits c a g x y z l w).2 = part w;
  ca_session (c : C) a g w : part (GetStorageGroupMigrationByID c a g w).2 = part w;
  ca_create (c : C) a b g w : part (CreateSGMigration c a b g w).2 = part w;
  ca_sessions (c : C) a w : part (GetStorageGroupMigration c a w).2 = part w;
  ca_modify (c : C) a x g w : part (ModifyMigrationSession c a x g w).2 = part w;
  ca_env (c : C) a b w : part (GetMigrationEnvironment c a b w).2 = part w;
  ca_new_env (c : C) a b w : part (CreateMigrationEnvironment c a b w).2 = part w;
  ca_no_env (c : C) a b w : part (DeleteMigrationEnvironment c a b w).2 = part w;
  ca_add (c : C) a g f l w : part (AddVolumesToStorageGroupS c a g f l w).2 = part w;
}.
Context (Hca : calls_apart).

Lemma quiet_call {A} (f : W → A * W) (t : traced W) a t' :
  (∀ w, part (f w).2 = part w) → lift (quiet f) t = Some (a, t') → part t' = part t ∧ t'.2 = t.2 ∧ f t.1 = (a, t'.1).
Proof.
  intros Hf [= E]. unfold quiet in E. specialize (Hf t.1). destruct (f t.1) as [x w]. injection E as <- <-. done.
Qed.
Lemma noisy_call {A} ev (f : W → A * W) (t : traced W) a t' :
  (∀ w, part (f w).2 = part w) → lift (noisy ev f) t = Some (a, t') → part t' = part t ∧ t'.2 = (t.2 ++ [ev])%list ∧ f t.1 = (a, t'.1).
Proof.
  intros Hf [= E]. unfold noisy in E. specialize (Hf t.1). destruct (f t.1) as [x w]. injection E as <- <-. done.
Qed.
Lemma all_of_cons {A} (f : A → M (traced W) (option error)) x l t r t' :
  all_of f (x :: l) t = Some (r, t') →
  ∃ e t1, f x t = Some (e, t1) ∧ (e = None ∧ all_of f l t1 = Some (r, t') ∨ e ≠ None ∧ r = e ∧ t' = t1).
Proof. intros (e & t1 & E1 & E2)%mbnd_Some. exists e, t1. split; [done|]. destruct e; [right; by injection E2 as <- <-|by left]. Qed.

(** *** Commit *)
Definition synchronized (c : C) (symID id sg : string) : Prop :=
  ∃ w s w', GetStorageGroupMigrationByID (W := W) c symID id w = (Some s, None, w') ∧ Session_State s = Synchronized ∧ Session_StorageGroup s = sg.
(** The request to commit a session that the array said is synchronized, and one that the array has answered
    without an error; an event alone is logged for a request that fails too. *)
Definition commit_request (c : C) (symID id : string) (e : event) : Prop :=
  ∃ sg, synchronized c symID id sg ∧ e = EvReplication symID MigrationActionCommit sg.
Definition committed (c : C) (symID id : string) (e : event) : Prop :=
  ∃ sg, synchronized c symID id sg ∧ e = EvReplication symID MigrationActionCommit sg
    ∧ ∃ w w', ModifyMigrationSession (W := W) c symID MigrationActionCommit sg w = (None, w').
(** Volumes that the array has added without an error. *)
Definition added (c : C) (remote sg : string) (vols : list string) (l : list event) : Prop :=
  EvAddVolumes remote sg vols ∈ l ∧ ∃ w w', AddVolumesToStorageGroupS (W := W) c remote sg true vols w = (None, w').

Lemma commit_one c sym id (t : traced W) r t' :
  commit_session sym MigrationActionCommit c id t = Some (r, t') →
  part t' = part t ∧ ∃ l, t'.2 = (t.2 ++ l)%list ∧ Forall (commit_request c sym id) l ∧ (r = None → ∃ e, l = [e] ∧ committed c sym id e).
Proof.
  intros (s & t1 & E1 & E)%mbnd_Some. apply quiet_call in E1 as (Hp & Hl & Hs); [|intros; apply (ca_session Hca)].
  destruct s as [[s|] [e|]]; try done.
  1, 3: injection E as <- <-; split; [done|]; exists []; rewrite app_nil_r; split_and!; [done|constructor|done].
  case_decide as Hst.
  - apply mbnd_Some in E as (e & t2 & E2 & [= <- <-]). apply noisy_call in E2 as (Hp2 & Hl2 & Hm); [|intros; apply (ca_modify Hca)].
    split; [congruence|]. exists [EvReplication sym MigrationActionCommit (Session_StorageGroup s)]. rewrite Hl2, Hl.
    assert (synchronized c sym id (Session_StorageGroup s)) as Hsync by (by exists t.1, s, t1.1). split_and!; [done| |].
    + constructor; [|constructor]. by exists (Session_StorageGroup s).
    + intros He. destruct e; [done|]. eexists. split; [done|]. exists (Session_StorageGroup s). split_and!; [done..|]. by exists t1.1, t2.1.
  - injection E as <- <-. split; [done|]. exists []. rewrite app_nil_r. split_and!; [done|constructor|done].
Qed.
Lemma commit_all c sym ids (t : traced W) r t' :
  all_of (commit_session sym MigrationActionCommit c) ids t = Some (r, t') →
  part t' = part t ∧ ∃ l, t'.2 = (t.2 ++ l)%list ∧ Forall (λ e, ∃ id, commit_request c sym id e) l ∧ (r = None → Forall2 (committed c sym) ids l).
Proof.
  revert t. induction ids as [|id ids IH]; intros t E.
  { injection E as <- <-. split; [done|]. exists []. rewrite app_nil_r. split_and!; try done; constructor. }
  apply all_of_cons in E as (e & t1 & E1 & E2). apply commit_one in E1 as (Hp & l1 & Hl1 & HF1 & Hone).
  assert (Forall (λ e, ∃ id, commit_request c sym id e) l1) as HF1' by (eapply Forall_impl; [exact HF1|eauto]).
  destruct E2 as [[-> E2]|(He & -> & ->)].
  - apply IH in E2 as (Hp2 & l2 & Hl2 & HF2 & Hall). split; [congruence|]. exists (l1 ++ l2)%list.
    rewrite Hl2, Hl1, app_assoc. split_and!; [done|by apply Forall_app|]. intros ->. destruct (Hone eq_refl) as (ev & -> & Hev).
    constructor; [done|by apply Hall].
  - split; [done|]. exists l1. by split_and!.
Qed.

Lemma add_all c remote l (t : traced W) r t' :
  all_of (add_remote remote c) l t = Some (r, t') →
  part t' = part t ∧ ∃ evs, t'.2 = (t.2 ++ evs)%list ∧ Forall (λ e, ∃ x, x ∈ l ∧ e = EvAddVolumes remote x.1 x.2) evs
    ∧ (r = None → ∀ x, x ∈ l → x.2 ≠ [] → added c remote x.1 x.2 evs).
Proof.
  revert t. induction l as [|x l IH]; intros t E.
  { injection E as <- <-. split; [done|]. exists []. rewrite app_nil_r. split_and!; [done|constructor|]. intros _ x Hx. by apply elem_of_nil in Hx. }
  apply all_of_cons in E as (e & t1 & E1 & E2).
  assert (part t1 = part t ∧ ∃ evs, t1.2 = (t.2 ++ evs)%list ∧ Forall (λ e, e = EvAddVolumes remote x.1 x.2) evs ∧ (e = None → x.2 ≠ [] → added c remote x.1 x.2 evs))
    as (Hp & l1 & Hl1 & HF1 & Hin).
  { unfold add_remote in E1. case_decide as Hx.
    - injection E1 as <- <-. split; [done|]. exists []. rewrite app_nil_r. by split_and!.
    - apply mbnd_Some in E1 as (e' & t2 & E1 & [= <- <-]). apply noisy_call in E1 as (Hp & Hl & Ha); [|intros; apply (ca_add Hca)].
      split; [done|]. eexists. split_and!; [exact Hl|by constructor|]. intros He _. destruct e'; [done|]. split; [by left|]. by exists t.1, t2.1. }
  assert (Forall (λ e, ∃ y, y ∈ x :: l ∧ e = EvAddVolumes remote y.1 y.2) l1) as HF1'.
  { eapply Forall_impl; [exact HF1|]. intros ev ->. exists x. split; [by left|done]. }
  destruct E2 as [[-> E2]|(He & -> & ->)].
  - apply IH in E2 as (Hp2 & l2 & Hl2 & HF2 & Hall). split; [congruence|]. exists (l1 ++ l2)%list. rewrite Hl2, Hl1, app_assoc. split_and!; [done| |].
    + apply Forall_app. split; [done|]. eapply Forall_impl; [exact HF2|]. intros ev (y & Hy & ->). exists y. split; [by right|done].
    + intros Hr y Hy Hne. apply elem_of_cons in Hy as [->|Hy]; [destruct (Hin eq_refl Hne)|destruct (Hall Hr _ Hy Hne)];
        (split; [apply elem_of_app; auto|done]).
  - split; [done|]. exists l1. split_and!; [done|done|]. by intros ->.
Qed.

(** What a commit does, in order. *)
Definition commit_order (c : C) (local remote : string) (s : migrationCache) (l : list event) : Prop :=
  ∃ commits adds fin, l = (commits ++ adds ++ fin)%list
    ∧ Forall (λ e, ∃ id, commit_request c local id e) commits
    ∧ Forall (λ e, ∃ sg vols, SGToRemoteVols s !! sg = Some vols ∧ e = EvAddVolumes remote sg vols) adds
    ∧ ((adds ++ fin)%list ≠ [] → ∃ ids w w', GetStorageGroupMigration (W := W) c local w = (Ok ids, w') ∧ Forall2 (committed c local) ids commits)
    ∧ (fin = [] ∨ fin = [EvReplication local "delete environment" remote]
        ∧ ∀ sg vols, SGToRemoteVols s !! sg = Some vols → vols ≠ [] → added c remote sg vols adds).

Lemma range_elem {V} (m : gmap string V) k v : (k, v) ∈ range m ↔ m !! k = Some v.
Proof. rewrite (range_perm m). apply elem_of_map_to_list. Qed.

Lemma sessions_shape local (c : C) (t : traced W) r t' :
  StorageGroupCommit local MigrationActionCommit c t = Some (r, t') →
  ∃ commits, part t' = part t ∧ t'.2 = (t.2 ++ commits)%list ∧ Forall (λ e, ∃ id, commit_request c local id e) commits
    ∧ (∀ b, r = Ok b → ∃ ids w w', GetStorageGroupMigration (W := W) c local w = (Ok ids, w') ∧ Forall2 (committed c local) ids commits).
Proof.
  intros (ids & t0 & E0 & E1)%mbnd_Some. apply quiet_call in E0 as (Hp & Hl & Hs); [|intros; apply (ca_sessions Hca)].
  destruct ids as [ids|e]; [|injection E1 as <- <-; exists []; rewrite app_nil_r; split_and!; [done..|constructor|done]].
  apply mbnd_Some in E1 as (e & t2 & E1 & E2). apply commit_all in E1 as (Hp2 & l & Hl2 & HF & HA). exists l.
  assert (t' = t2) as -> by (destruct e; by injection E2). split_and!; [congruence|by rewrite Hl2, Hl|done|].
  intros b ->. destruct e; [done|]. exists ids, t.1, t0.1. auto.
Qed.
Lemma adds_shape remote (c : C) (t : traced W) r t' :
  AddVolumesToRemoteSG remote c t = Some (r, t') →
  ∃ adds, part t' = part t ∧ t'.2 = (t.2 ++ adds)%list
    ∧ Forall (λ e, ∃ sg vols, SGToRemoteVols (part t) !! sg = Some vols ∧ e = EvAddVolumes remote sg vols) adds
    ∧ (∀ b, r = Ok b → ∀ sg vols, SGToRemoteVols (part t) !! sg = Some vols → vols ≠ [] → added c remote sg vols adds).
Proof.
  intros (s & t3 & [= <- <-] & E)%mbnd_Some. cbv beta in E. case_decide as Hs.
  - injection E as <- <-. exists []. rewrite app_nil_r. split_and!; [done..|constructor|]. intros b' _ sg vols Hx.
    unfold part in Hx; cbn in Hx. by rewrite Hs, lookup_empty in Hx.
  - apply mbnd_Some in E as (e & t4 & E2 & E3). apply add_all in E2 as (Hp4 & l & Hl4 & HF & HA). exists l.
    assert (t' = t4) as -> by (destruct e; by injection E3). split_and!; [done|done| |].
    + eapply Forall_impl; [exact HF|]. intros ev ([sg vols] & Hx%range_elem & ->). eauto.
    + intros b' -> sg vols Hx Hne. destruct e; [done|]. apply (HA eq_refl (sg, vols)); [by apply range_elem|done].
Qed.
Lemma commit_shape local remote (c : C) (t : traced W) r t' :
  commit local remote c t = Some (r, t') →
  ∃ l, t'.2 = (t.2 ++ l)%list ∧ commit_order c local remote (part t) l
    ∧ (r = Ok true → ∀ sg vols, SGToRemoteVols (part t) !! sg = Some vols → vols ≠ [] → added c remote sg vols l).
Proof.
  intros (r1 & t1 & E1 & E)%mbnd_Some. apply sessions_shape in E1 as (commits & Hp1 & Hl1 & HF1 & Hall).
  destruct r1 as [b|e]; last first.
  { injection E as <- <-. exists commits. split_and!; [done| |done]. exists commits, [], []. rewrite !app_nil_r. split_and!; [done..|constructor|done|by left]. }
  apply mbnd_Some in E as (r2 & t2 & E2 & E). apply adds_shape in E2 as (adds & Hp2 & Hl2 & HF2 & Hadd). rewrite Hp1 in HF2, Hadd.
  destruct r2 as [b2|e]; last first.
  { injection E as <- <-. exists (commits ++ adds)%list. rewrite Hl2, Hl1, app_assoc. split_and!; [done| |done].
    exists commits, adds, []. rewrite !app_nil_r. split_and!; [done..|eauto|by left]. }
  apply mbnd_Some in E as (e & t3 & E3 & E). apply noisy_call in E3 as (Hp3 & Hl3 & _); [|intros; apply (ca_no_env Hca)].
  exists (commits ++ adds ++ [EvReplication local "delete environment" remote])%list.
  assert (t'.2 = t3.2) as -> by (destruct e; [by injection E as <- <-|apply mbnd_Some in E as (? & ? & [= <- <-] & [= <- <-]); done]).
  split_and!; [by rewrite Hl3, Hl2, Hl1, !app_assoc| |].
  - exists commits, adds, [EvReplication local "delete environment" remote]. split_and!; [done..|eauto|]. right. split; [done|eauto].
  - intros _ sg vols Hsg Hne. destruct (Hadd _ eq_refl _ _ Hsg Hne) as [Hin Hok]. split; [|done]. apply elem_of_app. right. apply elem_of_app. by left.
Qed.

(** C32: the commit of an array migration asks to commit only sessions that the array said are synchronized. It adds
    volumes to the groups of the target only after the array has committed, without an error, every session it listed,
    and adds only the volumes that it has recorded; and it deletes the environment last, after the array has added all
    recorded volumes without an error. *)
Theorem commit_in_order local remote (c : C) (t : traced W) r t' :
  commit local remote c t = Some (r, t') → ∃ l, t'.2 = (t.2 ++ l)%list ∧ commit_order c local remote (part t) l.
Proof. intros E. apply commit_shape in E as (l & Hl & Ho & _). eauto. Qed.

(** *** Migrate *)

(** Every volume that was taken out of a group since [base] is remembered with it. *)
Definition remembered (base : list event) (symID : string) (groups : list string) (t : traced W) : Prop :=
  (∀ sg vols, localSGVolumeList (part t) !! sg = Some vols → sg ∈ groups) ∧
  ∃ l, t.2 = (base ++ l)%list ∧ ∀ sg v, EvRemoveVolumes symID sg [v] ∈ l → ∃ vols, localSGVolumeList (part t) !! sg = Some vols ∧ v ∈ vols.
Definition removal (e : event) : Prop := match e with EvRemoveVolumes _ _ _ => True | _ => False end.

Lemma remembered_step base sym gs (t t' : traced W) l :
  localSGVolumeList (part t') = localSGVolumeList (part t) → t'.2 = (t.2 ++ l)%list → Forall (λ e, ¬ removal e) l →
  remembered base sym gs t → remembered base sym gs t'.
Proof.
  unfold remembered. intros -> -> Hl (Hg & l0 & -> & Hr). split; [done|]. exists (l0 ++ l)%list. split; [by rewrite app_assoc|].
  intros sg v [Hx|Hx]%elem_of_app; [by apply Hr|]. rewrite Forall_forall in Hl. by destruct (Hl _ Hx).
Qed.

Lemma remove_all sym sg (c : C) vols (t : traced W) r t' :
  remove_volumes sym sg c vols t = Some (r, t') →
  part t' = part t ∧ t'.2 = (t.2 ++ ((λ v, EvRemoveVolumes sym sg [v]) <$> vols))%list.
Proof.
  revert t. induction vols as [|v vols IH]; intros t E; [injection E as _ <-; by rewrite app_nil_r|].
  apply mbnd_Some in E as (e & t1 & E1 & E2). apply noisy_call in E1 as (Hp & Hl & _); [|intros; apply (ca_remove Hca)].
  apply IH in E2 as [Hp2 Hl2]. split; [congruence|]. by rewrite Hl2, Hl, <- app_assoc.
Qed.

Lemma empty_one base sym gs (c : C) sg (t : traced W) r t' :
  empty_group sym c sg t = Some (r, t') → sg ∈ gs → localSGVolumeList (part t) !! sg = None → remembered base sym gs t →
  remembered base sym gs t' ∧ ∀ sg', sg' ≠ sg → localSGVolumeList (part t') !! sg' = localSGVolumeList (part t) !! sg'.
Proof.
  intros (a & t1 & E1 & E)%mbnd_Some Hsg Hnew HR. apply quiet_call in E1 as (Hp & Hl & _); [|intros; apply (ca_volumes Hca)].
  assert (remembered base sym gs t1 ∧ ∀ sg', sg' ≠ sg → localSGVolumeList (part t1) !! sg' = localSGVolumeList (part t) !! sg') as [HR1 Hsame].
  { rewrite Hp. split; [|done]. eapply (remembered_step _ _ _ t _ []); [by rewrite Hp|by rewrite app_nil_r|constructor|done]. }
  destruct a as [[count vols]|e]; [|by injection E as <- <-]. destruct (0 <? count); [|by injection E as <- <-].
  apply mbnd_Some in E as ([] & t2 & [= <-] & E). apply mbnd_Some in E as ([] & t3 & E3 & [= <- <-]).
  apply remove_all in E3 as [Hp3 Hl3]. cbn [snd] in Hl3.
  assert (localSGVolumeList (part t3) = <[sg := vols]> (localSGVolumeList (part t))) as Hloc.
  { rewrite Hp3. transitivity (localSGVolumeList (set_local <[sg := vols]> (part t1))); [exact (f_equal localSGVolumeList (part_set _ t1))|].
    cbn [set_local localSGVolumeList]. by rewrite Hp. }
  split; [|intros sg' Hne; by rewrite Hloc, lookup_insert_ne].
  destruct HR as (Hg & l0 & Hbase & Hr). split.
  - intros sg' vs. rewrite Hloc, lookup_insert_Some. intros [[<- _]|[_ Hx]]; [done|by eapply Hg].
  - exists (l0 ++ ((λ v, EvRemoveVolumes sym sg [v]) <$> vols))%list. split; [by rewrite Hl3, Hl, Hbase, app_assoc|].
    intros sg' v. rewrite elem_of_app, list_elem_of_fmap, Hloc. intros [Hx|(v' & [= -> ->] & Hv)].
    + destruct (Hr _ _ Hx) as (vs & Hvs & Hin). exists vs. split; [|done]. rewrite lookup_insert_ne; [done|]. by intros ->; rewrite Hnew in Hvs.
    + exists vols. by rewrite lookup_insert_eq.
Qed.
Lemma empty_all base sym gs (c : C) l (t : traced W) r t' :
  all_of (empty_group sym c) l t = Some (r, t') → l ⊆ gs → NoDup l → (∀ sg, sg ∈ l → localSGVolumeList (part t) !! sg = None) →
  remembered base sym gs t → remembered base sym gs t'.
Proof.
  revert t. induction l as [|sg l IH]; intros t E Hgs Hnd Hnew HR; [by injection E as <- <-|].
  apply NoDup_cons in Hnd as [Hsg Hnd].
  apply all_of_cons in E as (e & t1 & E1 & E2). apply (empty_one base sym gs) in E1 as [HR1 Hsame]; [|set_solver|apply Hnew; by left|done].
  destruct E2 as [[-> E2]|(_ & -> & ->)]; [|done]. apply (IH _ E2); [set_solver|done| |done].
  intros sg' Hin. rewrite Hsame; [apply Hnew; by right|]. by intros ->.
Qed.

(** The sessions and the groups of the target take nothing out of a group. *)
Lemma holds_quiet base sym gs {A} (f : W → A * W) : (∀ w, part (f w).2 = part w) → holds (remembered base sym gs) (lift (quiet f)) (λ _, True).
Proof.
  intros Hf t a t' E HR. split; [|done]. apply quiet_call in E as (Hp & Hl & _); [|done].
  eapply (remembered_step _ _ _ t _ []); [by rewrite Hp|by rewrite app_nil_r|constructor|done].
Qed.
Lemma holds_noisy base sym gs {A} ev (f : W → A * W) :
  ¬ removal ev → (∀ w, part (f w).2 = part w) → holds (remembered base sym gs) (lift (noisy ev f)) (λ _, True).
Proof.
  intros Hev Hf t a t' E HR. split; [|done]. apply noisy_call in E as (Hp & Hl & _); [|done].
  eapply (remembered_step _ _ _ t); [by rewrite Hp|done|by constructor|done].
Qed.
Lemma holds_cache base sym gs (f : migrationCache → migrationCache) :
  (∀ s, localSGVolumeList (f s) = localSGVolumeList s) → holds (remembered base sym gs) (update f) (λ _, True).
Proof.
  intros Hf. apply holds_update; [|done]. intros t HR.
  eapply (remembered_step _ _ _ t _ []); [by rewrite part_set|by rewrite app_nil_r|constructor|done].
Qed.
Lemma holds_all base sym gs {A} (f : A → M (traced W) (option error)) l :
  (∀ x, holds (remembered base sym gs) (f x) (λ _, True)) → holds (remembered base sym gs) (all_of f l) (λ _, True).
Proof.
  intros Hf. induction l as [|x l IH]; [by apply holds_ret|]. simpl. apply holds_seq; [apply Hf|]. intros [e|]; [by apply holds_ret|apply IH].
Qed.
Lemma start_holds base sym gs remote (c : C) sg : holds (remembered base sym gs) (start_session sym remote c sg) (λ _, True).
Proof.
  unfold start_session, getOrCreateSGMigration.
  hold_with ltac:(idtac; first [apply holds_quiet; intros; apply Hca | apply holds_noisy; [by intros []|intros; apply Hca] | by apply holds_cache]).
Qed.
Lemma mirror_holds base sym gs remote (c : C) l sg : holds (remembered base sym gs) (mirror_group SLO HostIOLimit sym remote c l sg) (λ _, True).
Proof.
  unfold mirror_group, create_target.
  hold_with ltac:(idtac; first [apply holds_quiet; intros; apply Hca | apply holds_noisy; [by intros []|intros; apply Hca]
    | apply holds_cache; intros s; unfold record_remote; by destruct (localSGVolumeList s !! _)]).
Qed.

(** The partners of the volumes of a group. *)
Definition partners (s : migrationCache) (vols : list string) : list string := omap (λ v, NodePairs s !! v) vols.
Lemma mirror_one sym remote (c : C) gs sg (t : traced W) t' :
  mirror_group SLO HostIOLimit sym remote c gs sg t = Some (None, t') → part t' = record_remote sg (part t).
Proof.
  intros (e & t1 & E1 & E)%mbnd_Some. destruct e as [e|]; [by injection E|]. apply mbnd_Some in E as ([] & t2 & [= <-] & [= <-]).
  transitivity (record_remote sg (part t1)); [exact (part_set (record_remote sg (part t1)) t1)|]. f_equal.
  case_bool_decide; [by injection E1 as <-|]. apply mbnd_Some in E1 as (r & t2 & E1 & E2).
  apply quiet_call in E1 as (Hp & _); [|intros; apply Hca]. destruct r as [g|e']; [|done].
  apply mbnd_Some in E2 as (e' & t3 & E2 & [= _ <-]). apply noisy_call in E2 as [Hp2 _]; [|intros; apply Hca]. congruence.
Qed.
Lemma record_same sg s : NodePairs (record_remote sg s) = NodePairs s ∧ localSGVolumeList (record_remote sg s) = localSGVolumeList s.
Proof. unfold record_remote. by destruct (localSGVolumeList s !! sg). Qed.
Lemma mirror_all sym remote (c : C) gs l (t : traced W) t' :
  all_of (mirror_group SLO HostIOLimit sym remote c gs) l t = Some (None, t') →
  NodePairs (part t') = NodePairs (part t) ∧ localSGVolumeList (part t') = localSGVolumeList (part t)
  ∧ ∀ sg vols, localSGVolumeList (part t) !! sg = Some vols → sg ∈ l ∨ SGToRemoteVols (part t) !! sg = Some (partners (part t) vols) →
      SGToRemoteVols (part t') !! sg = Some (partners (part t) vols).
Proof.
  revert t. induction l as [|x l IH]; intros t E; [injection E as <-; split_and!; [done..|]; intros sg vols _ [Hx|?]; [by apply elem_of_nil in Hx|done]|].
  apply all_of_cons in E as (e & t1 & E1 & E2). destruct E2 as [[-> E2]|(He & <- & _)]; [|done].
  apply mirror_one in E1. apply IH in E2 as (Hn & Hl & Hall). destruct (record_same x (part t)) as [Hn1 Hl1].
  rewrite <- E1 in Hn1, Hl1. rewrite Hn1 in Hn. rewrite Hl1 in Hl, Hall. split_and!; [done..|].
  assert (∀ vols, partners (part t1) vols = partners (part t) vols) as Hpt by (intros; unfold partners; by rewrite Hn1).
  setoid_rewrite Hpt in Hall. intros sg vols Hvols Hor. apply Hall; [done|].
  destruct (decide (sg = x)) as [->|Hne].
  - right. rewrite E1. unfold record_remote. rewrite Hvols. by apply lookup_insert_eq.
  - destruct Hor as [[Hx|?]%elem_of_cons|Hx]; [done|by left|right]. rewrite E1. unfold record_remote.
    destruct (localSGVolumeList (part t) !! x); [|done]. cbn [set_remote SGToRemoteVols]. by rewrite lookup_insert_ne.
Qed.

(** What a migration has recorded of the volumes it took out of their groups. *)
Definition recorded (local : string) (l : list event) (s : migrationCache) : Prop :=
  ∀ sg v, EvRemoveVolumes local sg [v] ∈ l → ∃ vols, v ∈ vols ∧ SGToRemoteVols s !! sg = Some (partners s vols).

Lemma groups_recorded local remote prefix (c : C) (t : traced W) t' :
  (∀ a f w l w', GetStorageGroupIDList (W := W) c a f true w = (Ok l, w') → NoDup l) → localSGVolumeList (part t) = ∅ →
  StorageGroupMigration SLO HostIOLimit local remote prefix c t = Some (Ok true, t') →
  ∃ l, t'.2 = (t.2 ++ l)%list ∧ recorded local l (part t').
Proof.
  intros Hnd Hemp E. unfold StorageGroupMigration in E. run_inv E. injection E as <-. rename a into gs.
  pose proof E0 as Hgs. apply quiet_call in Hgs as (Hp & Hl & Hgs); [|intros; apply Hca].
  assert (remembered t.2 local gs w) as HR.
  { split; [intros sg vols; by rewrite Hp, Hemp, lookup_empty|]. exists []. rewrite app_nil_r. split; [done|]. intros sg v Hx. by apply elem_of_nil in Hx. }
  apply (empty_all t.2 local gs) in E1; [|done|by eapply Hnd|intros sg _; by rewrite Hp, Hemp, lookup_empty|done].
  destruct (holds_quiet t.2 local gs _ (ca_list Hca _ _ _ _) _ _ _ E2 E1) as [HR2 _].
  destruct (holds_all t.2 local gs _ _ (λ x, start_holds _ _ _ _ _ x) _ _ _ E3 HR2) as [HR3 _].
  destruct (holds_quiet t.2 local gs _ (ca_list Hca _ _ _ _) _ _ _ E4 HR3) as [HR4 _].
  destruct (holds_all t.2 local gs _ _ (λ x, mirror_holds _ _ _ _ _ _ x) _ _ _ E5 HR4) as [(Hg & l & Hl5 & Hr) _].
  apply mirror_all in E5 as (Hn & Hloc & Hall). exists l. split; [done|]. intros sg v Hx. destruct (Hr _ _ Hx) as (vols & Hv & Hin).
  exists vols. split; [done|]. unfold partners. rewrite Hn. apply Hall; [by rewrite <- Hloc|left; by eapply Hg].
Qed.
Lemma migrate_recorded local remote prefix (c : C) (t : traced W) t' :
  (∀ a f w l w', GetStorageGroupIDList (W := W) c a f true w = (Ok l, w') → NoDup l) → CacheReset (part t) = false →
  migrate SLO HostIOLimit prefix local remote c t = Some (Ok true, t') →
  ∃ l, t'.2 = (t.2 ++ l)%list ∧ recorded local l (part t').
Proof.
  intros Hnd Hreset (u & t0 & E0 & E)%mbnd_Some.
  assert (part t0 = mkCache ∅ ∅ ∅ true ∧ t0.2 = t.2) as [Hp0 Hl0].
  { injection E0 as _ <-. split; [|done]. transitivity (ResetCache (part t)); [exact (part_set _ t)|]. unfold ResetCache. by rewrite Hreset. }
  apply mbnd_Some in E as (e & t1 & E1 & E). destruct e as [e|]; [done|].
  assert (part t1 = part t0 ∧ ∃ l, t1.2 = (t0.2 ++ l)%list ∧ Forall (λ e, ¬ removal e) l) as (Hp1 & l1 & Hl1 & Hrem).
  { apply mbnd_Some in E1 as (r & t2 & E1 & E2). apply quiet_call in E1 as (Hp & Hl & _); [|intros; apply Hca].
    assert ((t1 = t2) ∨ lift (CreateMigrationEnvironment c local remote) t2 = Some (None, t1)) as [->|Ex] by (destruct r as [[]|]; auto; left; by injection E2).
    - split; [done|]. exists []. by rewrite app_nil_r.
    - apply noisy_call in Ex as (Hp2 & Hl2 & _); [|intros; apply Hca]. split; [congruence|]. eexists. rewrite Hl2, Hl. split; [done|]. constructor; [by intros []|constructor]. }
  destruct (groups_recorded _ _ _ _ _ _ Hnd ltac:(by rewrite Hp1, Hp0) E) as (l & Hl & Hrec).
  exists (l1 ++ l)%list. split; [by rewrite Hl, Hl1, Hl0, app_assoc|]. intros sg v [Hx|Hx]%elem_of_app; [|by apply Hrec].
  rewrite Forall_forall in Hrem. by destruct (Hrem _ Hx).
Qed.

End array_theorems.

(** ** A simulated pair of arrays *)
#[local] Existing Instance SimArray.sim_pmax.
#[local] Existing Instance SimMasking.sim_masking.

(** Each list of the volumes of a group takes the next answer. *)
Record migworld := mkMig { mg_sim : SimArray.Sim; mg_cache : migrationCache; mg_lists : list (list string); mg_state : string }.
#[local] Instance mg_inner : Part SimArray.Sim migworld.
Proof. by refine {| part := mg_sim; set_part s w := mkMig s (mg_cache w) (mg_lists w) (mg_state w) |}. Defined.
#[local] Instance mg_part : Part migrationCache migworld.
Proof. by refine {| part := mg_cache; set_part s w := mkMig (mg_sim w) s (mg_lists w) (mg_state w) |}. Defined.
#[local] Instance mg_pmax : Pmax migworld string := NodeTargets.part_pmax (V := SimArray.Sim).
#[local] Instance mg_masking : MaskingClient migworld string :=
  NodeTargets.part_masking (V := SimArray.Sim) NodeTargets.demo_view NodeTargets.demo_group.
#[local] Instance mg_rdf : RdfClient migworld string := {|
  RepRequests.GetRDFDevicePairInfo _ _ _ _ w := (Err (errorString "no pair"), w);
  RepRequests.GetRDFGroupMetrics _ _ _ _ _ w := (Ok None, w);
  CreateStorageGroupLimits _ _ _ _ _ _ _ w := (None, w);
  RepRequests.UpdateStorageGroupSRP _ _ _ _ w := (None, w);
|}.
#[local] Instance mg_addons : AddonsClient migworld string := {|
  Addons.GetVolumesIdentifiersInStorageGroup _ _ _ w := (Ok [], w);
  AddVolumesToProtectedStorageGroup _ _ _ _ _ _ _ w := (None, w);
  GetStorageGroupIDList _ a f _ w :=
    (Ok (if decide (a = "000B") then [] else if HasPrefix f CsiNoSrpSGPrefix then ["csi-no-srp-sg-ABC-n1"] else ["csi-ABC-Gold-SRP_1-SG"]), w);
|}.
Definition demo_pairs : list (string * string) := [("0001", "1001"); ("0002", "1002")].
#[local] Instance mg_migration : MigrationClient migworld string := {|
  GetStorageGroupMigrationByID _ _ g w := (Some (mkSession (mg_state w) g demo_pairs), None, w);
  CreateSGMigration _ _ _ g w := (Ok (mkSession (mg_state w) g demo_pairs), w);
  GetStorageGroupMigration _ _ w := (Ok ["csi-no-srp-sg-ABC-n1"], w);
  ModifyMigrationSession _ _ _ _ w := (None, w);
  GetMigrationEnvironment _ _ _ w := (Err (errorString "no environment"), w);
  CreateMigrationEnvironment _ _ _ w := (None, w);
  DeleteMigrationEnvironment _ _ _ w := (None, w);
  GetVolumesInStorageGroupIterator _ _ _ w :=
    match mg_lists w with
    | [] => (Ok (0, []), w)
    | l :: ls => (Ok (Z.of_nat (List.length l), l), mkMig (mg_sim w) (mg_cache w) ls (mg_state w))
    end;
|}.
#[local] Instance mg_order : MapOrder.
Proof. by refine {| range K _ _ V m := map_to_list m |}. Defined.
Lemma mg_apart : calls_apart (W := migworld) (C := string).
Proof. constructor; try done. intros c a g w. cbn. by destruct (mg_lists w). Qed.

Definition demo_slo (sg : StorageGroup) : string := "Gold".
Definition demo_limits (sg : StorageGroup) : HostIOLimits := mkHostIOLimits "" "" "".
Definition mig_group : StorageGroup := mkStorageGroup 1 2 "csi-ABC-Gold-SRP_1-SG" "SRP_1" [].
Definition mig_array (lists : list (list string)) (state : string) : traced migworld :=
  (mkMig (SimArray.mkSim 100 "90" [] (mkSnapInfo [] []) mig_group (mkStorageGroupRDFG [] []) SimArray.rdfGroup0 [] [] ∅) (mkCache ∅ ∅ ∅ false) lists state, []).
Definition migration (t : traced migworld) : option (result error bool * traced migworld) :=
  migrate demo_slo demo_limits "ABC" "000A" "000B" "c" t.

Lemma commit_in_order_witness :
  let t := mig_array [] Synchronized in
  match commit "000A" "000B" "c" t with
  | Some (r, t') => r = Ok true ∧ ∃ l, t'.2 = (t.2 ++ l)%list ∧ commit_order (W := migworld) "c" "000A" "000B" (part t) l
  | None => False
  end.
Proof.
  intros t. destruct (commit "000A" "000B" "c" t) as [[r t']|] eqn:E; [|vm_compute in E; discriminate E].
  split; [vm_compute in E; by injection E as <- _|]. exact (commit_in_order (W := migworld) mg_apart "000A" "000B" "c" t r t' E).
Defined.


(** A volume that could not be taken out of its group is found there by the next
    attempt, which then forgets those that could: their partners are not added. *)
Example retry_forgets_removed :
  match migration (mig_array [["0001"; "0002"]; ["0002"]] Synchronized) with
  | Some (Ok true, t1) =>
      match migration t1 with
      | Some (Ok true, t2) => SGToRemoteVols (part t1) !! "csi-ABC-Gold-SRP_1-SG" = Some ["1001"; "1002"]
          ∧ SGToRemoteVols (part t2) !! "csi-ABC-Gold-SRP_1-SG" = Some ["1002"]
      | _ => False
      end
  | _ => False
  end.
Proof. by vm_compute. Qed.

(** A driver that was started anew between the two requests commits, and deletes the
    environment, without adding any volume. *)
Example restart_adds_nothing :
  match commit "000A" "000B" "c" (mig_array [] Synchronized) with
  | Some (r, t) => r = Ok true ∧ t.2 = [EvReplication "000A" "Commit" "csi-no-srp-sg-ABC-n1"; EvReplication "000A" "delete environment" "000B"]
  | None => False
  end.
Proof. by vm_compute. Qed.

(** A session that is not synchronized stops the commit. *)
Example unsynchronized_not_committed :
  match commit "000A" "000B" "c" (mig_array [] "Migrating") with
  | Some (r, t) => (∃ e, r = Err e) ∧ t.2 = []
  | None => False
  end.
Proof. vm_compute. eauto. Qed.
End Migration.
