(* ===== verification/Provision.v ===== *)
(** * Content and replication of new volumes

    Models what the creators of service/volume_creator.go and createMetroVolume of
    service/controller.go share: the volume or snapshot a new volume is filled from,
    the ways to fill it (a clone, a snapshot, or either of them with the replication of
    its group suspended meanwhile), the search for a volume that exists already, and the
    protected group of the volume. *)

From stdpp Require Import base gmap strings list.
From Stdlib Require Import ZArith Lia Ascii SpecFloat.
From S2P Require Import Prelude GoLib Ordering Pmax SimArray SimMasking Masking Trace Handler VolumeID Replication Publish RepRequests Sizes Files Creator Snapshots Addons PortGroups Reclaim Protected Deletion DeletionWorker.

Module Provision.
Import Masking VolumeID.
Import Creator(CreateClient, LicenseCache, IsSnapshotLicensed, VolumeContentSource, SourceSnapshot, SourceVolume, SourceNone, ArrayNotManaged, Unlicensed, vs_SnapshotName, path_join).
Import Snapshots(SnapClient, SnapCleaner, UnlinkTargets, LinkVolumeToSnapshot, LinkVolumeToVolume, CreateSnapshotFromVolume, request_cleanup, mkCleanup, maxSessions).
Import RepRequests(LocalRDFGroupParam, RemoteRDFGroupParam, RemoteSymIDParam, ReplicationModeParam, RdfClient, GetRemoteVolumeID, GetProtectedStorageGroupID, HostIOLimits, mkHostIOLimits, CreateStorageGroupLimits).
Import Addons(AddonsClient, or_panic, lock_failed).
Import PortGroups(isV4OrAbove).
Open Scope go_scope.
Open Scope handler_scope.
Open Scope string_scope.
Open Scope Z_scope.

(** A volume of GetVolumesByIdentifier with the ids of its storage groups. *)
Record ListedVolume := mkListed { lv_ID : string; lv_Identifier : string; lv_CapCyl : float64; lv_Groups : list string }.

Class ProvisionClient (W C : Type) := {
  (** Array, source and target; the copy is established and terminated. *)
  CloneVolumeFromVolume : C → string → string → string → W → option error * W;
  (** Array, storage group, identifier, cylinders and headers. *)
  CreateVolumeInGroup : C → string → string → string → Z → gmap string (list string) → W → result error Volume * W;
  GetListedVolumes : C → string → string → W → result error (list ListedVolume) * W;
}.

(** [None] for the error of a computation that returns nothing else. *)
Definition to_error {A} (r : result error A) : option error := match r with Ok _ => None | Err e => Some e end.

Definition RemoteVolumeIDParam := "RemoteVolumeID".

(** ** The content source *)

(** srcVolID, srcSnapID, the array and device of the source, snapID and volContent. *)
Record Content := mkContent {
  srcVolID : string;
  srcSnapID : string;
  src_Array : string;
  SrcDevID : string;
  snapID : string;
  volContent : string;
}.
Definition no_content : Content := mkContent "" "" "" "" "" "".

(** ** Storage groups of a volume *)

(** Whether the name is part of the name of a group, and the name of the last such group,
    each compared with the one found before it. *)
Fixpoint match_group (storageGroupName : string) (groups : list string) : bool * string :=
  match groups with
  | [] => (false, storageGroupName)
  | sgid :: groups =>
      if Contains sgid storageGroupName then (true, (match_group sgid groups).2) else match_group storageGroupName groups
  end.

Definition host_limits (mbSec ioSec distribution : string) : option HostIOLimits :=
  let limits := mkHostIOLimits mbSec ioSec distribution in
  if decide (limits = mkHostIOLimits "" "" "") then None else Some limits.

Definition addReplicationParamsToVolumeAttributes (prefix remoteSymID repMode remoteVolID localRDFGrpNo remoteRDFGrpNo : string) (attributes : gmap string string) : gmap string string :=
  <[path_join prefix RemoteRDFGroupParam := remoteRDFGrpNo]> (<[path_join prefix LocalRDFGroupParam := localRDFGrpNo]>
    (<[path_join prefix RemoteVolumeIDParam := remoteVolID]> (<[path_join prefix ReplicationModeParam := repMode]>
      (<[path_join prefix RemoteSymIDParam := remoteSymID]> attributes)))).

Section provision.
Context {W C : Type} `{Pmax W C} `{MaskingClient W C} `{CreateClient W C} `{SnapClient W C} `{LicenseCache W} `{SnapCleaner W}.
Context `{RdfClient W C} `{AddonsClient W C} `{ProvisionClient W C}.

Definition invalid {A} (msg : string) : M W (result error A) := fail (statusError InvalidArgument msg).

(** The source of a request, parsed; an empty id names no source. *)
Definition parse_source (source : VolumeContentSource) : M W (result error Content) :=
  match source with
  | SourceVolume id =>
      if decide (id = "") then ok no_content
      else match parseCsiID id with
           | None => panic
           | Some (Err _) => invalid "Source volume identifier not in supported format"
           | Some (Ok csi) => ok (mkContent id "" (arrayID csi) (devID csi) "" id)
           end
  | SourceSnapshot id =>
      if decide (id = "") then ok no_content
      else match parseCsiID id with
           | None => panic
           | Some (Err _) => invalid "Snapshot identifier not in supported format"
           | Some (Ok csi) => ok (mkContent "" id (arrayID csi) (devID csi) (volName csi) (volName csi))
           end
  | SourceNone => invalid "VolumeContentSource is missing volume and snapshot source"
  end.

Definition read_source (source : option VolumeContentSource) (c : C) : M W (result error Content) :=
  match source with
  | None => ok no_content
  | Some source =>
      let? content := parse_source source in
      let* e := IsSnapshotLicensed (src_Array content) c in
      match e with
      | Some (ArrayNotManaged e) => fail (statusError NotFound (Error e))
      | Some (Unlicensed e) => fail (statusError Internal (Error e))
      | None => ok content
      end
  end.

(** srcVol: of the same array, and not larger than the volume that is asked for. *)
Definition source_volume (content : Content) (symID : string) (requiredCylinders : Z) (c : C) : M W (result error (option Volume)) :=
  if decide (SrcDevID content ≠ "" ∧ src_Array content ≠ "") then
    if decide (src_Array content ≠ symID) then invalid "The volume content source is in different PowerMax array"
    else
      let? srcVol := lift (GetVolumeByID c symID (SrcDevID content))
        orelse (λ e, statusError InvalidArgument ("Volume content source volume couldn't be found in the array: " ++ Error e)) in
      if requiredCylinders <? CapacityCYL srcVol then invalid "Requested capacity is smaller than the source"
      else ok (Some srcVol)
  else ok None.

(** ** Filling a volume

    The volumes are pointers; [None] is a nil pointer. *)
Definition LinkSRDFVolToSnapshot (reqID symID srcVolID snapID localProtectionGroupID localRDFGrpNo : string) (tgtVol : option Volume) (bias : string)
    (isCopy : bool) (c : C) : M W (option error) :=
  let* r := Snapshots.with_lock (C := C) (localProtectionGroupID ++ symID) reqID (λ e, e)
    (let failed e := statusError Internal ("Failed to create volume from snapshot (" ++ Error e ++ ")") in
     let* tgtVol := or_panic tgtVol in
     do? (if SnapTarget tgtVol then ret None
          else
            let* r :=
              do? UnlinkTargets symID srcVolID c
                orelse (λ e, statusError Internal ("Failed unlink existing target from snapshot (" ++ Error e ++ ")")) in
              do? Replication.suspend c symID localProtectionGroupID localRDFGrpNo orelse failed in
              do? LinkVolumeToSnapshot symID srcVolID (Pmax.VolumeID tgtVol) snapID reqID isCopy c orelse failed in ok tt in
            ret (to_error r)) in
     do? Replication.establish c symID localProtectionGroupID localRDFGrpNo (default false (Reclaim.ParseBool bias)) orelse failed in
     ok tt) in
  ret (to_error r).

(** A temporary snapshot of one hour, which is left to the cleanup worker. *)
Definition LinkSRDFVolToVolume (reqID symID : string) (vol tgtVol : option Volume) (snapID localProtectionGroupID localRDFGrpNo bias : string)
    (isCopy : bool) (c : C) : M W (option error) :=
  let* vol := or_panic vol in
  let* tgt := or_panic tgtVol in
  let* r := CreateSnapshotFromVolume symID vol snapID 1 reqID c in
  match r with
  | Err e => ret (Some (if Contains (Error e) maxSessions then statusError FailedPrecondition ("Failed to create snapshot: " ++ Error e) else e))
  | Ok snapInfo =>
      let* e := LinkSRDFVolToSnapshot reqID symID (Pmax.VolumeID vol) snapID localProtectionGroupID localRDFGrpNo (Some tgt) bias isCopy c in
      match e with
      | Some e => ret (Some e)
      | None => let* _ := request_cleanup (mkCleanup symID (vs_SnapshotName snapInfo) (Pmax.VolumeID vol) reqID 0) in ret None
      end
  end.

Definition LinkSRDFCloneVolume (reqID symID : string) (srcVol vol : option Volume) (localProtectionGroupID localRDFGrpNo bias : string) (c : C)
    : M W (option error) :=
  let refuse what := ret (Some (statusError InvalidArgument what)) in
  match srcVol, vol with
  | None, _ => refuse "Source volume is nil"
  | Some _, None => refuse "Target volume is nil"
  | Some srcVol, Some vol =>
      if decide (Pmax.VolumeID srcVol = "") then refuse "Source volume ID is empty"
      else if decide (Pmax.VolumeID vol = "") then refuse "Target volume ID is empty"
      else
        let* r := Snapshots.with_lock (C := C) (localProtectionGroupID ++ symID) reqID (λ e, e)
          (do? Replication.suspend c symID localProtectionGroupID localRDFGrpNo
             orelse (λ e, statusError Internal ("Failed to suspend clone volume (" ++ Error e ++ ")")) in
           do? lift (CloneVolumeFromVolume c symID (Pmax.VolumeID srcVol) (Pmax.VolumeID vol))
             orelse (λ e, statusError Internal ("Failed to create SRDF volume from volume (" ++ Error e ++ ")")) in
           do? Replication.establish c symID localProtectionGroupID localRDFGrpNo (default false (Reclaim.ParseBool bias))
             orelse (λ e, statusError Internal ("Failed to establish clone volume (" ++ Error e ++ ")")) in
           ok tt) in
        ret (to_error r)
  end.

Variable clusterPrefix : string.

(** The name of a temporary snapshot, made unique by the nanoseconds of the clock. *)
Definition tmpSnapID : M W string :=
  let* now := lift (Now (C := C)) in ret (DeletionWorker.TempSnap ++ clusterPrefix ++ "-" ++ Itoa (now mod 1000000000)).

(** A volume whose group is not replicated. *)
Definition fill_local (content : Content) (srcVol : option Volume) (symID tgtDevID reqID : string) (c : C) : M W (result error unit) :=
  if decide (srcSnapID content ≠ "") then
    do? UnlinkTargets symID (SrcDevID content) c
      orelse (λ e, statusError Internal ("Failed unlink existing target from snapshot (" ++ Error e ++ ")")) in
    let* srcVol := or_panic srcVol in
    do? LinkVolumeToSnapshot symID (Pmax.VolumeID srcVol) tgtDevID (snapID content) reqID false c
      orelse (λ e, statusError Internal ("Failed to create volume from snapshot (" ++ Error e ++ ")")) in ok tt
  else if decide (srcVolID content ≠ "") then
    let failed e := statusError Internal ("Failed to create volume from volume (" ++ Error e ++ ")") in
    let* isV4 := isV4OrAbove symID c in
    if isV4 then
      let* srcVol := or_panic srcVol in
      do? lift (CloneVolumeFromVolume c symID (Pmax.VolumeID srcVol) tgtDevID) orelse failed in ok tt
    else
      let* snap := tmpSnapID in
      let* srcVol := or_panic srcVol in
      do? LinkVolumeToVolume symID srcVol tgtDevID snap reqID false c orelse failed in ok tt
  else ok tt.

(** A volume whose group is replicated; [v4] is the version the caller has or reads. *)
Definition fill_srdf (content : Content) (srcVol tgtVol : option Volume) (symID localProtectionGroupID localRDFGrpNo bias reqID : string)
    (isCopy : bool) (v4 : M W bool) (c : C) : M W (result error unit) :=
  if decide (srcSnapID content ≠ "") then
    let* srcVol := or_panic srcVol in
    do? LinkSRDFVolToSnapshot reqID symID (Pmax.VolumeID srcVol) (snapID content) localProtectionGroupID localRDFGrpNo tgtVol bias isCopy c in ok tt
  else if decide (srcVolID content ≠ "") then
    let failed e := statusError Internal ("Failed to create SRDF volume from volume (" ++ Error e ++ ")") in
    let* isV4 := v4 in
    if isV4 then do? LinkSRDFCloneVolume reqID symID srcVol tgtVol localProtectionGroupID localRDFGrpNo "false" c orelse failed in ok tt
    else
      let* snap := tmpSnapID in
      do? LinkSRDFVolToVolume reqID symID srcVol tgtVol snap localProtectionGroupID localRDFGrpNo "false" false c orelse failed in ok tt
  else ok tt.

(** ** Replication of a volume *)
Definition must_be_rdf := "The device must be an RDF device".

(** The remote device of a volume that was found; empty when it is not replicated. *)
Definition remote_of (symID localRDFGrpNo devID : string) (c : C) : M W (result error string) :=
  let* r := GetRemoteVolumeID symID localRDFGrpNo devID c in
  match r with
  | Ok (remoteVolumeID, _) => ok remoteVolumeID
  | Err e =>
      if Contains (Error e) must_be_rdf then ok ""
      else fail (statusError Internal ("Failed to fetch rdf pair information for (" ++ devID ++ ") - Error (" ++ Error e ++ ")"))
  end.

(** isSGUnprotected: the group is there, but not replicated yet. *)
Definition ensure_protected (symID localProtectionGroupID localRDFGrpNo repMode reqID : string) (c : C) : M W (result error bool) :=
  let? sg := Protected.getOrCreateProtectedStorageGroup symID localProtectionGroupID localRDFGrpNo repMode reqID c
    orelse (λ e, statusError Internal ("Error in getOrCreateProtectedStorageGroup: (" ++ Error e ++ ")")) in
  if match sg with Some sg => Rdf sg | None => false end then
    do? Protected.VerifyProtectedGroupDirection symID localProtectionGroupID localRDFGrpNo c in ok false
  else ok true.

Definition join_protected (symID localProtectionGroupID remoteSymID remoteProtectionGroupID localRDFGrpNo repMode reqID : string) (vol : Volume) (c : C)
    : M W (result error unit) :=
  if decide (GetProtectedStorageGroupID (StorageGroupIDList vol) (localRDFGrpNo ++ "-" ++ repMode) = "") then
    Protected.addVolumesToProtectedStorageGroup reqID symID localProtectionGroupID remoteSymID remoteProtectionGroupID false (Pmax.VolumeID vol) c
  else ok tt.

(** ProtectStorageGroup with the lock of the group. *)
Definition ProtectStorageGroup (symID remoteSymID localGroup remoteGroup rdfGrpNo repMode reqID : string) (bias : bool) (c : C) : M W (result error unit) :=
  Snapshots.with_lock (C := C) (localGroup ++ symID) reqID lock_failed
    (do? Replication.ProtectStorageGroup c symID remoteSymID localGroup remoteGroup "" rdfGrpNo repMode bias in ok tt).

(** ** The group of a volume *)
Definition create_group (symID name storagePoolID serviceLevel thick : string) (limits : option HostIOLimits) (c : C) : M W (option error) :=
  let* e := lift (CreateStorageGroupLimits c symID name storagePoolID serviceLevel (bool_decide (thick = "true")) limits) in
  ret ((λ e, statusError Internal ("Error creating storage group: " ++ Error e)) <$> e).
Definition ensure_group (symID name storagePoolID serviceLevel thick : string) (limits : option HostIOLimits) (c : C) : M W (option error) :=
  let* sg := lift (GetStorageGroup c symID name) in
  match sg with Ok _ => ret None | Err _ => create_group symID name storagePoolID serviceLevel thick limits c end.

Definition size_differs (volumeName : string) : error :=
  statusError AlreadyExists ("A volume with the same name " ++ volumeName ++ " exists but has a different size than requested. Use a different name.").
Definition no_groups (devID : string) : error := statusError Internal ("Idempotence check: StorageGroupIDList is empty for (" ++ devID ++ ")").

Definition create_volume (symID storageGroupName volumeIdentifier volumeName : string) (requiredCylinders : Z) (params : gmap string string) (c : C)
    : M W (result error Volume) :=
  let? vol := lift (CreateVolumeInGroup c symID storageGroupName volumeIdentifier requiredCylinders (Creator.addMetaData params))
    orelse (λ e, statusError Internal ("Could not create volume: " ++ volumeName ++ ": " ++ Error e)) in ok vol.
End provision.

(** What the search for an existing volume has found so far. *)
Record search := mkSearch {
  s_vol : option Volume;
  s_group : string;
  alreadyExists : bool;
  isLocalVolumePresent : bool;
}.

(** ** Lemmas *)
Lemma substring_front m s : ∃ b, s = String.substring 0 m s ++ b.
Proof.
  revert m. induction s as [|c s IH]; intros m; [by exists ""; destruct m|].
  destruct m as [|m]; [by exists (String c s)|]. destruct (IH m) as [b E]. exists b. simpl. by rewrite app_str_cons, <- E.
Qed.
Lemma substring_split n m s : String.substring n m s = "" ∨ ∃ a b, s = a ++ String.substring n m s ++ b.
Proof.
  revert n. induction s as [|c s IH]; intros n; [left; by destruct n, m|].
  destruct n as [|n]; [right; destruct (substring_front m (String c s)) as [b E]; by exists "", b|].
  destruct (IH n) as [E|(a & b & E)]; [by left|]. right. exists (String c a), b. simpl. by rewrite app_str_cons, <- E.
Qed.
Lemma Contains_spec s sub : Contains s sub = true ↔ ∃ a b, s = a ++ sub ++ b.
Proof.
  unfold Contains, Index. split.
  - destruct (String.index 0 sub s) as [n|] eqn:E; [|done]. intros _. apply String.index_correct1 in E.
    destruct (substring_split n (String.length sub) s) as [E'|(a & b & Es)]; rewrite E in *; [|by exists a, b].
    subst sub. by exists "", s.
  - intros (a & b & ->). destruct (String.index 0 sub (a ++ sub ++ b)) as [n|] eqn:E; [apply Z.leb_le; lia|].
    destruct (decide (sub = "")) as [->|Hn]; [destruct a, b; discriminate E|].
    exfalso. eapply (String.index_correct3 0 (String.length a)) in E; [|done|lia]. apply E. clear.
    induction a as [|c a IH]; [|exact IH]. simpl. induction sub as [|d sub IH]; [by destruct b|]. rewrite !app_str_cons. simpl. f_equal. exact IH.
Qed.
Lemma Contains_refl s : Contains s s = true.
Proof. apply Contains_spec. exists "", "". by rewrite app_str_nil. Qed.
Lemma Contains_trans a b c : Contains a b = true → Contains b c = true → Contains a c = true.
Proof.
  rewrite !Contains_spec. intros (x & y & ->) (x' & y' & ->). exists (x ++ x'), (y' ++ y). by rewrite !app_str_assoc.
Qed.

Lemma match_group_spec base name groups m g :
  match_group name groups = (m, g) → Contains name base = true →
  Contains g base = true ∧ (m = true → ∃ sg, sg ∈ groups ∧ Contains sg base = true).
Proof.
  revert name m g. induction groups as [|sg groups IH]; intros name m g E Hn; simpl in E; [by injection E as <- <-|].
  destruct (Contains sg name) eqn:Hc.
  - injection E as <- <-. assert (Contains sg base = true) as Hsg by (by eapply Contains_trans).
    split; [|intros _; exists sg; split; [by constructor|done]].
    destruct (match_group sg groups) as [m' g'] eqn:E. by apply (IH sg m' g').
  - destruct (IH _ _ _ E Hn) as [Hg Hm]. split; [done|]. intros (x & Hx & ?)%Hm. exists x. split; [by constructor|done].
Qed.

(** The least number of cylinders that holds what was asked for, within the limit. *)
Definition sized (cr : option Sizes.CapacityRange) (n : Z) : Prop :=
  (n - 1) * Sizes.cylinderSizeInBytes < Sizes.wanted (Sizes.GetRequiredBytes cr) <= n * Sizes.cylinderSizeInBytes
  ∧ (Sizes.GetLimitBytes cr = 0 ∨ n * Sizes.cylinderSizeInBytes <= Sizes.GetLimitBytes cr).

Lemma size_within_sized cr avail n :
  0 <= Sizes.GetRequiredBytes cr → 0 <= Sizes.GetLimitBytes cr → avail + Sizes.cylinderSizeInBytes < 2 ^ 63 →
  Sizes.size_within (if Sizes.GetRequiredBytes cr =? 0 then Sizes.DefaultVolumeSizeBytes else Sizes.GetRequiredBytes cr) (Sizes.GetLimitBytes cr) avail = Ok n →
  sized cr n.
Proof.
  intros Hr Hl Ha (-> & _ & _ & Hlim)%Sizes.size_within_spec; [|done..]. split; [|done].
  pose proof (Sizes.cylinders_bounds (Sizes.wanted (Sizes.GetRequiredBytes cr))). unfold Sizes.wanted, Sizes.MinVolumeSizeBytes in *. lia.
Qed.

(** The call can answer [a]. *)
Definition answers {W A} (call : W → A * W) (a : A) : Prop := ∃ w w', call w = (a, w').

Lemma lift_answers {W A} (call : W → A * W) : post (lift call) (answers call).
Proof. intros w a w' [= E]. by exists w, w'. Qed.

Section lemmas.
Context {W C : Type} `{Pmax W C} `{ProvisionClient W C} `{Sizes.PoolClient W C}.

Lemma validated_size cr symID pool (c : C) :
  post (Sizes.validateVolSize (W := W) cr symID pool c) (λ r, match r with Ok n => sized cr n | Err _ => True end).
Proof.
  unfold Sizes.validateVolSize. destruct (Z.ltb_spec (Sizes.GetRequiredBytes cr) 0); [by apply post_ret|].
  destruct (Z.ltb_spec (Sizes.GetLimitBytes cr) 0); [by apply post_ret|]. cbn [orb]. case_decide.
  - apply post_try_skip; [done|]. intros [[srp fba] ckd]. apply post_ret.
    destruct (Sizes.size_within _ _ _) eqn:E; [|done]. eapply size_within_sized, E; [done..|apply Sizes.avail_bytes_bound].
  - apply post_ret. destruct (Sizes.size_within _ _ _) eqn:E; [|done]. by eapply size_within_sized, E.
Qed.

(** The source that was read, which fits into [n] cylinders. *)
Definition fits (c : C) (symID : string) (content : Content) (n : Z) (srcVol : option Volume) : Prop :=
  ∀ v, srcVol = Some v → CapacityCYL v <= n ∧ answers (GetVolumeByID (W := W) c symID (SrcDevID content)) (Ok v).

Lemma source_fits content symID n (c : C) :
  post (source_volume (W := W) content symID n c) (λ r, match r with Ok v => fits c symID content n v | Err _ => True end).
Proof.
  unfold source_volume. case_decide; [|by apply post_ret]. case_decide; [by apply post_ret|].
  eapply post_bind; [apply lift_answers|]. intros [v|e] Ha; [|by apply post_ret].
  destruct (Z.ltb_spec n (CapacityCYL v)); apply post_ret; [done|]. by intros v' [= <-].
Qed.

(** A volume, by its identifier and device, that a request for [n] cylinders may be answered with:
    it was created for it, or it was found with a name that is the [same] as its identifier, with the
    size, and in a group whose name contains that of the group. *)
Definition in_group (base : string) (groups : list string) : Prop := ∃ sg, sg ∈ groups ∧ Contains sg base = true.
Inductive provided (c : C) (symID base identifier : string) (same : string → Prop) (n : Z) (headers : gmap string (list string)) : string → string → Prop :=
| provided_new vol group :
    Contains group base = true → answers (CreateVolumeInGroup (W := W) c symID group identifier n headers) (Ok vol) →
    provided c symID base identifier same n headers (VolumeIdentifier vol) (Pmax.VolumeID vol)
| provided_found vol id :
    answers (GetVolumeByID (W := W) c symID id) (Ok vol) → CapacityCYL vol = n → in_group base (StorageGroupIDList vol) →
    same (VolumeIdentifier vol) →
    provided c symID base identifier same n headers (VolumeIdentifier vol) (Pmax.VolumeID vol)
| provided_listed v l :
    answers (GetListedVolumes (W := W) c symID identifier) (Ok l) → v ∈ l → SFeqb (lv_CapCyl v) (float_of_Z n) = true → in_group base (lv_Groups v) →
    same (lv_Identifier v) →
    provided c symID base identifier same n headers (lv_Identifier v) (lv_ID v).

(** The volume that a search volume by volume is left with although it was not the one it found: the last
    of several that the array lists, when a volume that fits ([P]) was found among them. *)
Definition mistaken (c : C) (symID identifier : string) (P : string → string → Prop) (name dev : string) : Prop :=
  ∃ ids id vol, answers (GetVolumeIDList (W := W) c symID identifier false) (Ok ids) ∧ (2 <= List.length ids)%nat ∧ last ids = Some id
    ∧ answers (GetVolumeByID (W := W) c symID id) (Ok vol) ∧ name = VolumeIdentifier vol ∧ dev = Pmax.VolumeID vol
    ∧ ∃ name' dev', P name' dev'.

Lemma create_volume_provided symID base group identifier same name n params (c : C) :
  Contains group base = true →
  post (create_volume (W := W) symID group identifier name n params c)
    (λ r, match r with Ok v => provided c symID base identifier same n (Creator.addMetaData params) (VolumeIdentifier v) (Pmax.VolumeID v) | Err _ => True end).
Proof.
  intros Hg. eapply post_bind; [apply lift_answers|]. intros [v|e] Ha; apply post_ret; [|done]. by eapply provided_new.
Qed.
End lemmas.

(** ** Loops over the volumes with the identifier *)
Definition fits_search (P : string → string → Prop) (base : string) (s : search) : Prop :=
  Contains (s_group s) base = true
  ∧ (isLocalVolumePresent s = true → ∃ v, s_vol s = Some v ∧ P (VolumeIdentifier v) (Pmax.VolumeID v)).

(** A loop whose body keeps the volume it goes on with. *)
Lemma keeping_loop {W A R} (body : A → search → M W (search + R)) l (base : string) (P : string → string → Prop) (Q : R → Prop) :
  (∀ x s, x ∈ l → fits_search P base s → post (body x s) (λ r, match r with inl s' => fits_search P base s' | inr r => Q r end)) →
  ∀ s, fits_search P base s → post (forM body l s) (λ r, match r with inl s' => fits_search P base s' | inr r => Q r end).
Proof.
  intros Hb. induction l as [|x l IH]; intros s Hs; simpl; [by apply post_ret|].
  eapply post_bind; [apply Hb; [by constructor|done]|]. intros [s'|r] Hs'; [|by apply post_ret].
  apply IH; [intros y s0 Hy; apply Hb; by constructor|done].
Qed.

(** A loop whose body goes on with the volume it has fetched last ([F]), whether it fits or not. *)
Definition fetched {A} (F : A → Volume → Prop) (P : Volume → Prop) (base : string) (x : A) (s s' : search) : Prop :=
  Contains (s_group s') base = true
  ∧ ∃ v, s_vol s' = Some v ∧ F x v ∧ (isLocalVolumePresent s' = true → isLocalVolumePresent s = true ∨ P v).

Lemma fetching_loop {W A R} (body : A → search → M W (search + R)) l (base : string) (F : A → Volume → Prop) (P : Volume → Prop) (Q : R → Prop) :
  (∀ x s, Contains (s_group s) base = true → post (body x s) (λ r, match r with inl s' => fetched F P base x s s' | inr r => Q r end)) →
  ∀ s, Contains (s_group s) base = true → (isLocalVolumePresent s = true → ∃ v, P v) →
  post (forM body l s) (λ r, match r with
    | inl s' => Contains (s_group s') base = true ∧ (isLocalVolumePresent s' = true → (l = [] ∧ s' = s)
        ∨ ∃ v x, s_vol s' = Some v ∧ last l = Some x ∧ F x v
            ∧ (P v ∨ (∃ v', P v') ∧ (isLocalVolumePresent s = true ∨ 2 <= List.length l)%nat))
    | inr r => Q r end).
Proof.
  intros Hb. induction l as [|x l IH]; intros s Hg Hp; simpl; [apply post_ret; split; [done|by left]|].
  eapply post_bind; [by apply Hb|]. intros [s1|r] Hs1; [|by apply post_ret].
  destruct Hs1 as (Hg1 & v1 & Hv1 & Hf1 & Hp1).
  eapply post_weaken; [apply IH; [done|intros [Hs|Hv]%Hp1; [by apply Hp|by exists v1]]|].
  intros [s'|r] Hr; [|done]. destruct Hr as [Hg' Hr]. split; [done|]. intros Hpres. right.
  destruct (Hr Hpres) as [[-> ->]|(v & y & Hv & Hl & Hf & Hor)].
  - exists v1, x. split_and!; [done..|]. destruct (Hp1 Hpres) as [Hs|?]; [right; split; [by apply Hp|by left]|by left].
  - exists v, y. destruct l as [|z l]; [done|]. split_and!; [done..|]. destruct Hor as [?|[He _]]; [by left|]. right. split; [done|].
    right. simpl. lia.
Qed.

(** Started with nothing, such a loop ends with a volume that fits or with a mistaken one. *)
Definition chosen_search {W C} `{Pmax W C} (c : C) (symID identifier : string) (P : string → string → Prop) (base : string) (s : search) : Prop :=
  Contains (s_group s) base = true
  ∧ (isLocalVolumePresent s = true → ∃ v, s_vol s = Some v
       ∧ (P (VolumeIdentifier v) (Pmax.VolumeID v) ∨ mistaken (W := W) c symID identifier P (VolumeIdentifier v) (Pmax.VolumeID v))).

Lemma listing_loop {W C R} `{Pmax W C} (c : C) symID identifier (body : string → search → M W (search + R)) ids base P Q :
  answers (GetVolumeIDList (W := W) c symID identifier false) (Ok ids) →
  (∀ id s, Contains (s_group s) base = true → post (body id s) (λ r, match r with
     | inl s' => fetched (λ id v, answers (GetVolumeByID (W := W) c symID id) (Ok v)) (λ v, P (VolumeIdentifier v) (Pmax.VolumeID v)) base id s s'
     | inr r => Q r end)) →
  post (forM body ids (mkSearch None base false false)) (λ r, match r with inl s => chosen_search (W := W) c symID identifier P base s | inr r => Q r end).
Proof.
  intros Hids Hb. eapply post_weaken; [eapply fetching_loop; [exact Hb|apply Contains_refl|done]|].
  intros [s|r] Hs; [|done]. destruct Hs as [Hg Hs]. split; [done|]. intros Hp. destruct (Hs Hp) as [[-> ->]|(v & id & Hv & Hl & Hf & Hor)]; [done|].
  exists v. split; [done|]. destruct Hor as [?|[(v' & Hv') [?|Hlen]]]; [by left|done|]. right.
  exists ids, id, v. split_and!; try done. by do 2 eexists.
Qed.

(** ** A simulated array *)
Module SimProvision.
Import SimArray.
#[local] Existing Instance SimArray.sim_pmax.

(** An array that lists at most one volume under an identifier. *)
Definition single_pmax : Pmax Sim string := {|
  GetVolumeIDList c sym id like w := let '(r, w) := GetVolumeIDList c sym id like w in (match r with Ok l => Ok (take 1 l) | Err e => Err e end, w);
  Now := @Now _ _ SimArray.sim_pmax; Sleep := @Sleep _ _ SimArray.sim_pmax; WithSymmetrixID := @WithSymmetrixID _ _ SimArray.sim_pmax;
  GetHTTPClient := @GetHTTPClient _ _ SimArray.sim_pmax; GetVersionDetails := @GetVersionDetails _ _ SimArray.sim_pmax; GetVolumeByID :=
  @GetVolumeByID _ _ SimArray.sim_pmax; GetVolumesByIdentifierMatch := @GetVolumesByIdentifierMatch _ _ SimArray.sim_pmax; DeleteVolume :=
  @DeleteVolume _ _ SimArray.sim_pmax; GetVolumeSnapInfo := @GetVolumeSnapInfo _ _ SimArray.sim_pmax; ModifySnapshotS := @ModifySnapshotS _
  _ SimArray.sim_pmax; DeleteSnapshotS := @DeleteSnapshotS _ _ SimArray.sim_pmax; GetStorageGroup := @GetStorageGroup _ _ SimArray.sim_pmax;
  DeleteStorageGroup := @DeleteStorageGroup _ _ SimArray.sim_pmax; RemoveVolumesFromStorageGroup := @RemoveVolumesFromStorageGroup _ _
  SimArray.sim_pmax; RemoveVolumesFromProtectedStorageGroup := @RemoveVolumesFromProtectedStorageGroup _ _ SimArray.sim_pmax;
  GetStorageGroupRDFInfo := @GetStorageGroupRDFInfo _ _ SimArray.sim_pmax; GetProtectedStorageGroup := @GetProtectedStorageGroup _ _
  SimArray.sim_pmax; ExecuteReplicationActionOnSG := @ExecuteReplicationActionOnSG _ _ SimArray.sim_pmax; CreateSGReplica :=
  @CreateSGReplica _ _ SimArray.sim_pmax; GetRDFGroupByID := @GetRDFGroupByID _ _ SimArray.sim_pmax; GetRDFGroupList := @GetRDFGroupList _ _
  SimArray.sim_pmax; GetFreeLocalAndRemoteRDFg := @GetFreeLocalAndRemoteRDFg _ _ SimArray.sim_pmax; GetLocalOnlineRDFDirs :=
  @GetLocalOnlineRDFDirs _ _ SimArray.sim_pmax; GetLocalOnlineRDFPorts := @GetLocalOnlineRDFPorts _ _ SimArray.sim_pmax;
  GetRemoteRDFPortOnSAN := @GetRemoteRDFPortOnSAN _ _ SimArray.sim_pmax; GetLocalRDFPortDetails := @GetLocalRDFPortDetails _ _
  SimArray.sim_pmax; ExecuteCreateRDFGroup := @ExecuteCreateRDFGroup _ _ SimArray.sim_pmax;
|}.
(** A new volume gets the number 00001. *)
Definition add_volume (v : Volume) (w : Sim) : Sim :=
  mkSim (sim_time w) (sim_version w) (v :: sim_volumes w) (sim_snaps w) (sim_sg w) (sim_rdf w) (sim_group w) (sim_dirs w) (sim_log w) (sim_licenses w).
Definition sim_provision : ProvisionClient Sim string := {|
  CloneVolumeFromVolume _ _ src tgt w := (None, log ("clone " ++ src ++ " to " ++ tgt) w);
  CreateVolumeInGroup _ _ group identifier n _ w :=
    let v := mkVolume "00001" identifier [group] false false "" 0 n [] fzero in (Ok v, add_volume v w);
  GetListedVolumes _ _ identifier w :=
    (Ok (take 1 ((λ v, mkListed (Pmax.VolumeID v) (VolumeIdentifier v) (float_of_Z (CapacityCYL v)) (StorageGroupIDList v))
                   <$> List.filter (λ v, Contains (VolumeIdentifier v) identifier) (sim_volumes w))), w);
|}.
Definition map_order : MapOrder.
Proof. by refine {| range K _ _ V m := map_to_list m |}. Defined.

Definition options : Creator.Opts := Creator.mkOpts ∅ "replication.storage.dell.com" "powermax" "ABC" false true.
Definition format_now (w : Sim) : string * Sim := (Itoa (sim_time w), w).
End SimProvision.
End Provision.
