(* ===== verification/MetroCreator.v ===== *)
(** * Creation of Metro volumes

    Models createMetroVolume and buildMetroAccessibleTopology of service/controller.go: a
    volume on the local array, its protected group, the copy on the remote array, and the
    answer; when the remote array cannot be reached, the volume is created without its copy
    and the pairing is queued. The site checks and the queue are arguments, modelled in
    their own components; the event for the operator is left out. *)

From stdpp Require Import base gmap strings list.
From Stdlib Require Import ZArith Lia Ascii SpecFloat.
From S2P Require Import Prelude GoLib Ordering Pmax SimArray SimMasking Masking Trace Handler VolumeID Replication Publish RepRequests Sizes Files Creator Snapshots Addons PortGroups Protected Deletion Journal Capacity Provision.

Module MetroCreator.
Import Masking Provision.
Import VolumeID(parseCsiID, mkCsiID).
Import Sizes(PoolClient, StorageArrayConfig, Labels, validateVolSize, cylinderSizeInBytes).
Import Creator(CreateClient, LicenseCache, CreateVolumeRequest, req_Name, req_Parameters, req_Capabilities, req_Range, req_Source, req_Preferred, csi_Volume, mkCsiVolume, resp_VolumeId, buildVolumeIdentifier, resolveStorageGroupName, buildVolumeContext, path_join).
Import Snapshots(SnapClient, SnapCleaner).
Import Deletion(RenameClient).
Import RepRequests(RdfClient, GetRemoteVolumeID, reset_srp).
Import Addons(AddonsClient, or_panic, syncRemoteVolumeIdentifierWithRetry, syncRemoteVolumeIdentifierWithRetryFromVolume).
Import Publish(accTypeIsBlock, volumeIdentifiersMatch).
Import Replication(Metro).
Import PortGroups(isV4OrAbove).
Import Journal(DeferredOperation, mkOp, OpMetroPairing).
Open Scope go_scope.
Open Scope handler_scope.
Open Scope string_scope.
Open Scope Z_scope.

Definition ArrayIDVolumeAttribute := "ArrayID".

(** The bits of a float64, as the journal keeps the capacity of a volume. *)
Definition Float64bits (f : float64) : Z :=
  let sign (s : bool) := if s then 2 ^ 63 else 0 in
  match f with
  | S754_zero s => sign s
  | S754_infinity s => sign s + 2047 * 2 ^ 52
  | S754_nan => 2047 * 2 ^ 52 + 1
  | S754_finite s m e => sign s + (if 2 ^ 52 <=? Zpos m then (e + 1075) * 2 ^ 52 + (Zpos m - 2 ^ 52) else Zpos m)
  end.

(** ** Where a Metro volume can be used *)
Section topology.
Context `{MapOrder}.

(** The protocol after the local array in a key of the topologies, the first that is found. *)
Definition protocol_suffix (localArrayKeyPrefix : string) (preferred : list (gmap string string)) : string :=
  let suffix (topology : gmap string string) :=
    match List.find (λ kv : string * string, HasPrefix kv.1 (localArrayKeyPrefix ++ ".")) (range topology) with
    | Some (k, _) => sdrop (String.length localArrayKeyPrefix) k
    | None => ""
    end in
  default "" (List.find (λ s, negb (bool_decide (s = ""))) (suffix <$> preferred)).

(** One entry for a site: the array, the protocol, and the labels of the array. *)
Definition site_topology (driverName symID protocolSuffix : string) (labels : gmap string string) : gmap string string :=
  labels ∪ (if decide (protocolSuffix = "") then {[driverName ++ "/" ++ symID := driverName]}
            else <[driverName ++ "/" ++ symID ++ protocolSuffix := driverName]> {[driverName ++ "/" ++ symID := driverName]}).

Definition buildMetroAccessibleTopology (StorageArrays : gmap string StorageArrayConfig) (driverName : string)
    (accessibility : option (list (gmap string string))) (localSymID remoteSymID : string) : list (gmap string string) :=
  match accessibility with
  | None | Some [] => []
  | Some preferred =>
      match StorageArrays !! localSymID, StorageArrays !! remoteSymID with
      | Some localCfg, Some remoteCfg =>
          if decide (Labels localCfg = ∅ ∨ Labels remoteCfg = ∅) then preferred
          else
            let suffix := protocol_suffix (driverName ++ "/" ++ localSymID) preferred in
            [site_topology driverName localSymID suffix (Labels localCfg); site_topology driverName remoteSymID suffix (Labels remoteCfg)]
      | _, _ => preferred
      end
  end.
End topology.

(** The arguments of createMetroVolume: storage class parameters that were resolved. *)
Record MetroParams := mkMetroParams {
  p_storagePoolID : string;
  p_symID : string;
  p_storageGroupName : string;
  p_serviceLevel : string;
  p_thick : string;
  p_remoteSymID : string;
  p_localRDFGrpNo : string;
  p_remoteRDFGrpNo : string;
  p_remoteServiceLevel : string;
  p_remoteSRPID : string;
  p_namespace : string;
  p_applicationPrefix : string;
  p_bias : string;
  p_hostLimitName : string;
  p_hostMBsec : string;
  p_hostIOsec : string;
  p_hostDynDist : string;
}.

Section creator.
Context {W C : Type} `{Pmax W C} `{MaskingClient W C} `{CreateClient W C} `{SnapClient W C} `{LicenseCache W} `{SnapCleaner W}.
Context `{RdfClient W C} `{AddonsClient W C} `{ProvisionClient W C} `{RenameClient W C} `{PoolClient W C} `{MapOrder}.
Variable FormatNow : W → string * W.
Variable o : Creator.Opts.
(** The result of getDriverName, and the fields driverName and instanceUID of the service. *)
Variables (DriverName driverName instanceUID : string).
Variable GetPowerMaxClient : string → string → M W (result error C).
Variable isMetroSiteFailureHandlingEnabled : bool.
Variable logMetroStateCheck : string → string → string → string → M W (option error).
(** Whether the tracker of the sites has an array as unreachable. *)
Variable SiteUnreachable : W → string → bool.
Variable deferOperation : DeferredOperation → M W (option error).
Variable errorClass : error → Capacity.provision_error.
(** The HTTP status in the chain of an error, 0 when there is none. *)
Variable remoteIdentifierHTTPStatus : error → Z.
Variable reqID : string.
Variable req : CreateVolumeRequest.
Variable p : MetroParams.

Abbreviation symID := (p_symID p).
Abbreviation remoteSymID := (p_remoteSymID p).
Abbreviation localRDFGrpNo := (p_localRDFGrpNo p).
Abbreviation remoteRDFGrpNo := (p_remoteRDFGrpNo p).

(** What the request comes to before the arrays are changed. *)
Record metro_plan := mkMetroPlan {
  requiredCylinders : Z;
  content : Content;
  srcVol : option Volume;
  volumeIdentifier : string;
}.

Definition plan_metro (c : C) : M W (result error metro_plan) :=
  let? n := validateVolSize (req_Range req) symID (p_storagePoolID p) c in
  let? _ := validateVolSize (req_Range req) remoteSymID (p_remoteSRPID p) c in
  let? source := read_source (req_Source req) c in
  let? srcVol := source_volume source symID n c in
  if match req_Capabilities req with Some vcs => accTypeIsBlock vcs && negb (Creator.EnableBlock o) | None => false end then
    invalid "Block Volume Capability is not supported"
  else if decide (req_Name req = "") then invalid "Name cannot be empty"
  else match buildVolumeIdentifier (Creator.ClusterPrefix o) (req_Name req) (p_namespace p) with
       | Some identifier => ok (mkMetroPlan n source srcVol identifier)
       | None => panic
       end.

(** The groups of the two copies; a group of the storage class names the local one only. *)
Definition local_group_name : string :=
  resolveStorageGroupName (p_storageGroupName p) (Creator.ClusterPrefix o) (p_applicationPrefix p) (p_serviceLevel p) (p_storagePoolID p) (p_hostLimitName p).
Definition remoteStorageGroupName : string :=
  if decide (p_storageGroupName p = "") then
    resolveStorageGroupName "" (Creator.ClusterPrefix o) (p_applicationPrefix p) (p_remoteServiceLevel p) (p_remoteSRPID p) (p_hostLimitName p)
  else "".
Definition localProtectionGroupID : string := Replication.buildProtectionGroupID (p_namespace p) localRDFGrpNo Metro.
Definition remoteProtectionGroupID : string := Replication.buildProtectionGroupID (p_namespace p) remoteRDFGrpNo Metro.

Definition handle (pl : metro_plan) (vol : Volume) (remoteVolumeID : string) : string :=
  volumeIdentifier pl ++ "-" ++ symID ++ ":" ++ remoteSymID ++ "-" ++ Pmax.VolumeID vol ++ ":" ++ remoteVolumeID.

(** The answer; the degraded one carries no topology. *)
Definition respond (pl : metro_plan) (storageGroupName : string) (vol : Volume) (remoteVolumeID : string) (topology : list (gmap string string))
    : M W (result error csi_Volume) :=
  let* now := lift FormatNow in
  let prefix := Creator.ReplicationContextPrefix o in
  let attributes :=
    <[ArrayIDVolumeAttribute := symID]>
      (buildVolumeContext prefix symID (p_serviceLevel p) (p_storagePoolID p) storageGroupName (Volume_CapacityGB vol) (volContent (content pl)) now) in
  ok (mkCsiVolume (handle pl vol remoteVolumeID) (wrap64 (CapacityCYL vol * cylinderSizeInBytes))
        (addReplicationParamsToVolumeAttributes prefix remoteSymID Metro remoteVolumeID localRDFGrpNo remoteRDFGrpNo attributes)
        (req_Source req) topology).
Definition both_sites : list (gmap string string) :=
  buildMetroAccessibleTopology (Creator.StorageArrays o) DriverName (req_Preferred req) symID remoteSymID.

Definition fill (pl : metro_plan) (vol : Volume) (c : C) : M W (result error unit) :=
  fill_srdf (Creator.ClusterPrefix o) (content pl) (srcVol pl) (Some vol) symID localProtectionGroupID localRDFGrpNo (p_bias p) reqID true
    (isV4OrAbove symID c) c.

(** One volume of the list of those with the identifier. *)
Definition examine (pl : metro_plan) (c : C) (volumeID : string) (s : search) : M W (search + result error csi_Volume) :=
  let* r := lift (GetVolumeByID c symID volumeID) in
  match r with
  | Err e => ret (inr (Err (statusError Internal ("Error fetching volume for idempotence check: " ++ Error e))))
  | Ok vol =>
      if decide (StorageGroupIDList vol = []) then ret (inr (Err (no_groups volumeID)))
      else
        let '(matchesStorageGroup, group) := match_group (s_group s) (StorageGroupIDList vol) in
        let s := mkSearch (Some vol) group (alreadyExists s) (isLocalVolumePresent s) in
        let present := mkSearch (Some vol) group (alreadyExists s) true in
        if matchesStorageGroup && volumeIdentifiersMatch (volumeIdentifier pl) (VolumeIdentifier vol) then
          if negb (CapacityCYL vol =? requiredCylinders pl) then ret (inl (mkSearch (Some vol) group true (isLocalVolumePresent s)))
          else
            let* remote := remote_of symID localRDFGrpNo (Pmax.VolumeID vol) c in
            match remote with
            | Err e => ret (inr (Err e))
            | Ok remoteVolumeID =>
                if decide (remoteVolumeID = "") then ret (inl present)
                else
                  let* r := lift (GetVolumeByID c remoteSymID remoteVolumeID) in
                  match r with
                  | Err e => ret (inr (Err (statusError Internal ("Error fetching remote volume for idempotence check: " ++ Error e))))
                  | Ok remoteVol =>
                      let* e := syncRemoteVolumeIdentifierWithRetryFromVolume remoteIdentifierHTTPStatus remoteSymID remoteVolumeID (VolumeIdentifier vol) remoteVol c in
                      match e with
                      | Some e => ret (inr (Err e))
                      | None =>
                          if (List.length (StorageGroupIDList remoteVol) <? 2)%nat then ret (inl present)
                          else
                            let* r :=
                              let? _ := if decide (volContent (content pl) = "") then ok tt else fill pl vol c in
                              respond pl group vol remoteVolumeID both_sites in
                            ret (inr r)
                      end
                  end
            end
        else ret (inl s)
  end.

(** The operation that pairs the volume once the remote array is back. *)
Definition pairing_operation (pl : metro_plan) (vol : Volume) : DeferredOperation :=
  mkOp "" OpMetroPairing (handle pl vol "") remoteSymID localRDFGrpNo localProtectionGroupID "" 0 0 "" remoteRDFGrpNo remoteProtectionGroupID
    (p_remoteSRPID p) (p_remoteServiceLevel p) (Float64bits (Volume_CapacityGB vol)) (CapacityCYL vol) (req_Name req) (p_namespace p) Metro symID
    driverName instanceUID "".

(** The volume leaves the protected group and is answered without its copy, but only when
    its pairing has been queued; otherwise it is deleted again. *)
Definition degrade (pl : metro_plan) (storageGroupName : string) (vol : Volume) (c : C) : M W (result error csi_Volume) :=
  let* _ := lift (RemoveVolumesFromStorageGroup c symID localProtectionGroupID true [Pmax.VolumeID vol]) in
  let* e := deferOperation (pairing_operation pl vol) in
  match e with
  | Some e =>
      let* _ := lift (DeleteVolume c symID (Pmax.VolumeID vol)) in
      fail (statusError Internal ("Failed to queue Metro re-pairing operation: " ++ Error e ++ ". Local volume rolled back."))
  | None => respond pl storageGroupName vol "" []
  end.

(** remoteUnreachable: known before the group is protected, or found out when that fails. *)
Definition protect_or_degrade (vol : Volume) (c : C) : M W (result error bool) :=
  let? unreachable :=
    if isMetroSiteFailureHandlingEnabled then
      do? logMetroStateCheck symID remoteSymID localRDFGrpNo remoteRDFGrpNo in
      let* down := Publish.get (λ w, SiteUnreachable w remoteSymID) in ok down
    else ok false in
  if unreachable then ok true
  else
    let* r := ProtectStorageGroup symID remoteSymID localProtectionGroupID remoteProtectionGroupID localRDFGrpNo Metro reqID
      (bool_decide (p_bias p = "true")) c in
    match r with
    | Ok _ => ok false
    | Err e =>
        let* down := Publish.get (λ w, SiteUnreachable w remoteSymID) in
        if isMetroSiteFailureHandlingEnabled && (Capacity.isConnectivityError (Some (errorClass e)) || down) then ok true
        else
          let* _ := lift (RemoveVolumesFromStorageGroup c symID localProtectionGroupID true [Pmax.VolumeID vol]) in fail e
    end.

(** The copy on the remote array gets its group and its name, and the volume its content. *)
Definition finish (pl : metro_plan) (storageGroupName : string) (vol : Volume) (c : C) : M W (result error csi_Volume) :=
  let? remote := GetRemoteVolumeID symID localRDFGrpNo (Pmax.VolumeID vol) c in
  let remoteVolumeID := remote.1 in
  do? reset_srp remoteSymID remoteProtectionGroupID c in
  do? lift (AddVolumesToStorageGroupS c remoteSymID remoteStorageGroupName true [remoteVolumeID])
    orelse (λ e, statusError Internal ("Could not add volume in SG on R2: " ++ remoteVolumeID ++ ": " ++ Error e)) in
  do? syncRemoteVolumeIdentifierWithRetry remoteIdentifierHTTPStatus remoteSymID remoteVolumeID (VolumeIdentifier vol) c in
  let? _ := fill pl vol c in
  respond pl storageGroupName vol remoteVolumeID both_sites.

Definition create_found (pl : metro_plan) (isSGUnprotected : bool) (s : search) (c : C) : M W (result error csi_Volume) :=
  if alreadyExists s then fail (size_differs (req_Name req))
  else
    let? vol :=
      if isLocalVolumePresent s then let* vol := or_panic (s_vol s) in ok vol
      else create_volume symID (s_group s) (volumeIdentifier pl) (req_Name req) (requiredCylinders pl) (req_Parameters req) c in
    let? _ := join_protected symID localProtectionGroupID remoteSymID remoteProtectionGroupID localRDFGrpNo Metro reqID vol c in
    let? remoteUnreachable := if isSGUnprotected then protect_or_degrade vol c else ok false in
    if remoteUnreachable then degrade pl (s_group s) vol c else finish pl (s_group s) vol c.

Definition createMetroVolume : M W (result error csi_Volume) :=
  let? c := GetPowerMaxClient symID remoteSymID orelse (λ e, statusError NotFound (Error e)) in
  let? pl := plan_metro c in
  let? isSGUnprotected := ensure_protected symID localProtectionGroupID localRDFGrpNo Metro reqID c in
  let limits := host_limits (p_hostMBsec p) (p_hostIOsec p) (p_hostDynDist p) in
  do? ensure_group symID local_group_name (p_storagePoolID p) (p_serviceLevel p) (p_thick p) limits c in
  do? ensure_group remoteSymID remoteStorageGroupName (p_remoteSRPID p) (p_remoteServiceLevel p) (p_thick p) limits c in
  let? volumeIDList := lift (GetVolumeIDList c symID (volumeIdentifier pl) false)
    orelse (λ e, statusError Internal ("Error looking up volume for idempotence check: " ++ Error e)) in
  let* found := forM (examine pl c) volumeIDList (mkSearch None local_group_name false false) in
  match found with
  | inr answer => ret answer
  | inl s => create_found pl isSGUnprotected s c
  end.

(** ** Theorems *)
Definition headers : gmap string (list string) := Creator.addMetaData (req_Parameters req).
Definition metro_id (identifier dev remoteDev : string) : string :=
  identifier ++ "-" ++ symID ++ ":" ++ remoteSymID ++ "-" ++ dev ++ ":" ++ remoteDev.

(** The device has a copy that the array names, and the copy is in its group on the remote array. *)
Definition paired (c : C) (pl : metro_plan) (dev : string) (resp : csi_Volume) : Prop :=
  ∃ pair, answers (RepRequests.GetRDFDevicePairInfo (W := W) c symID localRDFGrpNo dev) (Ok pair)
    ∧ resp_VolumeId resp = metro_id (volumeIdentifier pl) dev (RepRequests.RemoteVolumeName pair)
    ∧ (answers (AddVolumesToStorageGroupS (W := W) c remoteSymID remoteStorageGroupName true [RepRequests.RemoteVolumeName pair]) None
       ∨ ∃ v, answers (GetVolumeByID (W := W) c remoteSymID (RepRequests.RemoteVolumeName pair)) (Ok v) ∧ (2 <= List.length (StorageGroupIDList v))%nat).
(** The pairing of the device has been queued. *)
Definition queued (pl : metro_plan) (dev : string) (resp : csi_Volume) : Prop :=
  isMetroSiteFailureHandlingEnabled = true ∧ resp_VolumeId resp = metro_id (volumeIdentifier pl) dev ""
  ∧ ∃ vol w w', Pmax.VolumeID vol = dev ∧ deferOperation (pairing_operation pl vol) w = Some (None, w').

(** The volume has the name of the plan, or that with a tenant in front. *)
Abbreviation metro_provided c pl := (provided (W := W) c symID local_group_name (volumeIdentifier pl)
  (λ name, volumeIdentifiersMatch (volumeIdentifier pl) name = true) (requiredCylinders pl) headers).
Definition metro_answer (c : C) (pl : metro_plan) (r : result error csi_Volume) : Prop :=
  match r with
  | Err _ => True
  | Ok resp =>
      ∃ name dev, (metro_provided c pl name dev ∨ mistaken (W := W) c symID (volumeIdentifier pl) (metro_provided c pl) name dev)
        ∧ (paired c pl dev resp ∨ queued pl dev resp)
  end.

Lemma respond_id pl group vol remote topology :
  post (respond pl group vol remote topology) (λ r, ∃ resp, r = Ok resp ∧ resp_VolumeId resp = metro_id (volumeIdentifier pl) (Pmax.VolumeID vol) remote).
Proof. apply post_skip. intros now. apply post_ret. by eexists. Qed.

Lemma remote_of_pair sym rdf dev (c : C) :
  post (remote_of (W := W) sym rdf dev c)
    (λ r, match r with Ok remote => remote ≠ "" → ∃ pair, answers (RepRequests.GetRDFDevicePairInfo (W := W) c sym rdf dev) (Ok pair) ∧ remote = RepRequests.RemoteVolumeName pair
          | Err _ => True end).
Proof.
  unfold remote_of, GetRemoteVolumeID. eapply post_bind.
  - eapply (post_bind _ _ _ (λ r, match r with Ok p => ∃ pair, answers (RepRequests.GetRDFDevicePairInfo (W := W) c sym rdf dev) (Ok pair) ∧ p.1 = RepRequests.RemoteVolumeName pair
                             | Err _ => True end)); [apply lift_answers|].
    intros [pair|e] Ha; apply post_ret; [by exists pair|done].
  - intros [[remote g]|e] Hr; [by apply post_ret|]. destruct (Contains _ _); by apply post_ret.
Qed.

Lemma examine_ok pl (c : C) id s :
  Contains (s_group s) local_group_name = true →
  post (examine pl c id s) (λ r, match r with
    | inl s' => fetched (λ id v, answers (GetVolumeByID (W := W) c symID id) (Ok v)) (λ v, metro_provided c pl (VolumeIdentifier v) (Pmax.VolumeID v))
                  local_group_name id s s'
    | inr r => metro_answer c pl r end).
Proof.
  intros Hg. unfold examine. eapply post_bind; [apply lift_answers|]. intros [vol|e] Hvol; [|by apply post_ret].
  case_decide; [by apply post_ret|]. destruct (match_group _ _) as [m g] eqn:Em. cbn [s_vol s_group alreadyExists isLocalVolumePresent].
  destruct (match_group_spec _ _ _ _ _ Em Hg) as [Hg' Hm].
  destruct (m && _) eqn:Hc; [|apply post_ret; split; [done|]; exists vol; by split_and!; [..|left]].
  apply andb_prop in Hc as [-> Hid]. destruct (Z.eqb_spec (CapacityCYL vol) (requiredCylinders pl)) as [Hn|]; cbn [negb];
    [|apply post_ret; split; [done|]; exists vol; by split_and!; [..|left]].
  assert (metro_provided c pl (VolumeIdentifier vol) (Pmax.VolumeID vol)) as Hprov.
  { eapply provided_found; [exact Hvol|done|by apply Hm|done]. }
  eapply post_bind; [apply remote_of_pair|]. intros [remote|e] Hr; [|by apply post_ret].
  case_decide as Hrem; [apply post_ret; split; [done|]; exists vol; by split_and!; [..|right]|]. destruct (Hr Hrem) as (pair & Hpair & ->).
  eapply post_bind; [apply lift_answers|]. intros [rvol|e] Hrvol; [|by apply post_ret].
  apply post_skip. intros [e|]; [by apply post_ret|].
  destruct (Nat.ltb_spec (List.length (StorageGroupIDList rvol)) 2); [apply post_ret; split; [done|]; exists vol; by split_and!; [..|right]|].
  eapply (post_bind _ _ (metro_answer c pl)); [|intros r Hr'; by apply post_ret].
  apply post_try_skip; [done|]. intros _. eapply post_weaken; [apply respond_id|]. intros r (resp & -> & Hresp).
  exists (VolumeIdentifier vol), (Pmax.VolumeID vol). split; [by left|]. left. exists pair. split; [done|]. split; [done|]. right. by exists rvol.
Qed.

Lemma finish_ok pl group vol (c : C) :
  post (finish pl group vol c) (λ r, match r with Ok resp => paired c pl (Pmax.VolumeID vol) resp | Err _ => True end).
Proof.
  unfold finish, GetRemoteVolumeID. eapply (post_try _ _ _ (λ p, ∃ pair, answers (RepRequests.GetRDFDevicePairInfo (W := W) c symID localRDFGrpNo (Pmax.VolumeID vol)) (Ok pair) ∧ p.1 = RepRequests.RemoteVolumeName pair)).
  - eapply post_bind; [apply lift_answers|]. intros [pair|e] Ha; apply post_ret; [by exists pair|done].
  - done.
  - intros [remote ?] (pair & Hpair & Er). cbn [fst] in *. subst remote. apply post_check; [done|]. unfold check.
    eapply post_bind; [apply lift_answers|]. intros [e|] Hadd; [by apply post_ret|].
    apply post_check; [done|]. apply post_try_skip; [done|]. intros _. eapply post_weaken; [apply respond_id|].
    intros r (resp & -> & Hresp). exists pair. split; [done|]. split; [done|]. by left.
Qed.

Lemma degrade_ok pl group vol (c : C) :
  isMetroSiteFailureHandlingEnabled = true →
  post (degrade pl group vol c) (λ r, match r with Ok resp => queued pl (Pmax.VolumeID vol) resp | Err _ => True end).
Proof.
  intros He. apply post_skip. intros _. apply (post_bind _ _ (λ e, e = None → ∃ w w', deferOperation (pairing_operation pl vol) w = Some (None, w'))).
  - intros w e w' E ->. by exists w, w'.
  - intros [e|] Hq; [apply post_skip; intros _; by apply post_ret|].
    eapply post_weaken; [apply respond_id|]. intros r (resp & -> & Hresp). split; [done|]. split; [done|].
    destruct (Hq eq_refl) as (w & w' & E). by exists vol, w, w'.
Qed.

Lemma protect_or_degrade_enabled vol (c : C) :
  post (protect_or_degrade vol c) (λ r, match r with Ok true => isMetroSiteFailureHandlingEnabled = true | _ => True end).
Proof.
  unfold protect_or_degrade. eapply (post_try _ _ _ (λ b, b = true → isMetroSiteFailureHandlingEnabled = true)).
  - destruct isMetroSiteFailureHandlingEnabled; [apply post_check; [done|]; apply post_skip; intros b; by apply post_ret|by apply post_ret].
  - done.
  - intros [|] Hb; [apply post_ret; by apply Hb|]. apply post_skip. intros [u|e]; [by apply post_ret|].
    apply post_skip. intros down. destruct (_ && _) eqn:E; [apply post_ret; by destruct (andb_prop _ _ E)|].
    apply post_skip. intros _. by apply post_ret.
Qed.

Lemma create_found_ok pl unprotected s (c : C) :
  chosen_search (W := W) c symID (volumeIdentifier pl) (metro_provided c pl) local_group_name s →
  post (create_found pl unprotected s c) (metro_answer c pl).
Proof.
  intros [Hg Hpres]. unfold create_found. destruct (alreadyExists s); [by apply post_ret|].
  eapply (post_try _ _ _ (λ vol, metro_provided c pl (VolumeIdentifier vol) (Pmax.VolumeID vol)
    ∨ mistaken (W := W) c symID (volumeIdentifier pl) (metro_provided c pl) (VolumeIdentifier vol) (Pmax.VolumeID vol))).
  - destruct (isLocalVolumePresent s); [|eapply post_weaken; [by apply create_volume_provided|]; intros [v|e] Hv; [by left|done]]. destruct (Hpres eq_refl) as (v & -> & Hv). by apply post_ret.
  - done.
  - intros vol Hvol. apply post_try_skip; [done|]. intros _.
    eapply (post_try _ _ _ (λ b, b = true → isMetroSiteFailureHandlingEnabled = true)); [|done|].
    { destruct unprotected; [|by apply post_ret]. eapply post_weaken; [apply protect_or_degrade_enabled|]. intros [[|]|e] Hb; done. }
    intros [|] Hb; eapply post_weaken; [by apply degrade_ok, Hb| |apply finish_ok|]; intros [resp|e] Hr; try done;
      exists (VolumeIdentifier vol), (Pmax.VolumeID vol); auto.
Qed.

Definition well_planned (c : C) (pl : metro_plan) : Prop :=
  sized (req_Range req) (requiredCylinders pl)
  ∧ buildVolumeIdentifier (Creator.ClusterPrefix o) (req_Name req) (p_namespace p) = Some (volumeIdentifier pl)
  ∧ fits (W := W) c symID (content pl) (requiredCylinders pl) (srcVol pl).

Lemma plan_metro_ok (c : C) : post (plan_metro c) (λ r, match r with Ok pl => well_planned c pl | Err _ => True end).
Proof.
  unfold plan_metro. eapply (post_try _ _ _ (sized (req_Range req))); [apply validated_size|done|]. intros n Hn.
  apply post_try_skip; [done|]. intros _. apply post_try_skip; [done|]. intros source.
  eapply (post_try _ _ _ (fits (W := W) c symID source n)); [apply source_fits|done|]. intros v Hv.
  destruct (match req_Capabilities req with Some _ => _ | None => _ end); [by apply post_ret|]. case_decide; [by apply post_ret|].
  destruct (buildVolumeIdentifier _ _ _) as [identifier|] eqn:E; [by apply post_ret|by apply post_panic].
Qed.

End creator.

(** ** Examples *)
Import SimArray SimProvision.
#[local] Existing Instance SimProvision.single_pmax.
#[local] Existing Instance SimMasking.sim_masking.
#[local] Existing Instance Snapshots.sim_create.
#[local] Existing Instance Snapshots.sim_snap.
#[local] Existing Instance Snapshots.sim_license.
#[local] Existing Instance Snapshots.sim_cleaner.
#[local] Existing Instance RepRequests.sim_rdf_client.
#[local] Existing Instance Addons.sim_addons.
#[local] Existing Instance SimProvision.sim_provision.
#[local] Existing Instance Deletion.sim_rename.
#[local] Existing Instance Sizes.sim_pools.
#[local] Existing Instance SimProvision.map_order.

Definition demo_request : CreateVolumeRequest :=
  Creator.mkCreateRequest "pmax-0123456789" ∅ None (Some (Sizes.mkRange (10 * Sizes.GB) 0)) None None.
Definition demo_params : MetroParams :=
  mkMetroParams "SRP_1" "000120000548" "" "Gold" "" "000120000549" "1" "2" "Gold" "SRP_1" "ns" "" "" "" "" "" "".
(** The remote device is there, named by nobody yet. *)
Definition demo_world : Sim := sim [mkVolume "00002" "" ["csi-rep-sg-ns-2-METRO"] false false "" 0 5462 [2] fzero] (mkStorageGroupRDFG ["R1"] ["ActiveActive"]).

(** Whether failures of sites are handled, whether the remote site is down, and the error of the queue. *)
Definition demo_on (P : Pmax Sim string) (p : MetroParams) (enabled down : bool) (queue : option error) : M Sim (result error csi_Volume) :=
  createMetroVolume (H := P) format_now options "csi-powermax.dellemc.com" "csi" "uid" (λ _ _, ret (Ok "c")) enabled (λ _ _ _ _, ret None) (λ _ _, down)
    (λ op w, Some (queue, log ("defer " ++ Journal.VolumeID op) w)) Capacity.plain_error (λ _, 0) "1" demo_request p.
Definition demo := demo_on single_pmax demo_params.
Definition outcome (r : option (result error csi_Volume * Sim)) : option (result string string * list string) :=
  match r with
  | Some (Ok v, w) => Some (Ok (resp_VolumeId v), sim_log w)
  | Some (Err e, w) => Some (Err (Error e), sim_log w)
  | None => None
  end.

Definition paired_id := "csi-ABC-pmax-0123456789-ns-000120000548:000120000549-00001:00002".


(** Without the remote site the volume is answered when its pairing was queued, and deleted when not. *)
Example degraded_queued :
  outcome (demo true true None demo_world)
  = Some (Ok "csi-ABC-pmax-0123456789-ns-000120000548:000120000549-00001:",
      ["remove from csi-rep-sg-1-METRO"; "defer csi-ABC-pmax-0123456789-ns-000120000548:000120000549-00001:"])
  ∧ outcome (demo true true (Some (errorString "full")) demo_world)
    = Some (Err "rpc error: code = Internal desc = Failed to queue Metro re-pairing operation: full. Local volume rolled back.",
        ["remove from csi-rep-sg-1-METRO"; "defer csi-ABC-pmax-0123456789-ns-000120000548:000120000549-00001:"; "delete 00001"]).
Proof. split; vm_compute; reflexivity. Qed.

(** With a storage group in the storage class the group of the copy has no name. *)
Example named_group_remote_unnamed :
  outcome (demo_on single_pmax (mkMetroParams "SRP_1" "000120000548" "my-SG" "Gold" "" "000120000549" "1" "2" "Gold" "SRP_1" "ns" "" "" "" "" "" "")
             true false None demo_world)
  = Some (Ok paired_id, ["delete SG csi-rep-sg-2-METRO"; "replica csi-rep-sg-1-METRO"; "add to "]).
Proof. vm_compute. reflexivity. Qed.

(** The volume of the request is there, with a copy that is not in its group yet; another volume
    with the identifier, in another group and of another size, is listed after it and taken instead. *)
Definition two_volumes : Sim :=
  let v id groups n := mkVolume id "csi-ABC-pmax-0123456789-ns" groups false false "" 0 n [1] fzero in
  sim [v "00001" ["csi-ABC-Gold-SRP_1-SG"] 5462; v "00003" ["other"] 1; mkVolume "00002" "remote" ["csi-rep-sg-ns-2-METRO"] false false "" 0 5462 [2] fzero]
    (mkStorageGroupRDFG ["R1"] ["ActiveActive"]).
Example other_volume_taken :
  fst <$> outcome (demo_on SimArray.sim_pmax demo_params true false None two_volumes)
  = Some (Ok "csi-ABC-pmax-0123456789-ns-000120000548:000120000549-00003:00002").
Proof. vm_compute. reflexivity. Qed.
End MetroCreator.
