(* ===== verification/LegacyCreator.v ===== *)
(** * Creation of volumes over the older interface

    Models legacyVolumeCreator of service/volume_creator.go and doCreateVolume of
    service/controller.go, which chooses between it and the creator of the 10.4 interface.
    The volume is looked for among those with its identifier, in one of two ways by the
    version of the array; when it is not there it is created in its storage group, put into
    its protected group and filled from its source. Metro volumes are left to [MetroCreator],
    file systems to [Files]. *)

From stdpp Require Import base gmap strings list.
From Stdlib Require Import ZArith Lia Ascii SpecFloat.
From S2P Require Import Prelude GoLib Ordering Pmax SimArray SimMasking Masking Trace Handler PowerMax VolumeID Replication Rpc Publish RepRequests Sizes Files Creator Snapshots Addons PortGroups Protected Deletion Journal Capacity Provision MetroCreator.

Module LegacyCreator.
Import Masking Provision.
Import Sizes(PoolClient, PoolCache, StorageArrayConfig, Labels, validateVolSize, validateStoragePoolID, resolveParameter, getDynamicSG, cylinderSizeInBytes, GetRequiredBytes, int64_of_float).
Import Creator(CreateClient, LicenseCache, CreateVolumeRequest, req_Name, req_Parameters, req_Capabilities, req_Range, req_Source, req_Preferred, csi_Volume, mkCsiVolume, resp_VolumeId, buildVolumeIdentifier, resolveStorageGroupName, buildVolumeContext, path_join).
Import Snapshots(SnapClient, SnapCleaner).
Import Deletion(RenameClient).
Import RepRequests(RdfClient, GetRemoteVolumeID, LocalRDFGroupParam, RemoteRDFGroupParam, RemoteSymIDParam, ReplicationModeParam, RemoteServiceLevelParam, RemoteSRPParam).
Import Addons(AddonsClient, or_panic).
Import Publish(accTypeIsBlock, accTypeIsNFS).
Import Replication(Async, Sync, Metro).
Import PortGroups(isV4OrAbove).
Import Files(FileClient, CreateFileSystem, MiBSizeInBytes, StoragePoolParam).
Open Scope go_scope.
Open Scope handler_scope.
Open Scope string_scope.
Open Scope Z_scope.

Definition NASServerName := "nasServer".
Definition AllowRootParam := "allowRoot".
Definition BiasParam := "Bias".

(** Both arrays have labels. *)
Definition hasMetroSiteLabels (StorageArrays : gmap string StorageArrayConfig) (localSymID remoteSymID : string) : bool :=
  match StorageArrays !! localSymID, StorageArrays !! remoteSymID with
  | Some l, Some r => negb (bool_decide (Labels l = ∅)) && negb (bool_decide (Labels r = ∅))
  | _, _ => false
  end.
Definition addZoneLabelsToVolumeAttributes (StorageArrays : gmap string StorageArrayConfig) (arrayID : string) (attributes : gmap string string)
    : gmap string string := match StorageArrays !! arrayID with Some a => Labels a ∪ attributes | None => attributes end.

(** The replication a storage class asks for. *)
Record replication := mkReplication {
  remoteSymID : string;
  localRDFGrpNo : string;
  remoteRDFGrpNo : string;
  remoteServiceLevel : string;
  remoteSRPID : string;
  repMode : string;
  bias : string;
}.

Section creator.
Context {W C : Type} `{Pmax W C} `{MaskingClient W C} `{CreateClient W C} `{SnapClient W C} `{LicenseCache W} `{SnapCleaner W}.
Context `{RdfClient W C} `{AddonsClient W C} `{ProvisionClient W C} `{RenameClient W C} `{PoolClient W C} `{PoolCache W} `{FileClient W C}.
Variable FormatNow : W → string * W.
Variable o : Creator.Opts.
Variable IsVsphereEnabled : bool.
Variables (storagePoolCacheDuration sgVolumeLimit : Z).
Variable GetPowerMaxClient : string → M W (result error C).
(** createMetroVolume, modelled in [MetroCreator], for the request. *)
Variable createMetroVolume : MetroCreator.MetroParams → M W (result error csi_Volume).

(** The fields of the creator. *)
Variables (reqID symmetrixID : string) (pmaxClient : C) (symmIDFoundInAZ : bool) (apiVersion : Z).
Variable req : CreateVolumeRequest.

Abbreviation params := (req_Parameters req).
Definition param (key : string) : string := default "" (params !! key).
Definition rep_param (key : string) : string := param (path_join (Creator.ReplicationPrefix o) key).
Definition resolve (key : string) : string := resolveParameter (Creator.StorageArrays o) params symmetrixID key "".
Definition storagePoolID : string := resolve StoragePoolParam.
Definition serviceLevel : string := resolveParameter (Creator.StorageArrays o) params symmetrixID Files.ServiceLevelParam "Optimized".
Definition namespace : string := resolveParameter (Creator.StorageArrays o) params "" Creator.CSIPVCNamespace "".
Definition clusterPrefix : string := Creator.ClusterPrefix o.
Definition limits : option RepRequests.HostIOLimits :=
  host_limits (resolve Creator.HostIOLimitMBSecParam) (resolve Creator.HostIOLimitIOSecParam) (resolve Creator.DynamicDistributionParam).

(** ** Parameters *)
Definition check_parameters : M W (result error bool) :=
  do? validateStoragePoolID storagePoolCacheDuration symmetrixID storagePoolID pmaxClient orelse (λ e, statusError InvalidArgument (Error e)) in
  if negb (Creator.isValidSLO serviceLevel) then invalid "An invalid Service Level parameter was specified"
  else if Creator.dynamicSGEnabled o && (apiVersion <? 101) then
    fail (statusError Internal ("Dynamic SG is enabled, but not supported for array " ++ symmetrixID ++ " with version " ++ Itoa apiVersion
            ++ ". Minimum expected array version is 10.1"))
  else match req_Capabilities req with
       | None => ok false
       | Some vcs =>
           if accTypeIsBlock vcs && negb (Creator.EnableBlock o) then invalid "Block Volume Capability is not supported"
           else if accTypeIsBlock vcs && accTypeIsNFS vcs then invalid "NFS with Block is not supported"
           else ok (accTypeIsNFS vcs)
       end.

(** RDF groups of the storage class, or ones that fit the arrays. *)
Definition rdf_groups (remote mode : string) : M W (result error (string * string)) :=
  let l := rep_param LocalRDFGroupParam in
  let r := rep_param RemoteRDFGroupParam in
  if decide (l = "" ∧ r = "") then
    let? groups := Replication.GetOrCreateRDFGroup clusterPrefix pmaxClient symmetrixID remote mode namespace
      orelse (λ e, statusError NotFound ("Received error get/create RDFG, err: " ++ Error e)) in
    if decide (groups.1 = "" ∨ groups.2 = "") then fail (statusError Unavailable "Can not fetch RDF Group for volume creation get/create RDFG")
    else ok groups
  else ok (l, r).

Definition replication_of (useNFS : bool) : M W (result error (option replication)) :=
  if decide (rep_param Creator.RepEnabledParam ≠ "true") then ok None
  else if IsVsphereEnabled then fail (statusError Unavailable "Replication on a vSphere volume is not supported")
  else if useNFS then fail (statusError Unavailable "Replication on a NFS volume is not supported")
  else
    let remote := rep_param RemoteSymIDParam in
    let mode := rep_param ReplicationModeParam in
    if symmIDFoundInAZ && bool_decide (mode = Metro) && negb (hasMetroSiteLabels (Creator.StorageArrays o) symmetrixID remote) then
      invalid "The use of Availability Zones with Metro volumes requires site labels on both arrays"
    else
      let? groups := rdf_groups remote mode in
      ok (Some (mkReplication remote groups.1 groups.2 (rep_param RemoteServiceLevelParam) (rep_param RemoteSRPParam) mode (rep_param BiasParam))).

Definition metro_params (r : replication) : MetroCreator.MetroParams :=
  MetroCreator.mkMetroParams storagePoolID symmetrixID (resolve Creator.StorageGroupParam) serviceLevel (param Creator.ThickVolumesParam)
    (remoteSymID r) (localRDFGrpNo r) (remoteRDFGrpNo r) (remoteServiceLevel r) (remoteSRPID r) namespace (resolve Creator.ApplicationPrefixParam)
    (bias r) (resolve Creator.HostLimitNameParam) (resolve Creator.HostIOLimitMBSecParam) (resolve Creator.HostIOLimitIOSecParam)
    (resolve Creator.DynamicDistributionParam).

(** ** The plan *)
Record plan := mkPlan {
  requiredCylinders : Z;
  content : Content;
  srcVol : option Volume;
  volumeIdentifier : string;
}.

Definition plan_of (useNFS : bool) : M W (result error plan) :=
  let? n := validateVolSize (req_Range req) symmetrixID storagePoolID pmaxClient in
  if useNFS && bool_decide (is_Some (req_Source req)) then fail (statusError Unavailable "Cloning on a NFS volume is not supported")
  else
    let? source := read_source (req_Source req) pmaxClient in
    let? srcVol := source_volume source symmetrixID n pmaxClient in
    if decide (req_Name req = "") then invalid "Name cannot be empty"
    else match buildVolumeIdentifier clusterPrefix (req_Name req) namespace with
         | Some identifier => ok (mkPlan n source srcVol identifier)
         | None => panic
         end.

Definition create_file_system (pl : plan) : M W (result error csi_Volume) :=
  let reqSizeInMiB := Z.quot (wrap64 (GetRequiredBytes (req_Range req) + MiBSizeInBytes - 1)) MiBSizeInBytes in
  let? v := CreateFileSystem (req_Preferred req) symmetrixID storagePoolID serviceLevel (param NASServerName) (volumeIdentifier pl)
    (param AllowRootParam) reqSizeInMiB pmaxClient in
  ok (mkCsiVolume (Files.Volume_Id v) (Files.CapacityBytes v) (Files.VolumeContext v) None (Files.AccessibleTopology v)).

(** The storage group, and whether it has to be created. *)
Definition group_of : M W (result error (string * bool)) :=
  let base := resolveStorageGroupName (resolve Creator.StorageGroupParam) clusterPrefix (resolve Creator.ApplicationPrefixParam) serviceLevel
    storagePoolID (resolve Creator.HostLimitNameParam) in
  if Creator.dynamicSGEnabled o then
    let? g := getDynamicSG GetPowerMaxClient sgVolumeLimit symmetrixID base orelse (λ e, statusError Internal (Error e)) in ok g
  else ok (base, false).
Definition needs_group (name : string) (proposed : bool) : M W bool :=
  if Creator.dynamicSGEnabled o then ret proposed
  else let* sg := lift (GetStorageGroup pmaxClient symmetrixID name) in ret match sg with Ok _ => false | Err _ => true end.

Definition local_protected (r : replication) : string := Replication.buildProtectionGroupID namespace (localRDFGrpNo r) (repMode r).
Definition remote_protected (r : replication) : string := Replication.buildProtectionGroupID namespace (remoteRDFGrpNo r) (repMode r).

(** ** Answers *)
Definition attributes (pl : plan) (storageGroupName : string) (capacity : float64) (now : string) : gmap string string :=
  buildVolumeContext (Creator.ReplicationContextPrefix o) symmetrixID serviceLevel storagePoolID storageGroupName capacity (volContent (content pl)) now.
Definition with_replication (rep : option replication) (remoteVolumeID : string) (a : gmap string string) : gmap string string :=
  match rep with
  | Some r =>
      addReplicationParamsToVolumeAttributes (Creator.ReplicationContextPrefix o) (remoteSymID r) (repMode r) remoteVolumeID (localRDFGrpNo r) (remoteRDFGrpNo r) a
  | None => a
  end.
Definition answer (identifier devID : string) (cylinders : Z) (a : gmap string string) : csi_Volume :=
  mkCsiVolume (identifier ++ "-" ++ symmetrixID ++ "-" ++ devID) (wrap64 (cylinders * cylinderSizeInBytes)) a (req_Source req)
    (default [] (req_Preferred req)).

(** The identifier, or one with a tenant in front. *)
Definition has_identifier (pl : plan) (identifier : string) : bool :=
  bool_decide (identifier = volumeIdentifier pl) || Contains identifier (volumeIdentifier pl).

(** Fills the volume [tgt], or with replication the volume behind the pointer [vol]. *)
Definition fill (pl : plan) (rep : option replication) (vol : option Volume) (tgt : string) (v4 : M W bool) : M W (result error unit) :=
  let source := src_Array (content pl) in
  match rep with
  | Some r => fill_srdf clusterPrefix (content pl) (srcVol pl) vol source (local_protected r) (localRDFGrpNo r) (bias r) reqID false v4 pmaxClient
  | None => fill_local clusterPrefix (content pl) (srcVol pl) source tgt reqID pmaxClient
  end.
Definition source_v4 (pl : plan) : M W bool := isV4OrAbove (src_Array (content pl)) pmaxClient.

(** The remote device of a volume that exists already, when volumes are replicated. *)
Definition replicated (rep : option replication) (devID : string) : M W (result error (option string)) :=
  match rep with
  | None => ok None
  | Some r => let? remote := remote_of symmetrixID (localRDFGrpNo r) devID pmaxClient in ok (Some remote)
  end.

(** ** The search with the enhanced interface *)

(** The local volume without a copy, as it is rebuilt from the list. *)
Definition local_volume (v : ListedVolume) : Volume :=
  mkVolume (lv_ID v) (lv_Identifier v) (List.filter (λ g, negb (bool_decide (g = ""))) (lv_Groups v)) false false "" 0 0 [] (lv_CapCyl v).

Definition examine_listed (pl : plan) (rep : option replication) (v : ListedVolume) (s : search) : M W (search + result error csi_Volume) :=
  if decide (lv_Groups v = []) then ret (inr (Err (no_groups (lv_ID v))))
  else
    let '(matchesStorageGroup, group) := match_group (s_group s) (lv_Groups v) in
    if matchesStorageGroup && has_identifier pl (lv_Identifier v) then
      if negb (SFeqb (lv_CapCyl v) (float_of_Z (requiredCylinders pl))) then ret (inl (mkSearch (s_vol s) group true (isLocalVolumePresent s)))
      else
        let* remote := replicated rep (lv_ID v) in
        match remote with
        | Err e => ret (inr (Err e))
        | Ok remote =>
            if decide (remote = Some "") then ret (inl (mkSearch (Some (local_volume v)) group (alreadyExists s) true))
            else
              let* r :=
                let? _ :=
                  if decide (volContent (content pl) = "") then ok tt
                  else if decide (rep = None ∧ srcSnapID (content pl) = "" ∧ lv_ID v = "") then ok tt
                  else fill pl rep (s_vol s) (lv_ID v) (source_v4 pl) in
                let* now := lift FormatNow in
                ok (answer (lv_Identifier v) (lv_ID v) (int64_of_float (lv_CapCyl v))
                      (with_replication rep (default "" remote) (attributes pl group (lv_CapCyl v) now))) in
              ret (inr r)
        end
    else ret (inl (mkSearch (s_vol s) group (alreadyExists s) (isLocalVolumePresent s))).

(** ** The search volume by volume *)
Definition examine (pl : plan) (rep : option replication) (isV4 : bool) (volumeID : string) (s : search) : M W (search + result error csi_Volume) :=
  let* r := lift (GetVolumeByID pmaxClient symmetrixID volumeID) in
  match r with
  | Err e => ret (inr (Err (statusError Internal ("Error fetching volume for idempotence check: " ++ Error e))))
  | Ok vol =>
      if decide (StorageGroupIDList vol = []) then ret (inr (Err (no_groups volumeID)))
      else
        let '(matchesStorageGroup, group) := match_group (s_group s) (StorageGroupIDList vol) in
        if matchesStorageGroup && has_identifier pl (VolumeIdentifier vol) then
          if negb (CapacityCYL vol =? requiredCylinders pl) then ret (inl (mkSearch (Some vol) group true (isLocalVolumePresent s)))
          else
            let* remote := replicated rep (Pmax.VolumeID vol) in
            match remote with
            | Err e => ret (inr (Err e))
            | Ok remote =>
                if decide (remote = Some "") then ret (inl (mkSearch (Some vol) group (alreadyExists s) true))
                else
                  let* r :=
                    let? _ :=
                      if decide (volContent (content pl) = "") then ok tt
                      else fill pl rep (Some vol) (Pmax.VolumeID vol) (ret isV4) in
                    let* now := lift FormatNow in
                    let a := attributes pl group (Volume_CapacityGB vol) now in
                    let a := if symmIDFoundInAZ then addZoneLabelsToVolumeAttributes (Creator.StorageArrays o) symmetrixID a else a in
                    ok (answer (VolumeIdentifier vol) (Pmax.VolumeID vol) (CapacityCYL vol) (with_replication rep (default "" remote) a)) in
                  ret (inr r)
            end
        else ret (inl (mkSearch (Some vol) group (alreadyExists s) (isLocalVolumePresent s)))
  end.

Definition search_volumes (pl : plan) (rep : option replication) (isV4 : bool) (storageGroupName : string) : M W (result error (search + result error csi_Volume)) :=
  let start := mkSearch None storageGroupName false false in
  if (APIVersion103 <=? apiVersion) && isV4 then
    let? volumes := lift (GetListedVolumes pmaxClient symmetrixID (volumeIdentifier pl))
      orelse (λ e, statusError Internal ("Error  getting the volumes for idempotence check: " ++ Error e)) in
    let* found := forM (examine_listed pl rep) volumes start in ok found
  else
    let? ids := lift (GetVolumeIDList pmaxClient symmetrixID (volumeIdentifier pl) false)
      orelse (λ e, statusError Internal ("Error looking up volume for idempotence check: " ++ Error e)) in
    let* found := forM (examine pl rep isV4) ids start in ok found.

(** ** Creation *)

(** The protected group gets the volume, and its replication when it has none; a volume
    whose replication fails leaves the group again. *)
Definition replicate (r : replication) (isSGUnprotected : bool) (vol : Volume) : M W (result error unit) :=
  let? _ := join_protected symmetrixID (local_protected r) (remoteSymID r) (remote_protected r) (localRDFGrpNo r) (repMode r) reqID vol pmaxClient in
  if isSGUnprotected then
    let* e := ProtectStorageGroup symmetrixID (remoteSymID r) (local_protected r) (remote_protected r) (localRDFGrpNo r) (repMode r) reqID false pmaxClient in
    match e with
    | Ok _ => ok tt
    | Err e =>
        let* _ := lift (RemoveVolumesFromStorageGroup pmaxClient symmetrixID (local_protected r) true [Pmax.VolumeID vol]) in fail e
    end
  else ok tt.

Definition respond (pl : plan) (rep : option replication) (storageGroupName : string) (vol : Volume) : M W (result error csi_Volume) :=
  let volumeID := VolumeIdentifier vol ++ "-" ++ symmetrixID ++ "-" ++ Pmax.VolumeID vol in
  let* now := lift FormatNow in
  let? remote :=
    match rep with
    | None => ok ""
    | Some r =>
        let? p := GetRemoteVolumeID symmetrixID (localRDFGrpNo r) (Pmax.VolumeID vol) pmaxClient
          orelse (λ e, statusError Internal ("Failed to fetch rdf pair information for (" ++ volumeID ++ ") - Error (" ++ Error e ++ ")")) in ok p.1
    end in
  ok (answer (VolumeIdentifier vol) (Pmax.VolumeID vol) (CapacityCYL vol)
        (with_replication rep remote (attributes pl storageGroupName (Volume_CapacityGB vol) now))).

Definition create_found (pl : plan) (rep : option replication) (isSGUnprotected : bool) (s : search) : M W (result error csi_Volume) :=
  if alreadyExists s then fail (size_differs (req_Name req))
  else
    let? vol :=
      if isLocalVolumePresent s then let* vol := or_panic (s_vol s) in ok vol
      else create_volume symmetrixID (s_group s) (volumeIdentifier pl) (req_Name req) (requiredCylinders pl) params pmaxClient in
    let? _ := match rep with Some r => replicate r isSGUnprotected vol | None => ok tt end in
    let? _ := fill pl rep (Some vol) (Pmax.VolumeID vol) (source_v4 pl) in
    respond pl rep (s_group s) vol.

Definition create_block (pl : plan) (rep : option replication) : M W (result error csi_Volume) :=
  let? group := group_of in
  let '(storageGroupName, proposed) := group in
  let? isSGUnprotected :=
    match rep with
    | Some r => ensure_protected symmetrixID (local_protected r) (localRDFGrpNo r) (repMode r) reqID pmaxClient
    | None => ok false
    end in
  let* needCreation := needs_group storageGroupName proposed in
  do? (if needCreation then create_group symmetrixID storageGroupName storagePoolID serviceLevel (param Creator.ThickVolumesParam) limits pmaxClient
       else ret None) in
  let* isV4 := isV4OrAbove symmetrixID pmaxClient in
  let? found := search_volumes pl rep isV4 storageGroupName in
  match found with
  | inr answer => ret answer
  | inl s => create_found pl rep isSGUnprotected s
  end.

Definition legacy_Create : M W (result error csi_Volume) :=
  let? useNFS := check_parameters in
  let? rep := replication_of useNFS in
  let create :=
    let? pl := plan_of useNFS in
    if useNFS then create_file_system pl else create_block pl rep in
  match rep with
  | Some r =>
      if decide (repMode r = Metro) then createMetroVolume (metro_params r)
      else if decide (repMode r ≠ Async ∧ repMode r ≠ Sync) then invalid ("Unsupported Replication Mode: (" ++ repMode r ++ ")")
      else create
  | None => create
  end.

(** ** Theorems *)
Definition headers : gmap string (list string) := Creator.addMetaData params.
Definition replicating : Prop := rep_param Creator.RepEnabledParam = "true".

Definition well_planned (pl : plan) : Prop :=
  sized (req_Range req) (requiredCylinders pl)
  ∧ buildVolumeIdentifier clusterPrefix (req_Name req) namespace = Some (volumeIdentifier pl)
  ∧ fits (W := W) pmaxClient symmetrixID (content pl) (requiredCylinders pl) (srcVol pl).

(** The volume of the plan, in a group of the name [base]. *)
Abbreviation provided_by pl base := (provided (W := W) pmaxClient symmetrixID base (volumeIdentifier pl)
  (λ name, has_identifier pl name = true) (requiredCylinders pl) headers).
(** The volume of the answer; with replication it can be a mistaken one. *)
Definition taken (pl : plan) (rep : option replication) (base name dev : string) : Prop :=
  provided_by pl base name dev
  ∨ (is_Some rep ∧ mistaken (W := W) pmaxClient symmetrixID (volumeIdentifier pl) (provided_by pl base) name dev).

(** The device is filled from the source, unless there is none. *)
Definition filled (pl : plan) (dev : string) : Prop :=
  volContent (content pl) = "" ∨ dev = ""
  ∨ ∃ w w', fill_local clusterPrefix (content pl) (srcVol pl) (src_Array (content pl)) dev reqID pmaxClient w = Some (Ok tt, w').
(** The array has a copy of the device. *)
Definition copied (r : replication) (dev : string) : Prop :=
  ∃ pair, answers (RepRequests.GetRDFDevicePairInfo (W := W) pmaxClient symmetrixID (localRDFGrpNo r) dev) (Ok pair).
Definition completed (pl : plan) (rep : option replication) (dev : string) : Prop :=
  match rep with None => filled pl dev | Some r => copied r dev end.

Definition legacy_answer (pl : plan) (rep : option replication) (base : string) (r : result error csi_Volume) : Prop :=
  match r with
  | Err _ => True
  | Ok resp =>
      ∃ name dev, taken pl rep base name dev ∧ resp_VolumeId resp = name ++ "-" ++ symmetrixID ++ "-" ++ dev ∧ completed pl rep dev
  end.

Lemma replicated_copied rep dev :
  post (replicated rep dev) (λ r, match r with
    | Ok None => rep = None
    | Ok (Some remote) => ∃ r, rep = Some r ∧ (remote ≠ "" → copied r dev)
    | Err _ => True end).
Proof.
  destruct rep as [r|]; [|by apply post_ret]. simpl. eapply post_bind; [apply MetroCreator.remote_of_pair|].
  intros [remote|e] Hr; apply post_ret; [|done]. exists r. split; [done|]. intros (pair & ? & _)%Hr. by exists pair.
Qed.

Lemma fill_filled pl rep vol dev v4 : post (fill pl rep vol dev v4) (λ r, r = Ok tt → rep = None → filled pl dev).
Proof. intros w r w' E -> ->. right. right. by exists w, w'. Qed.

(** A volume that a search may go on with: only replicated volumes are left to the creation. *)
Abbreviation kept pl rep base := (λ name dev, is_Some rep ∧ provided_by pl base name dev).

Lemma kept_taken pl rep base name dev :
  kept pl rep base name dev ∨ mistaken (W := W) pmaxClient symmetrixID (volumeIdentifier pl) (kept pl rep base) name dev → taken pl rep base name dev.
Proof.
  intros [[_ ?]|(ids & id & vol & ? & ? & ? & ? & ? & ? & name' & dev' & Hrep & ?)]; [by left|]. right. split; [done|].
  exists ids, id, vol. split_and!; try done. by exists name', dev'.
Qed.

Lemma answer_ok pl rep base name dev n (go : M W (result error unit)) remote (k : string → gmap string string) :
  provided_by pl base name dev → (∀ r, rep = Some r → copied r dev) →
  post go (λ r, r = Ok tt → rep = None → filled pl dev) →
  post (let? _ := go in let* now := lift FormatNow in ok (answer name dev n (with_replication rep remote (k now)))) (legacy_answer pl rep base).
Proof.
  intros Hp Hc Hgo. eapply (post_try _ _ _ (λ _, rep = None → filled pl dev)); [|done|].
  - eapply post_weaken; [exact Hgo|]. intros [[]|e] Hr; [by apply Hr|done].
  - intros _ Hf. apply post_skip. intros now. apply post_ret. exists name, dev. split; [by left|]. split; [done|].
    destruct rep as [r|]; [by apply Hc|by apply Hf].
Qed.

Lemma copied_unless_empty rep (remote : option string) dev :
  match remote with None => rep = None | Some remote => ∃ r, rep = Some r ∧ (remote ≠ "" → copied r dev) end →
  remote ≠ Some "" → ∀ r, rep = Some r → copied r dev.
Proof. intros Hr Hn r ->. destruct remote as [remote|]; [|done]. destruct Hr as (? & [= <-] & Hr). apply Hr. congruence. Qed.

Lemma legacy_examine_ok pl rep base isV4 id s :
  Contains (s_group s) base = true →
  post (examine pl rep isV4 id s) (λ r, match r with
    | inl s' => fetched (λ id v, answers (GetVolumeByID (W := W) pmaxClient symmetrixID id) (Ok v))
                  (λ v, kept pl rep base (VolumeIdentifier v) (Pmax.VolumeID v)) base id s s'
    | inr r => legacy_answer pl rep base r end).
Proof.
  intros Hg. unfold examine. eapply post_bind; [apply lift_answers|]. intros [vol|e] Hvol; [|by apply post_ret].
  case_decide; [by apply post_ret|]. destruct (match_group _ _) as [m g] eqn:Em.
  destruct (match_group_spec _ _ _ _ _ Em Hg) as [Hg' Hm].
  destruct (m && _) eqn:Hc; [|apply post_ret; split; [done|]; exists vol; by split_and!; [..|left]].
  apply andb_prop in Hc as [-> Hid]. destruct (Z.eqb_spec (CapacityCYL vol) (requiredCylinders pl)) as [Hn|]; cbn [negb];
    [|apply post_ret; split; [done|]; exists vol; by split_and!; [..|left]].
  assert (provided_by pl base (VolumeIdentifier vol) (Pmax.VolumeID vol)) as Hprov.
  { eapply provided_found; [exact Hvol|done|by apply Hm|done]. }
  eapply post_bind; [apply replicated_copied|]. intros [remote|e] Hr; [|by apply post_ret].
  case_decide as Hrem.
  { subst remote. destruct Hr as (r & -> & _). apply post_ret. split; [done|]. exists vol. split_and!; [done..|]. intros _. by right. }
  eapply (post_bind _ _ (legacy_answer pl rep base)); [|intros r Hr'; by apply post_ret].
  eapply (answer_ok pl rep base _ _ _ _ (default "" remote) (λ now, if symmIDFoundInAZ then _ else _)); [done|by eapply copied_unless_empty|].
  case_decide; [apply post_ret; by left|apply fill_filled].
Qed.

Lemma examine_listed_ok pl rep base l v s :
  answers (GetListedVolumes (W := W) pmaxClient symmetrixID (volumeIdentifier pl)) (Ok l) → v ∈ l → fits_search (kept pl rep base) base s →
  post (examine_listed pl rep v s) (λ r, match r with inl s' => fits_search (kept pl rep base) base s' | inr r => legacy_answer pl rep base r end).
Proof.
  intros Hl Hv [Hg Hp]. unfold examine_listed. case_decide; [by apply post_ret|]. destruct (match_group _ _) as [m g] eqn:Em.
  destruct (match_group_spec _ _ _ _ _ Em Hg) as [Hg' Hm]. destruct (m && _) eqn:Hc; [|by apply post_ret].
  apply andb_prop in Hc as [-> Hid]. destruct (SFeqb _ _) eqn:Hn; cbn [negb]; [|by apply post_ret].
  assert (provided_by pl base (lv_Identifier v) (lv_ID v)) as Hprov.
  { eapply provided_listed; [exact Hl|done|done|by apply Hm|done]. }
  eapply post_bind; [apply replicated_copied|]. intros [remote|e] Hr; [|by apply post_ret].
  case_decide as Hrem.
  { subst remote. destruct Hr as (r & -> & _). apply post_ret. split; [done|]. intros _. by exists (local_volume v). }
  eapply (post_bind _ _ (legacy_answer pl rep base)); [|intros r Hr'; by apply post_ret].
  apply answer_ok; [done|by eapply copied_unless_empty|].
  case_decide; [apply post_ret; by left|]. case_decide as Hd; [apply post_ret; intros _ _; right; left; apply Hd|apply fill_filled].
Qed.

Lemma search_volumes_ok pl rep isV4 base :
  post (search_volumes pl rep isV4 base) (λ r, match r with
    | Ok (inl s) => chosen_search (W := W) pmaxClient symmetrixID (volumeIdentifier pl) (kept pl rep base) base s
    | Ok (inr r) => legacy_answer pl rep base r
    | Err _ => True end).
Proof.
  unfold search_volumes. destruct (_ && isV4); (eapply post_bind; [apply lift_answers|]; intros [l|e] Hl; [|by apply post_ret]).
  - eapply post_bind; [apply (keeping_loop _ l base (kept pl rep base) (legacy_answer pl rep base))|].
    + intros v s Hv. by apply examine_listed_ok with (l := l).
    + split; [apply Contains_refl|done].
    + intros [s|r] Hr; apply post_ret; [|done]. destruct Hr as [Hg Hp]. split; [done|]. intros (v & ? & ?)%Hp. exists v. by split; [|left].
  - eapply post_bind; [apply (listing_loop pmaxClient symmetrixID (volumeIdentifier pl) _ _ base (kept pl rep base) (legacy_answer pl rep base) Hl)|].
    + intros id s. apply legacy_examine_ok.
    + intros r Hr. by apply post_ret.
Qed.

Lemma respond_ok pl rep group vol :
  post (respond pl rep group vol) (λ r, match r with
    | Ok resp => resp_VolumeId resp = VolumeIdentifier vol ++ "-" ++ symmetrixID ++ "-" ++ Pmax.VolumeID vol
                 ∧ ∀ r, rep = Some r → copied r (Pmax.VolumeID vol)
    | Err _ => True end).
Proof.
  apply post_skip. intros now. eapply (post_try _ _ _ (λ _, ∀ r, rep = Some r → copied r (Pmax.VolumeID vol))); [|done|intros ? Hc; by apply post_ret].
  destruct rep as [r|]; [|by apply post_ret].
  eapply (post_try _ _ _ (λ _, copied r (Pmax.VolumeID vol))); [|done|intros ? Hc; apply post_ret; by intros ? [= <-]].
  eapply post_bind; [apply lift_answers|]. intros [pair|e] Ha; apply post_ret; [by exists pair|done].
Qed.

Lemma legacy_create_found_ok pl rep base unprotected s :
  chosen_search (W := W) pmaxClient symmetrixID (volumeIdentifier pl) (kept pl rep base) base s →
  post (create_found pl rep unprotected s) (legacy_answer pl rep base).
Proof.
  intros [Hg Hpres]. unfold create_found. destruct (alreadyExists s); [by apply post_ret|].
  eapply (post_try _ _ _ (λ vol, taken pl rep base (VolumeIdentifier vol) (Pmax.VolumeID vol))); [|done|].
  { destruct (isLocalVolumePresent s); [|eapply post_weaken; [by apply create_volume_provided|]; intros [v|e] Hv; [by left|done]].
    destruct (Hpres eq_refl) as (v & -> & Hv). by apply post_ret, kept_taken. }
  intros vol Hvol. apply post_try_skip; [done|]. intros _.
  eapply (post_try _ _ _ (λ _, rep = None → filled pl (Pmax.VolumeID vol))); [|done|].
  { eapply post_weaken; [apply fill_filled|]. intros [[]|e] Hf; [by apply Hf|done]. }
  intros _ Hf. eapply post_weaken; [apply respond_ok|]. intros [resp|e] Hr; [|done]. destruct Hr as [Hid Hc].
  exists (VolumeIdentifier vol), (Pmax.VolumeID vol). split; [done|]. split; [done|]. destruct rep; [by apply Hc|by apply Hf].
Qed.

(** The group the volume is put into: the one of the storage class or its parameters, or with dynamic
    groups the one with the fewest volumes. *)
Definition is_base (base : string) : Prop := ∃ proposed w w', group_of w = Some (Ok (base, proposed), w').

Lemma create_block_ok pl rep :
  post (create_block pl rep) (λ r, match r with Ok resp => ∃ base, is_base base ∧ legacy_answer pl rep base (Ok resp) | Err _ => True end).
Proof.
  eapply (post_try _ _ _ (λ g, is_base g.1)); [|done|].
  { intros w [[base proposed]|e] w' E; [|done]. by exists proposed, w, w'. }
  intros [base proposed] Hb. simpl in Hb. apply post_try_skip; [done|]. intros unprotected. apply post_skip. intros need. apply post_check; [done|].
  apply post_skip. intros isV4. eapply post_bind; [by apply search_volumes_ok|]. intros [[s|r]|e] Hs; [| |by apply post_ret].
  - eapply post_weaken; [by apply legacy_create_found_ok|]. intros [resp|e] Hr; [by exists base|done].
  - apply post_ret. destruct r as [resp|e]; [by exists base|done].
Qed.

Lemma plan_of_ok useNFS : post (plan_of useNFS) (λ r, match r with Ok pl => well_planned pl | Err _ => True end).
Proof.
  unfold plan_of. eapply (post_try _ _ _ (sized (req_Range req))); [apply validated_size|done|]. intros n Hn.
  destruct (_ && _); [by apply post_ret|]. apply post_try_skip; [done|]. intros source.
  eapply (post_try _ _ _ (fits (W := W) pmaxClient symmetrixID source n)); [apply source_fits|done|]. intros v Hv.
  case_decide; [by apply post_ret|]. destruct (buildVolumeIdentifier _ _ _) as [identifier|] eqn:E; [by apply post_ret|by apply post_panic].
Qed.

(** The request is for a file system. *)
Definition for_nfs : Prop := ∃ vcs, req_Capabilities req = Some vcs ∧ accTypeIsNFS vcs = true.

Lemma check_parameters_kind : post check_parameters (λ r, match r with Ok useNFS => useNFS = true ↔ for_nfs | Err _ => True end).
Proof.
  apply post_check; [done|]. destruct (negb _); [by apply post_ret|]. destruct (_ && _); [by apply post_ret|]. unfold for_nfs.
  destruct (req_Capabilities req) as [vcs|]; [|apply post_ret; split; [done|by intros (? & ? & _)]].
  destruct (_ && _); [by apply post_ret|]. destruct (_ && _); [by apply post_ret|].
  apply post_ret. split; [by exists vcs|by intros (? & [= <-] & ?)].
Qed.

Lemma replication_of_params useNFS :
  post (replication_of useNFS) (λ r, match r with
    | Ok None => ¬ replicating | Ok (Some r) => replicating ∧ repMode r = rep_param ReplicationModeParam ∧ useNFS = false | Err _ => True end).
Proof.
  unfold replication_of. case_decide; [by apply post_ret|]. assert (replicating) by (unfold replicating; destruct (decide (rep_param Creator.RepEnabledParam = "true")); tauto).
  destruct IsVsphereEnabled; [by apply post_ret|]. destruct useNFS; [by apply post_ret|]. destruct (_ && _ && _); [by apply post_ret|].
  apply post_try_skip; [done|]. intros groups. by apply post_ret.
Qed.

(** What a request that succeeds has done, by the kind of volume it asks for: the file system was created; the
    Metro creation answered; or the answer names a volume of the array for the plan. *)
Definition legacy_created (resp : csi_Volume) : Prop :=
  (for_nfs ∧ ¬ replicating ∧ ∃ pl w w', well_planned pl ∧ create_file_system pl w = Some (Ok resp, w'))
  ∨ (replicating ∧ rep_param ReplicationModeParam = Metro
     ∧ ∃ r w w', repMode r = Metro ∧ createMetroVolume (metro_params r) w = Some (Ok resp, w'))
  ∨ (¬ for_nfs ∧ (replicating → rep_param ReplicationModeParam = Async ∨ rep_param ReplicationModeParam = Sync)
     ∧ ∃ pl rep base, well_planned pl ∧ is_base base ∧ (is_Some rep ↔ replicating) ∧ legacy_answer pl rep base (Ok resp)).
Abbreviation created_ok := (λ r, match r with Ok resp => legacy_created resp | Err _ => True end).

Lemma replicate_checked_ok useNFS rep :
  (useNFS = true ↔ for_nfs) → (is_Some rep ↔ replicating) → (is_Some rep → useNFS = false) →
  (is_Some rep → rep_param ReplicationModeParam = Async ∨ rep_param ReplicationModeParam = Sync) →
  post (let? pl := plan_of useNFS in if useNFS then create_file_system pl else create_block pl rep) created_ok.
Proof.
  intros Hnfs Hrep Hno Hmode. eapply (post_try _ _ _ well_planned); [apply plan_of_ok|done|]. intros pl Hpl. destruct useNFS.
  - intros w [resp|e] w' E; [|done]. left. split; [by apply Hnfs|]. split; [by intros ?%Hrep%Hno|]. by exists pl, w, w'.
  - eapply post_weaken; [apply create_block_ok|]. intros [resp|e] Hb; [|done]. destruct Hb as (base & Hb & Ha). right. right.
    split; [intros ?%Hnfs; done|]. split; [intros ?%Hrep; by apply Hmode|]. by exists pl, rep, base.
Qed.

End creator.

(** ** The choice of a creator *)
(** The error of [strconv.Atoi]. *)
Definition Atoi_error (s : string) : error :=
  let quote := String (ascii_of_nat 34) "" in
  let digits := match s with String ("-" | "+")%char s' => s' | _ => s end in
  errorString ("strconv.Atoi: parsing " ++ quote ++ s ++ quote ++ ": "
    ++ match digits, parse_digits 10 0 digits with String _ _, Some _ => "value out of range" | _, _ => "invalid syntax" end).

Section service.
Context {W C : Type} `{Pmax W C} `{MaskingClient W C} `{CreateClient W C} `{SnapClient W C} `{LicenseCache W} `{SnapCleaner W}.
Context `{RdfClient W C} `{AddonsClient W C} `{ProvisionClient W C} `{RenameClient W C} `{PoolClient W C} `{PoolCache W} `{FileClient W C}.
Variable FormatNow : W → string * W.
Variable o : Creator.Opts.
Variable IsVsphereEnabled : bool.
Variables (storagePoolCacheDuration sgVolumeLimit : Z).
Variable GetPowerMaxClient : string → M W (result error C).
Variable adminClient104 : C.
Variable createMetroVolume : CreateVolumeRequest → string → MetroCreator.MetroParams → M W (result error csi_Volume).
Variables (useProxy autoProbe : bool) (grpcMaxThreads : Z).
Variable controllerProbe : M W (option error).
(** Version and API version of an array, from the cache or the array. *)
Variable getOrFetchVersionDetails : string → C → M W (result error (string * string)).

Definition create_with (req : CreateVolumeRequest) (symmetrixID reqID : string) (symmIDFoundInAZ : bool) (c : C) : M W (result error csi_Volume) :=
  let? details := getOrFetchVersionDetails symmetrixID c orelse (λ e, statusError Internal ("Error in getVersion API: " ++ Error e)) in
  let '(version, APIVersion) := details in
  let? apiVersion :=
    if decide (APIVersion = "") then ok 0
    else match Atoi APIVersion with
         | Some n => ok n
         | None => fail (statusError Internal ("Error in parsing getVersion: " ++ Error (Atoi_error APIVersion)))
         end in
  match Creator.creatorFor o (req_Parameters req) version (req_Capabilities req) (req_Source req) with
  | PowerMax.backendU4P104 =>
      Creator.u4p104_Create (H0 := Creator.service_deps o GetPowerMaxClient sgVolumeLimit) FormatNow
        (Creator.mkCreator c adminClient104 symmetrixID reqID symmIDFoundInAZ) (Some req)
  | PowerMax.backendLegacy =>
      legacy_Create FormatNow o IsVsphereEnabled storagePoolCacheDuration sgVolumeLimit GetPowerMaxClient (createMetroVolume req reqID)
        reqID symmetrixID c symmIDFoundInAZ apiVersion req
  end.

Definition doCreateVolume (req : CreateVolumeRequest) (symmetrixID reqID : string) (symmIDFoundInAZ : bool) : M (Rpc.tables * W) (result error csi_Volume) :=
  let? c := Rpc.on_arrays (GetPowerMaxClient symmetrixID) orelse (λ e, statusError NotFound (Error e)) in
  do? Rpc.requireProbe useProxy autoProbe grpcMaxThreads controllerProbe true in
  Rpc.on_arrays (create_with req symmetrixID reqID symmIDFoundInAZ c).
End service.

(** ** Examples *)
Import SimArray SimProvision.
#[local] Existing Instance SimProvision.single_pmax.
#[local] Existing Instance SimMasking.sim_masking.
#[local] Existing Instance Snapshots.sim_create.
#[local] Existing Instance Snapshots.sim_snap.
#[local] Existing Instance Snapshots.sim_license.
#[local] Existing Instance Snapshots.sim_cleaner.
#[local] Existing Instance RepRequests.sim_rdf_client.
#[local] Existing Instance Addons.sim_addons.
#[local] Existing Instance SimProvision.sim_provision.
#[local] Existing Instance Deletion.sim_rename.
#[local] Existing Instance Sizes.sim_pools.
#[local] Existing Instance RepRequests.sim_pool_cache.
#[local] Existing Instance Files.sim_files.

Definition demo_params (rep : bool) : gmap string string :=
  let base : gmap string string := <[StoragePoolParam := "SRP_1"]> {[Creator.CSIPVCNamespace := "ns"]} in
  if rep then
    <["replication.storage.dell.com/isReplicationEnabled" := "true"]> (<["replication.storage.dell.com/RemoteSYMID" := "000120000549"]>
      (<["replication.storage.dell.com/RdfGroup" := "1"]> (<["replication.storage.dell.com/RemoteRDFGroup" := "2"]>
        (<["replication.storage.dell.com/RdfMode" := Async]> base))))
  else base.
Definition demo_request (rep : bool) (source : option Creator.VolumeContentSource) : CreateVolumeRequest :=
  Creator.mkCreateRequest "pmax-0123456789" (demo_params rep) None (Some (Sizes.mkRange (10 * Sizes.GB) 0)) source None.
Definition demo (P : Pmax Sim string) (apiVersion : Z) (req : CreateVolumeRequest) : M Sim (result error csi_Volume) :=
  legacy_Create (H := P) format_now options false 1000 4000 (λ _, ret (Ok "c")) (λ _, fail (errorString "no Metro")) "1" "000120000548" "c" false apiVersion req.
Definition demo_world (volumes : list Volume) : Sim := sim volumes (mkStorageGroupRDFG ["R1"] [Replication.Synchronized]).
Definition outcome (r : option (result error csi_Volume * Sim)) : option (result string (string * Z) * list string) :=
  match r with
  | Some (Ok v, w) => Some (Ok (resp_VolumeId v, Creator.resp_CapacityBytes v), sim_log w)
  | Some (Err e, w) => Some (Err (Error e), sim_log w)
  | None => None
  end.
Definition source_volume0 : Volume := mkVolume "00007" "csi-ABC-src" ["g"] false false "" 0 5462 [] fzero.
Definition clone0 := Creator.SourceVolume "csi-ABC-src-000120000548-00007".


(** *** A volume that is present but not replicated yet *)
(** Only device 00001 is no RDF device. *)
Definition unpaired_rdf : RdfClient Sim string := {|
  RepRequests.GetRDFDevicePairInfo _ _ _ d w :=
    (if decide (d = "00001") then Err (errorString must_be_rdf) else Ok (RepRequests.mkPair "00002" 2 "000120000549"), w);
  RepRequests.GetRDFGroupMetrics _ _ _ _ _ w := (Ok None, w);
  RepRequests.CreateStorageGroupLimits _ _ _ _ _ _ _ w := (None, w);
  RepRequests.UpdateStorageGroupSRP _ _ _ _ w := (None, w);
|}.
Definition demo_volume (id : string) (groups : list string) (n : Z) : Volume :=
  mkVolume id "csi-ABC-pmax-0123456789-ns" groups false false "" 0 n [] fzero.

(** Volume by volume, another volume with the identifier that is listed later is replicated and answered. *)
Example other_volume_replicated :
  outcome (legacy_Create (H := SimArray.sim_pmax) (H5 := unpaired_rdf) format_now options false 1000 4000 (λ _, ret (Ok "c"))
    (λ _, fail (errorString "no Metro")) "1" "000120000548" "c" false 100 (demo_request true None)
    (demo_world [demo_volume "00001" ["csi-ABC-Optimized-SRP_1-SG"] 5462; demo_volume "00003" ["other"] 1]))
  = Some (Ok ("csi-ABC-pmax-0123456789-ns-000120000548-00003", 1966080), ["delete SG csi-rep-sg-ns-2-ASYNC"; "replica csi-rep-sg-ns-1-ASYNC"]).
Proof. vm_compute. reflexivity. Qed.

Definition demo_plan (content : Content) : plan := mkPlan 5462 content (Some source_volume0) "csi-ABC-pmax-0123456789-ns".
Definition demo_rep : replication := mkReplication "000120000549" "1" "2" "" "" Async "".
Definition demo_listed : ListedVolume := mkListed "00001" "csi-ABC-pmax-0123456789-ns" (float_of_Z 5462) ["csi-ABC-Optimized-SRP_1-SG"].

(** With the enhanced interface the answer for it has no capacity. *)
Example present_volume_no_capacity :
  outcome (create_found format_now options "1" "000120000548" "c" (demo_request true None) (demo_plan no_content) (Some demo_rep) false
             (mkSearch (Some (local_volume demo_listed)) "csi-ABC-Optimized-SRP_1-SG" false true) (demo_world []))
  = Some (Ok ("csi-ABC-pmax-0123456789-ns-000120000548-00001", 0), []).
Proof. vm_compute. reflexivity. Qed.

(** With the enhanced interface the retry of a replicated clone follows a nil pointer. *)
Example listed_retry_panics :
  examine_listed format_now options "1" "000120000548" "c" (demo_request true (Some clone0))
    (demo_plan (mkContent "csi-ABC-src-000120000548-00007" "" "000120000548" "00007" "" "csi-ABC-src-000120000548-00007")) (Some demo_rep) demo_listed
    (mkSearch None "csi-ABC-Optimized-SRP_1-SG" false false) (demo_world [source_volume0]) = None.
Proof. vm_compute. reflexivity. Qed.
End LegacyCreator.
