(* ===== verification/ControllerRequests.v ===== *)
(** * Requests of the controller

    Models the handlers ControllerPublishVolume, ControllerUnpublishVolume,
    ValidateVolumeCapabilities and ControllerGetVolume of service/controller.go around the
    publication of [Publish], and what the plugin says of itself (service/identity.go and
    the capabilities of controller and node). *)

From stdpp Require Import base gmap strings list.
From Stdlib Require Import ZArith Lia Ascii.
From S2P Require Import Prelude GoLib Ordering Pmax SimArray SimMasking PowerMax Masking Trace Handler VolumeID Pending Rpc StorageGroups Replication Files Publish Deletion RepRequests Sizes Creator Provision.

Module ControllerRequests.
Import PowerMax Masking VolumeID Pending Rpc.
Import StorageGroups(AccessMode, UNKNOWN, SINGLE_NODE_WRITER, SINGLE_NODE_READER_ONLY, MULTI_NODE_READER_ONLY, MULTI_NODE_SINGLE_WRITER, MULTI_NODE_MULTI_WRITER, SINGLE_NODE_SINGLE_WRITER, SINGLE_NODE_MULTI_WRITER, OTHER_MODE).
Import Publish(VolumeCapability, mkCapability, GetAccessMode, GetMount, GetBlock, accTypeIsBlock, volumeIdentifiersMatch, errUnknownAccessMode, failedToValidateVolumeNameAndID, PublishRequest, req_NodeId, req_Capability, req_VolumeContext, Client104, Caches).
Import RepRequests(RdfClient, GetRDFDevicePairInfo, RemoteRdfGroupNumber, LocalRDFGroupParam, RemoteRDFGroupParam).
Import Files(FileClient, StoragePoolParam, ServiceLevelParam).
Import Creator(path_join).
Import Sizes(cylinderSizeInBytes).
Open Scope go_scope.
Open Scope handler_scope.
Open Scope string_scope.
Open Scope Z_scope.

Definition errUnknownAccessType := "unknown access type is not Block or Mount".
Definition errNoMultiNodeWriter := "multi-node with writer(s) only supported for block access type".

(** ** Capabilities of a volume *)
Definition checkValidAccessTypes (vcs : list VolumeCapability) : bool := forallb (λ vc, GetBlock vc || bool_decide (is_Some (GetMount vc))) vcs.

(** The verdict on one capability: the reason against it, when there is one. *)
Definition refused (isBlock : bool) (vc : VolumeCapability) : option string :=
  match GetAccessMode vc with
  | None => None
  | Some (UNKNOWN | OTHER_MODE _) => Some errUnknownAccessMode
  | Some (SINGLE_NODE_WRITER | SINGLE_NODE_SINGLE_WRITER | SINGLE_NODE_MULTI_WRITER | SINGLE_NODE_READER_ONLY | MULTI_NODE_READER_ONLY) => None
  | Some (MULTI_NODE_SINGLE_WRITER | MULTI_NODE_MULTI_WRITER) => if isBlock then None else Some errNoMultiNodeWriter
  end.
(** The last reason found stays. *)
Fixpoint scan_caps (isBlock : bool) (vcs : list VolumeCapability) (supported : bool) (reason : string) : bool * string :=
  match vcs with
  | [] => (supported, reason)
  | vc :: vcs =>
      match refused isBlock vc with
      | Some r => scan_caps isBlock vcs false r
      | None => scan_caps isBlock vcs supported reason
      end
  end.
Definition valVolumeCaps (vcs : list VolumeCapability) : bool * string :=
  if negb (checkValidAccessTypes vcs) then (false, errUnknownAccessType) else scan_caps (accTypeIsBlock vcs) vcs true "".

(** ** Names in a volume's groups *)
(** What follows the first dash. *)
Fixpoint after_dash (s : string) : option string :=
  match s with
  | "" => None
  | String c s => if decide (c = "-"%char) then Some s else after_dash s
  end.
(** The fourth piece of [strings.SplitAfterN(s, "-", 4)]; without it the index panics. *)
Definition getHostIDFromMaskingView (maskingView : string) : option string := s ← after_dash maskingView; t ← after_dash s; after_dash t.

(** The piece before the first piece Metro. *)
Fixpoint before_metro (previous : string) (parts : list string) : string :=
  match parts with
  | [] => ""
  | p :: parts => if decide (p = "Metro") then previous else before_metro p parts
  end.
Definition extractRDFGroupFromSG (sgName : string) : string :=
  match Split "-"%char sgName with [] => "" | p :: parts => before_metro p parts end.

Record VolumeCondition := mkCondition { Abnormal : bool; Message : string }.
Record GetVolumeResponse := mkGetVolume { gv_Volume : option (string * Z); gv_PublishedNodeIds : list string; gv_Condition : VolumeCondition }.
Record ValidateResponse := mkValidate { Confirmed : option (list VolumeCapability * gmap string string); v_Message : string }.

Section requests.
Context {W C : Type} `{Pmax W C} `{MaskingClient W C} `{Caches W} `{FileClient W C} `{Client104 W C} `{RdfClient W C}.
Variable GetPowerMaxClient : string → string → M W (result error C).
Variable svc : service.
Variable storagePoolCacheDuration : Z.
Variable queuedAdds : string → list StorageGroups.addVolumeToSGMVRequest.
Variable queuedRemovals : string → list StorageGroups.removeVolumeFromSGMVRequest.
Variable chan : Z.
Variables (useProxy autoProbe : bool) (grpcMaxThreads : Z) (ind : Pending.induced).
Variable controllerProbe : M W (option error).
Variable adminClient104 : C.
Variable isMetroSiteFailureHandlingEnabled : bool.
Variable logMetroStateCheck : string → string → string → string → M W (option error).
Variable getOrFetchVersionDetails : string → C → M W (result error string).
Variable ReplicationContextPrefix : string.
(** The service level of a storage group, as the client reports it. *)
Variable SLO : StorageGroup → string.

Definition one_client (symID : string) : M W (result error C) := GetPowerMaxClient symID "".
Definition probe : M (tables * W) (option error) := requireProbe useProxy autoProbe grpcMaxThreads controllerProbe true.
Definition not_found (e : error) : error := statusError NotFound (Error e).
Definition invalid_id (volID : string) : error := statusError InvalidArgument ("Invalid volume id: " ++ volID).

(** [checkAndUpdatePendingState; defer clearPending] with the time of now. *)
Definition while_volume_pending {A} (volID : string) (m : M (tables * W) (result error A)) : M (tables * W) (result error A) :=
  let* now := on_arrays (lift (Now (C := C))) in while_pending controller_table ind now volID (λ e, Err e) m.

(** ** Publication *)
Definition publish_checked (volID reqID : string) (csi : csiID) (req : PublishRequest) (c : C) : M W (result error (option Files.context)) :=
  let? version := getOrFetchVersionDetails (arrayID csi) c orelse (λ e, statusError Internal ("Error in getVersion API: " ++ Error e)) in
  let* path := Publish.publisherFor svc (arrayID csi) (devID csi) (remoteSymID csi) version (req_Capability req) c in
  match path with
  | backendU4P104 =>
      Publish.some_context (Publish.u4p104_Publish svc storagePoolCacheDuration volID reqID c adminClient104 req)
  | backendLegacy =>
      Publish.legacy_Publish one_client svc storagePoolCacheDuration queuedAdds chan volID (arrayID csi) (devID csi) (remoteSymID csi) (remoteVolID csi)
        reqID c req
  end.

Definition ControllerPublishVolume (volID reqID : string) (req : PublishRequest) : M (tables * W) (result error (option Files.context)) :=
  if decide (volID = "") then fail (statusError InvalidArgument "volume ID is required")
  else match parseCsiID volID with
  | None => panic
  | Some (Err _) => fail (invalid_id volID)
  | Some (Ok csi) =>
      let group key := default "" (req_VolumeContext req !! path_join ReplicationContextPrefix key) in
      do? (if bool_decide (remoteSymID csi ≠ "") && isMetroSiteFailureHandlingEnabled then
             on_arrays (logMetroStateCheck (arrayID csi) (remoteSymID csi) (group LocalRDFGroupParam) (group RemoteRDFGroupParam))
           else ret None) in
      let? c := on_arrays (GetPowerMaxClient (arrayID csi) (remoteSymID csi)) orelse not_found in
      while_volume_pending volID (do? probe in on_arrays (publish_checked volID reqID csi req c))
  end.

(** The RDF groups of a volume, as far as the array tells them. *)
Definition rdf_groups (symID devID : string) (c : C) : M W (string * string) :=
  let* r := lift (GetVolumeByID c symID devID) in
  match r with
  | Err _ => ret ("", "")
  | Ok vol =>
      match RDFGroupIDList vol with
      | [] => ret ("", "")
      | g :: _ =>
          let* p := lift (GetRDFDevicePairInfo c symID (Itoa g) devID) in
          ret (Itoa g, match p with Ok rdfPair => Itoa (RemoteRdfGroupNumber rdfPair) | Err _ => "" end)
      end
  end.

Definition unpublish_checked (volID nodeID reqID : string) (csi : csiID) (c : C) : M W (result error unit) :=
  do? (if bool_decide (remoteSymID csi ≠ "") && isMetroSiteFailureHandlingEnabled then
         let* groups := rdf_groups (arrayID csi) (devID csi) c in
         logMetroStateCheck (arrayID csi) (remoteSymID csi) groups.1 groups.2
       else ret None) in
  do? Publish.unpublish one_client svc queuedRemovals chan volID nodeID reqID (arrayID csi) (devID csi) (remoteSymID csi) (remoteVolID csi) c in ok tt.

Definition ControllerUnpublishVolume (volID nodeID reqID : string) : M (tables * W) (result error unit) :=
  if decide (volID = "") then fail (statusError InvalidArgument "Volume ID is required")
  else match parseCsiID volID with
  | None => panic
  | Some (Err _) => fail (invalid_id volID)
  | Some (Ok csi) =>
      let? c := on_arrays (GetPowerMaxClient (arrayID csi) (remoteSymID csi)) orelse not_found in
      while_volume_pending volID
        (if decide (nodeID = "") then fail (statusError InvalidArgument "Node ID is required")
         else do? probe in on_arrays (unpublish_checked volID nodeID reqID csi c))
  end.

(** ** Validation *)
(** The groups of the volume, until pool and service level are both found. *)
Fixpoint find_context (symID sp sl : string) (foundSP foundSL : bool) (groups : list string) (c : C) : M W (bool * bool) :=
  match groups with
  | [] => ret (foundSP, foundSL)
  | sgID :: groups =>
      let* r := lift (GetStorageGroup c symID sgID) in
      let '(foundSP, foundSL) :=
        match r with
        | Ok sg => (foundSP || bool_decide (sp ≠ "" ∧ sp = SG_SRP sg), foundSL || bool_decide (sl ≠ "" ∧ sl = SLO sg))
        | Err _ => (foundSP, foundSL)
        end in
      if foundSP && foundSL then ret (true, true) else find_context symID sp sl foundSP foundSL groups c
  end.
Definition show_bool (b : bool) : string := if b then "true" else "false".
(** The reason against the context, when there is one. *)
Definition valVolumeContext (attributes : gmap string string) (vol : Volume) (symID : string) (c : C) : M W (option string) :=
  let sp := default "" (attributes !! StoragePoolParam) in
  let sl := default "" (attributes !! ServiceLevelParam) in
  match StorageGroupIDList vol with
  | [] => ret (Some "Unable to find any associated Storage Groups")
  | groups =>
      let* found := find_context symID sp sl (bool_decide (sp = "")) (bool_decide (sl = "")) groups c in
      let '(foundSP, foundSL) := found in
      ret (if foundSP && foundSL then None
           else Some ("Unable to validate context (SRP=" ++ show_bool foundSP ++ ", SLO=" ++ show_bool foundSL ++ ")"))
  end.

Definition validate (csi : csiID) (attributes : gmap string string) (vcs : list VolumeCapability) (c : C) : M W (result error ValidateResponse) :=
  let where_ := "(Array: " ++ arrayID csi ++ ", Volume: " ++ devID csi ++ ")" in
  let? vol := lift (GetVolumeByID c (arrayID csi) (devID csi))
    orelse (λ e, statusError NotFound ("failure checking volume " ++ where_ ++ "status for capabilities: " ++ Error e)) in
  if negb (volumeIdentifiersMatch (volName csi) (VolumeIdentifier vol)) then
    fail (statusError NotFound "Failed to validate combination of Volume Name and Volume ID")
  else
    let* reason := valVolumeContext attributes vol (arrayID csi) c in
    match reason with
    | Some reason => fail (statusError Internal ("Failure checking volume context " ++ where_ ++ ": " ++ reason))
    | None =>
        let '(supported, reason) := valVolumeCaps vcs in
        ok (if (supported : bool) then mkValidate (Some (vcs, attributes)) "" else mkValidate None reason)
    end.

Definition ValidateVolumeCapabilities (volID : string) (attributes : gmap string string) (vcs : list VolumeCapability)
    : M (tables * W) (result error ValidateResponse) :=
  match parseCsiID volID with
  | None => panic
  | Some (Err e) => fail (statusError InvalidArgument ("volID: " ++ volID ++ " malformed. Error: " ++ Error e))
  | Some (Ok csi) =>
      let? c := on_arrays (one_client (arrayID csi)) orelse not_found in
      do? probe in on_arrays (validate csi attributes vcs c)
  end.

(** ** The state of a volume *)
Definition metro_named (sgID : string) : bool := Contains sgID "Metro" || Contains sgID "metro".

(** The replication of the first group that is named after Metro. *)
Definition metro_condition (symID : string) (groups : list string) (c : C) : M W (option VolumeCondition) :=
  match List.find metro_named groups with
  | None => ret None
  | Some sgID =>
      let rdfGroupNo := extractRDFGroupFromSG sgID in
      if decide (rdfGroupNo = "") then ret None
      else
        let* r := lift (GetStorageGroupRDFInfo c symID sgID rdfGroupNo) in
        ret match r with
            | Ok info =>
                match States info with
                | state :: _ =>
                    if decide (state ≠ "ActiveActive" ∧ state ≠ "ActiveBias") then
                      Some (mkCondition true ("Volume is in degraded Metro state (RDF state: " ++ state
                        ++ "). Site failure handling is enabled; automatic recovery will occur when the remote array becomes reachable."))
                    else None
                | [] => None
                end
            | Err _ => None
            end
  end.

(** The nodes of the masking views of the groups that have no pool. *)
Fixpoint published_nodes (symID : string) (groups : list string) (c : C) : M W (result error (list string)) :=
  match groups with
  | [] => ok []
  | sgID :: groups =>
      if Contains sgID "no-srp" then
        let? sg := lift (GetStorageGroup c symID sgID) in
        match mapM getHostIDFromMaskingView (SG_MaskingView sg) with
        | None => panic
        | Some hosts => let? rest := published_nodes symID groups c in ok (hosts ++ rest)%list
        end
      else published_nodes symID groups c
  end.

(** On an error the device has been overwritten by the empty one of GetVolumeByID. *)
Definition get_volume (id : string) (c : C) : M W GetVolumeResponse :=
  let* r := Publish.service_GetVolumeByID id c in
  match r with
  | Err e =>
      ret (mkGetVolume None [] (mkCondition true ("error in getting volume (): (" ++ Error e ++ ")")))
  | Ok (symID, devID, vol) =>
      let volResp := Some (Pmax.VolumeID vol, wrap64 (CapacityCYL vol * cylinderSizeInBytes)) in
      let groups := StorageGroupIDList vol in
      let* condition :=
        if (2 <=? List.length groups)%nat && isMetroSiteFailureHandlingEnabled then metro_condition symID groups c else ret None in
      if (List.length groups <? 2)%nat then
        ret (mkGetVolume volResp [] (mkCondition false ("volume (" ++ devID ++ ") is not published")))
      else
        let* nodes := published_nodes symID groups c in
        ret match nodes with
            | Err e => mkGetVolume None [] (mkCondition true ("error in getting SG masking view details (" ++ devID ++ "): (" ++ Error e ++ ")"))
            | Ok nodeIDs => mkGetVolume volResp nodeIDs (default (mkCondition false "Volume is available") condition)
            end
  end.

Definition ControllerGetVolume (id : string) : M (tables * W) (result error GetVolumeResponse) :=
  match parseCsiID id with
  | None => panic
  | Some (Err _) => fail (invalid_id id)
  | Some (Ok csi) =>
      let? c := on_arrays (one_client (arrayID csi)) orelse not_found in
      do? probe in
      let* r := on_arrays (get_volume id c) in ok r
  end.
End requests.

(** ** What the plugin says of itself *)
Definition ControllerGetCapabilities (IsHealthMonitorEnabled : bool) : list string :=
  ["CREATE_DELETE_VOLUME"; "PUBLISH_UNPUBLISH_VOLUME"; "GET_CAPACITY"; "CREATE_DELETE_SNAPSHOT"; "CLONE_VOLUME"; "EXPAND_VOLUME";
   "SINGLE_NODE_MULTI_WRITER"] ++ (if IsHealthMonitorEnabled then ["VOLUME_CONDITION"; "GET_VOLUME"] else []).
Definition NodeGetCapabilities (IsHealthMonitorEnabled : bool) : list string :=
  ["STAGE_UNSTAGE_VOLUME"; "EXPAND_VOLUME"; "SINGLE_NODE_MULTI_WRITER"]
    ++ (if IsHealthMonitorEnabled then ["GET_VOLUME_STATS"; "VOLUME_CONDITION"] else []).
Definition GetPluginCapabilities (mode : string) : list string :=
  if EqualFold mode "node" then [] else ["CONTROLLER_SERVICE"; "ONLINE"; "VOLUME_ACCESSIBILITY_CONSTRAINTS"; "GROUP_CONTROLLER_SERVICE"].
(** The actions of GetReplicationCapabilities. *)
Definition GetReplicationCapabilities (mode : string) : list string :=
  if EqualFold mode "node" then []
  else ["FAILOVER_LOCAL"; "FAILOVER_REMOTE"; "UNPLANNED_FAILOVER_LOCAL"; "UNPLANNED_FAILOVER_REMOTE"; "REPROTECT_LOCAL"; "REPROTECT_REMOTE";
        "FAILOVER_WITHOUT_SWAP_LOCAL"; "FAILOVER_WITHOUT_SWAP_REMOTE"; "FAILBACK_LOCAL"; "FAILBACK_REMOTE"; "SWAP_LOCAL"; "SWAP_REMOTE";
        "SUSPEND"; "RESUME"; "ESTABLISH"; "SYNC"].
Definition GetMigrationCapabilities : list string := ["NON_REPL_TO_REPL"; "REPL_TO_NON_REPL"; "VERSION_UPGRADE"].

Section probe.
Context {W : Type}.
Variable mode : string.
Variables (controllerProbe nodeProbe nodeStartup : M W (option error)).
Variable nodeIsInitialized : W → bool.

(** A node that does not start is only logged; the delay before its start, one second for a service of both
    modes, is a matter of [nodeStartup]. *)
Definition Probe : M W (result error bool) :=
  do? (if EqualFold mode "node" then ret None else controllerProbe) in
  do? (if EqualFold mode "controller" then ret None
       else
         let* e := nodeProbe in
         match e with
         | Some e => ret (Some e)
         | None =>
             let* initialized := Publish.get nodeIsInitialized in
             if initialized then ret None else let* _ := nodeStartup in ret None
         end) in
  ok true.
Definition ProbeController : M W (result error bool) :=
  do? (if EqualFold mode "node" then ret None else controllerProbe) in ok true.
End probe.

(** ** Theorems *)
(** What the driver can do with a capability. *)
Definition acceptable (vcs : list VolumeCapability) (vc : VolumeCapability) : Prop :=
  (GetBlock vc = true ∨ is_Some (GetMount vc))
  ∧ GetAccessMode vc ≠ Some UNKNOWN ∧ (∀ n, GetAccessMode vc ≠ Some (OTHER_MODE n))
  ∧ (GetAccessMode vc = Some MULTI_NODE_SINGLE_WRITER ∨ GetAccessMode vc = Some MULTI_NODE_MULTI_WRITER → ∃ b, b ∈ vcs ∧ GetBlock b = true).

Lemma refused_None isBlock vc :
  refused isBlock vc = None ↔
  GetAccessMode vc ≠ Some UNKNOWN ∧ (∀ n, GetAccessMode vc ≠ Some (OTHER_MODE n))
  ∧ (GetAccessMode vc = Some MULTI_NODE_SINGLE_WRITER ∨ GetAccessMode vc = Some MULTI_NODE_MULTI_WRITER → isBlock = true).
Proof. unfold refused. destruct (GetAccessMode vc) as [[]|], isBlock; naive_solver. Qed.

Lemma refused_reason isBlock vc r : refused isBlock vc = Some r → r ≠ "".
Proof. unfold refused. destruct (GetAccessMode vc) as [[]|]; try done; first [by intros [= <-]|destruct isBlock; [done|by intros [= <-]]]. Qed.

Lemma scan_caps_spec isBlock vcs supported reason :
  (supported = true ↔ reason = "") →
  ((scan_caps isBlock vcs supported reason).1 = true ↔ supported = true ∧ Forall (λ vc, refused isBlock vc = None) vcs)
  ∧ ((scan_caps isBlock vcs supported reason).1 = true ↔ (scan_caps isBlock vcs supported reason).2 = "").
Proof.
  revert supported reason. induction vcs as [|vc vcs IH]; intros supported reason Hs; simpl.
  { split; [|done]. split; [by split|by intros [? _]]. }
  rewrite Forall_cons. destruct (refused isBlock vc) as [r|] eqn:E.
  - destruct (IH false r) as [H1 H2]; [split; [done|intros ->; by apply refused_reason in E]|]. rewrite H1. split; [naive_solver|]. rewrite <- H1. exact H2.
  - destruct (IH supported reason Hs) as [H1 H2]. split; [|done]. rewrite H1. naive_solver.
Qed.

Lemma accTypeIsBlock_spec vcs : accTypeIsBlock vcs = true ↔ ∃ b, b ∈ vcs ∧ GetBlock b = true.
Proof. unfold accTypeIsBlock. rewrite existsb_exists. setoid_rewrite <- list_elem_of_In. done. Qed.

Lemma valVolumeCaps_spec vcs :
  ((valVolumeCaps vcs).1 = true ↔ Forall (acceptable vcs) vcs) ∧ ((valVolumeCaps vcs).1 = true ↔ (valVolumeCaps vcs).2 = "").
Proof.
  unfold valVolumeCaps. destruct (checkValidAccessTypes vcs) eqn:Ht; cbn [negb].
  - assert (Forall (λ vc, GetBlock vc = true ∨ is_Some (GetMount vc)) vcs) as Hty.
    { rewrite Forall_forall. intros vc Hv. unfold checkValidAccessTypes in Ht. rewrite forallb_forall in Ht.
      apply list_elem_of_In, Ht, orb_prop in Hv as [?|?%bool_decide_eq_true]; auto. }
    destruct (scan_caps_spec (accTypeIsBlock vcs) vcs true "") as [H1 H2]; [done|]. split; [|done]. rewrite H1. rewrite !Forall_forall in *.
    split; [intros [_ Hr] vc Hv|intros Ha; split; [done|]; intros vc Hv].
    + specialize (Hr vc Hv). apply refused_None in Hr as (Hu & Ho & Hw). split; [by apply Hty|]. split; [done|]. split; [done|]. intros ?%Hw. by apply accTypeIsBlock_spec.
    + destruct (Ha vc Hv) as (_ & Hu & Ho & Hw). apply refused_None. split; [done|]. split; [done|]. intros ?%Hw. by apply accTypeIsBlock_spec.
  - split; [|done]. split; [done|]. intros Ha. exfalso. apply not_true_iff_false in Ht. apply Ht. unfold checkValidAccessTypes.
    apply forallb_forall. intros vc Hv%list_elem_of_In. rewrite Forall_forall in Ha. destruct (Ha vc Hv) as [[->|Hm] _]; [done|].
    rewrite bool_decide_eq_true_2 by done. apply orb_true_r.
Qed.

Section theorems.
Context {W C : Type} `{Pmax W C} `{RdfClient W C}.
Variable GetPowerMaxClient : string → string → M W (result error C).
Variables (useProxy autoProbe : bool) (grpcMaxThreads : Z).
Variable controllerProbe : M W (option error).
Variable SLO : StorageGroup → string.

(** One of the groups has the value, when one is asked for. *)
Definition some_group (c : C) (symID value : string) (field : StorageGroup → string) (groups : list string) : Prop :=
  value = "" ∨ ∃ sgID sg, sgID ∈ groups ∧ Provision.answers (GetStorageGroup (W := W) c symID sgID) (Ok sg) ∧ field sg = value.

Lemma find_context_ok symID sp sl all (c : C) groups foundSP foundSL :
  (∀ g, g ∈ groups → g ∈ all) →
  (foundSP = true → some_group c symID sp SG_SRP all) → (foundSL = true → some_group c symID sl SLO all) →
  post (find_context SLO symID sp sl foundSP foundSL groups c)
    (λ r, r.1 && r.2 = true → some_group c symID sp SG_SRP all ∧ some_group c symID sl SLO all).
Proof.
  revert foundSP foundSL. induction groups as [|g groups IH]; intros foundSP foundSL Hin Hp Hl; simpl.
  { apply post_ret. intros [? ?]%andb_prop. auto. }
  eapply post_bind; [apply Provision.lift_answers|]. intros r Hr.
  destruct (match r with Ok sg => _ | Err _ => _ end) as [p' l'] eqn:E.
  assert ((p' = true → some_group c symID sp SG_SRP all) ∧ (l' = true → some_group c symID sl SLO all)) as [Hp' Hl'].
  { destruct r as [sg|e]; injection E as <- <-; [|done].
    split; intros [?|[_ Heq]%bool_decide_eq_true]%orb_prop; auto; right; exists g, sg; (split; [apply Hin; by constructor|by split]). }
  destruct (p' && l') eqn:Eb; [apply post_ret; intros _; apply andb_prop in Eb as [? ?]; auto|].
  apply IH; [intros x Hx; apply Hin; by constructor|done..].
Qed.

(** C21: a validation that succeeds is about a volume the array has under the name of its id, in groups with the
    pool and the service level of the context; it confirms the capabilities, unchanged, exactly when the
    driver can do all of them: each block or mount, with a known mode, and writers of several nodes only
    for a block volume; otherwise it gives a reason. *)
Theorem validation_exact volID attributes vcs t resp t' :
  ValidateVolumeCapabilities GetPowerMaxClient useProxy autoProbe grpcMaxThreads controllerProbe SLO volID attributes vcs t = Some (Ok resp, t') →
  (∃ csi c vol, parseCsiID volID = Some (Ok csi)
     ∧ Provision.answers (GetVolumeByID (W := W) (C := C) c (arrayID csi) (devID csi)) (Ok vol)
     ∧ volumeIdentifiersMatch (volName csi) (VolumeIdentifier vol) = true
     ∧ some_group c (arrayID csi) (default "" (attributes !! StoragePoolParam)) SG_SRP (StorageGroupIDList vol)
     ∧ some_group c (arrayID csi) (default "" (attributes !! ServiceLevelParam)) SLO (StorageGroupIDList vol))
  ∧ (Confirmed resp = Some (vcs, attributes) ↔ Forall (acceptable vcs) vcs)
  ∧ (Confirmed resp = None ↔ v_Message resp ≠ "").
Proof.
  unfold ValidateVolumeCapabilities. destruct (parseCsiID volID) as [[csi|e]|] eqn:Ep; [|done..]. intros Hr.
  apply try_Some in Hr as (c & t1 & Ec & Hr). cbv beta in Hr. apply check_Some in Hr as (t2 & Epr & Hr).
  apply on_arrays_inv in Hr as [Hr _]. apply try_Some in Hr as (vol & w1 & Ev & Hr). cbv beta in Hr. injection Ev as Ev.
  destruct (volumeIdentifiersMatch _ _) eqn:Em; cbn [negb] in Hr; [|done]. apply mbnd_Some in Hr as (reason & w2 & Ectx & Hr).
  destruct reason as [reason|]; [done|]. destruct (valVolumeCaps vcs) as [supported reason] eqn:Evc. injection Hr as <- _.
  destruct (valVolumeCaps_spec vcs) as [H1 H2]. rewrite Evc in H1, H2. cbn [fst snd] in H1, H2. split.
  - exists csi, c, vol. split; [done|]. split; [by exists t2.2, w1|]. split; [done|].
    unfold valVolumeContext in Ectx. destruct (StorageGroupIDList vol) as [|g gs] eqn:Eg; [done|]. rewrite <- Eg in *.
    apply mbnd_Some in Ectx as ([p l] & w3 & Ef & Ex). destruct (p && l) eqn:Epl; [|done].
    apply (find_context_ok (arrayID csi) _ _ (StorageGroupIDList vol) c) in Ef; [by apply Ef|done|by intros ?%bool_decide_eq_true; left..].
  - destruct supported; simpl; split; split; try done; [intros _; by apply H1|intros Ha; apply H1 in Ha; done|intros _ Hm; discriminate (proj2 H2 Hm)].
Qed.
End theorems.

Section exclusion.
Context {W C : Type} `{Pmax W C} `{MaskingClient W C} `{Caches W} `{FileClient W C} `{Client104 W C} `{RdfClient W C}.

Lemma while_volume_pending_refuses {A} ind volID (m : M (tables * W) (result error A)) t w now w' :
  Now (C := C) w = (now, w') → is_Some (pendingMap (controllerPendingState t) !! volID) →
  while_volume_pending (C := C) ind volID m (t, w) = Some (Err (pending_status ErrPending), (t, w')).
Proof.
  intros Hn Hp. unfold while_volume_pending, while_pending, mbnd, on_arrays, lift, get_pending, checkAndUpdatePendingState. cbn [fst snd get_table controller_table].
  rewrite Hn. cbn [fst snd]. by rewrite bool_decide_eq_true_2 by done.
Qed.

(** While a request for a volume is in progress, another one for it, to publish it or to take it away, is refused
    as pending, without a change of the tables and without a call of the arrays but for the client and the
    clock. *)
Theorem volume_requests_exclusive GetPowerMaxClient svc duration queuedAdds queuedRemovals chan useProxy autoProbe threads ind controllerProbe
    (client104 : C) enabled logMetroStateCheck versions prefix volID nodeID reqID req t (w : W) csi c w1 now w2 :
  volID ≠ "" → parseCsiID volID = Some (Ok csi) → remoteSymID csi = "" →
  GetPowerMaxClient (arrayID csi) "" w = Some (Ok c, w1) → Now (C := C) w1 = (now, w2) →
  is_Some (pendingMap (controllerPendingState t) !! volID) →
  ControllerPublishVolume GetPowerMaxClient svc duration queuedAdds chan useProxy autoProbe threads ind controllerProbe client104 enabled
    logMetroStateCheck versions prefix volID reqID req (t, w) = Some (Err (pending_status ErrPending), (t, w2))
  ∧ ControllerUnpublishVolume GetPowerMaxClient svc queuedRemovals chan useProxy autoProbe threads ind controllerProbe enabled
      logMetroStateCheck volID nodeID reqID (t, w) = Some (Err (pending_status ErrPending), (t, w2)).
Proof.
  intros Hv Hid Hrem Hc Hn Hp. unfold ControllerPublishVolume, ControllerUnpublishVolume. rewrite !decide_False by done. rewrite Hid, Hrem.
  rewrite bool_decide_eq_false_2 by tauto. cbn [andb].
  split; unfold check, try, ret, on_arrays; cbv beta iota; unfold mbnd; cbn [fst snd]; rewrite Hc; cbv beta iota; by eapply while_volume_pending_refuses.
Qed.
End exclusion.

(** ** Names of nodes *)
Lemma after_dash_app a s : has_char "-"%char a = false → after_dash (a ++ "-" ++ s) = Some s.
Proof.
  induction a as [|c a IH]; [done|]. rewrite app_str_cons. simpl. intros Hc. apply orb_false_elim in Hc as [Hc Ha].
  rewrite decide_False; [by apply IH|]. intros ->. by rewrite Ascii.eqb_refl in Hc.
Qed.

(** The node behind a masking view of the driver, with its dots as dashes and the suffix of the protocol. *)
Lemma node_of_view svc nodeID :
  has_char "-"%char (ClusterPrefix svc) = false →
  getHostIDFromMaskingView (GetISCSIHostSGAndMVIDFromNodeID svc nodeID).2 = Some (dots_to_dashes nodeID)
  ∧ getHostIDFromMaskingView (GetFCHostSGAndMVIDFromNodeID svc nodeID).2 = Some (dots_to_dashes nodeID ++ FCSuffix)
  ∧ getHostIDFromMaskingView (GetNVMETCPHostSGAndMVIDFromNodeID svc nodeID).2 = Some (dots_to_dashes nodeID ++ NVMETCPSuffix).
Proof.
  intros Hp. unfold getHostIDFromMaskingView, GetFCHostSGAndMVIDFromNodeID, GetNVMETCPHostSGAndMVIDFromNodeID, with_suffix, GetISCSIHostSGAndMVIDFromNodeID, CsiMVPrefix.
  cbn [fst snd]. rewrite !app_str_assoc. change ("csi-mv-" ++ ?x) with ("csi" ++ "-" ++ ("mv" ++ "-" ++ x)).
  split_and!; rewrite (after_dash_app "csi" _ eq_refl); cbn [mbind option_bind]; rewrite (after_dash_app "mv" _ eq_refl); cbn [mbind option_bind]; by rewrite after_dash_app.
Qed.

(** Every advertised action but SYNC is one that ExecuteAction knows. *)
Definition known_actions : list string :=
  [Replication.FailOver; Replication.FailBack; Replication.Swap; RepRequests.Reprotect; "SUSPEND"; "RESUME"; "ESTABLISH"].
Lemma advertised_known mode a : a ∈ GetReplicationCapabilities mode → a ≠ "SYNC" → (RepRequests.getActionString a).1 ∈ known_actions.
Proof.
  unfold GetReplicationCapabilities. destruct (EqualFold mode "node"); [by intros ?%elem_of_nil|].
  assert (forallb (λ a, bool_decide (a = "SYNC" ∨ (RepRequests.getActionString a).1 ∈ known_actions)) (GetReplicationCapabilities "controller") = true) as Hall
    by (vm_compute; reflexivity).
  intros Ha%list_elem_of_In Hs. rewrite forallb_forall in Hall. apply Hall, bool_decide_eq_true in Ha as [?|?]; done.
Qed.

(** ** Examples *)
Import SimArray SimMasking.

Definition demo_id := "csi-ABC-vol1-000120000548-00001".
Definition demo_world (groups : list string) (state : string) : Sim :=
  let w := sim [mkVolume "00001" "csi-ABC-vol1" groups false false "" 0 547 [1] fzero] (mkStorageGroupRDFG ["R1"] [state]) in
  mkSim (sim_time w) (sim_version w) (sim_volumes w) (sim_snaps w) (mkStorageGroup 1 1 "g" "SRP_1" ["csi-mv-ABC-n1-FC"]) (sim_rdf w) (sim_group w)
    (sim_dirs w) (sim_log w) (sim_licenses w).
Definition any_client (_ _ : string) : M Sim (result error string) := ret (Ok "c").
Definition gold (_ : StorageGroup) : string := "Gold".

Definition no_requests : tables := mkTables (mkPending 4 0 ∅) (mkPending 4 0 ∅) (mkPending 4 0 ∅).

Definition mount (am : AccessMode) : VolumeCapability := mkCapability (Some am) (Some "ext4") false.
Definition validated (vcs : list VolumeCapability) : option (result error ValidateResponse * (tables * Sim)) :=
  ValidateVolumeCapabilities any_client true false 4 (ret None) gold demo_id {[StoragePoolParam := "SRP_1"]} vcs (no_requests, demo_world ["g"] "").

Lemma validation_exact_witness :
  match validated [mount SINGLE_NODE_WRITER; mount MULTI_NODE_MULTI_WRITER] with
  | Some (Ok resp, _) =>
      Confirmed resp = None ∧ v_Message resp = errNoMultiNodeWriter
      ∧ ¬ Forall (acceptable [mount SINGLE_NODE_WRITER; mount MULTI_NODE_MULTI_WRITER]) [mount SINGLE_NODE_WRITER; mount MULTI_NODE_MULTI_WRITER]
  | _ => False
  end.
Proof.
  assert (match validated [mount SINGLE_NODE_WRITER; mount MULTI_NODE_MULTI_WRITER] with
          | Some (Ok resp, _) => Confirmed resp = None ∧ v_Message resp = errNoMultiNodeWriter | _ => False end) as Hr by (vm_compute; done).
  destruct (validated [mount SINGLE_NODE_WRITER; mount MULTI_NODE_MULTI_WRITER]) as [[[resp|e] t']|] eqn:E; [|done..].
  destruct Hr as [Hn Hm]. split; [exact Hn|]. split; [exact Hm|]. intros Ha.
  destruct (validation_exact any_client true false 4 (ret None) gold demo_id {[StoragePoolParam := "SRP_1"]}
              [mount SINGLE_NODE_WRITER; mount MULTI_NODE_MULTI_WRITER] (no_requests, demo_world ["g"] "") resp t' E) as (_ & Hiff & _).
  apply Hiff in Ha. rewrite Hn in Ha. discriminate Ha.
Defined.

Definition state_of (id : string) (w : Sim) : option GetVolumeResponse := fst <$> get_volume (C := string) true id "c" w.

(** The protected group of a Metro volume is named with METRO, the condition looks for Metro and metro:
    a suspended pair is reported as available. The id in the answer is the one of the device, and the
    node carries the suffix of its masking view. *)
Example degraded_not_reported :
  state_of demo_id (demo_world ["csi-no-srp-sg-ABC-n1-FC"; Replication.buildProtectionGroupID "ns" "1" Replication.Metro] "Suspended")
  = Some (mkGetVolume (Some ("00001", 547 * cylinderSizeInBytes)) ["n1-FC"] (mkCondition false "Volume is available")).
Proof. vm_compute. reflexivity. Qed.

(** An advertised action that is refused. *)
Example sync_not_supported :
  existsb (String.eqb "SYNC") (GetReplicationCapabilities "controller") = true
  ∧ RepRequests.run_action "SYNC" "000120000548" "g" "1" "c" (demo_world [] "")
    = Some (Err (statusError Unknown "The requested action does not match with supported actions"), demo_world [] "").
Proof. split; vm_compute; reflexivity. Qed.

(** Nothing is cached, and the 10.4 interface does not answer. *)
#[local] Existing Instance Files.sim_files.
#[local] Existing Instance RepRequests.sim_rdf_client.
#[local] Instance no_caches : Caches Sim := {
  Publish.portIdentifiers _ _ := None;
  Publish.setPortIdentifiers _ _ w := w;
  Publish.nodeCache _ := ∅;
  Publish.setNodeCache _ w := w;
}.
#[local] Instance no_104 : Client104 Sim string := { Publish.PublishMaskingViews _ _ _ w := (Err (errorString "unavailable"), w) }.

Definition in_progress : tables := mkTables (mkPending 4 1 {[demo_id := 1]}) (mkPending 4 0 ∅) (mkPending 4 0 ∅).
Lemma volume_requests_exclusive_witness :
  let w := demo_world ["g"] "" in
  ControllerPublishVolume any_client plain 1000 (λ _, []) 7 true false 4 (mkInduced false false) (ret None) "c" true (λ _ _ _ _, ret None)
    (λ _ _, ret (Ok "10.0")) "powermax" demo_id "1" (Publish.mkPublishRequest "n1" None ∅) (in_progress, w)
  = Some (Err (statusError Unavailable "pending"), (in_progress, w))
  ∧ ControllerUnpublishVolume any_client plain (λ _, []) 7 true false 4 (mkInduced false false) (ret None) true (λ _ _ _ _, ret None)
      demo_id "n1" "1" (in_progress, w) = Some (Err (statusError Unavailable "pending"), (in_progress, w)).
Proof.
  apply (volume_requests_exclusive any_client plain 1000 (λ _, []) (λ _, []) 7 true false 4 (mkInduced false false) (ret None) "c" true (λ _ _ _ _, ret None)
           (λ _ _, ret (Ok "10.0")) "powermax" demo_id "n1" "1" (Publish.mkPublishRequest "n1" None ∅) in_progress (demo_world ["g"] "")
           (mkCsiID "csi-ABC-vol1" "000120000548" "00001" "" "") "c" (demo_world ["g"] "") 100 (demo_world ["g"] "")).
  - by vm_compute.
  - vm_compute. reflexivity.
  - reflexivity.
  - reflexivity.
  - reflexivity.
  - vm_compute. eauto.
Defined.
End ControllerRequests.
